(* ===== verification/_CoqProject ===== *)
-Q . S2P
Prelude.v
Params.v
Cstring.v
Kalloc.v
Vm.v
Uvm.v
Spinlock.v
ProcData.v
Proc.v
ProcInv.v
ProcSteps.v
ProcProps.v
Sched.v
SchedProps.v
Pipe.v
Sleeplock.v
Ide.v
BufCache.v
Bio.v
Bytes.v
Log.v
LogProps.v
LogSpace.v
Tx.v
Fs.v
FsAt.v
FsAlloc.v
FsMap.v
FsFile.v
FsInode.v
FsDir.v
FsCache.v
FsPath.v
FsTrunc.v
FsContents.v
FsEx.v
FsProps.v
File.v
FileAt.v
FileWrite.v
FileTable.v
FileProps.v
Syscall.v
Sysfile.v
Balanced.v
SysEx.v
SyscallProps.v
SysOpen.v
User.v
UserProps.v
Grep.v
UserEx.v
Tools.v
Umalloc.v
Mkfs.v
MkfsProps.v
MkfsMain.v
Sh.v
ShLex.v
ShParse.v
ShGrammar.v
ShProps.v
ShRun.v
Console.v
ConsoleProps.v
Kbd.v
Exec.v
ExecMem.v
ExecSwap.v
ExecPlan.v
ExecProps.v
ExecFs.v
ExecEx.v
Sysproc.v
SbrkProps.v
SleepProps.v
Trap.v
Mp.v
Devices.v
Boot.v
