(* ===== verification/Prelude.v ===== *)
(** * A model of the xv6 kernel and its user programs

    The program is an xv6 kernel for 32-bit x86 with four scheduling
    policies and some more system calls, together with the user programs it
    boots into.  Names under src/xv6/ are given without the directory.

    ** How the parts fit together

    User programs enter the kernel through a system call (syscall.c), which
    reads the arguments from user memory and dispatches.  sysfile.c works on
    open files (file.c), which are pipes (pipe.c) or inodes of the file
    system (fs.c).  The file system reads and writes blocks inside
    transactions of the write-ahead log (log.c), which sits on the buffer
    cache (bio.c) and the disk driver (ide.c).  Processes (proc.c) own a
    page table (vm.c) whose pages come from the page allocator (kalloc.c);
    the schedulers choose among the runnable ones.  exec.c replaces the
    memory of a process by a program from a file.  Spin locks (spinlock.c)
    and sleep locks (sleeplock.c) order what CPUs and processes do.
    Interrupts enter through trap.c: the clock, the disk, the keyboard and
    the serial line (kbd.c, uart.c, console.c), system calls and faults.  The
    boot loader (bootmain.c) loads the kernel from the disk; main.c starts
    the other processors, which mp.c finds in the tables of the machine and
    lapic.c wakes.  mkfs.c builds the first file system image on the host.

    ** Style of the model

    C code is translated into a state monad whose result is a value, a
    panic, an undefined access, or the end of the model's fuel ([outcome]
    and [M], below).  Integers are [Z] with the width applied where the C
    type says so ([u8], [u16], [u32], [s16], [s32]).  Kernel memory is a
    function from addresses to bytes.  [wp c s Q] says that [c] returns
    from [s] and that [Q] holds of the result: it is total correctness, so
    every theorem stated with it, or with an equation [c s = Ret ..],
    includes that the code neither panics nor runs on.  Code that other
    processes can interleave with is a step relation, and its theorems are
    by induction on reachability.

    ** Files

    - Params: param.h, memlayout.h, traps.h, the paging macros of mmu.h.
    - Cstring: string.c over byte-addressed memory, and rep stos of x86.h.
    - Kalloc: kalloc.c; the free list is threaded through the free pages.
    - Vm, Uvm: vm.c; Uvm has the abstract view of an address space and the
      theorems about the operations that change it.
    - Spinlock: spinlock.c, as sequential code and as a step relation of
      the memory accesses of any number of CPUs.
    - ProcData, Proc, ProcInv, ProcSteps, ProcProps: proc.c without the
      schedulers; its state, its functions, the invariant of the process
      table, the critical sections as steps, and the theorems.
    - Sched, SchedProps: the four schedulers of proc.c.
    - Pipe: the critical sections of pipe.c and the steps of any number of
      readers and writers.
    - Sleeplock, Ide: sleeplock.c and ide.c, with their step relations.
      Ide.Memide: memide.c, against the same specification of a request.
    - BufCache: the interface of the buffer cache, a class of operations
      with the laws that its clients use.  Bio: bio.c, and that it satisfies
      the laws.
    - Bytes: little-endian fields of a block.
    - Log, LogProps, LogSpace: log.c over that interface; crashes are
      prefixes of the list of disk writes.
    - Tx: the interface that the log gives to the file system (reads, writes
      in a transaction, begin and end), and that log.c satisfies it.
    - Fs and FsAt .. FsTrunc: fs.c over the log's interface, and one file of
      lemmas for each layer: the assertion on states, block and inode
      allocation, the block map, file contents, inodes, directories, the
      inode cache, paths, truncation.  FsContents: the contents of a file as
      one list of bytes.  FsEx, FsProps: an example disk and the theorems.
    - File, FileAt, FileWrite, FileTable, FileProps: file.c and pipealloc.
    - Syscall, Sysfile: syscall.c and sysfile.c.  Balanced, SyscallProps,
      SysOpen: theorems about the system calls.  SysEx runs system calls
      through sysfile.c, file.c, fs.c, log.c, bio.c and ide.c by evaluation.
    - User, UserProps: ulib.c, printf.c and small programs (cat, wc, echo,
      cp) over the system calls as an interface.  Grep: grep.c, with what a
      pattern means.  UserEx: a small machine that runs them.  Tools:
      ls.c, rm.c, mkdir.c, ln.c, kill.c, xpri.c, main of wc.c.
    - Umalloc: umalloc.c over the memory of the process.
    - Mkfs, MkfsProps, MkfsMain: mkfs.c over the image file.
    - Sh: sh.c, with gets of ulib.c.  ShLex, ShParse, ShGrammar, ShProps: its
      parser against a grammar of tokens.  ShRun: what the system calls of
      runcmd and main do to descriptors, directory and input.
    - Console, ConsoleProps, Kbd: console.c, the output side of uart.c, kbd.c
      and kbd.h.
    - Exec: exec.c over an interface to the file system.  ExecMem, ExecSwap:
      lemmas about the memory it builds and the switch to it.  ExecPlan: what
      a file and arguments should become, and the laws of the interface.
      ExecProps: the theorem.  ExecFs: fs.c satisfies the laws.  ExecEx: an
      example.
    - Sysproc: sysproc.c and the dispatch of syscall.c, with arguments read
      through the page table.  SbrkProps, SleepProps: sbrk and sleep.
    - Trap: trap.c.
    - Mp: mp.c and mp.h.
    - Devices: lapic.c, ioapic.c, picirq.c and uartinit as sequences of
      accesses to registers; what a read gives is a parameter.
    - Boot: bootmain.c, and startothers of main.c.

    ** What the theorems show

    - Memory: kalloc and kfree refine a stack of free pages; allocuvm,
      deallocuvm, freevm, mappages and copyout change exactly the pages they
      should, and lose none.
    - Processes: an invariant of the process table under every interleaving
      of its critical sections; wait frees what a child had; yield reaches
      the scheduler with the right lock held; what each scheduler chooses, and
      that round robin passes over no process that stays runnable;
      sbrk grows and shrinks memory exactly; sleep ends after its ticks.
    - Programs: exec makes the memory that the file and the arguments
      describe, or fails and loses nothing; this is proved against laws that
      fs.c is proved to satisfy.
    - Traps: a clock interrupt preempts; a fault in the kernel panics and a
      fault in user space ends its process.
    - Locks: mutual exclusion of spin locks and sleep locks.
    - Storage: the disk driver is a queue, the buffer cache is transparent,
      a commit is atomic under crashes and recovery can itself be
      interrupted, the log does not overflow when it has one block more than
      mkfs gives it, and does with the number mkfs gives it.
    - Files: writes read back, names resolve as on the directory tree, blocks
      and inodes are allocated and freed exactly; a write to an open file is
      durable and torn only between transactions; open and read compose.
    - System calls: user pointers are checked, only the buffer that a call
      names changes, and every path gives back its locks and ends its
      transaction.
    - User programs: cat copies, wc counts and grep prints the lines that
      match for every way in which the kernel can cut a stream into reads;
      ls lists what is there and leaves no descriptor open; malloc gives out
      disjoint blocks; the shell's parser accepts exactly its grammar, and the
      shell, on any input, starts the programs of each line with the
      descriptors it asks for and does cd itself.
    - Devices: the console is a list of lines and a line being edited,
      whatever the interleaving of keys and reads; the keyboard's tables are
      read as the keys held say; interrupts are routed as asked; the clock
      chip gives a date that was shown at one moment; the two disk drivers
      serve a request alike.
    - Start: mkfs makes an image that the kernel reads back; the boot loader
      puts the kernel's segments where its headers say; mpinit reads back the
      processor tables; startothers starts each processor once, with what it
      needs in place.

    ** Fuel and bounds

    A loop without a bound in its data has fuel.  Loops that wait for another
    process (sleep) take the fuel and the behaviour of the others as
    parameters.  Most theorems about them hold for all values, because the
    loops do not wait in the states they are stated for; sys_sleep does wait,
    and its theorem has as many turns as the clock needs.  Loops that poll a
    device have more fuel than the polls after which the device is ready,
    which is a hypothesis.  The other fuel values are the number of bytes,
    entries or blocks that the loop passes over, so that they never run out;
    the theorems prove it.

    ** Not modelled

    - Assembly (entry.S, swtch.S, trapasm.S, bootasm.S, entryother.S,
      initcode.S, usys.S, vectors.pl): a switch is the point where the
      model of one process ends or another one continues.
    - Formats of the hardware: segment descriptors (seginit of vm.c), the
      interrupt table (tvinit and idtinit of trap.c), entrypgdir of main.c.
    - main, mpmain and mpenter of main.c, which call the parts one after the
      other: the parts have states of their own here.
    - The debugging functions getcallerpcs and procdump, and consoleinit.
    - strcpy, strlen, memset and memmove of ulib.c: strings of user programs
      are lists of bytes here.
    - Programs that fork, burn time or print what a call returns: init.c,
      zombie.c, new.c, pinfo.c, ps.c, time.c, benchmark.c (new.c and
      benchmark.c compute with floating point).
    - The test programs usertests.c, stressfs.c and forktest.c. *)

From stdpp Require Export base numbers list list_numbers gmap strings sorting.
From Stdlib Require Export ZArith Lia.

#[global] Open Scope Z_scope.

(** * Outcomes of C code

    A piece of kernel code either returns, reaches a call of panic(), or
    does something to which C gives no meaning (an access outside an array
    or through a null pointer), or outlasts the fuel of a model loop. *)

Inductive outcome (A : Type) : Type :=
| Ret (a : A)
| Panic (msg : string)
| Undef
| OutOfFuel.
Arguments Ret {A} a.
Arguments Panic {A} msg.
Arguments Undef {A}.
Arguments OutOfFuel {A}.

(** * The state monad over outcomes *)

Definition M (S A : Type) : Type := S → outcome (A * S).

Definition ret {S A} (a : A) : M S A := λ s, Ret (a, s).

Definition bind {S A B} (c : M S A) (k : A → M S B) : M S B :=
  λ s, match c s with
       | Ret (a, s') => k a s'
       | Panic msg => Panic msg
       | Undef => Undef
       | OutOfFuel => OutOfFuel
       end.

Definition panic {S A} (msg : string) : M S A := λ _, Panic msg.
Definition undef {S A} : M S A := λ _, Undef.
Definition out_of_fuel {S A} : M S A := λ _, OutOfFuel.
Definition get {S} : M S S := λ s, Ret (s, s).
Definition gets {S A} (f : S → A) : M S A := λ s, Ret (f s, s).
Definition put {S} (s : S) : M S unit := λ _, Ret (tt, s).
Definition modify {S} (f : S → S) : M S unit := λ s, Ret (tt, f s).

(** A lookup that C performs without a check: undefined when out of range. *)
Definition of_option {S A} (o : option A) : M S A :=
  match o with Some a => ret a | None => undef end.

Declare Scope c_scope.
Delimit Scope c_scope with C.

Notation "x <- c1 ;; c2" := (bind c1 (λ x, c2))
  (at level 100, c1 at next level, right associativity) : c_scope.
Notation "c1 ;;; c2" := (bind c1 (λ _, c2))
  (at level 100, right associativity) : c_scope.
#[global] Open Scope c_scope.

(** * Reasoning about monadic code *)

Lemma bind_ret_eval {S A B} (c : M S A) (k : A → M S B) s a s' :
  c s = Ret (a, s') → bind c k s = k a s'.
Proof. intros H. unfold bind. by rewrite H. Qed.

Lemma bind_assoc {S A B C} (c : M S A) (k : A → M S B) (k' : B → M S C) s :
  bind (bind c k) k' s = bind c (λ a, bind (k a) k') s.
Proof. unfold bind. by destruct (c s) as [[a s']| | |]. Qed.

Lemma bind_ext {S A B} (c : M S A) (k k' : A → M S B) s :
  (∀ a s', k a s' = k' a s') → bind c k s = bind c k' s.
Proof. intros H. unfold bind. destruct (c s) as [[a s']| | |]; auto. Qed.

Lemma bind_inv {S A B} (c : M S A) (k : A → M S B) s r :
  bind c k s = Ret r → ∃ a s1, c s = Ret (a, s1) ∧ k a s1 = Ret r.
Proof.
  unfold bind. destruct (c s) as [[a s1]| | |] eqn:E; intros H; try discriminate.
  eauto.
Qed.

Lemma ret_inv {S A} (a : A) (s : S) b s' :
  ret a s = Ret (b, s') → b = a ∧ s' = s.
Proof. unfold ret. by intros [= -> ->]. Qed.

Lemma of_option_inv {S A} (o : option A) (s : S) a s' :
  of_option o s = Ret (a, s') → o = Some a ∧ s' = s.
Proof. destruct o; simpl; [|discriminate]. by intros [= -> ->]. Qed.

(** Code that either returns or is undefined: no panic, no unbounded loop. *)
Definition tame {S A} (c : M S A) : Prop :=
  ∀ s, (∃ r, c s = Ret r) ∨ c s = Undef.

Lemma tame_bind {S A B} (c : M S A) (k : A → M S B) :
  tame c → (∀ a, tame (k a)) → tame (bind c k).
Proof.
  intros Hc Hk s. unfold bind. destruct (Hc s) as [[[a s'] ->]| ->]; [apply Hk|auto].
Qed.

Lemma tame_of_option {S A} (o : option A) : tame (S := S) (of_option o).
Proof. intros s. destruct o; simpl; [left; by eexists|by right]. Qed.

Lemma tame_get {S} : tame (@get S).
Proof. intros s. left. by eexists. Qed.

Lemma tame_put {S} (s : S) : tame (put s).
Proof. intros s'. left. by eexists. Qed.

Create HintDb tame.
#[export] Hint Resolve tame_bind tame_of_option tame_get tame_put : tame.

(** [mon_inv H] opens a monadic run [H : c s = Ret r] one bind at a time. *)
Ltac mon_inv H :=
  lazymatch type of H with
  | bind _ _ _ = Ret _ =>
      let a := fresh "a" in let s := fresh "s" in
      let H1 := fresh H in
      apply bind_inv in H as (a & s & H1 & H); cbv beta in H; mon_inv H1; mon_inv H
  | ret _ _ = Ret _ => unfold ret in H; simplify_eq
  | get _ = Ret _ => unfold get in H; simplify_eq
  | gets _ _ = Ret _ => unfold gets in H; simplify_eq
  | put _ _ = Ret _ => unfold put in H; simplify_eq
  | modify _ _ = Ret _ => unfold modify in H; simplify_eq
  | of_option _ _ = Ret _ => apply of_option_inv in H as [? ?]; simplify_eq
  | panic _ _ = Ret _ => discriminate H
  | undef _ = Ret _ => discriminate H
  | out_of_fuel _ = Ret _ => discriminate H
  | _ => idtac
  end.

(** * Total correctness

    [wp c s Q]: run from [s], [c] returns, and [Q] holds of the result and of
    the state it leaves. *)

Definition wp {S A} (c : M S A) (s : S) (Q : A → S → Prop) : Prop :=
  ∃ a s', c s = Ret (a, s') ∧ Q a s'.

Lemma wp_bind {S A B} (c : M S A) (k : A → M S B) s Q :
  wp c s (λ a s', wp (k a) s' Q) → wp (bind c k) s Q.
Proof.
  intros (a & s1 & E & b & s2 & E2 & H). exists b, s2. by rewrite (bind_ret_eval _ _ _ _ _ E).
Qed.

Lemma wp_mono {S A} (c : M S A) s (Q Q' : A → S → Prop) :
  wp c s Q → (∀ a s', Q a s' → Q' a s') → wp c s Q'.
Proof. intros (a & s' & E & H) HQ. exists a, s'. eauto. Qed.

Lemma wp_ret {S A} (a : A) (s : S) (Q : A → S → Prop) : Q a s → wp (ret a) s Q.
Proof. intros. by exists a, s. Qed.

Lemma wp_get {S} (s : S) (Q : S → S → Prop) : Q s s → wp get s Q.
Proof. intros. by exists s, s. Qed.

Lemma wp_gets {S A} (f : S → A) (s : S) (Q : A → S → Prop) : Q (f s) s → wp (gets f) s Q.
Proof. intros. by exists (f s), s. Qed.

Lemma wp_put {S} (s s1 : S) (Q : unit → S → Prop) : Q tt s1 → wp (put s1) s Q.
Proof. intros. by exists tt, s1. Qed.

Lemma wp_modify {S} (f : S → S) (s : S) (Q : unit → S → Prop) : Q tt (f s) → wp (modify f) s Q.
Proof. intros. by exists tt, (f s). Qed.

Lemma wp_of_option {S A} (o : option A) a (s : S) (Q : A → S → Prop) :
  o = Some a → Q a s → wp (of_option o) s Q.
Proof. intros -> H. by exists a, s. Qed.

(** [wp_step] takes the steps that touch no more than the monad. *)
Ltac wp_step :=
  cbv beta;
  lazymatch goal with
  | |- wp (bind _ _) _ _ => apply wp_bind
  | |- wp (ret _) _ _ => apply wp_ret
  | |- wp get _ _ => apply wp_get
  | |- wp (gets _) _ _ => apply wp_gets
  | |- wp (put _) _ _ => apply wp_put
  | |- wp (modify _) _ _ => apply wp_modify
  end; cbv beta.

(** * Machine integers

    Values are kept as [Z]; the width is applied where the C type says so. *)

Definition u8 (x : Z) : Z := x mod 256.
Definition u16 (x : Z) : Z := x mod 65536.
Definition u32 (x : Z) : Z := x mod 4294967296.

(** Two's complement readings: the values of a C [short] and a C [int]. *)
Definition s16 (x : Z) : Z :=
  let y := u16 x in if y <? 32768 then y else y - 65536.

Definition s32 (x : Z) : Z :=
  let y := u32 x in if y <? 2147483648 then y else y - 4294967296.

Lemma u32_range x : 0 ≤ u32 x < 4294967296.
Proof. unfold u32. apply Z.mod_pos_bound. lia. Qed.

Lemma u32_small x : 0 ≤ x < 4294967296 → u32 x = x.
Proof. apply Z.mod_small. Qed.

Lemma u32_idem x : u32 (u32 x) = u32 x.
Proof. apply u32_small, u32_range. Qed.

Lemma u32_add_l x y : u32 (u32 x + y) = u32 (x + y).
Proof. unfold u32. by rewrite Zplus_mod_idemp_l. Qed.

Lemma u32_add_r x y : u32 (x + u32 y) = u32 (x + y).
Proof. unfold u32. by rewrite Zplus_mod_idemp_r. Qed.

Lemma u32_sub_l x y : u32 (u32 x - y) = u32 (x - y).
Proof. unfold u32. by rewrite Zminus_mod_idemp_l. Qed.

Lemma u32_sub_r x y : u32 (x - u32 y) = u32 (x - y).
Proof. unfold u32. by rewrite Zminus_mod_idemp_r. Qed.

Lemma s32_range x : -2147483648 ≤ s32 x < 2147483648.
Proof. unfold s32. pose proof (u32_range x). destruct (Z.ltb_spec (u32 x) 2147483648); lia. Qed.

Lemma s32_small x : -2147483648 ≤ x < 2147483648 → s32 x = x.
Proof.
  intros H. unfold s32, u32. destruct (decide (0 ≤ x)).
  - rewrite Z.mod_small by lia. destruct (Z.ltb_spec x 2147483648); lia.
  - replace (x mod 4294967296) with (x + 4294967296).
    + destruct (Z.ltb_spec (x + 4294967296) 2147483648); lia.
    + symmetry. rewrite <- (Z.mod_add x 1) by lia. rewrite Z.mod_small; lia.
Qed.

Lemma u8_range x : 0 ≤ u8 x < 256.
Proof. unfold u8. apply Z.mod_pos_bound. lia. Qed.

Lemma u8_small x : 0 ≤ x < 256 → u8 x = x.
Proof. apply Z.mod_small. Qed.

Create HintDb cint.
#[export] Hint Resolve u32_range u8_range s32_range : cint.
Create Rewrite HintDb cint.
#[export] Hint Rewrite u32_idem u32_add_l u32_add_r u32_sub_l u32_sub_r : cint.

(** [zcases] splits on every integer comparison of the goal, [zcases_in H]
    on those of a hypothesis; impossible cases are closed by [lia]. *)
Ltac zcases :=
  repeat (match goal with
          | |- context [Z.eqb ?x ?y] => destruct (Z.eqb_spec x y)
          | |- context [Z.ltb ?x ?y] => destruct (Z.ltb_spec x y)
          | |- context [Z.leb ?x ?y] => destruct (Z.leb_spec x y)
          end; cbn [andb orb negb]; try (exfalso; lia)).
Ltac zcases_in H :=
  repeat (match type of H with
          | context [Z.eqb ?x ?y] => destruct (Z.eqb_spec x y)
          | context [Z.ltb ?x ?y] => destruct (Z.ltb_spec x y)
          | context [Z.leb ?x ?y] => destruct (Z.leb_spec x y)
          end; cbn [andb orb negb] in H; try (exfalso; lia)).
