(* ===== verification/Params.v ===== *)
(** Constants and address arithmetic of param.h, memlayout.h, mmu.h,
    fs.h and traps.h. *)

From S2P Require Import Prelude.

(** * param.h *)
Definition NPROC : Z := 64.
Definition KSTACKSIZE : Z := 4096.
Definition NCPU : Z := 8.
Definition NOFILE : Z := 16.
Definition NFILE : Z := 100.
Definition NINODE : Z := 50.
Definition NDEV : Z := 10.
Definition ROOTDEV : Z := 1.
Definition MAXARG : Z := 32.
Definition MAXOPBLOCKS : Z := 10.
Definition LOGSIZE : Z := MAXOPBLOCKS * 3.
Definition NBUF : Z := MAXOPBLOCKS * 3.
Definition FSSIZE : Z := 1000.

(** * memlayout.h *)
Definition EXTMEM : Z := 1048576.       (* 0x100000 *)
Definition PHYSTOP : Z := 234881024.    (* 0xE000000 *)
Definition DEVSPACE : Z := 4261412864.  (* 0xFE000000 *)
Definition KERNBASE : Z := 2147483648.  (* 0x80000000 *)
Definition KERNLINK : Z := KERNBASE + EXTMEM.
Definition V2P (a : Z) : Z := u32 (a - KERNBASE).
Definition P2V (a : Z) : Z := u32 (a + KERNBASE).

(** * mmu.h: paging *)
Definition NPDENTRIES : Z := 1024.
Definition PGSIZE : Z := 4096.
Definition PDX (va : Z) : Z := Z.land (Z.shiftr va 22) 1023.
Definition PTX (va : Z) : Z := Z.land (Z.shiftr va 12) 1023.
Definition PGADDR (d t o : Z) : Z :=
  u32 (Z.lor (Z.lor (Z.shiftl d 22) (Z.shiftl t 12)) o).
Definition PGROUNDDOWN (a : Z) : Z := Z.land a (u32 (Z.lnot (PGSIZE - 1))).
Definition PGROUNDUP (sz : Z) : Z :=
  Z.land (u32 (sz + PGSIZE - 1)) (u32 (Z.lnot (PGSIZE - 1))).
Definition PTE_P : Z := 1.
Definition PTE_W : Z := 2.
Definition PTE_U : Z := 4.
Definition PTE_ADDR (pte : Z) : Z := Z.land pte (u32 (Z.lnot 4095)).
Definition PTE_FLAGS (pte : Z) : Z := Z.land pte 4095.

(** * fs.h *)
Definition ROOTINO : Z := 1.
Definition BSIZE : Z := 512.
Definition NDIRECT : Z := 12.
Definition NINDIRECT : Z := BSIZE / 4.
Definition MAXFILE : Z := NDIRECT + NINDIRECT.
Definition IPB : Z := BSIZE / 64.            (* sizeof(struct dinode) is 64 *)
Definition BPB : Z := BSIZE * 8.
Definition DIRSIZ : Z := 14.

(** * traps.h *)
Definition T_SYSCALL : Z := 64.
Definition T_IRQ0 : Z := 32.
Definition IRQ_TIMER : Z := 0.
Definition IRQ_KBD : Z := 1.
Definition IRQ_COM1 : Z := 4.
Definition IRQ_IDE : Z := 14.
Definition IRQ_ERROR : Z := 19.
Definition IRQ_SPURIOUS : Z := 31.

(** * Arithmetic readings of the macros *)

Lemma land_page_mask x :
  0 ≤ x < 4294967296 → Z.land x (u32 (Z.lnot 4095)) = x / 4096 * 4096.
Proof.
  intros Hx. change (u32 (Z.lnot 4095)) with (Z.shiftl (Z.ones 20) 12).
  change 4096 with (2 ^ 12).
  rewrite <- Z.shiftl_mul_pow2, <- Z.shiftr_div_pow2 by lia.
  apply Z.bits_inj_iff'. intros k Hk. rewrite Z.land_spec.
  destruct (Z.lt_ge_cases k 12).
  - by rewrite !Z.shiftl_spec_low, andb_false_r by lia.
  - rewrite !Z.shiftl_spec by lia. rewrite Z.shiftr_spec by lia.
    replace (k - 12 + 12) with k by lia.
    destruct (Z.lt_ge_cases (k - 12) 20).
    + rewrite Z.ones_spec_low by lia. by rewrite andb_true_r.
    + rewrite Z.ones_spec_high by lia. rewrite andb_false_r.
      destruct (decide (x = 0)) as [->|]; [by rewrite Z.bits_0|].
      rewrite Z.bits_above_log2; [done|lia|].
      apply Z.log2_lt_pow2; [lia|]. apply Z.lt_le_trans with (2 ^ 32); [lia|].
      apply Z.pow_le_mono_r; lia.
Qed.

Lemma PGROUNDDOWN_alt a : 0 ≤ a < 4294967296 → PGROUNDDOWN a = a / 4096 * 4096.
Proof. apply land_page_mask. Qed.

Lemma PTE_ADDR_alt a : 0 ≤ a < 4294967296 → PTE_ADDR a = a / 4096 * 4096.
Proof. apply land_page_mask. Qed.

Lemma PGROUNDUP_alt a :
  0 ≤ a → a + 4095 < 4294967296 → PGROUNDUP a = (a + 4095) / 4096 * 4096.
Proof.
  intros H1 H2. unfold PGROUNDUP, PGSIZE.
  replace (a + 4096 - 1) with (a + 4095) by lia.
  rewrite u32_small by lia. apply land_page_mask. lia.
Qed.

Lemma PTE_FLAGS_alt a : PTE_FLAGS a = a mod 4096.
Proof. unfold PTE_FLAGS. change 4095 with (Z.ones 12). by rewrite Z.land_ones. Qed.

Lemma PDX_alt va : 0 ≤ va < 4294967296 → PDX va = va / 4194304.
Proof.
  intros H. unfold PDX. change 1023 with (Z.ones 10).
  rewrite Z.land_ones, Z.shiftr_div_pow2 by lia. change (2 ^ 22) with 4194304.
  change (2 ^ 10) with 1024. apply Z.mod_small. Z.div_mod_to_equations. lia.
Qed.

Lemma PTX_alt va : PTX va = va / 4096 mod 1024.
Proof.
  unfold PTX. change 1023 with (Z.ones 10).
  by rewrite Z.land_ones, Z.shiftr_div_pow2 by lia.
Qed.

Lemma PDX_range va : 0 ≤ PDX va < 1024.
Proof.
  unfold PDX. change 1023 with (Z.ones 10). rewrite Z.land_ones by lia.
  apply Z.mod_pos_bound. lia.
Qed.

Lemma PTX_range va : 0 ≤ PTX va < 1024.
Proof. rewrite PTX_alt. apply Z.mod_pos_bound. lia. Qed.

Lemma V2P_small a : KERNBASE ≤ a < 4294967296 → V2P a = a - KERNBASE.
Proof. unfold V2P, KERNBASE. intros H. apply u32_small. lia. Qed.

Lemma P2V_small a : 0 ≤ a < KERNBASE → P2V a = a + KERNBASE.
Proof. unfold P2V, KERNBASE. intros H. apply u32_small. lia. Qed.

Lemma P2V_V2P a : 0 ≤ a < 4294967296 → P2V (V2P a) = a.
Proof.
  intros H. unfold P2V, V2P. rewrite u32_add_l.
  replace (a - KERNBASE + KERNBASE) with a by lia. by apply u32_small.
Qed.
#[export] Hint Resolve PDX_range PTX_range : cint.
