(* ===== verification/Cstring.v ===== *)
(** Byte-addressed memory and the kernel's string.c.

    The kernel runs with all physical memory mapped at KERNBASE, so kernel
    memory is a function from (kernel virtual) addresses to bytes.  A
    pointer is its address.  [stosb] and [stosl] are the x86.h helpers that
    execute rep stosb and rep stosl. *)

From S2P Require Import Prelude.

(** * Memory *)

Definition mem : Type := Z → Z.

Definition mem_ok (m : mem) : Prop := ∀ a, 0 ≤ m a < 256.

Definition st8 (a v : Z) (m : mem) : mem := λ x, if x =? a then u8 v else m x.

Definition ld32 (m : mem) (a : Z) : Z :=
  m a + 256 * m (a + 1) + 65536 * m (a + 2) + 16777216 * m (a + 3).

Definition st32 (a v : Z) (m : mem) : mem :=
  st8 (a + 3) (Z.shiftr v 24)
    (st8 (a + 2) (Z.shiftr v 16) (st8 (a + 1) (Z.shiftr v 8) (st8 a v m))).

(** The [n] bytes at [a]. *)
Definition bytes_at (m : mem) (a : Z) (n : nat) : list Z :=
  (λ i, m (a + Z.of_nat i)) <$> seq 0 n.

(** * x86.h: rep stos *)

Fixpoint stosb (a c : Z) (n : nat) (m : mem) : mem :=
  match n with
  | O => m
  | S n' => stosb (a + 1) c n' (st8 a c m)
  end.

Fixpoint stosl (a c : Z) (n : nat) (m : mem) : mem :=
  match n with
  | O => m
  | S n' => stosl (a + 4) c n' (st32 a c m)
  end.

(** * string.c *)

Definition memset (dst c n : Z) (m : mem) : mem :=
  if (Z.rem (s32 dst) 4 =? 0) && (n mod 4 =? 0) then
    let c := Z.land c 255 in
    stosl dst
      (Z.lor (Z.lor (Z.lor (Z.shiftl c 24) (Z.shiftl c 16)) (Z.shiftl c 8)) c)
      (Z.to_nat (n / 4)) m
  else stosb dst c (Z.to_nat n) m.

Fixpoint memcmp_loop (m : mem) (s1 s2 : Z) (n : nat) : Z :=
  match n with
  | O => 0
  | S n' =>
      if negb (m s1 =? m s2) then m s1 - m s2
      else memcmp_loop m (s1 + 1) (s2 + 1) n'
  end.

Definition memcmp (v1 v2 n : Z) (m : mem) : Z := memcmp_loop m v1 v2 (Z.to_nat n).

(** [while(n-- > 0) *d++ = *s++;] *)
Fixpoint copy_up (d s : Z) (n : nat) (m : mem) : mem :=
  match n with
  | O => m
  | S n' => copy_up (d + 1) (s + 1) n' (st8 d (m s) m)
  end.

(** [while(n-- > 0) *--d = *--s;] *)
Fixpoint copy_down (d s : Z) (n : nat) (m : mem) : mem :=
  match n with
  | O => m
  | S n' => copy_down (d - 1) (s - 1) n' (st8 (d - 1) (m (s - 1)) m)
  end.

Definition memmove (dst src n : Z) (m : mem) : mem :=
  if (src <? dst) && (dst <? src + n) then
    copy_down (dst + n) (src + n) (Z.to_nat n) m
  else copy_up dst src (Z.to_nat n) m.

Definition memcpy (dst src n : Z) (m : mem) : mem := memmove dst src n m.

(** [while(n > 0 && *p && *p == *q) n--, p++, q++;] then the result. *)
Fixpoint strncmp_loop (m : mem) (p q : Z) (n : nat) : Z :=
  match n with
  | O => 0
  | S n' =>
      if negb (m p =? 0) && (m p =? m q) then strncmp_loop m (p + 1) (q + 1) n'
      else m p - m q
  end.

Definition strncmp (p q n : Z) (m : mem) : Z := strncmp_loop m p q (Z.to_nat n).

(** [while(n-- > 0) *s++ = 0;] *)
Fixpoint zero_loop (s : Z) (n : nat) (m : mem) : mem :=
  match n with
  | O => m
  | S n' => zero_loop (s + 1) n' (st8 s 0 m)
  end.

(** The two loops of strncpy: copy until a NUL has been copied, then pad.
    The first loop decrements [n] once more when it leaves because of
    [n-- > 0]; the second loop is then not entered. *)
Fixpoint strncpy_loop (s t : Z) (n : nat) (m : mem) : mem :=
  match n with
  | O => m
  | S n' =>
      let m' := st8 s (m t) m in
      if m t =? 0 then zero_loop (s + 1) n' m'
      else strncpy_loop (s + 1) (t + 1) n' m'
  end.

Definition strncpy (s t n : Z) (m : mem) : mem := strncpy_loop s t (Z.to_nat n) m.

(** [while(--n > 0 && ( *s++ = *t++ ) != 0) ; *s = 0;] with [k] copies left. *)
Fixpoint safestrcpy_loop (s t : Z) (k : nat) (m : mem) : mem :=
  match k with
  | O => st8 s 0 m
  | S k' =>
      let m' := st8 s (m t) m in
      if m t =? 0 then st8 (s + 1) 0 m'
      else safestrcpy_loop (s + 1) (t + 1) k' m'
  end.

Definition safestrcpy (s t n : Z) (m : mem) : mem :=
  if n <=? 0 then m else safestrcpy_loop s t (Z.to_nat (n - 1)) m.

(** [for(n = 0; s[n]; n++) ;]  The scan has no bound of its own. *)
Fixpoint strlen_loop (fuel : nat) (m : mem) (s n : Z) : outcome Z :=
  match fuel with
  | O => OutOfFuel
  | S f => if m (s + n) =? 0 then Ret n else strlen_loop f m s (n + 1)
  end.

Definition strlen (fuel : nat) (s : Z) (m : mem) : outcome Z := strlen_loop fuel m s 0.

(** * Memory lemmas *)

Lemma st8_same a v m : st8 a v m a = u8 v.
Proof. unfold st8. by rewrite Z.eqb_refl. Qed.

Lemma st8_other a v m x : x ≠ a → st8 a v m x = m x.
Proof. intros H. unfold st8. destruct (Z.eqb_spec x a); congruence. Qed.

Lemma st8_ok a v m : mem_ok m → mem_ok (st8 a v m).
Proof. intros Hm x. unfold st8. destruct (x =? a); auto with cint. Qed.

Lemma st32_ok a v m : mem_ok m → mem_ok (st32 a v m).
Proof. intros Hm. unfold st32. do 4 apply st8_ok. done. Qed.
#[export] Hint Resolve st8_ok st32_ok : cint.

Lemma st32_other a v m x : ¬ (a ≤ x < a + 4) → st32 a v m x = m x.
Proof. intros H. unfold st32. by rewrite !st8_other by lia. Qed.

Lemma st32_byte a v m k :
  0 ≤ k < 4 → st32 a v m (a + k) = u8 (Z.shiftr v (8 * k)).
Proof.
  intros H. unfold st32, st8.
  assert (k = 0 ∨ k = 1 ∨ k = 2 ∨ k = 3) as [->|[->|[->| ->]]] by lia;
    repeat match goal with |- context [?x =? ?y] =>
             destruct (Z.eqb_spec x y); try lia end;
    try done.
Qed.

Lemma bytes_combine v :
  u8 v + 256 * u8 (Z.shiftr v 8) + 65536 * u8 (Z.shiftr v 16)
    + 16777216 * u8 (Z.shiftr v 24) = u32 v.
Proof.
  unfold u8, u32. rewrite !Z.shiftr_div_pow2 by lia.
  change (2 ^ 8) with 256. change (2 ^ 16) with (256 * 256).
  change (2 ^ 24) with (256 * 256 * 256).
  rewrite <- !Z.div_div by lia.
  Z.div_mod_to_equations. lia.
Qed.

Lemma ld32_st32_same a v m : ld32 (st32 a v m) a = u32 v.
Proof.
  unfold ld32. rewrite <- bytes_combine.
  rewrite <- (Z.add_0_r a) at 2.
  rewrite !st32_byte by lia. rewrite Z.mul_0_r, Z.shiftr_0_r.
  by rewrite !Z.mul_1_r.
Qed.

Lemma ld32_ext m m' a :
  (∀ x, a ≤ x < a + 4 → m x = m' x) → ld32 m a = ld32 m' a.
Proof. intros H. unfold ld32. by rewrite !H by lia. Qed.

Lemma ld32_st32_other a v m b :
  b + 4 ≤ a ∨ a + 4 ≤ b → ld32 (st32 a v m) b = ld32 m b.
Proof. intros H. apply ld32_ext. intros x Hx. apply st32_other. lia. Qed.

Lemma ld32_range m a : mem_ok m → 0 ≤ ld32 m a < 4294967296.
Proof.
  intros H. unfold ld32.
  pose proof (H a). pose proof (H (a + 1)). pose proof (H (a + 2)).
  pose proof (H (a + 3)). lia.
Qed.
#[export] Hint Resolve ld32_range : cint.

(** * memset *)

Lemma stosb_spec n : ∀ a c m x,
  stosb a c n m x = if (a <=? x) && (x <? a + Z.of_nat n) then u8 c else m x.
Proof.
  induction n as [|n IH]; intros a c m x; cbn [stosb].
  - by zcases.
  - rewrite IH. unfold st8. by zcases.
Qed.

Lemma stosl_other n : ∀ a c m x,
  ¬ (a ≤ x < a + 4 * Z.of_nat n) → stosl a c n m x = m x.
Proof.
  induction n as [|n IH]; intros a c m x H; simpl; [done|].
  rewrite IH by lia. apply st32_other. lia.
Qed.

Lemma stosl_byte n : ∀ a c m i k,
  0 ≤ i < Z.of_nat n → 0 ≤ k < 4 →
  stosl a c n m (a + 4 * i + k) = u8 (Z.shiftr c (8 * k)).
Proof.
  induction n as [|n IH]; intros a c m i k Hi Hk; [lia|]. simpl.
  destruct (decide (i = 0)) as [->|Hne].
  - rewrite stosl_other by lia.
    replace (a + 4 * 0 + k) with (a + k) by lia. by apply st32_byte.
  - replace (a + 4 * i + k) with (a + 4 + 4 * (i - 1) + k) by lia.
    apply IH; lia.
Qed.

Lemma land_shiftl_low a b n :
  0 ≤ n → 0 ≤ a < 2 ^ n → Z.land (Z.shiftl b n) a = 0.
Proof.
  intros Hn Ha. destruct (decide (a = 0)) as [->|Ha0]; [apply Z.land_0_r|].
  apply Z.bits_inj_iff'. intros k Hk. rewrite Z.land_spec, Z.bits_0.
  destruct (Z.lt_ge_cases k n); [by rewrite Z.shiftl_spec_low|].
  rewrite (Z.bits_above_log2 a), andb_false_r; [done|lia|].
  apply Z.log2_lt_pow2; [lia|]. apply Z.lt_le_trans with (2 ^ n); [lia|].
  apply Z.pow_le_mono_r; lia.
Qed.

Lemma lor_shiftl_add a b n :
  0 ≤ n → 0 ≤ a < 2 ^ n → Z.lor (Z.shiftl b n) a = b * 2 ^ n + a.
Proof.
  intros Hn Ha. rewrite <- Z.shiftl_mul_pow2 by lia.
  rewrite Z.add_nocarry_lxor by by apply land_shiftl_low.
  symmetry. by apply Z.lxor_lor, land_shiftl_low.
Qed.

Lemma replicated_byte c k :
  0 ≤ c < 256 → 0 ≤ k < 4 →
  u8 (Z.shiftr (Z.lor (Z.lor (Z.lor (Z.shiftl c 24) (Z.shiftl c 16)) (Z.shiftl c 8)) c)
        (8 * k)) = c.
Proof.
  intros Hc Hk.
  rewrite <- !Z.lor_assoc.
  rewrite (lor_shiftl_add c c 8) by lia.
  rewrite (lor_shiftl_add (c * 2 ^ 8 + c) c 16) by lia.
  rewrite (lor_shiftl_add (c * 2 ^ 16 + (c * 2 ^ 8 + c)) c 24) by lia.
  rewrite Z.shiftr_div_pow2 by lia. unfold u8.
  assert (k = 0 ∨ k = 1 ∨ k = 2 ∨ k = 3) as [->|[->|[->| ->]]] by lia; simpl;
    Z.div_mod_to_equations; lia.
Qed.

Lemma land_255 c : Z.land c 255 = u8 c.
Proof. change 255 with (Z.ones 8). by rewrite Z.land_ones by lia. Qed.

(** Both branches of memset (word stores when pointer and length are
    multiples of four, byte stores otherwise) fill the same range. *)
Lemma memset_spec dst c n m x :
  0 ≤ n →
  memset dst c n m x = if (dst <=? x) && (x <? dst + n) then u8 c else m x.
Proof.
  intros Hn. unfold memset.
  destruct ((Z.rem (s32 dst) 4 =? 0) && (n mod 4 =? 0)) eqn:E.
  - apply andb_prop in E as [_ E%Z.eqb_eq].
    destruct (decide (dst ≤ x < dst + n)) as [Hx|Hx].
    + replace x with (dst + 4 * ((x - dst) / 4) + (x - dst) mod 4)
        by (Z.div_mod_to_equations; lia).
      rewrite stosl_byte by (Z.div_mod_to_equations; lia).
      rewrite replicated_byte, land_255;
        [|rewrite land_255; apply u8_range|Z.div_mod_to_equations; lia].
      zcases; done || (Z.div_mod_to_equations; lia).
    + rewrite stosl_other by (Z.div_mod_to_equations; lia). by zcases.
  - rewrite stosb_spec, Z2Nat.id by lia. done.
Qed.

Lemma memset_ok dst c n m : 0 ≤ n → mem_ok m → mem_ok (memset dst c n m).
Proof.
  intros Hn Hm x. rewrite memset_spec by done. zcases; auto with cint.
Qed.

(** * memmove *)

Lemma copy_up_spec n : ∀ d s m x,
  mem_ok m → d ≤ s ∨ s + Z.of_nat n ≤ d →
  copy_up d s n m x = if (d <=? x) && (x <? d + Z.of_nat n) then m (s + (x - d)) else m x.
Proof.
  induction n as [|n IH]; intros d s m x Hm Hov; cbn [copy_up].
  - by zcases.
  - rewrite IH by (auto with cint; lia).
    zcases; rewrite ?st8_other by lia; try done.
    + f_equal; lia.
    + assert (x = d) as -> by lia. rewrite st8_same, u8_small by apply Hm.
      f_equal; lia.
Qed.

Lemma copy_down_spec n : ∀ d s m x,
  mem_ok m → s ≤ d →
  copy_down d s n m x
  = if (d - Z.of_nat n <=? x) && (x <? d) then m (s + (x - d)) else m x.
Proof.
  induction n as [|n IH]; intros d s m x Hm Hov; cbn [copy_down].
  - by zcases.
  - rewrite IH by (auto with cint; lia).
    zcases; rewrite ?st8_other by lia; try done.
    + f_equal; lia.
    + assert (x = d - 1) as -> by lia. rewrite st8_same, u8_small by apply Hm.
      f_equal; lia.
Qed.

Lemma memmove_lookup dst src n m x :
  mem_ok m → 0 ≤ n →
  memmove dst src n m x
  = if (dst <=? x) && (x <? dst + n) then m (src + (x - dst)) else m x.
Proof.
  intros Hm Hn. unfold memmove.
  destruct (Z.ltb_spec src dst), (Z.ltb_spec dst (src + n)); cbn [andb];
    try (rewrite copy_down_spec by (auto; lia));
    try (rewrite copy_up_spec by (auto; lia));
    rewrite Z2Nat.id by lia; zcases; try done; f_equal; lia.
Qed.

Lemma memmove_ok dst src n m : mem_ok m → 0 ≤ n → mem_ok (memmove dst src n m).
Proof. intros Hm Hn x. rewrite memmove_lookup by done. zcases; apply Hm. Qed.
#[export] Hint Resolve memset_ok memmove_ok : cint.

Lemma bytes_at_length m a n : length (bytes_at m a n) = n.
Proof. unfold bytes_at. by rewrite length_fmap, length_seq. Qed.

Lemma bytes_at_ext m a m' b n :
  (∀ i, 0 ≤ i < Z.of_nat n → m (a + i) = m' (b + i)) → bytes_at m a n = bytes_at m' b n.
Proof.
  intros H. unfold bytes_at. apply list_fmap_ext. intros i x Hx.
  apply lookup_seq in Hx as [-> ?]. apply H. lia.
Qed.

Lemma bytes_at_S m a n : bytes_at m a (S n) = m a :: bytes_at m (a + 1) n.
Proof.
  unfold bytes_at. cbn [seq fmap list_fmap]. rewrite Z.add_0_r. f_equal.
  rewrite <- fmap_S_seq, <- list_fmap_compose. apply list_fmap_ext.
  intros i x _. simpl. f_equal. lia.
Qed.

(** * Strings: the bytes before the first NUL, at most [n] of them *)

Fixpoint cstr (m : mem) (a : Z) (n : nat) : list Z :=
  match n with
  | O => []
  | S n' => if m a =? 0 then [] else m a :: cstr m (a + 1) n'
  end.

Lemma cstr_S m a n :
  cstr m a (S n) = if m a =? 0 then [] else m a :: cstr m (a + 1) n.
Proof. done. Qed.

(** The same prefix, computed from the list of bytes. *)
Fixpoint upto_nul (l : list Z) : list Z :=
  match l with
  | [] => []
  | c :: l' => if c =? 0 then [] else c :: upto_nul l'
  end.

Lemma cstr_upto_nul m n : ∀ a, cstr m a n = upto_nul (bytes_at m a n).
Proof.
  induction n as [|n IH]; intros a; [done|].
  rewrite cstr_S, bytes_at_S, IH. done.
Qed.

Lemma upto_nul_pad l k : upto_nul (upto_nul l ++ replicate k 0) = upto_nul l.
Proof.
  induction l as [|c l IH]; simpl; [by destruct k|].
  destruct (Z.eqb_spec c 0) as [E|E]; simpl; [by destruct k|].
  destruct (Z.eqb_spec c 0); [done|]. by rewrite IH.
Qed.

Lemma cstr_length m a n : (length (cstr m a n) ≤ n)%nat.
Proof.
  revert a. induction n as [|n IH]; intros a; cbn [cstr]; [done|].
  destruct (m a =? 0); cbn [length]; [lia|]. specialize (IH (a + 1)). lia.
Qed.

Lemma cstr_short_nul m n : ∀ a l,
  cstr m a n = l → (length l < n)%nat → ∃ i, 0 ≤ i < Z.of_nat n ∧ m (a + i) = 0.
Proof.
  induction n as [|n IH]; intros a l <- Hl; [lia|].
  rewrite cstr_S in Hl. destruct (Z.eqb_spec (m a) 0) as [E|E].
  - exists 0. rewrite Z.add_0_r. split; [lia|done].
  - destruct (IH (a + 1) _ eq_refl) as (i & Hi & Hz); [simpl in Hl; lia|].
    exists (i + 1). split; [lia|]. rewrite <- Hz. f_equal. lia.
Qed.

Lemma cstr_ext m a m' b n :
  (∀ i, 0 ≤ i < Z.of_nat n → m (a + i) = m' (b + i)) → cstr m a n = cstr m' b n.
Proof.
  revert a b. induction n as [|n IH]; intros a b H; cbn [cstr]; [done|].
  pose proof (H 0) as H0. rewrite !Z.add_0_r in H0. rewrite <- H0 by lia.
  destruct (m a =? 0); [done|]. f_equal. apply IH. intros i Hi.
  replace (a + 1 + i) with (a + (i + 1)) by lia.
  replace (b + 1 + i) with (b + (i + 1)) by lia. apply H. lia.
Qed.

Lemma memcmp_loop_zero m n : ∀ s1 s2,
  memcmp_loop m s1 s2 n = 0 ↔ bytes_at m s1 n = bytes_at m s2 n.
Proof.
  induction n as [|n IH]; intros s1 s2; [done|].
  rewrite !bytes_at_S. cbn [memcmp_loop].
  destruct (Z.eqb_spec (m s1) (m s2)) as [E|E]; cbn [negb].
  - rewrite IH, E. split; [by intros ->|by intros [= ->]].
  - split; [lia|]. intros [= ??]. lia.
Qed.

Lemma strncmp_loop_zero m n : ∀ p q,
  strncmp_loop m p q n = 0 ↔ cstr m p n = cstr m q n.
Proof.
  induction n as [|n IH]; intros p q; cbn [strncmp_loop cstr]; [done|].
  destruct (Z.eqb_spec (m p) 0) as [E|E]; cbn [negb andb].
  - destruct (Z.eqb_spec (m q) 0) as [E'|E']; split; intros H; try done; lia.
  - destruct (Z.eqb_spec (m p) (m q)) as [Epq|Epq].
    + rewrite <- Epq, IH. destruct (Z.eqb_spec (m p) 0); [done|].
      split; [by intros ->|by intros [= ->]].
    + destruct (Z.eqb_spec (m q) 0) as [E'|E']; split; intros H; try lia; try done.
      injection H. lia.
Qed.

Lemma zero_loop_spec n : ∀ s m x,
  zero_loop s n m x = if (s <=? x) && (x <? s + Z.of_nat n) then 0 else m x.
Proof.
  induction n as [|n IH]; intros s m x; cbn [zero_loop].
  - by zcases.
  - rewrite IH. unfold st8. by zcases.
Qed.

Lemma strncpy_loop_other n : ∀ s t m x,
  ¬ (s ≤ x < s + Z.of_nat n) → strncpy_loop s t n m x = m x.
Proof.
  induction n as [|n IH]; intros s t m x H; cbn [strncpy_loop]; [done|].
  destruct (m t =? 0).
  - rewrite zero_loop_spec. zcases; by rewrite ?st8_other by lia.
  - rewrite IH by lia. apply st8_other. lia.
Qed.

(** The field written by strncpy: the source string, then NULs up to [n]. *)
Lemma strncpy_loop_field n : ∀ s t m,
  mem_ok m → t + Z.of_nat n ≤ s ∨ s + Z.of_nat n ≤ t →
  bytes_at (strncpy_loop s t n m) s n
  = cstr m t n ++ replicate (n - length (cstr m t n)) 0.
Proof.
  induction n as [|n IH]; intros s t m Hm Hov; [done|].
  rewrite bytes_at_S. cbn [strncpy_loop cstr].
  destruct (Z.eqb_spec (m t) 0) as [E|E].
  - cbn [length app]. rewrite Nat.sub_0_r. cbn [replicate]. f_equal.
    + rewrite zero_loop_spec. zcases. by rewrite st8_same, E.
    + apply list_eq_same_length with n;
        [apply length_replicate|apply bytes_at_length|].
      intros i x y Hi Hx Hy.
      apply lookup_replicate in Hy as [-> _].
      unfold bytes_at in Hx. rewrite list_lookup_fmap, lookup_seq_lt in Hx by done.
      injection Hx as <-. rewrite zero_loop_spec. by zcases.
  - cbn [length app Nat.sub]. f_equal.
    + rewrite strncpy_loop_other by lia. rewrite st8_same. apply u8_small, Hm.
    + rewrite IH by (auto with cint; lia).
      rewrite (cstr_ext (st8 s (m t) m) (t + 1) m (t + 1)); [done|].
      intros i Hi. apply st8_other. lia.
Qed.

Lemma safestrcpy_loop_other k : ∀ s t m x,
  ¬ (s ≤ x < s + Z.of_nat k + 1) → safestrcpy_loop s t k m x = m x.
Proof.
  induction k as [|k IH]; intros s t m x H; cbn [safestrcpy_loop].
  - apply st8_other. lia.
  - destruct (m t =? 0).
    + rewrite !st8_other by lia. done.
    + rewrite IH by lia. apply st8_other. lia.
Qed.

(** What safestrcpy leaves at the destination, read back as a string. *)
Lemma safestrcpy_loop_cstr k : ∀ s t m,
  mem_ok m → t + Z.of_nat k ≤ s ∨ s + Z.of_nat k + 1 ≤ t →
  cstr (safestrcpy_loop s t k m) s (S k) = cstr m t k.
Proof.
  induction k as [|k IH]; intros s t m Hm Hov.
  - cbn [safestrcpy_loop cstr]. by rewrite st8_same.
  - rewrite cstr_S, (cstr_S m t k). cbn [safestrcpy_loop].
    destruct (Z.eqb_spec (m t) 0) as [E|E].
    + rewrite st8_other, st8_same, E by lia. done.
    + rewrite safestrcpy_loop_other by lia.
      rewrite st8_same, u8_small by apply Hm.
      destruct (Z.eqb_spec (m t) 0); [done|]. f_equal.
      rewrite IH by (auto with cint; lia).
      apply cstr_ext. intros i Hi. apply st8_other. lia.
Qed.

Lemma strlen_loop_spec m s : ∀ fuel n k,
  (∀ i, n ≤ i < n + Z.of_nat k → m (s + i) ≠ 0) → m (s + n + Z.of_nat k) = 0 →
  (k < fuel)%nat →
  strlen_loop fuel m s n = Ret (n + Z.of_nat k).
Proof.
  induction fuel as [|f IH]; intros n k Hnz Hz Hk; [lia|]. cbn [strlen_loop].
  destruct k as [|k].
  - replace (s + n + Z.of_nat 0) with (s + n) in Hz by lia. rewrite Hz.
    simpl. f_equal. lia.
  - destruct (Z.eqb_spec (m (s + n)) 0) as [E|E].
    + exfalso. apply (Hnz n); [lia|done].
    + rewrite (IH (n + 1) k).
      * f_equal. lia.
      * intros i Hi. apply Hnz. lia.
      * rewrite <- Hz. f_equal. lia.
      * lia.
Qed.

(** Each address holds its own low byte. *)
Definition ex_mem : mem := λ x, x mod 256.

Lemma ex_mem_ok : mem_ok ex_mem.
Proof. intros x. apply Z.mod_pos_bound. lia. Qed.

(** * Properties *)

(** memmove copies the [n] source bytes as they were before the call, for
    any overlap of the two ranges, and changes nothing else. *)
Theorem memmove_correct dst src n m :
  mem_ok m → 0 ≤ n →
  bytes_at (memmove dst src n m) dst (Z.to_nat n) = bytes_at m src (Z.to_nat n)
  ∧ ∀ x, ¬ (dst ≤ x < dst + n) → memmove dst src n m x = m x.
Proof.
  intros Hm Hn. split.
  - apply bytes_at_ext. intros i Hi. rewrite memmove_lookup by done. zcases.
    f_equal. lia.
  - intros x Hx. rewrite memmove_lookup by done. by zcases.
Qed.

Lemma memmove_correct_witness :
  bytes_at (memmove 1002 1000 5 ex_mem) 1002 5 = bytes_at ex_mem 1000 5
  ∧ ∀ x, ¬ (1002 ≤ x < 1002 + 5) → memmove 1002 1000 5 ex_mem x = ex_mem x.
Proof. apply (memmove_correct 1002 1000 5 ex_mem); [apply ex_mem_ok|lia]. Defined.

(** strncpy leaves the source string padded with NULs to the field's
    length, and strncmp then finds the field equal to the source: what
    dirlink writes, dirlookup matches. *)
Theorem strncpy_strncmp s t n m :
  mem_ok m → 0 ≤ n → t + n ≤ s ∨ s + n ≤ t →
  bytes_at (strncpy s t n m) s (Z.to_nat n)
  = cstr m t (Z.to_nat n) ++ replicate (Z.to_nat n - length (cstr m t (Z.to_nat n))) 0
  ∧ strncmp t s n (strncpy s t n m) = 0.
Proof.
  intros Hm Hn Hov. assert (Hf := strncpy_loop_field (Z.to_nat n) s t m Hm).
  rewrite Z2Nat.id in Hf by lia. specialize (Hf Hov). split; [done|].
  apply strncmp_loop_zero. unfold strncpy.
  rewrite (cstr_upto_nul _ _ s), Hf, (cstr_upto_nul m _ t), upto_nul_pad.
  rewrite <- cstr_upto_nul. apply cstr_ext. intros i Hi.
  apply strncpy_loop_other. lia.
Qed.

Lemma strncpy_strncmp_witness :
  bytes_at (strncpy 1000 250 14 ex_mem) 1000 14
  = [250; 251; 252; 253; 254; 255] ++ replicate 8 0
  ∧ strncmp 250 1000 14 (strncpy 1000 250 14 ex_mem) = 0.
Proof.
  apply (strncpy_strncmp 1000 250 14 ex_mem); [apply ex_mem_ok|lia|left; lia].
Defined.

(** safestrcpy with room for [n] bytes writes only the [n] bytes at [s] and
    leaves there the source cut to [n - 1] characters, always terminated. *)
Theorem safestrcpy_terminates_string s t n m :
  mem_ok m → 0 < n → t + n ≤ s ∨ s + n ≤ t →
  cstr (safestrcpy s t n m) s (Z.to_nat n) = cstr m t (Z.to_nat (n - 1))
  ∧ (∃ i, 0 ≤ i < n ∧ safestrcpy s t n m (s + i) = 0)
  ∧ ∀ x, ¬ (s ≤ x < s + n) → safestrcpy s t n m x = m x.
Proof.
  intros Hm Hn Hov. unfold safestrcpy. destruct (Z.leb_spec n 0); [lia|].
  assert (cstr (safestrcpy_loop s t (Z.to_nat (n - 1)) m) s (Z.to_nat n)
          = cstr m t (Z.to_nat (n - 1))) as Hc.
  { replace (Z.to_nat n) with (S (Z.to_nat (n - 1))) by lia.
    apply safestrcpy_loop_cstr; [done|lia]. }
  split; [done|split].
  - apply cstr_short_nul with (n := Z.to_nat n) in Hc as (i & Hi & Hz);
      [exists i; split; [lia|done]|].
    pose proof (cstr_length m t (Z.to_nat (n - 1))). lia.
  - intros x Hx. apply safestrcpy_loop_other. lia.
Qed.

Lemma safestrcpy_terminates_string_witness :
  cstr (safestrcpy 1000 10 4 ex_mem) 1000 4 = [10; 11; 12]
  ∧ (∃ i, 0 ≤ i < 4 ∧ safestrcpy 1000 10 4 ex_mem (1000 + i) = 0)
  ∧ ∀ x, ¬ (1000 ≤ x < 1000 + 4) → safestrcpy 1000 10 4 ex_mem x = ex_mem x.
Proof.
  apply (safestrcpy_terminates_string 1000 10 4 ex_mem); [apply ex_mem_ok|lia|left; lia].
Defined.
