(* ===== verification/Kalloc.v ===== *)
(** The physical page allocator, kalloc.c.

    Free pages form a list threaded through their own first word.  The
    state is kernel memory together with the struct kmem.  [kend] is the
    linker symbol [end], the first address after the kernel image. *)

From S2P Require Import Prelude Params Cstring.

Record kmem : Type := MkKmem {
  use_lock : bool;
  freelist : Z;         (* 0 when the list is empty *)
  km_mem : mem          (* kernel memory, not a field of struct kmem *)
}.

Definition set_mem (m : mem) (s : kmem) : kmem :=
  MkKmem (use_lock s) (freelist s) m.
Definition set_freelist (p : Z) (s : kmem) : kmem :=
  MkKmem (use_lock s) p (km_mem s).
Definition set_use_lock (b : bool) (s : kmem) : kmem :=
  MkKmem b (freelist s) (km_mem s).

(** A store to kernel memory. *)
Definition store (f : mem → mem) : M kmem unit :=
  modify (λ s, set_mem (f (km_mem s)) s).

(** A load of a word of kernel memory. *)
Definition load32 (a : Z) : M kmem Z := gets (λ s, ld32 (km_mem s) a).

Definition kfree (kend v : Z) : M kmem unit :=
  if negb (v mod PGSIZE =? 0) || (v <? kend) || (PHYSTOP <=? V2P v) then
    panic "kfree"
  else
    store (memset v 1 PGSIZE) ;;;
    modify (λ s, set_mem (st32 v (freelist s) (km_mem s)) s) ;;;
    modify (set_freelist v).

Definition kalloc : M kmem Z :=
  r <- gets freelist ;;
  (if negb (r =? 0) then modify (λ s, set_freelist (ld32 (km_mem s) r) s) else ret tt) ;;;
  ret r.

(** [for(; p + PGSIZE <= vend; p += PGSIZE) kfree(p);] *)
Fixpoint freerange_loop (fuel : nat) (kend p vend : Z) : M kmem unit :=
  if p + PGSIZE <=? vend then
    match fuel with
    | O => out_of_fuel
    | S f => kfree kend p ;;; freerange_loop f kend (p + PGSIZE) vend
    end
  else ret tt.

(** The loop runs at most once per page below [vend]. *)
Definition freerange (kend vstart vend : Z) : M kmem unit :=
  freerange_loop (Z.to_nat (vend / PGSIZE)) kend (PGROUNDUP vstart) vend.

Definition kinit1 (kend vstart vend : Z) : M kmem unit :=
  modify (set_use_lock false) ;;; freerange kend vstart vend.

Definition kinit2 (kend vstart vend : Z) : M kmem unit :=
  freerange kend vstart vend ;;; modify (set_use_lock true).

(** * The abstract free list *)

(** A page kfree accepts. *)
Definition page_ok (kend v : Z) : Prop :=
  v mod 4096 = 0 ∧ kend ≤ v ∧ KERNBASE ≤ v ∧ v + 4096 ≤ KERNBASE + PHYSTOP.

(** The pages linked from [p], in order. *)
Inductive chain (kend : Z) (m : mem) : Z → list Z → Prop :=
| chain_nil : chain kend m 0 []
| chain_cons p l :
    page_ok kend p → p ∉ l → chain kend m (ld32 m p) l → chain kend m p (p :: l).

Record kmem_rep (kend : Z) (s : kmem) (l : list Z) : Prop := {
  rep_mem_ok : mem_ok (km_mem s);
  rep_chain : chain kend (km_mem s) (freelist s) l
}.

(** Two pages that are both page-aligned are equal or disjoint. *)
Definition in_page (p x : Z) : Prop := p ≤ x < p + 4096.

(** The specification: a stack of free pages, null when it is empty. *)
Inductive kop : Type := KAlloc | KFree (v : Z).

Definition spec_step (o : kop) (l : list Z) : Z * list Z :=
  match o with
  | KAlloc => match l with [] => (0, []) | p :: l' => (p, l') end
  | KFree v => (0, v :: l)
  end.

(** A legal sequence frees only pages that are not free already. *)
Fixpoint legal (kend : Z) (ops : list kop) (l : list Z) : Prop :=
  match ops with
  | [] => True
  | o :: ops' =>
      match o with KAlloc => True | KFree v => page_ok kend v ∧ v ∉ l end
      ∧ legal kend ops' (spec_step o l).2
  end.

Fixpoint run_spec (ops : list kop) (l : list Z) : list Z * list Z :=
  match ops with
  | [] => ([], l)
  | o :: ops' =>
      let '(r, l1) := spec_step o l in
      let '(rs, l2) := run_spec ops' l1 in (r :: rs, l2)
  end.

Fixpoint run_impl (kend : Z) (ops : list kop) : M kmem (list Z) :=
  match ops with
  | [] => ret []
  | o :: ops' =>
      r <- match o with KAlloc => kalloc | KFree v => kfree kend v ;;; ret 0 end ;;
      rs <- run_impl kend ops' ;;
      ret (r :: rs)
  end.

(** * Lemmas *)

Lemma page_ok_bounds kend v : page_ok kend v → 0 < v ∧ v + 4096 ≤ 2382364672.
Proof. unfold page_ok, KERNBASE, PHYSTOP. lia. Qed.

Lemma pages_disjoint kend p q x :
  page_ok kend p → page_ok kend q → p ≠ q → in_page p x → ¬ in_page q x.
Proof. unfold page_ok, in_page. intros ???. Z.div_mod_to_equations. lia. Qed.

Lemma chain_ext kend m m' p l :
  (∀ q x, q ∈ l → q ≤ x < q + 4 → m x = m' x) → chain kend m p l → chain kend m' p l.
Proof.
  intros Hext Hc. induction Hc as [|p l Hok Hnin Hc IH]; [constructor|].
  constructor; [done|done|].
  rewrite <- (ld32_ext m m').
  - apply IH. intros q x Hq. apply Hext. by right.
  - intros x Hx. apply (Hext p); [left|done].
Qed.

Lemma chain_pages kend m p l q : chain kend m p l → q ∈ l → page_ok kend q.
Proof.
  induction 1 as [|p l Hok Hnin Hc IH]; intros Hq; [by apply elem_of_nil in Hq|].
  apply elem_of_cons in Hq as [->|]; auto.
Qed.

Lemma chain_nodup kend m p l : chain kend m p l → NoDup l.
Proof. induction 1; constructor; auto. Qed.

Lemma kmem_rep_pages kend s l q : kmem_rep kend s l → q ∈ l → page_ok kend q.
Proof. intros [_ Hc]. eauto using chain_pages. Qed.

Lemma kmem_rep_nodup kend s l : kmem_rep kend s l → NoDup l.
Proof. intros [_ Hc]. eauto using chain_nodup. Qed.

(** Writes outside the free pages keep the free list. *)
Lemma kmem_rep_frame kend s l m :
  kmem_rep kend s l → mem_ok m →
  (∀ q x, q ∈ l → in_page q x → km_mem s x = m x) →
  kmem_rep kend (set_mem m s) l.
Proof.
  intros [Hm Hc] Hok Hext. split; [done|]. simpl.
  eapply chain_ext, Hc. intros q x Hq Hx. apply (Hext q); [done|].
  unfold in_page. lia.
Qed.

Lemma kfree_guard kend v :
  KERNBASE ≤ kend → 0 ≤ v < 4294967296 →
  negb (v mod PGSIZE =? 0) || (v <? kend) || (PHYSTOP <=? V2P v) = false
  ↔ page_ok kend v.
Proof.
  intros Hk Hv. unfold page_ok, PGSIZE, V2P, PHYSTOP, KERNBASE in *.
  destruct (Z.eqb_spec (v mod 4096) 0), (Z.ltb_spec v kend); cbn [negb orb];
    try (split; intros; (discriminate || lia)).
  rewrite u32_small by lia.
  destruct (Z.leb_spec 234881024 (v - 2147483648)); split; intros; try done;
    Z.div_mod_to_equations; lia.
Qed.

Definition kfree_mem (v : Z) (s : kmem) : mem :=
  st32 v (freelist s) (memset v 1 PGSIZE (km_mem s)).

Lemma kfree_run kend v s :
  KERNBASE ≤ kend → page_ok kend v →
  kfree kend v s = Ret (tt, MkKmem (use_lock s) v (kfree_mem v s)).
Proof.
  intros Hk Hv. pose proof (page_ok_bounds _ _ Hv).
  unfold kfree. rewrite (proj2 (kfree_guard kend v Hk ltac:(lia)) Hv). done.
Qed.

Lemma kfree_mem_other v s x : ¬ in_page v x → kfree_mem v s x = km_mem s x.
Proof.
  unfold in_page, kfree_mem, PGSIZE. intros H.
  rewrite st32_other, memset_spec by lia. by zcases.
Qed.

Lemma kfree_mem_ok v s : mem_ok (km_mem s) → mem_ok (kfree_mem v s).
Proof. intros H. unfold kfree_mem, PGSIZE. auto with cint lia. Qed.

Lemma chain_head_range kend m p l : chain kend m p l → 0 ≤ p < 4294967296.
Proof. destruct 1 as [|p l Hok]; [lia|]. pose proof (page_ok_bounds _ _ Hok). lia. Qed.

Lemma kfree_rep kend v s l :
  KERNBASE ≤ kend → page_ok kend v → v ∉ l → kmem_rep kend s l →
  kmem_rep kend (MkKmem (use_lock s) v (kfree_mem v s)) (v :: l).
Proof.
  intros Hk Hv Hnin [Hm Hc]. split; [by apply kfree_mem_ok|]. simpl.
  constructor; [done|done|].
  unfold kfree_mem at 2. rewrite ld32_st32_same, u32_small by eauto using chain_head_range.
  eapply chain_ext, Hc. intros q x Hq Hx. symmetry. apply kfree_mem_other.
  apply (pages_disjoint kend q v); [by eapply chain_pages|done|by intros ->|].
  unfold in_page. lia.
Qed.

Lemma kalloc_run s :
  kalloc s = Ret (freelist s,
    if freelist s =? 0 then s else set_freelist (ld32 (km_mem s) (freelist s)) s).
Proof. unfold kalloc, gets, bind. by destruct (freelist s =? 0). Qed.

Lemma kalloc_rep_nil kend s : kmem_rep kend s [] → kalloc s = Ret (0, s).
Proof. intros [_ Hc]. inversion Hc as [Hp|]. by rewrite kalloc_run, <- Hp. Qed.

Lemma kalloc_rep_cons kend s p l :
  kmem_rep kend s (p :: l) →
  kalloc s = Ret (p, set_freelist (ld32 (km_mem s) p) s)
  ∧ kmem_rep kend (set_freelist (ld32 (km_mem s) p) s) l.
Proof.
  intros [Hm Hc]. inversion Hc as [|p' l' Hok Hnin Hc' Hp]; subst.
  pose proof (page_ok_bounds _ _ Hok). split.
  - rewrite kalloc_run. destruct (Z.eqb_spec (freelist s) 0); [lia|done].
  - by split.
Qed.

(** The pages freerange hands to kfree, in order. *)
Fixpoint page_run (p : Z) (n : nat) : list Z :=
  match n with O => [] | S n' => p :: page_run (p + 4096) n' end.

Lemma elem_of_page_run n : ∀ p q, q ∈ page_run p n → p ≤ q.
Proof.
  induction n as [|n IH]; intros p q Hq; [by apply elem_of_nil in Hq|].
  simpl in Hq. apply elem_of_cons in Hq as [->|Hq]; [lia|]. apply IH in Hq. lia.
Qed.

Lemma page_run_snoc p n :
  page_run p (S n) = page_run p n ++ [p + 4096 * Z.of_nat n].
Proof.
  revert p. induction n as [|n IH]; intros p; [simpl; do 2 f_equal; lia|].
  change (page_run p (S (S n))) with (p :: page_run (p + 4096) (S n)).
  rewrite IH. simpl. do 3 f_equal. lia.
Qed.

Lemma freerange_loop_rep kend : ∀ fuel p vend s l,
  KERNBASE ≤ kend →
  p mod 4096 = 0 → kend ≤ p → vend ≤ KERNBASE + PHYSTOP →
  (Z.to_nat ((vend - p) / 4096) ≤ fuel)%nat →
  (∀ q, q ∈ l → ¬ (p ≤ q < vend)) →
  kmem_rep kend s l →
  ∃ s', freerange_loop fuel kend p vend s = Ret (tt, s')
        ∧ use_lock s' = use_lock s
        ∧ kmem_rep kend s' (reverse (page_run p (Z.to_nat ((vend - p) / 4096))) ++ l).
Proof.
  induction fuel as [|f IH]; intros p vend s l Hk Hal Hp Hv Hf Hdis Hrep.
  - cbn [freerange_loop]. unfold PGSIZE.
    destruct (Z.leb_spec (p + 4096) vend); [Z.div_mod_to_equations; lia|].
    replace (Z.to_nat _) with O by lia. eauto.
  - cbn [freerange_loop]. unfold PGSIZE.
    destruct (Z.leb_spec (p + 4096) vend) as [Hle|Hgt].
    + assert (page_ok kend p) as Hok by (unfold page_ok; lia).
      erewrite bind_ret_eval by by apply kfree_run.
      assert (p ∉ l) as Hnin by (intros Hin; apply (Hdis p Hin); lia).
      pose proof (kfree_rep kend p s l Hk Hok Hnin Hrep) as Hrep'.
      destruct (λ A B C D E, IH (p + 4096) vend _ (p :: l) Hk A B C D E Hrep')
        as (s' & Hs' & Hl & Hr);
        [Z.div_mod_to_equations; lia|lia|lia|Z.div_mod_to_equations; lia| |].
      { intros q Hq. apply elem_of_cons in Hq as [->|Hq]; [lia|].
        intros ?. apply (Hdis q Hq). lia. }
      exists s'. split; [done|]. split; [by rewrite Hl|].
      replace (Z.to_nat ((vend - p) / 4096))
        with (S (Z.to_nat ((vend - (p + 4096)) / 4096)))
        by (Z.div_mod_to_equations; lia).
      cbn [page_run]. rewrite reverse_cons, <- app_assoc. done.
    + replace (Z.to_nat _) with O by (Z.div_mod_to_equations; lia). eauto.
Qed.

(** * A concrete machine state

    The kernel ends at 0x80108000; the page there is in use and
    the next three are free. *)
Definition ex_kend : Z := 2148564992.
Definition ex_free : list Z := [ex_kend + 4096; ex_kend + 8192; ex_kend + 12288].
Definition ex_kmem : kmem :=
  MkKmem true (ex_kend + 4096)
    (st32 (ex_kend + 8192) (ex_kend + 12288) (st32 (ex_kend + 4096) (ex_kend + 8192) (λ _, 0))).

Lemma ex_rep : kmem_rep ex_kend ex_kmem ex_free.
Proof.
  split; [do 2 apply st32_ok; intros x; lia|].
  apply chain_cons; [by vm_compute|set_solver by lia|].
  replace (ld32 _ _) with (ex_kend + 8192) by (by vm_compute).
  apply chain_cons; [by vm_compute|set_solver by lia|].
  replace (ld32 _ _) with (ex_kend + 12288) by (by vm_compute).
  apply chain_cons; [by vm_compute|set_solver by lia|].
  replace (ld32 _ _) with 0 by (by vm_compute). constructor.
Qed.

(** * Properties *)

(** C7. Any legal sequence of kalloc and kfree calls returns what the abstract
    stack of pages returns, never panics, and ends with the stack's pages
    on the free list: no page is handed out twice or lost. *)
Theorem kalloc_kfree_refine kend ops s l :
  KERNBASE ≤ kend → kmem_rep kend s l → legal kend ops l →
  ∃ s', run_impl kend ops s = Ret ((run_spec ops l).1, s')
        ∧ kmem_rep kend s' (run_spec ops l).2.
Proof.
  intros Hk. revert s l. induction ops as [|o ops IH]; intros s l Hrep Hlegal.
  { by exists s. }
  destruct Hlegal as [Ho Hlegal]. cbn [run_impl run_spec].
  assert (∃ s1, match o with KAlloc => kalloc | KFree v => kfree kend v ;;; ret 0 end s
                = Ret ((spec_step o l).1, s1) ∧ kmem_rep kend s1 (spec_step o l).2)
    as (s1 & Hrun & Hrep1).
  { destruct o as [|v]; cbn [spec_step].
    - destruct l as [|p l].
      + exists s. split; [by eapply kalloc_rep_nil|done].
      + apply kalloc_rep_cons in Hrep as [??]. eauto.
    - destruct Ho as [Hok Hnin]. erewrite bind_ret_eval by by apply kfree_run.
      eexists. split; [done|]. by apply kfree_rep. }
  erewrite bind_ret_eval by exact Hrun.
  destruct (IH s1 _ Hrep1 Hlegal) as (s2 & Hrun2 & Hrep2).
  erewrite bind_ret_eval by exact Hrun2.
  destruct (spec_step o l) as [r l1] eqn:E1, (run_spec ops l1) as [rs l2] eqn:E2.
  cbn [fst snd] in *. rewrite E2 in Hrep2 |- *. eauto.
Qed.

Lemma kalloc_kfree_refine_witness :
  ∃ s', run_impl ex_kend [KAlloc; KAlloc; KFree (ex_kend + 4096); KFree ex_kend; KAlloc] ex_kmem
        = Ret ([ex_kend + 4096; ex_kend + 8192; 0; 0; ex_kend], s')
        ∧ kmem_rep ex_kend s' [ex_kend + 4096; ex_kend + 12288].
Proof.
  apply (kalloc_kfree_refine ex_kend
    [KAlloc; KAlloc; KFree (ex_kend + 4096); KFree ex_kend; KAlloc] ex_kmem ex_free).
  - by vm_compute.
  - apply ex_rep.
  - cbn [legal spec_step snd ex_free]. split_and!; try done; try by vm_compute.
    all: apply (bool_decide_unpack _); by vm_compute.
Defined.

(** kfree panics exactly on an address that is not a whole page between the
    end of the kernel and PHYSTOP. *)
Theorem kfree_panics_iff kend v s :
  KERNBASE ≤ kend → 0 ≤ v < 4294967296 →
  kfree kend v s = Panic "kfree" ↔ ¬ page_ok kend v.
Proof.
  intros Hk Hv. rewrite <- kfree_guard by done. unfold kfree.
  destruct (_ || _ || _); [done|]. split; intros H; [discriminate H|by destruct H].
Qed.

Lemma kfree_panics_iff_witness :
  kfree ex_kend (ex_kend + 8) ex_kmem = Panic "kfree" ↔ ¬ page_ok ex_kend (ex_kend + 8).
Proof. apply (kfree_panics_iff ex_kend (ex_kend + 8) ex_kmem); by vm_compute. Defined.

(** freerange puts exactly the whole pages of its range on the free list,
    the last page first, and does not panic. *)
Theorem freerange_correct kend vstart vend s l :
  KERNBASE ≤ kend → kend ≤ vstart → vstart ≤ vend → vend ≤ KERNBASE + PHYSTOP →
  (∀ q, q ∈ l → ¬ (vstart ≤ q < vend)) → kmem_rep kend s l →
  ∃ s', freerange kend vstart vend s = Ret (tt, s')
        ∧ kmem_rep kend s'
            (reverse (page_run (PGROUNDUP vstart)
                        (Z.to_nat ((vend - PGROUNDUP vstart) / 4096))) ++ l).
Proof.
  intros Hk H1 H2 H3 Hdis Hrep. unfold freerange.
  assert (PGROUNDUP vstart = (vstart + 4095) / 4096 * 4096) as Hr.
  { apply PGROUNDUP_alt; unfold KERNBASE, PHYSTOP in *; lia. }
  destruct (freerange_loop_rep kend (Z.to_nat (vend / PGSIZE)) (PGROUNDUP vstart) vend s l)
    as (s' & Hs & _ & Hrep');
    [done|rewrite Hr; Z.div_mod_to_equations; lia|rewrite Hr; Z.div_mod_to_equations; lia
    |done| | |done|by exists s'].
  - unfold PGSIZE, KERNBASE in *. rewrite Hr. Z.div_mod_to_equations. lia.
  - intros q Hq ?. apply (Hdis q Hq). rewrite Hr in *. Z.div_mod_to_equations. lia.
Qed.

Lemma freerange_correct_witness :
  ∃ s', freerange ex_kend (ex_kend + 16385) (ex_kend + 32768) ex_kmem = Ret (tt, s')
        ∧ kmem_rep ex_kend s'
            (reverse (page_run (PGROUNDUP (ex_kend + 16385))
               (Z.to_nat ((ex_kend + 32768 - PGROUNDUP (ex_kend + 16385)) / 4096))) ++ ex_free).
Proof.
  apply (freerange_correct ex_kend (ex_kend + 16385) (ex_kend + 32768) ex_kmem ex_free).
  1-4: by vm_compute.
  - intros q Hq. unfold ex_free in Hq. set_unfold. lia.
  - apply ex_rep.
Defined.
