(* ===== verification/Vm.v ===== *)
(** Page tables and user memory, vm.c.

    Page directories, page tables and user frames live in the kernel memory
    of Kalloc; a page-table entry is the word at its address.  [kend] and
    [kdata] are the linker symbols [end] and [data]. *)

From S2P Require Import Prelude Params Cstring Kalloc.

Section vm_code.
Context (kend kdata : Z).

(** Returns the address of the entry, 0 for the null pointer. *)
Definition walkpgdir (pgdir va : Z) (alloc : bool) : M kmem Z :=
  let pde := pgdir + 4 * PDX va in
  e <- load32 pde ;;
  if negb (Z.land e PTE_P =? 0) then
    ret (P2V (PTE_ADDR e) + 4 * PTX va)
  else if negb alloc then ret 0
  else
    pgtab <- kalloc ;;
    if pgtab =? 0 then ret 0
    else
      store (memset pgtab 0 PGSIZE) ;;;
      store (st32 pde (Z.lor (Z.lor (Z.lor (V2P pgtab) PTE_P) PTE_W) PTE_U)) ;;;
      ret (pgtab + 4 * PTX va).

Fixpoint mappages_loop (fuel : nat) (pgdir a last pa perm : Z) : M kmem Z :=
  match fuel with
  | O => out_of_fuel
  | S f =>
      pte <- walkpgdir pgdir a true ;;
      if pte =? 0 then ret (-1)
      else
        e <- load32 pte ;;
        if negb (Z.land e PTE_P =? 0) then panic "remap"
        else
          store (st32 pte (Z.lor (Z.lor pa perm) PTE_P)) ;;;
          if a =? last then ret 0
          else mappages_loop f pgdir (u32 (a + PGSIZE)) last (u32 (pa + PGSIZE)) perm
  end.

(** The loop visits the pages from [a] up to [last], modulo 2^32. *)
Definition mappages (pgdir va size pa perm : Z) : M kmem Z :=
  let a := PGROUNDDOWN va in
  let last := PGROUNDDOWN (u32 (va + size - 1)) in
  mappages_loop (S (Z.to_nat (u32 (last - a) / PGSIZE))) pgdir a last pa perm.

Fixpoint deallocuvm_loop (fuel : nat) (pgdir a oldsz : Z) : M kmem unit :=
  if a <? oldsz then
    match fuel with
    | O => out_of_fuel
    | S f =>
        pte <- walkpgdir pgdir a false ;;
        a' <- (if pte =? 0 then ret (u32 (PGADDR (PDX a + 1) 0 0 - PGSIZE))
               else
                 e <- load32 pte ;;
                 if negb (Z.land e PTE_P =? 0) then
                   let pa := PTE_ADDR e in
                   if pa =? 0 then panic "kfree"
                   else kfree kend (P2V pa) ;;; store (st32 pte 0) ;;; ret a
                 else ret a) ;;
        deallocuvm_loop f pgdir (u32 (a' + PGSIZE)) oldsz
    end
  else ret tt.

(** One iteration per page below [oldsz] is enough, see [deallocuvm_loop_ok] in Uvm. *)
Definition deallocuvm (pgdir oldsz newsz : Z) : M kmem Z :=
  if oldsz <=? newsz then ret oldsz
  else
    deallocuvm_loop (Z.to_nat (oldsz / PGSIZE + 1)) pgdir (PGROUNDUP newsz) oldsz ;;;
    ret newsz.

Fixpoint freevm_loop (pgdir : Z) (i : Z) (n : nat) : M kmem unit :=
  match n with
  | O => ret tt
  | S n' =>
      e <- load32 (pgdir + 4 * i) ;;
      (if negb (Z.land e PTE_P =? 0) then kfree kend (P2V (PTE_ADDR e)) else ret tt) ;;;
      freevm_loop pgdir (i + 1) n'
  end.

Definition freevm (pgdir : Z) : M kmem unit :=
  if pgdir =? 0 then panic "freevm: no pgdir"
  else
    deallocuvm pgdir KERNBASE 0 ;;;
    freevm_loop pgdir 0 (Z.to_nat NPDENTRIES) ;;;
    kfree kend pgdir.

Record kmap_entry : Type := MkKmap {
  virt : Z; phys_start : Z; phys_end : Z; kperm : Z
}.

Definition kmap : list kmap_entry :=
  [ MkKmap KERNBASE 0 EXTMEM PTE_W;
    MkKmap KERNLINK (V2P KERNLINK) (V2P kdata) 0;
    MkKmap kdata (V2P kdata) PHYSTOP PTE_W;
    MkKmap DEVSPACE DEVSPACE 0 PTE_W ].

Fixpoint setupkvm_loop (pgdir : Z) (ks : list kmap_entry) : M kmem Z :=
  match ks with
  | [] => ret pgdir
  | k :: ks' =>
      r <- mappages pgdir (virt k) (u32 (phys_end k - phys_start k)) (phys_start k)
             (kperm k) ;;
      if r <? 0 then freevm pgdir ;;; ret 0
      else setupkvm_loop pgdir ks'
  end.

Definition setupkvm : M kmem Z :=
  pgdir <- kalloc ;;
  if pgdir =? 0 then ret 0
  else
    store (memset pgdir 0 PGSIZE) ;;;
    if DEVSPACE <? P2V PHYSTOP then panic "PHYSTOP too high"
    else setupkvm_loop pgdir kmap.

(** [init] is the address of the initcode bytes. *)
Definition inituvm (pgdir init sz : Z) : M kmem unit :=
  if PGSIZE <=? sz then panic "inituvm: more than a page"
  else
    mem <- kalloc ;;
    if mem =? 0 then undef   (* the source stores through the null pointer *)
    else
      store (memset mem 0 PGSIZE) ;;;
      mappages pgdir 0 PGSIZE (V2P mem) (Z.lor PTE_W PTE_U) ;;;
      store (memmove mem init sz).

Fixpoint allocuvm_loop (fuel : nat) (pgdir a oldsz newsz : Z) : M kmem Z :=
  if a <? newsz then
    match fuel with
    | O => out_of_fuel
    | S f =>
        mem <- kalloc ;;
        if mem =? 0 then
          deallocuvm pgdir newsz oldsz ;;; ret 0
        else
          store (memset mem 0 PGSIZE) ;;;
          r <- mappages pgdir a PGSIZE (V2P mem) (Z.lor PTE_W PTE_U) ;;
          if r <? 0 then
            deallocuvm pgdir newsz oldsz ;;; kfree kend mem ;;; ret 0
          else allocuvm_loop f pgdir (u32 (a + PGSIZE)) oldsz newsz
    end
  else ret newsz.

Definition allocuvm (pgdir oldsz newsz : Z) : M kmem Z :=
  if KERNBASE <=? newsz then ret 0
  else if newsz <? oldsz then ret oldsz
  else allocuvm_loop (Z.to_nat (newsz / PGSIZE + 1)) pgdir (PGROUNDUP oldsz) oldsz newsz.

Definition clearpteu (pgdir uva : Z) : M kmem unit :=
  pte <- walkpgdir pgdir uva false ;;
  if pte =? 0 then panic "clearpteu"
  else
    e <- load32 pte ;;
    store (st32 pte (Z.land e (u32 (Z.lnot PTE_U)))).

Fixpoint copyuvm_loop (fuel : nat) (pgdir d i sz : Z) : M kmem Z :=
  if i <? sz then
    match fuel with
    | O => out_of_fuel
    | S f =>
        pte <- walkpgdir pgdir i false ;;
        if pte =? 0 then panic "copyuvm: pte should exist"
        else
          e <- load32 pte ;;
          if Z.land e PTE_P =? 0 then panic "copyuvm: page not present"
          else
            let pa := PTE_ADDR e in
            let flags := PTE_FLAGS e in
            mem <- kalloc ;;
            if mem =? 0 then freevm d ;;; ret 0
            else
              store (memmove mem (P2V pa) PGSIZE) ;;;
              r <- mappages d i PGSIZE (V2P mem) flags ;;
              if r <? 0 then kfree kend mem ;;; freevm d ;;; ret 0
              else copyuvm_loop f pgdir d (u32 (i + PGSIZE)) sz
    end
  else ret d.

Definition copyuvm (pgdir sz : Z) : M kmem Z :=
  d <- setupkvm ;;
  if d =? 0 then ret 0
  else copyuvm_loop (Z.to_nat (sz / PGSIZE + 1)) pgdir d 0 sz.

(** The entry is read without a null check. *)
Definition uva2ka (pgdir uva : Z) : M kmem Z :=
  pte <- walkpgdir pgdir uva false ;;
  if pte =? 0 then undef
  else
    e <- load32 pte ;;
    if Z.land e PTE_P =? 0 then ret 0
    else if Z.land e PTE_U =? 0 then ret 0
    else ret (P2V (PTE_ADDR e)).

Fixpoint copyout_loop (fuel : nat) (pgdir va buf len : Z) : M kmem Z :=
  if 0 <? len then
    match fuel with
    | O => out_of_fuel
    | S f =>
        let va0 := PGROUNDDOWN va in
        pa0 <- uva2ka pgdir va0 ;;
        if pa0 =? 0 then ret (-1)
        else
          let n := Z.min (PGSIZE - (va - va0)) len in
          store (memmove (pa0 + (va - va0)) buf n) ;;;
          copyout_loop f pgdir (u32 (va0 + PGSIZE)) (buf + n) (len - n)
    end
  else ret 0.

(** Every iteration but the first and the last copies a whole page. *)
Definition copyout (pgdir va p len : Z) : M kmem Z :=
  copyout_loop (Z.to_nat (len / PGSIZE + 2)) pgdir va p len.

(** loaduvm calls readi, so it runs on the state [St] of its caller, which
    has the memory: [readi dst off n] reads [n] bytes of the inode at [off]
    into [dst]. *)
Fixpoint loaduvm_loop {St} (lift : ∀ A, M kmem A → M St A) (fuel : nat) (readi : Z → Z → Z → M St Z)
    (pgdir addr offset sz i : Z) : M St Z :=
  if i <? sz then
    match fuel with
    | O => out_of_fuel
    | S f =>
        pte <- lift _ (walkpgdir pgdir (u32 (addr + i)) false) ;;
        if pte =? 0 then panic "loaduvm: address should exist"
        else
          e <- lift _ (load32 pte) ;;
          let pa := PTE_ADDR e in
          let n := if sz - i <? PGSIZE then sz - i else PGSIZE in
          r <- readi (P2V pa) (u32 (offset + i)) n ;;
          if negb (r =? n) then ret (-1)
          else loaduvm_loop lift f readi pgdir addr offset sz (u32 (i + PGSIZE))
    end
  else ret 0.

Definition loaduvm {St} (lift : ∀ A, M kmem A → M St A) (readi : Z → Z → Z → M St Z) (pgdir addr offset sz : Z) : M St Z :=
  if negb (addr mod PGSIZE =? 0) then panic "loaduvm: addr must be page aligned"
  else loaduvm_loop lift (Z.to_nat (sz / PGSIZE + 1)) readi pgdir addr offset sz 0.

End vm_code.

(** * What the hardware reads: directory entries and leaf entries *)

(** The page table the directory [d] has at index [i]. *)
Definition pdt (m : mem) (d i : Z) : option Z :=
  let e := ld32 m (d + 4 * i) in
  if Z.land e PTE_P =? 0 then None else Some (P2V (PTE_ADDR e)).

(** The leaf entry for [va]; 0 (not present) where there is no table. *)
Definition pte_of (m : mem) (d va : Z) : Z :=
  match pdt m d (PDX va) with
  | Some t => ld32 m (t + 4 * PTX va)
  | None => 0
  end.

Definition same_page (m m' : mem) (q : Z) : Prop := ∀ x, in_page q x → m x = m' x.

(** The directory and its tables are distinct pages, none of them free. *)
Record vm_wf (kend : Z) (s : kmem) (d : Z) (l : list Z) : Prop := {
  wf_rep : kmem_rep kend s l;
  wf_dir : page_ok kend d;
  wf_dir_used : d ∉ l;
  wf_tab : ∀ i t, 0 ≤ i < 1024 → pdt (km_mem s) d i = Some t →
           page_ok kend t ∧ t ≠ d ∧ t ∉ l;
  wf_inj : ∀ i j t, 0 ≤ i < 1024 → 0 ≤ j < 1024 →
           pdt (km_mem s) d i = Some t → pdt (km_mem s) d j = Some t → i = j
}.

(** How the page-table code may change memory: tables are only added, taken
    from the front of the free list, and pages that belong to neither the
    directory nor its tables keep their bytes. *)
Record pt_grow (kend d : Z) (s : kmem) (l : list Z) (s' : kmem) (l' : list Z) : Prop := {
  pg_wf : vm_wf kend s' d l';
  pg_taken : ∃ l1, l = l1 ++ l' ∧
    (∀ i t, 0 ≤ i < 1024 → pdt (km_mem s') d i = Some t →
            pdt (km_mem s) d i = Some t ∨ t ∈ l1) ∧
    (∀ t, t ∈ l1 → ∃ i, 0 ≤ i < 1024 ∧ pdt (km_mem s') d i = Some t);
  pg_old : ∀ i t, 0 ≤ i < 1024 → pdt (km_mem s) d i = Some t → pdt (km_mem s') d i = Some t;
  pg_frame : ∀ q, page_ok kend q → q ≠ d →
    (∀ i, 0 ≤ i < 1024 → pdt (km_mem s') d i ≠ Some q) →
    same_page (km_mem s) (km_mem s') q
}.

(** * Lemmas *)

Lemma lor_page_flags x f :
  0 ≤ x → x mod 4096 = 0 → 0 ≤ f < 4096 → Z.lor x f = x + f.
Proof.
  intros Hx Hm Hf. replace x with (Z.shiftl (x / 4096) 12) at 1.
  - rewrite lor_shiftl_add by (simpl; lia). simpl. Z.div_mod_to_equations. lia.
  - rewrite Z.shiftl_mul_pow2 by lia. simpl. Z.div_mod_to_equations. lia.
Qed.

Lemma land_PTE_P e : Z.land e PTE_P = e mod 2.
Proof. unfold PTE_P. change 1 with (Z.ones 1). by rewrite Z.land_ones by lia. Qed.

Lemma new_pde_alt p kend :
  page_ok kend p →
  Z.lor (Z.lor (Z.lor (V2P p) PTE_P) PTE_W) PTE_U = V2P p + 7
  ∧ V2P p mod 4096 = 0 ∧ 0 ≤ V2P p < 2147483648.
Proof.
  intros H. pose proof (page_ok_bounds _ _ H). destruct H as (Hal & _ & Hk & Hp).
  rewrite V2P_small by (unfold KERNBASE in *; lia).
  assert ((p - KERNBASE) mod 4096 = 0)
    by (unfold KERNBASE in *; Z.div_mod_to_equations; lia).
  rewrite <- !Z.lor_assoc. change (Z.lor PTE_P (Z.lor PTE_W PTE_U)) with 7.
  rewrite lor_page_flags by (try done; unfold KERNBASE in *; lia).
  unfold KERNBASE, PHYSTOP in *. lia.
Qed.

Lemma PTE_ADDR_flags x f :
  0 ≤ x → x + f < 4294967296 → x mod 4096 = 0 → 0 ≤ f < 4096 → PTE_ADDR (x + f) = x.
Proof. intros. rewrite PTE_ADDR_alt by lia. Z.div_mod_to_equations. lia. Qed.

Lemma pdt_ext m m' d i :
  0 ≤ i < 1024 → same_page m m' d → pdt m d i = pdt m' d i.
Proof.
  intros Hi Hs. unfold pdt. rewrite (ld32_ext m m'); [done|].
  intros x Hx. apply Hs. unfold in_page. lia.
Qed.

Lemma pte_word_in_page t va x :
  t + 4 * PTX va ≤ x < t + 4 * PTX va + 4 → in_page t x.
Proof. pose proof (PTX_range va). unfold in_page. lia. Qed.

Lemma pde_word_in_page d va x :
  d + 4 * PDX va ≤ x < d + 4 * PDX va + 4 → in_page d x.
Proof. pose proof (PDX_range va). unfold in_page. lia. Qed.

(** The leaf entry depends only on the page of the address. *)
Lemma pte_of_same_page m d va va' :
  0 ≤ va < 4294967296 → 0 ≤ va' < 4294967296 → va / 4096 = va' / 4096 →
  pte_of m d va = pte_of m d va'.
Proof.
  intros H H' E. unfold pte_of. rewrite !PDX_alt, !PTX_alt, E by done.
  by replace (va / 4194304) with (va' / 4194304) by (Z.div_mod_to_equations; lia).
Qed.

Lemma pt_grow_refl kend d s l : vm_wf kend s d l → pt_grow kend d s l s l.
Proof. intros H. split; [done| |auto|done].
  exists []. split_and!; [done|auto|]. intros t Ht. by apply elem_of_nil in Ht. Qed.

Lemma pt_grow_trans kend d s1 l1 s2 l2 s3 l3 :
  pt_grow kend d s1 l1 s2 l2 → pt_grow kend d s2 l2 s3 l3 → pt_grow kend d s1 l1 s3 l3.
Proof.
  intros [W1 (k1 & -> & T1 & R1) O1 F1] [W2 (k2 & -> & T2 & R2) O2 F2].
  split; [done| | |].
  - exists (k1 ++ k2). rewrite app_assoc. split_and!; [done| |].
    + intros i t Hi Ht. rewrite elem_of_app.
      destruct (T2 i t Hi Ht) as [Ht2|]; [|by auto].
      destruct (T1 i t Hi Ht2); auto.
    + intros t [Ht|Ht]%elem_of_app; [|by auto].
      destruct (R1 t Ht) as (i & Hi & Hti). eauto.
  - auto.
  - intros q Hq Hd Hnt x Hx. rewrite (F1 q), (F2 q); try done.
    intros i Hi Ht. apply (Hnt i Hi). auto.
Qed.

(** A store into one of the tables of [d] replaces one leaf entry. *)
Lemma pte_store kend d s l va t v :
  vm_wf kend s d l → 0 ≤ va < 4294967296 → 0 ≤ v < 4294967296 →
  pdt (km_mem s) d (PDX va) = Some t →
  let s' := set_mem (st32 (t + 4 * PTX va) v (km_mem s)) s in
  pt_grow kend d s l s' l
  ∧ (∀ i, 0 ≤ i < 1024 → pdt (km_mem s') d i = pdt (km_mem s) d i)
  ∧ ∀ va', 0 ≤ va' < 4294967296 →
      pte_of (km_mem s') d va' = if va' / 4096 =? va / 4096 then v else pte_of (km_mem s) d va'.
Proof.
  intros Hwf Hva Hv Ht s'. pose proof Hwf as [Hrep Hd Hdl Htab Hinj].
  destruct (Htab _ _ (PDX_range va) Ht) as (Htok & Htd & Htl).
  assert (∀ q, page_ok kend q → q ≠ t → same_page (km_mem s) (km_mem s') q) as Hother.
  { intros q Hq Hqt x Hx. simpl. symmetry. apply st32_other. intros Hx'.
    eapply (pages_disjoint kend q t); eauto using pte_word_in_page. }
  assert (∀ i, 0 ≤ i < 1024 → pdt (km_mem s') d i = pdt (km_mem s) d i) as Hpdt.
  { intros i Hi. symmetry. apply pdt_ext; [done|]. by apply Hother. }
  assert (kmem_rep kend s' l) as Hrep'.
  { apply kmem_rep_frame; [done|apply st32_ok, Hrep|]. intros q x Hq Hx.
    apply (Hother q); [by eapply kmem_rep_pages|by intros ->|done]. }
  split; [|split; [done|]].
  - split.
    + split; [done|done|done| |].
      * intros i t' Hi. rewrite Hpdt by done. by apply Htab.
      * intros i j t' Hi Hj. rewrite !Hpdt by done. by apply Hinj.
    + exists []. split_and!; [done| |].
      * intros i t' Hi. rewrite Hpdt by done. auto.
      * intros t' Ht'. by apply elem_of_nil in Ht'.
    + intros i t' Hi. by rewrite Hpdt.
    + intros q Hq Hqd Hnt. apply Hother; [done|]. intros ->.
      apply (Hnt (PDX va)); [apply PDX_range|]. rewrite Hpdt; [done|apply PDX_range].
  - intros va' Hva'. unfold pte_of. rewrite Hpdt by apply PDX_range.
    rewrite !PDX_alt, !PTX_alt in * by done.
    destruct (Z.eqb_spec (va' / 4096) (va / 4096)) as [E|E].
    + replace (va' / 4194304) with (va / 4194304) by (Z.div_mod_to_equations; lia).
      rewrite Ht. simpl. rewrite PTX_alt, E, ld32_st32_same. by apply u32_small.
    + destruct (pdt (km_mem s) d (va' / 4194304)) as [t'|] eqn:Et'; [|done].
      destruct (decide (t' = t)) as [->|Hne].
      * assert (va' / 4194304 = va / 4194304) as E2
          by (eapply Hinj; eauto; Z.div_mod_to_equations; lia).
        simpl. rewrite PTX_alt. apply ld32_st32_other.
        assert (va' / 4096 mod 1024 ≠ va / 4096 mod 1024)
          by (Z.div_mod_to_equations; lia). lia.
      * apply ld32_ext. intros x Hx. symmetry. apply (Hother t').
        { eapply Htab; eauto. Z.div_mod_to_equations; lia. }
        { done. }
        rewrite <- PTX_alt in Hx. eauto using pte_word_in_page.
Qed.

Lemma walkpgdir_present d va alloc s t :
  pdt (km_mem s) d (PDX va) = Some t →
  walkpgdir d va alloc s = Ret (t + 4 * PTX va, s).
Proof.
  unfold pdt, walkpgdir, load32, gets, bind.
  destruct (Z.land _ PTE_P =? 0); [done|]. by intros [= <-].
Qed.

Lemma walkpgdir_noalloc d va s :
  pdt (km_mem s) d (PDX va) = None → walkpgdir d va false s = Ret (0, s).
Proof.
  unfold pdt, walkpgdir, load32, gets, bind. by destruct (Z.land _ PTE_P =? 0).
Qed.

Lemma walkpgdir_nomem kend d va s :
  kmem_rep kend s [] → pdt (km_mem s) d (PDX va) = None →
  walkpgdir d va true s = Ret (0, s).
Proof.
  intros Hrep. unfold pdt, walkpgdir, load32, gets.
  destruct (Z.land _ PTE_P =? 0) eqn:E; [intros _|done].
  unfold bind at 1. rewrite E. cbn [negb].
  by erewrite bind_ret_eval by by eapply kalloc_rep_nil.
Qed.

(** Memory after walkpgdir has installed the fresh page [p] as a table. *)
Definition new_table_mem (d va p : Z) (m : mem) : mem :=
  st32 (d + 4 * PDX va) (V2P p + 7) (memset p 0 PGSIZE m).

Lemma walkpgdir_alloc kend d va s p l :
  vm_wf kend s d (p :: l) → pdt (km_mem s) d (PDX va) = None →
  walkpgdir d va true s =
    Ret (p + 4 * PTX va,
         MkKmem (use_lock s) (ld32 (km_mem s) p) (new_table_mem d va p (km_mem s))).
Proof.
  intros [Hrep _ _ _ _] Hn. unfold pdt in Hn. unfold walkpgdir, load32, gets.
  destruct (Z.land _ PTE_P =? 0) eqn:E; [|done].
  unfold bind at 1. rewrite E. cbn [negb].
  assert (page_ok kend p) as Hok by (eapply kmem_rep_pages; [done|left]).
  destruct (kalloc_rep_cons _ _ _ _ Hrep) as [Hk _].
  erewrite bind_ret_eval by exact Hk.
  pose proof (page_ok_bounds _ _ Hok).
  destruct (Z.eqb_spec p 0); [lia|].
  unfold new_table_mem. by rewrite <- (proj1 (new_pde_alt p kend Hok)).
Qed.

Lemma new_table_other kend d va p m q :
  page_ok kend d → page_ok kend p → page_ok kend q → q ≠ d → q ≠ p →
  same_page m (new_table_mem d va p m) q.
Proof.
  intros Hd Hp Hq Hqd Hqp x Hx. unfold new_table_mem. rewrite st32_other, memset_spec.
  - assert (¬ in_page p x) by (eapply (pages_disjoint kend q p); eauto).
    unfold in_page, PGSIZE in *. by zcases.
  - unfold PGSIZE; lia.
  - intros Hx'. eapply (pages_disjoint kend q d); eauto using pde_word_in_page.
Qed.

Lemma new_table_zero kend d va p m a :
  page_ok kend d → page_ok kend p → d ≠ p → p ≤ a → a + 4 ≤ p + 4096 →
  ld32 (new_table_mem d va p m) a = 0.
Proof.
  intros Hd Hp Hdp H1 H2. unfold new_table_mem.
  assert (∀ x, a ≤ x < a + 4 →
    st32 (d + 4 * PDX va) (V2P p + 7) (memset p 0 PGSIZE m) x = 0) as Hz.
  { intros x Hx. rewrite st32_other, memset_spec by
      (first [unfold PGSIZE; lia
             |intros Hx'; eapply (pages_disjoint kend p d);
               eauto using pde_word_in_page; unfold in_page; lia]).
    unfold PGSIZE. by zcases. }
  unfold ld32. by rewrite !Hz by lia.
Qed.

Lemma new_table_pdt kend d va p m i :
  page_ok kend d → page_ok kend p → d ≠ p → 0 ≤ i < 1024 →
  pdt (new_table_mem d va p m) d i = if i =? PDX va then Some p else pdt m d i.
Proof.
  intros Hd Hp Hdp Hi. pose proof (page_ok_bounds _ _ Hp).
  destruct (new_pde_alt p kend Hp) as (_ & Hal & Hr).
  pose proof (PDX_range va). unfold pdt, new_table_mem.
  destruct (Z.eqb_spec i (PDX va)) as [->|Hne].
  - rewrite ld32_st32_same, u32_small, land_PTE_P by lia.
    destruct (Z.eqb_spec ((V2P p + 7) mod 2) 0); [Z.div_mod_to_equations; lia|].
    rewrite PTE_ADDR_flags, P2V_V2P by (try done; lia). done.
  - rewrite ld32_st32_other by lia.
    rewrite (ld32_ext (memset p 0 PGSIZE m) m); [done|].
    intros x Hx. rewrite memset_spec by (unfold PGSIZE; lia).
    assert (¬ in_page p x) by
      (apply (pages_disjoint kend d p); try done; unfold in_page; lia).
    unfold in_page, PGSIZE in *. by zcases.
Qed.

Lemma new_table_mem_ok d va p m : mem_ok m → mem_ok (new_table_mem d va p m).
Proof. intros H. unfold new_table_mem, PGSIZE. auto with cint lia. Qed.

(** Installing a fresh table changes no leaf entry. *)
Lemma new_table_grow kend d va s p l :
  vm_wf kend s d (p :: l) → 0 ≤ va < 4294967296 → pdt (km_mem s) d (PDX va) = None →
  let s' := MkKmem (use_lock s) (ld32 (km_mem s) p) (new_table_mem d va p (km_mem s)) in
  pt_grow kend d s (p :: l) s' l
  ∧ pdt (km_mem s') d (PDX va) = Some p
  ∧ ∀ va', 0 ≤ va' < 4294967296 → pte_of (km_mem s') d va' = pte_of (km_mem s) d va'.
Proof.
  intros Hwf Hva Hn s'. pose proof Hwf as [Hrep Hd Hdl Htab Hinj].
  assert (page_ok kend p) as Hp by (eapply kmem_rep_pages; [done|left]).
  assert (d ≠ p) as Hdp by (intros ->; apply Hdl; left).
  pose proof (kmem_rep_nodup _ _ _ Hrep) as Hnd. apply NoDup_cons in Hnd as [Hpl _].
  destruct (kalloc_rep_cons _ _ _ _ Hrep) as [_ Hrep1].
  assert (∀ i, 0 ≤ i < 1024 →
    pdt (km_mem s') d i = if i =? PDX va then Some p else pdt (km_mem s) d i) as Hpdt
    by (intros; by eapply new_table_pdt).
  assert (∀ q, page_ok kend q → q ≠ d → q ≠ p → same_page (km_mem s) (km_mem s') q) as Hsame
    by (intros; by eapply new_table_other).
  split; [|split].
  - split.
    + split; [|done|set_solver| |].
      * apply (kmem_rep_frame kend (set_freelist (ld32 (km_mem s) p) s) l); [done| |].
        { apply new_table_mem_ok, Hrep. }
        intros q x Hq Hx. apply (Hsame q); [by eapply kmem_rep_pages| | |done];
          intros ->; [set_solver|done].
      * intros i t Hi. rewrite Hpdt by done. destruct (i =? PDX va).
        { intros [= <-]. auto. }
        intros Ht. destruct (Htab _ _ Hi Ht) as (?&?&?). set_solver.
      * intros i j t Hi Hj. rewrite !Hpdt by done.
        destruct (Z.eqb_spec i (PDX va)) as [->|], (Z.eqb_spec j (PDX va)) as [->|];
          intros H1 H2; simplify_eq; [done| | |by eapply Hinj];
          exfalso; [destruct (Htab j t) as (_&_&[])|destruct (Htab i t) as (_&_&[])];
          by try left.
    + exists [p]. split_and!; [done| |].
      * intros i t Hi. rewrite Hpdt by done.
        destruct (i =? PDX va); [intros [= <-]; right; left|auto].
      * intros t ->%list_elem_of_singleton. exists (PDX va).
        split; [apply PDX_range|]. rewrite Hpdt by apply PDX_range. by rewrite Z.eqb_refl.
    + intros i t Hi Ht. rewrite Hpdt by done.
      destruct (Z.eqb_spec i (PDX va)) as [->|]; [congruence|done].
    + intros q Hq Hqd Hnt. apply Hsame; try done. intros ->.
      apply (Hnt (PDX va)); [apply PDX_range|].
      rewrite Hpdt by apply PDX_range. by rewrite Z.eqb_refl.
  - rewrite Hpdt by apply PDX_range. by rewrite Z.eqb_refl.
  - intros va' Hva'. unfold pte_of. rewrite Hpdt by apply PDX_range.
    destruct (Z.eqb_spec (PDX va') (PDX va)) as [E|E].
    + rewrite E, Hn. pose proof (PTX_range va').
      eapply new_table_zero; try done; lia.
    + destruct (pdt (km_mem s) d (PDX va')) as [t|] eqn:Et; [|done].
      destruct (Htab _ _ (PDX_range va') Et) as (?&?&?).
      symmetry. apply ld32_ext. intros x Hx.
      apply (Hsame t); [done|done|set_solver|]. eauto using pte_word_in_page.
Qed.

(** walkpgdir with [alloc] set: it finds or makes the table of [va] without
    changing a translation, or fails because no page is free. *)
Lemma walkpgdir_grow kend d va s l :
  vm_wf kend s d l → 0 ≤ va < 4294967296 →
  ∃ r s' l',
    walkpgdir d va true s = Ret (r, s')
    ∧ pt_grow kend d s l s' l'
    ∧ (∀ va', 0 ≤ va' < 4294967296 → pte_of (km_mem s') d va' = pte_of (km_mem s) d va')
    ∧ ((r = 0 ∧ l' = [] ∧ s' = s)
       ∨ (∃ t, r = t + 4 * PTX va ∧ r ≠ 0 ∧ pdt (km_mem s') d (PDX va) = Some t)).
Proof.
  intros Hwf Hva. destruct (pdt (km_mem s) d (PDX va)) as [t|] eqn:Et.
  - exists (t + 4 * PTX va), s, l. split; [by apply walkpgdir_present|].
    split; [by apply pt_grow_refl|]. split; [done|]. right. exists t.
    destruct Hwf as [_ _ _ Htab _].
    destruct (Htab _ _ (PDX_range va) Et) as (Hok & _).
    pose proof (page_ok_bounds _ _ Hok). pose proof (PTX_range va).
    split; [done|split; [lia|done]].
  - destruct l as [|p l].
    + exists 0, s, []. split; [|split; [by apply pt_grow_refl|auto]].
      eapply walkpgdir_nomem; [apply Hwf|done].
    + destruct (new_table_grow kend d va s p l Hwf Hva Et) as (Hg & Hp & Hpte).
      eexists _, _, l. split; [by eapply walkpgdir_alloc|].
      split; [done|]. split; [done|]. right. exists p.
      assert (page_ok kend p) as Hok by (eapply kmem_rep_pages; [apply Hwf|left]).
      pose proof (page_ok_bounds _ _ Hok). pose proof (PTX_range va).
      split; [done|split; [lia|done]].
Qed.

(** The entry mappages writes for physical page [pa]. *)
Definition leaf (pa perm : Z) : Z := Z.lor (Z.lor pa perm) PTE_P.

Lemma leaf_alt pa perm :
  0 ≤ pa → pa mod 4096 = 0 → 0 ≤ perm < 4096 →
  ∃ f, leaf pa perm = pa + f ∧ f mod 2 = 1 ∧ 0 ≤ f < 4096 ∧ f = Z.lor perm PTE_P.
Proof.
  intros Hpa Hal Hp. exists (Z.lor perm PTE_P).
  assert (0 ≤ Z.lor perm PTE_P < 4096) as Hr.
  { split; [apply Z.lor_nonneg; unfold PTE_P; lia|].
    destruct (decide (Z.lor perm PTE_P = 0)) as [->|]; [lia|].
    apply (Z.log2_lt_cancel _ 4096). rewrite Z.log2_lor by (unfold PTE_P; lia).
    assert (Z.log2 perm < 12) by
      (destruct (decide (perm = 0)) as [->|]; [done|apply Z.log2_lt_pow2; simpl; lia]).
    change (Z.log2 4096) with 12. change (Z.log2 PTE_P) with 0. lia. }
  split; [|split; [|split]]; try done.
  - unfold leaf. rewrite <- Z.lor_assoc. by apply lor_page_flags.
  - rewrite <- land_PTE_P. unfold PTE_P. rewrite Z.land_lor_distr_l.
    change (Z.land 1 1) with 1. change (Z.land perm 1) with (Z.land perm PTE_P).
    rewrite land_PTE_P. pose proof (Z.mod_pos_bound perm 2 ltac:(lia)).
    assert (perm mod 2 = 0 ∨ perm mod 2 = 1) as [->| ->] by lia; done.
Qed.

Definition absent (e : Z) : Prop := Z.land e PTE_P = 0.

(** What a run of mappages over [n] pages starting at [a] does to leaves. *)
Definition mapped (m m' : mem) (d a pa perm n : Z) : Prop :=
  ∀ va, 0 ≤ va < 4294967296 →
    pte_of m' d va =
      if (a <=? va) && (va <? a + 4096 * n)
      then leaf (pa + (va / 4096 * 4096 - a)) perm else pte_of m d va.

Lemma mappages_loop_ok kend d perm : ∀ k s l a pa,
  vm_wf kend s d l →
  a mod 4096 = 0 → 0 ≤ a → a + 4096 * (Z.of_nat k + 1) ≤ 4294967296 →
  pa mod 4096 = 0 → 0 ≤ pa → pa + 4096 * (Z.of_nat k + 1) ≤ 4294967296 →
  0 ≤ perm < 4096 →
  (∀ va, a ≤ va < a + 4096 * (Z.of_nat k + 1) → absent (pte_of (km_mem s) d va)) →
  ∃ r s' l' n,
    mappages_loop (S k) d a (a + 4096 * Z.of_nat k) pa perm s = Ret (r, s')
    ∧ pt_grow kend d s l s' l'
    ∧ mapped (km_mem s) (km_mem s') d a pa perm n
    ∧ ((r = 0 ∧ n = Z.of_nat k + 1) ∨ (r = -1 ∧ 0 ≤ n ≤ Z.of_nat k ∧ l' = [])).
Proof.
  induction k as [|k IH]; intros s l a pa Hwf Ha Ha0 Ha1 Hp Hp0 Hp1 Hperm Habs.
  all: destruct (walkpgdir_grow kend d a s l Hwf) as (r & s1 & l1 & Hrun & Hg & Hpte & Hr);
    [lia|]; cbn [mappages_loop]; erewrite bind_ret_eval by exact Hrun.
  all: destruct Hr as [(-> & -> & ->)|(t & -> & Hne & Ht)].
  1, 3: exists (-1), s, [], 0; cbn [Z.eqb]; split; [done|]; split; [done|];
    split; [intros va Hva; by zcases|right; split_and!; done || lia].
  all: destruct (Z.eqb_spec (t + 4 * PTX a) 0); [done|].
  all: assert (absent (ld32 (km_mem s1) (t + 4 * PTX a))) as Habs1
    by (specialize (Hpte a ltac:(lia)); unfold pte_of at 1 in Hpte; rewrite Ht in Hpte;
        rewrite Hpte; apply Habs; lia).
  all: unfold load32 at 1, gets; unfold bind at 1; rewrite Habs1, Z.eqb_refl; cbn [negb].
  all: unfold store at 1, modify; unfold bind at 1; cbv beta iota.
  all: destruct (leaf_alt pa perm Hp0 Hp Hperm) as (f & Hlf & _ & Hf & _).
  all: destruct (pte_store kend d s1 l1 a t (leaf pa perm)) as (Hg2 & _ & Hpte2);
    [apply Hg|lia|lia|done|].
  all: set (s2 := set_mem _ s1) in *.
  all: assert (pt_grow kend d s l s2 l1) as Hg' by (eapply pt_grow_trans; eauto).
  - destruct (Z.eqb_spec a (a + 4096 * Z.of_nat 0)); [|lia].
    exists 0, s2, l1, 1. split; [done|]. split; [done|]. split; [|left; lia].
    intros va Hva. rewrite Hpte2, Hpte by done.
    zcases; try done; try (exfalso; Z.div_mod_to_equations; lia).
    f_equal. Z.div_mod_to_equations; lia.
  - destruct (Z.eqb_spec a (a + 4096 * Z.of_nat (S k))); [lia|].
    unfold PGSIZE. rewrite !u32_small by lia.
    destruct (IH s2 l1 (a + 4096) (pa + 4096)) as (r & s3 & l3 & n' & Hrun3 & Hg3 & Hm3 & Hr3);
      [apply Hg'|Z.div_mod_to_equations; lia|lia|lia|Z.div_mod_to_equations; lia|lia|lia|done| |].
    { intros va Hva. rewrite Hpte2, Hpte by lia.
      zcases; [Z.div_mod_to_equations; lia|]. apply Habs. lia. }
    exists r, s3, l3, (n' + 1).
    replace (a + 4096 * Z.of_nat (S k)) with (a + 4096 + 4096 * Z.of_nat k) by lia.
    split; [done|]. split; [by eapply pt_grow_trans|].
    split; [|destruct Hr3 as [[-> ->]|(-> & ? & ->)]; [left|right]; split_and!; done || lia].
    intros va Hva. rewrite Hm3, Hpte2, Hpte by done.
    zcases; try done; try (exfalso; Z.div_mod_to_equations; lia);
      f_equal; Z.div_mod_to_equations; lia.
Qed.

(** * mappages *)

(** mappages over a page-aligned range of [n] pages. *)
Lemma mappages_ok kend d s l va size pa perm n :
  vm_wf kend s d l →
  va mod 4096 = 0 → 0 ≤ va → 0 < size → n = (size + 4095) / 4096 →
  va + 4096 * n ≤ 4294967296 →
  pa mod 4096 = 0 → 0 ≤ pa → pa + 4096 * n ≤ 4294967296 → 0 ≤ perm < 4096 →
  (∀ va', va ≤ va' < va + 4096 * n → absent (pte_of (km_mem s) d va')) →
  ∃ r s' l' k,
    mappages d va size pa perm s = Ret (r, s')
    ∧ pt_grow kend d s l s' l'
    ∧ mapped (km_mem s) (km_mem s') d va pa perm k
    ∧ ((r = 0 ∧ k = n) ∨ (r = -1 ∧ 0 ≤ k < n ∧ l' = [])).
Proof.
  intros Hwf Ha Ha0 Hs Hn Hend Hpa Hpa0 Hpend Hperm Habs.
  assert (1 ≤ n) as Hn1 by (Z.div_mod_to_equations; lia).
  destruct (mappages_loop_ok kend d perm (Z.to_nat (n - 1)) s l va pa)
    as (r & s' & l' & k & Hrun & Hg & Hm & Hr); rewrite ?Z2Nat.id by lia; try done; try lia.
  { intros va' Hva'. apply Habs. lia. }
  exists r, s', l', k. rewrite Z2Nat.id in * by lia.
  split; [|split; [done|split; [done|]]].
  - rewrite <- Hrun. unfold mappages, PGSIZE.
    rewrite (u32_small (va + size - 1)) by (Z.div_mod_to_equations; lia).
    rewrite !PGROUNDDOWN_alt by (Z.div_mod_to_equations; lia).
    replace (va / 4096 * 4096) with va by (Z.div_mod_to_equations; lia).
    replace ((va + size - 1) / 4096 * 4096) with (va + 4096 * (n - 1))
      by (Z.div_mod_to_equations; lia).
    rewrite u32_small by lia.
    replace ((va + 4096 * (n - 1) - va) / 4096) with (n - 1)
      by (Z.div_mod_to_equations; lia). done.
  - destruct Hr as [[-> ->]|(-> & ? & ->)]; [left|right]; split_and!; done || lia.
Qed.

(** * The empty address space of a concrete machine *)
Definition ex_dir : Z := ex_kend.

Lemma ex_pdt i : 0 ≤ i < 1024 → pdt (km_mem ex_kmem) ex_dir i = None.
Proof.
  intros Hi. unfold pdt, ld32. simpl.
  rewrite !st32_other by (unfold ex_dir; lia). done.
Qed.

Lemma ex_wf : vm_wf ex_kend ex_kmem ex_dir ex_free.
Proof.
  split; [apply ex_rep|by vm_compute|set_solver by lia| |]; intros *; intros.
  - by rewrite ex_pdt in *.
  - by rewrite ex_pdt in *.
Qed.

Lemma ex_pte va : pte_of (km_mem ex_kmem) ex_dir va = 0.
Proof. unfold pte_of. by rewrite ex_pdt by apply PDX_range. Qed.

(** The same with page 0 mapped: the directory's first table is the next
    page, its first entry the one after; one page is free. *)
Definition ex_mapped : kmem :=
  MkKmem true (ex_kend + 12288)
    (st32 ex_dir (V2P (ex_kend + 4096) + 7)
       (st32 (ex_kend + 4096) (V2P (ex_kend + 8192) + 7) (λ _, 0))).

Lemma ex_mapped_pdt i :
  0 ≤ i < 1024 →
  pdt (km_mem ex_mapped) ex_dir i = if i =? 0 then Some (ex_kend + 4096) else None.
Proof.
  intros Hi. destruct (Z.eqb_spec i 0) as [->|Hne]; [by vm_compute|].
  unfold pdt, ld32, ex_mapped. cbn [km_mem].
  by rewrite !st32_other by (unfold ex_dir, ex_kend; lia).
Qed.

Lemma ex_mapped_wf : vm_wf ex_kend ex_mapped ex_dir [ex_kend + 12288].
Proof.
  split.
  - split; [do 2 apply st32_ok; intros x; lia|].
    apply chain_cons; [by vm_compute|set_solver|].
    replace (ld32 _ _) with 0 by (by vm_compute). constructor.
  - by vm_compute.
  - apply (bool_decide_unpack _). by vm_compute.
  - intros i t Hi. rewrite ex_mapped_pdt by done.
    destruct (i =? 0); intros [= <-]. split; [by vm_compute|].
    split; apply (bool_decide_unpack _); by vm_compute.
  - intros i j t Hi Hj. rewrite !ex_mapped_pdt by done.
    zcases; intros; (discriminate || lia).
Qed.

Lemma ex_mapped_pte va :
  0 ≤ va < 4294967296 →
  pte_of (km_mem ex_mapped) ex_dir va = if va <? 4096 then V2P (ex_kend + 8192) + 7 else 0.
Proof.
  intros Hva. unfold pte_of. rewrite ex_mapped_pdt by apply PDX_range.
  rewrite PDX_alt, PTX_alt by done. destruct (Z.ltb_spec va 4096) as [Hlt|Hge].
  - replace (va / 4194304) with 0 by (Z.div_mod_to_equations; lia).
    replace (va / 4096) with 0 by (Z.div_mod_to_equations; lia). by vm_compute.
  - destruct (Z.eqb_spec (va / 4194304) 0) as [He|]; [|done].
    unfold ld32, ex_mapped. cbn [km_mem].
    by rewrite !st32_other by (unfold ex_dir, ex_kend; Z.div_mod_to_equations; lia).
Qed.

Lemma ex_frame_none va : Z.land (pte_of (km_mem ex_kmem) ex_dir va) PTE_P = 0.
Proof. by rewrite ex_pte. Qed.

(** * Properties *)

(** mappages on an unmapped page-aligned range creates, for each page of
    the range in order, the entry with the page's physical address and the
    permissions.  It returns 0 with all entries made, or -1 with a prefix
    made, and the latter only when memory has run out; no other entry
    changes, and no page outside the page table is written. *)
Theorem mappages_correct kend d s l va size pa perm n :
  vm_wf kend s d l →
  va mod 4096 = 0 → 0 ≤ va → 0 < size → n = (size + 4095) / 4096 →
  va + 4096 * n ≤ 4294967296 →
  pa mod 4096 = 0 → 0 ≤ pa → pa + 4096 * n ≤ 4294967296 → 0 ≤ perm < 4096 →
  (∀ va', va ≤ va' < va + 4096 * n → absent (pte_of (km_mem s) d va')) →
  ∃ r s' l' k,
    mappages d va size pa perm s = Ret (r, s')
    ∧ pt_grow kend d s l s' l'
    ∧ mapped (km_mem s) (km_mem s') d va pa perm k
    ∧ ((r = 0 ∧ k = n) ∨ (r = -1 ∧ 0 ≤ k < n ∧ l' = [])).
Proof. apply mappages_ok. Qed.

Lemma mappages_correct_witness :
  ∃ r s' l' k,
    mappages ex_dir 4190208 8192 4096 PTE_W ex_kmem = Ret (r, s')
    ∧ pt_grow ex_kend ex_dir ex_kmem ex_free s' l'
    ∧ mapped (km_mem ex_kmem) (km_mem s') ex_dir 4190208 4096 PTE_W k
    ∧ ((r = 0 ∧ k = 2) ∨ (r = -1 ∧ 0 ≤ k < 2 ∧ l' = [])).
Proof.
  apply (mappages_correct ex_kend ex_dir ex_kmem ex_free 4190208 8192 4096 PTE_W 2).
  - apply ex_wf.
  - done.
  - lia.
  - lia.
  - done.
  - lia.
  - done.
  - lia.
  - lia.
  - by vm_compute.
  - intros va' _. apply ex_frame_none.
Defined.
