(* ===== verification/Uvm.v ===== *)
(** User address spaces: what allocuvm, deallocuvm and copyout of vm.c do.

    The code is in Vm; this file states what a well-formed user part of a
    page table is, and follows pages as they move between the free list,
    the page table and the user frames. *)

From S2P Require Import Prelude Params Cstring Kalloc Vm.

(** * User frames *)

(** The kernel address of the frame that [va] is mapped to. *)
Definition frame_of (m : mem) (d va : Z) : option Z :=
  let e := pte_of m d va in
  if Z.land e PTE_P =? 0 then None else Some (P2V (PTE_ADDR e)).

(** Pages that are neither the directory nor one of its tables. *)
Definition not_table (m : mem) (d q : Z) : Prop :=
  q ≠ d ∧ ∀ i, 0 ≤ i < 1024 → pdt m d i ≠ Some q.

(** User pages have frames of their own: allocated, outside the page table,
    and no two virtual pages share one. *)
Record user_wf (kend : Z) (s : kmem) (d : Z) (l : list Z) : Prop := {
  uw_frame : ∀ va f, 0 ≤ va < KERNBASE → frame_of (km_mem s) d va = Some f →
    page_ok kend f ∧ (f ∉ l) ∧ not_table (km_mem s) d f;
  uw_inj : ∀ va va' f, 0 ≤ va < KERNBASE → 0 ≤ va' < KERNBASE →
    frame_of (km_mem s) d va = Some f → frame_of (km_mem s) d va' = Some f →
    va / 4096 = va' / 4096
}.

Lemma pte_of_ext kend s d l m' :
  vm_wf kend s d l → same_page (km_mem s) m' d →
  (∀ i t, 0 ≤ i < 1024 → pdt (km_mem s) d i = Some t → same_page (km_mem s) m' t) →
  (∀ i, 0 ≤ i < 1024 → pdt m' d i = pdt (km_mem s) d i)
  ∧ ∀ va, pte_of m' d va = pte_of (km_mem s) d va.
Proof.
  intros Hwf Hd Ht.
  assert (∀ i, 0 ≤ i < 1024 → pdt m' d i = pdt (km_mem s) d i) as Hpdt
    by (intros i Hi; symmetry; by apply pdt_ext).
  split; [done|]. intros va. unfold pte_of. rewrite Hpdt by apply PDX_range.
  destruct (pdt (km_mem s) d (PDX va)) as [t|] eqn:Et; [|done].
  symmetry. apply ld32_ext. intros x Hx. eapply Ht;
    eauto using pte_word_in_page, PDX_range.
Qed.

(** Freeing a page outside the page table leaves the table alone. *)
Lemma kfree_not_table kend s d l f :
  KERNBASE ≤ kend → vm_wf kend s d l → page_ok kend f → f ∉ l → not_table (km_mem s) d f →
  ∃ s', kfree kend f s = Ret (tt, s')
    ∧ vm_wf kend s' d (f :: l)
    ∧ (∀ i, 0 ≤ i < 1024 → pdt (km_mem s') d i = pdt (km_mem s) d i)
    ∧ (∀ va, pte_of (km_mem s') d va = pte_of (km_mem s) d va)
    ∧ ∀ q, page_ok kend q → q ≠ f → same_page (km_mem s) (km_mem s') q.
Proof.
  intros Hk Hwf Hf Hfl [Hfd Hft]. pose proof Hwf as [Hrep Hd Hdl Htab Hinj].
  eexists. split; [by apply kfree_run|].
  assert (∀ q, page_ok kend q → q ≠ f → same_page (km_mem s) (kfree_mem f s) q) as Hsame.
  { intros q Hq Hne x Hx. symmetry. apply kfree_mem_other.
    by apply (pages_disjoint kend q f). }
  destruct (pte_of_ext kend s d l (kfree_mem f s) Hwf) as [Hpdt Hpte].
  { by apply Hsame. }
  { intros i t Hi Ht. apply Hsame; [by eapply Htab|]. intros ->. by apply (Hft i). }
  split; [|done]. split; [by apply kfree_rep|done|by rewrite not_elem_of_cons| |]; simpl.
  - intros i t Hi. rewrite Hpdt by done. intros Ht.
    destruct (Htab _ _ Hi Ht) as (?&?&?). split; [done|split; [done|]].
    rewrite not_elem_of_cons. split; [|done]. intros ->. by apply (Hft i).
  - intros i j t Hi Hj. rewrite !Hpdt by done. by apply Hinj.
Qed.

(** What a run of deallocuvm's loop over the pages [a, hi) leaves behind;
    [fr] are the frames it gave back. *)
Record unmapped (kend d : Z) (s : kmem) (l : list Z) (s' : kmem) (l' : list Z)
    (a hi : Z) (fr : list Z) : Prop := {
  un_wf : vm_wf kend s' d l';
  un_user : user_wf kend s' d l';
  un_free : l' = fr ++ l;
  un_pdt : ∀ i, 0 ≤ i < 1024 → pdt (km_mem s') d i = pdt (km_mem s) d i;
  un_in : ∀ va, 0 ≤ va < KERNBASE → a ≤ va → va / 4096 * 4096 < hi →
    absent (pte_of (km_mem s') d va);
  un_out : ∀ va, 0 ≤ va < 4294967296 → va < a ∨ hi ≤ va / 4096 * 4096 →
    pte_of (km_mem s') d va = pte_of (km_mem s) d va;
  un_frames : ∀ f, f ∈ fr ↔
    (∃ va, 0 ≤ va < KERNBASE ∧ a ≤ va ∧ va / 4096 * 4096 < hi
           ∧ frame_of (km_mem s) d va = Some f);
  un_frame : ∀ q, page_ok kend q → not_table (km_mem s) d q → q ∉ fr →
    same_page (km_mem s) (km_mem s') q
}.

Lemma unmapped_nil kend d s l a hi :
  vm_wf kend s d l → user_wf kend s d l → a mod 4096 = 0 → hi ≤ a →
  unmapped kend d s l s l a hi [].
Proof.
  intros Hwf Hu Ha Hhi. split; try done.
  - intros va ???. Z.div_mod_to_equations. lia.
  - intros f. split; [intros H; by apply elem_of_nil in H|].
    intros (va & ? & ? & ? & _). Z.div_mod_to_equations. lia.
Qed.

Lemma not_table_ext m m' d q :
  (∀ i, 0 ≤ i < 1024 → pdt m' d i = pdt m d i) → not_table m d q ↔ not_table m' d q.
Proof.
  intros H. unfold not_table. split; intros [Hd Ht]; (split; [done|]); intros i Hi;
    specialize (Ht i Hi); specialize (H i Hi); congruence.
Qed.

Lemma frame_of_ext m m' d va :
  pte_of m' d va = pte_of m d va → frame_of m' d va = frame_of m d va.
Proof. intros H. unfold frame_of. by rewrite H. Qed.

Lemma unmapped_trans kend d s l s1 l1 s2 l2 a b hi fr1 fr2 :
  a mod 4096 = 0 → b mod 4096 = 0 → a ≤ b → b < hi + 4096 →
  unmapped kend d s l s1 l1 a b fr1 → unmapped kend d s1 l1 s2 l2 b hi fr2 →
  unmapped kend d s l s2 l2 a hi (fr2 ++ fr1).
Proof.
  intros Ha Hb Hab Hbhi U1 U2.
  assert (∀ i, 0 ≤ i < 1024 → pdt (km_mem s2) d i = pdt (km_mem s) d i) as Hpdt.
  { intros i Hi. by rewrite (un_pdt _ _ _ _ _ _ _ _ _ U2), (un_pdt _ _ _ _ _ _ _ _ _ U1). }
  pose proof (un_out _ _ _ _ _ _ _ _ _ U1) as O1.
  pose proof (un_out _ _ _ _ _ _ _ _ _ U2) as O2.
  split; [apply U2|apply U2| |done| | | |].
  - rewrite (un_free _ _ _ _ _ _ _ _ _ U2), (un_free _ _ _ _ _ _ _ _ _ U1).
    apply app_assoc.
  - intros va Hva Hav Hvh. destruct (Z.lt_ge_cases va b).
    + rewrite O2 by (unfold KERNBASE in *; lia).
      apply (un_in _ _ _ _ _ _ _ _ _ U1); [done|done|Z.div_mod_to_equations; lia].
    + by apply (un_in _ _ _ _ _ _ _ _ _ U2).
  - intros va Hva Hout. rewrite O2, O1; try done; Z.div_mod_to_equations; lia.
  - intros f. rewrite elem_of_app, (un_frames _ _ _ _ _ _ _ _ _ U1),
      (un_frames _ _ _ _ _ _ _ _ _ U2).
    split.
    + intros [(va & Hva & H1 & H2 & Hf)|(va & Hva & H1 & H2 & Hf)]; exists va.
      * rewrite <- (frame_of_ext _ (km_mem s1)); [split_and!; done || lia|].
        apply O1; [unfold KERNBASE in *; lia|]. Z.div_mod_to_equations; lia.
      * split_and!; try done; try lia; Z.div_mod_to_equations; lia.
    + intros (va & Hva & H1 & H2 & Hf). destruct (Z.lt_ge_cases va b).
      * right. exists va. split_and!; try done; try lia; Z.div_mod_to_equations; lia.
      * left. exists va. rewrite (frame_of_ext (km_mem s)); [done|].
        apply O1; [unfold KERNBASE in *; lia|]. Z.div_mod_to_equations; lia.
  - intros q Hq Hnt Hnin. rewrite not_elem_of_app in Hnin. destruct Hnin as [N2 N1].
    intros x Hx. rewrite (un_frame _ _ _ _ _ _ _ _ _ U1 q Hq Hnt N1 x Hx).
    apply (un_frame _ _ _ _ _ _ _ _ _ U2 q); try done.
    by apply (not_table_ext (km_mem s)); [apply U1|].
Qed.

Lemma unmapped_skip kend d s l s' l' a b hi fr :
  a mod 4096 = 0 → b mod 4096 = 0 → a ≤ b →
  (∀ va, a ≤ va < b → absent (pte_of (km_mem s) d va)) →
  unmapped kend d s l s' l' b hi fr → unmapped kend d s l s' l' a hi fr.
Proof.
  intros Ha Hb Hab Habs U. pose proof (un_out _ _ _ _ _ _ _ _ _ U) as O.
  split; [apply U|apply U|apply U|apply U| | | |apply U].
  - intros va Hva Hav Hvh. destruct (Z.lt_ge_cases va b).
    + rewrite O by (unfold KERNBASE in *; lia). apply Habs. lia.
    + by apply (un_in _ _ _ _ _ _ _ _ _ U).
  - intros va Hva Hout. apply O; [done|lia].
  - intros f. rewrite (un_frames _ _ _ _ _ _ _ _ _ U).
    split; intros (va & Hva & H1 & H2 & Hf); exists va; split_and!; try done; try lia.
    destruct (Z.lt_ge_cases va b) as [Hlt|]; [|lia]. exfalso.
    unfold frame_of in Hf. rewrite (Habs va) in Hf by lia. done.
Qed.

(** Clearing one present entry and freeing its frame. *)
Lemma unmap_one kend d s l va t e :
  KERNBASE ≤ kend → vm_wf kend s d l → user_wf kend s d l →
  va mod 4096 = 0 → 0 ≤ va < KERNBASE →
  pdt (km_mem s) d (PDX va) = Some t → e = ld32 (km_mem s) (t + 4 * PTX va) →
  Z.land e PTE_P ≠ 0 →
  ∃ s', (kfree kend (P2V (PTE_ADDR e)) ;;; store (st32 (t + 4 * PTX va) 0) ;;; ret va) s
        = Ret (va, s')
    ∧ unmapped kend d s l s' (P2V (PTE_ADDR e) :: l) va (va + 4096) [P2V (PTE_ADDR e)].
Proof.
  intros Hk Hwf Hu Hal Hva Ht He Hpres.
  assert (frame_of (km_mem s) d va = Some (P2V (PTE_ADDR e))) as Hf0.
  { unfold frame_of, pte_of. rewrite Ht, <- He. by destruct (Z.eqb_spec (Z.land e PTE_P) 0). }
  set (f := P2V (PTE_ADDR e)) in *.
  destruct (uw_frame _ _ _ _ Hu va f Hva Hf0) as (Hfok & Hfl & Hfnt).
  destruct (kfree_not_table kend s d l f Hk Hwf Hfok Hfl Hfnt)
    as (s1 & Hrun & Hwf1 & Hpdt1 & Hpte1 & Hsame1).
  erewrite bind_ret_eval by exact Hrun.
  destruct (pte_store kend d s1 (f :: l) va t 0) as (Hg & Hpdt2 & Hpte2);
    [done|unfold KERNBASE in *; lia|lia|by rewrite Hpdt1 by apply PDX_range|].
  eexists. split; [done|].
  set (s2 := set_mem (st32 (t + 4 * PTX va) 0 (km_mem s1)) s1) in *.
  assert (∀ i, 0 ≤ i < 1024 → pdt (km_mem s2) d i = pdt (km_mem s) d i) as Hpdt
    by (intros i Hi; by rewrite Hpdt2, Hpdt1).
  assert (∀ va', 0 ≤ va' < 4294967296 → va' / 4096 ≠ va / 4096 →
            pte_of (km_mem s2) d va' = pte_of (km_mem s) d va') as Hother.
  { intros va' Hva' Hne. rewrite Hpte2, Hpte1 by done. by zcases. }
  assert (∀ va' f', 0 ≤ va' < KERNBASE → frame_of (km_mem s2) d va' = Some f' →
            va' / 4096 ≠ va / 4096 ∧ frame_of (km_mem s) d va' = Some f') as Hback.
  { intros va' f' Hva' Hf'. destruct (decide (va' / 4096 = va / 4096)) as [E|E].
    - unfold frame_of in Hf'. rewrite Hpte2 in Hf' by (unfold KERNBASE in *; lia).
      rewrite E, Z.eqb_refl in Hf'. done.
    - split; [done|]. rewrite <- Hf'. symmetry. apply frame_of_ext, Hother; [|done].
      unfold KERNBASE in *; lia. }
  split; [apply Hg| |done|done| | | |].
  - split.
    + intros va' f' Hva' Hf'. destruct (Hback va' f' Hva' Hf') as [Hne Hf''].
      destruct (uw_frame _ _ _ _ Hu va' f' Hva' Hf'') as (?&?&?).
      split_and!; [done| |by apply (not_table_ext (km_mem s))].
      rewrite not_elem_of_cons. split; [|done]. intros ->.
      apply Hne. by eapply (uw_inj _ _ _ _ Hu).
    + intros va1 va2 f' H1 H2 F1 F2. destruct (Hback _ _ H1 F1), (Hback _ _ H2 F2).
      by eapply (uw_inj _ _ _ _ Hu).
  - intros va' Hva' H1 H2. rewrite Hpte2 by (unfold KERNBASE in *; lia).
    replace (va' / 4096) with (va / 4096) by (Z.div_mod_to_equations; lia).
    by rewrite Z.eqb_refl.
  - intros va' Hva' Hout. apply Hother; [done|]. Z.div_mod_to_equations; lia.
  - intros f'. rewrite list_elem_of_singleton. split.
    + intros ->. exists va. split_and!; try done; try lia. Z.div_mod_to_equations; lia.
    + intros (va' & Hva' & H1 & H2 & Hf'). unfold frame_of in Hf', Hf0.
      replace (pte_of (km_mem s) d va') with (pte_of (km_mem s) d va) in Hf'.
      * congruence.
      * apply pte_of_same_page; [unfold KERNBASE in *; lia..|].
        Z.div_mod_to_equations; lia.
  - intros q Hq [Hqd Hqt] Hnin x Hx. rewrite list_elem_of_singleton in Hnin.
    rewrite (Hsame1 q Hq Hnin x Hx). apply (pg_frame _ _ _ _ _ _ Hg q Hq Hqd); [|done].
    intros i Hi. rewrite Hpdt by done. by apply Hqt.
Qed.

Lemma next_table_alt a :
  0 ≤ a < KERNBASE →
  u32 (u32 (PGADDR (PDX a + 1) 0 0 - PGSIZE) + PGSIZE) = (a / 4194304 + 1) * 4194304.
Proof.
  intros Ha. unfold KERNBASE, PGSIZE in *. rewrite u32_add_l.
  unfold PGADDR. rewrite Z.shiftl_0_l, !Z.lor_0_r, Z.shiftl_mul_pow2 by lia.
  rewrite PDX_alt by lia. change (2 ^ 22) with 4194304.
  rewrite (u32_small ((a / 4194304 + 1) * 4194304)) by (Z.div_mod_to_equations; lia).
  rewrite u32_small; Z.div_mod_to_equations; lia.
Qed.

Lemma deallocuvm_loop_ok kend d hi : ∀ fuel s l a,
  KERNBASE < kend → vm_wf kend s d l → user_wf kend s d l →
  a mod 4096 = 0 → 0 ≤ a → hi ≤ KERNBASE → hi ≤ a + 4096 * Z.of_nat fuel →
  ∃ s' l' fr, deallocuvm_loop kend fuel d a hi s = Ret (tt, s')
              ∧ unmapped kend d s l s' l' a hi fr.
Proof.
  induction fuel as [|fuel IH]; intros s l a Hk Hwf Hu Ha Ha0 Hhi Hfuel;
    cbn [deallocuvm_loop]; destruct (Z.ltb_spec a hi) as [Hlt|Hge];
    try (exfalso; lia);
    try (exists s, l, []; split; [done|by apply unmapped_nil]).
  assert (0 ≤ a < KERNBASE) as Har by lia.
  destruct (pdt (km_mem s) d (PDX a)) as [t|] eqn:Et.
  - erewrite bind_ret_eval by by apply walkpgdir_present.
    destruct (wf_tab _ _ _ _ Hwf _ _ (PDX_range a) Et) as (Htok & _).
    pose proof (page_ok_bounds _ _ Htok). pose proof (PTX_range a).
    destruct (Z.eqb_spec (t + 4 * PTX a) 0); [lia|].
    unfold load32 at 1, gets. set (e := ld32 (km_mem s) (t + 4 * PTX a)).
    destruct (Z.eqb_spec (Z.land e PTE_P) 0) as [Eabs|Epres].
    + erewrite bind_ret_eval.
      2: { unfold bind at 1. fold e. rewrite Eabs. reflexivity. }
      unfold PGSIZE. rewrite u32_small by (unfold KERNBASE in *; lia).
      destruct (IH s l (a + 4096)) as (s' & l' & fr & Hrun & U); try done; try lia.
      { Z.div_mod_to_equations; lia. }
      exists s', l', fr. split; [done|]. eapply unmapped_skip, U; try done; try lia.
      { Z.div_mod_to_equations; lia. }
      intros va Hva. rewrite (pte_of_same_page _ _ va a); [|unfold KERNBASE in *; lia..|].
      { unfold pte_of. by rewrite Et. }
      Z.div_mod_to_equations; lia.
    + destruct (unmap_one kend d s l a t e) as (s1 & Hrun1 & U1); try done; try lia.
      assert (PTE_ADDR e ≠ 0) as Hpa.
      { intros E. destruct (un_frames _ _ _ _ _ _ _ _ _ U1 (P2V (PTE_ADDR e))) as [Hfr _].
        destruct Hfr as (va & Hva & _ & _ & Hf); [by left|].
        destruct (uw_frame _ _ _ _ Hu va _ Hva Hf) as ((_ & Hge & _ & _) & _).
        rewrite E in Hge. change (P2V 0) with KERNBASE in Hge. lia. }
      rewrite (bind_ret_eval _ _ _ a s1).
      2: { unfold bind at 1. fold e. destruct (Z.eqb_spec (Z.land e PTE_P) 0); [done|].
           cbn [negb]. destruct (Z.eqb_spec (PTE_ADDR e) 0); [done|]. exact Hrun1. }
      unfold PGSIZE. rewrite u32_small by (unfold KERNBASE in *; lia).
      destruct (IH s1 (P2V (PTE_ADDR e) :: l) (a + 4096)) as (s' & l' & fr & Hrun & U);
        try done; try lia; try apply U1.
      { Z.div_mod_to_equations; lia. }
      exists s', l', (fr ++ [P2V (PTE_ADDR e)]). split; [done|].
      eapply unmapped_trans with (b := a + 4096); eauto; Z.div_mod_to_equations; lia.
  - erewrite bind_ret_eval by by apply walkpgdir_noalloc. cbn [Z.eqb].
    unfold bind at 1, ret at 1. rewrite next_table_alt by done.
    destruct (IH s l ((a / 4194304 + 1) * 4194304)) as (s' & l' & fr & Hrun & U); try done;
      try (Z.div_mod_to_equations; lia).
    exists s', l', fr. split; [done|]. eapply unmapped_skip, U; try done;
      try (Z.div_mod_to_equations; lia).
    intros va Hva. unfold pte_of. rewrite PDX_alt in Et by (unfold KERNBASE in *; lia).
    rewrite PDX_alt by (unfold KERNBASE in *; Z.div_mod_to_equations; lia).
    replace (va / 4194304) with (a / 4194304) by (Z.div_mod_to_equations; lia).
    by rewrite Et.
Qed.

(** * allocuvm *)

Definition zeroed (m : mem) (p : Z) : Prop := ∀ x, in_page p x → m x = 0.

(** A change confined to a page [p] outside the page table and the free list. *)
Lemma touch_page kend d s l p m' :
  vm_wf kend s d l → user_wf kend s d l → page_ok kend p → not_table (km_mem s) d p → p ∉ l →
  mem_ok m' → (∀ q, page_ok kend q → q ≠ p → same_page (km_mem s) m' q) →
  vm_wf kend (set_mem m' s) d l ∧ user_wf kend (set_mem m' s) d l
  ∧ (∀ i, 0 ≤ i < 1024 → pdt m' d i = pdt (km_mem s) d i)
  ∧ ∀ va, pte_of m' d va = pte_of (km_mem s) d va.
Proof.
  intros Hwf Hu Hp [Hpd Hpt] Hpl Hok Hsame. pose proof Hwf as [Hrep Hd Hdl Htab Hinj].
  destruct (pte_of_ext kend s d l m' Hwf) as [Hpdt Hpte].
  { by apply Hsame. }
  { intros i t Hi Ht. apply Hsame; [by eapply Htab|]. intros ->. by apply (Hpt i). }
  split_and!; [| |done|done].
  - split; simpl; [|done|done| |].
    + apply kmem_rep_frame; [done|done|]. intros q x Hq Hx.
      apply (Hsame q); [by eapply kmem_rep_pages|by intros ->|done].
    + intros i t Hi. rewrite Hpdt by done. by apply Htab.
    + intros i j t Hi Hj. rewrite !Hpdt by done. by apply Hinj.
  - split; simpl.
    + intros va f Hva. rewrite (frame_of_ext (km_mem s)) by done. intros Hf.
      destruct (uw_frame _ _ _ _ Hu va f Hva Hf) as (?&?&?). split_and!; try done.
      by apply (not_table_ext (km_mem s)).
    + intros va va' f H1 H2. rewrite (frame_of_ext (km_mem s) m' d va),
        (frame_of_ext (km_mem s) m' d va') by done.
      by apply (uw_inj _ _ _ _ Hu).
Qed.

(** Popping the first free page. *)
Lemma kalloc_user kend d s p l :
  vm_wf kend s d (p :: l) → user_wf kend s d (p :: l) →
  let s' := set_freelist (ld32 (km_mem s) p) s in
  kalloc s = Ret (p, s') ∧ vm_wf kend s' d l ∧ user_wf kend s' d l
  ∧ page_ok kend p ∧ (p ∉ l) ∧ not_table (km_mem s) d p.
Proof.
  intros [Hrep Hd Hdl Htab Hinj] [Hf Hi] s'.
  destruct (kalloc_rep_cons _ _ _ _ Hrep) as [Hrun Hrep'].
  pose proof (kmem_rep_nodup _ _ _ Hrep) as Hnd. apply NoDup_cons in Hnd as [Hpl _].
  rewrite not_elem_of_cons in Hdl. destruct Hdl as [Hdp Hdl].
  split_and!; [done| | |eapply kmem_rep_pages; [exact Hrep|left]|done|].
  - split; try done. intros i t Hi' Ht. destruct (Htab i t Hi' Ht) as (?&?&Hn).
    rewrite not_elem_of_cons in Hn. by destruct Hn.
  - split; [|done]. intros va f Hva Hfr. destruct (Hf va f Hva Hfr) as (?&Hn&?).
    rewrite not_elem_of_cons in Hn. by destruct Hn.
  - split; [done|]. intros i Hi' Ht. destruct (Htab i p Hi' Ht) as (_&_&Hn).
    apply Hn. left.
Qed.

Lemma memset_page kend p c m q :
  page_ok kend p → page_ok kend q → q ≠ p → same_page m (memset p c PGSIZE m) q.
Proof.
  intros Hp Hq Hne x Hx. rewrite memset_spec by (unfold PGSIZE; lia).
  assert (¬ in_page p x) by (by apply (pages_disjoint kend q p)).
  unfold in_page, PGSIZE in *. by zcases.
Qed.

Lemma memset_zeroed p m : zeroed (memset p 0 PGSIZE m) p.
Proof.
  intros x Hx. unfold in_page in Hx. rewrite memset_spec by (unfold PGSIZE; lia).
  unfold PGSIZE. by zcases.
Qed.

(** The state of allocuvm's loop: the pages [lo, a) have been mapped, each
    to a zero-filled page that was free before, and every page that was
    free is still free, has become a table, or backs one of these pages. *)
Record grown (kend d : Z) (s0 : kmem) (l0 : list Z) (s : kmem) (l : list Z)
    (lo a : Z) : Prop := {
  gr_wf : vm_wf kend s d l;
  gr_user : user_wf kend s d l;
  gr_sub : ∀ q, q ∈ l → q ∈ l0;
  gr_out : ∀ va, 0 ≤ va < 4294967296 → va < lo ∨ a ≤ va →
    pte_of (km_mem s) d va = pte_of (km_mem s0) d va;
  gr_in : ∀ va, lo ≤ va < a → ∃ f, f ∈ l0 ∧ page_ok kend f ∧ zeroed (km_mem s) f
    ∧ pte_of (km_mem s) d va = leaf (V2P f) (Z.lor PTE_W PTE_U);
  gr_acct : ∀ q, q ∈ l0 → q ∈ l ∨ (∃ i, 0 ≤ i < 1024 ∧ pdt (km_mem s) d i = Some q)
    ∨ (∃ va, lo ≤ va < a ∧ frame_of (km_mem s) d va = Some q);
  gr_frame : ∀ q, page_ok kend q → q ∉ l0 → not_table (km_mem s0) d q →
    same_page (km_mem s0) (km_mem s) q;
  gr_tables : ∀ i t, 0 ≤ i < 1024 → pdt (km_mem s) d i = Some t →
    pdt (km_mem s0) d i = Some t ∨ t ∈ l0;
  gr_old : ∀ i t, 0 ≤ i < 1024 → pdt (km_mem s0) d i = Some t → pdt (km_mem s) d i = Some t
}.

Lemma grown_refl kend d s l lo :
  vm_wf kend s d l → user_wf kend s d l → grown kend d s l s l lo lo.
Proof. intros. split; auto; [intros; lia|done]. Qed.

Lemma leaf_frame f kend perm :
  page_ok kend f → 0 ≤ perm < 4096 →
  Z.land (leaf (V2P f) perm) PTE_P ≠ 0 ∧ P2V (PTE_ADDR (leaf (V2P f) perm)) = f.
Proof.
  intros Hf Hp. pose proof (page_ok_bounds _ _ Hf).
  destruct (new_pde_alt f kend Hf) as (_ & Hal & Hr).
  destruct (leaf_alt (V2P f) perm) as (g & -> & Hodd & Hg & _); [lia|done|done|].
  rewrite land_PTE_P. split; [Z.div_mod_to_equations; lia|].
  rewrite PTE_ADDR_flags, P2V_V2P by (try done; lia). done.
Qed.

(** Mapping the page [p] at [a] extends a well-formed user space. *)
Lemma map_user_page kend d s l s' l' a p perm :
  vm_wf kend s d l → user_wf kend s d l →
  page_ok kend p → (p ∉ l) → not_table (km_mem s) d p →
  (∀ va f, 0 ≤ va < KERNBASE → frame_of (km_mem s) d va = Some f → f ≠ p) →
  a mod 4096 = 0 → 0 ≤ perm < 4096 →
  pt_grow kend d s l s' l' → mapped (km_mem s) (km_mem s') d a (V2P p) perm 1 →
  user_wf kend s' d l'.
Proof.
  intros Hwf Hu Hp Hpl Hpt Hpf Ha Hperm [Hwf' (l1 & -> & Hnew & _) Hold _] Hm.
  destruct (leaf_frame p kend perm Hp Hperm) as [Hpres Hpv].
  assert (∀ va f, 0 ≤ va < KERNBASE → frame_of (km_mem s') d va = Some f →
    (va / 4096 = a / 4096 ∧ f = p)
    ∨ (va / 4096 ≠ a / 4096 ∧ frame_of (km_mem s) d va = Some f)) as Hcase.
  { intros va f Hva. unfold frame_of. rewrite (Hm va) by (unfold KERNBASE in *; lia).
    destruct (decide (va / 4096 = a / 4096)) as [E|E].
    - replace ((a <=? va) && (va <? a + 4096 * 1)) with true
        by (symmetry; zcases; Z.div_mod_to_equations; lia).
      replace (V2P p + (va / 4096 * 4096 - a)) with (V2P p)
        by (Z.div_mod_to_equations; lia).
      rewrite Hpv. destruct (_ =? 0); [done|]. intros [= <-]. by left.
    - replace ((a <=? va) && (va <? a + 4096 * 1)) with false
        by (symmetry; zcases; Z.div_mod_to_equations; lia). auto. }
  assert (∀ f, f ∉ l1 ++ l' → not_table (km_mem s) d f → not_table (km_mem s') d f) as Hnt.
  { intros f Hf [Hfd Hft]. split; [done|]. intros i Hi Hi'.
    destruct (Hnew i f Hi Hi') as [Ho|Ho]; [by apply (Hft i)|].
    apply Hf. rewrite elem_of_app. by left. }
  split.
  - intros va f Hva Hf. destruct (Hcase va f Hva Hf) as [[_ ->]|[_ Hf']].
    + split_and!; [done| |by apply Hnt]. rewrite not_elem_of_app in Hpl. by destruct Hpl.
    + destruct (uw_frame _ _ _ _ Hu va f Hva Hf') as (Hok & Hn & Hnt').
      split_and!; [done| |by apply Hnt]. rewrite not_elem_of_app in Hn. by destruct Hn.
  - intros va va' f Hva Hva' Hf Hf'.
    destruct (Hcase va f Hva Hf) as [[E E1]|[E F]],
      (Hcase va' f Hva' Hf') as [[E' E2]|[E' F']]; try lia.
    + exfalso. by eapply (Hpf va').
    + exfalso. by eapply (Hpf va).
    + by eapply (uw_inj _ _ _ _ Hu).
Qed.

(** A page outside the page table and the free list survives a growth of
    the page table. *)
Lemma pt_grow_keeps kend d s l s' l' q :
  pt_grow kend d s l s' l' → page_ok kend q → not_table (km_mem s) d q → (q ∉ l) →
  not_table (km_mem s') d q ∧ same_page (km_mem s) (km_mem s') q.
Proof.
  intros [_ (l1 & -> & Hnew & _) _ Hframe] Hq [Hqd Hqt] Hql.
  assert (∀ i, 0 ≤ i < 1024 → pdt (km_mem s') d i ≠ Some q) as Hnt.
  { intros i Hi Hi'. destruct (Hnew i q Hi Hi') as [Ho|Ho]; [by apply (Hqt i)|].
    apply Hql. rewrite elem_of_app. by left. }
  split; [done|]. by apply Hframe.
Qed.

(** One page of allocuvm: a page is taken, zeroed and mapped. *)
Lemma grown_step kend d s0 l0 s l s' l' lo a p :
  grown kend d s0 l0 s (p :: l) lo a →
  0 ≤ lo → lo ≤ a → a mod 4096 = 0 → a + 4096 ≤ KERNBASE →
  let s1 := set_freelist (ld32 (km_mem s) p) s in
  let s2 := set_mem (memset p 0 PGSIZE (km_mem s1)) s1 in
  pt_grow kend d s2 l s' l' →
  mapped (km_mem s2) (km_mem s') d a (V2P p) (Z.lor PTE_W PTE_U) 1 →
  grown kend d s0 l0 s' l' lo (a + 4096).
Proof.
  intros [Hwf Hu Hsub Hout Hin Hacct Hfr Htb Hold0] Hlo Hla Ha Hak s1 s2 Hg Hm.
  destruct (kalloc_user kend d s p l Hwf Hu) as (_ & Hwf1 & Hu1 & Hp & Hpl & Hpt).
  assert (p ∈ l0) as Hp0 by (apply Hsub; left).
  assert (∀ q, page_ok kend q → q ≠ p → same_page (km_mem s) (km_mem s2) q) as Hsame2
    by (intros; by eapply memset_page).
  destruct (touch_page kend d s1 l p (km_mem s2)) as (Hwf2 & Hu2 & Hpdt2 & Hpte2); try done.
  { apply memset_ok; [unfold PGSIZE; lia|apply Hwf]. }
  assert (∀ q, not_table (km_mem s) d q → not_table (km_mem s2) d q) as Hnt2
    by (intros q; by apply (not_table_ext (km_mem s))).
  pose proof Hg as [Hwf' (l1 & El & Hnew & Htaken) Hold Hframe].
  assert (∀ va, 0 ≤ va < 4294967296 → pte_of (km_mem s') d va =
    if va / 4096 =? a / 4096 then leaf (V2P p) (Z.lor PTE_W PTE_U)
    else pte_of (km_mem s) d va) as Hpte'.
  { intros va Hva. rewrite (Hm va Hva), Hpte2.
    zcases; try done; try (exfalso; Z.div_mod_to_equations; lia).
    f_equal. Z.div_mod_to_equations; lia. }
  destruct (leaf_frame p kend (Z.lor PTE_W PTE_U) Hp) as [Hpres Hpv]; [by compute|].
  split; [done| | | | | | | |intros i t Hi Ht; apply Hold; [done|]; rewrite Hpdt2 by done; by apply Hold0].
  - eapply (map_user_page kend d s2 l); eauto; [|by compute].
    intros va f Hva. rewrite (frame_of_ext (km_mem s)) by done. intros Hf ->.
    destruct (uw_frame _ _ _ _ Hu va p Hva Hf) as (_ & Hn & _). apply Hn. left.
  - intros q Hq. apply Hsub. right. rewrite El, elem_of_app. by right.
  - intros va Hva Hr. rewrite Hpte' by done.
    zcases; [Z.div_mod_to_equations; lia|]. apply Hout; [done|lia].
  - intros va Hva. rewrite Hpte' by (unfold KERNBASE in *; lia).
    destruct (Z.eqb_spec (va / 4096) (a / 4096)) as [E|E].
    + exists p. split_and!; try done. intros x Hx.
      destruct (pt_grow_keeps kend d s2 l s' l' p) as [_ Hs]; auto.
      rewrite <- Hs by done. by apply memset_zeroed.
    + destruct (Hin va) as (f & Hf0 & Hfok & Hz & Hf); [Z.div_mod_to_equations; lia|].
      exists f. split_and!; try done. intros x Hx.
      destruct (leaf_frame f kend (Z.lor PTE_W PTE_U) Hfok) as [Hpr Hfv]; [by compute|].
      destruct (uw_frame _ _ _ _ Hu va f) as (_ & Hfl & Hfnt);
        [unfold KERNBASE in *; lia| |].
      { unfold frame_of. rewrite Hf, Hfv. by destruct (Z.eqb_spec (Z.land (leaf (V2P f)
          (Z.lor PTE_W PTE_U)) PTE_P) 0). }
      rewrite not_elem_of_cons in Hfl. destruct Hfl as [Hfp Hfl].
      destruct (pt_grow_keeps kend d s2 l s' l' f) as [_ Hs]; auto.
      rewrite <- Hs, <- (Hsame2 f) by done. by apply Hz.
  - intros q Hq. destruct (Hacct q Hq) as [Hql|[(i & Hi & Hiq)|(va & Hva & Hvf)]].
    + apply elem_of_cons in Hql as [->|Hql].
      * right; right. exists a. split; [lia|]. unfold frame_of.
        rewrite Hpte', Z.eqb_refl, Hpv by (unfold KERNBASE in *; lia).
        by destruct (Z.eqb_spec (Z.land (leaf (V2P p) (Z.lor PTE_W PTE_U)) PTE_P) 0).
      * rewrite El, elem_of_app in Hql. destruct Hql; auto.
    + right; left. exists i. split; [done|]. apply Hold; [done|]. by rewrite Hpdt2.
    + right; right. exists va. split; [lia|]. rewrite <- Hvf. apply frame_of_ext.
      rewrite Hpte' by (unfold KERNBASE in *; lia).
      zcases; [Z.div_mod_to_equations; lia|done].
  - intros q Hq Hq0 Hqt x Hx. rewrite (Hfr q) by done.
    assert (not_table (km_mem s) d q) as Hqs.
    { split; [apply Hqt|]. intros i Hi Hi'.
      destruct (Htb i q Hi Hi') as [Ho|Ho]; [by apply Hqt in Ho|done]. }
    assert (q ≠ p) by (by intros ->).
    destruct (pt_grow_keeps kend d s2 l s' l' q) as [_ Hs]; auto.
    { intros Hql. apply Hq0, Hsub. by right. }
    by rewrite <- Hs, <- (Hsame2 q) by done.
  - intros i t Hi Ht. destruct (Hnew i t Hi Ht) as [Ho|Ho].
    + rewrite Hpdt2 in Ho by done. auto.
    + right. apply Hsub. right. rewrite El, elem_of_app. by left.
Qed.

(** The state allocuvm fails in, before and after it calls deallocuvm: the
    pages in [ex] are held by the caller, all others are accounted for. *)
Record held (kend d : Z) (s0 : kmem) (l0 : list Z) (s : kmem) (l : list Z)
    (lo hi : Z) (ex : list Z) : Prop := {
  he_wf : vm_wf kend s d l;
  he_user : user_wf kend s d l;
  he_sub : ∀ q, q ∈ l → q ∈ l0;
  he_out : ∀ va, 0 ≤ va < 4294967296 → va < lo ∨ hi ≤ va / 4096 * 4096 →
    pte_of (km_mem s) d va = pte_of (km_mem s0) d va;
  he_in : ∀ va f, lo ≤ va → va / 4096 * 4096 < hi →
    frame_of (km_mem s) d va = Some f → f ∈ l0;
  he_acct : ∀ q, q ∈ l0 → q ∈ l ∨ (∃ i, 0 ≤ i < 1024 ∧ pdt (km_mem s) d i = Some q)
    ∨ (∃ va, lo ≤ va ∧ va / 4096 * 4096 < hi ∧ frame_of (km_mem s) d va = Some q)
    ∨ q ∈ ex;
  he_frame : ∀ q, page_ok kend q → (q ∉ l0) → not_table (km_mem s0) d q →
    not_table (km_mem s) d q ∧ same_page (km_mem s0) (km_mem s) q;
  he_old : ∀ i t, 0 ≤ i < 1024 → pdt (km_mem s0) d i = Some t → pdt (km_mem s) d i = Some t
}.

Lemma grown_not_table kend d s0 l0 s l lo a q :
  grown kend d s0 l0 s l lo a → (q ∉ l0) → not_table (km_mem s0) d q →
  not_table (km_mem s) d q.
Proof.
  intros G Hq0 [Hqd Hqt]. split; [done|]. intros i Hi Hi'.
  destruct (gr_tables _ _ _ _ _ _ _ _ G i q Hi Hi') as [Ho|Ho]; [by apply Hqt in Ho|done].
Qed.

Lemma grown_frames kend d s0 l0 s l lo a hi va f :
  grown kend d s0 l0 s l lo a → a mod 4096 = 0 → 0 ≤ lo → a ≤ KERNBASE → hi ≤ KERNBASE →
  (∀ va, lo ≤ va → va / 4096 * 4096 < hi → absent (pte_of (km_mem s0) d va)) →
  lo ≤ va → va / 4096 * 4096 < hi → frame_of (km_mem s) d va = Some f →
  va < a ∧ f ∈ l0.
Proof.
  intros G Ha Hlo Hak Hhk Habs Hl Hh Hf. unfold frame_of in Hf.
  destruct (Z.lt_ge_cases va a) as [Hva|Hva].
  - split; [done|].
    destruct (gr_in _ _ _ _ _ _ _ _ G va) as (f' & Hf0 & Hok & _ & Hp); [lia|].
    destruct (leaf_frame f' kend (Z.lor PTE_W PTE_U) Hok) as [Hpr Hfv]; [by compute|].
    rewrite Hp, Hfv in Hf. destruct (_ =? 0); [done|]. by injection Hf as <-.
  - rewrite (gr_out _ _ _ _ _ _ _ _ G) in Hf
      by (first [lia|unfold KERNBASE in *; Z.div_mod_to_equations; lia]).
    by rewrite (Habs va Hl Hh) in Hf.
Qed.

Lemma grown_held kend d s0 l0 s l lo a hi :
  grown kend d s0 l0 s l lo a → a mod 4096 = 0 → 0 ≤ lo → a < hi → hi ≤ KERNBASE →
  (∀ va, lo ≤ va → va / 4096 * 4096 < hi → absent (pte_of (km_mem s0) d va)) →
  held kend d s0 l0 s l lo hi [].
Proof.
  intros G Ha Hlo Hah Hhk Habs. split; [apply G|apply G|apply G| | | | |apply G].
  - intros va Hva Ho. apply (gr_out _ _ _ _ _ _ _ _ G); [done|].
    Z.div_mod_to_equations; lia.
  - intros va f Hl Hh Hf. eapply grown_frames in Hf; eauto; [|lia]. tauto.
  - intros q Hq. destruct (gr_acct _ _ _ _ _ _ _ _ G q Hq) as [?|[?|(va & Hva & Hf)]]; auto.
    right; right; left. exists va. split_and!; [lia|Z.div_mod_to_equations; lia|done].
  - intros q Hq Hq0 Hqt. split; [by eapply grown_not_table|by apply G].
Qed.

Lemma pt_grow_user kend d s l s' l' :
  pt_grow kend d s l s' l' → user_wf kend s d l →
  (∀ va, 0 ≤ va < 4294967296 → pte_of (km_mem s') d va = pte_of (km_mem s) d va) →
  user_wf kend s' d l'.
Proof.
  intros G Hu Hpte. split.
  - intros va f Hva. rewrite (frame_of_ext (km_mem s)) by (apply Hpte; unfold KERNBASE in *; lia).
    intros Hf. destruct (uw_frame _ _ _ _ Hu va f Hva Hf) as (Hok & Hn & Hnt).
    destruct (pt_grow_keeps _ _ _ _ _ _ f G Hok Hnt Hn) as [Hnt' _].
    split_and!; [done| |done].
    destruct (pg_taken _ _ _ _ _ _ G) as (l1 & -> & _).
    rewrite not_elem_of_app in Hn. tauto.
  - intros va va' f Hva Hva'.
    rewrite (frame_of_ext (km_mem s) (km_mem s') d va),
      (frame_of_ext (km_mem s) (km_mem s') d va') by (apply Hpte; unfold KERNBASE in *; lia).
    by apply (uw_inj _ _ _ _ Hu).
Qed.

(** A page was taken and zeroed, the page table grew, nothing was mapped. *)
Lemma grown_held_page kend d s0 l0 s l s' l' lo a hi p :
  grown kend d s0 l0 s (p :: l) lo a → a mod 4096 = 0 → 0 ≤ lo → a < hi → hi ≤ KERNBASE →
  (∀ va, lo ≤ va → va / 4096 * 4096 < hi → absent (pte_of (km_mem s0) d va)) →
  let s1 := set_freelist (ld32 (km_mem s) p) s in
  let s2 := set_mem (memset p 0 PGSIZE (km_mem s1)) s1 in
  pt_grow kend d s2 l s' l' →
  (∀ va, 0 ≤ va < 4294967296 → pte_of (km_mem s') d va = pte_of (km_mem s2) d va) →
  held kend d s0 l0 s' l' lo hi [p] ∧ not_table (km_mem s') d p ∧ (p ∉ l')
  ∧ page_ok kend p ∧ ∀ va, 0 ≤ va < KERNBASE → frame_of (km_mem s') d va ≠ Some p.
Proof.
  intros G Ha Hlo Hah Hhk Habs s1 s2 Hg Hpte.
  pose proof (grown_held _ _ _ _ _ _ _ _ _ G Ha Hlo Hah Hhk Habs) as H.
  destruct (kalloc_user kend d s p l) as (_ & Hwf1 & Hu1 & Hp & Hpl & Hpt); [apply G..|].
  assert (∀ q, page_ok kend q → q ≠ p → same_page (km_mem s) (km_mem s2) q) as Hsame2
    by (intros; by eapply memset_page).
  destruct (touch_page kend d s1 l p (km_mem s2)) as (Hwf2 & Hu2 & Hpdt2 & Hpte2); try done.
  { apply memset_ok; [unfold PGSIZE; lia|apply G]. }
  assert (∀ q, not_table (km_mem s) d q → not_table (km_mem s2) d q) as Hnt2
    by (intros q; by apply (not_table_ext (km_mem s))).
  assert (∀ va, 0 ≤ va < 4294967296 → pte_of (km_mem s') d va = pte_of (km_mem s) d va) as Hpte'
    by (intros va Hva; by rewrite Hpte, Hpte2).
  destruct (pt_grow_keeps _ _ _ _ _ _ p Hg Hp (Hnt2 _ Hpt) Hpl) as [Hpt' _].
  pose proof (pg_taken _ _ _ _ _ _ Hg) as (l1 & El & Hnew & Htaken).
  split; [|split_and!; [done| |done|]].
  - split; [apply Hg|by eapply pt_grow_user| | | | | |
      intros i t Hi Ht; apply Hg; [done|]; rewrite Hpdt2 by done; by apply (he_old _ _ _ _ _ _ _ _ _ H)].
    + intros q Hq. apply (he_sub _ _ _ _ _ _ _ _ _ H). right. rewrite El, elem_of_app. by right.
    + intros va Hva Ho. rewrite Hpte' by done. by apply (he_out _ _ _ _ _ _ _ _ _ H).
    + intros va f Hl Hh. rewrite (frame_of_ext (km_mem s)).
      * by apply (he_in _ _ _ _ _ _ _ _ _ H).
      * apply Hpte'. unfold KERNBASE in *. Z.div_mod_to_equations; lia.
    + intros q Hq. destruct (he_acct _ _ _ _ _ _ _ _ _ H q Hq)
        as [Hql|[(i & Hi & Hiq)|[(va & H1 & H2 & Hf)|Hn]]].
      * apply elem_of_cons in Hql as [->|Hql]; [do 3 right; left|].
        rewrite El, elem_of_app in Hql. destruct Hql; auto.
      * right; left. exists i. split; [done|]. apply Hg; [done|]. by rewrite Hpdt2.
      * right; right; left. exists va. split_and!; try done. rewrite <- Hf.
        apply frame_of_ext, Hpte'. unfold KERNBASE in *. Z.div_mod_to_equations; lia.
      * by apply elem_of_nil in Hn.
    + intros q Hq Hq0 Hqt. destruct (he_frame _ _ _ _ _ _ _ _ _ H q Hq Hq0 Hqt) as [Hn Hs].
      assert (p ∈ l0) by (apply (he_sub _ _ _ _ _ _ _ _ _ H); left).
      assert (q ≠ p) by (by intros ->).
      destruct (pt_grow_keeps _ _ _ _ _ _ q Hg Hq (Hnt2 _ Hn)) as [Hn' Hs'].
      { intros Hql. apply Hq0, (he_sub _ _ _ _ _ _ _ _ _ H). by right. }
      split; [done|]. intros x Hx. by rewrite Hs, (Hsame2 q), Hs' by done.
  - intros Hin. apply Hpl. rewrite El, elem_of_app. by right.
  - intros va Hva. rewrite (frame_of_ext (km_mem s)) by (apply Hpte'; unfold KERNBASE in *; lia).
    intros Hf. destruct (uw_frame _ _ _ _ (gr_user _ _ _ _ _ _ _ _ G) va p Hva Hf) as (_ & Hn & _).
    apply Hn. left.
Qed.

(** deallocuvm from a state in which allocuvm failed. *)
Lemma held_dealloc kend d s0 l0 s l oldsz lo hi ex :
  KERNBASE < kend → held kend d s0 l0 s l lo hi ex →
  0 ≤ oldsz < hi → hi ≤ KERNBASE → lo = (oldsz + 4095) / 4096 * 4096 →
  (∀ va, lo ≤ va → va / 4096 * 4096 < hi → absent (pte_of (km_mem s0) d va)) →
  ∃ s' l', deallocuvm kend d hi oldsz s = Ret (oldsz, s')
    ∧ held kend d s0 l0 s' l' lo hi ex
    ∧ (∀ va, lo ≤ va → va / 4096 * 4096 < hi → absent (pte_of (km_mem s') d va))
    ∧ (∀ p, (p ∉ l) → (∀ va, 0 ≤ va < KERNBASE → frame_of (km_mem s) d va ≠ Some p) → p ∉ l')
    ∧ ∀ p, not_table (km_mem s) d p → not_table (km_mem s') d p.
Proof.
  intros Hk H Ho Hhk Hlo Habs. unfold deallocuvm.
  destruct (Z.leb_spec hi oldsz) as [Hc|Hc]; [lia|].
  rewrite PGROUNDUP_alt, <- Hlo by (unfold KERNBASE in *; lia).
  destruct (deallocuvm_loop_ok kend d hi (Z.to_nat (hi / PGSIZE + 1)) s l lo)
    as (s' & l' & fr & Hrun & U); [done|apply H|apply H|rewrite Hlo|rewrite Hlo|done| |].
  1, 2, 3: unfold PGSIZE; Z.div_mod_to_equations; lia.
  erewrite bind_ret_eval by exact Hrun. exists s', l'. split; [done|].
  pose proof (un_free _ _ _ _ _ _ _ _ _ U) as ->.
  assert (0 ≤ lo) as Hlo0 by (rewrite Hlo; Z.div_mod_to_equations; lia).
  assert (∀ va, lo ≤ va → va / 4096 * 4096 < hi → 0 ≤ va < KERNBASE) as Hrange
    by (intros va ??; unfold KERNBASE in *; Z.div_mod_to_equations; lia).
  assert (∀ va, lo ≤ va → va / 4096 * 4096 < hi → absent (pte_of (km_mem s') d va)) as Hin
    by (intros va ??; apply (un_in _ _ _ _ _ _ _ _ _ U); auto).
  split; [|split_and!; [done| |]].
  - split; [apply U|apply U| | | | | |
      intros i t Hi Ht; rewrite (un_pdt _ _ _ _ _ _ _ _ _ U) by done; by apply (he_old _ _ _ _ _ _ _ _ _ H)].
    + intros q [Hq|Hq]%elem_of_app; [|by apply H].
      apply (un_frames _ _ _ _ _ _ _ _ _ U) in Hq as (va & _ & H1 & H2 & Hf).
      by apply (he_in _ _ _ _ _ _ _ _ _ H va).
    + intros va Hva Hout. rewrite (un_out _ _ _ _ _ _ _ _ _ U) by done. by apply H.
    + intros va f H1 H2 Hf. unfold frame_of in Hf. by rewrite (Hin va H1 H2) in Hf.
    + intros q Hq. destruct (he_acct _ _ _ _ _ _ _ _ _ H q Hq)
        as [Hql|[(i & Hi & Hiq)|[(va & H1 & H2 & Hf)|Hn]]].
      * left. rewrite elem_of_app. by right.
      * right; left. exists i. split; [done|]. by rewrite (un_pdt _ _ _ _ _ _ _ _ _ U).
      * left. rewrite elem_of_app. left. apply (un_frames _ _ _ _ _ _ _ _ _ U).
        exists va. split_and!; auto; by apply Hrange.
      * auto.
    + intros q Hq Hq0 Hqt. destruct (he_frame _ _ _ _ _ _ _ _ _ H q Hq Hq0 Hqt) as [Hn Hs].
      split; [by apply (not_table_ext (km_mem s)); [apply U|]|].
      intros x Hx. rewrite Hs by done. apply (un_frame _ _ _ _ _ _ _ _ _ U q); try done.
      intros Hfr. apply (un_frames _ _ _ _ _ _ _ _ _ U) in Hfr as (va & _ & H1 & H2 & Hf).
      by apply Hq0, (he_in _ _ _ _ _ _ _ _ _ H va).
  - intros p Hpl Hpf [Hp|Hp]%elem_of_app; [|done].
    apply (un_frames _ _ _ _ _ _ _ _ _ U) in Hp as (va & Hva & _ & _ & Hf).
    by apply (Hpf va).
  - intros p Hp. by apply (not_table_ext (km_mem s)); [apply U|].
Qed.

(** A page that backs no user address can be freed. *)
Lemma kfree_user kend d s l p s' :
  user_wf kend s d l → (∀ va, 0 ≤ va < KERNBASE → frame_of (km_mem s) d va ≠ Some p) →
  (∀ i, 0 ≤ i < 1024 → pdt (km_mem s') d i = pdt (km_mem s) d i) →
  (∀ va, pte_of (km_mem s') d va = pte_of (km_mem s) d va) →
  user_wf kend s' d (p :: l).
Proof.
  intros Hu Hpf Hpdt Hpte. split.
  - intros va f Hva. rewrite (frame_of_ext (km_mem s)) by done. intros Hf.
    destruct (uw_frame _ _ _ _ Hu va f Hva Hf) as (?&?&?).
    split_and!; [done| |by apply (not_table_ext (km_mem s))].
    rewrite not_elem_of_cons. split; [|done]. intros ->. by apply (Hpf va).
  - intros va va' f Hva Hva'.
    rewrite (frame_of_ext (km_mem s) (km_mem s') d va),
      (frame_of_ext (km_mem s) (km_mem s') d va') by done.
    by apply (uw_inj _ _ _ _ Hu).
Qed.

(** Giving the held page back. *)
Lemma held_kfree kend d s0 l0 s l lo hi p :
  KERNBASE ≤ kend → held kend d s0 l0 s l lo hi [p] → page_ok kend p → p ∈ l0 →
  0 ≤ lo → hi ≤ KERNBASE → (p ∉ l) → not_table (km_mem s) d p →
  (∀ va, lo ≤ va → va / 4096 * 4096 < hi → absent (pte_of (km_mem s) d va)) →
  (∀ va, 0 ≤ va < KERNBASE → frame_of (km_mem s) d va ≠ Some p) →
  ∃ s', kfree kend p s = Ret (tt, s') ∧ held kend d s0 l0 s' (p :: l) lo hi []
    ∧ (∀ va, lo ≤ va → va / 4096 * 4096 < hi → absent (pte_of (km_mem s') d va)).
Proof.
  intros Hk H Hp Hp0 Hlo Hhk Hpl Hpt Habs Hpf.
  destruct (kfree_not_table kend s d l p) as (s' & Hrun & Hwf & Hpdt & Hpte & Hsame);
    [done|apply H|done|done|done|].
  exists s'. split; [done|]. split; [|intros va ??; rewrite Hpte; auto].
  split; [done| | | | | | |intros i t Hi Ht; rewrite Hpdt by done; by apply (he_old _ _ _ _ _ _ _ _ _ H)].
  - eapply kfree_user; eauto. apply H.
  - intros q [->|Hq]%elem_of_cons; [done|by apply H].
  - intros va Hva Ho. rewrite Hpte. by apply H.
  - intros va f H1 H2. rewrite (frame_of_ext (km_mem s)) by done. by apply H.
  - intros q Hq. destruct (he_acct _ _ _ _ _ _ _ _ _ H q Hq)
      as [Hql|[(i & Hi & Hiq)|[(va & H1 & H2 & Hf)|Hn]]].
    + left. by right.
    + right; left. exists i. split; [done|]. by rewrite Hpdt.
    + exfalso. unfold frame_of in Hf. by rewrite (Habs va H1 H2) in Hf.
    + apply list_elem_of_singleton in Hn as ->. left. left.
  - intros q Hq Hq0 Hqt. destruct (he_frame _ _ _ _ _ _ _ _ _ H q Hq Hq0 Hqt) as [Hn Hs].
    split; [by apply (not_table_ext (km_mem s))|]. intros x Hx. rewrite Hs by done.
    apply (Hsame q); [done|by intros ->|done].
Qed.

(** * Counting pages *)

(** The tables at directory indices [i, i + n). *)
Fixpoint dir_tables (m : mem) (d i : Z) (n : nat) : list Z :=
  match n with
  | O => []
  | S n' => dir_tables m d (i + 1) n' ++ match pdt m d i with Some t => [t] | None => [] end
  end.

Lemma elem_of_dir_tables m d n : ∀ i t,
  t ∈ dir_tables m d i n ↔ ∃ j, i ≤ j < i + Z.of_nat n ∧ pdt m d j = Some t.
Proof.
  induction n as [|n IH]; intros i t; cbn [dir_tables].
  { split; [intros H; by apply elem_of_nil in H|intros (j & ? & _); lia]. }
  rewrite elem_of_app, IH. split.
  - intros [(j & ? & ?)|H]; [exists j; split; [lia|done]|].
    destruct (pdt m d i) as [t'|] eqn:E; [|by apply elem_of_nil in H].
    apply list_elem_of_singleton in H as ->. exists i. split; [lia|done].
  - intros (j & Hj & E). destruct (decide (j = i)) as [->|].
    + right. rewrite E. apply list_elem_of_singleton. done.
    + left. exists j. split; [lia|done].
Qed.

Lemma dir_tables_length m d n : ∀ i, (length (dir_tables m d i n) ≤ n)%nat.
Proof.
  induction n as [|n IH]; intros i; cbn [dir_tables length]; [lia|]. rewrite length_app. specialize (IH (i + 1)).
  destruct (pdt m d i); simpl; lia.
Qed.

(** The frames of the [n] pages from [a]. *)
Fixpoint range_frames (m : mem) (d a : Z) (n : nat) : list Z :=
  match n with
  | O => []
  | S n' => match frame_of m d a with Some f => [f] | None => [] end ++ range_frames m d (a + 4096) n'
  end.

Lemma range_frames_length m d n : ∀ a, (length (range_frames m d a n) ≤ n)%nat.
Proof.
  induction n as [|n IH]; intros a; cbn [range_frames length]; [lia|]. rewrite length_app. specialize (IH (a + 4096)).
  destruct (frame_of m d a); simpl; lia.
Qed.

Lemma elem_of_range_frames m d f va n : ∀ a,
  a mod 4096 = 0 → 0 ≤ a → a + 4096 * Z.of_nat n ≤ 4294967296 → a ≤ va < a + 4096 * Z.of_nat n →
  frame_of m d va = Some f → f ∈ range_frames m d a n.
Proof.
  induction n as [|n IH]; intros a Ha Ha0 Hn Hva Hf; [lia|]. cbn [range_frames]. apply elem_of_app.
  destruct (decide (va < a + 4096)).
  - left. assert (frame_of m d a = Some f) as ->; [|by apply list_elem_of_singleton].
    rewrite <- Hf. unfold frame_of. rewrite (pte_of_same_page m d a va) by (Z.div_mod_to_equations; lia). done.
  - right. apply IH; [Z.div_mod_to_equations; lia|lia..|done].
Qed.

(** Distinct pages that are all tables of [d], frames of the range [lo, a),
    or among [ex]. *)
Lemma pages_bound m d lo a ex l :
  NoDup l → lo mod 4096 = 0 → a mod 4096 = 0 → 0 ≤ lo ≤ a → a ≤ 4294967296 →
  (∀ q, q ∈ l → (∃ i, 0 ≤ i < 1024 ∧ pdt m d i = Some q)
     ∨ (∃ va, lo ≤ va < a ∧ frame_of m d va = Some q) ∨ q ∈ ex) →
  Z.of_nat (length l) ≤ 1024 + (a - lo) / 4096 + Z.of_nat (length ex).
Proof.
  intros Hnd Hlo Ha Hla Hmax H. set (n := Z.to_nat ((a - lo) / 4096)).
  assert (Hsub : l ⊆ dir_tables m d 0 1024 ++ range_frames m d lo n ++ ex).
  { intros q Hq. rewrite !elem_of_app. destruct (H q Hq) as [Ht|[(va & Hva & Hf)|]]; [left|right; left|auto].
    - by apply elem_of_dir_tables.
    - eapply (elem_of_range_frames _ _ _ va); [done|lia|..|done]; unfold n; Z.div_mod_to_equations; lia. }
  pose proof (submseteq_length _ _ (NoDup_submseteq _ _ Hnd Hsub)) as Hl. rewrite !length_app in Hl.
  pose proof (dir_tables_length m d 1024 0). pose proof (range_frames_length m d n lo).
  assert (Z.of_nat n = (a - lo) / 4096) by (unfold n; Z.div_mod_to_equations; lia). lia.
Qed.

Definition absent_from (m : mem) (d lo hi : Z) : Prop :=
  ∀ va, lo ≤ va → va / 4096 * 4096 < hi → absent (pte_of m d va).

(** allocuvm's two ways to leave its loop; the second only when there are not
    enough pages for the range and its tables. *)
Definition alloc_result (kend d : Z) (s0 : kmem) (l0 : list Z) (lo oldsz newsz r : Z)
    (s : kmem) (l : list Z) : Prop :=
  (r = newsz ∧ grown kend d s0 l0 s l lo ((newsz + 4095) / 4096 * 4096))
  ∨ (r = 0 ∧ held kend d s0 l0 s l lo newsz [] ∧ absent_from (km_mem s) d lo newsz
     ∧ Z.of_nat (length l0) ≤ 1024 + ((newsz + 4095) / 4096 * 4096 - lo) / 4096).

Section allocuvm.
Context (kend d : Z) (s0 : kmem) (l0 : list Z) (oldsz newsz : Z).
Context (Hkend : KERNBASE < kend) (Hsz : 0 ≤ oldsz ≤ newsz) (Hmax : newsz < KERNBASE).
Let lo : Z := (oldsz + 4095) / 4096 * 4096.
Context (Habs : absent_from (km_mem s0) d lo newsz) (Hnd : NoDup l0).

Lemma lo_bounds : 0 ≤ lo ∧ oldsz ≤ lo ∧ lo mod 4096 = 0 ∧ lo ≤ (newsz + 4095) / 4096 * 4096.
Proof. unfold lo. Z.div_mod_to_equations. lia. Qed.

(** No page left: the new pages are given back. *)
Lemma alloc_nomem s a :
  grown kend d s0 l0 s [] lo a → a mod 4096 = 0 → lo ≤ a → a < newsz →
  ∃ s' l', deallocuvm kend d newsz oldsz s = Ret (oldsz, s')
    ∧ alloc_result kend d s0 l0 lo oldsz newsz 0 s' l'.
Proof.
  intros G Ha Hla Hlt. pose proof lo_bounds as (Hb1 & Hb2 & _).
  destruct (held_dealloc kend d s0 l0 s [] oldsz lo newsz []) as (s' & l' & Hrun & H & Hab & _);
    [done| |lia|lia|done|done|].
  { apply (grown_held _ _ _ _ _ _ _ a); done || lia. }
  exists s', l'. split; [done|]. right. split_and!; [done..|].
  assert (Z.of_nat (length l0) ≤ 1024 + (a - lo) / 4096 + Z.of_nat (length (@nil Z))) as Hc.
  { apply (pages_bound (km_mem s) d); [done|apply lo_bounds|done|lia|unfold KERNBASE in *; lia|].
    intros q Hq. destruct (gr_acct _ _ _ _ _ _ _ _ G q Hq) as [Hn|[?|?]]; [by apply elem_of_nil in Hn|auto..]. }
  simpl in Hc. assert ((a - lo) / 4096 ≤ ((newsz + 4095) / 4096 * 4096 - lo) / 4096)
    by (apply Z.div_le_mono; [lia|Z.div_mod_to_equations; lia]). lia.
Qed.

(** A page was taken but the page table could not be extended. *)
Lemma alloc_notable s p l s' l' a :
  grown kend d s0 l0 s (p :: l) lo a → a mod 4096 = 0 → lo ≤ a → a < newsz →
  let s1 := set_freelist (ld32 (km_mem s) p) s in
  let s2 := set_mem (memset p 0 PGSIZE (km_mem s1)) s1 in
  pt_grow kend d s2 l s' l' → l' = [] →
  (∀ va, 0 ≤ va < 4294967296 → pte_of (km_mem s') d va = pte_of (km_mem s2) d va) →
  ∃ s3 s4 l4, deallocuvm kend d newsz oldsz s' = Ret (oldsz, s3)
    ∧ kfree kend p s3 = Ret (tt, s4)
    ∧ alloc_result kend d s0 l0 lo oldsz newsz 0 s4 l4.
Proof.
  intros G Ha Hla Hlt s1 s2 Hg Hl' Hpte. pose proof lo_bounds as (Hb1 & Hb2 & _).
  destruct (grown_held_page kend d s0 l0 s l s' l' lo a newsz p)
    as (H & Hpt & Hpl & Hp & Hpf); [done|done|lia|lia|lia|done|done|done|].
  destruct (held_dealloc kend d s0 l0 s' l' oldsz lo newsz [p])
    as (s3 & l3 & Hrun & H3 & Hab3 & Hkeep & Hnt); [done|done|lia|lia|done|done|].
  destruct (held_kfree kend d s0 l0 s3 l3 lo newsz p) as (s4 & Hrun4 & H4 & Hab4);
    [lia|done|done|apply (gr_sub _ _ _ _ _ _ _ _ G); left|lia|lia|by apply Hkeep|by apply Hnt
    |done| |].
  { intros va Hva Hf. destruct (decide (lo ≤ va ∧ va / 4096 * 4096 < newsz)) as [[??]|Hout].
    - unfold frame_of in Hf. by rewrite Hab3 in Hf.
    - apply (Hpf va Hva). rewrite <- Hf. apply frame_of_ext.
      assert (0 ≤ va < 4294967296) by (unfold KERNBASE in *; lia).
      rewrite (he_out _ _ _ _ _ _ _ _ _ H3), (he_out _ _ _ _ _ _ _ _ _ H) by lia. done. }
  exists s3, s4, (p :: l3). split_and!; [done|done|]. right. split_and!; [done..|].
  assert (Z.of_nat (length l0) ≤ 1024 + (a - lo) / 4096 + Z.of_nat (length [p])) as Hc.
  { apply (pages_bound (km_mem s') d); [done|apply lo_bounds|done|lia|unfold KERNBASE in *; lia|].
    intros q Hq. destruct (he_acct _ _ _ _ _ _ _ _ _ H q Hq) as [Hn|[?|[(va & H1 & H2 & Hf)|?]]].
    - rewrite Hl' in Hn. by apply elem_of_nil in Hn.
    - by left.
    - right; left. exists va. split; [|done]. split; [done|]. destruct (Z.lt_ge_cases va a) as [|Hge]; [done|exfalso].
      assert (0 ≤ va < 4294967296) by (unfold KERNBASE in *; Z.div_mod_to_equations; lia).
      assert (pte_of (km_mem s2) d va = pte_of (km_mem s) d va) as E2.
      { destruct (kalloc_user kend d s p l) as (_ & Hwf1 & Hu1 & Hp1 & Hpl1 & Hpt1); [apply G..|].
        apply (touch_page kend d s1 l p (km_mem s2)); try done.
        - apply memset_ok; [unfold PGSIZE; lia|apply G].
        - intros. by eapply memset_page. }
      unfold frame_of in Hf. rewrite Hpte, E2, (gr_out _ _ _ _ _ _ _ _ G) in Hf by lia.
      by rewrite (Habs va H1 H2) in Hf.
    - right; right. done. }
  simpl in Hc. assert ((a - lo) / 4096 + 1 ≤ ((newsz + 4095) / 4096 * 4096 - lo) / 4096)
    by (pose proof lo_bounds as (_ & _ & ? & _); Z.div_mod_to_equations; lia). lia.
Qed.

Lemma allocuvm_loop_ok : ∀ fuel s l a,
  grown kend d s0 l0 s l lo a → a mod 4096 = 0 → lo ≤ a →
  a ≤ (newsz + 4095) / 4096 * 4096 → newsz ≤ a + 4096 * Z.of_nat fuel →
  ∃ r s' l', allocuvm_loop kend fuel d a oldsz newsz s = Ret (r, s')
    ∧ alloc_result kend d s0 l0 lo oldsz newsz r s' l'.
Proof.
  pose proof lo_bounds as (Hlo0 & Hol & Hlom & _).
  induction fuel as [|fuel IH]; intros s l a G Ha Hla Hau Hfuel;
    cbn [allocuvm_loop]; destruct (Z.ltb_spec a newsz) as [Hlt|Hge]; try (exfalso; lia).
  1, 3: exists newsz, s, l; split; [done|]; left; split; [done|];
    replace ((newsz + 4095) / 4096 * 4096) with a by (Z.div_mod_to_equations; lia); done.
  assert (a + 4096 ≤ KERNBASE) as Hak by (unfold KERNBASE in *; Z.div_mod_to_equations; lia).
  destruct l as [|p l].
  { erewrite bind_ret_eval by (eapply kalloc_rep_nil, wf_rep, G). cbn [Z.eqb].
    destruct (alloc_nomem s a) as (s' & l' & Hrun & Hr); [done..|].
    erewrite bind_ret_eval by exact Hrun. by exists 0, s', l'. }
  destruct (kalloc_user kend d s p l) as (Hka & Hwf1 & Hu1 & Hp & Hpl & Hpt); [apply G..|].
  pose proof (page_ok_bounds _ _ Hp). destruct (new_pde_alt p kend Hp) as (_ & Hpm & Hpr).
  erewrite bind_ret_eval by exact Hka. destruct (Z.eqb_spec p 0); [lia|].
  set (s1 := set_freelist _ s). set (s2 := set_mem (memset p 0 PGSIZE (km_mem s1)) s1).
  rewrite (bind_ret_eval _ _ _ tt s2) by done.
  destruct (touch_page kend d s1 l p (km_mem s2)) as (Hwf2 & Hu2 & Hpdt2 & Hpte2); try done.
  { apply memset_ok; [unfold PGSIZE; lia|apply G]. }
  { intros. by eapply memset_page. }
  destruct (mappages_ok kend d s2 l a PGSIZE (V2P p) (Z.lor PTE_W PTE_U) 1)
    as (r & s' & l' & k & Hrun & Hg & Hm & Hr); try done; try lia.
  { unfold KERNBASE in *; lia. }
  { intros va Hva. rewrite Hpte2. change (km_mem s1) with (km_mem s).
    rewrite (gr_out _ _ _ _ _ _ _ _ G) by (unfold KERNBASE in *; lia).
    apply Habs; Z.div_mod_to_equations; lia. }
  erewrite bind_ret_eval by exact Hrun.
  destruct Hr as [(-> & ->)|(-> & Hk & ->)]; cbn [Z.ltb Z.compare].
  - unfold PGSIZE. rewrite u32_small by (unfold KERNBASE in *; lia).
    eapply IH; [|Z.div_mod_to_equations; lia..]. eapply grown_step; eauto.
  - destruct (alloc_notable s p l s' [] a) as (s3 & s4 & l4 & Hd & Hf & Hr); try done.
    { intros va Hva. rewrite Hm by done. assert (k = 0) as -> by lia. zcases; done || lia. }
    erewrite bind_ret_eval by exact Hd. erewrite bind_ret_eval by exact Hf. by exists 0, s4, l4.
Qed.
End allocuvm.

Lemma allocuvm_run kend d oldsz newsz s l :
  KERNBASE < kend → vm_wf kend s d l → user_wf kend s d l →
  0 ≤ oldsz ≤ newsz → newsz < KERNBASE →
  absent_from (km_mem s) d ((oldsz + 4095) / 4096 * 4096) newsz →
  ∃ r s' l', allocuvm kend d oldsz newsz s = Ret (r, s')
    ∧ alloc_result kend d s l ((oldsz + 4095) / 4096 * 4096) oldsz newsz r s' l'.
Proof.
  intros Hk Hwf Hu Hsz Hmax Habs. unfold allocuvm.
  destruct (Z.leb_spec KERNBASE newsz), (Z.ltb_spec newsz oldsz); [lia..|].
  rewrite PGROUNDUP_alt by (unfold KERNBASE in *; lia).
  apply (allocuvm_loop_ok _ _ _ _ _ _ Hk Hsz Hmax Habs (kmem_rep_nodup _ _ _ (wf_rep _ _ _ _ Hwf)) _ _ l);
    unfold PGSIZE; try (Z.div_mod_to_equations; lia).
  by apply grown_refl.
Qed.

(** * freevm *)

Lemma dir_tables_ext m m' d n : ∀ i,
  0 ≤ i → i + Z.of_nat n ≤ 1024 → same_page m m' d → dir_tables m' d i n = dir_tables m d i n.
Proof.
  induction n as [|n IH]; intros i Hi Hn Hs; [done|]. cbn [dir_tables].
  rewrite (IH (i + 1)), (pdt_ext m m' d i) by (done || lia). done.
Qed.

(** The loop of freevm gives back the tables it comes across. *)
Lemma freevm_loop_ok kend d n : ∀ i s l,
  KERNBASE ≤ kend → kmem_rep kend s l → page_ok kend d → (d ∉ l) → 0 ≤ i → i + Z.of_nat n ≤ 1024 →
  (∀ j t, i ≤ j < i + Z.of_nat n → pdt (km_mem s) d j = Some t → page_ok kend t ∧ t ≠ d ∧ t ∉ l) →
  (∀ j k t, i ≤ j < i + Z.of_nat n → i ≤ k < i + Z.of_nat n →
     pdt (km_mem s) d j = Some t → pdt (km_mem s) d k = Some t → j = k) →
  ∃ s', freevm_loop kend d i n s = Ret (tt, s')
    ∧ kmem_rep kend s' (dir_tables (km_mem s) d i n ++ l)
    ∧ (d ∉ dir_tables (km_mem s) d i n ++ l)
    ∧ ∀ q, page_ok kend q → (q ∉ dir_tables (km_mem s) d i n) → same_page (km_mem s) (km_mem s') q.
Proof.
  induction n as [|n IH]; intros i s l Hk Hrep Hd Hdl Hi Hn Htab Hinj.
  { exists s. split_and!; done. }
  cbn [freevm_loop dir_tables]. unfold load32 at 1, gets. unfold bind at 1.
  destruct (Z.eqb_spec (Z.land (ld32 (km_mem s) (d + 4 * i)) PTE_P) 0) as [E|E]; cbn [negb].
  - assert (pdt (km_mem s) d i = None) as -> by (unfold pdt; by rewrite E).
    rewrite (bind_ret_eval _ _ _ tt s), app_nil_r by done.
    apply IH; try done; try lia.
    + intros j t Hj. apply Htab. lia.
    + intros j k t Hj Hk'. apply Hinj; lia.
  - set (t := P2V (PTE_ADDR (ld32 (km_mem s) (d + 4 * i)))).
    assert (pdt (km_mem s) d i = Some t) as Et.
    { unfold pdt. by destruct (Z.eqb_spec (Z.land (ld32 (km_mem s) (d + 4 * i)) PTE_P) 0). }
    rewrite Et. destruct (Htab i t) as (Ht & Htd & Htl); [lia|done|].
    erewrite bind_ret_eval by by apply kfree_run.
    set (s1 := MkKmem (use_lock s) t (kfree_mem t s)).
    assert (∀ q, page_ok kend q → q ≠ t → same_page (km_mem s) (km_mem s1) q) as Hsame.
    { intros q Hq Hne x Hx. symmetry. apply kfree_mem_other. by apply (pages_disjoint kend q t). }
    assert (same_page (km_mem s) (km_mem s1) d) as Hsd by (by apply Hsame).
    assert (∀ j, 0 ≤ j < 1024 → pdt (km_mem s1) d j = pdt (km_mem s) d j) as Hp
      by (intros; symmetry; by apply pdt_ext).
    destruct (IH (i + 1) s1 (t :: l)) as (s' & Hrun & Hrep' & Hdn & Hfr); try done; try lia.
    + by apply kfree_rep.
    + rewrite not_elem_of_cons. done.
    + intros j t' Hj. rewrite Hp by lia. intros Hj'.
      destruct (Htab j t') as (? & ? & ?); [lia|done|]. split_and!; [done|done|].
      rewrite not_elem_of_cons. split; [|done]. intros ->.
      assert (j = i) by (apply (Hinj j i t); done || lia). lia.
    + intros j k t' Hj Hk'. rewrite !Hp by lia. apply Hinj; lia.
    + rewrite (dir_tables_ext (km_mem s)) in * by (done || lia).
      exists s'. rewrite <- app_assoc. split_and!; [done|done|done|].
      intros q Hq Hqn. rewrite not_elem_of_app, list_elem_of_singleton in Hqn.
      destruct Hqn as [Hq1 Hq2]. intros x Hx. rewrite (Hsame q) by done. by apply (Hfr q).
Qed.

Lemma freevm_run kend d s l :
  KERNBASE < kend → vm_wf kend s d l → user_wf kend s d l →
  ∃ s' l', freevm kend d s = Ret (tt, s') ∧ kmem_rep kend s' l'
    ∧ (∀ q, q ∈ l' ↔ q ∈ l ∨ q = d
         ∨ (∃ i, 0 ≤ i < 1024 ∧ pdt (km_mem s) d i = Some q)
         ∨ (∃ va, 0 ≤ va < KERNBASE ∧ frame_of (km_mem s) d va = Some q))
    ∧ ∀ q, page_ok kend q → (q ∉ l') → same_page (km_mem s) (km_mem s') q.
Proof.
  intros Hk Hwf Hu. unfold freevm. pose proof (wf_dir _ _ _ _ Hwf) as Hd.
  pose proof (page_ok_bounds _ _ Hd). destruct (Z.eqb_spec d 0); [lia|].
  unfold deallocuvm at 1. change (KERNBASE <=? 0) with false. cbv iota.
  rewrite PGROUNDUP_alt by lia. change ((0 + 4095) / 4096 * 4096) with 0.
  destruct (deallocuvm_loop_ok kend d KERNBASE (Z.to_nat (KERNBASE / PGSIZE + 1)) s l 0)
    as (s1 & l1 & fr & Hrun & U); [done|done|done|done|done|done| |].
  { rewrite Z2Nat.id; by vm_compute. }
  erewrite bind_ret_eval by (erewrite bind_ret_eval by exact Hrun; reflexivity).
  pose proof (un_wf _ _ _ _ _ _ _ _ _ U) as [Hrep1 _ Hd1 Htab1 Hinj1].
  destruct (freevm_loop_ok kend d (Z.to_nat NPDENTRIES) 0 s1 l1) as (s2 & Hrun2 & Hrep2 & Hd2 & Hfr2);
    [lia|done|done|done|lia|done|exact Htab1|exact Hinj1|].
  erewrite bind_ret_eval by exact Hrun2.
  set (ts := dir_tables _ _ _ _) in *. eexists _, (d :: ts ++ l1).
  split; [apply kfree_run; [lia|done]|]. split; [apply kfree_rep; done || lia|]. split.
  - intros q. rewrite elem_of_cons, elem_of_app. unfold ts. rewrite elem_of_dir_tables.
    pose proof (un_free _ _ _ _ _ _ _ _ _ U) as ->. rewrite elem_of_app, (un_frames _ _ _ _ _ _ _ _ _ U).
    change (0 + Z.of_nat (Z.to_nat NPDENTRIES)) with 1024.
    assert (∀ t, (∃ j, 0 ≤ j < 1024 ∧ pdt (km_mem s1) d j = Some t)
                 ↔ ∃ j, 0 ≤ j < 1024 ∧ pdt (km_mem s) d j = Some t) as ->.
    { intros t. split; intros (j & Hj & E); exists j; (split; [done|]);
        [rewrite <- (un_pdt _ _ _ _ _ _ _ _ _ U)|rewrite (un_pdt _ _ _ _ _ _ _ _ _ U)]; done. }
    assert ((∃ va, 0 ≤ va < KERNBASE ∧ 0 ≤ va ∧ va / 4096 * 4096 < KERNBASE
              ∧ frame_of (km_mem s) d va = Some q)
            ↔ ∃ va, 0 ≤ va < KERNBASE ∧ frame_of (km_mem s) d va = Some q) as ->.
    { split; intros (va & Hva & H'); exists va; [tauto|].
      split_and!; try done; try lia. unfold KERNBASE in *. Z.div_mod_to_equations; lia. }
    tauto.
  - intros q Hq Hqn. rewrite not_elem_of_cons, not_elem_of_app in Hqn.
    destruct Hqn as (Hqd & Hqt & Hql). pose proof (un_free _ _ _ _ _ _ _ _ _ U) as El.
    intros x Hx. rewrite (un_frame _ _ _ _ _ _ _ _ _ U q Hq) with (x := x); [| | |done].
    + rewrite (Hfr2 q Hq Hqt x Hx). symmetry. apply kfree_mem_other.
      by apply (pages_disjoint kend q d).
    + split; [done|]. intros i Hi Hiq. apply Hqt. unfold ts. apply elem_of_dir_tables.
      exists i. split; [exact Hi|]. by rewrite (un_pdt _ _ _ _ _ _ _ _ _ U).
    + intros Hf. apply Hql. rewrite El, elem_of_app. by left.
Qed.

(** * copyout *)

(** [va] is mapped and the process may use it. *)
Definition user_ok (m : mem) (d va : Z) : bool :=
  negb (Z.land (pte_of m d va) PTE_P =? 0) && negb (Z.land (pte_of m d va) PTE_U =? 0).

Lemma uva2ka_run kend d va s l :
  vm_wf kend s d l →
  uva2ka d va s =
    match pdt (km_mem s) d (PDX va) with
    | None => Undef
    | Some _ => Ret (if user_ok (km_mem s) d va then default 0 (frame_of (km_mem s) d va) else 0, s)
    end.
Proof.
  intros Hwf. unfold uva2ka, user_ok, frame_of, pte_of.
  destruct (pdt (km_mem s) d (PDX va)) as [t|] eqn:Et.
  - destruct (wf_tab _ _ _ _ Hwf _ _ (PDX_range va) Et) as (Htok & _).
    pose proof (page_ok_bounds _ _ Htok). pose proof (PTX_range va).
    erewrite bind_ret_eval by by apply walkpgdir_present.
    destruct (Z.eqb_spec (t + 4 * PTX va) 0); [lia|].
    unfold load32, gets, bind. destruct (_ =? 0); [done|].
    by destruct (Z.land _ PTE_U =? 0).
  - by erewrite bind_ret_eval by by apply walkpgdir_noalloc.
Qed.

Lemma uva2ka_user kend d va s l :
  vm_wf kend s d l → user_wf kend s d l → 0 ≤ va < KERNBASE →
  user_ok (km_mem s) d va = true →
  ∃ f, frame_of (km_mem s) d va = Some f ∧ uva2ka d va s = Ret (f, s) ∧ page_ok kend f
       ∧ (f ∉ l) ∧ not_table (km_mem s) d f.
Proof.
  intros Hwf Hu Hva Hok. erewrite uva2ka_run by done. rewrite Hok.
  assert (∃ f, frame_of (km_mem s) d va = Some f) as (f & Hf).
  { unfold user_ok in Hok. unfold frame_of. destruct (Z.land _ PTE_P =? 0); [done|eauto]. }
  exists f. split; [done|]. rewrite Hf. split; [|by apply (uw_frame _ _ _ _ Hu va)].
  destruct (pdt _ _ _) eqn:Et; [done|].
  unfold frame_of, pte_of in Hf. by rewrite Et in Hf.
Qed.

(** Where the byte at user address [va] lives. *)
Definition uaddr (m : mem) (d va : Z) : option Z :=
  (λ f, f + va mod 4096) <$> frame_of m d va.

(** What copying [len] bytes from the kernel buffer [buf] to [va] does. *)
Record copied_out (kend d : Z) (s : kmem) (l : list Z) (s' : kmem) (va buf len : Z) : Prop := {
  co_wf : vm_wf kend s' d l;
  co_user : user_wf kend s' d l;
  co_pte : ∀ va', pte_of (km_mem s') d va' = pte_of (km_mem s) d va';
  co_in : ∀ i x, 0 ≤ i < len → uaddr (km_mem s) d (va + i) = Some x →
    km_mem s' x = km_mem s (buf + i);
  co_out : ∀ x, (∀ i, 0 ≤ i < len → uaddr (km_mem s) d (va + i) ≠ Some x) →
    km_mem s' x = km_mem s x
}.

(** The kernel buffer lies outside the process's memory. *)
Definition buf_apart (m : mem) (d buf len : Z) : Prop :=
  ∀ va x, 0 ≤ va < KERNBASE → uaddr m d va = Some x → ¬ (buf ≤ x < buf + len).

Lemma frame_of_same_page m d va va' :
  0 ≤ va < 4294967296 → 0 ≤ va' < 4294967296 → va / 4096 = va' / 4096 →
  frame_of m d va = frame_of m d va'.
Proof. intros ???. unfold frame_of. by rewrite (pte_of_same_page m d va va'). Qed.

(** Addresses of one page, and addresses of different pages. *)
Lemma uaddr_in_page kend d s l va va' f x :
  user_wf kend s d l → 0 ≤ va < KERNBASE → 0 ≤ va' < KERNBASE →
  frame_of (km_mem s) d va = Some f → uaddr (km_mem s) d va' = Some x →
  (va / 4096 = va' / 4096 ∧ x = f + va' mod 4096) ∨ (va / 4096 ≠ va' / 4096 ∧ ¬ in_page f x).
Proof.
  intros Hu Hva Hva' Hf Hx. unfold uaddr in Hx.
  destruct (frame_of (km_mem s) d va') as [f'|] eqn:Ef; [|done]. injection Hx as <-.
  destruct (decide (va / 4096 = va' / 4096)) as [He|Hne]; [left|right]; split; try done.
  - rewrite (frame_of_same_page _ _ va va') in Hf by (unfold KERNBASE in *; lia || done).
    congruence.
  - destruct (uw_frame _ _ _ _ Hu va f Hva Hf) as (Hok & _).
    destruct (uw_frame _ _ _ _ Hu va' f' Hva' Ef) as (Hok' & _).
    apply (pages_disjoint kend f' f); [done|done| |unfold in_page; Z.div_mod_to_equations; lia].
    intros ->. by apply Hne, (uw_inj _ _ _ _ Hu va va' f).
Qed.

(** One memmove into the page of [va]. *)
Lemma copy_page kend d s l va buf n f :
  vm_wf kend s d l → user_wf kend s d l → 0 ≤ va → va + n ≤ KERNBASE →
  0 < n → n ≤ 4096 - va mod 4096 → frame_of (km_mem s) d va = Some f →
  page_ok kend f → (f ∉ l) → not_table (km_mem s) d f →
  copied_out kend d s l (set_mem (memmove (f + va mod 4096) buf n (km_mem s)) s) va buf n.
Proof.
  intros Hwf Hu Hva Hvn Hn0 Hn Hf Hok Hfl Hft.
  assert (mem_ok (km_mem s)) as Hm by apply Hwf.
  pose proof (Z.mod_pos_bound va 4096 ltac:(lia)).
  destruct (touch_page kend d s l f (memmove (f + va mod 4096) buf n (km_mem s)))
    as (Hwf' & Hu' & _ & Hpte); try done.
  { apply memmove_ok; [done|lia]. }
  { intros q Hq Hne x Hx. assert (¬ in_page f x) as Hnx by by apply (pages_disjoint kend q f).
    unfold in_page in Hnx. rewrite memmove_lookup by (done || lia). by zcases. }
  split; [done|done|done| |].
  - intros i x Hi Hx. cbn [km_mem set_mem].
    destruct (uaddr_in_page kend d s l va (va + i) f x) as [[_ ->]|[Hne _]]; try done; try lia.
    + replace ((va + i) mod 4096) with (va mod 4096 + i) by (Z.div_mod_to_equations; lia).
      rewrite memmove_lookup by (done || lia). zcases. f_equal. lia.
    + exfalso. apply Hne. Z.div_mod_to_equations; lia.
  - intros x Hx. cbn [km_mem set_mem]. rewrite memmove_lookup by (done || lia). zcases; try done.
    exfalso. apply (Hx (x - (f + va mod 4096))); [lia|]. unfold uaddr.
    rewrite (frame_of_same_page _ _ _ va), Hf
      by (unfold KERNBASE in *; Z.div_mod_to_equations; lia).
    simpl. f_equal. Z.div_mod_to_equations; lia.
Qed.

Lemma copied_out_trans kend d s l s1 s2 va buf n len :
  0 < n < len → 0 ≤ va → va + len ≤ KERNBASE → buf_apart (km_mem s) d buf len →
  user_wf kend s d l →
  copied_out kend d s l s1 va buf n →
  copied_out kend d s1 l s2 (va + n) (buf + n) (len - n) →
  copied_out kend d s l s2 va buf len.
Proof.
  intros Hn Hva Hlen Hap Hu A B.
  assert (∀ va', uaddr (km_mem s1) d va' = uaddr (km_mem s) d va') as Hua.
  { intros va'. unfold uaddr. f_equal. apply frame_of_ext, A. }
  split; [apply B|apply B| | |].
  - intros va'. by rewrite (co_pte _ _ _ _ _ _ _ _ B), (co_pte _ _ _ _ _ _ _ _ A).
  - intros i x Hi Hx. destruct (Z.lt_ge_cases i n).
    + rewrite (co_out _ _ _ _ _ _ _ _ B); [apply (co_in _ _ _ _ _ _ _ _ A); done || lia|].
      intros j Hj. rewrite Hua. intros Hx'.
      unfold uaddr in Hx. destruct (frame_of _ _ (va + i)) as [f|] eqn:Ef; [|done].
      injection Hx as <-.
      destruct (uaddr_in_page kend d s l (va + i) (va + n + j) f _ Hu
        ltac:(lia) ltac:(lia) Ef Hx') as [[He He']|[_ Hne]].
      * Z.div_mod_to_equations; lia.
      * apply Hne. unfold in_page. Z.div_mod_to_equations; lia.
    + rewrite (co_in _ _ _ _ _ _ _ _ B (i - n)); [|lia|rewrite Hua, <- Hx; f_equal; lia].
      rewrite (co_out _ _ _ _ _ _ _ _ A); [f_equal; lia|].
      intros j Hj Hj'. apply (Hap (va + j) _ ltac:(lia) Hj'). lia.
  - intros x Hx. rewrite (co_out _ _ _ _ _ _ _ _ B), (co_out _ _ _ _ _ _ _ _ A); [done| |].
    + intros i Hi. apply Hx. lia.
    + intros i Hi. rewrite Hua. replace (va + n + i) with (va + (n + i)) by lia. apply Hx. lia.
Qed.

Lemma copyout_loop_ok kend d : ∀ fuel s l va buf len,
  vm_wf kend s d l → user_wf kend s d l → 0 ≤ va → 0 ≤ len → va + len ≤ KERNBASE →
  va mod 4096 + len ≤ 4096 * Z.of_nat fuel →
  buf_apart (km_mem s) d buf len →
  (∀ i, 0 ≤ i < len → user_ok (km_mem s) d (va + i) = true) →
  ∃ s', copyout_loop fuel d va buf len s = Ret (0, s') ∧ copied_out kend d s l s' va buf len.
Proof.
  induction fuel as [|fuel IH]; intros s l va buf len Hwf Hu Hva Hlen Hend Hfuel Hap Hok;
    cbn [copyout_loop]; destruct (Z.ltb_spec 0 len) as [Hpos|Hz].
  1: exfalso; pose proof (Z.mod_pos_bound va 4096 ltac:(lia)); lia.
  1, 3: exists s; split; [done|]; split; (done || (intros; lia)).
  assert (0 ≤ va < 4294967296) as Hva' by (unfold KERNBASE in *; lia).
  rewrite PGROUNDDOWN_alt by lia. set (va0 := va / 4096 * 4096).
  destruct (uva2ka_user kend d va0 s l) as (f & Hf & Hrun & Hpg & Hfl & Hft);
    [done|done|unfold va0; Z.div_mod_to_equations; lia| |].
  { rewrite <- (Hok 0) by lia. unfold user_ok.
    rewrite (pte_of_same_page _ _ va0 (va + 0)) by (unfold va0; Z.div_mod_to_equations; lia). done. }
  pose proof (page_ok_bounds _ _ Hpg). erewrite bind_ret_eval by exact Hrun.
  destruct (Z.eqb_spec f 0) as [Hf0|Hf0]; [lia|]. unfold PGSIZE.
  replace (va - va0) with (va mod 4096) by (unfold va0; Z.div_mod_to_equations; lia).
  set (n := Z.min _ len).
  assert (0 < n ≤ len) as Hn by (unfold n; Z.div_mod_to_equations; lia).
  set (s1 := set_mem (memmove (f + va mod 4096) buf n (km_mem s)) s).
  rewrite (bind_ret_eval _ _ _ tt s1) by done.
  pose proof (copy_page kend d s l va buf n f Hwf Hu Hva ltac:(lia) ltac:(lia) ltac:(lia)) as Hc.
  rewrite (frame_of_same_page _ _ va va0) in Hc by (unfold va0; Z.div_mod_to_equations; lia).
  specialize (Hc Hf Hpg Hfl Hft). fold s1 in Hc.
  destruct (decide (n = len)) as [->|Hne].
  { rewrite Z.sub_diag. exists s1. split; [|done]. by destruct fuel. }
  replace (u32 (va0 + 4096)) with (va + n).
  2: { rewrite u32_small; unfold va0, n, KERNBASE in *; Z.div_mod_to_equations; lia. }
  destruct (IH s1 l (va + n) (buf + n) (len - n)) as (s' & Hrun' & Hc'); try lia.
  1, 2: apply Hc.
  - unfold n in *. Z.div_mod_to_equations; lia.
  - intros va1 x Hv1. unfold uaddr. rewrite (frame_of_ext (km_mem s)) by apply Hc.
    intros Hx. pose proof (Hap va1 x Hv1 Hx). lia.
  - intros i Hi. unfold user_ok. rewrite (co_pte _ _ _ _ _ _ _ _ Hc).
    replace (va + n + i) with (va + (n + i)) by lia. apply Hok. lia.
  - exists s'. split; [done|]. eapply copied_out_trans; eauto; lia.
Qed.

Lemma ex_user : user_wf ex_kend ex_kmem ex_dir ex_free.
Proof.
  split; intros *; intros; exfalso;
    repeat match goal with H : frame_of _ _ _ = Some _ |- _ =>
      unfold frame_of in H; by rewrite ex_pte in H end.
Qed.

Lemma ex_mapped_frame va :
  0 ≤ va < 4294967296 →
  frame_of (km_mem ex_mapped) ex_dir va = if va <? 4096 then Some (ex_kend + 8192) else None.
Proof. intros. unfold frame_of. rewrite ex_mapped_pte by done. by destruct (va <? 4096). Qed.

Lemma ex_mapped_user : user_wf ex_kend ex_mapped ex_dir [ex_kend + 12288].
Proof.
  split.
  - intros va f Hva. rewrite ex_mapped_frame by (unfold KERNBASE in *; lia).
    destruct (va <? 4096); intros [= <-]. split_and!; [by vm_compute| |split; [by vm_compute|]].
    + apply (bool_decide_unpack _). by vm_compute.
    + intros i Hi. rewrite ex_mapped_pdt by done. by destruct (i =? 0).
  - intros va va' f Hva Hva'. rewrite !ex_mapped_frame by (unfold KERNBASE in *; lia).
    zcases; try done. intros _ _. Z.div_mod_to_equations; lia.
Qed.

(** * Properties *)

(** C4. allocuvm grows a user address space in full or not at all.  Either it
    returns [newsz] and every page between the two sizes is mapped,
    writable by the user, to a zero-filled page of its own that was free;
    or it returns 0 and no new page is mapped: every page it had taken is
    back on the free list or is one of the page tables it added.  In both
    cases the other user pages keep their frames and their bytes. *)
Theorem allocuvm_correct kend d oldsz newsz s l :
  KERNBASE < kend → vm_wf kend s d l → user_wf kend s d l →
  0 ≤ oldsz ≤ newsz → newsz < KERNBASE →
  absent_from (km_mem s) d (PGROUNDUP oldsz) newsz →
  ∃ r s' l', allocuvm kend d oldsz newsz s = Ret (r, s')
    ∧ ((r = newsz ∧ grown kend d s l s' l' (PGROUNDUP oldsz) (PGROUNDUP newsz))
       ∨ (r = 0 ∧ held kend d s l s' l' (PGROUNDUP oldsz) newsz []
          ∧ absent_from (km_mem s') d (PGROUNDUP oldsz) newsz)).
Proof.
  intros Hk Hwf Hu Hsz Hmax. rewrite !PGROUNDUP_alt by (unfold KERNBASE in *; lia). intros Habs.
  destruct (allocuvm_run kend d oldsz newsz s l) as (r & s' & l' & E & Hr); [done..|].
  exists r, s', l'. split; [done|]. destruct Hr as [?|(? & ? & ? & _)]; auto.
Qed.

Lemma allocuvm_correct_witness :
  ∃ r s' l', allocuvm ex_kend ex_dir 0 5000 ex_kmem = Ret (r, s')
    ∧ ((r = 5000 ∧ grown ex_kend ex_dir ex_kmem ex_free s' l' (PGROUNDUP 0) (PGROUNDUP 5000))
       ∨ (r = 0 ∧ held ex_kend ex_dir ex_kmem ex_free s' l' (PGROUNDUP 0) 5000 []
          ∧ absent_from (km_mem s') ex_dir (PGROUNDUP 0) 5000)).
Proof.
  apply (allocuvm_correct ex_kend ex_dir 0 5000 ex_kmem ex_free).
  - by vm_compute.
  - apply ex_wf.
  - apply ex_user.
  - lia.
  - by vm_compute.
  - intros va _ _. apply ex_frame_none.
Defined.

(** deallocuvm unmaps exactly the pages between the two sizes, puts exactly
    their frames back on the free list, and leaves the rest of the address
    space, the page tables and all other pages' bytes alone. *)
Theorem deallocuvm_correct kend d oldsz newsz s l :
  KERNBASE < kend → vm_wf kend s d l → user_wf kend s d l →
  0 ≤ newsz < oldsz → oldsz ≤ KERNBASE →
  ∃ s' l' fr, deallocuvm kend d oldsz newsz s = Ret (newsz, s')
    ∧ unmapped kend d s l s' l' (PGROUNDUP newsz) oldsz fr.
Proof.
  intros Hk Hwf Hu Hsz Hmax. unfold deallocuvm.
  destruct (Z.leb_spec oldsz newsz); [lia|].
  destruct (deallocuvm_loop_ok kend d oldsz (Z.to_nat (oldsz / PGSIZE + 1)) s l (PGROUNDUP newsz))
    as (s' & l' & fr & Hrun & U); try done.
  1-3: rewrite ?PGROUNDUP_alt by (unfold KERNBASE in *; lia); unfold PGSIZE;
    Z.div_mod_to_equations; lia.
  erewrite bind_ret_eval by exact Hrun. eauto.
Qed.

Lemma deallocuvm_correct_witness :
  ∃ s' l' fr, deallocuvm ex_kend ex_dir 4000 0 ex_mapped = Ret (0, s')
    ∧ unmapped ex_kend ex_dir ex_mapped [ex_kend + 12288] s' l' (PGROUNDUP 0) 4000 fr.
Proof.
  apply (deallocuvm_correct ex_kend ex_dir 4000 0 ex_mapped [ex_kend + 12288]).
  - by vm_compute.
  - apply ex_mapped_wf.
  - apply ex_mapped_user.
  - lia.
  - by vm_compute.
Defined.

(** C22. freevm gives everything back: after it the free list holds what it
    held before, every user frame, every page table and the directory, and
    no other page has changed. *)
Theorem freevm_correct kend d s l :
  KERNBASE < kend → vm_wf kend s d l → user_wf kend s d l →
  ∃ s' l', freevm kend d s = Ret (tt, s') ∧ kmem_rep kend s' l'
    ∧ (∀ q, q ∈ l' ↔ q ∈ l ∨ q = d
         ∨ (∃ i, 0 ≤ i < 1024 ∧ pdt (km_mem s) d i = Some q)
         ∨ (∃ va, 0 ≤ va < KERNBASE ∧ frame_of (km_mem s) d va = Some q))
    ∧ ∀ q, page_ok kend q → (q ∉ l') → same_page (km_mem s) (km_mem s') q.
Proof. apply freevm_run. Qed.

Lemma freevm_correct_witness :
  ∃ s' l', freevm ex_kend ex_dir ex_mapped = Ret (tt, s') ∧ kmem_rep ex_kend s' l'
    ∧ (∀ q, q ∈ l' ↔ q ∈ [ex_kend + 12288] ∨ q = ex_dir
         ∨ (∃ i, 0 ≤ i < 1024 ∧ pdt (km_mem ex_mapped) ex_dir i = Some q)
         ∨ (∃ va, 0 ≤ va < KERNBASE ∧ frame_of (km_mem ex_mapped) ex_dir va = Some q))
    ∧ ∀ q, page_ok ex_kend q → (q ∉ l') → same_page (km_mem ex_mapped) (km_mem s') q.
Proof.
  apply (freevm_correct ex_kend ex_dir ex_mapped [ex_kend + 12288]).
  - by vm_compute.
  - apply ex_mapped_wf.
  - apply ex_mapped_user.
Defined.

(** C26. copyout writes the kernel buffer's bytes to the user addresses, across
    page boundaries, and changes no other byte of memory. *)
Theorem copyout_correct kend d va buf len s l :
  vm_wf kend s d l → user_wf kend s d l → 0 ≤ va → 0 ≤ len → va + len ≤ KERNBASE →
  buf_apart (km_mem s) d buf len →
  (∀ i, 0 ≤ i < len → user_ok (km_mem s) d (va + i) = true) →
  ∃ s', copyout d va buf len s = Ret (0, s') ∧ copied_out kend d s l s' va buf len.
Proof.
  intros. apply copyout_loop_ok; try done. unfold PGSIZE. Z.div_mod_to_equations; lia.
Qed.

Lemma copyout_correct_witness :
  ∃ s', copyout ex_dir 100 ex_dir 8 ex_mapped = Ret (0, s')
        ∧ copied_out ex_kend ex_dir ex_mapped [ex_kend + 12288] s' 100 ex_dir 8.
Proof.
  apply (copyout_correct ex_kend ex_dir 100 ex_dir 8 ex_mapped [ex_kend + 12288]).
  - apply ex_mapped_wf.
  - apply ex_mapped_user.
  - lia.
  - lia.
  - by vm_compute.
  - intros va x Hva. unfold uaddr. rewrite ex_mapped_frame by (unfold KERNBASE in *; lia).
    destruct (va <? 4096); intros [= <-]. unfold ex_dir. Z.div_mod_to_equations; lia.
  - intros i Hi. unfold user_ok. rewrite ex_mapped_pte by lia.
    destruct (Z.ltb_spec (100 + i) 4096); [by vm_compute|lia].
Defined.

(** copyout stops with -1 at a page the process may not write, and uva2ka
    dereferences a null entry when the page has no page table at all. *)
Theorem copyout_unmapped kend d va buf len s l :
  vm_wf kend s d l → 0 ≤ va < KERNBASE → 0 < len → user_ok (km_mem s) d va = false →
  copyout d va buf len s
  = match pdt (km_mem s) d (PDX va) with Some _ => Ret (-1, s) | None => Undef end.
Proof.
  intros Hwf Hva Hlen Hok. unfold copyout.
  replace (Z.to_nat (len / PGSIZE + 2)) with (S (Z.to_nat (len / PGSIZE + 1)))
    by (unfold PGSIZE; Z.div_mod_to_equations; lia).
  cbn [copyout_loop]. destruct (Z.ltb_spec 0 len) as [_|]; [|lia].
  rewrite PGROUNDDOWN_alt by (unfold KERNBASE in *; lia).
  assert (0 ≤ va < 4294967296) by (unfold KERNBASE in *; lia).
  unfold bind at 1. erewrite uva2ka_run by done. unfold user_ok in *.
  rewrite (pte_of_same_page _ _ (va / 4096 * 4096) va) by (Z.div_mod_to_equations; lia).
  replace (PDX (va / 4096 * 4096)) with (PDX va)
    by (rewrite !PDX_alt by (Z.div_mod_to_equations; lia); Z.div_mod_to_equations; lia).
  rewrite Hok. by destruct (pdt _ _ _).
Qed.

Lemma copyout_unmapped_witness :
  copyout ex_dir 5000 ex_dir 8 ex_mapped = Ret (-1, ex_mapped)
  ∧ copyout ex_dir 5000 ex_dir 8 ex_kmem = Undef.
Proof.
  split.
  - apply (copyout_unmapped ex_kend ex_dir 5000 ex_dir 8 ex_mapped [ex_kend + 12288]);
      [apply ex_mapped_wf|by vm_compute..].
  - apply (copyout_unmapped ex_kend ex_dir 5000 ex_dir 8 ex_kmem ex_free);
      [apply ex_wf|by vm_compute..].
Defined.
