(* ===== verification/Spinlock.v ===== *)
(** Spin locks and interrupt nesting, spinlock.c.

    The first half is the code as one CPU executes it; [me] is the CPU, and
    the machine's interrupt flag is part of its state.  The second half is
    the machine: any number of CPUs take the same lock, and each memory
    access of acquire, holding and release is a step of its own. *)

From S2P Require Import Prelude.

Record cpu : Type := MkCpu {
  ncli : Z;            (* depth of pushcli nesting *)
  intena : bool;       (* were interrupts enabled before pushcli? *)
  eflags_if : bool     (* FL_IF of the CPU's eflags register *)
}.

Record spinlock : Type := MkSpinlock {
  locked : Z;
  lcpu : option nat    (* the cpu holding the lock, None for 0 *)
}.

(** What lock operations act on: the CPU and the lock. *)
Record lkst : Type := MkLkst { lk_cpu : cpu; lk_lock : spinlock }.

Definition set_cpu (c : cpu) (s : lkst) : lkst := MkLkst c (lk_lock s).
Definition set_lock (l : spinlock) (s : lkst) : lkst := MkLkst (lk_cpu s) l.

Definition initlock : M lkst unit := modify (set_lock (MkSpinlock 0 None)).

Definition pushcli : M lkst unit :=
  c <- gets lk_cpu ;;
  let eflags := eflags_if c in
  let c1 := MkCpu (ncli c) (intena c) false in
  let c2 := if ncli c1 =? 0 then MkCpu (ncli c1) eflags false else c1 in
  modify (set_cpu (MkCpu (ncli c2 + 1) (intena c2) (eflags_if c2))).

Definition popcli : M lkst unit :=
  c <- gets lk_cpu ;;
  if eflags_if c then panic "popcli - interruptible"
  else
    let c1 := MkCpu (ncli c - 1) (intena c) (eflags_if c) in
    modify (set_cpu c1) ;;;
    if ncli c1 <? 0 then panic "popcli"
    else if (ncli c1 =? 0) && intena c1
    then modify (set_cpu (MkCpu (ncli c1) (intena c1) true))
    else ret tt.

Section spinlock_code.
Context (me : nat).

Definition holding : M lkst bool :=
  pushcli ;;;
  l <- gets lk_lock ;;
  let r := negb (locked l =? 0) && bool_decide (lcpu l = Some me) in
  popcli ;;;
  ret r.

(** A lock that is taken by another CPU is waited for; one CPU alone would
    spin forever. *)
Definition acquire : M lkst unit :=
  pushcli ;;;
  h <- holding ;;
  if h then panic "acquire"
  else
    l <- gets lk_lock ;;
    modify (set_lock (MkSpinlock 1 (lcpu l))) ;;;
    if negb (locked l =? 0) then out_of_fuel
    else modify (λ s, set_lock (MkSpinlock (locked (lk_lock s)) (Some me)) s).

Definition release : M lkst unit :=
  h <- holding ;;
  if negb h then panic "release"
  else
    modify (λ s, set_lock (MkSpinlock (locked (lk_lock s)) None) s) ;;;
    modify (λ s, set_lock (MkSpinlock 0 (lcpu (lk_lock s))) s) ;;;
    popcli.
End spinlock_code.

(** * Interrupt nesting *)

(** Interrupts are off while the nesting depth is positive. *)
Definition cpu_wf (c : cpu) : Prop := 0 ≤ ncli c ∧ (0 < ncli c → eflags_if c = false).

(** The CPU after one more pushcli. *)
Definition pushed (c : cpu) : cpu :=
  MkCpu (ncli c + 1) (if ncli c =? 0 then eflags_if c else intena c) false.

(** Nested pairs of pushcli and popcli. *)
Inductive nest : Type :=
| NNil
| NPair (inner after : nest).   (* pushcli; inner; popcli; after *)

Fixpoint run_nest (n : nest) : M lkst unit :=
  match n with
  | NNil => ret tt
  | NPair i a => pushcli ;;; run_nest i ;;; popcli ;;; run_nest a
  end.

(** A pair leaves the depth and the interrupt flag; it may overwrite
    [intena], which means nothing at depth 0. *)
Definition same_level (c c' : cpu) : Prop :=
  ncli c' = ncli c ∧ eflags_if c' = eflags_if c ∧ (0 < ncli c → intena c' = intena c).

Lemma pushcli_run s : pushcli s = Ret (tt, set_cpu (pushed (lk_cpu s)) s).
Proof.
  unfold pushcli, gets, bind, modify, pushed. simpl.
  by destruct (Z.eqb_spec (ncli (lk_cpu s)) 0) as [E|E].
Qed.

Lemma pushed_wf c : cpu_wf c → cpu_wf (pushed c) ∧ 0 < ncli (pushed c).
Proof. intros [H1 H2]. unfold cpu_wf, pushed. simpl. lia. Qed.

(** popcli at a level that the matching pushcli has entered. *)
Lemma popcli_run c s :
  cpu_wf c → same_level (pushed c) (lk_cpu s) →
  ∃ c', popcli s = Ret (tt, set_cpu c' s) ∧ same_level c c' ∧ cpu_wf c'.
Proof.
  intros [H1 H2] (Hn & He & Hi). simpl in *. specialize (Hi ltac:(lia)).
  unfold popcli, gets, bind, modify. rewrite Hn, He, Hi. simpl.
  replace (ncli c + 1 - 1) with (ncli c) by lia.
  destruct (Z.ltb_spec (ncli c) 0); [lia|].
  destruct (Z.eqb_spec (ncli c) 0) as [E|E]; simpl.
  - destruct (eflags_if c) eqn:Ef; eexists; (split; [done|]);
      unfold same_level, cpu_wf; simpl; rewrite ?Ef; split_and!; (done || lia).
  - eexists; split; [done|]. unfold same_level, cpu_wf; simpl.
    specialize (H2 ltac:(lia)). split_and!; (done || lia).
Qed.

Lemma same_level_refl c : same_level c c.
Proof. done. Qed.

Lemma same_level_trans c1 c2 c3 : same_level c1 c2 → same_level c2 c3 → same_level c1 c3.
Proof.
  intros (A1 & A2 & A3) (B1 & B2 & B3).
  split_and!; [congruence|congruence|]. intros H. rewrite B3 by lia. auto.
Qed.

Lemma run_nest_ok n : ∀ s,
  cpu_wf (lk_cpu s) →
  ∃ c', run_nest n s = Ret (tt, set_cpu c' s) ∧ same_level (lk_cpu s) c' ∧ cpu_wf c'.
Proof.
  induction n as [|i IHi a IHa]; intros s Hwf.
  { exists (lk_cpu s). by destruct s. }
  cbn [run_nest]. erewrite bind_ret_eval by apply pushcli_run.
  destruct (IHi (set_cpu (pushed (lk_cpu s)) s)) as (c1 & H1 & Hs1 & Hw1);
    [by apply pushed_wf|]. erewrite bind_ret_eval by exact H1.
  destruct (popcli_run (lk_cpu s) (set_cpu c1 s)) as (c2 & H2 & Hs2 & Hw2); [done|done|].
  erewrite bind_ret_eval by exact H2.
  destruct (IHa (set_cpu c2 s)) as (c3 & H3 & Hs3 & Hw3); [done|].
  exists c3. split; [exact H3|]. split; [by eapply same_level_trans|done].
Qed.

(** * Taking and giving back a lock *)

Lemma holding_run me s :
  cpu_wf (lk_cpu s) →
  ∃ c', holding me s = Ret (negb (locked (lk_lock s) =? 0) && bool_decide (lcpu (lk_lock s) = Some me),
                            set_cpu c' s)
        ∧ same_level (lk_cpu s) c' ∧ cpu_wf c'.
Proof.
  intros Hwf. unfold holding. erewrite bind_ret_eval by apply pushcli_run.
  unfold gets at 1. unfold bind at 1. cbn [lk_lock set_cpu].
  destruct (popcli_run (lk_cpu s) (set_cpu (pushed (lk_cpu s)) s)) as (c' & H & Hs & Hw); [done|done|].
  erewrite bind_ret_eval by exact H. eauto.
Qed.

(** The state in which this CPU holds the lock that was free in [s]. *)
Definition holds (me : nat) (s s' : lkst) : Prop :=
  lk_lock s' = MkSpinlock 1 (Some me) ∧ same_level (pushed (lk_cpu s)) (lk_cpu s')
  ∧ cpu_wf (lk_cpu s').

Lemma acquire_run me s :
  cpu_wf (lk_cpu s) → locked (lk_lock s) = 0 → ∃ s', acquire me s = Ret (tt, s') ∧ holds me s s'.
Proof.
  intros Hwf Hl. unfold acquire. erewrite bind_ret_eval by apply pushcli_run.
  destruct (holding_run me (set_cpu (pushed (lk_cpu s)) s)) as (c1 & H1 & Hs1 & Hw1);
    [by apply pushed_wf|].
  erewrite bind_ret_eval by exact H1. cbn [lk_lock set_cpu]. rewrite Hl. cbn [Z.eqb negb andb].
  unfold gets, bind, modify. cbn [lk_lock set_cpu]. rewrite Hl. cbn [Z.eqb negb].
  eexists. split; [done|]. split_and!; done.
Qed.

Lemma release_run me s s' :
  cpu_wf (lk_cpu s) → holds me s s' →
  ∃ c', release me s' = Ret (tt, MkLkst c' (MkSpinlock 0 None))
        ∧ same_level (lk_cpu s) c' ∧ cpu_wf c'.
Proof.
  intros Hwf (Hl & Hs & Hw). unfold release.
  destruct (holding_run me s') as (c1 & H1 & Hs1 & Hw1); [done|].
  erewrite bind_ret_eval by exact H1. rewrite Hl. cbn [locked lcpu Z.eqb negb andb].
  rewrite bool_decide_true by done. cbn [negb]. unfold modify at 1 2. unfold bind at 1 2.
  cbv beta iota. destruct (popcli_run (lk_cpu s) (MkLkst c1 (MkSpinlock 0 None)))
    as (c2 & H2 & Hs2 & Hw2); [done|by eapply same_level_trans|]. eauto.
Qed.

(** * Many CPUs *)

(** Where a CPU is in acquire, its critical section or release.  holding
    reads the two fields of the lock one after the other. *)
Inductive pc : Type :=
| Out                      (* not using the lock *)
| AcqCheck (seen : Z)      (* acquire: holding has read [locked] *)
| AcqSpin                  (* acquire: about to xchg *)
| AcqGot                   (* acquire: xchg returned 0, cpu not recorded yet *)
| Crit                     (* in the critical section *)
| RelCheck (seen : Z)      (* release: holding has read [locked] *)
| RelOk                    (* release: holding returned true *)
| RelCleared               (* release: cpu is 0, locked still 1 *)
| Panicked.

Record machine : Type := MkMachine { m_lock : spinlock; m_pc : nat → pc }.

Definition goto (i : nat) (p : pc) (f : nat → pc) : nat → pc :=
  λ j, if decide (j = i) then p else f j.

Inductive lstep : machine → machine → Prop :=
| s_acq_read i m :
    m_pc m i = Out →
    lstep m (MkMachine (m_lock m) (goto i (AcqCheck (locked (m_lock m))) (m_pc m)))
| s_acq_check i m v :
    m_pc m i = AcqCheck v →
    lstep m (MkMachine (m_lock m)
      (goto i (if negb (v =? 0) && bool_decide (lcpu (m_lock m) = Some i)
               then Panicked else AcqSpin) (m_pc m)))
| s_xchg i m :
    m_pc m i = AcqSpin →
    lstep m (MkMachine (MkSpinlock 1 (lcpu (m_lock m)))
      (goto i (if negb (locked (m_lock m) =? 0) then AcqSpin else AcqGot) (m_pc m)))
| s_record i m :
    m_pc m i = AcqGot →
    lstep m (MkMachine (MkSpinlock (locked (m_lock m)) (Some i)) (goto i Crit (m_pc m)))
| s_rel_read i m :
    m_pc m i = Crit →
    lstep m (MkMachine (m_lock m) (goto i (RelCheck (locked (m_lock m))) (m_pc m)))
| s_rel_check i m v :
    m_pc m i = RelCheck v →
    lstep m (MkMachine (m_lock m)
      (goto i (if negb (negb (v =? 0) && bool_decide (lcpu (m_lock m) = Some i))
               then Panicked else RelOk) (m_pc m)))
| s_rel_clear i m :
    m_pc m i = RelOk →
    lstep m (MkMachine (MkSpinlock (locked (m_lock m)) None) (goto i RelCleared (m_pc m)))
| s_rel_store i m :
    m_pc m i = RelCleared →
    lstep m (MkMachine (MkSpinlock 0 (lcpu (m_lock m))) (goto i Out (m_pc m))).

Definition minit : machine := MkMachine (MkSpinlock 0 None) (λ _, Out).

Inductive reachable : machine → Prop :=
| r_init : reachable minit
| r_step m m' : reachable m → lstep m m' → reachable m'.

(** The CPU owns the lock word; the CPU's number is recorded in it. *)
Definition owns (p : pc) : bool :=
  match p with AcqGot | Crit | RelCheck _ | RelOk | RelCleared => true | _ => false end.
Definition recorded (p : pc) : bool :=
  match p with Crit | RelCheck _ | RelOk => true | _ => false end.

Record lock_inv (m : machine) : Prop := {
  li_owner : ∀ i, owns (m_pc m i) = true → locked (m_lock m) = 1;
  li_unique : ∀ i j, owns (m_pc m i) = true → owns (m_pc m j) = true → i = j;
  li_rec : ∀ i, lcpu (m_lock m) = Some i ↔ recorded (m_pc m i) = true;
  li_seen : ∀ i v, m_pc m i = RelCheck v → v = 1;
  li_panic : ∀ i, m_pc m i ≠ Panicked
}.

Lemma goto_same i p f : goto i p f i = p.
Proof. unfold goto. by rewrite decide_True. Qed.

Lemma goto_other i j p f : j ≠ i → goto i p f j = f j.
Proof. intros. unfold goto. by rewrite decide_False. Qed.

Lemma recorded_owns p : recorded p = true → owns p = true.
Proof. by destruct p. Qed.

(** Case split on whether a CPU is the one that moves. *)
Ltac cpu_cases i :=
  repeat match goal with
  | H : context [goto i _ _ ?j] |- _ =>
      destruct (decide (j = i)) as [->|?];
      [rewrite ?goto_same in *|rewrite ?(goto_other i j) in * by done]
  | |- context [goto i _ _ ?j] =>
      destruct (decide (j = i)) as [->|?];
      [rewrite ?goto_same in *|rewrite ?(goto_other i j) in * by done]
  end.

Lemma lock_inv_init : lock_inv minit.
Proof. by split. Qed.

(** A move that changes neither who owns the lock nor what is recorded. *)
Lemma lock_inv_move m i p v :
  lock_inv m → owns p = owns (m_pc m i) → recorded p = recorded (m_pc m i) →
  p ≠ Panicked → (∀ w, p = RelCheck w → w = 1) → (locked (m_lock m) = 1 → v = 1) →
  lock_inv (MkMachine (MkSpinlock v (lcpu (m_lock m))) (goto i p (m_pc m))).
Proof.
  intros [Ho Hu Hr Hs Hp] Eo Er Hnp Hw Hv. split; simpl.
  - intros j. cpu_cases i; rewrite ?Eo; eauto.
  - intros j k. cpu_cases i; rewrite ?Eo; eauto.
  - intros j. cpu_cases i; rewrite ?Er; eauto.
  - intros j w. cpu_cases i; eauto.
  - intros j. cpu_cases i; eauto.
Qed.

Lemma lock_inv_step m m' : lock_inv m → lstep m m' → lock_inv m'.
Proof.
  intros I Hst. pose proof I as [Ho Hu Hr Hs Hp].
  destruct Hst as [i m E|i m v E|i m E|i m E|i m E|i m v E|i m E|i m E];
    pose proof (Hr i) as Hri; pose proof (Ho i) as Hoi; pose proof (Hu i) as Hui;
    rewrite E in Hri, Hoi, Hui; simpl in Hri, Hoi, Hui;
    destruct m as [[lk lc] f]; simpl in *.
  - apply (lock_inv_move (MkMachine (MkSpinlock lk lc) f)); simpl; rewrite ?E; naive_solver.
  - rewrite bool_decide_false, andb_false_r by naive_solver.
    apply (lock_inv_move (MkMachine (MkSpinlock lk lc) f)); simpl; rewrite ?E; naive_solver.
  - destruct (Z.eqb_spec lk 0) as [->|Hne]; simpl.
    + split; simpl.
      * done.
      * intros j k. cpu_cases i; intros; try done;
          exfalso; naive_solver lia.
      * intros j. cpu_cases i; naive_solver.
      * intros j w. cpu_cases i; naive_solver.
      * intros j. cpu_cases i; naive_solver.
    + apply (lock_inv_move (MkMachine (MkSpinlock lk lc) f)); simpl; rewrite ?E; naive_solver.
  - split; simpl.
    + intros j. cpu_cases i; naive_solver.
    + intros j k. cpu_cases i; naive_solver.
    + intros j. cpu_cases i; [done|]. split; [naive_solver|].
      intros Hj. destruct n. symmetry. by apply Hui, recorded_owns.
    + intros j w. cpu_cases i; naive_solver.
    + intros j. cpu_cases i; naive_solver.
  - apply (lock_inv_move (MkMachine (MkSpinlock lk lc) f)); simpl; rewrite ?E; naive_solver.
  - rewrite (Hs i v E), bool_decide_true by naive_solver. simpl.
    apply (lock_inv_move (MkMachine (MkSpinlock lk lc) f)); simpl; rewrite ?E; naive_solver.
  - split; simpl.
    + intros j. cpu_cases i; naive_solver.
    + intros j k. cpu_cases i; naive_solver.
    + intros j. cpu_cases i; [done|]. split; [done|].
      intros Hj. destruct n. symmetry. by apply Hui, recorded_owns.
    + intros j w. cpu_cases i; naive_solver.
    + intros j. cpu_cases i; naive_solver.
  - split; simpl.
    + intros j. cpu_cases i; [done|]. intros Hj. destruct n. symmetry. by apply Hui.
    + intros j k. cpu_cases i; naive_solver.
    + intros j. cpu_cases i; naive_solver.
    + intros j w. cpu_cases i; naive_solver.
    + intros j. cpu_cases i; naive_solver.
Qed.

Lemma lock_inv_reachable m : reachable m → lock_inv m.
Proof. induction 1; eauto using lock_inv_init, lock_inv_step. Qed.

(** * Properties *)

(** C8. Mutual exclusion: in every interleaving of the CPUs' memory accesses
    at most one CPU is in its critical section, and the sanity checks of
    acquire and release never fire although holding reads the lock's two
    fields without holding it. *)
Theorem spinlock_mutual_exclusion m :
  reachable m →
  (∀ i j, m_pc m i = Crit → m_pc m j = Crit → i = j) ∧ ∀ i, m_pc m i ≠ Panicked.
Proof.
  intros [Ho Hu Hr Hs Hp]%lock_inv_reachable. split; [|done].
  intros i j Hi Hj. apply Hu; by rewrite ?Hi, ?Hj.
Qed.

(** CPU 0 is in its critical section while CPU 1 spins. *)
Definition ex_contended : machine :=
  MkMachine (MkSpinlock 1 (Some 0%nat))
    (goto 1 AcqSpin (goto 1 (AcqCheck 1) (goto 0 Crit (goto 0 AcqGot
       (goto 0 AcqSpin (goto 0 (AcqCheck 0) (λ _, Out))))))).

Lemma ex_contended_reachable : reachable ex_contended.
Proof.
  pose proof (r_step _ _ r_init (s_acq_read 0 minit eq_refl)) as R1.
  pose proof (λ H, r_step _ _ R1 (s_acq_check 0 _ 0 H)) as R2; specialize (R2 eq_refl).
  pose proof (λ H, r_step _ _ R2 (s_xchg 0 _ H)) as R3; specialize (R3 eq_refl).
  pose proof (λ H, r_step _ _ R3 (s_record 0 _ H)) as R4; specialize (R4 eq_refl).
  pose proof (λ H, r_step _ _ R4 (s_acq_read 1 _ H)) as R5; specialize (R5 eq_refl).
  pose proof (λ H, r_step _ _ R5 (s_acq_check 1 _ 1 H)) as R6; specialize (R6 eq_refl).
  exact R6.
Qed.

Lemma spinlock_mutual_exclusion_witness :
  (∀ i j, m_pc ex_contended i = Crit → m_pc ex_contended j = Crit → i = j)
  ∧ ∀ i, m_pc ex_contended i ≠ Panicked.
Proof. apply (spinlock_mutual_exclusion ex_contended). apply ex_contended_reachable. Defined.

(** pushcli and popcli match: a nest of pairs never panics, and gives
    back the nesting depth and the interrupt flag it started with, so
    interrupts come back on exactly where the outermost pair ends. *)
Theorem cli_nesting n s :
  cpu_wf (lk_cpu s) →
  ∃ c', run_nest n s = Ret (tt, set_cpu c' s) ∧ same_level (lk_cpu s) c' ∧ cpu_wf c'.
Proof. apply run_nest_ok. Qed.

Definition ex_lkst : lkst := MkLkst (MkCpu 0 false true) (MkSpinlock 0 None).

Lemma cli_nesting_witness :
  ∃ c', run_nest (NPair (NPair NNil NNil) (NPair NNil NNil)) ex_lkst = Ret (tt, set_cpu c' ex_lkst)
        ∧ same_level (lk_cpu ex_lkst) c' ∧ cpu_wf c'.
Proof. apply (cli_nesting (NPair (NPair NNil NNil) (NPair NNil NNil)) ex_lkst). done. Defined.

(** A free lock can be acquired and then released without a panic;
    between the two calls interrupts are off and the lock names this CPU,
    and afterwards the lock is free and the interrupt flag is as before. *)
Theorem acquire_release me s :
  cpu_wf (lk_cpu s) → locked (lk_lock s) = 0 →
  ∃ s' c', acquire me s = Ret (tt, s')
    ∧ lk_lock s' = MkSpinlock 1 (Some me) ∧ eflags_if (lk_cpu s') = false
    ∧ release me s' = Ret (tt, MkLkst c' (MkSpinlock 0 None))
    ∧ same_level (lk_cpu s) c'.
Proof.
  intros Hwf Hl. destruct (acquire_run me s Hwf Hl) as (s' & Ha & Hh).
  destruct (release_run me s s' Hwf Hh) as (c' & Hr & Hs & _).
  exists s', c'. destruct Hh as (Hk & (_ & He & _) & _). split_and!; done.
Qed.

Lemma acquire_release_witness :
  ∃ s' c', acquire 0 ex_lkst = Ret (tt, s')
    ∧ lk_lock s' = MkSpinlock 1 (Some 0%nat) ∧ eflags_if (lk_cpu s') = false
    ∧ release 0 s' = Ret (tt, MkLkst c' (MkSpinlock 0 None))
    ∧ same_level (lk_cpu ex_lkst) c'.
Proof. apply (acquire_release 0 ex_lkst); done. Defined.
