(* ===== verification/ProcData.v ===== *)
(** Processes: the data of proc.h and the globals of proc.c.

    A pointer into the process table is an index, null is [None], and
    [Some 64] is the pointer one past the end that the table loops stop at.
    [kcore] gathers the globals; [kst] adds the CPU and ptable.lock.  [F]
    is the state of the file system, which processes reach only through
    [FileOps]. *)

From S2P Require Import Prelude Params Cstring Kalloc Vm Spinlock.

Inductive procstate : Type := UNUSED | EMBRYO | SLEEPING | RUNNABLE | RUNNING | ZOMBIE.
#[export] Instance procstate_eq_dec : EqDecision procstate.
Proof. solve_decision. Defined.

(** What a process sleeps on: the address of some kernel object, or (in
    wait) of a process table entry. *)
Inductive channel : Type := ChAddr (a : Z) | ChProc (i : nat).
#[export] Instance channel_eq_dec : EqDecision channel.
Proof. solve_decision. Defined.

Definition chan_of (p : option nat) : channel :=
  match p with Some i => ChProc i | None => ChAddr 0 end.

Record proc : Type := MkProc {
  sz : Z;                  (* size of process memory *)
  pgdir : Z;               (* page table *)
  kstack : Z;              (* bottom of kernel stack *)
  state : procstate;
  pid : Z;
  parent : option nat;
  tf : Z;                  (* trap frame *)
  context : Z;             (* swtch here to run the process *)
  chan : channel;          (* ChAddr 0 when not sleeping *)
  killed : Z;
  ofile : list Z;          (* open files, NOFILE pointers *)
  cwd : Z;                 (* current directory *)
  name : list Z;           (* 16 bytes *)
  priority : Z;
  ctime : Z;               (* creation time *)
  etime : Z;               (* end time *)
  rtime : Z                (* running time *)
}.

Definition set_sz (x : Z) (p : proc) : proc :=
  MkProc x (pgdir p) (kstack p) (state p) (pid p) (parent p) (tf p) (context p) (chan p)
    (killed p) (ofile p) (cwd p) (name p) (priority p) (ctime p) (etime p) (rtime p).
Definition set_pgdir (x : Z) (p : proc) : proc :=
  MkProc (sz p) x (kstack p) (state p) (pid p) (parent p) (tf p) (context p) (chan p)
    (killed p) (ofile p) (cwd p) (name p) (priority p) (ctime p) (etime p) (rtime p).
Definition set_kstack (x : Z) (p : proc) : proc :=
  MkProc (sz p) (pgdir p) x (state p) (pid p) (parent p) (tf p) (context p) (chan p)
    (killed p) (ofile p) (cwd p) (name p) (priority p) (ctime p) (etime p) (rtime p).
Definition set_state (x : procstate) (p : proc) : proc :=
  MkProc (sz p) (pgdir p) (kstack p) x (pid p) (parent p) (tf p) (context p) (chan p)
    (killed p) (ofile p) (cwd p) (name p) (priority p) (ctime p) (etime p) (rtime p).
Definition set_pid (x : Z) (p : proc) : proc :=
  MkProc (sz p) (pgdir p) (kstack p) (state p) x (parent p) (tf p) (context p) (chan p)
    (killed p) (ofile p) (cwd p) (name p) (priority p) (ctime p) (etime p) (rtime p).
Definition set_parent (x : option nat) (p : proc) : proc :=
  MkProc (sz p) (pgdir p) (kstack p) (state p) (pid p) x (tf p) (context p) (chan p)
    (killed p) (ofile p) (cwd p) (name p) (priority p) (ctime p) (etime p) (rtime p).
Definition set_tf (x : Z) (p : proc) : proc :=
  MkProc (sz p) (pgdir p) (kstack p) (state p) (pid p) (parent p) x (context p) (chan p)
    (killed p) (ofile p) (cwd p) (name p) (priority p) (ctime p) (etime p) (rtime p).
Definition set_context (x : Z) (p : proc) : proc :=
  MkProc (sz p) (pgdir p) (kstack p) (state p) (pid p) (parent p) (tf p) x (chan p)
    (killed p) (ofile p) (cwd p) (name p) (priority p) (ctime p) (etime p) (rtime p).
Definition set_chan (x : channel) (p : proc) : proc :=
  MkProc (sz p) (pgdir p) (kstack p) (state p) (pid p) (parent p) (tf p) (context p) x
    (killed p) (ofile p) (cwd p) (name p) (priority p) (ctime p) (etime p) (rtime p).
Definition set_killed (x : Z) (p : proc) : proc :=
  MkProc (sz p) (pgdir p) (kstack p) (state p) (pid p) (parent p) (tf p) (context p)
    (chan p) x (ofile p) (cwd p) (name p) (priority p) (ctime p) (etime p) (rtime p).
Definition set_ofile (x : list Z) (p : proc) : proc :=
  MkProc (sz p) (pgdir p) (kstack p) (state p) (pid p) (parent p) (tf p) (context p)
    (chan p) (killed p) x (cwd p) (name p) (priority p) (ctime p) (etime p) (rtime p).
Definition set_cwd (x : Z) (p : proc) : proc :=
  MkProc (sz p) (pgdir p) (kstack p) (state p) (pid p) (parent p) (tf p) (context p)
    (chan p) (killed p) (ofile p) x (name p) (priority p) (ctime p) (etime p) (rtime p).
Definition set_name (x : list Z) (p : proc) : proc :=
  MkProc (sz p) (pgdir p) (kstack p) (state p) (pid p) (parent p) (tf p) (context p)
    (chan p) (killed p) (ofile p) (cwd p) x (priority p) (ctime p) (etime p) (rtime p).
Definition set_priority (x : Z) (p : proc) : proc :=
  MkProc (sz p) (pgdir p) (kstack p) (state p) (pid p) (parent p) (tf p) (context p)
    (chan p) (killed p) (ofile p) (cwd p) (name p) x (ctime p) (etime p) (rtime p).
Definition set_ctime (x : Z) (p : proc) : proc :=
  MkProc (sz p) (pgdir p) (kstack p) (state p) (pid p) (parent p) (tf p) (context p)
    (chan p) (killed p) (ofile p) (cwd p) (name p) (priority p) x (etime p) (rtime p).
Definition set_etime (x : Z) (p : proc) : proc :=
  MkProc (sz p) (pgdir p) (kstack p) (state p) (pid p) (parent p) (tf p) (context p)
    (chan p) (killed p) (ofile p) (cwd p) (name p) (priority p) (ctime p) x (rtime p).
Definition set_rtime (x : Z) (p : proc) : proc :=
  MkProc (sz p) (pgdir p) (kstack p) (state p) (pid p) (parent p) (tf p) (context p)
    (chan p) (killed p) (ofile p) (cwd p) (name p) (priority p) (ctime p) (etime p) x.

(** An entry of the zero-initialised process table. *)
Definition zero_proc : proc :=
  MkProc 0 0 0 UNUSED 0 None 0 0 (ChAddr 0) 0 (replicate 16 0) 0 (replicate 16 0) 0 0 0 0.

(** defs.h: struct proc_stat, indexed by pid. *)
Record proc_stat : Type := MkPstat {
  ps_inuse : list Z;
  ps_pid : list Z;
  ps_runtime : list Z;
  ps_num_run : list Z;
  ps_current_queue : list Z;
  ps_ticks : list (list Z)       (* 64 rows of 5 *)
}.

Definition set_ps_inuse (x : list Z) (q : proc_stat) : proc_stat :=
  MkPstat x (ps_pid q) (ps_runtime q) (ps_num_run q) (ps_current_queue q) (ps_ticks q).
Definition set_ps_pid (x : list Z) (q : proc_stat) : proc_stat :=
  MkPstat (ps_inuse q) x (ps_runtime q) (ps_num_run q) (ps_current_queue q) (ps_ticks q).
Definition set_ps_runtime (x : list Z) (q : proc_stat) : proc_stat :=
  MkPstat (ps_inuse q) (ps_pid q) x (ps_num_run q) (ps_current_queue q) (ps_ticks q).
Definition set_ps_num_run (x : list Z) (q : proc_stat) : proc_stat :=
  MkPstat (ps_inuse q) (ps_pid q) (ps_runtime q) x (ps_current_queue q) (ps_ticks q).
Definition set_ps_current_queue (x : list Z) (q : proc_stat) : proc_stat :=
  MkPstat (ps_inuse q) (ps_pid q) (ps_runtime q) (ps_num_run q) x (ps_ticks q).
Definition set_ps_ticks (x : list (list Z)) (q : proc_stat) : proc_stat :=
  MkPstat (ps_inuse q) (ps_pid q) (ps_runtime q) (ps_num_run q) (ps_current_queue q) x.

Definition zero_pstat : proc_stat :=
  MkPstat (replicate 64 0) (replicate 64 0) (replicate 64 0) (replicate 64 0)
    (replicate 64 0) (replicate 64 (replicate 5 0)).

(** What proc.c, exec.c, syscall.c and trap.c print. *)
Inductive msg : Type :=
| MCpsHead
| MCpsRow (name : list Z) (pid ppid : Z) (st : procstate) (ctime : Z)
| MRunning (pid : Z)
| MDump (pid : Z) (st : string) (name : list Z)
| MExecFail
| MUnknownCall (pid : Z) (name : list Z) (num : Z)
| MSpurious (cpu cs eip : Z)
| MUnexpectedTrap (trapno cpu eip cr2 : Z)
| MTrapKill (pid : Z) (name : list Z) (trapno err cpu eip cr2 : Z).

Record kcore (F : Type) : Type := MkCore {
  cproc : option nat;              (* mycpu()->proc *)
  ptable : list proc;              (* ptable.proc *)
  cxj : list Z;
  qxj : list (list (option nat));
  pstat_var : proc_stat;
  initproc : option nat;
  nextpid : Z;
  ticks : Z;
  running_p : option nat;
  fs_started : bool;               (* forkret's [first] is 0 *)
  cr3 : Z;                         (* the page table register *)
  esp0 : Z;                        (* mycpu()->ts.esp0 *)
  kpgdir : Z;
  console : list msg;
  swtched : list nat;              (* the processes switched to, latest first *)
  km : kmem;
  fs : F
}.
Arguments MkCore {F}.
Arguments cproc {F}.
Arguments ptable {F}.
Arguments cxj {F}.
Arguments qxj {F}.
Arguments pstat_var {F}.
Arguments initproc {F}.
Arguments nextpid {F}.
Arguments ticks {F}.
Arguments running_p {F}.
Arguments fs_started {F}.
Arguments cr3 {F}.
Arguments esp0 {F}.
Arguments kpgdir {F}.
Arguments console {F}.
Arguments swtched {F}.
Arguments km {F}.
Arguments fs {F}.

Definition set_cproc {F} (x : option nat) (c : kcore F) : kcore F :=
  MkCore x (ptable c) (cxj c) (qxj c) (pstat_var c) (initproc c) (nextpid c) (ticks c)
    (running_p c) (fs_started c) (cr3 c) (esp0 c) (kpgdir c) (console c) (swtched c) (km c)
    (fs c).
Definition set_ptable {F} (x : list proc) (c : kcore F) : kcore F :=
  MkCore (cproc c) x (cxj c) (qxj c) (pstat_var c) (initproc c) (nextpid c) (ticks c)
    (running_p c) (fs_started c) (cr3 c) (esp0 c) (kpgdir c) (console c) (swtched c) (km c)
    (fs c).
Definition set_cxj {F} (x : list Z) (c : kcore F) : kcore F :=
  MkCore (cproc c) (ptable c) x (qxj c) (pstat_var c) (initproc c) (nextpid c) (ticks c)
    (running_p c) (fs_started c) (cr3 c) (esp0 c) (kpgdir c) (console c) (swtched c) (km c)
    (fs c).
Definition set_qxj {F} (x : list (list (option nat))) (c : kcore F) : kcore F :=
  MkCore (cproc c) (ptable c) (cxj c) x (pstat_var c) (initproc c) (nextpid c) (ticks c)
    (running_p c) (fs_started c) (cr3 c) (esp0 c) (kpgdir c) (console c) (swtched c) (km c)
    (fs c).
Definition set_pstat_var {F} (x : proc_stat) (c : kcore F) : kcore F :=
  MkCore (cproc c) (ptable c) (cxj c) (qxj c) x (initproc c) (nextpid c) (ticks c)
    (running_p c) (fs_started c) (cr3 c) (esp0 c) (kpgdir c) (console c) (swtched c) (km c)
    (fs c).
Definition set_initproc {F} (x : option nat) (c : kcore F) : kcore F :=
  MkCore (cproc c) (ptable c) (cxj c) (qxj c) (pstat_var c) x (nextpid c) (ticks c)
    (running_p c) (fs_started c) (cr3 c) (esp0 c) (kpgdir c) (console c) (swtched c) (km c)
    (fs c).
Definition set_nextpid {F} (x : Z) (c : kcore F) : kcore F :=
  MkCore (cproc c) (ptable c) (cxj c) (qxj c) (pstat_var c) (initproc c) x (ticks c)
    (running_p c) (fs_started c) (cr3 c) (esp0 c) (kpgdir c) (console c) (swtched c) (km c)
    (fs c).
Definition set_ticks {F} (x : Z) (c : kcore F) : kcore F :=
  MkCore (cproc c) (ptable c) (cxj c) (qxj c) (pstat_var c) (initproc c) (nextpid c) x
    (running_p c) (fs_started c) (cr3 c) (esp0 c) (kpgdir c) (console c) (swtched c) (km c)
    (fs c).
Definition set_running_p {F} (x : option nat) (c : kcore F) : kcore F :=
  MkCore (cproc c) (ptable c) (cxj c) (qxj c) (pstat_var c) (initproc c) (nextpid c)
    (ticks c) x (fs_started c) (cr3 c) (esp0 c) (kpgdir c) (console c) (swtched c) (km c)
    (fs c).
Definition set_fs_started {F} (x : bool) (c : kcore F) : kcore F :=
  MkCore (cproc c) (ptable c) (cxj c) (qxj c) (pstat_var c) (initproc c) (nextpid c)
    (ticks c) (running_p c) x (cr3 c) (esp0 c) (kpgdir c) (console c) (swtched c) (km c)
    (fs c).
Definition set_cr3 {F} (x : Z) (c : kcore F) : kcore F :=
  MkCore (cproc c) (ptable c) (cxj c) (qxj c) (pstat_var c) (initproc c) (nextpid c)
    (ticks c) (running_p c) (fs_started c) x (esp0 c) (kpgdir c) (console c) (swtched c)
    (km c) (fs c).
Definition set_esp0 {F} (x : Z) (c : kcore F) : kcore F :=
  MkCore (cproc c) (ptable c) (cxj c) (qxj c) (pstat_var c) (initproc c) (nextpid c)
    (ticks c) (running_p c) (fs_started c) (cr3 c) x (kpgdir c) (console c) (swtched c)
    (km c) (fs c).
Definition set_kpgdir {F} (x : Z) (c : kcore F) : kcore F :=
  MkCore (cproc c) (ptable c) (cxj c) (qxj c) (pstat_var c) (initproc c) (nextpid c)
    (ticks c) (running_p c) (fs_started c) (cr3 c) (esp0 c) x (console c) (swtched c) (km c)
    (fs c).
Definition set_console {F} (x : list msg) (c : kcore F) : kcore F :=
  MkCore (cproc c) (ptable c) (cxj c) (qxj c) (pstat_var c) (initproc c) (nextpid c)
    (ticks c) (running_p c) (fs_started c) (cr3 c) (esp0 c) (kpgdir c) x (swtched c) (km c)
    (fs c).
Definition set_swtched {F} (x : list nat) (c : kcore F) : kcore F :=
  MkCore (cproc c) (ptable c) (cxj c) (qxj c) (pstat_var c) (initproc c) (nextpid c)
    (ticks c) (running_p c) (fs_started c) (cr3 c) (esp0 c) (kpgdir c) (console c) x (km c)
    (fs c).
Definition set_km {F} (x : kmem) (c : kcore F) : kcore F :=
  MkCore (cproc c) (ptable c) (cxj c) (qxj c) (pstat_var c) (initproc c) (nextpid c)
    (ticks c) (running_p c) (fs_started c) (cr3 c) (esp0 c) (kpgdir c) (console c)
    (swtched c) x (fs c).
Definition set_fs {F} (x : F) (c : kcore F) : kcore F :=
  MkCore (cproc c) (ptable c) (cxj c) (qxj c) (pstat_var c) (initproc c) (nextpid c)
    (ticks c) (running_p c) (fs_started c) (cr3 c) (esp0 c) (kpgdir c) (console c)
    (swtched c) (km c) x.

Record kst (F : Type) : Type := MkKst { lk : lkst; core : kcore F }.
Arguments MkKst {F}.
Arguments lk {F}.
Arguments core {F}.

(** * Lifting *)

Definition on_lk {F A} (c : M lkst A) : M (kst F) A := λ s,
  match c (lk s) with
  | Ret (a, l) => Ret (a, MkKst l (core s))
  | Panic m => Panic m
  | Undef => Undef
  | OutOfFuel => OutOfFuel
  end.

Definition on_core {F A} (c : M (kcore F) A) : M (kst F) A := λ s,
  match c (core s) with
  | Ret (a, k) => Ret (a, MkKst (lk s) k)
  | Panic m => Panic m
  | Undef => Undef
  | OutOfFuel => OutOfFuel
  end.

Definition on_km {F A} (c : M kmem A) : M (kcore F) A := λ k,
  match c (km k) with
  | Ret (a, m) => Ret (a, set_km m k)
  | Panic m => Panic m
  | Undef => Undef
  | OutOfFuel => OutOfFuel
  end.

(** * Array accesses

    C arrays do not check their index; an access outside is undefined. *)

Definition aget {A} (l : list A) (i : Z) : option A :=
  if i <? 0 then None else l !! Z.to_nat i.

Definition aset {A} (l : list A) (i : Z) (v : A) : option (list A) :=
  if (0 <=? i) && (i <? Z.of_nat (length l)) then Some (<[Z.to_nat i := v]> l) else None.

(** [ptable.proc[i]] and an assignment to one of its fields. *)
Definition getp {F} (i : nat) : M (kcore F) proc :=
  c <- get ;; of_option (ptable c !! i).

Definition updp {F} (i : nat) (f : proc → proc) : M (kcore F) unit :=
  p <- getp i ;; modify (λ c, set_ptable (<[i := f p]> (ptable c)) c).

(** A field of pstat_var, [pstat_var.f[i] = v]. *)
Definition ps_set {F} (g : proc_stat → list Z) (s : list Z → proc_stat → proc_stat)
    (i v : Z) : M (kcore F) unit :=
  c <- get ;;
  l <- of_option (aset (g (pstat_var c)) i v) ;;
  put (set_pstat_var (s l (pstat_var c)) c).

Definition ps_get {F} (g : proc_stat → list Z) (i : Z) : M (kcore F) Z :=
  c <- get ;; of_option (aget (g (pstat_var c)) i).

(** [pstat_var.ticks[i][j] = v] *)
Definition ps_set_ticks {F} (i j v : Z) : M (kcore F) unit :=
  c <- get ;;
  row <- of_option (aget (ps_ticks (pstat_var c)) i) ;;
  row' <- of_option (aset row j v) ;;
  rows <- of_option (aset (ps_ticks (pstat_var c)) i row') ;;
  put (set_pstat_var (set_ps_ticks rows (pstat_var c)) c).

(** [cxj[t]], [cxj[t] = v], [qxj[t][j]] and [qxj[t][j] = p]. *)
Definition get_cxj {F} (t : Z) : M (kcore F) Z := c <- get ;; of_option (aget (cxj c) t).
Definition put_cxj {F} (t v : Z) : M (kcore F) unit :=
  c <- get ;; l <- of_option (aset (cxj c) t v) ;; put (set_cxj l c).
Definition get_qxj {F} (t j : Z) : M (kcore F) (option nat) :=
  c <- get ;; row <- of_option (aget (qxj c) t) ;; of_option (aget row j).
Definition put_qxj {F} (t j : Z) (p : option nat) : M (kcore F) unit :=
  c <- get ;;
  row <- of_option (aget (qxj c) t) ;;
  row' <- of_option (aset row j p) ;;
  rows <- of_option (aset (qxj c) t row') ;;
  put (set_qxj rows c).

(** [for(i = ...; i < ...; i++) body], [n] iterations from [i]; the body
    ends the loop by returning [Some]. *)
Fixpoint for_loop {St A} (n i : nat) (body : nat → M St (option A)) : M St (option A) :=
  match n with
  | O => ret None
  | S n' =>
      r <- body i ;;
      match r with
      | Some a => ret (Some a)
      | None => for_loop n' (S i) body
      end
  end.

(** [for(p = ptable.proc; p < &ptable.proc[NPROC]; p++) body] *)
Definition for_procs {St A} (body : nat → M St (option A)) : M St (option A) :=
  for_loop 64 0 body.

(** * What processes ask of the file system

    The calls can sleep, and other processes then run, so they act on the
    whole state. *)
Class FileOps (F : Type) : Type := {
  filedup : Z → M (kst F) Z;
  fileclose : Z → M (kst F) unit;
  idup : Z → M (kst F) Z;
  iput : Z → M (kst F) unit;
  begin_op : M (kst F) unit;
  end_op : M (kst F) unit;
  namei : list Z → M (kst F) Z;
  iinit : Z → M (kst F) unit;
  initlog : Z → M (kst F) unit
}.
