(* ===== verification/Proc.v ===== *)
(** Process management, proc.c without the schedulers.

    Every function is the whole C function; the parts that run under
    ptable.lock are definitions of their own over [kcore], so that they can
    also be taken as the atomic steps of the machine.  [me] is the CPU,
    [trapret] and [forkret_addr] are code addresses, [initcode] and
    [initcode_size] the linker symbols of the embedded first program.
    [away] is what happens between a swtch to the scheduler and the
    process's next turn. *)

From S2P Require Import Prelude Params Cstring Kalloc Vm Spinlock ProcData.

(** * proc.c, critical sections *)

Section cores.
Context {F : Type}.

(** The first UNUSED slot. *)
Definition find_unused : M (kcore F) (option nat) :=
  for_procs (λ i,
    p <- getp i ;;
    if decide (state p = UNUSED) then ret (Some i) else ret None).

(** The bookkeeping of allocproc, with [p] the slot, whose [pid] is read
    through the pointer. *)
Definition mlfq_enter (i : nat) : M (kcore F) unit :=
  n <- get_cxj 0 ;; put_cxj 0 (n + 1) ;;;
  n <- get_cxj 0 ;; put_qxj 0 n (Some i).

Definition pstat_ticks_reset (i : nat) : M (kcore F) unit :=
  p <- getp i ;;
  ps_set_ticks (pid p) 0 0 ;;; ps_set_ticks (pid p) 1 0 ;;;
  ps_set_ticks (pid p) 2 0 ;;; ps_set_ticks (pid p) 3 0 ;;;
  ps_set ps_pid set_ps_pid (pid p) (pid p) ;;;
  ps_set ps_current_queue set_ps_current_queue (pid p) 0 ;;;
  t <- gets ticks ;;
  ps_set ps_runtime set_ps_runtime (pid p) t.

(** allocproc when the loop ran off the table: [p] is the pointer past it. *)
Definition alloc_none : M (kcore F) unit :=
  mlfq_enter 64 ;;;
  p <- getp 64 ;;
  ps_set ps_inuse set_ps_inuse (pid p) 1 ;;;
  pstat_ticks_reset 64.

Definition alloc_found (i : nat) : M (kcore F) unit :=
  updp i (set_state EMBRYO) ;;;
  updp i (set_priority 60) ;;;
  n <- gets nextpid ;;
  modify (set_nextpid (n + 1)) ;;;
  updp i (set_pid n) ;;;
  p <- getp i ;;
  ps_set ps_inuse set_ps_inuse (pid p) 1 ;;;
  mlfq_enter i ;;;
  pstat_ticks_reset i ;;;
  t <- gets ticks ;;
  updp i (set_ctime t) ;;;
  updp i (set_rtime 0).

(** [for p: if(p->state == SLEEPING && p->chan == chan) p->state = RUNNABLE;] *)
Definition wakeup1_proc (ch : channel) (p : proc) : proc :=
  if decide (state p = SLEEPING ∧ chan p = ch) then set_state RUNNABLE p else p.

Definition wakeup1 (ch : channel) : M (kcore F) unit :=
  modify (λ c, set_ptable (wakeup1_proc ch <$> ptable c) c).

(** exit: pass abandoned children to init. *)
Definition reparent (cur : nat) : M (kcore F) (option unit) :=
  for_procs (λ i,
    p <- getp i ;;
    if decide (parent p = Some cur) then
      init <- gets initproc ;;
      updp i (set_parent init) ;;;
      if decide (state p = ZOMBIE) then wakeup1 (chan_of init) ;;; ret None
      else ret None
    else ret None).

Definition exit_core (cur : nat) : M (kcore F) unit :=
  p <- getp cur ;;
  wakeup1 (chan_of (parent p)) ;;;
  reparent cur ;;;
  updp cur (set_state ZOMBIE).

(** wait: free the zombie child [i]; its pid, and its times before the
    reset. *)
Definition reap (kend : Z) (i : nat) : M (kcore F) (Z * Z * Z) :=
  p <- getp i ;;
  let pid0 := pid p in
  on_km (kfree kend (kstack p)) ;;;
  updp i (set_kstack 0) ;;;
  on_km (freevm kend (pgdir p)) ;;;
  updp i (set_pid 0) ;;;
  updp i (set_parent None) ;;;
  updp i (λ q, set_name (<[0%nat := 0]> (name q)) q) ;;;
  updp i (set_killed 0) ;;;
  updp i (set_state UNUSED) ;;;
  q <- getp i ;;
  let wtime := s32 (etime q - ctime q - rtime q) in
  let rtime0 := rtime q in
  updp i (set_etime 0) ;;;
  updp i (set_ctime 0) ;;;
  updp i (set_rtime 0) ;;;
  ret (pid0, wtime, rtime0).

(** One scan of the table: the child that was reaped, or whether there are
    children at all. *)
Fixpoint wait_scan (kend : Z) (cur n i : nat) (havekids : bool)
    : M (kcore F) (Z * Z * Z + bool) :=
  match n with
  | O => ret (inr havekids)
  | S n' =>
      p <- getp i ;;
      if decide (parent p ≠ Some cur) then wait_scan kend cur n' (S i) havekids
      else if decide (state p = ZOMBIE) then r <- reap kend i ;; ret (inl r)
      else wait_scan kend cur n' (S i) true
  end.

(** sleep, between taking ptable.lock and sched. *)
Definition sleep_core (cur : nat) (ch : channel) : M (kcore F) unit :=
  updp cur (set_chan ch) ;;; updp cur (set_state SLEEPING).

Definition kill_core (pid0 : Z) : M (kcore F) Z :=
  r <- for_procs (λ i,
    p <- getp i ;;
    if pid p =? pid0 then
      updp i (set_killed 1) ;;;
      (if decide (state p = SLEEPING) then updp i (set_state RUNNABLE) else ret tt) ;;;
      ret (Some 0)
    else ret None) ;;
  ret (default (-1) r).

Definition chprty_core (pid0 prio : Z) : M (kcore F) (option unit) :=
  for_procs (λ i,
    p <- getp i ;;
    if pid p =? pid0 then updp i (set_priority prio) ;;; ret (Some tt) else ret None).

(** Prints go to [console], latest first. *)
Definition print (m : msg) : M (kcore F) unit := modify (λ c, set_console (m :: console c) c).

Definition cps_core : M (kcore F) (option unit) :=
  print MCpsHead ;;;
  for_procs (λ i,
    p <- getp i ;;
    (if decide (state p = SLEEPING ∨ state p = RUNNING ∨ state p = RUNNABLE) then
       ppid <- (match parent p with
                | Some j => q <- getp j ;; ret (pid q)
                | None => ret 0
                end) ;;
       print (MCpsRow (name p) (pid p) ppid (state p) (ctime p))
     else ret tt) ;;;
    ret None).

Definition updatestatistics_proc (p : proc) : proc :=
  if decide (state p = RUNNING) then set_rtime (rtime p + 1) p else p.

Definition updatestatistics_core : M (kcore F) unit :=
  modify (λ c, set_ptable (updatestatistics_proc <$> ptable c) c).

End cores.

(** * proc.c *)

Section proc_code.
Context {F : Type} {FO : FileOps F}.
Context (me : nat) (kend kdata trapret forkret_addr initcode initcode_size : Z).
Context (away : M (kst F) unit).

Definition acquire_pt : M (kst F) unit := on_lk (acquire me).
Definition release_pt : M (kst F) unit := on_lk (release me).

Definition pinit : M (kst F) unit := on_lk initlock.

(** mycpu panics with interrupts on; pushcli has turned them off. *)
Definition myproc : M (kst F) (option nat) :=
  on_lk pushcli ;;;
  p <- on_core (gets cproc) ;;
  on_lk popcli ;;;
  ret p.

(** [struct proc *curproc = myproc();] where the code uses it as non-null. *)
Definition curproc : M (kst F) nat := p <- myproc ;; of_option p.

Definition allocproc : M (kst F) (option nat) :=
  acquire_pt ;;;
  r <- on_core find_unused ;;
  match r with
  | None => on_core alloc_none ;;; release_pt ;;; ret None
  | Some i =>
      on_core (alloc_found i) ;;;
      release_pt ;;;
      k <- on_core (on_km kalloc) ;;
      on_core (updp i (set_kstack k)) ;;;
      if k =? 0 then on_core (updp i (set_state UNUSED)) ;;; ret None
      else
        let sp := k + KSTACKSIZE - 76 in       (* sizeof(struct trapframe) *)
        on_core (updp i (set_tf sp)) ;;;
        let sp := sp - 4 in
        on_core (on_km (store (st32 sp trapret))) ;;;
        let sp := sp - 20 in                   (* sizeof(struct context) *)
        on_core (updp i (set_context sp)) ;;;
        on_core (on_km (store (memset sp 0 20))) ;;;
        on_core (on_km (store (st32 (sp + 16) forkret_addr))) ;;;
        ret (Some i)
  end.

(** vm.c: switchuvm loads the task segment and the page table register. *)
Definition switchuvm (i : nat) : M (kst F) unit :=
  p <- on_core (getp i) ;;
  if kstack p =? 0 then panic "switchuvm: no kstack"
  else if pgdir p =? 0 then panic "switchuvm: no pgdir"
  else
    on_lk pushcli ;;;
    on_core (modify (set_esp0 (kstack p + KSTACKSIZE))) ;;;
    on_core (modify (set_cr3 (V2P (pgdir p)))) ;;;
    on_lk popcli.

Definition switchkvm : M (kst F) unit :=
  on_core (modify (λ c, set_cr3 (V2P (kpgdir c)) c)).

Definition kvmalloc : M (kst F) unit :=
  d <- on_core (on_km (setupkvm kend kdata)) ;;
  on_core (modify (set_kpgdir d)) ;;;
  switchkvm.

(** A 16-bit store. *)
Definition st16 (a v : Z) (m : mem) : mem := st8 (a + 1) (Z.shiftr v 8) (st8 a v m).

(** safestrcpy between two 16-byte name fields. *)
Definition name_copy (dst src : list Z) : list Z :=
  bytes_at (safestrcpy 0 16 16
    (λ x, if x <? 16 then default 0 (dst !! Z.to_nat x)
          else default 0 (src !! Z.to_nat (x - 16)))) 0 16.

Definition initcode_name : list Z := [105; 110; 105; 116; 99; 111; 100; 101; 0].

Definition userinit : M (kst F) unit :=
  o <- allocproc ;;
  on_core (modify (set_initproc o)) ;;;
  i <- of_option o ;;
  d <- on_core (on_km (setupkvm kend kdata)) ;;
  on_core (updp i (set_pgdir d)) ;;;
  if d =? 0 then panic "userinit: out of memory?"
  else
    on_core (on_km (inituvm d initcode initcode_size)) ;;;
    on_core (updp i (set_sz PGSIZE)) ;;;
    t <- on_core (gets ticks) ;;
    on_core (updp i (set_ctime t)) ;;;
    p <- on_core (getp i) ;;
    on_core (on_km (store (memset (tf p) 0 76))) ;;;
    on_core (on_km (store (st16 (tf p + 60) (Z.lor (Z.shiftl 3 3) 3)))) ;;;   (* cs *)
    on_core (on_km (store (st16 (tf p + 44) (Z.lor (Z.shiftl 4 3) 3)))) ;;;   (* ds *)
    on_core (on_km (store (st16 (tf p + 40) (Z.lor (Z.shiftl 4 3) 3)))) ;;;   (* es *)
    on_core (on_km (store (st16 (tf p + 72) (Z.lor (Z.shiftl 4 3) 3)))) ;;;   (* ss *)
    on_core (on_km (store (st32 (tf p + 64) 512))) ;;;                        (* eflags *)
    on_core (on_km (store (st32 (tf p + 68) PGSIZE))) ;;;                     (* esp *)
    on_core (on_km (store (st32 (tf p + 56) 0))) ;;;                          (* eip *)
    on_core (updp i (λ q, set_name (name_copy (name q) initcode_name) q)) ;;;
    w <- namei [47] ;;
    on_core (updp i (set_cwd w)) ;;;
    acquire_pt ;;;
    on_core (updp i (set_state RUNNABLE)) ;;;
    release_pt.

Definition growproc (n : Z) : M (kst F) Z :=
  cur <- curproc ;;
  p <- on_core (getp cur) ;;
  r <- (if 0 <? n then
          r <- on_core (on_km (allocuvm kend (pgdir p) (sz p) (u32 (sz p + n)))) ;;
          ret (if r =? 0 then None else Some r)
        else if n <? 0 then
          r <- on_core (on_km (deallocuvm kend (pgdir p) (sz p) (u32 (sz p + n)))) ;;
          ret (if r =? 0 then None else Some r)
        else ret (Some (sz p))) ;;
  match r with
  | None => ret (-1)
  | Some sz' =>
      on_core (updp cur (set_sz sz')) ;;;
      switchuvm cur ;;;
      ret 0
  end.

(** fork: duplicate the open files of [cur] into [np]. *)
Definition dup_files (cur np : nat) : M (kst F) (option unit) :=
  for_loop 16 0 (λ fd,
    p <- on_core (getp cur) ;;
    f <- of_option (ofile p !! fd) ;;
    if f =? 0 then ret None
    else
      g <- filedup f ;;
      on_core (updp np (λ q, set_ofile (<[fd := g]> (ofile q)) q)) ;;;
      ret None).

Definition fork : M (kst F) Z :=
  cur <- curproc ;;
  o <- allocproc ;;
  match o with
  | None => ret (-1)
  | Some np =>
      p <- on_core (getp cur) ;;
      d <- on_core (on_km (copyuvm kend kdata (pgdir p) (sz p))) ;;
      on_core (updp np (set_pgdir d)) ;;;
      if d =? 0 then
        q <- on_core (getp np) ;;
        on_core (on_km (kfree kend (kstack q))) ;;;
        on_core (updp np (set_kstack 0)) ;;;
        on_core (updp np (set_state UNUSED)) ;;;
        ret (-1)
      else
        on_core (updp np (set_sz (sz p))) ;;;
        on_core (updp np (set_parent (Some cur))) ;;;
        q <- on_core (getp np) ;;
        on_core (on_km (store (memmove (tf q) (tf p) 76))) ;;;
        on_core (on_km (store (st32 (tf q + 28) 0))) ;;;      (* eax *)
        dup_files cur np ;;;
        p <- on_core (getp cur) ;;
        w <- idup (cwd p) ;;
        on_core (updp np (set_cwd w)) ;;;
        p <- on_core (getp cur) ;;
        on_core (updp np (λ q, set_name (name_copy (name q) (name p)) q)) ;;;
        q <- on_core (getp np) ;;
        acquire_pt ;;;
        on_core (updp np (set_state RUNNABLE)) ;;;
        release_pt ;;;
        ret (pid q)
  end.

(** sched saves intena across the switch. *)
Definition sched : M (kst F) unit :=
  p <- curproc ;;
  h <- on_lk (holding me) ;;
  if negb h then panic "sched ptable.lock"
  else
    c <- on_lk (gets lk_cpu) ;;
    if negb (ncli c =? 1) then panic "sched locks"
    else
      q <- on_core (getp p) ;;
      if decide (state q = RUNNING) then panic "sched running"
      else if eflags_if c then panic "sched interruptible"
      else
        away ;;;
        on_lk (modify (λ l, set_cpu (MkCpu (ncli (lk_cpu l)) (intena c) (eflags_if (lk_cpu l))) l)).

Definition yield : M (kst F) unit :=
  acquire_pt ;;;
  cur <- curproc ;;
  on_core (updp cur (set_state RUNNABLE)) ;;;
  sched ;;;
  release_pt.

Definition forkret : M (kst F) unit :=
  release_pt ;;;
  started <- on_core (gets fs_started) ;;
  if (started : bool) then ret tt
  else
    on_core (modify (set_fs_started true)) ;;;
    iinit ROOTDEV ;;;
    initlog ROOTDEV.

(** The lock passed to sleep: none, ptable.lock, or another lock with the
    operations that take it and give it back. *)
Inductive lockref : Type :=
| LkNull
| LkPtable
| LkOther (acq rel : M (kst F) unit).

Definition sleep (ch : channel) (lk0 : lockref) : M (kst F) unit :=
  o <- myproc ;;
  match o, lk0 with
  | None, _ => panic "sleep"
  | Some _, LkNull => panic "sleep without lk"
  | Some p, _ =>
      (match lk0 with LkOther acq rel => acquire_pt ;;; rel | _ => ret tt end) ;;;
      on_core (sleep_core p ch) ;;;
      sched ;;;
      on_core (updp p (set_chan (ChAddr 0))) ;;;
      match lk0 with LkOther acq rel => release_pt ;;; acq | _ => ret tt end
  end.

Definition wakeup (ch : channel) : M (kst F) unit :=
  acquire_pt ;;; on_core (wakeup1 ch) ;;; release_pt.

(** exit: close all open files. *)
Definition close_files (cur : nat) : M (kst F) (option unit) :=
  for_loop 16 0 (λ fd,
    p <- on_core (getp cur) ;;
    f <- of_option (ofile p !! fd) ;;
    if f =? 0 then ret None
    else
      fileclose f ;;;
      on_core (updp cur (λ q, set_ofile (<[fd := 0]> (ofile q)) q)) ;;;
      ret None).

Definition exit : M (kst F) unit :=
  cur <- curproc ;;
  init <- on_core (gets initproc) ;;
  if decide (Some cur = init) then panic "init exiting"
  else
    close_files cur ;;;
    begin_op ;;;
    p <- on_core (getp cur) ;;
    iput (cwd p) ;;;
    end_op ;;;
    on_core (updp cur (set_cwd 0)) ;;;
    t <- on_core (gets ticks) ;;
    on_core (updp cur (set_etime t)) ;;;
    acquire_pt ;;;
    on_core (exit_core cur) ;;;
    sched ;;;
    panic "zombie exit".

(** The loop of wait and waitx; each turn scans the table and sleeps. *)
Fixpoint wait_loop (fuel : nat) (cur : nat) : M (kst F) (option (Z * Z * Z)) :=
  match fuel with
  | O => out_of_fuel
  | S f =>
      r <- on_core (wait_scan kend cur 64 0 false) ;;
      match r with
      | inl x => release_pt ;;; ret (Some x)
      | inr havekids =>
          p <- on_core (getp cur) ;;
          if negb havekids || negb (killed p =? 0) then release_pt ;;; ret None
          else
            sleep (ChProc cur) LkPtable ;;;
            wait_loop f cur
      end
  end.

Definition wait (fuel : nat) : M (kst F) Z :=
  cur <- curproc ;;
  acquire_pt ;;;
  r <- wait_loop fuel cur ;;
  ret (match r with Some (pid0, _, _) => pid0 | None => -1 end).

(** waitx also stores the child's times through its two pointers. *)
Definition waitx (fuel : nat) : M (kst F) (Z * option (Z * Z)) :=
  cur <- curproc ;;
  acquire_pt ;;;
  r <- wait_loop fuel cur ;;
  ret (match r with
       | Some (pid0, wtime, rtime0) => (pid0, Some (wtime, rtime0))
       | None => (-1, None)
       end).

Definition kill (pid0 : Z) : M (kst F) Z :=
  acquire_pt ;;;
  r <- on_core (kill_core pid0) ;;
  release_pt ;;;
  ret r.

Definition chprty (pid0 prio : Z) : M (kst F) Z :=
  acquire_pt ;;;
  on_core (chprty_core pid0 prio) ;;;
  release_pt ;;;
  ret pid0.

Definition sti : M lkst unit :=
  modify (λ l, set_cpu (MkCpu (ncli (lk_cpu l)) (intena (lk_cpu l)) true) l).

Definition cps : M (kst F) Z :=
  on_lk sti ;;;
  acquire_pt ;;;
  on_core cps_core ;;;
  release_pt ;;;
  ret 23.

Definition updatestatistics : M (kst F) unit :=
  acquire_pt ;;; on_core updatestatistics_core ;;; release_pt.

End proc_code.

(** getpinfo's copy loop into the caller's struct: [ok] tells whether argptr
    accepted the pointer.  Column 4 of ticks is not copied. *)
Definition copy_prefix {A} (n : nat) (src dst : list A) : list A := take n src ++ drop n dst.

Definition getpinfo {F} (ok : bool) (dst : proc_stat) : M (kcore F) (Z * proc_stat) :=
  if negb ok then ret (-1, dst)
  else
    v <- gets pstat_var ;;
    ret (0, MkPstat (copy_prefix 64 (ps_inuse v) (ps_inuse dst))
              (copy_prefix 64 (ps_pid v) (ps_pid dst))
              (copy_prefix 64 (ps_runtime v) (ps_runtime dst))
              (copy_prefix 64 (ps_num_run v) (ps_num_run dst))
              (copy_prefix 64 (ps_current_queue v) (ps_current_queue dst))
              (zip_with (copy_prefix 4) (ps_ticks v) (ps_ticks dst))).
