(* ===== verification/ProcInv.v ===== *)
(** The process table: what its critical sections do, the invariant that
    every one of them keeps, and that no exit is missed by a waiting parent. *)

From S2P Require Import Prelude Params Cstring Kalloc Vm Spinlock ProcData Proc.

(** * Running the critical sections *)

Section runs.
Context {F : Type}.
Implicit Types (c : kcore F) (p q : proc).

Lemma getp_run i c p : ptable c !! i = Some p → getp i c = Ret (p, c).
Proof. intros H. unfold getp, get, bind. by rewrite H. Qed.

Lemma getp_inv i c p c' : getp i c = Ret (p, c') → ptable c !! i = Some p ∧ c' = c.
Proof. unfold getp, get, bind. by intros [? ->]%of_option_inv. Qed.

Lemma updp_run i f c p :
  ptable c !! i = Some p → updp i f c = Ret (tt, set_ptable (<[i := f p]> (ptable c)) c).
Proof. intros H. unfold updp. by erewrite bind_ret_eval by by apply getp_run. Qed.

Lemma updp_inv i f c c' :
  updp i f c = Ret (tt, c') →
  ∃ p, ptable c !! i = Some p ∧ c' = set_ptable (<[i := f p]> (ptable c)) c.
Proof.
  unfold updp. intros H. apply bind_inv in H as (p & c1 & H1 & H2).
  apply getp_inv in H1 as [? ->]. exists p. unfold modify in H2. by injection H2 as <-.
Qed.

(** Consecutive assignments to one entry. *)
Lemma updp_updp i f g c :
  (updp i f ;;; updp i g) c = updp i (g ∘ f) c.
Proof.
  destruct (ptable c !! i) as [p|] eqn:E.
  - erewrite bind_ret_eval by by apply updp_run.
    rewrite (updp_run i g _ (f p)), (updp_run i (g ∘ f) c p); [|done|].
    + simpl. unfold set_ptable. simpl. by rewrite list_insert_insert_eq.
    + simpl. apply list_lookup_insert_eq. by eapply lookup_lt_Some.
  - unfold updp, getp, get, bind. by rewrite E.
Qed.

Lemma ptable_set_ptable t c : ptable (set_ptable t c) = t.
Proof. done. Qed.

(** A loop over the table whose body never leaves it. *)
Lemma for_loop_table {A} (body : nat → M (kcore F) (option A)) (g : nat → list proc → list proc)
    n : ∀ i c,
  (∀ k t, (k < length (ptable c))%nat → length t = length (ptable c) →
     body k (set_ptable t c) = Ret (None, set_ptable (g k t) c) ∧ length (g k t) = length t) →
  (i + n ≤ length (ptable c))%nat →
  for_loop n i body c
  = Ret (None, set_ptable (fold_left (λ t k, g k t) (seq i n) (ptable c)) c).
Proof.
  intros i c Hb. assert (∀ n i t, length t = length (ptable c) → (i + n ≤ length (ptable c))%nat →
    for_loop n i body (set_ptable t c)
    = Ret (None, set_ptable (fold_left (λ t k, g k t) (seq i n) t) c)) as H.
  { clear n i. induction n as [|n IH]; intros i t Ht Hn; [done|]. cbn [for_loop seq fold_left].
    destruct (Hb i t) as [H1 H2]; [lia|done|].
    rewrite (bind_ret_eval _ _ _ None (set_ptable (g i t) c)) by done.
    apply IH; [congruence|lia]. }
  intros Hn. rewrite <- (H n i (ptable c)) by done. by destruct c.
Qed.

(** * wakeup1, exit *)

Definition wake_t (ch : channel) (t : list proc) : list proc := wakeup1_proc ch <$> t.

Definition adopt_proc (cur : nat) (init : option nat) (p : proc) : proc :=
  if decide (parent p = Some cur) then set_parent init p else p.

Definition zombie_child (cur : nat) (p : proc) : bool :=
  bool_decide (parent p = Some cur) && bool_decide (state p = ZOMBIE).

(** One turn of reparent. *)
Definition reparent_step (cur : nat) (init : option nat) (i : nat) (t : list proc) : list proc :=
  match t !! i with
  | Some p =>
      let t1 := <[i := adopt_proc cur init p]> t in
      if zombie_child cur p then wake_t (chan_of init) t1 else t1
  | None => t
  end.

Lemma wake_t_lookup ch t i : wake_t ch t !! i = wakeup1_proc ch <$> t !! i.
Proof. unfold wake_t. by rewrite list_lookup_fmap. Qed.

Lemma reparent_step_length cur init i t : length (reparent_step cur init i t) = length t.
Proof.
  unfold reparent_step. destruct (t !! i); [|done].
  destruct (zombie_child _ _); unfold wake_t; by rewrite ?length_fmap, length_insert.
Qed.

Lemma reparent_body_run cur i c p :
  ptable c !! i = Some p →
  (q <- getp i ;;
   if decide (parent q = Some cur) then
     init <- gets initproc ;;
     updp i (set_parent init) ;;;
     if decide (state q = ZOMBIE) then wakeup1 (chan_of init) ;;; ret (@None unit) else ret None
   else ret None) c
  = Ret (None, set_ptable (reparent_step cur (initproc c) i (ptable c)) c).
Proof.
  intros Hp. erewrite bind_ret_eval by by apply getp_run.
  unfold reparent_step, adopt_proc, zombie_child. rewrite Hp.
  destruct (decide (parent p = Some cur)) as [E|E].
  - rewrite bool_decide_true by done. unfold gets at 1. unfold bind at 1.
    erewrite bind_ret_eval by by apply updp_run.
    destruct (decide (state p = ZOMBIE)).
    + by rewrite bool_decide_true by done.
    + by rewrite bool_decide_false by done.
  - rewrite (bool_decide_false (parent p = Some cur)) by done. simpl.
    rewrite list_insert_id by done. by destruct c.
Qed.

Definition reparent_t (cur : nat) (init : option nat) (n : nat) (t : list proc) : list proc :=
  fold_left (λ t k, reparent_step cur init k t) (seq 0 n) t.

#[local] Arguments reparent_t : simpl never.

Lemma reparent_t_S cur init n t :
  reparent_t cur init (S n) t = reparent_step cur init n (reparent_t cur init n t).
Proof. unfold reparent_t. rewrite seq_S, fold_left_app. done. Qed.

Lemma reparent_t_length cur init n t : length (reparent_t cur init n t) = length t.
Proof.
  induction n as [|n IH]; [done|]. by rewrite reparent_t_S, reparent_step_length.
Qed.

Lemma reparent_run cur c :
  length (ptable c) = 64%nat →
  reparent cur c = Ret (None, set_ptable (reparent_t cur (initproc c) 64 (ptable c)) c).
Proof.
  intros Hlen. unfold reparent, for_procs, reparent_t.
  rewrite (for_loop_table _ (reparent_step cur (initproc c))); [done| |by rewrite Hlen].
  intros k t Hk Ht. split; [|apply reparent_step_length].
  destruct (lookup_lt_is_Some_2 t k) as [p Hp]; [lia|].
  by rewrite (reparent_body_run cur k (set_ptable t c) p).
Qed.
Lemma wake_adopt ch cur init p :
  wakeup1_proc ch (adopt_proc cur init p) = adopt_proc cur init (wakeup1_proc ch p).
Proof.
  unfold wakeup1_proc, adopt_proc.
  destruct (decide (parent p = Some cur)) as [E|E], (decide (state p = SLEEPING ∧ chan p = ch)) as [G|G];
    simpl; rewrite ?(decide_True _ _ G), ?(decide_False _ _ G), ?(decide_True _ _ E), ?(decide_False _ _ E);
    done.
Qed.

Lemma wake_idem ch p : wakeup1_proc ch (wakeup1_proc ch p) = wakeup1_proc ch p.
Proof.
  unfold wakeup1_proc at 2 3. destruct (decide _) as [G|G]; unfold wakeup1_proc.
  - rewrite decide_False; [done|]. by intros [H _].
  - by rewrite decide_False.
Qed.

Lemma wake_zombie ch cur p : zombie_child cur (wakeup1_proc ch p) = zombie_child cur p.
Proof.
  unfold zombie_child, wakeup1_proc. destruct (decide _) as [[G _]|]; [|done]. simpl.
  by rewrite G.
Qed.

Lemma existsb_wake cur ch t :
  existsb (zombie_child cur) (wake_t ch t) = existsb (zombie_child cur) t.
Proof.
  unfold wake_t. induction t as [|q t IH]; [done|].
  rewrite fmap_cons. cbn [existsb]. by rewrite wake_zombie, IH.
Qed.

(** What exit does to the entries [0, n). *)
Definition wake_if (b : bool) (ch : channel) (p : proc) : proc :=
  if b then wakeup1_proc ch p else p.

Lemma reparent_t_lookup cur init n t j :
  reparent_t cur init n t !! j =
    (λ p, wake_if (existsb (zombie_child cur) (take n t)) (chan_of init)
            (if (j <? n)%nat then adopt_proc cur init p else p)) <$> t !! j.
Proof.
  revert j. induction n as [|n IH]; intros j.
  { change (reparent_t cur init 0 t) with t. simpl.
    destruct (Nat.ltb_spec j 0); [lia|]. by destruct (t !! j). }
  rewrite reparent_t_S. unfold reparent_step. rewrite IH.
  destruct (Nat.ltb_spec n n) as [|_]; [lia|].
  destruct (t !! n) as [p|] eqn:En; simpl.
  - rewrite (take_S_r _ _ p) by done. rewrite existsb_app. simpl. rewrite orb_false_r.
    set (b := existsb _ (take n t)).
    assert (zombie_child cur (wake_if b (chan_of init) p) = zombie_child cur p) as ->
      by (destruct b; [apply wake_zombie|done]).
    assert (adopt_proc cur init (wake_if b (chan_of init) p)
            = wake_if b (chan_of init) (adopt_proc cur init p)) as ->
      by (destruct b; [by rewrite <- wake_adopt|done]).
    destruct (decide (j = n)) as [->|Hne].
    + destruct (Nat.ltb_spec n (S n)) as [_|]; [|lia]. rewrite En.
      assert (n < length (reparent_t cur init n t))%nat
        by (rewrite reparent_t_length; by eapply lookup_lt_Some).
      destruct (zombie_child cur p); rewrite ?wake_t_lookup, list_lookup_insert_eq by done;
        destruct b; simpl; rewrite ?wake_idem; done.
    + assert ((j <? S n)%nat = (j <? n)%nat) as ->
        by (destruct (Nat.ltb_spec j (S n)), (Nat.ltb_spec j n); lia).
      destruct (zombie_child cur p); rewrite ?wake_t_lookup, list_lookup_insert_ne, IH by done;
        fold b; destruct (t !! j), b; simpl; rewrite ?wake_idem; done.
  - rewrite IH. assert (length t ≤ n)%nat by (by apply lookup_ge_None).
    rewrite !take_ge by lia. destruct (t !! j) eqn:Ej; [|done].
    apply lookup_lt_Some in Ej.
    destruct (Nat.ltb_spec j n), (Nat.ltb_spec j (S n)); done || lia.
Qed.

(** The table after exit's critical section. *)
Definition exit_t (cur : nat) (init : option nat) (t : list proc) : list proc :=
  match t !! cur with
  | None => t
  | Some p =>
      let t1 := reparent_t cur init 64 (wake_t (chan_of (parent p)) t) in
      match t1 !! cur with Some q => <[cur := set_state ZOMBIE q]> t1 | None => t1 end
  end.

Lemma exit_core_run cur c p :
  length (ptable c) = 64%nat → ptable c !! cur = Some p →
  exit_core cur c = Ret (tt, set_ptable (exit_t cur (initproc c) (ptable c)) c).
Proof.
  intros Hlen Hp. unfold exit_core, exit_t. rewrite Hp.
  erewrite bind_ret_eval by by apply getp_run.
  rewrite (bind_ret_eval _ _ _ tt (set_ptable (wake_t (chan_of (parent p)) (ptable c)) c)) by done.
  erewrite bind_ret_eval.
  2: { apply reparent_run. cbn [ptable set_ptable]. unfold wake_t. by rewrite length_fmap. }
  cbn [ptable set_ptable initproc]. set (t1 := reparent_t _ _ _ _).
  destruct (lookup_lt_is_Some_2 t1 cur) as [q Hq].
  { unfold t1, wake_t. rewrite reparent_t_length, length_fmap. by eapply lookup_lt_Some. }
  clearbody t1. rewrite Hq. by erewrite updp_run by exact Hq.
Qed.

Lemma exit_t_lookup cur init t p i :
  length t = 64%nat → t !! cur = Some p →
  exit_t cur init t !! i =
    (λ q, (if decide (i = cur) then set_state ZOMBIE else id)
       (wake_if (existsb (zombie_child cur) t) (chan_of init)
          (adopt_proc cur init (wakeup1_proc (chan_of (parent p)) q)))) <$> t !! i.
Proof.
  intros Hlen Hp. unfold exit_t. rewrite Hp.
  assert (∀ j, reparent_t cur init 64 (wake_t (chan_of (parent p)) t) !! j
    = (λ q, wake_if (existsb (zombie_child cur) t) (chan_of init)
              (adopt_proc cur init (wakeup1_proc (chan_of (parent p)) q))) <$> t !! j) as Hl.
  { intros j. rewrite reparent_t_lookup, wake_t_lookup.
    rewrite take_ge by (unfold wake_t; rewrite length_fmap; lia).
    rewrite existsb_wake.
    destruct (t !! j) eqn:Ej; simpl; [|done].
    apply lookup_lt_Some in Ej. destruct (Nat.ltb_spec j 64); [done|lia]. }
  rewrite Hl, Hp. cbn [fmap option_fmap option_map]. destruct (decide (i = cur)) as [->|Hne].
  - rewrite Hp. apply list_lookup_insert_eq.
    unfold wake_t. rewrite reparent_t_length, length_fmap. by eapply lookup_lt_Some.
  - rewrite list_lookup_insert_ne by done. by rewrite Hl.
Qed.
Lemma exit_t_length cur init t : length (exit_t cur init t) = length t.
Proof.
  unfold exit_t. destruct (t !! cur) as [p|]; [|done]. cbv zeta.
  set (t1 := reparent_t _ _ _ _). assert (length t1 = length t) as Hl
    by (unfold t1, wake_t; by rewrite reparent_t_length, length_fmap).
  clearbody t1. destruct (t1 !! cur); by rewrite ?length_insert.
Qed.

(** * Searches of the table *)

(** The first entry in [i, i + n) that satisfies [P]. *)
Fixpoint first_from (P : proc → bool) (t : list proc) (i n : nat) : option (nat * proc) :=
  match n with
  | O => None
  | S n' =>
      match t !! i with
      | Some p => if P p then Some (i, p) else first_from P t (S i) n'
      | None => None
      end
  end.

Lemma first_from_Some P t n : ∀ i j p,
  first_from P t i n = Some (j, p) →
  t !! j = Some p ∧ P p = true ∧ (i ≤ j < i + n)%nat
  ∧ ∀ k q, (i ≤ k < j)%nat → t !! k = Some q → P q = false.
Proof.
  induction n as [|n IH]; intros i j p; [done|]. cbn [first_from].
  destruct (t !! i) as [q|] eqn:Ei; [|done]. destruct (P q) eqn:EP.
  - intros [= <- <-]. split_and!; done || lia.
  - intros (? & ? & ? & Hk)%IH. split_and!; [done|done|lia|lia|].
    intros k r Hk' Hr. destruct (decide (k = i)) as [->|]; [congruence|].
    apply (Hk k); [lia|done].
Qed.

Lemma first_from_None P t n : ∀ i,
  (i + n ≤ length t)%nat → first_from P t i n = None →
  ∀ k q, (i ≤ k < i + n)%nat → t !! k = Some q → P q = false.
Proof.
  induction n as [|n IH]; intros i Hl H k q Hk Hq; [lia|]. cbn [first_from] in H.
  destruct (lookup_lt_is_Some_2 t i) as [r Hr]; [lia|]. rewrite Hr in H.
  destruct (P r) eqn:EP; [done|].
  destruct (decide (k = i)) as [->|]; [congruence|]. apply (IH (S i)) with k; done || lia.
Qed.

Lemma first_from_intro P t n : ∀ i j p,
  (i ≤ j < i + n)%nat → t !! j = Some p → P p = true →
  (∀ k q, (i ≤ k < j)%nat → t !! k = Some q → P q = false) →
  first_from P t i n = Some (j, p).
Proof.
  induction n as [|n IH]; intros i j p Hj Hp HP Hk; [lia|]. cbn [first_from].
  destruct (decide (j = i)) as [->|Hne]; [by rewrite Hp, HP|].
  destruct (lookup_lt_is_Some_2 t i) as [q Hq]; [apply lookup_lt_Some in Hp; lia|].
  rewrite Hq, (Hk i q) by (done || lia). apply IH; try done; [lia|].
  intros k r Hk' Hr. apply (Hk k r); [lia|done].
Qed.

Lemma for_loop_first {A} (P : proc → bool) (act : nat → proc → M (kcore F) A) n : ∀ i c,
  (i + n ≤ length (ptable c))%nat →
  for_loop n i (λ k, p <- getp k ;; if P p then a <- act k p ;; ret (Some a) else ret None) c
  = match first_from P (ptable c) i n with
    | Some (j, p) => (a <- act j p ;; ret (Some a)) c
    | None => Ret (None, c)
    end.
Proof.
  induction n as [|n IH]; intros i c Hl; [done|]. cbn [for_loop first_from].
  destruct (lookup_lt_is_Some_2 (ptable c) i) as [p Hp]; [lia|]. rewrite Hp.
  destruct (P p) eqn:EP.
  - unfold bind at 1. erewrite bind_ret_eval by by apply getp_run. rewrite EP.
    unfold bind. by destruct (act i p c) as [[a c']| | |].
  - erewrite bind_ret_eval.
    2: { erewrite bind_ret_eval by by apply getp_run. by rewrite EP. }
    apply IH. lia.
Qed.

Lemma for_loop_ext {St A} (b1 b2 : nat → M St (option A)) n : ∀ i s,
  (∀ k t, b1 k t = b2 k t) → for_loop n i b1 s = for_loop n i b2 s.
Proof.
  induction n as [|n IH]; intros i s H; [done|]. cbn [for_loop]. unfold bind.
  rewrite H. destruct (b2 i s) as [[[a|] t]| | |]; auto.
Qed.

Definition table_find (P : proc → bool) (t : list proc) : option (nat * proc) :=
  first_from P t 0 64.
#[local] Arguments table_find : simpl never.

Definition unusedb (p : proc) : bool := bool_decide (state p = UNUSED).

Lemma find_unused_run c :
  length (ptable c) = 64%nat →
  find_unused c = Ret (fst <$> table_find unusedb (ptable c), c).
Proof.
  intros Hl. unfold find_unused, for_procs, table_find.
  rewrite (for_loop_ext _ (λ k, p <- getp k ;;
    if unusedb p then a <- ret k ;; ret (Some a) else ret None)).
  - rewrite (for_loop_first unusedb (λ k _, ret k)) by lia.
    by destruct (first_from _ _ _ _) as [[j p]|].
  - intros k t. unfold unusedb, bind. destruct (getp k t) as [[p c1]| | |]; try done.
    case_decide; [by rewrite bool_decide_true|by rewrite bool_decide_false].
Qed.

(** * kill, chprty *)

Definition killed_proc (p : proc) : proc :=
  let p1 := set_killed 1 p in
  if decide (state p = SLEEPING) then set_state RUNNABLE p1 else p1.

Definition has_pid (n : Z) (p : proc) : bool := pid p =? n.

Lemma kill_core_run n c :
  length (ptable c) = 64%nat →
  kill_core n c =
    match table_find (has_pid n) (ptable c) with
    | Some (i, p) => Ret (0, set_ptable (<[i := killed_proc p]> (ptable c)) c)
    | None => Ret (-1, c)
    end.
Proof.
  intros Hl. unfold kill_core, for_procs, table_find.
  unfold bind at 1. rewrite (for_loop_ext _ (λ k, p <- getp k ;;
    if has_pid n p then
      a <- (updp k (set_killed 1) ;;;
            (if decide (state p = SLEEPING) then updp k (set_state RUNNABLE) else ret tt) ;;;
            ret 0) ;; ret (Some a)
    else ret None)).
  - rewrite (for_loop_first (has_pid n)) by lia.
    destruct (first_from _ _ _ _) as [[j p]|] eqn:E; [|done].
    apply first_from_Some in E as (Hj & _). unfold bind at 1 2.
    rewrite (updp_run _ _ _ p Hj). unfold killed_proc.
    destruct (decide (state p = SLEEPING)); [|done].
    unfold bind. rewrite (updp_run _ _ _ (set_killed 1 p)).
    + simpl. unfold set_ptable. simpl. by rewrite list_insert_insert_eq.
    + apply list_lookup_insert_eq. by eapply lookup_lt_Some.
  - intros k t. unfold has_pid, bind. destruct (getp k t) as [[p c1]| | |]; try done.
    destruct (pid p =? n); [|done].
    destruct (updp k (set_killed 1) c1) as [[? c2]| | |]; try done.
    destruct (decide _); [|done]. by destruct (updp k (set_state RUNNABLE) c2) as [[? ?]| | |].
Qed.

Lemma chprty_core_run n prio c :
  length (ptable c) = 64%nat →
  chprty_core n prio c =
    match table_find (has_pid n) (ptable c) with
    | Some (i, p) => Ret (Some tt, set_ptable (<[i := set_priority prio p]> (ptable c)) c)
    | None => Ret (None, c)
    end.
Proof.
  intros Hl. unfold chprty_core, for_procs, table_find.
  rewrite (for_loop_ext _ (λ k, p <- getp k ;;
    if has_pid n p then a <- updp k (set_priority prio) ;; ret (Some a) else ret None)).
  - rewrite (for_loop_first (has_pid n)) by lia.
    destruct (first_from _ _ _ _) as [[j p]|] eqn:E; [|done].
    apply first_from_Some in E as (Hj & _).
    by erewrite bind_ret_eval by by apply updp_run.
  - intros k t. unfold has_pid, bind. destruct (getp k t) as [[p c1]| | |]; try done.
    destruct (pid p =? n); [|done]. by destruct (updp k _ c1) as [[[] c2]| | |].
Qed.
(** * allocproc *)

Lemma ps_set_inv g st i v c c' :
  ps_set g st i v c = Ret (tt, c') → ∃ x, c' = set_pstat_var x c ∧ 0 ≤ i < Z.of_nat (length (g (pstat_var c))).
Proof.
  unfold ps_set. intros H. mon_inv H. eexists. split; [done|].
  match goal with H : aset _ _ _ = Some _ |- _ => unfold aset in H; zcases_in H end;
    simplify_eq; lia.
Qed.

Lemma ps_set_ticks_inv i j v c c' :
  ps_set_ticks i j v c = Ret (tt, c') → ∃ x, c' = set_pstat_var x c.
Proof. unfold ps_set_ticks. intros H. mon_inv H. by eexists. Qed.

Lemma get_cxj_inv t n c c' : get_cxj t c = Ret (n, c') → c' = c ∧ aget (cxj c) t = Some n.
Proof. unfold get_cxj. intros H. mon_inv H. done. Qed.

Lemma put_cxj_inv t n c c' :
  put_cxj t n c = Ret (tt, c') → ∃ l, c' = set_cxj l c ∧ aset (cxj c) t n = Some l.
Proof. unfold put_cxj. intros H. mon_inv H. eauto. Qed.

Lemma put_qxj_inv t j o c c' : put_qxj t j o c = Ret (tt, c') → ∃ l, c' = set_qxj l c.
Proof. unfold put_qxj. intros H. mon_inv H. eauto. Qed.

(** MLFQ and pstat bookkeeping touches neither the table nor the counters. *)
Definition same_table c c' : Prop :=
  ptable c' = ptable c ∧ initproc c' = initproc c ∧ nextpid c' = nextpid c
  ∧ ticks c' = ticks c ∧ cproc c' = cproc c ∧ km c' = km c ∧ fs c' = fs c.

Lemma same_table_trans c1 c2 c3 : same_table c1 c2 → same_table c2 c3 → same_table c1 c3.
Proof. unfold same_table. intros. intuition congruence. Qed.

Lemma mlfq_enter_inv i c c' : mlfq_enter i c = Ret (tt, c') → same_table c c'.
Proof.
  unfold mlfq_enter. intros H.
  apply bind_inv in H as (n & c1 & [-> _]%get_cxj_inv & H).
  apply bind_inv in H as ([] & c2 & (l & -> & _)%put_cxj_inv & H).
  apply bind_inv in H as (n' & c3 & [-> _]%get_cxj_inv & H).
  by apply put_qxj_inv in H as [l' ->].
Qed.

Lemma pstat_ticks_reset_inv i c c' : pstat_ticks_reset i c = Ret (tt, c') → same_table c c'.
Proof.
  unfold pstat_ticks_reset. intros H.
  apply bind_inv in H as (p & c1 & [_ ->]%getp_inv & H).
  do 4 (let x := fresh in let c2 := fresh "c" in
        apply bind_inv in H as ([] & c2 & [x ->]%ps_set_ticks_inv & H)).
  do 2 (let x := fresh in let c2 := fresh "c" in
        apply bind_inv in H as ([] & c2 & (x & -> & _)%ps_set_inv & H)).
  mon_inv H. by apply ps_set_inv in H as (x & -> & _).
Qed.

(** What allocproc makes of a free slot. *)
Definition fresh_proc (n t : Z) (p : proc) : proc :=
  set_rtime 0 (set_ctime t (set_pid n (set_priority 60 (set_state EMBRYO p)))).

Lemma updp_ins i f q t c c' :
  (i < length t)%nat → updp i f (set_ptable (<[i := q]> t) c) = Ret (tt, c') →
  c' = set_ptable (<[i := f q]> t) c.
Proof.
  intros Hi (p & Ep & ->)%updp_inv. cbn [ptable set_ptable] in *.
  rewrite list_lookup_insert_eq in Ep by done. injection Ep as <-.
  unfold set_ptable; simpl. by rewrite list_insert_insert_eq.
Qed.

Lemma getp_ins i q t c p c' :
  (i < length t)%nat → getp i (set_ptable (<[i := q]> t) c) = Ret (p, c') →
  p = q ∧ c' = set_ptable (<[i := q]> t) c.
Proof.
  intros Hi [Ep ->]%getp_inv. cbn [ptable set_ptable] in Ep.
  rewrite list_lookup_insert_eq in Ep by done. by injection Ep as <-.
Qed.

Lemma set_km_ptable k t c : set_km k (set_ptable t c) = set_ptable t (set_km k c).
Proof. done. Qed.

Lemma set_nextpid_ptable n t c : set_nextpid n (set_ptable t c) = set_ptable t (set_nextpid n c).
Proof. done. Qed.

(** Follow one assignment [updp i f] at the head of the run [H] to an entry
    that was assigned before; [Hi] says that [i] is in the table. *)
Ltac upd_step H Hi :=
  let c1 := fresh "c" in let H1 := fresh "Hu" in
  apply bind_inv in H as ([] & c1 & H1 & H);
  apply (updp_ins _ _ _ _ _ _ Hi) in H1; subst c1.

Lemma alloc_found_inv i c c' :
  alloc_found i c = Ret (tt, c') →
  ∃ p, ptable c !! i = Some p
    ∧ ptable c' = <[i := fresh_proc (nextpid c) (ticks c) p]> (ptable c)
    ∧ initproc c' = initproc c ∧ nextpid c' = nextpid c + 1 ∧ cproc c' = cproc c
    ∧ km c' = km c ∧ nextpid c < Z.of_nat (length (ps_inuse (pstat_var c))).
Proof.
  unfold alloc_found. intros H.
  apply bind_inv in H as ([] & c1 & (p & Ep & ->)%updp_inv & H).
  assert (i < length (ptable c))%nat as Hi by (by eapply lookup_lt_Some).
  upd_step H Hi.
  apply bind_inv in H as (n & c1 & [= <- <-] & H).
  apply bind_inv in H as ([] & c1 & [= <-] & H).
  rewrite set_nextpid_ptable in H. upd_step H Hi.
  apply bind_inv in H as (q & c1 & [-> ->]%(getp_ins _ _ _ _ _ _ Hi) & H).
  apply bind_inv in H as ([] & c1 & (x & -> & Hx)%ps_set_inv & H).
  apply bind_inv in H as ([] & c2 & Hm%mlfq_enter_inv & H).
  apply bind_inv in H as ([] & c3 & Hp%pstat_ticks_reset_inv & H).
  pose proof (same_table_trans _ _ _ Hm Hp) as (T1 & T2 & T3 & T4 & T5 & T6 & T7). clear Hm Hp.
  cbn [ptable initproc nextpid ticks cproc km fs set_ptable set_nextpid set_pstat_var] in *.
  apply bind_inv in H as (t & c4 & [= <- <-] & H).
  apply bind_inv in H as ([] & c4 & (q & E & ->)%updp_inv & H).
  rewrite T1, list_lookup_insert_eq in E by done. injection E as <-.
  rewrite T1, list_insert_insert_eq in H. apply (updp_ins _ _ _ _ _ _ Hi) in H as ->.
  exists p. cbn [ptable initproc nextpid ticks cproc km fs set_ptable].
  split_and!; try done; [|cbn in Hx; lia].
  by rewrite T4.
Qed.

(** * wait *)

Lemma on_km_inv {A} (m : M kmem A) c a c' :
  on_km m c = Ret (a, c') → ∃ k, m (km c) = Ret (a, k) ∧ c' = set_km k c.
Proof.
  unfold on_km. destruct (m (km c)) as [[a' k]| | |]; intros H; simplify_eq. eauto.
Qed.

(** The slot a reaped child leaves. *)
Definition reaped (p : proc) : proc :=
  MkProc (sz p) (pgdir p) 0 UNUSED 0 None (tf p) (context p) (chan p) 0 (ofile p) (cwd p)
    (<[0%nat := 0]> (name p)) (priority p) 0 0 0.

Lemma reap_inv kend i c r c' :
  reap kend i c = Ret (r, c') →
  ∃ p k1 k2, ptable c !! i = Some p
    ∧ kfree kend (kstack p) (km c) = Ret (tt, k1) ∧ freevm kend (pgdir p) k1 = Ret (tt, k2)
    ∧ r = (pid p, s32 (etime p - ctime p - rtime p), rtime p)
    ∧ c' = set_km k2 (set_ptable (<[i := reaped p]> (ptable c)) c).
Proof.
  unfold reap. intros H.
  apply bind_inv in H as (p & c1 & [Ep ->]%getp_inv & H).
  assert (i < length (ptable c))%nat as Hi by (by eapply lookup_lt_Some).
  apply bind_inv in H as ([] & c1 & (k1 & Hk1 & ->)%on_km_inv & H).
  apply bind_inv in H as ([] & c1 & (p1 & Ep1 & ->)%updp_inv & H).
  cbn [ptable set_km] in Ep1. assert (p1 = p) as -> by congruence.
  apply bind_inv in H as ([] & c1 & (k2 & Hk2 & ->)%on_km_inv & H).
  change (ptable (set_km k1 c)) with (ptable c) in *. rewrite set_km_ptable in H.
  do 5 upd_step H Hi.
  apply bind_inv in H as (q & c1 & [-> ->]%(getp_ins _ _ _ _ _ _ Hi) & H).
  do 3 upd_step H Hi. apply ret_inv in H as [-> ->].
  exists p, k1, k2. split_and!; try done.
Qed.

Definition childb (cur : nat) (p : proc) : bool := bool_decide (parent p = Some cur).

Lemma wait_scan_inv kend cur n : ∀ i hk c r c',
  wait_scan kend cur n i hk c = Ret (r, c') →
  match r with
  | inl x => ∃ j p, (i ≤ j < i + n)%nat ∧ ptable c !! j = Some p ∧ parent p = Some cur
      ∧ state p = ZOMBIE ∧ reap kend j c = Ret (x, c')
      ∧ ∀ k q, (i ≤ k < j)%nat → ptable c !! k = Some q → zombie_child cur q = false
  | inr b => c' = c
      ∧ (b = true ↔ hk = true ∨ ∃ j p, (i ≤ j < i + n)%nat ∧ ptable c !! j = Some p ∧ parent p = Some cur)
      ∧ ∀ k q, (i ≤ k < i + n)%nat → ptable c !! k = Some q → zombie_child cur q = false
  end.
Proof.
  induction n as [|n IH]; intros i hk c r c' H; cbn [wait_scan] in H.
  { apply ret_inv in H as [-> ->]. split_and!; [done| |intros; lia].
    split; [auto|intros [?|(j & p & ? & _)]; [done|lia]]. }
  apply bind_inv in H as (p & c1 & [Ep ->]%getp_inv & H).
  destruct (decide (parent p ≠ Some cur)) as [Hn|Hy%dec_stable].
  - assert (zombie_child cur p = false) as Hz
      by (unfold zombie_child; by rewrite bool_decide_false).
    apply IH in H. destruct r as [x|b].
    + destruct H as (j & q & Hj & Hq & Hp & Hs & Hr & Hk). exists j, q.
      split_and!; try done; try lia. intros k q' Hk' Hq'.
      destruct (decide (k = i)) as [->|]; [congruence|]. apply (Hk k); [lia|done].
    + destruct H as (-> & Hb & Hk). split_and!; [done| |].
      * rewrite Hb. split; intros [?|(j & q & Hj & Hq & Hp)]; auto; right.
        -- exists j, q. split_and!; done || lia.
        -- destruct (decide (j = i)) as [->|]; [congruence|]. exists j, q. split_and!; done || lia.
      * intros k q' Hk' Hq'. destruct (decide (k = i)) as [->|]; [congruence|].
        apply (Hk k); [lia|done].
  - destruct (decide (state p = ZOMBIE)) as [Ez|Ez].
    + apply bind_inv in H as (x & c1 & Hr & H). apply ret_inv in H as [-> ->].
      exists i, p. split_and!; try done; try lia.
    + assert (zombie_child cur p = false) as Hz
        by (unfold zombie_child; by rewrite (bool_decide_false (state p = _)), andb_false_r).
      apply IH in H. destruct r as [x|b].
      * destruct H as (j & q & Hj & Hq & Hp & Hs & Hr & Hk). exists j, q.
        split_and!; try done; try lia. intros k q' Hk' Hq'.
        destruct (decide (k = i)) as [->|]; [congruence|]. apply (Hk k); [lia|done].
      * destruct H as (-> & Hb & Hk). split_and!; [done| |].
        -- rewrite Hb. split; [|by auto]. intros _. right. exists i, p. split_and!; done || lia.
        -- intros k q' Hk' Hq'. destruct (decide (k = i)) as [->|]; [congruence|].
           apply (Hk k); [lia|done].
Qed.

Lemma sleep_core_run cur ch c p :
  ptable c !! cur = Some p →
  sleep_core cur ch c = Ret (tt, set_ptable (<[cur := set_state SLEEPING (set_chan ch p)]> (ptable c)) c).
Proof. intros Hp. unfold sleep_core. rewrite updp_updp. by erewrite updp_run. Qed.
End runs.

(** * The invariant *)

(** A process that exists and has not exited. *)
Definition alive (st : procstate) : Prop := st = SLEEPING ∨ st = RUNNABLE ∨ st = RUNNING.

(** No zombie has [i] as its parent. *)
Definition no_zombies (t : list proc) (i : nat) : Prop :=
  ∀ j q, t !! j = Some q → parent q = Some i → state q ≠ ZOMBIE.

Record tinv (t : list proc) (init : option nat) (np : Z) : Prop := {
  ti_len : length t = 64%nat;
  (** pids are positive, already handed out, and unique *)
  ti_pos : 0 < np;
  ti_pid : ∀ i p, t !! i = Some p → state p ≠ UNUSED → 0 < pid p < np;
  ti_uniq : ∀ i j p q, t !! i = Some p → t !! j = Some q → state p ≠ UNUSED → state q ≠ UNUSED →
    pid p = pid q → i = j;
  (** a parent pointer never dangles: free slots have none, and it points to
      a process that has not exited *)
  ti_parent : ∀ i p j, t !! i = Some p → parent p = Some j →
    state p ≠ UNUSED ∧ j ≠ i ∧ ∃ q, t !! j = Some q ∧ alive (state q);
  (** every process but init has a parent to reap it *)
  ti_orphan : ∀ i p, t !! i = Some p → alive (state p) ∨ state p = ZOMBIE → init ≠ Some i →
    ∃ j, parent p = Some j;
  ti_init : ∃ i p, init = Some i ∧ t !! i = Some p ∧ alive (state p) ∧ parent p = None;
  (** no lost exit: a parent asleep in wait has no zombie child *)
  ti_wait : ∀ i p, t !! i = Some p → state p = SLEEPING → chan p = ChProc i → no_zombies t i
}.

(** A change of state that keeps a slot free, a process alive, or a zombie. *)
Definition same_kind (a b : procstate) : Prop := b = a ∨ (alive a ∧ alive b).

Lemma alive_not a : alive a → a ≠ UNUSED ∧ a ≠ ZOMBIE ∧ a ≠ EMBRYO.
Proof. by intros [->|[->| ->]]. Qed.

Lemma same_kind_alive a b : same_kind a b → alive a → alive b.
Proof. by intros [->|[]]. Qed.

Lemma same_kind_not a b st : st = UNUSED ∨ st = ZOMBIE → same_kind a b → a ≠ st → b ≠ st.
Proof. intros Hst [->|[Ha Hb]]; [done|]. apply alive_not in Hb. destruct Hst as [->| ->]; tauto. Qed.

Lemma same_kind_sym a b : same_kind a b → same_kind b a.
Proof. unfold same_kind. intros [->|[]]; auto. Qed.

Lemma same_kind_not_inv a b st : st = UNUSED ∨ st = ZOMBIE → same_kind a b → b ≠ st → a ≠ st.
Proof. intros Hst H. apply same_kind_not; [done|]. by apply same_kind_sym. Qed.

Lemma tinv_pointwise t t' init np :
  tinv t init np → length t' = length t →
  (∀ i p p', t !! i = Some p → t' !! i = Some p' →
     pid p' = pid p ∧ parent p' = parent p
     ∧ same_kind (state p) (state p')
     ∧ (state p' = SLEEPING → chan p' = ChProc i →
          (state p = SLEEPING ∧ chan p = ChProc i) ∨ no_zombies t i)) →
  tinv t' init np.
Proof.
  intros [Hlen Hpos Hpid Huniq Hpar Horph Hinit Hwait] Hlen' Hpt.
  assert (∀ i p', t' !! i = Some p' → ∃ p, t !! i = Some p) as Hback.
  { intros i p' H. apply lookup_lt_is_Some_2. rewrite <- Hlen'. by eapply lookup_lt_Some. }
  assert (∀ i p, t !! i = Some p → ∃ p', t' !! i = Some p') as Hfwd.
  { intros i p H. apply lookup_lt_is_Some_2. rewrite Hlen'. by eapply lookup_lt_Some. }
  assert (∀ i p', t' !! i = Some p' → state p' ≠ UNUSED → ∃ p, t !! i = Some p
    ∧ pid p' = pid p ∧ state p ≠ UNUSED) as Hlive.
  { intros i p' Hp' Hs. destruct (Hback _ _ Hp') as [p Hp].
    destruct (Hpt i p p' Hp Hp') as (Epid & _ & Hst & _). exists p. split_and!; [done|done|].
    eapply same_kind_not_inv; eauto. }
  split.
  - congruence.
  - done.
  - intros i p' Hp' Hs. destruct (Hlive i p' Hp' Hs) as (p & Hp & -> & Hu). by apply (Hpid i p Hp).
  - intros i j p' q' Hp' Hq' Hs Hs' E.
    destruct (Hlive i p' Hp' Hs) as (p & Hp & Ep & Hu), (Hlive j q' Hq' Hs') as (q & Hq & Eq & Hu').
    apply (Huniq i j p q); congruence.
  - intros i p' j Hp' Hj. destruct (Hback _ _ Hp') as [p Hp].
    destruct (Hpt i p p' Hp Hp') as (_ & Ep & Hst & _). rewrite Ep in Hj.
    destruct (Hpar i p j Hp Hj) as (Hu & Hij & q & Hq & Ha).
    split; [eapply same_kind_not; eauto|]. split; [done|].
    destruct (Hfwd _ _ Hq) as [q' Hq']. exists q'. split; [done|].
    destruct (Hpt j q q' Hq Hq') as (_ & _ & Hst' & _). eapply same_kind_alive; eauto.
  - intros i p' Hp' Hs Hi. destruct (Hback _ _ Hp') as [p Hp].
    destruct (Hpt i p p' Hp Hp') as (_ & -> & Hst & _). apply (Horph i p Hp); [|done].
    destruct Hst as [<-|[? ?]]; [done|by left].
  - destruct Hinit as (i & p & Hi & Hp & Ha & Hn). destruct (Hfwd _ _ Hp) as [p' Hp'].
    destruct (Hpt i p p' Hp Hp') as (_ & Epar & Hst & _).
    exists i, p'. split_and!; [done|done|eapply same_kind_alive; eauto|congruence].
  - intros i p' Hp' Hs Hc j q' Hq' Hj. destruct (Hback _ _ Hp') as [p Hp], (Hback _ _ Hq') as [q Hq].
    destruct (Hpt i p p' Hp Hp') as (_ & _ & _ & Hz), (Hpt j q q' Hq Hq') as (_ & Eq & Hst' & _).
    assert (no_zombies t i) as Hno by (destruct (Hz Hs Hc) as [[]|]; eauto).
    eapply same_kind_not; eauto. apply (Hno j q Hq). congruence.
Qed.

(** One entry changes, and stays what it was: free, or alive, or exited. *)
Lemma tinv_upd t init np i p p' :
  tinv t init np → t !! i = Some p → pid p' = pid p → parent p' = parent p →
  same_kind (state p) (state p') →
  (state p' = SLEEPING → chan p' = ChProc i →
     (state p = SLEEPING ∧ chan p = ChProc i) ∨ no_zombies t i) →
  tinv (<[i := p']> t) init np.
Proof.
  intros Ht Hp H1 H2 H3 H4. apply (tinv_pointwise t); [done|by rewrite length_insert|].
  intros j q q' Hq Hq'. destruct (decide (j = i)) as [->|Hne].
  - rewrite list_lookup_insert_eq in Hq' by (by eapply lookup_lt_Some).
    assert (q = p) as -> by congruence. assert (q' = p') as -> by congruence. done.
  - rewrite list_lookup_insert_ne in Hq' by done. assert (q' = q) as -> by congruence.
    split_and!; [done|done|by left|auto].
Qed.

(** A slot that is free, being set up, or a zombie changes: allocproc, the
    rest of fork, and reap. *)
Lemma tinv_slot t init np np' i p p' :
  tinv t init np → np ≤ np' → t !! i = Some p → ¬ alive (state p) →
  state p' = UNUSED ∨ state p' = EMBRYO ∨ state p' = RUNNABLE →
  (state p' ≠ UNUSED → 0 < pid p' < np'
     ∧ ∀ j q, j ≠ i → t !! j = Some q → state q ≠ UNUSED → pid q ≠ pid p') →
  (∀ j, parent p' = Some j →
     state p' ≠ UNUSED ∧ ∃ q, t !! j = Some q ∧ alive (state q)) →
  (state p' = RUNNABLE → ∃ j, parent p' = Some j) →
  tinv (<[i := p']> t) init np'.
Proof.
  intros [Hlen Hpos Hpid Huniq Hpar Horph Hinit Hwait] Hnp Hp Hna Hst Hpid' Hpar' Horph'.
  assert (i < length t)%nat as Hi by (by eapply lookup_lt_Some).
  assert (∀ j q, t !! j = Some q → alive (state q) → j ≠ i) as Hne
    by (intros j q Hq Ha ->; congruence).
  assert (∀ j q, <[i := p']> t !! j = Some q → (j = i ∧ q = p') ∨ (j ≠ i ∧ t !! j = Some q)) as Hl.
  { intros j q Hq. destruct (decide (j = i)) as [->|?].
    - rewrite list_lookup_insert_eq in Hq by done. left. by injection Hq as <-.
    - rewrite list_lookup_insert_ne in Hq by done. auto. }
  assert (∀ j q, t !! j = Some q → alive (state q) → <[i := p']> t !! j = Some q) as Hal.
  { intros j q Hq Ha. rewrite list_lookup_insert_ne; [done|]. intros ->. by eapply Hne. }
  split.
  - by rewrite length_insert.
  - lia.
  - intros j q Hq Hs. apply Hl in Hq as [[-> ->]|[? Hq]]; [by apply Hpid'|].
    specialize (Hpid j q Hq Hs). lia.
  - intros j k q r Hq Hr Hs Hs' E. apply Hl in Hq as [[-> ->]|[Hj Hq]], Hr as [[-> ->]|[Hk Hr]]; auto.
    + exfalso. apply (proj2 (Hpid' Hs) k r); auto.
    + exfalso. apply (proj2 (Hpid' Hs') j q); auto.
    + by apply (Huniq j k q r).
  - intros j q k Hq Hk. apply Hl in Hq as [[-> ->]|[Hj Hq]].
    + destruct (Hpar' k Hk) as (Hu & r & Hr & Ha). split_and!; [done|by eapply Hne|eauto].
    + destruct (Hpar j q k Hq Hk) as (Hu & Hjk & r & Hr & Ha). split_and!; eauto.
  - intros j q Hq Hs Hij. apply Hl in Hq as [[-> ->]|[Hj Hq]]; [|by apply (Horph j)].
    apply Horph'. destruct Hst as [E|[E|E]]; [..|done]; rewrite E in Hs;
      by destruct Hs as [[?|[?|?]]|?].
  - destruct Hinit as (j & q & Hj & Hq & Ha & Hn). exists j, q. auto.
  - intros j q Hq Hs Hc k r Hr Hk. apply Hl in Hq as [[-> ->]|[Hj Hq]].
    { destruct Hst as [E|[E|E]]; congruence. }
    apply Hl in Hr as [[-> ->]|[? Hr]]; [by destruct Hst as [->|[->| ->]]|].
    by apply (Hwait j q Hq Hs Hc k r).
Qed.

Lemma wakeup1_proc_fields ch p :
  pid (wakeup1_proc ch p) = pid p ∧ parent (wakeup1_proc ch p) = parent p
  ∧ chan (wakeup1_proc ch p) = chan p ∧ same_kind (state p) (state (wakeup1_proc ch p))
  ∧ (state (wakeup1_proc ch p) = SLEEPING → state p = SLEEPING ∧ chan p ≠ ch).
Proof.
  unfold wakeup1_proc, same_kind, alive. case_decide as E; simpl.
  - destruct E as [-> ?]. split_and!; [done|done|done|auto|done].
  - split_and!; auto.
Qed.

Lemma tinv_wake t init np ch : tinv t init np → tinv (wake_t ch t) init np.
Proof.
  intros Ht. apply (tinv_pointwise t); [done|unfold wake_t; by rewrite length_fmap|].
  intros i p p' Hp Hp'. rewrite wake_t_lookup, Hp in Hp'. injection Hp' as <-.
  destruct (wakeup1_proc_fields ch p) as (H1 & H2 & H3 & H4 & H5).
  split_and!; try done. intros Hs Hc. left. destruct (H5 Hs). split; congruence.
Qed.

(** What exit leaves of another entry [q]. *)
Definition exit_other (cur : nat) (init : option nat) (b : bool) (par : option nat) (q : proc) : proc :=
  wake_if b (chan_of init) (adopt_proc cur init (wakeup1_proc (chan_of par) q)).

Lemma exit_other_fields cur init b par q :
  let q' := exit_other cur init b par q in
  pid q' = pid q ∧ chan q' = chan q
  ∧ parent q' = (if decide (parent q = Some cur) then init else parent q)
  ∧ same_kind (state q) (state q')
  ∧ (state q' = SLEEPING → state q = SLEEPING ∧ chan q ≠ chan_of par
       ∧ (b = true → chan q ≠ chan_of init)).
Proof.
  unfold exit_other. set (q1 := wakeup1_proc (chan_of par) q). set (q2 := adopt_proc cur init q1).
  destruct (wakeup1_proc_fields (chan_of par) q) as (A1 & A2 & A3 & A4 & A5). fold q1 in A1, A2, A3, A4, A5.
  assert (pid q2 = pid q1 ∧ chan q2 = chan q1 ∧ state q2 = state q1
          ∧ parent q2 = (if decide (parent q1 = Some cur) then init else parent q1)) as (B1 & B2 & B3 & B4).
  { unfold q2, adopt_proc. by destruct (decide _). }
  rewrite A2 in B4. unfold wake_if. destruct b.
  - destruct (wakeup1_proc_fields (chan_of init) q2) as (C1 & C2 & C3 & C4 & C5).
    cbn zeta. split_and!; [congruence|congruence|congruence| |].
    + rewrite B3 in C4. unfold same_kind in *. intuition congruence.
    + intros Hs. destruct (C5 Hs) as [Hs2 Hc2]. rewrite B3 in Hs2. destruct (A5 Hs2) as [? ?].
      split_and!; [done|done|congruence].
  - cbn zeta. rewrite B3. split_and!; [congruence|congruence|done|done|].
    intros Hs. destruct (A5 Hs). done.
Qed.

Lemma zombie_child_exists t cur k q :
  t !! k = Some q → parent q = Some cur → state q = ZOMBIE → existsb (zombie_child cur) t = true.
Proof.
  intros Hk Hp Hs. apply existsb_exists. exists q. split.
  - apply list_elem_of_In. by eapply list_elem_of_lookup_2.
  - unfold zombie_child. by rewrite !bool_decide_true.
Qed.

Section exit_inv.
Context (t : list proc) (init : option nat) (np : Z) (cur : nat) (p : proc).
Context (Ht : tinv t init np) (Hp : t !! cur = Some p) (Ha : alive (state p)).
Context (Hni : init ≠ Some cur).
Let b : bool := existsb (zombie_child cur) t.
Let old : proc → proc := exit_other cur init b (parent p).

Lemma exit_t_inv i q' :
  exit_t cur init t !! i = Some q' →
  ∃ q, t !! i = Some q ∧ q' = (if decide (i = cur) then set_state ZOMBIE (old q) else old q).
Proof.
  intros Hq'. rewrite (exit_t_lookup cur init t p) in Hq' by (done || apply Ht).
  destruct (t !! i) as [q|] eqn:Ei; [|done]. injection Hq' as <-. exists q. split; [done|].
  unfold old, exit_other. by destruct (decide (i = cur)).
Qed.

Lemma exit_t_other i q :
  t !! i = Some q → i ≠ cur → exit_t cur init t !! i = Some (old q).
Proof.
  intros Hq Hne. rewrite (exit_t_lookup cur init t p), Hq by (done || apply Ht). simpl.
  by rewrite decide_False.
Qed.

Lemma exit_t_alive j q :
  t !! j = Some q → alive (state q) → j ≠ cur →
  ∃ q', exit_t cur init t !! j = Some q' ∧ alive (state q').
Proof.
  intros Hq Hal Hne. exists (old q). split; [by apply exit_t_other|].
  destruct (exit_other_fields cur init b (parent p) q) as (_ & _ & _ & H & _).
  by eapply same_kind_alive.
Qed.

(** Entries keep their pid; a free slot stays free. *)
Lemma exit_t_live i q' :
  exit_t cur init t !! i = Some q' → state q' ≠ UNUSED →
  ∃ q, t !! i = Some q ∧ pid q' = pid q ∧ state q ≠ UNUSED.
Proof.
  intros (q & Hq & ->)%exit_t_inv Hs. exists q. split; [done|].
  destruct (exit_other_fields cur init b (parent p) q) as (E1 & _ & _ & E4 & _).
  fold old in E1, E4. destruct (decide (i = cur)) as [->|Hne].
  - split; [done|]. assert (q = p) as -> by congruence. by destruct (alive_not _ Ha).
  - split; [done|]. eapply same_kind_not_inv; eauto.
Qed.

Lemma exit_t_parent i q' :
  exit_t cur init t !! i = Some q' →
  ∃ q, t !! i = Some q
    ∧ parent q' = (if decide (parent q = Some cur) then init else parent q)
    ∧ (state q' = SLEEPING → i ≠ cur ∧ q' = old q).
Proof.
  intros (q & Hq & ->)%exit_t_inv. exists q. split; [done|].
  destruct (exit_other_fields cur init b (parent p) q) as (_ & _ & E3 & _ & _).
  fold old in E3. by destruct (decide (i = cur)).
Qed.

(** After exit a parent asleep in wait still has no zombie child: the exiting
    process's parent was woken, and so was init if it was handed a zombie. *)
Lemma exit_t_wait i q' :
  exit_t cur init t !! i = Some q' → state q' = SLEEPING → chan q' = ChProc i →
  no_zombies (exit_t cur init t) i.
Proof.
  intros Hq' Hs Hc k r' Hr' Hk Hz.
  destruct (exit_t_parent i q' Hq') as (q & Hq & _ & Hsl).
  destruct (Hsl Hs) as [Hicur ->].
  destruct (exit_other_fields cur init b (parent p) q) as (_ & E2 & _ & _ & E5).
  fold old in E2, E5. destruct (E5 Hs) as (Hqs & Hcp & Hci). rewrite E2 in Hc.
  destruct (exit_t_parent k r' Hr') as (r & Hr & Hpr & _). rewrite Hk in Hpr.
  apply exit_t_inv in Hr' as (r0 & Hr0 & ->). assert (r0 = r) as -> by congruence.
  destruct (decide (parent r = Some cur)) as [Erc|Erc].
  - destruct (decide (k = cur)) as [->|Hkc].
    { by destruct (ti_parent _ _ _ Ht cur r cur Hr Erc) as (_ & ? & _). }
    apply Hci; [|by rewrite Hc, <- Hpr].
    apply (zombie_child_exists t cur k r); [done|done|].
    destruct (exit_other_fields cur init b (parent p) r) as (_ & _ & _ & E4 & _).
    fold old in E4. destruct E4 as [E4|[_ E4]]; [congruence|].
    apply alive_not in E4. tauto.
  - destruct (decide (k = cur)) as [->|Hkc].
    + assert (r = p) as -> by congruence. apply Hcp. by rewrite Hc, <- Hpr.
    + apply (ti_wait _ _ _ Ht i q Hq Hqs Hc k r Hr); [done|].
      destruct (exit_other_fields cur init b (parent p) r) as (_ & _ & _ & E4 & _).
      fold old in E4. destruct E4 as [E4|[_ E4]]; [congruence|].
      apply alive_not in E4. tauto.
Qed.

Lemma tinv_exit : tinv (exit_t cur init t) init np.
Proof.
  pose proof Ht as [Hlen Hpos Hpid Huniq Hpar Horph Hinit Hwait].
  destruct Hinit as (i0 & p0 & Hi0 & Hp0 & Ha0 & Hn0).
  assert (i0 ≠ cur) as Hne0 by congruence.
  split.
  - by rewrite exit_t_length.
  - done.
  - intros i q' Hq' Hs. destruct (exit_t_live i q' Hq' Hs) as (q & Hq & -> & Hu). by apply (Hpid i).
  - intros i j q' r' Hq' Hr' Hs Hs' E.
    destruct (exit_t_live i q' Hq' Hs) as (q & Hq & E1 & Hu), (exit_t_live j r' Hr' Hs') as (r & Hr & E2 & Hu').
    apply (Huniq i j q r); congruence.
  - intros i q' j Hq' Hj. destruct (exit_t_parent i q' Hq') as (q & Hq & Ep & _).
    rewrite Hj in Ep.
    assert (parent q ≠ None) as Hqn by (destruct (decide (parent q = Some cur)); congruence).
    destruct (parent q) as [j0|] eqn:Ej0; [|done].
    destruct (Hpar i q j0 Hq Ej0) as (Hu & Hij & r & Hr & Har).
    split; [|split].
    + apply exit_t_inv in Hq' as (q0 & Hq0 & ->). assert (q0 = q) as -> by congruence.
      destruct (exit_other_fields cur init b (parent p) q) as (_ & _ & _ & E4 & _). fold old in E4.
      destruct (decide (i = cur)); [done|]. eapply same_kind_not; eauto.
    + destruct (decide (Some j0 = Some cur)) as [?|?]; [|congruence]. intros ->. congruence.
    + destruct (decide (Some j0 = Some cur)) as [?|?].
      * assert (j = i0) as -> by congruence. by apply (exit_t_alive i0 p0).
      * assert (j = j0) as -> by congruence. apply (exit_t_alive j0 r); congruence.
  - intros i q' Hq' Hs Hi. destruct (exit_t_parent i q' Hq') as (q & Hq & -> & _).
    case_decide; [eauto|]. apply (Horph i q Hq); [|done].
    apply exit_t_inv in Hq' as (q0 & Hq0 & ->). assert (q0 = q) as -> by congruence.
    destruct (exit_other_fields cur init b (parent p) q) as (_ & _ & _ & E4 & _). fold old in E4.
    destruct (decide (i = cur)) as [->|]; [left; congruence|].
    destruct E4 as [E4|[E4 _]]; [by rewrite E4 in Hs|by left].
  - exists i0, (old p0). destruct (exit_other_fields cur init b (parent p) p0) as (_ & _ & E3 & E4 & _).
    fold old in E3, E4. split_and!; [done|by apply exit_t_other|by eapply same_kind_alive|].
    rewrite E3, Hn0. done.
  - intros i q' Hq' Hs Hc. by apply (exit_t_wait i q').
Qed.
End exit_inv.
