(* ===== verification/ProcSteps.v ===== *)
(** The life of the process table: every critical section of proc.c as an
    atomic step, in any interleaving, and what holds in all reachable
    states. *)

From S2P Require Import Prelude Params Cstring Kalloc Vm Spinlock ProcData Proc ProcInv.

Section steps.
Context {F : Type} (kend : Z).
Implicit Types (c : kcore F).

(** The entries agree on all that the table's invariant is about. *)
Definition same_skeleton (p q : proc) : Prop :=
  state q = state p ∧ pid q = pid p ∧ parent q = parent p ∧ chan q = chan p.

(** [running c i p]: process [i] is running; it is the one that acts. *)
Definition running c (i : nat) (p : proc) : Prop := ptable c !! i = Some p ∧ state p = RUNNING.

Inductive pstep : kcore F → kcore F → Prop :=
| st_alloc i c c1 c' :                       (* allocproc, found *)
    find_unused c = Ret (Some i, c1) → alloc_found i c1 = Ret (tt, c') → pstep c c'
| st_abort i p c c' :                        (* allocproc or fork: out of memory *)
    ptable c !! i = Some p → state p = EMBRYO → parent p = None →
    updp i (set_state UNUSED) c = Ret (tt, c') → pstep c c'
| st_adopt cur pc i p c c' :                 (* fork: np->parent = curproc *)
    running c cur pc → ptable c !! i = Some p → state p = EMBRYO →
    updp i (set_parent (Some cur)) c = Ret (tt, c') → pstep c c'
| st_ready i p j c c' :                      (* fork: np->state = RUNNABLE *)
    ptable c !! i = Some p → state p = EMBRYO → parent p = Some j →
    updp i (set_state RUNNABLE) c = Ret (tt, c') → pstep c c'
| st_exit cur p c c' :
    running c cur p → initproc c ≠ Some cur → exit_core cur c = Ret (tt, c') → pstep c c'
| st_reap cur p r c c' :                     (* wait: a zombie child is found *)
    running c cur p → wait_scan kend cur 64 0 false c = Ret (inl r, c') → pstep c c'
| st_wait cur p b c c1 c' :                  (* wait: no zombie child, sleep *)
    running c cur p → wait_scan kend cur 64 0 false c = Ret (inr b, c1) →
    sleep_core cur (ChProc cur) c1 = Ret (tt, c') → pstep c c'
| st_sleep cur p ch c c' :                   (* sleep from anywhere else *)
    running c cur p → ch ≠ ChProc cur → sleep_core cur ch c = Ret (tt, c') → pstep c c'
| st_woken cur p c c' :                      (* sleep, after sched *)
    running c cur p → updp cur (set_chan (ChAddr 0)) c = Ret (tt, c') → pstep c c'
| st_yield cur p c c' :
    running c cur p → updp cur (set_state RUNNABLE) c = Ret (tt, c') → pstep c c'
| st_run i p c c' :                          (* a scheduler picks [i] *)
    ptable c !! i = Some p → state p = RUNNABLE →
    updp i (set_state RUNNING) c = Ret (tt, c') → pstep c c'
| st_wakeup ch c c' : wakeup1 ch c = Ret (tt, c') → pstep c c'
| st_kill n r c c' : kill_core n c = Ret (r, c') → pstep c c'
| st_chprty n prio r c c' : chprty_core n prio c = Ret (r, c') → pstep c c'
| st_tick c c' : updatestatistics_core c = Ret (tt, c') → pstep c c'
| st_other c c' :                            (* anything that is not about processes' states *)
    length (ptable c') = length (ptable c) →
    (∀ i p q, ptable c !! i = Some p → ptable c' !! i = Some q → same_skeleton p q) →
    initproc c' = initproc c → nextpid c' = nextpid c → pstep c c'.

(** After userinit: init is the only process. *)
Definition booted c : Prop :=
  length (ptable c) = 64%nat ∧ initproc c = Some 0%nat ∧ nextpid c = 2
  ∧ (∃ p, ptable c !! 0%nat = Some p ∧ state p = RUNNABLE ∧ pid p = 1 ∧ parent p = None)
  ∧ ∀ i p, ptable c !! S i = Some p → state p = UNUSED ∧ parent p = None.

Inductive preach : kcore F → Prop :=
| pr_boot c : booted c → preach c
| pr_step c c' : preach c → pstep c c' → preach c'.

Definition cinv c : Prop := tinv (ptable c) (initproc c) (nextpid c).

Lemma cinv_boot c : booted c → cinv c.
Proof.
  intros (Hlen & Hinit & Hnp & (p0 & Hp0 & Hs0 & Hpid0 & Hpar0) & Hrest).
  assert (∀ i p, ptable c !! i = Some p → state p ≠ UNUSED → i = 0%nat ∧ p = p0) as Hone.
  { intros [|i] p Hp Hs; [split; [done|congruence]|]. by destruct (Hrest i p Hp). }
  assert (∀ i p, ptable c !! i = Some p → parent p = None) as Hpar.
  { intros [|i] p Hp; [congruence|]. by destruct (Hrest i p Hp). }
  split; rewrite ?Hinit, ?Hnp.
  - done.
  - lia.
  - intros i p Hp Hs. destruct (Hone i p Hp Hs) as [-> ->]. lia.
  - intros i j p q Hp Hq Hs Hs' _. destruct (Hone i p Hp Hs), (Hone j q Hq Hs'). congruence.
  - intros i p j Hp Hj. by rewrite (Hpar i p Hp) in Hj.
  - intros i p Hp Hs Hi. destruct (Hone i p Hp) as [-> ->]; [|done].
    destruct Hs as [Hs|Hs]; [by apply alive_not in Hs as [? _]|congruence].
  - exists 0%nat, p0. split_and!; try done. right; left. done.
  - intros i p Hp Hs _ j q Hq Hj. by rewrite (Hpar j q Hq) in Hj.
Qed.

Lemma running_alive c i p : running c i p → alive (state p).
Proof. intros [_ ->]. right; right. done. Qed.

(** A running process changes its own entry. *)
Lemma cinv_upd c c' i p f :
  cinv c → ptable c !! i = Some p → updp i f c = Ret (tt, c') →
  pid (f p) = pid p → parent (f p) = parent p → same_kind (state p) (state (f p)) →
  (state (f p) = SLEEPING → chan (f p) = ChProc i →
     (state p = SLEEPING ∧ chan p = ChProc i) ∨ no_zombies (ptable c) i) →
  cinv c'.
Proof.
  intros Hc Hp H ????. erewrite updp_run in H by done. injection H as <-.
  by apply (tinv_upd _ _ _ i p).
Qed.

Lemma cinv_alloc i c c1 c' :
  cinv c → find_unused c = Ret (Some i, c1) → alloc_found i c1 = Ret (tt, c') → cinv c'.
Proof.
  intros Hc Hf Ha. rewrite find_unused_run in Hf by apply Hc.
  destruct (table_find unusedb (ptable c)) as [[j p]|] eqn:E; [|done].
  simpl in Hf. injection Hf as <- <-.
  apply first_from_Some in E as (Hj & Hu & _ & _). apply bool_decide_eq_true in Hu.
  apply alloc_found_inv in Ha as (p' & Hp' & Et & Ei & En & _).
  assert (p' = p) as -> by congruence. unfold cinv. rewrite Et, Ei, En.
  apply (tinv_slot _ _ (nextpid c) _ j p); simpl; auto.
  - lia.
  - rewrite Hu. by intros [?|[?|?]].
  - intros _. split; [pose proof (ti_pos _ _ _ Hc); lia|].
    intros k q _ Hq Hs E. pose proof (ti_pid _ _ _ Hc k q Hq Hs). lia.
  - intros k Hk. by destruct (ti_parent _ _ _ Hc j p k Hj Hk) as (? & _).
  - done.
Qed.

(** fork and allocproc on the slot they are setting up. *)
Lemma cinv_embryo c c' i p f :
  cinv c → ptable c !! i = Some p → state p = EMBRYO → updp i f c = Ret (tt, c') →
  pid (f p) = pid p →
  state (f p) = UNUSED ∨ state (f p) = EMBRYO ∨ state (f p) = RUNNABLE →
  (∀ j, parent (f p) = Some j →
     state (f p) ≠ UNUSED ∧ ∃ q, ptable c !! j = Some q ∧ alive (state q)) →
  (state (f p) = RUNNABLE → ∃ j, parent (f p) = Some j) → cinv c'.
Proof.
  intros Hc Hp Hs H Hpid Hst Hpar Hrun. erewrite updp_run in H by done. injection H as <-.
  apply (tinv_slot _ _ (nextpid c) _ i p); simpl; auto.
  - lia.
  - rewrite Hs. by intros [?|[?|?]].
  - intros _. rewrite Hpid. assert (state p ≠ UNUSED) as Hu by congruence.
    split; [by apply (ti_pid _ _ _ Hc i)|].
    intros j q Hne Hq Hs' E. apply Hne. by apply (ti_uniq _ _ _ Hc j i q p).
Qed.

Lemma cinv_reap cur p r c c' :
  cinv c → running c cur p → wait_scan kend cur 64 0 false c = Ret (inl r, c') → cinv c'.
Proof.
  intros Hc Hr Hw. apply wait_scan_inv in Hw as (j & q & _ & Hq & Hpar & Hz & Hreap & _).
  apply reap_inv in Hreap as (q' & k1 & k2 & Hq' & _ & _ & _ & ->).
  assert (q' = q) as -> by congruence.
  apply (tinv_slot _ _ (nextpid c) _ j q); simpl; auto; try done.
  rewrite Hz. by intros [?|[?|?]].
Qed.

Lemma cinv_wait cur p b c c1 c' :
  cinv c → running c cur p → wait_scan kend cur 64 0 false c = Ret (inr b, c1) →
  sleep_core cur (ChProc cur) c1 = Ret (tt, c') → cinv c'.
Proof.
  intros Hc Hr Hw Hs. pose proof Hr as [Hp _].
  apply wait_scan_inv in Hw as (-> & _ & Hno).
  erewrite sleep_core_run in Hs by done. injection Hs as <-.
  apply (tinv_upd _ _ _ cur p); try done; simpl.
  - right. split; [by eapply running_alive|by left].
  - intros _ _. right. intros j q Hq Hpar Hz.
    assert (j < 64)%nat by (rewrite <- (ti_len _ _ _ Hc); by eapply lookup_lt_Some).
    specialize (Hno j q ltac:(lia) Hq). unfold zombie_child in Hno.
    by rewrite !bool_decide_true in Hno.
Qed.

Lemma cinv_step c c' : cinv c → pstep c c' → cinv c'.
Proof.
  intros Hc Hst. destruct Hst as
    [i c c1 c' Hf Ha|i p c c' Hp Hs Hn Hu|cur pc i p c c' Hr Hp Hs Hu|i p j c c' Hp Hs Hj Hu
    |cur p c c' Hr Hi He|cur p r c c' Hr Hw|cur p b c c1 c' Hr Hw Hs|cur p ch c c' Hr Hne Hs
    |cur p c c' Hr Hu|cur p c c' Hr Hu|i p c c' Hp Hs Hu|ch c c' Hw|n r c c' Hk|n prio r c c' Hk
    |c c' Hu|c c' Hlen Hsk Hin Hnp].
  - by eapply cinv_alloc.
  - eapply cinv_embryo; eauto; simpl; [congruence|done].
  - eapply cinv_embryo; eauto; simpl; rewrite ?Hs; auto.
    intros j [= <-]. split; [done|]. destruct Hr as [Hcur Hrun]. exists pc. split; [done|].
    right; right. done.
  - eapply cinv_embryo; eauto; simpl; auto.
    intros j' Hj'. split; [done|]. by destruct (ti_parent _ _ _ Hc i p j' Hp Hj') as (_ & _ & ?).
  - pose proof Hr as [Hp _]. erewrite exit_core_run in He by (done || apply Hc). injection He as <-.
    apply (tinv_exit _ _ _ cur p); try done. by eapply running_alive.
  - by eapply cinv_reap.
  - by eapply cinv_wait.
  - pose proof Hr as [Hp _]. erewrite sleep_core_run in Hs by done. injection Hs as <-.
    apply (tinv_upd _ _ _ cur p); try done; simpl.
    right. split; [by eapply running_alive|by left].
  - pose proof Hr as [Hp Hrun]. eapply (cinv_upd c); eauto; simpl; [by left|done].
  - pose proof Hr as [Hp Hrun]. eapply (cinv_upd c); eauto; simpl; [|done].
    right. rewrite Hrun. split; [by right; right|by right; left].
  - eapply (cinv_upd c); eauto; simpl; [|done].
    right. rewrite Hs. split; [by right; left|by right; right].
  - unfold wakeup1, modify in Hw. injection Hw as <-. by apply tinv_wake.
  - rewrite kill_core_run in Hk by apply Hc.
    destruct (table_find _ _) as [[i p]|] eqn:E; [|by injection Hk as <- <-].
    apply first_from_Some in E as (Hp & _). injection Hk as <- <-.
    apply (tinv_upd _ _ _ i p); auto; unfold killed_proc; case_decide as Hs; simpl; auto; try done.
    + right. rewrite Hs. split; [by left|by right; left].
    + by left.
  - rewrite chprty_core_run in Hk by apply Hc.
    destruct (table_find _ _) as [[i p]|] eqn:E; [|by injection Hk as <- <-].
    apply first_from_Some in E as (Hp & _). injection Hk as <- <-.
    apply (tinv_upd _ _ _ i p); auto. by left.
  - unfold updatestatistics_core, modify in Hu. injection Hu as <-.
    apply (tinv_pointwise (ptable c)); [done|simpl; by rewrite length_fmap|].
    intros i p p' Hp Hp'. simpl in Hp'. rewrite list_lookup_fmap, Hp in Hp'. injection Hp' as <-.
    unfold updatestatistics_proc. case_decide; simpl; split_and!; auto; by left.
  - unfold cinv. rewrite Hin, Hnp. apply (tinv_pointwise (ptable c)); [done|done|].
    intros i p q Hp Hq. destruct (Hsk i p q Hp Hq) as (E1 & E2 & E3 & E4).
    split_and!; [done|done|by left|]. intros. left. split; congruence.
Qed.

Lemma cinv_reachable c : preach c → cinv c.
Proof. induction 1; eauto using cinv_boot, cinv_step. Qed.
End steps.
