(* ===== verification/ProcProps.v ===== *)
(** Whole system-call bodies of proc.c: kill, wait, yield and allocproc, with
    their lock operations, and the properties of the process table. *)

From S2P Require Import Prelude Params Cstring Kalloc Vm Uvm Spinlock ProcData Proc ProcInv ProcSteps.

(** * ptable.lock around a critical section *)

Section locking.
Context {F : Type} {FO : FileOps F} (me : nat).
Implicit Types (s : kst F).

(** The CPU is in a consistent state and ptable.lock is free. *)
Definition lk_free (l : lkst) : Prop := cpu_wf (lk_cpu l) ∧ locked (lk_lock l) = 0.

(** [l'] is [l] after a lock was taken and given back. *)
Definition lk_cycled (l l' : lkst) : Prop := lk_free l' ∧ same_level (lk_cpu l) (lk_cpu l').

Lemma acquire_pt_run s :
  lk_free (lk s) → ∃ l1, acquire_pt me s = Ret (tt, MkKst l1 (core s)) ∧ holds me (lk s) l1.
Proof.
  intros [Hw Hl]. destruct (acquire_run me (lk s) Hw Hl) as (l1 & H & Hh).
  exists l1. split; [|done]. unfold acquire_pt, on_lk. by rewrite H.
Qed.

Lemma release_pt_run l s :
  lk_free l → holds me l (lk s) →
  ∃ l', release_pt me s = Ret (tt, MkKst l' (core s)) ∧ lk_cycled l l'.
Proof.
  intros [Hw Hl] Hh. destruct (release_run me l (lk s) Hw Hh) as (c' & H & Hs & Hw').
  eexists. split; [unfold release_pt, on_lk; by rewrite H|]. by split.
Qed.

Lemma on_core_run {A} (m : M (kcore F) A) s a c :
  m (core s) = Ret (a, c) → on_core m s = Ret (a, MkKst (lk s) c).
Proof. intros H. unfold on_core. by rewrite H. Qed.

(** A critical section that returns. *)
Lemma critical_run {A B} (m : M (kcore F) A) (k : A → M (kst F) B) s a c :
  lk_free (lk s) → m (core s) = Ret (a, c) →
  ∃ l', (acquire_pt me ;;; x <- on_core m ;; release_pt me ;;; k x) s = k a (MkKst l' c)
        ∧ lk_cycled (lk s) l'.
Proof.
  intros Hl Hm. destruct (acquire_pt_run s Hl) as (l1 & H1 & Hh).
  erewrite bind_ret_eval by exact H1. erewrite bind_ret_eval by by apply on_core_run.
  destruct (release_pt_run (lk s) (MkKst l1 c) Hl Hh) as (l' & H2 & Hc).
  exists l'. split; [|done]. by erewrite bind_ret_eval by exact H2.
Qed.

Lemma on_lk_run {A} (m : M lkst A) s a l :
  m (lk s) = Ret (a, l) → @on_lk F A m s = Ret (a, MkKst l (core s)).
Proof. intros H. unfold on_lk. by rewrite H. Qed.

Lemma myproc_run s :
  cpu_wf (lk_cpu (lk s)) →
  ∃ c', myproc s = Ret (cproc (core s), MkKst (set_cpu c' (lk s)) (core s))
        ∧ same_level (lk_cpu (lk s)) c' ∧ cpu_wf c'.
Proof.
  intros Hw. unfold myproc.
  erewrite bind_ret_eval by (apply on_lk_run, pushcli_run).
  erewrite bind_ret_eval by by apply on_core_run.
  destruct (popcli_run (lk_cpu (lk s)) (set_cpu (pushed (lk_cpu (lk s))) (lk s)))
    as (c' & H & Hs & Hw'); [done|done|].
  exists c'. split; [|done]. by erewrite bind_ret_eval by by apply on_lk_run.
Qed.

Lemma curproc_run s cur :
  cpu_wf (lk_cpu (lk s)) → cproc (core s) = Some cur →
  ∃ c', curproc s = Ret (cur, MkKst (set_cpu c' (lk s)) (core s))
        ∧ same_level (lk_cpu (lk s)) c' ∧ cpu_wf c'.
Proof.
  intros Hw Hc. destruct (myproc_run s Hw) as (c' & H & Hs).
  exists c'. split; [|done]. unfold curproc. erewrite bind_ret_eval by exact H. by rewrite Hc.
Qed.

(** sched's checks pass when only ptable.lock is held and the process has
    given up RUNNING. *)
Lemma sched_run (away : M (kst F) unit) l0 s cur p :
  lk_free l0 → ncli (lk_cpu l0) = 0 → holds me l0 (lk s) →
  cproc (core s) = Some cur → ptable (core s) !! cur = Some p → state p ≠ RUNNING →
  ∃ l1, holds me l0 l1 ∧
    sched me away s
    = (away ;;; on_lk (modify (λ l, set_cpu (MkCpu (ncli (lk_cpu l)) (eflags_if (lk_cpu l0)) (eflags_if (lk_cpu l))) l)))
        (MkKst l1 (core s)).
Proof.
  intros [Hw Hl] Hn (Hk & Hs & Hw1) Hcur Hp Hst. unfold sched.
  destruct (curproc_run s cur Hw1 Hcur) as (c1 & H1 & Hs1 & Hw1').
  erewrite bind_ret_eval by exact H1.
  destruct (holding_run me (set_cpu c1 (lk s))) as (c2 & H2 & Hs2 & Hw2); [done|].
  erewrite bind_ret_eval by by apply on_lk_run.
  cbn [lk_lock set_cpu]. rewrite Hk. cbn [locked lcpu Z.eqb negb andb].
  rewrite bool_decide_true by done. cbn [negb].
  rewrite (bind_ret_eval _ _ _ c2 (MkKst (set_cpu c2 (lk s)) (core s))) by done.
  assert (same_level (pushed (lk_cpu l0)) c2) as (Hn2 & He2 & Hi2) by
    (eapply same_level_trans; [|exact Hs2]; by eapply same_level_trans).
  cbn in Hn2, He2. rewrite Hn2, Hn. change (negb (0 + 1 =? 1)) with false. cbv iota.
  erewrite bind_ret_eval by (apply on_core_run, getp_run; exact Hp).
  rewrite decide_False by done. rewrite He2.
  assert (intena c2 = eflags_if (lk_cpu l0)) as -> by (rewrite Hi2 by (cbn; lia); cbn; by rewrite Hn).
  exists (set_cpu c2 (lk s)). split; [|done].
  split_and!; [done| |done]. eapply same_level_trans; [|exact Hs2]. by eapply same_level_trans.
Qed.
End locking.

(** * wait *)

Section waiting.
Context {F : Type} {FO : FileOps F} (me : nat) (kend : Z).
Implicit Types (c : kcore F) (s : kst F).

Lemma wait_scan_run cur n : ∀ i hk c,
  (i + n ≤ length (ptable c))%nat →
  wait_scan kend cur n i hk c =
    match first_from (zombie_child cur) (ptable c) i n with
    | Some (j, _) => (r <- reap kend j ;; ret (inl r)) c
    | None => Ret (inr (hk || existsb (childb cur) (take n (drop i (ptable c)))), c)
    end.
Proof.
  induction n as [|n IH]; intros i hk c Hl.
  { cbn. by rewrite orb_false_r. }
  cbn [wait_scan first_from].
  destruct (lookup_lt_is_Some_2 (ptable c) i) as [p Hp]; [lia|]. rewrite Hp.
  erewrite bind_ret_eval by by apply getp_run.
  rewrite (drop_S _ p i) by done. cbn [take existsb].
  unfold zombie_child at 1, childb at 1.
  destruct (decide (parent p ≠ Some cur)) as [Hn|Hy%dec_stable].
  - rewrite (bool_decide_false (parent p = _)) by done. cbn [andb orb]. apply IH. lia.
  - rewrite (bool_decide_true (parent p = _)) by done. cbn [andb orb].
    destruct (decide (state p = ZOMBIE)) as [Hz|Hz].
    + by rewrite bool_decide_true by done.
    + rewrite bool_decide_false by done. rewrite IH by lia.
      destruct (first_from _ _ _ _) as [[j q]|]; [done|]. by rewrite orb_true_r.
Qed.

Lemma updp_ins_run i f q t c :
  (i < length t)%nat →
  updp i f (set_ptable (<[i := q]> t) c) = Ret (tt, set_ptable (<[i := f q]> t) c).
Proof.
  intros Hi. rewrite (updp_run i f _ q) by (by apply list_lookup_insert_eq).
  unfold set_ptable; simpl. by rewrite list_insert_insert_eq.
Qed.

Lemma reap_run i c p k1 k2 :
  ptable c !! i = Some p → kfree kend (kstack p) (km c) = Ret (tt, k1) →
  freevm kend (pgdir p) k1 = Ret (tt, k2) →
  reap kend i c = Ret ((pid p, s32 (etime p - ctime p - rtime p), rtime p),
                       set_km k2 (set_ptable (<[i := reaped p]> (ptable c)) c)).
Proof.
  intros Hp H1 H2. assert (i < length (ptable c))%nat as Hi by (by eapply lookup_lt_Some).
  unfold reap. erewrite bind_ret_eval by by apply getp_run.
  rewrite (bind_ret_eval _ _ _ tt (set_km k1 c)) by (unfold on_km; by rewrite H1).
  erewrite bind_ret_eval by by apply updp_run.
  change (ptable (set_km k1 c)) with (ptable c).
  rewrite (bind_ret_eval _ _ _ tt (set_ptable (<[i := set_kstack 0 p]> (ptable c)) (set_km k2 c)))
    by (unfold on_km; cbn [km set_km set_ptable]; by rewrite H2).
  do 5 erewrite bind_ret_eval by by apply updp_ins_run.
  erewrite bind_ret_eval by (apply getp_run; by apply list_lookup_insert_eq).
  do 3 erewrite bind_ret_eval by by apply updp_ins_run.
  done.
Qed.

(** The memory of a zombie: its kernel stack is a page of its own, and its
    page table and user pages are well formed. *)
Record proc_mem (k : kmem) (p : proc) (l : list Z) : Prop := {
  pm_vm : vm_wf kend k (pgdir p) l;
  pm_user : user_wf kend k (pgdir p) l;
  pm_kstack : page_ok kend (kstack p);
  pm_ks_used : kstack p ∉ l;
  pm_ks_table : not_table (km_mem k) (pgdir p) (kstack p);
  pm_ks_frame : ∀ va, 0 ≤ va < KERNBASE → frame_of (km_mem k) (pgdir p) va ≠ Some (kstack p)
}.

(** The pages of a process. *)
Definition proc_page (k : kmem) (p : proc) (q : Z) : Prop :=
  q = kstack p ∨ q = pgdir p
  ∨ (∃ i, 0 ≤ i < 1024 ∧ pdt (km_mem k) (pgdir p) i = Some q)
  ∨ (∃ va, 0 ≤ va < KERNBASE ∧ frame_of (km_mem k) (pgdir p) va = Some q).

Lemma reap_frees i c p l :
  KERNBASE < kend → ptable c !! i = Some p → proc_mem (km c) p l →
  ∃ k2 l', reap kend i c = Ret ((pid p, s32 (etime p - ctime p - rtime p), rtime p),
                       set_km k2 (set_ptable (<[i := reaped p]> (ptable c)) c))
    ∧ kmem_rep kend k2 l' ∧ ∀ q, q ∈ l' ↔ q ∈ l ∨ proc_page (km c) p q.
Proof.
  intros Hk Hp [Hvm Hu Hks Hkl Hkt Hkf].
  destruct (kfree_not_table kend (km c) (pgdir p) l (kstack p)) as (k1 & H1 & Hvm1 & Hpdt & Hpte & _);
    [lia|done|done|done|done|].
  assert (user_wf kend k1 (pgdir p) (kstack p :: l)) as Hu1 by (eapply kfree_user; eauto).
  destruct (freevm_run kend (pgdir p) k1 (kstack p :: l)) as (k2 & l' & H2 & Hrep & Hl' & _); [done..|].
  exists k2, l'. split; [by eapply reap_run|]. split; [done|].
  intros q. rewrite Hl', elem_of_cons. unfold proc_page.
  assert (∀ va, frame_of (km_mem k1) (pgdir p) va = frame_of (km_mem (km c)) (pgdir p) va) as Hfe
    by (intros; by apply frame_of_ext).
  split.
  - intros [[->|?]|[->|[(i' & Hi & E)|(va & Hva & E)]]]; auto.
    + do 3 right; left. exists i'. by rewrite <- Hpdt.
    + do 4 right. exists va. by rewrite <- Hfe.
  - intros [?|[->|[->|[(i' & Hi & E)|(va & Hva & E)]]]]; auto.
    + right; right; left. exists i'. by rewrite Hpdt.
    + do 3 right. exists va. by rewrite Hfe.
Qed.

(** What wait finds: a zombie child, or nothing to wait for, or children that
    are all still alive. *)
Definition found_zombie c (cur j : nat) (p : proc) : Prop :=
  table_find (zombie_child cur) (ptable c) = Some (j, p).
Definition no_child c (cur : nat) : Prop :=
  ∀ j p, ptable c !! j = Some p → parent p ≠ Some cur.

Lemma existsb_childb c cur : existsb (childb cur) (ptable c) = false ↔ no_child c cur.
Proof.
  split.
  - intros H j p Hp Hpar. assert (existsb (childb cur) (ptable c) = true) as E; [|congruence].
    apply existsb_exists. exists p. split; [apply list_elem_of_In; by eapply list_elem_of_lookup_2|].
    unfold childb. by rewrite bool_decide_true.
  - intros H. destruct (existsb _ _) eqn:E; [|done].
    apply existsb_exists in E as (p & Hp & Hc). apply list_elem_of_In, list_elem_of_lookup_1 in Hp as [j Hj].
    unfold childb in Hc. apply bool_decide_eq_true in Hc. by destruct (H j p).
Qed.
End waiting.

Lemma alloc_found_tame {F} i : tame (@alloc_found F i).
Proof.
  assert (∀ A (f : kcore F → A), tame (gets f)) as Hg by (intros A f c; left; by eexists).
  assert (∀ f, tame (@modify (kcore F) f)) as Hm by (intros f c; left; by eexists).
  unfold alloc_found, updp, mlfq_enter, pstat_ticks_reset, get_cxj, put_cxj, put_qxj, ps_set,
    ps_set_ticks, getp.
  repeat (apply tame_bind; [|intros ?]); auto with tame.
Qed.

(** * A concrete kernel

    init (slot 0, running) has a zombie child in slot 1, whose memory is the
    example address space of Vm; the other slots are free. *)

#[local] Instance ex_files : FileOps unit := {|
  filedup := ret; fileclose := λ _, ret tt; idup := ret; iput := λ _, ret tt;
  begin_op := ret tt; end_op := ret tt; namei := λ _, ret 1;
  iinit := λ _, ret tt; initlog := λ _, ret tt |}.

Definition ex_init : proc := set_state RUNNING (set_pid 1 zero_proc).
Definition ex_zombie : proc :=
  MkProc 4096 ex_dir (ex_kend + 16384) ZOMBIE 2 (Some 0%nat) 0 0 (ChAddr 0) 0
    (replicate 16 0) 0 (replicate 16 0) 60 10 90 30.

Definition ex_core (t : list proc) : kcore unit :=
  MkCore (Some 0%nat) t (replicate 5 (-1)) (replicate 5 (replicate 64 None)) zero_pstat
    (Some 0%nat) 3 100 None true 0 0 0 [] [] ex_mapped tt.
Definition ex_procs : list proc := ex_init :: ex_zombie :: replicate 62 zero_proc.
Definition ex_kst (t : list proc) : kst unit := MkKst ex_lkst (ex_core t).

Lemma ex_zombie_mem : proc_mem ex_kend ex_mapped ex_zombie [ex_kend + 12288].
Proof.
  split; simpl.
  - apply ex_mapped_wf.
  - apply ex_mapped_user.
  - by vm_compute.
  - apply (bool_decide_unpack _). by vm_compute.
  - split; [by vm_compute|]. intros i Hi. rewrite ex_mapped_pdt by done. by destruct (i =? 0).
  - intros va Hva. rewrite ex_mapped_frame by (unfold KERNBASE in *; lia). by destruct (va <? 4096).
Qed.

(** The booted kernel, before the first fork. *)
Definition ex_boot_table : list proc := set_state RUNNABLE ex_init :: replicate 63 zero_proc.
Definition ex_boot_core : kcore unit := set_nextpid 2 (ex_core ex_boot_table).

Lemma ex_boot_free j q : ex_boot_table !! S j = Some q → q = zero_proc.
Proof.
  intros Hq. change (replicate 63 zero_proc !! j = Some q) in Hq.
  by apply lookup_replicate in Hq as [-> _].
Qed.

Lemma ex_booted : booted ex_boot_core.
Proof.
  split_and!; try done.
  - by exists (set_state RUNNABLE ex_init).
  - intros i p Hp%ex_boot_free. by subst p.
Qed.

(** init runs, forks, and waits; the child runs and exits. *)
Definition ex_after {A} (m : M (kcore unit) A) (c : kcore unit) : kcore unit := match m c with Ret (_, c') => c' | _ => c end.
Definition ex_c1 : kcore unit := ex_after (updp 0 (set_state RUNNING)) ex_boot_core.
Definition ex_c2 : kcore unit := ex_after (alloc_found 1) ex_c1.
Definition ex_c3 : kcore unit := ex_after (updp 1 (set_parent (Some 0%nat))) ex_c2.
Definition ex_c4 : kcore unit := ex_after (updp 1 (set_state RUNNABLE)) ex_c3.
Definition ex_c5 : kcore unit := ex_after (sleep_core 0 (ChProc 0)) ex_c4.
Definition ex_c6 : kcore unit := ex_after (updp 1 (set_state RUNNING)) ex_c5.
Definition ex_child_exited : kcore unit := ex_after (exit_core 1) ex_c6.

Lemma ex_after_ret (m : M (kcore unit) unit) c : (match m c with Ret _ => true | _ => false end) = true → m c = Ret (tt, ex_after m c).
Proof. unfold ex_after. by destruct (m c) as [[[] c']|?| |]. Qed.

(** The conditions of a step from a known state, by evaluation. *)
Ltac ex_step :=
  lazymatch goal with
  | |- _ = Ret (tt, _) => apply ex_after_ret; vm_compute; reflexivity
  | |- running _ _ _ => split; vm_compute; reflexivity
  | |- _ ≠ _ => vm_compute; discriminate
  | |- _ => vm_compute; reflexivity
  end.

Lemma ex_child_exited_reachable : preach ex_kend ex_child_exited.
Proof.
  apply (pr_step _ ex_c6); [|eapply (st_exit _ 1); ex_step]. apply (pr_step _ ex_c5); [|eapply (st_run _ 1); ex_step].
  apply (pr_step _ ex_c4); [|eapply (st_wait _ 0 _ _ _ ex_c4); ex_step]. apply (pr_step _ ex_c3); [|eapply (st_ready _ 1); ex_step].
  apply (pr_step _ ex_c2); [|eapply (st_adopt _ 0 _ 1); ex_step]. apply (pr_step _ ex_c1); [|eapply (st_alloc _ 1 _ ex_c1); ex_step].
  apply (pr_step _ ex_boot_core); [|eapply (st_run _ 0); ex_step]. apply pr_boot, ex_booted.
Qed.

(** * Properties *)

(** C2. The process table stays consistent through any interleaving of the
    critical sections of proc.c: pids of live processes are unique, parent
    pointers never dangle, every process but init has a parent that has not
    exited, and a parent asleep in wait never has a zombie child it was not
    woken for. *)
Theorem process_table_invariant {F} kend (c : kcore F) :
  preach kend c → tinv (ptable c) (initproc c) (nextpid c).
Proof. apply cinv_reachable. Qed.

Lemma process_table_invariant_witness :
  tinv (ptable ex_child_exited) (Some 0%nat) 3
  ∧ (λ p, (state p, pid p, parent p)) <$> take 2 (ptable ex_child_exited) = [(RUNNABLE, 1, None); (ZOMBIE, 2, Some 0%nat)].
Proof. split; [apply (process_table_invariant ex_kend ex_child_exited), ex_child_exited_reachable|vm_compute; reflexivity]. Defined.

(** C21. wait and waitx reap: with a zombie child in the table they return the
    first one's pid, waitx with its waiting and running time, they free its
    slot, and its kernel stack, page tables and memory are back on the free
    list; the lock is free again. *)
Theorem wait_reaps {F} {FO : FileOps F} me kend away fuel (s : kst F) cur j p l :
  KERNBASE < kend → lk_free (lk s) → cproc (core s) = Some cur →
  length (ptable (core s)) = 64%nat → found_zombie (core s) cur j p →
  proc_mem kend (km (core s)) p l →
  ∃ s' l', wait me kend away (S fuel) s = Ret (pid p, s')
    ∧ waitx me kend away (S fuel) s
      = Ret ((pid p, Some (s32 (etime p - ctime p - rtime p), rtime p)), s')
    ∧ ptable (core s') = <[j := reaped p]> (ptable (core s))
    ∧ lk_free (lk s') ∧ kmem_rep kend (km (core s')) l'
    ∧ ∀ q, q ∈ l' ↔ q ∈ l ∨ proc_page (km (core s)) p q.
Proof.
  intros Hk Hl Hcur Hlen Hz Hm.
  assert (ptable (core s) !! j = Some p) as Hp by (by apply first_from_Some in Hz as (? & _)).
  destruct (reap_frees kend j (core s) p l Hk Hp Hm) as (k2 & l' & Hr & Hrep & Hl').
  destruct (curproc_run s cur (proj1 Hl) Hcur) as (c1 & H1 & Hs1 & Hw1).
  set (s1 := MkKst (set_cpu c1 (lk s)) (core s)) in *.
  assert (lk_free (lk s1)) as Hl1 by (split; [done|apply Hl]).
  destruct (acquire_pt_run me s1 Hl1) as (l2 & H2 & Hh).
  set (c' := set_km k2 (set_ptable (<[j := reaped p]> (ptable (core s))) (core s))) in *.
  destruct (release_pt_run me (lk s1) (MkKst l2 c') Hl1 Hh) as (l3 & H3 & Hc3).
  assert (wait_loop me kend away (S fuel) cur (MkKst l2 (core s))
          = Ret (Some (pid p, s32 (etime p - ctime p - rtime p), rtime p), MkKst l3 c')) as Hloop.
  { cbn [wait_loop]. erewrite bind_ret_eval.
    2: { apply on_core_run. cbn [core]. rewrite wait_scan_run by (by rewrite Hlen).
         fold (table_find (zombie_child cur) (ptable (core s))). rewrite Hz.
         by erewrite bind_ret_eval by exact Hr. }
    cbv beta iota. by erewrite bind_ret_eval by exact H3. }
  exists (MkKst l3 c'), l'. split_and!; try done; [| |apply Hc3].
  - unfold wait. erewrite bind_ret_eval by exact H1. erewrite bind_ret_eval by exact H2.
    by erewrite bind_ret_eval by exact Hloop.
  - unfold waitx. erewrite bind_ret_eval by exact H1. erewrite bind_ret_eval by exact H2.
    by erewrite bind_ret_eval by exact Hloop.
Qed.

Lemma wait_reaps_witness :
  ∃ s' l', wait 0 ex_kend (ret tt) 1 (ex_kst ex_procs) = Ret (2, s')
    ∧ waitx 0 ex_kend (ret tt) 1 (ex_kst ex_procs) = Ret ((2, Some (50, 30)), s')
    ∧ ptable (core s') = <[1%nat := reaped ex_zombie]> ex_procs
    ∧ lk_free (lk s') ∧ kmem_rep ex_kend (km (core s')) l'
    ∧ ∀ q, q ∈ l' ↔ q ∈ [ex_kend + 12288] ∨ proc_page ex_mapped ex_zombie q.
Proof.
  apply (wait_reaps 0 ex_kend (ret tt) 0 (ex_kst ex_procs) 0 1 ex_zombie [ex_kend + 12288]);
    try done.
  apply ex_zombie_mem.
Defined.

(** wait returns -1 and changes nothing when the caller has no child, or
    when it has been killed and no child is a zombie. *)
Theorem wait_fails {F} {FO : FileOps F} me kend away fuel (s : kst F) cur pc :
  lk_free (lk s) → cproc (core s) = Some cur → length (ptable (core s)) = 64%nat →
  ptable (core s) !! cur = Some pc →
  table_find (zombie_child cur) (ptable (core s)) = None →
  no_child (core s) cur ∨ killed pc ≠ 0 →
  ∃ l', wait me kend away (S fuel) s = Ret (-1, MkKst l' (core s)) ∧ lk_free l'.
Proof.
  intros Hl Hcur Hlen Hpc Hz Hor.
  destruct (curproc_run s cur (proj1 Hl) Hcur) as (c1 & H1 & Hs1 & Hw1).
  set (s1 := MkKst (set_cpu c1 (lk s)) (core s)) in *.
  assert (lk_free (lk s1)) as Hl1 by (split; [done|apply Hl]).
  destruct (acquire_pt_run me s1 Hl1) as (l2 & H2 & Hh).
  destruct (release_pt_run me (lk s1) (MkKst l2 (core s)) Hl1 Hh) as (l3 & H3 & Hc3).
  exists l3. split; [|apply Hc3]. unfold wait. erewrite bind_ret_eval by exact H1.
  erewrite bind_ret_eval by exact H2.
  change (core s1) with (core s).
  rewrite (bind_ret_eval _ _ _ None (MkKst l3 (core s))); [reflexivity|].
  cbn [wait_loop]. erewrite bind_ret_eval.
  2: { apply on_core_run. cbn [core]. rewrite wait_scan_run by (by rewrite Hlen).
       fold (table_find (zombie_child cur) (ptable (core s))). by rewrite Hz. }
  cbv beta iota. cbn [orb]. rewrite drop_0, take_ge by lia.
  erewrite bind_ret_eval by (apply on_core_run, getp_run; exact Hpc).
  assert (negb (existsb (childb cur) (ptable (core s))) || negb (killed pc =? 0) = true) as ->.
  { destruct Hor as [Hn|Hn]; [by rewrite (proj2 (existsb_childb (core s) cur) Hn)|].
    destruct (Z.eqb_spec (killed pc) 0); [done|by rewrite orb_true_r]. }
  by erewrite bind_ret_eval by exact H3.
Qed.

Lemma wait_fails_witness :
  ∃ l', wait 0 ex_kend (ret tt) 1 (ex_kst (ex_init :: replicate 63 zero_proc))
        = Ret (-1, MkKst l' (ex_core (ex_init :: replicate 63 zero_proc))) ∧ lk_free l'.
Proof.
  apply (wait_fails 0 ex_kend (ret tt) 0 (ex_kst (ex_init :: replicate 63 zero_proc)) 0 ex_init);
    try done.
  left. intros j p Hp Hpar. cbn [ptable core ex_core ex_kst] in Hp.
  destruct j as [|j]; [by injection Hp as <-|].
  apply lookup_replicate in Hp as [-> _]. done.
Defined.

(** kill finds a live process by its pid, marks it, makes it runnable if
    it sleeps, and leaves every other process alone; the search cannot hit
    another process because pids are unique. *)
Theorem kill_correct {F} me n (s : kst F) i p :
  lk_free (lk s) → cinv (core s) →
  ptable (core s) !! i = Some p → pid p = n → state p ≠ UNUSED →
  (∀ j q, ptable (core s) !! j = Some q → state q = UNUSED → pid q ≠ n) →
  ∃ l' p', kill me n s = Ret (0, MkKst l' (set_ptable (<[i := p']> (ptable (core s))) (core s)))
    ∧ lk_free l' ∧ killed p' = 1 ∧ state p' ≠ SLEEPING
    ∧ (state p ≠ SLEEPING → state p' = state p) ∧ pid p' = n ∧ parent p' = parent p.
Proof.
  intros Hl Hc Hp Hn Hu Hfree.
  assert (table_find (has_pid n) (ptable (core s)) = Some (i, p)) as Hf.
  { destruct (table_find _ _) as [[j q]|] eqn:E.
    - apply first_from_Some in E as (Hq & Hh & _). apply Z.eqb_eq in Hh.
      assert (state q ≠ UNUSED) as Hq' by (intros Hq'; by apply (Hfree j q)).
      assert (j = i) as -> by (apply (ti_uniq _ _ _ Hc j i q p); congruence). congruence.
    - assert (0 + 64 ≤ length (ptable (core s)))%nat as Hlen by (rewrite (ti_len _ _ _ Hc); lia).
      pose proof (first_from_None _ _ _ 0%nat Hlen E i p) as Hn'.
      unfold has_pid in Hn'. rewrite Hn, Z.eqb_refl in Hn'. exfalso.
      assert (i < 64)%nat by (rewrite <- (ti_len _ _ _ Hc); by eapply lookup_lt_Some).
      discriminate (Hn' ltac:(lia) Hp). }
  pose proof (kill_core_run n (core s) (ti_len _ _ _ Hc)) as Hk. rewrite Hf in Hk.
  destruct (critical_run me (kill_core n) ret s _ _ Hl Hk) as (l' & Hrun & Hcy).
  exists l', (killed_proc p). split; [exact Hrun|]. split; [apply Hcy|].
  unfold killed_proc. case_decide; simpl; split_and!; done.
Qed.

Lemma kill_correct_witness :
  ∃ l' p', kill 0 1 (MkKst ex_lkst ex_boot_core)
      = Ret (0, MkKst l' (set_ptable (<[0%nat := p']> ex_boot_table) ex_boot_core))
    ∧ lk_free l' ∧ killed p' = 1 ∧ state p' ≠ SLEEPING
    ∧ (RUNNABLE ≠ SLEEPING → state p' = RUNNABLE) ∧ pid p' = 1 ∧ parent p' = None.
Proof.
  apply (kill_correct 0 1 (MkKst ex_lkst ex_boot_core) 0 (set_state RUNNABLE ex_init)); try done.
  - apply cinv_boot, ex_booted.
  - intros [|j] q Hq Hu; [by injection Hq as <-|]. apply ex_boot_free in Hq as ->. done.
Defined.

Lemma yield_run {F} me away (s : kst F) cur p :
  lk_free (lk s) → ncli (lk_cpu (lk s)) = 0 → cproc (core s) = Some cur →
  ptable (core s) !! cur = Some p →
  ∃ l1, holds me (lk s) l1 ∧
    yield me away s
    = (away ;;;
       on_lk (modify (λ l, set_cpu (MkCpu (ncli (lk_cpu l)) (eflags_if (lk_cpu (lk s))) (eflags_if (lk_cpu l))) l)) ;;;
       release_pt me)
        (MkKst l1 (set_ptable (<[cur := set_state RUNNABLE p]> (ptable (core s))) (core s))).
Proof.
  intros Hl Hn Hcur Hp. unfold yield.
  destruct (acquire_pt_run me s Hl) as (l1 & H1 & Hh). erewrite bind_ret_eval by exact H1.
  destruct (curproc_run (MkKst l1 (core s)) cur (proj2 (proj2 Hh)) Hcur) as (c2 & H2 & Hs2 & Hw2).
  erewrite bind_ret_eval by exact H2.
  erewrite bind_ret_eval by (apply on_core_run, updp_run; exact Hp).
  set (c3 := set_ptable _ (core s)).
  destruct (sched_run me away (lk s) (MkKst (set_cpu c2 l1) c3) cur (set_state RUNNABLE p))
    as (l4 & Hh4 & H4); try done.
  - destruct Hh as (Hk & Hs & Hw). split_and!; [done|by eapply same_level_trans|done].
  - apply list_lookup_insert_eq. by eapply lookup_lt_Some.
  - exists l4. split; [done|]. cbn [lk core]. fold c3. unfold bind at 1. rewrite H4.
    unfold bind.
    by destruct (away _) as [[[] s5]| | |].
Qed.

(** sched's four sanity checks never fire on the way out of yield: with
    only ptable.lock held the process leaves RUNNING and reaches the switch
    with the lock still held. *)
Theorem yield_reaches_switch {F} me away (s : kst F) cur p :
  lk_free (lk s) → ncli (lk_cpu (lk s)) = 0 → cproc (core s) = Some cur →
  ptable (core s) !! cur = Some p →
  ∃ l1 ie, holds me (lk s) l1 ∧
    yield me away s
    = (away ;;;
       on_lk (modify (λ l, set_cpu (MkCpu (ncli (lk_cpu l)) ie (eflags_if (lk_cpu l))) l)) ;;;
       release_pt me)
        (MkKst l1 (set_ptable (<[cur := set_state RUNNABLE p]> (ptable (core s))) (core s))).
Proof. intros H1 H2 H3 H4. destruct (yield_run me away s cur p H1 H2 H3 H4) as (l1 & H). by exists l1, (eflags_if (lk_cpu (lk s))). Qed.

Lemma yield_reaches_switch_witness :
  ∃ l1 ie, holds 0 ex_lkst l1 ∧
    yield 0 (ret tt) (ex_kst ex_procs)
    = (ret tt ;;;
       on_lk (modify (λ l, set_cpu (MkCpu (ncli (lk_cpu l)) ie (eflags_if (lk_cpu l))) l)) ;;;
       release_pt 0)
        (MkKst l1 (set_ptable (<[0%nat := set_state RUNNABLE ex_init]> ex_procs) (ex_core ex_procs))).
Proof. by apply (yield_reaches_switch 0 (ret tt) (ex_kst ex_procs) 0 ex_init). Defined.

(** allocproc does not report a full table: it stores a pointer past the
    end of the table and dereferences it, instead of returning 0. *)
Theorem allocproc_full_table {F} (c : kcore F) :
  length (ptable c) = 64%nat → (∀ i p, ptable c !! i = Some p → state p ≠ UNUSED) →
  find_unused c = Ret (None, c) ∧ alloc_none c = Undef.
Proof.
  intros Hlen Hfull. split.
  - rewrite find_unused_run by done. unfold table_find.
    destruct (first_from _ _ _ _) as [[j q]|] eqn:E; [|done].
    apply first_from_Some in E as (Hq & Hu & _). apply bool_decide_eq_true in Hu.
    by destruct (Hfull j q).
  - unfold alloc_none. unfold bind at 1.
    assert (tame (@mlfq_enter F 64)) as Ht
      by (unfold mlfq_enter, get_cxj, put_cxj, put_qxj; auto 10 with tame).
    destruct (Ht c) as [[[[] c1] E]| ->]; [|done]. rewrite E.
    apply mlfq_enter_inv in E as (Et & _). unfold getp, get, bind. rewrite Et.
    by rewrite (lookup_ge_None_2 (ptable c) 64) by lia.
Qed.

Lemma allocproc_full_table_witness :
  let c := ex_core (replicate 64 ex_init) in find_unused c = Ret (None, c) ∧ alloc_none c = Undef.
Proof.
  apply (allocproc_full_table (ex_core (replicate 64 ex_init))); [done|].
  intros i p Hp. cbn [ptable ex_core] in Hp. apply lookup_replicate in Hp as [-> _]. done.
Defined.

(** The 64th process is the last one: pids are never reused and index the
    64-entry arrays of pstat_var, so with nextpid at 64 allocproc writes
    outside them, even when slots are free. *)
Theorem allocproc_pid_limit {F} (c : kcore F) i :
  length (ps_inuse (pstat_var c)) = 64%nat → 64 ≤ nextpid c → alloc_found i c = Undef.
Proof.
  intros Hlen Hnp. destruct (alloc_found_tame i c) as [[[[] c'] H]|]; [|done].
  apply alloc_found_inv in H as (p & _ & _ & _ & _ & _ & _ & Hlt). lia.
Qed.

Lemma allocproc_pid_limit_witness :
  alloc_found 5 (set_nextpid 64 (ex_core ex_procs)) = Undef.
Proof. apply (allocproc_pid_limit (set_nextpid 64 (ex_core ex_procs)) 5); done. Defined.

(** kill(0) succeeds on a free slot, whose pid is 0, and marks it; the
    mark survives allocproc, so the next process created is born killed. *)
Theorem kill_zero_poisons_slot {F} (c : kcore F) i p :
  cinv c → table_find unusedb (ptable c) = Some (i, p) → pid p = 0 →
  ∃ c1, kill_core 0 c = Ret (0, c1) ∧ find_unused c1 = Ret (Some i, c1)
    ∧ ∀ c2, alloc_found i c1 = Ret (tt, c2) →
        ∃ q, ptable c2 !! i = Some q ∧ pid q = nextpid c ∧ killed q = 1.
Proof.
  intros Hc Hf Hpid. pose proof (ti_len _ _ _ Hc) as Hlen.
  apply first_from_Some in Hf as (Hp & Hu & Hi & Hbefore). pose proof Hu as Hu'.
  apply bool_decide_eq_true in Hu'.
  assert (table_find (has_pid 0) (ptable c) = Some (i, p)) as Hf0.
  { apply first_from_intro; [done|done|unfold has_pid; by rewrite Hpid|].
    intros k q Hk Hq. specialize (Hbefore k q Hk Hq). apply bool_decide_eq_false in Hbefore.
    pose proof (ti_pid _ _ _ Hc k q Hq Hbefore). unfold has_pid. destruct (Z.eqb_spec (pid q) 0); [lia|done]. }
  assert (killed_proc p = set_killed 1 p) as Hkp
    by (unfold killed_proc; rewrite decide_False; [done|congruence]).
  set (c1 := set_ptable (<[i := set_killed 1 p]> (ptable c)) c).
  assert (i < length (ptable c))%nat as Hil by lia.
  exists c1. split; [by rewrite kill_core_run, Hf0, Hkp by done|].
  assert (ptable c1 !! i = Some (set_killed 1 p)) as Hi1 by (by apply list_lookup_insert_eq).
  split.
  - rewrite find_unused_run by (simpl; by rewrite length_insert).
    assert (table_find unusedb (ptable c1) = Some (i, set_killed 1 p)) as ->; [|done].
    apply first_from_intro; [done|done|done|]. intros k q Hk Hq.
    apply (Hbefore k q Hk). cbn in Hq. rewrite list_lookup_insert_ne in Hq by lia. done.
  - intros c2 (q & Hq & Et & _)%alloc_found_inv. exists (fresh_proc (nextpid c) (ticks c) q).
    assert (q = set_killed 1 p) as -> by congruence. rewrite Et.
    split; [apply list_lookup_insert_eq; simpl; by rewrite length_insert|done].
Qed.

Lemma kill_zero_poisons_slot_witness :
  ∃ c1, kill_core 0 ex_boot_core = Ret (0, c1) ∧ find_unused c1 = Ret (Some 1%nat, c1)
    ∧ ∀ c2, alloc_found 1 c1 = Ret (tt, c2) →
        ∃ q, ptable c2 !! 1%nat = Some q ∧ pid q = 2 ∧ killed q = 1.
Proof.
  apply (kill_zero_poisons_slot ex_boot_core 1 zero_proc); [|by vm_compute|done].
  apply cinv_boot, ex_booted.
Defined.
