(* ===== verification/Sched.v ===== *)
(** The schedulers of proc.c: default (round robin), priority, first come
    first served, and the multi-level feedback queue.

    [run i] is what happens between swtch(&c->scheduler, p->context) and the
    process's swtch back: any code of process [i] and of interrupts, ending
    in the scheduler with ptable.lock held.  The loops of the last three
    schedulers have no bound of their own and take fuel.  [swtched] records
    which processes were switched to. *)

From S2P Require Import Prelude Params Cstring Kalloc Vm Spinlock ProcData Proc.

Section sched_code.
Context {F : Type} (me : nat).
Context (run : nat → M (kst F) unit).

Definition swtch (i : nat) : M (kst F) unit :=
  on_core (modify (λ c, set_swtched (i :: swtched c) c)) ;;;
  run i.

(** The block that runs the chosen process. *)
Definition run_proc (i : nat) : M (kst F) unit :=
  on_core (modify (set_cproc (Some i))) ;;;
  switchuvm i ;;;
  on_core (updp i (set_state RUNNING)) ;;;
  swtch i ;;;
  switchkvm ;;;
  on_core (modify (set_cproc None)).

Definition default_scheduler : M (kst F) unit :=
  acquire_pt me ;;;
  for_procs (A := unit) (λ i,
    p <- on_core (getp i) ;;
    if decide (state p ≠ RUNNABLE) then ret None
    else run_proc i ;;; ret None) ;;;
  release_pt me.

(** [for p1: if(p1->state == RUNNABLE && key(highP) > key(p1)) highP = p1;] *)
Fixpoint pick_min (key : proc → Z) (n p1 highP : nat) : M (kcore F) nat :=
  match n with
  | O => ret highP
  | S n' =>
      q <- getp p1 ;;
      if decide (state q ≠ RUNNABLE) then pick_min key n' (S p1) highP
      else
        h <- getp highP ;;
        pick_min key n' (S p1) (if key q <? key h then p1 else highP)
  end.

(** The chosen process becomes the loop variable, so the scan goes on behind
    it. *)
Fixpoint priority_loop (fuel p : nat) : M (kst F) unit :=
  if (p <? 64)%nat then
    match fuel with
    | O => out_of_fuel
    | S f =>
        q <- on_core (getp p) ;;
        if decide (state q ≠ RUNNABLE) then priority_loop f (S p)
        else
          highP <- on_core (pick_min priority 64 0 p) ;;
          run_proc highP ;;;
          priority_loop f (S highP)
    end
  else ret tt.

Definition priority_scheduler (fuel : nat) : M (kst F) unit :=
  acquire_pt me ;;; priority_loop fuel 0 ;;; release_pt me.

(** [running_p == 0 || (running_p->state == RUNNING && p->ctime <
    running_p->ctime) || running_p->state != RUNNING] *)
Definition fcfs_may_run (h : nat) : M (kcore F) bool :=
  r <- gets running_p ;;
  match r with
  | None => ret true
  | Some j =>
      q <- getp j ;;
      p <- getp h ;;
      ret ((bool_decide (state q = RUNNING) && (ctime p <? ctime q))
           || bool_decide (state q ≠ RUNNING))
  end.

Definition fcfs_report (h : nat) : M (kcore F) unit :=
  p <- getp h ;;
  r <- gets running_p ;;
  match r with
  | None => ret tt
  | Some j =>
      q <- getp j ;;
      if (2 <? pid p) && negb (pid q =? pid p) && (2 <? pid q) then print (MRunning (pid q)) else ret tt
  end.

Fixpoint fcfs_loop (fuel p : nat) : M (kst F) unit :=
  if (p <? 64)%nat then
    match fuel with
    | O => out_of_fuel
    | S f =>
        q <- on_core (getp p) ;;
        if decide (state q ≠ RUNNABLE) then fcfs_loop f (S p)
        else
          highP <- on_core (pick_min ctime 64 0 p) ;;
          ok <- on_core (fcfs_may_run highP) ;;
          (if (ok : bool) then
             on_core (fcfs_report highP) ;;;
             on_core (modify (set_cproc (Some highP))) ;;;
             switchuvm highP ;;;
             on_core (updp highP (set_state RUNNING)) ;;;
             on_core (modify (set_running_p (Some highP))) ;;;
             swtch highP ;;;
             switchkvm ;;;
             on_core (modify (set_cproc None))
           else ret tt) ;;;
          fcfs_loop f (S highP)
    end
  else ret tt.

Definition fcfs_scheduler (fuel : nat) : M (kst F) unit :=
  acquire_pt me ;;; fcfs_loop fuel 0 ;;; release_pt me.

(** * MLFQ *)

Definition ticksTodur : Z := 30.
Definition timedur : list Z := (λ d, d * ticksTodur) <$> [1; 2; 4; 8; 16].
Definition exceededTimedur : Z := 25 * ticksTodur.

(** [for(j = i; j <= cxj[t] - 1; j++) qxj[t][j] = qxj[t][j + 1];], with [n]
    iterations left. *)
Fixpoint shift_queue (t j : Z) (n : nat) : M (kcore F) unit :=
  match n with
  | O => ret tt
  | S n' =>
      p <- get_qxj t (j + 1) ;;
      put_qxj t j p ;;;
      shift_queue t (j + 1) n'
  end.

(** qxj[t][i] = 0, then the shift. *)
Definition close_gap (t i : Z) : M (kcore F) unit :=
  put_qxj t i None ;;;
  n <- get_cxj t ;;
  shift_queue t i (Z.to_nat (n - i)).

(** Delete entry [i] of queue [t]. *)
Definition queue_delete (t i : Z) : M (kcore F) unit :=
  close_gap t i ;;;
  n <- get_cxj t ;;
  put_qxj t n None.

Definition dec_cxj (t : Z) : M (kcore F) unit := n <- get_cxj t ;; put_cxj t (n - 1).

(** Append process [p] to queue [t]: cxj[t]++, the two pstat fields, then the
    store. *)
Definition queue_append (t : Z) (p : nat) : M (kcore F) unit :=
  n <- get_cxj t ;;
  put_cxj t (n + 1) ;;;
  q <- getp p ;;
  ps_set ps_current_queue set_ps_current_queue (pid q) t ;;;
  now <- gets ticks ;;
  ps_set ps_runtime set_ps_runtime (pid q) now ;;;
  n <- get_cxj t ;;
  put_qxj t n (Some p).

(** Removing starvation: process [p], whose pid is used as its place in
    queue [t], moves up. *)
Definition promote (t : Z) (p : nat) : M (kcore F) unit :=
  q <- getp p ;;
  let i := pid q in
  queue_append (t - 1) p ;;;
  queue_delete t i ;;;
  ps_set ps_num_run set_ps_num_run (pid q) 0 ;;;
  dec_cxj t.

Definition starvation_scan (t : Z) : M (kcore F) (option unit) :=
  for_procs (λ k,
    p <- getp k ;;
    if decide (state p ≠ RUNNABLE) then ret None
    else
      cq <- ps_get ps_current_queue (pid p) ;;
      if negb (cq =? t) then ret None
      else
        now <- gets ticks ;;
        rt <- ps_get ps_runtime (pid p) ;;
        if exceededTimedur <=? u32 (now - rt) then promote t k ;;; ret None else ret None).

Definition remove_starvation : M (kcore F) unit :=
  starvation_scan 1 ;;; starvation_scan 2 ;;; starvation_scan 3 ;;; starvation_scan 4 ;;; ret tt.

(** Run the process [p] of queue [t]. *)
Definition run_queued (p : nat) : M (kst F) unit :=
  q <- on_core (getp p) ;;
  n <- on_core (ps_get ps_num_run (pid q)) ;;
  on_core (ps_set ps_num_run set_ps_num_run (pid q) (n + 1)) ;;;
  switchuvm p ;;;
  on_core (updp p (set_state RUNNING)) ;;;
  on_core (modify (set_cproc (Some p))) ;;;
  swtch p ;;;
  switchkvm.

(** Entry [i] of queue [t] has used up its slice: it moves down. *)
Definition demote (t i : Z) (p : nat) : M (kcore F) unit :=
  q <- getp p ;;
  queue_append (t + 1) p ;;;
  queue_delete t i ;;;
  ps_set ps_num_run set_ps_num_run (pid q) 0 ;;;
  dec_cxj t.

Definition account (t i : Z) (p : nat) : M (kcore F) unit :=
  q <- getp p ;;
  n <- ps_get ps_num_run (pid q) ;;
  ps_set_ticks (pid q) t n ;;;
  n <- ps_get ps_num_run (pid q) ;;
  d <- of_option (aget timedur t) ;;
  if n =? d then demote t i p else ret tt.

(** [for(i = 0; i <= cxj[t]; i++)] for one of the first four queues. *)
Fixpoint queue_loop (fuel : nat) (t i : Z) : M (kst F) unit :=
  n <- on_core (get_cxj t) ;;
  if i <=? n then
    match fuel with
    | O => out_of_fuel
    | S f =>
        o <- on_core (get_qxj t i) ;;
        p <- of_option o ;;
        q <- on_core (getp p) ;;
        if decide (state q ≠ RUNNABLE) then queue_loop f t (i + 1)
        else
          run_queued p ;;;
          on_core (account t i p) ;;;
          on_core (modify (set_cproc None)) ;;;
          queue_loop f t (i + 1)
    end
  else ret tt.

Definition run_queue (fuel : nat) (t : Z) : M (kst F) unit :=
  n <- on_core (get_cxj t) ;;
  if negb (n =? -1) then queue_loop fuel t 0 else ret tt.

(** The last queue: move the process to its end. *)
Definition rotate (i : Z) (p : nat) : M (kcore F) unit :=
  close_gap 4 i ;;;
  n <- get_cxj 4 ;;
  put_qxj 4 n (Some p).

Fixpoint rr_loop (fuel : nat) (i : Z) : M (kst F) unit :=
  n <- on_core (get_cxj 4) ;;
  if i <=? n then
    match fuel with
    | O => out_of_fuel
    | S f =>
        o <- on_core (get_qxj 4 i) ;;
        p <- of_option o ;;
        q <- on_core (getp p) ;;
        if decide (state q ≠ RUNNABLE) then rr_loop f (i + 1)
        else
          run_queued p ;;;
          q <- on_core (getp p) ;;
          n <- on_core (ps_get ps_num_run (pid q)) ;;
          on_core (ps_set_ticks (pid q) 3 n) ;;;
          on_core (rotate i p) ;;;
          on_core (modify (set_cproc None)) ;;;
          rr_loop f (i + 1)
    end
  else ret tt.

Definition run_last_queue (fuel : nat) : M (kst F) unit :=
  n <- on_core (get_cxj 4) ;;
  if negb (n =? -1) then rr_loop fuel 0 else ret tt.

Definition MLFQ_scheduler (fuel : nat) : M (kst F) unit :=
  acquire_pt me ;;;
  on_core remove_starvation ;;;
  run_queue fuel 0 ;;; run_queue fuel 1 ;;; run_queue fuel 2 ;;; run_queue fuel 3 ;;;
  run_last_queue fuel ;;;
  release_pt me.

(** The build chooses one scheduler; each turn of scheduler's loop enables
    interrupts and makes one pass. *)
Inductive policy : Type := DEFAULT | PBS | FCFS | MLFQ.

Definition sched_pass (pol : policy) (fuel : nat) : M (kst F) unit :=
  match pol with
  | DEFAULT => default_scheduler
  | PBS => priority_scheduler fuel
  | FCFS => fcfs_scheduler fuel
  | MLFQ => MLFQ_scheduler fuel
  end.

(** [n] turns of the loop. *)
Fixpoint scheduler_loop (pol : policy) (fuel n : nat) : M (kst F) unit :=
  match n with
  | O => ret tt
  | S n' => on_lk sti ;;; sched_pass pol fuel ;;; scheduler_loop pol fuel n'
  end.

Definition scheduler (pol : policy) (fuel n : nat) : M (kst F) unit :=
  on_core (modify (set_cproc None)) ;;; scheduler_loop pol fuel n.

End sched_code.
