(* ===== verification/SchedProps.v ===== *)
(** What the schedulers choose, and what MLFQ does to its queues. *)

From S2P Require Import Prelude Params Cstring Kalloc Vm Uvm Spinlock ProcData Proc ProcInv ProcProps Sched.

(** * The choice of the priority and FCFS schedulers *)

Section pick.
Context {F : Type} (key : proc → Z).
Implicit Types (c : kcore F).

Definition runnable c (i : nat) (p : proc) : Prop :=
  ptable c !! i = Some p ∧ state p = RUNNABLE.

(** [h] is chosen when the scan of the table starts from [p]: nothing
    runnable has a smaller key, and [h] is [p] itself unless its key is
    strictly smaller; the first such process wins. *)
Definition chosen c (p h : nat) : Prop :=
  ∃ ph pp, runnable c h ph ∧ runnable c p pp
    ∧ (∀ j q, runnable c j q → key ph ≤ key q)
    ∧ (h = p ∨ (key ph < key pp ∧ ∀ j q, (j < h)%nat → runnable c j q → key ph < key q)).

Lemma pick_min_run c p pp n : ∀ i h ph,
  (i + n ≤ length (ptable c))%nat → runnable c p pp → runnable c h ph →
  (∀ j q, (j < i)%nat → runnable c j q → key ph ≤ key q) →
  (h = p ∨ ((h < i)%nat ∧ key ph < key pp
            ∧ ∀ j q, (j < h)%nat → runnable c j q → key ph < key q)) →
  ∃ h' ph', pick_min key n i h c = Ret (h', c) ∧ runnable c h' ph'
    ∧ (∀ j q, (j < i + n)%nat → runnable c j q → key ph' ≤ key q)
    ∧ (h' = p ∨ (key ph' < key pp ∧ ∀ j q, (j < h')%nat → runnable c j q → key ph' < key q)).
Proof.
  induction n as [|n IH]; intros i h ph Hl Hp Hh Hmin Htie.
  { exists h, ph. split_and!; [done|done| |by destruct Htie as [?|(_ & ? & ?)]; auto].
    intros j q Hj. apply Hmin. lia. }
  cbn [pick_min]. destruct (lookup_lt_is_Some_2 (ptable c) i) as [q Hq]; [lia|].
  erewrite bind_ret_eval by by apply getp_run.
  replace (i + S n)%nat with (S i + n)%nat by lia.
  destruct (decide (state q ≠ RUNNABLE)) as [Hn|Hr%dec_stable].
  - apply (IH (S i) h ph); [lia|done|done| |by destruct Htie as [?|(? & ? & ?)]; auto].
    intros j r Hj Hr. destruct (decide (j = i)) as [->|].
    + destruct Hr as [Hr1 Hr2]. congruence.
    + apply (Hmin j r); [lia|done].
  - erewrite bind_ret_eval by (apply getp_run, Hh).
    destruct (Z.ltb_spec (key q) (key ph)) as [Hlt|Hge].
    + apply (IH (S i) i q); [lia|done|by split| |].
      * intros j r Hj Hrr. destruct (decide (j = i)) as [->|].
        -- destruct Hrr as [Hr1 _]. assert (r = q) as -> by congruence. lia.
        -- specialize (Hmin j r ltac:(lia) Hrr). lia.
      * right. split; [lia|]. split.
        -- destruct Htie as [->|(_ & ? & _)]; [|lia].
           destruct Hp as [Hp1 _], Hh as [Hh1 _]. assert (ph = pp) as -> by congruence. lia.
        -- intros j r Hj Hrr. specialize (Hmin j r Hj Hrr). lia.
    + apply (IH (S i) h ph); [lia|done|done| |].
      * intros j r Hj Hrr. destruct (decide (j = i)) as [->|].
        -- destruct Hrr as [Hr1 _]. assert (r = q) as -> by congruence. lia.
        -- apply (Hmin j r); [lia|done].
      * destruct Htie as [?|(? & ? & ?)]; [by left|right]. split_and!; done || lia.
Qed.

Lemma pick_min_chosen c p pp :
  length (ptable c) = 64%nat → runnable c p pp →
  ∃ h, pick_min key 64 0 p c = Ret (h, c) ∧ chosen c p h.
Proof.
  intros Hl Hp. destruct (pick_min_run c p pp 64 0 p pp) as (h & ph & H & Hh & Hmin & Htie);
    [by rewrite Hl|done|done|intros; lia|by left|].
  exists h. split; [done|]. exists ph, pp. split_and!; try done.
  intros j q Hj. apply (Hmin j); [|done].
  destruct Hj as [Hj _]. apply lookup_lt_Some in Hj. lia.
Qed.

(** A strict minimum is chosen from wherever the scan starts. *)
Lemma pick_min_strict c p pp h ph :
  length (ptable c) = 64%nat → runnable c p pp → runnable c h ph →
  (∀ j q, runnable c j q → j ≠ h → key ph < key q) →
  pick_min key 64 0 p c = Ret (h, c).
Proof.
  intros Hl Hp Hh Hmin. destruct (pick_min_chosen c p pp Hl Hp) as (h' & -> & ph' & _ & Hh' & _ & Hm & _).
  destruct (decide (h' = h)) as [->|Hne]; [done|].
  specialize (Hmin h' ph' Hh' Hne). specialize (Hm h ph Hh). lia.
Qed.
End pick.

(** * One pass of the default scheduler *)

Section default.
Context {F : Type} (me : nat) (l0 : lkst).
Implicit Types (s : kst F).

(** The state between two switches: ptable.lock is held, and whatever is
    runnable has a kernel stack and a page table. *)
Record ready (s : kst F) : Prop := {
  rd_lock : holds me l0 (lk s);
  rd_len : length (ptable (core s)) = 64%nat;
  rd_mem : ∀ i p, runnable (core s) i p → kstack p ≠ 0 ∧ pgdir p ≠ 0
}.

(** What the scheduler relies on when it switches to a process: the process
    comes back, with the lock held.  While it runs the lock is free, and
    other CPUs may run, make runnable or end any process. *)
Class Runs (run : nat → M (kst F) unit) : Prop :=
  runs_back : ∀ i p s, ready s → ptable (core s) !! i = Some p → state p = RUNNING →
    kstack p ≠ 0 → pgdir p ≠ 0 → ∃ s', run i s = Ret (tt, s') ∧ ready s'.

Lemma switchuvm_cpu s i p :
  cpu_wf (lk_cpu (lk s)) → ptable (core s) !! i = Some p → kstack p ≠ 0 → pgdir p ≠ 0 →
  ∃ c', switchuvm i s = Ret (tt, MkKst (set_cpu c' (lk s)) (set_cr3 (V2P (pgdir p))
          (@set_esp0 F (kstack p + KSTACKSIZE) (core s)))) ∧ same_level (lk_cpu (lk s)) c' ∧ cpu_wf c'.
Proof.
  intros Hw Hp Hks Hpg. unfold switchuvm.
  erewrite bind_ret_eval by (apply on_core_run, getp_run; exact Hp).
  destruct (Z.eqb_spec (kstack p) 0), (Z.eqb_spec (pgdir p) 0); try done.
  erewrite bind_ret_eval by (apply on_lk_run, pushcli_run).
  rewrite (bind_ret_eval _ _ _ tt (MkKst (set_cpu (pushed (lk_cpu (lk s))) (lk s))
    (set_esp0 (kstack p + KSTACKSIZE) (core s)))) by done.
  rewrite (bind_ret_eval _ _ _ tt (MkKst (set_cpu (pushed (lk_cpu (lk s))) (lk s))
    (set_cr3 (V2P (pgdir p)) (set_esp0 (kstack p + KSTACKSIZE) (core s))))) by done.
  destruct (popcli_run (lk_cpu (lk s)) (set_cpu (pushed (lk_cpu (lk s))) (lk s)))
    as (c' & H & Hs' & Hw'); [done|done|].
  exists c'. split; [by apply on_lk_run|done].
Qed.

Lemma switchuvm_run s i p :
  holds me l0 (lk s) → ptable (core s) !! i = Some p → kstack p ≠ 0 → pgdir p ≠ 0 →
  ∃ l', switchuvm i s = Ret (tt, MkKst l' (set_cr3 (V2P (pgdir p))
          (set_esp0 (kstack p + KSTACKSIZE) (core s)))) ∧ holds me l0 l'.
Proof.
  intros (Hk & Hs & Hw) Hp Hks Hpg. destruct (switchuvm_cpu s i p Hw Hp Hks Hpg) as (c' & H & Hs' & Hw').
  exists (set_cpu c' (lk s)). split; [done|]. split_and!; [done|by eapply same_level_trans|done].
Qed.

(** From [s], process [i] has the CPU until the scheduler is back in [s']: it
    is runnable, is entered as the current process, RUNNING, on its page
    table and its kernel stack, and the scheduler goes on without a current
    process on the kernel's page table. *)
Definition dispatched (run : nat → M (kst F) unit) (i : nat) (s s' : kst F) : Prop :=
  ∃ p b a, runnable (core s) i p ∧ run i b = Ret (tt, a)
    ∧ ptable (core b) = <[i := set_state RUNNING p]> (ptable (core s))
    ∧ cproc (core b) = Some i ∧ cr3 (core b) = V2P (pgdir p) ∧ esp0 (core b) = kstack p + KSTACKSIZE
    ∧ ptable (core s') = ptable (core a) ∧ cproc (core s') = None ∧ cr3 (core s') = V2P (kpgdir (core a)).

Lemma run_proc_run run `{!Runs run} s i p :
  ready s → runnable (core s) i p → ∃ s', run_proc run i s = Ret (tt, s') ∧ ready s' ∧ dispatched run i s s'.
Proof.
  intros [Hl Hlen Hmem] Hr. destruct (Hmem i p Hr) as [Hks Hpg]. pose proof Hr as [Hp Hst].
  unfold run_proc.
  rewrite (bind_ret_eval _ _ _ tt (MkKst (lk s) (set_cproc (Some i) (core s)))) by done.
  destruct (switchuvm_run (MkKst (lk s) (set_cproc (Some i) (core s))) i p)
    as (l1 & H1 & Hl1); [done|done|done|done|]. erewrite bind_ret_eval by exact H1.
  erewrite bind_ret_eval by (apply on_core_run, updp_run; exact Hp).
  cbn [lk core]. set (c2 := set_ptable _ _).
  set (s3 := MkKst l1 (set_swtched (i :: swtched c2) c2)).
  destruct (runs_back i (set_state RUNNING p) s3) as (s4 & H4 & [A1 A2 A3]); try done.
  { split; [done|cbn; by rewrite length_insert|]. intros j q [Hj Hj']. cbn in Hj. destruct (decide (j = i)) as [->|Hne].
    - rewrite list_lookup_insert_eq in Hj by (by eapply lookup_lt_Some). injection Hj as <-. done.
    - rewrite list_lookup_insert_ne in Hj by done. by apply (Hmem j). }
  { cbn. apply list_lookup_insert_eq. by eapply lookup_lt_Some. }
  rewrite (bind_ret_eval _ _ _ tt s4).
  2: { unfold swtch. by rewrite (bind_ret_eval _ _ _ tt s3). }
  exists (MkKst (lk s4) (set_cproc None (set_cr3 (V2P (kpgdir (core s4))) (core s4)))).
  split; [done|]. split; [|by exists p, s3, s4]. split; [done|done|]. intros j q Hj. apply (A3 j q Hj).
Qed.

Definition default_body (run : nat → M (kst F) unit) (i : nat) : M (kst F) (option unit) :=
  p <- on_core (getp i) ;;
  if decide (state p ≠ RUNNABLE) then ret None else run_proc run i ;;; ret None.

(** ** The turns of a pass *)

(** One turn: the process that is switched to, and the state before the
    switch and after the return from it. *)
Record turn : Type := MkTurn { tn_proc : nat; tn_before : kst F; tn_after : kst F }.

(** The turns follow one another from [s] to [s']. *)
Fixpoint turns (run : nat → M (kst F) unit) (s : kst F) (tr : list turn) (s' : kst F) : Prop :=
  match tr with
  | [] => s' = s
  | t :: tr =>
      tn_before t = s ∧ dispatched run (tn_proc t) s (tn_after t) ∧ turns run (tn_after t) tr s'
  end.

(** In the turn of another process, [j] stops being runnable. *)
Definition taken (j : nat) (t : turn) : Prop :=
  tn_proc t ≠ j ∧ (∃ p, runnable (core (tn_before t)) j p) ∧ ∀ p, ¬ runnable (core (tn_after t)) j p.

Lemma runnable_dec c j : (∃ p, runnable (F := F) c j p) ∨ (∀ p, ¬ runnable c j p).
Proof.
  destruct (ptable c !! j) as [p|] eqn:E; [|right; intros q [Hq _]; congruence].
  destruct (decide (state p = RUNNABLE)); [left; by exists p|right]. intros q [Hq ?]. congruence.
Qed.

Lemma default_loop_run run `{!Runs run} n : ∀ i s,
  ready s → (i + n ≤ 64)%nat →
  ∃ s' tr, for_loop n i (default_body run) s = Ret (None, s') ∧ ready s' ∧ turns run s tr s'
    ∧ StronglySorted lt (tn_proc <$> tr) ∧ Forall (λ t, i ≤ tn_proc t)%nat tr
    ∧ ∀ j p, (i ≤ j < i + n)%nat → runnable (core s) j p → j ∈ tn_proc <$> tr ∨ Exists (taken j) tr.
Proof.
  induction n as [|n IH]; intros i s Hrd Hn.
  { exists s, []. split_and!; try done; [constructor|intros; lia]. }
  cbn [for_loop]. pose proof (rd_len _ Hrd) as Hlen.
  destruct (lookup_lt_is_Some_2 (ptable (core s)) i) as [p Hp]; [lia|].
  unfold default_body at 1.
  destruct (decide (state p = RUNNABLE)) as [Hr|Hr].
  - destruct (run_proc_run run s i p) as (s1 & H1 & Hrd1 & Hd1); [done|done|].
    erewrite bind_ret_eval.
    2: { erewrite bind_ret_eval by (apply on_core_run, getp_run; exact Hp).
         rewrite decide_False by (intros Hne; by apply Hne).
         rewrite (bind_ret_eval _ _ _ tt s1) by (destruct s; exact H1). reflexivity. }
    destruct (IH (S i) s1) as (s' & tr & H' & Hrd' & Htr & Hso & Hge & Hin); [done|lia|].
    exists s', (MkTurn i s s1 :: tr). split_and!; try done.
    + cbn. constructor; [done|]. apply Forall_fmap. eapply Forall_impl; [exact Hge|]. cbn. lia.
    + constructor; [done|]. eapply Forall_impl; [exact Hge|]. cbn. lia.
    + intros j q Hj Hq. destruct (decide (j = i)) as [->|Hne]; [left; left|].
      destruct (runnable_dec (core s1) j) as [[q' Hq']|Hno].
      * destruct (Hin j q') as [?|?]; [lia|done|left; by right|right; by right].
      * right. left. split; [done|]. split; [by exists q|done].
  - erewrite bind_ret_eval.
    2: { erewrite bind_ret_eval by (apply on_core_run, getp_run; exact Hp).
         by rewrite decide_True by done. }
    destruct (IH (S i) (MkKst (lk s) (core s))) as (s' & tr & H' & Hrd' & Htr & Hso & Hge & Hin); [by destruct s|lia|].
    exists s', tr. split_and!; try done; [by destruct s|eapply Forall_impl; [exact Hge|]; cbn; lia|].
    intros j q Hj Hq. destruct (decide (j = i)) as [->|Hne]; [destruct Hq; congruence|]. apply (Hin j q); [lia|done].
Qed.
End default.
Arguments turn F : clear implicits.

(** * The queues of MLFQ *)

Section mlfq.
Context {F : Type}.
Implicit Types (c : kcore F) (t i j : nat) (row : list (option nat)).

Lemma aget_nat {A} (l : list A) i : aget l (Z.of_nat i) = l !! i.
Proof. unfold aget. destruct (Z.ltb_spec (Z.of_nat i) 0); [lia|]. by rewrite Nat2Z.id. Qed.

Lemma aset_nat {A} (l : list A) i v :
  (i < length l)%nat → aset l (Z.of_nat i) v = Some (<[i := v]> l).
Proof. intros H. unfold aset. zcases. by rewrite Nat2Z.id. Qed.

Lemma get_cxj_run c t n : cxj c !! t = Some n → get_cxj (Z.of_nat t) c = Ret (n, c).
Proof. intros H. unfold get_cxj, get, bind. by rewrite aget_nat, H. Qed.

Lemma put_cxj_run c t n n' :
  cxj c !! t = Some n → put_cxj (Z.of_nat t) n' c = Ret (tt, set_cxj (<[t := n']> (cxj c)) c).
Proof.
  intros H. unfold put_cxj, get, bind. rewrite aset_nat by (by eapply lookup_lt_Some). done.
Qed.

Lemma get_qxj_run c t j row p :
  qxj c !! t = Some row → row !! j = Some p → get_qxj (Z.of_nat t) (Z.of_nat j) c = Ret (p, c).
Proof.
  intros H1 H2. unfold get_qxj, get, bind. rewrite aget_nat, H1. simpl. by rewrite aget_nat, H2.
Qed.

Lemma put_qxj_run c t j row p :
  qxj c !! t = Some row → (j < length row)%nat →
  put_qxj (Z.of_nat t) (Z.of_nat j) p c
  = Ret (tt, set_qxj (<[t := <[j := p]> row]> (qxj c)) c).
Proof.
  intros H1 H2. unfold put_qxj, get, bind. rewrite aget_nat, H1. simpl.
  rewrite aset_nat by done. simpl. rewrite aset_nat by (by eapply lookup_lt_Some). done.
Qed.

(** The row after the shift loop. *)
Fixpoint shift_row (row : list (option nat)) (j n : nat) : list (option nat) :=
  match n with
  | O => row
  | S n' =>
      match row !! S j with
      | Some p => shift_row (<[j := p]> row) (S j) n'
      | None => row
      end
  end.

Lemma shift_row_length n : ∀ row j, length (shift_row row j n) = length row.
Proof.
  induction n as [|n IH]; intros row j; [done|]. cbn [shift_row].
  destruct (row !! S j); [|done]. by rewrite IH, length_insert.
Qed.

Lemma shift_row_lookup n : ∀ row j k,
  (j + n < length row)%nat →
  shift_row row j n !! k = if (j <=? k)%nat && (k <? j + n)%nat then row !! S k else row !! k.
Proof.
  induction n as [|n IH]; intros row j k Hl; cbn [shift_row].
  { destruct (Nat.leb_spec j k), (Nat.ltb_spec k (j + 0)); simpl; done || lia. }
  destruct (lookup_lt_is_Some_2 row (S j)) as [p Hp]; [lia|]. rewrite Hp.
  rewrite IH by (rewrite length_insert; lia).
  destruct (Nat.leb_spec j k), (Nat.ltb_spec k (j + S n)), (Nat.leb_spec (S j) k),
    (Nat.ltb_spec k (S j + n)); simpl; try lia.
  - by rewrite list_lookup_insert_ne by lia.
  - assert (k = j) as -> by lia. rewrite list_lookup_insert_eq by lia. done.
  - by rewrite list_lookup_insert_ne by lia.
  - by rewrite list_lookup_insert_ne by lia.
Qed.

Lemma set_qxj_same c t row : qxj c !! t = Some row → set_qxj (<[t := row]> (qxj c)) c = c.
Proof. intros H. rewrite list_insert_id by done. by destruct c. Qed.

Lemma shift_queue_run n : ∀ c t j row,
  qxj c !! t = Some row → (j + n < length row)%nat →
  shift_queue (Z.of_nat t) (Z.of_nat j) n c
  = Ret (tt, set_qxj (<[t := shift_row row j n]> (qxj c)) c).
Proof.
  induction n as [|n IH]; intros c t j row Hrow Hn; cbn [shift_queue shift_row].
  { by rewrite (set_qxj_same c t row). }
  destruct (lookup_lt_is_Some_2 row (S j)) as [p Hp]; [lia|]. rewrite Hp.
  replace (Z.of_nat j + 1) with (Z.of_nat (S j)) by lia.
  erewrite bind_ret_eval by by eapply get_qxj_run.
  erewrite bind_ret_eval by (eapply put_qxj_run; [done|lia]).
  rewrite (IH _ t (S j) (<[j := p]> row)).
  - cbn [qxj set_qxj]. unfold set_qxj; simpl. by rewrite list_insert_insert_eq.
  - cbn [qxj set_qxj]. apply list_lookup_insert_eq. by eapply lookup_lt_Some.
  - rewrite length_insert. lia.
Qed.

(** Queue [t] holds the entries [0, cxj[t]] of its row. *)
Definition queue c t : list (option nat) :=
  match qxj c !! t, cxj c !! t with
  | Some row, Some n => take (Z.to_nat (n + 1)) row
  | _, _ => []
  end.

Record mlfq_wf c : Prop := {
  mw_cxj : length (cxj c) = 5%nat;
  mw_qxj : length (qxj c) = 5%nat;
  mw_row : ∀ t row, qxj c !! t = Some row → length row = 64%nat;
  mw_len : ∀ t n, cxj c !! t = Some n → -1 ≤ n < 64
}.

Lemma mlfq_row c t :
  mlfq_wf c → (t < 5)%nat →
  ∃ row n, qxj c !! t = Some row ∧ cxj c !! t = Some n ∧ length row = 64%nat ∧ -1 ≤ n < 64
    ∧ queue c t = take (Z.to_nat (n + 1)) row.
Proof.
  intros [H1 H2 H3 H4] Ht.
  destruct (lookup_lt_is_Some_2 (qxj c) t) as [row Hr]; [lia|].
  destruct (lookup_lt_is_Some_2 (cxj c) t) as [n Hn]; [lia|].
  exists row, n. pose proof (H3 t row Hr). pose proof (H4 t n Hn).
  split_and!; try done; try lia. unfold queue. by rewrite Hr, Hn.
Qed.

(** Position [i] of the queue leaves its row; the last place keeps what it
    held, and the count is not changed yet. *)
Definition gap_row row (i n : nat) : list (option nat) := shift_row (<[i := None]> row) i (n - i).

Lemma close_gap_run c t i row n :
  qxj c !! t = Some row → cxj c !! t = Some (Z.of_nat n) → (i ≤ n)%nat → (n < length row)%nat →
  close_gap (Z.of_nat t) (Z.of_nat i) c = Ret (tt, set_qxj (<[t := gap_row row i n]> (qxj c)) c).
Proof.
  intros Hr Hn Hi Hl. unfold close_gap, gap_row.
  erewrite bind_ret_eval by (eapply put_qxj_run; [done|lia]).
  erewrite bind_ret_eval by by apply get_cxj_run.
  replace (Z.to_nat (Z.of_nat n - Z.of_nat i)) with (n - i)%nat by lia.
  rewrite (shift_queue_run _ _ t i (<[i := None]> row)).
  - unfold set_qxj; simpl. by rewrite list_insert_insert_eq.
  - cbn. apply list_lookup_insert_eq. by eapply lookup_lt_Some.
  - rewrite length_insert. lia.
Qed.

Lemma gap_row_lookup row i n k :
  (i ≤ n)%nat → (n < length row)%nat → (k < n)%nat →
  gap_row row i n !! k = delete i row !! k.
Proof.
  intros Hi Hn Hk. unfold gap_row. rewrite shift_row_lookup by (rewrite length_insert; lia).
  destruct (Nat.leb_spec i k), (Nat.ltb_spec k (i + (n - i))); simpl; try lia.
  - rewrite list_lookup_insert_ne by lia. rewrite list_lookup_delete_ge by lia. done.
  - rewrite list_lookup_insert_ne by lia. rewrite list_lookup_delete_lt by lia. done.
Qed.

Lemma take_gap_row row i n :
  (i ≤ n)%nat → (n < length row)%nat → take n (gap_row row i n) = delete i (take (S n) row).
Proof.
  intros Hi Hn. apply list_eq. intros k.
  destruct (Nat.lt_ge_cases k n) as [Hk|Hk].
  - rewrite lookup_take_lt by done. rewrite gap_row_lookup by done.
    destruct (Nat.lt_ge_cases k i).
    + rewrite !list_lookup_delete_lt by lia. by rewrite lookup_take_lt by lia.
    + rewrite !list_lookup_delete_ge by lia. by rewrite lookup_take_lt by lia.
  - rewrite lookup_ge_None_2 by (rewrite length_take; lia).
    symmetry. apply lookup_ge_None_2. rewrite length_delete by (apply lookup_lt_is_Some_2; rewrite length_take; lia).
    rewrite length_take. lia.
Qed.

(** The pstat arrays the queues use have 64 entries. *)
Definition ps_ok c : Prop :=
  length (ps_current_queue (pstat_var c)) = 64%nat ∧ length (ps_runtime (pstat_var c)) = 64%nat
  ∧ length (ps_num_run (pstat_var c)) = 64%nat.

Lemma ps_set_run g st i v c :
  (i < length (g (pstat_var c)))%nat →
  ps_set g st (Z.of_nat i) v c
  = Ret (tt, set_pstat_var (st (<[i := v]> (g (pstat_var c))) (pstat_var c)) c).
Proof. intros H. unfold ps_set, get, put, bind. by rewrite aset_nat. Qed.

(** pstat_var after a process has moved to queue [t] at time [now]. *)
Definition moved_pstat (k t : nat) (now : Z) (v : proc_stat) : proc_stat :=
  set_ps_runtime (<[k := now]> (ps_runtime v))
    (set_ps_current_queue (<[k := Z.of_nat t]> (ps_current_queue v)) v).

Lemma queue_append_run c t p q k row n :
  ps_ok c → qxj c !! t = Some row → cxj c !! t = Some n → 0 ≤ n + 1 < Z.of_nat (length row) →
  ptable c !! p = Some q → pid q = Z.of_nat k → (k < 64)%nat →
  queue_append (Z.of_nat t) p c
  = Ret (tt, set_qxj (<[t := <[Z.to_nat (n + 1) := Some p]> row]> (qxj c))
      (set_pstat_var (moved_pstat k t (ticks c) (pstat_var c))
        (set_cxj (<[t := n + 1]> (cxj c)) c))).
Proof.
  intros (P1 & P2 & P3) Hrow Hn Hlen Hp Hk Hk64. unfold queue_append.
  erewrite bind_ret_eval by by apply get_cxj_run.
  erewrite bind_ret_eval by by eapply put_cxj_run.
  erewrite bind_ret_eval by (apply getp_run; exact Hp). rewrite Hk.
  erewrite bind_ret_eval by (apply ps_set_run; cbn; lia).
  unfold gets at 1. unfold bind at 1.
  erewrite bind_ret_eval by (apply ps_set_run; cbn; lia).
  erewrite bind_ret_eval.
  2: { apply get_cxj_run. cbn. apply list_lookup_insert_eq. by eapply lookup_lt_Some. }
  replace (n + 1) with (Z.of_nat (Z.to_nat (n + 1))) at 1 by lia.
  rewrite (put_qxj_run _ t _ row); [done|exact Hrow|lia].
Qed.

(** Where queue_delete leaves the row: entry [i] of a queue whose last place
    is [n] goes, or, if [i] lies behind the queue, the last entry. *)
Definition deleted_row row (i n : nat) : list (option nat) :=
  <[n := None]> (if decide (i ≤ n)%nat then gap_row row i n else <[i := None]> row).

Lemma gap_row_length row i n : length (gap_row row i n) = length row.
Proof. unfold gap_row. by rewrite shift_row_length, length_insert. Qed.

Lemma queue_delete_run c t i row n :
  qxj c !! t = Some row → cxj c !! t = Some (Z.of_nat n) → (i < length row)%nat →
  (n < length row)%nat →
  queue_delete (Z.of_nat t) (Z.of_nat i) c
  = Ret (tt, set_qxj (<[t := deleted_row row i n]> (qxj c)) c).
Proof.
  intros Hrow Hn Hi Hl. unfold queue_delete, deleted_row.
  assert (close_gap (Z.of_nat t) (Z.of_nat i) c = Ret (tt,
    set_qxj (<[t := if decide (i ≤ n)%nat then gap_row row i n else <[i := None]> row]> (qxj c)) c)) as Hc.
  { destruct (decide (i ≤ n)%nat); [by apply close_gap_run|]. unfold close_gap.
    erewrite bind_ret_eval by (eapply put_qxj_run; done).
    erewrite bind_ret_eval by by apply get_cxj_run.
    by replace (Z.to_nat (Z.of_nat n - Z.of_nat i)) with 0%nat by lia. }
  erewrite bind_ret_eval by exact Hc. erewrite bind_ret_eval by by apply get_cxj_run.
  erewrite put_qxj_run; [| |].
  - unfold set_qxj; simpl. by rewrite list_insert_insert_eq.
  - cbn. apply list_lookup_insert_eq. by eapply lookup_lt_Some.
  - case_decide; rewrite ?gap_row_length, ?length_insert; done.
Qed.

Lemma take_deleted_row row i n :
  (n < length row)%nat →
  take n (deleted_row row i n) = if decide (i ≤ n)%nat then delete i (take (S n) row) else take n row.
Proof.
  intros Hn. unfold deleted_row. rewrite take_insert_ge by lia.
  case_decide; [by apply take_gap_row|]. by rewrite take_insert_ge by lia.
Qed.

(** The process leaves place [i] of queue [src] for the end of [dst]: the
    common part of promote and demote. *)
Definition queue_move (src dst i : Z) (k : Z) (p : nat) : M (kcore F) unit :=
  queue_append dst p ;;;
  queue_delete src i ;;;
  ps_set ps_num_run set_ps_num_run k 0 ;;;
  dec_cxj src.

Definition moved c (src dst i p k : nat) c' : Prop :=
  mlfq_wf c' ∧ ps_ok c' ∧ ptable c' = ptable c
  ∧ queue c' dst = queue c dst ++ [Some p]
  ∧ queue c' src = (if decide (i < length (queue c src))%nat then delete i (queue c src)
                    else take (length (queue c src) - 1) (queue c src))
  ∧ (∀ t, t ≠ src → t ≠ dst → queue c' t = queue c t)
  ∧ ps_current_queue (pstat_var c') !! k = Some (Z.of_nat dst)
  ∧ ps_runtime (pstat_var c') !! k = Some (ticks c)
  ∧ ps_num_run (pstat_var c') !! k = Some 0.

Lemma queue_eq c t row n :
  qxj c !! t = Some row → cxj c !! t = Some n → queue c t = take (Z.to_nat (n + 1)) row.
Proof. intros H1 H2. unfold queue. by rewrite H1, H2. Qed.

Section move.
Context (c c' : kcore F) (src dst i p k : nat) (rs rd : list (option nat)) (ns nd : Z).
Context (Hwf : mlfq_wf c) (Hps : ps_ok c) (Hne : src ≠ dst) (Hk : (k < 64)%nat).
Context (Hrs : qxj c !! src = Some rs) (Hrd : qxj c !! dst = Some rd).
Context (Hns : cxj c !! src = Some ns) (Hnd : cxj c !! dst = Some nd).
Context (Hns0 : 0 ≤ ns) (Hroom : nd + 1 < 64) (Hi : (i < 64)%nat).
Context (Hcx : cxj c' = <[src := ns - 1]> (<[dst := nd + 1]> (cxj c))).
Context (Hqx : qxj c' = <[src := deleted_row rs i (Z.to_nat ns)]>
                          (<[dst := <[Z.to_nat (nd + 1) := Some p]> rd]> (qxj c))).
Context (Hpv : pstat_var c' = set_ps_num_run (<[k := 0]> (ps_num_run (pstat_var c)))
                                (moved_pstat k dst (ticks c) (pstat_var c))).
Context (Hpt : ptable c' = ptable c).

Lemma move_lookup t :
  t ≠ src → t ≠ dst → qxj c' !! t = qxj c !! t ∧ cxj c' !! t = cxj c !! t.
Proof. intros ??. rewrite Hqx, Hcx. by rewrite !list_lookup_insert_ne by done. Qed.

Lemma move_src :
  qxj c' !! src = Some (deleted_row rs i (Z.to_nat ns)) ∧ cxj c' !! src = Some (ns - 1).
Proof.
  rewrite Hqx, Hcx. rewrite !list_lookup_insert_eq; [done|..];
    rewrite length_insert; by eapply lookup_lt_Some.
Qed.

Lemma move_dst :
  qxj c' !! dst = Some (<[Z.to_nat (nd + 1) := Some p]> rd) ∧ cxj c' !! dst = Some (nd + 1).
Proof.
  rewrite Hqx, Hcx. rewrite !(list_lookup_insert_ne _ src) by done.
  rewrite !list_lookup_insert_eq; [done|..]; by eapply lookup_lt_Some.
Qed.

Lemma deleted_row_length row j n : length (deleted_row row j n) = length row.
Proof.
  unfold deleted_row. case_decide; by rewrite ?length_insert, ?gap_row_length, ?length_insert.
Qed.

Lemma move_wf : mlfq_wf c'.
Proof.
  pose proof Hwf as [W1 W2 W3 W4]. split.
  - by rewrite Hcx, !length_insert.
  - by rewrite Hqx, !length_insert.
  - intros t row Hrow. destruct (decide (t = src)) as [->|]; [|destruct (decide (t = dst)) as [->|]].
    + rewrite (proj1 move_src) in Hrow. injection Hrow as <-. rewrite deleted_row_length. eauto.
    + rewrite (proj1 move_dst) in Hrow. injection Hrow as <-. rewrite length_insert. eauto.
    + rewrite (proj1 (move_lookup t ltac:(done) ltac:(done))) in Hrow. eauto.
  - intros t n Hn. destruct (decide (t = src)) as [->|]; [|destruct (decide (t = dst)) as [->|]].
    + rewrite (proj2 move_src) in Hn. injection Hn as <-. pose proof (W4 src ns Hns). lia.
    + rewrite (proj2 move_dst) in Hn. injection Hn as <-. pose proof (W4 dst nd Hnd). lia.
    + rewrite (proj2 (move_lookup t ltac:(done) ltac:(done))) in Hn. eauto.
Qed.

Lemma moved_intro : moved c src dst i p k c'.
Proof.
  pose proof Hwf as [W1 W2 W3 W4]. pose proof (W3 src rs Hrs) as Hls. pose proof (W3 dst rd Hrd) as Hld.
  pose proof (W4 src ns Hns). pose proof (W4 dst nd Hnd).
  split; [exact move_wf|]. destruct Hps as (P1 & P2 & P3). split_and!.
  - split_and!; rewrite Hpv; cbn; by rewrite length_insert.
  - done.
  - rewrite (queue_eq c' dst _ _ (proj1 move_dst) (proj2 move_dst)), (queue_eq c dst _ _ Hrd Hnd).
    replace (Z.to_nat (nd + 1 + 1)) with (S (Z.to_nat (nd + 1))) by lia.
    rewrite (take_S_r _ _ (Some p)) by (apply list_lookup_insert_eq; lia).
    by rewrite take_insert_ge by lia.
  - rewrite (queue_eq c' src _ _ (proj1 move_src) (proj2 move_src)), (queue_eq c src _ _ Hrs Hns).
    replace (Z.to_nat (ns - 1 + 1)) with (Z.to_nat ns) by lia.
    replace (Z.to_nat (ns + 1)) with (S (Z.to_nat ns)) by lia.
    rewrite take_deleted_row by lia. rewrite length_take, Hls.
    replace (S (Z.to_nat ns) `min` 64)%nat with (S (Z.to_nat ns)) by lia.
    destruct (decide (i ≤ Z.to_nat ns)%nat), (decide (i < S (Z.to_nat ns))%nat); try lia; [done|].
    rewrite take_take. f_equal. lia.
  - intros t ??. unfold queue. destruct (move_lookup t) as [-> ->]; done.
  - rewrite Hpv. cbn. apply list_lookup_insert_eq. lia.
  - rewrite Hpv. cbn. apply list_lookup_insert_eq. lia.
  - rewrite Hpv. cbn. apply list_lookup_insert_eq. lia.
Qed.
End move.

Lemma queue_move_run c src dst i p q k :
  mlfq_wf c → ps_ok c → (src < 5)%nat → (dst < 5)%nat → src ≠ dst → (i < 64)%nat →
  ptable c !! p = Some q → pid q = Z.of_nat k → (k < 64)%nat →
  queue c src ≠ [] → (length (queue c dst) < 64)%nat →
  ∃ c', queue_move (Z.of_nat src) (Z.of_nat dst) (Z.of_nat i) (Z.of_nat k) p c = Ret (tt, c')
        ∧ moved c src dst i p k c'.
Proof.
  intros Hwf Hps Hsrc Hdst Hne Hi Hp Hk Hk64 Hq Hroom.
  destruct (mlfq_row c src Hwf Hsrc) as (rs & ns & Hrs & Hns & Hls & Hns' & Eqs).
  destruct (mlfq_row c dst Hwf Hdst) as (rd & nd & Hrd & Hnd & Hld & Hnd' & Eqd).
  rewrite Eqs in Hq. rewrite Eqd, length_take in Hroom.
  assert (0 ≤ ns) as Hns0 by (destruct (decide (ns = -1)) as [->|]; [by destruct Hq|lia]).
  assert (nd + 1 < 64) as Hnd1 by lia.
  unfold queue_move.
  erewrite bind_ret_eval by (eapply (queue_append_run c dst p q k rd nd); done || lia).
  set (c1 := set_qxj _ _).
  assert (qxj c1 !! src = Some rs) as Hrs1 by (cbn; by rewrite list_lookup_insert_ne by done).
  assert (cxj c1 !! src = Some (Z.of_nat (Z.to_nat ns))) as Hns1
    by (cbn; rewrite list_lookup_insert_ne by done; rewrite Hns; f_equal; lia).
  erewrite bind_ret_eval by (eapply (queue_delete_run c1 src i rs); done || lia).
  set (c2 := set_qxj _ c1).
  erewrite bind_ret_eval by (apply ps_set_run; cbn; destruct Hps as (? & ? & ?); lia).
  set (c3 := set_pstat_var _ c2).
  assert (cxj c3 !! src = Some ns) as Hns3 by (cbn; by rewrite list_lookup_insert_ne by done).
  unfold dec_cxj. erewrite bind_ret_eval by by apply get_cxj_run.
  erewrite put_cxj_run by exact Hns3. eexists. split; [done|].
  by apply (moved_intro _ _ _ _ _ _ _ rs rd ns nd).
Qed.
End mlfq.

Lemma fcfs_loop_stuck {F} run (s : kst F) r pr h ph j pj :
  length (ptable (core s)) = 64%nat →
  running_p (core s) = Some r → ptable (core s) !! r = Some pr → state pr = RUNNING →
  runnable (core s) h ph → runnable (core s) j pj → (h < j)%nat → ctime pr ≤ ctime ph →
  (∀ k q, runnable (core s) k q → k ≠ h → ctime ph < ctime q) →
  ∀ fuel p, (p ≤ j)%nat → fcfs_loop run fuel p s = OutOfFuel.
Proof.
  intros Hlen Hr Hpr Hrun Hh Hj Hhj Hold Hmin fuel. destruct s as [l c]; cbn [lk core] in *.
  assert (j < 64)%nat as Hj64 by (rewrite <- Hlen; destruct Hj as [Hj _]; by eapply lookup_lt_Some).
  induction fuel as [|fuel IH]; intros p Hp; cbn [fcfs_loop].
  { destruct (Nat.ltb_spec p 64); [done|lia]. }
  destruct (Nat.ltb_spec p 64) as [_|]; [|lia].
  destruct (lookup_lt_is_Some_2 (ptable c) p) as [q Hq]; [lia|].
  erewrite bind_ret_eval by (apply on_core_run, getp_run; exact Hq).
  destruct (decide (state q ≠ RUNNABLE)) as [Hn|Hq'%dec_stable].
  { apply IH. destruct (decide (p = j)) as [->|]; [|lia].
    destruct Hj as [Hj1 Hj2]. congruence. }
  erewrite bind_ret_eval by (apply on_core_run; by eapply (pick_min_strict ctime c p q h ph)).
  assert (fcfs_may_run h c = Ret (false, c)) as Hmay.
  { unfold fcfs_may_run, gets, bind at 1. rewrite Hr.
    erewrite bind_ret_eval by by apply getp_run. erewrite bind_ret_eval by (apply getp_run, Hh).
    rewrite bool_decide_true, (bool_decide_false (state pr ≠ RUNNING)) by (auto || (intros Hn; by apply Hn)).
    destruct (Z.ltb_spec (ctime ph) (ctime pr)); [lia|done]. }
  erewrite bind_ret_eval by (apply on_core_run; exact Hmay).
  rewrite (bind_ret_eval _ _ _ tt (MkKst l c)) by done. apply IH. lia.
Qed.

(** * Examples *)

(** Two runnable processes next to init, with stacks and page tables. *)
Definition ex_run_proc (n prio ct : Z) : proc :=
  MkProc 4096 ex_dir (ex_kend + 16384) RUNNABLE n (Some 0%nat) 0 0 (ChAddr 0) 0
    (replicate 16 0) 0 (replicate 16 0) prio ct 0 0.
Definition ex_sched_table : list proc :=
  [set_state SLEEPING (set_pid 1 zero_proc); ex_run_proc 2 60 10; ex_run_proc 3 20 12]
  ++ replicate 61 zero_proc.

(** A process that gives up the CPU at once. *)
Definition ex_yields (i : nat) : M (kst unit) unit := on_core (updp i (set_state RUNNABLE)).

(** While process 1 runs, another CPU takes process 2. *)
Definition ex_takes (i : nat) : M (kst unit) unit :=
  on_core (updp i (set_state RUNNABLE) ;;; if (i =? 1)%nat then updp 2 (set_state RUNNING) else ret tt).

(** Changing the state of a process that has its memory. *)
Lemma ready_set_state me l0 (s : kst unit) i p st :
  ready me l0 s → ptable (core s) !! i = Some p → kstack p ≠ 0 ∧ pgdir p ≠ 0 ∨ st ≠ RUNNABLE →
  ready me l0 (MkKst (lk s) (set_ptable (<[i := set_state st p]> (ptable (core s))) (core s))).
Proof.
  intros [Hl Hlen Hmem] Hp Hk. split; [done|cbn; by rewrite length_insert|].
  intros j q [Hj Hj']. cbn in Hj. destruct (decide (j = i)) as [->|].
  - rewrite list_lookup_insert_eq in Hj by (by eapply lookup_lt_Some). injection Hj as <-. by destruct Hk.
  - rewrite list_lookup_insert_ne in Hj by done. by apply (Hmem j q).
Qed.

Lemma ex_takes_runs me l0 : Runs me l0 ex_takes.
Proof.
  intros i p s Hrd Hp Hst Hks Hpg. pose proof (ready_set_state me l0 s i p RUNNABLE Hrd Hp (or_introl (conj Hks Hpg))) as R1.
  pose proof (rd_len _ _ _ R1) as Hlen. unfold ex_takes.
  set (s1 := MkKst _ _) in R1, Hlen. destruct (Nat.eqb_spec i 1) as [->|].
  - destruct (lookup_lt_is_Some_2 (ptable (core s1)) 2) as [q Hq]; [lia|].
    eexists. split; [|apply (ready_set_state me l0 s1 2 q RUNNING); [done|done|by right]].
    apply (on_core_run _ s tt). rewrite (bind_ret_eval _ _ _ tt (core s1)) by (by apply updp_run). by apply updp_run.
  - exists s1. split; [|done]. apply (on_core_run _ s tt). rewrite (bind_ret_eval _ _ _ tt (core s1)) by (by apply updp_run). done.
Qed.

Lemma ex_sched_runnable (c : kcore unit) i p :
  ptable c = ex_sched_table → runnable c i p →
  (i = 1%nat ∧ p = ex_run_proc 2 60 10) ∨ (i = 2%nat ∧ p = ex_run_proc 3 20 12).
Proof.
  intros Ht [Hp Hr]. rewrite Ht in Hp. unfold ex_sched_table in Hp.
  destruct i as [|[|[|i]]]; [injection Hp as <-; done|injection Hp as <-; auto..|].
  change (replicate 61 zero_proc !! i = Some p) in Hp. apply lookup_replicate in Hp as [-> _]. done.
Qed.

Definition ex_sched_kst : kst unit := ex_kst ex_sched_table.

(** The state with ptable.lock held by CPU 0. *)
Definition ex_sched_locked : kst unit :=
  MkKst (MkLkst (MkCpu 1 true false) (MkSpinlock 1 (Some 0%nat))) (ex_core ex_sched_table).

Lemma ex_sched_ready l : holds 0 ex_lkst l → ready 0 ex_lkst (MkKst l (ex_core ex_sched_table)).
Proof.
  intros Hl. split; [done|done|].
  intros i p Hr. apply ex_sched_runnable in Hr as [[-> ->]|[-> ->]]; done.
Qed.

(** * Properties *)

Lemma ex_takes_switched :
  match default_scheduler 0 ex_takes ex_sched_kst with Ret (_, s') => swtched (core s') | _ => [] end = [1%nat].
Proof. vm_compute. reflexivity. Qed.

(** C39. Round robin: one pass of the default scheduler returns, having
    switched to processes in table order, to each at most once and only when
    it was runnable; and a process that was runnable at the start of the pass
    is switched to unless it stopped being runnable in the turn of another
    one, when another CPU may take it.  Each process is assumed to give the
    CPU back with ptable.lock held; what else happens in its turn is free. *)
Theorem default_scheduler_fair {F} me run (s : kst F) :
  lk_free (lk s) → Runs me (lk s) run →
  (∀ l, holds me (lk s) l → ready me (lk s) (MkKst l (core s))) →
  ∃ l1 tr s2 l3, default_scheduler me run s = Ret (tt, MkKst l3 (core s2)) ∧ lk_free l3
    ∧ turns run (MkKst l1 (core s)) tr s2 ∧ StronglySorted lt (tn_proc <$> tr)
    ∧ ∀ j p, runnable (core s) j p → j ∈ tn_proc <$> tr ∨ Exists (taken j) tr.
Proof.
  intros Hl Hrun Hrd. unfold default_scheduler.
  destruct (acquire_pt_run me s Hl) as (l1 & H1 & Hh). erewrite bind_ret_eval by exact H1.
  destruct (default_loop_run me (lk s) run 64 0 (MkKst l1 (core s))) as (s2 & tr & H2 & Hrd2 & Htr & Hso & _ & Hin);
    [by apply Hrd|lia|].
  erewrite bind_ret_eval by exact H2.
  destruct (release_pt_run me (lk s) s2 Hl (rd_lock _ _ _ Hrd2)) as (l3 & H3 & Hc3).
  exists l1, tr, s2, l3. split_and!; [done|apply Hc3|done|done|].
  intros i p Hr. apply (Hin i p); [|done]. destruct (Hrd l1 Hh) as [_ Hlen _].
  destruct Hr as [Hr _]. apply lookup_lt_Some in Hr. cbn in Hlen. lia.
Qed.

(** Two runnable processes; the second is taken by another CPU in the turn of
    the first. *)
Lemma default_scheduler_fair_witness :
  ∃ l1 tr s2 l3, default_scheduler 0 ex_takes ex_sched_kst = Ret (tt, MkKst l3 (core s2))
    ∧ turns ex_takes (MkKst l1 (core ex_sched_kst)) tr s2 ∧ swtched (core s2) = [1%nat]
    ∧ (1%nat ∈ tn_proc <$> tr ∨ Exists (taken 1) tr) ∧ (2%nat ∈ tn_proc <$> tr ∨ Exists (taken 2) tr).
Proof.
  destruct (default_scheduler_fair 0 ex_takes ex_sched_kst) as (l1 & tr & s2 & l3 & E & _ & Htr & _ & H);
    [done|apply ex_takes_runs|apply ex_sched_ready|].
  exists l1, tr, s2, l3. split; [exact E|split; [exact Htr|split]].
  - pose proof ex_takes_switched as Hsw. rewrite E in Hsw. exact Hsw.
  - split; [refine (H 1%nat (ex_run_proc 2 60 10) _)|refine (H 2%nat (ex_run_proc 3 20 12) _)]; split; reflexivity.
Defined.

(** Every turn of the priority scheduler runs a process than which no
    runnable process has a smaller priority value. *)
Theorem priority_turn {F} run fuel (s : kst F) p pp :
  length (ptable (core s)) = 64%nat → runnable (core s) p pp →
  ∃ h, chosen priority (core s) p h ∧
    priority_loop run (S fuel) p s = (run_proc run h ;;; priority_loop run fuel (S h)) s.
Proof.
  intros Hlen Hp. destruct (pick_min_chosen priority (core s) p pp Hlen Hp) as (h & H & Hc).
  exists h. split; [done|]. cbn [priority_loop]. destruct Hp as [Hp Hr].
  assert (p < 64)%nat as Hlt by (rewrite <- Hlen; by eapply lookup_lt_Some).
  destruct (Nat.ltb_spec p 64); [|lia].
  erewrite bind_ret_eval by (apply on_core_run, getp_run; exact Hp).
  rewrite decide_False by (intros Hne; by apply Hne).
  erewrite bind_ret_eval by (apply on_core_run; exact H). by destruct s.
Qed.

Lemma priority_turn_witness :
  ∃ h, chosen priority (core ex_sched_locked) 1 h ∧
    priority_loop ex_yields 1 1 ex_sched_locked
    = (run_proc ex_yields h ;;; priority_loop ex_yields 0 (S h)) ex_sched_locked.
Proof. by apply (priority_turn ex_yields 0 ex_sched_locked 1 (ex_run_proc 2 60 10)). Defined.

(** When no other CPU is running a process, every turn of the FCFS
    scheduler runs the oldest runnable process and makes it running_p. *)
Theorem fcfs_turn {F} run fuel (s : kst F) p pp :
  length (ptable (core s)) = 64%nat → runnable (core s) p pp →
  (∀ r pr, running_p (core s) = Some r → ptable (core s) !! r = Some pr → state pr ≠ RUNNING) →
  (∀ r, running_p (core s) = Some r → (r < 64)%nat) →
  ∃ h out, chosen ctime (core s) p h ∧
    fcfs_loop run (S fuel) p s
    = (on_core (modify (set_cproc (Some h))) ;;; switchuvm h ;;;
       on_core (updp h (set_state RUNNING)) ;;; on_core (modify (set_running_p (Some h))) ;;;
       swtch run h ;;; switchkvm ;;; on_core (modify (set_cproc None)) ;;;
       fcfs_loop run fuel (S h)) (MkKst (lk s) (set_console out (core s))).
Proof.
  destruct s as [l c]; cbn [lk core].
  intros Hlen Hp Hidle Hr64. destruct (pick_min_chosen ctime c p pp Hlen Hp) as (h & H & Hc).
  pose proof Hc as (ph & _ & [Hh _] & _). destruct Hp as [Hp Hr].
  assert (p < 64)%nat as Hlt by (rewrite <- Hlen; by eapply lookup_lt_Some).
  assert (fcfs_may_run h c = Ret (true, c)) as Hmay.
  { unfold fcfs_may_run, gets, bind at 1. destruct (running_p c) as [r|] eqn:Er; [|done].
    destruct (lookup_lt_is_Some_2 (ptable c) r) as [pr Hpr]; [rewrite Hlen; by apply Hr64|].
    erewrite bind_ret_eval by by apply getp_run. erewrite bind_ret_eval by by apply getp_run.
    rewrite (bool_decide_true (state pr ≠ RUNNING)) by (by eapply Hidle). by rewrite orb_true_r. }
  assert (∃ out, fcfs_report h c = Ret (tt, set_console out c)) as [out Hrep].
  { assert (c = set_console (console c) c) as Eid by (by destruct c).
    unfold fcfs_report. erewrite bind_ret_eval by by apply getp_run.
    unfold gets, bind at 1. destruct (running_p c) as [r|] eqn:Er; [|by exists (console c); rewrite <- Eid].
    destruct (lookup_lt_is_Some_2 (ptable c) r) as [pr Hpr]; [rewrite Hlen; by apply Hr64|].
    erewrite bind_ret_eval by by apply getp_run.
    case_match; [by eexists|by exists (console c); rewrite <- Eid]. }
  exists h, out. split; [done|]. cbn [fcfs_loop]. destruct (Nat.ltb_spec p 64); [|lia].
  erewrite bind_ret_eval by (apply on_core_run, getp_run; exact Hp).
  rewrite decide_False by (intros Hne; by apply Hne).
  erewrite bind_ret_eval by (apply on_core_run; exact H).
  erewrite bind_ret_eval by (apply on_core_run; exact Hmay).
  cbv iota. cbn [lk core]. rewrite bind_assoc.
  erewrite bind_ret_eval by (apply on_core_run; exact Hrep).
  do 6 (rewrite bind_assoc; apply bind_ext; intros ? ?). done.
Qed.

Lemma fcfs_turn_witness :
  ∃ h out, chosen ctime (core ex_sched_locked) 2 h ∧
    fcfs_loop ex_yields 1 2 ex_sched_locked
    = (on_core (modify (set_cproc (Some h))) ;;; switchuvm h ;;;
       on_core (updp h (set_state RUNNING)) ;;; on_core (modify (set_running_p (Some h))) ;;;
       swtch ex_yields h ;;; switchkvm ;;; on_core (modify (set_cproc None)) ;;;
       fcfs_loop ex_yields 0 (S h)) (MkKst (lk ex_sched_locked) (set_console out (core ex_sched_locked))).
Proof. by apply (fcfs_turn ex_yields 0 ex_sched_locked 2 (ex_run_proc 3 20 12)). Defined.

(** The FCFS pass can spin forever: while another CPU runs an older
    process, a CPU that finds two younger runnable processes chooses the
    older of the two, may not run it, and restarts its scan behind it; it
    never leaves the loop, and never releases ptable.lock, whatever the
    fuel. *)
Theorem fcfs_livelock {F} me run fuel (s : kst F) r pr h ph j pj :
  lk_free (lk s) → length (ptable (core s)) = 64%nat →
  running_p (core s) = Some r → ptable (core s) !! r = Some pr → state pr = RUNNING →
  runnable (core s) h ph → runnable (core s) j pj → (h < j)%nat → ctime pr ≤ ctime ph →
  (∀ k q, runnable (core s) k q → k ≠ h → ctime ph < ctime q) →
  fcfs_scheduler me run fuel s = OutOfFuel.
Proof.
  intros Hl Hlen Hr Hpr Hrun Hh Hj Hhj Hold Hmin. unfold fcfs_scheduler.
  destruct (acquire_pt_run me s Hl) as (l1 & H1 & _). erewrite bind_ret_eval by exact H1.
  unfold bind. by rewrite (fcfs_loop_stuck run (MkKst l1 (core s)) r pr h ph j pj) by (done || lia).
Qed.

(** CPU 0 finds the two processes while CPU 1 runs one that is older. *)
Definition ex_fcfs_core : kcore unit :=
  set_running_p (Some 3%nat)
    (ex_core (<[3%nat := set_state RUNNING (ex_run_proc 4 60 5)]> ex_sched_table)).

Lemma ex_fcfs_runnable i p :
  runnable ex_fcfs_core i p →
  (i = 1%nat ∧ p = ex_run_proc 2 60 10) ∨ (i = 2%nat ∧ p = ex_run_proc 3 20 12).
Proof.
  intros [Hp Hr]. destruct (decide (i = 3%nat)) as [->|Hne]; [by injection Hp as <-|].
  apply (ex_sched_runnable (ex_core ex_sched_table)); [done|]. split; [|done].
  change (<[3%nat := set_state RUNNING (ex_run_proc 4 60 5)]> ex_sched_table !! i = Some p) in Hp.
  by rewrite list_lookup_insert_ne in Hp.
Qed.

Lemma fcfs_livelock_witness :
  fcfs_scheduler 0 ex_yields 1000 (MkKst ex_lkst ex_fcfs_core) = OutOfFuel.
Proof.
  apply (fcfs_livelock 0 ex_yields 1000 (MkKst ex_lkst ex_fcfs_core) 3
    (set_state RUNNING (ex_run_proc 4 60 5)) 1 (ex_run_proc 2 60 10) 2 (ex_run_proc 3 20 12)); try done.
  - lia.
  - intros k q Hk Hne. apply ex_fcfs_runnable in Hk as [[-> ->]|[-> ->]]; done.
Defined.

(** MLFQ demotion: a process that has used its slice in one of the first
    four queues leaves its place there, the others keep their order, and it
    joins the end of the next queue with its counters reset. *)
Theorem mlfq_demote {F} (c : kcore F) t i p q k row d :
  mlfq_wf c → ps_ok c → (t < 4)%nat → queue c t !! i = Some (Some p) →
  ptable c !! p = Some q → pid q = Z.of_nat k → (k < 64)%nat → (length (queue c (S t)) < 64)%nat →
  ps_ticks (pstat_var c) !! k = Some row → length row = 5%nat →
  timedur !! t = Some d → ps_num_run (pstat_var c) !! k = Some d →
  ∃ c', account (Z.of_nat t) (Z.of_nat i) p c = Ret (tt, c')
    ∧ mlfq_wf c' ∧ ptable c' = ptable c
    ∧ queue c' t = delete i (queue c t)
    ∧ queue c' (S t) = queue c (S t) ++ [Some p]
    ∧ (∀ t', t' ≠ t → t' ≠ S t → queue c' t' = queue c t')
    ∧ ps_current_queue (pstat_var c') !! k = Some (Z.of_nat (S t))
    ∧ ps_num_run (pstat_var c') !! k = Some 0.
Proof.
  intros Hwf Hps Ht Hi Hp Hk Hk64 Hroom Hrow Hrl Hd Hn. unfold account.
  erewrite bind_ret_eval by by apply getp_run. rewrite Hk.
  assert (∀ c0 : kcore F, ps_num_run (pstat_var c0) = ps_num_run (pstat_var c) →
    ps_get ps_num_run (Z.of_nat k) c0 = Ret (d, c0)) as Hget.
  { intros c0 E. unfold ps_get, get, bind. by rewrite aget_nat, E, Hn. }
  erewrite bind_ret_eval by by apply Hget.
  set (c1 := set_pstat_var (set_ps_ticks (<[k := <[t := d]> row]> (ps_ticks (pstat_var c))) (pstat_var c)) c).
  rewrite (bind_ret_eval _ _ _ tt c1).
  2: { unfold ps_set_ticks, get, put, bind. rewrite aget_nat, Hrow. simpl.
       rewrite aset_nat by lia. simpl. rewrite aset_nat by (by eapply lookup_lt_Some). done. }
  erewrite bind_ret_eval by by apply Hget. rewrite aget_nat, Hd.
  erewrite bind_ret_eval by done. rewrite Z.eqb_refl.
  assert (i < 64)%nat as Hi64.
  { destruct (mlfq_row c t Hwf ltac:(lia)) as (rs & ns & _ & _ & Hls & _ & Eq).
    apply lookup_lt_Some in Hi. rewrite Eq, length_take in Hi. lia. }
  assert (queue c t ≠ []) as Hne by (intros E; by rewrite E in Hi).
  destruct (queue_move_run c1 t (S t) i p q k) as (c' & Hrun & Hm);
    [by destruct Hwf|exact Hps|lia|lia|lia|done|done|done|done|done|done|].
  exists c'. unfold demote. erewrite bind_ret_eval by (apply getp_run; exact Hp). rewrite Hk.
  replace (Z.of_nat t + 1) with (Z.of_nat (S t)) by lia. split; [exact Hrun|].
  destruct Hm as (M1 & _ & M3 & M4 & M5 & M6 & M7 & _ & M9).
  change (queue c1) with (queue c) in *.
  rewrite decide_True in M5 by (by eapply lookup_lt_Some). split_and!; done.
Qed.

(** Process 1 is alone in queue 0 and has used its 30 ticks. *)
Definition ex_mlfq_core : kcore unit :=
  set_pstat_var (set_ps_num_run (<[2%nat := 30]> (replicate 64 0)) zero_pstat)
    (set_cxj [0; -1; -1; -1; -1]
      (set_qxj ((Some 1%nat :: replicate 63 None) :: replicate 4 (replicate 64 None))
        (ex_core ex_sched_table))).

Lemma ex_mlfq_wf : mlfq_wf ex_mlfq_core.
Proof.
  split; [done|done| |].
  - intros t row Hrow. change (qxj ex_mlfq_core) with
      ((Some 1%nat :: replicate 63 None) :: replicate 4 (replicate 64 (@None nat))) in Hrow.
    destruct t as [|t]; [by injection Hrow as <-|].
    change (replicate 4 (replicate 64 (@None nat)) !! t = Some row) in Hrow.
    by apply lookup_replicate in Hrow as [-> _].
  - intros t n Hn. change ([0; -1; -1; -1; -1] !! t = Some n) in Hn.
    destruct t as [|[|[|[|[|t]]]]]; try (injection Hn as <-; lia). done.
Qed.

Lemma mlfq_demote_witness :
  ∃ c', account 0 0 1 ex_mlfq_core = Ret (tt, c')
    ∧ mlfq_wf c' ∧ ptable c' = ptable ex_mlfq_core
    ∧ queue c' 0 = delete 0%nat (queue ex_mlfq_core 0)
    ∧ queue c' 1 = queue ex_mlfq_core 1 ++ [Some 1%nat]
    ∧ (∀ t', t' ≠ 0%nat → t' ≠ 1%nat → queue c' t' = queue ex_mlfq_core t')
    ∧ ps_current_queue (pstat_var c') !! 2%nat = Some 1
    ∧ ps_num_run (pstat_var c') !! 2%nat = Some 0.
Proof.
  apply (mlfq_demote ex_mlfq_core 0 0 1 (ex_run_proc 2 60 10) 2 (replicate 5 0) 30);
    [apply ex_mlfq_wf|done|lia|done|done|done|lia|by vm_compute; lia|done..].
Defined.

(** Round robin in the last queue: the process that ran moves to the end,
    the others keep their order. *)
Theorem mlfq_rotate {F} (c : kcore F) i p :
  mlfq_wf c → queue c 4 !! i = Some (Some p) →
  ∃ c', rotate (Z.of_nat i) p c = Ret (tt, c')
    ∧ mlfq_wf c' ∧ queue c' 4 = delete i (queue c 4) ++ [Some p]
    ∧ (∀ t, t ≠ 4%nat → queue c' t = queue c t) ∧ ptable c' = ptable c.
Proof.
  intros Hwf Hi. pose proof Hwf as [W1 W2 W3 W4].
  destruct (mlfq_row c 4 Hwf ltac:(lia)) as (row & n & Hrow & Hn & Hl & Hn' & Eq).
  pose proof (lookup_lt_Some _ _ _ Hi) as Hil. rewrite Eq, length_take in Hil.
  assert (cxj c !! 4%nat = Some (Z.of_nat (Z.to_nat n))) as Hn2 by (rewrite Hn; f_equal; lia).
  unfold rotate. erewrite bind_ret_eval by (apply (close_gap_run c 4 i row (Z.to_nat n)); done || lia).
  erewrite bind_ret_eval by (apply (get_cxj_run _ 4); exact Hn2).
  rewrite (put_qxj_run _ 4 _ (gap_row row i (Z.to_nat n))).
  2: { cbn. apply list_lookup_insert_eq. lia. }
  2: { rewrite gap_row_length. lia. }
  eexists. split; [done|]. cbn [qxj set_qxj].
  set (row' := <[Z.to_nat n := Some p]> (gap_row row i (Z.to_nat n))).
  assert (length row' = 64%nat) as Hl' by (unfold row'; by rewrite length_insert, gap_row_length).
  split_and!; [split; cbn| | |done].
  - done.
  - by rewrite !length_insert.
  - intros t r. rewrite list_insert_insert_eq. destruct (decide (t = 4%nat)) as [->|].
    + rewrite list_lookup_insert_eq by lia. by intros [= <-].
    + rewrite list_lookup_insert_ne by done. apply W3.
  - done.
  - rewrite (queue_eq _ 4 row' n); [|cbn; rewrite list_insert_insert_eq; apply list_lookup_insert_eq; lia|done].
    rewrite Eq. replace (Z.to_nat (n + 1)) with (S (Z.to_nat n)) by lia.
    rewrite (take_S_r _ _ (Some p)) by (apply list_lookup_insert_eq; rewrite gap_row_length; lia).
    unfold row'. rewrite take_insert_ge by lia. by rewrite take_gap_row by lia.
  - intros t Ht. unfold queue. cbn. by rewrite !list_lookup_insert_ne by done.
Qed.

(** Three processes in the last queue. *)
Definition ex_rr_core : kcore unit :=
  set_cxj [-1; -1; -1; -1; 2]
    (set_qxj (replicate 4 (replicate 64 None)
       ++ [[Some 1%nat; Some 2%nat; Some 0%nat] ++ replicate 61 None]) (ex_core ex_sched_table)).

Lemma ex_rr_wf : mlfq_wf ex_rr_core.
Proof.
  split; [done|done| |].
  - intros t row Hrow. apply list_elem_of_lookup_2 in Hrow. revert row Hrow.
    apply Forall_forall. apply (bool_decide_unpack _). by vm_compute.
  - intros t n Hn. apply list_elem_of_lookup_2 in Hn. revert n Hn.
    apply (proj1 (Forall_forall (λ n, -1 ≤ n < 64) _)). apply (bool_decide_unpack _). by vm_compute.
Qed.

Lemma mlfq_rotate_witness :
  ∃ c', rotate 0 1 ex_rr_core = Ret (tt, c')
    ∧ mlfq_wf c' ∧ queue c' 4 = [Some 2%nat; Some 0%nat; Some 1%nat]
    ∧ (∀ t, t ≠ 4%nat → queue c' t = queue ex_rr_core t) ∧ ptable c' = ptable ex_rr_core.
Proof. apply (mlfq_rotate ex_rr_core 0 1); [apply ex_rr_wf|done]. Defined.

(** Removing starvation takes the wrong entry: promote uses the pid as the
    process's place in its queue.  Unless the process happens to be at that
    place (or last, when the pid lies behind the queue) it stays in the old
    queue as well as joining the one above, and another entry is dropped. *)
Theorem mlfq_promote_wrong_entry {F} (c : kcore F) t i p q k :
  mlfq_wf c → ps_ok c → (S t < 5)%nat → queue c (S t) !! i = Some (Some p) →
  ptable c !! p = Some q → pid q = Z.of_nat k → (k < 64)%nat → (length (queue c t) < 64)%nat →
  let gone := Nat.min k (length (queue c (S t)) - 1) in
  i ≠ gone →
  ∃ c', promote (Z.of_nat (S t)) p c = Ret (tt, c')
    ∧ queue c' t = queue c t ++ [Some p]
    ∧ queue c' (S t) = delete gone (queue c (S t))
    ∧ Some p ∈ queue c' (S t).
Proof.
  intros Hwf Hps Ht Hi Hp Hk Hk64 Hroom gone Hne. set (l := queue c (S t)) in *.
  assert (l ≠ []) as Hl by (intros E; by rewrite E in Hi).
  pose proof (lookup_lt_Some _ _ _ Hi) as Hil.
  destruct (queue_move_run c (S t) t k p q k) as (c' & Hrun & Hm);
    [done|done|done|lia|lia|done|done|done|done|done|done|].
  exists c'. unfold promote. erewrite bind_ret_eval by by apply getp_run. rewrite Hk.
  replace (Z.of_nat (S t) - 1) with (Z.of_nat t) by lia. split; [exact Hrun|].
  destruct Hm as (_ & _ & _ & M4 & M5 & _). split; [done|]. fold l in M5.
  assert (queue c' (S t) = delete gone l) as Hq.
  { rewrite M5. unfold gone. case_decide.
    - by replace (k `min` (length l - 1))%nat with k by lia.
    - replace (k `min` (length l - 1))%nat with (length l - 1)%nat by lia.
      rewrite delete_take_drop, drop_ge, app_nil_r by lia. done. }
  split; [done|]. rewrite Hq. unfold gone in *.
  destruct (Nat.lt_ge_cases i (k `min` (length l - 1))).
  - apply list_elem_of_lookup. exists i. by rewrite list_lookup_delete_lt by lia.
  - apply list_elem_of_lookup. exists (i - 1)%nat. rewrite list_lookup_delete_ge by lia.
    by replace (S (i - 1)) with i by lia.
Qed.

(** Queue 1 holds the processes of slots 1 and 2; the first, with pid 2, has
    waited too long. *)
Definition ex_starved_core : kcore unit :=
  set_cxj [-1; 1; -1; -1; -1]
    (set_qxj (replicate 64 None :: ([Some 1%nat; Some 2%nat] ++ replicate 62 None)
       :: replicate 3 (replicate 64 None)) (ex_core ex_sched_table)).

Lemma ex_starved_wf : mlfq_wf ex_starved_core.
Proof.
  split; [done|done| |].
  - intros t row Hrow. apply list_elem_of_lookup_2 in Hrow. revert row Hrow.
    apply Forall_forall. apply (bool_decide_unpack _). by vm_compute.
  - intros t n Hn. apply list_elem_of_lookup_2 in Hn. revert n Hn.
    apply (proj1 (Forall_forall (λ n, -1 ≤ n < 64) _)). apply (bool_decide_unpack _). by vm_compute.
Qed.

Lemma mlfq_promote_wrong_entry_witness :
  ∃ c', promote 1 1 ex_starved_core = Ret (tt, c')
    ∧ queue c' 0 = [Some 1%nat] ∧ queue c' 1 = [Some 1%nat] ∧ Some 1%nat ∈ queue c' 1.
Proof.
  apply (mlfq_promote_wrong_entry ex_starved_core 0 0 1 (ex_run_proc 2 60 10) 2);
    [apply ex_starved_wf|done|lia|done|done|done|lia|by vm_compute; lia|done].
Defined.
