(* ===== verification/Pipe.v ===== *)
(** Pipes, pipe.c: a ring buffer with 32-bit counters, its blocking readers
    and writers, and their interleavings.

    A call runs under the pipe's lock until it returns or sleeps; sleep
    gives the lock up, so the stretches between are the atomic steps of the
    machine below. *)

From S2P Require Import Prelude.

Definition PIPESIZE : Z := 512.

Record pipe : Type := MkPipe {
  data : list Z;        (* PIPESIZE bytes *)
  nread : Z;            (* number of bytes read, modulo 2^32 *)
  nwrite : Z;           (* number of bytes written, modulo 2^32 *)
  readopen : Z;         (* read fd is still open *)
  writeopen : Z         (* write fd is still open *)
}.

(** What pipealloc leaves in the new page. *)
Definition new_pipe (junk : list Z) : pipe := MkPipe junk 0 0 1 1.

(** [p->nwrite == p->nread + PIPESIZE] *)
Definition pipe_full (p : pipe) : bool := nwrite p =? u32 (nread p + PIPESIZE).

(** [p->data[p->nwrite++ % PIPESIZE] = b;] *)
Definition put_byte (b : Z) (p : pipe) : pipe :=
  MkPipe (<[Z.to_nat (nwrite p mod PIPESIZE) := b]> (data p)) (nread p) (u32 (nwrite p + 1))
    (readopen p) (writeopen p).

(** How a call of pipewrite goes on: it has written everything, or it sleeps
    or returns -1 with the bytes [todo] not written. *)
Inductive wres : Type := WDone | WSleep (todo : list Z) | WFail (todo : list Z).

Definition not_written (r : wres) : list Z :=
  match r with WDone => [] | WSleep todo | WFail todo => todo end.

(** The loop of pipewrite until it returns or sleeps; [todo] are the bytes
    addr[i..n).  It is entered again here when the process wakes up. *)
Fixpoint pipewrite_loop (killed : bool) (todo : list Z) (p : pipe) : wres * pipe :=
  match todo with
  | [] => (WDone, p)
  | b :: rest =>
      if pipe_full p then
        if (readopen p =? 0) || killed then (WFail todo, p) else (WSleep todo, p)
      else pipewrite_loop killed rest (put_byte b p)
  end.

(** [addr[i] = p->data[p->nread++ % PIPESIZE]] *)
Definition get_byte (p : pipe) : option Z * pipe :=
  (data p !! Z.to_nat (nread p mod PIPESIZE),
   MkPipe (data p) (u32 (nread p + 1)) (nwrite p) (readopen p) (writeopen p)).

(** The copy loop of piperead: at most [n] bytes, until the pipe is empty. *)
Fixpoint piperead_copy (n : nat) (p : pipe) : list Z * pipe :=
  match n with
  | O => ([], p)
  | S n' =>
      if nread p =? nwrite p then ([], p)
      else
        let '(b, p1) := get_byte p in
        let '(bs, p2) := piperead_copy n' p1 in
        (default 0 b :: bs, p2)
  end.

Inductive rres : Type := RDone (bs : list Z) | RSleep | RFail.

(** piperead until it returns or sleeps. *)
Definition piperead_try (killed : bool) (n : nat) (p : pipe) : rres * pipe :=
  if (nread p =? nwrite p) && negb (writeopen p =? 0) then
    if killed then (RFail, p) else (RSleep, p)
  else
    let '(bs, p') := piperead_copy n p in (RDone bs, p').

(** pipeclose; the page is freed when both ends are closed. *)
Definition pipeclose (writable : bool) (p : pipe) : pipe * bool :=
  let p' := if writable then MkPipe (data p) (nread p) (nwrite p) (readopen p) 0
            else MkPipe (data p) (nread p) (nwrite p) 0 (writeopen p) in
  (p', (readopen p' =? 0) && (writeopen p' =? 0)).

(** * The pipe as a queue *)

Record pipe_wf (p : pipe) : Prop := {
  pw_data : length (data p) = 512%nat;
  pw_nread : 0 ≤ nread p < 4294967296;
  pw_nwrite : 0 ≤ nwrite p < 4294967296;
  pw_count : u32 (nwrite p - nread p) ≤ 512
}.

(** The bytes in the pipe, oldest first. *)
Definition count (p : pipe) : nat := Z.to_nat (u32 (nwrite p - nread p)).
Definition byte_at (p : pipe) (i : nat) : Z :=
  data p !!! Z.to_nat ((nread p + Z.of_nat i) mod 512).
Definition contents (p : pipe) : list Z := byte_at p <$> seq 0 (count p).

Lemma contents_length p : length (contents p) = count p.
Proof. unfold contents. by rewrite length_fmap, length_seq. Qed.

Lemma count_le p : pipe_wf p → (count p ≤ 512)%nat.
Proof. intros [_ _ _ H]. unfold count. pose proof (u32_range (nwrite p - nread p)). lia. Qed.

Lemma pipe_full_count p : pipe_wf p → pipe_full p = true ↔ count p = 512%nat.
Proof.
  intros [_ H1 H2 H3]. unfold pipe_full, count, PIPESIZE, u32 in *.
  rewrite Z.eqb_eq. Z.div_mod_to_equations. lia.
Qed.

Lemma pipe_empty_count p : pipe_wf p → (nread p =? nwrite p) = true ↔ count p = 0%nat.
Proof.
  intros [_ H1 H2 H3]. unfold count, u32 in *. rewrite Z.eqb_eq. Z.div_mod_to_equations. lia.
Qed.

(** The counters wrap at 2^32, a multiple of the buffer's size. *)
Lemma wrap_mod a : u32 a mod 512 = a mod 512.
Proof.
  unfold u32. apply Z.mod_mod_divide. exists 8388608. lia.
Qed.

Lemma put_byte_contents b p :
  pipe_wf p → pipe_full p = false →
  pipe_wf (put_byte b p) ∧ contents (put_byte b p) = contents p ++ [b].
Proof.
  intros Hwf Hf. assert (count p < 512)%nat as Hc.
  { pose proof (count_le p Hwf). assert (count p ≠ 512%nat); [|lia].
    intros E. by rewrite (proj2 (pipe_full_count p Hwf) E) in Hf. }
  destruct Hwf as [Hd Hr Hw Hn].
  assert (u32 (u32 (nwrite p + 1) - nread p) = Z.of_nat (S (count p))) as Hcnt.
  { unfold count in *. rewrite u32_sub_l. unfold u32 in *. Z.div_mod_to_equations. lia. }
  assert (count (put_byte b p) = S (count p)) as Hcnt' by (unfold count at 1; simpl; rewrite Hcnt; lia).
  split; [split; simpl; [by rewrite length_insert|done|apply u32_range|lia]|].
  unfold contents. rewrite Hcnt', seq_S, fmap_app. f_equal.
  - apply list_fmap_ext. intros i x [-> Hi]%lookup_seq. unfold byte_at. simpl.
    apply list_lookup_total_insert_ne. unfold PIPESIZE, count, u32 in *.
    Z.div_mod_to_equations. lia.
  - simpl. f_equal. unfold byte_at. simpl.
    replace ((nread p + Z.of_nat (count p)) mod 512) with (nwrite p mod PIPESIZE).
    + apply list_lookup_total_insert_eq. unfold PIPESIZE. Z.div_mod_to_equations. lia.
    + unfold count, u32, PIPESIZE in *. Z.div_mod_to_equations. lia.
Qed.

Lemma get_byte_contents p b bs :
  pipe_wf p → contents p = b :: bs →
  (nread p =? nwrite p) = false ∧ (get_byte p).1 = Some b ∧ pipe_wf (get_byte p).2
  ∧ contents (get_byte p).2 = bs.
Proof.
  intros Hwf Hc. pose proof (contents_length p) as Hl. rewrite Hc in Hl. simpl in Hl.
  assert ((nread p =? nwrite p) = false) as Hne.
  { destruct (nread p =? nwrite p) eqn:E; [|done]. apply pipe_empty_count in E; [lia|done]. }
  pose proof (count_le p Hwf) as Hle. destruct Hwf as [Hd Hr Hw Hn].
  set (p' := (get_byte p).2).
  assert (count p' = (count p - 1)%nat) as Hcnt.
  { unfold count, p' in *. simpl. rewrite u32_sub_r. unfold u32 in *. Z.div_mod_to_equations. lia. }
  unfold contents in Hc. rewrite <- Hl in Hc. simpl in Hc. injection Hc as Hb Hbs.
  split_and!; [done| | |].
  - rewrite <- Hb. unfold byte_at, get_byte, PIPESIZE. simpl. rewrite Z.add_0_r.
    apply list_lookup_lookup_total_lt. Z.div_mod_to_equations. lia.
  - split; unfold p'; simpl; [done|apply u32_range|done|].
    rewrite u32_sub_r. unfold count, u32 in *. Z.div_mod_to_equations. lia.
  - unfold contents. rewrite Hcnt. replace (count p - 1)%nat with (length bs) by lia.
    remember (length bs) as n. rewrite <- Hbs. change (list_fmap nat Z) with (@fmap list _ nat Z).
    rewrite <- (fmap_S_seq 0), <- list_fmap_compose. apply list_fmap_ext.
    intros i x [-> Hi]%lookup_seq. unfold byte_at, p'. simpl. f_equal. f_equal.
    rewrite <- Zplus_mod_idemp_l, wrap_mod, Zplus_mod_idemp_l. f_equal. lia.
Qed.

(** The two calls up to their next sleep. *)

Definition same_ends (p p' : pipe) : Prop := readopen p' = readopen p ∧ writeopen p' = writeopen p.

Lemma pipewrite_loop_spec killed todo : ∀ p r p',
  pipe_wf p → pipewrite_loop killed todo p = (r, p') →
  ∃ w rest, todo = w ++ rest ∧ not_written r = rest ∧ contents p' = contents p ++ w ∧ pipe_wf p' ∧ same_ends p p'
    ∧ match r with
      | WDone => True
      | WSleep _ => rest ≠ [] ∧ count p' = 512%nat ∧ readopen p' ≠ 0
      | WFail _ => rest ≠ [] ∧ count p' = 512%nat ∧ (readopen p' = 0 ∨ killed = true)
      end.
Proof.
  induction todo as [|b rest IH]; intros p r p' Hwf H; cbn [pipewrite_loop] in H.
  { injection H as <- <-. exists [], []. rewrite !app_nil_r. by split_and!. }
  destruct (pipe_full p) eqn:Ef.
  - pose proof (proj1 (pipe_full_count p Hwf) Ef) as Hc.
    destruct (Z.eqb_spec (readopen p) 0) as [E|E]; [|destruct killed]; simpl in H; injection H as <- <-;
      exists [], (b :: rest); rewrite app_nil_r; split_and!; auto; try done; by split.
  - destruct (put_byte_contents b p Hwf Ef) as [Hwf1 Hc1].
    destruct (IH _ _ _ Hwf1 H) as (w & rest' & -> & Hn & Hc' & Hwf' & Hs & Hr).
    exists (b :: w), rest'. rewrite Hc', Hc1, <- app_assoc. split_and!; done.
Qed.

Lemma piperead_copy_spec n : ∀ p bs p',
  pipe_wf p → piperead_copy n p = (bs, p') →
  bs = take n (contents p) ∧ contents p' = drop n (contents p) ∧ pipe_wf p' ∧ same_ends p p'.
Proof.
  induction n as [|n IH]; intros p bs p' Hwf H; cbn [piperead_copy] in H.
  { injection H as <- <-. done. }
  destruct (contents p) as [|b rest] eqn:Ec.
  - assert ((nread p =? nwrite p) = true) as E
      by (apply pipe_empty_count; [done|]; by rewrite <- contents_length, Ec).
    rewrite E in H. injection H as <- <-. by rewrite Ec.
  - destruct (get_byte_contents p b rest Hwf Ec) as (Hne & Hb & Hwf1 & Hc1).
    rewrite Hne in H. destruct (get_byte p) as [ob p1] eqn:Eg. simpl in *. subst ob.
    destruct (piperead_copy n p1) as [bs2 p2] eqn:Er.
    destruct (IH p1 bs2 p2 Hwf1 Er) as (-> & Hc2 & Hwf2 & Hs). injection H as <- <-.
    rewrite Hc2, Hc1. split_and!; try done; unfold get_byte in Eg; injection Eg as _ <-; apply Hs.
Qed.

(** * Readers and writers *)

(** A process in a pipe call: the bytes it still has to write, or how many it
    wants to read; and whether it sleeps in the call. *)
Inductive thread : Type :=
| TIdle
| TWriter (todo : list Z) (asleep : bool)
| TReader (n : nat) (asleep : bool).

Record pmach : Type := MkPmach {
  m_pipe : pipe;
  m_thr : nat → thread;
  m_written : list Z;       (* all bytes put into the pipe so far *)
  m_read : list Z           (* all bytes handed to readers so far *)
}.

Definition goto_thr (i : nat) (t : thread) (f : nat → thread) : nat → thread :=
  λ j, if decide (j = i) then t else f j.

(** wakeup(&p->nread) and wakeup(&p->nwrite). *)
Definition wake_readers (f : nat → thread) : nat → thread :=
  λ j, match f j with TReader n true => TReader n false | t => t end.
Definition wake_writers (f : nat → thread) : nat → thread :=
  λ j, match f j with TWriter w true => TWriter w false | t => t end.

(** What a writer's stretch does to the processes. *)
Definition after_write (i : nat) (r : wres) (f : nat → thread) : nat → thread :=
  match r with
  | WDone => goto_thr i TIdle (wake_readers f)
  | WSleep rest => goto_thr i (TWriter rest true) (wake_readers f)
  | WFail _ => goto_thr i TIdle f
  end.

(** The bytes of [todo] that such a stretch has put into the pipe. *)
Definition sent (r : wres) (todo : list Z) : list Z :=
  take (length todo - length (not_written r)) todo.

(** [kills] says whether processes can be killed in the middle of a call.  A
    process in a call holds the file open, so an end is closed only when
    nobody is in a call on it. *)
Inductive pstep (kills : bool) : pmach → pmach → Prop :=
| ps_start_write i todo m :
    m_thr m i = TIdle → writeopen (m_pipe m) ≠ 0 →
    pstep kills m (MkPmach (m_pipe m) (goto_thr i (TWriter todo false) (m_thr m)) (m_written m) (m_read m))
| ps_start_read i n m :
    m_thr m i = TIdle → readopen (m_pipe m) ≠ 0 →
    pstep kills m (MkPmach (m_pipe m) (goto_thr i (TReader n false) (m_thr m)) (m_written m) (m_read m))
| ps_write i todo killed r p' m :
    m_thr m i = TWriter todo false → (killed = true → kills = true) →
    pipewrite_loop killed todo (m_pipe m) = (r, p') →
    pstep kills m (MkPmach p' (after_write i r (m_thr m)) (m_written m ++ sent r todo) (m_read m))
| ps_read_done i n killed bs p' m :
    m_thr m i = TReader n false → (killed = true → kills = true) →
    piperead_try killed n (m_pipe m) = (RDone bs, p') →
    pstep kills m (MkPmach p' (goto_thr i TIdle (wake_writers (m_thr m))) (m_written m) (m_read m ++ bs))
| ps_read_sleep i n killed p' m :
    m_thr m i = TReader n false → (killed = true → kills = true) →
    piperead_try killed n (m_pipe m) = (RSleep, p') →
    pstep kills m (MkPmach p' (goto_thr i (TReader n true) (m_thr m)) (m_written m) (m_read m))
| ps_read_fail i n killed p' m :
    m_thr m i = TReader n false → (killed = true → kills = true) →
    piperead_try killed n (m_pipe m) = (RFail, p') →
    pstep kills m (MkPmach p' (goto_thr i TIdle (m_thr m)) (m_written m) (m_read m))
| ps_close_write m :
    (∀ i w b, m_thr m i ≠ TWriter w b) →
    pstep kills m (MkPmach (pipeclose true (m_pipe m)).1 (wake_readers (m_thr m)) (m_written m) (m_read m))
| ps_close_read m :
    (∀ i n b, m_thr m i ≠ TReader n b) →
    pstep kills m (MkPmach (pipeclose false (m_pipe m)).1 (wake_writers (m_thr m)) (m_written m) (m_read m))
| ps_kill_wakes i m :                       (* kill makes a sleeping process runnable *)
    kills = true →
    pstep kills m (MkPmach (m_pipe m) (goto_thr i
      (match m_thr m i with TReader n _ => TReader n false | TWriter w _ => TWriter w false | t => t end)
      (m_thr m)) (m_written m) (m_read m)).

Inductive preach (kills : bool) : pmach → Prop :=
| pr_new junk : length junk = 512%nat → preach kills (MkPmach (new_pipe junk) (λ _, TIdle) [] [])
| pr_step m m' : preach kills m → pstep kills m m' → preach kills m'.

(** Nothing is lost, duplicated or reordered. *)
Record fifo_inv (m : pmach) : Prop := {
  fi_wf : pipe_wf (m_pipe m);
  fi_hist : m_written m = m_read m ++ contents (m_pipe m)
}.

Lemma new_pipe_wf junk : length junk = 512%nat → pipe_wf (new_pipe junk) ∧ contents (new_pipe junk) = [].
Proof. intros H. split; [|done]. split; simpl; try done; lia. Qed.

Lemma piperead_try_spec killed n p r p' :
  pipe_wf p → piperead_try killed n p = (r, p') →
  match r with
  | RDone bs => bs = take n (contents p) ∧ contents p' = drop n (contents p) ∧ pipe_wf p' ∧ same_ends p p'
  | RSleep => p' = p ∧ contents p = [] ∧ writeopen p ≠ 0
  | RFail => p' = p ∧ killed = true
  end.
Proof.
  intros Hwf. unfold piperead_try.
  destruct (nread p =? nwrite p) eqn:E; simpl.
  - pose proof (proj1 (pipe_empty_count p Hwf) E) as Hc.
    assert (contents p = []) as Hn by (apply length_zero_iff_nil; by rewrite contents_length).
    destruct (Z.eqb_spec (writeopen p) 0); simpl.
    + destruct (piperead_copy n p) as [bs q] eqn:Ep. intros [= <- <-].
      by apply piperead_copy_spec in Ep.
    + destruct killed; by intros [= <- <-].
  - destruct (piperead_copy n p) as [bs q] eqn:Ep. intros [= <- <-]. by apply piperead_copy_spec in Ep.
Qed.

Lemma pipeclose_spec b p :
  pipe_wf p → pipe_wf (pipeclose b p).1 ∧ contents (pipeclose b p).1 = contents p.
Proof. intros [H1 H2 H3 H4]. by destruct b. Qed.

Lemma pipewrite_sent killed todo p r p' :
  pipe_wf p → pipewrite_loop killed todo p = (r, p') → contents p' = contents p ++ sent r todo.
Proof.
  intros Hwf H. apply pipewrite_loop_spec in H as (w & rest & -> & Hn & Hc & _); [|done].
  rewrite Hc. unfold sent. rewrite Hn, length_app, Nat.add_sub, take_app_length. done.
Qed.

Lemma fifo_step kills m m' : fifo_inv m → pstep kills m m' → fifo_inv m'.
Proof.
  intros [Hwf Hh] Hst. destruct Hst as [i todo m _ _|i n m _ _|i todo killed r p' m _ _ Hw
    |i n killed bs p' m _ _ Hr|i n killed p' m _ _ Hr|i n killed p' m _ _ Hr|m _|m _|i m _]; try by split.
  - pose proof (pipewrite_sent _ _ _ _ _ Hwf Hw) as Hc.
    apply pipewrite_loop_spec in Hw as (w' & rest & _ & _ & _ & Hwf' & _); [|done].
    split; simpl; [done|]. by rewrite Hc, Hh, app_assoc.
  - apply piperead_try_spec in Hr as (-> & Hc & Hwf' & _); [|done]. split; simpl; [done|].
    by rewrite Hc, Hh, <- app_assoc, take_drop.
  - apply piperead_try_spec in Hr as (-> & _); [by split|done].
  - apply piperead_try_spec in Hr as (-> & _); [by split|done].
  - destruct (pipeclose_spec true (m_pipe m) Hwf) as [H1 H2]. split; [done|]. cbn [m_pipe m_written m_read].
    by rewrite H2.
  - destruct (pipeclose_spec false (m_pipe m) Hwf) as [H1 H2]. split; [done|]. cbn [m_pipe m_written m_read].
    by rewrite H2.
Qed.

Lemma fifo_reachable kills m : preach kills m → fifo_inv m.
Proof.
  induction 1 as [junk Hj|m m' _ IH Hst]; [|by eapply fifo_step].
  destruct (new_pipe_wf junk Hj) as [H1 H2]. split; [done|]. simpl. by rewrite H2.
Qed.

(** Whoever sleeps has a reason to, and whoever is in a call holds its end
    open. *)
Record sleep_inv (m : pmach) : Prop := {
  si_reader : ∀ i n, m_thr m i = TReader n true → count (m_pipe m) = 0%nat ∧ writeopen (m_pipe m) ≠ 0;
  si_writer : ∀ i w, m_thr m i = TWriter w true → count (m_pipe m) = 512%nat ∧ readopen (m_pipe m) ≠ 0;
  si_ropen : ∀ i n b, m_thr m i = TReader n b → readopen (m_pipe m) ≠ 0;
  si_wopen : ∀ i w b, m_thr m i = TWriter w b → writeopen (m_pipe m) ≠ 0
}.

Lemma goto_thr_cases i t f j x : goto_thr i t f j = x → (j = i ∧ x = t) ∨ (j ≠ i ∧ f j = x).
Proof. unfold goto_thr. case_decide; [left|right]; by subst. Qed.

Lemma wake_readers_asleep f j n : wake_readers f j ≠ TReader n true.
Proof. unfold wake_readers. by destruct (f j) as [| |? []]. Qed.
Lemma wake_readers_writer f j w b : wake_readers f j = TWriter w b → f j = TWriter w b.
Proof. unfold wake_readers. by destruct (f j) as [| |? []]. Qed.
Lemma wake_writers_asleep f j w : wake_writers f j ≠ TWriter w true.
Proof. unfold wake_writers. by destruct (f j) as [|? []|]. Qed.
Lemma wake_writers_reader f j n b : wake_writers f j = TReader n b → f j = TReader n b.
Proof. unfold wake_writers. by destruct (f j) as [|? []|]. Qed.

Lemma wake_readers_reader f j n b : wake_readers f j = TReader n b → ∃ b', f j = TReader n b'.
Proof. unfold wake_readers. destruct (f j) as [| |? []]; intros; simplify_eq; eauto. Qed.
Lemma wake_writers_writer f j w b : wake_writers f j = TWriter w b → ∃ b', f j = TWriter w b'.
Proof. unfold wake_writers. destruct (f j) as [|? []|]; intros; simplify_eq; eauto. Qed.

(** A writer that appends to a full pipe appends nothing. *)
Lemma full_stays p p' w :
  pipe_wf p' → contents p' = contents p ++ w → count p = 512%nat → count p' = 512%nat.
Proof.
  intros Hwf Hc Hf. pose proof (count_le p' Hwf) as Hle. apply (f_equal length) in Hc.
  rewrite length_app, !contents_length in Hc. lia.
Qed.

Lemma sleep_write m i todo r p' :
  fifo_inv m → sleep_inv m → m_thr m i = TWriter todo false →
  pipewrite_loop false todo (m_pipe m) = (r, p') →
  sleep_inv (MkPmach p' (after_write i r (m_thr m)) (m_written m ++ sent r todo) (m_read m)).
Proof.
  intros [Hwf _] [Hr Hw Hro Hwo] Hi H.
  apply pipewrite_loop_spec in H as (w' & rest & _ & _ & Hc & Hwf' & [Hsr Hsw] & Hres); [|done].
  split; simpl; rewrite ?Hsr, ?Hsw; unfold after_write.
  - intros j n Hj. destruct r as [|rest'|rest'].
    + apply goto_thr_cases in Hj as [[_ ?]|[_ Hj]]; [done|by apply wake_readers_asleep in Hj].
    + apply goto_thr_cases in Hj as [[_ ?]|[_ Hj]]; [done|by apply wake_readers_asleep in Hj].
    + destruct Hres as (_ & _ & [Hclosed|?]); [|done].
      apply goto_thr_cases in Hj as [[_ ?]|[_ Hj]]; [done|].
      destruct (Hro j n true Hj). congruence.
  - intros j t Hj. destruct r as [|rest'|rest'].
    + apply goto_thr_cases in Hj as [[_ ?]|[_ Hj]]; [done|].
      apply wake_readers_writer in Hj. destruct (Hw j t Hj). split; [by eapply full_stays|done].
    + destruct Hres as (_ & ? & Ho). by rewrite <- Hsr.
    + destruct Hres as (_ & ? & _). apply goto_thr_cases in Hj as [[_ ?]|[_ Hj]]; [done|]. by destruct (Hw j t Hj).
  - intros j n b Hj. destruct r; apply goto_thr_cases in Hj as [[_ ?]|[_ Hj]]; try done;
      try (apply wake_readers_reader in Hj as [b' Hj]); by eapply Hro.
  - intros j t b Hj. destruct r; apply goto_thr_cases in Hj as [[_ Hj]|[_ Hj]]; try done;
      try (apply wake_readers_writer in Hj); by eapply Hwo.
Qed.

Lemma sleep_read_done m i n killed bs p' :
  fifo_inv m → sleep_inv m → m_thr m i = TReader n false →
  piperead_try killed n (m_pipe m) = (RDone bs, p') →
  sleep_inv (MkPmach p' (goto_thr i TIdle (wake_writers (m_thr m))) (m_written m) (m_read m ++ bs)).
Proof.
  intros [Hwf _] [Hr Hw Hro Hwo] Hi H.
  apply piperead_try_spec in H as (_ & Hc & Hwf' & Hsr & Hsw); [|done].
  split; simpl; rewrite ?Hsr, ?Hsw.
  - intros j k Hj. apply goto_thr_cases in Hj as [[_ ?]|[_ Hj]]; [done|].
    apply wake_writers_reader in Hj. destruct (Hr j k Hj) as [Hz ?]. split; [|done].
    rewrite <- contents_length, Hc, length_drop, contents_length. lia.
  - intros j t Hj. apply goto_thr_cases in Hj as [[_ ?]|[_ Hj]]; [done|].
    by apply wake_writers_asleep in Hj.
  - intros j k b Hj. apply goto_thr_cases in Hj as [[_ ?]|[_ Hj]]; [done|].
    apply wake_writers_reader in Hj. by eapply Hro.
  - intros j t b Hj. apply goto_thr_cases in Hj as [[_ ?]|[_ Hj]]; [done|].
    apply wake_writers_writer in Hj as [b' Hj]. by eapply Hwo.
Qed.

Lemma sleep_step m m' : fifo_inv m → sleep_inv m → pstep false m m' → sleep_inv m'.
Proof.
  intros Hf Hs Hst. pose proof Hs as [Hr Hw Hro Hwo]. pose proof (fi_wf _ Hf) as Hwf.
  destruct Hst as [i todo m Hi Ho|i n m Hi Ho|i todo killed r p' m Hi Hk H
    |i n killed bs p' m Hi Hk H|i n killed p' m Hi Hk H|i n killed p' m Hi Hk H|m Hno|m Hno|i m Hk].
  - split; simpl; intros j; intros *; intros Hj; apply goto_thr_cases in Hj as [[_ ?]|[_ Hj]]; try done; eauto.
  - split; simpl; intros j; intros *; intros Hj; apply goto_thr_cases in Hj as [[_ ?]|[_ Hj]]; try done; eauto.
  - assert (killed = false) as -> by (destruct killed; [by discriminate Hk|done]).
    by eapply sleep_write.
  - by eapply sleep_read_done.
  - apply piperead_try_spec in H as (-> & Hc & Hop); [|done].
    split; simpl; intros j; intros *; intros Hj; apply goto_thr_cases in Hj as [[_ Hj]|[_ Hj]];
      simplify_eq; eauto.
    split; [|done]. by rewrite <- contents_length, Hc.
  - apply piperead_try_spec in H as (-> & _); [|done].
    split; simpl; intros j; intros *; intros Hj; apply goto_thr_cases in Hj as [[_ Hj]|[_ Hj]];
      simplify_eq; eauto.
  - split; simpl.
    + intros j k Hj. by apply wake_readers_asleep in Hj.
    + intros j t Hj. apply wake_readers_writer in Hj. by apply Hno in Hj.
    + intros j k b Hj. apply wake_readers_reader in Hj as [b' Hj]. by eapply Hro.
    + intros j t b Hj. apply wake_readers_writer in Hj. by apply Hno in Hj.
  - split; simpl.
    + intros j k Hj. apply wake_writers_reader in Hj. by apply Hno in Hj.
    + intros j t Hj. by apply wake_writers_asleep in Hj.
    + intros j k b Hj. apply wake_writers_reader in Hj. by apply Hno in Hj.
    + intros j t b Hj. apply wake_writers_writer in Hj as [b' Hj]. by eapply Hwo.
  - done.
Qed.

Lemma sleep_reachable m : preach false m → sleep_inv m.
Proof.
  induction 1 as [junk Hj|m m' Hm IH Hst]; [by split|].
  eapply sleep_step; eauto using fifo_reachable.
Qed.

(** * Properties *)

(** C27. A pipe is a bounded FIFO for any number of readers and writers: in
    every reachable state the bytes written are the bytes read followed by
    the at most 512 bytes in the pipe, so nothing is lost, duplicated or
    reordered, also when the 32-bit counters wrap around. *)
Theorem pipe_fifo kills m :
  preach kills m →
  m_written m = m_read m ++ contents (m_pipe m) ∧ (length (contents (m_pipe m)) ≤ 512)%nat.
Proof.
  intros [Hwf Hh]%fifo_reachable. split; [done|]. rewrite contents_length. by apply count_le.
Qed.

(** A reader sleeps, then a writer stores three bytes. *)
Definition ex_pipe0 : pipe := new_pipe (replicate 512 0).
Definition ex_waiting : pmach :=
  MkPmach ex_pipe0 (goto_thr 0 (TReader 10 true) (goto_thr 0 (TReader 10 false) (λ _, TIdle))) [] [].
Definition ex_writing (todo : list Z) : pmach :=
  MkPmach ex_pipe0 (goto_thr 1 (TWriter todo false) (m_thr ex_waiting)) [] [].

Lemma ex_waiting_reachable kills : preach kills ex_waiting.
Proof.
  pose proof (pr_new kills (replicate 512 0) eq_refl) as R0.
  pose proof (λ H G, pr_step kills _ _ R0 (ps_start_read kills 0 10 _ H G)) as R1.
  specialize (R1 eq_refl ltac:(done)).
  pose proof (λ H G J, pr_step kills _ _ R1 (ps_read_sleep kills 0 10 false ex_pipe0 _ H G J)) as R2.
  exact (R2 eq_refl ltac:(done) eq_refl).
Qed.

Lemma ex_writing_reachable kills todo : preach kills (ex_writing todo).
Proof.
  pose proof (λ H G, pr_step kills _ _ (ex_waiting_reachable kills)
    (ps_start_write kills 1 todo _ H G)) as R.
  exact (R eq_refl ltac:(done)).
Qed.

Definition ex_written : pmach :=
  MkPmach (pipewrite_loop false [1; 2; 3] ex_pipe0).2
    (after_write 1 WDone (m_thr (ex_writing [1; 2; 3]))) [1; 2; 3] [].

Lemma ex_written_reachable kills : preach kills ex_written.
Proof.
  eapply pr_step; [apply (ex_writing_reachable kills [1; 2; 3])|].
  apply (ps_write kills 1 [1; 2; 3] false WDone); [reflexivity|done|vm_compute; reflexivity].
Qed.

Lemma pipe_fifo_witness :
  m_written ex_written = m_read ex_written ++ contents (m_pipe ex_written)
  ∧ (length (contents (m_pipe ex_written)) ≤ 512)%nat.
Proof. apply (pipe_fifo true ex_written). apply ex_written_reachable. Defined.

(** C38. No lost wakeup: unless a process is killed in the middle of a call, a
    reader that sleeps waits on an empty pipe whose write end is open, and a
    writer that sleeps waits on a full pipe whose read end is open; so they
    never wait for each other, nor for an end that has been closed. *)
Theorem pipe_no_lost_wakeup m :
  preach false m →
  (∀ i n, m_thr m i = TReader n true → contents (m_pipe m) = [] ∧ writeopen (m_pipe m) ≠ 0)
  ∧ (∀ i w, m_thr m i = TWriter w true → length (contents (m_pipe m)) = 512%nat ∧ readopen (m_pipe m) ≠ 0)
  ∧ ∀ i j n w, m_thr m i = TReader n true → m_thr m j ≠ TWriter w true.
Proof.
  intros [Hr Hw _ _]%sleep_reachable. split_and!.
  - intros i n Hi. destruct (Hr i n Hi) as [Hc Ho]. split; [|done].
    apply length_zero_iff_nil. by rewrite contents_length.
  - intros i w Hi. rewrite contents_length. by eapply Hw.
  - intros i j n w Hi Hj. destruct (Hr i n Hi) as [Hc _], (Hw j w Hj). lia.
Qed.

(** A writer that has filled the pipe and sleeps with one byte to go. *)
Definition ex_todo : list Z := replicate 513 7.
Definition ex_full : pmach :=
  MkPmach (pipewrite_loop false ex_todo ex_pipe0).2 (after_write 1 (WSleep [7]) (m_thr (ex_writing ex_todo)))
    (sent (WSleep [7]) ex_todo) [].

Lemma ex_full_reachable : preach false ex_full.
Proof.
  eapply pr_step; [apply (ex_writing_reachable false ex_todo)|].
  apply (ps_write false 1 ex_todo false (WSleep [7])); [reflexivity|done|vm_compute; reflexivity].
Qed.

Lemma pipe_no_lost_wakeup_witness :
  m_thr ex_full 1 = TWriter [7] true ∧ length (contents (m_pipe ex_full)) = 512%nat ∧ readopen (m_pipe ex_full) ≠ 0
  ∧ ∀ i n, m_thr ex_full i ≠ TReader n true.
Proof.
  destruct (pipe_no_lost_wakeup ex_full ex_full_reachable) as (_ & H2 & H3). split; [reflexivity|].
  destruct (H2 1%nat [7] eq_refl) as [H4 H5]. split; [exact H4|split; [exact H5|]].
  intros i n Hi. by apply (H3 i 1%nat n [7] Hi).
Defined.

(** A killed writer can strand a reader: pipewrite returns -1 from a full
    pipe without waking the readers, so a reader that slept on the empty
    pipe stays asleep although 512 bytes are waiting for it. *)
Theorem pipe_killed_writer_strands_reader :
  ∃ m i n, preach true m ∧ m_thr m i = TReader n true
    ∧ length (contents (m_pipe m)) = 512%nat.
Proof.
  set (todo := replicate 513 7).
  exists (MkPmach (pipewrite_loop true todo ex_pipe0).2
            (after_write 1 (WFail [7]) (m_thr (ex_writing todo))) (sent (WFail [7]) todo) []), 0%nat, 10%nat.
  split_and!; [|reflexivity|vm_compute; reflexivity].
  eapply pr_step; [apply (ex_writing_reachable true todo)|].
  apply (ps_write true 1 todo true (WFail [7])); [reflexivity|intros _; reflexivity|].
  vm_compute. reflexivity.
Qed.
