(* ===== verification/Sleeplock.v ===== *)
(** Sleep locks (sleeplock.c): the bodies of the functions between acquiring
    and releasing lk->lk, which make each of them atomic, and the processes
    that use one lock as a step relation.

    [pid] is the pid of the process that runs the function. *)

From S2P Require Import Prelude.

Record sleeplock : Type := MkSleeplock {
  sl_locked : Z;
  sl_pid : Z
}.

Definition initsleeplock : sleeplock := MkSleeplock 0 0.

(** One pass of acquiresleep's loop: [None] when the process has to sleep. *)
Definition acquiresleep (pid : Z) (l : sleeplock) : option sleeplock :=
  if negb (sl_locked l =? 0) then None else Some (MkSleeplock 1 pid).

(** Everybody asleep on the lock is woken as well. *)
Definition releasesleep (l : sleeplock) : sleeplock := MkSleeplock 0 0.

Definition holdingsleep (pid : Z) (l : sleeplock) : bool :=
  negb (sl_locked l =? 0) && (sl_pid l =? pid).

(** * Many processes and one lock *)

Inductive slpc : Type := SlIdle | SlWants | SlAsleep | SlHolds.
#[export] Instance slpc_eq_dec : EqDecision slpc.
Proof. solve_decision. Defined.

Record slmach : Type := MkSlmach { sm_lock : sleeplock; sm_pc : nat → slpc }.

Definition sl_goto (i : nat) (q : slpc) (f : nat → slpc) : nat → slpc :=
  λ j, if decide (j = i) then q else f j.

(** wakeup(lk) *)
Definition sl_wake (f : nat → slpc) : nat → slpc :=
  λ j, if decide (f j = SlAsleep) then SlWants else f j.

Section machine.
Context (pid_of : nat → Z).

(** Process [i] calls acquiresleep, makes a pass of its loop, or releases a
    lock that holdingsleep says it holds; kill may wake a sleeper. *)
Inductive slstep : slmach → slmach → Prop :=
| sls_call i m :
    sm_pc m i = SlIdle → slstep m (MkSlmach (sm_lock m) (sl_goto i SlWants (sm_pc m)))
| sls_got i l m :
    sm_pc m i = SlWants → acquiresleep (pid_of i) (sm_lock m) = Some l →
    slstep m (MkSlmach l (sl_goto i SlHolds (sm_pc m)))
| sls_wait i m :
    sm_pc m i = SlWants → acquiresleep (pid_of i) (sm_lock m) = None →
    slstep m (MkSlmach (sm_lock m) (sl_goto i SlAsleep (sm_pc m)))
| sls_release i m :
    sm_pc m i ≠ SlAsleep → sm_pc m i ≠ SlWants → holdingsleep (pid_of i) (sm_lock m) = true →
    slstep m (MkSlmach (releasesleep (sm_lock m)) (sl_goto i SlIdle (sl_wake (sm_pc m))))
| sls_kill i m :
    sm_pc m i = SlAsleep → slstep m (MkSlmach (sm_lock m) (sl_goto i SlWants (sm_pc m))).

Inductive slreach : slmach → Prop :=
| slr_init : slreach (MkSlmach initsleeplock (λ _, SlIdle))
| slr_step m m' : slreach m → slstep m m' → slreach m'.

Definition sl_inv (m : slmach) : Prop :=
  (sm_lock m = MkSleeplock 0 0 ∧ (∀ i, sm_pc m i ≠ SlHolds) ∧ (∀ i, sm_pc m i ≠ SlAsleep))
  ∨ ∃ h, sm_lock m = MkSleeplock 1 (pid_of h) ∧ sm_pc m h = SlHolds
         ∧ ∀ i, sm_pc m i = SlHolds → i = h.

Lemma sl_inv_step m m' :
  (∀ i j, pid_of i = pid_of j → i = j) → sl_inv m → slstep m m' → sl_inv m'.
Proof.
  intros Hinj Hm Hst. destruct Hst as [i m Hi|i l m Hi Ha|i m Hi Ha|i m H1 H2 Hh|i m Hi]; unfold sl_inv in *; simpl.
  - destruct Hm as [(E & H1 & H2)|(h & E & H1 & H2)]; [left|right; exists h].
    + split_and!; [done|..]; intros j; unfold sl_goto; case_decide; auto.
    + unfold sl_goto. split_and!; [done|case_decide; congruence|].
      intros j. case_decide; [done|auto].
  - unfold acquiresleep in Ha. destruct Hm as [(E & H1 & H2)|(h & E & H1 & H2)]; rewrite E in Ha; simplify_eq/=.
    right. exists i. unfold sl_goto. split_and!; [done|by case_decide|].
    intros j. case_decide; [done|intros Hj; by destruct (H1 j)].
  - unfold acquiresleep in Ha. destruct Hm as [(E & H1 & H2)|(h & E & H1 & H2)]; rewrite E in Ha; simplify_eq/=.
    right. exists h. unfold sl_goto. split_and!; [done|case_decide; congruence|].
    intros j. case_decide; [done|auto].
  - unfold holdingsleep in Hh. destruct Hm as [(E & _)|(h & E & H3 & H4)]; rewrite E in Hh; simplify_eq/=.
    apply Z.eqb_eq, Hinj in Hh as ->. left. unfold sl_goto, sl_wake.
    split_and!; [done|..]; intros j; repeat case_decide; try done.
    intros Hj. apply H4 in Hj. congruence.
  - destruct Hm as [(E & H1 & H2)|(h & E & H1 & H2)]; [by destruct (H2 i)|]. right. exists h.
    unfold sl_goto. split_and!; [done|case_decide; congruence|].
    intros j. case_decide; [done|auto].
Qed.

Lemma sl_inv_reachable m :
  (∀ i j, pid_of i = pid_of j → i = j) → slreach m → sl_inv m.
Proof. intros Hinj. induction 1; [by left|by eapply sl_inv_step]. Qed.
End machine.

(** * Properties *)

(** Sleep locks: with pairwise different pids at most one process holds
    the lock, holdingsleep is true exactly for that process, and nobody
    sleeps on a lock that is free. *)
Theorem sleeplock_mutual_exclusion pid_of m :
  (∀ i j, pid_of i = pid_of j → i = j) → slreach pid_of m →
  (∀ i j, sm_pc m i = SlHolds → sm_pc m j = SlHolds → i = j)
  ∧ (∀ i, holdingsleep (pid_of i) (sm_lock m) = true ↔ sm_pc m i = SlHolds)
  ∧ (∀ i, sm_pc m i = SlAsleep → sl_locked (sm_lock m) = 1).
Proof.
  intros Hinj Hm. destruct (sl_inv_reachable pid_of m Hinj Hm) as [(-> & H1 & H2)|(h & -> & H1 & H2)].
  - split_and!; [intros i j Hi; by destruct (H1 i)| |intros i Hi; by destruct (H2 i)].
    intros i. split; [done|]. intros Hi. by destruct (H1 i).
  - split_and!; [intros i j ->%H2 ->%H2; done| |done].
    intros i. unfold holdingsleep. simpl. rewrite Z.eqb_eq.
    split; [by intros <-%Hinj|by intros ->%H2].
Qed.

(** Process 3 holds the lock, process 5 sleeps on it. *)
Definition ex_sl_contended : slmach :=
  MkSlmach (MkSleeplock 1 3) (sl_goto 5 SlAsleep (sl_goto 5 SlWants (sl_goto 3 SlHolds
    (sl_goto 3 SlWants (λ _, SlIdle))))).

Lemma ex_sl_contended_reachable : slreach Z.of_nat ex_sl_contended.
Proof.
  pose proof (λ H, slr_step Z.of_nat _ _ (slr_init _) (sls_call _ 3 _ H)) as R1. specialize (R1 eq_refl).
  pose proof (λ H G, slr_step Z.of_nat _ _ R1 (sls_got _ 3 (MkSleeplock 1 3) _ H G)) as R2.
  specialize (R2 eq_refl eq_refl).
  pose proof (λ H, slr_step Z.of_nat _ _ R2 (sls_call _ 5 _ H)) as R3. specialize (R3 eq_refl).
  pose proof (λ H G, slr_step Z.of_nat _ _ R3 (sls_wait _ 5 _ H G)) as R4. exact (R4 eq_refl eq_refl).
Qed.

Lemma sleeplock_mutual_exclusion_witness :
  (∀ i j, sm_pc ex_sl_contended i = SlHolds → sm_pc ex_sl_contended j = SlHolds → i = j)
  ∧ (∀ i, holdingsleep (Z.of_nat i) (sm_lock ex_sl_contended) = true ↔ sm_pc ex_sl_contended i = SlHolds)
  ∧ (∀ i, sm_pc ex_sl_contended i = SlAsleep → sl_locked (sm_lock ex_sl_contended) = 1).
Proof. apply (sleeplock_mutual_exclusion Z.of_nat); [lia|apply ex_sl_contended_reachable]. Defined.
