(* ===== verification/Ide.v ===== *)
(** The disk driver (ide.c) and the disk block buffers it works on (buf.h).

    A buffer is named by its index in bcache.buf; index 30 is bcache.head.
    [regs] are the values last written to the controller's ports, [disks]
    the sectors of the two drives, [wlog] every sector write in order.
    idelock makes the stretches of the driver between two sleeps atomic; the
    interrupt handler and other processes run when iderw sleeps, which is
    the parameter [away].  [status n] is what the [n]-th read of the status
    port returns; waiting for the drive takes fuel.  The module Memide is
    memide.c, the driver of a disk in memory. *)

From S2P Require Import Prelude Params Cstring Sleeplock.

(** * buf.h *)
Definition B_VALID : Z := 2.
Definition B_DIRTY : Z := 4.

Record buf : Type := MkBuf {
  b_flags : Z;
  b_dev : Z;
  b_blockno : Z;
  b_lock : sleeplock;
  b_refcnt : Z;
  b_prev : nat;
  b_next : nat;
  b_qnext : option nat;
  b_data : list Z
}.

Definition set_b_flags (x : Z) (b : buf) : buf :=
  MkBuf x (b_dev b) (b_blockno b) (b_lock b) (b_refcnt b) (b_prev b) (b_next b) (b_qnext b)
    (b_data b).
Definition set_b_dev (x : Z) (b : buf) : buf :=
  MkBuf (b_flags b) x (b_blockno b) (b_lock b) (b_refcnt b) (b_prev b) (b_next b)
    (b_qnext b) (b_data b).
Definition set_b_blockno (x : Z) (b : buf) : buf :=
  MkBuf (b_flags b) (b_dev b) x (b_lock b) (b_refcnt b) (b_prev b) (b_next b) (b_qnext b)
    (b_data b).
Definition set_b_lock (x : sleeplock) (b : buf) : buf :=
  MkBuf (b_flags b) (b_dev b) (b_blockno b) x (b_refcnt b) (b_prev b) (b_next b) (b_qnext b)
    (b_data b).
Definition set_b_refcnt (x : Z) (b : buf) : buf :=
  MkBuf (b_flags b) (b_dev b) (b_blockno b) (b_lock b) x (b_prev b) (b_next b) (b_qnext b)
    (b_data b).
Definition set_b_prev (x : nat) (b : buf) : buf :=
  MkBuf (b_flags b) (b_dev b) (b_blockno b) (b_lock b) (b_refcnt b) x (b_next b) (b_qnext b)
    (b_data b).
Definition set_b_next (x : nat) (b : buf) : buf :=
  MkBuf (b_flags b) (b_dev b) (b_blockno b) (b_lock b) (b_refcnt b) (b_prev b) x (b_qnext b)
    (b_data b).
Definition set_b_qnext (x : option nat) (b : buf) : buf :=
  MkBuf (b_flags b) (b_dev b) (b_blockno b) (b_lock b) (b_refcnt b) (b_prev b) (b_next b) x
    (b_data b).
Definition set_b_data (x : list Z) (b : buf) : buf :=
  MkBuf (b_flags b) (b_dev b) (b_blockno b) (b_lock b) (b_refcnt b) (b_prev b) (b_next b)
    (b_qnext b) x.

Record bst : Type := MkBst {
  bufs : list buf;
  idequeue : option nat;
  havedisk1 : Z;
  regs : Z → Z;
  disks : Z → Z → list Z;
  wlog : list (Z * Z * list Z);
  nreads : nat;
  curpid : Z
}.

Definition set_bufs (x : list buf) (s : bst) : bst :=
  MkBst x (idequeue s) (havedisk1 s) (regs s) (disks s) (wlog s) (nreads s) (curpid s).
Definition set_idequeue (x : option nat) (s : bst) : bst :=
  MkBst (bufs s) x (havedisk1 s) (regs s) (disks s) (wlog s) (nreads s) (curpid s).
Definition set_havedisk1 (x : Z) (s : bst) : bst :=
  MkBst (bufs s) (idequeue s) x (regs s) (disks s) (wlog s) (nreads s) (curpid s).
Definition set_regs (x : Z → Z) (s : bst) : bst :=
  MkBst (bufs s) (idequeue s) (havedisk1 s) x (disks s) (wlog s) (nreads s) (curpid s).
Definition set_disks (x : Z → Z → list Z) (s : bst) : bst :=
  MkBst (bufs s) (idequeue s) (havedisk1 s) (regs s) x (wlog s) (nreads s) (curpid s).
Definition set_wlog (x : list (Z * Z * list Z)) (s : bst) : bst :=
  MkBst (bufs s) (idequeue s) (havedisk1 s) (regs s) (disks s) x (nreads s) (curpid s).
Definition set_nreads (x : nat) (s : bst) : bst :=
  MkBst (bufs s) (idequeue s) (havedisk1 s) (regs s) (disks s) (wlog s) x (curpid s).
Definition set_curpid (x : Z) (s : bst) : bst :=
  MkBst (bufs s) (idequeue s) (havedisk1 s) (regs s) (disks s) (wlog s) (nreads s) x.

Definition getb (i : nat) : M bst buf := s <- get ;; of_option (bufs s !! i).
Definition updb (i : nat) (f : buf → buf) : M bst unit :=
  b <- getb i ;; modify (λ s, set_bufs (<[i := f b]> (bufs s)) s).

Definition has (f m : Z) : bool := negb (Z.land f m =? 0).

(** * The controller's ports *)

Definition SECTOR_SIZE : Z := 512.
Definition IDE_BSY : Z := 128.
Definition IDE_DRDY : Z := 64.
Definition IDE_DF : Z := 32.
Definition IDE_ERR : Z := 1.
Definition IDE_CMD_READ : Z := 32.
Definition IDE_CMD_WRITE : Z := 48.
Definition IDE_CMD_RDMUL : Z := 196.
Definition IDE_CMD_WRMUL : Z := 197.

Definition outb (port v : Z) : M bst unit :=
  modify (λ s, set_regs (λ p, if p =? port then u8 v else regs s p) s).

(** The sector and the drive that the ports address. *)
Definition port_sector (r : Z → Z) : Z :=
  r 499 + Z.shiftl (r 500) 8 + Z.shiftl (r 501) 16 + Z.shiftl (Z.land (r 502) 15) 24.
Definition port_drive (r : Z → Z) : Z := Z.land (Z.shiftr (r 502) 4) 1.

(** outsl(0x1f0, ...) after a write command and insl(0x1f0, ...) after a read
    command move one sector. *)
Definition outsl (data : list Z) : M bst unit :=
  s <- get ;;
  if regs s 503 =? IDE_CMD_WRITE then
    let d := port_drive (regs s) in let k := port_sector (regs s) in
    modify (λ s, set_disks (λ d' k', if (d' =? d) && (k' =? k) then data else disks s d' k') s) ;;;
    modify (λ s, set_wlog (wlog s ++ [(d, k, data)]) s)
  else undef.

Definition insl : M bst (list Z) :=
  s <- get ;;
  if regs s 503 =? IDE_CMD_READ then ret (disks s (port_drive (regs s)) (port_sector (regs s)))
  else undef.

Section ide_code.
Context (status : nat → Z) (fuel : nat) (away : M bst unit).

(** inb(0x1f7) *)
Definition inb_status : M bst Z :=
  n <- gets nreads ;; modify (set_nreads (S n)) ;;; ret (status n).

Fixpoint idewait_loop (f : nat) : M bst Z :=
  r <- inb_status ;;
  if negb (Z.land r (Z.lor IDE_BSY IDE_DRDY) =? IDE_DRDY) then
    match f with O => out_of_fuel | S f' => idewait_loop f' end
  else ret r.

Definition idewait (checkerr : bool) : M bst Z :=
  r <- idewait_loop fuel ;;
  ret (if checkerr && has r (Z.lor IDE_DF IDE_ERR) then -1 else 0).

Fixpoint disk1_probe (n : nat) : M bst unit :=
  match n with
  | O => ret tt
  | S n' => r <- inb_status ;; if negb (r =? 0) then modify (set_havedisk1 1) else disk1_probe n'
  end.

Definition ideinit : M bst unit :=
  idewait false ;;;
  outb 502 (Z.lor 224 (Z.shiftl 1 4)) ;;;
  disk1_probe 1000 ;;;
  outb 502 (Z.lor 224 (Z.shiftl 0 4)).

Definition idestart (o : option nat) : M bst unit :=
  match o with
  | None => panic "idestart"
  | Some i =>
      b <- getb i ;;
      if FSSIZE <=? b_blockno b then panic "incorrect blockno" else
      let sector_per_block := BSIZE / SECTOR_SIZE in
      let sector := b_blockno b * sector_per_block in
      let read_cmd := if sector_per_block =? 1 then IDE_CMD_READ else IDE_CMD_RDMUL in
      let write_cmd := if sector_per_block =? 1 then IDE_CMD_WRITE else IDE_CMD_WRMUL in
      if 7 <? sector_per_block then panic "idestart" else
      idewait false ;;;
      outb 1014 0 ;;;
      outb 498 sector_per_block ;;;
      outb 499 (Z.land sector 255) ;;;
      outb 500 (Z.land (Z.shiftr sector 8) 255) ;;;
      outb 501 (Z.land (Z.shiftr sector 16) 255) ;;;
      outb 502 (Z.lor (Z.lor 224 (Z.shiftl (Z.land (b_dev b) 1) 4)) (Z.land (Z.shiftr sector 24) 15)) ;;;
      if has (b_flags b) B_DIRTY then
        outb 503 write_cmd ;;;
        outsl (b_data b)
      else outb 503 read_cmd
  end.

Definition ideintr : M bst unit :=
  q <- gets idequeue ;;
  match q with
  | None => ret tt
  | Some i =>
      b <- getb i ;;
      modify (set_idequeue (b_qnext b)) ;;;
      (if negb (has (b_flags b) B_DIRTY) then
         r <- idewait true ;;
         if 0 <=? r then d <- insl ;; updb i (set_b_data d) else ret tt
       else ret tt) ;;;
      updb i (λ b, set_b_flags (Z.lor (b_flags b) B_VALID) b) ;;;
      updb i (λ b, set_b_flags (Z.land (b_flags b) (Z.lnot B_DIRTY)) b) ;;;
      q' <- gets idequeue ;;
      match q' with None => ret tt | Some _ => idestart q' end
  end.

(** [for(pp=&idequeue; *pp; pp=&( *pp)->qnext); *pp = b;] *)
Fixpoint append_queue (f cur i : nat) : M bst unit :=
  b <- getb cur ;;
  match b_qnext b with
  | None => updb cur (set_b_qnext (Some i))
  | Some j => match f with O => out_of_fuel | S f' => append_queue f' j i end
  end.

Definition enqueue (i : nat) : M bst unit :=
  updb i (set_b_qnext None) ;;;
  q <- gets idequeue ;;
  match q with
  | None => modify (set_idequeue (Some i))
  | Some h => append_queue (Z.to_nat NBUF) h i
  end.

(** [while((b->flags & (B_VALID|B_DIRTY)) != B_VALID) sleep(b, &idelock);] *)
Fixpoint iderw_wait (f i : nat) : M bst unit :=
  b <- getb i ;;
  if negb (Z.land (b_flags b) (Z.lor B_VALID B_DIRTY) =? B_VALID) then
    match f with O => out_of_fuel | S f' => away ;;; iderw_wait f' i end
  else ret tt.

(** Append b to the queue; start the disk if it is the only request. *)
Definition ide_submit (i : nat) : M bst unit :=
  enqueue i ;;;
  q <- gets idequeue ;;
  if decide (q = Some i) then idestart (Some i) else ret tt.

Definition iderw (i : nat) : M bst unit :=
  b <- getb i ;;
  me <- gets curpid ;;
  if negb (holdingsleep me (b_lock b)) then panic "iderw: buf not locked" else
  if Z.land (b_flags b) (Z.lor B_VALID B_DIRTY) =? B_VALID then panic "iderw: nothing to do" else
  d1 <- gets havedisk1 ;;
  if negb (b_dev b =? 0) && (d1 =? 0) then panic "iderw: ide disk 1 not present" else
  ide_submit i ;;;
  iderw_wait fuel i.

End ide_code.

(** * What the driver relies on, and its queue *)

(** The drive becomes ready within [fuel] reads of the status port and
    reports no error. *)
Class Ready (status : nat → Z) (fuel : nat) : Prop := {
  rd_ready n : ∃ k, (k ≤ fuel)%nat ∧ Z.land (status (n + k)%nat) (Z.lor IDE_BSY IDE_DRDY) = IDE_DRDY;
  rd_no_error n : has (status n) (Z.lor IDE_DF IDE_ERR) = false
}.

Definition disk_map : Type := Z → Z → list Z.
Definition disk_upd (d k : Z) (v : list Z) (m : disk_map) : disk_map :=
  λ d' k', if (d' =? d) && (k' =? k) then v else m d' k'.

Lemma disk_upd_same d k v m : disk_upd d k v m d k = v.
Proof. unfold disk_upd. by rewrite !Z.eqb_refl. Qed.

Definition drive_of (b : buf) : Z := Z.land (b_dev b) 1.

(** A request seen from outside: the data the buffer ends up with, and the
    disks after it. *)
Definition serve (b : buf) (m : disk_map) : list Z * disk_map :=
  if has (b_flags b) B_DIRTY then (b_data b, disk_upd (drive_of b) (b_blockno b) (b_data b) m)
  else (m (drive_of b) (b_blockno b), m).

Definition pending (b : buf) : Prop :=
  (b_flags b = 0 ∨ b_flags b = B_DIRTY ∨ b_flags b = Z.lor B_VALID B_DIRTY)
  ∧ 0 ≤ b_blockno b < FSSIZE.

Definition finished (b : buf) (m : disk_map) (b' : buf) : Prop :=
  b' = set_b_flags B_VALID (set_b_data (serve b m).1 b).

(** The controller works on the request of [b]; [m] is the disks' contents
    before it. *)
Definition working (b : buf) (m : disk_map) (s : bst) : Prop :=
  port_sector (regs s) = b_blockno b ∧ port_drive (regs s) = drive_of b
  ∧ regs s 503 = (if has (b_flags b) B_DIRTY then IDE_CMD_WRITE else IDE_CMD_READ)
  ∧ disks s = (serve b m).2.

(** idequeue and the qnext fields link the buffers [q]. *)
Fixpoint qchain (bs : list buf) (q : list nat) : Prop :=
  match q with
  | [] => True
  | i :: q' => (∃ b, bs !! i = Some b ∧ b_qnext b = head q' ∧ pending b) ∧ qchain bs q'
  end.

Record ide_inv (s : bst) (q : list nat) (m : disk_map) : Prop := {
  ii_head : idequeue s = head q;
  ii_chain : qchain (bufs s) q;
  ii_nodup : NoDup q;
  ii_work : ∀ i b, head q = Some i → bufs s !! i = Some b → working b m s;
  ii_idle : q = [] → disks s = m
}.

Lemma port_bytes n :
  0 ≤ n < FSSIZE →
  u8 (Z.land n 255) + Z.shiftl (u8 (Z.land (Z.shiftr n 8) 255)) 8
    + Z.shiftl (u8 (Z.land (Z.shiftr n 16) 255)) 16 = n
  ∧ Z.land (Z.shiftr n 24) 15 = 0.
Proof.
  unfold FSSIZE. intros H. change 255 with (Z.ones 8). change 15 with (Z.ones 4).
  rewrite !Z.land_ones, !Z.shiftr_div_pow2, !Z.shiftl_mul_pow2 by lia. unfold u8.
  change (2 ^ 8) with 256. change (2 ^ 16) with 65536. change (2 ^ 24) with 16777216. change (2 ^ 4) with 16.
  split; Z.div_mod_to_equations; lia.
Qed.

Lemma land_one_cases x : Z.land x 1 = 0 ∨ Z.land x 1 = 1.
Proof.
  change (Z.land x 1) with (Z.land x (Z.ones 1)). rewrite Z.land_ones by lia.
  pose proof (Z.mod_pos_bound x (2 ^ 1)). lia.
Qed.

Section ide_proofs.
Context (status : nat → Z) (fuel : nat) (away : M bst unit) `{!Ready status fuel}.

Lemma idewait_loop_run f : ∀ s,
  (∃ k, (k ≤ f)%nat ∧ Z.land (status (nreads s + k)) (Z.lor IDE_BSY IDE_DRDY) = IDE_DRDY) →
  ∃ n r, idewait_loop status f s = Ret (status r, set_nreads n s).
Proof.
  induction f as [|f IH]; intros s (k & Hk & Hr); cbn [idewait_loop];
    (rewrite (bind_ret_eval _ _ s (status (nreads s)) (set_nreads (S (nreads s)) s)) by done).
  - assert (k = 0%nat) as -> by lia. rewrite Nat.add_0_r in Hr. rewrite Hr. simpl. unfold ret. eauto.
  - destruct (Z.eqb_spec (Z.land (status (nreads s)) (Z.lor IDE_BSY IDE_DRDY)) IDE_DRDY) as [E|E]; simpl.
    + unfold ret. eauto.
    + destruct k as [|k]; [by rewrite Nat.add_0_r in Hr|].
      destruct (IH (set_nreads (S (nreads s)) s)) as (n & r & ->); [|by exists n, r].
      exists k. split; [lia|]. simpl. by rewrite <- Nat.add_succ_r.
Qed.

Lemma idewait_run c s : ∃ n, idewait status fuel c s = Ret (0, set_nreads n s).
Proof.
  destruct (idewait_loop_run fuel s (rd_ready (nreads s))) as (n & r & H).
  exists n. unfold idewait. rewrite (bind_ret_eval _ _ _ _ _ H). unfold ret.
  rewrite rd_no_error, andb_false_r. done.
Qed.

Lemma idestart_run s i b m :
  bufs s !! i = Some b → 0 ≤ b_blockno b < FSSIZE → disks s = m →
  ∃ s', idestart status fuel (Some i) s = Ret (tt, s') ∧ working b m s'
    ∧ bufs s' = bufs s ∧ idequeue s' = idequeue s ∧ havedisk1 s' = havedisk1 s ∧ curpid s' = curpid s
    ∧ wlog s' = wlog s ++ (if has (b_flags b) B_DIRTY then [(drive_of b, b_blockno b, b_data b)] else []).
Proof.
  intros Hb Hn <-. unfold idestart.
  rewrite (bind_ret_eval _ _ s b s) by (unfold getb, bind, get; by rewrite Hb).
  destruct (Z.leb_spec FSSIZE (b_blockno b)) as [?|_]; [lia|]. cbv zeta.
  change (BSIZE / SECTOR_SIZE) with 1. rewrite Z.mul_1_r. change (7 <? 1) with false. change (1 =? 1) with true.
  cbv iota. destruct (idewait_run false s) as [n H]. rewrite (bind_ret_eval _ _ _ _ _ H).
  destruct (port_bytes (b_blockno b) Hn) as [Hs H0]. rewrite H0.
  assert (Hd : Z.land (Z.shiftr (u8 (Z.lor (Z.lor 224 (Z.shiftl (drive_of b) 4)) 0)) 4) 1 = drive_of b
    ∧ Z.land (u8 (Z.lor (Z.lor 224 (Z.shiftl (drive_of b) 4)) 0)) 15 = 0)
    by (unfold drive_of; destruct (land_one_cases (b_dev b)) as [-> | ->]; done).
  destruct Hd as [Hd1 Hd2]. fold (drive_of b). unfold working, serve.
  destruct (has (b_flags b) B_DIRTY).
  - eexists. split; [unfold outb, outsl, bind, modify, get; simpl; reflexivity|]. unfold port_sector, port_drive. simpl. rewrite Hd1, Hd2, Z.shiftl_0_l, Z.add_0_r, Hs.
    split_and!; done.
  - eexists. split; [unfold outb, outsl, bind, modify, get; simpl; reflexivity|]. unfold port_sector, port_drive. simpl. rewrite Hd1, Hd2, Z.shiftl_0_l, Z.add_0_r, Hs.
    rewrite app_nil_r. split_and!; done.
Qed.

Lemma getb_run s i b : bufs s !! i = Some b → getb i s = Ret (b, s).
Proof. intros H. unfold getb, bind, get. by rewrite H. Qed.

Lemma updb_run s i b f :
  bufs s !! i = Some b → updb i f s = Ret (tt, set_bufs (<[i := f b]> (bufs s)) s).
Proof. intros H. unfold updb. by rewrite (bind_ret_eval _ _ _ _ _ (getb_run s i b H)). Qed.

(** The buffers without their queue links. *)
Definition unlinked (bs : list buf) : list buf := set_b_qnext None <$> bs.

Lemma qchain_insert bs q i b :
  i ∉ q → qchain bs q → qchain (<[i := b]> bs) q.
Proof.
  induction q as [|j q IH]; simpl; [done|]. intros [Hij Hq]%not_elem_of_cons ((bj & Hj & H1) & H2).
  split; [|auto]. exists bj. by rewrite list_lookup_insert_ne by done.
Qed.

Lemma unlinked_insert bs i b b' :
  bs !! i = Some b → set_b_qnext None b' = set_b_qnext None b → unlinked (<[i := b']> bs) = unlinked bs.
Proof.
  intros H E. unfold unlinked. rewrite list_fmap_insert, E. apply list_insert_id.
  by rewrite list_lookup_fmap, H.
Qed.

Lemma append_queue_run q : ∀ f h s i b,
  qchain (bufs s) (h :: q) → NoDup (h :: q) → i ∉ h :: q → (length q ≤ f)%nat →
  bufs s !! i = Some b → b_qnext b = None → pending b →
  ∃ bs, append_queue f h i s = Ret (tt, set_bufs bs s) ∧ unlinked bs = unlinked (bufs s)
    ∧ qchain bs (h :: q ++ [i]) ∧ ∀ k, k ∉ h :: q → bs !! k = bufs s !! k.
Proof.
  induction q as [|j q IH]; intros f h s i b Hq Hnd Hi Hf Hb Hbn Hbp.
  - destruct Hq as ((bh & Hh & Hn & Hp) & _).
    exists (<[h := set_b_qnext (Some i) bh]> (bufs s)). split_and!.
    + destruct f; cbn [append_queue]; rewrite (bind_ret_eval _ _ _ _ _ (getb_run s h bh Hh)), Hn;
        by apply updb_run.
    + by eapply unlinked_insert.
    + simpl. split.
      * exists (set_b_qnext (Some i) bh). rewrite list_lookup_insert_eq by by eapply lookup_lt_Some. done.
      * split; [|done]. exists b. rewrite list_lookup_insert_ne by set_solver. done.
    + intros k Hk. rewrite list_lookup_insert_ne by set_solver. done.
  - destruct Hq as ((bh & Hh & Hn & Hp) & Hq). destruct f as [|f]; [simpl in Hf; lia|].
    apply NoDup_cons in Hnd as [Hhq Hnd].
    destruct (IH f j s i b) as (bs & H1 & H2 & H3 & H4); [done|done|set_solver|simpl in Hf; lia|done..|].
    exists bs. split_and!; [|done| |].
    + cbn [append_queue]. rewrite (bind_ret_eval _ _ _ _ _ (getb_run s h bh Hh)), Hn. exact H1.
    + split; [|done]. exists bh. rewrite H4 by done. done.
    + intros k Hk. apply H4. set_solver.
Qed.

(** What a driver step leaves alone. *)
Definition ide_frame (s s' : bst) : Prop := havedisk1 s' = havedisk1 s ∧ curpid s' = curpid s.

(** The sector write that starting a request makes. *)
Definition write_of (b : buf) : list (Z * Z * list Z) :=
  if has (b_flags b) B_DIRTY then [(drive_of b, b_blockno b, b_data b)] else [].

Lemma unlinked_lookup bs bs' i b b' :
  unlinked bs = unlinked bs' → bs !! i = Some b → bs' !! i = Some b' →
  set_b_qnext None b = set_b_qnext None b'.
Proof.
  intros H Hb Hb'. assert (E : unlinked bs !! i = unlinked bs' !! i) by (by rewrite H).
  unfold unlinked in E. rewrite !list_lookup_fmap, Hb, Hb' in E. apply (inj Some). exact E.
Qed.

Lemma working_unlinked b b' m s s' :
  set_b_qnext None b' = set_b_qnext None b → working b m s →
  regs s' = regs s → disks s' = disks s → working b' m s'.
Proof.
  intros E Hw Hr Hd. destruct b, b'. unfold set_b_qnext in E. simpl in E. injection E as -> -> -> -> -> -> -> ->.
  unfold working in *. by rewrite Hr, Hd.
Qed.

Lemma qchain_in_range bs q i : qchain bs q → i ∈ q → (i < length bs)%nat.
Proof.
  induction q as [|j q IH]; [by intros _ ?%elem_of_nil|].
  intros ((b & Hb & _) & Hq) [->|Hi]%elem_of_cons; [by eapply lookup_lt_Some|auto].
Qed.

Lemma queue_length bs q i :
  qchain bs q → NoDup q → i ∉ q → (i < length bs)%nat → (length q < length bs)%nat.
Proof.
  intros Hq Hnd Hi Hlt. assert (H : (length (i :: q) ≤ length (seq 0 (length bs)))%nat).
  { apply submseteq_length, NoDup_submseteq; [by apply NoDup_cons|].
    intros k [->|Hk]%elem_of_cons; apply elem_of_seq; [lia|]. split; [lia|]. by eapply qchain_in_range. }
  rewrite length_seq in H. simpl in H. lia.
Qed.

Lemma ide_submit_run s q m i b :
  ide_inv s q m → length (bufs s) = 31%nat → i ∉ q → bufs s !! i = Some b → pending b →
  ∃ s', ide_submit status fuel i s = Ret (tt, s') ∧ ide_inv s' (q ++ [i]) m
    ∧ unlinked (bufs s') = unlinked (bufs s) ∧ ide_frame s s'
    ∧ (q = [] → wlog s' = wlog s ++ write_of b ∧ bufs s' = <[i := set_b_qnext None b]> (bufs s)).
Proof.
  intros [Hh Hc Hnd Hw Hi] Hlen Hiq Hb Hp. set (b0 := set_b_qnext None b).
  set (s0 := set_bufs (<[i := b0]> (bufs s)) s).
  assert (Hi0 : bufs s0 !! i = Some b0).
  { simpl. rewrite list_lookup_insert_eq; [done|by eapply lookup_lt_Some]. }
  assert (Hu0 : unlinked (bufs s0) = unlinked (bufs s)) by (by eapply unlinked_insert).
  assert (Hc0 : qchain (bufs s0) q) by (by apply qchain_insert).
  unfold ide_submit, enqueue. rewrite bind_assoc.
  rewrite (bind_ret_eval _ _ _ _ _ (updb_run s i b (set_b_qnext None) Hb)). fold b0. fold s0.
  rewrite bind_assoc. rewrite (bind_ret_eval _ _ s0 (idequeue s0) s0 eq_refl).
  change (idequeue s0) with (idequeue s). rewrite Hh. destruct q as [|h q]; cbn [head].
  - destruct (idestart_run (set_idequeue (Some i) s0) i b0 m) as (s1 & H1 & Hwk & H2 & H3 & H4 & H5 & H6);
      [done|apply Hp|by apply Hi|].
    exists s1. split_and!.
    + rewrite (bind_ret_eval _ _ s0 tt (set_idequeue (Some i) s0)) by done.
      rewrite (bind_ret_eval _ _ _ (Some i) (set_idequeue (Some i) s0)) by done.
      rewrite decide_True by done. exact H1.
    + change (bufs (set_idequeue (Some i) s0)) with (bufs s0) in H2.
      split; rewrite ?H2, ?H3; [done| | |intros ? b' [= <-]; rewrite Hi0; by intros [= <-]|done].
      * split; [|done]. exists b0. done.
      * apply NoDup_singleton.
    + rewrite H2. exact Hu0.
    + unfold ide_frame. by rewrite H4, H5.
    + by rewrite H2.
  - destruct (append_queue_run q (Z.to_nat NBUF) h s0 i b0) as (bs & H1 & H2 & H3 & H4);
      [done|done|done| |done..|].
    { apply (queue_length (bufs s0) (h :: q) i) in Hc0; [|done|done|by eapply lookup_lt_Some].
      simpl in Hc0. rewrite length_insert, Hlen in Hc0. change (Z.to_nat NBUF) with 30%nat. lia. }
    exists (set_bufs bs s0). split_and!.
    + rewrite (bind_ret_eval _ _ _ _ _ H1).
      rewrite (bind_ret_eval _ _ _ (Some h) (set_bufs bs s0)) by (unfold gets; simpl; by rewrite Hh).
      rewrite decide_False; [done|]. intros [= ->]. set_solver.
    + split; simpl; [done|done| |intros ? b' [= <-] Hb'|done].
      * rewrite app_comm_cons. apply NoDup_app. split_and!; [done| |apply NoDup_singleton]. set_solver.
      * destruct Hc0 as ((bh & Hh0 & _) & _).
        apply (working_unlinked bh _ _ s); [by apply (unlinked_lookup bs (bufs s0) h)|apply (Hw h bh eq_refl)|done|done].
        rewrite <- Hh0. simpl. rewrite list_lookup_insert_ne; [done|set_solver].
    + simpl. by rewrite H2.
    + done.
    + done.
Qed.

Lemma pending_flags b :
  pending b → Z.land (Z.lor (b_flags b) B_VALID) (Z.lnot B_DIRTY) = B_VALID.
Proof. by intros [[-> |[-> | ->]] _]. Qed.

(** The part of ideintr that fetches the data of a read request. *)
Lemma ide_fetch_run s i b m :
  bufs s !! i = Some b → working b m s →
  ∃ n, (if negb (has (b_flags b) B_DIRTY) then
          r <- idewait status fuel true ;;
          if 0 <=? r then d <- insl ;; updb i (set_b_data d) else ret tt
        else ret tt) s
       = Ret (tt, set_nreads n (set_bufs (<[i := set_b_data (serve b m).1 b]> (bufs s)) s)).
Proof.
  intros Hb (H1 & H2 & H3 & H4). unfold serve in *. destruct (has (b_flags b) B_DIRTY); cbn [negb].
  - exists (nreads s). rewrite list_insert_id; [by destruct s|]. cbn [fst]. rewrite Hb. by destruct b.
  - destruct (idewait_run true s) as [n H]. exists n. rewrite (bind_ret_eval _ _ _ _ _ H).
    change (0 <=? 0) with true. cbv iota.
    rewrite (bind_ret_eval _ _ _ (m (drive_of b) (b_blockno b)) (set_nreads n s)).
    + by rewrite (updb_run (set_nreads n s) i b) by done.
    + unfold insl, bind, get. simpl. rewrite H3, H1, H2, H4. done.
Qed.

Lemma ideintr_run s i q m b :
  ide_inv s (i :: q) m → bufs s !! i = Some b →
  ∃ s' b', ideintr status fuel s = Ret (tt, s') ∧ bufs s' = <[i := b']> (bufs s) ∧ finished b m b'
    ∧ ide_inv s' q (serve b m).2 ∧ ide_frame s s'
    ∧ ∃ w, wlog s' = wlog s ++ w ∧ (q = [] → w = []).
Proof.
  intros [Hh Hc Hnd Hw Hi] Hb. simpl in Hh. specialize (Hw i b eq_refl Hb).
  destruct Hc as ((b1 & Hb1 & Hn & Hp) & Hc). rewrite Hb in Hb1. injection Hb1 as <-.
  apply NoDup_cons in Hnd as [Hiq Hnd]. assert (Hlt : (i < length (bufs s))%nat) by (by eapply lookup_lt_Some).
  unfold ideintr. rewrite (bind_ret_eval _ _ s (Some i) s) by (unfold gets; by rewrite Hh). cbv iota.
  rewrite (bind_ret_eval _ _ _ _ _ (getb_run s i b Hb)).
  set (s1 := set_idequeue (b_qnext b) s). rewrite (bind_ret_eval _ _ s tt s1) by done.
  destruct (ide_fetch_run s1 i b m) as [n H1]; [done|exact Hw|]. rewrite (bind_ret_eval _ _ _ _ _ H1).
  set (bd := set_b_data (serve b m).1 b). set (s2 := set_nreads _ _).
  assert (E2 : bufs s2 !! i = Some bd) by (by apply list_lookup_insert_eq).
  rewrite (bind_ret_eval _ _ _ _ _ (updb_run s2 i bd _ E2)). set (s3 := set_bufs _ s2).
  set (bv := set_b_flags (Z.lor (b_flags bd) B_VALID) bd).
  assert (E3 : bufs s3 !! i = Some bv) by (apply list_lookup_insert_eq; simpl; by rewrite length_insert).
  rewrite (bind_ret_eval _ _ _ _ _ (updb_run s3 i bv _ E3)). set (s4 := set_bufs _ s3).
  set (b' := set_b_flags B_VALID bd).
  assert (E4 : bufs s4 = <[i := b']> (bufs s)).
  { unfold s4, s3, s2, s1. simpl. rewrite !list_insert_insert_eq. f_equal. unfold b', bv.
    change (b_flags bd) with (b_flags b). simpl. by rewrite pending_flags. }
  assert (Hc4 : qchain (bufs s4) q) by (rewrite E4; by apply qchain_insert).
  rewrite (bind_ret_eval _ _ s4 (head q) s4) by (unfold gets; simpl; by rewrite Hn).
  destruct q as [|h q]; cbn [head].
  - exists s4, b'. split_and!; [done|done|done| |done|exists []; by rewrite app_nil_r].
    split; simpl; [done..|constructor|done|]. intros _. apply Hw.
  - pose proof Hc4 as ((bh & Hbh & _ & _ & Hr) & _).
    destruct (idestart_run s4 h bh (serve b m).2 Hbh Hr) as (s5 & H5 & Hwk & F1 & F2 & F3 & F4 & F5); [apply Hw|].
    exists s5, b'. split_and!; [done|by rewrite F1|done| |by split; rewrite ?F3, ?F4|].
    + split; rewrite ?F1, ?F2; [done|done|done| |done]. intros ? bx [= <-]. rewrite Hbh. by intros [= <-].
    + eexists. by split; [exact F5|].
Qed.

(** iderw when the driver is idle and nothing but the disk's interrupt
    happens while the process sleeps. *)
Lemma iderw_run s i b m :
  ide_inv s [] m → length (bufs s) = 31%nat → bufs s !! i = Some b → pending b → b_qnext b = None →
  holdingsleep (curpid s) (b_lock b) = true → havedisk1 s ≠ 0 → (1 ≤ fuel)%nat →
  ∃ s', iderw status fuel (ideintr status fuel) i s = Ret (tt, s')
    ∧ bufs s' = <[i := set_b_flags B_VALID (set_b_data (serve b m).1 b)]> (bufs s)
    ∧ ide_inv s' [] (serve b m).2 ∧ ide_frame s s' ∧ wlog s' = wlog s ++ write_of b.
Proof.
  intros Hinv Hlen Hb Hp Hq Hl Hd Hf. unfold iderw. rewrite (bind_ret_eval _ _ _ _ _ (getb_run s i b Hb)).
  rewrite (bind_ret_eval _ _ s (curpid s) s) by done. rewrite Hl. cbn [negb].
  assert (Hpf : (Z.land (b_flags b) (Z.lor B_VALID B_DIRTY) =? B_VALID) = false) by (by destruct Hp as [[-> |[-> | ->]] _]).
  rewrite Hpf. rewrite (bind_ret_eval _ _ s (havedisk1 s) s) by done.
  destruct (Z.eqb_spec (havedisk1 s) 0) as [?|_]; [done|]. rewrite andb_false_r.
  destruct (ide_submit_run s [] m i b) as (s1 & E1 & Hi1 & _ & [F1 F2] & Hx); [done|done|by apply not_elem_of_nil|done|done|].
  destruct (Hx eq_refl) as [Hw1 Hb1]. clear Hx. rewrite (bind_ret_eval _ _ _ _ _ E1).
  assert (Eb : set_b_qnext None b = b) by (destruct b; simpl in *; by subst).
  rewrite Eb in Hb1. rewrite list_insert_id in Hb1 by done.
  assert (Hi : bufs s1 !! i = Some b) by (by rewrite Hb1).
  destruct (ideintr_run s1 i [] m b Hi1 Hi) as (s2 & b2 & E2 & Hb2 & Hf2 & Hi2 & [G1 G2] & w & Hw2 & Hw2').
  rewrite (Hw2' eq_refl), app_nil_r in Hw2. unfold finished in Hf2. rewrite Hb1 in Hb2.
  exists s2. split_and!; [|by rewrite Hb2, Hf2|done|by split; congruence|by rewrite Hw2].
  destruct fuel as [|f]; [lia|]. cbn [iderw_wait]. rewrite (bind_ret_eval _ _ _ _ _ (getb_run s1 i b Hi)), Hpf.
  cbn [negb]. rewrite (bind_ret_eval _ _ _ _ _ E2).
  assert (Hlt : (i < length (bufs s))%nat) by (by eapply lookup_lt_Some).
  assert (Hi' : bufs s2 !! i = Some b2) by (rewrite Hb2; by apply list_lookup_insert_eq).
  destruct f; cbn [iderw_wait]; rewrite (bind_ret_eval _ _ _ _ _ (getb_run s2 i b2 Hi')), Hf2; done.
Qed.
End ide_proofs.

(** * The driver as a queue of requests *)

(** The requests of [l], served one after the other. *)
Definition serve_list (l : list (nat * buf)) (m : disk_map) : disk_map :=
  foldl (λ m r, (serve r.2 m).2) m l.

Lemma serve_list_snoc l r m : serve_list (l ++ [r]) m = (serve r.2 (serve_list l m)).2.
Proof. unfold serve_list. by rewrite foldl_app. Qed.

Section requests.
Context (status : nat → Z) (fuel : nat) (m0 : disk_map).

(** [ide_reach s served q]: starting from an idle driver, processes hand in
    requests and interrupts arrive in any order; [served] are the requests
    finished so far, [q] those that are waiting, each with its buffer as
    handed in.  Buffers that are not in the queue change freely. *)
Inductive ide_reach : bst → list (nat * buf) → list (nat * buf) → Prop :=
| ir_idle s : idequeue s = None → disks s = m0 → length (bufs s) = 31%nat → ide_reach s [] []
| ir_submit s served q i b s' :
    ide_reach s served q → i ∉ q.*1 → bufs s !! i = Some b → pending b →
    ide_submit status fuel i s = Ret (tt, s') → ide_reach s' served (q ++ [(i, b)])
| ir_intr s served q s' :
    ide_reach s served q → ideintr status fuel s = Ret (tt, s') →
    ide_reach s' (served ++ take 1 q) (drop 1 q)
| ir_client s served q i b :
    ide_reach s served q → i ∉ q.*1 → (i < 31)%nat →
    ide_reach (set_bufs (<[i := b]> (bufs s)) s) served q.

Definition same_request (s : bst) (r : nat * buf) : Prop :=
  ∃ b, bufs s !! r.1 = Some b ∧ set_b_qnext None b = set_b_qnext None r.2.

Record ireq_inv (s : bst) (served q : list (nat * buf)) : Prop := {
  iq_inv : ide_inv s q.*1 (serve_list served m0);
  iq_len : length (bufs s) = 31%nat;
  iq_same : Forall (same_request s) q
}.

Lemma serve_unlinked b b' m : set_b_qnext None b = set_b_qnext None b' → serve b m = serve b' m.
Proof.
  intros E. destruct b, b'. unfold set_b_qnext in E. simpl in E. injection E as -> -> -> -> -> -> -> ->. done.
Qed.

Lemma unlinked_same s s' r :
  unlinked (bufs s') = unlinked (bufs s) → same_request s r → same_request s' r.
Proof.
  intros H (b & Hb & E). assert (Hl : length (bufs s') = length (bufs s)).
  { apply (f_equal length) in H. unfold unlinked in H. by rewrite !length_fmap in H. }
  destruct (lookup_lt_is_Some_2 (bufs s') r.1) as [b' Hb']; [rewrite Hl; by eapply lookup_lt_Some|].
  exists b'. split; [done|]. rewrite <- E. by eapply unlinked_lookup.
Qed.

Lemma same_insert s i b q :
  i ∉ q.*1 → Forall (same_request s) q → Forall (same_request (set_bufs (<[i := b]> (bufs s)) s)) q.
Proof.
  rewrite !Forall_forall. intros Hi H [j bj] Hj. destruct (H _ Hj) as (b' & Hb' & E).
  apply (list_elem_of_fmap_2 fst) in Hj.
  exists b'. simpl in *. split; [|done]. rewrite list_lookup_insert_ne; [done|]. congruence.
Qed.

Lemma ireq_reachable `{!Ready status fuel} s served q : ide_reach s served q → ireq_inv s served q.
Proof.
  induction 1 as [s H1 H2 H3|s served q i b s' _ [IH1 IH2 IH3] Hi Hb Hp Hs|s served q s' _ [IH1 IH2 IH3] Hs
    |s served q i b _ [IH1 IH2 IH3] Hi Hlt].
  - split; [|done|constructor]. split; try done. constructor.
  - destruct (ide_submit_run status fuel s q.*1 (serve_list served m0) i b) as (s1 & E & H1 & H2 & _); [done..|].
    rewrite Hs in E. injection E as <-. split.
    + by rewrite fmap_app.
    + apply (f_equal length) in H2. unfold unlinked in H2. rewrite !length_fmap in H2. congruence.
    + apply Forall_app. split; [|apply Forall_singleton; eapply unlinked_same; [done|by exists b]].
      eapply Forall_impl; [done|]. intros r. by apply unlinked_same.
  - destruct q as [|[i b] q].
    { unfold ideintr in Hs. rewrite (bind_ret_eval _ _ s None s) in Hs
        by (unfold gets; by rewrite (ii_head _ _ _ IH1)). cbv iota in Hs. injection Hs as <-. by rewrite app_nil_r. }
    apply Forall_cons in IH3 as [(b1 & Hb1 & E1) IH3]. simpl in Hb1, E1.
    destruct (ideintr_run status fuel s i q.*1 (serve_list served m0) b1 IH1 Hb1)
      as (s1 & b' & E & H1 & _ & H2 & _). rewrite Hs in E. injection E as <-. simpl.
    pose proof (ii_nodup _ _ _ IH1) as Hnd. apply NoDup_cons in Hnd as [Hiq _]. split.
    + rewrite serve_list_snoc. simpl. by rewrite <- (serve_unlinked b1 b).
    + by rewrite H1, length_insert.
    + apply (same_insert s i b' q) in IH3; [|done].
      eapply Forall_impl; [done|]. intros r (b2 & Hb2 & E2). exists b2. by rewrite H1.
  - split; [|by rewrite <- IH2, <- (length_insert (bufs s) i b)|by apply same_insert].
    destruct IH1 as [A B C D E]. split; try done; simpl; [by apply qchain_insert|].
    intros j bj Hj Hbj. apply (D j bj Hj). rewrite list_lookup_insert_ne in Hbj; [done|].
    intros ->. apply Hi. destruct q.*1; [done|]. injection Hj as ->. apply elem_of_cons; by left.
Qed.
End requests.

(** * Properties *)

(** C40. The disk driver serves its requests first in, first out, whatever the
    order in which processes hand them in and interrupts arrive: handing in
    a request and taking an interrupt always return, and the interrupt
    leaves the first buffer of the queue valid, clean, and with its data
    written to its block, or read from it as the earlier requests left it. *)
Theorem ide_fifo status fuel m0 s served q `{!Ready status fuel} :
  ide_reach status fuel m0 s served q →
  (q = [] → disks s = serve_list served m0)
  ∧ (∀ i b, i ∉ q.*1 → bufs s !! i = Some b → pending b →
      ∃ s', ide_submit status fuel i s = Ret (tt, s'))
  ∧ ∀ i b q', q = (i, b) :: q' →
      ∃ s' b', ideintr status fuel s = Ret (tt, s') ∧ bufs s' !! i = Some b' ∧ b_flags b' = B_VALID
        ∧ b_data b' = (serve b (serve_list served m0)).1
        ∧ (q' = [] → disks s' = serve_list (served ++ [(i, b)]) m0).
Proof.
  intros [H1 H2 H3]%ireq_reachable; [|done]. split_and!.
  - intros ->. by apply (ii_idle _ _ _ H1).
  - intros i b Hi Hb Hp. destruct (ide_submit_run status fuel s q.*1 _ i b H1 H2 Hi Hb Hp) as (s' & E & _). eauto.
  - intros i b q' ->. apply Forall_cons in H3 as [(b1 & Hb1 & E1) _]. simpl in Hb1, E1.
    destruct (ideintr_run status fuel s i q'.*1 _ b1 H1 Hb1) as (s' & b' & E & Hbs & Hf & Hi & _).
    exists s', b'. rewrite Hf. split_and!; [exact E| |done| |].
    + rewrite Hbs, Hf. apply list_lookup_insert_eq. by eapply lookup_lt_Some.
    + simpl. by rewrite (serve_unlinked b1 b).
    + intros ->. rewrite serve_list_snoc. simpl. rewrite <- (serve_unlinked b1 b) by done. by apply (ii_idle _ _ _ Hi).
Qed.

(** A write of block 7. *)
Definition ex_block (x : Z) : list Z := replicate 512 x.
Definition ex_buf (f k x : Z) : buf :=
  MkBuf f 1 k (MkSleeplock 1 3) 1 0 0 None (ex_block x).
Definition ex_bst : bst :=
  MkBst (ex_buf B_DIRTY 7 5 :: replicate 30 (ex_buf B_VALID 0 0)) None 1 (λ _, 0)
    (λ _ _, ex_block 0) [] 0 3.
Definition ex_status (n : nat) : Z := if Nat.even n then IDE_BSY else IDE_DRDY.

#[export] Instance ex_status_ready : Ready ex_status 1.
Proof.
  split; intros n; unfold ex_status.
  - destruct (Nat.even n) eqn:E.
    + exists 1%nat. split; [done|]. rewrite Nat.add_1_r, Nat.even_succ, <- Nat.negb_even, E. done.
    + exists 0%nat. split; [lia|]. by rewrite Nat.add_0_r, E.
  - by destruct (Nat.even n).
Qed.

Lemma ex_submit :
  ∃ s1, ide_submit ex_status 1 0 ex_bst = Ret (tt, s1)
    ∧ ide_reach ex_status 1 (disks ex_bst) s1 [] [(0%nat, ex_buf B_DIRTY 7 5)].
Proof.
  assert (Hp : pending (ex_buf B_DIRTY 7 5)) by (split; [auto|unfold FSSIZE; simpl; lia]).
  destruct (ide_submit_run ex_status 1 ex_bst [] (disks ex_bst) 0 (ex_buf B_DIRTY 7 5)) as (s1 & E & _).
  - split; try done. constructor.
  - done.
  - apply not_elem_of_nil.
  - done.
  - done.
  - exists s1. split; [done|]. apply (ir_submit _ _ _ ex_bst [] [] 0); try done.
    + by apply ir_idle.
    + apply not_elem_of_nil.
Qed.

Lemma ide_fifo_witness :
  ∃ s1 s' b', ide_submit ex_status 1 0 ex_bst = Ret (tt, s1) ∧ ideintr ex_status 1 s1 = Ret (tt, s')
    ∧ bufs s' !! 0%nat = Some b' ∧ b_flags b' = B_VALID ∧ b_data b' = ex_block 5 ∧ disks s' 1 7 = ex_block 5.
Proof.
  destruct ex_submit as (s1 & E & R). exists s1.
  destruct (ide_fifo ex_status 1 (disks ex_bst) s1 [] _ R) as (_ & _ & H).
  destruct (H 0%nat _ _ eq_refl) as (s' & b' & H1 & H2 & H3 & H4 & H5). exists s', b'.
  rewrite (H5 eq_refl). by split_and!.
Defined.

(** * memide.c

    The driver for a disk that is an area of memory: it serves a request as
    the driver of the IDE disk does. *)
Module Memide.

(** The buffers, memory, the two variables of the driver, and the process
    that runs. *)
Record mdst : Type := MkMd { md_bufs : list buf; md_mem : mem; memdisk : Z; disksize : Z; md_pid : Z }.

Definition md_getb (i : nat) : M mdst buf := s <- get ;; of_option (md_bufs s !! i).
Definition md_updb (i : nat) (f : buf → buf) : M mdst unit :=
  b <- md_getb i ;; modify (λ s, MkMd (<[i := f b]> (md_bufs s)) (md_mem s) (memdisk s) (disksize s) (md_pid s)).

(** ideinit, with the two symbols of the linker *)
Definition memide_init (fs_img_start fs_img_size : Z) : M mdst unit :=
  modify (λ s, MkMd (md_bufs s) (md_mem s) fs_img_start (u32 fs_img_size / BSIZE) (md_pid s)).

(** memmove(p, b->data, BSIZE) and memmove(b->data, p, BSIZE) *)
Definition put_block (p : Z) (data : list Z) (m : mem) : mem := λ x,
  if (p <=? x) && (x <? p + BSIZE) then nth (Z.to_nat (x - p)) data 0 else m x.
Definition get_block (p : Z) (m : mem) : list Z := bytes_at m p 512.

Definition memide_rw (i : nat) : M mdst unit :=
  b <- md_getb i ;;
  me <- gets md_pid ;;
  if negb (holdingsleep me (b_lock b)) then panic "iderw: buf not locked" else
  if Z.land (b_flags b) (Z.lor B_VALID B_DIRTY) =? B_VALID then panic "iderw: nothing to do" else
  if negb (b_dev b =? 1) then panic "iderw: request not for disk 1" else
  n <- gets disksize ;;
  if n <=? b_blockno b then panic "iderw: block out of range" else
  start <- gets memdisk ;;
  let p := u32 (start + b_blockno b * BSIZE) in
  (if has (b_flags b) B_DIRTY then
     md_updb i (λ b, set_b_flags (Z.land (b_flags b) (Z.lnot B_DIRTY)) b) ;;;
     modify (λ s, MkMd (md_bufs s) (put_block p (b_data b) (md_mem s)) (memdisk s) (disksize s) (md_pid s))
   else
     m <- gets md_mem ;;
     md_updb i (set_b_data (get_block p m))) ;;;
  md_updb i (λ b, set_b_flags (Z.lor (b_flags b) B_VALID) b).

(** The disk that the area of memory is: drive 1 and nothing else. *)
Definition md_disk (s : mdst) : Z → Z → list Z := λ d k, if d =? 1 then get_block (memdisk s + k * BSIZE) (md_mem s) else [].

Lemma wp_md_updb i f s b (Q : unit → mdst → Prop) : md_bufs s !! i = Some b →
  Q tt (MkMd (<[i := f b]> (md_bufs s)) (md_mem s) (memdisk s) (disksize s) (md_pid s)) → wp (md_updb i f) s Q.
Proof. intros Hb HQ. unfold md_updb, md_getb. do 3 wp_step. eapply wp_of_option; [done|]. wp_step. done. Qed.

Lemma get_put_same p data m : length data = 512%nat → get_block p (put_block p data m) = data.
Proof.
  intros Hl. unfold get_block, bytes_at. apply list_eq. intros i. rewrite list_lookup_fmap. destruct (decide (i < 512)%nat).
  - rewrite lookup_seq_lt by done. cbn. unfold put_block, BSIZE. zcases. f_equal.
    destruct (lookup_lt_is_Some_2 data i) as [x Hx]; [lia|]. rewrite Hx. f_equal. apply nth_lookup_Some. rewrite <- Hx. f_equal. lia.
  - rewrite lookup_seq_ge by lia. symmetry. apply lookup_ge_None. lia.
Qed.

Lemma get_put_other p q data m : q + BSIZE ≤ p ∨ p + BSIZE ≤ q → get_block q (put_block p data m) = get_block q m.
Proof. intros H. apply bytes_at_ext. intros i Hi. unfold put_block, BSIZE in *. zcases; done. Qed.

(** The driver serves a request at once and as the specification of the IDE
    driver says: the buffer is valid and clean, a dirty one is on the disk,
    any other holds what was there, and no other block changes. *)
Theorem memide_serves i b s :
  md_bufs s !! i = Some b → holdingsleep (md_pid s) (b_lock b) = true → pending b → b_dev b = 1 → b_blockno b < disksize s →
  length (b_data b) = 512%nat → 0 ≤ memdisk s → memdisk s + disksize s * BSIZE ≤ 4294967296 →
  wp (memide_rw i) s (λ _ s', md_bufs s' !! i = Some (set_b_flags B_VALID (set_b_data (serve b (md_disk s)).1 b))
    ∧ (∀ j, j ≠ i → md_bufs s' !! j = md_bufs s !! j)
    ∧ ∀ k, 0 ≤ k < disksize s → md_disk s' 1 k = (serve b (md_disk s)).2 1 k).
Proof.
  intros Hb Hh [Hf Hn] Hd Hlt Hl H0 H1. unfold memide_rw, md_getb. do 3 wp_step. eapply wp_of_option; [done|].
  do 2 wp_step. rewrite Hh. cbn [negb].
  assert (E : (Z.land (b_flags b) (Z.lor B_VALID B_DIRTY) =? B_VALID) = false) by (destruct Hf as [-> |[-> | ->]]; done). rewrite E.
  rewrite Hd. change (negb (1 =? 1)) with false. cbv iota. do 2 wp_step. rewrite (proj2 (Z.leb_gt _ _)) by done. do 2 wp_step.
  rewrite u32_small by (unfold BSIZE in *; nia). unfold serve, drive_of. rewrite Hd. change (Z.land 1 1) with 1.
  assert (Hi : (i < length (md_bufs s))%nat) by (by eapply lookup_lt_Some).
  destruct Hf as [Hf|Hf].
  - rewrite Hf. change (has 0 B_DIRTY) with false. cbv iota. do 3 wp_step. apply (wp_md_updb _ _ _ b); [done|]. cbn [md_bufs].
    eapply wp_md_updb; [cbn [md_bufs]; by rewrite list_lookup_insert_eq|]. cbn [md_bufs]. rewrite list_insert_insert_eq, list_lookup_insert_eq by done.
    split; [destruct b; cbn in *; by rewrite Hf|]. split; [intros j Hj; by rewrite list_lookup_insert_ne|done].
  - assert (has (b_flags b) B_DIRTY = true) as -> by (destruct Hf as [-> | ->]; done). wp_step. wp_step. apply (wp_md_updb _ _ _ b); [done|].
    wp_step. eapply wp_md_updb; [cbn [md_bufs]; by rewrite list_lookup_insert_eq|]. cbn [md_bufs]. rewrite list_insert_insert_eq, list_lookup_insert_eq by done.
    split; [destruct b; cbn in *; by destruct Hf as [-> | ->]|]. split; [intros j Hj; by rewrite list_lookup_insert_ne|].
    intros k Hk. unfold md_disk, disk_upd. cbn [memdisk md_mem fst snd]. change (1 =? 1) with true. cbn [andb].
    destruct (Z.eqb_spec k (b_blockno b)) as [-> |Hne]; [by apply get_put_same|]. apply get_put_other. unfold BSIZE. nia.
Qed.

Definition ex_md : mdst :=
  MkMd [MkBuf B_DIRTY 1 2 (MkSleeplock 1 5) 1 0 0 None (replicate 512 9)] (λ x, x mod 256) 2148532224 10 5.

Lemma memide_serves_witness :
  wp (memide_rw 0) ex_md (λ _ s', md_disk s' 1 2 = replicate 512 9 ∧ md_disk s' 1 3 = md_disk ex_md 1 3).
Proof.
  eapply wp_mono; [apply (memide_serves 0 (MkBuf B_DIRTY 1 2 (MkSleeplock 1 5) 1 0 0 None (replicate 512 9)) ex_md)|].
  - reflexivity.
  - reflexivity.
  - split; [auto|]. cbn. unfold FSSIZE. lia.
  - reflexivity.
  - cbn. lia.
  - reflexivity.
  - cbn. lia.
  - cbn. unfold BSIZE. lia.
  - intros _ s' (_ & _ & H). split; [rewrite H by (cbn; lia); reflexivity|rewrite H by (cbn; lia); reflexivity].
Defined.

End Memide.
