(* ===== verification/BufCache.v ===== *)
(** What bio.c promises to the log and the file system: the operations on
    buffers as a class, an abstract state, and the laws that relate them.

    The file system uses one device.  [a_disk] holds its blocks on disk,
    [a_view] the blocks as a reader of the cache sees them, [a_pin] the
    blocks whose buffers carry B_DIRTY and so cannot be evicted, [a_held]
    the buffers the process has locked, and [a_writes] the blocks written
    to disk so far, in order. *)

From S2P Require Import Prelude Params.

Record acache : Type := MkAcache {
  a_disk : Z → list Z;
  a_view : Z → list Z;
  a_pin : gset Z;
  a_held : gmap nat Z;
  a_writes : list (Z * list Z)
}.

Definition upd_blk (k : Z) (v : list Z) (f : Z → list Z) : Z → list Z :=
  λ j, if decide (j = k) then v else f j.

Lemma upd_blk_eq k v f : upd_blk k v f k = v.
Proof. unfold upd_blk. by rewrite decide_True. Qed.
Lemma upd_blk_ne k v f j : j ≠ k → upd_blk k v f j = f j.
Proof. intros. unfold upd_blk. by rewrite decide_False. Qed.

(** The steps of the abstract state. *)
Definition a_hold (b : nat) (k : Z) (a : acache) : acache :=
  MkAcache (a_disk a) (a_view a) (a_pin a) (<[b := k]> (a_held a)) (a_writes a).
Definition a_set (k : Z) (v : list Z) (a : acache) : acache :=
  MkAcache (a_disk a) (upd_blk k v (a_view a)) (a_pin a) (a_held a) (a_writes a).
Definition a_dirty (k : Z) (a : acache) : acache :=
  MkAcache (a_disk a) (a_view a) (a_pin a ∪ {[k]}) (a_held a) (a_writes a).
Definition a_write (k : Z) (a : acache) : acache :=
  MkAcache (upd_blk k (a_view a k) (a_disk a)) (a_view a) (a_pin a ∖ {[k]}) (a_held a)
    (a_writes a ++ [(k, a_view a k)]).
Definition a_release (b : nat) (a : acache) : acache :=
  MkAcache (a_disk a) (a_view a) (a_pin a) (delete b (a_held a)) (a_writes a).

(** The blocks that occupy a buffer for now. *)
Definition a_busy (a : acache) : gset Z := a_pin a ∪ map_img (a_held a).

Class BufOps (St : Type) : Type := {
  c_bread : Z → Z → M St nat;
  c_bwrite : nat → M St unit;
  c_brelse : nat → M St unit;
  c_blockno : nat → M St Z;             (* b->blockno *)
  c_data : nat → M St (list Z);         (* b->data *)
  c_set_data : nat → list Z → M St unit;
  c_set_dirty : nat → M St unit         (* b->flags |= B_DIRTY *)
}.

Class BufLaws (St : Type) `{!BufOps St} (dev : Z) (rep : St → acache → Prop) : Prop := {
  l_bread s a k :
    rep s a → 0 ≤ k < FSSIZE → (∀ b, a_held a !! b ≠ Some k) →
    k ∈ a_pin a ∨ (size (a_busy a) < Z.to_nat NBUF)%nat →
    ∃ b s', c_bread dev k s = Ret (b, s') ∧ a_held a !! b = None ∧ rep s' (a_hold b k a);
  l_bwrite s a b k :
    rep s a → a_held a !! b = Some k → ∃ s', c_bwrite b s = Ret (tt, s') ∧ rep s' (a_write k a);
  l_brelse s a b k :
    rep s a → a_held a !! b = Some k → k ∈ a_pin a ∨ a_view a k = a_disk a k →
    ∃ s', c_brelse b s = Ret (tt, s') ∧ rep s' (a_release b a);
  l_blockno s a b k : rep s a → a_held a !! b = Some k → c_blockno b s = Ret (k, s);
  l_data s a b k : rep s a → a_held a !! b = Some k → c_data b s = Ret (a_view a k, s);
  l_set_data s a b k v :
    rep s a → a_held a !! b = Some k → length v = 512%nat →
    ∃ s', c_set_data b v s = Ret (tt, s') ∧ rep s' (a_set k v a);
  l_set_dirty s a b k :
    rep s a → a_held a !! b = Some k → ∃ s', c_set_dirty b s = Ret (tt, s') ∧ rep s' (a_dirty k a);
  l_length s a k : rep s a → length (a_view a k) = 512%nat;
  l_clean s a k : rep s a → k ∉ a_pin a → (∀ b, a_held a !! b ≠ Some k) → a_view a k = a_disk a k
}.

(** * Sequences of operations

    A client names the buffers it holds by their blocks. *)

Inductive cop : Type :=
| CRead (k : Z)
| CSet (k : Z) (v : list Z)
| CDirty (k : Z)
| CWrite (k : Z)
| CRelse (k : Z).

Record cspec : Type := MkCspec {
  sp_disk : Z → list Z;
  sp_view : Z → list Z;
  sp_pin : gset Z;
  sp_held : gset Z
}.

Definition legal (sp : cspec) (o : cop) : Prop :=
  match o with
  | CRead k => 0 ≤ k < FSSIZE ∧ (k ∉ sp_held sp) ∧
      (k ∈ sp_pin sp ∨ (size (sp_pin sp ∪ sp_held sp) < Z.to_nat NBUF)%nat)
  | CSet k v => k ∈ sp_held sp ∧ length v = 512%nat
  | CDirty k | CWrite k => k ∈ sp_held sp
  | CRelse k => k ∈ sp_held sp ∧ (k ∈ sp_pin sp ∨ sp_view sp k = sp_disk sp k)
  end.

Definition spec_cop (sp : cspec) (o : cop) : cspec :=
  match o with
  | CRead k => MkCspec (sp_disk sp) (sp_view sp) (sp_pin sp) ({[k]} ∪ sp_held sp)
  | CSet k v => MkCspec (sp_disk sp) (upd_blk k v (sp_view sp)) (sp_pin sp) (sp_held sp)
  | CDirty k => MkCspec (sp_disk sp) (sp_view sp) (sp_pin sp ∪ {[k]}) (sp_held sp)
  | CWrite k => MkCspec (upd_blk k (sp_view sp k) (sp_disk sp)) (sp_view sp) (sp_pin sp ∖ {[k]}) (sp_held sp)
  | CRelse k => MkCspec (sp_disk sp) (sp_view sp) (sp_pin sp) (sp_held sp ∖ {[k]})
  end.

(** What the client reads: the contents of the blocks it asks for. *)
Fixpoint spec_cops (sp : cspec) (l : list cop) : list (list Z) :=
  match l with
  | [] => []
  | o :: l' => (match o with CRead k => [sp_view sp k] | _ => [] end) ++ spec_cops (spec_cop sp o) l'
  end.

Fixpoint all_legal (sp : cspec) (l : list cop) : Prop :=
  match l with [] => True | o :: l' => legal sp o ∧ all_legal (spec_cop sp o) l' end.

Section clients.
Context {St : Type} `{!BufOps St} (dev : Z).

Definition handle (h : gmap Z nat) (k : Z) : M St nat := of_option (h !! k).

Fixpoint run_cops (h : gmap Z nat) (l : list cop) : M St (list (list Z)) :=
  match l with
  | [] => ret []
  | CRead k :: l' =>
      b <- c_bread dev k ;; d <- c_data b ;; r <- run_cops (<[k := b]> h) l' ;; ret (d :: r)
  | CSet k v :: l' => b <- handle h k ;; c_set_data b v ;;; run_cops h l'
  | CDirty k :: l' => b <- handle h k ;; c_set_dirty b ;;; run_cops h l'
  | CWrite k :: l' => b <- handle h k ;; c_bwrite b ;;; run_cops h l'
  | CRelse k :: l' => b <- handle h k ;; c_brelse b ;;; run_cops (delete k h) l'
  end.

Context (rep : St → acache → Prop) `{!BufLaws St dev rep}.

Record cview (h : gmap Z nat) (a : acache) (sp : cspec) : Prop := {
  cv_disk k : a_disk a k = sp_disk sp k;
  cv_view k : a_view a k = sp_view sp k;
  cv_pin : a_pin a = sp_pin sp;
  cv_held k : k ∈ sp_held sp ↔ ∃ b, h !! k = Some b;
  cv_handle k b : h !! k = Some b ↔ a_held a !! b = Some k
}.

Lemma cview_busy h a sp : cview h a sp → a_busy a = sp_pin sp ∪ sp_held sp.
Proof.
  intros [_ _ Hp Hh Hb]. unfold a_busy. rewrite Hp. apply set_eq. intros k. rewrite !elem_of_union, elem_of_map_img, Hh.
  split; (intros [?|(b & H)]; [by left|right; exists b; by apply Hb]).
Qed.

Lemma upd_blk_ext k v f g : (∀ j, f j = g j) → ∀ j, upd_blk k v f j = upd_blk k v g j.
Proof. intros H j. unfold upd_blk. by rewrite H. Qed.

Lemma cview_read h a sp b k :
  cview h a sp → k ∉ sp_held sp → a_held a !! b = None →
  cview (<[k := b]> h) (a_hold b k a) (spec_cop sp (CRead k)).
Proof.
  intros [H1 H2 H3 H4 H5] Hk Hb. split; simpl; try done.
  - intros j. rewrite elem_of_union, elem_of_singleton, H4. split.
    + intros [->|[b' Hj]]; [exists b; by rewrite lookup_insert_eq|].
      destruct (decide (j = k)) as [->|]; [exists b; by rewrite lookup_insert_eq|]. exists b'. by rewrite lookup_insert_ne.
    + intros [b' Hj]. destruct (decide (j = k)) as [->|]; [by left|]. rewrite lookup_insert_ne in Hj by done. right. eauto.
  - intros j b'. rewrite !lookup_insert_Some, H5. split.
    + intros [[<- <-]|[Hn Hj]]; [by left|]. right. split; [|done]. intros <-. congruence.
    + intros [[<- <-]|[Hn Hj]]; [by left|]. right. split; [|done]. intros <-.
      apply Hk, H4. exists b'. by apply H5.
Qed.

Lemma cview_relse h a sp b k :
  cview h a sp → h !! k = Some b → cview (delete k h) (a_release b a) (spec_cop sp (CRelse k)).
Proof.
  intros [H1 H2 H3 H4 H5] Hk. split; simpl; try done.
  - intros j. rewrite elem_of_difference, elem_of_singleton, H4. split.
    + intros [[b' Hj] Hn]. exists b'. by rewrite lookup_delete_ne.
    + intros [b' [Hn Hj]%lookup_delete_Some]. eauto.
  - intros j b'. rewrite !lookup_delete_Some, H5. apply H5 in Hk. split.
    + intros [Hn Hj]. split; [|done]. intros <-. congruence.
    + intros [Hn Hj]. split; [|done]. intros <-. apply Hn. apply H5 in Hk, Hj. congruence.
Qed.

Lemma cops_refine l : ∀ h a sp s,
  rep s a → cview h a sp → all_legal sp l →
  ∃ s' a', run_cops h l s = Ret (spec_cops sp l, s') ∧ rep s' a'
    ∧ (∀ k, a_disk a' k = sp_disk (foldl spec_cop sp l) k)
    ∧ ∀ k, a_view a' k = sp_view (foldl spec_cop sp l) k.
Proof.
  induction l as [|o l IH]; intros h a sp s Hr Hv Hl; [by exists s, a; destruct Hv|]. destruct Hl as [Hl Hls].
  pose proof Hv as [H1 H2 H3 H4 H5].
  assert (Hhd : ∀ k B (f : nat → M St B), k ∈ sp_held sp →
    ∃ b, h !! k = Some b ∧ a_held a !! b = Some k ∧ bind (handle h k) f s = f b s).
  { intros k B f [b Hb]%H4. exists b. split_and!; [done|by apply H5|]. unfold handle. by rewrite Hb. }
  destruct o as [k|k v|k|k|k]; cbn [run_cops spec_cops foldl]; cbn [legal] in Hl.
  - destruct Hl as (Hk & Hnh & Hroom).
    destruct (l_bread s a k Hr Hk) as (b & s1 & E & Hb & Hr1);
      [intros b Hb%H5; apply Hnh, H4; eauto|by rewrite (cview_busy h a sp), H3|].
    rewrite (bind_ret_eval _ _ _ _ _ E).
    rewrite (bind_ret_eval _ _ s1 _ s1 (l_data s1 _ b k Hr1 (lookup_insert_eq _ _ _))).
    destruct (IH _ _ _ _ Hr1 (cview_read _ _ _ _ _ Hv Hnh Hb) Hls) as (s2 & a2 & E2 & H).
    exists s2, a2. rewrite (bind_ret_eval _ _ _ _ _ E2). simpl. rewrite H2. done.
  - destruct Hl as [Hk Hlen]. edestruct Hhd as (b & Hb & Hh & ->); [exact Hk|].
    destruct (l_set_data s a b k v Hr Hh Hlen) as (s1 & E & Hr1). rewrite (bind_ret_eval _ _ _ _ _ E).
    apply (IH _ _ _ _ Hr1); [|done]. split; simpl; try done. by apply upd_blk_ext.
  - edestruct Hhd as (b & Hb & Hh & ->); [exact Hl|].
    destruct (l_set_dirty s a b k Hr Hh) as (s1 & E & Hr1). rewrite (bind_ret_eval _ _ _ _ _ E).
    apply (IH _ _ _ _ Hr1); [|done]. split; simpl; try done. by rewrite H3.
  - edestruct Hhd as (b & Hb & Hh & ->); [exact Hl|].
    destruct (l_bwrite s a b k Hr Hh) as (s1 & E & Hr1). rewrite (bind_ret_eval _ _ _ _ _ E).
    apply (IH _ _ _ _ Hr1); [|done]. split; simpl; try done; [|by rewrite H3]. rewrite H2. by apply upd_blk_ext.
  - destruct Hl as [Hk Hc]. edestruct Hhd as (b & Hb & Hh & ->); [exact Hk|].
    destruct (l_brelse s a b k Hr Hh) as (s1 & E & Hr1); [by rewrite H3, H2, H1|]. rewrite (bind_ret_eval _ _ _ _ _ E).
    apply (IH _ _ _ _ Hr1); [|done]. by apply cview_relse.
Qed.
End clients.
