(* ===== verification/Bio.v ===== *)
(** The buffer cache (bio.c).

    bcache.head is buffer 30.  bcache.lock makes the stretches between two
    sleeps atomic; [away] is what happens while the process sleeps.  The
    loops over the ring and the waiting loops take fuel. *)

From S2P Require Import Prelude Params Sleeplock Ide BufCache.

Definition head_buf : nat := 30.

(** Put [i] at the front of the ring: [b->next = bcache.head.next; b->prev =
    &bcache.head; bcache.head.next->prev = b; bcache.head.next = b;] *)
Definition link_front (i : nat) : M bst unit :=
  h <- getb head_buf ;;
  updb i (set_b_next (b_next h)) ;;;
  updb i (set_b_prev head_buf) ;;;
  h <- getb head_buf ;;
  updb (b_next h) (set_b_prev i) ;;;
  updb head_buf (set_b_next i).

(** [b->next->prev = b->prev; b->prev->next = b->next;] *)
Definition unlink (i : nat) : M bst unit :=
  b <- getb i ;;
  updb (b_next b) (set_b_prev (b_prev b)) ;;;
  b <- getb i ;;
  updb (b_prev b) (set_b_next (b_next b)).

Fixpoint binit_loop (n i : nat) : M bst unit :=
  match n with
  | O => ret tt
  | S n' =>
      updb i (set_b_lock initsleeplock) ;;;
      link_front i ;;;
      binit_loop n' (S i)
  end.

Definition binit : M bst unit :=
  updb head_buf (set_b_prev head_buf) ;;;
  updb head_buf (set_b_next head_buf) ;;;
  binit_loop (Z.to_nat NBUF) 0.

(** [for(b = ...; b != &bcache.head; b = step b) if(test b) ...] *)
Fixpoint ring_find (step : buf → nat) (test : buf → bool) (f i : nat) : M bst (option nat) :=
  if decide (i = head_buf) then ret None
  else
    b <- getb i ;;
    if test b then ret (Some i)
    else match f with O => out_of_fuel | S f' => ring_find step test f' (step b) end.

Section bio_code.
Context (status : nat → Z) (fuel : nat) (away : M bst unit).

Fixpoint acquiresleep_buf (f i : nat) : M bst unit :=
  b <- getb i ;;
  me <- gets curpid ;;
  match acquiresleep me (b_lock b) with
  | Some l => updb i (set_b_lock l)
  | None => match f with O => out_of_fuel | S f' => away ;;; acquiresleep_buf f' i end
  end.

Definition bget (dev blockno : Z) : M bst nat :=
  h <- getb head_buf ;;
  o <- ring_find b_next (λ b, (b_dev b =? dev) && (b_blockno b =? blockno)) (Z.to_nat NBUF) (b_next h) ;;
  match o with
  | Some i =>
      updb i (λ b, set_b_refcnt (u32 (b_refcnt b + 1)) b) ;;;
      acquiresleep_buf fuel i ;;; ret i
  | None =>
      o <- ring_find b_prev (λ b, (b_refcnt b =? 0) && negb (has (b_flags b) B_DIRTY)) (Z.to_nat NBUF) (b_prev h) ;;
      match o with
      | Some i =>
          updb i (set_b_dev dev) ;;;
          updb i (set_b_blockno blockno) ;;;
          updb i (set_b_flags 0) ;;;
          updb i (set_b_refcnt 1) ;;;
          acquiresleep_buf fuel i ;;; ret i
      | None => panic "bget: no buffers"
      end
  end.

Definition bread (dev blockno : Z) : M bst nat :=
  i <- bget dev blockno ;;
  b <- getb i ;;
  (if negb (has (b_flags b) B_VALID) then iderw status fuel away i else ret tt) ;;;
  ret i.

Definition bwrite (i : nat) : M bst unit :=
  b <- getb i ;;
  me <- gets curpid ;;
  if negb (holdingsleep me (b_lock b)) then panic "bwrite" else
  updb i (λ b, set_b_flags (Z.lor (b_flags b) B_DIRTY) b) ;;;
  iderw status fuel away i.

Definition brelse (i : nat) : M bst unit :=
  b <- getb i ;;
  me <- gets curpid ;;
  if negb (holdingsleep me (b_lock b)) then panic "brelse" else
  updb i (λ b, set_b_lock (releasesleep (b_lock b)) b) ;;;
  updb i (λ b, set_b_refcnt (u32 (b_refcnt b - 1)) b) ;;;
  b <- getb i ;;
  if b_refcnt b =? 0 then unlink i ;;; link_front i else ret tt.

End bio_code.

(** * Doubly linked rings

    [seg nx pv x l y]: following nx from [x] visits [l] and then [y], and pv
    leads back. *)

Fixpoint seg (nx pv : nat → nat) (x : nat) (l : list nat) (y : nat) : Prop :=
  match l with
  | [] => nx x = y ∧ pv y = x
  | a :: l' => nx x = a ∧ pv a = x ∧ seg nx pv a l' y
  end.

Definition fupd (i v : nat) (f : nat → nat) : nat → nat := λ j, if decide (j = i) then v else f j.

Lemma fupd_eq i v f : fupd i v f i = v.
Proof. unfold fupd. by rewrite decide_True. Qed.
Lemma fupd_ne i v f j : j ≠ i → fupd i v f j = f j.
Proof. intros. unfold fupd. by rewrite decide_False. Qed.

Lemma seg_app nx pv l1 : ∀ x b l2 y,
  seg nx pv x (l1 ++ b :: l2) y ↔ seg nx pv x l1 b ∧ seg nx pv b l2 y.
Proof. induction l1 as [|a l1 IH]; intros x b l2 y; simpl; [tauto|]. rewrite IH. tauto. Qed.

Lemma seg_nx nx pv i v l : ∀ x y, i ∉ x :: l → seg nx pv x l y → seg (fupd i v nx) pv x l y.
Proof.
  induction l as [|a l IH]; intros x y Hi; simpl.
  - intros [H1 H2]. rewrite fupd_ne by set_solver. done.
  - intros (H1 & H2 & H3). rewrite fupd_ne by set_solver. split_and!; [done|done|]. apply IH; [set_solver|done].
Qed.

Lemma seg_pv nx pv i v l : ∀ x y, i ∉ l ++ [y] → seg nx pv x l y → seg nx (fupd i v pv) x l y.
Proof.
  induction l as [|a l IH]; intros x y Hi; simpl in *.
  - intros [H1 H2]. rewrite fupd_ne by set_solver. done.
  - intros (H1 & H2 & H3). rewrite fupd_ne by set_solver. split_and!; [done|done|]. apply IH; [set_solver|done].
Qed.

Lemma seg_ends nx pv l : ∀ x y, seg nx pv x l y → nx x = default y (head l) ∧ pv y = default x (last l).
Proof.
  induction l as [|a l IH]; intros x y; simpl; [done|]. intros (H1 & H2 & H3). split; [done|].
  destruct (IH _ _ H3) as [_ H4]. rewrite H4. rewrite last_cons. by destruct (last l).
Qed.

(** Taking [b] out of the ring. *)
Lemma seg_unlink nx pv b l2 y l1 : ∀ x,
  NoDup (l1 ++ b :: l2) → x ∉ l1 ++ b :: l2 → y ∉ l1 ++ b :: l2 →
  seg nx pv x l1 b → seg nx pv b l2 y →
  seg (fupd (pv b) (nx b) nx) (fupd (nx b) (pv b) pv) x (l1 ++ l2) y.
Proof.
  induction l1 as [|a l1 IH]; intros x Hnd Hx Hy H1 H2.
  - destruct H1 as [_ ->]. destruct l2 as [|c l2].
    + destruct H2 as [-> _]. simpl. by rewrite !fupd_eq.
    + destruct H2 as (-> & _ & H2). simpl. rewrite !fupd_eq. split_and!; [done|done|].
      apply seg_nx; [set_solver|]. apply seg_pv; [|done].
      apply NoDup_cons in Hnd as [_ Hnd]. apply NoDup_cons in Hnd as [Hc _]. set_solver.
  - destruct H1 as (Ha & Hb & H1). simpl in Hnd. apply NoDup_cons in Hnd as [Hal Hnd].
    destruct (seg_ends _ _ _ _ _ H1) as [_ Hpb]. destruct (seg_ends _ _ _ _ _ H2) as [Hnb _].
    simpl. rewrite !fupd_ne.
    + split_and!; [done|done|]. apply IH; [done|done|clear -Hy; set_solver|done|done].
    + rewrite Hnb. clear -Hy Hal. destruct l2 as [|c l2]; simpl; set_solver.
    + rewrite Hpb. clear -Hx. destruct (last l1) as [c|] eqn:E; simpl; [|set_solver].
      apply last_Some_elem_of in E. set_solver.
Qed.

(** Putting [b] in front. *)
Lemma seg_push nx pv h b l :
  b ∉ h :: l → NoDup l → h ∉ l → seg nx pv h l h →
  seg (fupd h b (fupd b (nx h) nx)) (fupd (nx h) b (fupd b h pv)) h (b :: l) h.
Proof.
  intros Hb Hnd Hh H. destruct (seg_ends _ _ _ _ _ H) as [Hn _]. rewrite Hn.
  simpl. rewrite fupd_eq. split; [done|]. destruct l as [|c l]; simpl in *.
  - rewrite (fupd_eq h). rewrite !(fupd_ne h _ _ b) by set_solver. by rewrite !fupd_eq.
  - destruct H as (_ & Hc & H). apply NoDup_cons in Hnd as [Hcl Hnd].
    rewrite (fupd_eq c). rewrite (fupd_ne c _ _ b), (fupd_ne h _ _ b) by set_solver. rewrite !fupd_eq.
    split_and!; [done..|]. apply seg_nx; [set_solver|]. apply seg_nx; [set_solver|].
    apply seg_pv; [set_solver|]. apply seg_pv; [set_solver|]. done.
Qed.

Lemma seg_ext nx pv nx' pv' l : ∀ x y,
  (∀ i, nx' i = nx i) → (∀ i, pv' i = pv i) → seg nx pv x l y → seg nx' pv' x l y.
Proof.
  induction l as [|a l IH]; intros x y Hn Hp; simpl; rewrite Hn, Hp; [done|].
  intros (H1 & H2 & H3). auto.
Qed.

Definition nx (bs : list buf) (i : nat) : nat := match bs !! i with Some b => b_next b | None => 0%nat end.
Definition pv (bs : list buf) (i : nat) : nat := match bs !! i with Some b => b_prev b | None => 0%nat end.

(** A buffer without its ring pointers. *)
Definition body (b : buf) : buf := set_b_prev 0 (set_b_next 0 b).

Definition ringed (bs : list buf) (l : list nat) : Prop :=
  length bs = 31%nat ∧ l ≡ₚ seq 0 30 ∧ seg (nx bs) (pv bs) head_buf l head_buf.

Lemma nx_insert bs i b b' j :
  bs !! i = Some b → nx (<[i := b']> bs) j = fupd i (b_next b') (nx bs) j.
Proof.
  intros H. unfold nx, fupd. case_decide as E; [subst|by rewrite list_lookup_insert_ne].
  by rewrite list_lookup_insert_eq by by eapply lookup_lt_Some.
Qed.

Lemma pv_insert bs i b b' j :
  bs !! i = Some b → pv (<[i := b']> bs) j = fupd i (b_prev b') (pv bs) j.
Proof.
  intros H. unfold pv, fupd. case_decide as E; [subst|by rewrite list_lookup_insert_ne].
  by rewrite list_lookup_insert_eq by by eapply lookup_lt_Some.
Qed.

Lemma fupd_id i f j : fupd i (f i) f j = f j.
Proof. unfold fupd. by case_decide; subst. Qed.

Lemma fupd_ext i v f g j : (∀ k, f k = g k) → fupd i v f j = fupd i v g j.
Proof. intros H. unfold fupd. by rewrite H. Qed.

Lemma body_insert (bs : list buf) i b b' :
  bs !! i = Some b → body b' = body b → body <$> <[i := b']> bs = body <$> bs.
Proof. intros H E. rewrite list_fmap_insert, E. apply list_insert_id. by rewrite list_lookup_fmap, H. Qed.

(** The two pointer assignments, on the ring. *)
Lemma upd_next_run s i v :
  (i < length (bufs s))%nat →
  ∃ bs, updb i (set_b_next v) s = Ret (tt, set_bufs bs s) ∧ body <$> bs = body <$> bufs s
    ∧ (∀ j, nx bs j = fupd i v (nx (bufs s)) j) ∧ (∀ j, pv bs j = pv (bufs s) j).
Proof.
  intros Hi. destruct (lookup_lt_is_Some_2 _ _ Hi) as [b Hb]. exists (<[i := set_b_next v b]> (bufs s)).
  split_and!; [by apply updb_run|by eapply body_insert|intros j; by eapply nx_insert|].
  intros j. rewrite (pv_insert _ _ b) by done. simpl.
  replace (b_prev b) with (pv (bufs s) i) by (unfold pv; by rewrite Hb). apply fupd_id.
Qed.

Lemma upd_prev_run s i v :
  (i < length (bufs s))%nat →
  ∃ bs, updb i (set_b_prev v) s = Ret (tt, set_bufs bs s) ∧ body <$> bs = body <$> bufs s
    ∧ (∀ j, pv bs j = fupd i v (pv (bufs s)) j) ∧ (∀ j, nx bs j = nx (bufs s) j).
Proof.
  intros Hi. destruct (lookup_lt_is_Some_2 _ _ Hi) as [b Hb]. exists (<[i := set_b_prev v b]> (bufs s)).
  split_and!; [by apply updb_run|by eapply body_insert|intros j; by eapply pv_insert|].
  intros j. rewrite (nx_insert _ _ b) by done. simpl.
  replace (b_next b) with (nx (bufs s) i) by (unfold nx; by rewrite Hb). apply fupd_id.
Qed.

Lemma body_length (bs bs' : list buf) : body <$> bs' = body <$> bs → length bs' = length bs.
Proof. intros H. apply (f_equal length) in H. by rewrite !length_fmap in H. Qed.

Lemma getb_nx s i : (i < length (bufs s))%nat → ∃ b, getb i s = Ret (b, s) ∧ b_next b = nx (bufs s) i ∧ b_prev b = pv (bufs s) i.
Proof.
  intros Hi. destruct (lookup_lt_is_Some_2 _ _ Hi) as [b Hb]. exists b.
  unfold nx, pv. rewrite Hb. split; [|done]. by apply getb_run.
Qed.

Lemma link_front_run s i l :
  length (bufs s) = 31%nat → NoDup l → Forall (λ k, (k < 30)%nat) l → (i < 30)%nat → i ∉ l →
  seg (nx (bufs s)) (pv (bufs s)) head_buf l head_buf →
  ∃ bs, link_front i s = Ret (tt, set_bufs bs s) ∧ body <$> bs = body <$> bufs s
    ∧ seg (nx bs) (pv bs) head_buf (i :: l) head_buf.
Proof.
  intros Hlen Hnd Hr Hi Hil Hs. unfold link_front.
  assert (Hh : head_buf ∉ l) by (rewrite Forall_forall in Hr; intros ?%Hr; unfold head_buf in *; lia).
  destruct (getb_nx s head_buf) as (h & Eh & Hnx & _); [rewrite Hlen; unfold head_buf; lia|].
  rewrite (bind_ret_eval _ _ _ _ _ Eh), Hnx.
  destruct (upd_next_run s i (nx (bufs s) head_buf)) as (bs1 & E1 & B1 & N1 & P1); [lia|].
  rewrite (bind_ret_eval _ _ _ _ _ E1). set (s1 := set_bufs bs1 s).
  destruct (upd_prev_run s1 i head_buf) as (bs2 & E2 & B2 & P2 & N2); [simpl; rewrite (body_length _ _ B1); lia|].
  rewrite (bind_ret_eval _ _ _ _ _ E2). set (s2 := set_bufs bs2 s1). simpl in B2, P2, N2.
  assert (L2 : length bs2 = 31%nat) by (rewrite (body_length _ _ B2), (body_length _ _ B1); done).
  destruct (getb_nx s2 head_buf) as (h2 & Eh2 & Hnx2 & _); [simpl; rewrite L2; unfold head_buf; lia|].
  rewrite (bind_ret_eval _ _ _ _ _ Eh2), Hnx2. change (bufs s2) with bs2.
  assert (Hhi : head_buf ≠ i) by (unfold head_buf; lia).
  assert (Enx : nx bs2 head_buf = nx (bufs s) head_buf) by (by rewrite N2, N1, fupd_ne).
  rewrite Enx. assert (Hlt : (nx (bufs s) head_buf < 31)%nat).
  { destruct (seg_ends _ _ _ _ _ Hs) as [-> _]. destruct l as [|c l]; simpl; [unfold head_buf; lia|].
    apply Forall_cons in Hr as [? _]. lia. }
  destruct (upd_prev_run s2 (nx (bufs s) head_buf) i) as (bs3 & E3 & B3 & P3 & N3); [simpl; lia|].
  rewrite (bind_ret_eval _ _ _ _ _ E3). set (s3 := set_bufs bs3 s2). simpl in B3, P3, N3.
  destruct (upd_next_run s3 head_buf i) as (bs4 & E4 & B4 & N4 & P4);
    [simpl; rewrite (body_length _ _ B3), L2; unfold head_buf; lia|].
  simpl in B4, N4, P4. exists bs4. split_and!; [exact E4|congruence|].
  eapply seg_ext; [| |apply (seg_push (nx (bufs s)) (pv (bufs s)) head_buf i l); [set_solver|done..]].
  - intros j. rewrite N4. apply fupd_ext. intros k. by rewrite N3, N2, N1.
  - intros j. rewrite P4, P3. apply fupd_ext. intros k. rewrite P2. apply fupd_ext. intros k'. by rewrite P1.
Qed.

Lemma unlink_run s i l1 l2 :
  length (bufs s) = 31%nat → NoDup (l1 ++ i :: l2) → Forall (λ k, (k < 30)%nat) (l1 ++ i :: l2) →
  seg (nx (bufs s)) (pv (bufs s)) head_buf (l1 ++ i :: l2) head_buf →
  ∃ bs, unlink i s = Ret (tt, set_bufs bs s) ∧ body <$> bs = body <$> bufs s
    ∧ seg (nx bs) (pv bs) head_buf (l1 ++ l2) head_buf.
Proof.
  intros Hlen Hnd Hr Hs. unfold unlink.
  assert (Hh : head_buf ∉ l1 ++ i :: l2) by (rewrite Forall_forall in Hr; intros ?%Hr; unfold head_buf in *; lia).
  apply seg_app in Hs as [S1 S2]. destruct (seg_ends _ _ _ _ _ S2) as [En _]. destruct (seg_ends _ _ _ _ _ S1) as [_ Ep].
  apply Forall_app in Hr as [R1 [Ri R2]%Forall_cons].
  assert (Hn : (nx (bufs s) i < 31)%nat ∧ nx (bufs s) i ≠ i).
  { rewrite En. destruct l2 as [|c l2]; simpl; [unfold head_buf; lia|]. apply Forall_cons in R2 as [? _].
    apply NoDup_app in Hnd as (_ & _ & [Hi _]%NoDup_cons). split; [lia|]. clear -Hi. set_solver. }
  assert (Hp : (pv (bufs s) i < 31)%nat).
  { rewrite Ep. destruct (last l1) as [c|] eqn:E; simpl; [|unfold head_buf; lia]. apply last_Some_elem_of in E.
    rewrite Forall_forall in R1. apply R1 in E. lia. }
  destruct (getb_nx s i) as (b & Eb & Hnx & Hpv); [lia|]. rewrite (bind_ret_eval _ _ _ _ _ Eb), Hnx, Hpv.
  destruct (upd_prev_run s (nx (bufs s) i) (pv (bufs s) i)) as (bs1 & E1 & B1 & P1 & N1); [lia|].
  rewrite (bind_ret_eval _ _ _ _ _ E1). set (s1 := set_bufs bs1 s).
  assert (L1 : length bs1 = 31%nat) by (by rewrite (body_length _ _ B1)).
  destruct (getb_nx s1 i) as (b1 & Eb1 & Hnx1 & Hpv1); [simpl; lia|]. rewrite (bind_ret_eval _ _ _ _ _ Eb1), Hnx1, Hpv1.
  change (bufs s1) with bs1. rewrite N1, P1, fupd_ne by (destruct Hn; done).
  destruct (upd_next_run s1 (pv (bufs s) i) (nx (bufs s) i)) as (bs2 & E2 & B2 & N2 & P2); [simpl; lia|].
  simpl in B2, N2, P2. exists bs2. split_and!; [exact E2|congruence|].
  eapply seg_ext; [| |by apply (seg_unlink (nx (bufs s)) (pv (bufs s)) i l2 head_buf l1)].
  - intros j. rewrite N2. apply fupd_ext. done.
  - intros j. by rewrite P2, P1.
Qed.

(** brelse's move to the front. *)
Lemma to_front_run s i l :
  ringed (bufs s) l → (i < 30)%nat →
  ∃ bs l', (unlink i ;;; link_front i) s = Ret (tt, set_bufs bs s) ∧ body <$> bs = body <$> bufs s
    ∧ ringed bs (i :: l') ∧ l ≡ₚ i :: l'.
Proof.
  intros (Hlen & Hl & Hs) Hi.
  assert (Hil : i ∈ l) by (rewrite Hl; apply elem_of_seq; lia).
  apply list_elem_of_split in Hil as (l1 & l2 & ->).
  assert (Hnd : NoDup (l1 ++ i :: l2)) by (rewrite Hl; apply NoDup_seq).
  assert (Hr : Forall (λ k, (k < 30)%nat) (l1 ++ i :: l2)) by (rewrite Hl; apply Forall_forall; intros k ?%elem_of_seq; lia).
  destruct (unlink_run s i l1 l2 Hlen Hnd Hr Hs) as (bs1 & E1 & B1 & S1).
  assert (Hp : l1 ++ i :: l2 ≡ₚ i :: l1 ++ l2) by (by rewrite Permutation_middle).
  rewrite Hp in Hnd, Hr. apply NoDup_cons in Hnd as [Hn Hnd]. apply Forall_cons in Hr as [_ Hr].
  destruct (link_front_run (set_bufs bs1 s) i (l1 ++ l2)) as (bs2 & E2 & B2 & S2); try done.
  { simpl. by rewrite (body_length _ _ B1). }
  exists bs2, (l1 ++ l2). simpl in B2. split_and!; [|congruence| |done].
  - by rewrite (bind_ret_eval _ _ _ _ _ E1).
  - split_and!; [by rewrite (body_length _ _ B2), (body_length _ _ B1)|by rewrite <- Hp|done].
Qed.

(** Scanning the ring in either direction. *)
Definition steps (step : buf → nat) (bs : list buf) (i : nat) : nat :=
  match bs !! i with Some b => step b | None => 0%nat end.

Lemma ring_find_run step test back s l : ∀ f x,
  seg (steps step (bufs s)) back x l head_buf → Forall (λ k, (k < 30)%nat) l → length (bufs s) = 31%nat → (length l ≤ f)%nat →
  ∃ o, ring_find step test f (steps step (bufs s) x) s = Ret (o, s)
    ∧ match o with
      | Some i => i ∈ l ∧ ∃ b, bufs s !! i = Some b ∧ test b = true
      | None => ∀ i b, i ∈ l → bufs s !! i = Some b → test b = false
      end.
Proof.
  induction l as [|a l IH]; intros f x Hs Hr Hlen Hf.
  - destruct Hs as [-> _]. exists None. split; [destruct f; cbn [ring_find]; by rewrite decide_True|].
    by intros i b ?%elem_of_nil.
  - destruct Hs as (-> & _ & Hs). apply Forall_cons in Hr as [Ha Hr]. destruct f as [|f]; [simpl in Hf; lia|].
    destruct (lookup_lt_is_Some_2 (bufs s) a) as [b Hb]; [lia|].
    cbn [ring_find]. rewrite decide_False by (unfold head_buf; lia).
    rewrite (bind_ret_eval _ _ _ _ _ (getb_run s a b Hb)). destruct (test b) eqn:Et.
    + exists (Some a). split_and!; [done|apply elem_of_cons; by left|eauto].
    + replace (step b) with (steps step (bufs s) a) by (unfold steps; by rewrite Hb).
      destruct (IH f a) as (o & E & Ho); [done..|simpl in Hf; lia|]. exists o. split; [done|].
      destruct o as [i|]; [destruct Ho as [Hi Ho]; split; [apply elem_of_cons; by right|done]|].
      intros i b' [->|Hi]%elem_of_cons Hb'; [congruence|eauto].
Qed.

Lemma seg_rev nx pv l : ∀ x y, seg nx pv x l y ↔ seg pv nx y (reverse l) x.
Proof.
  induction l as [|a l IH]; intros x y; simpl; [tauto|].
  rewrite reverse_cons, seg_app. rewrite IH. simpl. tauto.
Qed.

(** * The cache against its abstract state *)

Definition VALID_DIRTY : Z := Z.lor B_VALID B_DIRTY.

(** One buffer: [a] says whether the process holds it and whether its block
    is pinned. *)
Record buf_ok (pid : Z) (a : acache) (i : nat) (b : buf) : Prop := {
  bo_qnext : b_qnext b = None;
  bo_dev : b_dev b = 0 ∨ b_dev b = ROOTDEV;
  bo_fresh : b_dev b = 0 → b_flags b = 0;
  bo_range : b_dev b = ROOTDEV → 0 ≤ b_blockno b < FSSIZE;
  bo_free : a_held a !! i = None → b_refcnt b = 0 ∧ sl_locked (b_lock b) = 0;
  bo_held k : a_held a !! i = Some k →
    b_dev b = ROOTDEV ∧ b_blockno b = k ∧ b_refcnt b = 1 ∧ holdingsleep pid (b_lock b) = true ∧ b_flags b ≠ 0;
  bo_flags : b_flags b = 0 ∨ (b_flags b = B_VALID ∧ b_blockno b ∉ a_pin a)
             ∨ (b_flags b = VALID_DIRTY ∧ b_blockno b ∈ a_pin a);
  bo_data : b_flags b ≠ 0 → b_data b = a_view a (b_blockno b)
}.

Definition caches (s : bst) (i : nat) (b : buf) (k : Z) : Prop :=
  (i < 30)%nat ∧ bufs s !! i = Some b ∧ b_dev b = ROOTDEV ∧ b_blockno b = k.

Record bio_inv (s : bst) (a : acache) (l : list nat) : Prop := {
  bi_ring : ringed (bufs s) l;
  bi_ide : ide_inv s [] (disks s);
  bi_disk1 : havedisk1 s ≠ 0;
  bi_disk k : disks s ROOTDEV k = a_disk a k;
  bi_wlog : wlog s = (λ w, (ROOTDEV, w.1, w.2)) <$> a_writes a;
  bi_buf i b : (i < 30)%nat → bufs s !! i = Some b → buf_ok (curpid s) a i b;
  bi_uniq i b j b' k : caches s i b k → caches s j b' k → i = j;
  bi_pin k : k ∈ a_pin a → ∃ i b, caches s i b k ∧ b_flags b = VALID_DIRTY;
  bi_clean k : k ∉ a_pin a → (∀ i, a_held a !! i ≠ Some k) → a_view a k = a_disk a k;
  bi_held i k : a_held a !! i = Some k → (i < 30)%nat;
  bi_view k : length (a_view a k) = 512%nat
}.

Definition bio_rep (s : bst) (a : acache) : Prop := ∃ l, bio_inv s a l.

(** Replacing one buffer. *)
Lemma ringed_insert bs i b b' l :
  bs !! i = Some b → b_next b' = b_next b → b_prev b' = b_prev b → ringed bs l → ringed (<[i := b']> bs) l.
Proof.
  intros Hb Hn Hp (H1 & H2 & H3). split_and!; [by rewrite length_insert|done|].
  eapply seg_ext; [| |done]; intros j.
  - rewrite (nx_insert _ _ b) by done. rewrite Hn.
    replace (b_next b) with (nx bs i) by (unfold nx; by rewrite Hb). apply fupd_id.
  - rewrite (pv_insert _ _ b) by done. rewrite Hp.
    replace (b_prev b) with (pv bs i) by (unfold pv; by rewrite Hb). apply fupd_id.
Qed.

Lemma caches_insert s s' i b b' j c k :
  bufs s !! i = Some b → bufs s' = <[i := b']> (bufs s) → caches s' j c k →
  (j = i ∧ c = b') ∨ (j ≠ i ∧ caches s j c k).
Proof.
  intros Hb E (H1 & H2 & H3). rewrite E in H2. destruct (decide (j = i)) as [->|Hij]; [left|right].
  - rewrite list_lookup_insert_eq in H2 by by eapply lookup_lt_Some. by injection H2.
  - rewrite list_lookup_insert_ne in H2 by done. by split_and!.
Qed.

(** The buffer [i] becomes [b'] and the abstract state [a'].  The other
    buffers are not concerned. *)
Lemma bio_update s a l s' a' i b b' :
  bio_inv s a l → (i < 30)%nat → bufs s !! i = Some b →
  bufs s' = <[i := b']> (bufs s) → b_next b' = b_next b → b_prev b' = b_prev b →
  ide_inv s' [] (disks s') → havedisk1 s' ≠ 0 → (∀ k, disks s' ROOTDEV k = a_disk a' k) →
  wlog s' = (λ w, (ROOTDEV, w.1, w.2)) <$> a_writes a' → curpid s' = curpid s →
  buf_ok (curpid s) a' i b' →
  (∀ j c, (j < 30)%nat → j ≠ i → bufs s !! j = Some c → buf_ok (curpid s) a j c → buf_ok (curpid s) a' j c) →
  (∀ j c, j ≠ i → caches s j c (b_blockno b') → b_dev b' ≠ ROOTDEV) →
  (∀ k, k ∈ a_pin a' → (b_dev b' = ROOTDEV ∧ b_blockno b' = k ∧ b_flags b' = VALID_DIRTY)
     ∨ (k ∈ a_pin a ∧ (b_dev b = ROOTDEV → b_flags b = VALID_DIRTY → b_blockno b ≠ k))) →
  (∀ k, k ∉ a_pin a' → (∀ j, a_held a' !! j ≠ Some k) → a_view a' k = a_disk a' k) →
  (∀ j k, a_held a' !! j = Some k → (j < 30)%nat) →
  (∀ k, length (a_view a' k) = 512%nat) →
  bio_inv s' a' l.
Proof.
  intros [I1 I2 I3 I4 I5 I6 I7 I8 I9 I10 I11] Hi Hb E Hn Hp J1 J2 J3 J4 Ecp Hok Hother Huniq Hpin Hclean Hheld Hview.
  assert (Hlt : (i < length (bufs s))%nat) by (by eapply lookup_lt_Some).
  split; try done.
  - rewrite E. by eapply ringed_insert.
  - intros j c Hj Hc. rewrite E in Hc. rewrite Ecp. destruct (decide (j = i)) as [->|Hij].
    + rewrite list_lookup_insert_eq in Hc by done. by injection Hc as <-.
    + rewrite list_lookup_insert_ne in Hc by done. by auto.
  - intros j c j' c' k H1 H2.
    pose proof (caches_insert _ _ _ _ _ _ _ _ Hb E H1) as [[-> ->]|[Hj H1']];
      pose proof (caches_insert _ _ _ _ _ _ _ _ Hb E H2) as [[-> ->]|[Hj' H2']]; [done| | |by eapply I7].
    + destruct H1 as (_ & _ & Hd & <-). by destruct (Huniq j' c' Hj' H2').
    + destruct H2 as (_ & _ & Hd & <-). by destruct (Huniq j c Hj H1').
  - intros k Hk. destruct (Hpin k Hk) as [(H1 & H2 & H3)|(H1 & H2)].
    + exists i, b'. split; [|done]. split_and!; [done| |done|done]. rewrite E. by apply list_lookup_insert_eq.
    + destruct (I8 k H1) as (j & c & (G1 & G2 & G3 & G4) & G5). destruct (decide (j = i)) as [->|Hij].
      * rewrite Hb in G2. injection G2 as <-. by destruct (H2 G3 G5).
      * exists j, c. split; [|done]. split_and!; [done| |done|done]. by rewrite E, list_lookup_insert_ne.
Qed.

(** Several assignments to the fields of one buffer. *)
Lemma updb_twice {B} s i b f g (k : unit → M bst B) :
  bufs s !! i = Some b →
  (updb i f ;;; updb i g ;;; k tt) s = (updb i (λ b, g (f b)) ;;; k tt) s.
Proof.
  intros Hb. rewrite (bind_ret_eval _ _ _ _ _ (updb_run s i b f Hb)).
  rewrite (bind_ret_eval _ _ _ _ _ (updb_run s i b (λ b, g (f b)) Hb)).
  set (s1 := set_bufs (<[i := f b]> (bufs s)) s).
  assert (H1 : bufs s1 !! i = Some (f b)) by (apply list_lookup_insert_eq; by eapply lookup_lt_Some).
  rewrite (bind_ret_eval _ _ _ _ _ (updb_run s1 i (f b) g H1)). simpl. by rewrite list_insert_insert_eq.
Qed.

Section bio_proofs.
Context (status : nat → Z) (fuel : nat) `{!Ready status fuel} (Hfuel : (1 ≤ fuel)%nat).

(** A buffer nobody holds is locked at once. *)
Lemma acquire_free s i b f :
  bufs s !! i = Some b → sl_locked (b_lock b) = 0 →
  acquiresleep_buf (ideintr status fuel) f i s
  = Ret (tt, set_bufs (<[i := set_b_lock (MkSleeplock 1 (curpid s)) b]> (bufs s)) s).
Proof.
  intros Hb Hl. destruct f; cbn [acquiresleep_buf]; rewrite (bind_ret_eval _ _ _ _ _ (getb_run s i b Hb));
    (rewrite (bind_ret_eval _ _ s (curpid s) s) by done); unfold acquiresleep; rewrite Hl; by apply updb_run.
Qed.

(** What bget hands out: buffer [i], which was [b] and is now [b']. *)
Record claimed (s : bst) (a : acache) (k : Z) (i : nat) (b b' : buf) : Prop := {
  cl_i : (i < 30)%nat;
  cl_b : bufs s !! i = Some b;
  cl_free : a_held a !! i = None;
  cl_next : b_next b' = b_next b;
  cl_prev : b_prev b' = b_prev b;
  cl_qnext : b_qnext b' = None;
  cl_dev : b_dev b' = ROOTDEV;
  cl_blockno : b_blockno b' = k;
  cl_refcnt : b_refcnt b' = 1;
  cl_lock : b_lock b' = MkSleeplock 1 (curpid s);
  cl_alone j c : j ≠ i → ¬ caches s j c k;
  cl_flags : (b_flags b' = b_flags b ∧ b_data b' = b_data b ∧ b_dev b = ROOTDEV ∧ b_blockno b = k)
             ∨ (b_flags b' = 0 ∧ b_flags b ≠ VALID_DIRTY ∧ ¬ caches s i b k)
}.

Lemma ring_scan s l (test : buf → bool) (fwd : bool) :
  ringed (bufs s) l →
  ∃ o, ring_find (if fwd then b_next else b_prev) test (Z.to_nat NBUF)
         ((if fwd then nx else pv) (bufs s) head_buf) s = Ret (o, s)
    ∧ match o with
      | Some i => (i < 30)%nat ∧ ∃ b, bufs s !! i = Some b ∧ test b = true
      | None => ∀ i b, (i < 30)%nat → bufs s !! i = Some b → test b = false
      end.
Proof.
  intros (Hlen & Hl & Hs).
  assert (Hr : ∀ k, k ∈ l ↔ (k < 30)%nat) by (intros k; rewrite Hl, elem_of_seq; lia).
  assert (Hll : length l = 30%nat) by (by rewrite Hl).
  destruct fwd.
  - destruct (ring_find_run b_next test (pv (bufs s)) s l (Z.to_nat NBUF) head_buf) as (o & E & Ho);
      [done|apply Forall_forall; intros k; apply Hr|done|by rewrite Hll|].
    exists o. split; [exact E|]. destruct o as [i|]; [by rewrite <- Hr|]. intros i b Hi. by apply Ho, Hr.
  - destruct (ring_find_run b_prev test (nx (bufs s)) s (reverse l) (Z.to_nat NBUF) head_buf) as (o & E & Ho);
      [exact (proj1 (seg_rev _ _ _ _ _) Hs)|apply Forall_forall; intros k; rewrite elem_of_reverse; apply Hr|done|by rewrite length_reverse, Hll|].
    exists o. split; [exact E|]. destruct o as [i|]; [by rewrite elem_of_reverse, Hr in Ho|].
    intros i b Hi. apply Ho. by rewrite elem_of_reverse, Hr.
Qed.

Lemma bget_hit s a l k i b :
  bio_inv s a l → (∀ j, a_held a !! j ≠ Some k) → caches s i b k →
  let b' := set_b_lock (MkSleeplock 1 (curpid s)) (set_b_refcnt 1 b) in
  (updb i (λ b, set_b_refcnt (u32 (b_refcnt b + 1)) b) ;;; acquiresleep_buf (ideintr status fuel) fuel i ;;; ret i) s
    = Ret (i, set_bufs (<[i := b']> (bufs s)) s)
  ∧ claimed s a k i b b'.
Proof.
  intros Hinv Hk (Hi & Hb & Hd & Hn) b'. destruct (bi_buf _ _ _ Hinv i b Hi Hb) as [Q1 Q2 Q3 Q4 Q5 Q6 Q7 Q8].
  assert (Hfree : a_held a !! i = None).
  { destruct (a_held a !! i) as [k'|] eqn:E; [|done]. destruct (Q6 k' eq_refl) as (_ & E' & _). destruct (Hk i). congruence. }
  destruct (Q5 Hfree) as [Hr Hl]. assert (Hlt : (i < length (bufs s))%nat) by (by eapply lookup_lt_Some).
  split.
  - rewrite (bind_ret_eval _ _ _ _ _ (updb_run s i b _ Hb)). rewrite Hr.
    set (s1 := set_bufs _ s).
    assert (H1 : bufs s1 !! i = Some (set_b_refcnt 1 b)) by (by apply list_lookup_insert_eq).
    rewrite (bind_ret_eval _ _ _ _ _ (acquire_free s1 i _ fuel H1 Hl)). unfold ret. simpl.
    by rewrite list_insert_insert_eq.
  - split; try done; [|by left]. intros j c Hj Hc. apply Hj. eapply (bi_uniq _ _ _ Hinv); [done|by split_and!].
Qed.

Lemma bget_miss s a l k i b :
  bio_inv s a l → (i < 30)%nat → bufs s !! i = Some b → b_refcnt b = 0 → has (b_flags b) B_DIRTY = false →
  (∀ j c, ¬ caches s j c k) →
  let b' := set_b_lock (MkSleeplock 1 (curpid s))
              (set_b_refcnt 1 (set_b_flags 0 (set_b_blockno k (set_b_dev ROOTDEV b)))) in
  (updb i (set_b_dev ROOTDEV) ;;; updb i (set_b_blockno k) ;;; updb i (set_b_flags 0) ;;;
   updb i (set_b_refcnt 1) ;;; acquiresleep_buf (ideintr status fuel) fuel i ;;; ret i) s
    = Ret (i, set_bufs (<[i := b']> (bufs s)) s)
  ∧ claimed s a k i b b'.
Proof.
  intros Hinv Hi Hb Hr Hf Hno b'. destruct (bi_buf _ _ _ Hinv i b Hi Hb) as [Q1 Q2 Q3 Q4 Q5 Q6 Q7 Q8].
  assert (Hfree : a_held a !! i = None).
  { destruct (a_held a !! i) as [k'|] eqn:E; [|done]. destruct (Q6 k' eq_refl) as (_ & _ & E' & _). lia. }
  destruct (Q5 Hfree) as [_ Hl]. assert (Hlt : (i < length (bufs s))%nat) by (by eapply lookup_lt_Some).
  split.
  - rewrite (updb_twice s i b (set_b_dev ROOTDEV) (set_b_blockno k) (λ _, _)) by done.
    rewrite (updb_twice s i b _ (set_b_flags 0) (λ _, _)) by done.
    rewrite (updb_twice s i b _ (set_b_refcnt 1) (λ _, _)) by done.
    rewrite (bind_ret_eval _ _ _ _ _ (updb_run s i b _ Hb)). set (s1 := set_bufs _ s).
    assert (H1 : bufs s1 !! i = Some (set_b_refcnt 1 (set_b_flags 0 (set_b_blockno k (set_b_dev ROOTDEV b)))))
      by (by apply list_lookup_insert_eq).
    rewrite (bind_ret_eval _ _ _ _ _ (acquire_free s1 i _ fuel H1 Hl)). unfold ret. simpl.
    by rewrite list_insert_insert_eq.
  - split; try done. right. split_and!; [done| |apply Hno].
    intros E. rewrite E in Hf. discriminate Hf.
Qed.

Definition available (b : buf) : bool := (b_refcnt b =? 0) && negb (has (b_flags b) B_DIRTY).

(** A buffer that cannot be recycled caches a block in use. *)
Lemma unavailable_busy s a l i b :
  bio_inv s a l → (i < 30)%nat → bufs s !! i = Some b → available b = false →
  caches s i b (b_blockno b) ∧ b_blockno b ∈ a_busy a.
Proof.
  intros Hinv Hi Hb Hav. destruct (bi_buf _ _ _ Hinv i b Hi Hb) as [Q1 Q2 Q3 Q4 Q5 Q6 Q7 Q8].
  unfold caches, a_busy. destruct (a_held a !! i) as [k|] eqn:Eh.
  - destruct (Q6 k eq_refl) as (Hd & Hk & _). split; [by split_and!|].
    rewrite Hk. apply elem_of_union_r, elem_of_map_img. eauto.
  - destruct (Q5 eq_refl) as [Hr _]. unfold available in Hav. rewrite Hr in Hav. simpl in Hav.
    destruct Q7 as [Q7|[[Q7 _]|[Q7 Hp]]]; rewrite Q7 in Hav; try discriminate Hav.
    destruct Q2 as [Q2|Q2]; [rewrite (Q3 Q2) in Q7; discriminate Q7|].
    split; [by split_and!|]. by apply elem_of_union_l.
Qed.

(** Some buffer is free as long as fewer than NBUF blocks are in use. *)
Lemma some_buffer_free s a l :
  bio_inv s a l → (size (a_busy a) < 30)%nat →
  ∃ i b, (i < 30)%nat ∧ bufs s !! i = Some b ∧ available b = true.
Proof.
  intros Hinv Hsz. destruct (bi_ring _ _ _ Hinv) as (Hlen & _).
  set (blk := λ i, match bufs s !! i with Some b => b_blockno b | None => 0 end).
  destruct (decide (Exists (λ i, available <$> (bufs s !! i) = Some true) (seq 0 30))) as [Hex|Hno].
  { apply Exists_exists in Hex as (i & Hi%elem_of_seq & Ha).
    destruct (bufs s !! i) as [b|] eqn:Eb; [|discriminate Ha]. injection Ha as Ha. exists i, b. split_and!; [lia|done|done]. }
  exfalso. rewrite <- Forall_Exists_neg, Forall_forall in Hno.
  assert (Hbl : ∀ i, (i < 30)%nat → ∃ b, caches s i b (blk i) ∧ blk i ∈ a_busy a).
  { intros i Hi. destruct (lookup_lt_is_Some_2 (bufs s) i) as [b Hb]; [lia|]. exists b. unfold blk. rewrite Hb.
    eapply unavailable_busy; [done..|]. destruct (available b) eqn:Ea; [|done].
    destruct (Hno i); [apply elem_of_seq; lia|]. rewrite Hb. simpl. by rewrite Ea. }
  assert (Hnd : NoDup (blk <$> seq 0 30)).
  { apply NoDup_fmap_2_strong; [|apply NoDup_seq]. intros i j Hi%elem_of_seq Hj%elem_of_seq Hij.
    destruct (Hbl i) as (b & Hc & _); [lia|]. destruct (Hbl j) as (b' & Hc' & _); [lia|].
    rewrite <- Hij in Hc'. by eapply (bi_uniq _ _ _ Hinv). }
  assert (Hsub : list_to_set (blk <$> seq 0 30) ⊆ a_busy a).
  { intros k. rewrite elem_of_list_to_set. intros (i & -> & Hi%elem_of_seq)%list_elem_of_fmap.
    destruct (Hbl i) as (b & _ & Hin); [lia|done]. }
  apply subseteq_size in Hsub. rewrite size_list_to_set in Hsub by done. rewrite length_fmap, length_seq in Hsub. lia.
Qed.

Lemma bget_run s a l k :
  bio_inv s a l → (∀ j, a_held a !! j ≠ Some k) → k ∈ a_pin a ∨ (size (a_busy a) < 30)%nat →
  ∃ i b b', bget fuel (ideintr status fuel) ROOTDEV k s = Ret (i, set_bufs (<[i := b']> (bufs s)) s)
    ∧ claimed s a k i b b'.
Proof.
  intros Hinv Hk Hroom. pose proof (bi_ring _ _ _ Hinv) as Hring. pose proof Hring as (Hlen & _ & Hseg).
  unfold bget. destruct (getb_nx s head_buf) as (h & Eh & Hnx & Hpv); [rewrite Hlen; unfold head_buf; lia|].
  rewrite (bind_ret_eval _ _ _ _ _ Eh), Hnx, Hpv.
  destruct (ring_scan s l (λ b, (b_dev b =? ROOTDEV) && (b_blockno b =? k)) true Hring) as (o & E & Ho).
  rewrite (bind_ret_eval _ _ _ _ _ E). destruct o as [i|].
  - destruct Ho as (Hi & b & Hb & [Hd Hn]%andb_true_iff). apply Z.eqb_eq in Hd, Hn.
    destruct (bget_hit s a l k i b) as [H1 H2]; [done..|]. eauto.
  - assert (Hno : ∀ j c, ¬ caches s j c k).
    { intros j c (Hj & Hc & Hd & Hn). specialize (Ho j c Hj Hc). rewrite Hd, Hn, !Z.eqb_refl in Ho. discriminate Ho. }
    destruct Hroom as [Hp|Hsz]; [destruct (bi_pin _ _ _ Hinv k Hp) as (i & b & Hc & _); by destruct (Hno i b)|].
    destruct (ring_scan s l available false Hring) as (o & E' & Ho').
    rewrite (bind_ret_eval _ _ _ _ _ E'). destruct o as [i|].
    + destruct Ho' as (Hi & b & Hb & [Hr Hf]%andb_true_iff). apply Z.eqb_eq in Hr. apply negb_true_iff in Hf.
      destruct (bget_miss s a l k i b) as [H1 H2]; [done..|]. eauto.
    + destruct (some_buffer_free s a l Hinv Hsz) as (i & b & Hi & Hb & Ha). rewrite (Ho' i b Hi Hb) in Ha. discriminate Ha.
Qed.

Lemma buf_ok_other pid a a' j c :
  buf_ok pid a j c → a_held a' !! j = a_held a !! j →
  (b_flags c ≠ 0 → (b_blockno c ∈ a_pin a' ↔ b_blockno c ∈ a_pin a) ∧ a_view a' (b_blockno c) = a_view a (b_blockno c)) →
  buf_ok pid a' j c.
Proof.
  intros [Q1 Q2 Q3 Q4 Q5 Q6 Q7 Q8] Hh Hc. split; rewrite ?Hh; try done.
  - destruct (decide (b_flags c = 0)) as [E|E]; [by left|]. destruct (Hc E) as [Hp _]. rewrite Hp. done.
  - intros E. destruct (Hc E) as [_ ->]. auto.
Qed.

(** A buffer that caches something else than block [k] is not touched by a
    change of block [k]. *)
Lemma buf_ok_apart s a l a' k i j c :
  bio_inv s a l → (j < 30)%nat → j ≠ i → bufs s !! j = Some c → (∀ c', ¬ caches s j c' k) →
  a_held a' !! j = a_held a !! j →
  (∀ n, n ≠ k → (n ∈ a_pin a' ↔ n ∈ a_pin a) ∧ a_view a' n = a_view a n) →
  buf_ok (curpid s) a j c → buf_ok (curpid s) a' j c.
Proof.
  intros Hinv Hj Hij Hc Hk Hh Hn Hok. eapply buf_ok_other; [done..|]. intros Hf. apply Hn. intros E.
  apply (Hk c). split_and!; try done. destruct (bo_dev _ _ _ _ Hok) as [Hd|Hd]; [|done].
  by rewrite (bo_fresh _ _ _ _ Hok Hd) in Hf.
Qed.

(** Two ways to change the state of the disk driver: not at all, or by a
    completed request for one buffer. *)
Lemma ide_inv_bufs s bs m : ide_inv s [] m → ide_inv (set_bufs bs s) [] m.
Proof. by intros [A B C D E]. Qed.

(** The claimed buffer has been made valid. *)
Lemma bread_done s a l k i b b' s' b'' :
  bio_inv s a l → 0 ≤ k < FSSIZE → claimed s a k i b b' →
  bufs s' = <[i := b'']> (bufs s) → ide_inv s' [] (disks s') → disks s' = disks s → wlog s' = wlog s →
  ide_frame s s' → b'' = set_b_flags (b_flags b'') (set_b_data (a_view a k) b') →
  (b_flags b'' = B_VALID ∧ k ∉ a_pin a ∨ b_flags b'' = VALID_DIRTY ∧ k ∈ a_pin a) →
  bio_inv s' (a_hold i k a) l.
Proof.
  intros Hinv Hrange [C1 C2 C3 C4 C5 C6 C7 C8 C9 C10 C11 C12] F1 F2 F3 F4 [F5 F6] F7 F8.
  assert (G : b_qnext b'' = None ∧ b_dev b'' = ROOTDEV ∧ b_blockno b'' = k ∧ b_refcnt b'' = 1
    ∧ b_lock b'' = b_lock b' ∧ b_data b'' = a_view a k ∧ b_next b'' = b_next b ∧ b_prev b'' = b_prev b) by (by rewrite F7).
  destruct G as (G1 & G2 & G3 & G4 & G5 & G6 & G7 & G8).
  eapply bio_update; [exact Hinv|exact C1|exact C2|exact F1|done|done|exact F2|..].
  - rewrite F5. apply (bi_disk1 _ _ _ Hinv).
  - intros n. rewrite F3. apply (bi_disk _ _ _ Hinv).
  - rewrite F4. apply (bi_wlog _ _ _ Hinv).
  - done.
  - split; simpl; rewrite ?G3; try done; [by right|by rewrite G2|by rewrite lookup_insert_eq| |by right].
    intros k'. rewrite lookup_insert_eq. intros [= <-]. split_and!; try done.
    + rewrite G5, C10. unfold holdingsleep. simpl. by rewrite Z.eqb_refl.
    + by destruct F8 as [[-> _]|[-> _]].
  - intros j c Hj Hij Hc Hok. eapply buf_ok_apart; [exact Hinv|done|exact Hij|done|intros c'; by apply C11| |done|done].
    simpl. by rewrite lookup_insert_ne.
  - intros j c Hij. rewrite G3. by intros ?%(C11 j c Hij).
  - simpl. intros n Hn. destruct (decide (n = k)) as [->|Hnk].
    + destruct F8 as [[_ ?]|[-> _]]; [done|]. by left.
    + right. split; [done|]. intros Hd Hf. destruct C12 as [(_ & _ & _ & C12)|(_ & C12 & _)]; congruence.
  - simpl. intros n Hn Hj. apply (bi_clean _ _ _ Hinv); [done|]. intros j Ej.
    destruct (decide (j = i)) as [->|Hij]; [congruence|]. apply (Hj j). by rewrite lookup_insert_ne.
  - simpl. intros j n. destruct (decide (j = i)) as [->|Hij]; [done|]. rewrite lookup_insert_ne by done. apply (bi_held _ _ _ Hinv).
  - apply (bi_view _ _ _ Hinv).
Qed.

Lemma bread_run s a l k :
  bio_inv s a l → 0 ≤ k < FSSIZE → (∀ j, a_held a !! j ≠ Some k) →
  k ∈ a_pin a ∨ (size (a_busy a) < 30)%nat →
  ∃ i s', bread status fuel (ideintr status fuel) ROOTDEV k s = Ret (i, s') ∧ a_held a !! i = None
    ∧ bio_inv s' (a_hold i k a) l.
Proof.
  intros Hinv Hrange Hk Hroom. destruct (bget_run s a l k Hinv Hk Hroom) as (i & b & b' & E & Hcl).
  pose proof Hcl as [C1 C2 C3 C4 C5 C6 C7 C8 C9 C10 C11 C12]. unfold bread. rewrite (bind_ret_eval _ _ _ _ _ E).
  set (s1 := set_bufs _ s). assert (Hlt : (i < length (bufs s))%nat) by (by eapply lookup_lt_Some).
  assert (H1 : bufs s1 !! i = Some b') by (by apply list_lookup_insert_eq).
  rewrite (bind_ret_eval _ _ _ _ _ (getb_run s1 i b' H1)). exists i.
  pose proof (bi_buf _ _ _ Hinv i b C1 C2) as Hokb.
  assert (Hide : ide_inv s1 [] (disks s)) by (apply ide_inv_bufs, (bi_ide _ _ _ Hinv)).
  destruct (decide (b_flags b' = 0)) as [Hz|Hnz].
  - assert (Hnp : k ∉ a_pin a).
    { intros Hp. destruct (bi_pin _ _ _ Hinv k Hp) as (j & c & Hc & Hf). destruct (decide (j = i)) as [->|Hij]; [|by destruct (C11 j c)].
      pose proof Hc as (_ & Hc2 & _). rewrite C2 in Hc2. injection Hc2 as <-.
      destruct C12 as [[C12 _]|(_ & C12 & _)]; [|done]. rewrite C12, Hf in Hz. discriminate Hz. }
    destruct (iderw_run status fuel s1 i b' (disks s)) as (s2 & E2 & B2 & I2 & F2 & W2); try done.
    + simpl. rewrite length_insert. by destruct (bi_ring _ _ _ Hinv).
    + split; [by left|by rewrite C8].
    + rewrite C10. unfold holdingsleep. simpl. by rewrite Z.eqb_refl.
    + apply (bi_disk1 _ _ _ Hinv).
    + exists s2. rewrite Hz. change (negb (has 0 B_VALID)) with true. cbv iota.
      rewrite (bind_ret_eval _ _ _ _ _ E2). split_and!; [done|done|].
      unfold serve, write_of, drive_of in *. rewrite Hz in *. change (has 0 B_DIRTY) with false in *. cbv iota in *.
      rewrite C7, C8 in B2. change (Z.land ROOTDEV 1) with ROOTDEV in B2. simpl in I2, B2.
      rewrite list_insert_insert_eq, (bi_disk _ _ _ Hinv), <- (bi_clean _ _ _ Hinv) in B2 by done.
      rewrite app_nil_r in W2. pose proof (ii_idle _ _ _ I2 eq_refl) as D2.
      eapply bread_done; [exact Hinv|done|exact Hcl|exact B2|by rewrite D2|done|done|done|done|by left].
  - destruct C12 as [(C12 & C13 & C14 & C15)|[C12 _]]; [|done].
    assert (Hv : b_flags b' = B_VALID ∧ k ∉ a_pin a ∨ b_flags b' = VALID_DIRTY ∧ k ∈ a_pin a).
    { rewrite C12, <- C15. destruct (bo_flags _ _ _ _ Hokb) as [?|[?|?]]; [congruence|by left|by right]. }
    exists s1. assert (Hhv : has (b_flags b') B_VALID = true) by (by destruct Hv as [[-> _]|[-> _]]).
    rewrite Hhv. cbn [negb]. split_and!; [done|done|].
    eapply (bread_done s a l k i b b' s1 b'); [done|done|done|done|done|done|done|done| |done].
    rewrite <- C15, <- (bo_data _ _ _ _ Hokb) by congruence. rewrite <- C13. by destruct b'.
Qed.

Lemma held_buf s a l i k :
  bio_inv s a l → a_held a !! i = Some k →
  ∃ b, caches s i b k ∧ buf_ok (curpid s) a i b ∧ ∀ j c, j ≠ i → ¬ caches s j c k.
Proof.
  intros Hinv Hh. pose proof (bi_held _ _ _ Hinv i k Hh) as Hi. destruct (bi_ring _ _ _ Hinv) as (Hlen & _).
  destruct (lookup_lt_is_Some_2 (bufs s) i) as [b Hb]; [lia|]. exists b.
  pose proof (bi_buf _ _ _ Hinv i b Hi Hb) as Hok. destruct (bo_held _ _ _ _ Hok k Hh) as (Hd & Hn & _).
  assert (Hc : caches s i b k) by by split_and!. split_and!; [done..|].
  intros j c Hj Hc'. apply Hj. by eapply (bi_uniq _ _ _ Hinv).
Qed.

(** The owner of buffer [i] changes block [k]. *)
Lemma held_update s a l i k b s' a' b' :
  bio_inv s a l → a_held a !! i = Some k → bufs s !! i = Some b →
  bufs s' = <[i := b']> (bufs s) → b' = set_b_flags (b_flags b') (set_b_data (a_view a' k) b) →
  ide_inv s' [] (disks s') → (∀ n, disks s' ROOTDEV n = a_disk a' n) →
  wlog s' = (λ w, (ROOTDEV, w.1, w.2)) <$> a_writes a' → ide_frame s s' →
  a_held a' = a_held a →
  (∀ n, n ≠ k → (n ∈ a_pin a' ↔ n ∈ a_pin a) ∧ a_view a' n = a_view a n ∧ a_disk a' n = a_disk a n) →
  length (a_view a' k) = 512%nat →
  (b_flags b' = B_VALID ∧ k ∉ a_pin a' ∨ b_flags b' = VALID_DIRTY ∧ k ∈ a_pin a') →
  bio_inv s' a' l.
Proof.
  intros Hinv Hh Hb E Eb Hide Hd Hw [F1 F2] Eh Hn Hlen Hf.
  destruct (held_buf s a l i k Hinv Hh) as (b0 & Hc & Hok & Hal). pose proof Hc as (Hi & Hb0 & Hdev & Hblk).
  rewrite Hb in Hb0. injection Hb0 as <-.
  assert (G : b_qnext b' = b_qnext b ∧ b_dev b' = ROOTDEV ∧ b_blockno b' = k ∧ b_refcnt b' = b_refcnt b
    ∧ b_lock b' = b_lock b ∧ b_data b' = a_view a' k ∧ b_next b' = b_next b ∧ b_prev b' = b_prev b) by (by rewrite Eb).
  destruct G as (G1 & G2 & G3 & G4 & G5 & G6 & G7 & G8). destruct Hok as [Q1 Q2 Q3 Q4 Q5 Q6 Q7 Q8].
  eapply bio_update; [exact Hinv|exact Hi|exact Hb|exact E|done|done|exact Hide|..].
  - rewrite F1. apply (bi_disk1 _ _ _ Hinv).
  - done.
  - done.
  - done.
  - split; rewrite ?G1, ?G2, ?G3, ?G4, ?G5, ?G6, ?Eh; try done; [by right|rewrite <- Hblk; auto| |by right].
    intros k' Hk'. destruct (Q6 k' Hk') as (_ & R2 & R3 & R4 & _). split_and!; try done; [congruence|].
    by destruct Hf as [[-> _]|[-> _]].
  - intros j c Hj Hij Hcj Hokj. eapply buf_ok_apart; [exact Hinv|done|exact Hij|done|intros c'; by apply Hal|by rewrite Eh| |done].
    intros n Hnk. destruct (Hn n Hnk) as (? & ? & _). done.
  - intros j c Hij. rewrite G3. by intros ?%(Hal j c Hij).
  - intros n Hnp. destruct (decide (n = k)) as [->|Hnk].
    + destruct Hf as [[_ ?]|[-> _]]; [done|]. by left.
    + right. split; [by apply (Hn n Hnk)|]. congruence.
  - intros n Hnp Hj. rewrite Eh in Hj. destruct (decide (n = k)) as [->|Hnk]; [by destruct (Hj i)|].
    destruct (Hn n Hnk) as (Hp & -> & ->). apply (bi_clean _ _ _ Hinv); [by rewrite <- Hp|done].
  - intros j n. rewrite Eh. apply (bi_held _ _ _ Hinv).
  - intros n. destruct (decide (n = k)) as [->|Hnk]; [done|]. destruct (Hn n Hnk) as (_ & -> & _). apply (bi_view _ _ _ Hinv).
Qed.

Definition get_data (i : nat) : M bst (list Z) := b <- getb i ;; ret (b_data b).
Definition get_blockno (i : nat) : M bst Z := b <- getb i ;; ret (b_blockno b).
Definition put_data (i : nat) (v : list Z) : M bst unit := updb i (set_b_data v).
Definition put_dirty (i : nat) : M bst unit := updb i (λ b, set_b_flags (Z.lor (b_flags b) B_DIRTY) b).

Lemma put_data_run s a l i k v :
  bio_inv s a l → a_held a !! i = Some k → length v = 512%nat →
  ∃ s', put_data i v s = Ret (tt, s') ∧ bio_inv s' (a_set k v a) l.
Proof.
  intros Hinv Hh Hv. destruct (held_buf s a l i k Hinv Hh) as (b & (Hi & Hb & Hdev & Hblk) & Hok & Hal).
  eexists. split; [by apply updb_run|].
  eapply (held_update s a l i k b _ _ (set_b_data v b)); simpl; try done.
  - rewrite upd_blk_eq. by destruct b.
  - apply ide_inv_bufs, (bi_ide _ _ _ Hinv).
  - apply (bi_disk _ _ _ Hinv).
  - apply (bi_wlog _ _ _ Hinv).
  - intros n Hn. by rewrite upd_blk_ne.
  - by rewrite upd_blk_eq.
  - destruct (bo_held _ _ _ _ Hok k Hh) as (_ & _ & _ & _ & Hnz). rewrite <- Hblk.
    destruct (bo_flags _ _ _ _ Hok) as [?|[?|?]]; [done|by left|by right].
Qed.

Lemma put_dirty_run s a l i k :
  bio_inv s a l → a_held a !! i = Some k →
  ∃ s', put_dirty i s = Ret (tt, s') ∧ bio_inv s' (a_dirty k a) l.
Proof.
  intros Hinv Hh. destruct (held_buf s a l i k Hinv Hh) as (b & (Hi & Hb & Hdev & Hblk) & Hok & Hal).
  destruct (bo_held _ _ _ _ Hok k Hh) as (_ & _ & _ & _ & Hnz).
  eexists. split; [by apply updb_run|].
  eapply (held_update s a l i k b _ _ (set_b_flags (Z.lor (b_flags b) B_DIRTY) b)); simpl; try done.
  - rewrite <- Hblk, <- (bo_data _ _ _ _ Hok) by done. by destruct b.
  - apply ide_inv_bufs, (bi_ide _ _ _ Hinv).
  - apply (bi_disk _ _ _ Hinv).
  - apply (bi_wlog _ _ _ Hinv).
  - intros n Hn. split_and!; [set_solver|done|done].
  - apply (bi_view _ _ _ Hinv).
  - right. split; [|set_solver]. destruct (bo_flags _ _ _ _ Hok) as [?|[[-> _]|[-> _]]]; done.
Qed.

Lemma bwrite_run s a l i k :
  bio_inv s a l → a_held a !! i = Some k →
  ∃ s', bwrite status fuel (ideintr status fuel) i s = Ret (tt, s') ∧ bio_inv s' (a_write k a) l.
Proof.
  intros Hinv Hh. destruct (held_buf s a l i k Hinv Hh) as (b & (Hi & Hb & Hdev & Hblk) & Hok & Hal).
  destruct (bo_held _ _ _ _ Hok k Hh) as (_ & _ & _ & Hl & Hnz).
  assert (Hlt : (i < length (bufs s))%nat) by (by eapply lookup_lt_Some).
  unfold bwrite. rewrite (bind_ret_eval _ _ _ _ _ (getb_run s i b Hb)).
  rewrite (bind_ret_eval _ _ s (curpid s) s) by done. rewrite Hl. cbn [negb].
  rewrite (bind_ret_eval _ _ _ _ _ (updb_run s i b _ Hb)).
  assert (Ef : Z.lor (b_flags b) B_DIRTY = VALID_DIRTY)
    by (destruct (bo_flags _ _ _ _ Hok) as [?|[[-> _]|[-> _]]]; done).
  rewrite Ef. set (b1 := set_b_flags VALID_DIRTY b). set (s1 := set_bufs _ s).
  assert (H1 : bufs s1 !! i = Some b1) by (by apply list_lookup_insert_eq).
  pose proof (bo_data _ _ _ _ Hok Hnz) as Hda. rewrite Hblk in Hda.
  assert (Es : serve b1 (disks s) = (a_view a k, disk_upd ROOTDEV k (a_view a k) (disks s))).
  { unfold serve, drive_of. simpl. by rewrite Hda, Hdev, Hblk. }
  assert (Ew : write_of b1 = [(ROOTDEV, k, a_view a k)]).
  { unfold write_of, drive_of. simpl. by rewrite Hda, Hdev, Hblk. }
  destruct (iderw_run status fuel s1 i b1 (disks s)) as (s2 & E2 & B2 & I2 & F2 & W2); try done.
  - apply ide_inv_bufs, (bi_ide _ _ _ Hinv).
  - simpl. rewrite length_insert. by destruct (bi_ring _ _ _ Hinv).
  - split; [auto|]. apply (bo_range _ _ _ _ Hok Hdev).
  - apply (bo_qnext _ _ _ _ Hok).
  - apply (bi_disk1 _ _ _ Hinv).
  - exists s2. split; [done|]. pose proof (ii_idle _ _ _ I2 eq_refl) as D2.
    rewrite Es in B2, I2, D2. rewrite Ew in W2. simpl in B2, I2, D2, W2. rewrite list_insert_insert_eq in B2.
    eapply (held_update s a l i k b s2 _ (set_b_flags B_VALID (set_b_data (a_view a k) b1))); try done.
    + by rewrite D2.
    + intros n. rewrite D2. unfold disk_upd. simpl. destruct (Z.eqb_spec n k) as [->|Hn]; simpl.
      * by rewrite upd_blk_eq.
      * rewrite upd_blk_ne by done. apply (bi_disk _ _ _ Hinv).
    + rewrite W2, (bi_wlog _ _ _ Hinv). simpl. by rewrite fmap_app.
    + intros n Hn. simpl. rewrite upd_blk_ne by done. split_and!; [set_solver|done|done].
    + apply (bi_view _ _ _ Hinv).
    + left. split; [done|]. simpl. set_solver.
Qed.

Lemma buf_ok_body pid a i b b' : body b' = body b → buf_ok pid a i b → buf_ok pid a i b'.
Proof.
  intros E [Q1 Q2 Q3 Q4 Q5 Q6 Q7 Q8]. destruct b, b'. unfold body in E. simpl in *. simplify_eq.
  split; simpl; done.
Qed.

Lemma body_lookup (bs bs' : list buf) i b' :
  body <$> bs' = body <$> bs → bs' !! i = Some b' → ∃ b, bs !! i = Some b ∧ body b' = body b.
Proof.
  intros H Hb. assert (E : (body <$> bs') !! i = (body <$> bs) !! i) by (by rewrite H).
  rewrite !list_lookup_fmap, Hb in E. destruct (bs !! i) as [b|]; [|discriminate E].
  exists b. split; [done|]. apply (inj Some). exact E.
Qed.

Lemma caches_body s bs i b' k :
  body <$> bs = body <$> bufs s → caches (set_bufs bs s) i b' k → ∃ b, caches s i b k ∧ body b' = body b.
Proof.
  intros H (H1 & H2 & H3 & H4). destruct (body_lookup _ _ _ _ H H2) as (b & Hb & E). exists b. split; [|done].
  destruct b, b'. unfold body in E. simpl in *. simplify_eq. by split_and!.
Qed.

(** Changing the order of the ring. *)
Lemma bio_rering s a l bs l' :
  bio_inv s a l → body <$> bs = body <$> bufs s → ringed bs l' → bio_inv (set_bufs bs s) a l'.
Proof.
  intros [I1 I2 I3 I4 I5 I6 I7 I8 I9 I10 I11] Hbody Hr. split; try done.
  - by apply ide_inv_bufs.
  - intros i b' Hi Hb. simpl in Hb. destruct (body_lookup _ _ _ _ Hbody Hb) as (b & Hb0 & E).
    eapply buf_ok_body; [exact E|]. by apply I6.
  - intros i b j b' k H1 H2. apply (caches_body s bs) in H1 as (c & H1 & _); [|done].
    apply (caches_body s bs) in H2 as (c' & H2 & _); [|done]. by eapply I7.
  - intros k Hk. destruct (I8 k Hk) as (i & b & (G1 & G2 & G3 & G4) & Hf).
    destruct (body_lookup (bs) (bufs s) i b) as (b' & Hb' & E); [done..|].
    exists i, b'. destruct b, b'. unfold body in E. simpl in *. simplify_eq. by split_and!.
Qed.

Lemma brelse_run s a l i k :
  bio_inv s a l → a_held a !! i = Some k → k ∈ a_pin a ∨ a_view a k = a_disk a k →
  ∃ s' l', brelse i s = Ret (tt, s') ∧ bio_inv s' (a_release i a) l'.
Proof.
  intros Hinv Hh Hclean. destruct (held_buf s a l i k Hinv Hh) as (b & (Hi & Hb & Hdev & Hblk) & Hok & Hal).
  destruct (bo_held _ _ _ _ Hok k Hh) as (_ & _ & Hr & Hl & Hnz).
  assert (Hlt : (i < length (bufs s))%nat) by (by eapply lookup_lt_Some).
  unfold brelse. rewrite (bind_ret_eval _ _ _ _ _ (getb_run s i b Hb)).
  rewrite (bind_ret_eval _ _ s (curpid s) s) by done. rewrite Hl. cbn [negb].
  rewrite (updb_twice s i b _ _ (λ _, _)) by done. rewrite (bind_ret_eval _ _ _ _ _ (updb_run s i b _ Hb)).
  cbn [b_refcnt set_b_lock b_lock]. rewrite Hr. change (u32 (1 - 1)) with 0.
  set (b1 := set_b_refcnt 0 (set_b_lock (releasesleep (b_lock b)) b)). set (s1 := set_bufs _ s).
  assert (H1 : bufs s1 !! i = Some b1) by (by apply list_lookup_insert_eq).
  rewrite (bind_ret_eval _ _ _ _ _ (getb_run s1 i b1 H1)). change (b_refcnt b1 =? 0) with true. cbv iota.
  assert (Hinv1 : bio_inv s1 (a_release i a) l).
  { destruct Hok as [Q1 Q2 Q3 Q4 Q5 Q6 Q7 Q8]. eapply bio_update; [exact Hinv|exact Hi|exact Hb|done|done|done|..]; try done.
    - apply ide_inv_bufs, (bi_ide _ _ _ Hinv).
    - apply (bi_disk1 _ _ _ Hinv).
    - apply (bi_disk _ _ _ Hinv).
    - apply (bi_wlog _ _ _ Hinv).
    - split; simpl; try done. intros k'. by rewrite lookup_delete_eq.
    - intros j c Hj Hij Hcj Hokj. eapply buf_ok_other; [done|simpl; by rewrite lookup_delete_ne|done].
    - intros j c Hij. simpl. rewrite Hblk. by intros ?%(Hal j c Hij).
    - simpl. intros n Hn. destruct (decide (n = k)) as [->|Hnk]; [left|right; split; congruence].
      split_and!; try done. destruct Q7 as [?|[[_ Hnp]|[? _]]]; [done|congruence|done].
    - simpl. intros n Hn Hj. destruct (decide (n = k)) as [->|Hnk]; [by destruct Hclean|].
      apply (bi_clean _ _ _ Hinv); [done|]. intros j Hj'. destruct (decide (j = i)) as [->|Hij]; [congruence|].
      apply (Hj j). by rewrite lookup_delete_ne.
    - simpl. intros j n [_ Hj]%lookup_delete_Some. by apply (bi_held _ _ _ Hinv j n).
    - apply (bi_view _ _ _ Hinv). }
  destruct (to_front_run s1 i l (bi_ring _ _ _ Hinv1) Hi) as (bs & l' & E & Hbody & Hring & _).
  exists (set_bufs bs s1), (i :: l'). split; [exact E|]. by eapply bio_rering.
Qed.

#[export] Instance bio_ops : BufOps bst := {|
  c_bread := bread status fuel (ideintr status fuel);
  c_bwrite := bwrite status fuel (ideintr status fuel);
  c_brelse := brelse;
  c_blockno := get_blockno;
  c_data := get_data;
  c_set_data := put_data;
  c_set_dirty := put_dirty
|}.

#[export] Instance bio_laws : BufLaws bst ROOTDEV bio_rep.
Proof.
  split.
  - intros s a k [l Hinv] Hk Hh Hroom. destruct (bread_run s a l k Hinv Hk Hh Hroom) as (i & s' & E & Hi & Hinv').
    exists i, s'. split_and!; [done|done|by exists l].
  - intros s a i k [l Hinv] Hh. destruct (bwrite_run s a l i k Hinv Hh) as (s' & E & H). exists s'. split; [done|by exists l].
  - intros s a i k [l Hinv] Hh Hc. destruct (brelse_run s a l i k Hinv Hh Hc) as (s' & l' & E & H). exists s'. split; [done|by exists l'].
  - intros s a i k [l Hinv] Hh. destruct (held_buf s a l i k Hinv Hh) as (b & (_ & Hb & _ & <-) & _).
    unfold c_blockno. simpl. unfold get_blockno. by rewrite (bind_ret_eval _ _ _ _ _ (getb_run s i b Hb)).
  - intros s a i k [l Hinv] Hh. destruct (held_buf s a l i k Hinv Hh) as (b & (_ & Hb & _ & <-) & Hok & _).
    unfold c_data. simpl. unfold get_data. rewrite (bind_ret_eval _ _ _ _ _ (getb_run s i b Hb)).
    destruct (bo_held _ _ _ _ Hok _ Hh) as (_ & _ & _ & _ & Hnz). by rewrite (bo_data _ _ _ _ Hok Hnz).
  - intros s a i k v [l Hinv] Hh Hv. destruct (put_data_run s a l i k v Hinv Hh Hv) as (s' & E & H). exists s'. split; [done|by exists l].
  - intros s a i k [l Hinv] Hh. destruct (put_dirty_run s a l i k Hinv Hh) as (s' & E & H). exists s'. split; [done|by exists l].
  - intros s a k [l Hinv]. apply (bi_view _ _ _ Hinv).
  - intros s a k [l Hinv]. apply (bi_clean _ _ _ Hinv).
Qed.
End bio_proofs.

(** * Initialisation *)

(** A buffer in zeroed memory, apart from the ring pointers. *)
Definition zero_like (b : buf) : Prop :=
  b_flags b = 0 ∧ b_dev b = 0 ∧ b_refcnt b = 0 ∧ b_qnext b = None ∧ sl_locked (b_lock b) = 0.

Lemma binit_loop_run n : ∀ i l s,
  length (bufs s) = 31%nat → (i + n = 30)%nat → l ≡ₚ seq 0 i → Forall zero_like (bufs s) →
  seg (nx (bufs s)) (pv (bufs s)) head_buf l head_buf →
  ∃ bs l', binit_loop n i s = Ret (tt, set_bufs bs s) ∧ ringed bs l' ∧ Forall zero_like bs.
Proof.
  induction n as [|n IH]; intros i l s Hlen Hi Hl Hz Hs; cbn [binit_loop].
  - exists (bufs s), l. split_and!; [by destruct s| |done]. split_and!; [done| |done].
    rewrite Hl. by replace i with 30%nat by lia.
  - destruct (lookup_lt_is_Some_2 (bufs s) i) as [b Hb]; [lia|].
    rewrite (bind_ret_eval _ _ _ _ _ (updb_run s i b _ Hb)). set (b1 := set_b_lock initsleeplock b). set (s1 := set_bufs _ s).
    assert (Hz1 : Forall zero_like (bufs s1)).
    { apply Forall_insert; [done|]. rewrite Forall_lookup in Hz. destruct (Hz i b Hb) as (?&?&?&?&?). by split_and!. }
    destruct (link_front_run s1 i l) as (bs & E & Hbody & Hseg).
    + simpl. by rewrite length_insert.
    + rewrite Hl. apply NoDup_seq.
    + rewrite Hl. apply Forall_forall. intros k ?%elem_of_seq. lia.
    + lia.
    + rewrite Hl, elem_of_seq. lia.
    + eapply seg_ext; [| |exact Hs]; intros j; simpl.
      * rewrite (nx_insert _ _ b) by done. simpl. replace (b_next b) with (nx (bufs s) i) by (unfold nx; by rewrite Hb). apply fupd_id.
      * rewrite (pv_insert _ _ b) by done. simpl. replace (b_prev b) with (pv (bufs s) i) by (unfold pv; by rewrite Hb). apply fupd_id.
    + rewrite (bind_ret_eval _ _ _ _ _ E). destruct (IH (S i) (i :: l) (set_bufs bs s1)) as (bs' & l' & E' & Hr & Hz').
      * simpl. rewrite (body_length _ _ Hbody). simpl. by rewrite length_insert.
      * lia.
      * rewrite Hl. rewrite seq_S. simpl. by rewrite <- Permutation_cons_append.
      * simpl. apply Forall_lookup. intros j c Hc. destruct (body_lookup _ _ _ _ Hbody Hc) as (c0 & Hc0 & E0).
        rewrite Forall_lookup in Hz1. destruct (Hz1 j c0 Hc0) as (?&?&?&?&?).
        destruct c, c0. unfold body in E0. simpl in *. simplify_eq. by split_and!.
      * done.
      * exists bs', l'. split_and!; [exact E'|done|done].
Qed.

Lemma binit_run s :
  length (bufs s) = 31%nat → Forall zero_like (bufs s) → idequeue s = None → havedisk1 s ≠ 0 → wlog s = [] →
  (∀ k, length (disks s ROOTDEV k) = 512%nat) →
  ∃ s', binit s = Ret (tt, s') ∧ bio_rep s' (MkAcache (disks s ROOTDEV) (disks s ROOTDEV) ∅ ∅ []).
Proof.
  intros Hlen Hz Hq Hd Hw Hblk. destruct (lookup_lt_is_Some_2 (bufs s) head_buf) as [h Hh]; [unfold head_buf; lia|].
  unfold binit. rewrite (updb_twice s head_buf h _ _ (λ _, _)) by done.
  rewrite (bind_ret_eval _ _ _ _ _ (updb_run s head_buf h _ Hh)). set (s1 := set_bufs _ s).
  destruct (binit_loop_run (Z.to_nat NBUF) 0 [] s1) as (bs & l & E & Hring & Hz').
  - simpl. by rewrite length_insert.
  - done.
  - done.
  - apply Forall_insert; [done|]. rewrite Forall_lookup in Hz. destruct (Hz _ h Hh) as (?&?&?&?&?). by split_and!.
  - simpl. unfold nx, pv. rewrite list_lookup_insert_eq by (unfold head_buf; lia). done.
  - exists (set_bufs bs s1). split; [exact E|]. exists l. rewrite Forall_lookup in Hz'. split; simpl; try done.
    + split; try done. constructor.
    + intros i b Hi Hb. destruct (Hz' i b Hb) as (Z1 & Z2 & Z3 & Z4 & Z5).
      split; rewrite ?Z1, ?Z2; try done; [by left|by left].
    + intros i b j b' k (_ & Hb & Hdev & _). simpl in Hb. destruct (Hz' i b Hb) as (_ & Z2 & _).
      rewrite Z2 in Hdev. discriminate Hdev.
Qed.

(** * Properties *)

(** C28. The buffer cache refines its specification: after binit, every legal
    sequence of bread, bwrite, brelse, stores to b->data and settings of
    B_DIRTY returns, never panics, and hands out for every bread the current
    contents of the block, whatever was evicted in between; the disk ends up
    with exactly the blocks written.  Legal means that buffers are used
    while held, that a modified buffer is written or dirty when it is
    released, and that fewer than NBUF blocks are held or dirty when a
    further one is read. *)
Theorem buffer_cache_correct status fuel s ops `{!Ready status fuel} :
  (1 ≤ fuel)%nat → length (bufs s) = 31%nat → Forall zero_like (bufs s) → idequeue s = None → havedisk1 s ≠ 0 →
  wlog s = [] → (∀ k, length (disks s ROOTDEV k) = 512%nat) →
  let sp := MkCspec (disks s ROOTDEV) (disks s ROOTDEV) ∅ ∅ in
  all_legal sp ops →
  ∃ s', (binit ;;; run_cops (BufOps0 := bio_ops status fuel) ROOTDEV ∅ ops) s = Ret (spec_cops sp ops, s')
    ∧ ∀ k, disks s' ROOTDEV k = sp_disk (foldl spec_cop sp ops) k.
Proof.
  intros Hf H1 H2 H3 H4 H5 H6 sp Hl. destruct (binit_run s) as (s1 & E1 & Hr1); [done..|].
  rewrite (bind_ret_eval _ _ _ _ _ E1).
  destruct (cops_refine (BufOps0 := bio_ops status fuel) (BufLaws0 := bio_laws status fuel Hf) ROOTDEV bio_rep ops ∅ _ sp s1 Hr1)
    as (s2 & a2 & E2 & [l Hinv] & Hd & _); [|done|].
  - split; simpl; try done. intros k. split; [by intros ?%elem_of_empty|]. intros [b Hb]. by rewrite lookup_empty in Hb.
  - exists s2. split; [exact E2|]. intros k. by rewrite (bi_disk _ _ _ Hinv).
Qed.

(** Zeroed buffers and an empty disk; a client writes block 7 and reads it
    again. *)
Definition ex_zero_buf : buf := MkBuf 0 0 0 (MkSleeplock 0 0) 0 0 0 None (ex_block 0).
Definition ex_fresh : bst :=
  MkBst (replicate 31 ex_zero_buf) None 1 (λ _, 0) (λ _ _, ex_block 0) [] 0 3.
Definition ex_cops : list cop := [CRead 7; CSet 7 (ex_block 5); CWrite 7; CRelse 7; CRead 8; CRead 7].

Lemma buffer_cache_correct_witness :
  ∃ s', (binit ;;; run_cops (BufOps0 := bio_ops ex_status 1) ROOTDEV ∅ ex_cops) ex_fresh
          = Ret ([ex_block 0; ex_block 0; ex_block 5], s')
    ∧ ∀ k, disks s' ROOTDEV k = (if decide (k = 7) then ex_block 5 else ex_block 0).
Proof.
  apply (buffer_cache_correct ex_status 1 ex_fresh ex_cops); try done.
  - apply Forall_replicate. by split_and!.
  - cbn [all_legal legal ex_cops spec_cop sp_held sp_pin sp_disk sp_view].
    unfold FSSIZE. split_and!; try done; try set_solver; try (right; vm_compute; lia).
Defined.
