(* ===== verification/Bytes.v ===== *)
(** Little-endian integers in byte arrays: how C reads and writes the fields
    of a struct that overlays the data of a disk block. *)

From S2P Require Import Prelude.

Definition byte_of (d : list Z) (o : nat) : Z := default 0 (d !! o).

Definition get16 (d : list Z) (o : nat) : Z := byte_of d o + 256 * byte_of d (o + 1).
Definition get32 (d : list Z) (o : nat) : Z :=
  byte_of d o + 256 * byte_of d (o + 1) + 65536 * byte_of d (o + 2) + 16777216 * byte_of d (o + 3).

Definition put16 (o : nat) (v : Z) (d : list Z) : list Z :=
  <[(o + 1)%nat := u8 (v / 256)]> (<[o := u8 v]> d).
Definition put32 (o : nat) (v : Z) (d : list Z) : list Z :=
  <[(o + 3)%nat := u8 (v / 16777216)]> (<[(o + 2)%nat := u8 (v / 65536)]> (<[(o + 1)%nat := u8 (v / 256)]> (<[o := u8 v]> d))).

Lemma byte_of_insert d o o' v :
  (o < length d)%nat → byte_of (<[o := v]> d) o' = if decide (o' = o) then v else byte_of d o'.
Proof.
  intros H. unfold byte_of. case_decide as E; [subst; by rewrite list_lookup_insert_eq|by rewrite list_lookup_insert_ne].
Qed.

Lemma put32_length o v d : length (put32 o v d) = length d.
Proof. unfold put32. by rewrite !length_insert. Qed.
Lemma put16_length o v d : length (put16 o v d) = length d.
Proof. unfold put16. by rewrite !length_insert. Qed.

Lemma u32_bytes v : u8 v + 256 * u8 (v / 256) + 65536 * u8 (v / 65536) + 16777216 * u8 (v / 16777216) = u32 v.
Proof.
  replace (v / 65536) with (v / 256 / 256) by (by rewrite Z.div_div by lia).
  replace (v / 16777216) with (v / 256 / 256 / 256) by (by rewrite !Z.div_div by lia).
  unfold u32. rewrite (Z.mod_eq v 4294967296) by lia.
  replace (v / 4294967296) with (v / 256 / 256 / 256 / 256) by (by rewrite !Z.div_div by lia).
  unfold u8. Z.div_mod_to_equations. lia.
Qed.

Lemma get32_put32 o v d : (o + 3 < length d)%nat → get32 (put32 o v d) o = u32 v.
Proof.
  intros H. unfold get32, put32. repeat (rewrite byte_of_insert by (rewrite ?length_insert; lia)).
  repeat case_decide; try lia. apply u32_bytes.
Qed.

Lemma get32_put32_ne o o' v d :
  (o + 3 < length d)%nat → (o' + 3 < o ∨ o + 3 < o')%nat → get32 (put32 o v d) o' = get32 d o'.
Proof.
  intros H Ho. unfold get32, put32. repeat (rewrite byte_of_insert by (rewrite ?length_insert; lia)).
  repeat (rewrite decide_False by lia). done.
Qed.

Lemma get16_put16 o v d : (o + 1 < length d)%nat → get16 (put16 o v d) o = u16 v.
Proof.
  intros H. unfold get16, put16. repeat (rewrite byte_of_insert by (rewrite ?length_insert; lia)).
  repeat case_decide; try lia. unfold u8, u16. rewrite (Z.mod_eq v 65536) by lia.
  replace (v / 65536) with (v / 256 / 256) by (by rewrite Z.div_div by lia). Z.div_mod_to_equations. lia.
Qed.

Lemma get16_put16_ne o o' v d :
  (o + 1 < length d)%nat → (o' + 1 < o ∨ o + 1 < o')%nat → get16 (put16 o v d) o' = get16 d o'.
Proof.
  intros H Ho. unfold get16, put16. repeat (rewrite byte_of_insert by (rewrite ?length_insert; lia)).
  repeat (rewrite decide_False by lia). done.
Qed.
