(* ===== verification/Log.v ===== *)
(** The write-ahead log (log.c), over any buffer cache that keeps the promises
    of [BufLaws].

    [logst] is struct log without its spin lock, which makes the bodies of
    begin_op, end_op and log_write atomic.  Sleeping in begin_op is an
    answer, [None], of one pass of its loop. *)

From S2P Require Import Prelude Params Bytes BufCache.

Record logst : Type := MkLog {
  lg_start : Z;
  lg_size : Z;
  lg_outstanding : Z;
  lg_committing : Z;
  lg_dev : Z;
  lh_n : Z;
  lh_block : list Z          (* LOGSIZE entries *)
}.

Definition set_lh (n : Z) (blocks : list Z) (l : logst) : logst :=
  MkLog (lg_start l) (lg_size l) (lg_outstanding l) (lg_committing l) (lg_dev l) n blocks.
Definition set_counts (outstanding committing : Z) (l : logst) : logst :=
  MkLog (lg_start l) (lg_size l) outstanding committing (lg_dev l) (lh_n l) (lh_block l).
Definition set_layout (start size dev : Z) (l : logst) : logst :=
  MkLog start size (lg_outstanding l) (lg_committing l) dev (lh_n l) (lh_block l).

Record lst (St : Type) : Type := MkLst { lg : logst; io : St }.
Arguments MkLst {St}.
Arguments lg {St}.
Arguments io {St}.

Definition on_io {St A} (c : M St A) : M (lst St) A := λ s,
  match c (io s) with
  | Ret (a, i) => Ret (a, MkLst (lg s) i)
  | Panic m => Panic m
  | Undef => Undef
  | OutOfFuel => OutOfFuel
  end.

Definition on_log {St} (f : logst → logst) : M (lst St) unit := modify (λ s, MkLst (f (lg s)) (io s)).

(** struct superblock *)
Record superblock : Type := MkSb {
  sb_size : Z; sb_nblocks : Z; sb_ninodes : Z; sb_nlog : Z;
  sb_logstart : Z; sb_inodestart : Z; sb_bmapstart : Z
}.

Definition get_sb (d : list Z) : superblock :=
  MkSb (get32 d 0) (get32 d 4) (get32 d 8) (get32 d 12) (get32 d 16) (get32 d 20) (get32 d 24).

Section log_code.
Context {St : Type} `{!BufOps St}.

(** fs.c: readsb *)
Definition readsb (dev : Z) : M St superblock :=
  bp <- c_bread dev 1 ;;
  d <- c_data bp ;;
  c_brelse bp ;;;
  ret (get_sb d).

(** Entry [i] of log.lh.block, [n] entries from [i]. *)
Definition lh_get (i : Z) : M (lst St) Z :=
  s <- get ;; if i <? 0 then undef else of_option (lh_block (lg s) !! Z.to_nat i).

Fixpoint install_loop (n : nat) (tail : Z) : M (lst St) unit :=
  match n with
  | O => ret tt
  | S n' =>
      s <- get ;;
      let dev := lg_dev (lg s) in
      lbuf <- on_io (c_bread dev (lg_start (lg s) + tail + 1)) ;;
      k <- lh_get tail ;;
      dbuf <- on_io (c_bread dev k) ;;
      d <- on_io (c_data lbuf) ;;
      on_io (c_set_data dbuf d) ;;;
      on_io (c_bwrite dbuf) ;;;
      on_io (c_brelse lbuf) ;;;
      on_io (c_brelse dbuf) ;;;
      install_loop n' (tail + 1)
  end.

Definition install_trans : M (lst St) unit :=
  s <- get ;; install_loop (Z.to_nat (lh_n (lg s))) 0.

(** [for (i = ...) log.lh.block[i] = lh->block[i];] *)
Fixpoint read_blocks (d : list Z) (n i : nat) (blocks : list Z) : option (list Z) :=
  match n with
  | O => Some blocks
  | S n' =>
      if (i <? length blocks)%nat then read_blocks d n' (S i) (<[i := s32 (get32 d (4 + 4 * i))]> blocks)
      else None
  end.

Definition read_head : M (lst St) unit :=
  s <- get ;;
  buf <- on_io (c_bread (lg_dev (lg s)) (lg_start (lg s))) ;;
  d <- on_io (c_data buf) ;;
  let n := s32 (get32 d 0) in
  blocks <- of_option (read_blocks d (Z.to_nat n) 0 (lh_block (lg s))) ;;
  on_log (set_lh n blocks) ;;;
  on_io (c_brelse buf).

(** [for (i = ...) hb->block[i] = log.lh.block[i];] *)
Fixpoint write_blocks (n i : nat) (blocks : list Z) (d : list Z) : option (list Z) :=
  match n with
  | O => Some d
  | S n' => match blocks !! i with Some k => write_blocks n' (S i) blocks (put32 (4 + 4 * i) k d) | None => None end
  end.

Definition write_head : M (lst St) unit :=
  s <- get ;;
  buf <- on_io (c_bread (lg_dev (lg s)) (lg_start (lg s))) ;;
  d <- on_io (c_data buf) ;;
  d' <- of_option (write_blocks (Z.to_nat (lh_n (lg s))) 0 (lh_block (lg s)) (put32 0 (lh_n (lg s)) d)) ;;
  on_io (c_set_data buf d') ;;;
  on_io (c_bwrite buf) ;;;
  on_io (c_brelse buf).

Definition clear_head : M (lst St) unit := on_log (λ l, set_lh 0 (lh_block l) l).

Definition recover_from_log : M (lst St) unit :=
  read_head ;;; install_trans ;;; clear_head ;;; write_head.

Definition initlog (dev : Z) : M (lst St) unit :=
  if BSIZE <=? 4 + 4 * LOGSIZE then panic "initlog: too big logheader" else
  sb <- on_io (readsb dev) ;;
  on_log (set_layout (sb_logstart sb) (sb_nlog sb) dev) ;;;
  recover_from_log.

Fixpoint write_log_loop (n : nat) (tail : Z) : M (lst St) unit :=
  match n with
  | O => ret tt
  | S n' =>
      s <- get ;;
      let dev := lg_dev (lg s) in
      to <- on_io (c_bread dev (lg_start (lg s) + tail + 1)) ;;
      k <- lh_get tail ;;
      from <- on_io (c_bread dev k) ;;
      d <- on_io (c_data from) ;;
      on_io (c_set_data to d) ;;;
      on_io (c_bwrite to) ;;;
      on_io (c_brelse from) ;;;
      on_io (c_brelse to) ;;;
      write_log_loop n' (tail + 1)
  end.

Definition write_log : M (lst St) unit :=
  s <- get ;; write_log_loop (Z.to_nat (lh_n (lg s))) 0.

Definition commit : M (lst St) unit :=
  s <- get ;;
  if 0 <? lh_n (lg s) then
    write_log ;;; write_head ;;; install_trans ;;; clear_head ;;; write_head
  else ret tt.

(** begin_op, end_op: what they do to struct log under its lock. *)
Definition begin_op_try (l : logst) : option logst :=
  if negb (lg_committing l =? 0) then None
  else if LOGSIZE <? lh_n l + (lg_outstanding l + 1) * MAXOPBLOCKS then None
  else Some (set_counts (lg_outstanding l + 1) (lg_committing l) l).

Definition end_op_start : M (lst St) bool :=
  on_log (λ l, set_counts (lg_outstanding l - 1) (lg_committing l) l) ;;;
  s <- get ;;
  if negb (lg_committing (lg s) =? 0) then panic "log.committing"
  else if lg_outstanding (lg s) =? 0 then on_log (λ l, set_counts (lg_outstanding l) 1 l) ;;; ret true
  else ret false.

Definition end_op : M (lst St) unit :=
  do_commit <- end_op_start ;;
  if (do_commit : bool) then commit ;;; on_log (λ l, set_counts (lg_outstanding l) 0 l) else ret tt.

(** The first entry that holds [k], or lh.n. *)
Fixpoint find_block (k : Z) (blocks : list Z) (n i : nat) : nat :=
  match n with
  | O => i
  | S n' => if bool_decide (blocks !! i = Some k) then i else find_block k blocks n' (S i)
  end.

(** The test of log_write and what it does to log.lh for block [k]. *)
Definition log_full (l : logst) : bool := (LOGSIZE <=? lh_n l) || (lg_size l - 1 <=? lh_n l).

Definition log_append (k : Z) (l : logst) : option logst :=
  let i := find_block k (lh_block l) (Z.to_nat (lh_n l)) 0 in
  if (i <? length (lh_block l))%nat
  then Some (set_lh (if Z.of_nat i =? lh_n l then lh_n l + 1 else lh_n l) (<[i := k]> (lh_block l)) l)
  else None.

Definition log_write (b : nat) : M (lst St) unit :=
  s <- get ;;
  if log_full (lg s) then panic "too big a transaction" else
  if lg_outstanding (lg s) <? 1 then panic "log_write outside of trans" else
  k <- on_io (c_blockno b) ;;
  l <- of_option (log_append k (lg s)) ;;
  on_log (λ _, l) ;;;
  on_io (c_set_dirty b).

End log_code.
