(* ===== verification/LogProps.v ===== *)
(** Properties of the log: a commit is atomic with respect to crashes, and
    recovery finishes an interrupted one.

    A crash keeps a prefix of the block writes made so far: bwrite waits for
    the disk, and the disk writes a block as a whole. *)

From S2P Require Import Prelude Params Bytes Sleeplock Ide BufCache Bio Log.

(** * Writes and crashes *)

Definition apply_writes (w : list (Z * list Z)) (f : Z → list Z) : Z → list Z :=
  foldl (λ f w, upd_blk w.1 w.2 f) f w.

Lemma apply_writes_app w w' f : apply_writes (w ++ w') f = apply_writes w' (apply_writes w f).
Proof. apply foldl_app. Qed.

Lemma apply_writes_other w f k : k ∉ w.*1 → apply_writes w f k = f k.
Proof.
  revert f. induction w as [|[j v] w IH]; intros f Hk; [done|]. simpl in *. rewrite IH by set_solver.
  apply upd_blk_ne. set_solver.
Qed.

Lemma apply_writes_in w f k v :
  NoDup w.*1 → (k, v) ∈ w → apply_writes w f k = v.
Proof.
  revert f. induction w as [|[j u] w IH]; intros f Hnd Hin; [by apply elem_of_nil in Hin|].
  simpl in Hnd. apply NoDup_cons in Hnd as [Hj Hnd]. apply elem_of_cons in Hin as [[= -> ->]|Hin].
  - simpl. rewrite apply_writes_other by done. by apply upd_blk_eq.
  - by apply IH.
Qed.

(** * The log on disk *)

(** The blocks that a header block lists. *)
Definition head_of (d : list Z) : list Z :=
  (λ i : nat, s32 (get32 d (4 + 4 * i))) <$> seq 0 (Z.to_nat (s32 (get32 d 0))).

Definition head_ok (d : list Z) : Prop := s32 (get32 d 0) = Z.of_nat (length (head_of d)).

(** The block contents that recovery will establish: those of the log where
    the header lists them. *)
Fixpoint logged (start t : Z) (hs : list Z) (d m : Z → list Z) : Z → list Z :=
  match hs with
  | [] => m
  | k :: hs' => logged start (t + 1) hs' d (upd_blk k (d (start + t + 1)) m)
  end.

Definition logical (start : Z) (d : Z → list Z) : Z → list Z := logged start 0 (head_of (d start)) d d.

Lemma logged_other start hs d k : ∀ t m, k ∉ hs → logged start t hs d m k = m k.
Proof.
  induction hs as [|j hs IH]; intros t m Hk; [done|]. simpl. rewrite IH by set_solver. apply upd_blk_ne. set_solver.
Qed.

Lemma logged_in start hs d k i : ∀ t m,
  NoDup hs → hs !! i = Some k → logged start t hs d m k = d (start + t + Z.of_nat i + 1).
Proof.
  revert i. induction hs as [|j hs IH]; intros i t m Hnd Hi; [done|]. apply NoDup_cons in Hnd as [Hj Hnd].
  destruct i as [|i]; simpl in *.
  - injection Hi as ->. rewrite logged_other by done. rewrite upd_blk_eq. f_equal. lia.
  - rewrite (IH i) by done. f_equal. lia.
Qed.

(** The area of the disk outside the log. *)
Definition home (start size k : Z) : Prop := 0 ≤ k < FSSIZE ∧ ¬ (start ≤ k < start + size).

(** A transaction that fits into the log. *)
Record trans_ok (start size : Z) (bs : list Z) : Prop := {
  to_start : 0 ≤ start;
  to_end : start + size ≤ FSSIZE;
  to_nodup : NoDup bs;
  to_home : Forall (home start size) bs;
  to_fits : Z.of_nat (length bs) < size;
  to_small : (length bs < 30)%nat
}.

(** The in-memory header. *)
Definition lh_is (l : logst) (bs : list Z) : Prop :=
  lh_n l = Z.of_nat (length bs) ∧ take (length bs) (lh_block l) = bs ∧ length (lh_block l) = 30%nat.

Lemma lh_lookup l bs i k : lh_is l bs → bs !! i = Some k → lh_block l !! i = Some k.
Proof.
  intros (_ & H & _) Hk. rewrite <- H in Hk. rewrite lookup_take in Hk. case_decide; [done|discriminate Hk].
Qed.

(** ** Encoding the header *)

Lemma write_blocks_run bs : ∀ n i d,
  (i + n ≤ length bs)%nat → (length bs ≤ 30)%nat → length d = 512%nat →
  ∃ d', write_blocks n i bs d = Some d' ∧ length d' = 512%nat ∧ get32 d' 0 = get32 d 0
    ∧ (∀ j, (j < i)%nat → get32 d' (4 + 4 * j) = get32 d (4 + 4 * j))
    ∧ ∀ j k, (i ≤ j < i + n)%nat → bs !! j = Some k → get32 d' (4 + 4 * j) = u32 k.
Proof.
  induction n as [|n IH]; intros i d Hn Hl Hd; cbn [write_blocks].
  - exists d. split_and!; try done. intros j k Hj. lia.
  - destruct (lookup_lt_is_Some_2 bs i) as [k Hk]; [lia|]. rewrite Hk.
    destruct (IH (S i) (put32 (4 + 4 * i) k d)) as (d' & E & Hlen & H0 & Hlt & Hge); [lia|done|by rewrite put32_length|].
    exists d'. split_and!; [done|done| | |].
    + rewrite H0. apply get32_put32_ne; lia.
    + intros j Hj. rewrite Hlt by lia. apply get32_put32_ne; lia.
    + intros j k' Hj Hk'. destruct (decide (j = i)) as [->|Hji]; [|apply Hge; [lia|done]].
      rewrite Hlt by lia. rewrite get32_put32 by lia. congruence.
Qed.

Lemma s32_u32_block k : 0 ≤ k < FSSIZE → s32 (u32 k) = k.
Proof. unfold FSSIZE. intros H. rewrite u32_small by lia. apply s32_small. lia. Qed.

Lemma write_blocks_head bs blocks d :
  take (length bs) blocks = bs → (length bs ≤ 30)%nat → (length bs ≤ length blocks)%nat → length blocks = 30%nat →
  Forall (λ k, 0 ≤ k < FSSIZE) bs → length d = 512%nat →
  ∃ d', write_blocks (length bs) 0 blocks (put32 0 (Z.of_nat (length bs)) d) = Some d'
    ∧ length d' = 512%nat ∧ head_of d' = bs ∧ head_ok d'.
Proof.
  intros Ht Hl Hlb Hl30 Hr Hd.
  destruct (write_blocks_run blocks (length bs) 0 (put32 0 (Z.of_nat (length bs)) d)) as (d' & E & Hlen & H0 & _ & Hge);
    [lia|lia|by rewrite put32_length|].
  assert (Hn : s32 (get32 d' 0) = Z.of_nat (length bs))
    by (rewrite H0, get32_put32 by lia; apply s32_u32_block; unfold FSSIZE; lia).
  assert (Hh : head_of d' = bs);
    [|exists d'; split_and!; [done|done|done|unfold head_ok; by rewrite Hh, Hn]].
  unfold head_of. rewrite Hn, Nat2Z.id.
  apply list_eq. intros i. rewrite list_lookup_fmap. destruct (decide (i < length bs)%nat) as [Hi|Hi].
  - rewrite lookup_seq_lt by lia. rewrite Nat.add_0_l. destruct (lookup_lt_is_Some_2 bs i Hi) as [k Hk]. rewrite Hk.
    cbn [fmap option_fmap option_map]. f_equal.
    rewrite (Hge i k); [|lia|].
    + apply s32_u32_block. rewrite Forall_lookup in Hr. by eapply Hr.
    + rewrite <- Ht in Hk. rewrite lookup_take in Hk. case_decide; [done|discriminate Hk].
  - rewrite lookup_seq_ge by lia. by rewrite lookup_ge_None_2 by lia.
Qed.

Lemma read_blocks_run d : ∀ n i blocks,
  (i + n ≤ length blocks)%nat →
  ∃ blocks', read_blocks d n i blocks = Some blocks' ∧ length blocks' = length blocks
    ∧ ∀ j, blocks' !! j = if decide (i ≤ j < i + n)%nat then Some (s32 (get32 d (4 + 4 * j))) else blocks !! j.
Proof.
  induction n as [|n IH]; intros i blocks Hn; cbn [read_blocks].
  - exists blocks. split_and!; [done|done|]. intros j. by rewrite decide_False by lia.
  - destruct (Nat.ltb_spec i (length blocks)) as [Hi|Hi]; [|lia].
    destruct (IH (S i) (<[i := s32 (get32 d (4 + 4 * i))]> blocks)) as (b' & E & Hl & H); [rewrite length_insert; lia|].
    exists b'. split_and!; [done|by rewrite Hl, length_insert|]. intros j. rewrite H.
    destruct (decide (j = i)) as [->|Hji].
    + rewrite decide_False, decide_True by lia. by apply list_lookup_insert_eq.
    + rewrite list_lookup_insert_ne by done.
      destruct (decide (S i ≤ j < S i + n)%nat), (decide (i ≤ j < i + S n)%nat); try lia; done.
Qed.

Section log_proofs.
Context {St : Type} `{!BufOps St} (dev : Z) (rep : St → acache → Prop) `{!BufLaws St dev rep}.

Lemma on_io_run {A} (c : M St A) (s : lst St) r i :
  c (io s) = Ret (r, i) → on_io c s = Ret (r, MkLst (lg s) i).
Proof. intros H. unfold on_io. by rewrite H. Qed.

Lemma bind_on_io {A B} (c : M St A) (k : A → M (lst St) B) l st r i :
  c st = Ret (r, i) → bind (on_io c) k (MkLst l st) = k r (MkLst l i).
Proof. intros H. by apply bind_ret_eval, (on_io_run c (MkLst l st)). Qed.

Lemma lh_get_run l (st : St) bs t k :
  lh_is l bs → bs !! t = Some k → lh_get (Z.of_nat t) (MkLst l st) = Ret (k, MkLst l st).
Proof.
  intros Hl Hk. unfold lh_get, bind, get. cbn [lg]. destruct (Z.ltb_spec (Z.of_nat t) 0) as [?|_]; [lia|].
  by rewrite Nat2Z.id, (lh_lookup l bs t k).
Qed.

(** The state of the cache between two operations of the log: nothing is
    held. *)
Definition quiet (st : St) (disk view : Z → list Z) (pin : gset Z) (ws : list (Z * list Z)) : Prop :=
  rep st (MkAcache disk view pin ∅ ws).

(** Copying block [src] over block [dst] and writing it to disk: the two
    orders in which the log takes and releases the buffers. *)
Lemma copy_src_first {B} (k : M (lst St) B) (l : logst) st disk view pin ws src dst (g : M (lst St) Z) :
  quiet st disk view pin ws → src ≠ dst → 0 ≤ src < FSSIZE → 0 ≤ dst < FSSIZE → src ∉ pin →
  (size pin < 30)%nat → dst ∈ pin ∨ (S (size pin) < 30)%nat →
  (∀ st', g (MkLst l st') = Ret (dst, MkLst l st')) →
  ∃ st', (lb <- on_io (c_bread dev src) ;; n <- g ;; db <- on_io (c_bread dev n) ;;
          d <- on_io (c_data lb) ;; on_io (c_set_data db d) ;;; on_io (c_bwrite db) ;;;
          on_io (c_brelse lb) ;;; on_io (c_brelse db) ;;; k) (MkLst l st) = k (MkLst l st')
    ∧ quiet st' (upd_blk dst (view src) disk) (upd_blk dst (view src) view) (pin ∖ {[dst]})
        (ws ++ [(dst, view src)]).
Proof.
  intros Hq Hne Hsrc Hdst Hsp Hroom Hroom' Hg.
  assert (Hbusy : a_busy (MkAcache disk view pin ∅ ws) = pin) by (unfold a_busy; simpl; rewrite map_img_empty_L; set_solver).
  destruct (l_bread st _ src Hq Hsrc) as (b1 & s1 & E1 & _ & R1); [by intros b|by rewrite Hbusy; right|].
  rewrite (bind_on_io _ _ l st _ _ E1). rewrite (bind_ret_eval _ _ _ _ _ (Hg s1)).
  assert (Hb1 : ∀ b, a_held (a_hold b1 src (MkAcache disk view pin ∅ ws)) !! b ≠ Some dst).
  { simpl. intros b [[_ ?]|[_ ?]]%lookup_insert_Some; [done|by rewrite lookup_empty in *]. }
  destruct (l_bread s1 _ dst R1 Hdst Hb1) as (b2 & s2 & E2 & Hb2 & R2).
  { destruct Hroom' as [?|Hr]; [by left|right]. unfold a_busy. simpl. rewrite insert_empty, map_img_singleton_L.
    rewrite size_union, size_singleton by set_solver. change (Z.to_nat NBUF) with 30%nat. lia. }
  rewrite (bind_on_io _ _ l s1 _ _ E2). simpl in Hb2. apply lookup_insert_None in Hb2 as [_ Hb12].
  pose proof (l_data s2 _ b1 src R2) as D. simpl in D. rewrite lookup_insert_ne, lookup_insert_eq in D by done.
  rewrite (bind_on_io _ _ l s2 _ _ (D eq_refl)).
  destruct (l_set_data s2 _ b2 dst (view src) R2) as (s3 & E3 & R3); [by simpl; rewrite lookup_insert_eq|by apply (l_length s2 _ src R2)|].
  rewrite (bind_on_io _ _ l s2 _ _ E3).
  destruct (l_bwrite s3 _ b2 dst R3) as (s4 & E4 & R4); [by simpl; rewrite lookup_insert_eq|].
  rewrite (bind_on_io _ _ l s3 _ _ E4).
  destruct (l_brelse s4 _ b1 src R4) as (s5 & E5 & R5).
  { simpl. rewrite lookup_insert_ne by done. by rewrite lookup_insert_eq. }
  { right. simpl. rewrite !upd_blk_ne by done. by apply (l_clean st _ src Hq). }
  rewrite (bind_on_io _ _ l s4 _ _ E5).
  destruct (l_brelse s5 _ b2 dst R5) as (s6 & E6 & R6).
  { simpl. rewrite lookup_delete_ne by done. by rewrite lookup_insert_eq. }
  { right. simpl. by rewrite !upd_blk_eq. }
  rewrite (bind_on_io _ _ l s5 _ _ E6). exists s6. split; [done|]. unfold quiet.
  unfold a_release, a_write, a_set, a_hold in R6. cbn [a_disk a_view a_pin a_held a_writes] in R6.
  rewrite upd_blk_eq in R6.
  replace (delete b2 (delete b1 (<[b2 := dst]> (<[b1 := src]> ∅)))) with (∅ : gmap nat Z) in R6; [done|].
  rewrite delete_insert_ne by done. rewrite !delete_insert_eq. by rewrite delete_empty.
Qed.

Lemma copy_dst_first {B} (k : M (lst St) B) (l : logst) st disk view pin ws src dst (g : M (lst St) Z) :
  quiet st disk view pin ws → src ≠ dst → 0 ≤ src < FSSIZE → 0 ≤ dst < FSSIZE → src ∈ pin → dst ∉ pin →
  (size pin < 30)%nat →
  (∀ st', g (MkLst l st') = Ret (src, MkLst l st')) →
  ∃ st', (db <- on_io (c_bread dev dst) ;; n <- g ;; sb <- on_io (c_bread dev n) ;;
          d <- on_io (c_data sb) ;; on_io (c_set_data db d) ;;; on_io (c_bwrite db) ;;;
          on_io (c_brelse sb) ;;; on_io (c_brelse db) ;;; k) (MkLst l st) = k (MkLst l st')
    ∧ quiet st' (upd_blk dst (view src) disk) (upd_blk dst (view src) view) pin (ws ++ [(dst, view src)]).
Proof.
  intros Hq Hne Hsrc Hdst Hsp Hdp Hroom Hg.
  assert (Hbusy : a_busy (MkAcache disk view pin ∅ ws) = pin) by (unfold a_busy; simpl; rewrite map_img_empty_L; set_solver).
  destruct (l_bread st _ dst Hq Hdst) as (b1 & s1 & E1 & _ & R1); [by intros b|by rewrite Hbusy; right|].
  rewrite (bind_on_io _ _ l st _ _ E1). rewrite (bind_ret_eval _ _ _ _ _ (Hg s1)).
  assert (Hb1 : ∀ b, a_held (a_hold b1 dst (MkAcache disk view pin ∅ ws)) !! b ≠ Some src).
  { simpl. intros b [[_ ?]|[_ ?]]%lookup_insert_Some; [done|by rewrite lookup_empty in *]. }
  destruct (l_bread s1 _ src R1 Hsrc Hb1) as (b2 & s2 & E2 & Hb2 & R2); [by left|].
  rewrite (bind_on_io _ _ l s1 _ _ E2). simpl in Hb2. apply lookup_insert_None in Hb2 as [_ Hb12].
  pose proof (l_data s2 _ b2 src R2) as D. simpl in D. rewrite lookup_insert_eq in D.
  rewrite (bind_on_io _ _ l s2 _ _ (D eq_refl)).
  destruct (l_set_data s2 _ b1 dst (view src) R2) as (s3 & E3 & R3);
    [simpl; rewrite lookup_insert_ne by done; by rewrite lookup_insert_eq|by apply (l_length s2 _ src R2)|].
  rewrite (bind_on_io _ _ l s2 _ _ E3).
  destruct (l_bwrite s3 _ b1 dst R3) as (s4 & E4 & R4); [simpl; rewrite lookup_insert_ne by done; by rewrite lookup_insert_eq|].
  rewrite (bind_on_io _ _ l s3 _ _ E4).
  destruct (l_brelse s4 _ b2 src R4) as (s5 & E5 & R5); [by simpl; rewrite lookup_insert_eq|left; simpl; set_solver|].
  rewrite (bind_on_io _ _ l s4 _ _ E5).
  destruct (l_brelse s5 _ b1 dst R5) as (s6 & E6 & R6).
  { simpl. rewrite lookup_delete_ne, lookup_insert_ne by done. by rewrite lookup_insert_eq. }
  { right. simpl. by rewrite !upd_blk_eq. }
  rewrite (bind_on_io _ _ l s5 _ _ E6). exists s6. split; [done|]. unfold quiet.
  unfold a_release, a_write, a_set, a_hold in R6. cbn [a_disk a_view a_pin a_held a_writes] in R6.
  rewrite upd_blk_eq in R6. replace (pin ∖ {[dst]}) with pin in R6 by set_solver.
  replace (delete b1 (delete b2 (<[b2 := src]> (<[b1 := dst]> ∅)))) with (∅ : gmap nat Z) in R6; [done|].
  rewrite delete_insert_eq. rewrite delete_insert_ne by done. rewrite delete_empty. by rewrite delete_insert_eq.
Qed.

(** The writes of write_log: the blocks [ks] go to the log from entry [t]. *)
Fixpoint log_writes (start t : Z) (ks : list Z) (f : Z → list Z) : list (Z * list Z) :=
  match ks with [] => [] | k :: ks' => (start + t + 1, f k) :: log_writes start (t + 1) ks' f end.

Lemma log_writes_fst start t ks f n :
  n ∈ (log_writes start t ks f).*1 → start + t + 1 ≤ n ≤ start + t + Z.of_nat (length ks).
Proof.
  revert t. induction ks as [|k ks IH]; intros t; simpl; [by intros ?%elem_of_nil|].
  intros [->|Hn]%elem_of_cons; [lia|]. apply IH in Hn. lia.
Qed.

Lemma write_log_loop_run l bs sz :
  lh_is l bs → lg_dev l = dev → trans_ok (lg_start l) sz bs →
  ∀ n t st disk view pin ws f,
  (t + n = length bs)%nat → quiet st disk view pin ws → (size pin < 30)%nat →
  (∀ k, k ∈ bs → k ∈ pin ∧ view k = f k) → (∀ k, k ∈ pin → home (lg_start l) sz k) →
  let w := log_writes (lg_start l) (Z.of_nat t) (drop t bs) f in
  ∃ st', write_log_loop n (Z.of_nat t) (MkLst l st) = Ret (tt, MkLst l st')
    ∧ quiet st' (apply_writes w disk) (apply_writes w view) pin (ws ++ w).
Proof.
  intros Hl Hdev [T1 T2 T3 T4 T5 T6]. induction n as [|n IH]; intros t st disk view pin ws f Ht Hq Hsz Hin Hhome w.
  - exists st. split; [done|]. unfold w. rewrite drop_ge by lia. simpl. by rewrite app_nil_r.
  - destruct (lookup_lt_is_Some_2 bs t) as [k Hk]; [lia|].
    pose proof (list_elem_of_lookup_2 _ _ _ Hk) as Hkb. destruct (Hin k Hkb) as [Hkp Hvk].
    rewrite Forall_forall in T4. destruct (T4 k Hkb) as [Hkr Hkl].
    unfold w. rewrite (drop_S bs k t) by done. cbn [log_writes].
    cbn [write_log_loop]. rewrite (bind_ret_eval _ _ (MkLst l st) (MkLst l st) (MkLst l st)) by done. cbn [lg]. cbv zeta.
    rewrite Hdev.
    destruct (copy_dst_first (write_log_loop n (Z.of_nat t + 1)) l st disk view pin ws k (lg_start l + Z.of_nat t + 1)
      (lh_get (Z.of_nat t))) as (st1 & E & Hq1); [done|lia|done|lia|done|intros Hd%Hhome; destruct Hd; lia|done|
      intros st'; by apply (lh_get_run l st' bs)|].
    rewrite E. replace (Z.of_nat t + 1) with (Z.of_nat (S t)) by lia.
    destruct (IH (S t) st1 _ _ pin _ f ltac:(lia) Hq1 Hsz) as (st2 & E2 & Hq2); [|done|].
    + intros j Hj. destruct (Hin j Hj) as [? Hv]. split; [done|]. rewrite upd_blk_ne; [done|]. destruct (T4 j Hj). lia.
    + exists st2. split; [done|]. rewrite Hvk in Hq2. cbn [apply_writes foldl fst snd]. rewrite <- app_assoc in Hq2. exact Hq2.
Qed.

(** The writes of install_trans: the blocks [ks] come from the log, which
    holds [f]. *)
Fixpoint install_writes (start t : Z) (ks : list Z) (f : Z → list Z) : list (Z * list Z) :=
  match ks with [] => [] | k :: ks' => (k, f (start + t + 1)) :: install_writes start (t + 1) ks' f end.

Lemma install_writes_fst start t ks f : (install_writes start t ks f).*1 = ks.
Proof. revert t. induction ks as [|k ks IH]; intros t; simpl; [done|]. by rewrite IH. Qed.

Lemma install_loop_run l bs sz :
  lh_is l bs → lg_dev l = dev → trans_ok (lg_start l) sz bs →
  ∀ n t st disk view pin ws f,
  (t + n = length bs)%nat → quiet st disk view pin ws → (size pin < 30)%nat →
  (∀ k, k ∈ drop t bs → k ∈ pin) ∨ (S (size pin) < 30)%nat →
  (∀ i, 0 ≤ i < sz → (lg_start l + i ∉ pin) ∧ view (lg_start l + i) = f (lg_start l + i)) →
  let w := install_writes (lg_start l) (Z.of_nat t) (drop t bs) f in
  ∃ st', install_loop n (Z.of_nat t) (MkLst l st) = Ret (tt, MkLst l st')
    ∧ quiet st' (apply_writes w disk) (apply_writes w view) (pin ∖ list_to_set (drop t bs)) (ws ++ w).
Proof.
  intros Hl Hdev [T1 T2 T3 T4 T5 T6]. induction n as [|n IH]; intros t st disk view pin ws f Ht Hq Hsz Hroom Hlog w.
  - exists st. split; [done|]. unfold w. rewrite drop_ge by lia. simpl. rewrite app_nil_r.
    replace (pin ∖ ∅) with pin by set_solver. done.
  - destruct (lookup_lt_is_Some_2 bs t) as [k Hk]; [lia|].
    pose proof (list_elem_of_lookup_2 _ _ _ Hk) as Hkb. rewrite Forall_forall in T4. destruct (T4 k Hkb) as [Hkr Hkl].
    unfold w. rewrite (drop_S bs k t) in * by done. cbn [install_writes].
    cbn [install_loop]. rewrite (bind_ret_eval _ _ (MkLst l st) (MkLst l st) (MkLst l st)) by done. cbn [lg]. cbv zeta.
    rewrite Hdev. destruct (Hlog (Z.of_nat t + 1)) as [Hsp Hsv]; [lia|]. rewrite Z.add_assoc in Hsp, Hsv.
    destruct (copy_src_first (install_loop n (Z.of_nat t + 1)) l st disk view pin ws (lg_start l + Z.of_nat t + 1) k
      (lh_get (Z.of_nat t))) as (st1 & E & Hq1); [done|lia|lia|done|done|done| |intros st'; by apply (lh_get_run l st' bs)|].
    { destruct Hroom as [Hr|Hr]; [left; apply Hr, elem_of_cons; by left|by right]. }
    rewrite E. replace (Z.of_nat t + 1) with (Z.of_nat (S t)) by lia.
    assert (Hsz' : (size (pin ∖ {[k]}) ≤ size pin)%nat) by (apply subseteq_size; set_solver).
    destruct (IH (S t) st1 _ _ (pin ∖ {[k]}) _ f ltac:(lia) Hq1) as (st2 & E2 & Hq2); [lia| | |].
    + destruct Hroom as [Hr|Hr]; [left|right; lia]. intros j Hj.
      apply elem_of_difference. split; [apply Hr, elem_of_cons; by right|].
      rewrite elem_of_singleton. intros ->. apply list_elem_of_lookup_1 in Hj as [i Hi]. rewrite lookup_drop in Hi.
      pose proof (NoDup_lookup _ _ _ _ T3 Hk Hi). lia.
    + intros i Hi. destruct (Hlog i Hi) as [? Hv]. split; [set_solver|]. rewrite upd_blk_ne; [done|]. intros E1. lia.
    + exists st2. split; [done|]. rewrite Hsv in Hq2. rewrite <- app_assoc in Hq2.
      replace (pin ∖ {[k]} ∖ list_to_set (drop (S t) bs)) with (pin ∖ list_to_set (k :: drop (S t) bs)) in Hq2
        by (simpl; set_solver). exact Hq2.
Qed.

(** Writing the header. *)
Lemma write_head_run l bs sz st disk view pin ws :
  lh_is l bs → lg_dev l = dev → trans_ok (lg_start l) sz bs → quiet st disk view pin ws →
  (size pin < 30)%nat → lg_start l ∉ pin →
  ∃ st' h, write_head (MkLst l st) = Ret (tt, MkLst l st') ∧ head_of h = bs ∧ head_ok h
    ∧ quiet st' (upd_blk (lg_start l) h disk) (upd_blk (lg_start l) h view) pin (ws ++ [(lg_start l, h)]).
Proof.
  intros Hl Hdev [T1 T2 T3 T4 T5 T6] Hq Hsz Hpin. pose proof Hl as (Hn & Htake & Hlen).
  assert (Hbusy : a_busy (MkAcache disk view pin ∅ ws) = pin) by (unfold a_busy; simpl; rewrite map_img_empty_L; set_solver).
  unfold write_head. rewrite (bind_ret_eval _ _ (MkLst l st) (MkLst l st) (MkLst l st)) by done. cbn [lg]. rewrite Hdev.
  destruct (l_bread st _ (lg_start l) Hq) as (b & s1 & E1 & _ & R1); [lia|by intros b|by rewrite Hbusy; right|].
  rewrite (bind_on_io _ _ l st _ _ E1).
  pose proof (l_data s1 _ b (lg_start l) R1) as D. simpl in D. rewrite lookup_insert_eq in D.
  rewrite (bind_on_io _ _ l s1 _ _ (D eq_refl)).
  destruct (write_blocks_head bs (lh_block l) (view (lg_start l))) as (h & Eh & Hhl & Hh & Hho);
    [done|lia|lia|done|eapply Forall_impl; [exact T4|by intros k []]|by apply (l_length st _ (lg_start l) Hq)|].
  rewrite Hn, Nat2Z.id, Eh. rewrite (bind_ret_eval _ _ (MkLst l s1) h (MkLst l s1)) by done.
  destruct (l_set_data s1 _ b (lg_start l) h R1) as (s2 & E2 & R2); [by simpl; rewrite lookup_insert_eq|done|].
  rewrite (bind_on_io _ _ l s1 _ _ E2).
  destruct (l_bwrite s2 _ b (lg_start l) R2) as (s3 & E3 & R3); [by simpl; rewrite lookup_insert_eq|].
  rewrite (bind_on_io _ _ l s2 _ _ E3).
  destruct (l_brelse s3 _ b (lg_start l) R3) as (s4 & E4 & R4);
    [by simpl; rewrite lookup_insert_eq|right; simpl; by rewrite !upd_blk_eq|].
  exists s4, h. split_and!; [by apply (on_io_run (c_brelse b) (MkLst l s3))|done|done|]. unfold quiet.
  unfold a_release, a_write, a_set, a_hold in R4. cbn [a_disk a_view a_pin a_held a_writes] in R4.
  rewrite upd_blk_eq, delete_insert_eq, delete_empty in R4. replace (pin ∖ {[lg_start l]}) with pin in R4 by set_solver. done.
Qed.

Lemma read_head_run l st disk view ws :
  lg_dev l = dev → 0 ≤ lg_start l < FSSIZE → length (lh_block l) = 30%nat → quiet st disk view ∅ ws →
  head_ok (view (lg_start l)) → (length (head_of (view (lg_start l))) ≤ 30)%nat →
  ∃ st' l', read_head (MkLst l st) = Ret (tt, MkLst l' st') ∧ lh_is l' (head_of (view (lg_start l)))
    ∧ lg_start l' = lg_start l ∧ lg_dev l' = dev ∧ quiet st' disk view ∅ ws.
Proof.
  intros Hdev Hr Hlen Hq Hok Hle. unfold read_head.
  rewrite (bind_ret_eval _ _ (MkLst l st) (MkLst l st) (MkLst l st)) by done. cbn [lg]. rewrite Hdev.
  destruct (l_bread st _ (lg_start l) Hq Hr) as (b & s1 & E1 & _ & R1);
    [by intros b|right; unfold a_busy; simpl; rewrite map_img_empty_L, (union_empty_l_L ∅), size_empty;
     change (Z.to_nat NBUF) with 30%nat; lia|].
  rewrite (bind_on_io _ _ l st _ _ E1).
  pose proof (l_data s1 _ b (lg_start l) R1) as D. simpl in D. rewrite lookup_insert_eq in D.
  rewrite (bind_on_io _ _ l s1 _ _ (D eq_refl)). cbv zeta. unfold head_ok in Hok. set (d := view (lg_start l)) in *.
  rewrite Hok, Nat2Z.id.
  destruct (read_blocks_run d (length (head_of d)) 0 (lh_block l)) as (blocks & E2 & Hbl & Hb); [lia|].
  rewrite E2. rewrite (bind_ret_eval _ _ (MkLst l s1) blocks (MkLst l s1)) by done.
  set (l' := set_lh (Z.of_nat (length (head_of d))) blocks l).
  rewrite (bind_ret_eval _ _ (MkLst l s1) tt (MkLst l' s1)) by done.
  destruct (l_brelse s1 _ b (lg_start l) R1) as (s2 & E3 & R3);
    [by simpl; rewrite lookup_insert_eq|right; apply (l_clean st _ (lg_start l) Hq); [apply not_elem_of_empty|by intros b']|].
  exists s2, l'. split_and!; [by apply (on_io_run (c_brelse b) (MkLst l' s1))| |done|done|].
  - split_and!; [done| |by transitivity (length (lh_block l))]. change (lh_block l') with blocks. apply list_eq. intros i. rewrite lookup_take.
    case_decide as Hi; [|by rewrite lookup_ge_None_2 by lia]. rewrite Hb, decide_True by lia.
    unfold head_of. rewrite list_lookup_fmap, lookup_seq_lt; [done|]. rewrite Hok, Nat2Z.id. lia.
  - unfold quiet. unfold a_release, a_hold in R3. cbn [a_disk a_view a_pin a_held a_writes] in R3.
    by rewrite delete_insert_eq, delete_empty in R3.
Qed.

(** The log blocks after write_log, and what install_trans then writes. *)
Lemma log_writes_lookup start ks f g i k : ∀ t,
  ks !! i = Some k → apply_writes (log_writes start t ks f) g (start + t + Z.of_nat i + 1) = f k.
Proof.
  revert g i. induction ks as [|j ks IH]; intros g i t Hi; [done|]. destruct i as [|i]; cbn [log_writes apply_writes foldl fst snd].
  - injection Hi as ->. fold (apply_writes (log_writes start (t + 1) ks f) (upd_blk (start + t + 1) (f k) g)).
    rewrite apply_writes_other; [|intros Hn%log_writes_fst; lia].
    replace (start + t + Z.of_nat 0 + 1) with (start + t + 1) by lia. apply upd_blk_eq.
  - replace (start + t + Z.of_nat (S i) + 1) with (start + (t + 1) + Z.of_nat i + 1) by lia. by apply IH.
Qed.

Lemma install_writes_eq start view' view bs : ∀ t,
  (∀ i k, bs !! i = Some k → view' (start + t + Z.of_nat i + 1) = view k) →
  install_writes start t bs view' = (λ k, (k, view k)) <$> bs.
Proof.
  induction bs as [|k bs IH]; intros t H; [done|]. cbn [install_writes fmap list_fmap]. f_equal.
  - rewrite <- (H 0%nat k) by done. do 2 f_equal. lia.
  - apply IH. intros i j Hi. rewrite <- (H (S i) j) by done. f_equal. lia.
Qed.

Lemma trans_nil start size bs : trans_ok start size bs → trans_ok start size [].
Proof. intros [T1 T2 T3 T4 T5 T6]. split; simpl; try done; [constructor|lia|lia]. Qed.

(** What commit does, write by write. *)
Lemma commit_run l bs sz st disk view ws :
  lh_is l bs → bs ≠ [] → lg_dev l = dev → trans_ok (lg_start l) sz bs → quiet st disk view (list_to_set bs) ws →
  ∃ st' h h0 view', commit (MkLst l st) = Ret (tt, MkLst (set_lh 0 (lh_block l) l) st')
    ∧ head_of h = bs ∧ head_ok h ∧ head_of h0 = [] ∧ head_ok h0
    ∧ let w := log_writes (lg_start l) 0 bs view ++ (lg_start l, h) :: ((λ k, (k, view k)) <$> bs) ++ [(lg_start l, h0)] in
      quiet st' (apply_writes w disk) view' ∅ (ws ++ w).
Proof.
  intros Hl Hne Hdev Ht Hq. pose proof Ht as [T1 T2 T3 T4 T5 T6]. pose proof Hl as (Hn & Htk & Hlen).
  assert (Hsz : (size (list_to_set (C := gset Z) bs) < 30)%nat) by (rewrite size_list_to_set by done; lia).
  assert (Hhm : ∀ k, k ∈ (list_to_set bs : gset Z) → home (lg_start l) sz k)
    by (intros k Hk%elem_of_list_to_set; rewrite Forall_forall in T4; auto).
  assert (Hlog : ∀ i, 0 ≤ i < sz → lg_start l + i ∉ (list_to_set bs : gset Z)) by (intros i Hi Hk%Hhm; destruct Hk; lia).
  unfold commit. rewrite (bind_ret_eval _ _ (MkLst l st) (MkLst l st) (MkLst l st)) by done. cbn [lg].
  destruct (Z.ltb_spec 0 (lh_n l)) as [_|Hz]; [|destruct bs; simpl in *; [done|lia]].
  destruct (write_log_loop_run l bs sz Hl Hdev Ht (length bs) 0 st disk view (list_to_set bs) ws view) as (st1 & E1 & Q1);
    [lia|done|done|intros k Hk; split; [by apply elem_of_list_to_set|done]|done|]. simpl in E1, Q1. rewrite drop_0 in Q1.
  set (w1 := log_writes (lg_start l) 0 bs view) in *.
  rewrite (bind_ret_eval _ _ _ tt (MkLst l st1))
    by (unfold write_log, bind, get; cbn [lg]; by rewrite Hn, Nat2Z.id).
  destruct (write_head_run l bs sz st1 _ _ _ _ Hl Hdev Ht Q1 Hsz) as (st2 & h & E2 & Hh & Hho & Q2);
    [rewrite <- (Z.add_0_r (lg_start l)); apply Hlog; lia|].
  rewrite (bind_ret_eval _ _ _ _ _ E2).
  destruct (install_loop_run l bs sz Hl Hdev Ht (length bs) 0 st2 _ _ _ _ (upd_blk (lg_start l) h (apply_writes w1 view)) ltac:(lia) Q2 Hsz)
    as (st3 & E3 & Q3); [left; intros k; by rewrite drop_0, elem_of_list_to_set|intros i Hi; split; [by apply Hlog|done]|].
  simpl in E3, Q3. rewrite drop_0 in Q3. rewrite (install_writes_eq _ _ view) in Q3.
  2: { intros i k Hi. rewrite upd_blk_ne by lia. by apply log_writes_lookup. }
  rewrite (bind_ret_eval _ _ _ tt (MkLst l st3))
    by (unfold install_trans, bind, get; cbn [lg]; by rewrite Hn, Nat2Z.id).
  set (l0 := set_lh 0 (lh_block l) l). rewrite (bind_ret_eval _ _ _ tt (MkLst l0 st3)) by done.
  replace (list_to_set bs ∖ list_to_set bs) with (∅ : gset Z) in Q3 by set_solver.
  destruct (write_head_run l0 [] sz st3 _ _ _ _ ltac:(by split_and!) Hdev (trans_nil _ _ _ Ht) Q3) as (st4 & h0 & E4 & Hh0 & Hho0 & Q4);
    [rewrite size_empty; lia|apply not_elem_of_empty|].
  eexists st4, h, h0, _. split_and!; [exact E4|done..|]. cbv zeta. rewrite apply_writes_app.
  cbn [apply_writes foldl fst snd]. rewrite foldl_app. rewrite <- !app_assoc in Q4. exact Q4.
Qed.

(** What recovery does. *)
Lemma recover_run l sz st d ws :
  lg_dev l = dev → length (lh_block l) = 30%nat → quiet st d d ∅ ws → head_ok (d (lg_start l)) →
  trans_ok (lg_start l) sz (head_of (d (lg_start l))) →
  ∃ st' l' h0 view', recover_from_log (MkLst l st) = Ret (tt, MkLst l' st') ∧ head_of h0 = [] ∧ head_ok h0
    ∧ let w := install_writes (lg_start l) 0 (head_of (d (lg_start l))) d ++ [(lg_start l, h0)] in
      quiet st' (apply_writes w d) view' ∅ (ws ++ w).
Proof.
  intros Hdev Hlen Hq Hok Ht. pose proof Ht as [T1 T2 T3 T4 T5 T6]. unfold recover_from_log.
  destruct (read_head_run l st d d ws) as (st1 & l1 & E1 & Hl1 & Hst1 & Hd1 & Q1); [done|lia|done|done|done|lia|].
  rewrite (bind_ret_eval _ _ _ _ _ E1). set (hs := head_of (d (lg_start l))) in *. pose proof Hl1 as (Hn & _ & Hlb).
  assert (Ht1 : trans_ok (lg_start l1) sz hs) by (by rewrite Hst1).
  destruct (install_loop_run l1 hs sz Hl1 Hd1 Ht1 (length hs) 0 st1 d d ∅ ws d ltac:(lia) Q1) as (st2 & E2 & Q2);
    [rewrite size_empty; lia|right; rewrite size_empty; lia|intros i _; split; [apply not_elem_of_empty|done]|].
  simpl in E2, Q2. rewrite drop_0 in Q2.
  rewrite (bind_ret_eval _ _ _ tt (MkLst l1 st2))
    by (unfold install_trans, bind, get; cbn [lg]; by rewrite Hn, Nat2Z.id).
  set (l2 := set_lh 0 (lh_block l1) l1). rewrite (bind_ret_eval _ _ _ tt (MkLst l2 st2)) by done.
  replace (∅ ∖ list_to_set hs) with (∅ : gset Z) in Q2 by set_solver.
  destruct (write_head_run l2 [] sz st2 _ _ _ _ ltac:(by split_and!) Hd1 (trans_nil _ _ _ Ht1) Q2) as (st3 & h0 & E3 & Hh0 & Hho0 & Q3);
    [rewrite size_empty; lia|apply not_elem_of_empty|].
  eexists st3, l2, h0, _. split_and!; [exact E3|done..|]. cbv zeta. rewrite apply_writes_app.
  change (lg_start l2) with (lg_start l1) in Q3. rewrite Hst1 in Q3. rewrite <- app_assoc in Q3. exact Q3.
Qed.
End log_proofs.

(** * Crashes *)

Lemma take_commit_cases {A} (w1 : list A) x w3 y j :
  (∃ i, take j (w1 ++ x :: w3 ++ [y]) = take i w1)
  ∨ (∃ i, take j (w1 ++ x :: w3 ++ [y]) = w1 ++ x :: take i w3)
  ∨ take j (w1 ++ x :: w3 ++ [y]) = w1 ++ x :: w3 ++ [y].
Proof.
  destruct (decide (j ≤ length w1)%nat) as [H1|H1]; [left; exists j; by rewrite take_app_le|right].
  rewrite (take_app_ge w1) by lia. destruct (j - length w1)%nat as [|i] eqn:E; [lia|]. cbn [take].
  destruct (decide (i ≤ length w3)%nat) as [H3|H3]; [left; exists i; by rewrite take_app_le|right].
  rewrite take_ge; [done|]. rewrite length_app. simpl. lia.
Qed.

Lemma log_home start size ks f k t :
  home start size k → 0 ≤ t → t + Z.of_nat (length ks) < size → k ∉ (log_writes start t ks f).*1.
Proof. intros [_ Hk] Ht Hl Hn%log_writes_fst. lia. Qed.

Lemma elem_of_take_fst {A B} (w : list (A * B)) i k : k ∈ (take i w).*1 → k ∈ w.*1.
Proof. rewrite <- firstn_map. intros H. rewrite <- (take_drop i w.*1). apply elem_of_app. by left. Qed.

Section crash.
Context (start sz : Z) (bs : list Z) (disk view : Z → list Z) (h h0 : list Z).
Context (Ht : trans_ok start sz bs) (Hd0 : head_of (disk start) = []) (Hh : head_of h = bs) (Hh0 : head_of h0 = []).
Context (Hclean : ∀ k, home start sz k → k ∉ bs → view k = disk k).

#[local] Definition w_log := log_writes start 0 bs view.
#[local] Definition w_home := (λ k, (k, view k)) <$> bs.

Lemma w_home_fst : w_home.*1 = bs.
Proof. unfold w_home. rewrite <- list_fmap_compose. exact (list_fmap_id bs). Qed.

(** Before the header is written the old contents stand. *)
Lemma crash_before i :
  let d := apply_writes (take i w_log) disk in
  d start = disk start ∧ ∀ k, home start sz k → logical start d k = disk k.
Proof.
  intros d. destruct Ht as [T1 T2 T3 T4 T5 T6].
  assert (Hs : d start = disk start).
  { apply apply_writes_other. intros Hn%elem_of_take_fst%log_writes_fst. lia. }
  split; [done|]. intros k Hk. unfold logical. rewrite Hs, Hd0. simpl. apply apply_writes_other.
  intros Hn%elem_of_take_fst. by apply (log_home start sz bs view k 0).
Qed.

(** From then on the new contents do. *)
Lemma crash_after i :
  let d := apply_writes (w_log ++ (start, h) :: take i w_home) disk in
  d start = h ∧ ∀ k, home start sz k → logical start d k = view k.
Proof.
  intros d. pose proof Ht as [T1 T2 T3 T4 T5 T6]. rewrite Forall_forall in T4.
  unfold d. rewrite apply_writes_app. cbn [apply_writes foldl fst snd].
  fold (apply_writes (take i w_home) (upd_blk start h (apply_writes w_log disk))).
  assert (Hhome : ∀ n, start ≤ n < start + sz → n ∉ (take i w_home).*1).
  { intros n Hn Hin%elem_of_take_fst. rewrite w_home_fst in Hin. destruct (T4 n Hin). lia. }
  assert (Hs : apply_writes (take i w_home) (upd_blk start h (apply_writes w_log disk)) start = h).
  { rewrite apply_writes_other by (apply Hhome; lia). apply upd_blk_eq. }
  split; [done|]. intros k Hk. unfold logical. rewrite Hs, Hh. destruct (decide (k ∈ bs)) as [Hin|Hin].
  - apply list_elem_of_lookup_1 in Hin as [j Hj]. rewrite (logged_in _ _ _ _ j) by done.
    assert (Hjl : (j < length bs)%nat) by (by eapply lookup_lt_Some).
    rewrite apply_writes_other by (apply Hhome; lia). rewrite upd_blk_ne by lia.
    unfold w_log. by apply log_writes_lookup.
  - rewrite logged_other by done. rewrite apply_writes_other by (intros Hn%elem_of_take_fst; by rewrite w_home_fst in Hn).
    rewrite upd_blk_ne by (destruct Hk; lia). rewrite Hclean by done. apply apply_writes_other.
    by apply (log_home start sz bs view k 0).
Qed.

(** And when the commit is finished they are in place. *)
Lemma crash_done :
  let d := apply_writes (w_log ++ (start, h) :: w_home ++ [(start, h0)]) disk in
  d start = h0 ∧ ∀ k, home start sz k → d k = view k.
Proof.
  pose proof Ht as [T1 T2 T3 T4 T5 T6]. rewrite apply_writes_app. cbn [apply_writes foldl fst snd].
  rewrite foldl_app. cbn [foldl fst snd]. fold (apply_writes w_home (upd_blk start h (apply_writes w_log disk))).
  split; [apply upd_blk_eq|]. intros k Hk. rewrite upd_blk_ne by (destruct Hk; lia). destruct (decide (k ∈ bs)) as [Hin|Hin].
  - apply apply_writes_in; [by rewrite w_home_fst|]. apply list_elem_of_fmap. eauto.
  - rewrite apply_writes_other by (by rewrite w_home_fst). rewrite upd_blk_ne by (destruct Hk; lia).
    rewrite Hclean by done. apply apply_writes_other. by apply (log_home start sz bs view k 0).
Qed.

Lemma crash_cases j :
  let d := apply_writes (take j (w_log ++ (start, h) :: w_home ++ [(start, h0)])) disk in
  (d start = disk start ∧ ∀ k, home start sz k → logical start d k = disk k)
  ∨ ((d start = h ∨ d start = h0) ∧ ∀ k, home start sz k → logical start d k = view k).
Proof.
  cbv zeta. destruct (take_commit_cases w_log (start, h) w_home (start, h0) j) as [[i ->]|[[i ->]| ->]].
  - left. apply crash_before.
  - right. destruct (crash_after i) as [H1 H2]. split; [by left|done].
  - right. destruct crash_done as [H1 H2]. split; [by right|]. intros k Hk. unfold logical. rewrite H1, Hh0. simpl. auto.
Qed.
End crash.

Lemma install_writes_in start f hs k i : ∀ t,
  hs !! i = Some k → (k, f (start + t + Z.of_nat i + 1)) ∈ install_writes start t hs f.
Proof.
  revert i. induction hs as [|j hs IH]; intros i t Hi; [done|]. destruct i as [|i]; cbn [install_writes]; apply elem_of_cons.
  - injection Hi as ->. left. f_equal. f_equal. lia.
  - right. replace (start + t + Z.of_nat (S i) + 1) with (start + (t + 1) + Z.of_nat i + 1) by lia. by apply IH.
Qed.

Section recovery.
Context (start sz : Z) (d : Z → list Z) (h0 : list Z).
Context (Ht : trans_ok start sz (head_of (d start))) (Hh0 : head_of h0 = []).

#[local] Definition w_rec := install_writes start 0 (head_of (d start)) d.

Lemma rec_log_blocks i n : start ≤ n < start + sz → apply_writes (take i w_rec) d n = d n.
Proof.
  intros Hn. apply apply_writes_other. intros Hin%elem_of_take_fst. unfold w_rec in Hin. rewrite install_writes_fst in Hin.
  pose proof (to_home _ _ _ Ht) as Hh. rewrite Forall_forall in Hh. destruct (Hh n Hin). lia.
Qed.

(** A crash in the middle of recovery changes nothing. *)
Lemma rec_crash i :
  let d' := apply_writes (take i w_rec) d in
  d' start = d start ∧ ∀ k, home start sz k → logical start d' k = logical start d k.
Proof.
  intros d'. pose proof Ht as [T1 T2 T3 T4 T5 T6]. assert (Hs : d' start = d start) by (apply rec_log_blocks; lia).
  split; [done|]. intros k Hk. unfold logical. rewrite Hs. destruct (decide (k ∈ head_of (d start))) as [Hin|Hin].
  - apply list_elem_of_lookup_1 in Hin as [j Hj]. rewrite !(logged_in _ _ _ _ j) by done.
    apply rec_log_blocks. apply lookup_lt_Some in Hj. lia.
  - rewrite !logged_other by done. apply apply_writes_other. intros Hn%elem_of_take_fst.
    unfold w_rec in Hn. by rewrite install_writes_fst in Hn.
Qed.

Lemma rec_done :
  let d' := apply_writes (w_rec ++ [(start, h0)]) d in
  d' start = h0 ∧ ∀ k, home start sz k → d' k = logical start d k.
Proof.
  pose proof Ht as [T1 T2 T3 T4 T5 T6]. rewrite apply_writes_app. cbn [apply_writes foldl fst snd].
  fold (apply_writes w_rec d). split; [apply upd_blk_eq|]. intros k Hk. rewrite upd_blk_ne by (destruct Hk; lia).
  unfold logical. destruct (decide (k ∈ head_of (d start))) as [Hin|Hin].
  - apply list_elem_of_lookup_1 in Hin as [j Hj]. rewrite (logged_in _ _ _ _ j) by done.
    unfold w_rec. apply apply_writes_in; [by rewrite install_writes_fst|]. by apply install_writes_in.
  - rewrite logged_other by done. apply apply_writes_other. unfold w_rec. by rewrite install_writes_fst.
Qed.

Lemma rec_cases i :
  let d' := apply_writes (take i (w_rec ++ [(start, h0)])) d in
  (d' start = d start ∨ d' start = h0) ∧ ∀ k, home start sz k → logical start d' k = logical start d k.
Proof.
  cbv zeta. destruct (decide (i ≤ length w_rec)%nat) as [Hi|Hi].
  - rewrite take_app_le by done. destruct (rec_crash i) as [H1 H2]. split; [by left|done].
  - rewrite take_ge by (rewrite length_app; simpl; lia). destruct rec_done as [H1 H2]. split; [by right|].
    intros k Hk. rewrite <- (H2 k Hk). unfold logical. rewrite H1, Hh0. done.
Qed.
End recovery.

(** * Properties *)

(** C3. Transactions are atomic across crashes.  Commit a transaction whose
    blocks [bs] are dirty in the cache, and lose power after any number [j]
    of the disk writes that commit makes.  When the system boots again and
    recovers from its log, every block outside the log has the contents from
    before the transaction, or every one has the new contents, and the log
    is empty.  Commit itself returns, with the new contents on disk. *)
Theorem commit_crash_atomic {St} `{!BufOps St} dev rep `{!BufLaws St dev rep} l bs sz st disk view ws :
  lh_is l bs → bs ≠ [] → lg_dev l = dev → trans_ok (lg_start l) sz bs →
  quiet rep st disk view (list_to_set bs) ws → head_of (disk (lg_start l)) = [] → head_ok (disk (lg_start l)) →
  ∃ st' view' w, commit (MkLst l st) = Ret (tt, MkLst (set_lh 0 (lh_block l) l) st')
    ∧ quiet rep st' (apply_writes w disk) view' ∅ (ws ++ w)
    ∧ (∀ k, home (lg_start l) sz k → apply_writes w disk k = view k)
    ∧ ∀ j st2 l2 ws2,
        let d := apply_writes (take j w) disk in
        quiet rep st2 d d ∅ ws2 → lg_dev l2 = dev → lg_start l2 = lg_start l → length (lh_block l2) = 30%nat →
        ∃ st3 l3 d3 view3 ws3, recover_from_log (MkLst l2 st2) = Ret (tt, MkLst l3 st3)
          ∧ quiet rep st3 d3 view3 ∅ ws3 ∧ head_of (d3 (lg_start l)) = []
          ∧ ((∀ k, home (lg_start l) sz k → d3 k = disk k) ∨ (∀ k, home (lg_start l) sz k → d3 k = view k)).
Proof.
  intros Hl Hne Hdev Ht Hq Hd0 Hok0.
  destruct (commit_run dev rep l bs sz st disk view ws) as (st' & h & h0 & view' & E & Hh & Hho & Hh0 & Hho0 & Q); [done..|].
  cbv zeta in Q. set (w := log_writes _ _ _ _ ++ _) in Q.
  assert (Hclean : ∀ k, home (lg_start l) sz k → k ∉ bs → view k = disk k).
  { intros k _ Hk. apply (l_clean st _ k Hq); [simpl; by rewrite elem_of_list_to_set|by intros b]. }
  exists st', view', w. split_and!; [done|done|by apply (crash_done _ sz _ _ _ _ h0 Ht Hclean)|].
  intros j st2 l2 ws2 d Q2 Hd2 Hs2 Hlb2.
  assert (Hc : (d (lg_start l) = disk (lg_start l) ∧ ∀ k, home (lg_start l) sz k → logical (lg_start l) d k = disk k)
    ∨ ((d (lg_start l) = h ∨ d (lg_start l) = h0) ∧ ∀ k, home (lg_start l) sz k → logical (lg_start l) d k = view k))
    by exact (crash_cases _ sz bs disk view h h0 Ht Hd0 Hh Hh0 Hclean j).
  assert (Hhead : head_ok (d (lg_start l)) ∧ trans_ok (lg_start l) sz (head_of (d (lg_start l)))).
  { destruct Hc as [[-> _]|[[-> | ->] _]]; rewrite ?Hd0, ?Hh, ?Hh0; eauto using trans_nil. }
  destruct Hhead as [Hokd Htd].
  destruct (recover_run dev rep l2 sz st2 d ws2) as (st3 & l3 & h3 & view3 & E3 & Hh3 & _ & Q3); [done|done|done|by rewrite Hs2|by rewrite Hs2|].
  rewrite Hs2 in Q3. destruct (rec_done (lg_start l) sz d h3 Htd) as [R1 R2].
  eexists st3, l3, (apply_writes (w_rec (lg_start l) d ++ [(lg_start l, h3)]) d), view3, _. split_and!; [done|exact Q3|by rewrite R1|].
  destruct Hc as [[_ Hc]|[_ Hc]]; [left|right]; intros k Hk; rewrite <- (Hc k Hk); by apply R2.
Qed.

(** C29. Recovery can itself be interrupted.  Whatever number of its disk
    writes were made before a crash, the contents that the log stands for
    are the same as before; when it finishes they are in place and the log
    is empty. *)
Theorem recovery_idempotent {St} `{!BufOps St} dev rep `{!BufLaws St dev rep} l sz st d ws :
  lg_dev l = dev → length (lh_block l) = 30%nat → quiet rep st d d ∅ ws → head_ok (d (lg_start l)) →
  trans_ok (lg_start l) sz (head_of (d (lg_start l))) →
  ∃ st' l' view' w, recover_from_log (MkLst l st) = Ret (tt, MkLst l' st')
    ∧ quiet rep st' (apply_writes w d) view' ∅ (ws ++ w)
    ∧ (∀ k, home (lg_start l) sz k → apply_writes w d k = logical (lg_start l) d k)
    ∧ head_of (apply_writes w d (lg_start l)) = []
    ∧ ∀ j, let d' := apply_writes (take j w) d in
        head_ok (d' (lg_start l)) ∧ trans_ok (lg_start l) sz (head_of (d' (lg_start l)))
        ∧ ∀ k, home (lg_start l) sz k → logical (lg_start l) d' k = logical (lg_start l) d k.
Proof.
  intros Hdev Hlb Hq Hok Ht.
  destruct (recover_run dev rep l sz st d ws) as (st' & l' & h0 & view' & E & Hh0 & Hho0 & Q); [done..|].
  destruct (rec_done (lg_start l) sz d h0 Ht) as [R1 R2].
  exists st', l', view', (w_rec (lg_start l) d ++ [(lg_start l, h0)]).
  split_and!; [done|exact Q|exact R2|by rewrite R1|].
  intros j d'. destruct (rec_cases (lg_start l) sz d h0 Ht Hh0 j) as [Hs Hl].
  change (d' (lg_start l) = d (lg_start l) ∨ d' (lg_start l) = h0) in Hs.
  split_and!; [by destruct Hs as [-> | ->]|destruct Hs as [-> | ->]; rewrite ?Hh0; eauto using trans_nil|done].
Qed.

(** One dirty block, 40, in the cache of bio.c. *)
Definition ex_disk : Z → list Z := λ _, ex_block 0.
Definition ex_view : Z → list Z := upd_blk 40 (ex_block 5) ex_disk.
Definition ex_log (n : Z) : logst := MkLog 2 30 0 1 ROOTDEV n (40 :: replicate 29 0).

#[local] Instance ex_cache : BufOps bst := bio_ops ex_status 1.
#[local] Instance ex_cache_laws : BufLaws bst ROOTDEV bio_rep := bio_laws ex_status 1 (le_n 1).

Lemma ex_boot d : (∀ k, length (d k) = 512%nat) → ∃ st, quiet bio_rep st d d ∅ [].
Proof.
  intros Hd. destruct (binit_run (set_disks (λ _, d) ex_fresh)) as (st & _ & H); try done; [|by exists st].
  apply Forall_replicate. by split_and!.
Qed.

Lemma ex_dirty : ∃ st, quiet bio_rep st ex_disk ex_view (list_to_set [40]) [].
Proof.
  destruct (ex_boot ex_disk) as [s0 R0]; [done|].
  destruct (l_bread s0 _ 40 R0) as (b & s1 & _ & _ & R1);
    [unfold FSSIZE; lia|by intros b|right; unfold a_busy; simpl; rewrite map_img_empty_L, (union_empty_l_L ∅), size_empty;
     change (Z.to_nat NBUF) with 30%nat; lia|].
  destruct (l_set_data s1 _ b 40 (ex_block 5) R1) as (s2 & _ & R2); [by simpl; rewrite lookup_insert_eq|done|].
  destruct (l_set_dirty s2 _ b 40 R2) as (s3 & _ & R3); [by simpl; rewrite lookup_insert_eq|].
  destruct (l_brelse s3 _ b 40 R3) as (s4 & _ & R4); [by simpl; rewrite lookup_insert_eq|left; simpl; set_solver|].
  exists s4. unfold quiet. unfold a_release, a_dirty, a_set, a_hold in R4. cbn [a_disk a_view a_pin a_held a_writes] in R4.
  rewrite delete_insert_eq, delete_empty in R4. replace (∅ ∪ {[40]}) with (list_to_set [40] : gset Z) in R4 by set_solver. done.
Qed.

Lemma ex_trans : trans_ok 2 30 [40].
Proof. split; unfold FSSIZE; simpl; try lia; [apply NoDup_singleton|]. apply Forall_singleton. split; unfold FSSIZE; lia. Qed.

Lemma commit_crash_atomic_witness :
  ∃ st st' w, commit (MkLst (ex_log 1) st) = Ret (tt, MkLst (ex_log 0) st')
    ∧ (∀ k, home 2 30 k → apply_writes w ex_disk k = ex_view k).
Proof.
  destruct ex_dirty as [st Q]. exists st.
  destruct (commit_crash_atomic ROOTDEV bio_rep (ex_log 1) [40] 30 st ex_disk ex_view []) as (st' & view' & w & E & _ & H & _).
  - by split_and!.
  - done.
  - done.
  - apply ex_trans.
  - exact Q.
  - reflexivity.
  - reflexivity.
  - exists st', w. split; [exact E|exact H].
Defined.

(** A disk whose log holds a committed transaction: block 40 is to become
    what block 3 is. *)
Definition ex_crashed : Z → list Z :=
  upd_blk 2 (put32 4 40 (put32 0 1 (ex_block 0))) (upd_blk 3 (ex_block 5) ex_disk).

Lemma recovery_idempotent_witness :
  ∃ st st' l' w, recover_from_log (MkLst (ex_log 0) st) = Ret (tt, MkLst l' st')
    ∧ apply_writes w ex_crashed 40 = ex_block 5.
Proof.
  destruct (ex_boot ex_crashed) as [st Q].
  { intros k. unfold ex_crashed, upd_blk. repeat case_decide; rewrite ?put32_length; done. }
  exists st. assert (Hh : head_of (ex_crashed 2) = [40]) by reflexivity.
  destruct (recovery_idempotent ROOTDEV bio_rep (ex_log 0) 30 st ex_crashed []) as (st' & l' & view' & w & E & _ & H & _).
  - done.
  - done.
  - exact Q.
  - reflexivity.
  - change (lg_start (ex_log 0)) with 2. rewrite Hh. apply ex_trans.
  - exists st', l', w. split; [exact E|]. rewrite (H 40) by (split; unfold FSSIZE; simpl; lia).
    unfold logical. change (lg_start (ex_log 0)) with 2. rewrite Hh. reflexivity.
Defined.
