(* ===== verification/LogSpace.v ===== *)
(** Admission to the log: begin_op, log_write and end_op of any number of
    system calls that run at the same time.

    The state is struct log and, for every system call between begin_op and
    end_op, how many blocks it has written so far.  Each step is the body of
    one function under log.lock; commit runs without the lock, between two
    steps. *)

From S2P Require Import Prelude Params Bytes BufCache Log.

Record lmach : Type := MkLmach {
  lm_log : logst;
  lm_ops : gmap nat nat              (* call -> blocks written *)
}.

(** end_op up to the point where it commits or returns. *)
Definition end_op_log (l : logst) : option logst :=
  let l := set_counts (lg_outstanding l - 1) (lg_committing l) l in
  if negb (lg_committing l =? 0) then None
  else if lg_outstanding l =? 0 then Some (set_counts (lg_outstanding l) 1 l)
  else Some l.

(** A call writes at most MAXOPBLOCKS blocks.  [ls_panic] is a call of panic
    by log_write or end_op. *)
Inductive lgstep : lmach → option lmach → Prop :=
| ls_begin i l ops l' :
    ops !! i = None → begin_op_try l = Some l' → lgstep (MkLmach l ops) (Some (MkLmach l' (<[i := 0%nat]> ops)))
| ls_write i c k l ops l' :
    ops !! i = Some c → (c < Z.to_nat MAXOPBLOCKS)%nat → log_full l = false → 1 ≤ lg_outstanding l →
    log_append k l = Some l' → lgstep (MkLmach l ops) (Some (MkLmach l' (<[i := S c]> ops)))
| ls_write_panic i c l ops :
    ops !! i = Some c → (c < Z.to_nat MAXOPBLOCKS)%nat → log_full l = true ∨ lg_outstanding l < 1 →
    lgstep (MkLmach l ops) None
| ls_end i c l ops l' :
    ops !! i = Some c → end_op_log l = Some l' → lgstep (MkLmach l ops) (Some (MkLmach l' (delete i ops)))
| ls_end_panic i c l ops :
    ops !! i = Some c → end_op_log l = None → lgstep (MkLmach l ops) None
| ls_committed l ops :                     (* commit has returned *)
    lg_committing l = 1 →
    lgstep (MkLmach l ops) (Some (MkLmach (set_counts (lg_outstanding l) 0 (set_lh 0 (lh_block l) l)) ops)).

Inductive lgreach (size : Z) : lmach → Prop :=
| lr_init start dev blocks :
    length blocks = 30%nat → lgreach size (MkLmach (MkLog start size 0 0 dev 0 blocks) ∅)
| lr_step m m' : lgreach size m → lgstep m (Some m') → lgreach size m'.

(** The blocks that the active calls may still write. *)
Definition credit (ops : gmap nat nat) : Z :=
  map_fold (λ _ c acc, MAXOPBLOCKS - Z.of_nat c + acc) 0 ops.

Lemma credit_insert ops i c : ops !! i = None → credit (<[i := c]> ops) = MAXOPBLOCKS - Z.of_nat c + credit ops.
Proof. intros H. unfold credit. rewrite map_fold_insert_L; [done|intros; lia|done]. Qed.

Lemma credit_delete ops i c : ops !! i = Some c → credit ops = MAXOPBLOCKS - Z.of_nat c + credit (delete i ops).
Proof. intros H. rewrite <- (insert_delete_id ops i c H) at 1. apply credit_insert. apply lookup_delete_eq. Qed.

Lemma credit_update ops i c c' :
  ops !! i = Some c → credit (<[i := c']> ops) = credit ops + Z.of_nat c - Z.of_nat c'.
Proof.
  intros H. rewrite <- (insert_delete_eq ops i c'), credit_insert by apply lookup_delete_eq.
  rewrite (credit_delete ops i c H). lia.
Qed.

Record lm_inv (sz : Z) (m : lmach) : Prop := {
  li_size : lg_size (lm_log m) = sz;
  li_blocks : length (lh_block (lm_log m)) = 30%nat;
  li_n : 0 ≤ lh_n (lm_log m);
  li_nodup : NoDup (take (Z.to_nat (lh_n (lm_log m))) (lh_block (lm_log m)));
  li_count : lg_outstanding (lm_log m) = Z.of_nat (size (lm_ops m));
  li_commit : lg_committing (lm_log m) = 0 ∨ (lg_committing (lm_log m) = 1 ∧ lm_ops m = ∅);
  li_budget : map_Forall (λ _ c, (c ≤ Z.to_nat MAXOPBLOCKS)%nat) (lm_ops m);
  li_space : lh_n (lm_log m) + credit (lm_ops m) ≤ LOGSIZE
}.

Lemma credit_bounds ops :
  map_Forall (λ _ c, (c ≤ Z.to_nat MAXOPBLOCKS)%nat) ops → 0 ≤ credit ops ≤ MAXOPBLOCKS * Z.of_nat (size ops).
Proof.
  unfold MAXOPBLOCKS. induction ops as [|i c ops Hi IH] using map_ind; intros Hf; [by rewrite map_size_empty|].
  apply map_Forall_insert in Hf as [Hc Hf]; [|done]. rewrite credit_insert by done. rewrite map_size_insert_None by done.
  specialize (IH Hf). unfold MAXOPBLOCKS in *. lia.
Qed.

(** The entry that log_write uses: where [k] is, or the first free one. *)
Lemma find_block_run k blocks n : ∀ i,
  let j := find_block k blocks n i in
  (i ≤ j ≤ i + n)%nat ∧ ((j < i + n)%nat → blocks !! j = Some k)
  ∧ ∀ m, (i ≤ m < j)%nat → blocks !! m ≠ Some k.
Proof.
  induction n as [|n IH]; intros i; cbn [find_block].
  - split_and!; [lia|lia|lia|]. intros m Hm. lia.
  - destruct (decide (blocks !! i = Some k)) as [E|E].
    + rewrite bool_decide_eq_true_2 by done. split_and!; [lia|lia|done|]. intros m Hm. lia.
    + rewrite bool_decide_eq_false_2 by done. destruct (IH (S i)) as ([H1 H2] & H3 & H4).
      split_and!; [lia|lia|intros H; apply H3; lia|]. intros m Hm. destruct (decide (m = i)) as [->|]; [done|]. apply H4. lia.
Qed.

Lemma log_append_run k l :
  0 ≤ lh_n l < 30 → length (lh_block l) = 30%nat → NoDup (take (Z.to_nat (lh_n l)) (lh_block l)) →
  ∃ n blocks, log_append k l = Some (set_lh n blocks l) ∧ lh_n l ≤ n ≤ lh_n l + 1 ∧ length blocks = 30%nat
    ∧ NoDup (take (Z.to_nat n) blocks) ∧ k ∈ take (Z.to_nat n) blocks.
Proof.
  intros Hn Hlen Hnd. unfold log_append. set (N := Z.to_nat (lh_n l)) in *.
  destruct (find_block_run k (lh_block l) N 0) as ([_ Hj] & Hin & Hno). set (j := find_block k (lh_block l) N 0) in *.
  destruct (Nat.ltb_spec j (length (lh_block l))) as [Hlt|]; [|lia].
  eexists _, _. split_and!; [reflexivity|..].
  - destruct (Z.eqb_spec (Z.of_nat j) (lh_n l)); lia.
  - destruct (Z.eqb_spec (Z.of_nat j) (lh_n l)); lia.
  - by rewrite length_insert.
  - destruct (Z.eqb_spec (Z.of_nat j) (lh_n l)) as [Ej|Ej].
    + replace (Z.to_nat (lh_n l + 1)) with (S j) by lia. rewrite (take_S_r _ _ k) by (by apply list_lookup_insert_eq).
      rewrite take_insert_ge by lia. replace j with N by lia. apply NoDup_app. split_and!; [done| |apply NoDup_singleton].
      intros m Hm ->%list_elem_of_singleton. apply list_elem_of_lookup_1 in Hm as [i Hi].
      rewrite lookup_take in Hi. case_decide; [|discriminate Hi]. apply (Hno i); [lia|done].
    + rewrite list_insert_id; [done|]. apply Hin. lia.
  - apply list_elem_of_lookup_2 with j. rewrite lookup_take. rewrite decide_True; [by apply list_lookup_insert_eq|].
    destruct (Z.eqb_spec (Z.of_nat j) (lh_n l)); lia.
Qed.

Lemma lm_inv_step sz m m' : lm_inv sz m → lgstep m (Some m') → lm_inv sz m'.
Proof.
  intros [I1 I2 I3 I4 I5 I6 I7 I8] Hst.
  inversion Hst as [i l ops l' Hi Hb|i c k l ops l' Hi Hc Hf Ho Ha| |i c l ops l' Hi He| |l ops Hcm]; subst; simpl in *.
  - unfold begin_op_try in Hb. destruct (Z.eqb_spec (lg_committing l) 0) as [Hc0|]; [|discriminate Hb]. simpl in Hb.
    destruct (Z.ltb_spec LOGSIZE (lh_n l + (lg_outstanding l + 1) * MAXOPBLOCKS)) as [|Hroom]; [discriminate Hb|].
    injection Hb as <-. pose proof (credit_bounds ops I7). split; simpl; try done.
    + rewrite map_size_insert_None by done. lia.
    + by left.
    + apply map_Forall_insert_2; [lia|done].
    + rewrite credit_insert by done. unfold LOGSIZE, MAXOPBLOCKS in *. lia.
  - assert (Hn : lh_n l < 30) by (unfold log_full, LOGSIZE, MAXOPBLOCKS in Hf; destruct (Z.leb_spec (10 * 3) (lh_n l)); [discriminate Hf|lia]).
    destruct (log_append_run k l) as (n & blocks & E & Hn' & Hlen & Hnd & _); [lia|done|done|].
    rewrite E in Ha. injection Ha as <-. split; simpl; try done.
    + lia.
    + by rewrite map_size_insert_Some by by eexists.
    + destruct I6 as [?|[_ ->]]; [by left|done].
    + apply map_Forall_insert_2; [lia|done].
    + rewrite (credit_update ops i c) by done. lia.
  - unfold end_op_log in He. simpl in He. destruct (Z.eqb_spec (lg_committing l) 0) as [Hc0|]; [|discriminate He]. simpl in He.
    assert (Hs : Z.of_nat (size ops) = Z.of_nat (size (delete i ops)) + 1).
    { rewrite map_size_delete_Some by by eexists. assert (size ops ≠ 0%nat); [|lia]. intros ->%map_size_empty_inv. done. }
    pose proof (credit_delete ops i c Hi) as Hcd. pose proof (map_Forall_delete _ ops i I7) as Hfd.
    pose proof (I7 i c Hi) as Hc. simpl in Hc. pose proof (credit_bounds _ Hfd). unfold MAXOPBLOCKS in *.
    destruct (Z.eqb_spec (lg_outstanding l - 1) 0) as [E0|E0]; injection He as <-; split; simpl; try done; try lia.
    + right. split; [done|]. apply map_size_empty_inv. lia.
  - split; simpl; try done.
    + constructor.
    + by left.
    + destruct I6 as [?|[_ ->]]; [congruence|]. unfold credit, LOGSIZE. rewrite map_fold_empty. unfold MAXOPBLOCKS. lia.
Qed.

Lemma lm_inv_reachable sz m : lgreach sz m → lm_inv sz m.
Proof.
  induction 1 as [start dev blocks Hb|m m' _ IH Hst]; [|by eapply lm_inv_step].
  split; simpl; try done; [rewrite take_0; constructor|by left].
Qed.

(** * Properties *)

(** The log never overflows: with at least 31 log blocks on disk, however
    system calls that write at most MAXOPBLOCKS blocks each are interleaved,
    no log_write or end_op panics, at most LOGSIZE distinct blocks are ever
    logged, and a commit starts only when no call is active, so a
    transaction consists of whole system calls. *)
Theorem log_admission sz m :
  31 ≤ sz → lgreach sz m →
  ¬ lgstep m None ∧ lh_n (lm_log m) ≤ LOGSIZE
  ∧ NoDup (take (Z.to_nat (lh_n (lm_log m))) (lh_block (lm_log m)))
  ∧ (lg_committing (lm_log m) = 1 → lm_ops m = ∅).
Proof.
  intros Hsz [I1 I2 I3 I4 I5 I6 I7 I8]%lm_inv_reachable. pose proof (credit_bounds _ I7) as [Hcb _].
  split_and!; [|lia|done|intros E; destruct I6 as [?|[_ ?]]; [congruence|done]].
  intros Hst. inversion Hst as [| |i c l ops Hi Hc Hp| |i c l ops Hi He|]; subst; simpl in *.
  - pose proof (credit_delete ops i c Hi) as Hcd. pose proof (credit_bounds _ (map_Forall_delete _ ops i I7)).
    assert (size ops ≠ 0%nat) by (intros ->%map_size_empty_inv; done).
    destruct Hp as [Hp|Hp]; [|lia]. unfold log_full, LOGSIZE, MAXOPBLOCKS in *.
    destruct (Z.leb_spec (10 * 3) (lh_n l)); [lia|]. destruct (Z.leb_spec (lg_size l - 1) (lh_n l)); [lia|discriminate Hp].
  - unfold end_op_log in He. simpl in He. destruct I6 as [E|[E ->]]; [|done]. rewrite E in He. simpl in He.
    by destruct (lg_outstanding l - 1 =? 0).
Qed.

(** One call that has written block 40. *)
Definition ex_log0 (sz : Z) : logst := MkLog 2 sz 0 0 1 0 (replicate 30 0).

Lemma ex_one_op : lgreach 31 (MkLmach (MkLog 2 31 1 0 1 1 (40 :: replicate 29 0)) (<[5%nat := 1%nat]> (<[5%nat := 0%nat]> ∅))).
Proof.
  pose proof (lr_init 31 2 1 (replicate 30 0) eq_refl) as R0.
  pose proof (λ H G, lr_step 31 _ _ R0 (ls_begin 5 _ ∅ (MkLog 2 31 1 0 1 0 (replicate 30 0)) H G)) as R1.
  specialize (R1 eq_refl eq_refl).
  refine (lr_step 31 _ _ R1 (ls_write 5 0 40 _ _ _ _ _ _ _ _)); [done|vm_compute; lia|done|done|reflexivity].
Qed.

Lemma log_admission_witness :
  let m := MkLmach (MkLog 2 31 1 0 1 1 (40 :: replicate 29 0)) (<[5%nat := 1%nat]> (<[5%nat := 0%nat]> ∅)) in
  ¬ lgstep m None ∧ lh_n (lm_log m) ≤ LOGSIZE
  ∧ NoDup (take (Z.to_nat (lh_n (lm_log m))) (lh_block (lm_log m)))
  ∧ (lg_committing (lm_log m) = 1 → lm_ops m = ∅).
Proof. apply (log_admission 31); [lia|apply ex_one_op]. Defined.

(** With the log of 30 blocks that mkfs makes, one of them the header,
    begin_op admits calls for one block too many. *)
Definition do_write (m : lmach) (i : nat) (k : Z) : option lmach :=
  c ← lm_ops m !! i;
  if bool_decide (c < Z.to_nat MAXOPBLOCKS)%nat && negb (log_full (lm_log m)) && (1 <=? lg_outstanding (lm_log m)) then
    l ← log_append k (lm_log m); Some (MkLmach l (<[i := S c]> (lm_ops m)))
  else None.

Fixpoint do_writes (m : lmach) (w : list (nat * Z)) : option lmach :=
  match w with [] => Some m | (i, k) :: w' => m' ← do_write m i k; do_writes m' w' end.

Lemma do_writes_reach sz w : ∀ m m', lgreach sz m → do_writes m w = Some m' → lgreach sz m'.
Proof.
  induction w as [|[i k] w IH]; intros m m' Hm H; simpl in H; [by injection H as <-|].
  destruct (do_write m i k) as [m1|] eqn:E; [|discriminate H]. apply (IH m1); [|done]. clear H IH.
  unfold do_write in E. destruct (lm_ops m !! i) as [c|] eqn:Ei; [|discriminate E]. simpl in E.
  destruct (decide (c < Z.to_nat MAXOPBLOCKS)%nat) as [Hc|Hc];
    [rewrite bool_decide_eq_true_2 in E by done|rewrite bool_decide_eq_false_2 in E by done; discriminate E].
  destruct (log_full (lm_log m)) eqn:Ef; [discriminate E|]. simpl in E.
  destruct (Z.leb_spec 1 (lg_outstanding (lm_log m))) as [Ho|]; [|discriminate E].
  destruct (log_append k (lm_log m)) as [l|] eqn:Ea; [|discriminate E]. injection E as <-.
  eapply lr_step; [exact Hm|]. destruct m as [l0 ops]. by eapply ls_write.
Qed.

Definition ex_three_ops : lmach :=
  MkLmach (MkLog 2 30 3 0 1 0 (replicate 30 0)) (<[2%nat := 0%nat]> (<[1%nat := 0%nat]> (<[0%nat := 0%nat]> ∅))).

Lemma ex_three_ops_reach : lgreach 30 ex_three_ops.
Proof.
  pose proof (lr_init 30 2 1 (replicate 30 0) eq_refl) as R0.
  pose proof (λ H G, lr_step 30 _ _ R0 (ls_begin 0 _ ∅ (MkLog 2 30 1 0 1 0 (replicate 30 0)) H G)) as R1.
  specialize (R1 eq_refl eq_refl).
  pose proof (λ H G, lr_step 30 _ _ R1 (ls_begin 1 _ _ (MkLog 2 30 2 0 1 0 (replicate 30 0)) H G)) as R2.
  specialize (R2 eq_refl eq_refl).
  pose proof (λ H G, lr_step 30 _ _ R2 (ls_begin 2 _ _ (MkLog 2 30 3 0 1 0 (replicate 30 0)) H G)) as R3.
  exact (R3 eq_refl eq_refl).
Qed.

(** The first 29 writes, ten by each call. *)
Definition ex_writes : list (nat * Z) := (λ n : nat, ((n / 10)%nat, 100 + Z.of_nat n)) <$> seq 0 29.
Definition ex_almost_full : lmach := default ex_three_ops (do_writes ex_three_ops ex_writes).

Lemma ex_almost_full_reach : lgreach 30 ex_almost_full.
Proof.
  apply (do_writes_reach 30 ex_writes ex_three_ops); [apply ex_three_ops_reach|].
  unfold ex_almost_full. destruct (do_writes ex_three_ops ex_writes) eqn:E; [done|].
  assert (H : is_Some (do_writes ex_three_ops ex_writes)) by (vm_compute; eexists; reflexivity).
  rewrite E in H. by destruct H.
Qed.

(** With the log that mkfs makes (nlog = LOGSIZE = 30 blocks, the header
    included) begin_op admits too much: three calls that write ten different
    blocks each are let in together, and the thirtieth block makes log_write
    panic, although the call is within its MAXOPBLOCKS. *)
Theorem log_size_off_by_one :
  ∃ m i c, lgreach 30 m ∧ lm_ops m !! i = Some c ∧ (c < Z.to_nat MAXOPBLOCKS)%nat
    ∧ log_full (lm_log m) = true ∧ lgstep m None.
Proof.
  exists ex_almost_full, 2%nat, 9%nat.
  assert (Hops : lm_ops ex_almost_full !! 2%nat = Some 9%nat) by (vm_compute; reflexivity).
  assert (Hf : log_full (lm_log ex_almost_full) = true) by (vm_compute; reflexivity).
  assert (Hc : (9 < Z.to_nat MAXOPBLOCKS)%nat) by (apply Nat.ltb_lt; reflexivity).
  split_and!; [apply ex_almost_full_reach|exact Hops|exact Hc|exact Hf|].
  assert (E : ex_almost_full = MkLmach (lm_log ex_almost_full) (lm_ops ex_almost_full)) by (by destruct ex_almost_full).
  rewrite E. apply (ls_write_panic 2 9); [exact Hops|exact Hc|by left].
Qed.
