(* ===== verification/Tx.v ===== *)
(** What the log promises to the file system: block operations inside a
    transaction, and begin_op and end_op around them, as classes with laws
    over the abstract cache of [BufCache], and the proof that log.c over any
    correct buffer cache keeps them.

    In a transaction the dirty blocks [a_pin] are the logged ones, and a
    block may be logged while fewer than [tx_cap] others are.  The file
    system uses the blocks behind the log, from [LOGEND] on. *)

From S2P Require Import Prelude Params Bytes BufCache Log LogProps LogSpace.

Definition tx_cap : nat := 29.

(** mkfs.c: the boot block, the superblock, and LOGSIZE blocks of log. *)
Definition LOGEND : Z := 2 + LOGSIZE.

Class TxOps (X : Type) : Type := {
  t_bread : Z → Z → M X nat;
  t_brelse : nat → M X unit;
  t_data : nat → M X (list Z);
  t_set_data : nat → list Z → M X unit;
  t_log_write : nat → M X unit
}.

(** Reading, with or without a transaction. *)
Class RdLaws (X : Type) `{!TxOps X} (dev : Z) (rep : X → acache → Prop) : Prop := {
  tl_bread s a k :
    rep s a → LOGEND ≤ k < FSSIZE → (∀ b, a_held a !! b ≠ Some k) → (size (a_busy a) < Z.to_nat NBUF)%nat →
    ∃ b s', t_bread dev k s = Ret (b, s') ∧ a_held a !! b = None ∧ rep s' (a_hold b k a);
  tl_brelse s a b k :
    rep s a → a_held a !! b = Some k → k ∈ a_pin a ∨ a_view a k = a_disk a k →
    ∃ s', t_brelse b s = Ret (tt, s') ∧ rep s' (a_release b a);
  tl_data s a b k : rep s a → a_held a !! b = Some k → t_data b s = Ret (a_view a k, s);
  tl_length s a k : rep s a → length (a_view a k) = 512%nat
}.

(** Changing blocks inside a transaction. *)
Class TxLaws (X : Type) `{!TxOps X} (dev : Z) (rep : X → acache → Prop) `{!RdLaws X dev rep} : Prop := {
  tl_set_data s a b k v :
    rep s a → a_held a !! b = Some k → length v = 512%nat →
    ∃ s', t_set_data b v s = Ret (tt, s') ∧ rep s' (a_set k v a);
  tl_log_write s a b k :
    rep s a → a_held a !! b = Some k → LOGEND ≤ k < FSSIZE → (size (a_pin a) < tx_cap)%nat →
    ∃ s', t_log_write b s = Ret (tt, s') ∧ rep s' (a_dirty k a)
}.

(** The system calls.  [D] is the disk and [ws] the list of the blocks
    written to it so far.  Outside transactions the state is [idle], inside
    it is [opened]; [recovered] is what recovery makes of a disk after a
    crash. *)
Class TxCtl (X : Type) : Type := {
  t_begin_op : M X unit;
  t_end_op : M X unit
}.

(** A crash during the writes [w] leaves the old blocks or the new ones. *)
Definition crash_safe (recovered : (Z → list Z) → Z → list Z) (D : Z → list Z) (w : list (Z * list Z)) (V V' : Z → list Z) : Prop :=
  ∀ j, let d := apply_writes (take j w) D in
    (∀ k, LOGEND ≤ k < FSSIZE → recovered d k = V k) ∨ (∀ k, LOGEND ≤ k < FSSIZE → recovered d k = V' k).

Class TxCtlLaws (X : Type) `{!TxOps X} `{!TxCtl X} (dev : Z)
    (idle opened : (Z → list Z) → list (Z * list Z) → X → acache → Prop) (recovered : (Z → list Z) → Z → list Z) : Prop := {
  cl_idle D ws :: RdLaws X dev (idle D ws);
  cl_open D ws :: RdLaws X dev (opened D ws);
  cl_tx D ws :: TxLaws X dev (opened D ws);
  cl_recovered D ws s a k : idle D ws s a → LOGEND ≤ k < FSSIZE → recovered D k = a_disk a k;
  cl_begin D ws s a :
    idle D ws s a → a_pin a = ∅ → ∃ s', t_begin_op s = Ret (tt, s') ∧ opened D ws s' a;
  cl_end D ws s a :
    opened D ws s a → a_held a = ∅ → (∀ k, k ∉ a_pin a → a_view a k = a_disk a k) →
    ∃ s' w, t_end_op s = Ret (tt, s') ∧ idle (apply_writes w D) (ws ++ w) s' (MkAcache (a_view a) (a_view a) ∅ ∅ [])
      ∧ crash_safe recovered D w (a_disk a) (a_view a)
}.

(** The disk does not change inside a transaction. *)
Section frame.
Context {X : Type} `{!TxOps X} (dev : Z) (rep : X → acache → Prop) (V0 : Z → list Z).

Definition since (s : X) (a : acache) : Prop := rep s a ∧ ∀ k, a_disk a k = V0 k.

#[export] Instance since_rd `{!RdLaws X dev rep} : RdLaws X dev since.
Proof.
  split.
  - intros s a k [R D] Hk Hh Hb. destruct (tl_bread s a k R Hk Hh Hb) as (b & s' & E & Hn & R'). by exists b, s'.
  - intros s a b k [R D] Hh Hc. destruct (tl_brelse s a b k R Hh Hc) as (s' & E & R'). by exists s'.
  - intros s a b k [R D]. by apply tl_data.
  - intros s a k [R D]. by eapply tl_length.
Qed.

#[export] Instance since_tx `{!RdLaws X dev rep} `{!TxLaws X dev rep} : TxLaws X dev since.
Proof.
  split.
  - intros s a b k v [R D] Hh Hv. destruct (tl_set_data s a b k v R Hh Hv) as (s' & E & R'). by exists s'.
  - intros s a b k [R D] Hh Hk Hc. destruct (tl_log_write s a b k R Hh Hk Hc) as (s' & E & R'). by exists s'.
Qed.
End frame.

Section log_tx.
Context {St : Type} `{!BufOps St} (dev : Z) (rep : St → acache → Prop) `{!BufLaws St dev rep}.
Context (start : Z).

#[export] Instance log_tx : TxOps (lst St) := {|
  t_bread d k := on_io (c_bread d k);
  t_brelse b := on_io (c_brelse b);
  t_data b := on_io (c_data b);
  t_set_data b v := on_io (c_set_data b v);
  t_log_write := log_write
|}.

(** With [o] system calls running: the blocks listed in the in-memory header
    are the dirty ones, and the header on disk is empty. *)
Record log_rep (o : Z) (s : lst St) (a : acache) : Prop := {
  tx_io : rep (io s) a;
  tx_out : lg_outstanding (lg s) = o;
  tx_committing : lg_committing (lg s) = 0;
  tx_dev : lg_dev (lg s) = dev;
  tx_start : lg_start (lg s) = start;
  tx_area : 0 ≤ start ∧ start + lg_size (lg s) ≤ LOGEND;
  tx_size : 30 ≤ lg_size (lg s);
  tx_blocks : length (lh_block (lg s)) = 30%nat;
  tx_n : 0 ≤ lh_n (lg s) < 30;
  tx_nodup : NoDup (take (Z.to_nat (lh_n (lg s))) (lh_block (lg s)));
  tx_home k : k ∈ a_pin a → LOGEND ≤ k < FSSIZE;
  tx_pin : a_pin a = list_to_set (take (Z.to_nat (lh_n (lg s))) (lh_block (lg s)));
  tx_head : head_of (a_disk a start) = [] ∧ head_ok (a_disk a start)
}.

Lemma tx_count o s a : log_rep o s a → size (a_pin a) = Z.to_nat (lh_n (lg s)).
Proof.
  intros Hr. rewrite (tx_pin _ _ _ Hr), size_list_to_set by apply (tx_nodup _ _ _ Hr).
  rewrite length_take, (tx_blocks _ _ _ Hr). pose proof (tx_n _ _ _ Hr). lia.
Qed.

(** An operation on the cache alone. *)
Lemma tx_lift {A} (c : M St A) o s a r i a' :
  log_rep o s a → c (io s) = Ret (r, i) → rep i a' → a_pin a' = a_pin a → a_disk a' = a_disk a →
  on_io c s = Ret (r, MkLst (lg s) i) ∧ log_rep o (MkLst (lg s) i) a'.
Proof.
  intros Hr E Hr' Hp Hd. split; [by apply on_io_run|]. destruct Hr. split; simpl; rewrite ?Hp, ?Hd; done.
Qed.

(** log_append adds exactly the block. *)
Lemma log_append_set k l :
  0 ≤ lh_n l < 30 → length (lh_block l) = 30%nat → NoDup (take (Z.to_nat (lh_n l)) (lh_block l)) →
  ∃ n blocks, log_append k l = Some (set_lh n blocks l) ∧ 0 ≤ n ≤ lh_n l + 1 ∧ length blocks = 30%nat
    ∧ NoDup (take (Z.to_nat n) blocks)
    ∧ (list_to_set (take (Z.to_nat n) blocks) : gset Z) = list_to_set (take (Z.to_nat (lh_n l)) (lh_block l)) ∪ {[k]}.
Proof.
  intros Hn Hlen Hnd. destruct (log_append_run k l Hn Hlen Hnd) as (n & blocks & E & Hn' & Hl & Hnd' & Hk).
  exists n, blocks. split_and!; try done; try lia. revert E Hk. unfold log_append.
  set (N := Z.to_nat (lh_n l)) in *.
  destruct (find_block_run k (lh_block l) N 0) as ([_ Hj] & Hin & _). set (j := find_block k (lh_block l) N 0) in *.
  destruct (Nat.ltb_spec j (length (lh_block l))) as [Hlt|]; [|lia].
  destruct (Z.eqb_spec (Z.of_nat j) (lh_n l)) as [Ej|Ej]; intros [= <- <-] _.
  - replace (Z.to_nat (lh_n l + 1)) with (S j) by lia. rewrite (take_S_r _ _ k) by (by apply list_lookup_insert_eq).
    rewrite take_insert_ge by lia. replace j with N by lia. rewrite list_to_set_app_L. simpl. set_solver.
  - rewrite list_insert_id by (apply Hin; lia). fold N.
    assert (k ∈ take N (lh_block l)).
    { apply list_elem_of_lookup_2 with j. rewrite lookup_take, decide_True by lia. apply Hin. lia. }
    set_solver.
Qed.

Lemma tx_log_write s a b k :
  log_rep 1 s a → a_held a !! b = Some k → LOGEND ≤ k < FSSIZE → (size (a_pin a) < tx_cap)%nat →
  ∃ s', log_write b s = Ret (tt, s') ∧ log_rep 1 s' (a_dirty k a).
Proof.
  intros Hr Hh Hk Hc. rewrite (tx_count _ s a Hr) in Hc. unfold tx_cap in Hc.
  pose proof Hr as [R1 R2 R3 R4 R4' R5 R6 R7 R8 R9 R10 R11 R12]. unfold log_write.
  rewrite (bind_ret_eval _ _ s s s) by done. unfold log_full, LOGSIZE, MAXOPBLOCKS.
  destruct (Z.leb_spec (10 * 3) (lh_n (lg s))); [lia|]. destruct (Z.leb_spec (lg_size (lg s) - 1) (lh_n (lg s))); [lia|].
  change (false || false) with false. cbv iota. destruct (Z.ltb_spec (lg_outstanding (lg s)) 1); [lia|].
  rewrite (bind_ret_eval _ _ s k s) by (rewrite (on_io_run _ _ _ _ (l_blockno _ _ b k R1 Hh)); by destruct s).
  destruct (log_append_set k (lg s)) as (n & blocks & E & Hn & Hl & Hnd & Hset); [lia|done|done|].
  rewrite E. rewrite (bind_ret_eval _ _ s (set_lh n blocks (lg s)) s) by done.
  set (l' := set_lh n blocks (lg s)). rewrite (bind_ret_eval _ _ s tt (MkLst l' (io s))) by done.
  destruct (l_set_dirty _ _ b k R1 Hh) as (i & Ei & Ri).
  exists (MkLst l' i). split; [by apply (on_io_run (c_set_dirty b) (MkLst l' (io s)))|].
  split; simpl; try done; [lia| |by rewrite Hset, R11].
  intros x [?| ->%elem_of_singleton]%elem_of_union; [by apply R10|done].
Qed.

(** The file system does not look at the log's own blocks. *)
Record tx_rep (o : Z) (D : Z → list Z) (ws : list (Z * list Z)) (s : lst St) (a : acache) : Prop := {
  tr_rep : ∃ V, log_rep o s (MkAcache D V (a_pin a) (a_held a) ws) ∧ ∀ k, LOGEND ≤ k < FSSIZE → V k = a_view a k;
  tr_disk k : LOGEND ≤ k < FSSIZE → D k = a_disk a k;
  tr_length k : length (a_view a k) = 512%nat;
  tr_held b k : a_held a !! b = Some k → LOGEND ≤ k < FSSIZE
}.

#[export] Instance log_rd_laws o D ws : RdLaws (lst St) dev (tx_rep o D ws).
Proof.
  split.
  - intros s a k [(V & Hr & HV) HD HL HH] Hk Hh Hb.
    assert (0 ≤ k < FSSIZE) by (unfold LOGEND, LOGSIZE, MAXOPBLOCKS in Hk; lia).
    destruct (l_bread (io s) (MkAcache D V (a_pin a) (a_held a) ws) k (tx_io _ _ _ Hr) ltac:(done) Hh (or_intror Hb)) as (b & i & E & Hn & R).
    destruct (tx_lift _ _ _ _ _ _ _ Hr E R eq_refl eq_refl) as [E' R'].
    eexists b, _. split_and!; [exact E'|done|]. split; [by exists V|done..|].
    simpl. intros b' k' [[_ <-]|[_ ?]]%lookup_insert_Some; eauto.
  - intros s a b k [(V & Hr & HV) HD HL HH] Hh Hc. pose proof (HH b k Hh).
    destruct (l_brelse (io s) (MkAcache D V (a_pin a) (a_held a) ws) b k (tx_io _ _ _ Hr) Hh) as (i & E & R).
    { destruct Hc as [?|Hc]; [by left|right; simpl]. by rewrite HV, HD. }
    destruct (tx_lift _ _ _ _ _ _ _ Hr E R eq_refl eq_refl) as [E' R'].
    eexists. split; [exact E'|]. split; [by exists V|done..|]. simpl. intros b' k' [_ ?]%lookup_delete_Some. eauto.
  - intros s a b k [(V & Hr & HV) HD HL HH] Hh. pose proof (l_data (io s) (MkAcache D V (a_pin a) (a_held a) ws) b k (tx_io _ _ _ Hr) Hh) as E.
    simpl in *. rewrite (on_io_run _ _ _ _ E), HV by eauto. by destruct s.
  - intros s a k R. apply R.
Qed.

#[export] Instance log_tx_laws D ws : TxLaws (lst St) dev (tx_rep 1 D ws).
Proof.
  split.
  - intros s a b k v [(V & Hr & HV) HD HL HH] Hh Hv.
    destruct (l_set_data (io s) (MkAcache D V (a_pin a) (a_held a) ws) b k v (tx_io _ _ _ Hr) Hh Hv) as (i & E & R).
    destruct (tx_lift _ _ _ _ _ _ _ Hr E R eq_refl eq_refl) as [E' R'].
    eexists. split; [exact E'|]. split; [|done| |done].
    + eexists. split; [exact R'|]. intros j Hj. unfold a_set, upd_blk. simpl. rewrite HV; done.
    + intros j. unfold a_set, upd_blk. simpl. by case_decide.
  - intros s a b k [(V & Hr & HV) HD HL HH] Hh Hk Hc.
    destruct (tx_log_write s (MkAcache D V (a_pin a) (a_held a) ws) b k Hr Hh Hk Hc) as (s' & E & R). exists s'. split; [done|]. split; [by exists V|done..].
Qed.

(** ** begin_op and end_op *)

(** log.c: begin_op; [away] is what happens while it sleeps. *)
Fixpoint begin_op (away : M (lst St) unit) (f : nat) : M (lst St) unit :=
  s <- get ;;
  match begin_op_try (lg s) with
  | Some l => on_log (λ _, l)
  | None => match f with O => out_of_fuel | S f' => away ;;; begin_op away f' end
  end.

#[export] Instance log_ctl (away : M (lst St) unit) (f : nat) : TxCtl (lst St) := {|
  t_begin_op := begin_op away f;
  t_end_op := end_op
|}.

Lemma begin_op_run away f D ws s a :
  tx_rep 0 D ws s a → a_pin a = ∅ → ∃ s', begin_op away f s = Ret (tt, s') ∧ tx_rep 1 D ws s' a.
Proof.
  intros [(V & Hr & HV) HD HL HH] Hp. pose proof (tx_count _ _ _ Hr) as Hn. pose proof (tx_n _ _ _ Hr). simpl in Hn.
  rewrite Hp, size_empty in Hn. assert (Hn0 : lh_n (lg s) = 0) by lia.
  exists (MkLst (set_counts 1 0 (lg s)) (io s)). split.
  - destruct f; simpl; unfold bind, get, begin_op_try; rewrite (tx_committing _ _ _ Hr), (tx_out _ _ _ Hr), Hn0; reflexivity.
  - split; [|done..]. exists V. split; [|done]. destruct Hr. by split.
Qed.

(** commit writes the blocks, atomically. *)
Lemma commit_atomic s D V ws bs :
  lg_start (lg s) = start → lg_dev (lg s) = dev → lh_is (lg s) bs → bs ≠ [] → trans_ok start (lg_size (lg s)) bs →
  quiet rep (io s) D V (list_to_set bs) ws → head_of (D start) = [] →
  ∃ st' V' w, commit s = Ret (tt, MkLst (set_lh 0 (lh_block (lg s)) (lg s)) st')
    ∧ quiet rep st' (apply_writes w D) V' ∅ (ws ++ w)
    ∧ head_of (apply_writes w D start) = [] ∧ head_ok (apply_writes w D start)
    ∧ (∀ k, home start (lg_size (lg s)) k → apply_writes w D k = V k)
    ∧ ∀ j, let d := apply_writes (take j w) D in
        (∀ k, home start (lg_size (lg s)) k → logical start d k = D k)
        ∨ (∀ k, home start (lg_size (lg s)) k → logical start d k = V k).
Proof.
  intros Hs Hd Hl Hne Ht Q Hh. destruct s as [l st]. cbn [lg io] in *. subst start.
  destruct (commit_run dev rep l bs (lg_size l) st D V ws) as (st' & h & h0 & V' & E & Hb & Hho & Hh0 & Hho0 & Q'); [done..|].
  assert (Hclean : ∀ k, home (lg_start l) (lg_size l) k → k ∉ bs → V k = D k).
  { intros k _ Hk. apply (l_clean st _ k Q); [simpl; by rewrite elem_of_list_to_set|by intros b]. }
  cbv zeta in Q'. set (w := log_writes _ _ _ _ ++ _) in Q'.
  destruct (crash_done (lg_start l) (lg_size l) bs D V h h0 Ht Hclean) as [D1 D2].
  change (apply_writes w D (lg_start l) = h0) in D1.
  exists st', V', w. split_and!; [done|done|by rewrite D1|by rewrite D1|exact D2|].
  intros j. destruct (crash_cases _ _ bs D V h h0 Ht Hh Hb Hh0 Hclean j) as [[_ C]|[_ C]]; auto.
Qed.

Lemma log_rep_trans o s a : log_rep o s a → trans_ok start (lg_size (lg s)) (take (Z.to_nat (lh_n (lg s))) (lh_block (lg s))).
Proof.
  intros Hr. destruct (tx_area _ _ _ Hr). pose proof (tx_n _ _ _ Hr). pose proof (tx_size _ _ _ Hr).
  assert (length (take (Z.to_nat (lh_n (lg s))) (lh_block (lg s))) = Z.to_nat (lh_n (lg s)))
    by (rewrite length_take, (tx_blocks _ _ _ Hr); lia).
  split; [done|unfold LOGEND, LOGSIZE, MAXOPBLOCKS, FSSIZE in *; lia|apply Hr| |lia|lia].
  apply Forall_forall. intros k Hk. assert (k ∈ a_pin a) as Hp by (rewrite (tx_pin _ _ _ Hr); set_solver).
  apply (tx_home _ _ _ Hr) in Hp. split; [|lia]. unfold LOGEND, LOGSIZE, MAXOPBLOCKS in *; lia.
Qed.

(** The state after end_op. *)
Lemma log_rep_idle s a st' D' V' ws' :
  log_rep 1 s a → quiet rep st' D' V' ∅ ws' → head_of (D' start) = [] → head_ok (D' start) →
  log_rep 0 (MkLst (set_counts 0 0 (set_lh 0 (lh_block (lg s)) (lg s))) st') (MkAcache D' V' ∅ ∅ ws').
Proof.
  intros Hr Q H1 H2. destruct Hr. split; simpl; try done; try lia. constructor.
Qed.

Lemma end_op_run D ws s a :
  tx_rep 1 D ws s a → a_held a = ∅ → (∀ k, k ∉ a_pin a → a_view a k = a_disk a k) →
  ∃ s' w, end_op s = Ret (tt, s') ∧ tx_rep 0 (apply_writes w D) (ws ++ w) s' (MkAcache (a_view a) (a_view a) ∅ ∅ [])
    ∧ crash_safe (logical start) D w (a_disk a) (a_view a).
Proof.
  intros [(V & Hr & HV) HD HL HH] Hh Hc. rewrite Hh in Hr.
  set (l1 := set_counts 0 1 (lg s)). set (bs := take (Z.to_nat (lh_n (lg s))) (lh_block (lg s))).
  assert (E1 : end_op_start s = Ret (true, MkLst l1 (io s))).
  { unfold end_op_start, on_log, modify, bind, get. cbn [lg]. simpl. by rewrite (tx_committing _ _ _ Hr), (tx_out _ _ _ Hr). }
  unfold end_op. rewrite (bind_ret_eval _ _ _ _ _ E1).
  assert (Hhome : ∀ k, LOGEND ≤ k < FSSIZE → home start (lg_size (lg s)) k).
  { intros k Hk. destruct (tx_area _ _ _ Hr). split; [unfold LOGEND, LOGSIZE, MAXOPBLOCKS in *; lia|lia]. }
  pose proof (tx_n _ _ _ Hr) as Hn. pose proof (tx_pin _ _ _ Hr) as Hp. cbn [a_pin] in Hp. fold bs in Hp.
  destruct (decide (lh_n (lg s) = 0)) as [H0|H0].
  - assert (Hp0 : a_pin a = ∅) by (rewrite Hp; unfold bs; by rewrite H0).
    assert (Hcom : commit (MkLst l1 (io s)) = Ret (tt, MkLst l1 (io s))).
    { unfold commit, bind, get. cbn [lg]. change (lh_n l1) with (lh_n (lg s)). by rewrite H0. }
    exists (MkLst (set_counts 0 0 (lg s)) (io s)), []. rewrite (bind_ret_eval _ _ _ _ _ Hcom). rewrite app_nil_r. split_and!; [done| |].
    + split; simpl; [|intros k Hk; rewrite HD by done; symmetry; apply Hc; rewrite Hp0; set_solver|done|done].
      exists V. split; [|done]. rewrite Hp0 in Hr. destruct Hr. by split.
    + intros j. left. intros k Hk. rewrite take_nil. unfold logical. pose proof (proj1 (tx_head _ _ _ Hr)) as Hhd. simpl in *. rewrite Hhd. simpl. auto.
  - assert (Hl : length bs = Z.to_nat (lh_n (lg s))) by (unfold bs; rewrite length_take, (tx_blocks _ _ _ Hr); lia).
    destruct (commit_atomic (MkLst l1 (io s)) D V ws bs) as (st' & V' & w & E & Q & G1 & G2 & G3 & G4).
    { apply (tx_start _ _ _ Hr). } { apply (tx_dev _ _ _ Hr). }
    { split_and!; [simpl; lia|by rewrite Hl|apply Hr]. } { intros E. rewrite E in Hl. simpl in Hl. lia. }
    { exact (log_rep_trans _ _ _ Hr). } { unfold quiet. rewrite <- Hp. exact (tx_io _ _ _ Hr). } { apply (tx_head _ _ _ Hr). }
    rewrite (bind_ret_eval _ _ _ _ _ E). eexists _, w. split_and!; [reflexivity| |].
    + split; simpl; [|intros k Hk; rewrite G3 by auto; auto|done|done].
      exists V'. split; [exact (log_rep_idle s _ st' _ V' _ Hr Q G1 G2)|]. intros k Hk.
      assert (V' k = apply_writes w D k) as -> by (apply (l_clean st' _ k Q); [apply not_elem_of_empty|by intros b]).
      rewrite G3 by auto. auto.
    + intros j. destruct (G4 j) as [G|G]; [left|right]; intros k Hk; rewrite G by auto; auto.
Qed.

#[export] Instance log_ctl_laws away f : @TxCtlLaws (lst St) _ (log_ctl away f) dev (tx_rep 0) (tx_rep 1) (logical start).
Proof.
  refine {| cl_idle := log_rd_laws 0; cl_open := log_rd_laws 1; cl_tx := log_tx_laws |}.
  - intros D ws s a k [(V & Hr & _) HD _ _] Hk. unfold logical. pose proof (proj1 (tx_head _ _ _ Hr)) as E. simpl in E. rewrite E. simpl. auto.
  - intros D ws s a. apply begin_op_run.
  - exact end_op_run.
Qed.
End log_tx.
