(* ===== verification/Fs.v ===== *)
(** The file system below system calls (fs.c): block allocation, inodes, file
    contents, directories and path names.

    The code runs inside a transaction, over any [TxOps].  An inode pointer
    is an index into icache.  icache.lock makes the accesses to the cache
    atomic; [away] is what happens while a process waits for an inode's
    sleep lock.  Buffers that the C code fills through a pointer are results
    here, and byte arrays are lists; a path is the list of its characters
    without the final NUL. *)

From S2P Require Import Prelude Params Bytes Sleeplock BufCache Log Tx.

(** stat.h *)
Definition T_DIR : Z := 1.
Definition T_FILE : Z := 2.
Definition T_DEV : Z := 3.

Record inode : Type := MkInode {
  i_dev : Z;
  i_inum : Z;
  i_ref : Z;
  i_lock : sleeplock;
  i_valid : Z;
  i_type : Z;
  i_major : Z;
  i_minor : Z;
  i_nlink : Z;
  i_size : Z;
  i_addrs : list Z
}.

Definition set_i_dev (x : Z) (p : inode) : inode :=
  MkInode x (i_inum p) (i_ref p) (i_lock p) (i_valid p) (i_type p) (i_major p) (i_minor p)
    (i_nlink p) (i_size p) (i_addrs p).
Definition set_i_inum (x : Z) (p : inode) : inode :=
  MkInode (i_dev p) x (i_ref p) (i_lock p) (i_valid p) (i_type p) (i_major p) (i_minor p)
    (i_nlink p) (i_size p) (i_addrs p).
Definition set_i_ref (x : Z) (p : inode) : inode :=
  MkInode (i_dev p) (i_inum p) x (i_lock p) (i_valid p) (i_type p) (i_major p) (i_minor p)
    (i_nlink p) (i_size p) (i_addrs p).
Definition set_i_lock (x : sleeplock) (p : inode) : inode :=
  MkInode (i_dev p) (i_inum p) (i_ref p) x (i_valid p) (i_type p) (i_major p) (i_minor p)
    (i_nlink p) (i_size p) (i_addrs p).
Definition set_i_valid (x : Z) (p : inode) : inode :=
  MkInode (i_dev p) (i_inum p) (i_ref p) (i_lock p) x (i_type p) (i_major p) (i_minor p)
    (i_nlink p) (i_size p) (i_addrs p).
Definition set_i_type (x : Z) (p : inode) : inode :=
  MkInode (i_dev p) (i_inum p) (i_ref p) (i_lock p) (i_valid p) x (i_major p) (i_minor p)
    (i_nlink p) (i_size p) (i_addrs p).
Definition set_i_major (x : Z) (p : inode) : inode :=
  MkInode (i_dev p) (i_inum p) (i_ref p) (i_lock p) (i_valid p) (i_type p) x (i_minor p)
    (i_nlink p) (i_size p) (i_addrs p).
Definition set_i_minor (x : Z) (p : inode) : inode :=
  MkInode (i_dev p) (i_inum p) (i_ref p) (i_lock p) (i_valid p) (i_type p) (i_major p) x
    (i_nlink p) (i_size p) (i_addrs p).
Definition set_i_nlink (x : Z) (p : inode) : inode :=
  MkInode (i_dev p) (i_inum p) (i_ref p) (i_lock p) (i_valid p) (i_type p) (i_major p)
    (i_minor p) x (i_size p) (i_addrs p).
Definition set_i_size (x : Z) (p : inode) : inode :=
  MkInode (i_dev p) (i_inum p) (i_ref p) (i_lock p) (i_valid p) (i_type p) (i_major p)
    (i_minor p) (i_nlink p) x (i_addrs p).
Definition set_i_addrs (x : list Z) (p : inode) : inode :=
  MkInode (i_dev p) (i_inum p) (i_ref p) (i_lock p) (i_valid p) (i_type p) (i_major p)
    (i_minor p) (i_nlink p) (i_size p) x.

Record fss (X : Type) : Type := MkFss {
  fsb : superblock;              (* sb *)
  icache : list inode;           (* NINODE entries *)
  f_cwd : nat;                   (* myproc()->cwd *)
  f_pid : Z;                     (* myproc()->pid *)
  fx : X                         (* log and buffer cache *)
}.
Arguments MkFss {X}.
Arguments fsb {X}.
Arguments icache {X}.
Arguments f_cwd {X}.
Arguments f_pid {X}.
Arguments fx {X}.

Definition set_sb {X} (x : superblock) (s : fss X) : fss X := MkFss x (icache s) (f_cwd s) (f_pid s) (fx s).
Definition set_icache {X} (x : list inode) (s : fss X) : fss X := MkFss (fsb s) x (f_cwd s) (f_pid s) (fx s).

Definition on_fx {X A} (c : M X A) : M (fss X) A := λ s,
  match c (fx s) with
  | Ret (a, x) => Ret (a, MkFss (fsb s) (icache s) (f_cwd s) (f_pid s) x)
  | Panic m => Panic m
  | Undef => Undef
  | OutOfFuel => OutOfFuel
  end.

Definition geti {X} (i : nat) : M (fss X) inode := s <- get ;; of_option (icache s !! i).
Definition updi {X} (i : nat) (f : inode → inode) : M (fss X) unit :=
  p <- geti i ;; modify (λ s, set_icache (<[i := f p]> (icache s)) s).

Definition IBLOCK (inum : Z) (sb : superblock) : Z := inum / IPB + sb_inodestart sb.
Definition BBLOCK (b : Z) (sb : superblock) : Z := b / BPB + sb_bmapstart sb.

(** * Byte arrays *)

(** memmove(d + o, v, length v) within the array [d]. *)
Definition splice (o : nat) (v d : list Z) : list Z := take o d ++ v ++ drop (o + length v) d.
(** The [n] bytes at [o]. *)
Definition slice (o n : nat) (d : list Z) : list Z := take n (drop o d).

(** bp->data[bi/8] & (1 << (bi % 8)), and setting and clearing that bit. *)
Definition bit_of (d : list Z) (bi : Z) : Z :=
  Z.land (byte_of d (Z.to_nat (bi / 8))) (Z.shiftl 1 (bi mod 8)).
Definition bit_set (bi : Z) (d : list Z) : list Z :=
  <[Z.to_nat (bi / 8) := u8 (Z.lor (byte_of d (Z.to_nat (bi / 8))) (Z.shiftl 1 (bi mod 8)))]> d.
Definition bit_clear (bi : Z) (d : list Z) : list Z :=
  <[Z.to_nat (bi / 8) := u8 (Z.land (byte_of d (Z.to_nat (bi / 8))) (Z.lnot (Z.shiftl 1 (bi mod 8))))]> d.

(** struct dinode at offset [o] of a block. *)
Definition get_addrs (o : nat) (d : list Z) : list Z :=
  (λ j : nat, get32 d (o + 12 + 4 * j)) <$> seq 0 13.
Fixpoint put_addrs (o : nat) (a : list Z) (d : list Z) : list Z :=
  match a with [] => d | x :: a' => put_addrs (o + 4) a' (put32 o x d) end.
Definition put_dinode (o : nat) (p : inode) (d : list Z) : list Z :=
  put_addrs (o + 12) (i_addrs p) (put32 (o + 8) (i_size p) (put16 (o + 6) (i_nlink p)
    (put16 (o + 4) (i_minor p) (put16 (o + 2) (i_major p) (put16 o (i_type p) d))))).
Definition get_dinode (o : nat) (d : list Z) (p : inode) : inode :=
  set_i_addrs (get_addrs o d) (set_i_size (get32 d (o + 8)) (set_i_nlink (s16 (get16 d (o + 6)))
    (set_i_minor (s16 (get16 d (o + 4))) (set_i_major (s16 (get16 d (o + 2))) (set_i_type (s16 (get16 d o)) p))))).
Definition dinode_off (inum : Z) : nat := Z.to_nat (inum mod IPB * 64).

(** string.c's strncmp and strncpy on arrays; behind the end of an array
    comes NUL. *)
Fixpoint strncmp_l (n : nat) (p q : list Z) : Z :=
  match n with
  | O => 0
  | S n' =>
      let a := hd 0 p in let b := hd 0 q in
      if (a =? 0) || negb (a =? b) then a - b else strncmp_l n' (tl p) (tl q)
  end.
Fixpoint strncpy_l (n : nat) (t : list Z) : list Z :=
  match n with
  | O => []
  | S n' => let b := hd 0 t in if b =? 0 then replicate n 0 else b :: strncpy_l n' (tl t)
  end.

Definition namecmp (s t : list Z) : Z := strncmp_l (Z.to_nat DIRSIZ) s t.

(** struct dirent *)
Definition DIRENT : Z := 16.
Definition de_inum (de : list Z) : Z := get16 de 0.
Definition de_name (de : list Z) : list Z := drop 2 de.
Definition mk_dirent (inum : Z) (name : list Z) : list Z :=
  put16 0 inum [0; 0] ++ strncpy_l (Z.to_nat DIRSIZ) name.

(** skipelem on a path; [name] is the 14-byte array it fills. *)
Fixpoint skip_slashes (p : list Z) : list Z :=
  match p with c :: p' => if c =? 47 then skip_slashes p' else p | [] => [] end.
Fixpoint take_elem (p : list Z) : list Z :=
  match p with c :: p' => if c =? 47 then [] else c :: take_elem p' | [] => [] end.
Fixpoint drop_elem (p : list Z) : list Z :=
  match p with c :: p' => if c =? 47 then p else drop_elem p' | [] => [] end.

Definition skipelem (path name : list Z) : option (list Z * list Z) :=
  let path := skip_slashes path in
  match path with
  | [] => None
  | _ =>
      let s := take_elem path in
      let name' := if Z.of_nat (length s) <? DIRSIZ then splice 0 (s ++ [0]) name
                   else splice 0 (take (Z.to_nat DIRSIZ) s) name in
      Some (skip_slashes (drop_elem path), name')
  end.

(** struct stat *)
Record stat : Type := MkStat { st_type : Z; st_dev : Z; st_ino : Z; st_nlink : Z; st_size : Z }.

(** The null inode pointer, one past icache.inode. *)
Definition null_inode : nat := Z.to_nat NINODE.

(** The index of the first clear bit among the [n] bits from [bi]. *)
Fixpoint find_free (d : list Z) (n : nat) (bi : Z) : option Z :=
  match n with
  | O => None
  | S n' => if bit_of d bi =? 0 then Some bi else find_free d n' (bi + 1)
  end.

(** The scan of iget: the entry that holds the inode, and the first empty one. *)
Fixpoint iget_scan (dev inum : Z) (l : list inode) (i : nat) (empty : option nat) : option nat * option nat :=
  match l with
  | [] => (None, empty)
  | p :: l' =>
      if (0 <? i_ref p) && (i_dev p =? dev) && (i_inum p =? inum) then (Some i, empty)
      else iget_scan dev inum l' (S i)
             (match empty with None => if i_ref p =? 0 then Some i else None | Some _ => empty end)
  end.

Section fs_code.
Context {X : Type} `{!TxOps X}.
Context (away : M (fss X) unit) (fuel : nat).

(** devsw[]: the read and write functions of device drivers. *)
Context (dev_read : Z → option (nat → Z → M (fss X) (Z * list Z))).
Context (dev_write : Z → option (nat → list Z → M (fss X) Z)).

(** ** Blocks *)

Definition bzero (dev bno : Z) : M (fss X) unit :=
  bp <- on_fx (t_bread dev bno) ;;
  on_fx (t_set_data bp (replicate (Z.to_nat BSIZE) 0)) ;;;
  on_fx (t_log_write bp) ;;;
  on_fx (t_brelse bp).

Fixpoint balloc_loop (n : nat) (dev b : Z) : M (fss X) Z :=
  match n with
  | O => panic "balloc: out of blocks"
  | S n' =>
      s <- get ;;
      bp <- on_fx (t_bread dev (BBLOCK b (fsb s))) ;;
      d <- on_fx (t_data bp) ;;
      match find_free d (Z.to_nat (Z.min BPB (sb_size (fsb s) - b))) 0 with
      | Some bi =>
          on_fx (t_set_data bp (bit_set bi d)) ;;;
          on_fx (t_log_write bp) ;;;
          on_fx (t_brelse bp) ;;;
          bzero dev (b + bi) ;;;
          ret (b + bi)
      | None =>
          on_fx (t_brelse bp) ;;;
          balloc_loop n' dev (b + BPB)
      end
  end.

Definition balloc (dev : Z) : M (fss X) Z :=
  s <- get ;; balloc_loop (Z.to_nat ((sb_size (fsb s) + BPB - 1) / BPB)) dev 0.

Definition bfree (dev b : Z) : M (fss X) unit :=
  s <- get ;;
  bp <- on_fx (t_bread dev (BBLOCK b (fsb s))) ;;
  let bi := b mod BPB in
  d <- on_fx (t_data bp) ;;
  if bit_of d bi =? 0 then panic "freeing free block" else
  on_fx (t_set_data bp (bit_clear bi d)) ;;;
  on_fx (t_log_write bp) ;;;
  on_fx (t_brelse bp).

(** ** Inodes *)

Definition iinit (dev : Z) : M (fss X) unit :=
  modify (λ s, set_icache (set_i_lock initsleeplock <$> icache s) s) ;;;
  bp <- on_fx (t_bread dev 1) ;;
  d <- on_fx (t_data bp) ;;
  on_fx (t_brelse bp) ;;;
  modify (set_sb (get_sb d)).

Definition iget (dev inum : Z) : M (fss X) nat :=
  s <- get ;;
  match iget_scan dev inum (icache s) 0 None with
  | (Some i, _) => updi i (λ p, set_i_ref (i_ref p + 1) p) ;;; ret i
  | (None, Some i) =>
      updi i (λ p, set_i_valid 0 (set_i_ref 1 (set_i_inum inum (set_i_dev dev p)))) ;;; ret i
  | (None, None) => panic "iget: no inodes"
  end.

Fixpoint ialloc_loop (n : nat) (dev type inum : Z) : M (fss X) nat :=
  match n with
  | O => panic "ialloc: no inodes"
  | S n' =>
      s <- get ;;
      bp <- on_fx (t_bread dev (IBLOCK inum (fsb s))) ;;
      let o := dinode_off inum in
      d <- on_fx (t_data bp) ;;
      if get16 d o =? 0 then
        on_fx (t_set_data bp (put16 o type (splice o (replicate 64 0) d))) ;;;
        on_fx (t_log_write bp) ;;;
        on_fx (t_brelse bp) ;;;
        iget dev inum
      else
        on_fx (t_brelse bp) ;;;
        ialloc_loop n' dev type (inum + 1)
  end.

Definition ialloc (dev type : Z) : M (fss X) nat :=
  s <- get ;; ialloc_loop (Z.to_nat (sb_ninodes (fsb s) - 1)) dev type 1.

Definition iupdate (ip : nat) : M (fss X) unit :=
  s <- get ;;
  p <- geti ip ;;
  bp <- on_fx (t_bread (i_dev p) (IBLOCK (i_inum p) (fsb s))) ;;
  d <- on_fx (t_data bp) ;;
  on_fx (t_set_data bp (put_dinode (dinode_off (i_inum p)) p d)) ;;;
  on_fx (t_log_write bp) ;;;
  on_fx (t_brelse bp).

Definition idup (ip : nat) : M (fss X) nat :=
  updi ip (λ p, set_i_ref (i_ref p + 1) p) ;;; ret ip.

Fixpoint acquiresleep_inode (f ip : nat) : M (fss X) unit :=
  p <- geti ip ;;
  s <- get ;;
  match acquiresleep (f_pid s) (i_lock p) with
  | Some l => updi ip (set_i_lock l)
  | None => match f with O => out_of_fuel | S f' => away ;;; acquiresleep_inode f' ip end
  end.

Definition ilock (ip : nat) : M (fss X) unit :=
  if decide (ip = null_inode) then panic "ilock" else
  p <- geti ip ;;
  if i_ref p <? 1 then panic "ilock" else
  acquiresleep_inode fuel ip ;;;
  s <- get ;;
  p <- geti ip ;;
  if i_valid p =? 0 then
    bp <- on_fx (t_bread (i_dev p) (IBLOCK (i_inum p) (fsb s))) ;;
    d <- on_fx (t_data bp) ;;
    updi ip (get_dinode (dinode_off (i_inum p)) d) ;;;
    on_fx (t_brelse bp) ;;;
    updi ip (set_i_valid 1) ;;;
    p <- geti ip ;;
    if i_type p =? 0 then panic "ilock: no type" else ret tt
  else ret tt.

Definition iunlock (ip : nat) : M (fss X) unit :=
  if decide (ip = null_inode) then panic "iunlock" else
  s <- get ;;
  p <- geti ip ;;
  if negb (holdingsleep (f_pid s) (i_lock p)) || (i_ref p <? 1) then panic "iunlock" else
  updi ip (λ p, set_i_lock (releasesleep (i_lock p)) p).

(** ** Contents *)

Definition bmap (ip : nat) (bn : Z) : M (fss X) Z :=
  p <- geti ip ;;
  if bn <? NDIRECT then
    addr <- of_option (i_addrs p !! Z.to_nat bn) ;;
    if addr =? 0 then
      addr <- balloc (i_dev p) ;;
      updi ip (λ p, set_i_addrs (<[Z.to_nat bn := addr]> (i_addrs p)) p) ;;;
      ret addr
    else ret addr
  else
    let bn := bn - NDIRECT in
    if bn <? NINDIRECT then
      addr <- of_option (i_addrs p !! Z.to_nat NDIRECT) ;;
      addr <- (if addr =? 0 then
                 addr <- balloc (i_dev p) ;;
                 updi ip (λ p, set_i_addrs (<[Z.to_nat NDIRECT := addr]> (i_addrs p)) p) ;;;
                 ret addr
               else ret addr) ;;
      bp <- on_fx (t_bread (i_dev p) addr) ;;
      a <- on_fx (t_data bp) ;;
      let addr := get32 a (4 * Z.to_nat bn) in
      addr <- (if addr =? 0 then
                 addr <- balloc (i_dev p) ;;
                 a <- on_fx (t_data bp) ;;
                 on_fx (t_set_data bp (put32 (4 * Z.to_nat bn) addr a)) ;;;
                 on_fx (t_log_write bp) ;;;
                 ret addr
               else ret addr) ;;
      on_fx (t_brelse bp) ;;;
      ret addr
    else panic "bmap: out of range".

Fixpoint itrunc_direct (n i ip : nat) : M (fss X) unit :=
  match n with
  | O => ret tt
  | S n' =>
      p <- geti ip ;;
      addr <- of_option (i_addrs p !! i) ;;
      (if addr =? 0 then ret tt
       else bfree (i_dev p) addr ;;; updi ip (λ p, set_i_addrs (<[i := 0]> (i_addrs p)) p)) ;;;
      itrunc_direct n' (S i) ip
  end.

Fixpoint itrunc_indirect (n j : nat) (dev : Z) (bp : nat) : M (fss X) unit :=
  match n with
  | O => ret tt
  | S n' =>
      a <- on_fx (t_data bp) ;;
      (if get32 a (4 * j) =? 0 then ret tt else bfree dev (get32 a (4 * j))) ;;;
      itrunc_indirect n' (S j) dev bp
  end.

Definition itrunc (ip : nat) : M (fss X) unit :=
  itrunc_direct (Z.to_nat NDIRECT) 0 ip ;;;
  p <- geti ip ;;
  addr <- of_option (i_addrs p !! Z.to_nat NDIRECT) ;;
  (if addr =? 0 then ret tt
   else
     bp <- on_fx (t_bread (i_dev p) addr) ;;
     itrunc_indirect (Z.to_nat NINDIRECT) 0 (i_dev p) bp ;;;
     on_fx (t_brelse bp) ;;;
     bfree (i_dev p) addr ;;;
     updi ip (λ p, set_i_addrs (<[Z.to_nat NDIRECT := 0]> (i_addrs p)) p)) ;;;
  updi ip (set_i_size 0) ;;;
  iupdate ip.

Definition iput (ip : nat) : M (fss X) unit :=
  acquiresleep_inode fuel ip ;;;
  p <- geti ip ;;
  (if negb (i_valid p =? 0) && (i_nlink p =? 0) && (i_ref p =? 1) then
     itrunc ip ;;;
     updi ip (set_i_type 0) ;;;
     iupdate ip ;;;
     updi ip (set_i_valid 0)
   else ret tt) ;;;
  updi ip (λ p, set_i_lock (releasesleep (i_lock p)) p) ;;;
  updi ip (λ p, set_i_ref (i_ref p - 1) p).

Definition iunlockput (ip : nat) : M (fss X) unit := iunlock ip ;;; iput ip.

Definition stati (ip : nat) : M (fss X) stat :=
  p <- geti ip ;; ret (MkStat (i_type p) (i_dev p) (i_inum p) (i_nlink p) (i_size p)).

(** A pass moves at least one byte, so [n] passes are enough. *)
Fixpoint readi_loop (f ip : nat) (tot off n : Z) : M (fss X) (list Z) :=
  if tot <? n then
    match f with
    | O => out_of_fuel
    | S f' =>
        p <- geti ip ;;
        addr <- bmap ip (off / BSIZE) ;;
        bp <- on_fx (t_bread (i_dev p) addr) ;;
        let m := Z.min (n - tot) (BSIZE - off mod BSIZE) in
        d <- on_fx (t_data bp) ;;
        on_fx (t_brelse bp) ;;;
        rest <- readi_loop f' ip (u32 (tot + m)) (u32 (off + m)) n ;;
        ret (slice (Z.to_nat (off mod BSIZE)) (Z.to_nat m) d ++ rest)
    end
  else ret [].

(** The value returned and the bytes stored at dst. *)
Definition readi (ip : nat) (off n : Z) : M (fss X) (Z * list Z) :=
  p <- geti ip ;;
  if i_type p =? T_DEV then
    if (i_major p <? 0) || (NDEV <=? i_major p) then ret (-1, [])
    else match dev_read (i_major p) with None => ret (-1, []) | Some f => f ip n end
  else
    if (i_size p <? off) || (u32 (off + n) <? off) then ret (-1, []) else
    let n := if i_size p <? u32 (off + n) then u32 (i_size p - off) else n in
    r <- readi_loop (Z.to_nat n) ip 0 off n ;;
    ret (s32 n, r).

(** Returns [off] as the loop leaves it. *)
Fixpoint writei_loop (f ip : nat) (src : list Z) (tot off n : Z) : M (fss X) Z :=
  if tot <? n then
    match f with
    | O => out_of_fuel
    | S f' =>
        p <- geti ip ;;
        addr <- bmap ip (off / BSIZE) ;;
        bp <- on_fx (t_bread (i_dev p) addr) ;;
        let m := Z.min (n - tot) (BSIZE - off mod BSIZE) in
        d <- on_fx (t_data bp) ;;
        on_fx (t_set_data bp (splice (Z.to_nat (off mod BSIZE)) (take (Z.to_nat m) src) d)) ;;;
        on_fx (t_log_write bp) ;;;
        on_fx (t_brelse bp) ;;;
        writei_loop f' ip (drop (Z.to_nat m) src) (u32 (tot + m)) (u32 (off + m)) n
    end
  else ret off.

Definition writei (ip : nat) (src : list Z) (off : Z) : M (fss X) Z :=
  let n := Z.of_nat (length src) in
  p <- geti ip ;;
  if i_type p =? T_DEV then
    if (i_major p <? 0) || (NDEV <=? i_major p) then ret (-1)
    else match dev_write (i_major p) with None => ret (-1) | Some f => f ip src end
  else
    if (i_size p <? off) || (u32 (off + n) <? off) then ret (-1) else
    if MAXFILE * BSIZE <? u32 (off + n) then ret (-1) else
    off <- writei_loop (Z.to_nat n) ip src 0 off n ;;
    p <- geti ip ;;
    (if (0 <? n) && (i_size p <? off) then updi ip (set_i_size off) ;;; iupdate ip else ret tt) ;;;
    ret (s32 n).

(** ** Directories *)

(** The inode found and the offset of its entry. *)
Fixpoint dirlookup_loop (f dp : nat) (name : list Z) (off : Z) : M (fss X) (option (nat * Z)) :=
  p <- geti dp ;;
  if off <? i_size p then
    match f with
    | O => out_of_fuel
    | S f' =>
        r <- readi dp off DIRENT ;;
        if negb (r.1 =? DIRENT) then panic "dirlookup read" else
        if de_inum r.2 =? 0 then dirlookup_loop f' dp name (u32 (off + DIRENT)) else
        if namecmp name (de_name r.2) =? 0 then
          ip <- iget (i_dev p) (de_inum r.2) ;; ret (Some (ip, off))
        else dirlookup_loop f' dp name (u32 (off + DIRENT))
    end
  else ret None.

Definition dirlookup (dp : nat) (name : list Z) : M (fss X) (option (nat * Z)) :=
  p <- geti dp ;;
  if negb (i_type p =? T_DIR) then panic "dirlookup not DIR" else
  dirlookup_loop (S (Z.to_nat (i_size p / DIRENT))) dp name 0.

(** The offset where the loop over the entries stops. *)
Fixpoint dirlink_loop (f dp : nat) (off : Z) : M (fss X) Z :=
  p <- geti dp ;;
  if off <? i_size p then
    match f with
    | O => out_of_fuel
    | S f' =>
        r <- readi dp off DIRENT ;;
        if negb (r.1 =? DIRENT) then panic "dirlink read" else
        if de_inum r.2 =? 0 then ret off else dirlink_loop f' dp (off + DIRENT)
    end
  else ret off.

Definition dirlink (dp : nat) (name : list Z) (inum : Z) : M (fss X) Z :=
  o <- dirlookup dp name ;;
  match o with
  | Some (ip, _) => iput ip ;;; ret (-1)
  | None =>
      p <- geti dp ;;
      off <- dirlink_loop (S (Z.to_nat (i_size p / DIRENT))) dp 0 ;;
      r <- writei dp (mk_dirent inum name) off ;;
      if negb (r =? DIRENT) then panic "dirlink" else ret 0
  end.

(** ** Paths *)

(** skipelem consumes a character at least, so the length of the path
    bounds the passes.  The result carries the name array. *)
Fixpoint namex_loop (f : nat) (path : list Z) (parent : bool) (name : list Z) (ip : nat)
  : M (fss X) (option nat * list Z) :=
  match skipelem path name with
  | None => if parent then iput ip ;;; ret (None, name) else ret (Some ip, name)
  | Some (path, name) =>
      match f with
      | O => out_of_fuel
      | S f' =>
          ilock ip ;;;
          p <- geti ip ;;
          if negb (i_type p =? T_DIR) then iunlockput ip ;;; ret (None, name) else
          if parent && bool_decide (path = []) then iunlock ip ;;; ret (Some ip, name) else
          o <- dirlookup ip name ;;
          match o with
          | None => iunlockput ip ;;; ret (None, name)
          | Some (next, _) => iunlockput ip ;;; namex_loop f' path parent name next
          end
      end
  end.

Definition namex (path : list Z) (parent : bool) (name : list Z) : M (fss X) (option nat * list Z) :=
  s <- get ;;
  ip <- (if bool_decide (hd 0 path = 47) then iget ROOTDEV ROOTINO else idup (f_cwd s)) ;;
  namex_loop (length path) path parent name ip.

(** [name] is what the uninitialised array holds. *)
Definition namei (path name : list Z) : M (fss X) (option nat) :=
  r <- namex path false name ;; ret r.1.

Definition nameiparent (path name : list Z) : M (fss X) (option nat * list Z) := namex path true name.

End fs_code.
