(* ===== verification/FsAt.v ===== *)
(** Reasoning about fs.c: what is known of a state of the file system between
    two steps of its code, and the rule for each primitive step.

    The superblock, the current directory and the process do not change
    while the code runs.  [V] gives the blocks as the file system sees them,
    [P] the blocks logged so far, [H] the buffers held. *)

From S2P Require Import Prelude Params Bytes Sleeplock BufCache Log Tx Fs.

Definition vmap : Type := Z → list Z.

(** Room for one more block: no more than 28 logged, no more than one other
    buffer held. *)
Definition room (P : gset Z) (H : gmap nat Z) : Prop := (size P ≤ 28)%nat ∧ (size H ≤ 1)%nat.

Lemma map_img_size (H : gmap nat Z) : (size (map_img (SA:=gset Z) H) ≤ size H)%nat.
Proof.
  induction H as [|i k H Hi IH] using map_ind; [by rewrite map_img_empty_L, size_empty|].
  rewrite map_size_insert_None by done. rewrite map_img_insert_notin_L by done.
  rewrite size_union_alt, size_singleton.
  assert (size (map_img H ∖ {[k]} : gset Z) ≤ size (map_img (SA:=gset Z) H))%nat by (apply subseteq_size; set_solver).
  lia.
Qed.

Lemma map_img_lookup (H : gmap nat Z) k :
  k ∉ map_img (SA:=gset Z) H → ∀ b, H !! b ≠ Some k.
Proof. intros Hk b Hb. apply Hk. by eapply elem_of_map_img_2. Qed.

Lemma not_in_empty_img (k : Z) : k ∉ map_img (SA:=gset Z) (∅ : gmap nat Z).
Proof. rewrite map_img_empty_L. set_solver. Qed.

Lemma room_empty (P : gset Z) : (size P ≤ 28)%nat → room P ∅.
Proof. intros. split; [done|]. rewrite map_size_empty. lia. Qed.

Section fs_at.
Context {X : Type} `{!TxOps X} (rep : X → acache → Prop) `{!RdLaws X ROOTDEV rep}.
Context (sb : superblock) (cwd : nat) (pid : Z).

Record fsat (s : fss X) (ic : list inode) (V : vmap) (P : gset Z) (H : gmap nat Z) : Prop := {
  at_sb : fsb s = sb;
  at_ic : icache s = ic;
  at_cwd : f_cwd s = cwd;
  at_pid : f_pid s = pid;
  at_rep : ∃ a, rep (fx s) a ∧ (∀ k, a_view a k = V k) ∧ a_pin a = P ∧ a_held a = H
             ∧ ∀ k, k ∉ P → a_view a k = a_disk a k
}.

Lemma fsat_length s ic V P H k : fsat s ic V P H → length (V k) = 512%nat.
Proof. intros [_ _ _ _ (a & R & Hv & _)]. rewrite <- Hv. eapply tl_length, R. Qed.

Lemma fsat_ext s ic V V' P H : fsat s ic V P H → (∀ k, V k = V' k) → fsat s ic V' P H.
Proof. intros [H1 H2 H3 H4 (a & R & Hv & H5)] E. split; try done. exists a. split_and!; try naive_solver congruence. Qed.

(** A step of the log or the cache. *)
Lemma fsat_lift {A} (c : M X A) s ic V P H (Q : A → fss X → Prop) r x V' P' H' a' :
  fsat s ic V P H → c (fx s) = Ret (r, x) →
  rep x a' → (∀ k, a_view a' k = V' k) → a_pin a' = P' → a_held a' = H' →
  (∀ k, k ∉ P' → a_view a' k = a_disk a' k) →
  (∀ s', fsat s' ic V' P' H' → Q r s') → wp (on_fx c) s Q.
Proof.
  intros [H1 H2 H3 H4 _] E R Hv Hp Hh Hc HQ. exists r, (MkFss (fsb s) (icache s) (f_cwd s) (f_pid s) x).
  unfold on_fx. rewrite E. split; [done|]. apply HQ. split; simpl; try done. exists a'. done.
Qed.

Lemma wp_bread s ic V P H k (Q : nat → fss X → Prop) :
  fsat s ic V P H → LOGEND ≤ k < FSSIZE → k ∉ map_img (SA:=gset Z) H → room P H →
  (∀ b s', H !! b = None → fsat s' ic V P (<[b := k]> H) → Q b s') →
  wp (on_fx (t_bread ROOTDEV k)) s Q.
Proof.
  intros F Hk Hh [HP HH] HQ. pose proof F as [_ _ _ _ (a & R & Hv & Hp & Ha & Hc)]. subst P H.
  destruct (tl_bread (fx s) a k R Hk (map_img_lookup _ _ Hh)) as (b & x & E & Hb & R').
  { unfold a_busy, NBUF, MAXOPBLOCKS. pose proof (map_img_size (a_held a)).
    rewrite size_union_alt.
    assert (size (map_img (a_held a) ∖ a_pin a : gset Z) ≤ size (map_img (SA:=gset Z) (a_held a)))%nat
      by (apply subseteq_size; set_solver). lia. }
  eapply (fsat_lift _ _ _ _ _ _ _ _ _ _ _ _ _ F E R'); try done. intros s' F'. by apply HQ.
Qed.

Lemma wp_data s ic V P H b k (Q : list Z → fss X → Prop) :
  fsat s ic V P H → H !! b = Some k → Q (V k) s → wp (on_fx (t_data b)) s Q.
Proof.
  intros F Hb HQ. pose proof F as [_ _ _ _ (a & R & Hv & Hp & Ha & Hc)]. subst P H.
  exists (V k), s. split; [|done]. unfold on_fx. rewrite (tl_data _ _ _ _ R Hb), Hv. by destruct s.
Qed.

Lemma wp_brelse s ic V P H b k (Q : unit → fss X → Prop) :
  fsat s ic V P H → H !! b = Some k → (∀ s', fsat s' ic V P (delete b H) → Q tt s') →
  wp (on_fx (t_brelse b)) s Q.
Proof.
  intros F Hb HQ. pose proof F as [_ _ _ _ (a & R & Hv & Hp & Ha & Hc)]. subst P H.
  destruct (tl_brelse _ _ b k R Hb) as (x & E & R').
  { destruct (decide (k ∈ a_pin a)); [by left|right; auto]. }
  by eapply (fsat_lift _ _ _ _ _ _ _ _ _ _ _ _ _ F E R').
Qed.

(** bread, look, brelse. *)
Lemma wp_peek {B} s ic V P H k (f : list Z → M (fss X) B) Q :
  fsat s ic V P H → LOGEND ≤ k < FSSIZE → k ∉ map_img (SA:=gset Z) H → room P H →
  (∀ s', fsat s' ic V P H → wp (f (V k)) s' Q) →
  wp (bp <- on_fx (t_bread ROOTDEV k) ;; d <- on_fx (t_data bp) ;; on_fx (t_brelse bp) ;;; f d) s Q.
Proof.
  intros F Hk Hh Hr HQ. apply wp_bind, (wp_bread _ _ _ _ _ _ _ F Hk Hh Hr). intros b s1 Hb F1.
  apply wp_bind, (wp_data _ _ _ _ _ b k _ F1); [by rewrite lookup_insert_eq|].
  apply wp_bind, (wp_brelse _ _ _ _ _ b k _ F1); [by rewrite lookup_insert_eq|].
  intros s2 F2. apply HQ. by rewrite delete_insert_eq, delete_id in F2.
Qed.

Lemma wp_geti s ic V P H i p (Q : inode → fss X → Prop) :
  fsat s ic V P H → ic !! i = Some p → Q p s → wp (geti i) s Q.
Proof. intros F Hi HQ. exists p, s. split; [|done]. unfold geti, bind, get. by rewrite (at_ic _ _ _ _ _ F), Hi. Qed.

Lemma fsat_set_ic s ic V P H ic' : fsat s ic V P H → fsat (set_icache ic' s) ic' V P H.
Proof. intros [H1 H2 H3 H4 H5]. by split. Qed.

Lemma wp_updi s ic V P H i p f (Q : unit → fss X → Prop) :
  fsat s ic V P H → ic !! i = Some p → (∀ s', fsat s' (<[i := f p]> ic) V P H → Q tt s') → wp (updi i f) s Q.
Proof.
  intros F Hi HQ. apply wp_bind, (wp_geti _ _ _ _ _ _ _ _ F Hi). apply wp_modify, HQ.
  rewrite (at_ic _ _ _ _ _ F). by eapply fsat_set_ic.
Qed.
Context `{!TxLaws X ROOTDEV rep}.

(** Changing the data of a block and logging it, always done in one go. *)
Lemma wp_log {B} s ic V P H b k v (c : M (fss X) B) Q :
  fsat s ic V P H → H !! b = Some k → LOGEND ≤ k < FSSIZE → length v = 512%nat → (size P ≤ 28)%nat →
  (∀ s', fsat s' ic (upd_blk k v V) (P ∪ {[k]}) H → wp c s' Q) →
  wp (on_fx (t_set_data b v) ;;; on_fx (t_log_write b) ;;; c) s Q.
Proof.
  intros F Hb Hk Hv HP HQ. pose proof F as [H1 H2 H3 H4 (a & R & Hva & Hp & Ha & Hc)]. subst P H.
  destruct (tl_set_data _ _ _ _ v R Hb Hv) as (x & E & R').
  destruct (tl_log_write x (a_set k v a) b k R' Hb) as (x' & E' & R''); [done|simpl; unfold tx_cap; lia|].
  apply wp_bind. exists tt, (MkFss (fsb s) (icache s) (f_cwd s) (f_pid s) x). split; [unfold on_fx; by rewrite E|].
  apply wp_bind. exists tt, (MkFss (fsb s) (icache s) (f_cwd s) (f_pid s) x'). split; [unfold on_fx; simpl; by rewrite E'|].
  apply HQ. split; simpl; try done. exists (a_dirty k (a_set k v a)). split_and!; try done; simpl.
  - intros j. unfold upd_blk. by rewrite Hva.
  - intros j Hj. rewrite upd_blk_ne by set_solver. apply Hc. set_solver.
Qed.

(** bread, change, log_write, brelse. *)
Lemma wp_rmw {B} s ic V P H k (g : list Z → list Z) (c : M (fss X) B) Q :
  fsat s ic V P H → LOGEND ≤ k < FSSIZE → k ∉ map_img (SA:=gset Z) H → room P H → length (g (V k)) = 512%nat →
  (∀ s', fsat s' ic (upd_blk k (g (V k)) V) (P ∪ {[k]}) H → wp c s' Q) →
  wp (bp <- on_fx (t_bread ROOTDEV k) ;; d <- on_fx (t_data bp) ;;
      on_fx (t_set_data bp (g d)) ;;; on_fx (t_log_write bp) ;;; on_fx (t_brelse bp) ;;; c) s Q.
Proof.
  intros F Hk Hh Hr Hl HQ. apply wp_bind, (wp_bread _ _ _ _ _ _ _ F Hk Hh Hr). intros b s1 Hb F1.
  apply wp_bind, (wp_data _ _ _ _ _ b k _ F1); [by rewrite lookup_insert_eq|].
  eapply (wp_log _ _ _ _ _ b k _ _ _ F1); [by rewrite lookup_insert_eq|done|done|apply Hr|].
  intros s2 F2. apply wp_bind, (wp_brelse _ _ _ _ _ b k _ F2); [by rewrite lookup_insert_eq|].
  intros s3 F3. apply HQ. by rewrite delete_insert_eq, delete_id in F3.
Qed.
End fs_at.

Arguments fsat_length {X _ rep _ sb cwd pid s ic V P H} k.
Arguments wp_bread {X _ rep _ sb cwd pid s ic V P H k Q}.
Arguments wp_data {X _ rep _ sb cwd pid s ic V P H b k Q}.
Arguments wp_log {X _ rep _ sb cwd pid _ B s ic V P H b k v c Q}.
Arguments wp_brelse {X _ rep _ sb cwd pid s ic V P H b k Q}.
Arguments wp_peek {X _ rep _ sb cwd pid B s ic V P H k f Q}.
Arguments wp_rmw {X _ rep _ sb cwd pid _ B s ic V P H k} g {c Q}.
Arguments wp_geti {X rep sb cwd pid s ic V P H i p Q}.
Arguments wp_updi {X rep sb cwd pid s ic V P H i p f Q}.
Arguments at_sb {X rep sb cwd pid s ic V P H}.
Arguments at_ic {X rep sb cwd pid s ic V P H}.
Arguments at_pid {X rep sb cwd pid s ic V P H}.
Arguments at_cwd {X rep sb cwd pid s ic V P H}.
