(* ===== verification/FsAlloc.v ===== *)
(** The block allocator of fs.c: the bitmap as a set of free blocks, and what
    balloc and bfree do to it. *)

From S2P Require Import Prelude Params Bytes Sleeplock BufCache Log Tx Fs FsAt.

(** * Bits of a bitmap block *)

Lemma bit_of_testbit d bi :
  bit_of d bi = 0 ↔ Z.testbit (byte_of d (Z.to_nat (bi / 8))) (bi mod 8) = false.
Proof.
  unfold bit_of. assert (0 ≤ bi mod 8) by (apply Z.mod_pos_bound; lia).
  rewrite Z.shiftl_1_l. split.
  - intros E. apply (f_equal (λ x, Z.testbit x (bi mod 8))) in E.
    by rewrite Z.land_spec, Z.pow2_bits_true, andb_true_r, Z.bits_0 in E.
  - intros E. apply Z.bits_inj_iff'. intros j Hj. rewrite Z.land_spec, Z.bits_0.
    destruct (decide (j = bi mod 8)) as [->|]; [by rewrite E|]. by rewrite Z.pow2_bits_false, andb_false_r by lia.
Qed.

Lemma testbit_u8 x j : 0 ≤ j < 8 → Z.testbit (u8 x) j = Z.testbit x j.
Proof. intros H. unfold u8. change 256 with (2 ^ 8). by rewrite Z.mod_pow2_bits_low by lia. Qed.

(** Distinct bits of one byte. *)
Lemma bit_ne bi bj : bi / 8 = bj / 8 → bi ≠ bj → bj mod 8 ≠ bi mod 8.
Proof. intros. Z.div_mod_to_equations. lia. Qed.

Lemma to_nat_div bi bj : 0 ≤ bi → 0 ≤ bj → Z.to_nat (bi / 8) = Z.to_nat (bj / 8) → bi / 8 = bj / 8.
Proof. intros. apply Z2Nat.inj; [apply Z.div_pos; lia..|done]. Qed.

Section bit_upd.
Context (d : list Z) (bi bj : Z) (Hi : 0 ≤ bi) (Hj : 0 ≤ bj) (Hl : (Z.to_nat (bi / 8) < length d)%nat).

Lemma bit_of_set : bit_of (bit_set bi d) bj = 0 ↔ bj ≠ bi ∧ bit_of d bj = 0.
Proof.
  rewrite !bit_of_testbit. unfold bit_set. rewrite byte_of_insert by done.
  assert (Hm : 0 ≤ bj mod 8 < 8) by (apply Z.mod_pos_bound; lia).
  assert (Hm' : 0 ≤ bi mod 8) by (apply Z.mod_pos_bound; lia).
  case_decide as E.
  - apply to_nat_div in E; [|done..]. rewrite testbit_u8, Z.lor_spec, Z.shiftl_1_l by done.
    destruct (decide (bj = bi)) as [->|Hne].
    + rewrite Z.pow2_bits_true, orb_true_r by done. naive_solver.
    + rewrite Z.pow2_bits_false by (apply not_eq_sym, bit_ne; congruence). rewrite orb_false_r, E. naive_solver.
  - split; [|naive_solver]. intros ?. split; [|done]. congruence.
Qed.

Lemma bit_of_clear : bit_of (bit_clear bi d) bj = 0 ↔ bj = bi ∨ bit_of d bj = 0.
Proof.
  rewrite !bit_of_testbit. unfold bit_clear. rewrite byte_of_insert by done.
  assert (Hm : 0 ≤ bj mod 8 < 8) by (apply Z.mod_pos_bound; lia).
  assert (Hm' : 0 ≤ bi mod 8) by (apply Z.mod_pos_bound; lia).
  case_decide as E.
  - apply to_nat_div in E; [|done..]. rewrite testbit_u8, Z.land_spec, Z.lnot_spec, Z.shiftl_1_l by lia.
    destruct (decide (bj = bi)) as [->|Hne].
    + rewrite Z.pow2_bits_true by done. rewrite andb_false_r. naive_solver.
    + rewrite Z.pow2_bits_false by (apply not_eq_sym, bit_ne; congruence). rewrite andb_true_r, E. naive_solver.
  - split; [naive_solver|]. intros [->|?]; [done|done].
Qed.
End bit_upd.

Lemma find_free_spec d n : ∀ b,
  match find_free d n b with
  | Some bi => b ≤ bi < b + Z.of_nat n ∧ bit_of d bi = 0 ∧ ∀ j, b ≤ j < bi → bit_of d j ≠ 0
  | None => ∀ j, b ≤ j < b + Z.of_nat n → bit_of d j ≠ 0
  end.
Proof.
  induction n as [|n IH]; intros b; cbn [find_free]; [intros; lia|].
  destruct (Z.eqb_spec (bit_of d b) 0) as [E|E]; [split_and!; [lia|lia|done|intros; lia]|].
  specialize (IH (b + 1)). destruct (find_free d n (b + 1)) as [bi|].
  - destruct IH as (H1 & H2 & H3). split_and!; [lia|lia|done|]. intros j Hj.
    destruct (decide (j = b)) as [->|]; [done|]. apply H3. lia.
  - intros j Hj. destruct (decide (j = b)) as [->|]; [done|]. apply IH. lia.
Qed.

(** * The bitmap of the file system *)

(** The layout mkfs gives a disk: the inode blocks, one bitmap block, data. *)
Record sb_ok (sb : superblock) : Prop := {
  so_inode : LOGEND ≤ sb_inodestart sb;
  so_ninodes : 1 ≤ sb_ninodes sb;
  so_bmap : sb_inodestart sb + sb_ninodes sb / IPB < sb_bmapstart sb;
  so_size : sb_bmapstart sb < sb_size sb ≤ FSSIZE
}.

Lemma sb_bounds sb :
  sb_ok sb → 2 ≤ LOGEND ≤ sb_inodestart sb ∧ sb_inodestart sb < sb_bmapstart sb ∧ sb_bmapstart sb < sb_size sb ≤ FSSIZE.
Proof.
  intros [H1 H2 H3 H4]. assert (0 ≤ sb_ninodes sb / IPB) by (apply Z.div_pos; [lia|done]).
  assert (2 ≤ LOGEND) by (vm_compute; discriminate). lia.
Qed.

Section bitmap.
Context (sb : superblock).

Definition used (V : vmap) (b : Z) : Prop := bit_of (V (sb_bmapstart sb)) b ≠ 0.
#[export] Instance used_dec V b : Decision (used V b).
Proof. unfold used. apply _. Defined.

Definition free_set (V : vmap) : gset Z :=
  filter (λ b, ¬ used V b) (list_to_set (seqZ 0 (sb_size sb))).

(** The blocks before the data area are in use. *)
Definition meta_used (V : vmap) : Prop := ∀ b, 0 ≤ b ≤ sb_bmapstart sb → used V b.

Lemma elem_of_free V b : b ∈ free_set V ↔ 0 ≤ b < sb_size sb ∧ ¬ used V b.
Proof. unfold free_set. rewrite elem_of_filter, elem_of_list_to_set, elem_of_seqZ. naive_solver lia. Qed.

Lemma free_set_ext V V' : V' (sb_bmapstart sb) = V (sb_bmapstart sb) → free_set V = free_set V'.
Proof. intros E. apply set_eq. intros k. rewrite !elem_of_free. unfold used. by rewrite E. Qed.

Definition alloc_view (b : Z) (V : vmap) : vmap :=
  upd_blk b (replicate 512 0) (upd_blk (sb_bmapstart sb) (bit_set b (V (sb_bmapstart sb))) V).
Definition free_view (b : Z) (V : vmap) : vmap :=
  upd_blk (sb_bmapstart sb) (bit_clear b (V (sb_bmapstart sb))) V.

Context (Hsb : sb_ok sb).

Lemma bit_in_block b : 0 ≤ b < sb_size sb → (Z.to_nat (b / 8) < 512)%nat.
Proof. pose proof (so_size _ Hsb). unfold FSSIZE in *. intros. assert (b / 8 < 512) by (apply Z.div_lt_upper_bound; lia). lia. Qed.

Lemma bitmap_block b : 0 ≤ b < sb_size sb → BBLOCK b sb = sb_bmapstart sb ∧ b mod BPB = b.
Proof.
  pose proof (so_size _ Hsb). unfold FSSIZE, BBLOCK, BPB, BSIZE in *. intros.
  rewrite Z.div_small, Z.mod_small by lia. lia.
Qed.

Lemma meta_not_free V b : meta_used V → b ∈ free_set V → sb_bmapstart sb < b < sb_size sb.
Proof.
  intros Hm [Hb Hu]%elem_of_free. destruct (decide (b ≤ sb_bmapstart sb)); [|lia]. exfalso. apply Hu, Hm. lia.
Qed.

Lemma used_alloc V b k :
  length (V (sb_bmapstart sb)) = 512%nat → 0 ≤ b < sb_size sb → b ≠ sb_bmapstart sb → 0 ≤ k →
  used (alloc_view b V) k ↔ k = b ∨ used V k.
Proof.
  intros Hl Hb Hne Hk. unfold used, alloc_view. rewrite upd_blk_ne, upd_blk_eq by done.
  rewrite bit_of_set by (rewrite ?Hl; auto using bit_in_block; lia). destruct (decide (k = b)); tauto.
Qed.

Lemma free_alloc V b :
  length (V (sb_bmapstart sb)) = 512%nat → 0 ≤ b < sb_size sb → b ≠ sb_bmapstart sb →
  free_set (alloc_view b V) = free_set V ∖ {[b]}.
Proof.
  intros Hl Hb Hne. apply set_eq. intros k. rewrite elem_of_difference, !elem_of_free, elem_of_singleton.
  split; [intros [? Hu]|intros [[? Hu] ?]]; rewrite used_alloc in * by (done || lia); tauto.
Qed.

Lemma used_free V b k :
  length (V (sb_bmapstart sb)) = 512%nat → 0 ≤ b < sb_size sb → 0 ≤ k →
  used (free_view b V) k ↔ k ≠ b ∧ used V k.
Proof.
  intros Hl Hb Hk. unfold used, free_view. rewrite upd_blk_eq.
  rewrite bit_of_clear by (rewrite ?Hl; auto using bit_in_block; lia). destruct (decide (k = b)); tauto.
Qed.

Lemma alloc_view_frame b V k : k ≠ b → k ≠ sb_bmapstart sb → alloc_view b V k = V k.
Proof. intros. unfold alloc_view. by rewrite !upd_blk_ne. Qed.
End bitmap.

Section alloc.
Context {X : Type} `{!TxOps X} (rep : X → acache → Prop) `{!RdLaws X ROOTDEV rep} `{!TxLaws X ROOTDEV rep}.
Context (sb : superblock) (cwd : nat) (pid : Z) (Hsb : sb_ok sb).
Abbreviation fsat := (fsat rep sb cwd pid).
Abbreviation bm := (sb_bmapstart sb).

Lemma wp_bzero s ic V P H k (Q : unit → fss X → Prop) :
  fsat s ic V P H → LOGEND ≤ k < FSSIZE → k ∉ map_img (SA:=gset Z) H → room P H →
  (∀ s', fsat s' ic (upd_blk k (replicate 512 0) V) (P ∪ {[k]}) H → Q tt s') →
  wp (bzero ROOTDEV k) s Q.
Proof.
  intros F Hk Hh Hr HQ. unfold bzero. apply wp_bind, (wp_bread F Hk Hh Hr). intros b s1 Hb F1.
  eapply (wp_log F1 (lookup_insert_eq _ _ _)); [done|by rewrite length_replicate|apply Hr|].
  intros s2 F2. eapply (wp_brelse F2 (lookup_insert_eq _ _ _)).
  intros s3 F3. apply HQ. by rewrite delete_insert_eq, delete_id in F3.
Qed.

Lemma balloc_unfold s ic V P H :
  fsat s ic V P H → balloc ROOTDEV s = balloc_loop 1 ROOTDEV 0 s.
Proof.
  intros F. unfold balloc, bind, get. rewrite (at_sb F).
  pose proof (sb_bounds sb Hsb) as Hs. unfold FSSIZE in Hs. f_equal. unfold BPB, BSIZE.
  replace ((sb_size sb + 512 * 8 - 1) / (512 * 8)) with 1; [done|]. Z.div_mod_to_equations. lia.
Qed.

(** balloc takes the lowest free block, marks it and clears it. *)
Lemma wp_balloc s ic V P H (Q : Z → fss X → Prop) :
  fsat s ic V P H → meta_used sb V → free_set sb V ≠ ∅ →
  (∀ k, k ∈ map_img (SA:=gset Z) H → used sb V k ∧ k ≠ bm) → room P H → (size (P ∪ {[bm]}) ≤ 28)%nat →
  (∀ b s', b ∈ free_set sb V → (∀ k, k ∈ free_set sb V → b ≤ k) →
     fsat s' ic (alloc_view sb b V) (P ∪ {[bm]} ∪ {[b]}) H → Q b s') →
  wp (balloc ROOTDEV) s Q.
Proof.
  intros F Hm Hf Hh Hr Hr2 HQ. unfold wp. rewrite (balloc_unfold _ _ _ _ _ F). fold (wp (balloc_loop 1 ROOTDEV 0) s Q).
  pose proof (sb_bounds sb Hsb) as Hsz.
  cbn [balloc_loop]. apply wp_bind, wp_get. rewrite (at_sb F).
  destruct (bitmap_block sb Hsb 0) as [-> _]; [lia|].
  apply wp_bind, (wp_bread F); [lia|by intros [_ []]%Hh|done|]. intros b s1 Hb F1.
  apply wp_bind, (wp_data F1 (lookup_insert_eq _ _ _)).
  replace (Z.min BPB (sb_size sb - 0)) with (sb_size sb) by (unfold BPB, BSIZE, FSSIZE in *; lia).
  pose proof (find_free_spec (V bm) (Z.to_nat (sb_size sb)) 0) as Hff. rewrite Z2Nat.id in Hff by lia.
  destruct (find_free (V bm) _ 0) as [bi|].
  - destruct Hff as (Hb1 & Hb2 & Hb3).
    assert (Hbi : bi ∈ free_set sb V) by (apply elem_of_free; split; [lia|]; unfold used; tauto).
    pose proof (meta_not_free _ _ _ Hm Hbi) as Hbm.
    eapply (wp_log F1 (lookup_insert_eq _ _ _)); [lia| |apply Hr|].
    { unfold bit_set. rewrite length_insert. eapply fsat_length, F. }
    intros s2 F2. apply wp_bind, (wp_brelse F2 (lookup_insert_eq _ _ _)).
    intros s3 F3. rewrite delete_insert_eq, delete_id in F3 by done.
    apply wp_bind, (wp_bzero _ _ _ _ _ _ _ F3); [lia| |split; [done|apply Hr]|].
    { intros [Hu _]%Hh. apply elem_of_free in Hbi. naive_solver. }
    intros s4 F4. apply wp_ret, HQ; [done| |done].
    intros k [Hk Hku]%elem_of_free. destruct (decide (bi ≤ k)); [done|]. exfalso. apply Hku. apply Hb3. lia.
  - exfalso. apply Hf. apply elem_of_equiv_empty_L. intros k [Hk Hu]%elem_of_free. apply Hu. apply Hff. lia.
Qed.

(** Without a free block it panics. *)
Lemma balloc_full s ic V P H :
  fsat s ic V P H → free_set sb V = ∅ → bm ∉ map_img (SA:=gset Z) H → room P H →
  balloc ROOTDEV s = Panic "balloc: out of blocks".
Proof.
  intros F Hf Hh Hr. rewrite (balloc_unfold _ _ _ _ _ F).
  pose proof (sb_bounds sb Hsb) as Hsz.
  cbn [balloc_loop]. rewrite (bind_ret_eval _ _ s s s) by done. rewrite (at_sb F).
  destruct (bitmap_block sb Hsb 0) as [-> _]; [lia|].
  edestruct (wp_bread (k := bm) (Q := λ b s', H !! b = None ∧ fsat s' ic V P (<[b := bm]> H)) F) as (b & s1 & E1 & Hb & F1);
    [lia|done|done|done|].
  rewrite (bind_ret_eval _ _ _ _ _ E1).
  edestruct (wp_data (b := b) (k := bm) (Q := λ d s', d = V bm ∧ s' = s1) F1) as (d & s2 & E2 & -> & ->);
    [by rewrite lookup_insert_eq|done|].
  rewrite (bind_ret_eval _ _ _ _ _ E2).
  replace (Z.min BPB (sb_size sb - 0)) with (sb_size sb) by (unfold BPB, BSIZE, FSSIZE in *; lia).
  pose proof (find_free_spec (V bm) (Z.to_nat (sb_size sb)) 0) as Hff. rewrite Z2Nat.id in Hff by lia.
  destruct (find_free (V bm) _ 0) as [bi|].
  - exfalso. destruct Hff as (Hb1 & Hb2 & Hb3). assert (Hbi : bi ∈ free_set sb V) by (apply elem_of_free; split; [lia|]; unfold used; tauto).
    set_solver.
  - edestruct (wp_brelse (b := b) (k := bm) (Q := λ _ _, True) F1) as ([] & s3 & E3 & _); [by rewrite lookup_insert_eq|done|].
    by rewrite (bind_ret_eval _ _ _ _ _ E3).
Qed.

(** bfree clears the bit of a block in use. *)
Lemma wp_bfree s ic V P H b (Q : unit → fss X → Prop) :
  fsat s ic V P H → 0 ≤ b < sb_size sb → used sb V b → bm ∉ map_img (SA:=gset Z) H → room P H →
  (∀ s', fsat s' ic (free_view sb b V) (P ∪ {[bm]}) H → Q tt s') →
  wp (bfree ROOTDEV b) s Q.
Proof.
  intros F Hb Hu Hh Hr HQ. unfold bfree. apply wp_bind, wp_get. rewrite (at_sb F).
  destruct (bitmap_block sb Hsb b Hb) as [-> ->].
  pose proof (sb_bounds sb Hsb) as Hsz.
  apply wp_bind, (wp_bread F); [lia|done|done|]. intros bp s1 Hbp F1.
  apply wp_bind, (wp_data F1 (lookup_insert_eq _ _ _)).
  destruct (Z.eqb_spec (bit_of (V bm) b) 0) as [E|_]; [done|].
  eapply (wp_log F1 (lookup_insert_eq _ _ _)); [lia| |apply Hr|].
  { unfold bit_clear. rewrite length_insert. eapply fsat_length, F. }
  intros s2 F2. eapply (wp_brelse F2 (lookup_insert_eq _ _ _)).
  intros s3 F3. apply HQ. by rewrite delete_insert_eq, delete_id in F3.
Qed.

End alloc.

Arguments wp_bzero {X _ rep _ _ sb cwd pid s ic V P H k Q}.
Arguments wp_balloc {X _ rep _ _ sb cwd pid} Hsb {s ic V P H Q}.
Arguments balloc_full {X _ rep _ _ sb cwd pid} Hsb {s ic V P H}.
Arguments wp_bfree {X _ rep _ _ sb cwd pid} Hsb {s ic V P H b Q}.
