(* ===== verification/FsMap.v ===== *)
(** The block map of an inode: which disk block holds the n-th block of a
    file, that no block is shared, and bmap, which extends the map. *)

From S2P Require Import Prelude Params Bytes Sleeplock BufCache Log Tx Fs FsAt FsAlloc.

Definition addr_at (l : list Z) (i : nat) : Z := default 0 (l !! i).
Abbreviation ind l := (addr_at l 12).

(** The address of block [bn] of the file with addrs [l]; 0 if there is none. *)
Definition blk (V : vmap) (l : list Z) (bn : nat) : Z :=
  if (bn <? 12)%nat then addr_at l bn
  else if ind l =? 0 then 0 else get32 (V (ind l)) (4 * (bn - 12)).

Definition nblk : nat := 140.

Definition owned (V : vmap) (l : list Z) (k : Z) : Prop :=
  k ≠ 0 ∧ (k = ind l ∨ ∃ j, (j < nblk)%nat ∧ blk V l j = k).

Lemma get32_zero j : get32 (replicate 512 0) j = 0.
Proof.
  unfold get32, byte_of.
  assert (∀ i, default 0 (replicate 512 0 !! i) = 0) as E.
  { intros i. destruct (replicate 512 0 !! i) eqn:H; [|done]. by apply lookup_replicate in H as [-> _]. }
  by rewrite !E.
Qed.

Section map.
Context (sb : superblock).
Abbreviation bm := (sb_bmapstart sb).
Abbreviation used := (used sb).

Definition data_ok (V : vmap) (b : Z) : Prop := bm < b < sb_size sb ∧ used V b.

Record map_ok (V : vmap) (l : list Z) : Prop := {
  mo_len : length l = 13%nat;
  mo_blk j : (j < nblk)%nat → blk V l j ≠ 0 → data_ok V (blk V l j);
  mo_ind : ind l ≠ 0 → data_ok V (ind l);
  mo_inj i j : (i < nblk)%nat → (j < nblk)%nat → blk V l i = blk V l j → blk V l i ≠ 0 → i = j;
  mo_sep j : (j < nblk)%nat → blk V l j ≠ 0 → blk V l j ≠ ind l
}.

Lemma owned_data V l k : map_ok V l → owned V l k → data_ok V k.
Proof. intros Hm [Hk [->|(j & Hj & <-)]]; [by apply mo_ind|by apply mo_blk]. Qed.

Lemma blk_frame V V' l j : (ind l ≠ 0 → V' (ind l) = V (ind l)) → blk V' l j = blk V l j.
Proof.
  intros E. unfold blk. destruct (j <? 12)%nat; [done|]. destruct (Z.eqb_spec (ind l) 0); [done|]. by rewrite E.
Qed.

(** What remains true of a file when its map grows and its blocks change. *)
Record fext (V : vmap) (l : list Z) (V' : vmap) (l' : list Z) : Prop := {
  fe_ok : map_ok V' l';
  fe_meta : meta_used sb V';
  fe_blk j : (j < nblk)%nat → blk V l j ≠ 0 → blk V' l' j = blk V l j;
  fe_frame k : 0 ≤ k → used V k → k ≠ bm → ¬ owned V l k → V' k = V k;
  fe_used k : 0 ≤ k → used V k → used V' k;
  fe_new k : owned V' l' k → owned V l k ∨ ¬ used V k
}.

Lemma fext_refl V l : map_ok V l → meta_used sb V → fext V l V l.
Proof. intros. split; auto. Qed.

Lemma fext_trans V l V1 l1 V2 l2 : 0 ≤ bm → fext V l V1 l1 → fext V1 l1 V2 l2 → fext V l V2 l2.
Proof.
  intros Hbm [A1 A2 A3 A4 A5 A6] [B1 B2 B3 B4 B5 B6]. split; auto.
  - intros j Hj Hn. rewrite B3, A3 by (rewrite ?A3; done). done.
  - intros k Hk Hu Hb Ho. rewrite B4; auto. intros [?|?]%A6; done.
  - intros k Ho. destruct (B6 k Ho) as [?|Hn]; [auto|]. right. intros ?. apply Hn, A5; [|done].
    destruct (owned_data _ _ _ B1 Ho). lia.
Qed.

(** Adding block [b] at position [bn]. *)
Lemma map_ok_attach V l V' l' b bn :
  map_ok V l → (∀ k, 0 ≤ k → used V k → used V' k) → 0 ≤ bm →
  length l' = 13%nat → ind l' = ind l → (bn < nblk)%nat →
  (∀ j, (j < nblk)%nat → blk V' l' j = if decide (j = bn) then b else blk V l j) →
  data_ok V' b → ¬ owned V l b → map_ok V' l'.
Proof.
  intros Hm Hu Hbm Hl Hi Hbn Hb Hd Ho. assert (b ≠ 0) by (destruct Hd; lia).
  assert (Hdk : ∀ k, data_ok V k → data_ok V' k) by (intros k [? ?]; split; [done|]; apply Hu; [lia|done]).
  split; [done|..].
  - intros j Hj. rewrite Hb by done. case_decide; [done|]. intros. by apply Hdk, mo_blk.
  - rewrite Hi. intros. by apply Hdk, mo_ind.
  - intros i j Hi' Hj. rewrite !Hb by done. repeat case_decide; try congruence.
    + intros E _. exfalso. apply Ho. split; [done|]. eauto.
    + intros E _. exfalso. apply Ho. split; [done|]. eauto.
    + by apply mo_inj.
  - intros j Hj. rewrite Hb, Hi by done. case_decide; [|by apply mo_sep].
    intros _ E. apply Ho. split; [done|]. auto.
Qed.

Lemma attach_new V l V' l' b bn :
  ind l' = ind l → (∀ j, (j < nblk)%nat → blk V' l' j = if decide (j = bn) then b else blk V l j) →
  ∀ k, owned V' l' k → owned V l k ∨ k = b.
Proof.
  intros Hi Hb k [Hk [->|(j & Hj & <-)]]; [left; split; [done|by left]|].
  revert Hk. rewrite Hb by done. case_decide; [auto|]. intros. left. split; [done|]. eauto.
Qed.

Context (Hsb : sb_ok sb).

(** Allocating block [b] leaves every file as it was. *)
Lemma alloc_blk V l b j :
  map_ok V l → meta_used sb V → b ∈ free_set sb V → blk (alloc_view sb b V) l j = blk V l j.
Proof.
  intros Hm Hmu [Hb Hbu]%elem_of_free. apply blk_frame. intros Hi. destruct (mo_ind _ _ Hm Hi) as [? ?].
  apply alloc_view_frame; [|lia]. intros <-. done.
Qed.

Section alloc_new.
Context (V : vmap) (l : list Z) (b : Z).
Context (Hm : map_ok V l) (Hmu : meta_used sb V) (Hl : length (V bm) = 512%nat) (Hb : b ∈ free_set sb V).

Lemma alloc_used k : 0 ≤ k → used (alloc_view sb b V) k ↔ k = b ∨ used V k.
Proof.
  intros. pose proof (meta_not_free _ _ _ Hmu Hb). apply elem_of_free in Hb as [? ?]. apply used_alloc; [done..|lia|done].
Qed.

Lemma alloc_data_ok : data_ok (alloc_view sb b V) b.
Proof.
  pose proof (meta_not_free _ _ _ Hmu Hb). pose proof (sb_bounds _ Hsb). split; [done|]. apply alloc_used; [lia|by left].
Qed.

Lemma alloc_not_owned : ¬ owned V l b.
Proof. intros [_ ?]%owned_data; [|done]. apply elem_of_free in Hb as [? ?]. done. Qed.

Lemma alloc_meta : meta_used sb (alloc_view sb b V).
Proof. intros k Hk. apply alloc_used; [lia|]. right. by apply Hmu. Qed.

Lemma alloc_size : size (free_set sb V) = S (size (free_set sb (alloc_view sb b V))).
Proof.
  pose proof (meta_not_free _ _ _ Hmu Hb). rewrite free_alloc by (done || (apply elem_of_free in Hb as [? ?]; done) || lia).
  rewrite size_difference by set_solver. rewrite size_singleton.
  assert (size (free_set sb V) ≠ 0%nat); [|lia]. intros E%size_empty_inv. set_solver.
Qed.

Lemma alloc_frame k : 0 ≤ k → used V k → k ≠ bm → alloc_view sb b V k = V k.
Proof. intros Hk Hu Hne. apply alloc_view_frame; [|done]. intros ->. by apply elem_of_free in Hb as [? ?]. Qed.

(** A direct block. *)
Lemma fext_direct bn :
  (bn < 12)%nat → addr_at l bn = 0 →
  fext V l (alloc_view sb b V) (<[bn := b]> l)
  ∧ ∀ j, (j < nblk)%nat → blk (alloc_view sb b V) (<[bn := b]> l) j = if decide (j = bn) then b else blk V l j.
Proof.
  intros Hbn H0. pose proof (mo_len _ _ Hm) as Hlen.
  assert (Hi : ind (<[bn := b]> l) = ind l) by (unfold addr_at; rewrite list_lookup_insert_ne by lia; done).
  assert (Hblk : ∀ j, (j < nblk)%nat → blk (alloc_view sb b V) (<[bn := b]> l) j = if decide (j = bn) then b else blk V l j).
  { intros j Hj. rewrite <- (alloc_blk V l b j) by done. unfold blk. rewrite Hi. destruct (Nat.ltb_spec j 12).
    - unfold addr_at. case_decide as E; [subst; by rewrite list_lookup_insert_eq by lia|].
      by rewrite list_lookup_insert_ne by congruence.
    - rewrite decide_False by lia. done. }
  split; [|done]. pose proof (sb_bounds _ Hsb). split.
  - eapply map_ok_attach; [exact Hm| |lia|by rewrite length_insert|done| |exact Hblk|apply alloc_data_ok|apply alloc_not_owned].
    + intros. apply alloc_used; auto.
    + unfold nblk. lia.
  - apply alloc_meta.
  - intros j Hj Hn. rewrite Hblk by done. case_decide; [|done]. subst. exfalso. apply Hn. unfold blk.
    by rewrite (proj2 (Nat.ltb_lt _ _)).
  - intros. by apply alloc_frame.
  - intros. apply alloc_used; auto.
  - intros k Ho. destruct (attach_new _ _ _ _ _ _ Hi Hblk k Ho) as [?| ->]; [auto|].
    right. by apply elem_of_free in Hb as [? ?].
Qed.

(** The indirect block itself. *)
Lemma fext_indirect :
  ind l = 0 →
  fext V l (alloc_view sb b V) (<[12%nat := b]> l)
  ∧ ∀ j, (j < nblk)%nat → blk (alloc_view sb b V) (<[12%nat := b]> l) j = blk V l j.
Proof.
  intros H0. pose proof (mo_len _ _ Hm) as Hlen. pose proof (sb_bounds _ Hsb).
  assert (Hi : ind (<[12%nat := b]> l) = b) by (unfold addr_at; by rewrite list_lookup_insert_eq by lia).
  assert (Hb0 : b ≠ 0) by (destruct alloc_data_ok; lia).
  assert (Hblk : ∀ j, (j < nblk)%nat → blk (alloc_view sb b V) (<[12%nat := b]> l) j = blk V l j).
  { intros j Hj. unfold blk. rewrite Hi, H0. destruct (Nat.ltb_spec j 12).
    - unfold addr_at. by rewrite list_lookup_insert_ne by lia.
    - rewrite (proj2 (Z.eqb_neq _ _)) by done. unfold alloc_view. by rewrite upd_blk_eq, get32_zero. }
  split; [|done]. split.
  - split; [by rewrite length_insert|..].
    + intros j Hj. rewrite Hblk by done. intros Hn. destruct (mo_blk _ _ Hm j Hj Hn). split; [done|].
      apply alloc_used; [lia|by right].
    + rewrite Hi. intros _. apply alloc_data_ok.
    + intros i j Hi' Hj. rewrite !Hblk by done. by apply mo_inj.
    + intros j Hj. rewrite Hblk, Hi by done. intros Hn E. apply alloc_not_owned. split; [done|]. eauto.
  - apply alloc_meta.
  - intros j Hj Hn. by apply Hblk.
  - intros. by apply alloc_frame.
  - intros. apply alloc_used; auto.
  - intros k [Hk [->|(j & Hj & <-)]]; rewrite ?Hi.
    + right. by apply elem_of_free in Hb as [? ?].
    + left. rewrite Hblk in Hk |- * by done. split; [done|]. eauto.
Qed.

(** An entry of the indirect block. *)
Lemma fext_entry bn :
  (∀ k, length (V k) = 512%nat) → (12 ≤ bn < nblk)%nat → ind l ≠ 0 → blk V l bn = 0 →
  let V' := upd_blk (ind l) (put32 (4 * (bn - 12)) b (alloc_view sb b V (ind l))) (alloc_view sb b V) in
  fext V l V' l ∧ ∀ j, (j < nblk)%nat → blk V' l j = if decide (j = bn) then b else blk V l j.
Proof.
  intros HlV Hbn Hi0 H0 V'. pose proof (sb_bounds _ Hsb) as Hs. pose proof (meta_not_free _ _ _ Hmu Hb) as Hbr.
  destruct (mo_ind _ _ Hm Hi0) as [Hir Hiu].
  assert (Eind : alloc_view sb b V (ind l) = V (ind l)) by (apply alloc_frame; [lia|done|lia]).
  assert (Hblk : ∀ j, (j < nblk)%nat → blk V' l j = if decide (j = bn) then b else blk V l j).
  { intros j Hj. unfold blk, V'. destruct (Nat.ltb_spec j 12); [rewrite decide_False by lia; done|].
    rewrite (proj2 (Z.eqb_neq _ _)), upd_blk_eq, Eind by done. unfold nblk in *. case_decide as E.
    - subst. rewrite get32_put32 by (rewrite HlV; lia). apply u32_small. unfold FSSIZE in Hs. lia.
    - apply get32_put32_ne; [rewrite HlV; lia|lia]. }
  assert (Hus : ∀ k, 0 ≤ k → used V k → used V' k).
  { intros k Hk Hu. unfold V', FsAlloc.used. rewrite upd_blk_ne by lia. apply alloc_used; auto. }
  split; [|done]. split.
  - eapply map_ok_attach; [exact Hm|exact Hus|lia|apply Hm|done|apply Hbn|exact Hblk| |apply alloc_not_owned].
    split; [lia|]. unfold V', FsAlloc.used. rewrite upd_blk_ne by lia. apply alloc_data_ok.
  - intros k Hk. apply Hus; [lia|]. by apply Hmu.
  - intros j Hj Hn. rewrite Hblk by done. case_decide; [|done]. congruence.
  - intros k Hk Hu Hne Ho. unfold V'. rewrite upd_blk_ne; [by apply alloc_frame|]. intros ->. apply Ho. split; auto.
  - done.
  - intros k Ho. destruct (attach_new V l V' l b bn eq_refl Hblk k Ho) as [?| ->]; [auto|].
    right. by apply elem_of_free in Hb as [? ?].
Qed.
End alloc_new.
End map.

Lemma addr_lookup l i : (i < length l)%nat → l !! i = Some (addr_at l i).
Proof. intros [x Hx]%lookup_lt_is_Some_2. unfold addr_at. by rewrite Hx. Qed.

Definition indset (l : list Z) : gset Z := if decide (ind l = 0) then ∅ else {[ind l]}.
(** The indirect block still to be allocated. *)
Definition need (l : list Z) : nat := if decide (ind l = 0) then 1 else 0.

Lemma set_addrs_id p : set_i_addrs (i_addrs p) p = p.
Proof. by destruct p. Qed.

(** Sizes of the sets of logged blocks. *)
Lemma pins_size (R : gset Z) x b l : (size R ≤ 25)%nat → (size (R ∪ {[b]} ∪ {[x]} ∪ indset l) ≤ 28)%nat.
Proof.
  intros HR. assert (size (indset l) ≤ 1)%nat by (unfold indset; case_decide; rewrite ?size_singleton, ?size_empty; lia).
  pose proof (size_union_alt (R ∪ {[b]} ∪ {[x]}) (indset l)). pose proof (size_union_alt (R ∪ {[b]}) {[x]}).
  pose proof (size_union_alt R {[b]}).
  assert (size (indset l ∖ (R ∪ {[b]} ∪ {[x]})) ≤ size (indset l))%nat by (apply subseteq_size; set_solver).
  assert (size ({[x]} ∖ (R ∪ {[b]}) : gset Z) ≤ size ({[x]} : gset Z))%nat by (apply subseteq_size; set_solver).
  assert (size ({[b]} ∖ R : gset Z) ≤ size ({[b]} : gset Z))%nat by (apply subseteq_size; set_solver).
  rewrite !size_singleton in *. lia.
Qed.

Lemma pins_le (P R : gset Z) x b l : (size R ≤ 25)%nat → P ⊆ R ∪ {[b]} ∪ {[x]} ∪ indset l → (size P ≤ 28)%nat.
Proof. intros HR HP%subseteq_size. pose proof (pins_size R x b l HR). lia. Qed.

Section bmap.
Context {X : Type} `{!TxOps X} (rep : X → acache → Prop) `{!RdLaws X ROOTDEV rep}.
Context (sb : superblock) (cwd : nat) (pid : Z) (Hsb : sb_ok sb).
Abbreviation fsat := (fsat rep sb cwd pid).
Abbreviation bm := (sb_bmapstart sb).

(** A mapped block is found without changing anything. *)
Lemma wp_bmap_old s ic V P ip p bn (Q : Z → fss X → Prop) :
  fsat s ic V P ∅ → ic !! ip = Some p → i_dev p = ROOTDEV → map_ok sb V (i_addrs p) → (bn < nblk)%nat →
  blk V (i_addrs p) bn ≠ 0 → (size P ≤ 28)%nat →
  (∀ s', fsat s' ic V P ∅ → Q (blk V (i_addrs p) bn) s') → wp (bmap ip (Z.of_nat bn)) s Q.
Proof.
  intros F Hp Hd Hm Hbn Hb HP HQ. pose proof (mo_len _ _ _ Hm) as Hl. unfold bmap, NDIRECT, NINDIRECT, BSIZE.
  apply wp_bind, (wp_geti F Hp). revert Hb HQ. unfold blk, nblk in *. destruct (Nat.ltb_spec bn 12) as [Hlt|Hge]; intros Hb HQ.
  - rewrite (proj2 (Z.ltb_lt _ _)) by lia. eapply wp_bind, wp_of_option; [rewrite Nat2Z.id; apply addr_lookup; lia|].
    rewrite (proj2 (Z.eqb_neq _ _)) by done. by apply wp_ret, HQ.
  - destruct (Z.eqb_spec (ind (i_addrs p)) 0) as [|Hi]; [done|]. destruct (mo_ind _ _ _ Hm Hi) as [Hir _].
    pose proof (sb_bounds _ Hsb). rewrite (proj2 (Z.ltb_ge _ _)) by lia. change (512 / 4) with 128. rewrite (proj2 (Z.ltb_lt _ _)) by lia.
    eapply wp_bind, wp_of_option; [apply (addr_lookup _ 12); lia|].
    rewrite (proj2 (Z.eqb_neq _ _)) by done. apply wp_bind, wp_ret. rewrite Hd.
    apply wp_bind, (wp_bread F); [lia|apply not_in_empty_img|by apply room_empty|]. intros bp s1 _ F1.
    apply wp_bind, (wp_data F1 (lookup_insert_eq _ _ _)).
    replace (4 * Z.to_nat (Z.of_nat bn - 12))%nat with (4 * (bn - 12))%nat by lia.
    rewrite (proj2 (Z.eqb_neq _ _)) by done. apply wp_bind, wp_ret.
    apply wp_bind, (wp_brelse F1 (lookup_insert_eq _ _ _)). intros s2 F2. apply wp_ret, HQ.
    by rewrite delete_insert_eq, delete_empty in F2.
Qed.

Context `{!TxLaws X ROOTDEV rep}.

Record bmap_post (V : vmap) (l : list Z) (bn : nat) (R : gset Z) (V' : vmap) (l' : list Z) (P' : gset Z) (b : Z) : Prop := {
  bp_ext : fext sb V l V' l';
  bp_blk : blk V' l' bn = b;
  bp_nz : b ≠ 0;
  bp_data j : (j < nblk)%nat → blk V l j ≠ 0 → V' (blk V l j) = V (blk V l j);
  bp_zero : blk V l bn = 0 → V' b = replicate 512 0;
  bp_same : blk V l bn ≠ 0 → V' = V ∧ l' = l;
  bp_pin : P' ⊆ R ∪ {[b]} ∪ {[bm]} ∪ indset l';
  bp_free : (size (free_set sb V) + need l' ≤ size (free_set sb V') + 1 + need l)%nat
}.

Lemma free_nonempty V n : (S n ≤ size (free_set sb V))%nat → free_set sb V ≠ ∅.
Proof. intros H E. rewrite E, size_empty in H. lia. Qed.

(** The two ways to map a new block. *)
Lemma bmap_post_direct V l bn R P' b :
  map_ok sb V l → meta_used sb V → length (V bm) = 512%nat → b ∈ free_set sb V → (bn < 12)%nat → addr_at l bn = 0 →
  P' ⊆ R ∪ {[b]} ∪ {[bm]} ∪ indset l → bmap_post V l bn R (alloc_view sb b V) (<[bn := b]> l) P' b.
Proof.
  intros Hm Hmu HlV Hb Hlt Ha0 HP'. pose proof (mo_len _ _ _ Hm) as Hl.
  destruct (fext_direct sb Hsb V l b Hm Hmu HlV Hb bn Hlt Ha0) as [He Hblk].
  assert (Hi : ind (<[bn := b]> l) = ind l) by (unfold addr_at; by rewrite list_lookup_insert_ne by lia).
  assert (Hb0 : blk V l bn = 0) by (unfold blk; by rewrite (proj2 (Nat.ltb_lt _ _))).
  split; [done| | | | | | |].
  - rewrite Hblk, decide_True; [done|done|unfold nblk; lia].
  - pose proof (meta_not_free _ _ _ Hmu Hb). pose proof (sb_bounds _ Hsb). lia.
  - intros j Hj Hn. destruct (mo_blk _ _ _ Hm j Hj Hn) as [? ?]. pose proof (sb_bounds _ Hsb). apply alloc_frame; [done|lia|done|lia].
  - intros _. unfold alloc_view. by rewrite upd_blk_eq.
  - done.
  - unfold indset in *. by rewrite Hi.
  - unfold need. rewrite Hi. rewrite (alloc_size sb Hsb V l b) by done. lia.
Qed.

Lemma bmap_post_entry V l bn R P' b :
  map_ok sb V l → meta_used sb V → (∀ k, length (V k) = 512%nat) → b ∈ free_set sb V → (12 ≤ bn < nblk)%nat → ind l ≠ 0 →
  blk V l bn = 0 → P' ⊆ R ∪ {[b]} ∪ {[bm]} ∪ indset l →
  bmap_post V l bn R (upd_blk (ind l) (put32 (4 * (bn - 12)) b (alloc_view sb b V (ind l))) (alloc_view sb b V)) l P' b.
Proof.
  intros Hm Hmu HlV Hb Hbn Hi Hb0 HP'. destruct (mo_ind _ _ _ Hm Hi) as [Hir Hiu]. pose proof (sb_bounds _ Hsb).
  destruct (fext_entry sb Hsb V l b Hm Hmu (HlV bm) Hb bn HlV Hbn Hi Hb0) as [He Hblk].
  assert (Hbr := meta_not_free _ _ _ Hmu Hb).
  split; [done| | | | | | |].
  - rewrite Hblk, decide_True by (done || lia). done.
  - lia.
  - intros j Hj Hn. destruct (mo_blk _ _ _ Hm j Hj Hn) as [? ?]. rewrite upd_blk_ne by (by apply mo_sep with sb).
    apply alloc_frame; [done|lia|done|lia].
  - intros _. rewrite upd_blk_ne. { unfold alloc_view. by rewrite upd_blk_eq. }
    intros ->. by apply elem_of_free in Hb as [_ ?].
  - congruence.
  - done.
  - rewrite (alloc_size sb Hsb V l b) by done.
    rewrite (free_set_ext sb (alloc_view sb b V) (upd_blk (ind l)
      (put32 (4 * (bn - 12)) b (alloc_view sb b V (ind l))) (alloc_view sb b V))); [lia|].
    rewrite upd_blk_ne; [done|lia].
Qed.

Section new.
Context (s : fss X) (ic : list inode) (V : vmap) (P R : gset Z) (ip : nat) (p : inode) (bn : nat).
Context (Hp : ic !! ip = Some p) (Hd : i_dev p = ROOTDEV).
Context (Hm : map_ok sb V (i_addrs p)) (Hmu : meta_used sb V) (Hbn : (bn < nblk)%nat).
Context (HP : P ⊆ R ∪ {[bm]} ∪ indset (i_addrs p)) (HR : (size R ≤ 25)%nat).

Lemma bmap_room : (size P ≤ 28 ∧ size (P ∪ {[bm]}) ≤ 28)%nat.
Proof using HP HR. clear -HP HR. split; apply (pins_le _ R bm bm (i_addrs p)); set_solver. Qed.

Lemma bmap_direct (Q : Z → fss X → Prop) :
  fsat s ic V P ∅ → (bn < 12)%nat → blk V (i_addrs p) bn = 0 → (1 ≤ size (free_set sb V))%nat →
  (∀ b s' V' l' P', fsat s' (<[ip := set_i_addrs l' p]> ic) V' P' ∅ → bmap_post V (i_addrs p) bn R V' l' P' b → Q b s') →
  wp (bmap ip (Z.of_nat bn)) s Q.
Proof.
  intros F Hlt Hb0 Hfree HQ. destruct bmap_room as [Hr1 Hr2]. pose proof (mo_len _ _ _ Hm) as Hl.
  assert (Ha0 : addr_at (i_addrs p) bn = 0) by (unfold blk in Hb0; by rewrite (proj2 (Nat.ltb_lt _ _)) in Hb0).
  unfold bmap. apply wp_bind, (wp_geti F Hp). unfold NDIRECT. rewrite (proj2 (Z.ltb_lt _ _)) by lia.
  eapply wp_bind, wp_of_option; [rewrite Nat2Z.id; apply addr_lookup; lia|]. rewrite Ha0, Z.eqb_refl, Hd.
  apply wp_bind, (wp_balloc Hsb F Hmu);
    [by eapply free_nonempty|by intros k []%not_in_empty_img|by apply room_empty|done|].
  intros b s1 Hb _ F1. apply wp_bind, (wp_updi F1 Hp). intros s2 F2. rewrite Nat2Z.id in F2.
  apply wp_ret, (HQ _ _ _ _ _ F2). apply bmap_post_direct; try done; [apply (fsat_length bm F)|]. clear -HP. set_solver.
Qed.

(** The last part of bmap, with the indirect block in place. *)
Definition bmap_entry (dev addr : Z) : M (fss X) Z :=
  bp <- on_fx (t_bread dev addr) ;;
  a <- on_fx (t_data bp) ;;
  let addr := get32 a (4 * (bn - 12)) in
  addr <- (if addr =? 0 then
             addr <- balloc dev ;;
             a <- on_fx (t_data bp) ;;
             on_fx (t_set_data bp (put32 (4 * (bn - 12)) addr a)) ;;;
             on_fx (t_log_write bp) ;;;
             ret addr
           else ret addr) ;;
  on_fx (t_brelse bp) ;;;
  ret addr.

Lemma wp_bmap_entry (Q : Z → fss X → Prop) :
  fsat s ic V P ∅ → (12 ≤ bn)%nat → blk V (i_addrs p) bn = 0 → ind (i_addrs p) ≠ 0 → (1 ≤ size (free_set sb V))%nat →
  (∀ b s' V' l' P', fsat s' (<[ip := set_i_addrs l' p]> ic) V' P' ∅ → bmap_post V (i_addrs p) bn R V' l' P' b → Q b s') →
  wp (bmap_entry (i_dev p) (ind (i_addrs p))) s Q.
Proof.
  intros F Hge Hb0 Hi Hfree HQ. destruct bmap_room as [Hr1 Hr2]. pose proof (sb_bounds _ Hsb).
  destruct (mo_ind _ _ _ Hm Hi) as [Hir Hiu]. unfold bmap_entry. rewrite Hd.
  apply wp_bind, (wp_bread F); [lia|apply not_in_empty_img|by apply room_empty|]. intros bp s1 _ F1.
  apply wp_bind, (wp_data F1 (lookup_insert_eq _ _ _)).
  assert (E0 : get32 (V (ind (i_addrs p))) (4 * (bn - 12)) = 0).
  { unfold blk in Hb0. rewrite (proj2 (Nat.ltb_ge _ _)) in Hb0 by lia. by rewrite (proj2 (Z.eqb_neq _ _)) in Hb0. }
  rewrite E0, Z.eqb_refl. apply wp_bind, wp_bind, (wp_balloc Hsb F1 Hmu); [by eapply free_nonempty| |split; [done|]|done|].
  { intros k. rewrite insert_empty, map_img_singleton_L. intros ->%elem_of_singleton. split; [done|lia]. }
  { rewrite insert_empty, map_size_singleton. lia. }
  intros b s2 Hb _ F2. apply wp_bind, (wp_data F2 (lookup_insert_eq _ _ _)).
  assert (Hbr := meta_not_free _ _ _ Hmu Hb).
  eapply (wp_log F2 (lookup_insert_eq _ _ _)); [lia|rewrite put32_length; apply (fsat_length _ F2)| |].
  { apply (pins_le _ R bm b (i_addrs p)); set_solver. }
  intros s3 F3. apply wp_ret, wp_bind, (wp_brelse F3 (lookup_insert_eq _ _ _)). intros s4 F4.
  rewrite delete_insert_eq, delete_empty in F4.
  apply wp_ret. eapply (HQ b _ _ (i_addrs p)).
  { rewrite set_addrs_id, list_insert_id by done. exact F4. }
  apply bmap_post_entry; try done; [apply (λ k, fsat_length k F)|]. unfold indset in *. rewrite decide_False in * by done. clear -HP. set_solver.
Qed.
End new.

Lemma bmap_post_indirect V l i0 bn R V' l' P' b :
  map_ok sb V l → meta_used sb V → (∀ k, length (V k) = 512%nat) → i0 ∈ free_set sb V → ind l = 0 → (bn < nblk)%nat → blk V l bn = 0 →
  bmap_post (alloc_view sb i0 V) (<[12%nat := i0]> l) bn R V' l' P' b → bmap_post V l bn R V' l' P' b.
Proof.
  intros Hm Hmu Hl Hb Hi Hbn Hbz [A1 A2 A3 A4 A5 A5' A6 A7]. pose proof (sb_bounds _ Hsb).
  destruct (fext_indirect sb Hsb V l i0 Hm Hmu (Hl bm) Hb Hi) as [He Hblk].
  pose proof (alloc_size sb Hsb V l i0 Hm Hmu (Hl bm) Hb) as Hsz. pose proof (mo_len _ _ _ Hm).
  pose proof (meta_not_free _ _ _ Hmu Hb). split; try done.
  - eapply fext_trans; [lia|exact He|done].
  - intros j Hj Hn. rewrite <- (Hblk j Hj) at 1. rewrite A4; [|done|by rewrite Hblk]. rewrite Hblk by done.
    destruct (mo_blk _ _ _ Hm j Hj Hn). apply alloc_frame; [done|lia|done|lia].
  - intros E. apply A5. by rewrite Hblk.
  - assert (need l = 1%nat) by (unfold need; by rewrite decide_True).
    assert (need (<[12%nat := i0]> l) = 0%nat); [|lia]. unfold need. apply decide_False.
    unfold addr_at. rewrite list_lookup_insert_eq by lia. simpl. lia.
Qed.

(** bmap maps block [bn], allocating it and the indirect block on demand. *)
Lemma wp_bmap s ic V P R ip p bn (Q : Z → fss X → Prop) :
  fsat s ic V P ∅ → ic !! ip = Some p → i_dev p = ROOTDEV → map_ok sb V (i_addrs p) → meta_used sb V → (bn < nblk)%nat →
  P ⊆ R ∪ {[bm]} ∪ indset (i_addrs p) → (size R ≤ 25)%nat →
  blk V (i_addrs p) bn ≠ 0 ∨ (1 + need (i_addrs p) ≤ size (free_set sb V))%nat →
  (∀ b s' V' l' P', fsat s' (<[ip := set_i_addrs l' p]> ic) V' P' ∅ → bmap_post V (i_addrs p) bn R V' l' P' b → Q b s') →
  wp (bmap ip (Z.of_nat bn)) s Q.
Proof.
  intros F Hp Hd Hm Hmu Hbn HP HR Hfree HQ. destruct (bmap_room P R p HP HR) as [Hr1 Hr2].
  destruct (decide (blk V (i_addrs p) bn = 0)) as [Hb0|Hb].
  2:{ apply (wp_bmap_old _ _ _ _ _ _ _ _ F Hp Hd Hm Hbn Hb Hr1). intros s' F'.
      apply (HQ _ s' V (i_addrs p) P); [by rewrite set_addrs_id, list_insert_id|].
      split; auto using fext_refl; [congruence|set_solver|lia]. }
  destruct Hfree as [?|Hfree]; [done|].
  destruct (decide (bn < 12)%nat) as [Hlt|Hge]; [apply (bmap_direct s ic V P R ip p bn Hp Hd Hm Hmu Hbn HP HR Q F Hlt Hb0); [lia|exact HQ]|].
  pose proof (mo_len _ _ _ Hm) as Hl. unfold bmap, NDIRECT, NINDIRECT, BSIZE, nblk in *. change (512 / 4) with 128.
  apply wp_bind, (wp_geti F Hp). rewrite (proj2 (Z.ltb_ge _ _)) by lia. rewrite (proj2 (Z.ltb_lt _ _)) by lia.
  eapply wp_bind, wp_of_option; [apply (addr_lookup _ 12); lia|].
  replace (4 * Z.to_nat (Z.of_nat bn - 12))%nat with (4 * (bn - 12))%nat by lia. rewrite Hd.
  destruct (Z.eqb_spec (ind (i_addrs p)) 0) as [Hi|Hi].
  - apply wp_bind, wp_bind, (wp_balloc Hsb F Hmu);
      [by eapply free_nonempty|by intros k []%not_in_empty_img|by apply room_empty|done|].
    intros i0 s1 Hb _ F1. apply wp_bind, (wp_updi F1 Hp). intros s2 F2. apply wp_ret.
    set (l1 := <[12%nat := i0]> (i_addrs p)). set (p1 := set_i_addrs l1 p).
    destruct (fext_indirect sb Hsb V (i_addrs p) i0 Hm Hmu (fsat_length bm F) Hb Hi) as [He Hblk].
    assert (Hi0 : ind l1 = i0) by (unfold l1, addr_at; rewrite list_lookup_insert_eq by lia; done).
    assert (Hnz : i0 ≠ 0) by (pose proof (meta_not_free _ _ _ Hmu Hb); pose proof (sb_bounds _ Hsb); lia).
    pose proof (alloc_size sb Hsb V (i_addrs p) i0 Hm Hmu (fsat_length bm F) Hb) as Hsz.
    assert (Hl1 : indset l1 = {[i0]}) by (unfold indset; rewrite Hi0, decide_False; done).
    assert (Hl0 : indset (i_addrs p) = ∅) by (unfold indset; rewrite decide_True; done).
    change (wp (bmap_entry bn ROOTDEV i0) s2 Q). rewrite <- Hd, <- Hi0.
    apply (wp_bmap_entry s2 (<[ip := p1]> ic) (alloc_view sb i0 V) (P ∪ {[bm]} ∪ {[i0]}) R ip p1 bn); try done.
    + rewrite list_lookup_insert_eq; [done|by eapply lookup_lt_Some].
    + apply He.
    + apply He.
    + change (i_addrs p1) with l1. rewrite Hl1, Hl0 in *. set_solver.
    + lia.
    + change (i_addrs p1) with l1. by rewrite Hblk.
    + change (i_addrs p1) with l1. congruence.
    + unfold need in Hfree. rewrite decide_True in Hfree by done. lia.
    + intros b s' V' l' P' F' Hpost. rewrite list_insert_insert_eq in F'. apply (HQ b s' V' l' P'); [exact F'|].
      apply (bmap_post_indirect V (i_addrs p) i0); try done. intros k. apply (fsat_length k F).
  - apply wp_bind, wp_ret. change (wp (bmap_entry bn ROOTDEV (ind (i_addrs p))) s Q). rewrite <- Hd.
    apply (wp_bmap_entry s ic V P R ip p bn); auto; lia.
Qed.
End bmap.

Arguments wp_bmap_old {X _ rep _ sb cwd pid} Hsb {s ic V P ip p bn Q}.
Arguments wp_bmap {X _ rep _ sb cwd pid} Hsb {_ s ic V P} R {ip p bn Q}.
Arguments fe_ok {sb V l V' l'}.
Arguments fe_meta {sb V l V' l'}.
Arguments bp_ext {sb V l bn R V' l' P' b}.
