(* ===== verification/FsFile.v ===== *)
(** The contents of a file as a function from offsets to bytes; readi and
    writei against it; inodes on disk. *)

From S2P Require Import Prelude Params Bytes Sleeplock BufCache Log Tx Fs FsAt FsAlloc FsMap.

Definition fbyte (V : vmap) (l : list Z) (o : nat) : Z := byte_of (V (blk V l (o / 512))) (o mod 512).

(** * Byte arrays *)

Lemma slice_bytes o m d : (o + m ≤ length d)%nat → slice o m d = (λ i, byte_of d (o + i)) <$> seq 0 m.
Proof.
  intros H. unfold slice. apply list_eq. intros i. rewrite lookup_take, lookup_drop, list_lookup_fmap.
  case_decide as Hi.
  - rewrite lookup_seq_lt by done. simpl. unfold byte_of.
    destruct (lookup_lt_is_Some_2 d (o + i)) as [x ->]; [lia|done].
  - by rewrite lookup_seq_ge by lia.
Qed.

Lemma splice_length o v d : (o + length v ≤ length d)%nat → length (splice o v d) = length d.
Proof. intros. unfold splice. rewrite !length_app, length_take, length_drop. lia. Qed.

Lemma byte_of_splice o v d i :
  (o + length v ≤ length d)%nat →
  byte_of (splice o v d) i = if decide (o ≤ i < o + length v)%nat then byte_of v (i - o) else byte_of d i.
Proof.
  intros H. unfold splice, byte_of. case_decide as Hi.
  - rewrite lookup_app_r by (rewrite length_take; lia). rewrite length_take, Nat.min_l by lia.
    by rewrite lookup_app_l by lia.
  - destruct (decide (i < o)%nat).
    + rewrite lookup_app_l by (rewrite length_take; lia). by rewrite lookup_take, decide_True by lia.
    + rewrite lookup_app_r by (rewrite length_take; lia). rewrite length_take, Nat.min_l by lia.
      rewrite lookup_app_r by lia. rewrite lookup_drop. do 2 f_equal. lia.
Qed.

Lemma fbyte_seq V l o m :
  (o mod 512 + m ≤ 512)%nat → length (V (blk V l (o / 512))) = 512%nat →
  slice (o mod 512) m (V (blk V l (o / 512))) = fbyte V l <$> seq o m.
Proof.
  intros Hm Hl. rewrite slice_bytes by lia.
  apply list_eq. intros i. rewrite !list_lookup_fmap. destruct (decide (i < m)%nat).
  - rewrite !lookup_seq_lt by done. simpl. unfold fbyte.
    assert ((o + i) / 512 = o / 512 ∧ (o + i) mod 512 = o mod 512 + i)%nat as [-> ->]; [|done].
    pose proof (Nat.div_mod_eq o 512) as E. split.
    + symmetry. apply (Nat.div_unique _ _ _ (o mod 512 + i)); lia.
    + symmetry. apply (Nat.mod_unique _ _ (o / 512)); lia.
  - by rewrite !lookup_seq_ge by lia.
Qed.

Lemma u32_of x : 0 ≤ x ≤ 4000000000 → u32 x = x.
Proof. intros. apply u32_small. lia. Qed.

(** Offsets in one block. *)
Lemma same_block o i : (o mod 512 + i < 512)%nat → ((o + i) / 512 = o / 512 ∧ (o + i) mod 512 = o mod 512 + i)%nat.
Proof.
  intros. pose proof (Nat.div_mod_eq o 512) as E. split.
  - symmetry. apply (Nat.div_unique _ _ _ (o mod 512 + i)); lia.
  - symmetry. apply (Nat.mod_unique _ _ (o / 512)); lia.
Qed.

(** The number of blocks that [n] bytes at [o] touch. *)
Definition span (o n : nat) : nat := if decide (n = 0)%nat then 0 else (o mod 512 + n + 511) / 512.

Lemma span_step o n m :
  (1 ≤ m ≤ n)%nat → (m = n ∧ o mod 512 + m ≤ 512 ∨ o mod 512 + m = 512)%nat → (S (span (o + m) (n - m)) ≤ span o n)%nat.
Proof.
  intros Hm Hc. unfold span. rewrite (decide_False (P := n = 0%nat)) by lia. case_decide.
  - apply (Nat.Div0.div_le_mono 512 _ 512). lia.
  - destruct Hc as [[-> _]|Hc]; [lia|]. assert ((o + m) mod 512 = 0)%nat as ->.
    { pose proof (Nat.div_mod_eq o 512). symmetry. apply (Nat.mod_unique _ _ (o / 512 + 1)); lia. }
    replace (o mod 512 + n + 511)%nat with (0 + (n - m) + 511 + 1 * 512)%nat by lia. rewrite Nat.div_add by lia. lia.
Qed.

Lemma union_size_1 (R : gset Z) b : (size (R ∪ {[b]}) ≤ size R + 1)%nat.
Proof.
  rewrite size_union_alt. assert (size ({[b]} ∖ R : gset Z) ≤ size ({[b]} : gset Z))%nat by (apply subseteq_size; set_solver).
  rewrite size_singleton in *. lia.
Qed.

Section file.
Context {X : Type} `{!TxOps X} (rep : X → acache → Prop) `{!RdLaws X ROOTDEV rep}.
Context (sb : superblock) (cwd : nat) (pid : Z) (Hsb : sb_ok sb).
Context (dev_read : Z → option (nat → Z → M (fss X) (Z * list Z))).
Context (dev_write : Z → option (nat → list Z → M (fss X) Z)).
Abbreviation fsat := (fsat rep sb cwd pid).
Abbreviation bm := (sb_bmapstart sb).

(** A file or directory whose blocks up to its size are all there. *)
Record file_ok (V : vmap) (p : inode) : Prop := {
  fo_dev : i_dev p = ROOTDEV;
  fo_inum : 0 ≤ i_inum p < sb_ninodes sb;
  fo_type : i_type p ≠ T_DEV;
  fo_size : 0 ≤ i_size p ≤ 71680;
  fo_map : map_ok sb V (i_addrs p);
  fo_full j : Z.of_nat j * 512 < i_size p → blk V (i_addrs p) j ≠ 0
}.

Lemma fo_block V p o : file_ok V p → Z.of_nat o < i_size p → (o / 512 < nblk)%nat ∧ blk V (i_addrs p) (o / 512) ≠ 0.
Proof.
  intros Hf Ho. pose proof (fo_size _ _ Hf). unfold nblk. split.
  - apply Nat.Div0.div_lt_upper_bound. lia.
  - apply (fo_full _ _ Hf). pose proof (Nat.Div0.mul_div_le o 512). lia.
Qed.

Lemma wp_readi_loop ic V P ip p n (Q : list Z → fss X → Prop) :
  ic !! ip = Some p → file_ok V p → (size P ≤ 28)%nat → ∀ f s tot o,
  fsat s ic V P ∅ → 0 ≤ tot ≤ n ∧ n ≤ 71680 → (Z.to_nat (n - tot) ≤ f)%nat → Z.of_nat o + (n - tot) ≤ i_size p →
  (∀ s', fsat s' ic V P ∅ → Q (fbyte V (i_addrs p) <$> seq o (Z.to_nat (n - tot))) s') →
  wp (readi_loop f ip tot (Z.of_nat o) n) s Q.
Proof.
  intros Hp Hf HP. pose proof (fo_size _ _ Hf) as Hsz. pose proof (sb_bounds _ Hsb). intros f. revert Q.
  induction f as [|f IH]; intros Q s tot o F Ht Hn Ho HQ; cbn [readi_loop]; destruct (Z.ltb_spec tot n) as [Hlt|Hge].
  - lia.
  - replace (Z.to_nat (n - tot)) with 0%nat in HQ by lia. by apply wp_ret, HQ.
  - destruct (fo_block V p o Hf) as [Hb Hbn]; [lia|]. apply wp_bind, (wp_geti F Hp).
    replace (Z.of_nat o / BSIZE) with (Z.of_nat (o / 512)) by (rewrite Nat2Z.inj_div; done).
    apply wp_bind, (wp_bmap_old Hsb F Hp (fo_dev _ _ Hf) (fo_map _ _ Hf) Hb Hbn HP). intros s1 F1.
    destruct (mo_blk _ _ _ (fo_map _ _ Hf) _ Hb Hbn) as [Hr _]. rewrite (fo_dev _ _ Hf).
    replace (Z.of_nat o mod BSIZE) with (Z.of_nat (o mod 512)) by (rewrite Nat2Z.inj_mod; done).
    set (m := Z.min (n - tot) (BSIZE - Z.of_nat (o mod 512))).
    pose proof (Nat.mod_upper_bound o 512). assert (Hm : 1 ≤ m ≤ n - tot ∧ m ≤ 512 - Z.of_nat (o mod 512)) by (unfold m, BSIZE; lia).
    cbv zeta. apply (wp_peek F1); [lia|apply not_in_empty_img|by apply room_empty|]. intros s2 F2. rewrite Nat2Z.id.
    rewrite fbyte_seq by (rewrite ?(fsat_length _ F); lia).
    rewrite !u32_of by lia. apply wp_bind. replace (Z.of_nat o + m) with (Z.of_nat (o + Z.to_nat m)) by lia.
    apply (IH _ _ _ _ F2); [lia|lia|lia|]. intros s3 F3. apply wp_ret.
    rewrite <- fmap_app, <- seq_app. replace (Z.to_nat m + Z.to_nat (n - (tot + m)))%nat with (Z.to_nat (n - tot)) by lia.
    by apply HQ.
  - replace (Z.to_nat (n - tot)) with 0%nat in HQ by lia. by apply wp_ret, HQ.
Qed.

(** readi returns the bytes of the file from [off], up to its end. *)
Lemma wp_readi s ic V P ip p o n (Q : Z * list Z → fss X → Prop) :
  fsat s ic V P ∅ → ic !! ip = Some p → file_ok V p → (size P ≤ 28)%nat →
  Z.of_nat o ≤ i_size p → 0 ≤ n < 4294000000 →
  (∀ s', fsat s' ic V P ∅ →
     let k := Z.min n (i_size p - Z.of_nat o) in Q (k, fbyte V (i_addrs p) <$> seq o (Z.to_nat k)) s') →
  wp (readi dev_read ip (Z.of_nat o) n) s Q.
Proof.
  intros F Hp Hf HP Ho Hn HQ. unfold readi. pose proof (fo_size _ _ Hf). apply wp_bind, (wp_geti F Hp).
  rewrite (proj2 (Z.eqb_neq _ _) (fo_type _ _ Hf)). rewrite u32_small by lia.
  destruct (Z.ltb_spec (i_size p) (Z.of_nat o)); [lia|]. destruct (Z.ltb_spec (Z.of_nat o + n) (Z.of_nat o)); [lia|].
  change (false || false) with false. cbv iota zeta.
  assert (E : (if i_size p <? Z.of_nat o + n then u32 (i_size p - Z.of_nat o) else n) = Z.min n (i_size p - Z.of_nat o)).
  { destruct (Z.ltb_spec (i_size p) (Z.of_nat o + n)); [rewrite u32_of by lia|]; lia. }
  rewrite E. apply wp_bind, (wp_readi_loop ic V P ip p _ _ Hp Hf HP _ _ _ _ F); [lia|lia|lia|].
  intros s' F'. apply wp_ret. rewrite s32_small by lia. rewrite Z.sub_0_r. by apply HQ.
Qed.

(** * Writing *)

Context `{!TxLaws X ROOTDEV rep}.

(** Storing in a block of the file. *)
Lemma blk_data_write V l bn v j :
  map_ok sb V l → (bn < nblk)%nat → blk V l bn ≠ 0 → blk (upd_blk (blk V l bn) v V) l j = blk V l j.
Proof.
  intros Hm Hbn Hb. apply blk_frame. intros Hi. apply upd_blk_ne. intros E. by destruct (mo_sep _ _ _ Hm bn Hbn Hb).
Qed.

Lemma fext_data_write V l bn v :
  map_ok sb V l → meta_used sb V → (bn < nblk)%nat → blk V l bn ≠ 0 → fext sb V l (upd_blk (blk V l bn) v V) l.
Proof.
  intros Hm Hmu Hbn Hb. destruct (mo_blk _ _ _ Hm _ Hbn Hb) as [Hr Hu]. pose proof (sb_bounds _ Hsb).
  set (V' := upd_blk (blk V l bn) v V).
  assert (Hus : ∀ k, used sb V' k ↔ used sb V k) by (intros k; unfold used, V'; rewrite upd_blk_ne by lia; done).
  assert (Hblk : ∀ j, blk V' l j = blk V l j) by (intros; by apply blk_data_write).
  split.
  - split; [apply Hm|..].
    + intros j Hj. rewrite Hblk. intros Hn. destruct (mo_blk _ _ _ Hm j Hj Hn). split; [done|]. by apply Hus.
    + intros Hi. destruct (mo_ind _ _ _ Hm Hi). split; [done|]. by apply Hus.
    + intros i j Hi Hj. rewrite !Hblk. by apply (mo_inj _ _ _ Hm).
    + intros j Hj. rewrite Hblk. by apply (mo_sep _ _ _ Hm).
  - intros k Hk. by apply Hus, Hmu.
  - intros j _ _. apply Hblk.
  - intros k _ _ _ Ho. apply upd_blk_ne. intros ->. apply Ho. split; [done|]. eauto.
  - intros k _. apply Hus.
  - intros k [Hk Ho]. left. split; [done|]. destruct Ho as [?|(j & Hj & E)]; [by left|]. rewrite Hblk in E. eauto.
Qed.

(** [src] has been stored at [o]. *)
Record wrote (V : vmap) (l : list Z) (o : nat) (src : list Z) (V' : vmap) (l' : list Z) : Prop := {
  wr_ext : fext sb V l V' l';
  wr_in i : (i < length src)%nat → fbyte V' l' (o + i) = byte_of src i;
  wr_out k : (k < o ∨ o + length src ≤ k)%nat → (k / 512 < nblk)%nat → blk V l (k / 512) ≠ 0 → fbyte V' l' k = fbyte V l k;
  wr_map k : (o ≤ k < o + length src)%nat → blk V' l' (k / 512) ≠ 0;
  wr_same : (∀ k, (o ≤ k < o + length src)%nat → blk V l (k / 512) ≠ 0) → l' = l;
  wr_free : (size (free_set sb V) + need l' ≤ size (free_set sb V') + span o (length src) + need l)%nat
}.

Lemma wrote_nil V l o : map_ok sb V l → meta_used sb V → wrote V l o [] V l.
Proof. intros. split; simpl; auto using fext_refl; lia. Qed.

Lemma wrote_step V l R V1 l1 P1 b o m src V' l' :
  (∀ k, length (V1 k) = 512%nat) → (o / 512 < nblk)%nat →
  (1 ≤ m ≤ length src)%nat → (m = length src ∧ o mod 512 + m ≤ 512 ∨ o mod 512 + m = 512)%nat → map_ok sb V l →
  bmap_post sb V l (o / 512) R V1 l1 P1 b →
  wrote (upd_blk b (splice (o mod 512) (take m src) (V1 b)) V1) l1 (o + m) (drop m src) V' l' →
  wrote V l o src V' l'.
Proof.
  intros Hlen Hbn Hm Hom Hmap Hpost [W1 W2 W3 W4 W5 W6]. pose proof (sb_bounds _ Hsb).
  destruct Hpost as [Be Bb Bnz Bd Bz Bs Bp Bf]. set (V2 := upd_blk b _ V1) in *. rewrite length_drop in *.
  pose proof (fe_ok Be) as Hm1. pose proof (span_step o (length src) m Hm Hom) as Hspan.
  assert (Hblk : ∀ j, blk V2 l1 j = blk V1 l1 j) by (intros; unfold V2; rewrite <- Bb; apply blk_data_write; congruence || done).
  assert (He2 : fext sb V l V2 l1).
  { eapply fext_trans; [lia|exact Be|]. unfold V2. rewrite <- Bb at 1. apply fext_data_write; [done|apply Be|done|congruence]. }
  assert (Hin : ∀ i, (i < m)%nat → fbyte V2 l1 (o + i) = byte_of src i).
  { intros i Hi. destruct (same_block o i) as [E1 E2]; [lia|]. unfold fbyte. rewrite E1, E2, Hblk, Bb. unfold V2. rewrite upd_blk_eq.
    rewrite byte_of_splice by (rewrite length_take, Hlen; lia). rewrite decide_True by (rewrite length_take; lia).
    unfold byte_of. rewrite lookup_take, decide_True by lia. do 2 f_equal. lia. }
  assert (Hout : ∀ k, (k < o ∨ o + m ≤ k)%nat → (k / 512 < nblk)%nat → blk V l (k / 512) ≠ 0 → fbyte V2 l1 k = fbyte V l k).
  { intros k Hk Hkb Hkn. unfold fbyte. rewrite Hblk, (fe_blk _ _ _ _ _ Be _ Hkb Hkn).
    destruct (decide (k / 512 = o / 512)%nat) as [E|E].
    - rewrite E in *. rewrite <- (Bd _ Hbn Hkn). destruct (Bs Hkn) as [-> ->]. rewrite Bb. unfold V2. rewrite upd_blk_eq.
      rewrite byte_of_splice by (rewrite length_take, Hlen; lia). rewrite length_take, Nat.min_l by lia. apply decide_False.
      pose proof (Nat.div_mod_eq o 512). pose proof (Nat.div_mod_eq k 512). lia.
    - f_equal. unfold V2. rewrite upd_blk_ne; [by apply Bd|]. rewrite <- Bb, <- (fe_blk _ _ _ _ _ Be _ Hkb Hkn).
      intros E'. apply E. apply (mo_inj _ _ _ Hm1); auto. rewrite (fe_blk _ _ _ _ _ Be); done. }
  split.
  - eapply fext_trans; [lia|exact He2|done].
  - intros i Hi. destruct (decide (i < m)%nat) as [Him|Him].
    + destruct (same_block o i) as [E1 _]; [lia|].
      rewrite W3; [by apply Hin|lia|by rewrite E1|]. rewrite E1, Hblk. congruence.
    + replace (o + i)%nat with (o + m + (i - m))%nat by lia. rewrite W2 by lia. unfold byte_of. rewrite lookup_drop. do 2 f_equal. lia.
  - intros k Hk Hkb Hkn. rewrite W3; [apply Hout; auto; lia|lia|done|]. by rewrite (fe_blk _ _ _ _ _ He2).
  - intros k Hk. destruct (decide (k < o + m)%nat); [|apply W4; lia].
    destruct (same_block o (k - o)) as [E1 _]; [lia|]. replace (o + (k - o))%nat with k in E1 by lia. rewrite E1.
    rewrite (fe_blk _ _ _ _ _ W1); [|done|]; rewrite Hblk; congruence.
  - intros Hall. destruct Bs as [-> ->]; [apply Hall; lia|]. apply W5. intros k Hk. rewrite Hblk. apply Hall. lia.
  - destruct (mo_blk _ _ _ Hm1 _ Hbn) as [Hbr _]; [congruence|]. rewrite Bb in Hbr.
    rewrite <- (free_set_ext sb V1 V2) in W6 by (apply upd_blk_ne; lia). lia.
Qed.

Lemma wp_writei_loop ip n : ∀ f s ic V P R p src tot o (Q : Z → fss X → Prop),
  fsat s ic V P ∅ → ic !! ip = Some p → i_dev p = ROOTDEV → map_ok sb V (i_addrs p) → meta_used sb V →
  n = tot + Z.of_nat (length src) → 0 ≤ tot → n ≤ 71680 → (length src ≤ f)%nat → Z.of_nat (o + length src) ≤ 71680 →
  P ⊆ R ∪ {[bm]} ∪ indset (i_addrs p) → (size R + span o (length src) ≤ 26)%nat →
  (∀ k, (o ≤ k < o + length src)%nat → blk V (i_addrs p) (k / 512) ≠ 0)
    ∨ (span o (length src) + need (i_addrs p) ≤ size (free_set sb V))%nat →
  (∀ s' V' l' P' E, fsat s' (<[ip := set_i_addrs l' p]> ic) V' P' ∅ → wrote V (i_addrs p) o src V' l' →
     (size E ≤ span o (length src))%nat → P' ⊆ R ∪ E ∪ {[bm]} ∪ indset l' → Q (Z.of_nat (o + length src)) s') →
  wp (writei_loop f ip src tot (Z.of_nat o) n) s Q.
Proof.
  pose proof (sb_bounds _ Hsb) as Hs.
  induction f as [|f IH]; intros s ic V P R p src tot o Q F Hp Hd Hm Hmu Hn Ht Hn2 Hf Ho HP HR Hfree HQ;
    cbn [writei_loop]; destruct (Z.ltb_spec tot n) as [Hlt|Hge]; try lia.
  1, 3: destruct src; [|simpl in *; lia]; apply wp_ret; rewrite <- (Nat.add_0_r o);
    apply (HQ s V (i_addrs p) P ∅); [by rewrite set_addrs_id, list_insert_id|by apply wrote_nil|rewrite size_empty; lia|clear -HP; set_solver].
  apply wp_bind, (wp_geti F Hp). rewrite Hd.
  replace (Z.of_nat o / BSIZE) with (Z.of_nat (o / 512)) by (rewrite Nat2Z.inj_div; done).
  replace (Z.of_nat o mod BSIZE) with (Z.of_nat (o mod 512)) by (rewrite Nat2Z.inj_mod; done).
  set (m := Z.to_nat (Z.min (n - tot) (BSIZE - Z.of_nat (o mod 512)))).
  pose proof (Nat.mod_upper_bound o 512) as Hmod.
  assert (Hm1 : (1 ≤ m ≤ length src ∧ o mod 512 + m ≤ 512)%nat) by (unfold m, BSIZE; lia).
  assert (Hm2 : (m = length src ∨ o mod 512 + m = 512)%nat) by (unfold m, BSIZE; lia).
  assert (HmZ : Z.min (n - tot) (BSIZE - Z.of_nat (o mod 512)) = Z.of_nat m) by (unfold m, BSIZE; lia).
  pose proof (span_step o (length src) m (proj1 Hm1)) as Hspan. specialize (Hspan ltac:(lia)).
  assert (Hbn : (o / 512 < nblk)%nat) by (apply Nat.Div0.div_lt_upper_bound; unfold nblk; lia).
  apply wp_bind, (wp_bmap Hsb R F Hp Hd Hm Hmu Hbn HP); [lia| |].
  { destruct Hfree as [Hall|Hfree]; [left; apply Hall; lia|right; lia]. }
  intros b s1 V1 l1 P1 F1 Hpost. destruct Hpost as [Be Bb Bnz Bd Bz Bs Bp Bf] eqn:EP. clear EP.
  destruct (mo_blk _ _ _ (fe_ok Be) _ Hbn) as [Hbr _]; [congruence|]. rewrite Bb in Hbr.
  cbv zeta. rewrite HmZ, !Nat2Z.id.
  apply (wp_rmw (λ d, splice (o mod 512) (take m src) d) F1);
    [lia|apply not_in_empty_img|apply room_empty, (pins_le _ R bm b l1); [lia|done]| |].
  { rewrite splice_length; rewrite ?length_take, (fsat_length _ F1); lia. }
  intros s2 F2. rewrite !u32_of by lia. replace (Z.of_nat o + Z.of_nat m) with (Z.of_nat (o + m)) by lia.
  assert (Hic : (ip < length ic)%nat) by (by eapply lookup_lt_Some).
  assert (He2 : ∀ v, fext sb V1 l1 (upd_blk b v V1) l1).
  { intros v. rewrite <- Bb. apply fext_data_write; [apply Be|apply Be|done|congruence]. }
  eapply (IH s2 _ _ _ (R ∪ {[b]}) (set_i_addrs l1 p) (drop m src) _ _ _ F2); rewrite ?length_drop.
  - by rewrite list_lookup_insert_eq.
  - done.
  - apply He2.
  - apply He2.
  - lia.
  - lia.
  - lia.
  - lia.
  - lia.
  - change (i_addrs (set_i_addrs l1 p)) with l1. clear -Bp. set_solver.
  - pose proof (union_size_1 R b). lia.
  - change (i_addrs (set_i_addrs l1 p)) with l1. destruct Hfree as [Hall|Hfree].
    + left. intros k Hk. destruct Bs as [-> ->]; [apply Hall; lia|]. rewrite <- Bb at 1. rewrite blk_data_write; [apply Hall; lia|done|done|congruence].
    + right. rewrite <- (free_set_ext sb V1); [lia|]. rewrite upd_blk_ne; [done|lia].
  - intros s' V' l' P' E F' W HE HP'. replace (o + m + (length src - m))%nat with (o + length src)%nat by lia.
    rewrite list_insert_insert_eq in F'. apply (HQ s' V' l' P' (E ∪ {[b]})); [exact F'| | |clear -HP'; set_solver].
    + eapply wrote_step; [apply (λ k, fsat_length k F1)|exact Hbn|apply Hm1|lia|done|exact Hpost|exact W].
    + pose proof (union_size_1 E b). lia.
Qed.
End file.
