(* ===== verification/FsInode.v ===== *)
(** Inodes on disk: the dinode format round trip, iupdate, writei as a whole,
    and itrunc. *)

From S2P Require Import Prelude Params Bytes Sleeplock BufCache Log Tx Fs FsAt FsAlloc FsMap FsFile.

(** * Bytes that a store leaves alone *)

Lemma put16_byte_ne o v d i : i ≠ o → i ≠ (o + 1)%nat → byte_of (put16 o v d) i = byte_of d i.
Proof. intros. unfold put16, byte_of. by rewrite !list_lookup_insert_ne by lia. Qed.

Lemma put32_byte_ne o v d i : (i < o ∨ o + 4 ≤ i)%nat → byte_of (put32 o v d) i = byte_of d i.
Proof. intros. unfold put32, byte_of. by rewrite !list_lookup_insert_ne by lia. Qed.

Lemma put_addrs_length a : ∀ o d, length (put_addrs o a d) = length d.
Proof. induction a as [|x a IH]; intros o d; cbn [put_addrs]; [done|]. by rewrite IH, put32_length. Qed.

Lemma put_addrs_byte_ne a : ∀ o d i, (i < o ∨ o + 4 * length a ≤ i)%nat → byte_of (put_addrs o a d) i = byte_of d i.
Proof.
  induction a as [|x a IH]; intros o d i; cbn [put_addrs length]; [done|]. intros Hi.
  rewrite IH by lia. apply put32_byte_ne. lia.
Qed.

Lemma get16_ext d d' o : byte_of d o = byte_of d' o → byte_of d (o + 1) = byte_of d' (o + 1) → get16 d o = get16 d' o.
Proof. unfold get16. congruence. Qed.

Lemma get32_ext d d' o : (∀ i, (o ≤ i < o + 4)%nat → byte_of d i = byte_of d' i) → get32 d o = get32 d' o.
Proof. intros H. unfold get32. by rewrite !H by lia. Qed.

Lemma get_put_addrs a : ∀ o d j x,
  (o + 4 * length a ≤ length d)%nat → a !! j = Some x → get32 (put_addrs o a d) (o + 4 * j) = u32 x.
Proof.
  induction a as [|y a IH]; intros o d j x Hl Hj; [done|]. cbn [put_addrs length] in *. destruct j as [|j].
  - injection Hj as ->. rewrite (get32_ext _ (put32 o x d)) by (intros; apply put_addrs_byte_ne; lia).
    rewrite Nat.add_0_r. apply get32_put32. lia.
  - replace (o + 4 * S j)%nat with (o + 4 + 4 * j)%nat by lia. apply IH; [rewrite put32_length; lia|done].
Qed.

(** * struct dinode *)

(** The fields that live on disk. *)
Definition on_disk (p : inode) : Z * Z * Z * Z * Z * list Z :=
  (i_type p, i_major p, i_minor p, i_nlink p, i_size p, i_addrs p).

Definition is_short (x : Z) : Prop := -32768 ≤ x < 32768.
Definition is_uint (x : Z) : Prop := 0 ≤ x < 4294967296.

Record inode_fmt (p : inode) : Prop := {
  if_type : is_short (i_type p); if_major : is_short (i_major p); if_minor : is_short (i_minor p);
  if_nlink : is_short (i_nlink p); if_size : is_uint (i_size p);
  if_len : length (i_addrs p) = 13%nat; if_addrs : Forall is_uint (i_addrs p)
}.

Lemma s16_u16 x : is_short x → s16 (u16 x) = x.
Proof.
  unfold is_short, s16, u16. intros H. rewrite Zmod_mod.
  destruct (Z.ltb_spec (x mod 65536) 32768); Z.div_mod_to_equations; lia.
Qed.

Lemma put_dinode_length o p d : length (put_dinode o p d) = length d.
Proof. unfold put_dinode. by rewrite put_addrs_length, put32_length, !put16_length. Qed.

Lemma put_dinode_other o p d i :
  length (i_addrs p) = 13%nat → (i < o ∨ o + 64 ≤ i)%nat → byte_of (put_dinode o p d) i = byte_of d i.
Proof.
  intros Hl Hi. unfold put_dinode. rewrite put_addrs_byte_ne by (rewrite Hl; lia).
  rewrite put32_byte_ne by lia. by rewrite !put16_byte_ne by lia.
Qed.

Lemma get_put_dinode o p q d :
  inode_fmt p → (o + 64 ≤ length d)%nat → on_disk (get_dinode o (put_dinode o p d) q) = on_disk p.
Proof.
  intros [H1 H2 H3 H4 H5 H6 H7] Hl. unfold on_disk, get_dinode. simpl.
  assert (G : ∀ k, (k < 7)%nat →
    get16 (put_dinode o p d) (o + k) = get16 (put16 (o + 6) (i_nlink p) (put16 (o + 4) (i_minor p)
      (put16 (o + 2) (i_major p) (put16 o (i_type p) d)))) (o + k)).
  { intros k Hk. unfold put_dinode. apply get16_ext; rewrite put_addrs_byte_ne, put32_byte_ne by lia; done. }
  f_equal; [f_equal; [f_equal; [f_equal; [f_equal|]|]|]|].
  - pose proof (G 0%nat) as E. rewrite Nat.add_0_r in E. rewrite E by lia.
    rewrite !get16_put16_ne, get16_put16 by (rewrite ?put16_length; lia). by apply s16_u16.
  - rewrite (G 2%nat) by lia.
    rewrite !get16_put16_ne, get16_put16 by (rewrite ?put16_length; lia). by apply s16_u16.
  - rewrite (G 4%nat) by lia.
    rewrite !get16_put16_ne, get16_put16 by (rewrite ?put16_length; lia). by apply s16_u16.
  - rewrite (G 6%nat) by lia. rewrite get16_put16 by (rewrite ?put16_length; lia). by apply s16_u16.
  - unfold put_dinode. rewrite (get32_ext _ (put32 (o + 8) (i_size p) (put16 (o + 6) (i_nlink p)
      (put16 (o + 4) (i_minor p) (put16 (o + 2) (i_major p) (put16 o (i_type p) d))))))
      by (intros; apply put_addrs_byte_ne; lia).
    rewrite get32_put32 by (rewrite !put16_length; lia). by apply u32_small.
  - unfold get_addrs. apply list_eq. intros j. rewrite list_lookup_fmap. destruct (decide (j < 13)%nat) as [Hj|Hj].
    + rewrite lookup_seq_lt by done. destruct (lookup_lt_is_Some_2 (i_addrs p) j) as [x Hx]; [lia|]. rewrite Hx. cbn [fmap option_fmap option_map]. rewrite Nat.add_0_l.
      unfold put_dinode. rewrite (get_put_addrs _ _ _ _ x); [|rewrite put32_length, !put16_length; lia|done].
      f_equal. apply u32_small. by apply (proj1 (Forall_lookup _ _) H7 j).
    + rewrite lookup_seq_ge by lia. simpl. symmetry. apply lookup_ge_None_2. lia.
Qed.

(** Another slot of the block. *)
Lemma get_put_dinode_ne o o' p q d :
  length (i_addrs p) = 13%nat → (o' + 64 ≤ o ∨ o + 64 ≤ o')%nat →
  get_dinode o' (put_dinode o p d) q = get_dinode o' d q.
Proof.
  intros Hl Ho. assert (E : ∀ i, (o' ≤ i < o' + 64)%nat → byte_of (put_dinode o p d) i = byte_of d i).
  { intros i Hi. apply put_dinode_other; [done|lia]. }
  unfold get_dinode. f_equal.
  - unfold get_addrs. apply list_fmap_ext. intros i x Hx%lookup_seq. apply get32_ext. intros k Hk. apply E. lia.
  - rewrite (get32_ext _ d) by (intros; apply E; lia). f_equal.
    rewrite !(get16_ext (put_dinode o p d) d) by (apply E; lia). done.
Qed.

Lemma dinode_off_range inum : 0 ≤ inum → (dinode_off inum + 64 ≤ 512)%nat.
Proof. intros. unfold dinode_off, IPB, BSIZE. change (512 / 64) with 8. pose proof (Z.mod_pos_bound inum 8). lia. Qed.

Lemma dinode_off_ne sb i j :
  0 ≤ i → 0 ≤ j → i ≠ j → IBLOCK i sb = IBLOCK j sb →
  (dinode_off i + 64 ≤ dinode_off j ∨ dinode_off j + 64 ≤ dinode_off i)%nat.
Proof.
  unfold IBLOCK, dinode_off, IPB, BSIZE. change (512 / 64) with 8. intros Hi Hj Hne E.
  assert (i / 8 = j / 8) by lia. clear E. Z.div_mod_to_equations. lia.
Qed.

Section inode.
Context (sb : superblock) (Hsb : sb_ok sb).
Abbreviation bm := (sb_bmapstart sb).

(** The inode on disk is the cached one. *)
Definition synced (V : vmap) (p : inode) : Prop :=
  on_disk (get_dinode (dinode_off (i_inum p)) (V (IBLOCK (i_inum p) sb)) p) = on_disk p.

Lemma iblock_range inum : 0 ≤ inum < sb_ninodes sb → 2 ≤ LOGEND ≤ IBLOCK inum sb ∧ IBLOCK inum sb < bm.
Proof.
  intros H. pose proof (so_bmap _ Hsb). pose proof (sb_bounds _ Hsb). unfold IBLOCK.
  assert (0 ≤ inum / IPB ≤ sb_ninodes sb / IPB); [|lia].
  split; [apply Z.div_pos; [lia|done]|apply Z.div_le_mono; [done|lia]].
Qed.

(** Writing a block before the bitmap leaves files and bitmap alone. *)
Section meta_write.
Context (V : vmap) (k : Z) (v : list Z) (Hk : k < bm).

Lemma used_meta b : used sb (upd_blk k v V) b ↔ used sb V b.
Proof. unfold used. rewrite upd_blk_ne by lia. done. Qed.

Lemma blk_meta l j : map_ok sb V l → blk (upd_blk k v V) l j = blk V l j.
Proof. intros Hm. apply blk_frame. intros Hi. destruct (mo_ind _ _ _ Hm Hi). apply upd_blk_ne. lia. Qed.

Lemma map_ok_meta l : map_ok sb V l → map_ok sb (upd_blk k v V) l.
Proof.
  intros Hm. assert (D : ∀ b, data_ok sb V b → data_ok sb (upd_blk k v V) b) by (intros b []; split; [done|]; by apply used_meta).
  split; [apply Hm|..].
  - intros j Hj. rewrite blk_meta by done. intros. by apply D, (mo_blk _ _ _ Hm).
  - intros. by apply D, (mo_ind _ _ _ Hm).
  - intros i j Hi Hj. rewrite !blk_meta by done. by apply (mo_inj _ _ _ Hm).
  - intros j Hj. rewrite blk_meta by done. by apply (mo_sep _ _ _ Hm).
Qed.

Lemma fbyte_meta l o : map_ok sb V l → (o / 512 < nblk)%nat → blk V l (o / 512) ≠ 0 → fbyte (upd_blk k v V) l o = fbyte V l o.
Proof.
  intros Hm Ho Hb. unfold fbyte. rewrite blk_meta by done. destruct (mo_blk _ _ _ Hm _ Ho Hb). by rewrite upd_blk_ne by lia.
Qed.

Lemma owned_meta l b : map_ok sb V l → owned (upd_blk k v V) l b ↔ owned V l b.
Proof.
  intros Hm. unfold owned. split; (intros [H0 [?|(j & Hj & E)]]; (split; [done|]); [by left|]).
  - right. exists j. by rewrite blk_meta in E.
  - right. exists j. by rewrite blk_meta.
Qed.
End meta_write.

Lemma map_ok_uint V l : map_ok sb V l → Forall is_uint l.
Proof.
  intros Hm. pose proof (sb_bounds _ Hsb) as Hs. unfold FSSIZE in Hs.
  assert (D : ∀ b, data_ok sb V b → is_uint b) by (intros b []; unfold is_uint; lia).
  apply Forall_lookup. intros i x Hx. pose proof (lookup_lt_Some _ _ _ Hx) as Hi. rewrite (mo_len _ _ _ Hm) in Hi.
  assert (E : addr_at l i = x) by (unfold addr_at; by rewrite Hx).
  destruct (decide (x = 0)) as [->|Hn]; [done|]. apply (D x). destruct (decide (i = 12)%nat) as [->|].
  - rewrite <- E. apply (mo_ind _ _ _ Hm). by rewrite E.
  - replace x with (blk V l i); [apply (mo_blk _ _ _ Hm); [unfold nblk; lia|]|];
      unfold blk; rewrite (proj2 (Nat.ltb_lt _ _)) by lia; congruence.
Qed.
End inode.

Section write.
Context {X : Type} `{!TxOps X} (rep : X → acache → Prop) `{!RdLaws X ROOTDEV rep} `{!TxLaws X ROOTDEV rep}.
Context (sb : superblock) (cwd : nat) (pid : Z) (Hsb : sb_ok sb).
Context (dev_write : Z → option (nat → list Z → M (fss X) Z)).
Abbreviation fsat := (fsat rep sb cwd pid).
Abbreviation bm := (sb_bmapstart sb).
Abbreviation ib p := (IBLOCK (i_inum p) sb).

(** The view after iupdate. *)
Definition upd_view (p : inode) (V : vmap) : vmap :=
  upd_blk (ib p) (put_dinode (dinode_off (i_inum p)) p (V (ib p))) V.

Lemma wp_iupdate s ic V P ip p (Q : unit → fss X → Prop) :
  fsat s ic V P ∅ → ic !! ip = Some p → i_dev p = ROOTDEV → 0 ≤ i_inum p < sb_ninodes sb → (size P ≤ 28)%nat →
  (∀ s', fsat s' ic (upd_view p V) (P ∪ {[ib p]}) ∅ → Q tt s') → wp (iupdate ip) s Q.
Proof.
  intros F Hp Hd Hi HP HQ. unfold iupdate. apply wp_bind, wp_get, wp_bind, (wp_geti F Hp).
  rewrite (at_sb F), Hd. pose proof (iblock_range sb Hsb _ Hi). pose proof (sb_bounds _ Hsb).
  apply wp_bind, (wp_bread F); [lia|apply not_in_empty_img|by apply room_empty|]. intros bp s1 _ F1.
  apply wp_bind, (wp_data F1 (lookup_insert_eq _ _ _)).
  apply (wp_log F1 (lookup_insert_eq _ _ _)); [lia|rewrite put_dinode_length; apply (fsat_length _ F)|done|].
  intros s2 F2. apply (wp_brelse F2 (lookup_insert_eq _ _ _)). intros s3 F3.
  rewrite delete_insert_eq, delete_empty in F3. by apply HQ.
Qed.

Lemma upd_view_synced p V : (∀ k, length (V k) = 512%nat) → inode_fmt p → 0 ≤ i_inum p → synced sb (upd_view p V) p.
Proof.
  intros Hl Hf Hi. unfold synced, upd_view. rewrite upd_blk_eq. apply get_put_dinode; [done|].
  rewrite Hl. by apply dinode_off_range.
Qed.

(** Other inodes of the block. *)
Lemma upd_view_other p V inum q :
  length (i_addrs p) = 13%nat → 0 ≤ i_inum p → 0 ≤ inum → inum ≠ i_inum p →
  get_dinode (dinode_off inum) (upd_view p V (IBLOCK inum sb)) q = get_dinode (dinode_off inum) (V (IBLOCK inum sb)) q.
Proof.
  intros Hl Hp Hi Hne. unfold upd_view. destruct (decide (IBLOCK inum sb = ib p)) as [E|E]; [|by rewrite upd_blk_ne].
  rewrite E, upd_blk_eq. apply get_put_dinode_ne; [done|].
  apply (dinode_off_ne sb); congruence || done.
Qed.

(** The file after [src] has been written at [o], and the rest of the disk. *)
Record written (V : vmap) (p : inode) (o : nat) (src : list Z) (P : gset Z) (V' : vmap) (p' : inode) (P' : gset Z) : Prop := {
  wn_inode : p' = set_i_size (Z.max (i_size p) (Z.of_nat (o + length src))) (set_i_addrs (i_addrs p') p);
  wn_file : file_ok sb V' p';
  wn_fmt : inode_fmt p';
  wn_sync : synced sb V' p';
  wn_meta : meta_used sb V';
  wn_in i : (i < length src)%nat → fbyte V' (i_addrs p') (o + i) = byte_of src i;
  wn_out k : (k < o ∨ o + length src ≤ k)%nat → Z.of_nat k < i_size p → fbyte V' (i_addrs p') k = fbyte V (i_addrs p) k;
  wn_frame k : 0 ≤ k → used sb V k → k ≠ bm → k ≠ ib p → ¬ owned V (i_addrs p) k → V' k = V k;
  wn_inodes inum q : 0 ≤ inum < sb_ninodes sb → inum ≠ i_inum p →
    get_dinode (dinode_off inum) (V' (IBLOCK inum sb)) q = get_dinode (dinode_off inum) (V (IBLOCK inum sb)) q;
  wn_used k : 0 ≤ k → used sb V k → used sb V' k;
  wn_new k : owned V' (i_addrs p') k → owned V (i_addrs p) k ∨ ¬ used sb V k;
  wn_pins : (size P' ≤ size P + span o (length src) + 3)%nat;
  wn_free : (size (free_set sb V) + need (i_addrs p') ≤ size (free_set sb V') + span o (length src) + need (i_addrs p))%nat
}.

Section finish.
Context (V : vmap) (p : inode) (o : nat) (src : list Z) (P : gset Z) (V1 : vmap) (l' : list Z) (P' E : gset Z).
Context (Hf : file_ok sb V p) (Hfmt : inode_fmt p) (Hmu : meta_used sb V) (Ho : Z.of_nat o ≤ i_size p).
Context (Ho2 : Z.of_nat (o + length src) ≤ 71680) (W : wrote sb V (i_addrs p) o src V1 l').
Context (HlV : ∀ k, length (V1 k) = 512%nat).
Context (HE : (size E ≤ span o (length src))%nat) (HP' : P' ⊆ P ∪ E ∪ {[bm]} ∪ indset l').

Let p' := set_i_size (Z.max (i_size p) (Z.of_nat (o + length src))) (set_i_addrs l' p).

Lemma wrote_pins : (size P' ≤ size P + span o (length src) + 2)%nat.
Proof using HE HP'.
  clear -HE HP'. apply subseteq_size in HP'. assert (size (indset l') ≤ 1)%nat by (unfold indset; case_decide; rewrite ?size_singleton, ?size_empty; lia).
  assert (∀ A B : gset Z, (size (A ∪ B) ≤ size A + size B)%nat) as U.
  { intros A B. rewrite size_union_alt. assert (size (B ∖ A) ≤ size B)%nat by (apply subseteq_size; set_solver). lia. }
  pose proof (U (P ∪ E ∪ {[bm]}) (indset l')). pose proof (U (P ∪ E) {[bm]}). pose proof (U P E). rewrite size_singleton in *. lia.
Qed.

Lemma wrote_file : file_ok sb V1 p'.
Proof.
  destruct Hf as [F1 F2 F3 F4 F5 F6]. pose proof (fe_ok (wr_ext _ _ _ _ _ _ _ W)) as Hok.
  split; simpl; try done; [lia|]. intros j Hj. destruct (decide (Z.of_nat j * 512 < i_size p)) as [Hlt|Hge].
  - rewrite (fe_blk _ _ _ _ _ (wr_ext _ _ _ _ _ _ _ W)); [by apply F6|unfold nblk; lia|by apply F6].
  - assert (E1 : (j * 512 / 512 = j)%nat) by (apply Nat.div_mul; lia).
    rewrite <- E1. apply (wr_map _ _ _ _ _ _ _ W). lia.
Qed.

Lemma wrote_fmt : inode_fmt p'.
Proof.
  pose proof (fe_ok (wr_ext _ _ _ _ _ _ _ W)) as Hok. pose proof (fo_size _ _ _ Hf).
  destruct Hfmt. split; simpl; try done; [unfold is_uint; lia|apply Hok|by eapply map_ok_uint].
Qed.

Lemma iblock_stable inum : 0 ≤ inum < sb_ninodes sb → V1 (IBLOCK inum sb) = V (IBLOCK inum sb).
Proof.
  intros Hi. pose proof (iblock_range sb Hsb _ Hi) as Hr.
  apply (fe_frame _ _ _ _ _ (wr_ext _ _ _ _ _ _ _ W)); [lia|apply Hmu; lia|lia|].
  intros [? _]%(owned_data sb); [lia|apply Hf].
Qed.

(** With iupdate. *)
Lemma written_grow : written V p o src P (upd_view p' V1) p' (P' ∪ {[ib p]}).
Proof.
  pose proof (iblock_range sb Hsb _ (fo_inum _ _ _ Hf)) as Hib. pose proof (fo_size _ _ _ Hf) as Hsz.
  pose proof wrote_file as Hf'. pose proof wrote_fmt as Hfmt'. pose proof (wr_ext _ _ _ _ _ _ _ W) as He.
  assert (Hk : ib p' < bm) by (simpl; lia).
  assert (Hb : ∀ k, (Z.of_nat k < 71680) → blk V1 l' (k / 512) ≠ 0 → fbyte (upd_view p' V1) l' k = fbyte V1 l' k).
  { intros k Hk1 Hk2. apply (fbyte_meta sb); [done|apply He| |done]. apply Nat.Div0.div_lt_upper_bound. unfold nblk. lia. }
  split; try done.
  - destruct Hf' as [A1 A2 A3 A4 A5 A6]. split; try done; [by apply map_ok_meta|].
    intros j Hj. unfold upd_view. rewrite (blk_meta sb) by done. by apply A6.
  - apply upd_view_synced; [done|done|apply Hf].
  - intros k Hk'. apply used_meta; [done|]. by apply (fe_meta He).
  - intros i Hi. change (i_addrs p') with l'. rewrite Hb; [by apply (wr_in _ _ _ _ _ _ _ W)|lia|apply (wr_map _ _ _ _ _ _ _ W); lia].
  - intros k Hk1 Hk2. destruct (fo_block _ _ _ _ Hf Hk2) as [Q1 Q2]. change (i_addrs p') with l'.
    rewrite Hb; [by apply (wr_out _ _ _ _ _ _ _ W)|lia|]. by rewrite (fe_blk _ _ _ _ _ He).
  - intros k K1 K2 K3 K4 K5. unfold upd_view. rewrite upd_blk_ne by done. by apply (fe_frame _ _ _ _ _ He).
  - intros inum q Hi Hne. rewrite upd_view_other; [|apply Hfmt'|apply Hf|lia|done]. by rewrite iblock_stable.
  - intros k K1 K2. apply used_meta; [done|]. by apply (fe_used _ _ _ _ _ He).
  - intros k Hk1. apply (fe_new _ _ _ _ _ He). apply (owned_meta sb) in Hk1; [done|done|apply He].
  - pose proof wrote_pins. pose proof (union_size_1 P' (ib p)). lia.
  - rewrite <- (free_set_ext sb V1 (upd_view p' V1)) by (apply upd_blk_ne; lia). apply (wr_free _ _ _ _ _ _ _ W).
Qed.

(** Without: the write stays within the file. *)
Lemma written_within : Z.of_nat (o + length src) ≤ i_size p → synced sb V p → written V p o src P V1 p' P'.
Proof.
  intros Hin Hsy. pose proof (iblock_range sb Hsb _ (fo_inum _ _ _ Hf)) as Hib.
  pose proof (wr_ext _ _ _ _ _ _ _ W) as He.
  assert (El : l' = i_addrs p).
  { apply (wr_same _ _ _ _ _ _ _ W). intros k Hk. apply (fo_block _ _ _ k Hf). lia. }
  assert (Hp' : p' = p) by (unfold p'; rewrite El, set_addrs_id, Z.max_l by lia; by destruct p).
  split; try done.
  - apply wrote_file.
  - apply wrote_fmt.
  - rewrite Hp'. unfold synced. rewrite iblock_stable by apply Hf. done.
  - apply He.
  - apply (wr_in _ _ _ _ _ _ _ W).
  - intros k Hk1 Hk2. destruct (fo_block _ _ _ _ Hf Hk2). by apply (wr_out _ _ _ _ _ _ _ W).
  - intros. by apply (fe_frame _ _ _ _ _ He).
  - intros inum q Hi Hne. by rewrite iblock_stable.
  - apply (fe_used _ _ _ _ _ He).
  - apply (fe_new _ _ _ _ _ He).
  - pose proof wrote_pins. lia.
  - apply (wr_free _ _ _ _ _ _ _ W).
Qed.
End finish.

(** writei stores [src] at [o] and keeps cache and disk in step. *)
Lemma wp_writei s ic V P ip p src o (Q : Z → fss X → Prop) :
  fsat s ic V P ∅ → ic !! ip = Some p → file_ok sb V p → inode_fmt p → synced sb V p → meta_used sb V →
  Z.of_nat o ≤ i_size p → Z.of_nat (o + length src) ≤ 71680 → (size P + span o (length src) ≤ 26)%nat →
  Z.of_nat (o + length src) ≤ i_size p ∨ (span o (length src) + need (i_addrs p) ≤ size (free_set sb V))%nat →
  (∀ s' V' p' P', fsat s' (<[ip := p']> ic) V' P' ∅ → written V p o src P V' p' P' → Q (Z.of_nat (length src)) s') →
  wp (writei dev_write ip src (Z.of_nat o)) s Q.
Proof.
  intros F Hp Hf Hfmt Hsy Hmu Ho Ho2 HP Hfree HQ. unfold writei. pose proof (fo_size _ _ _ Hf).
  apply wp_bind, (wp_geti F Hp). rewrite (proj2 (Z.eqb_neq _ _) (fo_type _ _ _ Hf)).
  rewrite u32_of by lia. destruct (Z.ltb_spec (i_size p) (Z.of_nat o)); [lia|].
  destruct (Z.ltb_spec (Z.of_nat o + Z.of_nat (length src)) (Z.of_nat o)); [lia|].
  change (false || false) with false. cbv iota. change (MAXFILE * BSIZE) with 71680.
  destruct (Z.ltb_spec 71680 (Z.of_nat o + Z.of_nat (length src))); [lia|].
  apply wp_bind. eapply (wp_writei_loop rep sb cwd pid Hsb ip _ _ _ _ _ _ P p src 0 o _ F Hp (fo_dev _ _ _ Hf) (fo_map _ _ _ Hf) Hmu);
    [lia|lia|lia|lia|lia|clear; set_solver|done| |].
  { destruct Hfree as [Hin|?]; [left|by right]. intros k Hk. apply (fo_block _ _ _ k Hf). lia. }
  intros s1 V1 l' P1 E F1 W HE HP1. assert (Hic : (ip < length ic)%nat) by (by eapply lookup_lt_Some).
  apply wp_bind, (wp_geti F1 (list_lookup_insert_eq _ _ _ Hic)). simpl i_size.
  set (p1 := set_i_size (Z.max (i_size p) (Z.of_nat (o + length src))) (set_i_addrs l' p)).
  rewrite s32_small by lia. apply wp_bind.
  destruct (Z.ltb_spec (i_size p) (Z.of_nat (o + length src))) as [Hg|Hg].
  - rewrite (proj2 (Z.ltb_lt 0 _)) by lia. cbn [andb].
    apply wp_bind, (wp_updi F1 (list_lookup_insert_eq _ _ _ Hic)). rewrite list_insert_insert_eq.
    replace (set_i_size (Z.of_nat (o + length src)) (set_i_addrs l' p)) with p1 by (unfold p1; rewrite Z.max_r by lia; done).
    intros s2 F2. eapply (wp_iupdate _ _ _ _ _ p1 _ F2).
    + by rewrite list_lookup_insert_eq.
    + apply Hf.
    + apply Hf.
    + pose proof (wrote_pins o src P l' P1 E HE HP1). lia.
    + intros s3 F3. apply wp_ret. eapply HQ; [exact F3|].
      by apply (written_grow V p o src P V1 l' P1 E Hf Hfmt Hmu Ho Ho2 W (λ k, fsat_length k F1)).
  - rewrite andb_false_r. apply wp_ret, wp_ret.
    assert (Ep : p1 = set_i_addrs l' p) by (unfold p1; rewrite Z.max_l by lia; by destruct p).
    eapply (HQ s1 V1 p1 P1); [rewrite Ep; exact F1|]. by apply (written_within V p o src P V1 l' P1 E).
Qed.
End write.
