(* ===== verification/FsDir.v ===== *)
(** Directories: the entries of a directory, dirlookup and dirlink against
    the search for a name among them. *)

From S2P Require Import Prelude Params Bytes Cstring Sleeplock BufCache Log Tx Fs FsAt FsAlloc FsMap FsFile FsInode.

(** * Names *)

(** The name that an array of up to DIRSIZ characters stands for. *)
Definition nm (s : list Z) : list Z := upto_nul (take 14 s).

Lemma strncmp_l_zero n : ∀ s t, strncmp_l n s t = 0 ↔ upto_nul (take n s) = upto_nul (take n t).
Proof.
  induction n as [|n IH]; intros s t; [done|]. cbn [strncmp_l].
  destruct s as [|a s], t as [|b t]; cbn [hd tl take upto_nul]; zcases; try (split; intros; (done || lia)).
  - subst. rewrite IH. split; congruence.
  - split; intros; [lia|]. congruence.
Qed.

Lemma namecmp_zero s t : namecmp s t = 0 ↔ nm s = nm t.
Proof. apply strncmp_l_zero. Qed.

Lemma strncpy_l_length n : ∀ t, length (strncpy_l n t) = n.
Proof. induction n as [|n IH]; intros t; [done|]. cbn [strncpy_l]. zcases; [apply length_replicate|]. simpl. by rewrite IH. Qed.

Lemma strncpy_l_name n : ∀ t, upto_nul (take n (strncpy_l n t)) = upto_nul (take n t).
Proof.
  induction n as [|n IH]; intros t; [done|]. cbn [strncpy_l]. destruct t as [|b t]; [done|]. cbn [hd tl].
  zcases; [subst; done|]. cbn [take upto_nul]. zcases. by rewrite IH.
Qed.

(** The same comparison on memory. *)
Lemma strncmp_l_mem n : ∀ m p q, strncmp_l n (bytes_at m p n) (bytes_at m q n) = strncmp_loop m p q n.
Proof.
  induction n as [|n IH]; intros m p q; [done|]. rewrite !bytes_at_S. cbn [strncmp_l strncmp_loop hd tl].
  rewrite IH. zcases; done.
Qed.

(** * Entries *)

(** Entry [k] of the directory with addrs [l]. *)
Definition entry (V : vmap) (l : list Z) (k : nat) : list Z := fbyte V l <$> seq (16 * k) 16.

(** The first of the [n] entries from [k] that is in use and has the name. *)
Fixpoint dir_find (V : vmap) (l : list Z) (name : list Z) (n k : nat) : option (Z * nat) :=
  match n with
  | O => None
  | S n' =>
      let e := entry V l k in
      if de_inum e =? 0 then dir_find V l name n' (S k)
      else if decide (nm name = nm (de_name e)) then Some (de_inum e, k)
      else dir_find V l name n' (S k)
  end.

(** The first free one, or the end. *)
Fixpoint dir_slot (V : vmap) (l : list Z) (n k : nat) : nat :=
  match n with
  | O => k
  | S n' => if de_inum (entry V l k) =? 0 then k else dir_slot V l n' (S k)
  end.

Lemma dir_find_None V l name n : ∀ k,
  dir_find V l name n k = None ↔
  ∀ i, (k ≤ i < k + n)%nat → de_inum (entry V l i) = 0 ∨ nm name ≠ nm (de_name (entry V l i)).
Proof.
  induction n as [|n IH]; intros k; cbn [dir_find]; [split; [intros; lia|done]|].
  assert (Hs : (∀ i, (k ≤ i < k + S n)%nat → de_inum (entry V l i) = 0 ∨ nm name ≠ nm (de_name (entry V l i))) ↔
    (de_inum (entry V l k) = 0 ∨ nm name ≠ nm (de_name (entry V l k))) ∧
    ∀ i, (S k ≤ i < S k + n)%nat → de_inum (entry V l i) = 0 ∨ nm name ≠ nm (de_name (entry V l i))).
  { split; [intros H; split; [apply H; lia|intros; apply H; lia]|]. intros [H1 H2] i Hi.
    destruct (decide (i = k)) as [->|]; [done|]. apply H2. lia. }
  rewrite Hs, <- IH. zcases; [tauto|]. case_decide; [|tauto]. split; [done|]. intros [[?|?] _]; done.
Qed.

Lemma dir_find_Some V l name n inum j : ∀ k,
  dir_find V l name n k = Some (inum, j) ↔
  (k ≤ j < k + n)%nat ∧ inum ≠ 0 ∧ inum = de_inum (entry V l j) ∧ nm name = nm (de_name (entry V l j))
    ∧ ∀ i, (k ≤ i < j)%nat → de_inum (entry V l i) = 0 ∨ nm name ≠ nm (de_name (entry V l i)).
Proof.
  induction n as [|n IH]; intros k; cbn [dir_find]; [split; [done|lia]|].
  assert (Hskip : de_inum (entry V l k) = 0 ∨ nm name ≠ nm (de_name (entry V l k)) →
    dir_find V l name n (S k) = Some (inum, j) ↔
    (k ≤ j < k + S n)%nat ∧ inum ≠ 0 ∧ inum = de_inum (entry V l j) ∧ nm name = nm (de_name (entry V l j))
      ∧ ∀ i, (k ≤ i < j)%nat → de_inum (entry V l i) = 0 ∨ nm name ≠ nm (de_name (entry V l i))).
  { intros Hk. rewrite IH. split; intros (H1 & H2 & H3 & H4 & H5).
    - split_and!; try done; try lia. intros i Hi. destruct (decide (i = k)) as [->|]; [done|]. apply H5. lia.
    - assert (j ≠ k) by (intros ->; destruct Hk; congruence).
      split_and!; try done; try lia. intros i Hi. apply H5. lia. }
  zcases; [by apply Hskip; left|]. case_decide; [|by apply Hskip; right]. split.
  - intros [= <- <-]. split_and!; try done; try lia.
  - intros (H1 & H2 & H3 & H4 & H5). destruct (decide (j = k)) as [->|]; [by subst|].
    destruct (H5 k); [lia|done|done].
Qed.

Lemma dir_slot_spec V l n : ∀ k,
  (k ≤ dir_slot V l n k ≤ k + n)%nat ∧
  ((dir_slot V l n k < k + n)%nat → de_inum (entry V l (dir_slot V l n k)) = 0).
Proof.
  induction n as [|n IH]; intros k; cbn [dir_slot]; [lia|]. zcases; [split; [lia|done]|].
  destruct (IH (S k)) as [H1 H2]. split; [lia|]. intros. apply H2. lia.
Qed.

Lemma entry_length V l k : length (entry V l k) = 16%nat.
Proof. unfold entry. by rewrite length_fmap, length_seq. Qed.

Lemma entry_ext V V' l l' k : (∀ i, (16 * k ≤ i < 16 * k + 16)%nat → fbyte V' l' i = fbyte V l i) → entry V' l' k = entry V l k.
Proof. intros H. apply list_fmap_ext. intros i x Hx%lookup_seq. apply H. lia. Qed.

Lemma mk_dirent_length inum name : length (mk_dirent inum name) = 16%nat.
Proof. unfold mk_dirent. by rewrite length_app, strncpy_l_length, put16_length. Qed.

Lemma mk_dirent_inum inum name : de_inum (mk_dirent inum name) = u16 inum.
Proof.
  unfold de_inum, mk_dirent. rewrite <- (get16_put16 0 inum [0; 0]) by (simpl; lia).
  apply get16_ext; unfold byte_of; by rewrite lookup_app_l by (rewrite put16_length; simpl; lia).
Qed.

Lemma mk_dirent_name inum name : nm (de_name (mk_dirent inum name)) = nm name.
Proof. unfold de_name, mk_dirent. rewrite drop_app_length' by (by rewrite put16_length). apply strncpy_l_name. Qed.

(** An entry added in a free slot or at the end. *)
Section dir_insert.
Context (V : vmap) (l : list Z) (V' : vmap) (l' : list Z) (n j : nat) (inum : Z) (name : list Z).
Context (Hj : (j ≤ n)%nat) (Hslot : (j < n)%nat → de_inum (entry V l j) = 0).
Context (Hsame : ∀ k, (k < n)%nat → k ≠ j → entry V' l' k = entry V l k).
Context (Hinum : de_inum (entry V' l' j) = inum) (Hi0 : inum ≠ 0) (Hname : nm (de_name (entry V' l' j)) = nm name).
Let n' := Nat.max n (S j).

Lemma dir_find_new : dir_find V l name n 0 = None → dir_find V' l' name n' 0 = Some (inum, j).
Proof.
  rewrite dir_find_None. intros H. apply dir_find_Some. split_and!; try done; try lia.
  intros i Hi. rewrite Hsame by lia. apply H. lia.
Qed.

Lemma dir_find_old other : nm other ≠ nm name → dir_find V' l' other n' 0 = dir_find V l other n 0.
Proof.
  intros Hne. destruct (dir_find V l other n 0) as [[x k]|] eqn:E.
  - apply dir_find_Some in E as (H1 & H2 & H3 & H4 & H5). apply dir_find_Some.
    assert (k ≠ j) by (intros ->; apply H2; rewrite H3; apply Hslot; lia).
    rewrite Hsame by lia. split_and!; try done; try lia.
    intros i Hi. destruct (decide (i = j)) as [->|]; [right; congruence|]. rewrite Hsame by lia. apply H5. lia.
  - rewrite dir_find_None in *. intros i Hi. destruct (decide (i = j)) as [->|]; [right; congruence|].
    rewrite Hsame by lia. apply E. lia.
Qed.
End dir_insert.

Section dir.
Context {X : Type} `{!TxOps X} (rep : X → acache → Prop) `{!RdLaws X ROOTDEV rep}.
Context (sb : superblock) (cwd : nat) (pid : Z) (Hsb : sb_ok sb).
Context (away : M (fss X) unit) (fuel : nat).
Context (dev_read : Z → option (nat → Z → M (fss X) (Z * list Z))).
Context (dev_write : Z → option (nat → list Z → M (fss X) Z)).
Abbreviation fsat := (fsat rep sb cwd pid).
Abbreviation bm := (sb_bmapstart sb).

(** A directory of [n] entries. *)
Record dir_ok (V : vmap) (p : inode) (n : nat) : Prop := {
  do_file : file_ok sb V p;
  do_type : i_type p = T_DIR;
  do_size : i_size p = 16 * Z.of_nat n
}.

Lemma wp_dirlookup_loop ic V P dp p n name (Q : option (nat * Z) → fss X → Prop) :
  ic !! dp = Some p → dir_ok V p n → (size P ≤ 28)%nat → ∀ f s k,
  fsat s ic V P ∅ → (k ≤ n)%nat → (n - k ≤ f)%nat →
  (∀ s', fsat s' ic V P ∅ →
     match dir_find V (i_addrs p) name (n - k) k with
     | None => Q None s'
     | Some (inum, j) => wp (iget ROOTDEV inum) s' (λ ip s'', Q (Some (ip, Z.of_nat (16 * j))) s'')
     end) →
  wp (dirlookup_loop dev_read f dp name (Z.of_nat (16 * k))) s Q.
Proof.
  intros Hp [Hf Ht Hsz] HP. pose proof (fo_size _ _ _ Hf) as Hs. unfold DIRENT.
  induction f as [|f IH]; intros s k F Hk Hfu HQ; cbn [dirlookup_loop];
    apply wp_bind, (wp_geti F Hp); rewrite Hsz; destruct (Z.ltb_spec (Z.of_nat (16 * k)) (16 * Z.of_nat n)); try lia.
  1, 3: replace (n - k)%nat with 0%nat in HQ by lia; by apply wp_ret, HQ.
  apply wp_bind, (wp_readi rep sb cwd pid Hsb dev_read _ _ _ _ _ p _ _ _ F Hp Hf HP); [lia|unfold DIRENT; lia|].
  intros s1 F1. rewrite Hsz. unfold DIRENT. replace (Z.min 16 _) with 16 by lia. cbv zeta. cbn [fst snd].
  change (negb (16 =? 16)) with false. cbv iota. change (Z.to_nat 16) with 16%nat. fold (entry V (i_addrs p) k).
  replace (u32 (Z.of_nat (16 * k) + 16)) with (Z.of_nat (16 * S k)) by (rewrite u32_of by lia; lia).
  specialize (IH s1 (S k) F1). replace (n - k)%nat with (S (n - S k)) in HQ by lia. cbn [dir_find] in HQ.
  destruct (Z.eqb_spec (de_inum (entry V (i_addrs p) k)) 0) as [|Hn]; [apply IH; [lia|lia|done]|].
  destruct (Z.eqb_spec (namecmp name (de_name (entry V (i_addrs p) k))) 0) as [E|E]; rewrite namecmp_zero in E.
  - rewrite decide_True in HQ by done. rewrite (fo_dev _ _ _ Hf). specialize (HQ s1 F1).
    apply wp_bind. eapply wp_mono; [exact HQ|]. intros ip s2 H2. by apply wp_ret.
  - rewrite decide_False in HQ by done. apply IH; [lia|lia|done].
Qed.

(** dirlookup finds the first entry with the name and gets its inode. *)
Lemma wp_dirlookup s ic V P dp p n name (Q : option (nat * Z) → fss X → Prop) :
  fsat s ic V P ∅ → ic !! dp = Some p → dir_ok V p n → (size P ≤ 28)%nat →
  (∀ s', fsat s' ic V P ∅ →
     match dir_find V (i_addrs p) name n 0 with
     | None => Q None s'
     | Some (inum, j) => wp (iget ROOTDEV inum) s' (λ ip s'', Q (Some (ip, Z.of_nat (16 * j))) s'')
     end) →
  wp (dirlookup dev_read dp name) s Q.
Proof.
  intros F Hp Hd HP HQ. unfold dirlookup. apply wp_bind, (wp_geti F Hp). rewrite (do_type _ _ _ Hd).
  change (negb (T_DIR =? T_DIR)) with false. cbv iota. change 0 with (Z.of_nat (16 * 0)).
  apply (wp_dirlookup_loop ic V P dp p n name _ Hp Hd HP _ _ _ F); [lia| |by rewrite Nat.sub_0_r].
  rewrite (do_size _ _ _ Hd). unfold DIRENT. rewrite Z.mul_comm, Z.div_mul by lia. lia.
Qed.

Lemma wp_dirlink_loop ic V P dp p n (Q : Z → fss X → Prop) :
  ic !! dp = Some p → dir_ok V p n → (size P ≤ 28)%nat → ∀ f s k,
  fsat s ic V P ∅ → (k ≤ n)%nat → (n - k ≤ f)%nat →
  (∀ s', fsat s' ic V P ∅ → Q (Z.of_nat (16 * dir_slot V (i_addrs p) (n - k) k)) s') →
  wp (dirlink_loop dev_read f dp (Z.of_nat (16 * k))) s Q.
Proof.
  intros Hp [Hf Ht Hsz] HP. pose proof (fo_size _ _ _ Hf) as Hs. unfold DIRENT.
  induction f as [|f IH]; intros s k F Hk Hfu HQ; cbn [dirlink_loop];
    apply wp_bind, (wp_geti F Hp); rewrite Hsz; destruct (Z.ltb_spec (Z.of_nat (16 * k)) (16 * Z.of_nat n)); try lia.
  1, 3: replace (n - k)%nat with 0%nat in HQ by lia; by apply wp_ret, HQ.
  apply wp_bind, (wp_readi rep sb cwd pid Hsb dev_read _ _ _ _ _ p _ _ _ F Hp Hf HP); [lia|unfold DIRENT; lia|].
  intros s1 F1. rewrite Hsz. unfold DIRENT. replace (Z.min 16 _) with 16 by lia. cbv zeta. cbn [fst snd].
  change (negb (16 =? 16)) with false. cbv iota. change (Z.to_nat 16) with 16%nat. fold (entry V (i_addrs p) k).
  replace (Z.of_nat (16 * k) + 16) with (Z.of_nat (16 * S k)) by lia.
  replace (n - k)%nat with (S (n - S k)) in HQ by lia. cbn [dir_slot] in HQ.
  destruct (Z.eqb_spec (de_inum (entry V (i_addrs p) k)) 0); [by apply wp_ret, HQ|].
  apply (IH s1 (S k) F1); [lia|lia|done].
Qed.
Lemma span_dirent j : span (16 * j) 16 = 1%nat.
Proof using.
  unfold span. rewrite decide_False by lia. symmetry. apply (Nat.div_unique _ _ _ ((16 * j) mod 512 + 15)); [|lia].
  pose proof (Nat.mod_upper_bound (16 * j) 512). assert (((16 * j) mod 512) mod 16 = 0)%nat as E.
  { replace 512%nat with (16 * 32)%nat by lia. rewrite Nat.Div0.mul_mod_distr_l, Nat.mul_comm. apply Nat.Div0.mod_mul. }
  pose proof (Nat.div_mod_eq ((16 * j) mod 512) 16). lia.
Qed.

Context `{!TxLaws X ROOTDEV rep}.

(** dirlink of a name that is not there yet. *)
Lemma wp_dirlink s ic V P dp p n name inum (Q : Z → fss X → Prop) :
  fsat s ic V P ∅ → ic !! dp = Some p → dir_ok V p n → inode_fmt p → synced sb V p → meta_used sb V →
  (size P ≤ 25)%nat → Z.of_nat n < 4480 → dir_find V (i_addrs p) name n 0 = None →
  let j := dir_slot V (i_addrs p) n 0 in
  (j < n)%nat ∨ (1 + need (i_addrs p) ≤ size (free_set sb V))%nat →
  (∀ s' V' p' P', fsat s' (<[dp := p']> ic) V' P' ∅ → written sb V p (16 * j) (mk_dirent inum name) P V' p' P' → Q 0 s') →
  wp (dirlink away fuel dev_read dev_write dp name inum) s Q.
Proof.
  intros F Hp Hd Hfmt Hsy Hmu HP Hn Hno j Hfree HQ. pose proof Hd as [Hf Ht Hsz]. unfold dirlink.
  apply wp_bind, (wp_dirlookup s ic V P dp p n name _ F Hp Hd); [lia|]. intros s1 F1. rewrite Hno.
  apply wp_bind, (wp_geti F1 Hp). apply wp_bind. change 0 with (Z.of_nat (16 * 0)) at 1.
  destruct (dir_slot_spec V (i_addrs p) n 0) as [Hj Hfr]. fold j in Hj, Hfr.
  apply (wp_dirlink_loop ic V P dp p n _ Hp Hd); [lia|exact F1|lia| |].
  { rewrite Hsz. unfold DIRENT. rewrite Z.mul_comm, Z.div_mul by lia. lia. }
  intros s2 F2. rewrite Nat.sub_0_r. fold j.
  apply wp_bind, (wp_writei rep sb cwd pid Hsb dev_write _ _ _ _ _ p _ _ _ F2 Hp Hf Hfmt Hsy Hmu);
    rewrite ?mk_dirent_length, ?span_dirent; [lia|lia|lia| |].
  { destruct Hfree; [left|right]; lia. }
  intros s3 V' p' P' F3 W. change (negb (Z.of_nat 16 =? DIRENT)) with false. cbv iota. apply wp_ret. by eapply HQ.
Qed.
End dir.

(** What the directory contains afterwards. *)
Section linked.
Context (sb : superblock) (V : vmap) (p : inode) (n : nat) (name : list Z) (inum : Z) (P : gset Z) (V' : vmap) (p' : inode) (P' : gset Z).
Let j := dir_slot V (i_addrs p) n 0.
Context (Hd : dir_ok sb V p n) (Hi0 : u16 inum ≠ 0) (W : written sb V p (16 * j) (mk_dirent inum name) P V' p' P').

Lemma linked_entry : entry V' (i_addrs p') j = mk_dirent inum name.
Proof.
  apply list_eq. intros i. unfold entry. rewrite list_lookup_fmap. destruct (decide (i < 16)%nat) as [Hi|Hi].
  - rewrite lookup_seq_lt by done. simpl fmap. rewrite (wn_in _ _ _ _ _ _ _ _ _ W) by (rewrite mk_dirent_length; lia).
    unfold byte_of. destruct (lookup_lt_is_Some_2 (mk_dirent inum name) i) as [x ->]; [rewrite mk_dirent_length; lia|done].
  - rewrite lookup_seq_ge by lia. simpl. symmetry. apply lookup_ge_None_2. rewrite mk_dirent_length. lia.
Qed.

Lemma linked_same k : (k < n)%nat → k ≠ j → entry V' (i_addrs p') k = entry V (i_addrs p) k.
Proof.
  intros Hk Hne. apply entry_ext. intros i Hi. apply (wn_out _ _ _ _ _ _ _ _ _ W); rewrite ?mk_dirent_length; [lia|].
  rewrite (do_size _ _ _ _ Hd). lia.
Qed.

Lemma linked_dir : dir_ok sb V' p' (Nat.max n (S j)).
Proof.
  pose proof (wn_inode _ _ _ _ _ _ _ _ _ W) as E. destruct Hd as [Hf Ht Hs]. rewrite mk_dirent_length in E.
  split; [apply W|rewrite E; simpl; done|]. rewrite E. simpl i_size. rewrite Hs. lia.
Qed.

Lemma linked_find : dir_find V (i_addrs p) name n 0 = None → dir_find V' (i_addrs p') name (Nat.max n (S j)) 0 = Some (u16 inum, j).
Proof.
  destruct (dir_slot_spec V (i_addrs p) n 0) as [Hj Hfr]. fold j in Hj, Hfr.
  apply dir_find_new; [lia|exact Hfr|exact linked_same| |done|].
  - by rewrite linked_entry, mk_dirent_inum.
  - by rewrite linked_entry, mk_dirent_name.
Qed.

Lemma linked_others other : nm other ≠ nm name →
  dir_find V' (i_addrs p') other (Nat.max n (S j)) 0 = dir_find V (i_addrs p) other n 0.
Proof.
  destruct (dir_slot_spec V (i_addrs p) n 0) as [Hj Hfr]. fold j in Hj, Hfr.
  apply dir_find_old; [lia|exact Hfr|exact linked_same|].
  by rewrite linked_entry, mk_dirent_name.
Qed.
End linked.
