(* ===== verification/FsCache.v ===== *)
(** The inode cache: which inodes are referenced and how often, as a map from
    inode numbers to counts, and iget, idup, ilock, iunlock and iput as
    operations on it. *)

From S2P Require Import Prelude Params Bytes Sleeplock BufCache Log Tx Fs FsAt FsAlloc FsMap FsFile FsInode.

(** * Reference counts *)

Definition inc (n : Z) (m : gmap Z Z) : gmap Z Z := <[n := default 0 (m !! n) + 1]> m.
Definition dec (n : Z) (m : gmap Z Z) : gmap Z Z :=
  match m !! n with
  | Some r => if r =? 1 then delete n m else <[n := r - 1]> m
  | None => m
  end.

Definition refs_pos (m : gmap Z Z) : Prop := ∀ n r, m !! n = Some r → 0 < r.

Lemma dec_inc n m : refs_pos m → dec n (inc n m) = m.
Proof.
  intros Hp. unfold dec, inc. rewrite lookup_insert_eq. destruct (m !! n) as [r|] eqn:E; simpl.
  - specialize (Hp n r E). zcases. rewrite insert_insert_eq. apply insert_id. rewrite E. f_equal. lia.
  - by rewrite delete_insert_id.
Qed.

Lemma dec_inc_ne n k m : refs_pos m → dec n (inc k (inc n m)) = inc k m.
Proof.
  intros Hp. destruct (decide (n = k)) as [->|Hne].
  - rewrite dec_inc; [done|]. intros j r. unfold inc. rewrite lookup_insert_Some. intros [[<- <-]|[_ H]]; [|by eapply Hp].
    destruct (m !! k) as [x|] eqn:E; simpl; [apply Hp in E|]; lia.
  - unfold inc. rewrite (lookup_insert_ne m n k) by done.
    unfold dec. rewrite lookup_insert_ne, lookup_insert_eq by done.
    destruct (m !! n) as [r|] eqn:E; simpl.
    + specialize (Hp n r E). zcases. rewrite insert_insert_ne by done. f_equal. rewrite insert_insert_eq. apply insert_id.
      rewrite E. f_equal. lia.
    + zcases. rewrite delete_insert_ne by done. by rewrite delete_insert_id.
Qed.

Lemma inc_pos n m : refs_pos m → refs_pos (inc n m).
Proof.
  intros Hp j r. unfold inc. rewrite lookup_insert_Some. intros [[<- <-]|[_ H]]; [|by eapply Hp].
  destruct (m !! n) as [x|] eqn:E; simpl; [apply Hp in E|]; lia.
Qed.

Lemma inc_size n m : (size (inc n m) ≤ S (size m))%nat.
Proof. unfold inc. destruct (m !! n) eqn:E; [rewrite map_size_insert_Some by eauto|rewrite map_size_insert_None by done]; lia. Qed.

(** * The scan of iget *)

Definition caches (dev inum : Z) (p : inode) : bool := (0 <? i_ref p) && (i_dev p =? dev) && (i_inum p =? inum).

Lemma iget_scan_spec dev inum l : ∀ i e,
  match iget_scan dev inum l i e with
  | (Some j, _) => ∃ k p, j = (i + k)%nat ∧ l !! k = Some p ∧ caches dev inum p = true
  | (None, e') =>
      (∀ k p, l !! k = Some p → caches dev inum p = false) ∧
      match e' with
      | Some j => e = Some j ∨ (e = None ∧ ∃ k p, j = (i + k)%nat ∧ l !! k = Some p ∧ i_ref p = 0)
      | None => e = None ∧ ∀ k p, l !! k = Some p → i_ref p ≠ 0
      end
  end.
Proof.
  induction l as [|p l IH]; intros i e; cbn [iget_scan].
  - split; [done|]. destruct e; [by left|]. done.
  - fold (caches dev inum p). destruct (caches dev inum p) eqn:Ec; [exists 0%nat, p; split_and!; [lia|done|done]|].
    set (e1 := match e with None => _ | Some _ => e end). specialize (IH (S i) e1).
    destruct (iget_scan dev inum l (S i) e1) as [[j|] e'].
    + destruct IH as (k & q & -> & Hk & Hc). exists (S k), q. split_and!; [lia|done|done].
    + destruct IH as [Hno He]. split.
      { intros [|k] q Hq; simpl in Hq; [by simplify_eq|eauto]. }
      unfold e1 in He. destruct e' as [j|].
      * destruct e as [x|]; [destruct He as [?|[? _]]; [by left|done]|]. right. split; [done|].
        destruct (Z.eqb_spec (i_ref p) 0) as [E|E].
        -- destruct He as [[= <-]|[? _]]; [|done]. exists 0%nat, p. split_and!; [lia|done|done].
        -- destruct He as [?|(_ & k & q & -> & Hk & Hr)]; [done|]. exists (S k), q. split_and!; [lia|done|done].
      * destruct e as [x|]; [by destruct He|]. destruct (Z.eqb_spec (i_ref p) 0) as [E|E]; [by destruct He|].
        split; [done|]. intros [|k] q Hq; simpl in Hq; [by simplify_eq|]. by eapply (proj2 He).
Qed.

Section cache.
Context {X : Type} `{!TxOps X} (rep : X → acache → Prop) `{!RdLaws X ROOTDEV rep}.
Context (sb : superblock) (cwd : nat) (pid : Z) (Hsb : sb_ok sb).
Context (away : M (fss X) unit) (fuel : nat).
Abbreviation fsat := (fsat rep sb cwd pid).

(** The inode numbered [n] on disk, as if just read. *)
Definition blank (n : Z) : inode := MkInode ROOTDEV n 1 initsleeplock 1 0 0 0 0 0 [].
Definition dino (V : vmap) (n : Z) : inode := get_dinode (dinode_off n) (V (IBLOCK n sb)) (blank n).

(** The cache holds the references [m]; entry [lk] is locked by this process,
    the others are not locked; what is marked valid agrees with the disk. *)
Record ic_rep (V : vmap) (ic : list inode) (m : gmap Z Z) (lk : option nat) : Prop := {
  cr_len : length ic = 50%nat;
  cr_ref i p : ic !! i = Some p → 0 ≤ i_ref p;
  cr_range i p : ic !! i = Some p → 0 < i_ref p → i_dev p = ROOTDEV ∧ 0 ≤ i_inum p < sb_ninodes sb;
  cr_uniq i j p q : ic !! i = Some p → ic !! j = Some q → 0 < i_ref p → 0 < i_ref q → i_inum p = i_inum q → i = j;
  cr_map n r : m !! n = Some r ↔ ∃ i p, ic !! i = Some p ∧ 0 < i_ref p ∧ i_inum p = n ∧ i_ref p = r;
  cr_lock i p : ic !! i = Some p → i_lock p = if decide (lk = Some i) then MkSleeplock 1 pid else MkSleeplock 0 (sl_pid (i_lock p));
  cr_sync i p : ic !! i = Some p → 0 < i_ref p → i_valid p ≠ 0 → on_disk p = on_disk (dino V (i_inum p))
}.

Lemma cr_pos V ic m lk : ic_rep V ic m lk → refs_pos m.
Proof. intros R n r (i & p & Hi & Hp & _ & <-)%(cr_map _ _ _ _ R). done. Qed.

Lemma cr_in V ic m lk i p : ic_rep V ic m lk → ic !! i = Some p → 0 < i_ref p → m !! i_inum p = Some (i_ref p).
Proof. intros R Hi Hp. apply (cr_map _ _ _ _ R). by exists i, p. Qed.

(** A cache that is not full has an entry without references. *)
Lemma cr_free V ic m lk : ic_rep V ic m lk → (size m < 50)%nat → ∃ i p, ic !! i = Some p ∧ i_ref p = 0.
Proof.
  intros R Hs. destruct (decide (Exists (λ p, i_ref p = 0) ic)) as [E|E].
  - apply Exists_exists in E as (p & Hp & H0). apply list_elem_of_lookup_1 in Hp as [i Hi]. eauto.
  - exfalso. rewrite <- Forall_Exists_neg in E. assert (Hall : ∀ i p, ic !! i = Some p → 0 < i_ref p).
    { intros i p Hi. pose proof (proj1 (Forall_lookup _ _) E i p Hi) as Hn. pose proof (cr_ref _ _ _ _ R i p Hi). simpl in Hn. lia. }
    assert (Hnd : NoDup (i_inum <$> ic)).
    { apply NoDup_alt. intros i j n. rewrite !list_lookup_fmap. destruct (ic !! i) as [p|] eqn:Hi; [|done].
      destruct (ic !! j) as [q|] eqn:Hj; [|done]. intros [= E1] [= E2]. eapply (cr_uniq _ _ _ _ R); eauto. congruence. }
    assert (Hsub : (list_to_set (i_inum <$> ic) : gset Z) ⊆ dom m).
    { intros n. rewrite elem_of_list_to_set, list_elem_of_fmap. intros (p & -> & Hp). apply list_elem_of_lookup_1 in Hp as [i Hi].
      apply elem_of_dom. exists (i_ref p). eapply cr_in; eauto. }
    apply subseteq_size in Hsub. rewrite size_list_to_set, length_fmap, size_dom, (cr_len _ _ _ _ R) in Hsub by done. lia.
Qed.

(** Replacing entry [i] by one for the same inode, unlocked or locked alike. *)
Lemma ic_upd V ic m lk lk' m' i p p' :
  ic_rep V ic m lk → ic !! i = Some p → 0 ≤ i_ref p' →
  (0 < i_ref p' → i_dev p' = ROOTDEV ∧ 0 ≤ i_inum p' < sb_ninodes sb) →
  (0 < i_ref p' → ∀ j q, j ≠ i → ic !! j = Some q → 0 < i_ref q → i_inum q ≠ i_inum p') →
  (∀ n r, m' !! n = Some r ↔ (0 < i_ref p' ∧ i_inum p' = n ∧ i_ref p' = r) ∨
     ∃ j q, j ≠ i ∧ ic !! j = Some q ∧ 0 < i_ref q ∧ i_inum q = n ∧ i_ref q = r) →
  (∀ j, j ≠ i → lk' = Some j ↔ lk = Some j) →
  i_lock p' = (if decide (lk' = Some i) then MkSleeplock 1 pid else MkSleeplock 0 (sl_pid (i_lock p'))) →
  (0 < i_ref p' → i_valid p' ≠ 0 → on_disk p' = on_disk (dino V (i_inum p'))) →
  ic_rep V (<[i := p']> ic) m' lk'.
Proof.
  intros R Hi H1 H2 H3 H4 H5 H6 H7. assert (Hlt : (i < length ic)%nat) by (by eapply lookup_lt_Some).
  assert (L : ∀ j q, <[i := p']> ic !! j = Some q → j = i ∧ q = p' ∨ j ≠ i ∧ ic !! j = Some q).
  { intros j q. destruct (decide (j = i)) as [->|]; [rewrite list_lookup_insert_eq by done; intros [= ->]; by left|].
    rewrite list_lookup_insert_ne by done. by right. }
  split.
  - rewrite length_insert. apply R.
  - intros j q [[-> ->]|[_ Hq]]%L; [done|]. by eapply (cr_ref _ _ _ _ R).
  - intros j q [[-> ->]|[_ Hq]]%L; [done|]. by eapply (cr_range _ _ _ _ R).
  - intros j k q q' [[-> ->]|[Hj Hq]]%L [[-> ->]|[Hk Hq']]%L Hr Hr' E; [done| | |by eapply (cr_uniq _ _ _ _ R)].
    + destruct (H3 Hr k q' Hk Hq' Hr'). done.
    + destruct (H3 Hr' j q Hj Hq Hr). done.
  - intros n r. rewrite H4. split.
    + intros [(A & B & C)|(j & q & A & B & C)].
      * exists i, p'. by rewrite list_lookup_insert_eq.
      * exists j, q. by rewrite list_lookup_insert_ne by done.
    + intros (j & q & [[-> ->]|[Hj Hq]]%L & Hr); [by left|right]. exists j, q. done.
  - intros j q [[-> ->]|[Hj Hq]]%L; [done|]. rewrite (cr_lock _ _ _ _ R j q Hq) at 1.
    destruct (decide (lk = Some j)) as [E|E]; [by rewrite decide_True by (by apply H5)|].
    rewrite decide_False; [done|]. intros ?. by apply E, H5.
  - intros j q [[-> ->]|[Hj Hq]]%L; [done|]. by eapply (cr_sync _ _ _ _ R).
Qed.
(** The entries other than [i]. *)
Lemma cr_others V ic m lk i p n r :
  ic_rep V ic m lk → ic !! i = Some p → 0 < i_ref p → n ≠ i_inum p →
  m !! n = Some r ↔ ∃ j q, j ≠ i ∧ ic !! j = Some q ∧ 0 < i_ref q ∧ i_inum q = n ∧ i_ref q = r.
Proof.
  intros R Hi Hr Hn. rewrite (cr_map _ _ _ _ R). split.
  - intros (j & q & Hj & Hq & E & E'). exists j, q. split_and!; try done. intros ->. simplify_eq.
  - intros (j & q & Hj & Hq). eauto.
Qed.

Lemma cr_alone V ic m lk i p j q :
  ic_rep V ic m lk → ic !! i = Some p → 0 < i_ref p → j ≠ i → ic !! j = Some q → 0 < i_ref q → i_inum q ≠ i_inum p.
Proof. intros R Hi Hr Hj Hq Hrq E. apply Hj. by eapply (cr_uniq _ _ _ _ R). Qed.

(** One more reference, one less. *)
Lemma ic_inc V ic m lk i p :
  ic_rep V ic m lk → ic !! i = Some p → 0 < i_ref p →
  ic_rep V (<[i := set_i_ref (i_ref p + 1) p]> ic) (inc (i_inum p) m) lk.
Proof.
  intros R Hi Hr. eapply (ic_upd V ic m lk lk _ i p); [done|done|simpl; lia| | | |done| |].
  - intros _. exact (cr_range _ _ _ _ R i p Hi Hr).
  - intros _ j q Hj Hq Hrq. exact (cr_alone _ _ _ _ i p j q R Hi Hr Hj Hq Hrq).
  - intros n r. unfold inc. rewrite lookup_insert_Some, (cr_in _ _ _ _ _ _ R Hi Hr). simpl. split.
    + intros [[<- <-]|[Hn Hm]]; [left; split_and!; [lia|done|done]|right]. by apply (cr_others _ _ _ _ _ _ _ _ R Hi).
    + intros [(_ & <- & <-)|(j & q & Hj & Hq & Hrq & <- & <-)]; [by left|right].
      pose proof (cr_alone _ _ _ _ _ _ _ _ R Hi Hr Hj Hq Hrq) as Hne. split; [done|]. by eapply cr_in.
  - apply (cr_lock _ _ _ _ R i p Hi).
  - intros _. exact (cr_sync _ _ _ _ R i p Hi Hr).
Qed.

Lemma ic_dec V ic m i p :
  ic_rep V ic m None → ic !! i = Some p → 0 < i_ref p →
  ic_rep V (<[i := set_i_ref (i_ref p - 1) p]> ic) (dec (i_inum p) m) None.
Proof.
  intros R Hi Hr. eapply (ic_upd V ic m None None _ i p); [done|done|simpl; lia| | | |done| |].
  - intros _. exact (cr_range _ _ _ _ R i p Hi Hr).
  - intros _ j q Hj Hq Hrq. exact (cr_alone _ _ _ _ i p j q R Hi Hr Hj Hq Hrq).
  - intros n r. unfold dec. rewrite (cr_in _ _ _ _ _ _ R Hi Hr). simpl. split.
    + intros Hm. destruct (decide (n = i_inum p)) as [->|Hn].
      * left. zcases_in Hm; [by rewrite lookup_delete_eq in Hm|]. rewrite lookup_insert_eq in Hm. simplify_eq. lia.
      * right. apply (cr_others _ _ _ _ _ _ _ _ R Hi Hr Hn).
        zcases_in Hm; [by rewrite lookup_delete_ne in Hm|by rewrite lookup_insert_ne in Hm].
    + intros [(H1 & <- & <-)|Ho]; [zcases; by rewrite lookup_insert_eq|].
      assert (Hn : n ≠ i_inum p) by (destruct Ho as (j & q & Hj & Hq & Hrq & <- & _); by eapply cr_alone).
      apply (cr_others _ _ _ _ _ _ _ _ R Hi Hr Hn) in Ho.
      zcases; [by rewrite lookup_delete_ne|by rewrite lookup_insert_ne].
  - apply (cr_lock _ _ _ _ R i p Hi).
  - intros _. exact (cr_sync _ _ _ _ R i p Hi Hr).
Qed.

(** Entry [i] still stands for the same inode. *)
Definition keeps (ic ic' : list inode) : Prop :=
  ∀ j q, ic !! j = Some q → 0 < i_ref q → ∃ q', ic' !! j = Some q' ∧ i_inum q' = i_inum q ∧ 0 < i_ref q' ∧ on_disk q' = on_disk q.

Lemma keeps_insert ic i p p' :
  ic !! i = Some p → (0 < i_ref p → i_inum p' = i_inum p ∧ 0 < i_ref p' ∧ on_disk p' = on_disk p) → keeps ic (<[i := p']> ic).
Proof.
  intros Hi Hp j q Hj Hr. destruct (decide (j = i)) as [->|]; [|rewrite list_lookup_insert_ne by done; eauto].
  rewrite list_lookup_insert_eq by (by eapply lookup_lt_Some). simplify_eq. destruct (Hp Hr) as (? & ? & ?). eauto.
Qed.

Lemma wp_iget s ic V P H m lk n (Q : nat → fss X → Prop) :
  fsat s ic V P H → ic_rep V ic m lk → 0 ≤ n < sb_ninodes sb → (size m < 50)%nat ∨ n ∈ dom m →
  (∀ i ic' p' s', fsat s' ic' V P H → ic_rep V ic' (inc n m) lk → keeps ic ic' →
     ic' !! i = Some p' → i_inum p' = n → 0 < i_ref p' → Q i s') →
  wp (iget ROOTDEV n) s Q.
Proof.
  intros F R Hn Hroom HQ. unfold iget. apply wp_bind, wp_get. rewrite (at_ic F).
  assert (Hc : ∀ i p, ic !! i = Some p → caches ROOTDEV n p = true ↔ 0 < i_ref p ∧ i_inum p = n).
  { intros i p Hi. unfold caches. pose proof (cr_range _ _ _ _ R i p Hi). rewrite !andb_true_iff, Z.ltb_lt, !Z.eqb_eq. naive_solver. }
  pose proof (iget_scan_spec ROOTDEV n ic 0 None) as Hs. destruct (iget_scan ROOTDEV n ic 0 None) as [[j|] e].
  - destruct Hs as (k & p & -> & Hk & Hcp). rewrite Nat.add_0_l. apply (Hc _ _ Hk) in Hcp as [Hr <-].
    apply wp_bind, (wp_updi F Hk). intros s1 F1. apply wp_ret. eapply HQ; [exact F1|by apply ic_inc| | | |].
    + eapply keeps_insert; [done|]. simpl. intros _. split_and!; [done|lia|done].
    + rewrite list_lookup_insert_eq by (by eapply lookup_lt_Some). done.
    + done.
    + simpl. lia.
  - destruct Hs as [Hno He].
    assert (Hno' : ∀ i p, ic !! i = Some p → 0 < i_ref p → i_inum p ≠ n).
    { intros i p Hi Hr E. specialize (Hno i p Hi). pose proof (proj2 (Hc i p Hi) (conj Hr E)). congruence. }
    assert (Hmn : m !! n = None).
    { destruct (m !! n) as [r|] eqn:E; [|done]. apply (cr_map _ _ _ _ R) in E as (i & p & Hi & Hr & E & _). by destruct (Hno' i p). }
    destruct Hroom as [Hroom|Hd]; [|apply elem_of_dom in Hd as [? ?]; congruence].
    destruct e as [j|]; [|destruct He as [_ He]; destruct (cr_free _ _ _ _ R Hroom) as (i & p & Hi & H0); by destruct (He i p)].
    destruct He as [?|(_ & k & p & -> & Hk & Hr0)]; [done|]. rewrite Nat.add_0_l.
    apply wp_bind, (wp_updi F Hk). intros s1 F1. apply wp_ret. eapply HQ; [exact F1| | | | |].
    + eapply (ic_upd V ic m lk lk _ k p); [done|done|simpl; lia|done| | |done| |done].
      * intros _ j q Hj Hq Hrq. simpl. by eapply Hno'.
      * intros n' r. unfold inc. rewrite lookup_insert_Some, Hmn. simpl. split.
        -- intros [[<- <-]|[Hne Hm]]; [left; split_and!; [lia|done|done]|right].
           apply (cr_map _ _ _ _ R) in Hm as (j & q & Hj & Hq & E & E'). exists j, q. split_and!; try done. intros ->. simplify_eq. lia.
        -- intros [(_ & <- & <-)|(j & q & Hj & Hq & Hrq & <- & <-)]; [by left|right]. split; [|by eapply cr_in].
           intros E. by destruct (Hno' j q Hq Hrq).
      * apply (cr_lock _ _ _ _ R k p Hk).
    + eapply keeps_insert; [done|]. lia.
    + rewrite list_lookup_insert_eq by (by eapply lookup_lt_Some). done.
    + done.
    + simpl. lia.
Qed.

Lemma wp_idup s ic V P H m lk i p (Q : nat → fss X → Prop) :
  fsat s ic V P H → ic_rep V ic m lk → ic !! i = Some p → 0 < i_ref p →
  (∀ ic' p' s', fsat s' ic' V P H → ic_rep V ic' (inc (i_inum p) m) lk → keeps ic ic' →
     ic' !! i = Some p' → i_inum p' = i_inum p → 0 < i_ref p' → Q i s') →
  wp (idup i) s Q.
Proof.
  intros F R Hi Hr HQ. unfold idup. apply wp_bind, (wp_updi F Hi). intros s1 F1. apply wp_ret.
  eapply (HQ _ (set_i_ref (i_ref p + 1) p)); [exact F1|by apply ic_inc| | |done|simpl; lia].
  - eapply keeps_insert; [done|]. simpl. intros _. split_and!; [done|lia|done].
  - by rewrite list_lookup_insert_eq by (by eapply lookup_lt_Some).
Qed.

(** * Locking *)

Lemma cr_idx V ic m lk i p : ic_rep V ic m lk → ic !! i = Some p → i ≠ null_inode.
Proof. intros R Hi ->. apply lookup_lt_Some in Hi. rewrite (cr_len _ _ _ _ R) in Hi. unfold null_inode, NINODE in Hi. lia. Qed.

Lemma wp_acquire_inode s ic V P H m i p (Q : unit → fss X → Prop) :
  fsat s ic V P H → ic_rep V ic m None → ic !! i = Some p →
  (∀ s', fsat s' (<[i := set_i_lock (MkSleeplock 1 pid) p]> ic) V P H → Q tt s') →
  wp (acquiresleep_inode away fuel i) s Q.
Proof.
  intros F R Hi HQ. pose proof (cr_lock _ _ _ _ R i p Hi) as Hl. rewrite decide_False in Hl by done.
  assert (E : acquiresleep_inode away fuel i s =
    bind (geti i) (λ p, bind get (λ s, match acquiresleep (f_pid s) (i_lock p) with Some l => updi i (set_i_lock l)
      | None => match fuel with O => out_of_fuel | S f' => away ;;; acquiresleep_inode away f' i end end)) s)
    by (by destruct fuel).
  unfold wp. rewrite E. fold (wp (bind (geti i) (λ p, bind get (λ s, match acquiresleep (f_pid s) (i_lock p) with Some l => updi i (set_i_lock l)
      | None => match fuel with O => out_of_fuel | S f' => away ;;; acquiresleep_inode away f' i end end))) s Q).
  apply wp_bind, (wp_geti F Hi), wp_bind, wp_get. rewrite Hl, (at_pid F). unfold acquiresleep. simpl.
  by apply (wp_updi F Hi).
Qed.

Lemma on_disk_get o d q q' : on_disk (get_dinode o d q) = on_disk (get_dinode o d q').
Proof. done. Qed.

(** Changing the lock or the disk fields of a referenced entry. *)
Lemma ic_same V ic m lk lk' i p p' :
  ic_rep V ic m lk → ic !! i = Some p → 0 < i_ref p →
  i_ref p' = i_ref p → i_dev p' = i_dev p → i_inum p' = i_inum p →
  (∀ j, j ≠ i → lk' = Some j ↔ lk = Some j) →
  i_lock p' = (if decide (lk' = Some i) then MkSleeplock 1 pid else MkSleeplock 0 (sl_pid (i_lock p'))) →
  (i_valid p' ≠ 0 → on_disk p' = on_disk (dino V (i_inum p'))) →
  ic_rep V (<[i := p']> ic) m lk'.
Proof.
  intros R Hi Hr E1 E2 E3 Hlk Hl Hs. eapply (ic_upd V ic m lk lk' _ i p); try done; rewrite ?E1, ?E2, ?E3.
  - lia.
  - intros _. exact (cr_range _ _ _ _ R i p Hi Hr).
  - intros _ j q Hj Hq Hrq. exact (cr_alone _ _ _ _ i p j q R Hi Hr Hj Hq Hrq).
  - intros n r. destruct (decide (n = i_inum p)) as [->|Hn].
    + rewrite (cr_in _ _ _ _ _ _ R Hi Hr). split; [intros [= <-]; by left|].
      intros [(_ & _ & <-)|(j & q & Hj & Hq & Hrq & E & _)]; [done|]. by destruct (cr_alone _ _ _ _ _ _ _ _ R Hi Hr Hj Hq Hrq).
    + rewrite (cr_others _ _ _ _ _ _ _ _ R Hi Hr Hn). split; [by right|]. intros [(_ & ? & _)|?]; [congruence|done].
Qed.

Lemma wp_ilock s ic V P m i p (Q : unit → fss X → Prop) :
  fsat s ic V P ∅ → ic_rep V ic m None → ic !! i = Some p → 0 < i_ref p → i_type (dino V (i_inum p)) ≠ 0 → (size P ≤ 28)%nat →
  (∀ ic' p' s', fsat s' ic' V P ∅ → ic_rep V ic' m (Some i) → ic' !! i = Some p' →
     i_dev p' = ROOTDEV → i_inum p' = i_inum p → i_ref p' = i_ref p → on_disk p' = on_disk (dino V (i_inum p)) →
     (∀ j, j ≠ i → ic' !! j = ic !! j) → Q tt s') →
  wp (ilock away fuel i) s Q.
Proof.
  intros F R Hi Hr Ht HP HQ. unfold ilock. rewrite decide_False by (by eapply cr_idx).
  apply wp_bind, (wp_geti F Hi). destruct (Z.ltb_spec (i_ref p) 1); [lia|].
  destruct (cr_range _ _ _ _ R i p Hi Hr) as [Hd Hn]. assert (Hlt : (i < length ic)%nat) by (by eapply lookup_lt_Some).
  apply wp_bind, (wp_acquire_inode s ic V P ∅ m i p _ F R Hi). intros s1 F1.
  set (p1 := set_i_lock (MkSleeplock 1 pid) p) in *.
  assert (H1 : <[i := p1]> ic !! i = Some p1) by (by apply list_lookup_insert_eq).
  apply wp_bind, wp_get, wp_bind, (wp_geti F1 H1). change (i_valid p1) with (i_valid p).
  destruct (Z.eqb_spec (i_valid p) 0) as [Ev|Ev].
  - rewrite (at_sb F1). change (i_dev p1) with (i_dev p). change (i_inum p1) with (i_inum p). rewrite Hd.
    pose proof (iblock_range sb Hsb _ Hn). pose proof (sb_bounds _ Hsb).
    apply wp_bind, (wp_bread F1); [lia|apply not_in_empty_img|by apply room_empty|]. intros bp s2 _ F2.
    apply wp_bind, (wp_data F2 (lookup_insert_eq _ _ _)).
    apply wp_bind, (wp_updi F2 H1). rewrite list_insert_insert_eq. intros s3 F3.
    apply wp_bind, (wp_brelse F3 (lookup_insert_eq _ _ _)). rewrite delete_insert_eq, delete_empty. intros s4 F4.
    set (p2 := get_dinode (dinode_off (i_inum p)) (V (IBLOCK (i_inum p) sb)) p1) in *.
    apply wp_bind, (wp_updi F4 (list_lookup_insert_eq _ _ _ Hlt)). rewrite list_insert_insert_eq. intros s5 F5.
    apply wp_bind, (wp_geti F5 (list_lookup_insert_eq _ _ _ Hlt)).
    assert (Ed : on_disk (set_i_valid 1 p2) = on_disk (dino V (i_inum p))) by done.
    change (i_type (set_i_valid 1 p2)) with (i_type (dino V (i_inum p))).
    rewrite (proj2 (Z.eqb_neq _ _) Ht). apply wp_ret.
    eapply HQ; [exact F5| |by apply list_lookup_insert_eq|done|done|done|done|intros; by apply list_lookup_insert_ne].
    eapply (ic_same V ic m None (Some i) i p); try done; [intros; split; congruence|by rewrite decide_True].
  - apply wp_ret. eapply HQ; [exact F1| |exact H1|done|done|done|exact (cr_sync _ _ _ _ R i p Hi Hr Ev)|intros; by apply list_lookup_insert_ne].
    eapply (ic_same V ic m None (Some i) i p); try done; [intros; split; congruence|by rewrite decide_True|].
    intros _. exact (cr_sync _ _ _ _ R i p Hi Hr Ev).
Qed.

Lemma wp_iunlock s ic V P H m i p (Q : unit → fss X → Prop) :
  fsat s ic V P H → ic_rep V ic m (Some i) → ic !! i = Some p → 0 < i_ref p →
  (∀ ic' p' s', fsat s' ic' V P H → ic_rep V ic' m None → keeps ic ic' →
     ic' !! i = Some p' → i_inum p' = i_inum p → i_ref p' = i_ref p → Q tt s') →
  wp (iunlock i) s Q.
Proof.
  intros F R Hi Hr HQ. unfold iunlock. rewrite decide_False by (by eapply cr_idx).
  apply wp_bind, wp_get, wp_bind, (wp_geti F Hi). pose proof (cr_lock _ _ _ _ R i p Hi) as Hl. rewrite decide_True in Hl by done.
  rewrite Hl, (at_pid F). unfold holdingsleep. cbn [sl_locked sl_pid]. rewrite Z.eqb_refl. cbn [negb andb orb Z.eqb].
  destruct (Z.ltb_spec (i_ref p) 1); [lia|]. apply (wp_updi F Hi). intros s1 F1.
  eapply HQ; [exact F1| | |by rewrite list_lookup_insert_eq by (by eapply lookup_lt_Some)|done|done].
  - eapply (ic_same V ic m (Some i) None i p); try done; [intros; split; congruence|].
    intros Hv. exact (cr_sync _ _ _ _ R i p Hi Hr Hv).
  - by eapply keeps_insert.
Qed.

(** iput of an inode that still has links: only the count changes. *)
Lemma wp_iput s ic V P H m i p (Q : unit → fss X → Prop) :
  fsat s ic V P H → ic_rep V ic m None → ic !! i = Some p → 0 < i_ref p → i_nlink (dino V (i_inum p)) ≠ 0 →
  (∀ ic' s', fsat s' ic' V P H → ic_rep V ic' (dec (i_inum p) m) None →
     (∀ j q, j ≠ i → ic !! j = Some q → ic' !! j = Some q) →
     (∃ p', ic' !! i = Some p' ∧ i_inum p' = i_inum p ∧ i_ref p' = i_ref p - 1) → Q tt s') →
  wp (iput away fuel i) s Q.
Proof.
  intros F R Hi Hr Hn HQ. unfold iput. assert (Hlt : (i < length ic)%nat) by (by eapply lookup_lt_Some).
  apply wp_bind, (wp_acquire_inode s ic V P H m i p _ F R Hi). intros s1 F1.
  set (p1 := set_i_lock (MkSleeplock 1 pid) p) in *.
  assert (H1 : <[i := p1]> ic !! i = Some p1) by (by apply list_lookup_insert_eq).
  apply wp_bind, (wp_geti F1 H1). change (i_valid p1) with (i_valid p). change (i_nlink p1) with (i_nlink p).
  assert (Hc : negb (i_valid p =? 0) && (i_nlink p =? 0) = false).
  { destruct (Z.eqb_spec (i_valid p) 0) as [|Ev]; [done|]. pose proof (cr_sync _ _ _ _ R i p Hi Hr Ev) as Es.
    injection Es as _ _ _ En _ _. simpl. apply Z.eqb_neq. rewrite En. done. }
  rewrite Hc. cbn [andb]. apply wp_bind, wp_ret.
  apply wp_bind, (wp_updi F1 H1). rewrite list_insert_insert_eq. intros s2 F2.
  set (p2 := set_i_lock (releasesleep (i_lock p1)) p1) in *.
  assert (H2 : <[i := p2]> ic !! i = Some p2) by (by apply list_lookup_insert_eq).
  assert (R2 : ic_rep V (<[i := p2]> ic) m None).
  { eapply (ic_same V ic m None None i p); try done. intros Hv. by apply (cr_sync _ _ _ _ R i p Hi Hr). }
  apply (wp_updi F2 H2). intros s3 F3. eapply HQ; [exact F3| | |].
  - exact (ic_dec V _ m i p2 R2 H2 Hr).
  - intros j q Hj Hq. by rewrite !list_lookup_insert_ne by done.
  - exists (set_i_ref (i_ref p2 - 1) p2). by rewrite list_lookup_insert_eq by (by rewrite length_insert).
Qed.
End cache.
