(* ===== verification/FsPath.v ===== *)
(** Path names: skipelem against splitting at slashes, and namex against a
    walk over the directories on disk. *)

From S2P Require Import Prelude Params Bytes Cstring Sleeplock BufCache Log Tx Fs FsAt FsAlloc FsMap FsFile FsInode FsDir FsCache.

(** * Splitting a path *)

Fixpoint split_slash (p : list Z) : list (list Z) :=
  match p with
  | [] => [[]]
  | c :: p' =>
      if c =? 47 then [] :: split_slash p'
      else match split_slash p' with e :: es => (c :: e) :: es | [] => [[c]] end
  end.

(** The names between the slashes. *)
Definition path_elems (p : list Z) : list (list Z) := filter (λ e, e ≠ []) (split_slash p).

Lemma split_take_drop p :
  split_slash p = take_elem p :: match drop_elem p with [] => [] | _ :: p' => split_slash p' end.
Proof.
  induction p as [|c p IH]; [done|]. cbn [split_slash take_elem drop_elem]. destruct (c =? 47); [done|]. by rewrite IH.
Qed.

Lemma elems_slash p : path_elems (47 :: p) = path_elems p.
Proof. done. Qed.

Lemma elems_skip p : path_elems (skip_slashes p) = path_elems p.
Proof.
  induction p as [|c p IH]; [done|]. cbn [skip_slashes]. destruct (Z.eqb_spec c 47) as [->|]; [|done]. by rewrite IH, elems_slash.
Qed.

Lemma drop_elem_slash p c p' : drop_elem p = c :: p' → c = 47.
Proof.
  induction p as [|x p IH]; [done|]. cbn [drop_elem]. destruct (Z.eqb_spec x 47) as [->|]; [|done]. by intros [= -> _].
Qed.

Lemma elems_cons p :
  take_elem p ≠ [] → path_elems p = take_elem p :: path_elems (drop_elem p).
Proof.
  intros Hne. unfold path_elems at 1. rewrite split_take_drop, filter_cons_True by done. f_equal.
  destruct (drop_elem p) as [|c p'] eqn:E; [done|]. by rewrite (drop_elem_slash _ _ _ E), elems_slash.
Qed.

Lemma skip_head p : skip_slashes p = [] ∨ ∃ c p', skip_slashes p = c :: p' ∧ c ≠ 47.
Proof.
  induction p as [|c p IH]; [by left|]. cbn [skip_slashes]. destruct (Z.eqb_spec c 47); [done|]. right. eauto.
Qed.

Lemma take_elem_head c p : c ≠ 47 → take_elem (c :: p) ≠ [].
Proof. intros. cbn [take_elem]. zcases. done. Qed.

Lemma skip_elems_nil p : path_elems p = [] ↔ skip_slashes p = [].
Proof.
  rewrite <- elems_skip. destruct (skip_head p) as [->|(c & p' & -> & Hc)]; [done|].
  rewrite elems_cons by (by apply take_elem_head). done.
Qed.

Lemma skip_length p : (length (skip_slashes p) ≤ length p)%nat.
Proof. induction p as [|c p IH]; [done|]. cbn [skip_slashes]. destruct (c =? 47); simpl in *; lia. Qed.
Lemma drop_length p : (length (drop_elem p) ≤ length p)%nat.
Proof. induction p as [|c p IH]; [done|]. cbn [drop_elem]. destruct (c =? 47); simpl in *; lia. Qed.

Lemma skip_Forall (R : Z → Prop) p : Forall R p → Forall R (skip_slashes p).
Proof. induction 1 as [|c p Hc Hp IH]; [done|]. cbn [skip_slashes]. destruct (c =? 47); [done|by constructor]. Qed.
Lemma take_Forall (R : Z → Prop) p : Forall R p → Forall R (take_elem p).
Proof. induction 1 as [|c p Hc Hp IH]; [done|]. cbn [take_elem]. destruct (c =? 47); [done|by constructor]. Qed.
Lemma drop_Forall (R : Z → Prop) p : Forall R p → Forall R (drop_elem p).
Proof. induction 1 as [|c p Hc Hp IH]; [done|]. cbn [drop_elem]. destruct (c =? 47); [by constructor|done]. Qed.

Lemma upto_nul_app e t : Forall (λ c, c ≠ 0) e → upto_nul (e ++ 0 :: t) = e.
Proof. induction 1 as [|c e Hc He IH]; [done|]. cbn [app upto_nul]. zcases. by rewrite IH. Qed.
Lemma upto_nul_id e : Forall (λ c, c ≠ 0) e → upto_nul e = e.
Proof. induction 1 as [|c e Hc He IH]; [done|]. cbn [upto_nul]. zcases. by rewrite IH. Qed.

(** skipelem takes the first name off the path and copies at most DIRSIZ
    characters of it. *)
Lemma skipelem_spec path name :
  Forall (λ c, c ≠ 0) path → length name = 14%nat →
  match path_elems path with
  | [] => skipelem path name = None
  | e :: es =>
      ∃ path' name', skipelem path name = Some (path', name') ∧ path_elems path' = es ∧ (path' = [] ↔ es = [])
        ∧ Forall (λ c, c ≠ 0) path' ∧ (length path' < length path)%nat ∧ length name' = 14%nat ∧ nm name' = nm e
  end.
Proof.
  intros Hnz Hl. unfold skipelem. rewrite <- (elems_skip path).
  pose proof (skip_length path) as Hsl. pose proof (skip_Forall _ _ Hnz) as Hnz'.
  destruct (skip_head path) as [->|(c & p' & E & Hc)]; [done|]. rewrite E in *.
  rewrite elems_cons by (by apply take_elem_head). set (q := c :: p') in *.
  eexists _, _. split; [done|]. pose proof (take_Forall _ _ Hnz') as Hte.
  assert (Hn : nm (take_elem q) = take 14 (take_elem q)) by (apply upto_nul_id, Forall_take; done).
  split_and!.
  - apply elems_skip.
  - rewrite skip_elems_nil. done.
  - by apply skip_Forall, drop_Forall.
  - assert (length (drop_elem q) < length q)%nat.
    { unfold q. cbn [drop_elem]. rewrite (proj2 (Z.eqb_neq c 47)) by done. pose proof (drop_length p'). simpl. lia. }
    pose proof (skip_length (drop_elem q)). lia.
  - unfold DIRSIZ. change (Z.to_nat 14) with 14%nat.
    destruct (Z.ltb_spec (Z.of_nat (length (take_elem q))) 14); rewrite splice_length; try done;
      rewrite ?length_app, ?length_take; cbn [length]; lia.
  - rewrite Hn. unfold DIRSIZ, splice. change (Z.to_nat 14) with 14%nat.
    destruct (Z.ltb_spec (Z.of_nat (length (take_elem q))) 14); rewrite take_0; cbn [app].
    + unfold nm. rewrite <- app_assoc. cbn [app]. rewrite (take_ge (take_elem q)) by lia.
      rewrite take_app, (take_ge (take_elem q)) by lia.
      replace (14 - length (take_elem q))%nat with (S (13 - length (take_elem q))) by lia. cbn [take].
      by apply upto_nul_app.
    + unfold nm. rewrite take_app, take_take, Nat.min_id, length_take.
      rewrite (Nat.min_l 14) by lia. rewrite Nat.sub_diag, take_0, app_nil_r. apply upto_nul_id, Forall_take. done.
Qed.

(** * The walk *)

Lemma dir_find_nm V l a b n : nm a = nm b → ∀ k, dir_find V l a n k = dir_find V l b n k.
Proof. intros E. induction n as [|n IH]; intros k; [done|]. cbn [dir_find]. by rewrite E, IH. Qed.

Section walk.
Context (sb : superblock).
Abbreviation dino := (dino sb).

Definition nent (V : vmap) (n : Z) : nat := Z.to_nat (i_size (dino V n) / 16).
Definition dir_get (V : vmap) (n : Z) (name : list Z) : option Z :=
  fst <$> dir_find V (i_addrs (dino V n)) name (nent V n) 0.

(** Where the names lead from inode [n]; with [parent], to the directory that
    should contain the last name. *)
Fixpoint walk (V : vmap) (parent : bool) (n : Z) (es : list (list Z)) : option Z :=
  match es with
  | [] => if parent then None else Some n
  | e :: es' =>
      if i_type (dino V n) =? T_DIR then
        if parent && bool_decide (es' = []) then Some n
        else match dir_get V n e with Some k => walk V parent k es' | None => None end
      else None
  end.

(** Allocated and linked. *)
Definition live (V : vmap) (n : Z) : Prop :=
  0 ≤ n < sb_ninodes sb ∧ i_type (dino V n) ≠ 0 ∧ i_nlink (dino V n) ≠ 0.

(** Directories are well formed and name live inodes. *)
Definition tree_ok (V : vmap) : Prop :=
  ∀ n, live V n → i_type (dino V n) = T_DIR →
    dir_ok sb V (dino V n) (nent V n) ∧ ∀ e k, dir_get V n e = Some k → live V k.

Lemma dir_ok_copy V p n k :
  dir_ok sb V (dino V n) k → i_dev p = ROOTDEV → i_inum p = n → on_disk p = on_disk (dino V n) → dir_ok sb V p k.
Proof.
  intros [[F1 F2 F3 F4 F5 F6] Ht Hs] Hd Hn E. unfold on_disk in E. injection E as E1 E2 E3 E4 E5 E6.
  split; [split|..]; rewrite ?Hn, ?E1, ?E5, ?E6; try done.
Qed.
End walk.

Section namex.
Context {X : Type} `{!TxOps X} (rep : X → acache → Prop) `{!RdLaws X ROOTDEV rep}.
Context (sb : superblock) (cwd : nat) (pid : Z) (Hsb : sb_ok sb).
Context (away : M (fss X) unit) (fuel : nat).
Context (dev_read : Z → option (nat → Z → M (fss X) (Z * list Z))).
Abbreviation fsat := (fsat rep sb cwd pid).
Abbreviation dino := (dino sb).
Abbreviation ic_rep := (ic_rep sb pid).

(** The outcome of a walk that reached [o], in the cache: one more reference
    to it, and none to what was passed on the way. *)
Definition reached (V : vmap) (m : gmap Z Z) (o : option Z) (r : option nat) (ic : list inode) : Prop :=
  match o with
  | Some n => ∃ i p, r = Some i ∧ ic !! i = Some p ∧ i_inum p = n ∧ 0 < i_ref p ∧ ic_rep V ic (inc n m) None
  | None => r = None ∧ ic_rep V ic m None
  end.

(** The entries for the references of [m] are where they were. *)
Definition stays (m : gmap Z Z) (ic ic' : list inode) : Prop :=
  ∀ j q, ic !! j = Some q → 0 < i_ref q → i_inum q ∈ dom m → ∃ q', ic' !! j = Some q' ∧ i_inum q' = i_inum q ∧ 0 < i_ref q'.

Lemma stays_trans m ic1 ic2 ic3 : stays m ic1 ic2 → stays m ic2 ic3 → stays m ic1 ic3.
Proof.
  intros H1 H2 j q Hj Hr Hd. destruct (H1 j q Hj Hr Hd) as (q1 & Hj1 & E1 & Hr1).
  destruct (H2 j q1 Hj1 Hr1) as (q2 & Hj2 & E2 & Hr2); [by rewrite E1|]. exists q2. split_and!; congruence.
Qed.

Lemma keeps_stays m ic ic' : keeps ic ic' → stays m ic ic'.
Proof. intros H j q Hj Hr _. destruct (H j q Hj Hr) as (q' & ? & ? & ? & _). by exists q'. Qed.

(** Giving up one reference to [p], when there is one more than [m] has. *)
Lemma stays_drop V ic ic' M lk m i p :
  ic_rep V ic M lk → ic !! i = Some p → 0 < i_ref p → refs_pos m → (∀ x, m !! i_inum p = Some x → ∃ y, M !! i_inum p = Some y ∧ x < y) →
  (∀ j q, ic !! j = Some q → (j ≠ i ∧ 0 < i_ref q) ∨ 1 < i_ref q → ∃ q', ic' !! j = Some q' ∧ i_inum q' = i_inum q ∧ 0 < i_ref q') →
  stays m ic ic'.
Proof.
  intros R Hi Hr Hm HM H j q Hj Hq Hd. apply H; [done|]. destruct (decide (j = i)) as [->|]; [right|by left].
  simplify_eq. apply elem_of_dom in Hd as [x Hx]. destruct (HM x Hx) as (y & Hy & Hlt). pose proof (Hm _ _ Hx).
  pose proof (cr_in sb pid _ _ _ _ _ _ R Hi Hr). simplify_eq. lia.
Qed.

Lemma inc_above n m x : m !! n = Some x → ∃ y, inc n m !! n = Some y ∧ x < y.
Proof. intros H. unfold inc. rewrite lookup_insert_eq, H. simpl. eexists. split; [done|lia]. Qed.

Lemma wp_iunlockput s ic V P m i p (Q : unit → fss X → Prop) :
  fsat s ic V P ∅ → ic_rep V ic m (Some i) → ic !! i = Some p → 0 < i_ref p → live sb V (i_inum p) →
  (∀ ic' s', fsat s' ic' V P ∅ → ic_rep V ic' (dec (i_inum p) m) None →
     (∀ j q, ic !! j = Some q → (j ≠ i ∧ 0 < i_ref q) ∨ 1 < i_ref q → ∃ q', ic' !! j = Some q' ∧ i_inum q' = i_inum q ∧ 0 < i_ref q') →
     Q tt s') →
  wp (iunlockput away fuel i) s Q.
Proof.
  intros F R Hi Hr (Hn & Ht & Hl) HQ. unfold iunlockput.
  apply wp_bind, (wp_iunlock rep sb cwd pid s ic V P ∅ m i p _ F R Hi Hr). intros ic1 p1 s1 F1 R1 K1 Hi1 E1 E2.
  apply (wp_iput rep sb cwd pid away fuel s1 ic1 V P ∅ m i p1 _ F1 R1 Hi1); [lia|by rewrite E1|].
  intros ic2 s2 F2 R2 Ho (p2 & Hp2 & Ep2 & Er2). rewrite E1 in R2. apply (HQ ic2 s2 F2 R2).
  intros j q Hj Hc. destruct (decide (j = i)) as [->|Hne].
  - simplify_eq. exists p2. split_and!; [done|congruence|]. destruct Hc as [[? _]|?]; [done|]. lia.
  - destruct Hc as [[_ Hq]|Hq].
    + destruct (K1 j q Hj Hq) as (q' & Hq' & A & B & _). exists q'. split_and!; auto.
    + destruct (K1 j q Hj) as (q' & Hq' & A & B & _); [lia|]. exists q'. split_and!; auto.
Qed.

Lemma wp_namex_loop V P parent (HP : (size P ≤ 28)%nat) (Htree : tree_ok sb V) : ∀ f s ic m path name ip p
    (Q : option nat * list Z → fss X → Prop),
  fsat s ic V P ∅ → ic_rep V ic (inc (i_inum p) m) None → refs_pos m → (size m ≤ 48)%nat →
  ic !! ip = Some p → 0 < i_ref p → live sb V (i_inum p) →
  Forall (λ c, c ≠ 0) path → length name = 14%nat → (length path ≤ f)%nat →
  (∀ s' ic' r name', fsat s' ic' V P ∅ → reached V m (walk sb V parent (i_inum p) (path_elems path)) r ic' → stays m ic ic' →
     (parent = true → r ≠ None → ∃ e, last (path_elems path) = Some e ∧ nm name' = nm e) → Q (r, name') s') →
  wp (namex_loop away fuel dev_read f path parent name ip) s Q.
Proof.
  induction f as [|f IH]; intros s ic m path name ip p Q F R Hm Hsz Hip Hr Hlive Hnz Hlen Hf HQ;
    pose proof (skipelem_spec path name Hnz Hlen) as Hsk; cbn [namex_loop].
  1: destruct path; [|simpl in Hf; lia]; change (path_elems []) with (@nil (list Z)) in *; rewrite Hsk.
  2: destruct (path_elems path) as [|e es] eqn:Ee; [rewrite Hsk|].
  1, 2: destruct parent.
  1, 3: apply wp_bind, (wp_iput rep sb cwd pid away fuel s ic V P ∅ _ ip p _ F R Hip Hr (proj2 (proj2 Hlive)));
    intros ic1 s1 F1 R1 Ho (p1 & Hp1 & En1 & Er1); rewrite dec_inc in R1 by done; apply wp_ret, (HQ s1 ic1 None name F1); [done| |done];
    apply (stays_drop V ic ic1 _ _ m ip p R Hip Hr Hm (inc_above _ _)); intros j q Hj [[Hne ?]|Hq];
    [exists q; by rewrite (Ho j q)|destruct (decide (j = ip)) as [->|Hne]; [simplify_eq; exists p1; split_and!; [done..|lia]|exists q; rewrite (Ho j q) by done; split_and!; [done..|lia]]].
  1, 2: apply wp_ret, (HQ s ic (Some ip) name F); [by exists ip, p|intros j q ???; by exists q|done].
  destruct Hsk as (path' & name' & -> & Hes & Hnil & Hnz' & Hl' & Hlen' & Hnm). cbn [walk] in HQ.
  apply wp_bind, (wp_ilock rep sb cwd pid Hsb away fuel s ic V P _ ip p _ F R Hip Hr (proj1 (proj2 Hlive)) HP).
  intros ic1 p1 s1 F1 R1 Hip1 Hd1 Hn1 Hr1 Ed1 Ho1. assert (Hr1' : 0 < i_ref p1) by lia.
  assert (S1 : stays m ic ic1).
  { intros j q Hj Hq _. destruct (decide (j = ip)) as [->|Hne]; [simplify_eq; exists p1; split_and!; [done..|lia]|]. exists q. by rewrite Ho1. }
  assert (Drop : ∀ ic2, (∀ j q, ic1 !! j = Some q → (j ≠ ip ∧ 0 < i_ref q) ∨ 1 < i_ref q → ∃ q', ic2 !! j = Some q' ∧ i_inum q' = i_inum q ∧ 0 < i_ref q')
    → stays m ic ic2).
  { intros ic2 K. eapply stays_trans; [exact S1|]. rewrite <- Hn1 in R1. by apply (stays_drop V ic1 ic2 _ _ m ip p1 R1 Hip1 Hr1' Hm (inc_above _ _)). }
  apply wp_bind, (wp_geti F1 Hip1). assert (Et : i_type p1 = i_type (dino V (i_inum p))) by (unfold on_disk in Ed1; by injection Ed1).
  rewrite <- Hn1 in R1, Hlive. rewrite Et.
  destruct (Z.eqb_spec (i_type (dino V (i_inum p))) T_DIR) as [Hdir|Hdir]; cbn [negb].
  2:{ apply wp_bind, (wp_iunlockput s1 ic1 V P _ ip p1 _ F1 R1 Hip1 Hr1' Hlive). intros ic2 s2 F2 R2 K2.
      rewrite dec_inc in R2 by done. apply wp_ret, (HQ s2 ic2 None name' F2); [done|by apply Drop|done]. }
  rewrite (bool_decide_ext (path' = []) (es = [])) by done.
  destruct (parent && bool_decide (es = [])) eqn:Epar.
  { apply wp_bind, (wp_iunlock rep sb cwd pid s1 ic1 V P ∅ _ ip p1 _ F1 R1 Hip1 Hr1'). intros ic2 p2 s2 F2 R2 K2 Hip2 Hn2 Hr2.
    apply wp_ret, (HQ s2 ic2 (Some ip) name' F2).
    - exists ip, p2. rewrite <- Hn1. split_and!; try done; congruence || lia.
    - eapply stays_trans; [exact S1|by apply keeps_stays].
    - intros _ _. apply andb_true_iff in Epar as [_ ->%bool_decide_eq_true]. exists e. done. }
  destruct (Htree (i_inum p)) as [Hdok Hnext]; [by rewrite <- Hn1|done|].
  pose proof (dir_ok_copy sb V p1 _ _ Hdok Hd1 Hn1 Ed1) as Hdok1.
  apply wp_bind, (wp_dirlookup rep sb cwd pid Hsb dev_read s1 ic1 V P ip p1 _ name' _ F1 Hip1 Hdok1 HP). intros s2 F2.
  assert (Ea : i_addrs p1 = i_addrs (dino V (i_inum p))) by (unfold on_disk in Ed1; by injection Ed1).
  unfold dir_get in HQ, Hnext. rewrite Ea, (dir_find_nm _ _ name' e) by done. specialize (Hnext e).
  destruct (dir_find V (i_addrs (dino V (i_inum p))) e (nent sb V (i_inum p)) 0) as [[k j]|]; cbn [fmap option_fmap option_map fst] in *.
  2:{ apply wp_bind, (wp_iunlockput s2 ic1 V P _ ip p1 _ F2 R1 Hip1 Hr1' Hlive). intros ic2 s3 F3 R3 K3.
      rewrite dec_inc in R3 by done. apply wp_ret, (HQ s3 ic2 None name' F3); [done|by apply Drop|done]. }
  specialize (Hnext k eq_refl). pose proof (inc_size (i_inum p1) m) as Hsz1.
  apply (wp_iget rep sb cwd pid s2 ic1 V P ∅ _ _ k _ F2 R1); [apply Hnext|left; lia|].
  intros i ic2 q s3 F3 R3 K3 Hi Hqn Hqr. destruct (K3 ip p1 Hip1 Hr1') as (p3 & Hip3 & En3 & Hr3 & _).
  rewrite <- En3 in R3, Hlive.
  apply wp_bind, (wp_iunlockput s3 ic2 V P _ ip p3 _ F3 R3 Hip3 Hr3 Hlive). intros ic4 s4 F4 R4 K4.
  assert (S4 : stays m ic ic4).
  { eapply stays_trans; [exact S1|]. eapply stays_trans; [by apply keeps_stays|]. apply (stays_drop V ic2 ic4 _ _ m ip p3 R3 Hip3 Hr3 Hm); [|done].
    intros x Hx. unfold inc. destruct (decide (k = i_inum p3)) as [->|]; [rewrite !lookup_insert_eq|rewrite lookup_insert_ne, lookup_insert_eq by done];
      rewrite Hx; simpl; eexists; (split; [done|lia]). }
  rewrite dec_inc_ne in R4 by done.
  destruct (K4 i q Hi) as (q' & Hi' & Eq' & Hq').
  { destruct (decide (i = ip)) as [->|]; [right|by left].
    pose proof (cr_in sb pid _ _ _ _ _ _ R3 Hip3 Hr3) as Em. rewrite Hi in Hip3. injection Hip3 as ->. rewrite <- Hqn in Em.
    unfold inc in Em. rewrite !lookup_insert_eq in Em. simpl in Em.
    injection Em as Em. assert (0 ≤ default 0 (m !! i_inum p3)); [|lia].
    destruct (m !! i_inum p3) as [x|] eqn:Ex; [apply Hm in Ex; simpl; lia|simpl; lia]. }
  rewrite <- Hes in HQ. assert (Ek : k = i_inum q') by congruence. rewrite Ek in *.
  apply (IH s4 ic4 m path' name' i q'); try done; [lia|].
  intros s' ic' r nm' F' Hre Hst Hna. apply (HQ s' ic' r nm' F' Hre); [by eapply stays_trans|]. intros Hp Hrn. destruct (Hna Hp Hrn) as (e' & He' & Hn').
  exists e'. split; [|done]. rewrite <- He'. destruct (path_elems path') as [|x l] eqn:Epe; [done|]. done.
Qed.

(** namex starts at the root or at the current directory. *)
Lemma wp_namex s ic V P m pc path parent name (Q : option nat * list Z → fss X → Prop) :
  fsat s ic V P ∅ → ic_rep V ic m None → (size P ≤ 28)%nat → (size m ≤ 48)%nat →
  tree_ok sb V → live sb V ROOTINO → ic !! cwd = Some pc → 0 < i_ref pc → live sb V (i_inum pc) →
  Forall (λ c, c ≠ 0) path → length name = 14%nat →
  (∀ s' ic' r name', fsat s' ic' V P ∅ →
     reached V m (walk sb V parent (if bool_decide (hd 0 path = 47) then ROOTINO else i_inum pc) (path_elems path)) r ic' → stays m ic ic' →
     (parent = true → r ≠ None → ∃ e, last (path_elems path) = Some e ∧ nm name' = nm e) → Q (r, name') s') →
  wp (namex away fuel dev_read path parent name) s Q.
Proof.
  intros F R HP Hm Ht Hroot Hc Hrc Hlc Hnz Hlen HQ. set (start := if bool_decide _ then _ else _) in HQ.
  pose proof (cr_pos _ _ _ _ _ _ R) as Hpos.
  assert (L : ∀ s1 ic1 ip p, fsat s1 ic1 V P ∅ → ic_rep V ic1 (inc start m) None → ic1 !! ip = Some p →
    i_inum p = start → 0 < i_ref p → live sb V start → keeps ic ic1 → wp (namex_loop away fuel dev_read (length path) path parent name ip) s1 Q).
  { intros s1 ic1 ip p F1 R1 Hip En Hr Hl K1. rewrite <- En in R1, Hl.
    apply (wp_namex_loop V P parent HP Ht _ s1 ic1 m path name ip p); try done.
    intros s' ic' r name' F' Hre Hst Hna. rewrite En in Hre. eapply HQ; [done..|eapply stays_trans; [by apply keeps_stays|done]|done]. }
  unfold namex. apply wp_bind, wp_get, wp_bind. unfold start in *. destruct (bool_decide (hd 0 path = 47)).
  - apply (wp_iget rep sb cwd pid s ic V P ∅ m None ROOTINO _ F R); [apply Hroot|left; lia|].
    intros i ic1 p1 s1 F1 R1 K1 Hi En Hr. by apply (L s1 ic1 i p1).
  - rewrite (at_cwd F). apply (wp_idup rep sb cwd pid s ic V P ∅ m None cwd pc _ F R Hc Hrc).
    intros ic1 p1 s1 F1 R1 K1 Hi En Hr. by apply (L s1 ic1 cwd p1).
Qed.
End namex.
