(* ===== verification/FsTrunc.v ===== *)
(** itrunc gives back every block of a file, and iput of the last reference
    to an unlinked inode frees the inode with them; ialloc takes the first
    free inode. *)

From S2P Require Import Prelude Params Bytes Sleeplock BufCache Log Tx Fs FsAt FsAlloc FsMap FsFile FsInode FsCache.

Section trunc.
Context {X : Type} `{!TxOps X} (rep : X → acache → Prop) `{!RdLaws X ROOTDEV rep} `{!TxLaws X ROOTDEV rep}.
Context (sb : superblock) (cwd : nat) (pid : Z) (Hsb : sb_ok sb).
Context (away : M (fss X) unit) (fuel : nat).
Abbreviation fsat := (fsat rep sb cwd pid).
Abbreviation bm := (sb_bmapstart sb).

(** [V'] is [V] with the blocks of [B] freed. *)
Record freed (B : Z → Prop) (V V' : vmap) : Prop := {
  fr_same k : k ≠ bm → V' k = V k;
  fr_used k : 0 ≤ k → used sb V' k ↔ used sb V k ∧ ¬ B k
}.

Lemma freed_refl V : freed (λ _, False) V V.
Proof. split; [done|]. tauto. Qed.

Lemma freed_trans B B' V V1 V2 : freed B V V1 → freed B' V1 V2 → freed (λ k, B k ∨ B' k) V V2.
Proof.
  intros [H1 H2] [H3 H4]. split; [intros k Hk; by rewrite H3, H1|]. intros k Hk. rewrite H4, H2 by done. tauto.
Qed.

Lemma freed_iff B B' V V' : freed B V V' → (∀ k, 0 ≤ k → B k ↔ B' k) → freed B' V V'.
Proof. intros [H1 H2] E. split; [done|]. intros k Hk. rewrite H2, E by done. done. Qed.

Lemma freed_one V b : length (V bm) = 512%nat → 0 ≤ b < sb_size sb → freed (λ k, k = b) V (free_view sb b V).
Proof.
  intros Hl Hb. split; [intros k Hk; unfold free_view; by rewrite upd_blk_ne|]. intros k Hk. rewrite used_free by done. tauto.
Qed.

(** Blocks [a k] for [k] from [i] on, as far as they exist, are in use and
    distinct. *)
Definition to_free (V : vmap) (a : nat → Z) (i e : nat) : Prop :=
  (∀ k, (i ≤ k < e)%nat → a k ≠ 0 → bm < a k < sb_size sb ∧ used sb V (a k)) ∧
  ∀ k k', (i ≤ k < e)%nat → (i ≤ k' < e)%nat → a k = a k' → a k ≠ 0 → k = k'.

Lemma to_free_next V V' a i e :
  to_free V a i e → freed (λ b, b = a i ∧ a i ≠ 0) V V' → (i < e)%nat → to_free V' a (S i) e.
Proof.
  intros [H1 H2] [_ Hf] Hi. pose proof (sb_bounds _ Hsb). split; [|intros; eapply H2; eauto; lia].
  intros k Hk Hn. destruct (H1 k) as [Hr Hu]; [lia|done|]. split; [done|]. apply Hf; [lia|]. split; [done|].
  intros [E _]. assert (k = i); [|lia]. apply H2; [lia|lia|done|done].
Qed.

Definition range_freed (a : nat → Z) (i e : nat) (b : Z) : Prop := ∃ k, (i ≤ k < e)%nat ∧ a k = b ∧ b ≠ 0.

Lemma range_freed_step a i e b : (i < e)%nat → (b = a i ∧ a i ≠ 0) ∨ range_freed a (S i) e b ↔ range_freed a i e b.
Proof.
  intros Hi. split.
  - intros [[-> ?]|(k & Hk & E & Hn)]; [exists i; split_and!; [lia|lia|done|done]|exists k; split_and!; [lia|lia|done|done]].
  - intros (k & Hk & E & Hn). destruct (decide (k = i)) as [->|]; [left; by subst|right]. exists k. split_and!; [lia|lia|done|done].
Qed.

(** The loop over the direct blocks. *)
Lemma wp_itrunc_direct ip : ∀ n i s ic V P p (Q : unit → fss X → Prop),
  fsat s ic V P ∅ → ic !! ip = Some p → i_dev p = ROOTDEV → length (i_addrs p) = 13%nat → (i + n = 12)%nat →
  to_free V (addr_at (i_addrs p)) i 12 → (size (P ∪ {[bm]}) ≤ 28)%nat →
  (∀ s' V' l' P', fsat s' (<[ip := set_i_addrs l' p]> ic) V' P' ∅ → freed (range_freed (addr_at (i_addrs p)) i 12) V V' →
     length l' = 13%nat → (∀ k, addr_at l' k = if decide (i ≤ k < 12)%nat then 0 else addr_at (i_addrs p) k) →
     P' ⊆ P ∪ {[bm]} → Q tt s') →
  wp (itrunc_direct n i ip) s Q.
Proof.
  pose proof (sb_bounds _ Hsb) as Hs.
  induction n as [|n IH]; intros i s ic V P p Q F Hp Hd Hl Hn Htf HP HQ; cbn [itrunc_direct].
  - apply wp_ret, (HQ s V (i_addrs p) P); [by rewrite set_addrs_id, list_insert_id| |done| |clear; set_solver].
    + eapply freed_iff; [apply freed_refl|]. intros k _. split; [done|]. intros (j & Hj & _). lia.
    + intros k. by rewrite decide_False by lia.
  - apply wp_bind, (wp_geti F Hp). eapply wp_bind, wp_of_option; [apply addr_lookup; lia|].
    assert (HP0 : (size P ≤ 28)%nat) by (etransitivity; [apply subseteq_size, union_subseteq_l|exact HP]).
    assert (Hic : (ip < length ic)%nat) by (by eapply lookup_lt_Some).
    destruct (Z.eqb_spec (addr_at (i_addrs p) i) 0) as [E|E].
    + apply wp_bind, wp_ret, (IH (S i) s ic V P p); try done; [lia| |].
      { eapply to_free_next; [done|eapply freed_iff; [apply freed_refl|]; simpl; tauto|lia]. }
      intros s' V' l' P' F' Hf Hl' Ha HP'. apply (HQ s' V' l' P'); try done.
      * eapply freed_iff; [exact Hf|]. intros k _. rewrite <- (range_freed_step _ i) by lia. split; [auto|]. intros [[_ ?]|?]; done.
      * intros k. rewrite Ha. repeat case_decide; try done; try lia. assert (k = i) as -> by lia. done.
    + destruct (proj1 Htf i) as [Hr Hu]; [lia|done|]. rewrite Hd.
      apply wp_bind, wp_bind, (wp_bfree Hsb F); [lia|done|apply not_in_empty_img|by apply room_empty|]. intros s1 F1.
      apply (wp_updi F1 Hp). intros s2 F2. set (p1 := set_i_addrs (<[i := 0]> (i_addrs p)) p) in *.
      assert (Hf1 : freed (λ b, b = addr_at (i_addrs p) i ∧ addr_at (i_addrs p) i ≠ 0) V (free_view sb (addr_at (i_addrs p) i) V)).
      { eapply freed_iff; [apply freed_one; [apply (fsat_length _ F)|lia]|]. simpl. tauto. }
      assert (Ha1 : ∀ k, k ≠ i → addr_at (i_addrs p1) k = addr_at (i_addrs p) k).
      { intros k Hk. unfold addr_at. simpl. by rewrite list_lookup_insert_ne by done. }
      assert (Ha0 : addr_at (i_addrs p1) i = 0) by (unfold addr_at; simpl; by rewrite list_lookup_insert_eq by lia).
      apply (IH (S i) s2 (<[ip := p1]> ic) (free_view sb (addr_at (i_addrs p) i) V) (P ∪ {[bm]}) p1); try done.
      * by rewrite list_lookup_insert_eq.
      * simpl. by rewrite length_insert.
      * lia.
      * destruct (to_free_next _ _ _ _ _ Htf Hf1) as [T1 T2]; [lia|].
        split; [intros k Hk; rewrite Ha1 by lia; auto|intros k k' Hk Hk'; rewrite !Ha1 by lia; auto].
      * replace (P ∪ {[bm]} ∪ {[bm]}) with (P ∪ {[bm]}) by (clear; set_solver). done.
      * intros s' V' l' P' F' Hf Hl' Ha HP'. rewrite list_insert_insert_eq in F'. apply (HQ s' V' l' P'); try done.
        -- eapply freed_iff; [eapply freed_trans; [exact Hf1|exact Hf]|]. intros k _. simpl.
           rewrite <- (range_freed_step _ i) by lia. apply or_iff_compat_l. unfold range_freed.
           split; intros (j & Hj & Ej & Hnj); exists j; (split_and!; [lia|lia| |done]); rewrite ?Ha1 in * by lia; done.
        -- intros k. rewrite Ha. destruct (decide (k = i)) as [->|Hk]; [rewrite Ha0; repeat case_decide; done || lia|].
           rewrite Ha1 by done. repeat case_decide; try done; lia.
        -- clear -HP'. set_solver.
Qed.

(** The loop over the entries of the indirect block, which is held. *)
Lemma wp_itrunc_indirect bp ind_ : ind_ ≠ bm → ∀ n j s ic V P H (Q : unit → fss X → Prop),
  fsat s ic V P H → H !! bp = Some ind_ → bm ∉ map_img (SA:=gset Z) H → (size H ≤ 1)%nat → (j + n = 128)%nat →
  to_free V (λ k, get32 (V ind_) (4 * k)) j 128 → (size (P ∪ {[bm]}) ≤ 28)%nat →
  (∀ s' V' P', fsat s' ic V' P' H → freed (range_freed (λ k, get32 (V ind_) (4 * k)) j 128) V V' → P' ⊆ P ∪ {[bm]} → Q tt s') →
  wp (itrunc_indirect n j ROOTDEV bp) s Q.
Proof.
  intros Hind. pose proof (sb_bounds _ Hsb) as Hs.
  induction n as [|n IH]; intros j s ic V P H Q F Hb Hbm HH Hn Htf HP HQ; cbn [itrunc_indirect].
  - apply wp_ret, (HQ s V P); [done| |clear; set_solver]. eapply freed_iff; [apply freed_refl|].
    intros k _. split; [done|]. intros (i & Hi & _). lia.
  - apply wp_bind, (wp_data F Hb). set (a := λ k : nat, get32 (V ind_) (4 * k)) in *.
    assert (HP0 : (size P ≤ 28)%nat) by (etransitivity; [apply subseteq_size, union_subseteq_l|exact HP]).
    change (get32 (V ind_) (4 * j)) with (a j). destruct (Z.eqb_spec (a j) 0) as [E|E].
    + apply wp_bind, wp_ret, (IH (S j) s ic V P H); try done; [lia| |].
      { eapply to_free_next; [done|eapply freed_iff; [apply freed_refl|]; simpl; tauto|lia]. }
      intros s' V' P' F' Hf HP'. apply (HQ s' V' P'); try done.
      eapply freed_iff; [exact Hf|]. intros k _. rewrite <- (range_freed_step _ j) by lia. split; [auto|]. intros [[_ ?]|?]; done.
    + destruct (proj1 Htf j) as [Hr Hu]; [lia|done|].
      apply wp_bind, (wp_bfree Hsb F); [lia|done|done|by split|]. intros s1 F1.
      assert (Hf1 : freed (λ b, b = a j ∧ a j ≠ 0) V (free_view sb (a j) V)).
      { eapply freed_iff; [apply freed_one; [apply (fsat_length _ F)|lia]|]. simpl. tauto. }
      assert (Hsame : free_view sb (a j) V ind_ = V ind_) by (by apply Hf1).
      apply (IH (S j) s1 ic (free_view sb (a j) V) (P ∪ {[bm]}) H); try done; rewrite ?Hsame.
      * lia.
      * by apply (to_free_next _ _ _ _ _ Htf Hf1); lia.
      * replace (P ∪ {[bm]} ∪ {[bm]}) with (P ∪ {[bm]}) by (clear; set_solver). done.
      * intros s' V' P' F' Hf HP'. apply (HQ s' V' P'); [done| |clear -HP'; set_solver].
        eapply freed_iff; [eapply freed_trans; [exact Hf1|exact Hf]|]. intros k _. simpl. apply (range_freed_step a j 128 k). lia.
Qed.
(** The blocks of a file, by the way they are freed. *)
Lemma blk_direct V l k : (k < 12)%nat → blk V l k = addr_at l k.
Proof. intros. unfold blk. by rewrite (proj2 (Nat.ltb_lt _ _)). Qed.
Lemma blk_indirect V l k : ind l ≠ 0 → blk V l (12 + k) = get32 (V (ind l)) (4 * k).
Proof.
  intros Hi. unfold blk. rewrite (proj2 (Nat.ltb_ge _ _)) by lia. rewrite (proj2 (Z.eqb_neq _ _)) by done. do 2 f_equal. lia.
Qed.

Lemma owned_split V l b :
  owned V l b ↔ range_freed (addr_at l) 0 12 b ∨
    (ind l ≠ 0 ∧ (range_freed (λ k, get32 (V (ind l)) (4 * k)) 0 128 b ∨ b = ind l)).
Proof.
  unfold owned, range_freed, nblk. split.
  - intros [Hb [->|(j & Hj & E)]]; [auto|]. destruct (decide (j < 12)%nat) as [H12|H12].
    + left. exists j. rewrite blk_direct in E by done. split_and!; [lia|lia|done|done].
    + right. destruct (decide (ind l = 0)) as [Hi|Hi].
      { exfalso. apply Hb. rewrite <- E. unfold blk. rewrite (proj2 (Nat.ltb_ge _ _)), Hi by lia. done. }
      split; [done|]. left. exists (j - 12)%nat. rewrite <- blk_indirect by done. replace (12 + (j - 12))%nat with j by lia.
      split_and!; [lia|lia|done|done].
  - intros [(k & Hk & E & Hn)|[Hi [(k & Hk & E & Hn)| ->]]]; [| |by auto].
    + split; [done|]. right. exists k. rewrite blk_direct by lia. split; [lia|done].
    + split; [done|]. right. exists (12 + k)%nat. rewrite blk_indirect by done. split; [lia|done].
Qed.

Lemma to_free_direct V l : map_ok sb V l → to_free V (addr_at l) 0 12.
Proof.
  intros Hm. split.
  - intros k Hk Hn. rewrite <- (blk_direct V) in Hn by lia. rewrite <- (blk_direct V) by lia. apply (mo_blk _ _ _ Hm); [unfold nblk; lia|done].
  - intros k k' Hk Hk' E Hn. apply (mo_inj _ _ _ Hm); unfold nblk; try lia; rewrite !blk_direct by lia; done.
Qed.

Lemma to_free_indirect V V1 l :
  map_ok sb V l → ind l ≠ 0 → freed (range_freed (addr_at l) 0 12) V V1 →
  to_free V1 (λ k, get32 (V (ind l)) (4 * k)) 0 128.
Proof.
  intros Hm Hi Hf. pose proof (sb_bounds _ Hsb). split.
  - intros k Hk. rewrite <- blk_indirect by done. intros Hn.
    destruct (mo_blk _ _ _ Hm (12 + k)) as [Hr Hu]; [unfold nblk; lia|done|]. split; [done|].
    apply Hf; [lia|]. split; [done|]. intros (j & Hj & E & _). rewrite <- (blk_direct V) in E by lia.
    assert (j = 12 + k)%nat; [|lia]. apply (mo_inj _ _ _ Hm); unfold nblk; lia || congruence.
  - intros k k' Hk Hk'. rewrite <- !blk_indirect by done. intros E Hn.
    assert (12 + k = 12 + k')%nat; [|lia]. apply (mo_inj _ _ _ Hm); unfold nblk; lia || done.
Qed.

Lemma ind_still_used V V2 l :
  map_ok sb V l → ind l ≠ 0 →
  freed (λ b, range_freed (addr_at l) 0 12 b ∨ range_freed (λ k, get32 (V (ind l)) (4 * k)) 0 128 b) V V2 → used sb V2 (ind l).
Proof.
  intros Hm Hi Hf. destruct (mo_ind _ _ _ Hm Hi) as [Hr Hu]. pose proof (sb_bounds _ Hsb). apply Hf; [lia|]. split; [done|].
  intros [(k & Hk & E & _)|(k & Hk & E & _)].
  - rewrite <- (blk_direct V) in E by lia. destruct (mo_sep _ _ _ Hm k); [unfold nblk; lia|congruence|done].
  - rewrite <- blk_indirect in E by done. destruct (mo_sep _ _ _ Hm (12 + k)); [unfold nblk; lia|congruence|done].
Qed.

Definition emptied (p : inode) : inode := set_i_size 0 (set_i_addrs (replicate 13 0) p).

Lemma all_zero l : length l = 13%nat → (∀ k, addr_at l k = 0) → l = replicate 13 0.
Proof.
  intros Hl Ha. apply list_eq. intros k. destruct (decide (k < 13)%nat).
  - rewrite (addr_lookup l) by lia. rewrite Ha, lookup_replicate_2 by done. done.
  - rewrite !lookup_ge_None_2; rewrite ?length_replicate; [done|lia|lia].
Qed.

Lemma wp_itrunc s ic V P ip p (Q : unit → fss X → Prop) :
  fsat s ic V P ∅ → ic !! ip = Some p → i_dev p = ROOTDEV → 0 ≤ i_inum p < sb_ninodes sb → map_ok sb V (i_addrs p) →
  (size P ≤ 26)%nat →
  (∀ s' V1 P', fsat s' (<[ip := emptied p]> ic) (upd_view sb (emptied p) V1) P' ∅ → freed (owned V (i_addrs p)) V V1 →
     P' ⊆ P ∪ {[bm]} ∪ {[IBLOCK (i_inum p) sb]} → Q tt s') →
  wp (itrunc ip) s Q.
Proof.
  intros F Hp Hd Hn Hm HP HQ. pose proof (sb_bounds _ Hsb) as Hs. unfold itrunc.
  assert (HPb : (size (P ∪ {[bm]}) ≤ 28)%nat) by (pose proof (union_size_1 P bm); lia).
  assert (Hic : (ip < length ic)%nat) by (by eapply lookup_lt_Some).
  apply wp_bind, (wp_itrunc_direct ip _ _ _ _ _ _ p _ F Hp Hd (mo_len _ _ _ Hm)); [done|by apply to_free_direct|done|].
  intros s1 V1 l1 P1 F1 Hf1 Hl1 Ha1 HP1. set (p1 := set_i_addrs l1 p) in *.
  assert (Hp1 : <[ip := p1]> ic !! ip = Some p1) by (by apply list_lookup_insert_eq).
  apply wp_bind, (wp_geti F1 Hp1). eapply wp_bind, wp_of_option; [apply (addr_lookup l1 12); lia|].
  assert (Ei : ind l1 = ind (i_addrs p)) by (rewrite Ha1; by rewrite decide_False by lia). rewrite Ei.
  assert (HP1s : (size (P1 ∪ {[bm]}) ≤ 28)%nat).
  { etransitivity; [apply subseteq_size|exact HPb]. clear -HP1. set_solver. }
  assert (Hend : ∀ s3 V3 l3 P3, fsat s3 (<[ip := set_i_addrs l3 p]> ic) V3 P3 ∅ → length l3 = 13%nat → (∀ k, addr_at l3 k = 0) →
    freed (owned V (i_addrs p)) V V3 → P3 ⊆ P ∪ {[bm]} → wp (updi ip (set_i_size 0) ;;; iupdate ip) s3 Q).
  { intros s3 V3 l3 P3 F3 Hl3 Ha3 Hf3 HP3. rewrite (all_zero l3 Hl3 Ha3) in F3.
    apply wp_bind, (wp_updi F3 (list_lookup_insert_eq _ _ _ Hic)). rewrite list_insert_insert_eq. intros s4 F4.
    apply (wp_iupdate rep sb cwd pid Hsb s4 _ V3 P3 ip (emptied p) _ F4); [by rewrite list_lookup_insert_eq|done|done| |].
    - etransitivity; [apply subseteq_size, HP3|exact HPb].
    - intros s5 F5. apply (HQ s5 V3 _ F5 Hf3). clear -HP3. set_solver. }
  destruct (Z.eqb_spec (ind (i_addrs p)) 0) as [Hi|Hi].
  - apply wp_bind, wp_ret, (Hend s1 V1 l1 P1 F1 Hl1); [|eapply freed_iff; [exact Hf1|]|done].
    + intros k. rewrite Ha1. case_decide; [done|]. destruct (decide (k = 12)%nat) as [->|]; [done|].
      unfold addr_at. rewrite lookup_ge_None_2; [done|]. rewrite (mo_len _ _ _ Hm). lia.
    + intros b _. rewrite owned_split. tauto.
  - destruct (mo_ind _ _ _ Hm Hi) as [Hir _]. change (i_dev p1) with (i_dev p). rewrite Hd.
    assert (HP1s' : (size P1 ≤ 28)%nat) by (etransitivity; [apply subseteq_size, union_subseteq_l|exact HP1s]).
    apply wp_bind, wp_bind, (wp_bread F1); [lia|apply not_in_empty_img|by apply room_empty|]. intros bp s2 _ F2.
    assert (EV : V1 (ind (i_addrs p)) = V (ind (i_addrs p))) by (apply Hf1; lia).
    apply wp_bind, (wp_itrunc_indirect bp (ind (i_addrs p)) ltac:(lia) _ _ _ _ _ _ _ _ F2 (lookup_insert_eq _ _ _)).
    { rewrite insert_empty, map_img_singleton_L. intros E%elem_of_singleton. lia. }
    { rewrite insert_empty, map_size_singleton. lia. }
    { done. }
    { rewrite EV. by apply to_free_indirect. }
    { done. }
    intros s3 V3 P3 F3 Hf3 HP3. rewrite EV in Hf3. pose proof (freed_trans _ _ _ _ _ Hf1 Hf3) as Hf13.
    apply wp_bind, (wp_brelse F3 (lookup_insert_eq _ _ _)). rewrite delete_insert_eq, delete_empty. intros s4 F4.
    assert (HP3s : (size P3 ≤ 28)%nat) by (etransitivity; [apply subseteq_size, HP3|exact HP1s]).
    apply wp_bind, (wp_bfree Hsb F4); [lia|by eapply ind_still_used|apply not_in_empty_img|by apply room_empty|]. intros s5 F5.
    apply (wp_updi F5 Hp1). rewrite list_insert_insert_eq. intros s6 F6.
    apply (Hend s6 _ (<[12%nat := 0]> l1) _ F6); [by rewrite length_insert| | |clear -HP1 HP3; set_solver].
    + intros k. destruct (decide (k = 12)%nat) as [->|]; [unfold addr_at; by rewrite list_lookup_insert_eq by lia|].
      unfold addr_at. rewrite list_lookup_insert_ne by done. fold (addr_at l1 k). rewrite Ha1. case_decide; [done|].
      unfold addr_at. rewrite lookup_ge_None_2; [done|]. rewrite (mo_len _ _ _ Hm). lia.
    + eapply freed_iff; [eapply freed_trans; [exact Hf13|apply freed_one; [apply (fsat_length _ F3)|lia]]|].
      intros b _. simpl. rewrite owned_split. tauto.
Qed.
(** * The last reference to an unlinked inode *)

Abbreviation ic_rep := (ic_rep sb pid).
Abbreviation dino := (dino sb).

Lemma ic_view V V' ic m lk :
  ic_rep V ic m lk → (∀ i p, ic !! i = Some p → 0 < i_ref p → i_valid p ≠ 0 → on_disk (dino V' (i_inum p)) = on_disk (dino V (i_inum p))) →
  ic_rep V' ic m lk.
Proof.
  intros [R1 R2 R3 R4 R5 R6 R7] H. split; try done. intros i p Hi Hr Hv. rewrite (H i p Hi Hr Hv). by eapply R7.
Qed.

(** writei keeps the cache in step with the disk. *)
Lemma ic_written V ic m lk i p o src P V' p' P' :
  ic_rep V ic m lk → ic !! i = Some p → 0 < i_ref p → written sb V p o src P V' p' P' → ic_rep V' (<[i := p']> ic) m lk.
Proof.
  intros R Hi Hr W. pose proof (wn_inode _ _ _ _ _ _ _ _ _ W) as E. pose proof (cr_lock _ _ _ _ _ _ R i p Hi) as Hl.
  assert (Hlt : (i < length ic)%nat) by (by eapply lookup_lt_Some).
  assert (i_ref p' = i_ref p ∧ i_dev p' = i_dev p ∧ i_inum p' = i_inum p ∧ i_lock p' = i_lock p) as (E1 & E2 & E3 & E4)
    by (rewrite E; done).
  rewrite <- (list_insert_insert_eq ic i p' (set_i_valid 0 p')).
  eapply (ic_same sb pid V' _ m lk lk i (set_i_valid 0 p')); [|by rewrite list_lookup_insert_eq|simpl; lia|done|done|done|done| |].
  - eapply ic_view.
    + eapply (ic_same sb pid V ic m lk lk i p); [done|done|done|done|done|done|done|simpl; rewrite E4; exact Hl|done].
    + intros j q Hj Hrq Hv. destruct (decide (j = i)) as [->|Hne].
      * rewrite list_lookup_insert_eq in Hj by done. injection Hj as <-. done.
      * rewrite list_lookup_insert_ne in Hj by done. destruct (cr_range _ _ _ _ _ _ R j q Hj Hrq) as [_ Hn].
        unfold dino. rewrite (wn_inodes _ _ _ _ _ _ _ _ _ W); [done|done|]. by eapply (cr_alone sb pid).
  - rewrite E4. exact Hl.
  - intros _. symmetry. exact (wn_sync _ _ _ _ _ _ _ _ _ W).
Qed.

Lemma ic_drop V ic m i p p' :
  ic_rep V ic m None → ic !! i = Some p → 0 < i_ref p → i_ref p' = 0 → sl_locked (i_lock p') = 0 →
  ic_rep V (<[i := p']> ic) (delete (i_inum p) m) None.
Proof.
  intros R Hi Hr E0 El. eapply (ic_upd sb pid V ic m None None _ i p); [done|done|lia|lia|lia| |done| |lia].
  - intros n r. rewrite lookup_delete_Some. split.
    + intros [Hn Hm]. right. apply (cr_others sb pid _ _ _ _ _ _ _ _ R Hi Hr); [congruence|done].
    + intros [?|Ho]; [lia|]. destruct Ho as (j & q & Hj & Hq & Hrq & <- & <-).
      pose proof (cr_alone sb pid _ _ _ _ _ _ _ _ R Hi Hr Hj Hq Hrq). split; [done|]. by eapply cr_in.
  - destruct (i_lock p') as [x y]. simpl in *. by subst.
Qed.

(** The file's blocks are free again, its inode is free on disk, and nothing
    else has changed. *)
Record removed (V : vmap) (p : inode) (V' : vmap) : Prop := {
  rm_type : i_type (dino V' (i_inum p)) = 0;
  rm_used k : 0 ≤ k → used sb V' k ↔ used sb V k ∧ ¬ owned V (i_addrs p) k;
  rm_same k : k ≠ bm → k ≠ IBLOCK (i_inum p) sb → V' k = V k;
  rm_inodes n : 0 ≤ n < sb_ninodes sb → n ≠ i_inum p → dino V' n = dino V n
}.

Lemma wp_iput_last s ic V P m i p (Q : unit → fss X → Prop) :
  fsat s ic V P ∅ → ic_rep V ic m None → ic !! i = Some p → i_ref p = 1 → i_valid p ≠ 0 → i_nlink p = 0 →
  map_ok sb V (i_addrs p) → inode_fmt p → (size P ≤ 25)%nat →
  (∀ ic' V' P' s', fsat s' ic' V' P' ∅ → ic_rep V' ic' (delete (i_inum p) m) None → removed V p V' →
     P' ⊆ P ∪ {[bm]} ∪ {[IBLOCK (i_inum p) sb]} → Q tt s') →
  wp (iput away fuel i) s Q.
Proof.
  intros F R Hi Hr Hv Hl Hm Hfmt HP HQ. assert (Hr0 : 0 < i_ref p) by lia.
  destruct (cr_range _ _ _ _ _ _ R i p Hi Hr0) as [Hd Hn]. pose proof (iblock_range sb Hsb _ Hn) as Hib.
  assert (Hlt : (i < length ic)%nat) by (by eapply lookup_lt_Some). unfold iput.
  apply wp_bind, (wp_acquire_inode rep sb cwd pid away fuel s ic V P ∅ m i p _ F R Hi). intros s1 F1.
  set (p1 := set_i_lock (MkSleeplock 1 pid) p) in *.
  apply wp_bind, (wp_geti F1 (list_lookup_insert_eq _ _ _ Hlt)). change (i_valid p1) with (i_valid p).
  change (i_nlink p1) with (i_nlink p). change (i_ref p1) with (i_ref p). rewrite (proj2 (Z.eqb_neq _ _) Hv), Hl, Hr.
  cbn [negb andb Z.eqb Pos.eqb].
  apply wp_bind, wp_bind, (wp_itrunc s1 _ V P i p1 _ F1 (list_lookup_insert_eq _ _ _ Hlt)); [done|done|done|lia|].
  rewrite list_insert_insert_eq. intros s2 V1 P2 F2 Hf HP2. change (i_addrs p1) with (i_addrs p) in Hf.
  set (V2 := upd_view sb (emptied p1) V1) in *.
  apply wp_bind, (wp_updi F2 (list_lookup_insert_eq _ _ _ Hlt)). rewrite list_insert_insert_eq. intros s3 F3.
  set (p3 := set_i_type 0 (emptied p1)) in *.
  assert (HP2s : (size P2 ≤ 28)%nat).
  { etransitivity; [apply subseteq_size, HP2|]. pose proof (union_size_1 (P ∪ {[bm]}) (IBLOCK (i_inum p1) sb)).
    pose proof (union_size_1 P bm). lia. }
  apply wp_bind, (wp_iupdate rep sb cwd pid Hsb s3 _ V2 P2 i p3 _ F3 (list_lookup_insert_eq _ _ _ Hlt)); [done|done|done|].
  intros s4 F4. set (V' := upd_view sb p3 V2) in *.
  apply (wp_updi F4 (list_lookup_insert_eq _ _ _ Hlt)). rewrite list_insert_insert_eq. intros s5 F5.
  apply wp_bind, (wp_updi F5 (list_lookup_insert_eq _ _ _ Hlt)). rewrite list_insert_insert_eq. intros s6 F6.
  apply (wp_updi F6 (list_lookup_insert_eq _ _ _ Hlt)). rewrite list_insert_insert_eq. intros s7 F7.
  assert (Hne : IBLOCK (i_inum p) sb ≠ bm) by lia.
  assert (Hrm : removed V p V').
  { split.
    - assert (Hsy : synced sb V' p3).
      { apply upd_view_synced; [apply (λ k, fsat_length k F3)| |simpl; lia].
        destruct Hfmt. split; simpl; try done; by repeat constructor. }
      unfold synced, on_disk in Hsy. injection Hsy as Hsy _. exact Hsy.
    - intros k Hk. unfold V', V2, upd_view. rewrite !used_meta by (simpl; lia). by apply Hf.
    - intros k K1 K2. unfold V', V2, upd_view. rewrite !upd_blk_ne by done. by apply Hf.
    - intros n K1 K2. unfold dino, V', V2. rewrite !upd_view_other by (done || (simpl; lia)). f_equal. apply Hf.
      pose proof (iblock_range sb Hsb n K1). lia. }
  eapply (HQ _ V' _ s7 F7); [|done|clear -HP2; set_solver].
  eapply ic_view; [eapply ic_drop; [exact R|exact Hi|done|simpl; lia|done]|].
  intros j q Hj Hrq _. destruct (decide (j = i)) as [->|Hji].
  - rewrite list_lookup_insert_eq in Hj by done. simplify_eq. simpl in Hrq. lia.
  - rewrite list_lookup_insert_ne in Hj by done. f_equal. apply (rm_inodes _ _ _ Hrm).
    + by destruct (cr_range _ _ _ _ _ _ R j q Hj Hrq).
    + by eapply (cr_alone sb pid).
Qed.
(** * Allocating an inode *)

(** The block of inode [n] with the inode cleared and its type set. *)
Definition fresh_view (n type : Z) (V : vmap) : vmap :=
  upd_blk (IBLOCK n sb) (put16 (dinode_off n) type (splice (dinode_off n) (replicate 64 0) (V (IBLOCK n sb)))) V.

Lemma fresh_byte o type d i :
  (o + 64 ≤ length d)%nat → i ≠ o → i ≠ (o + 1)%nat →
  byte_of (put16 o type (splice o (replicate 64 0) d)) i = if decide (o ≤ i < o + 64)%nat then 0 else byte_of d i.
Proof.
  intros Hl H1 H2. rewrite put16_byte_ne by done. rewrite byte_of_splice by (rewrite length_replicate; lia).
  rewrite length_replicate. case_decide; [|done]. unfold byte_of. rewrite lookup_replicate_2 by lia. done.
Qed.

Lemma fresh_dinode o type d q :
  (o + 64 ≤ length d)%nat → is_short type →
  on_disk (get_dinode o (put16 o type (splice o (replicate 64 0) d)) q) = (type, 0, 0, 0, 0, replicate 13 0).
Proof.
  intros Hl Ht. assert (B : ∀ i, (o + 2 ≤ i < o + 64)%nat → byte_of (put16 o type (splice o (replicate 64 0) d)) i = 0).
  { intros i Hi. rewrite fresh_byte by lia. by rewrite decide_True by lia. }
  assert (Z16 : ∀ k, (2 ≤ k < 63)%nat → get16 (put16 o type (splice o (replicate 64 0) d)) (o + k) = 0).
  { intros k Hk. unfold get16. rewrite !B by lia. done. }
  assert (Z32 : ∀ k, (2 ≤ k < 61)%nat → get32 (put16 o type (splice o (replicate 64 0) d)) (o + k) = 0).
  { intros k Hk. unfold get32. rewrite !B by lia. done. }
  assert (Hd : get16 (put16 o type (splice o (replicate 64 0) d)) o = u16 type).
  { apply get16_put16. rewrite splice_length; rewrite ?length_replicate; lia. }
  set (d' := put16 o type _) in *. set (z := replicate 13 0). unfold on_disk, get_dinode. simpl.
  rewrite !Z16, Z32, Hd, s16_u16 by (done || lia). f_equal. unfold z, get_addrs. apply list_eq. intros j. rewrite list_lookup_fmap.
  destruct (decide (j < 13)%nat).
  - rewrite lookup_seq_lt, lookup_replicate_2 by done. cbn [fmap option_fmap option_map].
    replace (o + 12 + 4 * (0 + j))%nat with (o + (12 + 4 * j))%nat by lia. rewrite Z32; [done|lia].
  - rewrite lookup_seq_ge by lia. symmetry. apply lookup_ge_None_2. rewrite length_replicate. lia.
Qed.

Lemma fresh_other n type V n' :
  (∀ k, length (V k) = 512%nat) → 0 ≤ n → 0 ≤ n' → n' ≠ n → dino (fresh_view n type V) n' = dino V n'.
Proof.
  intros Hl Hn Hn' Hne. unfold dino, fresh_view. destruct (decide (IBLOCK n' sb = IBLOCK n sb)) as [E|E]; [|by rewrite upd_blk_ne].
  rewrite E, upd_blk_eq. pose proof (dinode_off_ne sb n' n Hn' Hn Hne E) as Ho.
  pose proof (dinode_off_range n Hn). pose proof (dinode_off_range n' Hn').
  set (d' := put16 _ _ _). assert (B : ∀ i, (dinode_off n' ≤ i < dinode_off n' + 64)%nat → byte_of d' i = byte_of (V (IBLOCK n sb)) i).
  { intros i Hi. unfold d'. rewrite fresh_byte by (rewrite ?Hl; lia). by rewrite decide_False by lia. }
  unfold get_dinode. f_equal.
  - unfold get_addrs. apply list_fmap_ext. intros i x Hx%lookup_seq. apply get32_ext. intros k Hk. apply B. lia.
  - rewrite (get32_ext d' (V (IBLOCK n sb))) by (intros; apply B; lia). f_equal.
    rewrite !(get16_ext d' (V (IBLOCK n sb))) by (apply B; lia). done.
Qed.

Lemma type_zero V n q : s16 (get16 (V (IBLOCK n sb)) (dinode_off n)) = i_type (get_dinode (dinode_off n) (V (IBLOCK n sb)) q).
Proof. done. Qed.

Lemma get16_range d o : Forall (λ x, 0 ≤ x < 256) d → 0 ≤ get16 d o < 65536.
Proof.
  intros Hd. assert (B : ∀ i, 0 ≤ byte_of d i < 256).
  { intros i. unfold byte_of. destruct (d !! i) as [x|] eqn:E; simpl; [|lia]. by apply (proj1 (Forall_lookup _ _) Hd i). }
  unfold get16. pose proof (B o). pose proof (B (o + 1)%nat). lia.
Qed.

Lemma s16_zero x : 0 ≤ x < 65536 → s16 x = 0 ↔ x = 0.
Proof. intros. unfold s16, u16. rewrite Z.mod_small by lia. zcases; lia. Qed.

Lemma wp_ialloc_loop type : is_short type → ∀ k s ic V P m n (Q : nat → fss X → Prop),
  fsat s ic V P ∅ → ic_rep V ic m None → (∀ b, Forall (λ x, 0 ≤ x < 256) (V b)) →
  0 ≤ n → n + Z.of_nat k = sb_ninodes sb → (size P ≤ 28)%nat → (size m < 50)%nat →
  (∃ x, n ≤ x < sb_ninodes sb ∧ i_type (dino V x) = 0) →
  (∀ x, n ≤ x < sb_ninodes sb → i_type (dino V x) = 0 → m !! x = None) →
  (∀ i ic' p' s' x, fsat s' ic' (fresh_view x type V) (P ∪ {[IBLOCK x sb]}) ∅ →
     n ≤ x < sb_ninodes sb → i_type (dino V x) = 0 → (∀ y, n ≤ y < x → i_type (dino V y) ≠ 0) →
     ic_rep (fresh_view x type V) ic' (inc x m) None → ic' !! i = Some p' → i_inum p' = x → 0 < i_ref p' → Q i s') →
  wp (ialloc_loop k ROOTDEV type n) s Q.
Proof.
  intros Hty. pose proof (sb_bounds _ Hsb) as Hs.
  induction k as [|k IH]; intros s ic V P m n Q F R HB Hn Hk HP Hm Hex Hfree HQ; [destruct Hex as (x & ? & _); lia|].
  cbn [ialloc_loop]. apply wp_bind, wp_get. rewrite (at_sb F). pose proof (iblock_range sb Hsb n ltac:(lia)) as Hib.
  apply wp_bind, (wp_bread F); [lia|apply not_in_empty_img|by apply room_empty|]. intros bp s1 _ F1.
  apply wp_bind, (wp_data F1 (lookup_insert_eq _ _ _)).
  pose proof (s16_zero _ (get16_range _ (dinode_off n) (HB (IBLOCK n sb)))) as Hz. pose proof (dinode_off_range n Hn) as Ho.
  destruct (Z.eqb_spec (get16 (V (IBLOCK n sb)) (dinode_off n)) 0) as [E|E].
  - assert (Ht : i_type (dino V n) = 0) by (by apply Hz).
    apply (wp_log F1 (lookup_insert_eq _ _ _)); [lia| | |].
    { rewrite put16_length, splice_length; rewrite ?length_replicate, (fsat_length _ F); lia. }
    { done. }
    intros s2 F2. apply wp_bind, (wp_brelse F2 (lookup_insert_eq _ _ _)). rewrite delete_insert_eq, delete_empty. intros s3 F3.
    fold (fresh_view n type V) in F3.
    assert (R3 : ic_rep (fresh_view n type V) ic m None).
    { eapply ic_view; [exact R|]. intros i p Hi Hr _. destruct (cr_range _ _ _ _ _ _ R i p Hi Hr) as [_ Hrg].
      rewrite fresh_other; [done|apply (λ k, fsat_length k F)|lia|lia|]. intros En.
      pose proof (cr_in sb pid _ _ _ _ _ _ R Hi Hr) as Hc. rewrite En, Hfree in Hc by (done || lia). done. }
    apply (wp_iget rep sb cwd pid s3 ic _ _ ∅ m None n _ F3 R3); [lia|by left|].
    intros i ic' p' s' F' R' _ Hi En Hr. eapply (HQ i ic' p' s' n); try done; [lia|]. intros y Hy. lia.
  - apply wp_bind, (wp_brelse F1 (lookup_insert_eq _ _ _)). rewrite delete_insert_eq, delete_empty. intros s2 F2.
    assert (Ht : i_type (dino V n) ≠ 0) by (intros E'; by apply E, Hz).
    apply (IH s2 ic V P m (n + 1)); try done; [lia|lia| | |].
    + destruct Hex as (x & Hx & Ex). exists x. split; [|done]. assert (x ≠ n) by congruence. lia.
    + intros x Hx. apply Hfree. lia.
    + intros i ic' p' s' x F' Hx Ex Hlo. eapply HQ; try done; [lia|]. intros y Hy. destruct (decide (y = n)) as [->|]; [done|]. apply Hlo. lia.
Qed.
End trunc.
