(* ===== verification/FsContents.v ===== *)
(** Files as the lists of their bytes, and what a write does to them. *)

From S2P Require Import Prelude Params Bytes Sleeplock BufCache Log Tx Fs FsAt FsAlloc FsMap FsFile FsInode FsCache.

Section contents.
Context (sb : superblock) (Hsb : sb_ok sb).
Abbreviation dino := (dino sb).
Abbreviation bm := (sb_bmapstart sb).

Definition fcontents (V : vmap) (n : Z) : list Z :=
  fbyte V (i_addrs (dino V n)) <$> seq 0 (Z.to_nat (i_size (dino V n))).

(** An inode that is a file or a directory with its blocks in place. *)
Record regular (V : vmap) (n : Z) : Prop := {
  re_file : file_ok sb V (dino V n);
  re_fmt : inode_fmt (dino V n)
}.

(** No block belongs to both. *)
Definition apart (V : vmap) (n n' : Z) : Prop :=
  ∀ k, owned V (i_addrs (dino V n)) k → ¬ owned V (i_addrs (dino V n')) k.

Lemma fcontents_length V n : length (fcontents V n) = Z.to_nat (i_size (dino V n)).
Proof. unfold fcontents. by rewrite length_fmap, length_seq. Qed.

Lemma fcontents_lookup V n i : Z.of_nat i < i_size (dino V n) → fcontents V n !! i = Some (fbyte V (i_addrs (dino V n)) i).
Proof. intros Hi. unfold fcontents. rewrite list_lookup_fmap, lookup_seq_lt by lia. done. Qed.

Lemma on_disk_eq p q :
  on_disk p = on_disk q → i_type p = i_type q ∧ i_major p = i_major q ∧ i_minor p = i_minor q
    ∧ i_nlink p = i_nlink q ∧ i_size p = i_size q ∧ i_addrs p = i_addrs q.
Proof. unfold on_disk. intros H. injection H as H1 H2 H3 H4 H5 H6. by split_and!. Qed.

(** The entry of the cache stands for the inode on disk. *)
Definition copy_of (V : vmap) (n : Z) (p : inode) : Prop :=
  i_dev p = ROOTDEV ∧ i_inum p = n ∧ on_disk p = on_disk (dino V n).

Lemma copy_file V n p : regular V n → copy_of V n p → file_ok sb V p ∧ inode_fmt p ∧ synced sb V p.
Proof.
  intros [[F1 F2 F3 F4 F5 F6] [G1 G2 G3 G4 G5 G6 G7]] (Hd & Hn & E). unfold synced. rewrite Hn. split_and!; [| |by rewrite E].
  - apply on_disk_eq in E as (E1 & E2 & E3 & E4 & E5 & E6). split; rewrite ?Hn, ?E1, ?E5, ?E6; try done.
  - apply on_disk_eq in E as (E1 & E2 & E3 & E4 & E5 & E6). split; rewrite ?E1, ?E2, ?E3, ?E4, ?E5, ?E6; try done.
Qed.

(** [src] has been written at [o] to inode [n]. *)
Record stored (n : Z) (o : nat) (src : list Z) (V V' : vmap) : Prop := {
  st_regular : regular V' n;
  st_meta : meta_used sb V';
  st_contents : fcontents V' n = splice o src (fcontents V n);
  st_type : i_type (dino V' n) = i_type (dino V n) ∧ i_nlink (dino V' n) = i_nlink (dino V n);
  st_others n' : 0 ≤ n' < sb_ninodes sb → n' ≠ n → dino V' n' = dino V n'
    ∧ (regular V n' → apart V n n' → regular V' n' ∧ fcontents V' n' = fcontents V n' ∧ apart V' n n')
}.

Lemma splice_nil o (c : list Z) : splice o [] c = c.
Proof. unfold splice. rewrite Nat.add_0_r. apply take_drop. Qed.

Lemma splice_splice o (a b c : list Z) :
  (o ≤ length c)%nat → splice (o + length a) b (splice o a c) = splice o (a ++ b) c.
Proof.
  intros Ho. unfold splice. rewrite length_app.
  assert (Hl : length (take o c ++ a) = (o + length a)%nat) by (rewrite length_app, length_take; lia).
  rewrite (app_assoc (take o c) a), take_app_le, take_ge by lia.
  rewrite drop_app_ge by lia. rewrite Hl, drop_drop, <- !app_assoc. do 4 f_equal. lia.
Qed.

Lemma stored_nil n o V : regular V n → meta_used sb V → stored n o [] V V.
Proof. intros. split; auto. by rewrite splice_nil. Qed.

Lemma stored_trans n o a b V V1 V2 :
  (o ≤ length (fcontents V n))%nat → stored n o a V V1 → stored n (o + length a) b V1 V2 → stored n o (a ++ b) V V2.
Proof.
  intros Ho [A1 A2 A3 A4 A5] [B1 B2 B3 B4 B5]. split; try done.
  - by rewrite B3, A3, splice_splice.
  - destruct A4 as [<- <-]. done.
  - intros n' Hn Hne. destruct (A5 n' Hn Hne) as [E1 C1]. destruct (B5 n' Hn Hne) as [E2 C2]. split; [congruence|].
    intros Hr Ha. destruct (C1 Hr Ha) as (R1 & D1 & P1). destruct (C2 R1 P1) as (R2 & D2 & P2). split_and!; [done|congruence|done].
Qed.

(** What writei guarantees, on the lists. *)
Section written.
Context (V : vmap) (p : inode) (n : Z) (o : nat) (src : list Z) (P : gset Z) (V' : vmap) (p' : inode) (P' : gset Z).
Context (Hr : regular V n) (Hc : copy_of V n p) (Ho : Z.of_nat o ≤ i_size p) (W : written sb V p o src P V' p' P').

Lemma written_copy : copy_of V' n p'.
Proof using Hc W.
  destruct Hc as (Hd & Hn & E). pose proof (wn_inode _ _ _ _ _ _ _ _ _ W) as Ep.
  assert (i_dev p' = i_dev p ∧ i_inum p' = i_inum p) as [E1 E2] by (rewrite Ep; done).
  split_and!; [congruence|congruence|]. rewrite <- (wn_sync _ _ _ _ _ _ _ _ _ W). by rewrite E2, Hn.
Qed.

Lemma written_fields : i_size p' = Z.max (i_size p) (Z.of_nat (o + length src)) ∧ i_type p' = i_type p ∧ i_nlink p' = i_nlink p.
Proof using W. rewrite (wn_inode _ _ _ _ _ _ _ _ _ W). done. Qed.

Lemma written_fcontents : fcontents V' n = splice o src (fcontents V n).
Proof using Hr Hc Ho W.
  pose proof written_copy as (_ & _ & E'). destruct Hc as (_ & _ & E). destruct written_fields as (Hs & _ & _).
  apply on_disk_eq in E as (_ & _ & _ & _ & E5 & E6). apply on_disk_eq in E' as (_ & _ & _ & _ & E5' & E6'). pose proof (fo_size _ _ _ (re_file _ _ Hr)) as Hsz.
  assert (Hlen : length (fcontents V n) = Z.to_nat (i_size p)) by (rewrite fcontents_length; congruence).
  apply list_eq_same_length with (n := length (fcontents V' n)); [|done|].
  - rewrite fcontents_length, <- E5', Hs. unfold splice. rewrite !length_app, length_take, length_drop, Hlen. lia.
  - intros i x y Hi Hx Hy. rewrite fcontents_length, <- E5' in Hi. rewrite fcontents_lookup in Hx by lia. apply (inj Some) in Hx as <-. rewrite <- E6'.
    unfold splice in Hy. destruct (decide (i < o)%nat) as [H1|H1].
    + rewrite lookup_app_l in Hy by (rewrite length_take; lia). rewrite lookup_take, decide_True in Hy by done.
      rewrite fcontents_lookup in Hy by lia. apply (inj Some) in Hy as <-. rewrite <- E6. apply (wn_out _ _ _ _ _ _ _ _ _ W); lia.
    + rewrite lookup_app_r in Hy by (rewrite length_take; lia). rewrite length_take, Nat.min_l in Hy by lia.
      destruct (decide (i < o + length src)%nat) as [H2|H2].
      * rewrite lookup_app_l in Hy by lia. replace i with (o + (i - o))%nat at 1 by lia.
        rewrite (wn_in _ _ _ _ _ _ _ _ _ W) by lia. unfold byte_of. by rewrite Hy.
      * rewrite lookup_app_r, lookup_drop in Hy by lia. replace (o + length src + (i - o - length src))%nat with i in Hy by lia.
        apply lookup_lt_Some in Hy as Hlt. rewrite fcontents_lookup in Hy by lia. apply (inj Some) in Hy as <-. rewrite <- E6.
        apply (wn_out _ _ _ _ _ _ _ _ _ W); lia.
Qed.

(** The blocks of another file stay as they are. *)
Lemma written_same n' : regular V n' → apart V n n' → ∀ k, owned V (i_addrs (dino V n')) k → V' k = V k.
Proof using Hsb Hr Hc W.
  intros Hr' Ha k Hk. pose proof (fo_inum _ _ _ (re_file _ _ Hr)) as Hn. simpl in Hn. destruct Hc as (_ & Hin & E).
  apply on_disk_eq in E as (_ & _ & _ & _ & _ & E6). pose proof (iblock_range sb Hsb n Hn) as Hib.
  destruct (owned_data sb _ _ _ (fo_map _ _ _ (re_file _ _ Hr')) Hk) as [Hk1 Hk2].
  apply (wn_frame _ _ _ _ _ _ _ _ _ W); [lia|done|lia|rewrite Hin; lia|]. rewrite E6. intros Hk3. by apply (Ha k).
Qed.

Lemma written_blk n' : regular V n' → apart V n n' → ∀ j, blk V' (i_addrs (dino V n')) j = blk V (i_addrs (dino V n')) j.
Proof using Hsb Hr Hc W. intros Hr' Ha j. apply blk_frame. intros Hi. apply (written_same n' Hr' Ha). by split; [|left]. Qed.

Lemma written_other n' :
  0 ≤ n' < sb_ninodes sb → n' ≠ n → regular V n' → apart V n n' → dino V' n' = dino V n' →
  regular V' n' ∧ fcontents V' n' = fcontents V n' ∧ apart V' n n'.
Proof using Hsb Hr Hc W.
  intros Hn' Hne Hr' Ha Ed.
  pose proof written_copy as (_ & _ & E'). pose proof Hc as (_ & Hin & E). apply on_disk_eq in E as (_ & _ & _ & _ & _ & E6). apply on_disk_eq in E' as (_ & _ & _ & _ & _ & E6').
  pose proof (fo_map _ _ _ (re_file _ _ Hr')) as Hm'. pose proof (sb_bounds _ Hsb).
  pose proof (written_same n' Hr' Ha) as Hsame. pose proof (written_blk n' Hr' Ha) as Hblk. set (l := i_addrs (dino V n')) in *.
  assert (Hown : ∀ k, owned V' l k ↔ owned V l k).
  { intros k. unfold owned. by setoid_rewrite Hblk. }
  assert (Hused : ∀ k, data_ok sb V k → data_ok sb V' k).
  { intros k [Hk1 Hk2]. split; [done|]. apply (wn_used _ _ _ _ _ _ _ _ _ W); [lia|done]. }
  assert (Hmap : map_ok sb V' l).
  { destruct Hm' as [M1 M2 M3 M4 M5]. split; intros; rewrite ?Hblk in *; auto. }
  pose proof (re_file _ _ Hr') as [F1 F2 F3 F4 F5 F6]. split_and!.
  - split; rewrite Ed; [|apply Hr']. split; try done. intros j Hj. fold l. rewrite Hblk. by apply F6.
  - unfold fcontents. rewrite Ed. fold l. apply list_fmap_ext. intros i x [-> Hx]%lookup_seq. unfold fbyte. rewrite Hblk. simpl.
    destruct (fo_block _ _ _ i (re_file _ _ Hr')) as [Hb Hbn]; [lia|]. rewrite Hsame; [done|]. split; [done|]. right. eauto.
  - intros k Hk. rewrite Ed. fold l. rewrite Hown. intros Hk'. rewrite <- E6' in Hk.
    destruct (wn_new _ _ _ _ _ _ _ _ _ W k Hk) as [Ho1|Hu]; [rewrite E6 in Ho1; by apply (Ha k)|].
    by destruct (owned_data sb _ _ _ Hm' Hk').
Qed.

Lemma written_stored : stored n o src V V'.
Proof using Hsb Hr Hc Ho W.
  pose proof written_copy as (Hd' & Hn' & E'). pose proof written_fields as (_ & Ht & Hl).
  pose proof (fo_inum _ _ _ (re_file _ _ Hr)) as Hn. simpl in Hn. destruct Hc as (_ & Hin & E).
  apply on_disk_eq in E as (E1 & _ & _ & E4 & _ & E6). apply on_disk_eq in E' as (E1' & E2' & E3' & E4' & E5' & E6'). split.
  - destruct (wn_file _ _ _ _ _ _ _ _ _ W) as [F1 F2 F3 F4 F5 F6]. destruct (wn_fmt _ _ _ _ _ _ _ _ _ W) as [G1 G2 G3 G4 G5 G6 G7].
    split; split; rewrite <- ?E1', <- ?E2', <- ?E3', <- ?E4', <- ?E5', <- ?E6'; done.
  - apply (wn_meta _ _ _ _ _ _ _ _ _ W).
  - exact written_fcontents.
  - split; congruence.
  - intros n' Hr' Hne. assert (Ed : dino V' n' = dino V n').
    { unfold dino. apply (wn_inodes _ _ _ _ _ _ _ _ _ W); [done|congruence]. }
    split; [done|]. intros. by apply written_other.
Qed.
End written.
End contents.
