(* ===== verification/FsEx.v ===== *)
(** A small file system on the modelled disk: the root directory with ".",
    "..", and a file "a" of three bytes. *)

From S2P Require Import Prelude Params Bytes Sleeplock Ide BufCache Bio Log LogProps Tx Fs FsAt FsAlloc FsMap FsFile FsInode FsDir FsCache FsPath.

#[export] Instance ex_io : BufOps bst := bio_ops ex_status 1.
#[export] Instance ex_io_laws : BufLaws bst ROOTDEV bio_rep := bio_laws ex_status 1 (le_n 1).

(** The layout of mkfs. *)
Definition ex_sb : superblock := MkSb 1000 941 200 30 2 32 58.

Definition pad (n : nat) (l : list Z) : list Z := l ++ replicate (n - length l) 0.
Definition ex_root : inode := MkInode ROOTDEV 1 1 initsleeplock 0 T_DIR 0 0 1 48 (59 :: replicate 12 0).
Definition ex_file : inode := MkInode ROOTDEV 2 1 initsleeplock 1 T_FILE 0 0 1 3 (60 :: replicate 12 0).

Definition ex_inodes : list Z := put_dinode 128 ex_file (put_dinode 64 ex_root (replicate 512 0)).
Definition ex_bitmap : list Z := pad 512 [255; 255; 255; 255; 255; 255; 255; 31].
Definition ex_dir : list Z := pad 512 (mk_dirent 1 [46] ++ mk_dirent 1 [46; 46] ++ mk_dirent 2 [97]).
Definition ex_text : list Z := pad 512 [104; 105; 10].

Definition ex_fsdisk : vmap := λ k,
  if k =? 32 then ex_inodes else if k =? 58 then ex_bitmap else if k =? 59 then ex_dir
  else if k =? 60 then ex_text else replicate 512 0.

Definition no_inode : inode := MkInode 0 0 0 initsleeplock 0 0 0 0 0 0 [].
Definition ex_ic : list inode := ex_root :: ex_file :: replicate 48 no_inode.

Abbreviation ex_fsat d := (fsat (tx_rep ROOTDEV bio_rep 2 1 d []) ex_sb 0 3).
Abbreviation ex_idle d := (fsat (tx_rep ROOTDEV bio_rep 2 0 d []) ex_sb 0 3).

(** With [o] transactions running and an empty log. *)
Lemma ex_on_disk o d ic :
  (∀ k, length (d k) = 512%nat) → d 2 = replicate 512 0 →
  ∃ s, fsat (tx_rep ROOTDEV bio_rep 2 o d []) ex_sb 0 3 s ic d ∅ ∅.
Proof.
  intros Hd H2. destruct (ex_boot d Hd) as [st Q].
  exists (MkFss ex_sb ic 0 3 (MkLst (MkLog 2 30 o 0 ROOTDEV 0 (replicate 30 0)) st)).
  split; try done. exists (MkAcache d d ∅ ∅ []). split_and!; try done.
  split; simpl; try done. exists d. split; [|done]. split; simpl; try done; try lia; [constructor|].
  rewrite H2. split; reflexivity.
Qed.

Lemma ex_state d ic : (∀ k, length (d k) = 512%nat) → d 2 = replicate 512 0 → ∃ s, ex_fsat d s ic d ∅ ∅.
Proof. apply ex_on_disk. Qed.

Lemma ex_fsdisk_length k : length (ex_fsdisk k) = 512%nat.
Proof. unfold ex_fsdisk. repeat match goal with |- context [Z.eqb k ?x] => destruct (Z.eqb k x) end; reflexivity. Qed.

Lemma ex_fs_state : ∃ s, ex_fsat ex_fsdisk s ex_ic ex_fsdisk ∅ ∅.
Proof. apply ex_state; [apply ex_fsdisk_length|reflexivity]. Qed.

Lemma ex_sb_ok : sb_ok ex_sb.
Proof. split; simpl; unfold IPB, BSIZE, FSSIZE, LOGEND, LOGSIZE, MAXOPBLOCKS; try lia. done. Qed.

Lemma ex_used b : used ex_sb ex_fsdisk b ↔ bit_of ex_bitmap b ≠ 0.
Proof. done. Qed.

(** Blocks 0 to 60 are in use. *)
Lemma ex_used_low b : 0 ≤ b ≤ 60 → used ex_sb ex_fsdisk b.
Proof.
  intros Hb. rewrite ex_used. assert (H : Forall (λ b, bit_of ex_bitmap b ≠ 0) (seqZ 0 61)).
  { apply (bool_decide_unpack _). vm_compute. exact I. }
  apply (proj1 (Forall_forall _ _) H). apply elem_of_seqZ. lia.
Qed.

Lemma ex_meta : meta_used ex_sb ex_fsdisk.
Proof. intros b Hb. apply ex_used_low. simpl in Hb. lia. Qed.

Lemma ex_free : (20 ≤ size (free_set ex_sb ex_fsdisk))%nat.
Proof.
  change 20%nat with (length (seqZ 61 20)). rewrite <- (size_list_to_set (C := gset Z)) by apply NoDup_seqZ.
  apply subseteq_size. intros b. rewrite elem_of_list_to_set, elem_of_free. intros Hb.
  assert (H : Forall (λ b, bit_of ex_bitmap b = 0) (seqZ 61 20)) by (apply (bool_decide_unpack _); vm_compute; exact I).
  split; [apply elem_of_seqZ in Hb; simpl; lia|]. rewrite ex_used. pose proof (proj1 (Forall_forall _ _) H b Hb). tauto.
Qed.

(** A file of one block. *)
Lemma ex_map_ok b : b = 59 ∨ b = 60 → map_ok ex_sb ex_fsdisk (b :: replicate 12 0).
Proof.
  intros Hb. assert (E : ∀ j, blk ex_fsdisk (b :: replicate 12 0) j = if decide (j = 0)%nat then b else 0).
  { intros [|j]; [done|]. rewrite decide_False by done. unfold blk. change (ind (b :: replicate 12 0)) with 0.
    destruct (Nat.ltb_spec (S j) 12); [|done]. unfold addr_at. change ((b :: replicate 12 0) !! S j) with (replicate 12 0 !! j). destruct (replicate 12 0 !! j) eqn:H'; [|done].
    by apply lookup_replicate in H' as [-> _]. }
  split; [done|..].
  - intros j _. rewrite E. case_decide; [|done]. intros _. split; [simpl; lia|]. apply ex_used_low. lia.
  - done.
  - intros i j _ _. rewrite !E. repeat case_decide; subst; try done; lia.
  - intros j _. rewrite E. case_decide; [|done]. change (ind (b :: replicate 12 0)) with 0. lia.
Qed.

Lemma ex_file_ok p b n :
  i_addrs p = b :: replicate 12 0 → b = 59 ∨ b = 60 → i_dev p = ROOTDEV → 0 ≤ i_inum p < 200 → i_type p ≠ T_DEV →
  i_size p = n → 0 ≤ n ≤ 512 → file_ok ex_sb ex_fsdisk p.
Proof.
  intros Ha Hb Hd Hi Ht <- Hn. split; try done; [lia|by rewrite Ha; apply ex_map_ok|].
  intros j Hj. rewrite Ha. assert (j = 0)%nat as -> by lia. change (b ≠ 0). lia.
Qed.

Lemma ex_fmt p : In p [ex_root; ex_file] → inode_fmt p.
Proof. intros [<-|[<-|[]]]; split; simpl; try done; unfold is_short, is_uint; try lia; repeat constructor; lia. Qed.

Lemma ex_dino n : 0 ≤ n < 200 → on_disk (dino ex_sb ex_fsdisk n) =
  if n =? 1 then on_disk ex_root else if n =? 2 then on_disk ex_file else (0, 0, 0, 0, 0, replicate 13 0).
Proof.
  intros Hn. assert (H : Forall (λ n, on_disk (dino ex_sb ex_fsdisk n) =
    if n =? 1 then on_disk ex_root else if n =? 2 then on_disk ex_file else (0, 0, 0, 0, 0, replicate 13 0)) (seqZ 0 200)).
  { apply (bool_decide_unpack _). vm_compute. exact I. }
  apply (proj1 (Forall_forall _ _) H). apply elem_of_seqZ. lia.
Qed.

Lemma ex_ic_cases i p : ex_ic !! i = Some p → i = 0%nat ∧ p = ex_root ∨ i = 1%nat ∧ p = ex_file ∨ p = no_inode.
Proof.
  destruct i as [|[|i]]; intros E; [injection E as <-; by left|injection E as <-; right; by left|].
  change (replicate 48 no_inode !! i = Some p) in E. apply lookup_replicate in E as [-> _]. by right; right.
Qed.

Lemma ex_ic_lookup i p : ex_ic !! i = Some p → 0 < i_ref p → i = 0%nat ∧ p = ex_root ∨ i = 1%nat ∧ p = ex_file.
Proof. intros [?|[?| ->]]%ex_ic_cases; [tauto|tauto|done]. Qed.

Definition ex_refs : gmap Z Z := {[1 := 1; 2 := 1]}.

Lemma ex_ic_rep : ic_rep ex_sb 3 ex_fsdisk ex_ic ex_refs None.
Proof.
  split.
  - done.
  - intros i p [[-> ->]|[[-> ->]| ->]]%ex_ic_cases; done.
  - intros i p Hi Hr. destruct (ex_ic_lookup i p Hi Hr) as [[-> ->]|[-> ->]]; simpl; lia.
  - intros i j p q Hi Hj Hr Hr'. destruct (ex_ic_lookup i p Hi Hr) as [[-> ->]|[-> ->]], (ex_ic_lookup j q Hj Hr') as [[-> ->]|[-> ->]]; done.
  - intros n r. unfold ex_refs. rewrite lookup_insert_Some, lookup_singleton_Some. split.
    + intros [[<- <-]|[_ [<- <-]]]; [by exists 0%nat, ex_root|by exists 1%nat, ex_file].
    + intros (i & p & Hi & Hr & <- & <-). destruct (ex_ic_lookup i p Hi Hr) as [[-> ->]|[-> ->]]; simpl; auto.
  - intros i p [[-> ->]|[[-> ->]| ->]]%ex_ic_cases; done.
  - intros i p Hi Hr Hv. destruct (ex_ic_lookup i p Hi Hr) as [[-> ->]|[-> ->]]; [done|]. by rewrite ex_dino.
Qed.
