(* ===== verification/FsProps.v ===== *)
(** What fs.c guarantees, over any log that keeps the promises of [TxLaws];
    each theorem is also applied to the small file system of [FsEx], on the
    log, the cache and the disk driver of this development. *)

From S2P Require Import Prelude Params Bytes Cstring Sleeplock Ide BufCache Bio Log LogProps Tx Fs.
From S2P Require Import FsAt FsAlloc FsMap FsFile FsInode FsDir FsCache FsPath FsTrunc FsEx.

(** C10. writei stores the bytes at the offset, extends the file when it has
    to, keeps the cached inode and the inode on disk in step, touches no
    block of another file and no other inode, and logs at most three blocks
    beyond those the bytes span; readi then returns the bytes written. *)
Theorem writei_readi {X} `{!TxOps X} rep `{!RdLaws X ROOTDEV rep} `{!TxLaws X ROOTDEV rep} sb cwd pid dr dw s ic V P ip p src o :
  sb_ok sb → fsat rep sb cwd pid s ic V P ∅ → ic !! ip = Some p →
  file_ok sb V p → inode_fmt p → synced sb V p → meta_used sb V →
  Z.of_nat o ≤ i_size p → Z.of_nat (o + length src) ≤ MAXFILE * BSIZE →
  (size P + span o (length src) ≤ 25)%nat →
  Z.of_nat (o + length src) ≤ i_size p ∨ (span o (length src) + need (i_addrs p) ≤ size (free_set sb V))%nat →
  ∃ s' V' p' P', writei dw ip src (Z.of_nat o) s = Ret (Z.of_nat (length src), s')
    ∧ fsat rep sb cwd pid s' (<[ip := p']> ic) V' P' ∅ ∧ written sb V p o src P V' p' P'
    ∧ ∃ s'', readi dr ip (Z.of_nat o) (Z.of_nat (length src)) s' = Ret ((Z.of_nat (length src), src), s'')
        ∧ fsat rep sb cwd pid s'' (<[ip := p']> ic) V' P' ∅.
Proof.
  intros Hsb F Hp Hf Hfmt Hsy Hmu Ho Ho2 HP Hfree. change (MAXFILE * BSIZE) with 71680 in Ho2.
  edestruct (wp_writei rep sb cwd pid Hsb dw s ic V P ip p src o (λ r s', r = Z.of_nat (length src) ∧ ∃ V' p' P',
    fsat rep sb cwd pid s' (<[ip := p']> ic) V' P' ∅ ∧ written sb V p o src P V' p' P')) as (r & s' & E & -> & V' & p' & P' & F' & W);
    [done..|lia|done|intros; eauto 6|].
  exists s', V', p', P'. split_and!; [done|done|done|].
  assert (Hsz : i_size p' = Z.max (i_size p) (Z.of_nat (o + length src))) by (rewrite (wn_inode _ _ _ _ _ _ _ _ _ W); done).
  assert (Hlt : (ip < length ic)%nat) by (by eapply lookup_lt_Some).
  edestruct (wp_readi rep sb cwd pid Hsb dr s' _ V' P' ip p' o (Z.of_nat (length src)) (λ r s'',
    r = (Z.of_nat (length src), src) ∧ fsat rep sb cwd pid s'' (<[ip := p']> ic) V' P' ∅) F') as (r & s'' & E' & -> & F'');
    [by apply list_lookup_insert_eq|apply W|pose proof (wn_pins _ _ _ _ _ _ _ _ _ W); lia|lia|lia| |by exists s''].
  intros s2 F2. cbv zeta. rewrite Hsz, Z.min_l, Nat2Z.id by lia. split; [|done]. f_equal.
  apply list_eq. intros i. rewrite list_lookup_fmap. destruct (decide (i < length src)%nat) as [Hi|Hi].
  - rewrite lookup_seq_lt by done. simpl. rewrite (wn_in _ _ _ _ _ _ _ _ _ W) by done. unfold byte_of.
    destruct (lookup_lt_is_Some_2 src i Hi) as [x ->]. done.
  - rewrite lookup_seq_ge, lookup_ge_None_2 by lia. done.
Qed.

Definition no_dev_read : Z → option (nat → Z → M (fss (lst bst)) (Z * list Z)) := λ _, None.
Definition no_dev_write : Z → option (nat → list Z → M (fss (lst bst)) Z) := λ _, None.

Lemma ex_file_synced : synced ex_sb ex_fsdisk ex_file.
Proof. exact (ex_dino 2 ltac:(lia)). Qed.

(** "hi\n" becomes "hi!\n". *)
Lemma writei_readi_witness :
  ∃ s s', writei no_dev_write 1 [33; 10] 2 s = Ret (2, s')
    ∧ ∃ s'', readi no_dev_read 1 2 2 s' = Ret ((2, [33; 10]), s'').
Proof.
  destruct ex_fs_state as [s F]. exists s.
  destruct (writei_readi (tx_rep ROOTDEV bio_rep 2 1 ex_fsdisk []) ex_sb 0 3 no_dev_read no_dev_write s ex_ic ex_fsdisk ∅ 1 ex_file [33; 10] 2)
    as (s' & V' & p' & P' & E & _ & _ & s'' & E' & _).
  - exact ex_sb_ok.
  - exact F.
  - reflexivity.
  - by apply (ex_file_ok ex_file 60 3); auto; simpl; lia.
  - apply ex_fmt. simpl. auto.
  - exact ex_file_synced.
  - exact ex_meta.
  - simpl. lia.
  - vm_compute. discriminate.
  - rewrite size_empty. vm_compute. lia.
  - right. apply Nat.le_trans with 20%nat; [vm_compute; lia|exact ex_free].
  - exists s'. split; [exact E|]. exists s''. exact E'.
Defined.

(** C25. dirlink of a new name adds one entry, in the first free slot or at
    the end, and dirlookup then finds the inode under that name; every other
    name is found, or not found, as before. *)
Theorem dirlink_dirlookup {X} `{!TxOps X} rep `{!RdLaws X ROOTDEV rep} `{!TxLaws X ROOTDEV rep} sb cwd pid away fuel dr dw s ic V P m dp p n name inum :
  sb_ok sb → fsat rep sb cwd pid s ic V P ∅ → ic_rep sb pid V ic m (Some dp) → ic !! dp = Some p → 0 < i_ref p → i_valid p ≠ 0 →
  dir_ok sb V p n → inode_fmt p → meta_used sb V → (size P ≤ 23)%nat → Z.of_nat n < 4480 → (size m < 50)%nat →
  dir_find V (i_addrs p) name n 0 = None → 0 < inum < sb_ninodes sb → inum < 65536 →
  let j := dir_slot V (i_addrs p) n 0 in
  (j < n)%nat ∨ (1 + need (i_addrs p) ≤ size (free_set sb V))%nat →
  ∃ s' V' p' P', dirlink away fuel dr dw dp name inum s = Ret (0, s')
    ∧ fsat rep sb cwd pid s' (<[dp := p']> ic) V' P' ∅ ∧ written sb V p (16 * j) (mk_dirent inum name) P V' p' P'
    ∧ dir_ok sb V' p' (Nat.max n (S j))
    ∧ (∀ other, nm other ≠ nm name → dir_find V' (i_addrs p') other (Nat.max n (S j)) 0 = dir_find V (i_addrs p) other n 0)
    ∧ ∃ i q s'' ic'', dirlookup dr dp name s' = Ret (Some (i, Z.of_nat (16 * j)), s'')
        ∧ fsat rep sb cwd pid s'' ic'' V' P' ∅ ∧ ic'' !! i = Some q ∧ i_inum q = inum ∧ ic_rep sb pid V' ic'' (inc inum m) (Some dp).
Proof.
  intros Hsb F R Hp Hr Hv Hd Hfmt Hmu HP Hn Hm Hno Hi Hi2 j Hfree.
  pose proof (cr_sync _ _ _ _ _ _ R dp p Hp Hr Hv) as Hsy.
  edestruct (wp_dirlink rep sb cwd pid Hsb away fuel dr dw s ic V P dp p n name inum (λ r s', r = 0 ∧ ∃ V' p' P',
    fsat rep sb cwd pid s' (<[dp := p']> ic) V' P' ∅ ∧ written sb V p (16 * j) (mk_dirent inum name) P V' p' P'))
    as (r & s' & E & -> & V' & p' & P' & F' & W); [done..|lia|done|done|exact Hfree|intros; eauto 6|].
  assert (Eu : u16 inum = inum) by (apply Z.mod_small; lia). assert (Hu : u16 inum ≠ 0) by lia.
  assert (Hlt : (dp < length ic)%nat) by (by eapply lookup_lt_Some).
  pose proof (linked_dir sb V p n name inum P V' p' P' Hd W) as Hd'.
  exists s', V', p', P'. split_and!; [done|done|done|done|intros; by eapply linked_others|].
  edestruct (wp_dirlookup rep sb cwd pid Hsb dr s' _ V' P' dp p' (Nat.max n (S j)) name (λ r s'', ∃ i q ic'', r = Some (i, Z.of_nat (16 * j))
    ∧ fsat rep sb cwd pid s'' ic'' V' P' ∅ ∧ ic'' !! i = Some q ∧ i_inum q = inum ∧ ic_rep sb pid V' ic'' (inc inum m) (Some dp)) F')
    as (r & s'' & E' & i & q & ic'' & -> & H); [by apply list_lookup_insert_eq|exact Hd'| | |naive_solver].
  { pose proof (wn_pins _ _ _ _ _ _ _ _ _ W) as Hw. rewrite mk_dirent_length, span_dirent in Hw. lia. }
  intros s2 F2. pose proof (linked_find sb V p n name inum P V' p' P' Hd Hu W Hno) as El. fold j in El. rewrite El, Eu.
  eapply (wp_iget rep sb cwd pid s2 _ V' P' ∅ m (Some dp) inum _ F2); [by eapply ic_written|lia|by left|].
  intros i ic' q s3 F3 R3 _ Hq Eq _. exists i, q, ic'. done.
Qed.

(** The root directory of the example, read and locked. *)
Definition ex_root' : inode := set_i_lock (MkSleeplock 1 3) (set_i_valid 1 ex_root).
Definition ex_ic' : list inode := <[0%nat := ex_root']> ex_ic.

Lemma ex_root_dir : dir_ok ex_sb ex_fsdisk ex_root' 3.
Proof. split; [|done|done]. by apply (ex_file_ok ex_root' 59 48); auto; simpl; lia. Qed.

Lemma ex_ic_rep' : ic_rep ex_sb 3 ex_fsdisk ex_ic' ex_refs (Some 0%nat).
Proof.
  eapply (ic_same ex_sb 3 _ ex_ic ex_refs None (Some 0%nat) 0 ex_root); [apply ex_ic_rep|done|done|done|done|done|intros; split; congruence|by rewrite decide_True|].
  intros _. symmetry. exact (ex_dino 1 ltac:(lia)).
Qed.

(** A link "b" to inode 2. *)
Lemma dirlink_dirlookup_witness :
  ∃ s s' i s'', dirlink (ret tt) 0 no_dev_read no_dev_write 0 [98] 2 s = Ret (0, s')
    ∧ dirlookup no_dev_read 0 [98] s' = Ret (Some (i, 48), s'').
Proof.
  destruct ex_fs_state as [s F]. apply (fsat_set_ic _ _ _ _ _ _ _ _ _ ex_ic') in F. exists (set_icache ex_ic' s).
  destruct (dirlink_dirlookup (tx_rep ROOTDEV bio_rep 2 1 ex_fsdisk []) ex_sb 0 3 (ret tt) 0 no_dev_read no_dev_write (set_icache ex_ic' s) ex_ic' ex_fsdisk ∅ ex_refs 0 ex_root' 3 [98] 2)
    as (s' & V' & p' & P' & E & _ & _ & _ & _ & i & q & s'' & ic'' & E' & _).
  - exact ex_sb_ok.
  - exact F.
  - exact ex_ic_rep'.
  - reflexivity.
  - reflexivity.
  - discriminate.
  - exact ex_root_dir.
  - destruct (ex_fmt ex_root) as [A1 A2 A3 A4 A5 A6 A7]; [simpl; auto|]. split; assumption.
  - exact ex_meta.
  - rewrite size_empty. lia.
  - lia.
  - vm_compute. lia.
  - reflexivity.
  - simpl. lia.
  - lia.
  - right. apply Nat.le_trans with 20%nat; [vm_compute; lia|exact ex_free].
  - exists s', i, s''. split; [exact E|exact E'].
Defined.

(** C9. namei and nameiparent find what a walk over the directories on disk
    finds, from the root or from the current directory; they change no
    block, and no reference count but that of the inode they return, and
    leave every referenced entry of the inode cache where it is. *)
Theorem namex_walk {X} `{!TxOps X} rep `{!RdLaws X ROOTDEV rep} sb cwd pid away fuel dr s ic V P m pc path parent name :
  sb_ok sb → fsat rep sb cwd pid s ic V P ∅ → ic_rep sb pid V ic m None → (size P ≤ 28)%nat → (size m ≤ 48)%nat →
  tree_ok sb V → live sb V ROOTINO → ic !! cwd = Some pc → 0 < i_ref pc → live sb V (i_inum pc) →
  Forall (λ c, c ≠ 0) path → length name = 14%nat →
  let start := if bool_decide (hd 0 path = 47) then ROOTINO else i_inum pc in
  ∃ s' ic' r name', namex away fuel dr path parent name s = Ret ((r, name'), s') ∧ fsat rep sb cwd pid s' ic' V P ∅
    ∧ reached sb pid V m (walk sb V parent start (path_elems path)) r ic' ∧ stays m ic ic'
    ∧ (parent = true → r ≠ None → ∃ e, last (path_elems path) = Some e ∧ nm name' = nm e).
Proof.
  intros Hsb F R HP Hm Ht Hroot Hc Hrc Hlc Hnz Hlen start.
  set (Q := λ (x : option nat * list Z) s', ∃ ic', fsat rep sb cwd pid s' ic' V P ∅
    ∧ reached sb pid V m (walk sb V parent start (path_elems path)) x.1 ic' ∧ stays m ic ic'
    ∧ (parent = true → x.1 ≠ None → ∃ e, last (path_elems path) = Some e ∧ nm x.2 = nm e)).
  enough (wp (namex away fuel dr path parent name) s Q) as ([r name'] & s' & E & ic' & H) by (exists s', ic', r, name'; done).
  apply (wp_namex rep sb cwd pid Hsb away fuel dr s ic V P m pc path parent name Q F R HP Hm Ht Hroot Hc Hrc Hlc Hnz Hlen).
  intros s' ic' r name' F' Hre Hst Hna. by exists ic'.
Qed.

Lemma ex_live n : n = 1 ∨ n = 2 → live ex_sb ex_fsdisk n.
Proof.
  intros Hn. split; [simpl; lia|]. pose proof (ex_dino n ltac:(lia)) as E. generalize dependent (dino ex_sb ex_fsdisk n).
  intros q E. unfold on_disk in E. destruct Hn as [-> | ->]; injection E as E1 _ _ E2 _ _; rewrite E1, E2; done.
Qed.

Lemma ex_tree : tree_ok ex_sb ex_fsdisk.
Proof.
  intros n [Hn _] Ht. simpl in Hn. pose proof (ex_dino n Hn) as E. unfold dir_get, nent.
  assert (Hdi : i_dev (dino ex_sb ex_fsdisk n) = ROOTDEV ∧ i_inum (dino ex_sb ex_fsdisk n) = n) by done.
  generalize dependent (dino ex_sb ex_fsdisk n). intros q Ht E [Hd Hi]. unfold on_disk in E.
  assert (n = 1) as ->.
  { destruct (Z.eqb_spec n 1); [done|]. destruct (Z.eqb_spec n 2); injection E as E1; rewrite E1 in Ht; done. }
  injection E as E1 E2 E3 E4 E5 E6.
  rewrite E5, E6. change (Z.to_nat (48 / 16)) with 3%nat. split.
  - split; [|done|by rewrite E5]. apply (ex_file_ok q 59 48); [done|by left|done|lia|by rewrite E1|done|lia].
  - intros e k. destruct (dir_find _ _ e 3 0) as [[x j]|] eqn:Ef; [|done]. intros [= <-].
    apply dir_find_Some in Ef as (Hj & Hx & -> & _). apply ex_live.
    destruct j as [|[|[|j]]]; [by left|by left|by right|lia].
Qed.

(** "/a" is inode 2, at index 1. *)
Lemma namex_walk_witness :
  ∃ s s' ic' r name', namex (ret tt) 0 no_dev_read [47; 97] false (replicate 14 0) s = Ret ((r, name'), s')
    ∧ reached ex_sb 3 ex_fsdisk ex_refs (Some 2) r ic'.
Proof.
  destruct ex_fs_state as [s F]. exists s.
  destruct (namex_walk (tx_rep ROOTDEV bio_rep 2 1 ex_fsdisk []) ex_sb 0 3 (ret tt) 0 no_dev_read s ex_ic ex_fsdisk ∅ ex_refs ex_root [47; 97] false (replicate 14 0))
    as (s' & ic' & r & name' & E & _ & H & _).
  - exact ex_sb_ok.
  - exact F.
  - exact ex_ic_rep.
  - rewrite size_empty. lia.
  - vm_compute. lia.
  - exact ex_tree.
  - apply ex_live. by left.
  - reflexivity.
  - reflexivity.
  - apply ex_live. by left.
  - repeat constructor; discriminate.
  - reflexivity.
  - exists s', ic', r, name'. split; [exact E|].
    replace (Some 2) with (walk ex_sb ex_fsdisk false 1 (path_elems [47; 97])) by (vm_compute; reflexivity). exact H.
Defined.

(** balloc hands out the lowest free block, cleared and marked, leaving
    all other blocks and bits alone, and panics if and only if no block is
    free. *)
Theorem balloc_correct {X} `{!TxOps X} rep `{!RdLaws X ROOTDEV rep} `{!TxLaws X ROOTDEV rep} sb cwd pid s ic V P :
  sb_ok sb → fsat rep sb cwd pid s ic V P ∅ → meta_used sb V → (size P ≤ 27)%nat →
  (free_set sb V = ∅ → balloc ROOTDEV s = Panic "balloc: out of blocks") ∧
  (free_set sb V ≠ ∅ → ∃ b s' V' P', balloc ROOTDEV s = Ret (b, s') ∧ fsat rep sb cwd pid s' ic V' P' ∅
     ∧ b ∈ free_set sb V ∧ (∀ k, k ∈ free_set sb V → b ≤ k) ∧ sb_bmapstart sb < b
     ∧ V' b = replicate 512 0 ∧ free_set sb V' = free_set sb V ∖ {[b]} ∧ meta_used sb V'
     ∧ ∀ k, k ≠ b → k ≠ sb_bmapstart sb → V' k = V k).
Proof.
  intros Hsb F Hmu HP. assert (Hr : room P ∅) by (apply room_empty; lia). split.
  - intros He. apply (balloc_full Hsb F He); [apply not_in_empty_img|done].
  - intros Hne. edestruct (wp_balloc Hsb (Q := λ b s', b ∈ free_set sb V ∧ (∀ k, k ∈ free_set sb V → b ≤ k)
      ∧ fsat rep sb cwd pid s' ic (alloc_view sb b V) (P ∪ {[sb_bmapstart sb]} ∪ {[b]}) ∅) F Hmu Hne)
      as (b & s' & E & Hb & Hlo & F'); [by intros k []%not_in_empty_img|done|pose proof (union_size_1 P (sb_bmapstart sb)); lia|done|].
    pose proof (meta_not_free _ _ _ Hmu Hb) as Hbm. pose proof (fsat_length (sb_bmapstart sb) F) as Hl.
    apply elem_of_free in Hb as Hb'. exists b, s', (alloc_view sb b V), (P ∪ {[sb_bmapstart sb]} ∪ {[b]}).
    split_and!; try done; [lia|unfold alloc_view; by rewrite upd_blk_eq|apply free_alloc; done || lia| |].
    + intros k Hk. apply used_alloc; [done|done|tauto|lia|lia|]. right. by apply Hmu.
    + intros. by apply alloc_view_frame.
Qed.

Lemma balloc_correct_witness :
  ∃ s b s', balloc ROOTDEV s = Ret (b, s') ∧ b ∈ free_set ex_sb ex_fsdisk.
Proof.
  destruct ex_fs_state as [s F]. exists s.
  destruct (balloc_correct (tx_rep ROOTDEV bio_rep 2 1 ex_fsdisk []) ex_sb 0 3 s ex_ic ex_fsdisk ∅) as [_ H].
  - exact ex_sb_ok.
  - exact F.
  - exact ex_meta.
  - rewrite size_empty. lia.
  - destruct H as (b & s' & V' & P' & E & _ & Hb & _); [apply (free_nonempty ex_sb ex_fsdisk 19), ex_free|].
    exists b, s'. split; [exact E|exact Hb].
Defined.

(** C31. When the last reference to an inode without links is dropped, iput
    frees exactly the blocks of the file, marks the inode free on disk and
    forgets the reference; all other blocks and inodes keep their contents. *)
Theorem iput_frees {X} `{!TxOps X} rep `{!RdLaws X ROOTDEV rep} `{!TxLaws X ROOTDEV rep} sb cwd pid away fuel s ic V P m i p :
  sb_ok sb → fsat rep sb cwd pid s ic V P ∅ → ic_rep sb pid V ic m None → ic !! i = Some p → i_ref p = 1 → i_valid p ≠ 0 → i_nlink p = 0 →
  map_ok sb V (i_addrs p) → inode_fmt p → (size P ≤ 25)%nat →
  ∃ s' ic' V' P', iput away fuel i s = Ret (tt, s') ∧ fsat rep sb cwd pid s' ic' V' P' ∅
    ∧ ic_rep sb pid V' ic' (delete (i_inum p) m) None ∧ removed sb V p V'
    ∧ P' ⊆ P ∪ {[sb_bmapstart sb]} ∪ {[IBLOCK (i_inum p) sb]}.
Proof.
  intros Hsb F R Hi Hr Hv Hl Hm Hfmt HP.
  edestruct (wp_iput_last rep sb cwd pid Hsb away fuel s ic V P m i p (λ _ s', ∃ ic' V' P', fsat rep sb cwd pid s' ic' V' P' ∅
    ∧ ic_rep sb pid V' ic' (delete (i_inum p) m) None ∧ removed sb V p V'
    ∧ P' ⊆ P ∪ {[sb_bmapstart sb]} ∪ {[IBLOCK (i_inum p) sb]})) as ([] & s' & E & ic' & V' & P' & H);
    [done..|intros; naive_solver|]. exists s', ic', V', P'. done.
Qed.

(** The file of the example after its name was removed. *)
Definition ex_unlinked : inode := set_i_nlink 0 ex_file.
Definition ex_fsdisk0 : vmap := upd_view ex_sb ex_unlinked ex_fsdisk.

Lemma ex_unlinked_fmt : inode_fmt ex_unlinked.
Proof. destruct (ex_fmt ex_file) as [A1 A2 A3 A4 A5 A6 A7]; [simpl; auto|]. by split. Qed.

Lemma ex_ic_rep0 : ic_rep ex_sb 3 ex_fsdisk0 (<[1%nat := ex_unlinked]> ex_ic) ex_refs None.
Proof.
  rewrite <- (list_insert_insert_eq ex_ic 1 ex_unlinked (set_i_valid 0 ex_unlinked)).
  eapply (ic_same ex_sb 3 ex_fsdisk0 _ ex_refs None None 1 (set_i_valid 0 ex_unlinked));
    [|reflexivity|reflexivity|reflexivity|reflexivity|reflexivity|done|reflexivity|].
  - eapply ic_view; [eapply (ic_same ex_sb 3 ex_fsdisk ex_ic ex_refs None None 1 ex_file);
      [apply ex_ic_rep|reflexivity|reflexivity|reflexivity|reflexivity|reflexivity|done|reflexivity|]|].
    { intros Hv. destruct Hv. reflexivity. }
    intros [|[|i]] p Hi Hr Hv.
    + injection Hi as <-. destruct Hv. reflexivity.
    + injection Hi as <-. destruct Hv. reflexivity.
    + change (replicate 48 no_inode !! i = Some p) in Hi. apply lookup_replicate in Hi as [-> _]. discriminate Hr.
  - intros _. symmetry. apply (upd_view_synced ex_sb ex_unlinked ex_fsdisk); [apply ex_fsdisk_length|apply ex_unlinked_fmt|discriminate].
Qed.

Lemma iput_frees_witness :
  ∃ s s' V', iput (ret tt) 0 1 s = Ret (tt, s') ∧ removed ex_sb ex_fsdisk0 ex_unlinked V'.
Proof.
  destruct (ex_state ex_fsdisk0 (<[1%nat := ex_unlinked]> ex_ic)) as [s F].
  { intros k. unfold ex_fsdisk0, upd_view, upd_blk. case_decide; rewrite ?put_dinode_length; apply ex_fsdisk_length. }
  { reflexivity. }
  exists s. destruct (iput_frees (tx_rep ROOTDEV bio_rep 2 1 ex_fsdisk0 []) ex_sb 0 3 (ret tt) 0 s (<[1%nat := ex_unlinked]> ex_ic) ex_fsdisk0 ∅ ex_refs 1 ex_unlinked)
    as (s' & ic' & V' & P' & E & _ & _ & H & _).
  - exact ex_sb_ok.
  - exact F.
  - exact ex_ic_rep0.
  - reflexivity.
  - reflexivity.
  - discriminate.
  - reflexivity.
  - apply map_ok_meta; [reflexivity|]. apply ex_map_ok. by right.
  - exact ex_unlinked_fmt.
  - rewrite size_empty. lia.
  - exists s', V'. split; [exact E|exact H].
Defined.

(** ialloc takes the free inode with the lowest number, gives it the type
    and zeroes the rest of it on disk, and returns a cache entry that
    refers to it; the other inodes are unchanged. *)
Theorem ialloc_correct {X} `{!TxOps X} rep `{!RdLaws X ROOTDEV rep} `{!TxLaws X ROOTDEV rep} sb cwd pid s ic V P m type :
  sb_ok sb → fsat rep sb cwd pid s ic V P ∅ → ic_rep sb pid V ic m None → (∀ b, Forall (λ x, 0 ≤ x < 256) (V b)) →
  is_short type → (size P ≤ 28)%nat → (size m < 50)%nat →
  (∃ x, 1 ≤ x < sb_ninodes sb ∧ i_type (dino sb V x) = 0) →
  (∀ x, 1 ≤ x < sb_ninodes sb → i_type (dino sb V x) = 0 → m !! x = None) →
  ∃ i s' ic' p n V' P', ialloc ROOTDEV type s = Ret (i, s') ∧ fsat rep sb cwd pid s' ic' V' P' ∅
    ∧ 1 ≤ n < sb_ninodes sb ∧ i_type (dino sb V n) = 0 ∧ (∀ y, 1 ≤ y < n → i_type (dino sb V y) ≠ 0)
    ∧ on_disk (dino sb V' n) = (type, 0, 0, 0, 0, replicate 13 0) ∧ (∀ y, 0 ≤ y → y ≠ n → dino sb V' y = dino sb V y)
    ∧ ic' !! i = Some p ∧ i_inum p = n ∧ ic_rep sb pid V' ic' (inc n m) None.
Proof.
  intros Hsb F R HB Ht HP Hm Hex Hfree. pose proof (so_ninodes _ Hsb).
  assert (E0 : ialloc ROOTDEV type s = ialloc_loop (Z.to_nat (sb_ninodes sb - 1)) ROOTDEV type 1 s).
  { unfold ialloc, bind, get. by rewrite (at_sb F). }
  edestruct (wp_ialloc_loop rep sb cwd pid Hsb type Ht (Z.to_nat (sb_ninodes sb - 1)) s ic V P m 1 (λ i s', ∃ ic' p n,
    fsat rep sb cwd pid s' ic' (fresh_view sb n type V) (P ∪ {[IBLOCK n sb]}) ∅
    ∧ 1 ≤ n < sb_ninodes sb ∧ i_type (dino sb V n) = 0 ∧ (∀ y, 1 ≤ y < n → i_type (dino sb V y) ≠ 0)
    ∧ ic' !! i = Some p ∧ i_inum p = n ∧ ic_rep sb pid (fresh_view sb n type V) ic' (inc n m) None) F R HB)
    as (i & s' & E & ic' & p & n & F' & Hn & Hn0 & Hlo & Hi & Ei & R'); [lia|lia|done|done|done|done|intros; naive_solver|].
  exists i, s', ic', p, n, (fresh_view sb n type V), (P ∪ {[IBLOCK n sb]}). split_and!; try done; try lia.
  - by rewrite E0.
  - unfold dino, fresh_view. rewrite upd_blk_eq. apply fresh_dinode; [|done]. rewrite (fsat_length _ F). apply dinode_off_range. lia.
  - intros y Hy Hne. apply fresh_other; [apply (λ k, fsat_length k F)|lia|done|done].
Qed.

Lemma ex_fsdisk_bytes k : Forall (λ x, 0 ≤ x < 256) (ex_fsdisk k).
Proof.
  unfold ex_fsdisk. repeat match goal with |- context [Z.eqb k ?x] => destruct (Z.eqb k x) end;
    apply (bool_decide_unpack _); vm_compute; exact I.
Qed.

Lemma ialloc_correct_witness :
  ∃ s i s' V', ialloc ROOTDEV T_FILE s = Ret (i, s') ∧ on_disk (dino ex_sb V' 3) = (T_FILE, 0, 0, 0, 0, replicate 13 0).
Proof.
  destruct ex_fs_state as [s F]. exists s.
  destruct (ialloc_correct (tx_rep ROOTDEV bio_rep 2 1 ex_fsdisk []) ex_sb 0 3 s ex_ic ex_fsdisk ∅ ex_refs T_FILE)
    as (i & s' & ic' & p & n & V' & P' & E & _ & Hn & Hn0 & Hlo & Hd & _).
  - exact ex_sb_ok.
  - exact F.
  - exact ex_ic_rep.
  - exact ex_fsdisk_bytes.
  - unfold is_short, T_FILE. lia.
  - rewrite size_empty. lia.
  - vm_compute. lia.
  - exists 3. split; [simpl; lia|vm_compute; reflexivity].
  - intros x Hx. simpl in Hx. pose proof (ex_dino x ltac:(lia)) as Ex. intros H0. unfold ex_refs.
    rewrite lookup_insert_ne, lookup_singleton_ne; [done| |]; intros <-; revert H0; vm_compute; discriminate.
  - assert (n = 3) as ->; [|exists i, s', V'; split; [exact E|exact Hd]].
    simpl in Hn. destruct (decide (n = 3)); [done|]. destruct (decide (3 < n)) as [Hgt|Hle].
    + exfalso. apply (Hlo 3); [lia|]. vm_compute. reflexivity.
    + exfalso. assert (n = 1 ∨ n = 2) as [-> | ->] by lia; revert Hn0; vm_compute; discriminate.
Defined.
