(* ===== verification/File.v ===== *)
(** Open files, file.c, with the part of pipe.c that allocates and closes
    pipes.

    A struct file is an index into ftable, a pipe is the address of its
    page, and the free pages of the allocator are a list (what Kalloc proves
    of it).  ftable.lock and the pipe locks make the accesses atomic;
    [paway] is what happens while a process sleeps on a pipe.  Bytes that
    the C code stores through [addr] are results. *)

From S2P Require Import Prelude Params Bytes Sleeplock Pipe BufCache Log Tx Fs.

Inductive ftype : Type := FD_NONE | FD_PIPE | FD_INODE.
#[export] Instance ftype_eq_dec : EqDecision ftype.
Proof. solve_decision. Defined.

Record file : Type := MkFile {
  f_type : ftype;
  f_ref : Z;
  f_readable : Z;
  f_writable : Z;
  f_pipe : Z;
  f_ip : nat;
  f_off : Z
}.

Definition set_f_type (x : ftype) (f : file) : file :=
  MkFile x (f_ref f) (f_readable f) (f_writable f) (f_pipe f) (f_ip f) (f_off f).
Definition set_f_ref (x : Z) (f : file) : file :=
  MkFile (f_type f) x (f_readable f) (f_writable f) (f_pipe f) (f_ip f) (f_off f).
Definition set_f_off (x : Z) (f : file) : file :=
  MkFile (f_type f) (f_ref f) (f_readable f) (f_writable f) (f_pipe f) (f_ip f) x.
Definition set_f_pipe (readable writable pi : Z) (f : file) : file :=
  MkFile FD_PIPE (f_ref f) readable writable pi (f_ip f) (f_off f).
Definition set_f_inode (readable writable : Z) (ip : nat) (f : file) : file :=
  MkFile FD_INODE (f_ref f) readable writable (f_pipe f) ip 0.

Record kst (X : Type) : Type := MkKst {
  ftable : list file;            (* NFILE entries *)
  pipes : gmap Z pipe;           (* the pages that hold a pipe *)
  pages : list Z;                (* the free pages *)
  killed : Z;                    (* myproc()->killed *)
  kfs : fss X                    (* the file system *)
}.
Arguments MkKst {X}.
Arguments ftable {X}.
Arguments pipes {X}.
Arguments pages {X}.
Arguments killed {X}.
Arguments kfs {X}.

Definition set_ftable {X} (x : list file) (s : kst X) : kst X := MkKst x (pipes s) (pages s) (killed s) (kfs s).
Definition set_pipes {X} (x : gmap Z pipe) (s : kst X) : kst X := MkKst (ftable s) x (pages s) (killed s) (kfs s).
Definition set_pages {X} (x : list Z) (s : kst X) : kst X := MkKst (ftable s) (pipes s) x (killed s) (kfs s).

Definition on_fs {X A} (c : M (fss X) A) : M (kst X) A := λ s,
  match c (kfs s) with
  | Ret (a, x) => Ret (a, MkKst (ftable s) (pipes s) (pages s) (killed s) x)
  | Panic m => Panic m
  | Undef => Undef
  | OutOfFuel => OutOfFuel
  end.

Definition getf {X} (i : nat) : M (kst X) file := s <- get ;; of_option (ftable s !! i).
Definition updf {X} (i : nat) (g : file → file) : M (kst X) unit :=
  f <- getf i ;; modify (λ s, set_ftable (<[i := g f]> (ftable s)) s).
Definition getp {X} (pi : Z) : M (kst X) pipe := s <- get ;; of_option (pipes s !! pi).
Definition putp {X} (pi : Z) (p : pipe) : M (kst X) unit := modify (λ s, set_pipes (<[pi := p]> (pipes s)) s).

(** The first entry with no references. *)
Fixpoint free_file (l : list file) (i : nat) : option nat :=
  match l with
  | [] => None
  | f :: l' => if f_ref f =? 0 then Some i else free_file l' (S i)
  end.

(** The most that filewrite gives to one transaction. *)
Definition max_write : Z := (MAXOPBLOCKS - 1 - 1 - 2) / 2 * 512.

Section file_code.
Context {X : Type} `{!TxOps X} `{!TxCtl X}.
Context (away : M (fss X) unit) (fuel : nat) (paway : M (kst X) unit).
Context (dev_read : Z → option (nat → Z → M (fss X) (Z * list Z))).
Context (dev_write : Z → option (nat → list Z → M (fss X) Z)).

Definition filealloc : M (kst X) (option nat) :=
  s <- get ;;
  match free_file (ftable s) 0 with
  | Some i => updf i (set_f_ref 1) ;;; ret (Some i)
  | None => ret None
  end.

Definition filedup (i : nat) : M (kst X) nat :=
  f <- getf i ;;
  if f_ref f <? 1 then panic "filedup" else
  updf i (set_f_ref (f_ref f + 1)) ;;; ret i.

(** ** Pipes *)

(** kalloc and kfree. *)
Definition kalloc_page : M (kst X) (option Z) :=
  s <- get ;;
  match pages s with
  | [] => ret None
  | a :: l => modify (set_pages l) ;;; ret (Some a)
  end.
Definition kfree_page (a : Z) : M (kst X) unit := modify (λ s, set_pages (a :: pages s) s).

Definition close_pipe (pi : Z) (writable : bool) : M (kst X) unit :=
  p <- getp pi ;;
  let '(p', last) := pipeclose writable p in
  if (last : bool) then modify (λ s, set_pipes (delete pi (pipes s)) s) ;;; kfree_page pi
  else putp pi p'.

(** piperead and pipewrite with their waits. *)
Fixpoint piperead (f : nat) (pi n : Z) : M (kst X) (Z * list Z) :=
  p <- getp pi ;;
  s <- get ;;
  match piperead_try (negb (killed s =? 0)) (Z.to_nat n) p with
  | (RDone bs, p') => putp pi p' ;;; ret (Z.of_nat (length bs), bs)
  | (RFail, p') => putp pi p' ;;; ret (-1, [])
  | (RSleep, p') => putp pi p' ;;; match f with O => out_of_fuel | S f' => paway ;;; piperead f' pi n end
  end.

Fixpoint pipewrite (f : nat) (pi n : Z) (todo : list Z) : M (kst X) Z :=
  p <- getp pi ;;
  s <- get ;;
  match pipewrite_loop (negb (killed s =? 0)) todo p with
  | (WDone, p') => putp pi p' ;;; ret n
  | (WFail _, p') => putp pi p' ;;; ret (-1)
  | (WSleep todo, p') => putp pi p' ;;; match f with O => out_of_fuel | S f' => paway ;;; pipewrite f' pi n todo end
  end.

(** ** Operations on an open file *)

Definition fileclose (i : nat) : M (kst X) unit :=
  f <- getf i ;;
  if f_ref f <? 1 then panic "fileclose" else
  let ff := set_f_ref (f_ref f - 1) f in
  if 0 <? f_ref ff then updf i (λ _, ff) else
  updf i (λ _, set_f_type FD_NONE (set_f_ref 0 ff)) ;;;
  match f_type ff with
  | FD_PIPE => close_pipe (f_pipe ff) (negb (f_writable ff =? 0))
  | FD_INODE =>
      on_fs (on_fx t_begin_op) ;;;
      on_fs (iput away fuel (f_ip ff)) ;;;
      on_fs (on_fx t_end_op)
  | FD_NONE => ret tt
  end.

Definition filestat (i : nat) : M (kst X) (Z * option stat) :=
  f <- getf i ;;
  match f_type f with
  | FD_INODE =>
      on_fs (ilock away fuel (f_ip f)) ;;;
      st <- on_fs (stati (f_ip f)) ;;
      on_fs (iunlock (f_ip f)) ;;;
      ret (0, Some st)
  | _ => ret (-1, None)
  end.

Definition fileread (i : nat) (n : Z) : M (kst X) (Z * list Z) :=
  f <- getf i ;;
  if f_readable f =? 0 then ret (-1, []) else
  match f_type f with
  | FD_PIPE => piperead fuel (f_pipe f) n
  | FD_INODE =>
      on_fs (ilock away fuel (f_ip f)) ;;;
      r <- on_fs (readi dev_read (f_ip f) (f_off f) n) ;;
      (if 0 <? r.1 then updf i (λ f, set_f_off (u32 (f_off f + r.1)) f) else ret tt) ;;;
      on_fs (iunlock (f_ip f)) ;;;
      ret r
  | FD_NONE => panic "fileread"
  end.

(** One transaction of filewrite: writes [src] at the file's offset. *)
Definition write_chunk (i : nat) (src : list Z) : M (kst X) Z :=
  f <- getf i ;;
  on_fs (on_fx t_begin_op) ;;;
  on_fs (ilock away fuel (f_ip f)) ;;;
  r <- on_fs (writei dev_write (f_ip f) src (f_off f)) ;;
  (if 0 <? r then updf i (λ f, set_f_off (u32 (f_off f + r)) f) else ret tt) ;;;
  on_fs (iunlock (f_ip f)) ;;;
  on_fs (on_fx t_end_op) ;;;
  ret r.

(** The loop, for the bytes [src] still to write; it ends with the number
    of bytes left. *)
Fixpoint filewrite_loop (fu i : nat) (src : list Z) : M (kst X) Z :=
  match src with
  | [] => ret 0
  | _ =>
      match fu with
      | O => out_of_fuel
      | S fu' =>
          let n1 := Z.min (Z.of_nat (length src)) max_write in
          r <- write_chunk i (take (Z.to_nat n1) src) ;;
          if r <? 0 then ret (Z.of_nat (length src)) else
          if negb (r =? n1) then panic "short filewrite" else
          filewrite_loop fu' i (drop (Z.to_nat r) src)
      end
  end.

Definition filewrite (i : nat) (src : list Z) : M (kst X) Z :=
  f <- getf i ;;
  if f_writable f =? 0 then ret (-1) else
  match f_type f with
  | FD_PIPE => pipewrite fuel (f_pipe f) (Z.of_nat (length src)) src
  | FD_INODE =>
      left <- filewrite_loop (length src) i src ;;
      ret (if left =? 0 then Z.of_nat (length src) else -1)
  | FD_NONE => panic "filewrite"
  end.

(** pipe.c: pipealloc; the two ends, or nothing. *)
Definition pipealloc (junk : list Z) : M (kst X) (option (nat * nat)) :=
  f0 <- filealloc ;;
  match f0 with
  | None => ret None
  | Some f0 =>
      f1 <- filealloc ;;
      match f1 with
      | None => fileclose f0 ;;; ret None
      | Some f1 =>
          p <- kalloc_page ;;
          match p with
          | None => fileclose f0 ;;; fileclose f1 ;;; ret None
          | Some p =>
              putp p (new_pipe junk) ;;;
              updf f0 (set_f_pipe 1 0 p) ;;;
              updf f1 (set_f_pipe 0 1 p) ;;;
              ret (Some (f0, f1))
          end
      end
  end.
End file_code.
