(* ===== verification/FileAt.v ===== *)
(** Reasoning about file.c: lifting the rules of the file system, and the
    transactions around them. *)

From S2P Require Import Prelude Params Bytes Sleeplock Pipe BufCache Log LogProps Tx Fs File.
From S2P Require Import FsAt FsAlloc FsMap FsFile FsInode FsDir FsCache FsPath FsTrunc FsContents.

Definition set_kfs {X} (x : fss X) (s : kst X) : kst X := MkKst (ftable s) (pipes s) (pages s) (killed s) x.

Lemma wp_on_fs {X A} (c : M (fss X) A) (s : kst X) (Q : A → kst X → Prop) :
  wp c (kfs s) (λ a x, Q a (set_kfs x s)) → wp (on_fs c) s Q.
Proof. intros (a & x & E & H). exists a, (set_kfs x s). split; [|done]. unfold on_fs. by rewrite E. Qed.

Lemma getf_run {X} (s : kst X) i f : ftable s !! i = Some f → getf i s = Ret (f, s).
Proof. intros Hi. unfold getf, bind, get. by rewrite Hi. Qed.

Lemma updf_run {X} (s : kst X) i f g :
  ftable s !! i = Some f → updf i g s = Ret (tt, set_ftable (<[i := g f]> (ftable s)) s).
Proof. intros Hi. unfold updf. by rewrite (bind_ret_eval _ _ _ _ _ (getf_run _ _ _ Hi)). Qed.

Lemma getpipe_run {X} (s : kst X) pi p : pipes s !! pi = Some p → getp pi s = Ret (p, s).
Proof. intros Hi. unfold getp, bind, get. by rewrite Hi. Qed.

Lemma wp_getf {X} (s : kst X) i f (Q : file → kst X → Prop) : ftable s !! i = Some f → Q f s → wp (getf i) s Q.
Proof. intros Hi HQ. exists f, s. split; [|done]. unfold getf, bind, get. by rewrite Hi. Qed.

Lemma wp_updf {X} (s : kst X) i f g (Q : unit → kst X → Prop) :
  ftable s !! i = Some f → Q tt (set_ftable (<[i := g f]> (ftable s)) s) → wp (updf i g) s Q.
Proof. intros Hi HQ. apply wp_bind, (wp_getf _ _ _ _ Hi). by apply wp_modify. Qed.

Section ctl.
Context {X : Type} `{!TxOps X} `{!TxCtl X}.
Context (idle opened : (Z → list Z) → list (Z * list Z) → X → acache → Prop) (recovered : (Z → list Z) → Z → list Z).
Context `{!TxCtlLaws X ROOTDEV idle opened recovered}.
Context (sb : superblock) (cwd : nat) (pid : Z).

(** Between system calls, with disk [D] and the writes [ws] behind it; the
    file system sees the blocks [V]. *)
Definition at_rest (s : fss X) (ic : list inode) (D : vmap) (ws : list (Z * list Z)) (V : vmap) : Prop :=
  fsat (idle D ws) sb cwd pid s ic V ∅ ∅.

(** In a transaction that began with the view [V0]. *)
Definition in_tx (s : fss X) (ic : list inode) (D : vmap) (ws : list (Z * list Z)) (V0 V : vmap) (P : gset Z) : Prop :=
  fsat (since (opened D ws) V0) sb cwd pid s ic V P ∅.

Lemma rest_recovered s ic D ws V k : at_rest s ic D ws V → LOGEND ≤ k < FSSIZE → recovered D k = V k.
Proof.
  intros [_ _ _ _ (a & R & Hv & Hp & _ & Hc)] Hk. rewrite (cl_recovered D ws (fx s) a k R Hk), <- Hv. symmetry. apply Hc. set_solver.
Qed.

Lemma wp_begin_op s ic D ws V (Q : unit → fss X → Prop) :
  at_rest s ic D ws V → (∀ s', in_tx s' ic D ws V V ∅ → Q tt s') → wp (on_fx t_begin_op) s Q.
Proof.
  intros [H1 H2 H3 H4 (a & R & Hv & Hp & Hh & Hc)] HQ. destruct (cl_begin D ws (fx s) a R Hp) as (x & E & R').
  exists tt, (MkFss (fsb s) (icache s) (f_cwd s) (f_pid s) x). split; [unfold on_fx; by rewrite E|].
  apply HQ. split; simpl; try done. exists a. split_and!; try done. split; [done|]. intros k. rewrite <- Hv. symmetry. apply Hc. set_solver.
Qed.

Lemma wp_end_op s ic D ws V0 V P (Q : unit → fss X → Prop) :
  in_tx s ic D ws V0 V P →
  (∀ s' w, at_rest s' ic (apply_writes w D) (ws ++ w) V → crash_safe recovered D w V0 V → Q tt s') →
  wp (on_fx t_end_op) s Q.
Proof.
  intros [H1 H2 H3 H4 (a & [R Hd] & Hv & Hp & Hh & Hc)] HQ.
  destruct (cl_end D ws (fx s) a R Hh) as (x & w & E & R' & C); [intros k Hk; apply Hc; congruence|].
  exists tt, (MkFss (fsb s) (icache s) (f_cwd s) (f_pid s) x). split; [unfold on_fx; by rewrite E|].
  apply (HQ _ w).
  - split; simpl; try done. eexists. split_and!; [exact R'|done..].
  - intros j. destruct (C j) as [C'|C']; [left|right]; intros k Hk; by rewrite C', ?Hd, ?Hv.
Qed.
End ctl.
