(* ===== verification/FileWrite.v ===== *)
(** filewrite: a write in pieces that fit into a transaction each. *)

From S2P Require Import Prelude Params Bytes Sleeplock Pipe BufCache Log LogProps Tx Fs File.
From S2P Require Import FsAt FsAlloc FsMap FsFile FsInode FsDir FsCache FsPath FsTrunc FsContents FileAt.

(** [max_write] bytes span four blocks at most. *)
Lemma span_max o n : Z.of_nat n ≤ max_write → (span o n ≤ 4)%nat.
Proof.
  change max_write with 1536. intros Hn. unfold span. case_decide; [lia|]. pose proof (Nat.mod_upper_bound o 512).
  apply Nat.lt_succ_r, Nat.Div0.div_lt_upper_bound. lia.
Qed.

Section write.
Context {X : Type} `{!TxOps X} `{!TxCtl X}.
Context (idle opened : (Z → list Z) → list (Z * list Z) → X → acache → Prop) (recovered : (Z → list Z) → Z → list Z).
Context `{!TxCtlLaws X ROOTDEV idle opened recovered}.
Context (sb : superblock) (cwd : nat) (pid : Z) (Hsb : sb_ok sb).
Context (away : M (fss X) unit) (fuel : nat) (paway : M (kst X) unit).
Context (dev_read : Z → option (nat → Z → M (fss X) (Z * list Z))).
Context (dev_write : Z → option (nat → list Z → M (fss X) Z)).
Abbreviation at_rest := (at_rest idle sb cwd pid).
Abbreviation ic_rep := (ic_rep sb pid).
Abbreviation dino := (dino sb).
Abbreviation regular := (regular sb).
Abbreviation stored := (stored sb).
Abbreviation fcontents := (fcontents sb).

(** Entry [ip] of the cache is a referenced file or directory, inode [n]. *)
Record file_in (V : vmap) (ic : list inode) (ip : nat) (n : Z) : Prop := {
  fi_entry : ∃ p, ic !! ip = Some p ∧ 0 < i_ref p ∧ i_inum p = n;
  fi_type : i_type (dino V n) ≠ 0;
  fi_reg : regular V n;
  fi_meta : meta_used sb V
}.

Lemma wp_write_chunk s i f ic D ws V m n o src (Q : Z → kst X → Prop) :
  ftable s !! i = Some f → f_off f = Z.of_nat o →
  at_rest (kfs s) ic D ws V → ic_rep V ic m None → file_in V ic (f_ip f) n →
  (o ≤ length (fcontents V n))%nat → Z.of_nat (o + length src) ≤ 71680 → (0 < length src)%nat → Z.of_nat (length src) ≤ max_write →
  (4 + need (i_addrs (dino V n)) ≤ size (free_set sb V))%nat →
  (∀ s' ic' V' w, ftable s' = <[i := set_f_off (Z.of_nat (o + length src)) f]> (ftable s) →
     at_rest (kfs s') ic' (apply_writes w D) (ws ++ w) V' → ic_rep V' ic' m None → file_in V' ic' (f_ip f) n →
     stored n o src V V' → crash_safe recovered D w V V' →
     (size (free_set sb V) + need (i_addrs (dino V' n)) ≤ size (free_set sb V') + 4 + need (i_addrs (dino V n)))%nat →
     Q (Z.of_nat (length src)) s') →
  wp (write_chunk away fuel dev_write i src) s Q.
Proof.
  intros Hi Ho F R [(p & Hp & Hr & Hn) Ht Hreg Hmu] Hol Hlen Hpos Hmax Hfree HQ. unfold write_chunk.
  apply wp_bind, (wp_getf _ _ _ _ Hi), wp_bind, wp_on_fs, (wp_begin_op _ _ _ sb cwd pid _ _ _ _ _ _ F). intros s1 F1. unfold in_tx in F1.
  apply wp_bind, wp_on_fs. simpl.
  apply (wp_ilock _ sb cwd pid Hsb away fuel s1 ic V ∅ m (f_ip f) p _ F1 R Hp Hr); [by rewrite Hn|rewrite size_empty; lia|].
  intros ic1 p1 s2 F2 R2 Hp1 Hd1 Hn1 Hr1 E1 _. rewrite Hn in Hn1, E1. rewrite Ho.
  destruct (copy_file sb V n p1 Hreg) as (Hf1 & Hfmt1 & Hsy1); [by split_and!|].
  apply on_disk_eq in E1 as E1'. destruct E1' as (_ & _ & _ & _ & E5 & E6). rewrite fcontents_length in Hol.
  pose proof (span_max o (length src) Hmax) as Hspan. pose proof (fo_size _ _ _ Hf1).
  apply wp_bind, wp_on_fs. simpl.
  apply (wp_writei _ sb cwd pid Hsb dev_write s2 ic1 V ∅ (f_ip f) p1 src o _ F2 Hp1 Hf1 Hfmt1 Hsy1 Hmu); [lia|done|rewrite size_empty; lia| |].
  { right. rewrite E6. lia. }
  intros s3 V3 p3 P3 F3 W. rewrite (proj2 (Z.ltb_lt 0 _)) by lia.
  apply wp_bind, (wp_updf _ _ f); [exact Hi|]. rewrite Ho, u32_of by lia.
  apply wp_bind, wp_on_fs. simpl.
  assert (Hlt : (f_ip f < length ic1)%nat) by (by eapply lookup_lt_Some).
  pose proof (ic_written sb pid V ic1 m (Some (f_ip f)) (f_ip f) p1 o src ∅ V3 p3 P3 R2 Hp1 ltac:(lia) W) as R3.
  assert (S : stored n o src V V3) by (eapply (written_stored sb Hsb); [done| | |exact W]; [by split_and!|lia]).
  assert (i_ref p3 = i_ref p1 ∧ i_inum p3 = i_inum p1) as [Hr3 Hn3] by (rewrite (wn_inode _ _ _ _ _ _ _ _ _ W); done).
  apply (wp_iunlock _ sb cwd pid s3 _ V3 P3 ∅ m (f_ip f) p3 _ F3 R3); [by apply list_lookup_insert_eq|lia|].
  intros ic4 p4 s4 F4 R4 _ Hp4 Hn4 Hr4.
  apply wp_bind, wp_on_fs. simpl. apply (wp_end_op _ _ recovered sb cwd pid _ _ _ _ _ _ _ _ F4). intros s5 w F5 C. apply wp_ret.
  destruct (written_copy sb V p1 n o src ∅ V3 p3 P3 ltac:(by split_and!) W) as (_ & _ & E3).
  apply on_disk_eq in E3 as (_ & _ & _ & _ & _ & E36). pose proof (wn_free _ _ _ _ _ _ _ _ _ W) as Hfr. rewrite E6, E36 in Hfr.
  eapply (HQ _ ic4 V3 w); [|exact F5|done| |done|done|].
  - simpl. do 2 f_equal. lia.
  - destruct S as [S1 S2 S3 [S4 _] S5]. split; [|by rewrite S4|done|done]. exists p4. split_and!; [done|lia|congruence].
  - lia.
Qed.

(** The blocks that are left. *)
Definition blocks_left (V : vmap) (n : Z) : Z := Z.of_nat (size (free_set sb V)) - Z.of_nat (need (i_addrs (dino V n))).

(** After a crash during the writes [w], the file holds a first part of
    [src], everything of some transactions and nothing of the others. *)
Definition part_written (n : Z) (o : nat) (src : list Z) (D : vmap) (w : list (Z * list Z)) (V : vmap) : Prop :=
  ∀ j, ∃ k V', (k ≤ length src)%nat ∧ ((max_write | Z.of_nat k) ∨ k = length src) ∧ stored n o (take k src) V V'
    ∧ ∀ b, LOGEND ≤ b < FSSIZE → recovered (apply_writes (take j w) D) b = V' b.

Lemma part_written_step n o a src D V V1 w w' :
  Z.of_nat (length a) = max_write ∨ src = [] → (o ≤ length (fcontents V n))%nat → regular V n → meta_used sb V →
  stored n o a V V1 → crash_safe recovered D w V V1 → part_written n (o + length a) src (apply_writes w D) w' V1 →
  part_written n o (a ++ src) D (w ++ w') V.
Proof.
  intros Ha Ho Hr Hmu S C Pw j. rewrite length_app. destruct (decide (j ≤ length w)%nat) as [Hj|Hj].
  - rewrite take_app_le by done. destruct (C j) as [C'|C'].
    + exists 0%nat, V. rewrite take_0. split_and!; [lia|left; apply Z.divide_0_r|by apply stored_nil|done].
    + exists (length a), V1. rewrite take_app_length. split_and!; [lia| |done|done].
      destruct Ha as [->| ->]; [left; apply Z.divide_refl|right; simpl; lia].
  - rewrite take_app_ge by lia. rewrite apply_writes_app. destruct (Pw (j - length w)%nat) as (k & V' & Hk & Hd & S' & E).
    exists (length a + k)%nat, V'. rewrite take_app_add. split_and!; [lia| |by eapply stored_trans|done].
    destruct Ha as [Ha| ->]; [|right; simpl in *; lia]. destruct Hd as [Hd| ->]; [left|right; lia].
    rewrite Nat2Z.inj_add, Ha. apply Z.divide_add_r; [apply Z.divide_refl|done].
Qed.

Lemma part_written_nil s n o ic D ws V : at_rest s ic D ws V → regular V n → meta_used sb V → part_written n o [] D [] V.
Proof.
  intros F Hr Hmu j. exists 0%nat, V. rewrite !take_nil. split_and!; [done|by right|by apply stored_nil|].
  intros b Hb. by apply (rest_recovered idle opened recovered sb cwd pid s ic D ws).
Qed.

Lemma wp_filewrite_loop n m i : ∀ fu s f ic D ws V o src (Q : Z → kst X → Prop),
  ftable s !! i = Some f → f_off f = Z.of_nat o →
  at_rest (kfs s) ic D ws V → ic_rep V ic m None → file_in V ic (f_ip f) n →
  (o ≤ length (fcontents V n))%nat → Z.of_nat (o + length src) ≤ 71680 → (length src ≤ fu)%nat →
  4 * ((Z.of_nat (length src) + max_write - 1) / max_write) ≤ blocks_left V n →
  (∀ s' ic' V' w, ftable s' = <[i := set_f_off (Z.of_nat (o + length src)) f]> (ftable s) →
     at_rest (kfs s') ic' (apply_writes w D) (ws ++ w) V' → ic_rep V' ic' m None → file_in V' ic' (f_ip f) n →
     stored n o src V V' → part_written n o src D w V → Q 0 s') →
  wp (filewrite_loop away fuel dev_write fu i src) s Q.
Proof.
  induction fu as [|fu IH]; intros s f ic D ws V o src Q Hi Ho F R Hin Hol Hlen Hfu Hfree HQ.
  1: assert (src = []) as -> by (apply length_zero_iff_nil; lia).
  2: destruct (decide (src = [])) as [->|Hne].
  1, 2: simpl; apply wp_ret, (HQ s ic V []); rewrite ?app_nil_r; try done;
    [rewrite Nat.add_0_r; replace (set_f_off (Z.of_nat o) f) with f by (rewrite <- Ho; by destruct f); by rewrite list_insert_id
    |apply stored_nil; apply Hin|eapply part_written_nil; [exact F|apply Hin|apply Hin]].
  assert (Hpos : (0 < length src)%nat) by (destruct src; [done|simpl; lia]).
  set (n1 := Z.min (Z.of_nat (length src)) max_write). assert (Hn1 : 0 < n1 ≤ Z.of_nat (length src) ∧ n1 ≤ 1536) by (unfold n1; change max_write with 1536; lia).
  assert (E : filewrite_loop away fuel dev_write (S fu) i src =
    (r <- write_chunk away fuel dev_write i (take (Z.to_nat n1) src) ;;
     if r <? 0 then ret (Z.of_nat (length src)) else
     if negb (r =? n1) then panic "short filewrite" else filewrite_loop away fuel dev_write fu i (drop (Z.to_nat r) src))) by (by destruct src).
  rewrite E. clear E. assert (Ht : Z.of_nat (length (take (Z.to_nat n1) src)) = n1) by (rewrite length_take; lia).
  assert (Hfr : 4 + 4 * ((Z.of_nat (length src - Z.to_nat n1) + max_write - 1) / max_write) ≤ blocks_left V n).
  { etransitivity; [|exact Hfree]. change max_write with 1536 in *. destruct (decide (1536 ≤ Z.of_nat (length src))).
    - replace n1 with 1536 by (unfold n1; lia). rewrite Nat2Z.inj_sub by lia. change (Z.of_nat (Z.to_nat 1536)) with 1536.
      replace (Z.of_nat (length src) + 1536 - 1) with (Z.of_nat (length src) - 1536 + 1536 - 1 + 1 * 1536) by lia.
      rewrite Z.div_add by lia. lia.
    - replace (length src - Z.to_nat n1)%nat with 0%nat by lia. change ((Z.of_nat 0 + 1536 - 1) / 1536) with 0.
      assert (1 ≤ (Z.of_nat (length src) + 1536 - 1) / 1536) by (apply Z.div_le_lower_bound; lia). lia. }
  unfold blocks_left in Hfr, Hfree. apply wp_bind, (wp_write_chunk s i f ic D ws V m n o _ _ Hi Ho F R Hin); [done|lia|lia|rewrite Ht; change max_write with 1536; lia| |].
  { pose proof (Z.div_pos (Z.of_nat (length src - Z.to_nat n1) + max_write - 1) max_write ltac:(change max_write with 1536; lia) eq_refl). lia. }
  intros s1 ic1 V1 w T1 F1 R1 Hin1 S1 C1 G1. rewrite Ht. destruct (Z.ltb_spec n1 0); [lia|]. rewrite Z.eqb_refl. cbn [negb].
  assert (Hl1 : length (fcontents V1 n) = Nat.max (length (fcontents V n)) (o + length (take (Z.to_nat n1) src))).
  { rewrite (st_contents _ _ _ _ _ _ S1). unfold splice. rewrite !length_app, !length_take, length_drop. lia. }
  eapply (IH s1 (set_f_off (Z.of_nat (o + length (take (Z.to_nat n1) src))) f) ic1 _ _ V1 _ _ _); [|reflexivity|exact F1|exact R1|exact Hin1|lia|..].
  - rewrite T1. apply list_lookup_insert_eq. by eapply lookup_lt_Some.
  - rewrite length_drop. lia.
  - rewrite length_drop. lia.
  - rewrite length_drop. unfold blocks_left. lia.
  - intros s2 ic2 V2 w2 T2 F2 R2 Hin2 S2 P2.
    assert (Ha : Z.of_nat (length (take (Z.to_nat n1) src)) = max_write ∨ drop (Z.to_nat n1) src = []).
    { rewrite Ht. destruct (decide (n1 = max_write)); [by left|right]. apply drop_ge. unfold n1 in *. lia. }
    apply (HQ s2 ic2 V2 (w ++ w2)).
    + rewrite T2, T1, list_insert_insert_eq. rewrite length_drop. f_equal. unfold set_f_off. simpl. f_equal. lia.
    + rewrite apply_writes_app, app_assoc. exact F2.
    + done.
    + done.
    + rewrite <- (take_drop (Z.to_nat n1) src). by eapply stored_trans.
    + rewrite <- (take_drop (Z.to_nat n1) src). eapply part_written_step; try done; apply Hin.
Qed.

(** ** Reading *)

Lemma wp_fileread s i f ic D ws V m n o len (Q : Z * list Z → kst X → Prop) :
  ftable s !! i = Some f → f_type f = FD_INODE → f_readable f ≠ 0 → f_off f = Z.of_nat o →
  at_rest (kfs s) ic D ws V → ic_rep V ic m None → file_in V ic (f_ip f) n →
  (o ≤ length (fcontents V n))%nat → 0 ≤ len < 2147483648 →
  let bs := take (Z.to_nat len) (drop o (fcontents V n)) in
  (∀ s' ic', ftable s' = <[i := set_f_off (Z.of_nat (o + length bs)) f]> (ftable s) →
     at_rest (kfs s') ic' D ws V → ic_rep V ic' m None → Q (Z.of_nat (length bs), bs) s') →
  wp (fileread away fuel paway dev_read i len) s Q.
Proof.
  intros Hi Hty Hw Ho F R [(p & Hp & Hr & Hn) Ht Hreg Hmu] Hol Hlen bs HQ.
  unfold fileread. apply wp_bind, (wp_getf _ _ _ _ Hi). rewrite (proj2 (Z.eqb_neq _ _) Hw), Hty.
  apply wp_bind, wp_on_fs, (wp_ilock _ sb cwd pid Hsb away fuel (kfs s) ic V ∅ m (f_ip f) p _ F R Hp Hr); [by rewrite Hn|rewrite size_empty; lia|].
  intros ic1 p1 s2 F2 R2 Hp1 Hd1 Hn1 Hr1 E1 _. rewrite Hn in Hn1, E1. rewrite Ho.
  destruct (copy_file sb V n p1 Hreg) as (Hf1 & Hfmt1 & Hsy1); [by split_and!|].
  apply on_disk_eq in E1 as E1'. destruct E1' as (_ & _ & _ & _ & E5 & E6). pose proof (fcontents_length sb V n) as Hl.
  pose proof (fo_size _ _ _ Hf1). apply wp_bind, wp_on_fs. simpl.
  apply (wp_readi _ sb cwd pid Hsb dev_read s2 ic1 V ∅ (f_ip f) p1 o len _ F2 Hp1 Hf1); [rewrite size_empty; lia|lia|lia|].
  intros s3 F3. cbv zeta. set (k := Z.min len (i_size p1 - Z.of_nat o)).
  assert (Hbs : Z.of_nat (length bs) = k) by (unfold bs; rewrite length_take, length_drop; lia).
  assert (Eb : fbyte V (i_addrs p1) <$> seq o (Z.to_nat k) = bs).
  { unfold bs, fcontents. rewrite E6, <- fmap_drop, <- fmap_take, drop_seq, take_seq. do 2 f_equal; lia. }
  rewrite Eb. cbn [fst].
  assert (Hun : ∀ s3', kfs s3' = s3 → ftable s3' = <[i := set_f_off (Z.of_nat (o + length bs)) f]> (ftable s) →
    wp (on_fs (iunlock (f_ip f)) ;;; ret (k, bs)) s3' Q).
  { intros s3' Ek Et. apply wp_bind, wp_on_fs. rewrite Ek.
    apply (wp_iunlock _ sb cwd pid s3 ic1 V ∅ ∅ m (f_ip f) p1 _ F3 R2 Hp1); [lia|].
    intros ic4 p4 s4 F4 R4 _ _ _ _. apply wp_ret. rewrite <- Hbs. eapply HQ; [exact Et|exact F4|exact R4]. }
  apply wp_bind. destruct (Z.ltb_spec 0 k).
  - apply (wp_updf _ _ f); [exact Hi|]. apply Hun; [done|]. simpl. rewrite Ho, u32_of by lia. do 2 f_equal. lia.
  - apply wp_ret. apply Hun; [done|]. simpl. replace (o + length bs)%nat with o by lia.
    replace (set_f_off (Z.of_nat o) f) with f by (rewrite <- Ho; by destruct f). by rewrite list_insert_id.
Qed.
End write.
