(* ===== verification/FileTable.v ===== *)
(** The file table and the pipes: a pipe lives as long as one of its ends is
    open, in whatever order processes open, duplicate, use and close files. *)

From S2P Require Import Prelude Params Bytes Sleeplock Pipe BufCache Log Tx Fs File FileAt.

Section table.
Context {X : Type} `{!TxOps X} `{!TxCtl X}.
Context (away : M (fss X) unit) (fuel : nat).

(** Entry [i] is an open end of pipe [pi]. *)
Definition pipe_end (s : kst X) (pi : Z) (wr : bool) (i : nat) : Prop :=
  ∃ f, ftable s !! i = Some f ∧ f_type f = FD_PIPE ∧ f_pipe f = pi ∧ negb (f_writable f =? 0) = wr.

Definition end_open (wr : bool) (p : pipe) : Prop := if wr then writeopen p ≠ 0 else readopen p ≠ 0.

Record ft_ok (s : kst X) : Prop := {
  ft_ref i f : ftable s !! i = Some f → 0 ≤ f_ref f ∧ (f_ref f = 0 → f_type f = FD_NONE);
  ft_end pi wr i : pipe_end s pi wr i → ∃ p, pipes s !! pi = Some p ∧ end_open wr p;
  ft_one pi wr i j : pipe_end s pi wr i → pipe_end s pi wr j → i = j;
  ft_open pi p : pipes s !! pi = Some p →
    (∀ wr, end_open wr p → ∃ i, pipe_end s pi wr i) ∧ (readopen p ≠ 0 ∨ writeopen p ≠ 0);
  ft_pages : NoDup (pages s) ∧ ∀ a, a ∈ pages s → pipes s !! a = None
}.

(** The pages of the pipes and the free ones. *)
Definition page_set (s : kst X) : gset Z := dom (pipes s) ∪ list_to_set (pages s).

(** Changing an entry to one that is the same end, or none. *)
Lemma pipe_end_insert s i g pi wr j T :
  T = <[i := g]> (ftable s) → (i < length (ftable s))%nat →
  (∃ f, T !! j = Some f ∧ f_type f = FD_PIPE ∧ f_pipe f = pi ∧ negb (f_writable f =? 0) = wr) ↔
    (j = i ∧ f_type g = FD_PIPE ∧ f_pipe g = pi ∧ negb (f_writable g =? 0) = wr) ∨ (j ≠ i ∧ pipe_end s pi wr j).
Proof.
  intros -> Hi. destruct (decide (j = i)) as [->|Hj].
  - rewrite list_lookup_insert_eq by done. naive_solver.
  - rewrite list_lookup_insert_ne by done. unfold pipe_end. naive_solver.
Qed.

(** An entry whose end of a pipe stays what it is. *)
Lemma ft_same_end s i f g :
  ft_ok s → ftable s !! i = Some f → 0 ≤ f_ref g → (f_ref g = 0 → f_type g = FD_NONE) → (f_type g = FD_PIPE ↔ f_type f = FD_PIPE) →
  f_pipe g = f_pipe f → f_writable g = f_writable f ∨ f_type f ≠ FD_PIPE → ft_ok (set_ftable (<[i := g]> (ftable s)) s).
Proof.
  intros [H1 H2 H3 H4 H5] Hi Hg Hg0 Ht Hp Hw. assert (Hlt : (i < length (ftable s))%nat) by (by eapply lookup_lt_Some).
  assert (E : ∀ pi wr j, pipe_end (set_ftable (<[i := g]> (ftable s)) s) pi wr j ↔ pipe_end s pi wr j).
  { intros pi wr j. unfold pipe_end at 1. cbn [ftable set_ftable]. rewrite (pipe_end_insert s i g pi wr j _ eq_refl Hlt).
    split; [|intros H; destruct (decide (j = i)) as [->|]; [left|by right]].
    - intros [(-> & A & B & C)|[_ ?]]; [|done]. exists f. apply Ht in A as A'. destruct Hw as [Hw|]; [|done]. rewrite <- Hp, <- Hw. done.
    - destruct H as (f' & A & B & C & D). assert (f' = f) as -> by congruence. split; [done|]. split; [by apply Ht|]. destruct Hw as [->|]; [|done]. by rewrite Hp. }
  split; cbn [ftable set_ftable pipes pages].
  - intros j h Hj. destruct (decide (j = i)) as [->|Hne]; [|rewrite list_lookup_insert_ne in Hj by done; by eapply H1].
    rewrite list_lookup_insert_eq in Hj by done. by injection Hj as <-.
  - intros pi wr j Hj%E. by eapply H2.
  - intros pi wr j k Hj%E Hk%E. by eapply H3.
  - intros pi p Hp'. destruct (H4 pi p Hp') as [A B]. split; [|done]. intros wr Hwr. destruct (A wr Hwr) as [j Hj]. exists j. by apply E.
  - done.
Qed.

Lemma free_file_spec l : ∀ i j, free_file l i = Some j → (i ≤ j)%nat ∧ ∃ f, l !! (j - i)%nat = Some f ∧ f_ref f = 0.
Proof.
  induction l as [|f l IH]; intros i j H; cbn [free_file] in H; [done|]. destruct (Z.eqb_spec (f_ref f) 0) as [E|E].
  - injection H as <-. rewrite Nat.sub_diag. eauto.
  - destruct (IH _ _ H) as (Hle & g & Hg & E'). split; [lia|]. exists g. split; [|done].
    replace (j - i)%nat with (S (j - S i)) by lia. done.
Qed.

(** What filealloc returns is referenced once and is nothing yet. *)
Lemma filealloc_ok s : ft_ok s →
  ∃ r s', filealloc s = Ret (r, s') ∧ ft_ok s' ∧ pipes s' = pipes s ∧ pages s' = pages s
    ∧ match r with
      | None => s' = s
      | Some i => ∃ f, ftable s !! i = Some f ∧ f_ref f = 0 ∧ f_type f = FD_NONE ∧ ftable s' = <[i := set_f_ref 1 f]> (ftable s)
      end.
Proof.
  intros H. unfold filealloc, bind at 1, get. destruct (free_file (ftable s) 0) as [i|] eqn:E; [|by exists None, s].
  apply free_file_spec in E as (_ & f & Hf & E0). rewrite Nat.sub_0_r in Hf. destruct (ft_ref _ H i f Hf) as [_ Ht].
  eexists (Some i), _. split; [unfold updf, getf, bind, get, modify, of_option; rewrite Hf; reflexivity|].
  split_and!; [|done|done|by exists f; auto]. apply (ft_same_end s i f); try done. by left.
Qed.

Lemma filedup_ok s i f : ft_ok s → ftable s !! i = Some f → 0 < f_ref f →
  ∃ s', filedup i s = Ret (i, s') ∧ ft_ok s' ∧ pipes s' = pipes s ∧ pages s' = pages s.
Proof.
  intros H Hi Hf. set (s' := set_ftable (<[i := set_f_ref (f_ref f + 1) f]> (ftable s)) s).
  assert (wp (filedup i) s (λ r t, r = i ∧ t = s')) as (r & t & E & -> & ->).
  { unfold filedup. apply wp_bind, (wp_getf _ _ _ _ Hi). destruct (Z.ltb_spec (f_ref f) 1); [lia|].
    apply wp_bind, (wp_updf _ _ _ _ _ Hi). by apply wp_ret. }
  exists s'. split_and!; [done| |done|done]. apply (ft_same_end s i f); try done; [simpl; lia|simpl; lia|by left].
Qed.

(** Closing one end of a pipe. *)
Lemma ft_close s i f g p :
  ft_ok s → ftable s !! i = Some f → f_type f = FD_PIPE → f_ref g = 0 → f_type g = FD_NONE → pipes s !! f_pipe f = Some p →
  let '(p', last) := pipeclose (negb (f_writable f =? 0)) p in
  ft_ok (MkKst (<[i := g]> (ftable s)) (if last : bool then delete (f_pipe f) (pipes s) else <[f_pipe f := p']> (pipes s))
    (if last then f_pipe f :: pages s else pages s) (killed s) (kfs s)).
Proof.
  intros [H1 H2 H3 H4 H5] Hi Ht Hg Hgt Hp. set (pi := f_pipe f) in *. set (wr := negb (f_writable f =? 0)).
  assert (Hlt : (i < length (ftable s))%nat) by (by eapply lookup_lt_Some).
  assert (Hend : pipe_end s pi wr i) by (by exists f).
  destruct (pipeclose wr p) as [p' last] eqn:Ec. set (s' := MkKst _ _ _ _ _).
  assert (E : ∀ qi w j, pipe_end s' qi w j ↔ j ≠ i ∧ pipe_end s qi w j).
  { intros qi w j. unfold pipe_end at 1. cbn [ftable s']. rewrite (pipe_end_insert s i g qi w j _ eq_refl Hlt). naive_solver congruence. }
  assert (Hother : ∀ j, j ≠ i → ¬ pipe_end s pi wr j) by (intros j Hj Hj'; by rewrite (H3 pi wr j i Hj' Hend) in Hj).
  assert (Hopen : ∀ w, end_open w p' ↔ w ≠ wr ∧ end_open w p).
  { intros w. unfold pipeclose in Ec. destruct wr; injection Ec as <- _; destruct w; simpl; naive_solver. }
  assert (Hlast : last = true ↔ readopen p' = 0 ∧ writeopen p' = 0).
  { unfold pipeclose in Ec. destruct wr; injection Ec as <- <-; simpl; zcases; naive_solver. }
  destruct (H4 pi p Hp) as [Hex _].
  assert (Hne : ∀ qi w j, pipe_end s qi w j → j ≠ i → last = true → qi ≠ pi).
  { intros qi w j Hj Hji [L1 L2]%Hlast ->. destruct (decide (w = wr)) as [->|Hw]; [by eapply Hother|].
    destruct (H2 pi w j Hj) as (p0 & Hp0 & Ho). assert (p0 = p) as -> by congruence. assert (end_open w p') by (by apply Hopen).
    destruct w; simpl in *; lia. }
  split.
  - intros j h Hj. cbn [ftable s'] in Hj. destruct (decide (j = i)) as [->|Hji]; [|rewrite list_lookup_insert_ne in Hj by done; by eapply H1].
    rewrite list_lookup_insert_eq in Hj by done. injection Hj as <-. split; [lia|done].
  - intros qi w j [Hji Hj]%E. destruct (H2 qi w j Hj) as (q & Hq & Ho). cbn [pipes s']. destruct last eqn:El.
    + exists q. split; [|done]. rewrite lookup_delete_ne; [done|]. intros <-. by eapply Hne.
    + destruct (decide (qi = pi)) as [->|Hqi]; [|exists q; by rewrite lookup_insert_ne].
      exists p'. rewrite lookup_insert_eq. split; [done|]. assert (q = p) as -> by congruence. apply Hopen.
      split; [|done]. intros ->. by eapply Hother.
  - intros qi w j k [_ Hj]%E [_ Hk]%E. by eapply H3.
  - intros qi q Hq. cbn [pipes s'] in Hq.
    assert (Hq' : qi ≠ pi ∧ pipes s !! qi = Some q ∨ qi = pi ∧ last = false ∧ q = p').
    { destruct last; [apply lookup_delete_Some in Hq as [? ?]; left; split; [congruence|done]|].
      apply lookup_insert_Some in Hq as [[<- <-]|[? ?]]; [by right|left; split; [congruence|done]]. }
    destruct Hq' as [[Hqi Hq']|(-> & El & ->)].
    + destruct (H4 qi q Hq') as [A B]. split; [|done]. intros w Hw. destruct (A w Hw) as [j Hj]. exists j. apply E. split; [|done].
      intros ->. destruct Hj as (f' & ? & _ & ? & _). assert (f' = f) as -> by congruence. by apply Hqi.
    + split.
      * intros w [Hw Ho]%Hopen. destruct (Hex w Ho) as [j Hj]. exists j. apply E. split; [|done].
        intros ->. destruct Hj as (f' & ? & _ & _ & ?). assert (f' = f) as -> by congruence. by apply Hw.
      * destruct (decide (readopen p' = 0)); [right|by left]. intros ?. assert (last = true) by (apply Hlast; done). congruence.
  - cbn [pages pipes s']. destruct H5 as [N1 N2]. destruct last.
    + split; [constructor; [|done]; intros Ha%N2; congruence|]. intros a [->|Ha]%elem_of_cons; [apply lookup_delete_eq|].
      rewrite lookup_delete_ne; [by apply N2|]. intros <-. apply N2 in Ha. congruence.
    + split; [done|]. intros a Ha. rewrite lookup_insert_ne; [by apply N2|]. intros <-. apply N2 in Ha. congruence.
Qed.
(** The file system does not touch the table. *)
Lemma ft_on_fs {A} (c : M (fss X) A) s r s' :
  on_fs c s = Ret (r, s') → ∃ x, s' = set_kfs x s.
Proof. unfold on_fs. destruct (c (kfs s)) as [[a x]|?| |]; intros [= <- <-]. by exists x. Qed.

Lemma ft_ok_fs s x : ft_ok s → ft_ok (set_kfs x s).
Proof. intros [H1 H2 H3 H4 H5]. by split. Qed.

(** fileclose of an open file: if it returns, the table is fine, and for a
    pipe it does return. *)
Lemma fileclose_ok s i f :
  ft_ok s → ftable s !! i = Some f → 0 < f_ref f →
  (f_type f ≠ FD_INODE → ∃ s', fileclose away fuel i s = Ret (tt, s'))
  ∧ ∀ s', fileclose away fuel i s = Ret (tt, s') → ft_ok s' ∧ page_set s' = page_set s.
Proof.
  intros H Hi Hf. set (g := set_f_type FD_NONE (set_f_ref 0 (set_f_ref (f_ref f - 1) f))).
  set (s1 := set_ftable (<[i := g]> (ftable s)) s).
  assert (E : fileclose away fuel i s = if 0 <? f_ref f - 1 then Ret (tt, set_ftable (<[i := set_f_ref (f_ref f - 1) f]> (ftable s)) s) else
    match f_type f with
    | FD_PIPE => close_pipe (f_pipe f) (negb (f_writable f =? 0))
    | FD_INODE => on_fs (on_fx t_begin_op) ;;; on_fs (iput away fuel (f_ip f)) ;;; on_fs (on_fx t_end_op)
    | FD_NONE => ret tt
    end s1).
  { unfold fileclose. rewrite (bind_ret_eval _ _ s f s) by (by apply getf_run).
    destruct (Z.ltb_spec (f_ref f) 1); [lia|]. cbv zeta. cbn [f_ref set_f_ref]. destruct (0 <? f_ref f - 1).
    - exact (updf_run s i f (λ _, set_f_ref (f_ref f - 1) f) Hi).
    - rewrite (bind_ret_eval _ _ s tt s1); [done|]. exact (updf_run s i f (λ _, g) Hi). }
  rewrite E. clear E. destruct (Z.ltb_spec 0 (f_ref f - 1)).
  { split; [eauto|]. intros s' [= <-]. split; [|done]. apply (ft_same_end s i f); try done; [simpl; lia|simpl; lia|by left]. }
  destruct (f_type f) eqn:Ht.
  - split; [unfold ret; eauto|]. intros s' [= <-]. split; [|done]. apply (ft_same_end s i f); try done; [by rewrite Ht|right; by rewrite Ht].
  - destruct (ft_end _ H (f_pipe f) (negb (f_writable f =? 0)) i) as (p & Hp & _); [by exists f|].
    pose proof (ft_close s i f g p H Hi Ht eq_refl eq_refl Hp) as Hc. destruct (pipeclose (negb (f_writable f =? 0)) p) as [p' last] eqn:Ec.
    assert (E : close_pipe (f_pipe f) (negb (f_writable f =? 0)) s1 = Ret (tt, MkKst (<[i := g]> (ftable s))
      (if last then delete (f_pipe f) (pipes s) else <[f_pipe f := p']> (pipes s)) (if last then f_pipe f :: pages s else pages s) (killed s) (kfs s))).
    { unfold close_pipe. rewrite (bind_ret_eval _ _ s1 p s1) by (by apply getpipe_run). rewrite Ec. by destruct last. }
    rewrite E. split; [eauto|]. intros s' [= <-]. split; [done|]. unfold page_set. cbn [pipes pages].
    destruct last; [rewrite dom_delete_L|rewrite dom_insert_L]; assert (f_pipe f ∈ dom (pipes s)) by (by apply elem_of_dom_2 in Hp);
      [|set_solver]. rewrite list_to_set_cons. apply set_eq. intros x. destruct (decide (x = f_pipe f)); set_solver.
  - split; [done|]. intros s' Hs. assert (Hok : ft_ok s1) by (apply (ft_same_end s i f); try done; [by rewrite Ht|right; by rewrite Ht]).
    revert Hs. unfold bind. destruct (on_fs (on_fx t_begin_op) s1) as [[[] sa]|?| |] eqn:Ea; try done.
    destruct (on_fs (iput away fuel (f_ip f)) sa) as [[[] sb']|?| |] eqn:Eb; try done. intros Ec.
    apply ft_on_fs in Ea as [x ->]. apply ft_on_fs in Eb as [y ->]. apply ft_on_fs in Ec as [z ->]. split; [by repeat apply ft_ok_fs|done].
Qed.

(** A new pipe on two entries that are nothing yet. *)
Lemma ft_new_pipe s i j f g a l p :
  ft_ok s → i ≠ j → ftable s !! i = Some f → ftable s !! j = Some g → f_type f = FD_NONE → f_type g = FD_NONE →
  0 < f_ref f → 0 < f_ref g → pages s = a :: l → readopen p = 1 → writeopen p = 1 →
  ft_ok (MkKst (<[j := set_f_pipe 0 1 a g]> (<[i := set_f_pipe 1 0 a f]> (ftable s))) (<[a := p]> (pipes s)) l (killed s) (kfs s)).
Proof.
  intros [H1 H2 H3 H4 [N1 N2]] Hij Hi Hj Tf Tg Rf Rg Hpg Pr Pw. set (s' := MkKst _ _ _ _ _).
  assert (Li : (i < length (ftable s))%nat) by (by eapply lookup_lt_Some). assert (Lj : (j < length (ftable s))%nat) by (by eapply lookup_lt_Some).
  rewrite Hpg in N1, N2. apply NoDup_cons in N1 as [Na N1]. assert (Ha : pipes s !! a = None) by (apply N2; left).
  assert (L : ∀ k h, ftable s' !! k = Some h ↔ k = j ∧ h = set_f_pipe 0 1 a g ∨ k = i ∧ h = set_f_pipe 1 0 a f ∨ k ≠ i ∧ k ≠ j ∧ ftable s !! k = Some h).
  { intros k h. cbn [ftable s']. rewrite !list_lookup_insert_Some, length_insert. naive_solver. }
  assert (E : ∀ pi wr k, pipe_end s' pi wr k ↔ pi = a ∧ k = (if wr then j else i) ∨ pi ≠ a ∧ pipe_end s pi wr k).
  { intros pi wr k. split.
    - intros (h & Hh & B & C & D). apply L in Hh as [[-> ->]|[[-> ->]|(K1 & K2 & Hh)]]; simpl in *; [subst wr; by left|subst wr; by left|right].
      assert (pipe_end s pi wr k) as He by (by exists h). split; [|done]. intros ->. destruct (H2 _ _ _ He) as (q & Hq & _). congruence.
    - intros [[-> ->]|[Hne (h & Hh & B & C & D)]].
      + destruct wr; [exists (set_f_pipe 0 1 a g)|exists (set_f_pipe 1 0 a f)]; (split; [apply L; auto|done]).
      + exists h. split; [|done]. apply L. right. right. split_and!; [congruence|congruence|done]. }
  split.
  - intros k h Hk. apply L in Hk as [[-> ->]|[[-> ->]|(_ & _ & Hk)]]; [simpl; lia|simpl; lia|by eapply H1].
  - intros pi wr k [[-> ->]|[Hne He]]%E; cbn [pipes s'].
    + exists p. rewrite lookup_insert_eq. split; [done|]. destruct wr; simpl; lia.
    + rewrite lookup_insert_ne by done. by eapply H2.
  - intros pi wr k k' [[A ->]|[Hne He]]%E [[B ->]|[Hne' He']]%E; [done|done|done|by eapply H3].
  - intros pi q Hq. cbn [pipes s'] in Hq. apply lookup_insert_Some in Hq as [[<- <-]|[Hne Hq]].
    + split; [|left; lia]. intros wr _. exists (if wr then j else i). apply E. by left.
    + destruct (H4 pi q Hq) as [A B]. split; [|done]. intros wr Hw. destruct (A wr Hw) as [k Hk]. exists k. apply E. right. done.
  - split; [done|]. intros b Hb. cbn [pipes s']. cbn [pages s'] in Hb. rewrite lookup_insert_ne by congruence. apply N2. by right.
Qed.

Lemma pipealloc_ok junk s : ft_ok s →
  ∃ r s', pipealloc away fuel junk s = Ret (r, s') ∧ ft_ok s' ∧ page_set s' = page_set s
    ∧ match r with
      | None => True
      | Some (i, j) => ∃ pi, pi ∈ pages s ∧ pipes s' !! pi = Some (new_pipe junk) ∧ pipe_end s' pi false i ∧ pipe_end s' pi true j
      end.
Proof.
  intros H. unfold pipealloc. destruct (filealloc_ok s H) as (r0 & s1 & E1 & H1 & P1 & G1 & R1). rewrite (bind_ret_eval _ _ _ _ _ E1).
  destruct r0 as [i|]; [|subst s1; by exists None, s]. destruct R1 as (f & Hf & Rf & Tf & T1).
  assert (Li : (i < length (ftable s))%nat) by (by eapply lookup_lt_Some).
  assert (Hi1 : ftable s1 !! i = Some (set_f_ref 1 f)) by (rewrite T1; by apply list_lookup_insert_eq).
  destruct (filealloc_ok s1 H1) as (r1 & s2 & E2 & H2 & P2 & G2 & R2). rewrite (bind_ret_eval _ _ _ _ _ E2).
  assert (Hps : page_set s2 = page_set s) by (unfold page_set; congruence).
  assert (Hclose : ∀ t k h, ft_ok t → ftable t !! k = Some h → 0 < f_ref h → f_type h = FD_NONE →
    ∃ t', fileclose away fuel k t = Ret (tt, t') ∧ ft_ok t' ∧ page_set t' = page_set t).
  { intros t k h Ht Hk Hh Hty. destruct (fileclose_ok t k h Ht Hk Hh) as [A B]. destruct A as [t' Et]; [by rewrite Hty|].
    destruct (B t' Et). eauto. }
  destruct r1 as [j|].
  2: { subst s2. destruct (Hclose s1 i _ H1 Hi1) as (t & Et & Ht & Hpt); [simpl; lia|done|].
    rewrite (bind_ret_eval _ _ _ _ _ Et). exists None, t. split_and!; [done|done|congruence|done]. }
  destruct R2 as (g & Hg & Rg & Tg & T2). assert (Lj : (j < length (ftable s1))%nat) by (by eapply lookup_lt_Some).
  assert (Hij : i ≠ j) by (intros ->; rewrite Hi1 in Hg; injection Hg as <-; simpl in Rg; lia).
  assert (Hi2 : ftable s2 !! i = Some (set_f_ref 1 f)) by (rewrite T2, list_lookup_insert_ne by done; done).
  assert (Hj2 : ftable s2 !! j = Some (set_f_ref 1 g)) by (rewrite T2; by apply list_lookup_insert_eq).
  destruct (pages s2) as [|a l] eqn:Epg.
  - rewrite (bind_ret_eval _ _ s2 None s2) by (unfold kalloc_page, bind, get; by rewrite Epg).
    destruct (Hclose s2 i _ H2 Hi2) as (t & Et & Ht & Hpt); [simpl; lia|done|]. rewrite (bind_ret_eval _ _ _ _ _ Et).
    assert (Hjt : ∃ h, ftable t !! j = Some h ∧ 0 < f_ref h ∧ f_type h = FD_NONE).
    { exists (set_f_ref 1 g). split_and!; [|done|done]. rewrite <- Hj2. revert Et. unfold fileclose. rewrite (bind_ret_eval _ _ _ _ _ (getf_run _ _ _ Hi2)).
      cbv zeta. cbn [f_ref set_f_ref f_type]. cbv iota beta. change (1 <? 1) with false. change (0 <? 1 - 1) with false. cbv iota.
      rewrite (bind_ret_eval _ _ _ _ _ (updf_run _ _ _ _ Hi2)), Tf. intros [= <-]. simpl. by rewrite list_lookup_insert_ne. }
    destruct Hjt as (h & Hh & Rh & Th). destruct (Hclose t j h Ht Hh Rh Th) as (t' & Et' & Ht' & Hpt').
    rewrite (bind_ret_eval _ _ _ _ _ Et'). exists None, t'. split_and!; [done|done|congruence|done].
  - set (s3 := set_pages l s2). rewrite (bind_ret_eval _ _ s2 (Some a) s3) by (unfold kalloc_page, bind, get; by rewrite Epg).
    set (s4 := set_pipes (<[a := new_pipe junk]> (pipes s3)) s3). rewrite (bind_ret_eval _ _ s3 tt s4) by done.
    rewrite (bind_ret_eval _ _ _ _ _ (updf_run s4 i (set_f_ref 1 f) (set_f_pipe 1 0 a) Hi2)).
    set (s5 := set_ftable _ s4). assert (Hj5 : ftable s5 !! j = Some (set_f_ref 1 g)) by (simpl; by rewrite list_lookup_insert_ne).
    rewrite (bind_ret_eval _ _ _ _ _ (updf_run s5 j (set_f_ref 1 g) (set_f_pipe 0 1 a) Hj5)).
    eexists (Some (i, j)), _. split_and!; [reflexivity| | |].
    + exact (ft_new_pipe s2 i j (set_f_ref 1 f) (set_f_ref 1 g) a l (new_pipe junk) H2 Hij Hi2 Hj2 Tf Tg eq_refl eq_refl Epg eq_refl eq_refl).
    + rewrite <- Hps. unfold page_set. rewrite Epg. simpl. rewrite dom_insert_L. set_solver.
    + exists a. split_and!; [rewrite <- G1, <- G2; by left|apply lookup_insert_eq| |].
      * exists (set_f_pipe 1 0 a (set_f_ref 1 f)). simpl. split; [|done]. rewrite list_lookup_insert_ne by done. apply list_lookup_insert_eq. by eapply lookup_lt_Some.
      * exists (set_f_pipe 0 1 a (set_f_ref 1 g)). simpl. split; [|done]. apply list_lookup_insert_eq. by eapply lookup_lt_Some.
Qed.

(** Reading and writing leave the ends as they are. *)
Lemma pipewrite_ends k todo : ∀ p r p', pipewrite_loop k todo p = (r, p') → same_ends p p'.
Proof.
  induction todo as [|b todo IH]; intros p r p' E; cbn [pipewrite_loop] in E; [by injection E as _ <-|].
  destruct (pipe_full p); [destruct ((readopen p =? 0) || k); by injection E as _ <-|]. exact (IH _ _ _ E).
Qed.

Lemma piperead_ends k n p r p' : piperead_try k n p = (r, p') → same_ends p p'.
Proof.
  unfold piperead_try. destruct ((nread p =? nwrite p) && negb (writeopen p =? 0)); [destruct k; intros E; by injection E as _ <-|].
  destruct (piperead_copy n p) as [bs q] eqn:Eq. intros [= _ <-]. revert p bs q Eq.
  induction n as [|n IH]; intros p bs q Eq; cbn [piperead_copy] in Eq; [by injection Eq as _ <-|].
  destruct (nread p =? nwrite p); [by injection Eq as _ <-|]. simpl in Eq.
  destruct (piperead_copy n _) as [bs2 p2] eqn:E2. injection Eq as _ <-. exact (IH _ _ _ E2).
Qed.

Lemma ft_pipe_io s pi p p' :
  ft_ok s → pipes s !! pi = Some p → same_ends p p' → ft_ok (set_pipes (<[pi := p']> (pipes s)) s).
Proof.
  intros [H1 H2 H3 H4 [N1 N2]] Hp [E1 E2]. assert (Ho : ∀ wr, end_open wr p' ↔ end_open wr p) by (intros []; simpl; by rewrite ?E1, ?E2).
  split; try done; cbn [pipes set_pipes pages].
  - intros qi wr i Hi. destruct (H2 qi wr i Hi) as (q & Hq & Hw). destruct (decide (qi = pi)) as [->|Hne].
    + exists p'. rewrite lookup_insert_eq. split; [done|]. apply Ho. congruence.
    + exists q. by rewrite lookup_insert_ne.
  - intros qi q Hq. apply lookup_insert_Some in Hq as [[<- <-]|[Hne Hq]]; [|by apply (H4 qi)]. destruct (H4 pi p Hp) as [A B].
    rewrite E1, E2. split; [|done]. intros wr Hw%Ho. exact (A wr Hw).
  - split; [done|]. intros a Ha. rewrite lookup_insert_ne; [by apply N2|]. intros <-. apply N2 in Ha. congruence.
Qed.

(** The states that processes can bring about, with the atomic steps of
    file.c, pipe.c and sys_open. *)
Inductive freach (pool : gset Z) : kst X → Prop :=
| fr_boot s : Forall (λ f, f_ref f = 0 ∧ f_type f = FD_NONE) (ftable s) → pipes s = ∅ → NoDup (pages s) →
    pool = list_to_set (pages s) → freach pool s
| fr_alloc s r s' : freach pool s → filealloc s = Ret (r, s') → freach pool s'
| fr_dup s i f s' : freach pool s → ftable s !! i = Some f → 0 < f_ref f → filedup i s = Ret (i, s') → freach pool s'
| fr_close s i f s' : freach pool s → ftable s !! i = Some f → 0 < f_ref f → fileclose away fuel i s = Ret (tt, s') → freach pool s'
| fr_pipe s junk r s' : freach pool s → pipealloc away fuel junk s = Ret (r, s') → freach pool s'
| fr_inode s i f readable writable ip : freach pool s → ftable s !! i = Some f → 0 < f_ref f → f_type f = FD_NONE →
    freach pool (set_ftable (<[i := set_f_inode readable writable ip f]> (ftable s)) s)
| fr_seek s i f off : freach pool s → ftable s !! i = Some f → 0 < f_ref f →
    freach pool (set_ftable (<[i := set_f_off off f]> (ftable s)) s)
| fr_read s pi p k n r p' : freach pool s → pipes s !! pi = Some p → piperead_try k n p = (r, p') →
    freach pool (set_pipes (<[pi := p']> (pipes s)) s)
| fr_write s pi p k todo r p' : freach pool s → pipes s !! pi = Some p → pipewrite_loop k todo p = (r, p') →
    freach pool (set_pipes (<[pi := p']> (pipes s)) s).

Lemma freach_ok pool s : freach pool s → ft_ok s ∧ page_set s = pool.
Proof.
  induction 1 as [s Hf Hp Hn ->|s r s' _ [H E] Hr|s i f s' _ [H E] Hi Hf Hr|s i f s' _ [H E] Hi Hf Hr|s junk r s' _ [H E] Hr
    |s i f rd wr ip _ [H E] Hi Hf Ht|s i f off _ [H E] Hi Hf|s pi p k n r p' _ [H E] Hp Hr|s pi p k todo r p' _ [H E] Hp Hr].
  - assert (Hno : ∀ pi wr i, ¬ pipe_end s pi wr i).
    { intros pi wr i (f & Hi & Ht & _). rewrite Forall_lookup in Hf. destruct (Hf i f Hi). congruence. }
    split; [split|unfold page_set; rewrite Hp, dom_empty_L; set_solver].
    + intros i f Hi. rewrite Forall_lookup in Hf. destruct (Hf i f Hi). split; [lia|done].
    + intros pi wr i Hi. by destruct (Hno pi wr i).
    + intros pi wr i j Hi. by destruct (Hno pi wr i).
    + intros pi p. rewrite Hp, lookup_empty. done.
    + split; [done|]. intros. by rewrite Hp, lookup_empty.
  - destruct (filealloc_ok s H) as (r' & t & Et & Ht & P & G & _). rewrite Et in Hr. injection Hr as _ <-. split; [done|]. unfold page_set in *. congruence.
  - destruct (filedup_ok s i f H Hi Hf) as (t & Et & Ht & P & G). rewrite Et in Hr. injection Hr as <-. split; [done|]. unfold page_set in *. congruence.
  - destruct (fileclose_ok s i f H Hi Hf) as [_ A]. destruct (A s' Hr). split; [done|congruence].
  - destruct (pipealloc_ok junk s H) as (r' & t & Et & Ht & P & _). rewrite Et in Hr. injection Hr as _ <-. split; [done|congruence].
  - split; [|done]. apply (ft_same_end s i f); try done; simpl; [lia|lia|by rewrite Ht|right; by rewrite Ht].
  - split; [|done]. apply (ft_same_end s i f); try done; simpl; [lia|lia|by left].
  - split; [eapply ft_pipe_io; eauto using piperead_ends|]. unfold page_set in *. simpl. rewrite dom_insert_lookup_L by done. done.
  - split; [eapply ft_pipe_io; eauto using pipewrite_ends|]. unfold page_set in *. simpl. rewrite dom_insert_lookup_L by done. done.
Qed.
End table.

(** C23. In every state that processes can bring about by opening, duplicating,
    reading, writing and closing files and pipes: an entry of the file table
    that is an end of a pipe has its pipe allocated with that end marked
    open, no other entry is the same end, a pipe that exists has an open
    end, and its page is not on the free list; no page is lost.  Closing an
    open end of a pipe returns; closing the last reference of the last end
    gives the page back. *)
Theorem pipe_lifetime {X} `{!TxOps X} `{!TxCtl X} away fuel (pool : gset Z) (s : kst X) :
  freach away fuel pool s →
  ft_ok s ∧ page_set s = pool
  ∧ ∀ i f, ftable s !! i = Some f → f_type f = FD_PIPE →
      ∃ p s', pipes s !! f_pipe f = Some p ∧ fileclose away fuel i s = Ret (tt, s')
        ∧ (f_ref f = 1 → (readopen p = 0 ∨ writeopen p = 0) → pipes s' = delete (f_pipe f) (pipes s) ∧ pages s' = f_pipe f :: pages s).
Proof.
  intros Hr. destruct (freach_ok away fuel pool s Hr) as [H Hp]. split_and!; [done|done|]. intros i f Hi Ht.
  destruct (ft_end s H (f_pipe f) (negb (f_writable f =? 0)) i) as (p & Hpi & Ho); [by exists f|].
  destruct (ft_ref s H i f Hi) as [Hf0 Hf1]. assert (Hf : 0 < f_ref f) by (destruct (decide (f_ref f = 0)) as [E|]; [by rewrite (Hf1 E) in Ht|lia]).
  destruct (fileclose_ok away fuel s i f H Hi Hf) as [[s' E] _]; [by rewrite Ht|]. exists p, s'. split_and!; [done|done|].
  intros Hf2 Hl. revert E. unfold fileclose. rewrite (bind_ret_eval _ _ _ _ _ (getf_run _ _ _ Hi)), Hf2.
  change (1 <? 1) with false. change (0 <? f_ref (set_f_ref (1 - 1) f)) with false. cbv iota zeta.
  rewrite (bind_ret_eval _ _ _ _ _ (updf_run _ _ _ _ Hi)). cbn [f_type set_f_ref]. rewrite Ht. unfold close_pipe.
  rewrite (bind_ret_eval _ _ _ p _) by (by apply getpipe_run). cbn [f_writable set_f_ref f_pipe].
  assert (∃ p', pipeclose (negb (f_writable f =? 0)) p = (p', true)) as [p' ->].
  { unfold pipeclose. destruct (negb (f_writable f =? 0)); simpl in *; eexists; f_equal; zcases; done || lia. }
  intros [= <-]. done.
Qed.
