(* ===== verification/FileProps.v ===== *)
(** What file.c guarantees for files on disk, over any log that keeps the
    promises of [TxCtlLaws]; the theorems are also applied to the small file
    system of [FsEx], on the log, the cache and the disk driver. *)

From S2P Require Import Prelude Params Bytes Sleeplock Ide Pipe BufCache Bio Log LogProps Tx Fs File.
From S2P Require Import FsAt FsAlloc FsMap FsFile FsInode FsDir FsCache FsPath FsTrunc FsContents FsEx FileAt FileWrite FileTable.

(** C1. A write to an open file is durable, and a crash tears it only between
    transactions.  filewrite returns the length of the data; afterwards the
    file is the old one with the data in place at the offset, no other file
    or inode has changed, and the offset has moved.  If the machine stops
    after any number of the disk writes that the call makes, recovery leaves
    the old file with a first part of the data in place: a multiple of the
    1536 bytes of a transaction, or everything. *)
Theorem filewrite_durable {X} `{!TxOps X} `{!TxCtl X} idle opened recovered `{!TxCtlLaws X ROOTDEV idle opened recovered}
    sb cwd pid away fuel paway dw s i f ic D ws V m n o src :
  sb_ok sb → ftable s !! i = Some f → f_type f = FD_INODE → f_writable f ≠ 0 → f_off f = Z.of_nat o →
  at_rest idle sb cwd pid (kfs s) ic D ws V → ic_rep sb pid V ic m None → file_in sb V ic (f_ip f) n →
  (o ≤ length (fcontents sb V n))%nat → Z.of_nat (o + length src) ≤ MAXFILE * BSIZE →
  4 * ((Z.of_nat (length src) + max_write - 1) / max_write) ≤ blocks_left sb V n →
  ∃ s' ic' V' w, filewrite away fuel paway dw i src s = Ret (Z.of_nat (length src), s')
    ∧ ftable s' = <[i := set_f_off (Z.of_nat (o + length src)) f]> (ftable s)
    ∧ at_rest idle sb cwd pid (kfs s') ic' (apply_writes w D) (ws ++ w) V' ∧ ic_rep sb pid V' ic' m None
    ∧ stored sb n o src V V' ∧ part_written recovered sb n o src D w V.
Proof.
  intros Hsb Hi Hty Hw Ho F R Hin Hol Hlen Hfree. change (MAXFILE * BSIZE) with 71680 in Hlen.
  assert (wp (filewrite away fuel paway dw i src) s (λ r s', r = Z.of_nat (length src) ∧ ∃ ic' V' w,
    ftable s' = <[i := set_f_off (Z.of_nat (o + length src)) f]> (ftable s)
    ∧ at_rest idle sb cwd pid (kfs s') ic' (apply_writes w D) (ws ++ w) V' ∧ ic_rep sb pid V' ic' m None
    ∧ stored sb n o src V V' ∧ part_written recovered sb n o src D w V)) as (r & s' & E & -> & ic' & V' & w & H); [|by exists s', ic', V', w].
  unfold filewrite. apply wp_bind, (wp_getf _ _ _ _ Hi). rewrite (proj2 (Z.eqb_neq _ _) Hw), Hty.
  apply wp_bind, (wp_filewrite_loop idle opened recovered sb cwd pid Hsb away fuel dw n m i _ s f ic D ws V o src _ Hi Ho F R Hin Hol Hlen); [lia|done|].
  intros s' ic' V' w H1 H2 H3 H4 H5 H6. apply wp_ret. split; [done|]. by exists ic', V', w.
Qed.

(** C30. fileread returns the bytes of the file from the offset on, up to the
    number asked for or the end of the file, moves the offset past them, and
    changes nothing on disk. *)
Theorem fileread_correct {X} `{!TxOps X} `{!TxCtl X} idle opened recovered `{!TxCtlLaws X ROOTDEV idle opened recovered}
    sb cwd pid away fuel paway dr s i f ic D ws V m n o len :
  sb_ok sb → ftable s !! i = Some f → f_type f = FD_INODE → f_readable f ≠ 0 → f_off f = Z.of_nat o →
  at_rest idle sb cwd pid (kfs s) ic D ws V → ic_rep sb pid V ic m None → file_in sb V ic (f_ip f) n →
  (o ≤ length (fcontents sb V n))%nat → 0 ≤ len < 2147483648 →
  let bs := take (Z.to_nat len) (drop o (fcontents sb V n)) in
  ∃ s' ic', fileread away fuel paway dr i len s = Ret ((Z.of_nat (length bs), bs), s')
    ∧ ftable s' = <[i := set_f_off (Z.of_nat (o + length bs)) f]> (ftable s)
    ∧ at_rest idle sb cwd pid (kfs s') ic' D ws V ∧ ic_rep sb pid V ic' m None.
Proof.
  intros Hsb Hi Hty Hw Ho F R Hin Hol Hlen bs.
  assert (wp (fileread away fuel paway dr i len) s (λ r s', r = (Z.of_nat (length bs), bs) ∧ ∃ ic',
    ftable s' = <[i := set_f_off (Z.of_nat (o + length bs)) f]> (ftable s)
    ∧ at_rest idle sb cwd pid (kfs s') ic' D ws V ∧ ic_rep sb pid V ic' m None)) as (r & s' & E & -> & ic' & H); [|by exists s', ic'].
  apply (wp_fileread idle opened recovered sb cwd pid Hsb away fuel paway dr s i f ic D ws V m n o len _ Hi Hty Hw Ho F R Hin Hol Hlen).
  intros s' ic' H1 H2 H3. split; [done|]. by exists ic'.
Qed.

(** The file "a" of [FsEx], open for reading and writing with its offset at
    the end. *)
Definition ex_open : file := MkFile FD_INODE 1 1 1 0 1 3.
#[local] Existing Instance log_ctl_laws.
Abbreviation ex_ctl := (log_ctl (ret tt) 0 : TxCtl (lst bst)).
Definition no_read : Z → option (nat → Z → M (fss (lst bst)) (Z * list Z)) := λ _, None.
Definition no_write : Z → option (nat → list Z → M (fss (lst bst)) Z) := λ _, None.

Lemma ex_kst o : ∃ s : kst (lst bst), ftable s = [ex_open]
  ∧ fsat (tx_rep ROOTDEV bio_rep 2 o ex_fsdisk []) ex_sb 0 3 (kfs s) ex_ic ex_fsdisk ∅ ∅.
Proof.
  destruct (ex_on_disk o ex_fsdisk ex_ic) as [s F]; [apply ex_fsdisk_length|reflexivity|].
  by exists (MkKst [ex_open] ∅ [] 0 s).
Qed.

Lemma ex_regular : regular ex_sb ex_fsdisk 2.
Proof.
  pose proof (ex_dino 2 ltac:(lia)) as E. apply on_disk_eq in E as (E1 & E2 & E3 & E4 & E5 & E6). split.
  - apply (ex_file_ok _ 60 3); rewrite ?E1, ?E5, ?E6; auto; simpl; lia.
  - destruct (ex_fmt ex_file) as [G1 G2 G3 G4 G5 G6 G7]; [simpl; auto|].
    split; [rewrite E1; exact G1|rewrite E2; exact G2|rewrite E3; exact G3|rewrite E4; exact G4|rewrite E5; exact G5|rewrite E6; exact G6|rewrite E6; exact G7].
Qed.

Lemma ex_file_in : file_in ex_sb ex_fsdisk ex_ic 1 2.
Proof.
  pose proof (ex_dino 2 ltac:(lia)) as E. apply on_disk_eq in E as (E1 & _). split; [exists ex_file; split_and!; reflexivity|rewrite E1; discriminate|exact ex_regular|exact ex_meta].
Qed.

Lemma ex_contents_length : length (fcontents ex_sb ex_fsdisk 2) = 3%nat.
Proof. rewrite fcontents_length. pose proof (ex_dino 2 ltac:(lia)) as E. apply on_disk_eq in E as (_ & _ & _ & _ & E5 & _). rewrite E5. reflexivity. Qed.

(** Two transactions. *)
Lemma filewrite_durable_witness :
  let src := replicate 2000 65 in
  ∃ s s' V', filewrite (TxCtl0 := ex_ctl) (ret tt) 0 (ret tt) no_write 0 src s = Ret (2000, s')
    ∧ stored ex_sb 2 3 src ex_fsdisk V'.
Proof.
  intros src. destruct (ex_kst 0) as (s & Ht & F). exists s.
  assert (Hsrc : length src = 2000%nat) by apply length_replicate.
  destruct (filewrite_durable (TxCtl0 := ex_ctl) (tx_rep ROOTDEV bio_rep 2 0) (tx_rep ROOTDEV bio_rep 2 1) (logical 2)
    ex_sb 0 3 (ret tt) 0 (ret tt) no_write s 0 ex_open ex_ic ex_fsdisk [] ex_fsdisk ex_refs 2 3 src) as (s' & ic' & V' & w & E & _ & _ & _ & S & _).
  - exact ex_sb_ok.
  - by rewrite Ht.
  - reflexivity.
  - discriminate.
  - reflexivity.
  - exact F.
  - exact ex_ic_rep.
  - exact ex_file_in.
  - rewrite ex_contents_length. apply le_n.
  - rewrite Hsrc. vm_compute. discriminate.
  - rewrite Hsrc. pose proof ex_free. unfold blocks_left, need. change ((Z.of_nat 2000 + max_write - 1) / max_write) with 2.
    case_decide; lia.
  - exists s', V'. rewrite Hsrc in E. change (Z.of_nat 2000) with 2000 in E. split; [exact E|exact S].
Defined.

Lemma fileread_correct_witness :
  ∃ s s', fileread (ret tt) 0 (ret tt) no_read 0 10 s = Ret ((2, [105; 10]), s').
Proof.
  destruct (ex_kst 0) as (s & Ht & F). exists (set_ftable [set_f_off 1 ex_open] s).
  destruct (fileread_correct (TxCtl0 := ex_ctl) (tx_rep ROOTDEV bio_rep 2 0) (tx_rep ROOTDEV bio_rep 2 1) (logical 2)
    ex_sb 0 3 (ret tt) 0 (ret tt) no_read (set_ftable [set_f_off 1 ex_open] s) 0 (set_f_off 1 ex_open) ex_ic ex_fsdisk [] ex_fsdisk ex_refs 2 1 10)
    as (s' & ic' & E & _).
  - exact ex_sb_ok.
  - reflexivity.
  - reflexivity.
  - discriminate.
  - reflexivity.
  - exact F.
  - exact ex_ic_rep.
  - exact ex_file_in.
  - rewrite ex_contents_length. lia.
  - lia.
  - exists s'. assert (Eb : take (Z.to_nat 10) (drop 1 (fcontents ex_sb ex_fsdisk 2)) = [105; 10]) by (vm_compute; reflexivity).
    rewrite Eb in E. exact E.
Defined.

(** A pipe is made, its read end is closed, and then the write end. *)
Lemma pipe_lifetime_witness :
  ∃ (s s' : kst (lst bst)), pipes s !! 4096 ≠ None ∧ fileclose (TxCtl0 := ex_ctl) (ret tt) 0 1 s = Ret (tt, s') ∧ pages s' = [4096; 8192].
Proof.
  destruct (ex_kst 0) as (k & _ & _). set (nofile := MkFile FD_NONE 0 0 0 0 0 0).
  set (s0 := MkKst (replicate 100 nofile) ∅ [4096; 8192] 0 (kfs k)).
  set (p := new_pipe (replicate 512 0)). set (wend := set_f_pipe 0 1 4096 (set_f_ref 1 nofile)).
  set (s1 := MkKst (set_f_pipe 1 0 4096 (set_f_ref 1 nofile) :: wend :: replicate 98 nofile) {[4096 := p]} [8192] 0 (kfs k)).
  set (s2 := MkKst (set_f_type FD_NONE (set_f_ref 0 (set_f_pipe 1 0 4096 nofile)) :: wend :: replicate 98 nofile)
    {[4096 := MkPipe (data p) 0 0 0 1]} [8192] 0 (kfs k)).
  assert (R0 : freach (TxCtl0 := ex_ctl) (ret tt) 0 {[4096; 8192]} s0).
  { apply fr_boot; [by apply Forall_replicate|done| |reflexivity]. apply (bool_decide_unpack _). vm_compute. exact I. }
  assert (R1 : freach (TxCtl0 := ex_ctl) (ret tt) 0 {[4096; 8192]} s1).
  { apply (fr_pipe _ _ _ s0 (replicate 512 0) (Some (0, 1)%nat) _ R0). reflexivity. }
  assert (R2 : freach (TxCtl0 := ex_ctl) (ret tt) 0 {[4096; 8192]} s2).
  { apply (fr_close _ _ _ s1 0 (set_f_pipe 1 0 4096 (set_f_ref 1 nofile)) _ R1); [reflexivity|reflexivity|]. reflexivity. }
  exists s2. destruct (pipe_lifetime (TxCtl0 := ex_ctl) (ret tt) 0 {[4096; 8192]} s2 R2) as (_ & _ & H).
  destruct (H 1%nat wend) as (q & s' & Hq & E & Hl); [reflexivity|reflexivity|].
  exists s'. split; [discriminate|]. split; [exact E|]. injection Hq as <-. destruct Hl as [_ ->]; [reflexivity|left; reflexivity|reflexivity].
Defined.
