(* ===== verification/Syscall.v ===== *)
(** System call arguments, syscall.c: the kernel reads them from the memory
    of the process and checks every pointer before use. *)

From S2P Require Import Prelude Params Bytes Sleeplock Pipe BufCache Log Tx Fs File.

(** What a system call sees of the process, and the kernel behind it. *)
Record ust (X : Type) : Type := MkUst {
  u_sz : Z;                      (* size of the process memory *)
  u_mem : Z → Z;                 (* its bytes *)
  u_esp : Z;                     (* tf->esp *)
  u_eax : Z;                     (* tf->eax *)
  ofile : list (option nat);     (* NOFILE open files *)
  uks : kst X
}.
Arguments MkUst {X}.
Arguments u_sz {X}.
Arguments u_mem {X}.
Arguments u_esp {X}.
Arguments u_eax {X}.
Arguments ofile {X}.
Arguments uks {X}.

Definition set_u_mem {X} (x : Z → Z) (s : ust X) : ust X := MkUst (u_sz s) x (u_esp s) (u_eax s) (ofile s) (uks s).
Definition set_u_eax {X} (x : Z) (s : ust X) : ust X := MkUst (u_sz s) (u_mem s) (u_esp s) x (ofile s) (uks s).
Definition set_ofile {X} (x : list (option nat)) (s : ust X) : ust X := MkUst (u_sz s) (u_mem s) (u_esp s) (u_eax s) x (uks s).
Definition set_uks {X} (x : kst X) (s : ust X) : ust X := MkUst (u_sz s) (u_mem s) (u_esp s) (u_eax s) (ofile s) x.

(** The kernel below. *)
Definition on_ks {X A} (c : M (kst X) A) : M (ust X) A := λ s,
  match c (uks s) with
  | Ret (a, x) => Ret (a, set_uks x s)
  | Panic m => Panic m
  | Undef => Undef
  | OutOfFuel => OutOfFuel
  end.

(** Bytes of the process memory. *)
Definition umem_bytes (m : Z → Z) (a : Z) (n : nat) : list Z := (λ i : nat, m (a + Z.of_nat i)) <$> seq 0 n.
Definition umem_store (a : Z) (v : list Z) (m : Z → Z) : Z → Z := λ x,
  if (a <=? x) && (x <? a + Z.of_nat (length v)) then default 0 (v !! Z.to_nat (x - a)) else m x.

Section args.
Context {X : Type}.

Definition fetchint (addr : Z) (s : ust X) : option Z :=
  if (u_sz s <=? addr) || (u_sz s <? u32 (addr + 4)) then None
  else Some (s32 (get32 (umem_bytes (u_mem s) addr 4) 0)).

(** The length of the string at [a], [n] bytes from the end of memory. *)
Fixpoint fetchstr_loop (n : nat) (m : Z → Z) (a : Z) : option nat :=
  match n with
  | O => None
  | S n' => if m a =? 0 then Some O else S <$> fetchstr_loop n' m (a + 1)
  end.

(** The string itself. *)
Definition fetchstr (addr : Z) (s : ust X) : option (list Z) :=
  if u_sz s <=? addr then None
  else umem_bytes (u_mem s) addr <$> fetchstr_loop (Z.to_nat (u_sz s - addr)) (u_mem s) addr.

Definition argint (n : Z) (s : ust X) : option Z := fetchint (u32 (u_esp s + 4 + 4 * n)) s.

Definition argptr (n size : Z) (s : ust X) : option Z :=
  match argint n s with
  | None => None
  | Some i =>
      if (size <? 0) || (u_sz s <=? u32 i) || (u_sz s <? u32 (u32 i + size)) then None else Some (u32 i)
  end.

Definition argstr (n : Z) (s : ust X) : option (list Z) :=
  match argint n s with None => None | Some addr => fetchstr (u32 addr) s end.

End args.

(** * Dispatch *)

(** syscall.h *)
Definition SYS_fork : Z := 1.
Definition SYS_exit : Z := 2.
Definition SYS_wait : Z := 3.
Definition SYS_pipe : Z := 4.
Definition SYS_read : Z := 5.
Definition SYS_kill : Z := 6.
Definition SYS_exec : Z := 7.
Definition SYS_fstat : Z := 8.
Definition SYS_chdir : Z := 9.
Definition SYS_dup : Z := 10.
Definition SYS_getpid : Z := 11.
Definition SYS_sbrk : Z := 12.
Definition SYS_sleep : Z := 13.
Definition SYS_uptime : Z := 14.
Definition SYS_open : Z := 15.
Definition SYS_write : Z := 16.
Definition SYS_mknod : Z := 17.
Definition SYS_unlink : Z := 18.
Definition SYS_link : Z := 19.
Definition SYS_mkdir : Z := 20.
Definition SYS_close : Z := 21.
Definition SYS_chprty : Z := 22.
Definition SYS_cps : Z := 23.
Definition SYS_getpinfo : Z := 24.
Definition SYS_waitx : Z := 25.

Inductive call : Type :=
| sysFork | sysExit | sysChprty | sysWaitx | sysWait | sysPipe | sysRead | sysKill | sysExec | sysFstat | sysChdir | sysDup
| sysGetpid | sysSbrk | sysSleep | sysGetpinfo | sysUptime | sysOpen | sysWrite | sysMknod | sysUnlink | sysLink | sysMkdir
| sysClose | sysCps.

(** The table [syscalls]. *)
Definition syscalls : list (Z * call) :=
  [(SYS_fork, sysFork); (SYS_exit, sysExit); (SYS_chprty, sysChprty); (SYS_waitx, sysWaitx); (SYS_wait, sysWait);
   (SYS_pipe, sysPipe); (SYS_read, sysRead); (SYS_kill, sysKill); (SYS_exec, sysExec); (SYS_fstat, sysFstat);
   (SYS_chdir, sysChdir); (SYS_dup, sysDup); (SYS_getpid, sysGetpid); (SYS_sbrk, sysSbrk); (SYS_sleep, sysSleep);
   (SYS_getpinfo, sysGetpinfo); (SYS_uptime, sysUptime); (SYS_open, sysOpen); (SYS_write, sysWrite);
   (SYS_mknod, sysMknod); (SYS_unlink, sysUnlink); (SYS_link, sysLink); (SYS_mkdir, sysMkdir); (SYS_close, sysClose);
   (SYS_cps, sysCps)].
Definition NELEM_syscalls : Z := 26.

Fixpoint assoc (n : Z) (l : list (Z * call)) : option call :=
  match l with
  | [] => None
  | (k, c) :: l' => if k =? n then Some c else assoc n l'
  end.

(** syscall; [run] are the handlers, the message on the console is left
    out. *)
Definition syscall {X} (run : call → M (ust X) Z) : M (ust X) unit :=
  s <- get ;;
  let num := s32 (u_eax s) in
  if (0 <? num) && (num <? NELEM_syscalls) then
    match assoc num syscalls with
    | Some c => r <- run c ;; modify (set_u_eax (u32 r))
    | None => modify (set_u_eax (u32 (-1)))
    end
  else modify (set_u_eax (u32 (-1))).
