(* ===== verification/Sysfile.v ===== *)
(** The system calls on files, sysfile.c.

    [junk] is what an uninitialised name array holds, [page] what a new page
    holds.  [exec] is the loader of exec.c. *)

From S2P Require Import Prelude Params Bytes Sleeplock Pipe BufCache Log Tx Fs File Syscall.

(** fcntl.h *)
Definition O_RDONLY : Z := 0.
Definition O_WRONLY : Z := 1.
Definition O_RDWR : Z := 2.
Definition O_CREATE : Z := 512.

Definition has_flag (omode flag : Z) : bool := negb (Z.land omode flag =? 0).
Definition bool_int (b : bool) : Z := if b then 1 else 0.

(** struct stat in memory; the padding keeps its bytes. *)
Definition stat_store (a : Z) (st : stat) (m : Z → Z) : Z → Z :=
  umem_store (a + 16) (put32 0 (st_size st) (replicate 4 0)) (umem_store (a + 12) (put16 0 (st_nlink st) (replicate 2 0))
    (umem_store (a + 8) (put32 0 (st_ino st) (replicate 4 0)) (umem_store (a + 4) (put32 0 (st_dev st) (replicate 4 0))
      (umem_store a (put16 0 (st_type st) (replicate 2 0)) m)))).

Definition set_cwd {X} (x : nat) (s : fss X) : fss X := MkFss (fsb s) (icache s) x (f_pid s) (fx s).

(** The first free descriptor. *)
Fixpoint free_fd (l : list (option nat)) (fd : nat) : option nat :=
  match l with
  | [] => None
  | None :: _ => Some fd
  | Some _ :: l' => free_fd l' (S fd)
  end.

Section sysfile.
Context {X : Type} `{!TxOps X} `{!TxCtl X}.
Context (away : M (fss X) unit) (fuel : nat) (paway : M (kst X) unit).
Context (dev_read : Z → option (nat → Z → M (fss X) (Z * list Z))).
Context (dev_write : Z → option (nat → list Z → M (fss X) Z)).
Context (junk : list Z) (page : list Z) (exec : list Z → list (list Z) → M (ust X) Z).

Abbreviation fs c := (on_ks (on_fs c)).
Abbreviation begin_op := (fs (on_fx t_begin_op)).
Abbreviation end_op := (fs (on_fx t_end_op)).
Abbreviation fail := (end_op ;;; ret (-1)).

(** The descriptor and its file. *)
Definition argfd (n : Z) (s : ust X) : option (Z * nat) :=
  match argint n s with
  | None => None
  | Some fd =>
      if (fd <? 0) || (NOFILE <=? fd) then None
      else match ofile s !! Z.to_nat fd with Some (Some f) => Some (fd, f) | _ => None end
  end.

Definition fdalloc (f : nat) : M (ust X) Z :=
  s <- get ;;
  match free_fd (ofile s) 0 with
  | Some fd => modify (λ s, set_ofile (<[fd := Some f]> (ofile s)) s) ;;; ret (Z.of_nat fd)
  | None => ret (-1)
  end.

Definition sys_dup : M (ust X) Z :=
  s <- get ;;
  match argfd 0 s with
  | None => ret (-1)
  | Some (_, f) =>
      fd <- fdalloc f ;;
      if fd <? 0 then ret (-1) else
      on_ks (filedup f) ;;; ret fd
  end.

Definition sys_read : M (ust X) Z :=
  s <- get ;;
  match argfd 0 s, argint 2 s with
  | Some (_, f), Some n =>
      match argptr 1 n s with
      | None => ret (-1)
      | Some p =>
          r <- on_ks (fileread away fuel paway dev_read f n) ;;
          modify (λ s, set_u_mem (umem_store p r.2 (u_mem s)) s) ;;;
          ret r.1
      end
  | _, _ => ret (-1)
  end.

Definition sys_write : M (ust X) Z :=
  s <- get ;;
  match argfd 0 s, argint 2 s with
  | Some (_, f), Some n =>
      match argptr 1 n s with
      | None => ret (-1)
      | Some p => on_ks (filewrite away fuel paway dev_write f (umem_bytes (u_mem s) p (Z.to_nat n)))
      end
  | _, _ => ret (-1)
  end.

Definition sys_close : M (ust X) Z :=
  s <- get ;;
  match argfd 0 s with
  | None => ret (-1)
  | Some (fd, f) =>
      modify (λ s, set_ofile (<[Z.to_nat fd := None]> (ofile s)) s) ;;;
      on_ks (fileclose away fuel f) ;;;
      ret 0
  end.

Definition sys_fstat : M (ust X) Z :=
  s <- get ;;
  match argfd 0 s, argptr 1 20 s with
  | Some (_, f), Some p =>
      r <- on_ks (filestat away fuel f) ;;
      (match r.2 with
       | Some st => modify (λ s, set_u_mem (stat_store p st (u_mem s)) s)
       | None => ret tt
       end) ;;;
      ret r.1
  | _, _ => ret (-1)
  end.

(** ** Names *)

Definition link_bad (ip : nat) : M (ust X) Z :=
  fs (ilock away fuel ip) ;;;
  fs (updi ip (λ p, set_i_nlink (s16 (i_nlink p - 1)) p)) ;;;
  fs (iupdate ip) ;;;
  fs (iunlockput away fuel ip) ;;;
  fail.

Definition sys_link : M (ust X) Z :=
  s <- get ;;
  match argstr 0 s, argstr 1 s with
  | Some old, Some new =>
      begin_op ;;;
      o <- fs (namei away fuel dev_read old junk) ;;
      match o with
      | None => fail
      | Some ip =>
          fs (ilock away fuel ip) ;;;
          p <- fs (geti ip) ;;
          if i_type p =? T_DIR then fs (iunlockput away fuel ip) ;;; fail else
          fs (updi ip (λ p, set_i_nlink (s16 (i_nlink p + 1)) p)) ;;;
          fs (iupdate ip) ;;;
          fs (iunlock ip) ;;;
          r <- fs (nameiparent away fuel dev_read new junk) ;;
          match r.1 with
          | None => link_bad ip
          | Some dp =>
              fs (ilock away fuel dp) ;;;
              d <- fs (geti dp) ;;
              p <- fs (geti ip) ;;
              c <- (if negb (i_dev d =? i_dev p) then ret (-1) else fs (dirlink away fuel dev_read dev_write dp r.2 (i_inum p))) ;;
              if c <? 0 then fs (iunlockput away fuel dp) ;;; link_bad ip else
              fs (iunlockput away fuel dp) ;;;
              fs (iput away fuel ip) ;;;
              end_op ;;;
              ret 0
          end
      end
  | _, _ => ret (-1)
  end.

Fixpoint isdirempty_loop (f dp : nat) (off : Z) : M (fss X) bool :=
  p <- geti dp ;;
  if off <? i_size p then
    match f with
    | O => out_of_fuel
    | S f' =>
        r <- readi dev_read dp off DIRENT ;;
        if negb (r.1 =? DIRENT) then panic "isdirempty: readi" else
        if negb (de_inum r.2 =? 0) then ret false else isdirempty_loop f' dp (off + DIRENT)
    end
  else ret true.

Definition isdirempty (dp : nat) : M (fss X) bool :=
  p <- geti dp ;; isdirempty_loop (S (Z.to_nat (i_size p / DIRENT))) dp (2 * DIRENT).

Definition unlink_bad (dp : nat) : M (ust X) Z := fs (iunlockput away fuel dp) ;;; fail.

Definition sys_unlink : M (ust X) Z :=
  s <- get ;;
  match argstr 0 s with
  | None => ret (-1)
  | Some path =>
      begin_op ;;;
      r <- fs (nameiparent away fuel dev_read path junk) ;;
      match r.1 with
      | None => fail
      | Some dp =>
          fs (ilock away fuel dp) ;;;
          if (namecmp r.2 [46] =? 0) || (namecmp r.2 [46; 46] =? 0) then unlink_bad dp else
          o <- fs (dirlookup dev_read dp r.2) ;;
          match o with
          | None => unlink_bad dp
          | Some (ip, off) =>
              fs (ilock away fuel ip) ;;;
              p <- fs (geti ip) ;;
              if i_nlink p <? 1 then panic "unlink: nlink < 1" else
              e <- (if i_type p =? T_DIR then fs (isdirempty ip) else ret true) ;;
              if negb e then fs (iunlockput away fuel ip) ;;; unlink_bad dp else
              w <- fs (writei dev_write dp (replicate 16 0) off) ;;
              if negb (w =? DIRENT) then panic "unlink: writei" else
              p <- fs (geti ip) ;;
              (if i_type p =? T_DIR then
                 fs (updi dp (λ p, set_i_nlink (s16 (i_nlink p - 1)) p)) ;;; fs (iupdate dp)
               else ret tt) ;;;
              fs (iunlockput away fuel dp) ;;;
              fs (updi ip (λ p, set_i_nlink (s16 (i_nlink p - 1)) p)) ;;;
              fs (iupdate ip) ;;;
              fs (iunlockput away fuel ip) ;;;
              end_op ;;;
              ret 0
          end
      end
  end.

(** The new inode is returned locked. *)
Definition create (path : list Z) (type major minor : Z) : M (fss X) (option nat) :=
  r <- nameiparent away fuel dev_read path junk ;;
  match r.1 with
  | None => ret None
  | Some dp =>
      ilock away fuel dp ;;;
      o <- dirlookup dev_read dp r.2 ;;
      match o with
      | Some (ip, _) =>
          iunlockput away fuel dp ;;;
          ilock away fuel ip ;;;
          p <- geti ip ;;
          if (type =? T_FILE) && (i_type p =? T_FILE) then ret (Some ip) else
          iunlockput away fuel ip ;;; ret None
      | None =>
          d <- geti dp ;;
          ip <- ialloc (i_dev d) type ;;
          ilock away fuel ip ;;;
          updi ip (set_i_major (s16 major)) ;;;
          updi ip (set_i_minor (s16 minor)) ;;;
          updi ip (set_i_nlink 1) ;;;
          iupdate ip ;;;
          (if type =? T_DIR then
             updi dp (λ p, set_i_nlink (s16 (i_nlink p + 1)) p) ;;;
             iupdate dp ;;;
             p <- geti ip ;;
             c <- dirlink away fuel dev_read dev_write ip [46] (i_inum p) ;;
             if c <? 0 then panic "create dots" else
             d <- geti dp ;;
             c <- dirlink away fuel dev_read dev_write ip [46; 46] (i_inum d) ;;
             if c <? 0 then panic "create dots" else ret tt
           else ret tt) ;;;
          p <- geti ip ;;
          c <- dirlink away fuel dev_read dev_write dp r.2 (i_inum p) ;;
          if c <? 0 then panic "create: dirlink" else
          iunlockput away fuel dp ;;;
          ret (Some ip)
      end
  end.

(** The part of sys_open behind the lookup: [ip] is locked. *)
Definition open_file (ip : nat) (omode : Z) : M (ust X) Z :=
  o <- on_ks filealloc ;;
  match o with
  | None => fs (iunlockput away fuel ip) ;;; fail
  | Some f =>
      fd <- fdalloc f ;;
      if fd <? 0 then
        on_ks (fileclose away fuel f) ;;; fs (iunlockput away fuel ip) ;;; fail
      else
      fs (iunlock ip) ;;;
      end_op ;;;
      on_ks (updf f (set_f_inode (bool_int (negb (has_flag omode O_WRONLY)))
                      (bool_int (has_flag omode O_WRONLY || has_flag omode O_RDWR)) ip)) ;;;
      ret fd
  end.

Definition sys_open : M (ust X) Z :=
  s <- get ;;
  match argstr 0 s, argint 1 s with
  | Some path, Some omode =>
      begin_op ;;;
      if has_flag omode O_CREATE then
        o <- fs (create path T_FILE 0 0) ;;
        match o with
        | None => fail
        | Some ip => open_file ip omode
        end
      else
        o <- fs (namei away fuel dev_read path junk) ;;
        match o with
        | None => fail
        | Some ip =>
            fs (ilock away fuel ip) ;;;
            p <- fs (geti ip) ;;
            if (i_type p =? T_DIR) && negb (omode =? O_RDONLY) then fs (iunlockput away fuel ip) ;;; fail
            else open_file ip omode
        end
  | _, _ => ret (-1)
  end.

Definition create_tx (path : option (list Z)) (type major minor : Z) : M (ust X) Z :=
  match path with
  | None => fail
  | Some path =>
      o <- fs (create path type major minor) ;;
      match o with
      | None => fail
      | Some ip => fs (iunlockput away fuel ip) ;;; end_op ;;; ret 0
      end
  end.

Definition sys_mkdir : M (ust X) Z :=
  begin_op ;;; s <- get ;; create_tx (argstr 0 s) T_DIR 0 0.

Definition sys_mknod : M (ust X) Z :=
  begin_op ;;;
  s <- get ;;
  match argint 1 s, argint 2 s with
  | Some major, Some minor => create_tx (argstr 0 s) T_DEV major minor
  | _, _ => fail
  end.

Definition sys_chdir : M (ust X) Z :=
  begin_op ;;;
  s <- get ;;
  match argstr 0 s with
  | None => fail
  | Some path =>
      o <- fs (namei away fuel dev_read path junk) ;;
      match o with
      | None => fail
      | Some ip =>
          fs (ilock away fuel ip) ;;;
          p <- fs (geti ip) ;;
          if negb (i_type p =? T_DIR) then fs (iunlockput away fuel ip) ;;; fail else
          fs (iunlock ip) ;;;
          k <- fs get ;;
          fs (iput away fuel (f_cwd k)) ;;;
          end_op ;;;
          fs (modify (set_cwd ip)) ;;;
          ret 0
      end
  end.

(** The strings of argv, from entry [i] on; at most MAXARG - 1 of them. *)
Fixpoint fetch_argv (n : nat) (uargv i : Z) (s : ust X) : option (list (list Z)) :=
  match n with
  | O => None
  | S n' =>
      match fetchint (u32 (uargv + 4 * i)) s with
      | None => None
      | Some uarg =>
          if uarg =? 0 then Some [] else
          match fetchstr (u32 uarg) s with
          | None => None
          | Some str => cons str <$> fetch_argv n' uargv (i + 1) s
          end
      end
  end.

Definition sys_exec : M (ust X) Z :=
  s <- get ;;
  match argstr 0 s, argint 1 s with
  | Some path, Some uargv =>
      match fetch_argv (Z.to_nat MAXARG) (u32 uargv) 0 s with
      | None => ret (-1)
      | Some argv => exec path argv
      end
  | _, _ => ret (-1)
  end.

Definition sys_pipe : M (ust X) Z :=
  s <- get ;;
  match argptr 0 8 s with
  | None => ret (-1)
  | Some p =>
      o <- on_ks (pipealloc away fuel page) ;;
      match o with
      | None => ret (-1)
      | Some (rf, wf) =>
          fd0 <- fdalloc rf ;;
          if fd0 <? 0 then on_ks (fileclose away fuel rf) ;;; on_ks (fileclose away fuel wf) ;;; ret (-1) else
          fd1 <- fdalloc wf ;;
          if fd1 <? 0 then
            modify (λ s, set_ofile (<[Z.to_nat fd0 := None]> (ofile s)) s) ;;;
            on_ks (fileclose away fuel rf) ;;; on_ks (fileclose away fuel wf) ;;; ret (-1)
          else
          modify (λ s, set_u_mem (umem_store (p + 4) (put32 0 fd1 (replicate 4 0)) (umem_store p (put32 0 fd0 (replicate 4 0)) (u_mem s))) s) ;;;
          ret 0
      end
  end.

(** The entries of [syscalls] that sysfile.c implements. *)
Definition sysfile_call (c : call) : option (M (ust X) Z) :=
  match c with
  | sysDup => Some sys_dup | sysRead => Some sys_read | sysWrite => Some sys_write | sysClose => Some sys_close
  | sysFstat => Some sys_fstat | sysLink => Some sys_link | sysUnlink => Some sys_unlink | sysOpen => Some sys_open
  | sysMkdir => Some sys_mkdir | sysMknod => Some sys_mknod | sysChdir => Some sys_chdir | sysExec => Some sys_exec
  | sysPipe => Some sys_pipe
  | _ => None
  end.
End sysfile.
