(* ===== verification/Balanced.v ===== *)
(** Locks and transactions across the file system code: what every function
    of fs.c, file.c and sysfile.c takes it gives back, on every path.

    The log is instrumented with a count of the begin_op calls that await
    their end_op. *)

From S2P Require Import Prelude Params Bytes Sleeplock Pipe BufCache Log Tx Fs File Syscall Sysfile.

(** Partial correctness: if the code returns. *)
Definition pc {S A} (c : M S A) (P : S → Prop) (Q : A → S → Prop) : Prop :=
  ∀ s a s', P s → c s = Ret (a, s') → Q a s'.

Lemma pc_bind {S A B} (c : M S A) (k : A → M S B) P R Q :
  pc c P R → (∀ a, pc (k a) (R a) Q) → pc (bind c k) P Q.
Proof.
  intros Hc Hk s b s' Hs. unfold bind. destruct (c s) as [[a s1]|?| |] eqn:E; try done. intros E'. eapply Hk; [|exact E']. by eapply Hc.
Qed.

Lemma pc_weaken {S A} (c : M S A) (P P' : S → Prop) (Q Q' : A → S → Prop) :
  pc c P Q → (∀ s, P' s → P s) → (∀ a s, Q a s → Q' a s) → pc c P' Q'.
Proof. intros Hc HP HQ s a s' Hs E. eapply HQ, Hc; [|exact E]. by apply HP. Qed.

Lemma pc_ret {S A} (a : A) (P : S → Prop) (Q : A → S → Prop) : (∀ s, P s → Q a s) → pc (ret a) P Q.
Proof. intros H s b s' Hs [= <- <-]. by apply H. Qed.

Lemma pc_pure {S A} (c : M S A) (F : Prop) (P : S → Prop) Q : (F → pc c P Q) → pc c (λ s, F ∧ P s) Q.
Proof. intros H s a s' [Hf Hs] E. by eapply H. Qed.

(** ** The instrumented log *)
Section counted.
Context {X : Type} `{!TxOps X} `{!TxCtl X}.

Definition on_fst {A} (c : M X A) : M (X * Z) A := λ s,
  match c s.1 with
  | Ret (a, x) => Ret (a, (x, s.2))
  | Panic m => Panic m
  | Undef => Undef
  | OutOfFuel => OutOfFuel
  end.

#[export] Instance counted_tx : TxOps (X * Z) := {|
  t_bread d k := on_fst (t_bread d k);
  t_brelse b := on_fst (t_brelse b);
  t_data b := on_fst (t_data b);
  t_set_data b v := on_fst (t_set_data b v);
  t_log_write b := on_fst (t_log_write b)
|}.

#[export] Instance counted_ctl : TxCtl (X * Z) := {|
  t_begin_op := on_fst t_begin_op ;;; modify (λ s, (s.1, s.2 + 1));
  t_end_op := on_fst t_end_op ;;; modify (λ s, (s.1, s.2 - 1))
|}.

(** The inodes this process has locked, and its open transactions. *)
Definition held (s : fss (X * Z)) : list bool := (λ p, holdingsleep (f_pid s) (i_lock p)) <$> icache s.
Definition B (h : list bool) (n : Z) (s : fss (X * Z)) : Prop := held s = h ∧ (fx s).2 = n.
End counted.

Section rules.
Context {X S : Type} (π : S → fss (X * Z)).

(** The code neither takes nor gives back; takes or gives back a lock; begins
    or ends a transaction. *)
Definition even {A} (c : M S A) : Prop := ∀ h n, pc c (λ s, B h n (π s)) (λ _ s, B h n (π s)).
Definition takes {A} (i : nat) (c : M S A) : Prop :=
  ∀ h n, pc c (λ s, B h n (π s)) (λ _ s, h !! i = Some false ∧ B (<[i := true]> h) n (π s)).
Definition gives {A} (i : nat) (c : M S A) : Prop :=
  ∀ h n, pc c (λ s, B h n (π s)) (λ _ s, h !! i = Some true ∧ B (<[i := false]> h) n (π s)).
Definition opens {A} (d : Z) (c : M S A) : Prop := ∀ h n, pc c (λ s, B h n (π s)) (λ _ s, B h (n + d) (π s)).

Lemma even_bind {A C} (c : M S A) (k : A → M S C) : even c → (∀ a, even (k a)) → even (bind c k).
Proof. intros Hc Hk h n. eapply pc_bind; [apply Hc|]. intros a. apply Hk. Qed.
Lemma even_ret {A} (a : A) : even (ret a).
Proof. intros h n. by apply pc_ret. Qed.
Lemma even_get : even get.
Proof. intros h n s a s' Hs [= <- <-]. done. Qed.
Lemma even_panic {A} m : even (panic m : M _ A).
Proof. by intros h n s a s' Hs E. Qed.
Lemma even_undef {A} : even (undef : M _ A).
Proof. by intros h n s a s' Hs E. Qed.
Lemma even_fuel {A} : even (out_of_fuel : M _ A).
Proof. by intros h n s a s' Hs E. Qed.
Lemma even_option {A} (o : option A) : even (of_option o).
Proof. destruct o; [apply even_ret|apply even_undef]. Qed.

(** Stepping through code that holds locks. *)
Section steps.
Context {A C : Type} (c : M S A) (k : A → M S C) (h : list bool) (n : Z) (Q : C → S → Prop).

Lemma step_even : even c → (∀ a, pc (k a) (λ s, B h n (π s)) Q) → pc (bind c k) (λ s, B h n (π s)) Q.
Proof. intros Hc Hk. eapply pc_bind; [apply Hc|done]. Qed.
Lemma step_takes i : takes i c → (∀ a, h !! i = Some false → pc (k a) (λ s, B (<[i := true]> h) n (π s)) Q) → pc (bind c k) (λ s, B h n (π s)) Q.
Proof. intros Hc Hk. eapply pc_bind; [apply Hc|]. intros a. apply pc_pure, Hk. Qed.
Lemma step_gives i : gives i c → (∀ a, h !! i = Some true → pc (k a) (λ s, B (<[i := false]> h) n (π s)) Q) → pc (bind c k) (λ s, B h n (π s)) Q.
Proof. intros Hc Hk. eapply pc_bind; [apply Hc|]. intros a. apply pc_pure, Hk. Qed.
Lemma step_opens d : opens d c → (∀ a, pc (k a) (λ s, B h (n + d) (π s)) Q) → pc (bind c k) (λ s, B h n (π s)) Q.
Proof. intros Hc Hk. eapply pc_bind; [apply Hc|done]. Qed.
End steps.

Lemma pc_even {A} (c : M S A) h n (Q : A → S → Prop) :
  even c → (∀ a s, B h n (π s) → Q a s) → pc c (λ s, B h n (π s)) Q.
Proof. intros Hc HQ s a s' Hs E. apply HQ. by eapply Hc. Qed.
Lemma pc_opens {A} d (c : M S A) h n (Q : A → S → Prop) :
  opens d c → (∀ a s, B h (n + d) (π s) → Q a s) → pc c (λ s, B h n (π s)) Q.
Proof. intros Hc HQ s a s' Hs E. apply HQ. by eapply Hc. Qed.
End rules.

(** From the file system to the levels above it. *)
Lemma pc_on_fs {Y A} (c : M (fss Y) A) P Q : pc c P Q → pc (on_fs c) (λ s, P (kfs s)) (λ a s, Q a (kfs s)).
Proof.
  intros H s a s' Hs. unfold on_fs. destruct (c (kfs s)) as [[b x]|?| |] eqn:E; try done. intros [= <- <-]. by eapply H.
Qed.
Lemma pc_on_ks {Y A} (c : M (kst Y) A) P Q : pc c P Q → pc (on_ks c) (λ s, P (uks s)) (λ a s, Q a (uks s)).
Proof.
  intros H s a s' Hs. unfold on_ks. destruct (c (uks s)) as [[b x]|?| |] eqn:E; try done. intros [= <- <-]. by eapply H.
Qed.

Abbreviation here := (λ s, s).

Section base.
Context {X : Type}.

Lemma even_fx {A} (c : M X A) : even here (on_fx (on_fst c)).
Proof.
  intros h n s a s' [H1 H2]. unfold on_fx, on_fst. destruct (c (fx s).1) as [[b x]|?| |]; try done. intros [= <- <-]. done.
Qed.
Lemma even_geti i : even (X := X) here (geti i).
Proof. apply even_bind; [apply even_get|]. intros s. apply even_option. Qed.
Lemma even_updi i f : (∀ p, i_lock (f p) = i_lock p) → even (X := X) here (updi i f).
Proof.
  intros Hf. intros h n s a s' [H1 H2]. unfold updi, bind, geti, bind, get. destruct (icache s !! i) as [p|] eqn:E; [|done].
  intros [= _ <-]. split; [|done]. rewrite <- H1. unfold held. simpl. rewrite list_fmap_insert. apply list_insert_id.
  rewrite list_lookup_fmap, E. simpl. by rewrite Hf.
Qed.
End base.

Create HintDb even.
#[export] Hint Resolve even_ret even_get even_panic even_undef even_fuel even_option even_geti : even.

(** [evens] takes code apart. *)
Ltac evens_leaf := first
  [ by eauto with even nocore
  | apply even_fx
  | apply even_updi; intros; reflexivity ].
Ltac evens :=
  repeat (cbv beta zeta; lazymatch goal with
  | |- even _ (bind _ _) => apply even_bind; [|intros ?]
  | |- even _ (if ?b then _ else _) => destruct b
  | |- even _ (match ?x with _ => _ end) => destruct x eqn:?
  | |- even _ _ => evens_leaf
  end).

(** [locks] steps through code that takes locks and gives them back. *)
Lemma held_back (h : list bool) i : h !! i = Some false → <[i := false]> (<[i := true]> h) = h.
Proof. intros. by rewrite list_insert_insert_eq, list_insert_id. Qed.
Lemma held_true (h : list bool) i : h !! i = Some false → <[i := true]> h !! i = Some true.
Proof. intros. apply list_lookup_insert_eq. by eapply lookup_lt_Some. Qed.
(** With another one in between. *)
Lemma held_swap (h : list bool) i j :
  h !! i = Some false → <[i := true]> h !! j = Some false → <[i := false]> (<[j := true]> (<[i := true]> h)) = <[j := true]> h.
Proof.
  intros Hi Hj. assert (i ≠ j) by (intros <-; rewrite held_true in Hj; congruence).
  rewrite (list_insert_insert_ne _ i j) by done. by rewrite held_back.
Qed.
Lemma held_still (h : list bool) i j : h !! i = Some false → <[i := true]> h !! j = Some false → h !! j = Some false.
Proof.
  intros Hi Hj. destruct (decide (i = j)) as [->|]; [rewrite held_true in Hj by done; congruence|]. by rewrite list_lookup_insert_ne in Hj.
Qed.
Lemma tx_back n : n + 1 + -1 = n.
Proof. lia. Qed.

Ltac locks_norm := rewrite ?held_back, ?held_swap, ?tx_back by (assumption || eauto using held_still).
Ltac locks_end := intros; locks_norm; first [assumption | split; eauto using held_still | idtac].
Ltac locks :=
  repeat (cbv beta zeta; lazymatch goal with
  | |- pc (bind _ _) _ _ =>
      first [ eapply step_takes; [by eauto with even nocore|]; intros ? ?
            | eapply step_gives; [by eauto with even nocore|]; intros ? ?; locks_norm
            | eapply step_opens; [by eauto with even nocore|]; intros ?; locks_norm
            | apply step_even; [by evens|]; intros ? ]
  | |- pc (if ?b then _ else _) _ _ => destruct b
  | |- pc (match ?x with _ => _ end) _ _ => destruct x eqn:?
  | |- pc (ret _) _ _ => apply pc_ret; locks_end
  | |- pc (panic _) _ _ => intros ? ? ? ? ?; discriminate
  | |- pc _ _ _ =>
      first [ eapply pc_opens; [by eauto with even nocore|]; intros ? ?; locks_norm; exact (λ H, H)
            | apply pc_even; [by evens|]; locks_end ]
  end).

(** * fs.c *)

Section fs.
Context {X : Type} `{!TxOps X} `{!TxCtl X}.
Context (away : M (fss (X * Z)) unit) (fuel : nat).
Context (dev_read : Z → option (nat → Z → M (fss (X * Z)) (Z * list Z))).
Context (dev_write : Z → option (nat → list Z → M (fss (X * Z)) Z)).
Context (Haway : even here away).
Context (Hread : ∀ m f ip n, dev_read m = Some f → even here (f ip n)).
Context (Hwrite : ∀ m f ip v, dev_write m = Some f → even here (f ip v)).

Lemma even_bzero d k : even here (bzero (X := X * Z) d k).
Proof. unfold bzero. evens. Qed.
Hint Resolve even_bzero : even.

Lemma even_balloc d : even here (balloc (X := X * Z) d).
Proof.
  unfold balloc. apply even_bind; [evens|]. intros s. generalize (Z.to_nat ((sb_size (fsb s) + BPB - 1) / BPB)) as n. intros n.
  generalize 0 as b. induction n as [|n IH]; intros b; cbn [balloc_loop]; evens.
Qed.
Hint Resolve even_balloc : even.

Lemma even_bfree d k : even here (bfree (X := X * Z) d k).
Proof. unfold bfree. evens. Qed.
Hint Resolve even_bfree : even.

Lemma even_iget d k : even here (iget (X := X * Z) d k).
Proof. unfold iget. evens. Qed.
Hint Resolve even_iget : even.

Lemma even_ialloc d t : even here (ialloc (X := X * Z) d t).
Proof.
  unfold ialloc. apply even_bind; [evens|]. intros s. generalize (Z.to_nat (sb_ninodes (fsb s) - 1)) as n. intros n.
  generalize 1 as i. induction n as [|n IH]; intros i; cbn [ialloc_loop]; evens.
Qed.

Lemma even_iupdate i : even here (iupdate (X := X * Z) i).
Proof. unfold iupdate. evens. Qed.
Hint Resolve even_iupdate : even.

Lemma even_idup i : even here (idup (X := X * Z) i).
Proof. unfold idup. evens. Qed.

Lemma even_bmap i k : even here (bmap (X := X * Z) i k).
Proof. unfold bmap. evens. Qed.
Hint Resolve even_bmap : even.

Lemma even_itrunc i : even here (itrunc (X := X * Z) i).
Proof.
  assert (Hd : ∀ n k, even here (itrunc_direct (X := X * Z) n k i)) by (induction n as [|n IH]; intros k; cbn [itrunc_direct]; evens).
  assert (Hi : ∀ n k d b, even here (itrunc_indirect (X := X * Z) n k d b)) by (induction n as [|n IH]; intros k d b; cbn [itrunc_indirect]; evens).
  unfold itrunc. evens.
Qed.
Hint Resolve even_itrunc : even.

Lemma even_readi i o n : even here (readi dev_read i o n).
Proof.
  assert (Hl : ∀ f t o n, even here (readi_loop (X := X * Z) f i t o n)) by (induction f as [|f IH]; intros t o' n'; cbn [readi_loop]; evens).
  unfold readi. evens.
Qed.
Hint Resolve even_readi : even.

Lemma even_writei i v o : even here (writei dev_write i v o).
Proof.
  assert (Hl : ∀ f t o n v, even here (writei_loop (X := X * Z) f i v t o n)) by (induction f as [|f IH]; intros t o' n' v'; cbn [writei_loop]; evens).
  unfold writei. evens.
Qed.
Hint Resolve even_writei : even.

Lemma even_dirlookup d nm : even here (dirlookup dev_read d nm).
Proof.
  assert (Hl : ∀ f o, even here (dirlookup_loop dev_read f d nm o)) by (induction f as [|f IH]; intros o; cbn [dirlookup_loop]; evens).
  unfold dirlookup. evens.
Qed.
Hint Resolve even_dirlookup : even.

(** ** Locks *)

Lemma held_insert (s : fss (X * Z)) i p l : icache s !! i = Some p →
  held (set_icache (<[i := set_i_lock l p]> (icache s)) s) = <[i := holdingsleep (f_pid s) l]> (held s).
Proof. intros Hi. unfold held. simpl. by rewrite list_fmap_insert. Qed.

Lemma acquire_takes f i : takes here i (acquiresleep_inode away f i).
Proof using Haway.
  intros h n. induction f as [|f IH]; cbn [acquiresleep_inode].
  all: intros s a s' [H1 H2]; unfold bind at 1, geti, bind at 1, get; destruct (icache s !! i) as [p|] eqn:Hp; [|done]; unfold of_option, ret at 1;
    unfold bind at 1; unfold acquiresleep at 1; destruct (Z.eqb_spec (sl_locked (i_lock p)) 0) as [E0|E0].
  1, 3: cbn [negb]; intros E; assert (Hl : h !! i = Some false)
    by (rewrite <- H1; unfold held; rewrite list_lookup_fmap, Hp; simpl; unfold holdingsleep; by rewrite E0);
    split; [done|]; revert E; unfold updi, bind, geti, bind, get; rewrite Hp; intros [= _ <-]; split; [|done];
    rewrite held_insert by done; rewrite <- H1; f_equal; unfold holdingsleep; simpl; by rewrite Z.eqb_refl.
  - done.
  - cbn [negb]. unfold bind. destruct (away s) as [[[] s1]|?| |] eqn:Ea; try done. intros E.
    eapply IH; [|exact E]. eapply (Haway h n); [|exact Ea]. done.
Qed.

Lemma release_gives i h n : h !! i = Some true →
  pc (updi i (λ p, set_i_lock (releasesleep (i_lock p)) p)) (λ s : fss (X * Z), B h n s) (λ _ s, B (<[i := false]> h) n s).
Proof.
  intros Hi s a s' [H1 H2]. unfold updi, bind, geti, bind, get. destruct (icache s !! i) as [p|] eqn:Hp; [|done].
  intros [= _ <-]. split; [|done]. rewrite held_insert by done. by rewrite <- H1.
Qed.

Lemma even_iput i : even here (iput away fuel i).
Proof using Haway.
  intros h n. unfold iput. eapply step_takes; [apply acquire_takes|]. intros _ Hi.
  apply step_even; [apply even_geti|]. intros p. eapply step_even; [evens|]. intros _.
  eapply pc_bind; [apply release_gives; by apply held_true|]. intros u. cbv beta. rewrite held_back by done. apply even_updi. done.
Qed.
Hint Resolve even_iput : even.

Lemma ilock_takes i : takes here i (ilock away fuel i).
Proof using Haway.
  intros h n. unfold ilock. destruct (decide (i = null_inode)); [by intros s a s' _ E|].
  apply step_even; [apply even_geti|]. intros p. destruct (i_ref p <? 1); [by intros s a s' _ E|].
  eapply step_takes; [apply acquire_takes|]. intros _ Hi.
  apply pc_even; [evens|]. done.
Qed.

Lemma iunlock_gives i : gives here i (iunlock (X := X * Z) i).
Proof.
  intros h n. unfold iunlock. destruct (decide (i = null_inode)); [by intros s a s' _ E|].
  intros s a s' [H1 H2]. unfold bind at 1, get. unfold bind at 1, geti, bind at 1, get.
  destruct (icache s !! i) as [p|] eqn:Hp; [|done]. unfold of_option, ret.
  destruct (holdingsleep (f_pid s) (i_lock p)) eqn:Hh; [|done]. cbn [negb orb]. destruct (i_ref p <? 1); [done|]. intros E.
  assert (Hi : h !! i = Some true) by (rewrite <- H1; unfold held; rewrite list_lookup_fmap, Hp; simpl; by rewrite Hh).
  split; [done|]. eapply (release_gives i h n); [done| |exact E]. done.
Qed.

Lemma iunlockput_gives i : gives here i (iunlockput away fuel i).
Proof using Haway.
  intros h n. unfold iunlockput. eapply step_gives; [apply iunlock_gives|]. intros _ Hi.
  apply pc_even; [apply even_iput|]. done.
Qed.
Hint Resolve ilock_takes iunlock_gives iunlockput_gives : even.

Lemma even_namex path parent nm : even here (namex away fuel dev_read path parent nm).
Proof using Haway Hread.
  assert (Hl : ∀ f path nm i, even here (namex_loop away fuel dev_read f path parent nm i)).
  { induction f as [|f IH]; intros p nm' i; cbn [namex_loop]; [evens|]. destruct (skipelem p nm') as [[p' nm'']|]; [|evens].
    intros h n. locks. }
  pose proof even_idup. unfold namex. evens.
Qed.
Hint Resolve even_namex : even.

Lemma even_dirlink d nm i : even here (dirlink away fuel dev_read dev_write d nm i).
Proof using Haway Hread Hwrite.
  assert (Hl : ∀ f o, even here (dirlink_loop dev_read f d o)) by (induction f as [|f IH]; intros o; cbn [dirlink_loop]; evens).
  unfold dirlink. evens.
Qed.
Hint Resolve even_dirlink : even.

Lemma even_isdirempty d : even here (isdirempty dev_read d).
Proof using Hread.
  assert (Hl : ∀ f o, even here (isdirempty_loop dev_read f d o)) by (induction f as [|f IH]; intros o; cbn [isdirempty_loop]; evens).
  unfold isdirempty. evens.
Qed.

(** create returns the inode locked. *)
Lemma create_takes junk path type major minor h n :
  pc (create away fuel dev_read dev_write junk path type major minor) (λ s, B h n s)
    (λ o s, match o with None => B h n s | Some ip => h !! ip = Some false ∧ B (<[ip := true]> h) n s end).
Proof using Haway Hread Hwrite.
  pose proof even_ialloc. unfold create, nameiparent. locks.
Qed.
End fs.

(** * file.c and sysfile.c *)

Section calls.
Context {X : Type} `{!TxOps X} `{!TxCtl X}.
Context (away : M (fss (X * Z)) unit) (fuel : nat) (paway : M (kst (X * Z)) unit).
Context (dev_read : Z → option (nat → Z → M (fss (X * Z)) (Z * list Z))).
Context (dev_write : Z → option (nat → list Z → M (fss (X * Z)) Z)).
Context (junk page : list Z) (exec : list Z → list (list Z) → M (ust (X * Z)) Z).
Abbreviation up := (λ s, kfs (uks s)).
Context (Haway : even here away) (Hpaway : even kfs paway).
Context (Hread : ∀ m f ip n, dev_read m = Some f → even here (f ip n)).
Context (Hwrite : ∀ m f ip v, dev_write m = Some f → even here (f ip v)).
Context (Hexec : ∀ path argv, even up (exec path argv)).

Lemma opens_begin : opens (S := fss (X * Z)) here 1 (on_fx t_begin_op).
Proof.
  intros h n s a s' [H1 H2]. unfold on_fx, t_begin_op, counted_ctl, on_fst, bind, modify.
  destruct (t_begin_op (fx s).1) as [[b x]|?| |]; try done. intros [= _ <-]. split; [done|]. simpl. lia.
Qed.
Lemma opens_end : opens (S := fss (X * Z)) here (-1) (on_fx t_end_op).
Proof.
  intros h n s a s' [H1 H2]. unfold on_fx, t_end_op, counted_ctl, on_fst, bind, modify.
  destruct (t_end_op (fx s).1) as [[b x]|?| |]; try done. intros [= _ <-]. split; [done|]. simpl. lia.
Qed.

Lemma even_on_fs {A} (c : M (fss (X * Z)) A) : even here c → even kfs (on_fs c).
Proof. intros H h n. apply (pc_on_fs c (B h n) (λ _, B h n)), H. Qed.
Lemma opens_on_fs {A} d (c : M (fss (X * Z)) A) : opens here d c → opens kfs d (on_fs c).
Proof. intros H h n. apply (pc_on_fs c (B h n) (λ _, B h (n + d))), H. Qed.
Lemma takes_on_fs {A} i (c : M (fss (X * Z)) A) : takes here i c → takes kfs i (on_fs c).
Proof. intros H h n. apply (pc_on_fs c (B h n) (λ _ s, h !! i = Some false ∧ B (<[i := true]> h) n s)), H. Qed.
Lemma gives_on_fs {A} i (c : M (fss (X * Z)) A) : gives here i c → gives kfs i (on_fs c).
Proof. intros H h n. apply (pc_on_fs c (B h n) (λ _ s, h !! i = Some true ∧ B (<[i := false]> h) n s)), H. Qed.
Lemma even_on_ks {A} (c : M (kst (X * Z)) A) : even kfs c → even up (on_ks c).
Proof. intros H h n. apply (pc_on_ks c (λ s, B h n (kfs s)) (λ _ s, B h n (kfs s))), H. Qed.
Lemma opens_on_ks {A} d (c : M (kst (X * Z)) A) : opens kfs d c → opens up d (on_ks c).
Proof. intros H h n. apply (pc_on_ks c (λ s, B h n (kfs s)) (λ _ s, B h (n + d) (kfs s))), H. Qed.
Lemma takes_on_ks {A} i (c : M (kst (X * Z)) A) : takes kfs i c → takes up i (on_ks c).
Proof. intros H h n. apply (pc_on_ks c (λ s, B h n (kfs s)) (λ _ s, h !! i = Some false ∧ B (<[i := true]> h) n (kfs s))), H. Qed.
Lemma gives_on_ks {A} i (c : M (kst (X * Z)) A) : gives kfs i c → gives up i (on_ks c).
Proof. intros H h n. apply (pc_on_ks c (λ s, B h n (kfs s)) (λ _ s, h !! i = Some true ∧ B (<[i := false]> h) n (kfs s))), H. Qed.

Hint Resolve opens_begin opens_end even_on_fs opens_on_fs takes_on_fs gives_on_fs even_on_ks opens_on_ks takes_on_ks gives_on_ks : even.
Hint Resolve even_iput even_readi even_writei ilock_takes iunlock_gives iunlockput_gives even_namex even_dirlink even_isdirempty
  even_dirlookup even_iupdate : even.

Lemma even_modify_k (f : kst (X * Z) → kst (X * Z)) : (∀ s, kfs (f s) = kfs s) → even kfs (modify f).
Proof. intros H h n s a s' Hs [= _ <-]. by rewrite H. Qed.
Lemma even_updf i g : even (X := X) kfs (updf i g).
Proof. unfold updf, getf. evens. by apply even_modify_k. Qed.
Lemma even_getf i : even (X := X) kfs (getf i).
Proof. unfold getf. evens. Qed.
Lemma even_putp i p : even (X := X) kfs (putp i p).
Proof. by apply even_modify_k. Qed.
Lemma even_getp i : even (X := X) kfs (getp i).
Proof. unfold getp. evens. Qed.
Hint Resolve even_updf even_getf even_putp even_getp : even.

Lemma even_filealloc : even (X := X) kfs filealloc.
Proof. unfold filealloc. evens. Qed.
Lemma even_filedup i : even (X := X) kfs (filedup i).
Proof. unfold filedup. evens. Qed.
Lemma even_kalloc : even (X := X) kfs kalloc_page.
Proof. unfold kalloc_page. evens. by apply even_modify_k. Qed.
Lemma even_close_pipe pi w : even (X := X) kfs (close_pipe pi w).
Proof. unfold close_pipe, kfree_page. evens; by apply even_modify_k. Qed.
Hint Resolve even_filealloc even_filedup even_kalloc even_close_pipe : even.

Lemma even_fileclose i : even kfs (fileclose away fuel i).
Proof using Haway. intros h n. unfold fileclose. locks. Qed.
Lemma even_piperead f pi n : even kfs (piperead (X := X * Z) paway f pi n).
Proof using Hpaway. induction f as [|f IH]; cbn [piperead]; evens. Qed.
Lemma even_pipewrite f pi n : ∀ todo, even kfs (pipewrite (X := X * Z) paway f pi n todo).
Proof using Hpaway. induction f as [|f IH]; intros todo; cbn [pipewrite]; evens. Qed.
Hint Resolve even_fileclose even_piperead even_pipewrite : even.

Lemma even_filestat i : even kfs (filestat away fuel i).
Proof using Haway.
  assert (Hs : ∀ ip, even here (stati (X := X * Z) ip)) by (intros; unfold stati; evens). intros h n. unfold filestat. locks.
Qed.
Lemma even_fileread i k : even kfs (fileread away fuel paway dev_read i k).
Proof using Haway Hpaway Hread. intros h n. unfold fileread. locks. Qed.
Lemma even_write_chunk i v : even kfs (write_chunk away fuel dev_write i v).
Proof using Haway Hwrite. intros h n. unfold write_chunk. locks. Qed.
Hint Resolve even_filestat even_fileread even_write_chunk : even.
Lemma even_filewrite i v : even kfs (filewrite away fuel paway dev_write i v).
Proof using Haway Hpaway Hwrite.
  assert (Hl : ∀ f v, even kfs (filewrite_loop away fuel dev_write f i v)) by (induction f as [|f IH]; intros w; cbn [filewrite_loop]; evens).
  unfold filewrite. evens.
Qed.
Lemma even_pipealloc : even kfs (pipealloc away fuel page).
Proof using Haway. unfold pipealloc. evens. Qed.
Hint Resolve even_filewrite even_pipealloc : even.

Lemma even_modify_u (f : ust (X * Z) → ust (X * Z)) : (∀ s, uks (f s) = uks s) → even up (modify f).
Proof. intros H h n s a s' Hs [= _ <-]. by rewrite H. Qed.
Lemma even_modify_s (f : fss (X * Z) → fss (X * Z)) : (∀ s, held (f s) = held s ∧ fx (f s) = fx s) → even here (modify f).
Proof. intros H h n s a s' [H1 H2] [= _ <-]. destruct (H s) as [E1 E2]. split; congruence. Qed.
Lemma even_set_ofile (f : ust (X * Z) → list (option nat)) : even up (modify (λ s, set_ofile (f s) s)).
Proof. by apply even_modify_u. Qed.
Lemma even_set_mem (f : ust (X * Z) → Z → Z) : even up (modify (λ s, set_u_mem (f s) s)).
Proof. by apply even_modify_u. Qed.
Lemma even_set_cwd i : even (X := X) here (modify (set_cwd i)).
Proof. by apply even_modify_s. Qed.
Hint Resolve even_set_ofile even_set_mem even_set_cwd : even.

Lemma even_fdalloc f : even up (fdalloc (X := X * Z) f).
Proof. unfold fdalloc. evens. Qed.
Lemma even_nlink i d : even (X := X) here (updi i (λ p, set_i_nlink (s16 (i_nlink p + d)) p)).
Proof. by apply even_updi. Qed.
Lemma even_nlink_sub i d : even (X := X) here (updi i (λ p, set_i_nlink (s16 (i_nlink p - d)) p)).
Proof. by apply even_updi. Qed.
Lemma even_geti_up i : even up (on_ks (on_fs (geti (X := X * Z) i))).
Proof. apply even_on_ks, even_on_fs, even_geti. Qed.
Hint Resolve even_fdalloc even_nlink even_nlink_sub even_geti_up : even.

Lemma even_namei path : even here (namei away fuel dev_read path junk).
Proof using Haway Hread. unfold namei. evens. Qed.
Lemma even_nameiparent path : even here (nameiparent away fuel dev_read path junk).
Proof using Haway Hread. unfold nameiparent. evens. Qed.
Hint Resolve even_namei even_nameiparent : even.

(** The error exit, and what is common to the calls that create. *)
Lemma even_open_file ip omode h n : h !! ip = Some false →
  pc (open_file away fuel ip omode) (λ s, B (<[ip := true]> h) (n + 1) (up s)) (λ _ s, B h n (up s)).
Proof using Haway. intros Hi. unfold open_file. locks. Qed.

Lemma create_up path type major minor h n :
  pc (on_ks (on_fs (create away fuel dev_read dev_write junk path type major minor))) (λ s, B h n (up s))
    (λ o s, match o with None => B h n (up s) | Some ip => h !! ip = Some false ∧ B (<[ip := true]> h) n (up s) end).
Proof using Haway Hread Hwrite.
  set (Q := λ (o : option nat) (s : fss (X * Z)), match o with None => B h n s | Some ip => h !! ip = Some false ∧ B (<[ip := true]> h) n s end).
  exact (pc_on_ks _ (λ s, B h n (kfs s)) (λ o s, Q o (kfs s)) (pc_on_fs _ (B h n) Q
    (create_takes away fuel dev_read dev_write Haway Hread Hwrite junk path type major minor h n))).
Qed.

Lemma even_create_tx path type major minor h n :
  pc (create_tx away fuel dev_read dev_write junk path type major minor) (λ s, B h (n + 1) (up s)) (λ _ s, B h n (up s)).
Proof using Haway Hread Hwrite.
  unfold create_tx. destruct path as [path|]; [|locks].
  eapply pc_bind; [apply create_up|].
  intros [ip|]; cbv beta iota; [|locks]. apply pc_pure. intros Hi. locks.
Qed.

Lemma even_sys_link : even up (sys_link away fuel dev_read dev_write junk).
Proof using Haway Hread Hwrite. intros h n. unfold sys_link, link_bad. locks. Qed.

Lemma even_sys_unlink : even up (sys_unlink away fuel dev_read dev_write junk).
Proof using Haway Hread Hwrite. intros h n. unfold sys_unlink, unlink_bad. locks. Qed.

Lemma even_sys_chdir : even up (sys_chdir away fuel dev_read junk).
Proof using Haway Hread. intros h n. unfold sys_chdir. locks. Qed.

Lemma even_sys_open : even up (sys_open away fuel dev_read dev_write junk).
Proof using Haway Hread Hwrite.
  intros h n. unfold sys_open. apply step_even; [evens|]. intros s. cbv beta.
  destruct (argstr 0 s) as [path|], (argint 1 s) as [omode|]; try (apply pc_even; [by evens|done]).
  eapply step_opens; [by eauto with even nocore|]. intros _. destruct (has_flag omode O_CREATE).
  - eapply pc_bind; [apply create_up|].
    intros [ip|]; cbv beta iota; [|locks]. apply pc_pure. intros Hi. by apply even_open_file.
  - apply step_even; [evens|]. intros [ip|]; cbv beta iota; [|locks].
    eapply step_takes; [by eauto with even nocore|]. intros _ Hi. cbv beta. apply step_even; [evens|]. intros p. cbv beta.
    destruct ((i_type p =? T_DIR) && negb (omode =? O_RDONLY)); [locks|by apply even_open_file].
Qed.

Lemma even_call c m :
  sysfile_call away fuel paway dev_read dev_write junk page exec c = Some m → even up m.
Proof.
  intros E. destruct c; try discriminate E; injection E as <-.
  - unfold sys_pipe. evens.
  - unfold sys_read. evens.
  - unfold sys_exec. evens.
  - unfold sys_fstat. evens.
  - apply even_sys_chdir.
  - unfold sys_dup. evens.
  - apply even_sys_open.
  - unfold sys_write. evens.
  - intros h n. unfold sys_mknod. eapply step_opens; [by eauto with even nocore|]. intros _. apply step_even; [by evens|]. intros s. cbv beta.
    destruct (argint 1 s), (argint 2 s); [apply even_create_tx|locks..].
  - apply even_sys_unlink.
  - apply even_sys_link.
  - intros h n. unfold sys_mkdir. eapply step_opens; [by eauto with even nocore|]. intros _. apply step_even; [by evens|]. intros s.
    apply even_create_tx.
  - unfold sys_close. evens.
Qed.
End calls.

(** C6. Every system call of sysfile.c gives back what it takes, however it
    ends: when it returns, with success or with an error, the process holds
    the inode locks that it held before, and each begin_op has had its
    end_op.  Other processes may run wherever the code sleeps, but they
    neither release the locks of this process nor end its transactions. *)
Theorem syscalls_balanced {X} `{!TxOps X} `{!TxCtl X} away fuel paway dev_read dev_write junk page exec c m
    (s : ust (X * Z)) r s' :
  even here away → even kfs paway →
  (∀ n f ip k, dev_read n = Some f → even here (f ip k)) → (∀ n f ip v, dev_write n = Some f → even here (f ip v)) →
  (∀ path argv, even (λ t, kfs (uks t)) (exec path argv)) →
  sysfile_call away fuel paway dev_read dev_write junk page exec c = Some m → m s = Ret (r, s') →
  held (kfs (uks s')) = held (kfs (uks s)) ∧ (fx (kfs (uks s'))).2 = (fx (kfs (uks s))).2.
Proof.
  intros Ha Hp Hr Hw He Hc E.
  exact (even_call away fuel paway dev_read dev_write junk page exec Ha Hp Hr Hw He c m Hc _ _ s r s' (conj eq_refl eq_refl) E).
Qed.
