(* ===== verification/SysEx.v ===== *)
(** The system calls run: sysfile.c, file.c, fs.c, log.c, bio.c and ide.c
    together, evaluated on the small file system of [FsEx]. *)

From S2P Require Import Prelude Params Bytes Sleeplock Ide Pipe BufCache Bio Log LogProps Tx Fs File Syscall Sysfile FsEx FileProps Balanced.

(** The machine after boot: the buffer cache set up by binit. *)
Definition run_bst : bst := match binit (set_disks (λ _, ex_fsdisk) ex_fresh) with Ret (_, s) => s | _ => ex_fresh end.
Definition run_lst : lst bst := MkLst (MkLog 2 30 0 0 ROOTDEV 0 (replicate 30 0)) run_bst.
Definition run_kst {X} (x : X) : kst X :=
  MkKst (replicate 100 (MkFile FD_NONE 0 0 0 0 0 0)) ∅ [4096; 8192] 0 (MkFss ex_sb ex_ic 0 3 x).

(** A process with the string [str] at 100, a buffer at 300, and the
    arguments [args] on its stack at 200. *)
Definition run_mem (str : list Z) (args : list Z) : Z → Z :=
  umem_store 204 (args ≫= (λ a, put32 0 a (replicate 4 0))) (umem_store 100 (str ++ [0]) (λ _, 0)).
Definition run_ust {X} (x : X) : ust X := MkUst 4096 (λ _, 0) 200 0 (replicate 16 None) (run_kst x).

Section run.
Context {X : Type} `{!TxOps X} `{!TxCtl X}.
Definition no_exec : list Z → list (list Z) → M (ust X) Z := λ _ _, ret (-1).
Definition run_call (c : call) : M (ust X) Z :=
  match sysfile_call (ret tt) 0 (ret tt) (λ _, None) (λ _, None) (replicate 14 0) (replicate 512 0) no_exec c with
  | Some m => m
  | None => ret (-1)
  end.

(** A call of a user program: the string and the arguments are put in place
    first. *)
Definition user_call (c : call) (str : list Z) (args : list Z) : M (ust X) Z :=
  modify (set_u_mem (run_mem str args)) ;;; run_call c.
End run.

Abbreviation ex_ctl := (log_ctl (ret tt) 0 : TxCtl (lst bst)).

(** Create "/b", write three bytes, close it, open it again, read them, and
    look it up after unlinking it. *)
Definition session : M (ust (lst bst)) (list Z * list Z) :=
  r1 <- user_call (TxCtl0 := ex_ctl) sysOpen [47; 98] [100; 514] ;;
  r2 <- user_call (TxCtl0 := ex_ctl) sysWrite [65; 66; 67] [r1; 100; 3] ;;
  r3 <- user_call (TxCtl0 := ex_ctl) sysClose [] [r1] ;;
  r4 <- user_call (TxCtl0 := ex_ctl) sysOpen [47; 98] [100; 0] ;;
  r5 <- user_call (TxCtl0 := ex_ctl) sysRead [] [r4; 300; 10] ;;
  s <- get ;;
  r6 <- user_call (TxCtl0 := ex_ctl) sysClose [] [r4] ;;
  r7 <- user_call (TxCtl0 := ex_ctl) sysUnlink [47; 98] [100] ;;
  r8 <- user_call (TxCtl0 := ex_ctl) sysOpen [47; 98] [100; 0] ;;
  ret ([r1; r2; r3; r4; r5; r6; r7; r8], umem_bytes (u_mem s) 300 3).

Example session_runs : fst <$> (match session (run_ust run_lst) with Ret r => Some r | _ => None end)
  = Some ([0; 3; 0; 0; 3; 0; 0; -1], [65; 66; 67]).
Proof. vm_compute. reflexivity. Qed.

(** mkdir "/b" with the instrumented log. *)
Definition ex_before : ust (lst bst * Z) := set_u_mem (run_mem [47; 98] [100]) (run_ust (run_lst, 0)).

Lemma syscalls_balanced_witness :
  ∃ s', run_call (X := lst bst * Z) (TxCtl0 := counted_ctl (TxCtl0 := ex_ctl)) sysMkdir ex_before = Ret (0, s')
    ∧ held (kfs (uks s')) = held (kfs (uks ex_before)) ∧ (fx (kfs (uks s'))).2 = 0.
Proof.
  destruct (run_call (TxCtl0 := counted_ctl (TxCtl0 := ex_ctl)) sysMkdir ex_before) as [[r s']|?| |] eqn:E;
    [|vm_compute in E; discriminate E..].
  assert (r = 0) as ->.
  { revert E. vm_compute. intros E. injection E as <- _. reflexivity. }
  exists s'. split; [reflexivity|].
  apply (syscalls_balanced (TxCtl0 := ex_ctl) (ret tt) 0 (ret tt) (λ _, None) (λ _, None) (replicate 14 0) (replicate 512 0) no_exec
    sysMkdir (run_call (TxCtl0 := counted_ctl (TxCtl0 := ex_ctl)) sysMkdir) ex_before 0 s').
  - apply even_ret.
  - apply even_ret.
  - intros n f ip k Hf. discriminate Hf.
  - intros n f ip v Hf. discriminate Hf.
  - intros path argv. apply even_ret.
  - reflexivity.
  - exact E.
Defined.
