(* ===== verification/SyscallProps.v ===== *)
(** User pointers: what the argument checks of syscall.c guarantee, and that
    the system calls on files touch no memory but the process's own. *)

From S2P Require Import Prelude Params Bytes Sleeplock Ide Pipe BufCache Bio Log Tx Fs File Syscall Sysfile FsEx Balanced SysEx.

(** * Arguments *)

Lemma fetchstr_loop_spec m n : ∀ a,
  match fetchstr_loop n m a with
  | Some k => (k < n)%nat ∧ m (a + Z.of_nat k) = 0 ∧ ∀ i, (i < k)%nat → m (a + Z.of_nat i) ≠ 0
  | None => ∀ i, (i < n)%nat → m (a + Z.of_nat i) ≠ 0
  end.
Proof.
  induction n as [|n IH]; intros a; cbn [fetchstr_loop]; [lia|].
  destruct (Z.eqb_spec (m a) 0) as [E|E]; [split_and!; [lia|by rewrite Z.add_0_r|lia]|].
  specialize (IH (a + 1)).
  assert (Hs : ∀ i (P : Z → Prop), P (a + 1 + Z.of_nat (i - 1)) → (0 < i)%nat → P (a + Z.of_nat i)).
  { intros i P HP Hi. by replace (a + Z.of_nat i) with (a + 1 + Z.of_nat (i - 1)) by lia. }
  destruct (fetchstr_loop n m (a + 1)) as [k|]; simpl.
  - destruct IH as (H1 & H2 & H3). split_and!; [lia|by replace (a + Z.of_nat (S k)) with (a + 1 + Z.of_nat k) by lia|].
    intros i Hi. destruct (decide (i = 0)%nat) as [->|]; [by rewrite Z.add_0_r|]. apply (Hs i (λ x, m x ≠ 0)); [apply H3; lia|lia].
  - intros i Hi. destruct (decide (i = 0)%nat) as [->|]; [by rewrite Z.add_0_r|]. apply (Hs i (λ x, m x ≠ 0)); [apply IH; lia|lia].
Qed.

(** Address and size lie in the memory of the process. *)
Definition in_process {X} (s : ust X) (a n : Z) : Prop := 0 ≤ a ∧ 0 ≤ n ∧ a + n ≤ u_sz s.

Lemma fetchint_in {X} (s : ust X) a v :
  u_sz s ≤ 2147483648 → 0 ≤ a → fetchint a s = Some v → in_process s a 4.
Proof.
  intros Hsz Ha. unfold fetchint, in_process. destruct (Z.leb_spec (u_sz s) a) as [?|H1]; [done|].
  destruct (Z.ltb_spec (u_sz s) (u32 (a + 4))) as [?|H2]; [done|]. rewrite u32_small in H2 by lia. intros _. lia.
Qed.

Lemma argptr_in {X} (s : ust X) k n p :
  u_sz s ≤ 2147483648 → n < 2147483648 → argptr k n s = Some p → in_process s p n ∧ p < u_sz s.
Proof.
  intros Hsz Hn. unfold argptr, in_process. destruct (argint k s) as [i|]; [|done]. pose proof (u32_range i).
  destruct (Z.ltb_spec n 0) as [?|H1]; [done|]. destruct (Z.leb_spec (u_sz s) (u32 i)) as [?|H2]; [done|].
  destruct (Z.ltb_spec (u_sz s) (u32 (u32 i + n))) as [?|H3]; [done|]. simpl. intros [= <-]. rewrite u32_small in H3 by lia. lia.
Qed.

(** The checks of syscall.c keep every access inside the process: an int
    is fetched only from four bytes of its memory, argptr returns only
    pointers to [n] bytes of it, whatever the user passes, and fetchstr
    returns the string up to the first NUL exactly when there is a NUL
    between the address and the end of the memory.  None of the additions
    overflows, since user memory ends at KERNBASE. *)
Theorem user_pointers_checked {X} (s : ust X) :
  0 ≤ u_sz s ≤ KERNBASE →
  (∀ a v, 0 ≤ a < 4294967296 → fetchint a s = Some v → in_process s a 4)
  ∧ (∀ k n p, n < 2147483648 → argptr k n s = Some p → in_process s p n ∧ p < u_sz s)
  ∧ (∀ a, 0 ≤ a < 4294967296 →
       (∀ str, fetchstr a s = Some str ↔
          a + Z.of_nat (length str) < u_sz s ∧ u_mem s (a + Z.of_nat (length str)) = 0
          ∧ ∀ i, (i < length str)%nat → u_mem s (a + Z.of_nat i) ≠ 0 ∧ str !! i = Some (u_mem s (a + Z.of_nat i)))
       ∧ (fetchstr a s = None ↔ ∀ x, a ≤ x < u_sz s → u_mem s x ≠ 0)).
Proof.
  change KERNBASE with 2147483648. intros Hsz. split_and!; [intros a v Ha; apply fetchint_in; lia|intros k n p Hn; apply argptr_in; lia|].
  intros a Ha. unfold fetchstr. destruct (Z.leb_spec (u_sz s) a) as [Hge|Hlt].
  { split; [intros str; split; [done|lia]|]. split; [intros _ x Hx; lia|done]. }
  pose proof (fetchstr_loop_spec (u_mem s) (Z.to_nat (u_sz s - a)) a) as H.
  destruct (fetchstr_loop _ _ a) as [k|] eqn:E; simpl.
  - destruct H as (H1 & H2 & H3). assert (Hl : length (umem_bytes (u_mem s) a k) = k) by (unfold umem_bytes; by rewrite length_fmap, length_seq).
    assert (Hi : ∀ i, (i < k)%nat → umem_bytes (u_mem s) a k !! i = Some (u_mem s (a + Z.of_nat i)))
      by (intros i Hi; unfold umem_bytes; rewrite list_lookup_fmap, lookup_seq_lt by done; done).
    split; [|split; [done|]; intros Hno; destruct (Hno (a + Z.of_nat k)); [lia|done]]. intros str. split.
    + intros [= <-]. rewrite Hl. split_and!; [lia|done|]. auto.
    + intros (S1 & S2 & S3). f_equal. assert (Hk : length str = k).
      { destruct (lt_eq_lt_dec (length str) k) as [[Hk|Hk]|Hk]; [by destruct (H3 _ Hk)|done|]. by destruct (proj1 (S3 k Hk)). }
      apply list_eq_same_length with (n := k); [done|done|]. intros i x y Hi' Hx Hy. rewrite Hi in Hx by done.
      rewrite (proj2 (S3 i ltac:(lia))) in Hy. congruence.
  - split; [intros str; split; [done|]|].
    + intros (S1 & S2 & _). by destruct (H (length str) ltac:(lia)).
    + split; [|done]. intros _ x Hx. replace x with (a + Z.of_nat (Z.to_nat (x - a))) by lia. apply H. lia.
Qed.

(** * Memory *)

(** fileread returns at most the bytes asked for. *)
Section read_length.
Context {X : Type} `{!TxOps X} (away : M (fss X) unit) (fuel : nat) (paway : M (kst X) unit).
Context (dev_read : Z → option (nat → Z → M (fss X) (Z * list Z))).
Context (Hdev : ∀ m f ip n, dev_read m = Some f → pc (f ip n) (λ _, True) (λ r _, Z.of_nat (length r.2) ≤ Z.max 0 n)).

Lemma readi_loop_length ip n : 0 ≤ n < 4294967296 → ∀ f tot off, 0 ≤ tot ≤ n →
  pc (readi_loop f ip tot off n) (λ _ : fss X, True) (λ r _, Z.of_nat (length r) ≤ n - tot).
Proof.
  intros Hn. induction f as [|f IH]; intros tot off Ht; cbn [readi_loop]; destruct (Z.ltb_spec tot n) as [Hlt|Hge].
  - by intros s a s' _ E.
  - apply pc_ret. simpl. lia.
  - set (m := Z.min (n - tot) (BSIZE - off mod BSIZE)).
    assert (Hm : 0 < m ≤ n - tot) by (unfold m, BSIZE; pose proof (Z.mod_pos_bound off 512 ltac:(lia)); lia).
    eapply pc_bind with (R := λ _ _, True); [done|]. intros p. eapply pc_bind with (R := λ _ _, True); [done|]. intros b.
    eapply pc_bind with (R := λ _ _, True); [done|]. intros bp. eapply pc_bind with (R := λ _ _, True); [done|]. intros d.
    eapply pc_bind with (R := λ _ _, True); [done|]. intros u. cbv beta zeta. fold m. rewrite (u32_small (tot + m)) by lia.
    eapply pc_bind; [apply IH; lia|]. intros rest. apply pc_ret. intros s Hr. rewrite length_app. unfold slice. rewrite length_take. lia.
  - apply pc_ret. simpl. lia.
Qed.

Lemma readi_length ip off n : 0 ≤ off → 0 ≤ n < 2147483648 →
  pc (readi dev_read ip off n) (λ _, True) (λ r _, Z.of_nat (length r.2) ≤ n).
Proof using Hdev.
  intros Ho Hn. unfold readi. eapply pc_bind with (R := λ _ _, True); [done|]. intros p. cbv beta.
  destruct (i_type p =? T_DEV).
  - destruct ((i_major p <? 0) || (NDEV <=? i_major p)); [apply pc_ret; simpl; lia|]. destruct (dev_read (i_major p)) as [f|] eqn:E; [|apply pc_ret; simpl; lia].
    eapply pc_weaken; [by eapply Hdev|done|]. intros r s H. cbv beta in H. lia.
  - destruct (Z.ltb_spec (i_size p) off) as [?|H1]; [apply pc_ret; simpl; lia|]. destruct (Z.ltb_spec (u32 (off + n)) off) as [?|H2]; [apply pc_ret; simpl; lia|].
    cbn [orb]. set (n' := if i_size p <? u32 (off + n) then u32 (i_size p - off) else n).
    assert (Hn' : 0 ≤ n' ≤ n).
    { unfold n'. destruct (Z.ltb_spec (i_size p) (u32 (off + n))); [|lia]. pose proof (u32_range (i_size p - off)).
      assert (∀ x, 0 ≤ x → u32 x ≤ x) as Hle by (intros x Hx; unfold u32; apply Z.mod_le; lia).
      pose proof (Hle (i_size p - off) ltac:(lia)). pose proof (Hle (off + n) ltac:(lia)). lia. }
    cbv zeta. eapply pc_bind; [apply readi_loop_length; lia|]. intros r. apply pc_ret. simpl. intros s Hr. lia.
Qed.

Lemma piperead_copy_length n : ∀ p bs p', piperead_copy n p = (bs, p') → (length bs ≤ n)%nat.
Proof.
  induction n as [|n IH]; intros p bs p' E; cbn [piperead_copy] in E; [injection E as <- _; simpl; lia|].
  destruct (nread p =? nwrite p); [injection E as <- _; simpl; lia|]. simpl in E.
  destruct (piperead_copy n _) as [bs2 p2] eqn:E2. injection E as <- _. simpl. apply IH in E2. lia.
Qed.

Lemma piperead_try_length k n p bs p' : piperead_try k n p = (RDone bs, p') → (length bs ≤ n)%nat.
Proof.
  unfold piperead_try. destruct ((nread p =? nwrite p) && negb (writeopen p =? 0)); [by destruct k|].
  destruct (piperead_copy n p) as [bs0 p0] eqn:E0. intros [= <- _]. by apply piperead_copy_length in E0.
Qed.

Lemma piperead_length pi n : 0 ≤ n → ∀ f, pc (piperead (X := X) paway f pi n) (λ _, True) (λ r _, Z.of_nat (length r.2) ≤ n).
Proof.
  intros Hn. induction f as [|f IH]; cbn [piperead];
    (eapply pc_bind with (R := λ _ _, True); [done|]; intros p; eapply pc_bind with (R := λ _ _, True); [done|]; intros s; cbv beta);
    destruct (piperead_try (negb (killed s =? 0)) (Z.to_nat n) p) as [r p'] eqn:E; destruct r as [bs| |];
    (eapply pc_bind with (R := λ _ _, True); [done|]; intros u; cbv beta).
  all: try (apply pc_ret; simpl; intros _ _; try (apply piperead_try_length in E); lia).
  - by intros t a t' _ E'.
  - eapply pc_bind with (R := λ _ _, True); [done|]. intros u'. exact IH.
Qed.

Lemma fileread_length i n : 0 ≤ n < 2147483648 →
  pc (fileread away fuel paway dev_read i n) (λ s, Forall (λ f, 0 ≤ f_off f) (ftable s)) (λ r _, Z.of_nat (length r.2) ≤ n).
Proof using Hdev.
  intros Hn s r s' Hs. unfold fileread, bind at 1, getf, bind at 1, get. destruct (ftable s !! i) as [f|] eqn:Hf; [|done]. unfold of_option, ret at 1.
  assert (Ho : 0 ≤ f_off f) by (rewrite Forall_lookup in Hs; by eapply Hs). clear Hs Hf. revert s r s'.
  cut (pc (if f_readable f =? 0 then ret (-1, [])
    else match f_type f with
         | FD_NONE => panic "fileread"
         | FD_PIPE => piperead paway fuel (f_pipe f) n
         | FD_INODE =>
             on_fs (ilock away fuel (f_ip f)) ;;;
             r <- on_fs (readi dev_read (f_ip f) (f_off f) n) ;;
             (if 0 <? r.1 then updf i (λ f, set_f_off (u32 (f_off f + r.1)) f) else ret tt) ;;;
             on_fs (iunlock (f_ip f)) ;;;
             ret r
         end) (λ _, True) (λ (r : Z * list Z) _, Z.of_nat (length r.2) ≤ n)); [intros H s r s'; by apply H|].
  destruct (f_readable f =? 0); [apply pc_ret; simpl; lia|]. destruct (f_type f); [by intros s r s' _ E|apply piperead_length; lia|].
  eapply pc_bind with (R := λ _ _, True); [done|]. intros u. cbv beta.
  eapply pc_bind; [apply (pc_on_fs _ (λ _, True) (λ r _, Z.of_nat (length r.2) ≤ n)), readi_length; lia|]. intros r. cbv beta.
  eapply pc_bind with (R := λ _ _, Z.of_nat (length r.2) ≤ n); [intros s a s' H _; exact H|]. intros u'.
  eapply pc_bind with (R := λ _ _, Z.of_nat (length r.2) ≤ n); [intros s a s' H _; exact H|]. intros u''. apply pc_ret. done.
Qed.
End read_length.

(** The word of argument [k], above the return address on the user stack. *)
Definition arg_word {X} (s : ust X) (k : Z) : Z := get32 (umem_bytes (u_mem s) (u32 (u_esp s + 4 + 4 * k)) 4) 0.

(** The buffer that a call gives the kernel to write to: read(fd, buf, n),
    fstat(fd, st) with the 20 bytes of a struct stat, pipe(p) with two ints;
    address and length. *)
Definition out_buffer {X} (c : call) (s : ust X) : Z * Z :=
  match c with
  | sysRead => (u32 (arg_word s 1), s32 (arg_word s 2))
  | sysFstat => (u32 (arg_word s 1), 20)
  | sysPipe => (u32 (arg_word s 0), 8)
  | _ => (0, 0)
  end.

(** Code that leaves the memory alone. *)
Section still.
Context {X : Type}.
Definition still {A} (c : M (ust X) A) : Prop :=
  ∀ m z, pc c (λ s, u_mem s = m ∧ u_sz s = z) (λ _ s, u_mem s = m ∧ u_sz s = z).

Lemma still_bind {A C} (c : M (ust X) A) (k : A → M (ust X) C) : still c → (∀ a, still (k a)) → still (bind c k).
Proof. intros Hc Hk m z. eapply pc_bind; [apply Hc|]. intros a. apply Hk. Qed.
Lemma still_ret {A} (a : A) : still (ret a).
Proof. intros m z. by apply pc_ret. Qed.
Lemma still_get : still get.
Proof. intros m z s a s' Hs [= <- <-]. done. Qed.
Lemma still_panic {A} msg : still (panic msg : M _ A).
Proof. by intros m z s a s' Hs E. Qed.
Lemma still_on_ks {A} (c : M (kst X) A) : still (on_ks c).
Proof. intros m z s a s' Hs. unfold on_ks. destruct (c (uks s)) as [[b x]|?| |]; try done. intros [= <- <-]. done. Qed.
Lemma still_ofile f : still (modify (λ s, set_ofile (f s) s)).
Proof. intros m z s a s' Hs [= _ <-]. done. Qed.
Lemma still_fdalloc f : still (fdalloc f).
Proof. apply still_bind; [apply still_get|]. intros s. destruct (free_fd _ _); [apply still_bind; [apply still_ofile|]; intros; apply still_ret|apply still_ret]. Qed.
End still.

Create HintDb still.
#[export] Hint Resolve still_ret still_get still_panic still_on_ks still_ofile still_fdalloc : still.
Ltac stills :=
  repeat (cbv beta zeta; lazymatch goal with
  | |- still (bind _ _) => apply still_bind; [|intros ?]
  | |- still (if ?b then _ else _) => destruct b
  | |- still (match ?x with _ => _ end) => destruct x
  | |- still _ => by auto with still nocore
  end).

Section confined.
Context {X : Type} `{!TxOps X} `{!TxCtl X}.
Context (away : M (fss X) unit) (fuel : nat) (paway : M (kst X) unit).
Context (dev_read : Z → option (nat → Z → M (fss X) (Z * list Z))).
Context (dev_write : Z → option (nat → list Z → M (fss X) Z)).
Context (junk page : list Z) (exec : list Z → list (list Z) → M (ust X) Z).
Context (Hdev : ∀ m f ip n, dev_read m = Some f → pc (f ip n) (λ _, True) (λ r _, Z.of_nat (length r.2) ≤ Z.max 0 n)).

(** Nothing but the [n] bytes at [b], within the process, has changed. *)
Definition confined (b n : Z) (s s' : ust X) : Prop :=
  u_sz s' = u_sz s ∧ ∀ x, ¬ (b ≤ x < b + n ∧ 0 ≤ x < u_sz s) → u_mem s' x = u_mem s x.

Lemma still_confined {A} (c : M (ust X) A) b n s a s' : still c → c s = Ret (a, s') → confined b n s s'.
Proof. intros H E. destruct (H (u_mem s) (u_sz s) s a s' (conj eq_refl eq_refl) E) as [E1 E2]. split; [done|]. intros. by rewrite E1. Qed.

Lemma store_outside b n a v m x z :
  0 ≤ b ≤ a → a + Z.of_nat (length v) ≤ b + n ≤ z → ¬ (b ≤ x < b + n ∧ 0 ≤ x < z) → umem_store a v m x = m x.
Proof. intros. unfold umem_store. destruct (Z.leb_spec a x), (Z.ltb_spec x (a + Z.of_nat (length v))); simpl; try done. lia. Qed.

(** Code that leaves memory alone and then stores within the buffer. *)
Lemma store_confined {A} (c : M (ust X) A) (f : ust X → Z → Z) b n s a s1 :
  still c → c s = Ret (a, s1) → (∀ x, ¬ (b ≤ x < b + n ∧ 0 ≤ x < u_sz s) → f s1 x = u_mem s1 x) →
  confined b n s (set_u_mem (f s1) s1).
Proof.
  intros Hc E Hf. destruct (still_confined c b n s a s1 Hc E) as [E1 E2]. split; [done|]. intros x Hx. simpl. rewrite Hf by done. by apply E2.
Qed.

Lemma u32_s32 x : u32 (s32 x) = u32 x.
Proof.
  unfold s32. cbv zeta. destruct (_ <? _); [apply u32_idem|]. rewrite u32_sub_l. unfold u32.
  rewrite <- (Z_mod_plus_full x (-1)). done.
Qed.

Lemma argint_word (s : ust X) k i : argint k s = Some i → i = s32 (arg_word s k).
Proof. unfold argint, fetchint. destruct (_ || _); [done|]. by intros [= <-]. Qed.

Lemma argptr_word (s : ust X) k n p : argptr k n s = Some p → p = u32 (arg_word s k).
Proof.
  unfold argptr. destruct (argint k s) as [i|] eqn:E; [|done]. apply argint_word in E as ->.
  destruct (_ || _); [done|]. intros [= <-]. apply u32_s32.
Qed.

Lemma sys_read_confined s r s' :
  0 ≤ u_sz s ≤ KERNBASE → Forall (λ f, 0 ≤ f_off f) (ftable (uks s)) →
  sys_read away fuel paway dev_read s = Ret (r, s') → confined (u32 (arg_word s 1)) (s32 (arg_word s 2)) s s'.
Proof using Hdev.
  intros Hsz Hoff. change KERNBASE with 2147483648 in Hsz. unfold sys_read, bind at 1, get. destruct (argfd 0 s) as [[fd f]|]; [|by intros [= _ <-]].
  destruct (argint 2 s) as [n|] eqn:En; [|by intros [= _ <-]]. destruct (argptr 1 n s) as [p|] eqn:Ep; [|by intros [= _ <-]].
  apply argint_word in En. rewrite <- En. rewrite <- (argptr_word _ _ _ _ Ep).
  assert (Hn : n < 2147483648) by (rewrite En; pose proof (s32_range (arg_word s 2)); lia).
  destruct (argptr_in s 1 n p ltac:(lia) Hn Ep) as [(P1 & P2 & P3) _].
  set (c := on_ks (fileread away fuel paway dev_read f n)). unfold bind at 1. destruct (c s) as [[q s1]|?| |] eqn:E; try done.
  assert (Hq : Z.of_nat (length q.2) ≤ n).
  { revert E. unfold c, on_ks. destruct (fileread away fuel paway dev_read f n (uks s)) as [[q' k]|?| |] eqn:Ef; try done. intros [= <- _].
    eapply (fileread_length away fuel paway dev_read Hdev f n); [lia|exact Hoff|exact Ef]. }
  intros [= _ <-]. apply (store_confined c (λ t, umem_store p q.2 (u_mem t)) p n s q s1 (still_on_ks _) E).
  intros x Hx. apply (store_outside p n _ _ _ _ (u_sz s)); [lia|lia|done].
Qed.

Lemma stat_outside p st m x z : 0 ≤ p → p + 20 ≤ z → ¬ (p ≤ x < p + 20 ∧ 0 ≤ x < z) → stat_store p st m x = m x.
Proof. intros. unfold stat_store. rewrite !(store_outside p 20 _ _ _ _ z); rewrite ?put32_length, ?put16_length, ?length_replicate; try done; lia. Qed.

Lemma sys_fstat_confined s r s' :
  0 ≤ u_sz s ≤ KERNBASE → sys_fstat away fuel s = Ret (r, s') → confined (u32 (arg_word s 1)) 20 s s'.
Proof.
  intros Hsz. change KERNBASE with 2147483648 in Hsz. unfold sys_fstat, bind at 1, get. destruct (argfd 0 s) as [[fd f]|]; [|by intros [= _ <-]].
  destruct (argptr 1 20 s) as [p|] eqn:Ep; [|by intros [= _ <-]]. rewrite <- (argptr_word _ _ _ _ Ep).
  destruct (argptr_in s 1 20 p ltac:(lia) ltac:(lia) Ep) as [(P1 & P2 & P3) _].
  set (c := on_ks (filestat away fuel f)). unfold bind at 1. destruct (c s) as [[q s1]|?| |] eqn:E; try done.
  destruct (q.2) as [st|].
  - intros [= _ <-]. apply (store_confined c (λ t, stat_store p st (u_mem t)) p 20 s q s1 (still_on_ks _) E).
    intros x Hx. by apply (stat_outside _ _ _ _ (u_sz s)).
  - intros [= _ <-]. exact (still_confined c p 20 s q s1 (still_on_ks _) E).
Qed.

(** sys_pipe up to the stores. *)
Definition pipe_fds : M (ust X) (option (Z * Z)) :=
  o <- on_ks (pipealloc away fuel page) ;;
  match o with
  | None => ret None
  | Some (rf, wf) =>
      fd0 <- fdalloc rf ;;
      if fd0 <? 0 then on_ks (fileclose away fuel rf) ;;; on_ks (fileclose away fuel wf) ;;; ret None else
      fd1 <- fdalloc wf ;;
      if fd1 <? 0 then
        modify (λ s, set_ofile (<[Z.to_nat fd0 := None]> (ofile s)) s) ;;;
        on_ks (fileclose away fuel rf) ;;; on_ks (fileclose away fuel wf) ;;; ret None
      else ret (Some (fd0, fd1))
  end.

Lemma sys_pipe_split s : sys_pipe away fuel page s =
  match argptr 0 8 s with
  | None => Ret (-1, s)
  | Some p =>
      bind pipe_fds (λ o, match o with
        | None => ret (-1)
        | Some (fd0, fd1) => modify (λ s, set_u_mem (umem_store (p + 4) (put32 0 fd1 (replicate 4 0)) (umem_store p (put32 0 fd0 (replicate 4 0)) (u_mem s))) s) ;;; ret 0
        end) s
  end.
Proof.
  unfold sys_pipe, bind at 1, get. destruct (argptr 0 8 s) as [p|]; [|done]. unfold pipe_fds, bind.
  destruct (on_ks (pipealloc away fuel page) s) as [[[[rf wf]|] s1]|?| |]; try done.
  destruct (fdalloc rf s1) as [[fd0 s2]|?| |]; try done. destruct (fd0 <? 0).
  { destruct (on_ks (fileclose away fuel rf) s2) as [[u s3]|?| |]; try done. by destruct (on_ks (fileclose away fuel wf) s3) as [[u' s4]|?| |]. }
  destruct (fdalloc wf s2) as [[fd1 s3]|?| |]; try done. destruct (fd1 <? 0); [|done]. unfold modify.
  destruct (on_ks (fileclose away fuel rf) _) as [[u s4]|?| |]; try done. by destruct (on_ks (fileclose away fuel wf) s4) as [[u' s5]|?| |].
Qed.

Lemma sys_pipe_confined s r s' :
  0 ≤ u_sz s ≤ KERNBASE → sys_pipe away fuel page s = Ret (r, s') → confined (u32 (arg_word s 0)) 8 s s'.
Proof.
  intros Hsz. change KERNBASE with 2147483648 in Hsz. rewrite sys_pipe_split. destruct (argptr 0 8 s) as [p|] eqn:Ep; [|by intros [= _ <-]].
  rewrite <- (argptr_word _ _ _ _ Ep). destruct (argptr_in s 0 8 p ltac:(lia) ltac:(lia) Ep) as [(P1 & P2 & P3) _]. assert (Hs : still pipe_fds) by (unfold pipe_fds; stills).
  unfold bind at 1. destruct (pipe_fds s) as [[[[fd0 fd1]|] s1]|?| |] eqn:E; try done.
  - intros [= _ <-]. apply (store_confined pipe_fds (λ t, umem_store (p + 4) (put32 0 fd1 (replicate 4 0)) (umem_store p (put32 0 fd0 (replicate 4 0)) (u_mem t))) p 8 s _ s1 Hs E).
    intros x Hx. rewrite !(store_outside p 8 _ _ _ _ (u_sz s)); rewrite ?put32_length, ?length_replicate; try done; lia.
  - intros [= _ <-]. exact (still_confined pipe_fds p 8 s _ s1 Hs E).
Qed.
End confined.

(** C24. The kernel writes only where the process asks it to, and only to the
    process's own memory: when a system call of sysfile.c other than exec
    returns, whatever its arguments, every byte outside the buffer that the
    call names, and every byte outside the process, is the one from before;
    only read, fstat and pipe have such a buffer.  A device driver is assumed
    to return no more bytes than it is asked for. *)
Theorem user_memory_confined {X} `{!TxOps X} `{!TxCtl X} away fuel paway dev_read dev_write junk page exec c m (s : ust X) r s' :
  (∀ n f ip k, dev_read n = Some f → pc (f ip k) (λ _, True) (λ r _, Z.of_nat (length r.2) ≤ Z.max 0 k)) →
  0 ≤ u_sz s ≤ KERNBASE → Forall (λ f, 0 ≤ f_off f) (ftable (uks s)) → c ≠ sysExec →
  sysfile_call away fuel paway dev_read dev_write junk page exec c = Some m → m s = Ret (r, s') →
  let '(b, n) := out_buffer c s in
  u_sz s' = u_sz s ∧ ∀ x, ¬ (b ≤ x < b + n ∧ 0 ≤ x < u_sz s) → u_mem s' x = u_mem s x.
Proof.
  intros Hdev Hsz Hoff Hne Hc E. destruct c; try discriminate Hc; try done; injection Hc as <-.
  - exact (sys_pipe_confined away fuel page s r s' Hsz E).
  - exact (sys_read_confined away fuel paway dev_read Hdev s r s' Hsz Hoff E).
  - exact (sys_fstat_confined away fuel s r s' Hsz E).
  - eapply still_confined; [|exact E]. unfold sys_chdir. stills.
  - eapply still_confined; [|exact E]. unfold sys_dup. stills.
  - eapply still_confined; [|exact E]. unfold sys_open, open_file. stills.
  - eapply still_confined; [|exact E]. unfold sys_write. stills.
  - eapply still_confined; [|exact E]. unfold sys_mknod, create_tx. stills.
  - eapply still_confined; [|exact E]. unfold sys_unlink, unlink_bad. stills.
  - eapply still_confined; [|exact E]. unfold sys_link, link_bad. stills.
  - eapply still_confined; [|exact E]. unfold sys_mkdir, create_tx. stills.
  - eapply still_confined; [|exact E]. unfold sys_close. stills.
Qed.

(** The string "/b" at 100. *)
Lemma user_pointers_checked_witness :
  let s := set_u_mem (run_mem [47; 98] [100]) (run_ust run_lst) in
  fetchstr 100 s = Some [47; 98] ∧ argptr 0 5000 s = None ∧ ∀ p, argptr 0 8 s = Some p → in_process s p 8.
Proof.
  intros s. destruct (user_pointers_checked s) as (_ & H1 & H2); [split; vm_compute; discriminate|].
  split_and!.
  - apply (H2 100); [lia|]. split_and!; [reflexivity|reflexivity|].
    intros [|[|i]] Hi; [split; [discriminate|reflexivity]..|simpl in Hi; lia].
  - reflexivity.
  - intros p Hp. apply (H1 0 8 p); [lia|exact Hp].
Defined.

Lemma user_memory_confined_witness :
  let s := set_u_mem (run_mem [] [300]) (run_ust run_lst) in
  ∃ s', run_call (TxCtl0 := ex_ctl) sysPipe s = Ret (0, s') ∧ umem_bytes (u_mem s') 300 8 = [0; 0; 0; 0; 1; 0; 0; 0]
    ∧ u_mem s' 5000 = u_mem s 5000 ∧ u_mem s' 308 = u_mem s 308.
Proof.
  intros s. destruct (run_call (TxCtl0 := ex_ctl) sysPipe s) as [[r s']|?| |] eqn:E; [|vm_compute in E; discriminate E..].
  assert (r = 0 ∧ umem_bytes (u_mem s') 300 8 = [0; 0; 0; 0; 1; 0; 0; 0]) as [-> Hb].
  { revert E. vm_compute. intros E. injection E as <- <-. split; reflexivity. }
  exists s'. split; [reflexivity|]. split; [exact Hb|].
  destruct (user_memory_confined (TxCtl0 := ex_ctl) (ret tt) 0 (ret tt) (λ _, None) (λ _, None) (replicate 14 0) (replicate 512 0) no_exec
    sysPipe (run_call (TxCtl0 := ex_ctl) sysPipe) s 0 s') as [_ H].
  - intros n f ip k Hf. discriminate Hf.
  - split; vm_compute; discriminate.
  - apply Forall_replicate. apply Z.le_refl.
  - discriminate.
  - reflexivity.
  - exact E.
  - change (∀ x, ¬ (300 ≤ x < 300 + 8 ∧ 0 ≤ x < u_sz s) → u_mem s' x = u_mem s x) in H.
    split; [apply (H 5000)|apply (H 308)]; lia.
Defined.
