(* ===== verification/SysOpen.v ===== *)
(** open and read together: a program that opens a path and reads from it
    gets the bytes of the file that the path leads to. *)

From S2P Require Import Prelude Params Bytes Sleeplock Ide Pipe BufCache Bio Log LogProps Tx Fs File Syscall Sysfile.
From S2P Require Import FsAt FsAlloc FsMap FsFile FsInode FsDir FsCache FsPath FsTrunc FsContents FsEx FsProps FileAt FileWrite FileTable FileProps Balanced SysEx SyscallProps.

Lemma wp_on_ks {X A} (c : M (kst X) A) (s : ust X) (Q : A → ust X → Prop) :
  wp c (uks s) (λ a x, Q a (set_uks x s)) → wp (on_ks c) s Q.
Proof. intros (a & x & E & H). exists a, (set_uks x s). split; [|done]. unfold on_ks. by rewrite E. Qed.

(** A string argument has no NUL in it. *)
Lemma argstr_chars {X} (s : ust X) k path : argstr k s = Some path → Forall (λ c, c ≠ 0) path.
Proof.
  unfold argstr, fetchstr. destruct (argint k s) as [a|]; [|done]. destruct (u_sz s <=? u32 a); [done|].
  pose proof (fetchstr_loop_spec (u_mem s) (Z.to_nat (u_sz s - u32 a)) (u32 a)) as H.
  destruct (fetchstr_loop _ _ _) as [n|]; [|done]. intros [= <-]. destruct H as (_ & _ & H). unfold umem_bytes.
  apply Forall_fmap, Forall_forall. intros i Hi%elem_of_seq. apply H. lia.
Qed.

Lemma free_fd_spec l : ∀ i j, free_fd l i = Some j → (i ≤ j)%nat ∧ l !! (j - i)%nat = Some None ∧ ∀ k, (k < j - i)%nat → ∃ f, l !! k = Some (Some f).
Proof.
  induction l as [|[f|] l IH]; intros i j H; cbn [free_fd] in H; [done| |].
  - destruct (IH _ _ H) as (H1 & H2 & H3). split_and!; [lia|by replace (j - i)%nat with (S (j - S i)) by lia|].
    intros [|k] Hk; [by exists f|]. apply H3. lia.
  - injection H as <-. rewrite Nat.sub_diag. split_and!; [lia|done|lia].
Qed.

Section open.
Context {X : Type} `{!TxOps X} `{!TxCtl X}.
Context (idle opened : (Z → list Z) → list (Z * list Z) → X → acache → Prop) (recovered : (Z → list Z) → Z → list Z).
Context `{!TxCtlLaws X ROOTDEV idle opened recovered}.
Context (sb : superblock) (cwd : nat) (pid : Z) (Hsb : sb_ok sb).
Context (away : M (fss X) unit) (fuel : nat) (paway : M (kst X) unit).
Context (dev_read : Z → option (nat → Z → M (fss X) (Z * list Z))).
Context (dev_write : Z → option (nat → list Z → M (fss X) Z)).
Context (junk : list Z) (Hjunk : length junk = 14%nat).
Abbreviation at_rest := (at_rest idle sb cwd pid).
Abbreviation ic_rep := (ic_rep sb pid).
Abbreviation dino := (dino sb).

(** The file table entry that open makes. *)
Definition opened_file (omode : Z) (ip : nat) (f : file) : file :=
  set_f_inode (bool_int (negb (has_flag omode O_WRONLY))) (bool_int (has_flag omode O_WRONLY || has_flag omode O_RDWR)) ip (set_f_ref 1 f).

Lemma wp_sys_open s path omode ic D ws V m pc n fi f fd (Q : Z → ust X → Prop) :
  argstr 0 s = Some path → argint 1 s = Some omode → has_flag omode O_CREATE = false →
  at_rest (kfs (uks s)) ic D ws V → ic_rep V ic m None → (size m ≤ 48)%nat → tree_ok sb V → live sb V ROOTINO →
  ic !! cwd = Some pc → 0 < i_ref pc → live sb V (i_inum pc) → meta_used sb V →
  walk sb V false (if bool_decide (hd 0 path = 47) then ROOTINO else i_inum pc) (path_elems path) = Some n →
  regular sb V n → i_type (dino V n) ≠ 0 → i_type (dino V n) ≠ T_DIR ∨ omode = O_RDONLY →
  free_file (ftable (uks s)) 0 = Some fi → ftable (uks s) !! fi = Some f → free_fd (ofile s) 0 = Some fd →
  (∀ s' ic' ip w, u_mem s' = u_mem s → ofile s' = <[fd := Some fi]> (ofile s) →
     ftable (uks s') = <[fi := opened_file omode ip f]> (ftable (uks s)) →
     at_rest (kfs (uks s')) ic' (apply_writes w D) (ws ++ w) V → ic_rep V ic' (inc n m) None → file_in sb V ic' ip n →
     crash_safe recovered D w V V → Q (Z.of_nat fd) s') →
  wp (sys_open away fuel dev_read dev_write junk) s Q.
Proof.
  intros Hpath Hmode Hcr F R Hm Htree Hroot Hc Hrc Hlc Hmu Hwalk Hreg Hty Hdir Hfi Hf Hfd HQ.
  unfold sys_open. apply wp_bind, wp_get. rewrite Hpath, Hmode.
  apply wp_bind, wp_on_ks, wp_on_fs, (wp_begin_op _ _ _ sb cwd pid _ _ _ _ _ _ F). intros s1 F1. unfold in_tx in F1. rewrite Hcr.
  apply wp_bind, wp_on_ks, wp_on_fs. unfold namei. apply wp_bind. simpl.
  apply (wp_namex _ sb cwd pid Hsb away fuel dev_read s1 ic V ∅ m pc path false junk _ F1 R); [rewrite size_empty; lia|done..|by eapply argstr_chars|done|].
  rewrite Hwalk. intros s2 ic2 r name' F2 (ip & p & -> & Hp & Hpn & Hpr & R2) _ _. apply wp_ret.
  apply wp_bind, wp_on_ks, wp_on_fs. simpl.
  apply (wp_ilock _ sb cwd pid Hsb away fuel s2 ic2 V ∅ (inc n m) ip p _ F2 R2 Hp Hpr); [by rewrite Hpn|rewrite size_empty; lia|].
  intros ic3 p3 s3 F3 R3 Hp3 Hd3 Hn3 Hr3 E3 _. rewrite Hpn in Hn3, E3.
  apply wp_bind, wp_on_ks, wp_on_fs. simpl. apply (wp_geti F3 Hp3). apply on_disk_eq in E3 as E3'. destruct E3' as (E31 & _).
  assert (Hcond : (i_type p3 =? T_DIR) && negb (omode =? O_RDONLY) = false).
  { rewrite E31. destruct Hdir as [Hdir| ->]; [by rewrite (proj2 (Z.eqb_neq _ _) Hdir)|by rewrite andb_false_r]. }
  rewrite Hcond. unfold open_file.
  apply wp_bind, wp_on_ks. unfold filealloc. apply wp_bind, wp_get. simpl. rewrite Hfi.
  apply wp_bind. eapply wp_updf; [exact Hf|]. apply wp_ret.
  apply wp_bind. unfold fdalloc. apply wp_bind, wp_get. simpl. rewrite Hfd. apply wp_bind, wp_modify, wp_ret.
  destruct (Z.ltb_spec (Z.of_nat fd) 0); [lia|].
  apply wp_bind, wp_on_ks, wp_on_fs. simpl.
  apply (wp_iunlock _ sb cwd pid s3 ic3 V ∅ ∅ (inc n m) ip p3 _ F3 R3 Hp3); [lia|]. intros ic4 p4 s4 F4 R4 _ Hp4 Hn4 Hr4.
  apply wp_bind, wp_on_ks, wp_on_fs. simpl. apply (wp_end_op _ _ recovered sb cwd pid _ _ _ _ _ _ _ _ F4). intros s5 w F5 C.
  apply wp_bind, wp_on_ks. assert (Lf : (fi < length (ftable (uks s)))%nat) by (by eapply lookup_lt_Some).
  eapply wp_updf; [simpl; by apply list_lookup_insert_eq|]. apply wp_ret.
  eapply (HQ _ ic4 ip w); [done|done| |exact F5|exact R4| |exact C].
  - simpl. by rewrite list_insert_insert_eq.
  - split; [exists p4; split_and!; [done|lia|congruence]|done..].
Qed.
End open.

Lemma umem_store_bytes a v m : umem_bytes (umem_store a v m) a (length v) = v.
Proof.
  apply list_eq. intros i. unfold umem_bytes. rewrite list_lookup_fmap. destruct (decide (i < length v)%nat) as [Hi|Hi].
  - rewrite lookup_seq_lt by done. simpl. unfold umem_store. rewrite (proj2 (Z.leb_le _ _)), (proj2 (Z.ltb_lt _ _)) by lia. simpl.
    replace (Z.to_nat (a + Z.of_nat i - a)) with i by lia. destruct (lookup_lt_is_Some_2 v i Hi) as [x ->]. done.
  - rewrite lookup_seq_ge, lookup_ge_None_2 by lia. done.
Qed.

(** C5. Opening and reading.  A program opens a path that leads to the file
    [n], without O_CREATE; open returns the lowest free descriptor.  Later,
    with its memory and stack as it likes, it reads from that descriptor:
    read returns the first bytes of the file, as many as there are or as
    were asked for, and stores exactly these at the address given.  Nothing
    on disk changes, whenever the machine stops. *)
Theorem open_read {X} `{!TxOps X} `{!TxCtl X} idle opened recovered `{!TxCtlLaws X ROOTDEV idle opened recovered}
    sb cwd pid away fuel paway dr dw junk s path omode ic D ws V m pc n fi f fd :
  sb_ok sb → length junk = 14%nat →
  argstr 0 s = Some path → argint 1 s = Some omode → has_flag omode O_CREATE = false → has_flag omode O_WRONLY = false →
  at_rest idle sb cwd pid (kfs (uks s)) ic D ws V → ic_rep sb pid V ic m None → (size m ≤ 48)%nat → tree_ok sb V → live sb V ROOTINO →
  ic !! cwd = Some pc → 0 < i_ref pc → live sb V (i_inum pc) → meta_used sb V →
  walk sb V false (if bool_decide (hd 0 path = 47) then ROOTINO else i_inum pc) (path_elems path) = Some n →
  regular sb V n → i_type (dino sb V n) ≠ 0 → i_type (dino sb V n) ≠ T_DIR ∨ omode = O_RDONLY →
  free_file (ftable (uks s)) 0 = Some fi → ftable (uks s) !! fi = Some f →
  free_fd (ofile s) 0 = Some fd → length (ofile s) = Z.to_nat NOFILE →
  ∃ s1 w, sys_open away fuel dr dw junk s = Ret (Z.of_nat fd, s1) ∧ crash_safe recovered D w V V
    ∧ ofile s1 = <[fd := Some fi]> (ofile s)
    ∧ ∀ s2 len p, uks s2 = uks s1 → ofile s2 = ofile s1 →
        argint 0 s2 = Some (Z.of_nat fd) → argint 2 s2 = Some len → 0 ≤ len < 2147483648 → argptr 1 len s2 = Some p →
        let bs := take (Z.to_nat len) (fcontents sb V n) in
        ∃ s3, sys_read away fuel paway dr s2 = Ret (Z.of_nat (length bs), s3)
          ∧ u_mem s3 = umem_store p bs (u_mem s2) ∧ umem_bytes (u_mem s3) p (length bs) = bs.
Proof.
  intros Hsb Hjunk Hpath Hmode Hcr Hwr F R Hm Htree Hroot Hc Hrc Hlc Hmu Hwalk Hreg Hty Hdir Hfi Hf Hfd Hlen.
  destruct (wp_sys_open idle opened recovered sb cwd pid Hsb away fuel dr dw junk Hjunk s path omode ic D ws V m pc n fi f fd
    (λ r s1, r = Z.of_nat fd ∧ ∃ ic' ip w, ofile s1 = <[fd := Some fi]> (ofile s)
      ∧ ftable (uks s1) = <[fi := opened_file omode ip f]> (ftable (uks s))
      ∧ at_rest idle sb cwd pid (kfs (uks s1)) ic' (apply_writes w D) (ws ++ w) V ∧ ic_rep sb pid V ic' (inc n m) None
      ∧ file_in sb V ic' ip n ∧ crash_safe recovered D w V V))
    as (r & s1 & E & -> & ic1 & ip & w & Ho & Ht & F1 & R1 & Hin & C); [done..| |].
  { intros s' ic' ip w _ H1 H2 H3 H4 H5 H6. split; [done|]. by exists ic', ip, w. }
  exists s1, w. split_and!; [done..|]. intros s2 len p Hk Hofs H0 H2 Hl Hp bs.
  destruct (free_fd_spec _ _ _ Hfd) as (_ & Hfd2 & _). rewrite Nat.sub_0_r in Hfd2. pose proof (lookup_lt_Some _ _ _ Hfd2) as Hfdl.
  change (Z.to_nat NOFILE) with 16%nat in Hlen.
  assert (Hargfd : argfd 0 s2 = Some (Z.of_nat fd, fi)).
  { unfold argfd. rewrite H0. destruct (Z.ltb_spec (Z.of_nat fd) 0); [lia|]. destruct (Z.leb_spec NOFILE (Z.of_nat fd)); [unfold NOFILE in *; lia|].
    simpl. rewrite Nat2Z.id, Hofs, Ho, list_lookup_insert_eq by lia. done. }
  assert (Lf : (fi < length (ftable (uks s)))%nat) by (by eapply lookup_lt_Some).
  assert (wp (on_ks (fileread away fuel paway dr fi len)) s2 (λ q t, q = (Z.of_nat (length bs), bs) ∧ u_mem t = u_mem s2)) as (q & t & Er & -> & Hmem).
  { apply wp_on_ks. rewrite Hk.
    apply (wp_fileread idle opened recovered sb cwd pid Hsb away fuel paway dr (uks s1) fi (opened_file omode ip f) ic1
      (apply_writes w D) (ws ++ w) V (inc n m) n 0 len);
      [|done| |done|exact F1|exact R1|exact Hin|lia|done|].
    - rewrite Ht. by apply list_lookup_insert_eq.
    - simpl. rewrite Hwr. done.
    - intros s' ic' _ _ _. by rewrite drop_0. }
  exists (set_u_mem (umem_store p bs (u_mem t)) t). split_and!.
  - unfold sys_read, bind at 1, get. rewrite Hargfd, H2, Hp. rewrite (bind_ret_eval _ _ _ _ _ Er). done.
  - simpl. by rewrite Hmem.
  - apply umem_store_bytes.
Qed.

(** open("/a", O_RDONLY), and read 2 bytes to 300. *)
Lemma open_read_witness :
  ∃ s s1 s2 s3, sys_open (TxCtl0 := ex_ctl) (ret tt) 0 (λ _, None) (λ _, None) (replicate 14 0) s = Ret (0, s1)
    ∧ uks s2 = uks s1 ∧ sys_read (ret tt) 0 (ret tt) (λ _, None) s2 = Ret (2, s3)
    ∧ umem_bytes (u_mem s3) 300 2 = [104; 105].
Proof.
  destruct (ex_on_disk 0 ex_fsdisk ex_ic) as [k F]; [apply ex_fsdisk_length|reflexivity|].
  set (nofile := MkFile FD_NONE 0 0 0 0 0 0).
  set (s := MkUst 4096 (run_mem [47; 97] [100; 0]) 200 0 (replicate 16 None) (MkKst (replicate 100 nofile) ∅ [] 0 k)).
  destruct (open_read (TxCtl0 := ex_ctl) (tx_rep ROOTDEV bio_rep 2 0) (tx_rep ROOTDEV bio_rep 2 1) (logical 2)
    ex_sb 0 3 (ret tt) 0 (ret tt) (λ _, None) (λ _, None) (replicate 14 0) s [47; 97] 0 ex_ic ex_fsdisk [] ex_fsdisk ex_refs ex_root 2 0 nofile 0)
    as (s1 & w & E1 & _ & Ho & H).
  - exact ex_sb_ok.
  - reflexivity.
  - reflexivity.
  - reflexivity.
  - reflexivity.
  - reflexivity.
  - exact F.
  - exact ex_ic_rep.
  - vm_compute. lia.
  - exact ex_tree.
  - apply ex_live. by left.
  - reflexivity.
  - reflexivity.
  - apply ex_live. by left.
  - exact ex_meta.
  - vm_compute. reflexivity.
  - exact ex_regular.
  - apply ex_file_in.
  - by right.
  - reflexivity.
  - reflexivity.
  - reflexivity.
  - reflexivity.
  - set (s2 := MkUst 4096 (run_mem [] [0; 300; 2]) 200 0 (ofile s1) (uks s1)).
    destruct (H s2 2 300) as (s3 & E3 & _ & B3); [reflexivity|reflexivity|reflexivity|reflexivity|lia|reflexivity|].
    assert (Eb : take (Z.to_nat 2) (fcontents ex_sb ex_fsdisk 2) = [104; 105]) by (vm_compute; reflexivity).
    rewrite Eb in E3, B3. exists s, s1, s2, s3. split_and!; [exact E1|reflexivity|exact E3|exact B3].
Defined.
