(* ===== verification/User.v ===== *)
(** The user side: the system calls a program makes, the string functions of
    ulib.c, printf of printf.c, and the programs built from them that copy,
    count and print (cat.c, wc.c, echo.c, cp.c).

    A program sees the kernel through the operations of [Sys]; a C string is
    the list of its bytes, without the NUL that ends it. *)

From S2P Require Import Prelude Params Sysfile.

(** * System calls, as user.h declares them *)

Class Sys (S : Type) : Type := {
  read : Z → Z → M S (Z * list Z);          (* fd, n: the count and the bytes *)
  write : Z → list Z → M S Z;               (* fd, bytes: the count *)
  open : list Z → Z → M S Z;                (* path, mode: the descriptor *)
  close : Z → M S Z
}.

(** What a program relies on when descriptor [fd] is a stream whose bytes not
    yet read are [src] and what descriptor [fo] has been given is [out]: a
    read returns some of the bytes that are there, none only at the end; a
    write takes everything and leaves what the program sees otherwise, [view],
    as it is.  [ok] holds of the states the program runs in;
    no program here moves more than 1024 bytes at once. *)
Class Sink (S : Type) `{!Sys S} (fo : Z) (ok : S → Prop) {V : Type} (view : S → V) (out : S → list Z) : Prop :=
  sk_write s bs : ok s → Z.of_nat (length bs) ≤ 1024 → ∃ s', write fo bs s = Ret (Z.of_nat (length bs), s')
    ∧ ok s' ∧ view s' = view s ∧ out s' = out s ++ bs.

Class Stream (S : Type) `{!Sys S} (fd fo : Z) (ok : S → Prop) (src out : S → list Z) : Prop := {
  st_read s n : ok s → 0 < n ≤ 1024 → ∃ bs s', read fd n s = Ret ((Z.of_nat (length bs), bs), s')
    ∧ ok s' ∧ src s = bs ++ src s' ∧ out s' = out s ∧ Z.of_nat (length bs) ≤ n ∧ (bs = [] → src s = []);
  #[global] st_write :: Sink S fo ok src out
}.

(** A file besides returns all that it was asked for, up to its end. *)
Class Filled (S : Type) `{!Sys S} (fd fo : Z) (ok : S → Prop) (src out : S → list Z) `{!Stream S fd fo ok src out} : Prop :=
  fl_read s n bs s' : ok s → 0 < n ≤ 1024 → read fd n s = Ret ((Z.of_nat (length bs), bs), s') → bs = take (Z.to_nat n) (src s).

(** The bytes of a string literal. *)
Fixpoint cs (s : string) : list Z :=
  match s with
  | EmptyString => []
  | String a s => Z.of_nat (Ascii.nat_of_ascii a) :: cs s
  end.

(** * ulib.c *)

(** The offset of the first [c]; a NUL ends the string. *)
Fixpoint strchr (s : list Z) (c : Z) : option nat :=
  match s with
  | [] => None
  | x :: s' => if x =? 0 then None else if x =? c then Some O else S <$> strchr s' c
  end.

Fixpoint strcmp (p q : list Z) : Z :=
  match p, q with
  | x :: p', y :: q' => if x =? y then strcmp p' q' else x - y
  | x :: _, [] => x
  | [], y :: _ => - y
  | [], [] => 0
  end.

Fixpoint atoi_loop (s : list Z) (n : Z) : Z :=
  match s with
  | [] => n
  | c :: s' => if (48 <=? c) && (c <=? 57) then atoi_loop s' (s32 (n * 10 + c - 48)) else n
  end.
Definition atoi (s : list Z) : Z := atoi_loop s 0.

(** * printf.c *)

Definition digits : list Z := cs "0123456789ABCDEF".

(** The digits of [x], least significant first, as in [buf]. *)
Fixpoint print_digits (f : nat) (x base : Z) : list Z :=
  default 0 (digits !! Z.to_nat (x mod base)) ::
  match f with
  | O => []
  | S f' => if x / base =? 0 then [] else print_digits f' (x / base) base
  end.

(** 32 digits are enough for any base. *)
Definition printint_buf (xx base : Z) (sgn : bool) : list Z :=
  let neg := sgn && (xx <? 0) in
  let x := if neg then u32 (- xx) else u32 xx in
  print_digits 32 x base ++ (if neg then [45] else []).

Inductive arg : Type := Word (x : Z) | Str (s : option (list Z)).

Section user.
Context {S : Type} `{!Sys S}.

Definition putc (fd c : Z) : M S unit := write fd [u8 c] ;;; ret tt.

Fixpoint put_all (fd : Z) (l : list Z) : M S unit :=
  match l with
  | [] => ret tt
  | c :: l' => putc fd c ;;; put_all fd l'
  end.

Definition printint (fd xx base : Z) (sgn : bool) : M S unit :=
  put_all fd (reverse (printint_buf xx base sgn)).

(** [pct] is [state == '%']. *)
Fixpoint printf_loop (fd : Z) (fmt : list Z) (pct : bool) (ap : list arg) : M S unit :=
  match fmt with
  | [] => ret tt
  | c :: fmt =>
      if negb pct then
        if c =? 37 then printf_loop fd fmt true ap
        else putc fd c ;;; printf_loop fd fmt false ap
      else if c =? 100 then
        match ap with
        | Word x :: ap => printint fd x 10 true ;;; printf_loop fd fmt false ap
        | _ => undef
        end
      else if (c =? 120) || (c =? 112) then
        match ap with
        | Word x :: ap => printint fd x 16 false ;;; printf_loop fd fmt false ap
        | _ => undef
        end
      else if c =? 115 then
        match ap with
        | Str s :: ap => put_all fd (default (cs "(null)") s) ;;; printf_loop fd fmt false ap
        | _ => undef
        end
      else if c =? 99 then
        match ap with
        | Word x :: ap => putc fd x ;;; printf_loop fd fmt false ap
        | _ => undef
        end
      else if c =? 37 then putc fd c ;;; printf_loop fd fmt false ap
      else putc fd 37 ;;; putc fd c ;;; printf_loop fd fmt false ap
  end.

Definition printf (fd : Z) (fmt : list Z) (ap : list arg) : M S unit := printf_loop fd fmt false ap.

(** * ulib.c: copyfd *)
Fixpoint copyfd (f : nat) (srcfd dstfd : Z) : M S Z :=
  match f with
  | O => out_of_fuel
  | Datatypes.S f' =>
      r <- read srcfd 512 ;;
      if 0 <? r.1 then
        w <- write dstfd r.2 ;;
        if negb (w =? r.1) then ret (-1) else copyfd f' srcfd dstfd
      else if r.1 <? 0 then ret (-1) else ret 0
  end.

(** * Programs

    exit() ends a program: a function that calls it returns [true]. *)

(** cat.c *)
Fixpoint cat (f : nat) (fd : Z) : M S bool :=
  match f with
  | O => out_of_fuel
  | Datatypes.S f' =>
      r <- read fd 512 ;;
      if 0 <? r.1 then
        w <- write 1 r.2 ;;
        if negb (w =? r.1) then printf 1 (cs "cat: write error
") [] ;;; ret true else cat f' fd
      else if r.1 <? 0 then printf 1 (cs "cat: read error
") [] ;;; ret true else ret false
  end.

Fixpoint cat_files (f : nat) (files : list (list Z)) : M S bool :=
  match files with
  | [] => ret true
  | name :: files =>
      fd <- open name 0 ;;
      if fd <? 0 then printf 1 (cs "cat: cannot open %s
") [Str (Some name)] ;;; ret true else
      x <- cat f fd ;;
      if x : bool then ret true else close fd ;;; cat_files f files
  end.

Definition cat_main (f : nat) (argv : list (list Z)) : M S bool :=
  if (length argv <=? 1)%nat then cat f 0 ;;; ret true else cat_files f (tail argv).

(** wc.c: lines, words and characters so far, and whether in a word. *)
Record counts : Type := Counts { c_l : Z; c_w : Z; c_c : Z; inword : bool }.

Definition wc_space : list Z := [32; 13; 9; 10; 11].

(** strchr finds no NUL, so a NUL byte is part of a word. *)
Definition wc_char (a : counts) (x : Z) : counts :=
  let l := if x =? 10 then s32 (c_l a + 1) else c_l a in
  let c := s32 (c_c a + 1) in
  if bool_decide (is_Some (strchr wc_space x)) then Counts l (c_w a) c false
  else if negb (inword a) then Counts l (s32 (c_w a + 1)) c true
  else Counts l (c_w a) c (inword a).

Fixpoint wc_loop (f : nat) (fd : Z) (a : counts) : M S (option counts) :=
  match f with
  | O => out_of_fuel
  | Datatypes.S f' =>
      r <- read fd 512 ;;
      if 0 <? r.1 then wc_loop f' fd (foldl wc_char a r.2)
      else if r.1 <? 0 then ret None else ret (Some a)
  end.

Definition wc (f : nat) (fd : Z) (name : list Z) : M S bool :=
  o <- wc_loop f fd (Counts 0 0 0 false) ;;
  match o with
  | None => printf 1 (cs "wc: read error
") [] ;;; ret true
  | Some a =>
      printf 1 (cs "%d %d %d %s
") [Word (c_l a); Word (c_w a); Word (c_c a); Str (Some name)] ;;; ret false
  end.

(** echo.c *)
Fixpoint echo_args (args : list (list Z)) : M S bool :=
  match args with
  | [] => ret true
  | a :: args =>
      printf 1 (cs "%s%s") [Str (Some a); Str (Some (match args with [] => [10] | _ => [32] end))] ;;; echo_args args
  end.
Definition echo_main (argv : list (list Z)) : M S bool := echo_args (tail argv).

(** cp.c *)
Definition cp_main (f : nat) (argv : list (list Z)) : M S bool :=
  match argv with
  | [_; from; to] =>
      srcfd <- open from O_RDONLY ;;
      if srcfd <? 0 then printf 2 (cs "_cp: cannot open %s
") [Str (Some from)] ;;; ret true else
      dstfd <- open to (Z.lor O_WRONLY O_CREATE) ;;
      if dstfd <? 0 then printf 2 (cs "_cp: cannot open %s
") [Str (Some to)] ;;; close srcfd ;;; ret true else
      r <- copyfd f srcfd dstfd ;;
      if r <? 0 then printf 2 (cs "_cp: copy error
") [] ;;; close srcfd ;;; close dstfd ;;; ret true else
      close srcfd ;;; close dstfd ;;;
      printf 1 (cs "cp successful
") [] ;;; ret true
  | _ => printf 2 (cs "Usage: _cp source dest
") [] ;;; ret true
  end.

End user.
