(* ===== verification/UserProps.v ===== *)
(** What the user programs compute, whatever the sizes in which the kernel
    hands out the bytes of a stream. *)

From S2P Require Import Prelude Params Sysfile User.

(** * Numbers *)

Definition is_digit (c : Z) : Prop := 48 ≤ c ≤ 57.

Lemma digit_char d : 0 ≤ d < 10 → default 0 (digits !! Z.to_nat d) = 48 + d.
Proof.
  intros Hd. assert (d = 0 ∨ d = 1 ∨ d = 2 ∨ d = 3 ∨ d = 4 ∨ d = 5 ∨ d = 6 ∨ d = 7 ∨ d = 8 ∨ d = 9) as H by lia.
  repeat destruct H as [->|H]; try reflexivity. by rewrite H.
Qed.

Lemma print_digits_digits f x : Forall is_digit (print_digits f x 10).
Proof.
  revert x. induction f as [|f IH]; intros x; cbn [print_digits]; pose proof (Z.mod_pos_bound x 10);
    (constructor; [rewrite digit_char by lia; unfold is_digit; lia|]); [constructor|].
  destruct (x / 10 =? 0); [constructor|apply IH].
Qed.

Lemma atoi_loop_app l1 l2 n : Forall is_digit l1 → atoi_loop (l1 ++ l2) n = atoi_loop l2 (atoi_loop l1 n).
Proof.
  revert n. induction l1 as [|c l1 IH]; intros n H; [done|]. inversion H as [|?? Hc]; subst. unfold is_digit in Hc.
  simpl. zcases. auto.
Qed.

Lemma atoi_digits f x : 0 ≤ x < 10 ^ (Z.of_nat f + 1) → x < 2147483648 → atoi (reverse (print_digits f x 10)) = x.
Proof.
  revert x. induction f as [|f IH]; intros x Hx Hs; cbn [print_digits]; rewrite reverse_cons;
    pose proof (Z.mod_pos_bound x 10); pose proof (Z.div_mod x 10).
  - change (10 ^ (Z.of_nat 0 + 1)) with 10 in Hx. rewrite digit_char by lia. cbn. zcases. rewrite s32_small; lia.
  - assert (Hq : atoi (reverse (if x / 10 =? 0 then [] else print_digits f (x / 10) 10)) = x / 10).
    { destruct (Z.eqb_spec (x / 10) 0) as [E|E]; [by rewrite E|]. apply IH; [|lia]. split; [lia|].
      apply Z.div_lt_upper_bound; [lia|]. rewrite <- Z.pow_succ_r by lia.
      replace (Z.succ (Z.of_nat f + 1)) with (Z.of_nat (S f) + 1) by lia. lia. }
    unfold atoi in *. rewrite atoi_loop_app.
    + rewrite Hq, digit_char by lia. cbn. zcases. rewrite s32_small; lia.
    + apply Forall_reverse. destruct (x / 10 =? 0); [constructor|apply print_digits_digits].
Qed.

(** atoi reads back every non-negative number that printint prints with %d. *)
Theorem atoi_printint n : 0 ≤ n < 2147483648 → atoi (reverse (printint_buf n 10 true)) = n.
Proof.
  intros H. unfold printint_buf. destruct (Z.ltb_spec n 0); [lia|]. cbn [andb]. rewrite app_nil_r.
  rewrite u32_small by lia. apply atoi_digits; [|lia].
  change (10 ^ (Z.of_nat 32 + 1)) with 1000000000000000000000000000000000. lia.
Qed.

(** * Output *)

(** What a format and its arguments print; nothing is printed when they do
    not fit together. *)
Fixpoint render (fmt : list Z) (pct : bool) (ap : list arg) : option (list Z) :=
  match fmt with
  | [] => Some []
  | c :: fmt =>
      if negb pct then
        if c =? 37 then render fmt true ap else cons (u8 c) <$> render fmt false ap
      else if (c =? 100) || (c =? 120) || (c =? 112) then
        match ap with
        | Word x :: ap =>
            app (u8 <$> reverse (printint_buf x (if c =? 100 then 10 else 16) (c =? 100))) <$> render fmt false ap
        | _ => None
        end
      else if c =? 115 then
        match ap with
        | Str s :: ap => app (u8 <$> default (cs "(null)") s) <$> render fmt false ap
        | _ => None
        end
      else if c =? 99 then
        match ap with Word x :: ap => cons (u8 x) <$> render fmt false ap | _ => None end
      else if c =? 37 then cons 37 <$> render fmt false ap
      else app [37; u8 c] <$> render fmt false ap
  end.

Section sinks.
Context {S : Type} `{!Sys S} {fo : Z} {ok : S → Prop} {V : Type} {view : S → V} {out : S → list Z} `{!Sink S fo ok view out}.

(** [c] sends [bs] to [fo] and leaves the rest alone. *)
Definition sends (c : M S unit) (bs : list Z) : Prop :=
  ∀ s, ok s → wp c s (λ _ s', ok s' ∧ view s' = view s ∧ out s' = out s ++ bs).

Lemma sends_ret : sends (ret tt) [].
Proof. intros s. intros. apply wp_ret. by rewrite app_nil_r. Qed.

Lemma sends_bind c d b1 b2 : sends c b1 → sends d b2 → sends (c ;;; d) (b1 ++ b2).
Proof.
  intros Hc Hd s Hs. apply wp_bind. eapply wp_mono; [by apply Hc|]. intros _ s1 (K1 & E1 & O1). eapply wp_mono; [by apply Hd|].
  intros _ s2 (K2 & E2 & O2). split_and!; [done|congruence|]. by rewrite O2, O1, app_assoc.
Qed.

Lemma wp_write s bs (Q : Z → S → Prop) : ok s → Z.of_nat (length bs) ≤ 1024 →
  (∀ s', ok s' → view s' = view s → out s' = out s ++ bs → Q (Z.of_nat (length bs)) s') → wp (write fo bs) s Q.
Proof.
  intros Hs Hb H. destruct (sk_write (fo := fo) (ok := ok) (view := view) (out := out) s bs Hs Hb) as (s' & E & H').
  exists (Z.of_nat (length bs)), s'. split; [exact E|]. naive_solver.
Qed.

Lemma sends_putc c : sends (putc fo c) [u8 c].
Proof. intros s Hs. apply wp_bind, wp_write; [done|simpl; lia|]. intros s' Hs' E O. by apply wp_ret. Qed.

Lemma sends_put_all l : sends (put_all fo l) (u8 <$> l).
Proof. induction l as [|c l IH]; [apply sends_ret|]. apply (sends_bind _ _ [u8 c]); [apply sends_putc|done]. Qed.

Lemma sends_printf fmt pct ap bs : render fmt pct ap = Some bs → sends (printf_loop fo fmt pct ap) bs.
Proof.
  revert pct ap bs. induction fmt as [|c fmt IH]; intros pct ap bs H; simpl in *.
  { injection H as <-. apply sends_ret. }
  destruct pct; simpl in *.
  2:{ destruct (c =? 37); [by apply IH|]. apply fmap_Some in H as (bs' & Hr & ->).
      apply (sends_bind _ _ [u8 c]); [apply sends_putc|by apply IH]. }
  destruct (c =? 100); simpl in H.
  { destruct ap as [|[x|] ap]; try discriminate. apply fmap_Some in H as (bs' & Hr & ->).
    apply sends_bind; [apply sends_put_all|by apply IH]. }
  destruct ((c =? 120) || (c =? 112)).
  { destruct ap as [|[x|] ap]; try discriminate. apply fmap_Some in H as (bs' & Hr & ->).
    apply sends_bind; [apply sends_put_all|by apply IH]. }
  destruct (c =? 115).
  { destruct ap as [|[x|] ap]; try discriminate. apply fmap_Some in H as (bs' & Hr & ->).
    apply sends_bind; [apply sends_put_all|by apply IH]. }
  destruct (c =? 99).
  { destruct ap as [|[x|] ap]; try discriminate. apply fmap_Some in H as (bs' & Hr & ->).
    apply (sends_bind _ _ [u8 x]); [apply sends_putc|by apply IH]. }
  destruct (Z.eqb_spec c 37) as [->|]; apply fmap_Some in H as (bs' & Hr & ->).
  - apply (sends_bind _ _ [37]); [apply (sends_putc 37)|by apply IH].
  - apply (sends_bind _ _ [37] (u8 c :: bs')); [apply (sends_putc 37)|].
    apply (sends_bind _ _ [u8 c]); [apply sends_putc|by apply IH].
Qed.

End sinks.

Section streams.
Context {S : Type} `{!Sys S} {fd fo : Z} {ok : S → Prop} {src out : S → list Z} `{!Stream S fd fo ok src out}.

(** A read returns nothing at the end and some bytes before. *)
Lemma wp_read s n (Q : Z * list Z → S → Prop) : ok s → 0 < n ≤ 1024 →
  (∀ s', ok s' → src s = [] → src s' = [] → out s' = out s → Q (0, []) s') →
  (∀ bs s', ok s' → (0 < length bs)%nat → src s = bs ++ src s' → out s' = out s → Z.of_nat (length bs) ≤ n →
     Q (Z.of_nat (length bs), bs) s') →
  wp (read fd n) s Q.
Proof.
  intros Hs Hn H0 H1.
  destruct (st_read (fd := fd) (fo := fo) (ok := ok) (src := src) (out := out) s n Hs Hn) as (bs & s' & E & Hs' & Hi & Ho & Hl & Hr).
  exists (Z.of_nat (length bs), bs), s'. split; [exact E|]. destruct bs as [|b bs]; [|apply H1; [done|simpl; lia|done..]].
  rewrite Hr in * by done. by apply H0.
Qed.

Lemma wp_copyfd f s : ok s → (length (src s) < f)%nat →
  wp (copyfd f fd fo) s (λ r s', r = 0 ∧ ok s' ∧ src s' = [] ∧ out s' = out s ++ src s).
Proof.
  revert s. induction f as [|f IH]; intros s Hs Hf; [lia|]. cbn [copyfd]. wp_step. apply wp_read; [done|lia| |].
  - intros s' Hs' E E' Ho. apply wp_ret. by rewrite E, app_nil_r.
  - intros bs s1 Hs1 Hb E Ho Hn. cbn [fst snd]. zcases.
    wp_step. apply wp_write; [done|lia|]. intros s2 Hs2 E2 O2. rewrite Z.eqb_refl. cbn [negb].
    rewrite E, length_app in Hf. eapply wp_mono; [apply IH; [done|rewrite E2; lia]|].
    intros r s' (-> & Hs' & E' & O'). by rewrite O', O2, Ho, E2, E, app_assoc.
Qed.

Lemma wp_wc_loop f s a : ok s → (length (src s) < f)%nat →
  wp (wc_loop f fd a) s (λ r s', r = Some (foldl wc_char a (src s)) ∧ ok s' ∧ src s' = [] ∧ out s' = out s).
Proof.
  revert s a. induction f as [|f IH]; intros s a Hs Hf; [lia|]. cbn [wc_loop]. wp_step. apply wp_read; [done|lia| |].
  - intros s' Hs' E E' Ho. apply wp_ret. by rewrite E.
  - intros bs s1 Hs1 Hb E Ho _. cbn [fst snd]. zcases.
    rewrite E, length_app in Hf. eapply wp_mono; [apply IH; [done|lia]|]. cbv beta.
    intros r s' (-> & Hs' & E' & O'). rewrite E, foldl_app, O'. done.
Qed.

End streams.

(** * cat copies *)

(** cat writes to standard output exactly the bytes of its input, in however
    many pieces the kernel returns them, and returns. *)
Theorem cat_copies {S} `{!Sys S} fd ok src out `{!Stream S fd 1 ok src out} f s :
  ok s → (length (src s) < f)%nat →
  ∃ s', cat f fd s = Ret (false, s') ∧ ok s' ∧ src s' = [] ∧ out s' = out s ++ src s.
Proof.
  enough (∀ f s, ok s → (length (src s) < f)%nat → wp (cat f fd) s (λ r s', r = false ∧ ok s' ∧ src s' = [] ∧ out s' = out s ++ src s)) as H.
  { intros Hs Hf. destruct (H f s Hs Hf) as (r & s' & E & -> & Hs'). eauto. }
  clear f s. induction f as [|f IH]; intros s Hs Hf; [lia|]. cbn [cat]. wp_step. apply (wp_read (fo := 1) (out := out)); [done|lia| |].
  - intros s' Hs' E E' Ho. apply wp_ret. by rewrite E, app_nil_r.
  - intros bs s1 Hs1 Hb E Ho Hn. cbn [fst snd]. zcases.
    wp_step. apply (wp_write (view := src)); [done|lia|]. intros s2 Hs2 E2 O2. rewrite Z.eqb_refl. cbn [negb].
    rewrite E, length_app in Hf. eapply wp_mono; [apply IH; [done|rewrite E2; lia]|].
    intros r s' (-> & Hs' & E' & O'). by rewrite O', O2, Ho, E2, E, app_assoc.
Qed.

(** * wc counts *)

Abbreviation space x := (bool_decide (is_Some (strchr wc_space x))).

(** The maximal runs of non-space bytes; [cur] is the run in progress. *)
Fixpoint words_from (cur l : list Z) : list (list Z) :=
  match l with
  | [] => if bool_decide (cur = []) then [] else [cur]
  | x :: l =>
      if space x then
        if bool_decide (cur = []) then words_from [] l else cur :: words_from [] l
      else words_from (cur ++ [x]) l
  end.
Definition words : list Z → list (list Z) := words_from [].
Definition newlines (l : list Z) : list Z := filter (.= 10) l.

Definition started (b : bool) : Z := if b then 1 else 0.

Lemma words_from_in cur l : cur ≠ [] → (1 ≤ length (words_from cur l))%nat.
Proof.
  revert cur. induction l as [|x l IH]; intros cur Hc; cbn [words_from].
  - by rewrite bool_decide_eq_false_2.
  - case_bool_decide; [rewrite bool_decide_eq_false_2 by done; simpl; lia|]. apply IH. by destruct cur.
Qed.

(** One byte, when no counter overflows. *)
Lemma wc_char_step a x : 0 ≤ c_l a < 2147483647 → 0 ≤ c_w a < 2147483647 → 0 ≤ c_c a < 2147483647 →
  wc_char a x = Counts (c_l a + started (x =? 10)) (c_w a + started (negb (space x) && negb (inword a))) (c_c a + 1) (negb (space x)).
Proof.
  intros. unfold wc_char. rewrite !s32_small by lia. cbv zeta.
  destruct (x =? 10), (space x), (inword a); cbn [negb andb started]; by rewrite ?Z.add_0_r.
Qed.

Lemma wc_count l a cur : inword a = negb (bool_decide (cur = [])) →
  0 ≤ c_l a → started (inword a) ≤ c_w a → 0 ≤ c_c a →
  c_l a + Z.of_nat (length l) < 2147483648 → c_w a + Z.of_nat (length l) < 2147483648 → c_c a + Z.of_nat (length l) < 2147483648 →
  c_l (foldl wc_char a l) = c_l a + Z.of_nat (length (newlines l))
  ∧ c_w (foldl wc_char a l) = c_w a - started (inword a) + Z.of_nat (length (words_from cur l))
  ∧ c_c (foldl wc_char a l) = c_c a + Z.of_nat (length l).
Proof.
  revert a cur. induction l as [|x l IH]; intros a cur Hi Hl Hw Hc Bl Bw Bc; cbn [foldl].
  - cbn [words_from newlines length]. rewrite Hi. case_bool_decide; cbn; lia.
  - assert (Hn : Z.of_nat (length (newlines (x :: l))) = started (x =? 10) + Z.of_nat (length (newlines l))).
    { unfold newlines. rewrite filter_cons. destruct (Z.eqb_spec x 10); [rewrite decide_True by done|rewrite decide_False by done]; cbn [length started]; lia. }
    cbn [length] in *. assert (0 ≤ started (inword a)) by (destruct (inword a); cbn; lia).
    rewrite wc_char_step, Hn by lia. cbn [words_from].
    assert (0 ≤ started (x =? 10) ≤ 1) by (destruct (x =? 10); cbn; lia).
    assert (Hcur : inword a = negb (bool_decide (cur = []))) by done.
    destruct (space x) eqn:Esp; cbn [negb andb].
    + edestruct (IH (Counts (c_l a + started (x =? 10)) (c_w a + started false) (c_c a + 1) false) []) as (-> & -> & ->);
        cbn [c_l c_w c_c inword started]; try done; try lia.
      rewrite Hi. split; [lia|]. split; [|lia]. clear Esp; destruct (bool_decide (cur = [])); cbn [negb started length]; lia.
    + edestruct (IH (Counts (c_l a + started (x =? 10)) (c_w a + started (negb (inword a))) (c_c a + 1) true) (cur ++ [x])) as (-> & -> & ->);
        cbn [c_l c_w c_c inword started]; [by destruct cur|lia|destruct (inword a); cbn in *; lia|lia|lia|destruct (inword a); cbn in *; lia|lia|].
      split; [lia|]. split; [destruct (inword a); cbn in *; lia|lia].
Qed.

(** The line that wc prints. *)
Definition wc_line (l name : list Z) : list Z :=
  default [] (render (cs "%d %d %d %s
") false
    [Word (Z.of_nat (length (newlines l))); Word (Z.of_nat (length (words l))); Word (Z.of_nat (length l)); Str (Some name)]).

Lemma wc_format (a b c : Z) (name : list Z) :
  let r := render (cs "%d %d %d %s
") false [Word a; Word b; Word c; Str (Some name)] in r = Some (default [] r).
Proof.
  cbv zeta. match goal with |- ?x = _ => assert (is_Some x) as [y E] by
    (eexists; lazy [cs]; lazy [render Z.eqb Pos.eqb negb orb andb fmap option_fmap option_map]; reflexivity) end.
  rewrite E. reflexivity.
Qed.

(** wc reads its input to the end and prints the number of newlines, of
    maximal runs of non-space bytes and of bytes, in however many pieces the
    kernel returns the input. *)
Theorem wc_counts {S} `{!Sys S} fd ok src out `{!Stream S fd 1 ok src out} f s name :
  ok s → (length (src s) < f)%nat → Z.of_nat (length (src s)) < 2147483648 →
  ∃ s', wc f fd name s = Ret (false, s') ∧ ok s' ∧ src s' = [] ∧ out s' = out s ++ wc_line (src s) name.
Proof.
  intros Hs Hf Hl.
  enough (wp (wc f fd name) s (λ r s', r = false ∧ ok s' ∧ src s' = [] ∧ out s' = out s ++ wc_line (src s) name)) as (r & s' & E & -> & H) by eauto.
  unfold wc. wp_step. eapply wp_mono; [by apply (wp_wc_loop (fo := 1) (src := src) (out := out))|]. intros r s1 (-> & Hs1 & E1 & O1). cbv beta iota.
  destruct (wc_count (src s) (Counts 0 0 0 false) []) as (El & Ew & Ec); cbn [c_l c_w c_c inword started]; try done; try lia.
  rewrite El, Ew, Ec. cbn [c_l c_w c_c inword started]. change (0 - 0) with 0. rewrite !Z.add_0_l.
  wp_step. eapply wp_mono; [apply (sends_printf (view := src) (out := out) _ _ _ _ (wc_format _ _ _ _)); exact Hs1|].
  intros _ s2 (Hs2 & E2 & O2). apply wp_ret. split_and!; [done|done|by rewrite E2|]. by rewrite O2, O1.
Qed.
