(* ===== verification/Grep.v ===== *)
(** grep.c: the matcher, proved against the language of its patterns, and
    the loop that reads lines through a buffer of 1024 bytes. *)

From S2P Require Import Prelude User UserProps.

(** * The matcher *)

(** [here] is matchhere at the rest of the pattern. *)
Fixpoint matchstar (here : list Z → bool) (c : Z) (text : list Z) : bool :=
  if here text then true else
  match text with
  | [] => false
  | x :: text' => if (x =? c) || (c =? 46) then matchstar here c text' else false
  end.

Fixpoint matchhere (re text : list Z) : bool :=
  match re with
  | [] => true
  | c :: re1 =>
      let single :=
        if (c =? 36) && bool_decide (re1 = []) then bool_decide (text = [])
        else match text with
             | [] => false
             | x :: text' => if (c =? 46) || (c =? x) then matchhere re1 text' else false
             end in
      match re1 with
      | [] => single
      | c1 :: re2 => if c1 =? 42 then matchstar (matchhere re2) c text else single
      end
  end.

(** The loop of match. *)
Fixpoint match_from (re text : list Z) : bool :=
  if matchhere re text then true else
  match text with
  | [] => false
  | _ :: text' => match_from re text'
  end.

Definition match_ (re text : list Z) : bool :=
  match re with
  | c :: re' => if c =? 94 then matchhere re' text else match_from re text
  | [] => match_from re text
  end.

(** * Reading lines

    The buffer is the list of its first [m] bytes; the NUL that the code
    writes behind them, or in place of a newline, ends the list. *)

Section grep.
Context {S : Type} `{!Sys S}.

(** The lines in the buffer; the result is what follows the last newline. *)
Fixpoint grep_lines (f : nat) (pattern b : list Z) : M S (list Z) :=
  match strchr b 10 with
  | None => ret b
  | Some k =>
      match f with
      | O => out_of_fuel
      | Datatypes.S f' =>
          (if match_ pattern (take k b) then write 1 (take k b ++ [10]) ;;; ret tt else ret tt) ;;;
          grep_lines f' pattern (drop (Datatypes.S k) b)
      end
  end.

Fixpoint grep_loop (f : nat) (pattern : list Z) (fd : Z) (b : list Z) : M S unit :=
  match f with
  | O => out_of_fuel
  | Datatypes.S f' =>
      r <- read fd (1024 - Z.of_nat (length b) - 1) ;;
      if 0 <? r.1 then
        let b := b ++ r.2 in
        rest <- grep_lines (length b) pattern b ;;
        grep_loop f' pattern fd (if (length rest =? length b)%nat then [] else rest)
      else ret tt
  end.

Definition grep (f : nat) (pattern : list Z) (fd : Z) : M S unit := grep_loop f pattern fd [].

Fixpoint grep_files (f : nat) (pattern : list Z) (files : list (list Z)) : M S bool :=
  match files with
  | [] => ret true
  | name :: files =>
      fd <- open name 0 ;;
      if fd <? 0 then printf 1 (cs "grep: cannot open %s
") [Str (Some name)] ;;; ret true else
      grep f pattern fd ;;; close fd ;;; grep_files f pattern files
  end.

Definition grep_main (f : nat) (argv : list (list Z)) : M S bool :=
  match argv with
  | _ :: pattern :: files =>
      match files with
      | [] => grep f pattern 0 ;;; ret true
      | _ => grep_files f pattern files
      end
  | _ => printf 2 (cs "usage: grep pattern [file ...]
") [] ;;; ret true
  end.

End grep.

(** * The language of patterns *)

(** An item is a character class, once or any number of times. *)
Inductive item : Type := One (c : Z) | Star (c : Z).

(** "." is every character. *)
Definition in_class (c x : Z) : Prop := c = 46 ∨ c = x.

Inductive lang : list item → list Z → Prop :=
| lang_nil : lang [] []
| lang_one c l x u : in_class c x → lang l u → lang (One c :: l) (x :: u)
| lang_star c l v u : Forall (in_class c) v → lang l u → lang (Star c :: l) (v ++ u).

(** The items of a pattern, and whether "$" ends it. *)
Fixpoint items (re : list Z) : list item * bool :=
  match re with
  | [] => ([], false)
  | c :: re1 =>
      let single :=
        if (c =? 36) && bool_decide (re1 = []) then ([], true)
        else let r := items re1 in (One c :: r.1, r.2) in
      match re1 with
      | [] => single
      | c1 :: re2 => if c1 =? 42 then let r := items re2 in (Star c :: r.1, r.2) else single
      end
  end.

(** [re] matches at the beginning of [text]. *)
Definition matches_here (re text : list Z) : Prop :=
  ∃ mid post, text = mid ++ post ∧ lang (items re).1 mid ∧ ((items re).2 = true → post = []).

(** [re] matches somewhere in [text]; "^" ties it to the beginning. *)
Definition matches (re text : list Z) : Prop :=
  if decide (head re = Some 94) then matches_here (tail re) text
  else ∃ pre rest, text = pre ++ rest ∧ matches_here re rest.

Lemma matchstar_spec here c text :
  matchstar here c text = true ↔ ∃ v rest, text = v ++ rest ∧ Forall (in_class c) v ∧ here rest = true.
Proof.
  induction text as [|x text IH]; simpl.
  - destruct (here []) eqn:E; split; try done.
    + intros _. by exists [], [].
    + intros (v & rest & Ht & _ & Hh). symmetry in Ht. apply app_eq_nil in Ht as [-> ->]. congruence.
  - destruct (here (x :: text)) eqn:E.
    { split; [|done]. intros _. by exists [], (x :: text). }
    transitivity (in_class c x ∧ matchstar here c text = true).
    { unfold in_class. destruct (Z.eqb_spec x c), (Z.eqb_spec c 46); simpl; naive_solver. }
    rewrite IH. split.
    + intros (Hx & v & rest & -> & Hv & Hh). exists (x :: v), rest. split_and!; [done|by constructor|done].
    + intros ([|y v] & rest & Ht & Hv & Hh); simpl in Ht; [rewrite <- Ht in Hh; congruence|].
      injection Ht as <- ->. inversion Hv; subst. split; [done|]. by exists v, rest.
Qed.

Lemma matches_here_star c re2 text :
  matches_here (c :: 42 :: re2) text ↔ ∃ v rest, text = v ++ rest ∧ Forall (in_class c) v ∧ matches_here re2 rest.
Proof.
  unfold matches_here. change (items (c :: 42 :: re2)) with (Star c :: (items re2).1, (items re2).2). simpl. split.
  - intros (mid & post & -> & Hl & He). inversion Hl as [| |? ? v u Hv Hu]; subst.
    exists v, (u ++ post). rewrite app_assoc. eauto 10.
  - intros (v & rest & -> & Hv & mid & post & -> & Hl & He). exists (v ++ mid), post.
    rewrite app_assoc. split_and!; [done|by constructor|done].
Qed.

Lemma matches_here_one c re1 text : items (c :: re1) = (One c :: (items re1).1, (items re1).2) →
  matches_here (c :: re1) text ↔ ∃ x rest, text = x :: rest ∧ in_class c x ∧ matches_here re1 rest.
Proof.
  unfold matches_here. intros ->. simpl. split.
  - intros (mid & post & -> & Hl & He). inversion Hl as [|? ? x u Hx Hu|]; subst. simpl. eauto 10.
  - intros (x & rest & -> & Hx & mid & post & -> & Hl & He). exists (x :: mid), post.
    split_and!; [done|by constructor|done].
Qed.

Lemma matches_here_end text : matches_here [36] text ↔ text = [].
Proof.
  unfold matches_here. simpl. split.
  - intros (mid & post & -> & Hl & He). inversion Hl; subst. simpl. auto.
  - intros ->. exists [], []. repeat constructor.
Qed.

(** What matchhere does without a star. *)
Lemma matchhere_single c re1 text : (∀ text, matchhere re1 text = true ↔ matches_here re1 text) →
  items (c :: re1) = (if (c =? 36) && bool_decide (re1 = []) then ([], true) else (One c :: (items re1).1, (items re1).2)) →
  (if (c =? 36) && bool_decide (re1 = []) then bool_decide (text = [])
   else match text with
        | [] => false
        | x :: text' => if (c =? 46) || (c =? x) then matchhere re1 text' else false
        end) = true ↔ matches_here (c :: re1) text.
Proof.
  intros IH Hi. destruct ((c =? 36) && bool_decide (re1 = [])) eqn:E.
  - apply andb_true_iff in E as [->%Z.eqb_eq ->%bool_decide_eq_true]. rewrite bool_decide_eq_true, matches_here_end. done.
  - rewrite (matches_here_one _ _ _ Hi). unfold in_class. destruct text as [|x text]; [naive_solver|].
    destruct (Z.eqb_spec c 46), (Z.eqb_spec c x); simpl; rewrite ?IH; naive_solver.
Qed.

Lemma matchhere_spec re text : matchhere re text = true ↔ matches_here re text.
Proof.
  revert text. induction re as [re IH] using (induction_ltof1 _ (@length Z)). unfold ltof in IH. intros text.
  destruct re as [|c re1].
  { split; [|done]. intros _. exists [], text. by repeat constructor. }
  assert (H1 : ∀ text, matchhere re1 text = true ↔ matches_here re1 text) by (apply IH; simpl; lia).
  destruct re1 as [|c1 re2]; [by apply matchhere_single|]. cbn [matchhere].
  destruct (Z.eqb_spec c1 42) as [->|Hc].
  - rewrite matchstar_spec, matches_here_star.
    split; intros (v & rest & H); exists v, rest; rewrite (IH re2) in * by (simpl; lia); done.
  - apply (matchhere_single c (c1 :: re2)); [done|]. cbn [items]. by rewrite (proj2 (Z.eqb_neq _ _) Hc).
Qed.

Lemma match_from_spec re text : match_from re text = true ↔ ∃ pre rest, text = pre ++ rest ∧ matches_here re rest.
Proof.
  induction text as [|x text IH]; cbn [match_from];
    (destruct (matchhere re _) eqn:E; [split; [|done]; intros _; rewrite matchhere_spec in E; by eexists [], _|]).
  - split; [done|]. intros ([|] & rest & Ht & H); [|done]. simpl in Ht. subst. apply matchhere_spec in H. congruence.
  - rewrite IH. split.
    + intros (pre & rest & -> & H). by exists (x :: pre), rest.
    + intros ([|y pre] & rest & Ht & H); simpl in Ht.
      * subst. apply matchhere_spec in H. congruence.
      * injection Ht as <- ->. eauto.
Qed.

(** match of grep.c accepts a line exactly when the pattern, read as a
    sequence of characters, "." and starred ones with "^" and "$" as anchors,
    describes some part of it. *)
Theorem match_correct re text : match_ re text = true ↔ matches re text.
Proof.
  unfold match_, matches. destruct re as [|c re]; cbn [head tail]; [rewrite decide_False by done; apply match_from_spec|].
  destruct (Z.eqb_spec c 94) as [->|Hc]; [rewrite decide_True by done; apply matchhere_spec|].
  rewrite decide_False by congruence. apply match_from_spec.
Qed.

(** * Lines *)

(** The lines of a text that a newline ends, and what follows the last
    newline; [cur] is the line begun. *)
Fixpoint lines_from (cur l : list Z) : list (list Z) * list Z :=
  match l with
  | [] => ([], cur)
  | x :: l =>
      if x =? 10 then let r := lines_from [] l in (cur :: r.1, r.2) else lines_from (cur ++ [x]) l
  end.
Definition lines (l : list Z) : list (list Z) := (lines_from [] l).1.
Definition last_part (l : list Z) : list Z := (lines_from [] l).2.

#[global] Instance matches_dec re text : Decision (matches re text).
Proof. destruct (match_ re text) eqn:E; [left|right]; rewrite <- match_correct; [done|by rewrite E]. Defined.

(** The lines that the pattern describes, each with its newline. *)
Definition selected (re text : list Z) : list Z :=
  filter (matches re) (lines text) ≫= λ l, l ++ [10].

Abbreviation text_ok l := (Forall (λ x, x ≠ 0) l).
Abbreviation no_newline l := (Forall (λ x, x ≠ 10) l).

Lemma lines_from_none cur l : no_newline l → lines_from cur l = ([], cur ++ l).
Proof.
  revert cur. induction l as [|x l IH]; intros cur H; cbn [lines_from]; [by rewrite app_nil_r|]. inversion H; subst.
  rewrite (proj2 (Z.eqb_neq x 10)), IH, <- app_assoc by done. done.
Qed.

Lemma lines_from_line cur l1 l2 : no_newline l1 →
  lines_from cur (l1 ++ 10 :: l2) = ((cur ++ l1) :: lines l2, last_part l2).
Proof.
  revert cur. induction l1 as [|x l1 IH]; intros cur H; [by rewrite app_nil_r|]. inversion H; subst. cbn [lines_from app].
  rewrite (proj2 (Z.eqb_neq x 10)), IH, <- app_assoc by done. done.
Qed.

Lemma last_part_no_newline cur l : no_newline cur → no_newline (lines_from cur l).2.
Proof.
  revert cur. induction l as [|x l IH]; intros cur H; [done|]. cbn [lines_from].
  destruct (Z.eqb_spec x 10); [apply IH; constructor|]. apply IH, Forall_app. by repeat constructor.
Qed.

Lemma last_part_chars (P : Z → Prop) cur l : Forall P cur → Forall P l → Forall P (lines_from cur l).2.
Proof.
  revert cur. induction l as [|x l IH]; intros cur Hc H; [done|]. inversion H; subst. cbn [lines_from].
  destruct (x =? 10); apply IH; [constructor|done| |done]. apply Forall_app. by repeat constructor.
Qed.

Lemma lines_from_start cur l : no_newline cur → lines_from [] (cur ++ l) = lines_from cur l.
Proof.
  enough (∀ acc, no_newline cur → lines_from acc (cur ++ l) = lines_from (acc ++ cur) l) as H by apply H.
  induction cur as [|y cur IH]; intros acc Hc; [by rewrite app_nil_r|]. inversion Hc; subst. cbn [app lines_from].
  rewrite (proj2 (Z.eqb_neq y 10)), IH, <- app_assoc by done. done.
Qed.

Lemma lines_app l1 l2 : lines (l1 ++ l2) = lines l1 ++ lines (last_part l1 ++ l2).
Proof.
  enough (∀ cur, no_newline cur → (lines_from cur (l1 ++ l2)).1 = (lines_from cur l1).1 ++ lines ((lines_from cur l1).2 ++ l2)) as H
    by (apply H; constructor).
  induction l1 as [|x l1 IH]; intros cur Hc.
  - simpl. unfold lines. by rewrite lines_from_start.
  - cbn [app lines_from]. destruct (Z.eqb_spec x 10).
    + simpl. f_equal. apply IH. constructor.
    + apply IH, Forall_app. by repeat constructor.
Qed.

(** The first line is as long as what was begun. *)
Lemma lines_from_first cur l :
  match (lines_from cur l).1 with [] => no_newline l | x :: _ => (length cur ≤ length x)%nat end.
Proof.
  revert cur. induction l as [|x l IH]; intros cur; [constructor|]. cbn [lines_from]. destruct (Z.eqb_spec x 10); [simpl; lia|].
  specialize (IH (cur ++ [x])). rewrite length_app in IH. destruct (lines_from (cur ++ [x]) l).1; [by constructor|]. simpl in IH. lia.
Qed.

Lemma selected_app re l1 l2 : selected re (l1 ++ l2) = selected re l1 ++ selected re (last_part l1 ++ l2).
Proof. unfold selected. by rewrite lines_app, filter_app, bind_app. Qed.

Lemma lines_nil l : no_newline l → lines l = [].
Proof. intros H. unfold lines. by rewrite lines_from_none. Qed.

Lemma last_part_length l : (length (last_part l) = length l ↔ no_newline l) ∧ (length (last_part l) ≤ length l)%nat.
Proof.
  enough (∀ cur, ((length (lines_from cur l).2 = length cur + length l)%nat ↔ no_newline l)
    ∧ (length (lines_from cur l).2 ≤ length cur + length l)%nat) as H by apply (H []).
  induction l as [|x l IH]; intros cur; cbn [lines_from].
  - simpl. split; [|lia]. split; [constructor|lia].
  - destruct (Z.eqb_spec x 10) as [->|Hx].
    + destruct (IH []) as [_ Hle]. simpl in *. split; [|lia]. split; [lia|]. intros H. inversion H; done.
    + destruct (IH (cur ++ [x])) as [Heq Hle]. rewrite length_app in *. simpl in *. split; [|lia].
      rewrite Forall_cons. rewrite <- Heq. split; [intros; split; [done|lia]|lia].
Qed.

Lemma strchr_spec l : text_ok l →
  match strchr l 10 with
  | Some k => (k < length l)%nat ∧ l = take k l ++ 10 :: drop (S k) l ∧ no_newline (take k l)
  | None => no_newline l
  end.
Proof.
  induction l as [|x l IH]; intros H; [constructor|]. inversion H; subst. cbn [strchr]. rewrite (proj2 (Z.eqb_neq x 0)) by done.
  destruct (Z.eqb_spec x 10) as [->|Hx]; [simpl; split_and!; [lia|done|constructor]|].
  specialize (IH ltac:(done)). destruct (strchr l 10) as [k|]; cbn [fmap option_fmap option_map]; [|by constructor].
  destruct IH as (Hk & E & Hn). cbn [take drop length app]. split_and!; [lia|by f_equal|by constructor].
Qed.

Section run.
Context {S : Type} `{!Sys S} {fd : Z} {ok : S → Prop} {src out : S → list Z} `{!Stream S fd 1 ok src out}.

(** The inner loop prints the lines of the buffer that match. *)
Lemma wp_grep_lines re f b s : ok s → text_ok b → (length b ≤ f)%nat → (length b ≤ 1023)%nat →
  wp (grep_lines f re b) s (λ rest s', rest = last_part b ∧ ok s' ∧ src s' = src s ∧ out s' = out s ++ selected re b).
Proof.
  revert b s. induction f as [|f IH]; intros b s Hs Hb Hf Hm; cbn [grep_lines].
  { destruct b; [|simpl in Hf; lia]. apply wp_ret. change (selected re []) with (@nil Z). by rewrite app_nil_r. }
  pose proof (strchr_spec b Hb) as Hc. destruct (strchr b 10) as [k|].
  2:{ apply wp_ret. unfold last_part, selected. rewrite (lines_nil b), (lines_from_none [] b) by done.
      split_and!; [done..|]. by rewrite app_nil_r. }
  destruct Hc as (Hk & Eb & Hn).
  assert (Hl : lines b = take k b :: lines (drop (Datatypes.S k) b) ∧ last_part b = last_part (drop (Datatypes.S k) b)).
  { unfold lines at 1, last_part at 1.
    assert (lines_from [] b = (take k b :: lines (drop (Datatypes.S k) b), last_part (drop (Datatypes.S k) b))) as ->; [|done].
    rewrite Eb at 1. apply (lines_from_line [] _ _ Hn). }
  destruct Hl as [Hl ->].
  set (o := if match_ re (take k b) then take k b ++ [10] else []).
  assert (Ho : selected re b = o ++ selected re (drop (Datatypes.S k) b)).
  { unfold selected, o. rewrite Hl, filter_cons.
    pose proof (match_correct re (take k b)) as Hmc.
    destruct (match_ re (take k b)); [rewrite decide_True by (by apply Hmc)|rewrite decide_False by (by rewrite <- Hmc)]; done. }
  apply wp_bind. apply (wp_mono _ _ (λ _ s1, ok s1 ∧ src s1 = src s ∧ out s1 = out s ++ o)).
  { unfold o. destruct (match_ re (take k b)); [|apply wp_ret; by rewrite app_nil_r].
    apply wp_bind. apply (wp_write (view := src) (out := out)); [done|rewrite length_app, length_take; simpl; lia|].
    intros s1 H1 E1 O1. by apply wp_ret. }
  intros _ s1 (H1 & E1 & O1).
  eapply wp_mono; [apply IH; [done|by apply Forall_drop|rewrite length_drop; lia..]|].
  intros rest s' (-> & Hs' & E' & O'). split_and!; [done|done|congruence|]. by rewrite O', O1, Ho, app_assoc.
Qed.

Context `{!Filled S fd 1 ok src out}.

Lemma wp_grep_loop re f b s : ok s → (length (src s) < f)%nat → text_ok (b ++ src s) → no_newline b → (length b ≤ 1022)%nat →
  Forall (λ l, (length l ≤ 1022)%nat) (lines (b ++ src s)) →
  wp (grep_loop f re fd b) s (λ _ s', ok s' ∧ src s' = [] ∧ out s' = out s ++ selected re (b ++ src s)).
Proof.
  revert b s. induction f as [|f IH]; intros b s Hs Hf Ht Hn Hb Hlong; [lia|]. cbn [grep_loop]. apply wp_bind.
  set (n := 1024 - Z.of_nat (length b) - 1).
  destruct (st_read (fd := fd) (fo := 1) (ok := ok) (src := src) (out := out) s n Hs) as (bs & s1 & E & Hs1 & Ei & Eo & Hl & He); [unfold n; lia|].
  assert (Hfill : bs = take (Z.to_nat n) (src s)) by (eapply (fl_read (fd := fd) (ok := ok) s n bs s1); [done|unfold n; lia|done]).
  exists (Z.of_nat (length bs), bs), s1. split; [exact E|]. cbn [fst snd]. destruct (Z.ltb_spec 0 (Z.of_nat (length bs))).
  2:{ destruct bs; [|simpl in *; lia]. rewrite He in * by done. rewrite app_nil_r in *. apply wp_ret. simpl in Ei.
      unfold selected. rewrite lines_nil by done. rewrite app_nil_r. done. }
  assert (Ht' : text_ok (b ++ bs)). { rewrite Ei, app_assoc in Ht. by apply Forall_app in Ht as [? _]. }
  assert (Hlen : (length (b ++ bs) ≤ 1023)%nat) by (rewrite length_app; lia).
  apply wp_bind. eapply wp_mono; [by apply wp_grep_lines|]. intros rest s2 (-> & Hs2 & E2 & O2).
  set (b' := if (length (last_part (b ++ bs)) =? length (b ++ bs))%nat then [] else last_part (b ++ bs)).
  assert (Hlines : lines (last_part (b ++ bs) ++ src s1) = lines (b' ++ src s1) ∧ no_newline b' ∧ (length b' ≤ 1022)%nat).
  { unfold b'. destruct (last_part_length (b ++ bs)) as [Heq Hle]. destruct (Nat.eqb_spec (length (last_part (b ++ bs))) (length (b ++ bs))) as [El|El].
    - split_and!; [|constructor|simpl; lia]. apply Heq in El as Hnn.
      assert (last_part (b ++ bs) = b ++ bs) as -> by (unfold last_part; by rewrite lines_from_none).
      rewrite Ei, app_assoc in Hlong. unfold lines in *. rewrite lines_from_start in * by done.
      pose proof (lines_from_first (b ++ bs) (src s1)) as Hfirst. destruct (lines_from (b ++ bs) (src s1)).1 as [|l ls] eqn:El1.
      { by rewrite lines_from_none. }
      exfalso. apply Forall_cons in Hlong as [Hlong _]. rewrite length_app in Hfirst.
      apply (f_equal length) in Hfill, Ei. rewrite length_take in Hfill. rewrite length_app in Ei.
      assert (src s1 = []) as Hnil by (apply nil_length_inv; unfold n in *; lia).
      by rewrite Hnil in El1.
    - split_and!; [done|apply last_part_no_newline; constructor|lia]. }
  destruct Hlines as (Hlines & Hn' & Hb').
  assert (Htail : text_ok (src s1)) by (rewrite Ei, app_assoc in Ht; by apply Forall_app in Ht as [_ ?]).
  eapply wp_mono; [apply (IH b'); [done| | |done|done|]|].
  - rewrite E2. apply (f_equal length) in Ei. rewrite length_app in Ei. lia.
  - rewrite E2. apply Forall_app. split; [|done]. unfold b'. destruct (_ =? _)%nat; [constructor|].
    by apply last_part_chars.
  - rewrite E2, <- Hlines. rewrite Ei, app_assoc, lines_app in Hlong. by apply Forall_app in Hlong as [_ ?].
  - intros _ s' (Hs' & E' & O'). split_and!; [done|done|].
    assert (Hsel : selected re (last_part (b ++ bs) ++ src s1) = selected re (b' ++ src s1)) by (unfold selected; by rewrite Hlines).
    by rewrite O', O2, Eo, E2, Ei, (app_assoc b), (selected_app re (b ++ bs)), Hsel, app_assoc.
Qed.
End run.

(** C33. grep on a file without NULs whose lines have at most 1022 characters
    prints exactly the lines that the pattern describes ([matches]), in order
    and with their newlines, and ends.  What follows the last newline is not looked at. *)
Theorem grep_prints_matches {S} `{!Sys S} fd ok src out `{!Stream S fd 1 ok src out} `{!Filled S fd 1 ok src out} re f s :
  ok s → (length (src s) < f)%nat → Forall (λ x, x ≠ 0) (src s) → Forall (λ l, (length l ≤ 1022)%nat) (lines (src s)) →
  ∃ s', grep f re fd s = Ret (tt, s') ∧ ok s' ∧ src s' = [] ∧ out s' = out s ++ selected re (src s).
Proof.
  intros Hs Hf Ht Hl. destruct (wp_grep_loop (fd := fd) (src := src) (out := out) re f [] s) as ([] & s' & E & H); [done..|constructor|simpl; lia|done|].
  exists s'. done.
Qed.
