(* ===== verification/UserEx.v ===== *)
(** A small machine that runs user programs: one input, one output, and a
    limit on what one read returns.  The programs of [User] and [Grep] run
    on it. *)

From S2P Require Import Prelude User UserProps Grep.

Record io : Type := Io { io_in : list Z; io_out : list Z; io_max : nat }.

Definition io_read (fd n : Z) : M io (Z * list Z) := λ s,
  let bs := take (Nat.min (Z.to_nat n) (io_max s)) (io_in s) in
  Ret ((Z.of_nat (length bs), bs), Io (drop (length bs) (io_in s)) (io_out s) (io_max s)).
Definition io_write (fd : Z) (bs : list Z) : M io Z := λ s,
  Ret (Z.of_nat (length bs), Io (io_in s) (io_out s ++ bs) (io_max s)).

#[export] Instance io_sys : Sys io :=
  {| read := io_read; write := io_write; open _ _ := ret 3; close _ := ret 0 |}.

Abbreviation io_ok m := (λ s : io, m ≤ io_max s)%nat.

#[export] Instance io_stream fd fo m : (0 < m)%nat → Stream io fd fo (io_ok m) io_in io_out.
Proof.
  intros Hm. split.
  - intros s n Hs Hn. eexists _, _. split; [reflexivity|]. cbn [io_in io_out io_max].
    set (k := Nat.min (Z.to_nat n) (io_max s)). assert (0 < k ≤ Z.to_nat n)%nat by lia.
    rewrite length_take. split_and!; [done| |done|lia|].
    + destruct (decide (k ≤ length (io_in s))%nat).
      * rewrite Nat.min_l by done. by rewrite take_drop.
      * rewrite Nat.min_r, drop_all, app_nil_r, take_ge by lia. done.
    + intros E. destruct (io_in s); [done|]. destruct k; [lia|done].
  - intros s bs Hs _. eexists. by split.
Qed.

#[export] Instance io_filled fd fo (H : (0 < 1024)%nat) :
  Filled io fd fo (io_ok 1024) io_in io_out (Stream0 := io_stream fd fo 1024 H).
Proof.
  intros s n bs s' Hs Hn E. cbn in E. unfold io_read in E. injection E as _ E _.
  rewrite <- E, Nat.min_l by lia. done.
Qed.

Lemma atoi_printint_witness : atoi (reverse (printint_buf 2147483647 10 true)) = 2147483647.
Proof. apply (atoi_printint 2147483647). lia. Defined.

(** cat with reads of at most two bytes. *)
Lemma cat_copies_witness : ∃ s', cat 6 0 (Io [104; 101; 108; 108; 111] [] 2) = Ret (false, s') ∧ io_out s' = [104; 101; 108; 108; 111].
Proof.
  pose proof (io_stream 0 1 1 ltac:(lia)) as Hst.
  destruct (cat_copies 0 (io_ok 1) io_in io_out 6 (Io [104; 101; 108; 108; 111] [] 2)) as (s' & E & _ & _ & Ho).
  - simpl. lia.
  - simpl. lia.
  - exists s'. split; [exact E|]. exact Ho.
Defined.

(** "a bc\n" has one line, two words and five characters. *)
Lemma wc_counts_witness : ∃ s', wc 6 0 (cs "x") (Io (cs "a bc
") [] 2) = Ret (false, s') ∧ io_out s' = cs "1 2 5 x
".
Proof.
  pose proof (io_stream 0 1 1 ltac:(lia)) as Hst.
  destruct (wc_counts 0 (io_ok 1) io_in io_out 6 (Io (cs "a bc
") [] 2) (cs "x")) as (s' & E & _ & _ & Ho).
  - simpl. lia.
  - simpl. lia.
  - simpl. lia.
  - exists s'. split; [exact E|]. rewrite Ho. vm_compute. reflexivity.
Defined.

(** The lines that contain "b*c" at their end. *)
Lemma grep_prints_matches_witness : ∃ s',
  grep 20 (cs "b*c$") 0 (Io (cs "abbc
bcd
ac
") [] 4096) = Ret (tt, s') ∧ io_out s' = cs "abbc
ac
".
Proof.
  pose proof (io_stream 0 1 1024 ltac:(lia)) as Hst. pose proof (io_filled 0 1 ltac:(lia)) as Hfl.
  destruct (grep_prints_matches 0 (io_ok 1024) io_in io_out (Stream0 := io_stream 0 1 1024 ltac:(lia)) (cs "b*c$") 20 (Io (cs "abbc
bcd
ac
") [] 4096)) as (s' & E & _ & _ & Ho).
  - simpl. lia.
  - simpl. lia.
  - vm_compute. repeat constructor; discriminate.
  - vm_compute. repeat constructor.
  - exists s'. split; [exact E|]. rewrite Ho. vm_compute. reflexivity.
Defined.

(** When reads are cut short, as by a pipe, grep forgets the beginning of a
    line that it has not seen to its end: "abc" matches, but is not
    printed. *)
Example grep_short_read : ∃ s', grep 20 (cs "abc") 0 (Io (cs "abc
") [] 2) = Ret (tt, s') ∧ io_out s' = []
  ∧ selected (cs "abc") (cs "abc
") = cs "abc
".
Proof. eexists. split; [vm_compute; reflexivity|]. split; vm_compute; reflexivity. Qed.
