(* ===== verification/Tools.v ===== *)
(** Programs over few system calls: ls.c, the listing of a directory, with
    stat of ulib.c; rm.c, mkdir.c, ln.c, kill.c and xpri.c; and main of
    wc.c. *)

From S2P Require Import Prelude Params Cstring Fs Sysfile User UserProps.

(** fstat: the status, None for a negative result. *)
Class SysStat (S : Type) : Type := fstat : Z → M S (option stat).

(** fmtname: for(p=path+strlen(path); p >= path && *p != '/'; p--); p++; as
    the offset of p. *)
Fixpoint name_start (path : list Z) (p : nat) : nat :=
  match p with
  | O => O
  | S p' => if nth p' path 0 =? 47 then p else name_start path p'
  end.

Definition fmtname (path : list Z) : list Z :=
  let p := drop (name_start path (length path)) path in
  if DIRSIZ <=? Z.of_nat (length p) then p
  else p ++ replicate (Z.to_nat (DIRSIZ - Z.of_nat (length p))) 32.

Definition ls_line : list Z := cs "%s %d %d %d
".
Definition ls_args (name : list Z) (st : stat) : list arg :=
  [Str (Some name); Word (st_type st); Word (s32 (st_ino st)); Word (s32 (st_size st))].

Section ls.
Context {S : Type} `{!Sys S, !SysStat S}.

(** stat of ulib.c *)
Definition ustat (n : list Z) : M S (option stat) :=
  fd <- open n O_RDONLY ;;
  if fd <? 0 then ret None else
  r <- fstat fd ;;
  close fd ;;;
  ret r.

(** while(read(fd, &de, sizeof(de)) == sizeof(de)) *)
Fixpoint ls_loop (f : nat) (fd : Z) (path : list Z) : M S unit :=
  match f with
  | O => out_of_fuel
  | Datatypes.S f' =>
      r <- read fd 16 ;;
      if r.1 =? 16 then
        if nth 0 r.2 0 + 256 * nth 1 r.2 0 =? 0 then ls_loop f' fd path else
        let buf := path ++ [47] ++ upto_nul (take 14 (drop 2 r.2)) in
        o <- ustat buf ;;
        match o with
        | None => printf 1 (cs "ls: cannot stat %s
") [Str (Some buf)] ;;; ls_loop f' fd path
        | Some st => printf 1 ls_line (ls_args (fmtname buf) st) ;;; ls_loop f' fd path
        end
      else ret tt
  end.

Definition ls (f : nat) (path : list Z) : M S unit :=
  fd <- open path 0 ;;
  if fd <? 0 then printf 2 (cs "ls: cannot open %s
") [Str (Some path)] else
  o <- fstat fd ;;
  match o with
  | None => printf 2 (cs "ls: cannot stat %s
") [Str (Some path)] ;;; close fd ;;; ret tt
  | Some st =>
      (if st_type st =? T_FILE then printf 1 ls_line (ls_args (fmtname path) st)
       else if st_type st =? T_DIR then
         if 512 <? Z.of_nat (length path) + 1 + DIRSIZ + 1 then printf 1 (cs "ls: path too long
") [] else ls_loop f fd path
       else ret tt) ;;;
      close fd ;;;
      ret tt
  end.

Fixpoint ls_all (f : nat) (paths : list (list Z)) : M S unit :=
  match paths with
  | [] => ret tt
  | path :: paths => ls f path ;;; ls_all f paths
  end.

Definition ls_main (f : nat) (argv : list (list Z)) : M S unit :=
  if (length argv <? 2)%nat then ls f (cs ".") else ls_all f (tail argv).
End ls.

(** * Names *)

(** The part of a path after its last slash. *)
Definition basename (path base : list Z) : Prop :=
  ¬ 47 ∈ base ∧ (path = base ∨ ∃ dir, path = dir ++ [47] ++ base).

Lemma name_start_spec path : ∀ p, (p ≤ length path)%nat → ¬ 47 ∈ drop p path →
  ¬ 47 ∈ drop (name_start path p) path ∧ (name_start path p = 0%nat ∨ ∃ q, name_start path p = S q ∧ path !! q = Some 47).
Proof.
  induction p as [|p IH]; intros Hp Hn; cbn [name_start]; [auto|].
  destruct (lookup_lt_is_Some_2 path p) as [c Hc]; [lia|]. rewrite (nth_lookup_Some _ _ _ _ Hc).
  destruct (Z.eqb_spec c 47) as [-> |Hne]; [split; [done|right; eauto]|].
  apply IH; [lia|]. rewrite (drop_S _ _ _ Hc). rewrite elem_of_cons. by intros [?|?].
Qed.

Lemma fmt_basename path : basename path (drop (name_start path (length path)) path).
Proof.
  destruct (name_start_spec path (length path)) as [H1 H2]; [done|rewrite drop_all; apply not_elem_of_nil|]. split; [done|].
  destruct H2 as [-> |(q & -> & Hq)]; [by left|right]. exists (take q path). cbn [app]. by rewrite <- (drop_S _ _ _ Hq), take_drop.
Qed.

Lemma basename_unique path b b' : basename path b → basename path b' → b = b'.
Proof.
  intros [H1 H2] [H1' H2'].
  assert (Hs : ∀ d x d' y : list Z, ¬ 47 ∈ x → ¬ 47 ∈ y → d ++ [47] ++ x = d' ++ [47] ++ y → x = y).
  { induction d as [|c d IH]; intros x [|c' d'] y Hx Hy E; cbn in E; simplify_eq; [done| | |by eapply IH].
    - destruct Hx. apply elem_of_app. right. left.
    - destruct Hy. apply elem_of_app. right. left. }
  destruct H2 as [E|[d E]], H2' as [E'|[d' E']]; subst.
  - done.
  - destruct H1. apply elem_of_app. right. left.
  - destruct H1'. apply elem_of_app. right. left.
  - by eapply Hs.
Qed.

(** fmtname gives the last component of the path, filled with blanks up to
    the width of a directory entry. *)
Lemma fmtname_spec path base : basename path base →
  fmtname path = base ++ replicate (14 - length base) 32.
Proof.
  intros H. unfold fmtname. rewrite (basename_unique _ _ _ (fmt_basename path) H). unfold DIRSIZ.
  destruct (Z.leb_spec 14 (Z.of_nat (length base))).
  - replace (14 - length base)%nat with 0%nat by lia. by rewrite app_nil_r.
  - do 2 f_equal. lia.
Qed.

(** The name of a path, read from its start. *)
Fixpoint component (acc path : list Z) : list Z :=
  match path with
  | [] => acc
  | c :: path => component (if c =? 47 then [] else acc ++ [c]) path
  end.
Definition padded (path : list Z) : list Z := let base := component [] path in base ++ replicate (14 - length base) 32.

Lemma component_basename path : ∀ acc pre, basename (pre ++ acc) acc → basename (pre ++ acc ++ path) (component acc path).
Proof.
  induction path as [|c path IH]; intros acc pre H; cbn [component]; [by rewrite app_nil_r|].
  destruct (Z.eqb_spec c 47) as [-> |Hc].
  - replace (pre ++ acc ++ 47 :: path) with ((pre ++ acc ++ [47]) ++ [] ++ path) by (by rewrite <- !app_assoc). apply IH.
    split; [apply not_elem_of_nil|]. right. exists (pre ++ acc). by rewrite app_nil_r, <- app_assoc.
  - replace (pre ++ acc ++ c :: path) with (pre ++ (acc ++ [c]) ++ path) by (by rewrite <- !app_assoc). apply IH.
    destruct H as [H1 H2]. split; [rewrite elem_of_app, list_elem_of_singleton; by intros [?|?]|]. rewrite app_assoc.
    destruct H2 as [-> |[d ->]]; [by left|right]. exists d. by rewrite <- !app_assoc.
Qed.

Lemma fmtname_padded path : fmtname path = padded path.
Proof. apply fmtname_spec. apply (component_basename path [] []). split; [apply not_elem_of_nil|by left]. Qed.

(** * Listings *)

(** What ls relies on: a tree of files, [info] and [content] by path.  [fds]
    are the open descriptors, with the path and the offset of each, [out] and
    [err] what has been written to descriptors 1 and 2. *)
Class Tree (S : Type) `{!Sys S, !SysStat S} (ok : S → Prop) (fds : S → gmap Z (list Z * nat)) (out err : S → list Z)
    (info : list Z → option stat) (content : list Z → list Z) : Prop := {
  tr_open s path : ok s → (size (fds s) < 16)%nat → ∃ fd s', open path 0 s = Ret (fd, s') ∧ ok s' ∧ out s' = out s ∧ err s' = err s
    ∧ match info path with
      | None => fd < 0 ∧ fds s' = fds s
      | Some _ => 0 ≤ fd ∧ fds s !! fd = None ∧ fds s' = <[fd := (path, 0%nat)]> (fds s)
      end;
  tr_fstat s fd path o : ok s → fds s !! fd = Some (path, o) → ∃ s', fstat fd s = Ret (info path, s')
    ∧ ok s' ∧ fds s' = fds s ∧ out s' = out s ∧ err s' = err s;
  tr_read s fd path o : ok s → fds s !! fd = Some (path, o) →
    let bs := take 16 (drop o (content path)) in
    ∃ s', read fd 16 s = Ret ((Z.of_nat (length bs), bs), s')
      ∧ ok s' ∧ fds s' = <[fd := (path, (o + length bs)%nat)]> (fds s) ∧ out s' = out s ∧ err s' = err s;
  tr_close s fd x : ok s → fds s !! fd = Some x → ∃ r s', close fd s = Ret (r, s')
    ∧ ok s' ∧ fds s' = delete fd (fds s) ∧ out s' = out s ∧ err s' = err s;
  #[global] tr_out :: Sink S 1 ok (λ s, (fds s, err s)) out;
  #[global] tr_err :: Sink S 2 ok (λ s, (fds s, out s)) err
}.

(** What a format prints. *)
Definition shown_as (fmt : list Z) (ap : list arg) : list Z := default [] (render fmt false ap).

(** The line for the file at a path. *)
Definition line_of (path : list Z) (st : stat) : list Z := shown_as ls_line (ls_args (padded path) st).

Section listing.
Context {S : Type} `{!Sys S, !SysStat S} {ok : S → Prop} {fds : S → gmap Z (list Z * nat)} {out err : S → list Z}.
Context {info : list Z → option stat} {content : list Z → list Z} `{!Tree S ok fds out err info content}.

(** The entries of a directory from an offset on, whole records only; those
    with inode 0 are free. *)
Definition entry_line (path bs : list Z) : list Z :=
  if nth 0 bs 0 + 256 * nth 1 bs 0 =? 0 then [] else
  let buf := path ++ [47] ++ upto_nul (take 14 (drop 2 bs)) in
  match info buf with
  | None => shown_as (cs "ls: cannot stat %s
") [Str (Some buf)]
  | Some st => line_of buf st
  end.

Fixpoint entry_lines (n : nat) (path bs : list Z) : list Z :=
  match n with
  | O => []
  | Datatypes.S n' => entry_line path (take 16 bs) ++ entry_lines n' path (drop 16 bs)
  end.

Definition listing (path : list Z) : list Z :=
  match info path with
  | None => []
  | Some st =>
      if st_type st =? T_FILE then line_of path st
      else if st_type st =? T_DIR then
        if 512 <? Z.of_nat (length path) + 16 then shown_as (cs "ls: path too long
") [] else entry_lines (length (content path) / 16) path (content path)
      else []
  end.

Lemma wp_says fo (ok' : S → Prop) {V} (view : S → V) (o : S → list Z) `{!Sink S fo ok' view o} fmt ap s (Q : unit → S → Prop) :
  is_Some (render fmt false ap) → ok' s →
  (∀ s', ok' s' → view s' = view s → o s' = o s ++ shown_as fmt ap → Q tt s') → wp (printf fo fmt ap) s Q.
Proof.
  intros [bs E] Hs HQ. eapply wp_mono; [by apply (sends_printf (view := view) (out := o) _ _ _ _ E)|].
  intros [] s' (H1 & H2 & H3). apply HQ; [done|done|]. unfold shown_as. by rewrite E.
Qed.
End listing.

Ltac formats :=
  match goal with |- is_Some (render ?f _ _) => let f' := eval vm_compute in f in change f with f' end;
  unfold ls_args; eexists; lazy [render Z.eqb Pos.eqb negb orb andb fmap option_fmap option_map]; reflexivity.
Lemma ls_line_some name st : is_Some (render ls_line false (ls_args name st)).
Proof. formats. Qed.
Lemma cannot_stat_some p : is_Some (render (cs "ls: cannot stat %s
") false [Str (Some p)]).
Proof. formats. Qed.
Lemma cannot_open_some p : is_Some (render (cs "ls: cannot open %s
") false [Str (Some p)]).
Proof. formats. Qed.
Lemma too_long_some : is_Some (render (cs "ls: path too long
") false []).
Proof. formats. Qed.
#[export] Hint Resolve ls_line_some cannot_stat_some cannot_open_some too_long_some : core.

Section ls_correct.
Context {S : Type} `{!Sys S, !SysStat S} {ok : S → Prop} {fds : S → gmap Z (list Z * nat)} {out err : S → list Z}.
Context {info : list Z → option stat} {content : list Z → list Z} `{T : !Tree S ok fds out err info content}.

(** Nothing seen has changed but the descriptors, which are [m]. *)
Definition only_fds (s s' : S) (m : gmap Z (list Z * nat)) : Prop := ok s' ∧ fds s' = m ∧ out s' = out s ∧ err s' = err s.

Lemma wp_ustat path s (Q : option stat → S → Prop) : ok s → (size (fds s) < 16)%nat →
  (∀ s', only_fds s s' (fds s) → Q (info path) s') → wp (ustat path) s Q.
Proof using T.
  intros Hs Hn HQ. unfold ustat. wp_step. destruct (tr_open s path Hs Hn) as (fd & s1 & E & K1 & O1 & R1 & H).
  exists fd, s1. split; [exact E|]. destruct (info path) as [st|] eqn:Ei.
  - destruct H as (Hfd & Hnew & F1). zcases. wp_step.
    destruct (tr_fstat s1 fd path 0 K1) as (s2 & E2 & K2 & F2 & O2 & R2); [by rewrite F1, lookup_insert_eq|]. rewrite Ei in E2.
    exists (Some st), s2. split; [exact E2|]. wp_step.
    destruct (tr_close s2 fd (path, 0%nat) K2) as (r & s3 & E3 & K3 & F3 & O3 & R3); [by rewrite F2, F1, lookup_insert_eq|].
    exists r, s3. split; [exact E3|]. wp_step. apply HQ. split; [done|split; [|split; congruence]].
    by rewrite F3, F2, F1, delete_insert_id.
  - destruct H as (Hfd & F1). zcases. wp_step. apply HQ. by split_and!.
Qed.

Lemma entry_step path bs s (Q : unit → S → Prop) (k : M S unit) : ok s → (size (fds s) < 16)%nat →
  (∀ s', ok s' → fds s' = fds s → err s' = err s → out s' = out s ++ entry_line (info := info) path bs → wp k s' Q) →
  wp (if nth 0 bs 0 + 256 * nth 1 bs 0 =? 0 then k else
      let buf := path ++ [47] ++ upto_nul (take 14 (drop 2 bs)) in
      o <- ustat buf ;;
      match o with
      | None => printf 1 (cs "ls: cannot stat %s
") [Str (Some buf)] ;;; k
      | Some st => printf 1 ls_line (ls_args (fmtname buf) st) ;;; k
      end) s Q.
Proof using T.
  intros Hs Hn HQ. unfold entry_line in HQ. destruct (_ =? 0); [apply HQ; [done..|by rewrite app_nil_r]|].
  cbv zeta. rewrite fmtname_padded. wp_step. apply wp_ustat; [done|done|]. intros s1 (K1 & F1 & O1 & R1).
  destruct (info _) as [st|]; wp_step;
    (apply (wp_says 1 ok (λ s, (fds s, err s)) out); [auto|done|]; intros s2 K2 [= F2 R2] O2; apply HQ; [done|congruence|congruence|by rewrite O2, O1]).
Qed.

Lemma wp_ls_loop fd path : ∀ n f s o, ok s → (size (fds s) < 16)%nat → fds s !! fd = Some (path, o) →
  (length (drop o (content path)) / 16 = n)%nat → (n < f)%nat →
  wp (ls_loop f fd path) s (λ _ s', ok s' ∧ err s' = err s ∧ (∃ o', fds s' = <[fd := (path, o')]> (fds s))
    ∧ out s' = out s ++ entry_lines (info := info) n path (drop o (content path))).
Proof using T.
  induction n as [|n IH]; intros [|f] s o Hs Hz Hfd Hn Hf; try lia; cbn [ls_loop];
    destruct (tr_read s fd path o Hs Hfd) as (s1 & E & K1 & F1 & O1 & R1); wp_step; eexists _, s1; (split; [exact E|]); cbn [fst snd];
    set (c := drop o (content path)) in *; rewrite length_take in *.
  - assert (length c < 16)%nat by (apply Nat.div_small_iff in Hn; lia). rewrite (proj2 (Z.eqb_neq _ _)) by lia.
    wp_step. split; [done|split; [done|split; [eauto|]]]. cbn. by rewrite app_nil_r.
  - assert (16 ≤ length c)%nat. { destruct (decide (16 ≤ length c)%nat); [done|]. rewrite Nat.div_small in Hn by lia. lia. }
    rewrite Nat.min_l in * by lia. change (Z.of_nat 16 =? 16) with true. cbv iota. cbn [entry_lines].
    apply (entry_step path (take 16 c)); [done| |].
    { rewrite F1, map_size_insert, Hfd. done. }
    intros s2 K2 F2 R2 O2. eapply wp_mono; [apply (IH f s2 (o + 16)%nat); [done| | | |lia]|].
    + rewrite F2, F1, map_size_insert, Hfd. done.
    + by rewrite F2, F1, lookup_insert_eq.
    + rewrite <- drop_drop. fold c. rewrite length_drop. replace (length c) with (1 * 16 + (length c - 16))%nat in Hn by lia.
      rewrite Nat.div_add_l in Hn by lia. lia.
    + intros _ s' (K3 & R3 & (o' & F3) & O3). split; [done|split; [congruence|split]].
      * exists o'. by rewrite F3, F2, F1, insert_insert_eq.
      * rewrite O3, O2, O1, <- app_assoc. by rewrite <- drop_drop.
Qed.

Lemma wp_ls f path s : ok s → (size (fds s) ≤ 14)%nat → (length (content path) / 16 < f)%nat →
  wp (ls f path) s (λ _ s', ok s' ∧ fds s' = fds s ∧ out s' = out s ++ listing (info := info) (content := content) path
    ∧ err s' = err s ++ match info path with Some _ => [] | None => shown_as (cs "ls: cannot open %s
") [Str (Some path)] end).
Proof using T.
  intros Hs Hz Hf. unfold ls, listing. rewrite fmtname_padded. wp_step. destruct (tr_open s path Hs) as (fd & s1 & E & K1 & O1 & R1 & H); [lia|].
  exists fd, s1. split; [exact E|]. destruct (info path) as [st|] eqn:Ei.
  2:{ destruct H as (Hfd & F1). zcases. apply (wp_says 2 ok (λ s, (fds s, out s)) err); [auto|done|]. intros s2 K2 [= F2 O2] R2.
      split; [done|split; [congruence|split; [|by rewrite R2, R1]]]. by rewrite O2, O1, app_nil_r. }
  destruct H as (Hfd & Hnew & F1). rewrite (proj2 (Z.ltb_ge fd 0) Hfd). wp_step.
  destruct (tr_fstat s1 fd path 0 K1) as (s2 & E2 & K2 & F2 & O2 & R2); [by rewrite F1, lookup_insert_eq|]. rewrite Ei in E2.
  exists (Some st), s2. split; [exact E2|]. cbv beta iota.
  set (body := if st_type st =? T_FILE then _ else _). set (l := if st_type st =? T_FILE then _ else _).
  assert (B : wp body s2 (λ _ s', ok s' ∧ err s' = err s2 ∧ (∃ o', fds s' = <[fd := (path, o')]> (fds s2)) ∧ out s' = out s2 ++ l)).
  { subst body l. assert (Hsame : fds s2 = <[fd := (path, 0%nat)]> (fds s2)) by (rewrite F2, F1; symmetry; apply insert_insert_eq).
    destruct (st_type st =? T_FILE); [|destruct (st_type st =? T_DIR); [|wp_step; rewrite app_nil_r; eauto]].
    - apply (wp_says 1 ok (λ s, (fds s, err s)) out); [auto|done|]. intros s3 K3 [= F3 R3] O3. split; [done|split; [done|split; [exists 0%nat; congruence|done]]].
    - unfold DIRSIZ. replace (Z.of_nat (length path) + 1 + 14 + 1) with (Z.of_nat (length path) + 16) by lia. destruct (512 <? _).
      + apply (wp_says 1 ok (λ s, (fds s, err s)) out); [auto|done|]. intros s3 K3 [= F3 R3] O3. split; [done|split; [done|split; [exists 0%nat; congruence|done]]].
      + eapply wp_mono; [apply (wp_ls_loop fd path (length (content path) / 16) f s2 0)|]; [done| | |done|done|done].
        * rewrite F2, F1, map_size_insert, Hnew. cbn. lia.
        * by rewrite F2, F1, lookup_insert_eq. }
  wp_step. eapply wp_mono; [exact B|]. intros [] s3 (K3 & R3 & (o' & F3) & O3). wp_step.
  destruct (tr_close s3 fd (path, o') K3) as (r & s4 & E4 & K4 & F4 & O4 & R4); [by rewrite F3, lookup_insert_eq|].
  exists r, s4. split; [exact E4|]. wp_step. split; [done|split; [|split]].
  - rewrite F4, F3, F2, F1, insert_insert_eq, delete_insert_id by done. done.
  - by rewrite O4, O3, O2, O1.
  - rewrite app_nil_r. congruence.
Qed.

Definition ls_error (path : list Z) : list Z :=
  match info path with Some _ => [] | None => shown_as (cs "ls: cannot open %s
") [Str (Some path)] end.

Lemma wp_ls_all f : ∀ paths s, ok s → (size (fds s) ≤ 14)%nat → Forall (λ p, length (content p) / 16 < f)%nat paths →
  wp (ls_all f paths) s (λ _ s', ok s' ∧ fds s' = fds s ∧ out s' = out s ++ concat (listing (info := info) (content := content) <$> paths)
    ∧ err s' = err s ++ concat (ls_error <$> paths)).
Proof using T.
  induction paths as [|p paths IH]; intros s Hs Hz Hf; cbn [ls_all].
  - wp_step. cbn. by rewrite !app_nil_r.
  - apply Forall_cons in Hf as [Hp Hf]. wp_step. eapply wp_mono; [by apply wp_ls|]. intros _ s1 (K1 & F1 & O1 & R1).
    eapply wp_mono; [apply IH; [done|by rewrite F1|done]|]. intros _ s' (K2 & F2 & O2 & R2). cbn.
    split; [done|split; [congruence|]]. by rewrite O2, O1, R2, R1, <- !app_assoc.
Qed.
End ls_correct.

(** C34. ls writes the listing of each path: the line of a file, a line for each
    entry of a directory that is not free, in order, with the name padded to
    the width of an entry, and a message when a path or a file is not there;
    and it closes every descriptor that it opens. *)
Theorem ls_correct {S} `{!Sys S, !SysStat S} ok fds out err info content `{!Tree S ok fds out err info content} f argv s :
  let paths := if (length argv <? 2)%nat then [cs "."] else tail argv in
  ok s → (size (fds s) ≤ 14)%nat → Forall (λ p, length (content p) / 16 < f)%nat paths →
  wp (ls_main f argv) s (λ _ s', fds s' = fds s ∧ out s' = out s ++ concat (listing (info := info) (content := content) <$> paths)
    ∧ err s' = err s ++ concat (ls_error (info := info) <$> paths)).
Proof.
  cbv zeta. intros Hs Hz Hf. unfold ls_main. revert Hf. destruct (_ <? _)%nat; intros Hf.
  - eapply wp_mono; [apply wp_ls; [done|done|by apply Forall_cons in Hf as [Hf _]]|]. intros _ s' (_ & H). cbn. by rewrite !app_nil_r.
  - eapply wp_mono; [by apply wp_ls_all|]. by intros _ s' (_ & H).
Qed.

(** * An example *)

(** A directory "." of two entries, one of them free, and a third that is not
    there. *)
Record lsst : Type := MkLs { l_next : Z; l_fds : gmap Z (list Z * nat); l_out : list Z; l_err : list Z }.

Definition ex_name (s : list Z) : list Z := s ++ replicate (14 - length s) 0.
Definition ex_dir_bytes : list Z := [7; 0] ++ ex_name (cs "README") ++ [0; 0] ++ ex_name (cs "old") ++ [9; 0] ++ ex_name (cs "gone").
Definition ex_info (p : list Z) : option stat :=
  if bool_decide (p = cs ".") then Some (MkStat T_DIR 1 1 1 48)
  else if bool_decide (p = cs "./README") then Some (MkStat T_FILE 1 7 1 2290) else None.
Definition ex_content (p : list Z) : list Z := if bool_decide (p = cs ".") then ex_dir_bytes else [].

Definition lx_open (path : list Z) (mode : Z) : M lsst Z := λ s,
  match ex_info path with
  | None => Ret (-1, s)
  | Some _ => Ret (l_next s, MkLs (l_next s + 1) (<[l_next s := (path, 0%nat)]> (l_fds s)) (l_out s) (l_err s))
  end.
Definition lx_read (fd n : Z) : M lsst (Z * list Z) := λ s,
  match l_fds s !! fd with
  | None => Ret ((-1, []), s)
  | Some (p, o) =>
      let bs := take (Z.to_nat n) (drop o (ex_content p)) in
      Ret ((Z.of_nat (length bs), bs), MkLs (l_next s) (<[fd := (p, (o + length bs)%nat)]> (l_fds s)) (l_out s) (l_err s))
  end.
Definition lx_write (fd : Z) (bs : list Z) : M lsst Z := λ s,
  Ret (Z.of_nat (length bs), if fd =? 1 then MkLs (l_next s) (l_fds s) (l_out s ++ bs) (l_err s) else MkLs (l_next s) (l_fds s) (l_out s) (l_err s ++ bs)).
Definition lx_close (fd : Z) : M lsst Z := λ s, Ret (0, MkLs (l_next s) (delete fd (l_fds s)) (l_out s) (l_err s)).
Definition lx_fstat (fd : Z) : M lsst (option stat) := λ s,
  Ret (p ← fst <$> l_fds s !! fd; ex_info p, s).

#[export] Instance lx_sys : Sys lsst := {| read := lx_read; write := lx_write; open := lx_open; close := lx_close |}.
#[export] Instance lx_stat : SysStat lsst := lx_fstat.

Definition lx_ok (s : lsst) : Prop := 0 ≤ l_next s ∧ map_Forall (λ fd _, fd < l_next s) (l_fds s).

#[export] Instance lx_tree : Tree lsst lx_ok l_fds l_out l_err ex_info ex_content.
Proof.
  split.
  - intros s path [H1 H2] _. assert (Hn : l_fds s !! l_next s = None).
    { destruct (l_fds s !! l_next s) as [x|] eqn:E; [|done]. apply H2 in E. lia. }
    cbn. unfold lx_open. destruct (ex_info path); eexists _, _; (split; [reflexivity|]); cbn; [|done].
    split_and!; try done. split; [cbn; lia|]. cbn. apply map_Forall_insert_2; [lia|]. eapply map_Forall_impl; [exact H2|]. cbn. lia.
  - intros s fd path o Hs H. eexists. split; [unfold fstat, lx_stat, lx_fstat; rewrite H; reflexivity|]. done.
  - intros s fd path o [H1 H2] H. eexists. split; [cbn; unfold lx_read; rewrite H; reflexivity|]. cbn. split; [|done]. split; [done|]. cbn.
    apply map_Forall_insert_2; [by apply H2 in H|done].
  - intros s fd x [H1 H2] H. eexists _, _. split; [reflexivity|]. cbn. split; [|done]. split; [done|]. cbn. by apply map_Forall_delete.
  - intros s bs Hs _. eexists. split; [reflexivity|]. done.
  - intros s bs Hs _. eexists. split; [reflexivity|]. done.
Qed.

Lemma ls_correct_witness : wp (ls_main 4 [cs "ls"]) (MkLs 3 ∅ [] []) (λ _ s', l_fds s' = ∅ ∧ l_out s' = cs "README         2 7 2290
ls: cannot stat ./gone
" ∧ l_err s' = []).
Proof.
  eapply wp_mono; [apply (ls_correct lx_ok l_fds l_out l_err ex_info ex_content 4 [cs "ls"] (MkLs 3 ∅ [] []))|].
  - split; [cbn; lia|]. apply map_Forall_empty.
  - change (0 ≤ 14)%nat. lia.
  - apply Forall_singleton. vm_compute. lia.
  - intros _ s' (H1 & H2 & H3). split; [exact H1|]. rewrite H2, H3. split; vm_compute; reflexivity.
Defined.

(** * Programs over one system call each *)

Class SysTools (S : Type) : Type := {
  unlink : list Z → M S Z;
  mkdir : list Z → M S Z;
  link : list Z → list Z → M S Z;
  kill : Z → M S Z;
  chprty : Z → Z → M S Z;
  usleep : Z → M S Z
}.

Section tools.
Context {S : Type} `{!Sys S, !SysTools S}.

(** The loop of rm.c and mkdir.c: a failure is reported and ends it. *)
Fixpoint until_failure (call : list Z → M S Z) (msg : list Z) (files : list (list Z)) : M S unit :=
  match files with
  | [] => ret tt
  | file :: files =>
      r <- call file ;;
      if r <? 0 then printf 2 msg [Str (Some file)] else until_failure call msg files
  end.

Definition rm_main (argv : list (list Z)) : M S unit :=
  if (length argv <? 2)%nat then printf 2 (cs "Usage: rm files...
") [] else until_failure unlink (cs "rm: %s failed to delete
") (tail argv).

Definition mkdir_main (argv : list (list Z)) : M S unit :=
  if (length argv <? 2)%nat then printf 2 (cs "Usage: mkdir files...
") [] else until_failure mkdir (cs "mkdir: %s failed to create
") (tail argv).

Definition ln_main (argv : list (list Z)) : M S unit :=
  match argv with
  | [_; old; new] =>
      r <- link old new ;;
      if r <? 0 then printf 2 (cs "link %s %s: failed
") [Str (Some old); Str (Some new)] else ret tt
  | _ => printf 2 (cs "Usage: ln old new
") []
  end.

Fixpoint kill_all (args : list (list Z)) : M S unit :=
  match args with
  | [] => ret tt
  | a :: args => kill (atoi a) ;;; kill_all args
  end.

Definition kill_main (argv : list (list Z)) : M S unit :=
  if (length argv <? 2)%nat then printf 2 (cs "usage: kill pid...
") [] else kill_all (tail argv).

Definition xpri_main (argv : list (list Z)) : M S unit :=
  match argv with
  | _ :: pid :: priority :: _ =>
      let priority := atoi priority in
      let pid := atoi pid in
      if (priority <? 0) || (100 <? priority) then printf 2 (cs "Invalid priority (0-100)!
") [] else
      chprty pid priority ;;;
      ret tt
  | _ =>
      printf 2 (cs "Usage: xpri pid priority
") [] ;;;
      usleep 1 ;;;
      ret tt
  end.

Fixpoint wc_files (f : nat) (files : list (list Z)) : M S bool :=
  match files with
  | [] => ret true
  | name :: files =>
      fd <- open name 0 ;;
      if fd <? 0 then printf 1 (cs "wc: cannot open %s
") [Str (Some name)] ;;; ret true else
      x <- wc f fd name ;;
      if x : bool then ret true else close fd ;;; wc_files f files
  end.

Definition wc_main (f : nat) (argv : list (list Z)) : M S bool :=
  if (length argv <=? 1)%nat then wc f 0 [] ;;; ret true else wc_files f (tail argv).

(** * Until the first failure *)

(** [call] does [doit] to what the program sees and succeeds where [can] says
    so, and otherwise changes nothing. *)
Context {V : Type} {ok : S → Prop} {view : S → V} {err : S → list Z} `{!Sink S 2 ok view err}.

Definition performs (call : list Z → M S Z) (can : V → list Z → bool) (doit : V → list Z → V) : Prop := ∀ s p, ok s →
  ∃ s', call p s = Ret (if can (view s) p then 0 else -1, s') ∧ ok s' ∧ err s' = err s
    ∧ view s' = if can (view s) p then doit (view s) p else view s.

(** What is done, and the file that could not be done. *)
Fixpoint effect (can : V → list Z → bool) (doit : V → list Z → V) (v : V) (files : list (list Z)) : V * option (list Z) :=
  match files with
  | [] => (v, None)
  | p :: files => if can v p then effect can doit (doit v p) files else (v, Some p)
  end.

Lemma wp_until_failure call can doit msg : performs call can doit → (∀ p, is_Some (render msg false [Str (Some p)])) → ∀ files s, ok s →
  wp (until_failure call msg files) s (λ _ s', ok s' ∧ view s' = (effect can doit (view s) files).1
    ∧ err s' = err s ++ match (effect can doit (view s) files).2 with None => [] | Some p => default [] (render msg false [Str (Some p)]) end).
Proof using Sink0.
  intros Hc Hm. induction files as [|p files IH]; intros s Hs; cbn [until_failure effect].
  - wp_step. cbn. by rewrite app_nil_r.
  - wp_step. destruct (Hc s p Hs) as (s1 & E & K1 & R1 & V1). eexists _, s1. split; [exact E|]. destruct (can (view s) p).
    + change (0 <? 0) with false. cbv iota. eapply wp_mono; [by apply IH|]. intros _ s' (K2 & V2 & R2). by rewrite V2, R2, V1, R1.
    + change (-1 <? 0) with true. cbv iota. destruct (Hm p) as [bs Eb]. cbn [fst snd]. rewrite Eb.
      eapply wp_mono; [by apply (sends_printf (view := view) (out := err) _ _ _ _ Eb)|]. intros _ s' (K2 & V2 & R2). cbn. split; [done|split; congruence].
Qed.
End tools.

(** * rm *)

Ltac some_format := match goal with |- is_Some (render ?f _ _) => let f' := eval vm_compute in f in change f with f' end;
  eexists; lazy [render Z.eqb Pos.eqb negb orb andb fmap option_fmap option_map]; reflexivity.

(** rm deletes its arguments in order up to the first that cannot be deleted,
    which it names on descriptor 2; the rest are left alone. *)
Theorem rm_deletes {S} `{!Sys S, !SysTools S} ok (names : S → list (list Z)) err `{!Sink S 2 ok names err} can prog files s :
  performs (ok := ok) (view := names) (err := err) unlink can (λ v p, filter (λ q, q ≠ p) v) → ok s → files ≠ [] →
  wp (rm_main (prog :: files)) s (λ _ s',
    let r := effect can (λ v p, filter (λ q, q ≠ p) v) (names s) files in names s' = r.1
    ∧ (r.2 = None → err s' = err s) ∧ ∀ p, r.2 = Some p → err s' = err s ++ default [] (render (cs "rm: %s failed to delete
") false [Str (Some p)])).
Proof.
  intros Hp Hs Hn. unfold rm_main. destruct files as [|p files]; [done|]. cbn [length Nat.ltb Nat.leb tail].
  eapply wp_mono; [apply (wp_until_failure _ _ _ _ Hp); [intros q; some_format|done]|]. intros _ s' (_ & E & R). cbv zeta. split; [done|].
  rewrite R. destruct (effect _ _ _ _) as [v [q|]]; cbn [fst snd]; split; try done; [by intros q' [= <-]|by intros _; rewrite app_nil_r].
Qed.

(** * An example *)

Record toolst : Type := MkTools { t_names : list (list Z); t_err : list Z }.
#[export] Instance toolst_sys : Sys toolst :=
  {| read _ _ := ret (-1, []); write _ bs := modify (λ s, MkTools (t_names s) (t_err s ++ bs)) ;;; ret (Z.of_nat (length bs));
     open _ _ := ret (-1); close _ := ret (-1) |}.
#[export] Instance toolst_tools : SysTools toolst :=
  {| unlink p := λ s, if bool_decide (p ∈ t_names s) then Ret (0, MkTools (filter (λ q, q ≠ p) (t_names s)) (t_err s)) else Ret (-1, s);
     mkdir _ := ret (-1); link _ _ := ret (-1); kill _ := ret (-1); chprty _ _ := ret (-1); usleep _ := ret 0 |}.
#[export] Instance toolst_sink : Sink toolst 2 (λ _, True) t_names t_err.
Proof. intros s bs _ _. eexists. split; [reflexivity|]. done. Qed.

Lemma rm_deletes_witness :
  wp (rm_main [cs "rm"; cs "b"; cs "x"; cs "a"]) (MkTools [cs "a"; cs "b"; cs "c"] []) (λ _ s', t_names s' = [cs "a"; cs "c"] ∧ t_err s' = cs "rm: x failed to delete
").
Proof.
  eapply wp_mono; [apply (rm_deletes (λ _, True) t_names t_err (λ v p, bool_decide (p ∈ v)) (cs "rm") [cs "b"; cs "x"; cs "a"] (MkTools [cs "a"; cs "b"; cs "c"] []))|].
  - intros s p _. cbn. destruct (bool_decide (p ∈ t_names s)); eexists; (split; [reflexivity|]); done.
  - done.
  - done.
  - intros _ s' (H1 & _ & H2). split; [rewrite H1; vm_compute; reflexivity|]. rewrite (H2 (cs "x")); vm_compute; reflexivity.
Defined.
