(* ===== verification/Umalloc.v ===== *)
(** umalloc.c: malloc and free of user programs.

    The free blocks form a ring in the user's memory: a block is a header of
    8 bytes, a pointer to the next free block and a size in units of 8 bytes
    that counts the header, and the bytes behind it.  The ring passes through
    [base], a header with size 0 in the program's data. *)

From S2P Require Import Prelude Params Cstring.

Record ms : Type := MkMs {
  um : mem;            (* the memory of the process *)
  freep : Z;           (* 0 before the first call *)
  brk : Z              (* the end of the memory, where sbrk adds *)
}.

Definition set_um (x : mem) (s : ms) : ms := MkMs x (freep s) (brk s).
Definition set_freep (x : Z) (s : ms) : ms := MkMs (um s) x (brk s).
Definition set_brk (x : Z) (s : ms) : ms := MkMs (um s) (freep s) x.

(** Fields of the header at [p]. *)
Definition h_ptr (p : Z) : M ms Z := gets (λ s, ld32 (um s) p).
Definition h_size (p : Z) : M ms Z := gets (λ s, ld32 (um s) (p + 4)).
Definition put_ptr (p v : Z) : M ms unit := modify (λ s, set_um (st32 p v (um s)) s).
Definition put_size (p v : Z) : M ms unit := modify (λ s, set_um (st32 (p + 4) v (um s)) s).

(** sizeof(Header) *)
Definition HDR : Z := 8.

Section umalloc.
(** [base] is &base; [grow b n] says whether the kernel can extend a memory
    of [b] bytes by [n]. *)
Context (base : Z) (grow : Z → Z → bool).

(** The system call sbrk with a positive argument. *)
Definition sbrk (n : Z) : M ms Z :=
  s <- get ;;
  if grow (brk s) n then put (set_brk (brk s + n) s) ;;; ret (brk s) else ret (-1).

(** The loop of free: the place of the block [bp] in the ring. *)
Fixpoint free_find (f : nat) (bp p : Z) : M ms Z :=
  next <- h_ptr p ;;
  if (p <? bp) && (bp <? next) then ret p else
  if (next <=? p) && ((p <? bp) || (bp <? next)) then ret p else
  match f with
  | O => out_of_fuel
  | S f' => free_find f' bp next
  end.

Definition free (f : nat) (ap : Z) : M ms unit :=
  let bp := u32 (ap - HDR) in
  s <- get ;;
  p <- free_find f bp (freep s) ;;
  next <- h_ptr p ;;
  n <- h_size bp ;;
  (if u32 (bp + HDR * n) =? next then
     k <- h_size next ;;
     put_size bp (n + k) ;;;
     nn <- h_ptr next ;;
     put_ptr bp nn
   else put_ptr bp next) ;;;
  k <- h_size p ;;
  (if u32 (p + HDR * k) =? bp then
     n <- h_size bp ;;
     put_size p (k + n) ;;;
     nn <- h_ptr bp ;;
     put_ptr p nn
   else put_ptr p bp) ;;;
  modify (set_freep p).

Definition morecore (f : nat) (nu : Z) : M ms Z :=
  let nu := if nu <? 4096 then 4096 else nu in
  p <- sbrk (s32 (u32 (nu * HDR))) ;;
  if p =? -1 then ret 0 else
  put_size p nu ;;;
  free f (u32 (p + HDR)) ;;;
  s <- get ;;
  ret (freep s).

(** The loop of malloc. *)
Fixpoint malloc_loop (f : nat) (nunits prevp p : Z) : M ms Z :=
  n <- h_size p ;;
  if nunits <=? n then
    r <- (if n =? nunits then
            next <- h_ptr p ;; put_ptr prevp next ;;; ret p
          else
            put_size p (n - nunits) ;;;
            let p := u32 (p + HDR * (n - nunits)) in
            put_size p nunits ;;; ret p) ;;
    modify (set_freep prevp) ;;;
    ret (u32 (r + HDR))
  else
    match f with
    | O => out_of_fuel
    | S f' =>
        s <- get ;;
        if p =? freep s then
          p <- morecore f nunits ;;
          if p =? 0 then ret 0 else
          next <- h_ptr p ;; malloc_loop f' nunits p next
        else next <- h_ptr p ;; malloc_loop f' nunits p next
    end.

(** The number of units for [nbytes] bytes. *)
Definition units (nbytes : Z) : Z := u32 (nbytes + HDR - 1) / HDR + 1.

Definition malloc (f : nat) (nbytes : Z) : M ms Z :=
  let nunits := units nbytes in
  s <- get ;;
  (if freep s =? 0 then
     put_ptr base base ;;; modify (set_freep base) ;;; put_size base 0
   else ret tt) ;;;
  s <- get ;;
  next <- h_ptr (freep s) ;;
  malloc_loop f nunits (freep s) next.

End umalloc.

(** * The ring and the heap *)

(** A block: its address and its size in units. *)
Abbreviation block := (Z * Z)%type.
Definition fin (b : block) : Z := b.1 + HDR * b.2.

Definition hd_addr (L : list block) (e : Z) : Z := match L with [] => e | b :: _ => b.1 end.

(** The headers of [L] are in memory, each linked to the next, the last one
    to [e]. *)
Fixpoint fseg (m : mem) (L : list block) (e : Z) : Prop :=
  match L with
  | [] => True
  | b :: L' => ld32 m b.1 = hd_addr L' e ∧ ld32 m (b.1 + 4) = b.2 ∧ fseg m L' e
  end.

Definition ring (m : mem) (R : list block) : Prop := fseg m R (hd_addr R 0).

(** Free blocks are in order, with something between any two. *)
Definition before (x y : block) : Prop := fin x < y.1.
Definition disj (x y : block) : Prop := fin x ≤ y.1 ∨ fin y ≤ x.1.
Definition in_heap (lo hi : Z) (b : block) : Prop := lo ≤ b.1 ∧ 0 < b.2 ∧ fin b ≤ hi.

(** The free blocks [L] and the blocks [A] that the program owns. *)
Record heap (base lo : Z) (s : ms) (L : list block) (A : gmap Z Z) : Prop := {
  hp_bounds : 0 < base ∧ base + HDR ≤ lo ∧ lo ≤ brk s ≤ KERNBASE;
  hp_start : freep s = 0 → L = [] ∧ A = ∅;
  hp_ring : freep s ≠ 0 → ring (um s) ((base, 0) :: L) ∧ freep s ∈ base :: L.*1;
  hp_sorted : StronglySorted before L;
  hp_in : Forall (in_heap lo (brk s)) L;
  hp_alloc a n : A !! a = Some n → in_heap lo (brk s) (a, n) ∧ ld32 (um s) (a + 4) = n ∧ Forall (disj (a, n)) L;
  hp_apart a n b k : A !! a = Some n → A !! b = Some k → a ≠ b → disj (a, n) (b, k)
}.

Lemma fseg_app m L1 L2 e : fseg m (L1 ++ L2) e ↔ fseg m L1 (hd_addr L2 e) ∧ fseg m L2 e.
Proof.
  induction L1 as [|b L1 IH]; simpl; [tauto|]. rewrite IH.
  assert (hd_addr (L1 ++ L2) e = hd_addr L1 (hd_addr L2 e)) as -> by (by destruct L1). tauto.
Qed.

Lemma ring_rotate m L1 b L2 : ring m (L1 ++ b :: L2) → ring m (b :: L2 ++ L1).
Proof.
  unfold ring. intros H. rewrite fseg_app in H. destruct H as [H1 H2]. change (b :: L2 ++ L1) with ((b :: L2) ++ L1).
  rewrite fseg_app. destruct L1 as [|c L1]; [by split|]. split; [exact H2|exact H1].
Qed.

(** A header that no other header of [L] overlaps. *)
Definition off (a : Z) (L : list block) : Prop := Forall (λ b, a + HDR ≤ b.1 ∨ b.1 + HDR ≤ a) L.

Lemma fseg_ext m m' L e : Forall (λ b, ld32 m' b.1 = ld32 m b.1 ∧ ld32 m' (b.1 + 4) = ld32 m (b.1 + 4)) L → fseg m L e → fseg m' L e.
Proof. induction 1 as [|b L [H1 H2] HL IH]; [done|]. simpl. rewrite H1, H2. tauto. Qed.

Lemma seg_put m L e a d v : off a L → 0 ≤ d ≤ 4 → fseg m L e → fseg (st32 (a + d) v m) L e.
Proof.
  intros Ho Hd. apply fseg_ext. eapply Forall_impl; [exact Ho|]. intros b Hb. unfold HDR in *. rewrite !ld32_st32_other by lia. done.
Qed.

(** The links lead along the ring. *)
Lemma seg_in m L e b : fseg m L e → b ∈ L → ∃ L1 L2, L = L1 ++ b :: L2 ∧ ld32 m b.1 = hd_addr L2 e ∧ ld32 m (b.1 + 4) = b.2.
Proof.
  intros H Hb. apply list_elem_of_split in Hb as (L1 & L2 & ->). exists L1, L2. apply fseg_app in H as [_ (H1 & H2 & _)]. done.
Qed.

(** * Finding the place of a block *)

Definition stop (bp p next : Z) : bool :=
  ((p <? bp) && (bp <? next)) || ((next <=? p) && ((p <? bp) || (bp <? next))).

Lemma free_find_skip s R e bp f : fseg (um s) R e → Forall (λ b, stop bp b.1 (ld32 (um s) b.1) = false) R →
  (length R ≤ f)%nat → free_find f bp (hd_addr R e) s = free_find (f - length R) bp e s.
Proof.
  revert f. induction R as [|b R IH]; intros f Hs Hf Hl; cbn [length hd_addr] in *; [by rewrite Nat.sub_0_r|].
  destruct Hs as (H1 & H2 & Hs). inversion Hf as [|? ? Hb HR]; subst. apply orb_false_iff in Hb as [Hb1 Hb2].
  destruct f as [|f]; [lia|]. cbn [free_find]. unfold bind at 1, h_ptr at 1, gets. rewrite Hb1, Hb2.
  rewrite H1, IH by (done || lia). by replace (S f - S (length R))%nat with (f - length R)%nat by lia.
Qed.

Lemma free_find_here s bp p f : stop bp p (ld32 (um s) p) = true → free_find f bp p s = Ret (p, s).
Proof.
  intros H. assert (free_find f bp p s = (if (p <? bp) && (bp <? ld32 (um s) p) then Ret (p, s) else
    if (ld32 (um s) p <=? p) && ((p <? bp) || (bp <? ld32 (um s) p)) then Ret (p, s) else
    match f with O => OutOfFuel | S f' => free_find f' bp (ld32 (um s) p) s end)) as ->.
  { destruct f; cbn [free_find]; unfold bind, h_ptr, gets, ret; repeat (case_match; try done). }
  unfold stop in H. apply orb_true_iff in H as [-> | ->]; [done|]. by destruct (_ && _).
Qed.

(** The blocks below and above [bp]. *)
Lemma place W bp b0 : StronglySorted before (b0 :: W) → Forall (λ b, 0 ≤ b.2) (b0 :: W) → b0.1 < bp → Forall (λ b, b.1 ≠ bp) W →
  ∃ L1 q L2, b0 :: W = L1 ++ q :: L2 ∧ Forall (λ b, b.1 < bp) (L1 ++ [q]) ∧ Forall (λ b, bp < b.1) L2.
Proof.
  revert b0. induction W as [|b W IH]; intros b0 Hs Hn H0 Hne.
  { exists [], b0, []. split_and!; [done|by repeat constructor|constructor]. }
  inversion Hs as [|? ? Hs' Hall]; subst. inversion Hn as [|? ? ? Hn']; subst. inversion Hne; subst.
  destruct (decide (b.1 < bp)) as [Hb|Hb].
  - destruct (IH b Hs' Hn' Hb ltac:(done)) as (L1 & q & L2 & E & H1 & H2).
    exists (b0 :: L1), q, L2. rewrite E. split_and!; [done|by constructor|done].
  - exists [], b0, (b :: W). split_and!; [done|by repeat constructor|]. constructor; [lia|].
    inversion Hs' as [|? ? ? Hb']; subst. eapply Forall_impl; [exact Hb'|]. unfold before, fin, HDR.
    inversion Hn'; subst. intros c Hc. lia.
Qed.

Lemma sorted_app_inv W1 x W2 : StronglySorted before (W1 ++ x :: W2) →
  Forall (λ b, before b x) W1 ∧ Forall (before x) W2 ∧ StronglySorted before W1 ∧ StronglySorted before W2
  ∧ Forall (λ b, Forall (before b) W2) W1.
Proof.
  induction W1 as [|b W1 IH]; cbn [app]; intros H; inversion H as [|? ? Hs Hall]; subst.
  - split_and!; done || constructor.
  - destruct (IH Hs) as (H1 & H2 & H3 & H4 & H5). apply Forall_app in Hall as [Ha Hb]. inversion Hb; subst.
    split_and!; try constructor; done.
Qed.

(** The successor of [x] in the ring: the next block in order, or the first. *)
Lemma ring_next m W x : ring m W → StronglySorted before W → Forall (λ b, 0 ≤ b.2) W → x ∈ W →
  (ld32 m x.1 = hd_addr W 0 ∧ ∀ z, z ∈ W → z.1 ≤ x.1)
  ∨ (∃ c, c ∈ W ∧ ld32 m x.1 = c.1 ∧ x.1 < c.1 ∧ ∀ z, z ∈ W → z.1 ≤ x.1 ∨ c.1 ≤ z.1).
Proof.
  intros Hr Hs Hn Hx. destruct (seg_in _ _ _ _ Hr Hx) as (A & B & E & Hnext & _). rewrite Hnext, E. rewrite E in Hs, Hn. clear Hnext E Hr Hx.
  destruct (sorted_app_inv _ _ _ Hs) as (HA & HB & _ & HsB & _).
  apply Forall_app in Hn as [HnA HnB]. inversion HnB as [|? ? Hxn HnB']; subst.
  assert (HA' : ∀ z, z ∈ A → z.1 ≤ x.1).
  { intros z Hz. rewrite Forall_forall in HA, HnA. specialize (HA z Hz). specialize (HnA z Hz). unfold before, fin, HDR in HA. lia. }
  destruct B as [|c B]; [left|right].
  - split; [done|]. intros z [?|[->|[]%not_elem_of_nil]%elem_of_cons]%elem_of_app; [auto|lia].
  - inversion HB as [|? ? Hc _]; inversion HsB as [|? ? _ HcB]; inversion HnB' as [|? ? Hcn _]; subst. unfold before, fin, HDR in Hc.
    exists c. split_and!; [set_solver|done|lia|]. rewrite Forall_forall in HcB.
    intros z [?|[->|[->|Hz]%elem_of_cons]%elem_of_cons]%elem_of_app; [left; auto|left; lia|right; lia|].
    right. specialize (HcB z Hz). unfold before, fin, HDR in HcB. lia.
Qed.

(** The loop of free stops exactly at the last block below [bp]. *)
Lemma stop_spec m W bp L1 q L2 x : ring m W → StronglySorted before W → Forall (λ b, 0 ≤ b.2) W →
  W = L1 ++ q :: L2 → Forall (λ b, b.1 < bp) (L1 ++ [q]) → Forall (λ b, bp < b.1) L2 →
  hd_addr W 0 < bp → Forall (λ b, hd_addr W 0 ≤ b.1) W → x ∈ W → stop bp x.1 (ld32 m x.1) = true ↔ x = q.
Proof.
  intros Hr Hs Hn EW H1 H2 Hbp Hlow Hx.
  apply Forall_app in H1 as [H1 Hq]. inversion Hq as [|? ? Hq' _]; subst x0 l.
  assert (HL1 : ∀ z, z ∈ L1 → z.1 < q.1).
  { intros z Hz. rewrite EW in Hs, Hn. destruct (sorted_app_inv _ _ _ Hs) as (HA & _). apply Forall_app in Hn as [Hn _].
    rewrite Forall_forall in HA, Hn. specialize (HA z Hz). specialize (Hn z Hz). unfold before, fin, HDR in HA. lia. }
  rewrite Forall_forall in H2, Hlow. specialize (Hlow x Hx) as Hxlow.
  assert (HqW : q ∈ W) by (rewrite EW; set_solver).
  assert (Hend : x.1 < bp → q.1 ≤ x.1 → x = q).
  { intros Hxb Hqx. rewrite EW in Hx. apply elem_of_app in Hx as [Hx|[Hx|Hx]%elem_of_cons]; [|done|].
    - specialize (HL1 x Hx). lia. - specialize (H2 x Hx). lia. }
  unfold stop. destruct (ring_next m W x Hr Hs Hn Hx) as [[-> Hlast]|(c & Hc & -> & Hxc & Hnone)].
  - specialize (Hlast q HqW). split; [intros Hst; apply Hend; [|done]|intros ->]; zcases_in Hst || zcases; lia || done.
  - split.
    + intros Hst. apply Hend; destruct (Hnone q HqW); zcases_in Hst; lia || done.
    + intros ->. assert (bp < c.1); [|zcases; done].
      rewrite EW in Hc. apply elem_of_app in Hc as [Hc|[Hc|Hc]%elem_of_cons]; [specialize (HL1 c Hc); lia|subst; lia|by apply H2].
Qed.

Lemma free_find_ring s W bp L1 q L2 f : ring (um s) W → StronglySorted before W → Forall (λ b, 0 ≤ b.2) W →
  W = L1 ++ q :: L2 → Forall (λ b, b.1 < bp) (L1 ++ [q]) → Forall (λ b, bp < b.1) L2 →
  hd_addr W 0 < bp → Forall (λ b, hd_addr W 0 ≤ b.1) W → freep s ∈ W.*1 → (length W ≤ f)%nat →
  free_find f bp (freep s) s = Ret (q.1, s).
Proof.
  intros Hr Hs Hn EW H1 H2 Hbp Hlow Hfp Hf.
  assert (Hstop : ∀ x, x ∈ W → stop bp x.1 (ld32 (um s) x.1) = true ↔ x = q) by (intros x; by eapply stop_spec).
  apply list_elem_of_fmap in Hfp as (x & -> & Hx). apply list_elem_of_split in Hx as (F1 & F2 & EF).
  assert (HR : ring (um s) (x :: F2 ++ F1)) by (apply ring_rotate; by rewrite <- EF).
  assert (Hperm : ∀ z, z ∈ x :: F2 ++ F1 ↔ z ∈ W) by (intros z; rewrite EF; set_solver).
  assert (Hlen : length (x :: F2 ++ F1) = length W) by (rewrite EF; simpl; rewrite !length_app; simpl; lia).
  assert (HqR : q ∈ x :: F2 ++ F1) by (rewrite Hperm, EW; set_solver).
  apply list_elem_of_split_l in HqR as (R1 & R2 & ER & HqR1).
  assert (Ex : x.1 = hd_addr R1 q.1) by (destruct R1; by injection ER as ->).
  unfold ring in HR. rewrite ER, fseg_app in HR. destruct HR as [HR _].
  rewrite Ex, (free_find_skip s R1 q.1); [apply free_find_here, Hstop; [rewrite <- Hperm, ER; set_solver|done]|done| |].
  - apply Forall_forall. intros z Hz. apply not_true_is_false. rewrite Hstop; [|rewrite <- Hperm, ER; set_solver]. by intros ->.
  - rewrite <- Hlen, ER, length_app in Hf. lia.
Qed.

(** * free *)

(** Memory reads back what was stored, and nothing else changes. *)
Ltac ldst := repeat (rewrite ld32_st32_same || rewrite ld32_st32_other by (unfold HDR in *; lia)).

(** The block [bp] of size [n] takes over its successor, or is linked to it. *)
Definition join_mem (bp n next : Z) (m : mem) : mem :=
  if u32 (bp + HDR * n) =? next then
    let m' := st32 (bp + 4) (n + ld32 m (next + 4)) m in st32 bp (ld32 m' next) m'
  else st32 bp next m.

(** What free does to memory once it has found the place [p]. *)
Definition free_mem (p bp : Z) (m : mem) : mem :=
  let m1 := join_mem bp (ld32 m (bp + 4)) (ld32 m p) m in
  join_mem p (ld32 m1 (p + 4)) bp m1.

Lemma free_run f ap p s : free_find f (u32 (ap - HDR)) (freep s) s = Ret (p, s) →
  free f ap s = Ret (tt, MkMs (free_mem p (u32 (ap - HDR)) (um s)) p (brk s)).
Proof.
  intros E. unfold free, free_mem, join_mem. unfold bind at 1, get at 1. rewrite (bind_ret_eval _ _ _ _ _ E).
  unfold bind, h_ptr, h_size, put_ptr, put_size, gets, modify. cbv beta iota. destruct s as [m fp b]. cbn [um freep brk set_um set_freep].
  destruct (u32 _ =? _); cbn [um freep brk set_um set_freep]; destruct (u32 _ =? _); reflexivity.
Qed.

(** On blocks: [b] in front of [L], joined with the first of them when they
    touch. *)
Definition join (b : block) (L : list block) : list block :=
  match L with
  | c :: L' => if fin b =? c.1 then (b.1, b.2 + c.2) :: L' else b :: L
  | [] => [b]
  end.

Definition sane (b : block) : Prop := 0 ≤ b.1 ∧ 0 ≤ b.2 ∧ fin b ≤ KERNBASE.

Lemma u32_sane x : sane x → u32 (x.1 + HDR * x.2) = fin x ∧ u32 x.2 = x.2.
Proof. unfold sane, fin, HDR, KERNBASE. intros H. rewrite !u32_small by lia. done. Qed.

Lemma ring_cons_off a m L e b : off a (b :: L) → fseg m (b :: L) e → off a L ∧ fseg m L e.
Proof. intros Ho Hs. inversion Ho; subst. by destruct Hs as (_ & _ & ?). Qed.

Lemma hd_addr_range L e : Forall sane L → 0 ≤ e ≤ KERNBASE → u32 (hd_addr L e) = hd_addr L e.
Proof.
  intros HL He. apply u32_small. destruct L as [|c L]; [unfold KERNBASE in *; simpl; lia|].
  inversion HL as [|? ? Hc]; subst. unfold sane, fin, KERNBASE, HDR in *. simpl. lia.
Qed.

Lemma join_mem_other bp n next m x : ¬ (bp ≤ x < bp + HDR) → join_mem bp n next m x = m x.
Proof. unfold join_mem, HDR. intros Hx. destruct (_ =? _); cbv zeta; rewrite !st32_other by lia; done. Qed.

Lemma seg_mono m m' L e a : off a L → (∀ x, ¬ (a ≤ x < a + HDR) → m' x = m x) → fseg m L e → fseg m' L e.
Proof.
  intros Ho Hm. apply fseg_ext. eapply Forall_impl; [exact Ho|]. intros b Hb. unfold HDR in *.
  split; apply ld32_ext; intros x Hx; apply Hm; lia.
Qed.

Lemma seg_join m b L2 e : fseg m L2 e → ld32 m (b.1 + 4) = b.2 → off b.1 L2 → sane b → Forall sane L2 → 0 ≤ e ≤ KERNBASE →
  (L2 = [] → fin b ≠ e) → fseg (join_mem b.1 b.2 (hd_addr L2 e) m) (join b L2) e.
Proof.
  intros Hs Hb Ho Hsb Hsane He Hn. destruct (u32_sane _ Hsb) as [Hfin Hb2].
  pose proof (seg_mono m (join_mem b.1 b.2 (hd_addr L2 e) m) L2 e b.1 Ho (join_mem_other _ _ _ _) Hs) as Hs'.
  revert Hs'. unfold join_mem. rewrite Hfin. unfold join. destruct L2 as [|c L2]; cbn [hd_addr].
  - rewrite (proj2 (Z.eqb_neq (fin b) e)) by auto. intros _. cbn [fseg hd_addr]. ldst. split; [|done].
    by apply (hd_addr_range [] e).
  - inversion Hsane as [|? ? Hc Hsane']; subst. inversion Ho as [|? ? Hoc Ho']; subst. destruct Hs as (Hc1 & Hc2 & Hs).
    destruct (Z.eqb_spec (fin b) c.1) as [E|E]; cbv zeta; intros Hs'; cbn [fseg hd_addr fst snd].
    + destruct Hs' as (_ & _ & Hs'). split_and!; [| |exact Hs'].
      * ldst. rewrite Hc1. by apply hd_addr_range.
      * ldst. rewrite Hc2. apply u32_small. unfold sane, fin, KERNBASE, HDR in *. lia.
    + split_and!; [|by ldst|apply Hs'..]. ldst. by apply (hd_addr_range (c :: L2) e).
Qed.

Lemma join_addr b L e : hd_addr (join b L) e = b.1.
Proof. destruct L as [|c L]; [done|]. simpl. by destruct (_ =? _). Qed.

(** A property of blocks that two touching ones pass on to their union. *)
Lemma join_Forall (P : block → Prop) b L : P b → Forall P L →
  (∀ c, c ∈ L → fin b = c.1 → P (b.1, b.2 + c.2)) → Forall P (join b L).
Proof.
  intros Hb HL Hj. destruct L as [|c L]; [by constructor|]. inversion HL; subst. simpl. destruct (Z.eqb_spec (fin b) c.1).
  - constructor; [|done]. apply Hj; [set_solver|done].
  - by repeat constructor.
Qed.

(** Joining a block below [L] keeps order, gaps and bounds. *)
Lemma join_sorted b L : StronglySorted before L → Forall (λ c, fin b ≤ c.1) L → Forall (λ c, 0 ≤ c.2) L → StronglySorted before (join b L).
Proof.
  intros Hs Hle Hn. destruct L as [|c L]; [by repeat constructor|]. inversion Hs as [|? ? Hs' Hc]; subst. inversion Hle as [|? ? Hcb HL]; subst.
  inversion Hn as [|? ? Hcn ?]; subst. simpl. destruct (Z.eqb_spec (fin b) c.1) as [E|E].
  - constructor; [done|]. eapply Forall_impl; [exact Hc|]. unfold before, fin, HDR in *. simpl. intros; lia.
  - constructor; [done|]. constructor; [unfold before; lia|]. eapply Forall_impl; [exact Hc|]. unfold before, fin, HDR in *. intros; lia.
Qed.

Lemma free_mem_other p bp m x : ¬ (bp ≤ x < bp + HDR) → ¬ (p ≤ x < p + HDR) → free_mem p bp m x = m x.
Proof. intros H1 H2. unfold free_mem. cbv zeta. by rewrite !join_mem_other. Qed.

Lemma free_mem_ring m L1 q L2 b : ring m (L1 ++ q :: L2) → ld32 m (b.1 + 4) = b.2 → 0 < b.2 →
  off b.1 (L1 ++ q :: L2) → off q.1 L1 → off q.1 L2 → Forall sane (b :: q :: L2) →
  0 ≤ hd_addr (L1 ++ q :: L2) 0 ≤ b.1 → ring (free_mem q.1 b.1 m) (L1 ++ join q (join b L2)).
Proof.
  intros Hr Hb Hn Hob Hq1 Hq2 Hsane He. unfold ring in Hr. set (e := hd_addr (L1 ++ q :: L2) 0) in *.
  assert (He' : hd_addr (L1 ++ join q (join b L2)) 0 = e) by (destruct L1; [apply join_addr|done]).
  unfold ring. rewrite He'. clear He'. apply fseg_app in Hr as (H1 & Hq & Hqs & H2).
  apply Forall_app in Hob as [Hob1 Hob2]. inversion Hob2 as [|? ? Hobq Hob2']; subst x l.
  inversion Hsane as [|? ? Sb Hsane']; subst x l. inversion Hsane' as [|? ? Sq S2]; subst x l.
  assert (Hfb : fin b ≠ e) by (unfold fin, HDR; lia).
  set (m1 := join_mem b.1 (ld32 m (b.1 + 4)) (ld32 m q.1) m).
  assert (Hm1 : ∀ x, ¬ (b.1 ≤ x < b.1 + HDR) → m1 x = m x) by (intros; by apply join_mem_other).
  assert (HJ : fseg m1 (join b L2) e).
  { unfold m1. rewrite Hb, Hq. apply seg_join; try done. unfold sane, fin, HDR in *. lia. }
  assert (Hq' : ld32 m1 (q.1 + 4) = q.2) by (rewrite <- Hqs; apply ld32_ext; intros x Hx; apply Hm1; unfold HDR in *; lia).
  unfold free_mem. cbv zeta. fold m1. rewrite Hq'. apply fseg_app. rewrite join_addr. split.
  - eapply (seg_mono m1); [exact Hq1|intros; by apply join_mem_other|]. by apply (seg_mono m m1 L1 q.1 b.1).
  - assert (Hb1 : hd_addr (join b L2) e = b.1) by apply join_addr. rewrite <- Hb1 at 1. apply seg_join; try done.
    + apply join_Forall; [lia|done|]. intros c Hc E. simpl. lia.
    + apply join_Forall; [done|done|]. intros c Hc E. rewrite Forall_forall in S2. specialize (S2 c Hc). unfold sane, fin, HDR in *. simpl. lia.
    + unfold sane, fin, HDR in *. lia.
    + intros E. exfalso. apply (f_equal (λ L, hd_addr L (b.1 + 1))) in E. rewrite join_addr in E. simpl in E. lia.
Qed.

(** [b] as the predecessor of nothing but the blocks above it. *)
Lemma in_heap_sane lo hi b : 0 ≤ lo → hi ≤ KERNBASE → in_heap lo hi b → sane b.
Proof. unfold in_heap, sane. lia. Qed.

Section heap_lemmas.
Context (base lo : Z).

Abbreviation ring_of L := ((base, 0) :: L).

Lemma heap_sorted s L A : heap base lo s L A → StronglySorted before (ring_of L).
Proof.
  intros H. constructor; [apply H|]. destruct (hp_bounds _ _ _ _ _ H). eapply Forall_impl; [apply H|]. unfold in_heap, before, fin, HDR in *. simpl. lia.
Qed.

Lemma heap_sane s L A : heap base lo s L A → Forall sane (ring_of L).
Proof.
  intros H. destruct (hp_bounds _ _ _ _ _ H). constructor; [unfold sane, fin, HDR in *; simpl; lia|].
  eapply Forall_impl; [apply H|]. intros b. apply in_heap_sane; unfold HDR in *; lia.
Qed.

(** Headers of free blocks do not overlap with a block of the heap that is
    disjoint from them. *)
Lemma heap_off s L A b : heap base lo s L A → in_heap lo (brk s) b → Forall (disj b) L → off b.1 (ring_of L).
Proof.
  intros H Hb Hd. destruct (hp_bounds _ _ _ _ _ H). constructor; [unfold in_heap, HDR in *; simpl; lia|].
  apply Forall_forall. intros c Hc. pose proof (hp_in _ _ _ _ _ H) as Hin. rewrite Forall_forall in Hin, Hd. specialize (Hin c Hc). specialize (Hd c Hc).
  unfold in_heap, disj, fin, HDR in *. lia.
Qed.

(** The header of a free block is apart from those of the others. *)
Lemma heap_off_self s L A L1 q L2 : heap base lo s L A → ring_of L = L1 ++ q :: L2 → off q.1 L1 ∧ off q.1 L2.
Proof.
  intros H E. pose proof (heap_sorted _ _ _ H) as Hs. rewrite E in Hs. destruct (sorted_app_inv _ _ _ Hs) as (H1 & H2 & _).
  destruct (hp_bounds _ _ _ _ _ H). pose proof (hp_in _ _ _ _ _ H) as Hin. unfold off. rewrite !Forall_forall in *.
  assert (Hw : ∀ c, c ∈ L1 ++ q :: L2 → c = (base, 0) ∨ in_heap lo (brk s) c).
  { intros c Hc. rewrite <- E in Hc. apply elem_of_cons in Hc as [->|Hc]; [by left|right; by apply Hin]. }
  pose proof (Hw q ltac:(set_solver)) as Hq.
  split; intros c Hc; [specialize (H1 c Hc)|specialize (H2 c Hc)]; (destruct (Hw c) as [Ec|Hc']; [set_solver|subst|]);
    (destruct Hq as [->|Hq]; unfold before, in_heap, fin, HDR in *; simpl in *; lia).
Qed.
(** A property closed under joining. *)
Definition closed (P : block → Prop) : Prop := ∀ x y, P x → P y → fin x = y.1 → P (x.1, x.2 + y.2).

Lemma join_closed P b L : closed P → P b → Forall P L → Forall P (join b L).
Proof. intros Hc Hb HL. apply join_Forall; [done..|]. rewrite Forall_forall in HL. auto. Qed.

Lemma closed_in_heap hi : closed (in_heap lo hi).
Proof. intros x y. unfold in_heap, fin, HDR. simpl. lia. Qed.

Lemma closed_disj d : 0 < d.2 → closed (disj d).
Proof. intros Hd x y. unfold disj, fin, HDR. simpl. lia. Qed.

Lemma join_big b L k : 0 ≤ b.2 → Forall (λ c, 0 ≤ c.2) L → k ≤ b.2 ∨ (∃ c, c ∈ L ∧ k ≤ c.2) → ∃ c, c ∈ join b L ∧ k ≤ c.2.
Proof.
  intros Hb HL H. destruct L as [|c L]; simpl.
  - destruct H as [H|(c & []%not_elem_of_nil & _)]. exists b. set_solver.
  - inversion HL; subst. destruct (fin b =? c.1).
    + destruct H as [H|(c' & [->|Hc]%elem_of_cons & Hk)]; [eexists; split; [by left|simpl; lia]..|]. exists c'. set_solver.
    + destruct H as [H|(c' & Hc & Hk)]; [exists b; set_solver|exists c'; set_solver].
Qed.

Lemma join_length b L : (length (join b L) ≤ S (length L))%nat.
Proof. destruct L as [|c L]; simpl; [lia|]. destruct (_ =? _); simpl; lia. Qed.

(** The free blocks once [b] has been put between [q] and [L2]. *)
Lemma joined L L1 q L2 b : ring_of L = L1 ++ q :: L2 → base < b.1 → 0 < b.2 → Forall (λ c, 0 ≤ c.2) (ring_of L) →
  ∃ L', ring_of L' = L1 ++ join q (join b L2) ∧ (length L' ≤ S (length L))%nat
    ∧ (∀ P, closed P → P b → Forall P L → Forall P L') ∧ (∃ c, c ∈ L' ∧ b.2 ≤ c.2).
Proof.
  intros E Hb Hn HL. rewrite E in HL. apply Forall_app in HL as [_ HL]. inversion HL as [|? ? Hq H2]; subst x l.
  destruct (join_big b L2 b.2) as (c & Hc & Hcn); [lia|done|by left|].
  destruct L1 as [|b0 L1]; simpl in E; injection E as <- EL.
  - exists (join b L2). rewrite EL. split_and!.
    + assert (join (base, 0) (join b L2) = ring_of (join b L2)) as ->; [|done].
      pose proof (join_addr b L2 0) as Ha. destruct (join b L2) as [|c' J]; [done|]. simpl in *. unfold fin, HDR. simpl.
      by rewrite (proj2 (Z.eqb_neq _ c'.1)) by lia.
    + apply join_length.
    + intros P HP HPb. by apply join_closed.
    + by exists c.
  - exists (L1 ++ join q (join b L2)). rewrite EL. split_and!.
    + done.
    + rewrite !length_app. pose proof (join_length q (join b L2)). pose proof (join_length b L2). simpl. lia.
    + intros P HP HPb HPL. apply Forall_app in HPL as [H1' H2']. inversion H2'; subst. apply Forall_app. split; [done|].
      apply join_closed; [done..|]. by apply join_closed.
    + destruct (join_big q (join b L2) b.2) as (d & Hd & Hdn); [done| |right; by exists c|exists d; set_solver].
      apply join_Forall; [lia|done|]. simpl. rewrite Forall_forall in H2. intros c' Hc' _. specialize (H2 c' Hc'). lia.
Qed.

Lemma heap_apart s L A q b x : heap base lo s L A → q ∈ ring_of L → in_heap lo (brk s) b → Forall (disj b) L →
  b.1 ≤ x < fin b → ¬ (q.1 ≤ x < q.1 + HDR).
Proof.
  intros H Hq Hb Hd Hx. pose proof (hp_bounds _ _ _ _ _ H) as Hbd. apply elem_of_cons in Hq as [->|Hq]; [unfold in_heap, HDR in *; simpl; lia|].
  pose proof (hp_in _ _ _ _ _ H) as Hin. rewrite Forall_forall in Hd, Hin. specialize (Hd q Hq). specialize (Hin q Hq).
  unfold in_heap, disj, fin, HDR in *. lia.
Qed.

Lemma joined_sorted L1 q L2 b : StronglySorted before (L1 ++ q :: L2) → Forall sane (L1 ++ q :: L2) → 0 ≤ b.2 →
  fin q ≤ b.1 → Forall (λ c, fin b ≤ c.1) L2 → StronglySorted before (L1 ++ join q (join b L2)).
Proof.
  intros Hs Hsane Hb Hqb Hb2. destruct (sorted_app_inv _ _ _ Hs) as (H1 & H2 & S1 & S2 & _).
  apply Forall_app in Hsane as [_ Hsane]. inversion Hsane as [|? ? Hq Hsane2]; subst.
  assert (Hn2 : Forall (λ c, 0 ≤ c.2) L2) by (eapply Forall_impl; [exact Hsane2|]; unfold sane; lia).
  assert (HJ : Forall (λ c, fin q ≤ c.1) (join b L2)).
  { apply join_Forall; [done| |done]. eapply Forall_impl; [exact Hb2|]. unfold fin, HDR in *. simpl. lia. }
  assert (HJ' : Forall (λ c, q.1 ≤ c.1) (join q (join b L2))).
  { apply join_Forall; [lia| |simpl; lia]. eapply Forall_impl; [exact HJ|]. unfold fin, sane, HDR in *. simpl. lia. }
  apply StronglySorted_app_2; [|done|].
  - intros x y Hx Hy. rewrite Forall_forall in H1, HJ'. specialize (H1 x Hx). specialize (HJ' y Hy). unfold before in *. simpl in *. lia.
  - apply join_sorted; [by apply join_sorted|done|]. apply join_Forall; [done..|]. simpl. rewrite Forall_forall in Hn2. intros c Hc _. specialize (Hn2 c Hc). simpl in *. lia.
Qed.

(** Where an allocated block belongs in the ring. *)
Lemma heap_place s L A a n : heap base lo s L A → A !! a = Some n →
  ∃ L1 q L2, ring_of L = L1 ++ q :: L2 ∧ Forall (λ b, b.1 < a) (L1 ++ [q]) ∧ Forall (λ b, a < b.1) L2
    ∧ base ≤ q.1 ∧ fin q ≤ a ∧ Forall (λ c, fin (a, n) ≤ c.1) L2.
Proof.
  intros H Ha. destruct (hp_alloc _ _ _ _ _ H a n Ha) as (Hin & _ & Hdis). pose proof (hp_bounds _ _ _ _ _ H) as Hbd.
  pose proof (hp_in _ _ _ _ _ H) as HinL. pose proof (heap_sane _ _ _ H) as Hsane. rewrite Forall_forall in HinL, Hdis.
  assert (Hba : base < a) by (unfold in_heap, HDR in *; simpl in *; lia).
  destruct (place L a (base, 0) (heap_sorted _ _ _ H)) as (L1 & q & L2 & EW & HL1 & HL2); [|done| |].
  { eapply Forall_impl; [exact Hsane|]; unfold sane; lia. }
  { apply Forall_forall. intros c Hc. specialize (HinL c Hc). specialize (Hdis c Hc). unfold in_heap, disj, fin, HDR in *. simpl in *. lia. }
  exists L1, q, L2. assert (HW : ∀ c, c ∈ L1 ++ q :: L2 → c = (base, 0) ∨ c ∈ L) by (intros c; rewrite <- EW; set_solver).
  apply Forall_app in HL1 as HL1'. destruct HL1' as [_ Hq]. inversion Hq as [|? ? Hqa _]; subst x l.
  split_and!; [done..| | |].
  - destruct (HW q) as [->|HqL]; [set_solver|done|]. specialize (HinL q HqL). unfold in_heap, HDR in *. lia.
  - destruct (HW q) as [->|HqL]; [set_solver|unfold fin, HDR; simpl; lia|]. specialize (HinL q HqL). specialize (Hdis q HqL).
    unfold in_heap, disj, fin, HDR in *. simpl in *. lia.
  - rewrite Forall_forall in HL2 |- *. intros c Hc. specialize (HL2 c Hc). destruct (HW c) as [->|HcL]; [set_solver|simpl in *; lia|].
    specialize (Hdis c HcL). specialize (HinL c HcL). unfold in_heap, disj, fin, HDR in *. simpl in *. lia.
Qed.

(** free returns a block to the ring, joined with its neighbours, and leaves
    the other blocks of the program alone. *)
Lemma heap_free s L A a n f : heap base lo s L A → A !! a = Some n → (S (length L) ≤ f)%nat →
  ∃ m' p L', free f (u32 (a + HDR)) s = Ret (tt, MkMs m' p (brk s)) ∧ heap base lo (MkMs m' p (brk s)) L' (delete a A)
    ∧ (∀ b k x, delete a A !! b = Some k → b ≤ x < b + HDR * k → m' x = um s x)
    ∧ (length L' ≤ S (length L))%nat ∧ (∃ c, c ∈ L' ∧ n ≤ c.2).
Proof.
  intros H Ha Hf. destruct (hp_alloc _ _ _ _ _ H a n Ha) as (Hin & Hsz & Hdis).
  pose proof (hp_bounds _ _ _ _ _ H) as Hbd. pose proof (hp_in _ _ _ _ _ H) as HinL.
  assert (Hfp : freep s ≠ 0). { intros E. destruct (hp_start _ _ _ _ _ H E) as [_ ->]. by rewrite lookup_empty in Ha. }
  destruct (hp_ring _ _ _ _ _ H Hfp) as [Hr Hfpr].
  pose proof (heap_sorted _ _ _ H) as Hs. pose proof (heap_sane _ _ _ H) as Hsane.
  assert (Hnn : Forall (λ c, 0 ≤ c.2) (ring_of L)) by (eapply Forall_impl; [exact Hsane|]; unfold sane; lia).
  assert (Hba : base < a) by (unfold in_heap, HDR in *; simpl in *; lia).
  destruct (heap_place s L A a n H Ha) as (L1 & q & L2 & EW & HL1 & HL2 & Hq0 & Hqa & Ha2).
  assert (Hu : u32 (u32 (a + HDR) - HDR) = a).
  { unfold in_heap, fin, HDR, KERNBASE in *. simpl in *. rewrite !u32_small; rewrite ?u32_small; lia. }
  assert (Hrun : free f (u32 (a + HDR)) s = Ret (tt, MkMs (free_mem q.1 a (um s)) q.1 (brk s))).
  { rewrite <- Hu at 2. apply free_run. rewrite Hu. eapply (free_find_ring s (ring_of L)); try done.
    constructor; [simpl; lia|]. eapply Forall_impl; [exact HinL|]. unfold in_heap, HDR in *. simpl. lia. }
  destruct (heap_off_self s L A L1 q L2 H EW) as [Hq1 Hq2]. pose proof (heap_off s L A (a, n) H Hin Hdis) as Hoff.
  destruct (joined L L1 q L2 (a, n) EW Hba) as (L' & EL' & Hlen & HP & Hbig); [apply Hin|done|].
  assert (HqW : q ∈ ring_of L) by (rewrite EW; set_solver).
  assert (Hframe : ∀ b k x, delete a A !! b = Some k → b ≤ x < b + HDR * k → free_mem q.1 a (um s) x = um s x).
  { intros b k x [Hab Hb]%lookup_delete_Some Hx. destruct (hp_alloc _ _ _ _ _ H b k Hb) as (Hbin & _ & Hbd'). apply free_mem_other.
    - pose proof (hp_apart _ _ _ _ _ H a n b k Ha Hb Hab) as Hd. unfold disj, in_heap, fin, HDR in *. simpl in *. lia.
    - by apply (heap_apart s L A q (b, k) x). }
  exists (free_mem q.1 a (um s)), q.1, L'. split_and!; [exact Hrun| |done|done|done]. rewrite EW in Hr, Hoff, Hs, Hsane.
  assert (Hs' : StronglySorted before (ring_of L')).
  { rewrite EL'. apply joined_sorted; try done. unfold in_heap in Hin. simpl in *. lia. }
  split; cbn [brk um freep].
  - exact Hbd.
  - intros E. lia.
  - intros _. split.
    + rewrite EL'. apply (free_mem_ring (um s) L1 q L2 (a, n)); try done; [apply Hin| |rewrite <- EW; simpl; lia].
      constructor; [eapply in_heap_sane; [| |exact Hin]; unfold HDR in *; lia|]. by apply Forall_app in Hsane as [_ ?].
    + change (base :: L'.*1) with ((ring_of L').*1). rewrite EL', fmap_app. apply elem_of_app. right.
      pose proof (join_addr q (join (a, n) L2) 0) as Hj. destruct (join q _) as [|c J]; simpl in Hj; [lia|]. rewrite <- Hj. by left.
  - by inversion Hs'.
  - apply HP; [apply closed_in_heap|done|done].
  - intros b k Hb. pose proof Hb as [Hab Hb']%lookup_delete_Some. destruct (hp_alloc _ _ _ _ _ H b k Hb') as (Hbin & Hbs & Hbd').
    split_and!; [done| |].
    + rewrite <- Hbs. apply ld32_ext. intros x Hx. apply (Hframe b k x Hb). unfold in_heap, HDR in *. simpl in *. lia.
    + apply HP; [apply closed_disj, Hbin|by apply (hp_apart _ _ _ _ _ H b k a n)|done].
  - intros b k c l [_ Hb]%lookup_delete_Some [_ Hc]%lookup_delete_Some. by apply H.
Qed.
(** * malloc *)

Lemma heap_fp_ring s L A : heap base lo s L A → freep s ≠ 0 → ∃ F1 x F2, ring_of L = F1 ++ x :: F2 ∧ x.1 = freep s.
Proof.
  intros H Hfp. destruct (hp_ring _ _ _ _ _ H Hfp) as [_ Hin]. change (base :: L.*1) with ((ring_of L).*1) in Hin.
  apply list_elem_of_fmap in Hin as (x & Ex & Hx). apply list_elem_of_split in Hx as (F1 & F2 & E). by exists F1, x, F2.
Qed.

(** Taking a block whole: its predecessor is linked to its successor. *)
Lemma fseg_unlink m F1 p x F2 e : fseg m (F1 ++ p :: x :: F2) e → off p.1 F1 → off p.1 F2 → u32 (hd_addr F2 e) = hd_addr F2 e →
  ld32 m x.1 = hd_addr F2 e ∧ fseg (st32 p.1 (hd_addr F2 e) m) (F1 ++ p :: F2) e.
Proof.
  intros H H1 H2 Hu. apply fseg_app in H as [Hs1 (Hp & Hps & Hx & _ & Hs2)]. split; [done|]. apply fseg_app.
  pose proof (seg_put m F1 p.1 p.1 0 (hd_addr F2 e) H1 ltac:(lia) Hs1) as Hs1'. pose proof (seg_put m F2 e p.1 0 (hd_addr F2 e) H2 ltac:(lia) Hs2) as Hs2'.
  rewrite Z.add_0_r in Hs1', Hs2'. split; [done|]. cbn [fseg]. ldst. done.
Qed.

(** Cutting a block: its first part stays. *)
Lemma seg_cut m F1 x F2 e v : fseg m (F1 ++ x :: F2) e → off x.1 F1 → off x.1 F2 → u32 v = v →
  fseg (st32 (x.1 + 4) v m) (F1 ++ (x.1, v) :: F2) e.
Proof.
  intros H H1 H2 Hu. apply fseg_app in H as [Hs1 (Hx & _ & Hs2)]. apply fseg_app.
  split; [by apply seg_put|]. cbn [fseg fst snd]. ldst. split_and!; [done|done|]. by apply seg_put.
Qed.

(** The two ways in which malloc takes [nunits] from the block [x] behind
    [prev]: the memory and the address of the block. *)
Definition take_mem (nunits prev x n : Z) (m : mem) : mem :=
  if n =? nunits then st32 prev (ld32 m x) m
  else st32 (u32 (x + HDR * (n - nunits)) + 4) nunits (st32 (x + 4) (n - nunits) m).

Context (grow : Z → Z → bool).

Lemma malloc_loop_take f nunits prev x n s : ld32 (um s) (x + 4) = n → nunits ≤ n →
  malloc_loop grow f nunits prev x s
  = Ret (u32 ((if n =? nunits then x else u32 (x + HDR * (n - nunits))) + HDR), MkMs (take_mem nunits prev x n (um s)) prev (brk s)).
Proof.
  intros Hn Hle. unfold take_mem. destruct f; cbn [malloc_loop]; unfold bind at 1, h_size at 1, gets at 1; rewrite Hn;
    (destruct (Z.leb_spec nunits n); [|lia]); destruct (n =? nunits); reflexivity.
Qed.

(** The first [k] units of a block. *)
Definition keep (a k : Z) : list block := if k =? 0 then [] else [(a, k)].

(** The heap after [nunits] have been taken from the end of [x]. *)
Lemma heap_rebuild s L A G x F2 m' prev nunits : heap base lo s L A → L = G ++ x :: F2 → 0 < nunits ≤ x.2 →
  let k := x.2 - nunits in let r := x.1 + HDR * k in let L' := G ++ keep x.1 k ++ F2 in
  prev ≠ 0 → ring m' (ring_of L') → prev ∈ base :: L'.*1 → ld32 m' (r + 4) = nunits →
  (∀ b j y, A !! b = Some j → b ≤ y < b + HDR * j → m' y = um s y) →
  heap base lo (MkMs m' prev (brk s)) L' (<[r := nunits]> A) ∧ A !! r = None ∧ lo ≤ r ∧ r + HDR * nunits ≤ brk s
    ∧ (∀ b j, A !! b = Some j → disj (r, nunits) (b, j)).
Proof.
  intros H EL Hn k r L' Hp Hr Hprev Hsz Hframe. pose proof (hp_in _ _ _ _ _ H) as Hin. pose proof (hp_sorted _ _ _ _ _ H) as Hs.
  rewrite EL in Hin, Hs. destruct (sorted_app_inv _ _ _ Hs) as (HG & HF & SG & SF & HGF).
  apply Forall_app in Hin as [HinG Hin]. inversion Hin as [|? ? Hxin HinF]; subst x0 l.
  assert (Hk : ∀ P : block → Prop, (0 < k → P (x.1, k)) → Forall P (keep x.1 k)).
  { intros P HP. unfold keep. destruct (Z.eqb_spec k 0); [constructor|]. repeat constructor. apply HP. lia. }
  assert (Hdis : ∀ b j, A !! b = Some j → disj (r, nunits) (b, j) ∧ (0 < k → disj (b, j) (x.1, k))).
  { intros b j Hb. destruct (hp_alloc _ _ _ _ _ H b j Hb) as (Hbin & _ & Hd). rewrite EL in Hd. apply Forall_app in Hd as [_ Hd].
    inversion Hd as [|? ? Hdx _]; subst x0 l. unfold in_heap, disj, fin, HDR in *. simpl in *. lia. }
  assert (Hnew : A !! r = None).
  { destruct (A !! r) as [j|] eqn:E; [|done]. destruct (Hdis r j E) as [Hd _]. destruct (hp_alloc _ _ _ _ _ H r j E) as (Hbin & _).
    unfold disj, in_heap, fin, HDR in *. simpl in *. lia. }
  assert (Hr1 : lo ≤ r ∧ r + HDR * nunits ≤ brk s) by (unfold in_heap, fin, HDR in *; lia).
  split_and!; [|done|apply Hr1|apply Hr1|intros b j Hb; by apply Hdis].
  split; cbn [um brk freep].
  - apply H.
  - done.
  - done.
  - rewrite Forall_forall in HG, HF, HGF. unfold before, fin, HDR in *. apply StronglySorted_app_2; [|done|apply StronglySorted_app_2; [| |done]].
    + intros y z Hy [Hz|Hz]%elem_of_app.
      * specialize (HG y Hy). unfold keep in Hz. destruct (k =? 0); [set_solver|]. apply list_elem_of_singleton in Hz as ->. done.
      * specialize (HGF y Hy). rewrite Forall_forall in HGF. by apply HGF.
    + intros y z Hy Hz. specialize (HF z Hz). unfold keep in Hy. destruct (k =? 0); [set_solver|]. apply list_elem_of_singleton in Hy as ->.
      simpl. unfold k. lia.
    + unfold keep. destruct (k =? 0); repeat constructor.
  - apply Forall_app. split; [done|]. apply Forall_app. split; [|done]. apply Hk. unfold in_heap, fin, HDR in *. simpl. lia.
  - intros b j [[<- <-]|[Hb Hbj]]%lookup_insert_Some.
    + split_and!; [unfold in_heap, fin, HDR in *; simpl; lia|done|].
      assert (Hx : Forall (disj x) (G ++ F2)).
      { rewrite Forall_forall in HG, HF. apply Forall_forall. intros y [Hy|Hy]%elem_of_app; [specialize (HG y Hy)|specialize (HF y Hy)];
          unfold before, disj in *; simpl in *; lia. }
      assert (HxP : Forall (disj (r, nunits)) (G ++ F2)).
      { eapply Forall_impl; [exact Hx|]. unfold disj, fin, r, k, HDR. simpl. intros; lia. }
      apply Forall_app in HxP as [? ?]. apply Forall_app. split; [done|]. apply Forall_app. split; [|done]. apply Hk. unfold disj, fin, r, HDR. simpl. lia.
    + destruct (hp_alloc _ _ _ _ _ H b j Hbj) as (Hbin & Hbs & Hd). split_and!; [done| |].
      * rewrite <- Hbs. apply ld32_ext. intros y Hy. apply (Hframe b j); [done|]. unfold in_heap, HDR in *. simpl in *. lia.
      * rewrite EL in Hd. apply Forall_app in Hd as [? Hd]. apply Forall_cons in Hd as [_ ?]. apply Forall_app. split; [done|]. apply Forall_app. split; [|done].
        apply Hk. by apply Hdis.
  - intros b j c l. rewrite !lookup_insert_Some. intros [[<- <-]|[Hb Hbj]] [[<- <-]|[Hc Hcl]] Hne; [done|by apply Hdis| |by apply H].
    destruct (Hdis b j Hbj) as [[?|?] _]; [by right|by left].
Qed.

(** What malloc gives: a block of [nunits] of its own, with the blocks the
    program has left as they were. *)
Definition gives (nunits : Z) (s : ms) (A : gmap Z Z) (o : outcome (Z * ms)) : Prop :=
  ∃ r s' L', o = Ret (u32 (r + HDR), s') ∧ heap base lo s' L' (<[r := nunits]> A) ∧ A !! r = None
    ∧ lo ≤ r ∧ r + HDR * nunits ≤ brk s'
    ∧ (∀ b k, A !! b = Some k → disj (r, nunits) (b, k)) ∧ (∀ b k y, A !! b = Some k → b ≤ y < b + HDR * k → um s' y = um s y).

Lemma ring_split G x F2 : ∃ F1 p, ring_of (G ++ x :: F2) = F1 ++ p :: x :: F2 ∧ F1 ++ [p] = ring_of G.
Proof.
  destruct (exists_last (l := ring_of G)) as (F1 & p & E); [done|]. exists F1, p. split; [|done].
  change (ring_of (G ++ x :: F2)) with (ring_of G ++ x :: F2). by rewrite E, <- app_assoc.
Qed.

Lemma take_ring s L A nunits F1 p x F2 : heap base lo s L A → freep s ≠ 0 → ring_of L = F1 ++ p :: x :: F2 → 0 < nunits ≤ x.2 →
  in_heap lo (brk s) x →
  let k := x.2 - nunits in let m' := take_mem nunits p.1 x.1 x.2 (um s) in
  fseg m' (F1 ++ p :: keep x.1 k ++ F2) base ∧ ld32 m' (x.1 + HDR * k + 4) = nunits.
Proof.
  intros H Hfp EW Hn Hxin k m'. destruct (hp_ring _ _ _ _ _ H Hfp) as [Hr _]. pose proof (hp_bounds _ _ _ _ _ H) as Hbd.
  assert (EW' : ring_of L = (F1 ++ [p]) ++ x :: F2) by (by rewrite <- app_assoc).
  assert (Hpo : off p.1 F1 ∧ off p.1 (x :: F2)) by (by apply (heap_off_self s L A)). destruct Hpo as [Hp1 [Hpx Hp2]%Forall_cons].
  assert (Hxo : off x.1 (F1 ++ [p]) ∧ off x.1 F2) by (by apply (heap_off_self s L A)). destruct Hxo as [Hx1 Hx2].
  pose proof (heap_sane _ _ _ H) as Hsane. pose proof (heap_sorted _ _ _ H) as Hs. unfold ring in Hr. simpl hd_addr in Hr.
  assert (HsF : Forall sane F2) by (rewrite EW' in Hsane; by apply Forall_app in Hsane as [_ [_ ?]%Forall_cons]).
  rewrite EW in Hr. unfold m', take_mem, k, keep. destruct (Z.eqb_spec x.2 nunits) as [E|E].
  - rewrite E, Z.sub_diag. destruct (fseg_unlink _ _ _ _ _ _ Hr Hp1 Hp2) as [-> Hseg]; [apply hd_addr_range; [done|unfold HDR in *; lia]|].
    split; [done|]. rewrite Z.mul_0_r, Z.add_0_r. ldst. apply fseg_app in Hr as (_ & _ & _ & _ & -> & _). done.
  - rewrite (proj2 (Z.eqb_neq (x.2 - nunits) 0)) by lia.
    assert (Hu : u32 (x.1 + HDR * (x.2 - nunits)) = x.1 + HDR * (x.2 - nunits) ∧ u32 (x.2 - nunits) = x.2 - nunits ∧ u32 nunits = nunits).
    { unfold in_heap, fin, HDR, KERNBASE in *. rewrite !u32_small by lia. done. }
    destruct Hu as (-> & Hu2 & Hu3). split; [|by ldst]. change (F1 ++ p :: [(x.1, x.2 - nunits)] ++ F2) with (F1 ++ [p] ++ (x.1, x.2 - nunits) :: F2).
    rewrite app_assoc. apply seg_put; [|lia|apply seg_cut; [by rewrite <- app_assoc|done..]].
    rewrite EW' in Hs, Hsane. destruct (sorted_app_inv _ _ _ Hs) as (HG & HF & _).
    apply Forall_app in Hsane as [HsG _]. unfold off in *. rewrite !Forall_forall in *.
    intros y [Hy|[->|Hy]%elem_of_cons]%elem_of_app.
    + specialize (HG y Hy). specialize (Hx1 y Hy). specialize (HsG y Hy). unfold before, sane, fin, HDR in *. simpl in *. lia.
    + unfold HDR. simpl. lia.
    + specialize (HF y Hy). unfold before, fin, HDR in *. simpl in *. lia.
Qed.

(** Malloc takes a block that fits. *)
Lemma heap_take s L A nunits F1 p x F2 f : heap base lo s L A → freep s ≠ 0 → ring_of L = F1 ++ p :: x :: F2 → 0 < nunits ≤ x.2 →
  gives nunits s A (malloc_loop grow f nunits p.1 x.1 s).
Proof.
  intros H Hfp EW Hn. destruct (hp_ring _ _ _ _ _ H Hfp) as [Hr _]. pose proof (hp_bounds _ _ _ _ _ H) as Hbd.
  assert (∃ G, L = G ++ x :: F2 ∧ ring_of G = F1 ++ [p]) as (G & EL & EG).
  { destruct F1 as [|b F1]; simpl in EW; injection EW as <- EL; [by exists []|]. exists (F1 ++ [p]). rewrite <- app_assoc. by split. }
  assert (Hxin : in_heap lo (brk s) x) by (pose proof (hp_in _ _ _ _ _ H) as Hin; rewrite EL in Hin; by apply Forall_app in Hin as [_ [? _]%Forall_cons]).
  assert (Hpo : off p.1 F1 ∧ off p.1 (x :: F2)) by (by apply (heap_off_self s L A)). destruct Hpo as [Hp1 [Hpx Hp2]%Forall_cons].
  assert (Hxo : off x.1 (F1 ++ [p]) ∧ off x.1 F2). { apply (heap_off_self s L A); [done|]. rewrite EW, <- app_assoc. done. }
  assert (Hpn : p.1 ≠ 0).
  { assert (p ∈ ring_of G) as [->|HpG]%elem_of_cons by (rewrite EG; set_solver); [simpl; lia|].
    pose proof (hp_in _ _ _ _ _ H) as Hin. rewrite EL, Forall_forall in Hin. specialize (Hin p ltac:(set_solver)). unfold in_heap, HDR in *. lia. }
  assert (HpG : p.1 ∈ (ring_of G).*1) by (rewrite EG, fmap_app; set_solver).
  assert (Hxs : ld32 (um s) (x.1 + 4) = x.2).
  { destruct (seg_in _ _ _ x Hr) as (? & ? & _ & _ & ?); [rewrite EW; set_solver|done]. }
  rewrite (malloc_loop_take f nunits p.1 x.1 x.2 s Hxs) by lia.
  set (k := x.2 - nunits). set (r := x.1 + HDR * k).
  assert (Hru : (if x.2 =? nunits then x.1 else u32 r) = r).
  { unfold r, k. destruct (Z.eqb_spec x.2 nunits) as [->|]; [unfold HDR; lia|]. apply u32_small. unfold in_heap, fin, HDR, KERNBASE in *. lia. }
  rewrite Hru. exists r, (MkMs (take_mem nunits p.1 x.1 x.2 (um s)) p.1 (brk s)), (G ++ keep x.1 k ++ F2). split; [done|].
  destruct (take_ring s L A nunits F1 p x F2 H Hfp EW Hn Hxin) as [Hseg Hsz].
  assert (Hframe : ∀ b j y, A !! b = Some j → b ≤ y < b + HDR * j → take_mem nunits p.1 x.1 x.2 (um s) y = um s y).
  { intros b j y Hb Hy. destruct (hp_alloc _ _ _ _ _ H b j Hb) as (Hbin & _ & Hd).
    pose proof (heap_apart s L A p (b, j) y H ltac:(rewrite EW; set_solver) Hbin Hd Hy) as Hpy.
    rewrite EL in Hd. apply Forall_app in Hd as [_ [Hd _]%Forall_cons]. unfold take_mem.
    destruct (Z.eqb_spec x.2 nunits) as [E|E]; [apply st32_other; unfold HDR in *; lia|]. rewrite u32_small by (unfold in_heap, fin, HDR, KERNBASE in *; lia).
    rewrite !st32_other; [done|..]; unfold in_heap, disj, fin, HDR, r, k in *; simpl in *; lia. }
  edestruct (heap_rebuild s L A G x F2 (take_mem nunits p.1 x.1 x.2 (um s)) p.1 nunits H EL Hn Hpn) as (H1 & H2 & H3 & H4 & H5).
  - unfold ring. cbn [hd_addr fst]. change (ring_of (G ++ ?l)) with (ring_of G ++ l). rewrite EG, <- app_assoc. exact Hseg.
  - change (base :: ?l.*1) with ((ring_of l).*1). change (ring_of (G ++ ?l)) with (ring_of G ++ l). rewrite fmap_app. set_solver.
  - exact Hsz.
  - exact Hframe.
  - split_and!; [exact H1|exact H2|exact H3|exact H4|exact H5|exact Hframe].
Qed.

(** The loop passes over blocks that are too small. *)
Lemma malloc_skip s nunits P : ∀ f prev e, ld32 (um s) prev = hd_addr P e → fseg (um s) P e →
  Forall (λ b, b.2 < nunits ∧ b.1 ≠ freep s) P → (length P ≤ f)%nat →
  ∃ prev', malloc_loop grow f nunits prev (hd_addr P e) s = malloc_loop grow (f - length P) nunits prev' e s
    ∧ prev' ∈ prev :: P.*1 ∧ ld32 (um s) prev' = e.
Proof.
  induction P as [|b P IH]; intros f prev e Hp Hs Hall Hf; cbn [length hd_addr] in *.
  { exists prev. rewrite Nat.sub_0_r. set_solver. }
  destruct Hs as (H1 & H2 & Hs). apply Forall_cons in Hall as [[Hb Hbf] Hall]. destruct f as [|f]; [lia|].
  destruct (IH f b.1 e H1 Hs Hall) as (prev' & E & Hin & Hl); [lia|]. exists prev'. split; [|set_solver].
  replace (S f - S (length P))%nat with (f - length P)%nat by lia. rewrite <- E.
  cbn [malloc_loop]. unfold bind, h_size, h_ptr, gets, get. rewrite H2.
  destruct (Z.leb_spec nunits b.2); [lia|]. destruct (Z.eqb_spec b.1 (freep s)); [done|]. by rewrite H1.
Qed.

(** The ring from the block behind [freep] on, and back to it. *)
Lemma heap_rotated s L A : heap base lo s L A → freep s ≠ 0 →
  ∃ x R, x.1 = freep s ∧ fseg (um s) (x :: R) (freep s) ∧ length R = length L ∧ (∀ z, z ∈ x :: R ↔ z ∈ ring_of L) ∧ Forall (λ b, b.1 ≠ freep s) R.
Proof.
  intros H Hfp. destruct (hp_ring _ _ _ _ _ H Hfp) as [Hr _]. destruct (heap_fp_ring s L A H Hfp) as (F1 & x & F2 & E & Ex).
  exists x, (F2 ++ F1). assert (Hr' : ring (um s) (x :: F2 ++ F1)) by (apply ring_rotate; by rewrite <- E).
  split_and!; [done|unfold ring in Hr'; simpl hd_addr in Hr'; by rewrite <- Ex| | |].
  - apply (f_equal length) in E. rewrite length_app in *. simpl in *. lia.
  - intros z. rewrite E. set_solver.
  - destruct (heap_off_self s L A F1 x F2 H E) as [H1 H2]. rewrite <- Ex. apply Forall_app. unfold off, HDR in *.
    split; (eapply Forall_impl; [eassumption|]); intros b Hb; simpl in Hb; lia.
Qed.

(** When some block fits, the loop finds one. *)
Lemma malloc_fits s L A nunits f : heap base lo s L A → freep s ≠ 0 → 0 < nunits → (∃ c, c ∈ L ∧ nunits ≤ c.2) → (length L ≤ f)%nat →
  gives nunits s A (malloc_loop grow f nunits (freep s) (ld32 (um s) (freep s)) s).
Proof.
  intros H Hfp Hn (c & Hc & Hcn) Hf. destruct (heap_rotated s L A H Hfp) as (x & R & Ex & Hseg & Hlen & HR & HRf).
  destruct (hp_ring _ _ _ _ _ H Hfp) as [Hr _].
  assert (Hseg' : fseg (um s) (R ++ [x]) (ld32 (um s) x.1)).
  { destruct Hseg as (Hx1 & Hx2 & HsR). apply fseg_app. simpl. rewrite Ex. split; [done|]. rewrite <- Ex. done. }
  assert (Hnx : ld32 (um s) (freep s) = hd_addr (R ++ [x]) (ld32 (um s) x.1)).
  { destruct Hseg as (Hx1 & _). rewrite Ex in Hx1. rewrite Hx1. destruct R; simpl; congruence. }
  assert (∃ P1 y P2, R ++ [x] = P1 ++ y :: P2 ∧ nunits ≤ y.2 ∧ Forall (λ b, b.2 < nunits) P1) as (P1 & y & P2 & EP & Hy & HP1).
  { assert (Hex : Exists (λ b, nunits ≤ b.2) (R ++ [x])) by (apply Exists_exists; exists c; split; [|done]; specialize (HR c); set_solver).
    clear -Hex. induction (R ++ [x]) as [|b l IH]; [by inversion Hex|]. destruct (decide (nunits ≤ b.2)).
    - by exists [], b, l.
    - inversion Hex; subst; [done|]. destruct IH as (P1 & y & P2 & -> & ? & ?); [done|]. exists (b :: P1), y, P2. split_and!; [done..|]. constructor; [lia|done]. }
  rewrite EP in Hseg', Hnx. apply fseg_app in Hseg' as [HsP (Hy1 & Hy2 & _)]. simpl hd_addr in HsP.
  assert (HP1R : Forall (λ b, b.1 ≠ freep s) P1 ∧ (length P1 ≤ length R)%nat).
  { assert (P1 `prefix_of` R) as [k ->].
    { pose proof EP as Hl. apply (f_equal length) in Hl. rewrite !length_app in Hl. simpl in Hl. exists (drop (length P1) R).
      assert (E1 : P1 = take (length P1) R) by (rewrite <- (take_app_length P1 (y :: P2)) at 1; by rewrite <- EP, take_app_le by lia).
      transitivity (take (length P1) R ++ drop (length P1) R); [by rewrite take_drop|by rewrite <- E1]. }
    apply Forall_app in HRf as [? _]. split; [done|]. rewrite length_app. lia. }
  destruct HP1R as [HP1f HP1l].
  destruct (malloc_skip s nunits P1 f (freep s) y.1) as (prev & E & Hprev & Hpl); [by rewrite Hnx; destruct P1|done| |lia|].
  { apply Forall_and. by split. }
  assert (EE : ld32 (um s) (freep s) = hd_addr P1 y.1) by (rewrite Hnx; by destruct P1).
  rewrite EE, E.
  assert (HpW : prev ∈ (ring_of L).*1).
  { apply elem_of_cons in Hprev as [->|Hprev]; [rewrite <- Ex; apply list_elem_of_fmap_2, HR; by left|].
    apply list_elem_of_fmap in Hprev as (b & -> & Hb). apply list_elem_of_fmap_2, HR.
    assert (b ∈ R ++ [x]) by (rewrite EP; set_solver). set_solver. }
  assert (HyL : y ∈ L).
  { assert (y ∈ R ++ [x]) as HyR by (rewrite EP; set_solver). assert (y ∈ ring_of L) as [->|?]%elem_of_cons by (apply HR; set_solver); [simpl in Hy; lia|done]. }
  apply list_elem_of_fmap in HpW as (p & -> & Hp). destruct (seg_in _ _ _ _ Hr Hp) as (F1 & B & EW & Hp1 & _).
  rewrite Hpl in Hp1. simpl in Hp1. destruct B as [|z F2]; simpl in Hp1.
  { exfalso. pose proof (hp_in _ _ _ _ _ H) as Hin. rewrite Forall_forall in Hin. specialize (Hin y HyL).
    pose proof (hp_bounds _ _ _ _ _ H). unfold in_heap, HDR in *. lia. }
  assert (Hz : ld32 (um s) (z.1 + 4) = z.2) by (destruct (seg_in _ _ _ z Hr) as (? & ? & _ & _ & ?); [rewrite EW; set_solver|done]).
  rewrite Hp1. apply (heap_take s L A nunits F1 p z F2); [done..|]. rewrite <- Hz, <- Hp1, Hy2. lia.
Qed.

(** When none fits, the loop comes back to [freep]. *)
Lemma malloc_full s L A nunits f : heap base lo s L A → freep s ≠ 0 → 0 < nunits → Forall (λ c, c.2 < nunits) L → (length L ≤ f)%nat →
  ∃ prev, malloc_loop grow f nunits (freep s) (ld32 (um s) (freep s)) s = malloc_loop grow (f - length L) nunits prev (freep s) s
    ∧ ld32 (um s) (freep s + 4) < nunits.
Proof.
  intros H Hfp Hn Hall Hf. destruct (heap_rotated s L A H Hfp) as (x & R & Ex & (Hx1 & Hx2 & HsR) & Hlen & HR & HRf).
  assert (Hsmall : ∀ z, z ∈ x :: R → z.2 < nunits).
  { intros z Hz%HR. apply elem_of_cons in Hz as [->|Hz]; [simpl; lia|]. rewrite Forall_forall in Hall. auto. }
  destruct (malloc_skip s nunits R f (freep s) (freep s)) as (prev & E & _ & _); [by rewrite <- Hx1, Ex|done| |lia|].
  { apply Forall_and. split; [|done]. apply Forall_forall. intros z Hz. apply Hsmall. by right. }
  exists prev. rewrite Ex in Hx1, Hx2. rewrite Hx1, E, Hlen, Hx2. split; [done|]. apply Hsmall. by left.
Qed.

(** The heap with new memory at its end, as a block of the program. *)
Lemma heap_grow s L A n : heap base lo s L A → freep s ≠ 0 → 0 < n → brk s + HDR * n ≤ KERNBASE →
  heap base lo (MkMs (st32 (brk s + 4) n (um s)) (freep s) (brk s + HDR * n)) L (<[brk s := n]> A).
Proof.
  intros H Hfp Hn Hk. pose proof (hp_bounds _ _ _ _ _ H) as Hbd. pose proof (hp_in _ _ _ _ _ H) as Hin. destruct (hp_ring _ _ _ _ _ H Hfp) as [Hr Hfpr].
  assert (Hold : ∀ b, in_heap lo (brk s) b → in_heap lo (brk s + HDR * n) b ∧ disj (brk s, n) b) by (intros b; unfold in_heap, disj, HDR; simpl; lia).
  assert (HinL : Forall (λ b, in_heap lo (brk s + HDR * n) b ∧ disj (brk s, n) b) L) by (eapply Forall_impl; [exact Hin|done]).
  apply Forall_and in HinL as [HinL HdL]. split; cbn [um freep brk].
  - unfold HDR in *. lia.
  - done.
  - intros _. split; [|done]. unfold ring in *. eapply seg_put; [|lia|exact Hr]. constructor; [unfold HDR in *; simpl; lia|].
    eapply Forall_impl; [exact Hin|]. unfold in_heap, fin, HDR. intros b. lia.
  - apply H.
  - done.
  - intros b k [[<- <-]|[Hb Hbk]]%lookup_insert_Some.
    + split_and!; [unfold in_heap, fin, HDR in *; simpl; lia| |done]. ldst. apply u32_small. unfold HDR, KERNBASE in *. lia.
    + destruct (hp_alloc _ _ _ _ _ H b k Hbk) as (Hbin & Hbs & Hd). split_and!; [by apply Hold| |done].
      unfold in_heap, fin in Hbin. simpl in Hbin. ldst. done.
  - intros b k c l. rewrite !lookup_insert_Some. intros [[<- <-]|[Hb Hbk]] [[<- <-]|[Hc Hcl]] Hne; [done| | |by apply H].
    + by apply Hold, (hp_alloc _ _ _ _ _ H c l).
    + destruct (Hold (b, k)) as [_ [?|?]]; [by apply (hp_alloc _ _ _ _ _ H)|by right|by left].
Qed.

Context (Hgrow : ∀ b n, grow b n = true → b + n ≤ KERNBASE).

Lemma heap_morecore s L A nu f : heap base lo s L A → freep s ≠ 0 → 0 < nu < 268435456 → (S (length L) ≤ f)%nat →
  (∃ n, nu ≤ n ∧ grow (brk s) (HDR * n) = false ∧ morecore grow f nu s = Ret (0, s))
  ∨ ∃ s' L', morecore grow f nu s = Ret (freep s', s') ∧ heap base lo s' L' A ∧ freep s' ≠ 0 ∧ (∃ c, c ∈ L' ∧ nu ≤ c.2)
      ∧ (length L' ≤ S (length L))%nat ∧ (∀ b k y, A !! b = Some k → b ≤ y < b + HDR * k → um s' y = um s y).
Proof.
  intros H Hfp Hnu Hf. pose proof (hp_bounds _ _ _ _ _ H) as Hbd. unfold morecore.
  set (n := if nu <? 4096 then 4096 else nu). assert (Hn : nu ≤ n < 268435456 ∧ 0 < n) by (unfold n; destruct (Z.ltb_spec nu 4096); lia).
  assert (s32 (u32 (n * HDR)) = HDR * n) as -> by (unfold HDR; rewrite u32_small, s32_small by lia; lia).
  unfold sbrk. destruct (grow (brk s) (HDR * n)) eqn:Eg.
  2:{ left. exists n. split_and!; [lia|done|]. unfold bind, get. by rewrite Eg. }
  right. apply Hgrow in Eg as Hb. set (s1 := MkMs (st32 (brk s + 4) n (um s)) (freep s) (brk s + HDR * n)).
  pose proof (heap_grow s L A n H Hfp ltac:(lia) Hb) as H1. fold s1 in H1.
  assert (HA : A !! brk s = None).
  { destruct (A !! brk s) as [k|] eqn:E; [|done]. destruct (hp_alloc _ _ _ _ _ H _ _ E) as (Hin & _). unfold in_heap, fin, HDR in Hin. simpl in Hin. lia. }
  destruct (heap_free s1 L (<[brk s := n]> A) (brk s) n f H1) as (m' & p & L' & E & H' & Hfr & Hlen & c & Hc & Hcn); [by rewrite lookup_insert_eq|done|].
  rewrite delete_insert_id in H', Hfr by done. exists (MkMs m' p (brk s1)), L'. split_and!; [| |  |exists c; split; [done|lia]|done|].
  - unfold bind at 1. unfold bind at 1, get at 1. rewrite Eg. unfold bind at 1, put, ret at 1.
    destruct (Z.eqb_spec (brk s) (-1)); [unfold HDR in *; lia|]. unfold bind at 1, put_size, modify.
    change (set_um _ _) with s1. unfold bind. rewrite E. done.
  - done.
  - intros E0. destruct (hp_start _ _ _ _ _ H' E0) as [-> _]. set_solver.
  - intros b k y Hbk Hy. cbn [um]. rewrite (Hfr b k y Hbk Hy). unfold s1. cbn [um]. apply st32_other.
    destruct (hp_alloc _ _ _ _ _ H b k Hbk) as (Hin & _). unfold in_heap, fin, HDR in *. simpl in *. lia.
Qed.

(** Malloc refuses: the kernel had no memory for a block large enough. *)
Definition refuses (nunits : Z) (s : ms) (A : gmap Z Z) (o : outcome (Z * ms)) : Prop :=
  ∃ s' L' n, o = Ret (0, s') ∧ nunits ≤ n ∧ grow (brk s) (HDR * n) = false ∧ brk s' = brk s ∧ heap base lo s' L' A
    ∧ (∀ b k y, A !! b = Some k → b ≤ y < b + HDR * k → um s' y = um s y).

Lemma malloc_loop_more s nunits prev f : ld32 (um s) (freep s + 4) < nunits →
  malloc_loop grow (S f) nunits prev (freep s) s
  = (p <- morecore grow (S f) nunits ;; if p =? 0 then ret 0 else next <- h_ptr p ;; malloc_loop grow f nunits p next) s.
Proof.
  intros Hsz. cbn [malloc_loop]. unfold bind at 1, h_size at 1, gets at 1. destruct (Z.leb_spec nunits (ld32 (um s) (freep s + 4))); [lia|].
  unfold bind at 1, get at 1. by rewrite Z.eqb_refl.
Qed.

Lemma malloc_loop_run s L A nunits f : heap base lo s L A → freep s ≠ 0 → 0 < nunits < 268435456 → (2 * length L + 3 ≤ f)%nat →
  let o := malloc_loop grow f nunits (freep s) (ld32 (um s) (freep s)) s in refuses nunits s A o ∨ gives nunits s A o.
Proof.
  intros H Hfp Hn Hf o. destruct (decide (Exists (λ c, nunits ≤ c.2) L)) as [Hex|Hno].
  { right. apply Exists_exists in Hex. apply (malloc_fits s L A); done || lia. }
  assert (Hall : Forall (λ c, c.2 < nunits) L).
  { apply Forall_forall. intros c Hc. destruct (decide (nunits ≤ c.2)); [|lia]. exfalso. apply Hno, Exists_exists. eauto. }
  destruct (malloc_full s L A nunits f H Hfp) as (prev & E & Hsz); [lia|done|lia|].
  unfold o. rewrite E. destruct (f - length L)%nat as [|f'] eqn:Ef; [lia|]. clear o E. rewrite malloc_loop_more by done.
  destruct (heap_morecore s L A nunits (S f') H Hfp Hn) as [(n & Hnn & Hg & Em)|(s' & L' & Em & H' & Hfp' & Hbig & Hlen & Hfr)]; [lia|..];
    rewrite (bind_ret_eval _ _ _ _ _ Em).
  - left. exists s, L, n. done.
  - right. destruct (Z.eqb_spec (freep s') 0); [done|]. unfold bind at 1, h_ptr, gets.
    destruct (malloc_fits s' L' A nunits f' H' Hfp') as (r & s2 & L2 & E2 & H2 & Hr & Hlo & Hhi & Hd & Hfr2); [lia|done|lia|].
    exists r, s2, L2. split_and!; try done. intros b k y Hb Hy. by rewrite (Hfr2 b k y Hb Hy), (Hfr b k y Hb Hy).
Qed.

(** The first call sets up the ring of [base] alone. *)
Lemma heap_init s : 0 < base → base + HDR ≤ lo → lo ≤ brk s ≤ KERNBASE →
  heap base lo (MkMs (st32 (base + 4) 0 (st32 base base (um s))) base (brk s)) [] ∅.
Proof.
  intros H1 H2 H3. split; cbn [um freep brk]; try done.
  - intros _. split; [|set_solver]. cbn [ring fseg hd_addr fst snd]. ldst. split_and!; try done. apply u32_small. unfold HDR, KERNBASE in *. lia.
  - constructor.
Qed.

Lemma malloc_run s L A nbytes f : heap base lo s L A → 0 ≤ nbytes ≤ 1073741824 → (2 * length L + 3 ≤ f)%nat →
  let o := malloc base grow f nbytes s in
  refuses (units nbytes) s A o ∨ gives (units nbytes) s A o.
Proof.
  intros H Hb Hf o. assert (Hn : 0 < units nbytes < 268435456).
  { unfold units, HDR. rewrite u32_small by lia. pose proof (Z.div_pos (nbytes + 8 - 1) 8). pose proof (Z.div_lt_upper_bound (nbytes + 8 - 1) 8 200000000). lia. }
  pose proof (hp_bounds _ _ _ _ _ H) as Hbd.
  destruct (decide (freep s = 0)) as [E0|E0].
  - destruct (hp_start _ _ _ _ _ H E0) as [-> ->].
    set (s1 := MkMs (st32 (base + 4) 0 (st32 base base (um s))) base (brk s)).
    assert (H1 : heap base lo s1 [] ∅) by (apply heap_init; apply Hbd).
    assert (Eo : o = malloc_loop grow f (units nbytes) (freep s1) (ld32 (um s1) (freep s1)) s1).
    { unfold o, malloc, bind, get, put_ptr, put_size, modify, h_ptr, gets. by rewrite E0. }
    rewrite Eo. destruct (malloc_loop_run s1 [] ∅ (units nbytes) f H1) as [(s' & L' & n & E & Hn1 & Hg & Hbr & H' & _)|(r & s' & L' & E & H' & Hr & Hlo & Hhi & _)];
      [simpl; lia|done|done|..]; [left|right].
    + exists s', L', n. split_and!; try done.
    + exists r, s', L'. split_and!; try done.
  - assert (Eo : o = malloc_loop grow f (units nbytes) (freep s) (ld32 (um s) (freep s)) s).
    { unfold o, malloc, bind, get, put_ptr, put_size, modify, h_ptr, gets. by rewrite (proj2 (Z.eqb_neq _ _) E0). }
    rewrite Eo. by apply (malloc_loop_run s L A).
Qed.
End heap_lemmas.

(** * Programs that use malloc and free *)

(** More fuel does not change a result. *)
Definition mono {S A} (c : nat → M S A) : Prop := ∀ f s r, c f s = Ret r → c (Datatypes.S f) s = Ret r.

Lemma mono_bind {S A B} (c : nat → M S A) (k : nat → A → M S B) :
  mono c → (∀ a, mono (λ f, k f a)) → mono (λ f, bind (c f) (k f)).
Proof. intros Hc Hk f s r H. apply bind_inv in H as (a & s1 & E & H). rewrite (bind_ret_eval _ _ _ _ _ (Hc _ _ _ E)). by apply Hk. Qed.

Lemma mono_const {S A} (c : M S A) : mono (λ _, c).
Proof. by intros f s r. Qed.

Lemma mono_if {S A} (b : bool) (c d : nat → M S A) : mono c → mono d → mono (λ f, if b then c f else d f).
Proof. by destruct b. Qed.

Create HintDb mono.
#[export] Hint Resolve mono_bind mono_const mono_if : mono.

Lemma mono_free_find bp p : mono (λ f, free_find f bp p).
Proof.
  intros f. revert p. induction f as [|f IH]; intros p s r; cbn [free_find]; unfold bind, h_ptr, gets;
    destruct (_ && _); [done| |done|]; destruct (_ && _); [done|done|done|apply IH].
Qed.

Lemma mono_free ap : mono (λ f, free f ap).
Proof. apply mono_bind; [apply mono_const|]. intros s. apply mono_bind; [apply mono_free_find|]. intros p. apply mono_const. Qed.

Lemma mono_morecore grow nu : mono (λ f, morecore grow f nu).
Proof.
  apply mono_bind; [apply mono_const|]. intros p. apply mono_if; [apply mono_const|]. apply mono_bind; [apply mono_const|]. intros _.
  apply mono_bind; [apply mono_free|]. intros _. apply mono_const.
Qed.

Lemma mono_malloc_loop grow nunits prevp p : mono (λ f, malloc_loop grow f nunits prevp p).
Proof.
  intros f. revert prevp p. induction f as [|f IH]; intros prevp p s r H; cbn [malloc_loop] in H |- *;
    apply bind_inv in H as (n & s1 & E & H); rewrite (bind_ret_eval _ _ _ _ _ E); (destruct (nunits <=? n); [exact H|]); [discriminate H|].
  apply bind_inv in H as (s2 & s3 & E2 & H). rewrite (bind_ret_eval _ _ _ _ _ E2). destruct (p =? freep s2).
  - apply bind_inv in H as (q & s4 & E4 & H). rewrite (bind_ret_eval _ _ _ _ _ (mono_morecore _ _ _ _ _ E4)). destruct (q =? 0); [exact H|].
    apply bind_inv in H as (x & s5 & E5 & H). rewrite (bind_ret_eval _ _ _ _ _ E5). by apply IH.
  - apply bind_inv in H as (x & s5 & E5 & H). rewrite (bind_ret_eval _ _ _ _ _ E5). by apply IH.
Qed.

Lemma mono_malloc base grow nbytes : mono (λ f, malloc base grow f nbytes).
Proof.
  apply mono_bind; [apply mono_const|]. intros s. apply mono_bind; [apply mono_const|]. intros _. apply mono_bind; [apply mono_const|]. intros s'.
  apply mono_bind; [apply mono_const|]. intros next. apply mono_malloc_loop.
Qed.

Lemma mono_le {S A} (c : nat → M S A) f g s r : mono c → (f ≤ g)%nat → c f s = Ret r → c g s = Ret r.
Proof. intros Hc. induction 1; auto. Qed.

(** The states of a program that starts with the heap untouched, calls malloc
    and free in any order, free with blocks that it owns, and writes to no
    other part of the heap than the bytes of these blocks.  [A] has the
    blocks it owns, by address of the header. *)
Inductive mreach (base lo : Z) (grow : Z → Z → bool) : ms → gmap Z Z → Prop :=
| mr_start s : freep s = 0 → 0 < base → base + HDR ≤ lo → lo ≤ brk s ≤ KERNBASE → mreach base lo grow s ∅
| mr_malloc f n s A p s' : mreach base lo grow s A → 0 ≤ n ≤ 1073741824 → malloc base grow f n s = Ret (p, s') →
    mreach base lo grow s' (if p =? 0 then A else <[p - HDR := units n]> A)
| mr_free f a n s A s' : mreach base lo grow s A → A !! a = Some n → free f (a + HDR) s = Ret (tt, s') →
    mreach base lo grow s' (delete a A)
| mr_write m' s A : mreach base lo grow s A →
    (∀ x, base ≤ x < base + HDR ∨ lo ≤ x < brk s → (∀ a n, A !! a = Some n → ¬ (a + HDR ≤ x < a + HDR * n)) → m' x = um s x) →
    mreach base lo grow (set_um m' s) A.

Section programs.
Context (base lo : Z) (grow : Z → Z → bool) (Hgrow : ∀ b n, grow b n = true → b + n ≤ KERNBASE).

Lemma heap_write m' s L A : heap base lo s L A →
  (∀ x, base ≤ x < base + HDR ∨ lo ≤ x < brk s → (∀ a n, A !! a = Some n → ¬ (a + HDR ≤ x < a + HDR * n)) → m' x = um s x) →
  heap base lo (set_um m' s) L A.
Proof.
  intros H Hm. pose proof (hp_bounds _ _ _ _ _ H) as Hbd. pose proof (hp_in _ _ _ _ _ H) as Hin.
  assert (Hhdr : ∀ b, b ∈ (base, 0) :: L → ∀ x, b.1 ≤ x < b.1 + HDR → m' x = um s x).
  { intros b Hb x Hx. apply Hm.
    - apply elem_of_cons in Hb as [->|Hb]; [by left|right]. rewrite Forall_forall in Hin. specialize (Hin b Hb). unfold in_heap, fin, HDR in *. lia.
    - intros a n Ha Hax. destruct (hp_alloc _ _ _ _ _ H a n Ha) as (Hain & _ & Hd).
      apply (heap_apart base lo s L A b (a, n) x H Hb Hain Hd); [|done]. unfold fin, HDR in *. simpl. lia. }
  split; cbn [set_um um freep brk]; try apply H.
  - intros Hfp. destruct (hp_ring _ _ _ _ _ H Hfp) as [Hr ?]. split; [|done]. unfold ring in *. eapply fseg_ext; [|exact Hr].
    apply Forall_forall. intros b Hb. split; apply ld32_ext; intros x Hx; apply (Hhdr b Hb); unfold HDR; lia.
  - intros a n Ha. destruct (hp_alloc _ _ _ _ _ H a n Ha) as (Hain & Hsz & Hd). split_and!; [done| |done].
    rewrite <- Hsz. apply ld32_ext. intros x Hx. apply Hm; [right; unfold in_heap, fin, HDR in *; simpl in *; lia|].
    intros b k Hb Hbx. destruct (decide (a = b)) as [->|Hab]; [unfold HDR in *; lia|].
    pose proof (hp_apart _ _ _ _ _ H a n b k Ha Hb Hab) as Hdd. unfold in_heap, disj, fin, HDR in *. simpl in *. lia.
Qed.

Lemma heap_u32 s L A a n : heap base lo s L A → A !! a = Some n → u32 (a + HDR) = a + HDR.
Proof.
  intros H Ha. destruct (hp_alloc _ _ _ _ _ H a n Ha) as (Hin & _). pose proof (hp_bounds _ _ _ _ _ H).
  apply u32_small. unfold in_heap, fin, HDR, KERNBASE in *. simpl in *. lia.
Qed.

Lemma mreach_heap s A : mreach base lo grow s A → ∃ L, heap base lo s L A.
Proof.
  induction 1 as [s H0 H1 H2 H3|f n s A p s' _ [L H] Hn E|f a n s A s' _ [L H] Ha E|m' s A _ [L H] Hm].
  - exists []. split; try done; try constructor.
  - apply (mono_le _ _ (f + (2 * length L + 3)) _ _ (mono_malloc base grow n)) in E; [|lia].
    destruct (malloc_run base lo grow Hgrow s L A n (f + (2 * length L + 3)) H Hn) as [(s1 & L1 & k & E1 & _ & _ & _ & H1 & _)|(r & s1 & L1 & E1 & H1 & _ & Hlo & Hhi & _)];
      [lia|..]; rewrite E1 in E; simplify_eq.
    + by exists L1.
    + assert (Hr : u32 (r + HDR) = r + HDR) by (eapply (heap_u32 s' L1); [exact H1|by rewrite lookup_insert_eq]).
      rewrite Hr. pose proof (hp_bounds _ _ _ _ _ H). destruct (Z.eqb_spec (r + HDR) 0); [unfold HDR in *; lia|]. exists L1. by replace (r + HDR - HDR) with r by lia.
  - apply (mono_le _ _ (f + S (length L)) _ _ (mono_free (a + HDR))) in E; [|lia].
    rewrite <- (heap_u32 s L A a n H Ha) in E.
    destruct (heap_free base lo s L A a n (f + S (length L)) H Ha) as (m1 & p & L1 & E1 & H1 & _); [lia|]. rewrite E1 in E. simplify_eq. by exists L1.
  - exists L. by apply heap_write.
Qed.
End programs.

(** C32. However a program uses malloc and free: both return.  malloc gives 0, and
    then the kernel has refused to enlarge the memory, or the address of
    enough bytes inside the heap that overlap with no block the program
    owns.  No call changes a byte of a block that the program keeps. *)
Theorem malloc_free_safe base lo grow s A : (∀ b n, grow b n = true → b + n ≤ KERNBASE) → mreach base lo grow s A →
  (∀ nbytes, 0 ≤ nbytes ≤ 1073741824 → ∃ f p s', malloc base grow f nbytes s = Ret (p, s')
     ∧ (∀ b k x, A !! b = Some k → b ≤ x < b + HDR * k → um s' x = um s x)
     ∧ (p = 0 ∧ (∃ n, nbytes ≤ n ∧ grow (brk s) n = false)
        ∨ lo + HDR ≤ p ∧ p + nbytes ≤ brk s' ∧ ∀ b k, A !! b = Some k → b + HDR * k ≤ p - HDR ∨ p + nbytes ≤ b))
  ∧ (∀ a n, A !! a = Some n → ∃ f s', free f (a + HDR) s = Ret (tt, s')
     ∧ ∀ b k x, A !! b = Some k → b ≠ a → b ≤ x < b + HDR * k → um s' x = um s x).
Proof.
  intros Hgrow [L H]%(mreach_heap base lo grow Hgrow). split.
  - intros nbytes Hb. exists (2 * length L + 3)%nat.
    assert (Hu : nbytes ≤ HDR * (units nbytes - 1)).
    { unfold units, HDR. rewrite u32_small by lia. pose proof (Z.div_mod (nbytes + 8 - 1) 8). pose proof (Z.mod_pos_bound (nbytes + 8 - 1) 8). lia. }
    destruct (malloc_run base lo grow Hgrow s L A nbytes (2 * length L + 3) H Hb) as [(s1 & L1 & k & E1 & Hk & Hg & _ & H1 & Hfr)|(r & s1 & L1 & E1 & H1 & _ & Hlo & Hhi & Hd & Hfr)];
      [lia|exists 0, s1|exists (r + HDR), s1].
    + split_and!; [done|done|left]. split; [done|]. exists (HDR * k). split; [unfold HDR in *; lia|done].
    + rewrite E1, (heap_u32 base lo s1 L1 _ r (units nbytes) H1) by (by rewrite lookup_insert_eq).
      split_and!; [done|done|right]. split_and!; [lia|unfold HDR in *; lia|]. intros b j Hbj. destruct (Hd b j Hbj) as [Hx|Hx]; unfold fin, HDR in *; simpl in Hx; lia.
  - intros a n Ha. exists (S (length L)). rewrite <- (heap_u32 base lo s L A a n H Ha).
    destruct (heap_free base lo s L A a n (S (length L)) H Ha) as (m1 & p & L1 & E1 & H1 & Hfr & _); [lia|]. eexists. split; [exact E1|].
    intros b k x Hbk Hba Hx. cbn [um]. apply (Hfr b k x); [|done]. by rewrite lookup_delete_ne.
Qed.

(** A program with its header at 16 and 64 kB to grow into: malloc(10),
    malloc(20), then free of the first. *)
Definition ex_grow (b n : Z) : bool := b + n <=? 65536.
Definition ex_ms0 : ms := MkMs (λ _, 0) 0 4096.
Definition ex_malloc (n : Z) (s : ms) : Z * ms := match malloc 16 ex_grow 10 n s with Ret r => r | _ => (0, s) end.

Lemma malloc_free_safe_witness :
  let s2 := (ex_malloc 20 (ex_malloc 10 ex_ms0).2).2 in
  (ex_malloc 10 ex_ms0).1 = 36848 ∧ ∃ f s', free f 36848 s2 = Ret (tt, s').
Proof.
  intros s2. split; [vm_compute; reflexivity|].
  assert (H1 : mreach 16 4096 ex_grow (ex_malloc 10 ex_ms0).2 {[36840 := 3]}).
  { apply (mr_malloc 16 4096 ex_grow 10 10 ex_ms0 ∅ 36848); [by apply mr_start|lia|vm_compute; reflexivity]. }
  assert (H2 : mreach 16 4096 ex_grow s2 (<[36808 := 4]> {[36840 := 3]})).
  { apply (mr_malloc 16 4096 ex_grow 10 20 (ex_malloc 10 ex_ms0).2 _ 36816); [exact H1|lia|vm_compute; reflexivity]. }
  destruct (malloc_free_safe 16 4096 ex_grow s2 (<[36808 := 4]> {[36840 := 3]})) as [_ Hf].
  - intros b n Hg%Z.leb_le. unfold KERNBASE. lia.
  - exact H2.
  - destruct (Hf 36840 3) as (f & s' & E & _); [reflexivity|]. exists f, s'. exact E.
Defined.

(** A size close to 2^32 overflows in the computation of the units: malloc
    hands out a block of no bytes. *)
Example malloc_size_wraps : units 4294967295 = 1 ∧ (ex_malloc 4294967295 ex_ms0).1 ≠ 0.
Proof. split; [reflexivity|]. vm_compute. discriminate. Qed.
