(* ===== verification/Mkfs.v ===== *)
(** mkfs.c: the program that builds the disk image.  The image is a host file
    of sectors; [exit(1)] and a failed assert end the run as [Panic]. *)

From S2P Require Import Prelude Params Bytes Sleeplock BufCache Log Fs FsCache.

Definition NINODES : Z := 200.
Definition nbitmap : Z := FSSIZE / (BSIZE * 8) + 1.
Definition ninodeblocks : Z := NINODES / IPB + 1.
Definition nlog : Z := LOGSIZE.
Definition nmeta : Z := 2 + nlog + ninodeblocks + nbitmap.
Definition nblocks : Z := FSSIZE - nmeta.

(** The global [sb] once main has filled it. *)
Definition mkfs_sb : superblock :=
  MkSb FSSIZE nblocks NINODES nlog 2 (2 + nlog) (2 + nlog + ninodeblocks).

(** The image file and the counters. *)
Record mk : Type := MkMk {
  img : Z → list Z;      (* its sectors; what lies behind a gap reads as zero *)
  nsect : Z;             (* its length in sectors *)
  freeinode : Z;
  freeblock : Z
}.

Definition set_img (k : Z) (d : list Z) (s : mk) : mk :=
  MkMk (upd_blk k d (img s)) (Z.max (nsect s) (k + 1)) (freeinode s) (freeblock s).
Definition set_freeinode (x : Z) (s : mk) : mk := MkMk (img s) (nsect s) x (freeblock s).
Definition set_freeblock (x : Z) (s : mk) : mk := MkMk (img s) (nsect s) (freeinode s) x.

(** freeblock++ and freeinode++ on uints. *)
Definition next_block : M mk Z :=
  b <- gets freeblock ;; modify (set_freeblock (u32 (b + 1))) ;;; ret b.
Definition next_inode : M mk Z :=
  n <- gets freeinode ;; modify (set_freeinode (u32 (n + 1))) ;;; ret n.

(** The sector at which lseek leaves the file: the offset is a uint. *)
Definition seek (sec : Z) : Z := u32 (sec * BSIZE) / BSIZE.

Definition wsect (sec : Z) (buf : list Z) : M mk unit := modify (set_img (seek sec) buf).

Definition rsect (sec : Z) : M mk (list Z) :=
  s <- get ;;
  if seek sec <? nsect s then ret (img s (seek sec)) else panic "read".

Definition winode (inum : Z) (ip : inode) : M mk unit :=
  let bn := IBLOCK inum mkfs_sb in
  buf <- rsect bn ;;
  wsect bn (put_dinode (dinode_off inum) ip buf).

Definition rinode (inum : Z) : M mk inode :=
  buf <- rsect (IBLOCK inum mkfs_sb) ;;
  ret (get_dinode (dinode_off inum) buf (blank inum)).

Definition mkfs_ialloc (type : Z) : M mk Z :=
  inum <- next_inode ;;
  winode inum (set_i_addrs (replicate 13 0) (set_i_size 0 (set_i_nlink 1 (set_i_type type (blank inum))))) ;;;
  ret inum.

(** The bits of the first [n] blocks. *)
Fixpoint mark (n : nat) : list Z :=
  match n with
  | O => replicate 512 0
  | S n' => bit_set (Z.of_nat n') (mark n')
  end.

Definition mkfs_balloc (used : Z) : M mk unit :=
  if negb (used <? BSIZE * 8) then panic "assert" else
  wsect (sb_bmapstart mkfs_sb) (mark (Z.to_nat used)).

(** The block of the image that holds block [fbn] of the file, with the inode
    as the code has changed it. *)
Definition iappend_block (din : inode) (fbn : Z) : M mk (inode * Z) :=
  if fbn <? NDIRECT then
    a <- of_option (i_addrs din !! Z.to_nat fbn) ;;
    if a =? 0 then
      b <- next_block ;;
      ret (set_i_addrs (<[Z.to_nat fbn := b]> (i_addrs din)) din, b)
    else ret (din, a)
  else
    a <- of_option (i_addrs din !! Z.to_nat NDIRECT) ;;
    din <- (if a =? 0 then
              b <- next_block ;;
              ret (set_i_addrs (<[Z.to_nat NDIRECT := b]> (i_addrs din)) din)
            else ret din) ;;
    a <- of_option (i_addrs din !! Z.to_nat NDIRECT) ;;
    indirect <- rsect a ;;
    let o := (4 * Z.to_nat (fbn - NDIRECT))%nat in
    if get32 indirect o =? 0 then
      b <- next_block ;;
      let indirect := put32 o b indirect in
      wsect a indirect ;;;
      ret (din, get32 indirect o)
    else ret (din, get32 indirect o).

(** The loop; every turn takes at least one byte of [p]. *)
Fixpoint iappend_loop (fuel : nat) (din : inode) (off : Z) (p : list Z) : M mk (inode * Z) :=
  match p with
  | [] => ret (din, off)
  | _ =>
      match fuel with
      | O => out_of_fuel
      | S fuel' =>
          let fbn := off / BSIZE in
          if negb (fbn <? MAXFILE) then panic "assert" else
          r <- iappend_block din fbn ;;
          let '(din, x) := r in
          let n1 := Z.min (Z.of_nat (length p)) ((fbn + 1) * BSIZE - off) in
          buf <- rsect x ;;
          wsect x (splice (Z.to_nat (off - fbn * BSIZE)) (take (Z.to_nat n1) p) buf) ;;;
          iappend_loop fuel' din (u32 (off + n1)) (drop (Z.to_nat n1) p)
      end
  end.

Definition iappend (inum : Z) (p : list Z) : M mk unit :=
  din <- rinode inum ;;
  r <- iappend_loop (length p) din (i_size din) p ;;
  let '(din, off) := r in
  winode inum (set_i_size off din).

Fixpoint wipe_loop (n : nat) (i : Z) : M mk unit :=
  match n with
  | O => ret tt
  | S n' => wsect i (replicate 512 0) ;;; wipe_loop n' (i + 1)
  end.

Definition put_sb (sb : superblock) (d : list Z) : list Z :=
  put32 24 (sb_bmapstart sb) (put32 20 (sb_inodestart sb) (put32 16 (sb_logstart sb) (put32 12 (sb_nlog sb)
    (put32 8 (sb_ninodes sb) (put32 4 (sb_nblocks sb) (put32 0 (sb_size sb) d)))))).

(** while((cc = read(fd, buf, sizeof(buf))) > 0) *)
Fixpoint copy_loop (inum : Z) (chunks : list (list Z)) : M mk unit :=
  match chunks with
  | [] => ret tt
  | buf :: chunks' => if (0 <? length buf)%nat then iappend inum buf ;;; copy_loop inum chunks' else ret tt
  end.

Definition strip (name : list Z) : list Z :=
  match name with c :: name' => if c =? 95 then name' else name | [] => [] end.

Section main.
(** The host's files: the pieces that read returns, or nothing if open fails. *)
Context (host : list Z → option (list (list Z))).

Fixpoint file_loop (rootino : Z) (argv : list (list Z)) : M mk unit :=
  match argv with
  | [] => ret tt
  | name :: argv' =>
      if existsb (Z.eqb 47) name then panic "assert" else
      match host name with
      | None => panic "open"
      | Some chunks =>
          inum <- mkfs_ialloc T_FILE ;;
          iappend rootino (mk_dirent inum (strip name)) ;;;
          copy_loop inum chunks ;;;
          file_loop rootino argv'
      end
  end.

(** main, on a truncated image; [argv] are the files from argv[2] on. *)
Definition mkfs_main (argv : list (list Z)) : M mk unit :=
  modify (set_freeblock nmeta) ;;;
  wipe_loop (Z.to_nat FSSIZE) 0 ;;;
  wsect 1 (put_sb mkfs_sb (replicate 512 0)) ;;;
  rootino <- mkfs_ialloc T_DIR ;;
  if negb (rootino =? ROOTINO) then panic "assert" else
  iappend rootino (mk_dirent rootino [46]) ;;;
  iappend rootino (mk_dirent rootino [46; 46]) ;;;
  file_loop rootino argv ;;;
  din <- rinode rootino ;;
  let off := u32 ((i_size din / BSIZE + 1) * BSIZE) in
  winode rootino (set_i_size off din) ;;;
  b <- gets freeblock ;;
  mkfs_balloc b.
End main.

(** The state before main. *)
Definition mk_init : mk := MkMk (λ _, replicate 512 0) 0 1 0.
