(* ===== verification/MkfsProps.v ===== *)
(** The image that mkfs builds is a file system: the files it was given under
    their names, each block in one place, and the bitmap of what is in use. *)

From S2P Require Import Prelude Params Bytes Cstring Sleeplock BufCache Log Tx Fs FsAt FsAlloc FsMap FsFile FsInode FsDir FsCache FsPath FsContents Mkfs.

Abbreviation sb := mkfs_sb.

Lemma mkfs_sb_ok : sb_ok sb.
Proof. split; [vm_compute; discriminate|done|done|done]. Qed.

Lemma mkfs_bm : sb_bmapstart sb = 58.
Proof. reflexivity. Qed.
Lemma mkfs_size : sb_size sb = 1000.
Proof. reflexivity. Qed.
Lemma mkfs_ninodes : sb_ninodes sb = 200.
Proof. reflexivity. Qed.
#[local] Opaque mkfs_sb.

(** * The bitmap under construction *)

Lemma mark_length n : length (mark n) = 512%nat.
Proof. induction n as [|n IH]; [done|]. cbn [mark]. unfold bit_set. by rewrite length_insert. Qed.

Lemma mark_spec n b : (n ≤ 4096)%nat → 0 ≤ b → bit_of (mark n) b = 0 ↔ Z.of_nat n ≤ b.
Proof.
  intros Hn Hb. induction n as [|n IH]; cbn [mark].
  - split; [lia|]. intros _. apply bit_of_testbit. unfold byte_of.
    destruct (replicate 512 0 !! _) eqn:E; [apply lookup_replicate in E as [-> _]|]; apply Z.bits_0.
  - rewrite bit_of_set; [|lia|lia|].
    + rewrite IH by lia. lia.
    + rewrite mark_length. assert (Z.of_nat n / 8 < 512) by (apply Z.div_lt_upper_bound; lia).
      assert (0 ≤ Z.of_nat n / 8) by (apply Z.div_pos; lia). lia.
Qed.

(** The disk as it will be once the bitmap is written: [V]. *)
Record irep (st : mk) (V : vmap) : Prop := {
  ir_sect : nsect st = 1000;
  ir_block : 59 ≤ freeblock st ≤ 1000;
  ir_img k : k ≠ 58 → V k = img st k;
  ir_bitmap : V 58 = mark (Z.to_nat (freeblock st));
  ir_length k : length (V k) = 512%nat;
  ir_zero k : freeblock st ≤ k → V k = replicate 512 0
}.

Lemma irep_used st V k : irep st V → 0 ≤ k → used sb V k ↔ k < freeblock st.
Proof.
  intros I Hk. pose proof (ir_block _ _ I). unfold used. rewrite mkfs_bm. rewrite (ir_bitmap _ _ I).
  pose proof (mark_spec (Z.to_nat (freeblock st)) k) as E. rewrite E by lia. lia.
Qed.

Lemma irep_meta st V : irep st V → meta_used sb V.
Proof. intros I b Hb. rewrite mkfs_bm in Hb. apply (irep_used st V); [done|lia|]. pose proof (ir_block _ _ I). lia. Qed.

Lemma irep_free st V b : irep st V → freeblock st ≤ b < 1000 → b ∈ free_set sb V.
Proof.
  intros I Hb. pose proof (ir_block _ _ I). apply elem_of_free. split; [rewrite mkfs_size; lia|].
  rewrite (irep_used st V) by (done || lia). lia.
Qed.

Lemma seek_small k : 0 ≤ k < 1000 → seek k = k.
Proof. intros. unfold seek, BSIZE. rewrite u32_small by lia. apply Z.div_mul. done. Qed.

Section ops.
Context (st : mk) (V : vmap) (I : irep st V).

Lemma irep_alloc : freeblock st < 1000 → irep (set_freeblock (freeblock st + 1) st) (alloc_view sb (freeblock st) V).
Proof using I.
  intros Hlt. destruct I as [I1 I2 I3 I4 I5 I6]. unfold alloc_view. rewrite mkfs_bm. split; simpl; try done; [lia|..].
  - intros k Hk. destruct (decide (k = freeblock st)) as [->|]; [|by rewrite !upd_blk_ne by done; auto].
    rewrite upd_blk_eq, <- I3 by lia. symmetry. apply I6. lia.
  - rewrite upd_blk_ne, upd_blk_eq by lia. rewrite I4. replace (Z.to_nat (freeblock st + 1)) with (S (Z.to_nat (freeblock st))) by lia.
    cbn [mark]. by rewrite Z2Nat.id by lia.
  - intros k. unfold upd_blk. repeat case_match; try done. unfold bit_set. by rewrite length_insert.
  - intros k Hk. rewrite !upd_blk_ne by lia. apply I6. lia.
Qed.

Lemma wp_next_block (Q : Z → mk → Prop) :
  freeblock st < 1000 → Q (freeblock st) (set_freeblock (freeblock st + 1) st) → wp next_block st Q.
Proof using I.
  intros Hlt HQ. pose proof (ir_block _ _ I). unfold next_block. apply wp_bind, wp_gets, wp_bind, wp_modify, wp_ret.
  by rewrite u32_small by lia.
Qed.

Lemma wp_rsect k (Q : list Z → mk → Prop) : 0 ≤ k < 1000 → k ≠ 58 → Q (V k) st → wp (rsect k) st Q.
Proof using I.
  intros Hk Hn HQ. unfold rsect. apply wp_bind, wp_get. rewrite seek_small by done.
  rewrite (ir_sect _ _ I), (proj2 (Z.ltb_lt _ _)) by lia. apply wp_ret. by rewrite <- (ir_img _ _ I) by done.
Qed.

Lemma wp_wsect k v (Q : unit → mk → Prop) :
  0 ≤ k < freeblock st → k ≠ 58 → length v = 512%nat →
  (∀ st', irep st' (upd_blk k v V) → freeblock st' = freeblock st → freeinode st' = freeinode st → Q tt st') →
  wp (wsect k v) st Q.
Proof using I.
  intros Hk Hn Hv HQ. pose proof (ir_block _ _ I). unfold wsect. apply wp_modify. rewrite seek_small by lia. apply HQ; [|done|done].
  destruct I as [I1 I2 I3 I4 I5 I6]. split; simpl; try done.
  - lia.
  - intros j Hj. unfold upd_blk. case_match; auto.
  - by rewrite upd_blk_ne.
  - intros j. unfold upd_blk. by case_match.
  - intros j Hj. rewrite upd_blk_ne by lia. by apply I6.
Qed.
End ops.

(** * Mapping a block *)

(** The blocks taken to map block [bn]. *)
Definition fresh (V : vmap) (l : list Z) (bn : nat) : Z :=
  if decide (blk V l bn = 0) then if decide ((12 ≤ bn)%nat ∧ ind l = 0) then 2 else 1 else 0.

(** What iappend gets for block [bn]. *)
Record got (V : vmap) (l : list Z) (bn : nat) (V' : vmap) (l' : list Z) (b : Z) : Prop := {
  gt_post : bmap_post sb V l bn ∅ V' l' ∅ b;
  gt_blk j : (j < nblk)%nat → blk V' l' j = if decide (j = bn) then b else blk V l j;
  gt_ind : ind l' ≠ 0 ↔ ind l ≠ 0 ∨ (12 ≤ bn)%nat
}.

(** The second half of iappend_block, with the indirect block in place. *)
Definition entry_code (din : inode) (a : Z) (o : nat) : M mk (inode * Z) :=
  indirect <- rsect a ;;
  if get32 indirect o =? 0 then
    b <- next_block ;;
    let indirect := put32 o b indirect in
    wsect a indirect ;;;
    ret (din, get32 indirect o)
  else ret (din, get32 indirect o).

Section block.
Context (bn : nat) (Hbn : (bn < nblk)%nat).

Lemma got_old V l : map_ok sb V l → meta_used sb V → blk V l bn ≠ 0 → got V l bn V l (blk V l bn).
Proof using Hbn.
  intros Hm Hmu Hb. split.
  - split; [by apply fext_refl|reflexivity|exact Hb|reflexivity|congruence|by split|apply empty_subseteq|generalize (size (free_set sb V)); intros; lia].
  - intros j Hj. case_decide; [by subst|reflexivity].
  - split; [auto|]. intros [?|Hge]; [done|]. intros Hi. apply Hb. unfold blk. rewrite (proj2 (Nat.ltb_ge _ _)) by lia. by rewrite Hi.
Qed.

Lemma wp_entry din st V (Q : inode * Z → mk → Prop) :
  let l := i_addrs din in
  irep st V → map_ok sb V l → (12 ≤ bn)%nat → ind l ≠ 0 → freeblock st + fresh V l bn ≤ 1000 →
  (∀ st' V' b, irep st' V' → freeinode st' = freeinode st → freeblock st' = freeblock st + fresh V l bn →
     got V l bn V' l b → Q (din, b) st') →
  wp (entry_code din (ind l) (4 * (bn - 12))) st Q.
Proof using Hbn.
  intros l I Hm Hge Hi Hf HQ. pose proof (irep_meta _ _ I) as Hmu. pose proof (ir_length _ _ I) as HlV. pose proof (ir_block _ _ I) as Hfb.
  destruct (mo_ind _ _ _ Hm Hi) as [Hir Hiu]. rewrite mkfs_bm, mkfs_size in Hir.
  rewrite (irep_used _ _ _ I) in Hiu by lia. unfold entry_code. apply wp_bind, (wp_rsect st V I); [lia|lia|].
  assert (Eb : blk V l bn = get32 (V (ind l)) (4 * (bn - 12))).
  { unfold blk. rewrite (proj2 (Nat.ltb_ge _ _)) by lia. by rewrite (proj2 (Z.eqb_neq _ _)). }
  rewrite <- Eb. unfold fresh in Hf, HQ. destruct (Z.eqb_spec (blk V l bn) 0) as [E0|E0].
  - rewrite decide_True in Hf, HQ by done. rewrite decide_False in Hf, HQ by tauto. set (b := freeblock st) in *.
    assert (Hb : b ∈ free_set sb V) by (apply (irep_free st); [done|lia]).
    apply wp_bind, (wp_next_block st V I); [lia|]. cbv zeta. apply wp_bind.
    assert (El : V (ind l) = alloc_view sb b V (ind l)).
    { symmetry. apply alloc_view_frame; [unfold b; lia|rewrite mkfs_bm; lia]. }
    apply (wp_wsect _ _ (irep_alloc st V I ltac:(lia))); [simpl; lia|lia|by rewrite put32_length|].
    intros st' I' Ef Ei. simpl in Ef, Ei. apply wp_ret. unfold nblk in Hbn.
    rewrite get32_put32 by (rewrite HlV; lia). rewrite u32_small by lia. rewrite El in I'.
    apply (HQ _ _ _ I'); [done|lia|].
    destruct (fext_entry sb mkfs_sb_ok V l b Hm Hmu (HlV _) Hb bn HlV) as [_ Hblk]; [unfold nblk; lia|done|done|].
    split; [|exact Hblk|].
    + apply (bmap_post_entry sb mkfs_sb_ok V l bn ∅ ∅ b Hm Hmu HlV Hb); [unfold nblk; lia|exact Hi|exact E0|apply empty_subseteq].
    + split; [auto|done].
  - rewrite decide_False in HQ by done. apply wp_ret, (HQ st V); [done|done|lia|]. by apply got_old.
Qed.

(** A direct block. *)
Lemma wp_block_direct din st V (Q : inode * Z → mk → Prop) :
  let l := i_addrs din in
  irep st V → map_ok sb V l → (bn < 12)%nat → freeblock st + fresh V l bn ≤ 1000 →
  (∀ st' V' l' b, irep st' V' → freeinode st' = freeinode st → freeblock st' = freeblock st + fresh V l bn →
     got V l bn V' l' b → Q (set_i_addrs l' din, b) st') →
  wp (iappend_block din (Z.of_nat bn)) st Q.
Proof using Hbn.
  intros l I Hm Hlt Hf HQ. pose proof (irep_meta _ _ I) as Hmu. pose proof (mo_len _ _ _ Hm) as Hl.
  unfold iappend_block, NDIRECT. rewrite (proj2 (Z.ltb_lt _ _)) by lia.
  rewrite Nat2Z.id. eapply wp_bind, wp_of_option; [apply (addr_lookup l); lia|].
  assert (Eb : blk V l bn = addr_at l bn) by (unfold blk; by rewrite (proj2 (Nat.ltb_lt _ _)) by lia).
  unfold fresh in Hf, HQ. fold l. rewrite <- Eb. destruct (Z.eqb_spec (blk V l bn) 0) as [E0|E0].
  - rewrite decide_True in Hf, HQ by done. rewrite decide_False in Hf, HQ by lia.
    assert (Hb : freeblock st ∈ free_set sb V) by (apply (irep_free st); [done|lia]).
    apply wp_bind, (wp_next_block st V I); [lia|]. apply wp_ret, (HQ _ (alloc_view sb (freeblock st) V)); [apply irep_alloc; [done|lia]|done|done|].
    destruct (fext_direct sb mkfs_sb_ok V l _ Hm Hmu (ir_length _ _ I _) Hb bn Hlt ltac:(congruence)) as [_ Hblk].
    split; [|exact Hblk|].
    + apply (bmap_post_direct sb mkfs_sb_ok V l bn ∅ ∅ _ Hm Hmu (ir_length _ _ I _) Hb Hlt); [congruence|apply empty_subseteq].
    + unfold addr_at. rewrite list_lookup_insert_ne by lia. split; [auto|]. intros [?|?]; [done|lia].
  - rewrite decide_False in HQ by done. apply wp_ret. rewrite <- (set_addrs_id din). apply (HQ st V); [done|done|lia|]. by apply got_old.
Qed.

Lemma wp_block_indirect din st V (Q : inode * Z → mk → Prop) :
  let l := i_addrs din in
  irep st V → map_ok sb V l → (12 ≤ bn)%nat → freeblock st + fresh V l bn ≤ 1000 →
  (∀ st' V' l' b, irep st' V' → freeinode st' = freeinode st → freeblock st' = freeblock st + fresh V l bn →
     got V l bn V' l' b → Q (set_i_addrs l' din, b) st') →
  wp (iappend_block din (Z.of_nat bn)) st Q.
Proof using Hbn.
  intros l I Hm Hge Hf HQ. pose proof (irep_meta _ _ I) as Hmu. pose proof (mo_len _ _ _ Hm) as Hl.
  unfold iappend_block, NDIRECT. rewrite (proj2 (Z.ltb_ge _ _)) by lia.
  eapply wp_bind, wp_of_option; [apply (addr_lookup l 12); lia|]. fold l.
  replace (4 * Z.to_nat (Z.of_nat bn - 12))%nat with (4 * (bn - 12))%nat by lia. change (Z.to_nat 12) with 12%nat.
  destruct (Z.eqb_spec (ind l) 0) as [Ei|Ei]; apply wp_bind.
  2:{ apply wp_ret. eapply wp_bind, wp_of_option; [apply (addr_lookup l 12); lia|].
      apply (wp_entry din st V Q I Hm Hge Ei Hf). intros st' V' b I' E1 E2 G. rewrite <- (set_addrs_id din). by apply (HQ st' V'). }
  assert (E0 : blk V l bn = 0) by (unfold blk; rewrite (proj2 (Nat.ltb_ge _ _)) by lia; by rewrite Ei).
  unfold fresh in Hf, HQ. rewrite decide_True in Hf, HQ by done. rewrite decide_True in Hf, HQ by done.
  set (i0 := freeblock st) in *. assert (Hb : i0 ∈ free_set sb V) by (apply (irep_free st); [done|lia]).
  destruct (fext_indirect sb mkfs_sb_ok V l i0 Hm Hmu (ir_length _ _ I _) Hb Ei) as [He Hblk].
  assert (Hi0 : ind (<[12%nat := i0]> l) = i0) by (unfold addr_at; by rewrite list_lookup_insert_eq by lia).
  assert (Hnz : i0 ≠ 0) by (pose proof (ir_block _ _ I); lia).
  apply wp_bind, (wp_next_block st V I); [lia|]. apply wp_ret. fold i0. set (l1 := <[12%nat := i0]> l) in *.
  eapply wp_bind, wp_of_option; [apply (addr_lookup _ 12); simpl; unfold l1; rewrite length_insert; lia|].
  assert (Ef : fresh (alloc_view sb i0 V) l1 bn = 1).
  { unfold fresh. rewrite (Hblk bn Hbn), (decide_True _ _ E0). apply decide_False. rewrite Hi0. tauto. }
  apply (wp_entry (set_i_addrs l1 din) (set_freeblock (i0 + 1) st) (alloc_view sb i0 V));
    [apply irep_alloc; [done|unfold i0 in Hf; lia]|apply He|done|change (ind l1 ≠ 0); by rewrite Hi0|..]; change (i_addrs (set_i_addrs l1 din)) with l1; rewrite Ef.
  - simpl. lia.
  - intros st' V' b I' E1 E2 [G1 G2 G3]. simpl in E1, E2. apply (HQ st' V' l1); [done|done|lia|]. split.
    + apply (bmap_post_indirect sb mkfs_sb_ok V l i0 bn ∅ V' l1 ∅ b Hm Hmu (ir_length _ _ I) Hb Ei Hbn E0 G1).
    + intros j Hj. rewrite G2 by done. case_decide; [done|]. by apply Hblk.
    + rewrite Hi0. split; [auto|done].
Qed.

Lemma wp_iappend_block din st V (Q : inode * Z → mk → Prop) :
  let l := i_addrs din in
  irep st V → map_ok sb V l → freeblock st + fresh V l bn ≤ 1000 →
  (∀ st' V' l' b, irep st' V' → freeinode st' = freeinode st → freeblock st' = freeblock st + fresh V l bn →
     got V l bn V' l' b → Q (set_i_addrs l' din, b) st') →
  wp (iappend_block din (Z.of_nat bn)) st Q.
Proof using Hbn.
  intros l I Hm Hf HQ. destruct (decide (bn < 12)%nat); [apply (wp_block_direct din st V)|apply (wp_block_indirect din st V)]; auto; lia.
Qed.
End block.

(** * Appending to a file *)

(** The blocks of a file of [n] bytes, with its indirect block. *)
Definition fblocks (n : nat) : Z := Z.of_nat ((n + 511) / 512) + (if decide (12 * 512 < n)%nat then 1 else 0).

(** The file with addrs [l] has the blocks of its [n] bytes and no others, and
    zeros behind its end. *)
Record exact (V : vmap) (l : list Z) (n : nat) : Prop := {
  ex_blk j : (j < nblk)%nat → blk V l j ≠ 0 ↔ (j * 512 < n)%nat;
  ex_ind : ind l ≠ 0 ↔ (12 * 512 < n)%nat;
  ex_tail k : (n ≤ k)%nat → (k / 512 * 512 < n)%nat → fbyte V l k = 0
}.

Lemma exact_nil V : exact V (replicate 13 0) 0.
Proof.
  assert (Hz : ∀ i, addr_at (replicate 13 0) i = 0).
  { intros i. unfold addr_at. destruct (replicate 13 0 !! i) eqn:E; [|done]. by apply lookup_replicate in E as [-> _]. }
  split.
  - intros j Hj. unfold blk. rewrite !Hz. simpl. split; [|lia]. by destruct (j <? 12)%nat.
  - rewrite Hz. split; [done|lia].
  - lia.
Qed.

Section append_step.
Context (V : vmap) (l : list Z) (o m : nat).
Context (Hx : exact V l o) (Hbn : (o / 512 < nblk)%nat) (Hm : (1 ≤ m)%nat) (Hom : (o mod 512 + m ≤ 512)%nat).

Lemma fblocks_step : fblocks (o + m) = fblocks o + fresh V l (o / 512).
Proof using All.
  unfold fblocks, fresh. pose proof (ex_blk _ _ _ Hx _ Hbn) as Hb. pose proof (ex_ind _ _ _ Hx) as Hi.
  pose proof (Nat.div_mod_eq o 512) as E. pose proof (Nat.mod_upper_bound o 512 ltac:(lia)) as Hr.
  assert (E1 : ((o + m + 511) / 512 = o / 512 + 1)%nat).
  { symmetry. apply (Nat.div_unique _ _ _ (o mod 512 + m - 1)); lia. }
  rewrite E1. destruct (decide (o mod 512 = 0)%nat) as [H0|H0].
  - assert (E2 : ((o + 511) / 512 = o / 512)%nat) by (symmetry; apply (Nat.div_unique _ _ _ 511); lia).
    rewrite E2. repeat case_decide; lia.
  - assert (E2 : ((o + 511) / 512 = o / 512 + 1)%nat) by (symmetry; apply (Nat.div_unique _ _ _ (o mod 512 - 1)); lia).
    rewrite E2. repeat case_decide; lia.
Qed.

Lemma exact_step V1 l1 b src :
  map_ok sb V1 l1 → (∀ k, length (V1 k) = 512%nat) → (m ≤ length src)%nat → got V l (o / 512) V1 l1 b →
  exact (upd_blk b (splice (o mod 512) (take m src) (V1 b)) V1) l1 (o + m).
Proof using All.
  intros Hm1 HlV Hs [G1 G2 G3]. destruct G1 as [Be Bb Bnz Bd Bz Bs Bp Bf]. clear Bp Bf.
  pose proof (Nat.div_mod_eq o 512) as E. pose proof (Nat.mod_upper_bound o 512 ltac:(lia)) as Hr.
  assert (Hblk : ∀ v j, blk (upd_blk b v V1) l1 j = blk V1 l1 j).
  { intros v j. rewrite <- Bb. apply (blk_data_write sb); [done|done|by rewrite Bb]. }
  split.
  - intros j Hj. rewrite Hblk, G2 by done. pose proof (ex_blk _ _ _ Hx _ Hj). case_decide; [subst; split; [lia|done]|]. lia.
  - rewrite G3, (ex_ind _ _ _ Hx). lia.
  - intros k Hk1 Hk2. pose proof (Nat.div_mod_eq k 512) as Ek. pose proof (Nat.mod_upper_bound k 512 ltac:(lia)) as Hkr.
    assert (k / 512 = o / 512)%nat as Ekb by lia. unfold fbyte. rewrite Hblk, Ekb, Bb, upd_blk_eq.
    rewrite byte_of_splice by (rewrite length_take, HlV; lia). rewrite length_take, Nat.min_l, decide_False by lia.
    destruct (decide (blk V l (o / 512) = 0)) as [E0|E0].
    + rewrite (Bz E0). unfold byte_of. destruct (replicate 512 0 !! _) eqn:Er; [|done]. by apply lookup_replicate in Er as [-> _].
    + destruct (Bs E0) as [-> ->]. rewrite <- Bb, <- Ekb. apply (ex_tail _ _ _ Hx); [lia|]. rewrite Ekb. by apply (ex_blk _ _ _ Hx).
Qed.
End append_step.

(** A turn of the loop. *)
Lemma iappend_loop_S f din off src : src ≠ [] →
  iappend_loop (S f) din off src =
    (if negb (off / BSIZE <? MAXFILE) then panic "assert" else
     r <- iappend_block din (off / BSIZE) ;;
     let '(din, x) := r in
     let n1 := Z.min (Z.of_nat (length src)) ((off / BSIZE + 1) * BSIZE - off) in
     buf <- rsect x ;;
     wsect x (splice (Z.to_nat (off - off / BSIZE * BSIZE)) (take (Z.to_nat n1) src) buf) ;;;
     iappend_loop f din (u32 (off + n1)) (drop (Z.to_nat n1) src)).
Proof. by destruct src. Qed.

(** The loop of iappend. *)
Lemma wp_iappend_loop f : ∀ st V din o src (Q : inode * Z → mk → Prop),
  let l := i_addrs din in
  let n := (o + length src)%nat in
  irep st V → map_ok sb V l → exact V l o → (length src ≤ f)%nat → Z.of_nat n ≤ 71680 →
  freeblock st + fblocks n - fblocks o ≤ 1000 →
  (∀ st' V' l', irep st' V' → freeinode st' = freeinode st → freeblock st' = freeblock st + fblocks n - fblocks o →
     wrote sb V l o src V' l' → exact V' l' n → Q (set_i_addrs l' din, Z.of_nat n) st') →
  wp (iappend_loop f din (Z.of_nat o) src) st Q.
Proof.
  induction f as [|f IH]; intros st V din o src Q l n I Hm Hx Hf Hn Hfree HQ.
  1: destruct src; [|simpl in Hf; lia].
  2: destruct src as [|c src']; [|set (src := c :: src') in *].
  1-2: cbn [iappend_loop]; apply wp_ret; rewrite <- (set_addrs_id din); unfold n in *; simpl in *; rewrite Nat.add_0_r in *;
    apply (HQ st V); [done|done|lia|apply wrote_nil; [done|by apply (irep_meta st)]|done].
  pose proof (Nat.div_mod_eq o 512) as E. pose proof (Nat.mod_upper_bound o 512 ltac:(lia)) as Hr.
  set (m := Nat.min (length src) (512 - o mod 512)). assert (Hl1 : (1 ≤ length src)%nat) by (simpl; lia).
  assert (Hm1 : (1 ≤ m ≤ length src ∧ o mod 512 + m ≤ 512)%nat) by (unfold m; lia).
  assert (Hm2 : (m = length src ∧ o mod 512 + m ≤ 512 ∨ o mod 512 + m = 512)%nat) by (unfold m; lia).
  assert (Hbn : (o / 512 < nblk)%nat) by (unfold nblk, n in *; lia).
  pose proof (fblocks_step V l o m Hx Hbn ltac:(lia) ltac:(lia)) as Hstep.
  assert (Hmono : fblocks (o + m) ≤ fblocks n).
  { unfold fblocks, n. assert ((o + m + 511) / 512 ≤ (o + length src + 511) / 512)%nat by (apply Nat.Div0.div_le_mono; lia).
    repeat case_decide; lia. }
  rewrite iappend_loop_S by done.
  replace (Z.of_nat o / BSIZE) with (Z.of_nat (o / 512)) by (rewrite Nat2Z.inj_div; done).
  unfold MAXFILE, NDIRECT, NINDIRECT, BSIZE, nblk in *. change (12 + 512 / 4) with 140. rewrite (proj2 (Z.ltb_lt _ _)) by lia. cbn [negb].
  replace (Z.min (Z.of_nat (length src)) ((Z.of_nat (o / 512) + 1) * 512 - Z.of_nat o)) with (Z.of_nat m) by (unfold m; lia).
  replace (Z.of_nat o - Z.of_nat (o / 512) * 512) with (Z.of_nat (o mod 512)) by lia. cbv zeta. rewrite !Nat2Z.id.
  replace (u32 (Z.of_nat o + Z.of_nat m)) with (Z.of_nat (o + m)) by (rewrite u32_small; unfold n in *; lia).
  apply wp_bind, (wp_iappend_block _ Hbn din st V _ I Hm); [fold l; lia|]. fold l.
  intros st1 V1 l1 b I1 Ei1 Ef1 G. pose proof (gt_post _ _ _ _ _ _ G) as Gp. pose proof (fe_ok (bp_ext Gp)) as Hmp.
  destruct (mo_blk _ _ _ Hmp _ Hbn) as [Hbr Hbu]; [rewrite (bp_blk _ _ _ _ _ _ _ _ _ Gp); apply Gp|].
  rewrite (bp_blk _ _ _ _ _ _ _ _ _ Gp), mkfs_bm, mkfs_size in *. rewrite (irep_used _ _ _ I1) in Hbu by lia.
  apply wp_bind, (wp_rsect st1 V1 I1); [lia|lia|]. apply wp_bind, (wp_wsect st1 V1 I1); [lia|lia| |].
  { rewrite splice_length; rewrite ?length_take, (ir_length _ _ I1); lia. }
  intros st2 I2 Ef2 Ei2.
  assert (Hbn' : (o / 512 < nblk)%nat) by (unfold nblk; lia).
  assert (He2 : ∀ v, fext sb V1 l1 (upd_blk b v V1) l1).
  { intros v. rewrite <- (bp_blk _ _ _ _ _ _ _ _ _ Gp). apply fext_data_write; [exact mkfs_sb_ok|exact Hmp|apply (irep_meta st1); exact I1|exact Hbn'|].
    rewrite (bp_blk _ _ _ _ _ _ _ _ _ Gp). apply Gp. }
  eapply (IH st2 _ (set_i_addrs l1 din) (o + m)%nat (drop m src) Q I2); rewrite ?length_drop.
  - apply He2.
  - apply (exact_step V l o m Hx Hbn'); [lia|lia|exact Hmp|apply (ir_length _ _ I1)|lia|exact G].
  - lia.
  - unfold n in *. lia.
  - replace (o + m + (length src - m))%nat with n by (unfold n; lia). lia.
  - replace (o + m + (length src - m))%nat with n by (unfold n; lia).
    intros st' V' l' I' Ei' Ef' W Hx'. apply (HQ st' V' l'); [exact I'|congruence|lia| |exact Hx'].
    eapply (wrote_step sb mkfs_sb_ok V l ∅ V1 l1 ∅ b o m src); [apply (ir_length _ _ I1)|exact Hbn'|lia|exact Hm2|exact Hm|exact Gp|exact W].
Qed.

(** * The files of the image *)

Abbreviation dino := (dino sb).

(** Inode [n] is a file of type [t] with the bytes [c]. *)
Record holds (V : vmap) (n t : Z) (c : list Z) : Prop := {
  ho_regular : regular sb V n;
  ho_type : i_type (dino V n) = t;
  ho_nlink : i_nlink (dino V n) = 1;
  ho_contents : fcontents sb V n = c;
  ho_exact : exact V (i_addrs (dino V n)) (length c)
}.

Definition blocks (fs : list (Z * list Z)) : Z := foldr (λ f a, fblocks (length f.2) + a) 0 fs.

Definition no_dinode : Z * Z * Z * Z * Z * list Z := (0, 0, 0, 0, 0, replicate 13 0).

(** The image holds the files [fs], numbered from 1, and nothing else. *)
Record good (st : mk) (V : vmap) (fs : list (Z * list Z)) : Prop := {
  gd_rep : irep st V;
  gd_few : (length fs ≤ 199)%nat;
  gd_next : freeinode st = 1 + Z.of_nat (length fs);
  gd_count : freeblock st = 59 + blocks fs;
  gd_file i t c : fs !! i = Some (t, c) → holds V (1 + Z.of_nat i) t c;
  gd_apart i j : (i < length fs)%nat → (j < length fs)%nat → i ≠ j → apart sb V (1 + Z.of_nat i) (1 + Z.of_nat j);
  gd_rest n : 0 ≤ n < 200 → n = 0 ∨ 1 + Z.of_nat (length fs) ≤ n → on_disk (dino V n) = no_dinode;
  gd_boot : V 1 = put_sb sb (replicate 512 0) ∧ ∀ k, 0 ≤ k < 32 → k ≠ 1 → V k = replicate 512 0
}.

Lemma blocks_insert fs i t c t' c' :
  fs !! i = Some (t, c) → blocks (<[i := (t', c')]> fs) = blocks fs + fblocks (length c') - fblocks (length c).
Proof.
  revert i. induction fs as [|f fs IH]; intros [|i] H; [done|done|..]; simpl in *.
  - injection H as ->. simpl. lia.
  - rewrite (IH i H). lia.
Qed.

Lemma blocks_app fs gs : blocks (fs ++ gs) = blocks fs + blocks gs.
Proof. induction fs as [|f fs IH]; simpl; [done|]. rewrite IH. lia. Qed.

Lemma ib_range n : 0 ≤ n < 200 → 32 ≤ IBLOCK n sb < 58.
Proof.
  intros Hn. change (IBLOCK n sb) with (n / 8 + 32). assert (0 ≤ n / 8) by (apply Z.div_pos; lia).
  assert (n / 8 < 26) by (apply Z.div_lt_upper_bound; lia). lia.
Qed.

Lemma holds_size V n t c : holds V n t c → i_size (dino V n) = Z.of_nat (length c).
Proof. intros [H1 _ _ <- _]. rewrite fcontents_length. pose proof (fo_size _ _ _ (re_file _ _ _ H1)). lia. Qed.

(** The tail of a file when its blocks stay in place. *)
Lemma exact_keep V V' l n :
  exact V l n → Z.of_nat n ≤ 71680 → (∀ j, blk V' l j = blk V l j) →
  (∀ j, (j < nblk)%nat → blk V l j ≠ 0 → V' (blk V l j) = V (blk V l j)) → exact V' l n.
Proof.
  intros [E1 E2 E3] Hn Hb Hs. split; [intros; rewrite Hb; auto|done|].
  intros k H1 H2. rewrite <- (E3 k H1 H2). unfold fbyte. rewrite Hb, Hs; [done|unfold nblk; lia|].
  apply E1; [unfold nblk; lia|done].
Qed.

(** Writing a block of inodes. *)
Section meta.
Context (V : vmap) (k : Z) (v : list Z) (Hk : k < 58).
Let V' := upd_blk k v V.

Lemma exact_meta l n : map_ok sb V l → exact V l n → Z.of_nat n ≤ 71680 → exact V' l n.
Proof using Hk.
  intros Hm Hx Hn. apply (exact_keep V); try done.
  - intros j. apply (blk_meta sb); [rewrite mkfs_bm; lia|done].
  - intros j Hj Hb. destruct (mo_blk _ _ _ Hm j Hj Hb) as [Hr _]. rewrite mkfs_bm in Hr. apply upd_blk_ne. lia.
Qed.

Lemma holds_meta n t c : holds V n t c → dino V' n = dino V n → holds V' n t c.
Proof using Hk.
  intros Hh E. pose proof (holds_size _ _ _ _ Hh) as Hsz. destruct Hh as [[[F1 F2 F3 F4 F5 F6] H1] H2 H3 H4 H5].
  assert (Hk' : k < sb_bmapstart sb) by (rewrite mkfs_bm; lia). split; rewrite ?E; try done.
  - split; rewrite E; [|done]. split; try done; [by apply map_ok_meta|]. intros j Hj. unfold V'. rewrite (blk_meta sb); auto.
  - rewrite <- H4. unfold fcontents. rewrite E. apply list_fmap_ext. intros i x [-> Hx]%lookup_seq. simpl.
    destruct (fo_block sb V (dino V n) i ltac:(by split)) as [Hb1 Hb2]; [lia|]. by apply (fbyte_meta sb).
  - apply exact_meta; [done|done|lia].
Qed.

Lemma apart_meta n n' : regular sb V n → regular sb V n' → dino V' n = dino V n → dino V' n' = dino V n' → apart sb V n n' → apart sb V' n n'.
Proof using Hk.
  intros R R' E E' H b. rewrite E, E'. assert (Hk' : k < sb_bmapstart sb) by (rewrite mkfs_bm; lia). unfold V'.
  rewrite !(owned_meta sb) by (done || apply R || apply R'). apply H.
Qed.
End meta.

Lemma no_owned W k : ¬ owned W (replicate 13 0) k.
Proof.
  destruct (exact_nil W) as [E1 E2 _]. intros [Hk [->|(j & Hj & <-)]]; [apply E2 in Hk; lia|]. apply E1 in Hk; [lia|done].
Qed.

(** ialloc adds an empty file. *)
Section ialloc.
Context (st : mk) (V : vmap) (fs : list (Z * list Z)) (G : good st V fs) (Hfew : (length fs < 199)%nat).
Context (t : Z) (Ht : t ≠ 0 ∧ t ≠ T_DEV ∧ is_short t).
Let n := 1 + Z.of_nat (length fs).
Let p := set_i_addrs (replicate 13 0) (set_i_size 0 (set_i_nlink 1 (set_i_type t (blank n)))).
Let V' := upd_view sb p V.

Lemma ialloc_fmt : inode_fmt p.
Proof using Ht. clear Hfew G. split; simpl; try done; [apply Ht|]. repeat constructor; lia. Qed.

Lemma ialloc_dino : on_disk (dino V' n) = on_disk p.
Proof using G Ht Hfew.
  pose proof (upd_view_synced sb p V (ir_length _ _ (gd_rep _ _ _ G)) ialloc_fmt ltac:(unfold p, n; simpl; lia)) as E.
  unfold synced in E. change (i_inum p) with n in E. rewrite <- E. done.
Qed.

Lemma ialloc_other n' : 0 ≤ n' → n' ≠ n → dino V' n' = dino V n'.
Proof using Type. clear G Hfew. intros H1 H2. apply (upd_view_other sb); [done|unfold p, n; simpl; lia|done|done]. Qed.

Lemma ialloc_holds : holds V' n t [].
Proof using All.
  pose proof ialloc_dino as E. apply on_disk_eq in E as (E1 & E2 & E3 & E4 & E5 & E6).
  change (i_type p) with t in E1. change (i_size p) with 0 in E5. change (i_addrs p) with (replicate 13 0) in E6.
  split; rewrite ?E1, ?E4, ?E6; try done.
  - split; [split|split]; rewrite ?E1, ?E2, ?E3, ?E4, ?E5, ?E6; try done.
    + rewrite mkfs_ninodes. simpl. unfold n. lia.
    + apply Ht.
    + pose proof (exact_nil V') as [X1 X2 _]. split; [done|..].
      * intros j Hj Hb. apply X1 in Hb; [lia|done].
      * intros Hb. apply X2 in Hb. lia.
      * intros i j Hi Hj _ Hb. apply X1 in Hb; [lia|done].
      * intros j Hj Hb. apply X1 in Hb; [lia|done].
    + lia.
    + apply Ht.
    + repeat constructor; lia.
  - unfold fcontents. by rewrite E5.
  - apply exact_nil.
Qed.

Lemma ialloc_good st' : irep st' V' → freeinode st' = n + 1 → freeblock st' = freeblock st → good st' V' (fs ++ [(t, [])]).
Proof using All.
  intros I' Hi' Hb'. pose proof (ib_range n ltac:(unfold n; lia)) as Hib. destruct G as [G1 G2 G3 G4 G5 G6 G7 G8].
  assert (Hlen : length (fs ++ [(t, [] : list Z)]) = S (length fs)) by (rewrite length_app; simpl; lia).
  assert (Hlt : ∀ i, (i < length fs)%nat → 1 + Z.of_nat i ≠ n ∧ regular sb V (1 + Z.of_nat i)).
  { intros i Hi. split; [unfold n; lia|]. destruct (lookup_lt_is_Some_2 fs i Hi) as [[t' c] H]. by apply (G5 i t' c). }
  assert (Hno : ∀ k, ¬ owned V' (i_addrs (dino V' n)) k).
  { pose proof ialloc_dino as E. apply on_disk_eq in E as (_ & _ & _ & _ & _ & ->). apply no_owned. }
  split; try done; rewrite ?Hlen.
  - lia.
  - rewrite Hi'. unfold n. lia.
  - rewrite Hb', G4, blocks_app. simpl. change (fblocks 0) with 0. lia.
  - intros i t' c [H|[H1 H2]]%lookup_app_Some.
    + apply holds_meta; [simpl; lia|by apply G5|]. apply lookup_lt_Some in H. apply ialloc_other; [lia|by apply Hlt].
    + apply list_lookup_singleton_Some in H2 as [H2 [= <- <-]]. replace (1 + Z.of_nat i) with n by (unfold n; lia). apply ialloc_holds.
  - intros i j Hi Hj Hne. destruct (decide (i = length fs)) as [->|Hi2]; [intros k Hk; by apply Hno in Hk|].
    destruct (decide (j = length fs)) as [->|Hj2]; [intros k Hk; by apply Hno|].
    destruct (Hlt i ltac:(lia)), (Hlt j ltac:(lia)).
    apply apart_meta; [simpl; lia|done|done|by apply ialloc_other; [lia|]|by apply ialloc_other; [lia|]|apply G6; lia].
  - intros k Hk1 Hk2. rewrite ialloc_other by (unfold n; lia). apply G7; lia.
  - destruct G8 as [B1 B2]. unfold V', upd_view. simpl. split; [rewrite upd_blk_ne by lia; done|].
    intros k Hk1 Hk2. rewrite upd_blk_ne by lia. auto.
Qed.

Lemma wp_mkfs_ialloc (Q : Z → mk → Prop) :
  (∀ st', good st' V' (fs ++ [(t, [])]) → Q n st') → wp (mkfs_ialloc t) st Q.
Proof using All.
  intros HQ. pose proof (gd_rep _ _ _ G) as I. pose proof (ir_block _ _ I). pose proof (ib_range n ltac:(unfold n; lia)) as Hib.
  unfold mkfs_ialloc, next_inode. apply wp_bind, wp_bind, wp_gets, wp_bind, wp_modify, wp_ret.
  rewrite (gd_next _ _ _ G). fold n. rewrite u32_small by (unfold n; lia).
  assert (I' : irep (set_freeinode (n + 1) st) V) by (destruct I; by split).
  apply wp_bind. unfold winode. fold p. apply wp_bind, (wp_rsect _ _ I'); [lia|lia|].
  apply (wp_wsect _ _ I'); [simpl; lia|lia|rewrite put_dinode_length; apply (ir_length _ _ I)|].
  intros st' I2 E1 E2. apply wp_ret, HQ. by apply ialloc_good.
Qed.
End ialloc.

(** iappend extends a file. *)
Section iappend.
Context (st : mk) (V : vmap) (fs : list (Z * list Z)) (G : good st V fs).
Context (i : nat) (t : Z) (c src : list Z) (Hi : fs !! i = Some (t, c)).
Let n := 1 + Z.of_nat i.
Let p := dino V n.
Let o := length c.

Lemma iappend_range : (i < length fs)%nat ∧ 1 ≤ n < 200.
Proof using G Hi. pose proof (gd_few _ _ _ G). apply lookup_lt_Some in Hi. unfold n. lia. Qed.

Section written.
Context (st' : mk) (V' : vmap) (p' : inode) (P' : gset Z) (I' : irep st' V').
Context (W : written sb V p o src ∅ V' p' P') (Hx : exact V' (i_addrs p') (o + length src)).
Context (Hn' : freeinode st' = freeinode st) (Hb' : freeblock st' = freeblock st + fblocks (o + length src) - fblocks o).

Let Hh : holds V n t c := gd_file _ _ _ G i t c Hi.
Let Hr : regular sb V n := ho_regular _ _ _ _ Hh.
Let Hc : copy_of sb V n p := conj eq_refl (conj eq_refl eq_refl).

Lemma appended_stored : stored sb n o src V V'.
Proof using All.
  pose proof (holds_size _ _ _ _ Hh) as Hs. apply (written_stored sb mkfs_sb_ok V p n o src ∅ V' p' P' Hr Hc); [unfold p, o; lia|exact W].
Qed.

Lemma appended_file : holds V' n t (c ++ src).
Proof using All.
  pose proof appended_stored as S. destruct (st_type _ _ _ _ _ _ S) as [S1 S2]. destruct Hh as [H1 H2 H3 H4 H5].
  split; [apply S|congruence|congruence|..].
  - rewrite (st_contents _ _ _ _ _ _ S), H4. unfold splice, o. rewrite take_ge, drop_ge, app_nil_r by lia. done.
  - pose proof (written_copy sb V p n o src ∅ V' p' P' Hc W) as (_ & _ & E). apply on_disk_eq in E as (_ & _ & _ & _ & _ & <-).
    by rewrite length_app.
Qed.

Context (j : nat) (Hj : (j < length fs)%nat) (Hne : j ≠ i).
Let m := 1 + Z.of_nat j.

Lemma appended_other : dino V' m = dino V m ∧ regular sb V m ∧ apart sb V n m ∧ fcontents sb V' m = fcontents sb V m
  ∧ regular sb V' m ∧ apart sb V' n m.
Proof using All.
  pose proof (gd_few _ _ _ G). destruct iappend_range. pose proof appended_stored as S.
  destruct (st_others _ _ _ _ _ _ S m) as [E Ho]; [rewrite mkfs_ninodes; unfold m; lia|unfold m, n; lia|].
  assert (Hrm : regular sb V m) by (destruct (lookup_lt_is_Some_2 fs j Hj) as [[t' c'] H']; by apply (gd_file _ _ _ G j t' c')).
  assert (Ha : apart sb V n m) by (by apply (gd_apart _ _ _ G)). destruct (Ho Hrm Ha) as (? & ? & ?). by split_and!.
Qed.

Lemma appended_blk : ∀ k, blk V' (i_addrs (dino V m)) k = blk V (i_addrs (dino V m)) k.
Proof using All.
  destruct appended_other as (E & Hrm & Ha & _). by apply (written_blk sb mkfs_sb_ok V p n o src ∅ V' p' P' Hr Hc W m Hrm Ha).
Qed.

Lemma appended_holds t' c' : holds V m t' c' → holds V' m t' c'.
Proof using All.
  intros Hm. pose proof (holds_size _ _ _ _ Hm) as Hsz. destruct Hm as [H1 H2 H3 H4 H5].
  destruct appended_other as (E & Hrm & Ha & Ec & Hr' & _). pose proof (fo_size _ _ _ (re_file _ _ _ H1)) as Hs.
  split; rewrite ?E; try done; [congruence|]. apply (exact_keep V); [done|lia|apply appended_blk|].
  intros k Hk Hb. apply (written_same sb mkfs_sb_ok V p n o src ∅ V' p' P' Hr Hc W m Hrm Ha). split; [done|]. right. eauto.
Qed.
End written.

Lemma appended_good st' V' p' P' :
  irep st' V' → written sb V p o src ∅ V' p' P' → exact V' (i_addrs p') (o + length src) →
  freeinode st' = freeinode st → freeblock st' = freeblock st + fblocks (o + length src) - fblocks o →
  good st' V' (<[i := (t, c ++ src)]> fs).
Proof using All.
  intros I' W Hx Hn' Hb'. destruct iappend_range as [Hil Hn]. pose proof (ib_range n ltac:(lia)) as Hib.
  pose proof (appended_other st' V' p' P' I' W Hx Hn' Hb') as Ho. pose proof (gd_few _ _ _ G) as Hfew.
  pose proof (appended_stored st' V' p' P' I' W Hx Hn' Hb') as S.
  split; rewrite ?length_insert; try done; try apply G.
  - rewrite Hn'. apply G.
  - rewrite Hb', (blocks_insert fs i t c), (gd_count _ _ _ G), length_app by done. fold o. lia.
  - intros j t' c' Hj. destruct (decide (i = j)) as [<-|Hne].
    + rewrite list_lookup_insert_eq in Hj by done. injection Hj as <- <-. by apply (appended_file st' V' p' P').
    + rewrite list_lookup_insert_ne in Hj by done. eapply appended_holds; try done; [by eapply lookup_lt_Some|by apply (gd_file _ _ _ G)].
  - intros a b Ha Hb Hab. destruct (decide (a = i)) as [->|Ha']; [by apply Ho|].
    destruct (decide (b = i)) as [->|Hb2]; [destruct (Ho a Ha Ha') as (_ & _ & _ & _ & _ & A); intros k K1 K2; by apply (A k)|].
    destruct (Ho a Ha Ha') as (Ea & _), (Ho b Hb Hb2) as (Eb & _). intros k. rewrite Ea, Eb. unfold owned.
    setoid_rewrite (appended_blk st' V' p' P' I' W Hx Hn' Hb' a Ha Ha'). setoid_rewrite (appended_blk st' V' p' P' I' W Hx Hn' Hb' b Hb Hb2).
    by apply (gd_apart _ _ _ G).
  - intros k Hk1 Hk2. destruct (st_others _ _ _ _ _ _ S k) as [E _]; [by rewrite mkfs_ninodes|unfold n in *; lia|]. rewrite E. by apply (gd_rest _ _ _ G).
  - assert (Hfr : ∀ k, 0 ≤ k < 32 → V' k = V k).
    { intros k Hk. apply (wn_frame _ _ _ _ _ _ _ _ _ W); [lia|apply (irep_meta st V (gd_rep _ _ _ G)); rewrite mkfs_bm; lia|rewrite mkfs_bm; lia| |].
      - change (i_inum p) with n. lia.
      - intros [Hr _]%(owned_data sb); [rewrite mkfs_bm in Hr; lia|]. apply (fo_map _ _ _ (re_file _ _ _ (ho_regular _ _ _ _ (gd_file _ _ _ G i t c Hi)))). }
    destruct (gd_boot _ _ _ G) as [B1 B2]. split; [by rewrite Hfr|]. intros k K1 K2. rewrite Hfr by done. auto.
Qed.

Lemma wp_iappend (Q : unit → mk → Prop) :
  Z.of_nat (o + length src) ≤ 71680 → freeblock st + fblocks (o + length src) - fblocks o ≤ 1000 →
  (∀ st' V', good st' V' (<[i := (t, c ++ src)]> fs) → Q tt st') → wp (iappend n src) st Q.
Proof using All.
  intros Hn Hf HQ. destruct iappend_range as [Hil Hnr]. pose proof (ib_range n ltac:(lia)) as Hib.
  pose proof (gd_rep _ _ _ G) as I. pose proof (gd_file _ _ _ G i t c Hi) as Hh. pose proof (holds_size _ _ _ _ Hh) as Hs.
  destruct Hh as [Hr H2 H3 H4 H5]. fold n p in Hs, H5. unfold iappend, rinode.
  apply wp_bind, wp_bind, (wp_rsect st V I); [lia|lia|]. apply wp_ret. change (get_dinode _ (V (IBLOCK n sb)) _) with p.
  rewrite Hs. apply wp_bind, (wp_iappend_loop _ st V); [done|apply (fo_map _ _ _ (re_file _ _ _ Hr))|done|done|done|done|].
  intros st1 V1 l' I1 E1 E2 W Hx. unfold winode. apply wp_bind, (wp_rsect st1 V1 I1); [lia|lia|].
  pose proof (ir_block _ _ I1). pose proof (ir_length _ _ I1) as Hlen.
  apply (wp_wsect st1 V1 I1); [lia|lia|by rewrite put_dinode_length|]. intros st2 I2 E3 E4.
  assert (W' := written_grow sb mkfs_sb_ok V p o src ∅ V1 l' ∅ ∅ (re_file _ _ _ Hr) (re_fmt _ _ _ Hr) (irep_meta _ _ I)).
  rewrite (Z.max_r (i_size p)) in W' by (rewrite Hs; fold o; lia).
  specialize (W' ltac:(rewrite Hs; fold o; lia) Hn W Hlen). rewrite size_empty in W'. specialize (W' (Nat.le_0_l _) (empty_subseteq _)).
  eapply (HQ st2). eapply appended_good; [exact I2|exact W'| |congruence|rewrite E3; exact E2].
  apply exact_meta; [lia|apply (fe_ok (wr_ext _ _ _ _ _ _ _ W))|exact Hx|exact Hn].
Qed.
End iappend.
