(* ===== verification/MkfsMain.v ===== *)
(** main of mkfs: the loop over the files, and the image it leaves. *)

From S2P Require Import Prelude Params Bytes Cstring Sleeplock BufCache Log Tx Fs FsAt FsAlloc FsMap FsFile FsInode FsDir FsCache FsPath FsContents Mkfs MkfsProps.

#[local] Opaque mkfs_sb.

(** * The blocks that are left *)

Lemma fblocks_le m n : (m ≤ n)%nat → 0 ≤ fblocks m ≤ fblocks n.
Proof.
  intros H. unfold fblocks. assert ((m + 511) / 512 ≤ (n + 511) / 512)%nat by (apply Nat.Div0.div_le_mono; lia).
  repeat case_decide; lia.
Qed.

Lemma blocks_cons f fs : blocks (f :: fs) = fblocks (length f.2) + blocks fs.
Proof. done. Qed.
Lemma blocks_nonneg fs : 0 ≤ blocks fs.
Proof. induction fs as [|f fs IH]; simpl; [done|]. pose proof (fblocks_le 0 (length f.2)). lia. Qed.

(** iappend, with the bound on the files it leaves. *)
Lemma wp_append st V fs i t c src (Q : unit → mk → Prop) :
  good st V fs → fs !! i = Some (t, c) → Z.of_nat (length (c ++ src)) ≤ 71680 → 59 + blocks (<[i := (t, c ++ src)]> fs) ≤ 1000 →
  (∀ st' V', good st' V' (<[i := (t, c ++ src)]> fs) → Q tt st') → wp (iappend (1 + Z.of_nat i) src) st Q.
Proof.
  intros G Hi Hn Hb HQ. rewrite (blocks_insert fs i t c), length_app in Hb by done. rewrite length_app in Hn.
  apply (wp_iappend st V fs G i t c src Hi); [done| |done]. rewrite (gd_count _ _ _ G). lia.
Qed.

(** * Copying a file *)

Lemma wp_copy_loop chunks : ∀ st V fs i t c (Q : unit → mk → Prop),
  good st V fs → fs !! i = Some (t, c) → Forall (λ b, b ≠ []) chunks →
  Z.of_nat (length (c ++ concat chunks)) ≤ 71680 → 59 + blocks (<[i := (t, c ++ concat chunks)]> fs) ≤ 1000 →
  (∀ st' V', good st' V' (<[i := (t, c ++ concat chunks)]> fs) → Q tt st') → wp (copy_loop (1 + Z.of_nat i) chunks) st Q.
Proof.
  induction chunks as [|b chunks IH]; intros st V fs i t c Q G Hi Hne Hn Hb HQ; cbn [copy_loop concat] in *.
  - rewrite app_nil_r, list_insert_id in * by done. apply wp_ret. by eapply HQ.
  - apply Forall_cons in Hne as [Hbn Hne]. rewrite (proj2 (Nat.ltb_lt _ _)) by (destruct b; [done|simpl; lia]).
    pose proof (lookup_lt_Some _ _ _ Hi) as Hlt. rewrite app_assoc in Hn, Hb, HQ.
    assert (Hmid : 59 + blocks (<[i := (t, c ++ b)]> fs) ≤ 1000).
    { rewrite !(blocks_insert fs i t c) in * by done. pose proof (fblocks_le (length (c ++ b)) (length ((c ++ b) ++ concat chunks))).
      rewrite (length_app (c ++ b)) in *. lia. }
    apply wp_bind, (wp_append st V fs i t c b); try done; [rewrite (length_app (c ++ b)) in Hn; lia|]. intros st1 V1 G1.
    eapply (IH st1 V1 _ i t (c ++ b) Q G1); try done; [by rewrite list_lookup_insert_eq|by rewrite list_insert_insert_eq|].
    rewrite list_insert_insert_eq. done.
Qed.

(** * The directory *)

(** The entries of the files from number [k] on. *)
Fixpoint dirs (k : Z) (argv : list (list Z)) : list (list Z) :=
  match argv with [] => [] | name :: argv' => mk_dirent k (strip name) :: dirs (k + 1) argv' end.

Definition ents (argv : list (list Z)) : list (list Z) := mk_dirent 1 [46] :: mk_dirent 1 [46; 46] :: dirs 2 argv.

Definition file_of (h : list (list Z)) : Z * list Z := (T_FILE, concat h).

Lemma dirs_length argv : ∀ k, length (dirs k argv) = length argv.
Proof. induction argv as [|x argv IH]; intros k; simpl; [done|]. by rewrite IH. Qed.

Lemma dirs_bytes argv : ∀ k, length (concat (dirs k argv)) = (16 * length argv)%nat.
Proof. induction argv as [|x argv IH]; intros k; [done|]. cbn [dirs concat]. rewrite length_app, IH, mk_dirent_length. simpl. lia. Qed.

Lemma dirs_lookup argv : ∀ k i, dirs k argv !! i = (λ x, mk_dirent (k + Z.of_nat i) (strip x)) <$> argv !! i.
Proof.
  induction argv as [|x argv IH]; intros k [|i]; try done; [simpl; by rewrite Z.add_0_r|].
  cbn [dirs lookup list_lookup]. rewrite IH. destruct (argv !! i); [|done]. simpl. do 2 f_equal. lia.
Qed.

Section files.
Context (host : list Z → option (list (list Z))).

(** What the host has under a name: its pieces [h]. *)
Definition served (name : list Z) (h : list (list Z)) : Prop :=
  host name = Some h ∧ ¬ In 47 name ∧ Forall (λ b, b ≠ []) h ∧ Z.of_nat (length (concat h)) ≤ 71680.

Lemma wp_file_loop argv : ∀ hs st V d fs (Q : unit → mk → Prop),
  Forall2 served argv hs → good st V ((T_DIR, d) :: fs) → (length fs + length argv ≤ 198)%nat →
  Z.of_nat (length (d ++ concat (dirs (2 + Z.of_nat (length fs)) argv))) ≤ 71680 →
  59 + blocks ((T_DIR, d ++ concat (dirs (2 + Z.of_nat (length fs)) argv)) :: fs ++ (file_of <$> hs)) ≤ 1000 →
  (∀ st' V', good st' V' ((T_DIR, d ++ concat (dirs (2 + Z.of_nat (length fs)) argv)) :: fs ++ (file_of <$> hs)) → Q tt st') →
  wp (file_loop host 1 argv) st Q.
Proof.
  induction argv as [|name argv IH]; intros hs st V d fs Q HF G Hlen Hd Hb HQ.
  { apply Forall2_nil_inv_l in HF as ->. cbn [dirs concat] in *. rewrite app_nil_r in *. change (file_of <$> []) with (@nil (Z * list Z)) in *. rewrite app_nil_r in *. apply wp_ret. by eapply HQ. }
  apply Forall2_cons_inv_l in HF as (h & hs' & (H1 & H2 & H3 & H4) & HF & ->). cbn [file_loop dirs concat fmap list_fmap] in *.
  replace (existsb (Z.eqb 47) name) with false.
  2:{ symmetry. apply not_true_is_false. intros (x & Hx & E%Z.eqb_eq)%existsb_exists. by subst x. }
  cbn [length] in Hlen. rewrite H1. set (k := 2 + Z.of_nat (length fs)) in *. set (e := mk_dirent k (strip name)) in *.
  apply wp_bind, (wp_mkfs_ialloc st V _ G); [simpl; lia|split_and!; [done|done|unfold is_short, T_FILE; lia]|]. intros st1 G1.
  replace (1 + Z.of_nat (length ((T_DIR, d) :: fs))) with k by (simpl; lia). fold e.
  assert (Hle : length e = 16%nat) by apply mk_dirent_length.
  rewrite (app_assoc d e) in *. set (d1 := d ++ e) in *. set (D := concat (dirs (k + 1) argv)) in *.
  assert (Hd1 : fblocks (length d1) ≤ fblocks (length (d1 ++ D))) by (apply fblocks_le; rewrite length_app; lia).
  assert (Hb' : 59 + (fblocks (length (d1 ++ D)) + (blocks fs + (fblocks (length (concat h)) + blocks (file_of <$> hs')))) ≤ 1000).
  { by rewrite blocks_cons, blocks_app, blocks_cons in Hb. }
  pose proof (blocks_nonneg (file_of <$> hs')) as Hnn. pose proof (fblocks_le 0 (length (concat h)) ltac:(lia)) as Hnn2.
  apply wp_bind. eapply (wp_append st1 _ _ 0 T_DIR d e _ G1); [done|fold d1; rewrite (length_app d1) in Hd; lia| |].
  { cbn [insert list_insert app]. fold d1. rewrite blocks_cons, blocks_app, blocks_cons. cbn [snd]. change (fblocks (length [])) with 0.
    change (blocks []) with 0. lia. }
  cbn [insert list_insert app]. fold d1. intros st2 V2 G2.
  apply wp_bind. replace k with (1 + Z.of_nat (S (length fs))) by lia.
  assert (Hl2 : ((T_DIR, d1) :: fs ++ [(T_FILE, [])]) !! S (length fs) = Some (T_FILE, [])).
  { simpl. by rewrite lookup_app_r, Nat.sub_diag by lia. }
  assert (Hins : <[S (length fs) := file_of h]> ((T_DIR, d1) :: fs ++ [(T_FILE, [])]) = (T_DIR, d1) :: fs ++ [file_of h]).
  { change ((T_DIR, d1) :: <[length fs := file_of h]> (fs ++ [(T_FILE, [])]) = (T_DIR, d1) :: fs ++ [file_of h]). f_equal.
    by rewrite insert_app_r_alt, Nat.sub_diag by lia. }
  eapply (wp_copy_loop h st2 V2 _ (S (length fs)) T_FILE [] _ G2 Hl2 H3); rewrite ?app_nil_l; fold (file_of h); rewrite ?Hins; [done| |].
  { rewrite blocks_cons, blocks_app, blocks_cons. change (blocks []) with 0. cbn [snd file_of]. lia. }
  intros st3 V3 G3. assert (Ek : 2 + Z.of_nat (length (fs ++ [file_of h])) = k + 1) by (rewrite length_app; simpl; lia).
  assert (El : (fs ++ [file_of h]) ++ (file_of <$> hs') = fs ++ file_of h :: (file_of <$> hs')) by (by rewrite <- app_assoc).
  apply (IH hs' st3 V3 d1 (fs ++ [file_of h]) Q HF G3); rewrite ?Ek, ?El; try done. rewrite length_app. simpl in *. lia.
Qed.
End files.

(** * The empty image *)

Lemma byte_of_zero i : byte_of (replicate 512 0) i = 0.
Proof. unfold byte_of. destruct (replicate 512 0 !! i) eqn:E; [|done]. by apply lookup_replicate in E as [-> _]. Qed.

Lemma zero_dino V n : V (IBLOCK n sb) = replicate 512 0 → on_disk (dino V n) = no_dinode.
Proof.
  intros E. unfold on_disk, FsCache.dino, get_dinode. rewrite E. cbn [set_i_addrs set_i_size set_i_nlink set_i_minor set_i_major set_i_type
    i_type i_major i_minor i_nlink i_size i_addrs].
  unfold get_addrs, get16. rewrite !get32_zero, !byte_of_zero. unfold no_dinode. repeat f_equal.
  apply list_eq_Forall2, Forall2_fmap_l, Forall2_same_length_lookup. split; [done|].
  intros i x y Hx Hy. apply lookup_replicate in Hy as [-> _]. apply get32_zero.
Qed.

Lemma wp_wipe_loop n : ∀ i st (Q : unit → mk → Prop),
  (∀ k, img st k = replicate 512 0) → 0 ≤ i → i + Z.of_nat n ≤ 1000 → nsect st = i →
  (∀ st', (∀ k, img st' k = replicate 512 0) → nsect st' = i + Z.of_nat n → freeinode st' = freeinode st →
     freeblock st' = freeblock st → Q tt st') → wp (wipe_loop n i) st Q.
Proof.
  induction n as [|n IH]; intros i st Q Hz Hi Hn Hs HQ; cbn [wipe_loop].
  - apply wp_ret, HQ; [done|lia|done|done].
  - unfold wsect. apply wp_bind, wp_modify. rewrite seek_small by lia. apply IH; [|lia|lia|simpl; lia|].
    + intros k. simpl. unfold upd_blk. by case_decide.
    + intros st' H1 H2 H3 H4. apply HQ; [done|lia|done|done].
Qed.

Lemma empty_good st :
  (∀ k, img st k = if decide (k = 1) then put_sb sb (replicate 512 0) else replicate 512 0) → nsect st = 1000 → freeinode st = 1 →
  freeblock st = 59 → good st (upd_blk 58 (mark 59) (img st)) [].
Proof.
  intros Hi Hs H1 H2. assert (Hb : ∀ k, k ≠ 58 → k ≠ 1 → upd_blk 58 (mark 59) (img st) k = replicate 512 0).
  { intros k K1 K2. rewrite upd_blk_ne, Hi, decide_False; done. }
  split; try done.
  - split; [done|lia| | | |].
    + intros k Hk. by rewrite upd_blk_ne.
    + by rewrite upd_blk_eq, H2.
    + intros k. unfold upd_blk. case_decide; [apply mark_length|]. rewrite Hi. case_decide; [|done]. unfold put_sb. by rewrite !put32_length.
    + intros k Hk. apply Hb; lia.
  - simpl. lia.
  - simpl. lia.
  - intros n Hn _. apply zero_dino. pose proof (ib_range n Hn). apply Hb; lia.
  - split; [rewrite upd_blk_ne, Hi by done; by rewrite decide_True|]. intros k K1 K2. apply Hb; lia.
Qed.

(** * The finished image *)

Record image (V : vmap) (argv : list (list Z)) (hs : list (list (list Z))) : Prop := {
  im_length k : length (V k) = 512%nat;
  im_sb : get_sb (V 1) = mkfs_sb;
  im_log : V (sb_logstart sb) = replicate 512 0;
  im_meta : meta_used sb V;
  im_used b : 0 ≤ b → used sb V b ↔ b < 59 + blocks ((T_DIR, concat (ents argv)) :: (file_of <$> hs));
  im_root : live sb V ROOTINO;
  im_tree : tree_ok sb V;
  im_dots : walk sb V false ROOTINO [[46]] = Some ROOTINO ∧ walk sb V false ROOTINO [[46; 46]] = Some ROOTINO;
  im_name i name : argv !! i = Some name → walk sb V false ROOTINO [strip name] = Some (2 + Z.of_nat i);
  im_file i h : hs !! i = Some h → regular sb V (2 + Z.of_nat i) ∧ i_type (dino V (2 + Z.of_nat i)) = T_FILE
    ∧ i_nlink (dino V (2 + Z.of_nat i)) = 1 ∧ fcontents sb V (2 + Z.of_nat i) = concat h;
  im_apart i j : (i ≤ length hs)%nat → (j ≤ length hs)%nat → i ≠ j → apart sb V (1 + Z.of_nat i) (1 + Z.of_nat j)
}.

Lemma concat_lookup (es : list (list Z)) : Forall (λ e, length e = 16%nat) es → ∀ k e j,
  es !! k = Some e → (j < 16)%nat → concat es !! (16 * k + j)%nat = e !! j.
Proof.
  induction 1 as [|x es Hx _ IH]; intros [|k] e j Hk Hj; try done; cbn [concat].
  - injection Hk as ->. rewrite Nat.mul_0_r, Nat.add_0_l. by rewrite lookup_app_l by lia.
  - rewrite lookup_app_r by lia. rewrite <- (IH k e j Hk Hj). f_equal. lia.
Qed.

Lemma ents_16 argv : Forall (λ e, length e = 16%nat) (ents argv).
Proof.
  unfold ents. repeat (apply Forall_cons; split; [apply mk_dirent_length|]). apply Forall_lookup. intros i e.
  rewrite dirs_lookup. destruct (argv !! i); intros [= <-]. apply mk_dirent_length.
Qed.

Lemma ents_length argv : length (ents argv) = (2 + length argv)%nat.
Proof. unfold ents. simpl. by rewrite dirs_length. Qed.

Lemma ents_bytes argv : length (concat (ents argv)) = (16 * (2 + length argv))%nat.
Proof. unfold ents. cbn [concat]. rewrite !length_app, !mk_dirent_length, dirs_bytes. lia. Qed.

(** The name and the number in entry [k]. *)
Definition names (argv : list (list Z)) : list (list Z) := [46] :: [46; 46] :: (strip <$> argv).
Definition numbers (k : nat) : Z := if (k <? 2)%nat then 1 else Z.of_nat k.

Lemma ents_lookup argv k name : names argv !! k = Some name → ents argv !! k = Some (mk_dirent (numbers k) name).
Proof.
  destruct k as [|[|k]]; intros Hk; [by injection Hk as <-..|].
  change (dirs 2 argv !! k = Some (mk_dirent (Z.of_nat (S (S k))) name)). change ((strip <$> argv) !! k = Some name) in Hk.
  rewrite dirs_lookup. rewrite list_lookup_fmap in Hk. destruct (argv !! k); [|done]. injection Hk as <-. simpl. do 3 f_equal. lia.
Qed.

Section final.
Context (st : mk) (V : vmap) (argv : list (list Z)) (hs : list (list (list Z))).
Context (G : good st V ((T_DIR, concat (ents argv)) :: (file_of <$> hs))) (Hlen : length argv = length hs).
Context (Hmod : (length (ents argv) mod 32 ≠ 0)%nat) (Hnd : NoDup (nm <$> names argv)).
Let p := dino V 1.
Let off := (i_size p / BSIZE + 1) * BSIZE.
Let p' := set_i_size off p.
Let V' := upd_view sb p' V.
Let N := length (ents argv).

Let Hroot : holds V 1 T_DIR (concat (ents argv)) := gd_file _ _ _ G 0 _ _ eq_refl.

Lemma final_few : (N ≤ 200)%nat.
Proof using All. pose proof (gd_few _ _ _ G) as H. cbn [length] in H. rewrite length_fmap, <- Hlen in H. unfold N. rewrite ents_length. lia. Qed.

Lemma final_size : i_size p = 16 * Z.of_nat N ∧ off = 512 * (16 * Z.of_nat N / 512 + 1) ∧ 16 * Z.of_nat N < off ≤ 71680 ∧ (16 * Z.of_nat N) mod 512 ≠ 0.
Proof using All.
  pose proof (holds_size _ _ _ _ Hroot) as Hs. fold p in Hs. pose proof final_few.
  rewrite ents_bytes, <- ents_length in Hs. fold N in Hs. unfold off, BSIZE.
  assert (E : i_size p = 16 * Z.of_nat N) by lia. rewrite E.
  assert (Hm : (Z.of_nat N mod 32 ≠ 0)) by (change 32 with (Z.of_nat 32); rewrite <- Nat2Z.inj_mod; fold N in Hmod; lia).
  split_and!; try lia; Z.div_mod_to_equations; lia.
Qed.

Lemma final_dino : on_disk (dino V' 1) = on_disk p'.
Proof using All.
  assert (Hf : inode_fmt p').
  { destruct (re_fmt _ _ _ (ho_regular _ _ _ _ Hroot)). destruct final_size as (_ & _ & Ho & _). split; try done. simpl. unfold is_uint. lia. }
  pose proof (upd_view_synced sb p' V (ir_length _ _ (gd_rep _ _ _ G)) Hf ltac:(simpl; lia)) as E. unfold synced in E. rewrite <- E. done.
Qed.

Lemma final_other n : 0 ≤ n → n ≠ 1 → dino V' n = dino V n.
Proof using All.
  intros H1 H2. apply (upd_view_other sb); [apply (re_fmt _ _ _ (ho_regular _ _ _ _ Hroot))|simpl; lia|done|done].
Qed.

Lemma final_addrs : i_addrs (dino V' 1) = i_addrs p ∧ i_size (dino V' 1) = off ∧ i_type (dino V' 1) = T_DIR ∧ i_nlink (dino V' 1) = 1.
Proof using All.
  pose proof final_dino as E. apply on_disk_eq in E as (-> & _ & _ & -> & -> & ->). destruct Hroot as [_ H1 H2 _ _]. done.
Qed.

Let Hk : 32 < sb_bmapstart sb := eq_refl.

Lemma final_file : file_ok sb V' (dino V' 1).
Proof using All.
  pose proof (ho_regular _ _ _ _ Hroot) as [[F1 F2 F3 F4 F5 F6] _]. destruct final_addrs as (E1 & E2 & E3 & E4).
  destruct final_size as (S1 & S2 & S3 & S4). split; rewrite ?E1, ?E2, ?E3; try done.
  - lia.
  - by apply map_ok_meta.
  - intros j Hj. unfold V', upd_view. rewrite (blk_meta sb) by done. apply F6. fold p. rewrite S1. rewrite S2 in Hj. Z.div_mod_to_equations; lia.
Qed.

(** Below the size of the directory its bytes are those of the entries; behind
    it they are zero. *)
Lemma final_byte i : Z.of_nat i < off → fbyte V' (i_addrs p) i = byte_of (concat (ents argv)) i.
Proof using All.
  intros Hi. destruct final_size as (S1 & S2 & S3 & S4). destruct Hroot as [[F _] _ _ Hc Hx]. fold p in F, Hx.
  assert (Hin : (i / 512 < nblk ∧ i / 512 * 512 < 16 * N)%nat).
  { unfold nblk. pose proof (Nat.div_mod_eq i 512). pose proof (Nat.mod_upper_bound i 512). Z.div_mod_to_equations; lia. }
  assert (Hl : length (concat (ents argv)) = (16 * N)%nat) by (by rewrite ents_bytes, <- ents_length).
  rewrite Hl in Hx. unfold V', upd_view. rewrite (fbyte_meta sb);
    [|simpl; by apply Hk|apply F|lia|apply (ex_blk _ _ _ Hx); lia].
  destruct (decide (i < 16 * N)%nat) as [Hlt|Hge].
  - unfold byte_of. rewrite <- Hc, (fcontents_lookup sb V 1 i); [done|]. fold p. lia.
  - rewrite (ex_tail _ _ _ Hx) by lia. unfold byte_of. by rewrite lookup_ge_None_2 by lia.
Qed.
Lemma names_length : length (names argv) = N.
Proof using Type. clear. unfold N. rewrite ents_length. unfold names. simpl. by rewrite length_fmap. Qed.

Lemma final_entry k name : names argv !! k = Some name → entry V' (i_addrs p) k = mk_dirent (numbers k) name.
Proof using All.
  intros Hn. pose proof (ents_lookup _ _ _ Hn) as He. pose proof (lookup_lt_Some _ _ _ He) as HkN. fold N in HkN.
  destruct final_size as (_ & _ & S3 & _). apply list_eq_same_length with (n := 16%nat); [apply mk_dirent_length|apply entry_length|].
  intros j x y Hj Hx Hy. unfold entry in Hx. rewrite list_lookup_fmap, lookup_seq_lt in Hx by done. apply (inj Some) in Hx as <-.
  rewrite final_byte by lia. unfold byte_of. by rewrite (concat_lookup _ (ents_16 argv) k _ j He Hj), Hy.
Qed.

Lemma final_blank k : (N ≤ k)%nat → 16 * Z.of_nat k + 16 ≤ off → de_inum (entry V' (i_addrs p) k) = 0.
Proof using All.
  intros Hk1 Hk2. assert (Hl : length (concat (ents argv)) = (16 * N)%nat) by (by rewrite ents_bytes, <- ents_length).
  assert (Hz : ∀ j, (j < 16)%nat → byte_of (entry V' (i_addrs p) k) j = 0).
  { intros j Hj. unfold entry. unfold byte_of at 1. rewrite list_lookup_fmap, lookup_seq_lt by done. simpl.
    rewrite final_byte by lia. unfold byte_of. by rewrite lookup_ge_None_2 by lia. }
  unfold de_inum, get16. by rewrite !Hz by lia.
Qed.

Lemma final_number k : (k < N)%nat → 1 ≤ numbers k < 200 ∧ ∀ name, de_inum (mk_dirent (numbers k) name) = numbers k.
Proof using All.
  intros HkN. pose proof final_few. assert (Hr : 1 ≤ numbers k < 200) by (unfold numbers; destruct (Nat.ltb_spec k 2); lia).
  split; [done|]. intros name. rewrite mk_dirent_inum. unfold u16. apply Z.mod_small. lia.
Qed.

Lemma final_nent : Z.of_nat (nent sb V' 1) = off / 16 ∧ off = 16 * Z.of_nat (nent sb V' 1) ∧ (N < nent sb V' 1)%nat.
Proof using All.
  destruct final_size as (_ & S2 & S3 & _). destruct final_addrs as (_ & E2 & _). unfold nent. rewrite E2.
  rewrite Z2Nat.id by (apply Z.div_pos; lia). assert (E : off = 16 * (off / 16)); [rewrite S2; Z.div_mod_to_equations; lia|]. lia.
Qed.

Lemma final_get k name : names argv !! k = Some name → dir_get sb V' 1 name = Some (numbers k).
Proof using All.
  intros Hn. pose proof (lookup_lt_Some _ _ _ Hn) as HkN. rewrite names_length in HkN. destruct (final_number k HkN) as [Hr Hi].
  destruct final_nent as (_ & _ & Hne). destruct final_addrs as (E1 & _). unfold dir_get. rewrite E1.
  assert (E : dir_find V' (i_addrs p) name (nent sb V' 1) 0 = Some (numbers k, k)); [|by rewrite E].
  apply dir_find_Some. rewrite (final_entry k name Hn), Hi, mk_dirent_name. split_and!; try done; try lia.
  intros i Hik. destruct (lookup_lt_is_Some_2 (names argv) i) as [x Hx]; [rewrite names_length; lia|]. right.
  rewrite (final_entry i x Hx), mk_dirent_name. intros E.
  assert (i = k); [|lia]. apply (proj1 (NoDup_alt _) Hnd i k (nm x)); rewrite list_lookup_fmap, ?Hx, ?Hn; simpl; congruence.
Qed.

Lemma final_holds i h : hs !! i = Some h → holds V' (2 + Z.of_nat i) T_FILE (concat h).
Proof using All.
  intros Hi. assert (Hh : holds V (2 + Z.of_nat i) T_FILE (concat h)).
  { replace (2 + Z.of_nat i) with (1 + Z.of_nat (S i)) by lia. apply (gd_file _ _ _ G). simpl. by rewrite list_lookup_fmap, Hi. }
  apply holds_meta; [simpl; pose proof (ib_range 1); lia|done|]. apply final_other; lia.
Qed.

Lemma final_live n : (1 ≤ n ≤ Z.of_nat (S (length hs))) → live sb V' n ∧ (n ≠ 1 → i_type (dino V' n) = T_FILE).
Proof using All.
  intros Hn. pose proof (gd_few _ _ _ G) as Hf. cbn [length] in Hf. rewrite length_fmap in Hf.
  unfold live. rewrite mkfs_ninodes. destruct (decide (n = 1)) as [->|Hne].
  - destruct final_addrs as (_ & _ & E3 & E4). rewrite E3, E4. by split_and!.
  - destruct (lookup_lt_is_Some_2 hs (Z.to_nat (n - 2))) as [h Hh]; [lia|]. apply final_holds in Hh.
    replace (2 + Z.of_nat (Z.to_nat (n - 2))) with n in Hh by lia. destruct Hh as [_ H1 H2 _ _]. rewrite H1, H2. split_and!; done || lia.
Qed.

Lemma final_tree : tree_ok sb V'.
Proof using All.
  intros n [Hn1 [Hn2 Hn3]] Ht. rewrite mkfs_ninodes in Hn1. destruct (decide (n = 1)) as [->|Hne].
  - destruct final_nent as (_ & E & _). destruct final_addrs as (E1 & E2 & E3 & _). split; [split; [apply final_file|done|by rewrite E2]|].
    intros e k. unfold dir_get. rewrite E1. destruct (dir_find _ _ e _ 0) as [[x j]|] eqn:Ef; [|done]. intros [= <-].
    apply dir_find_Some in Ef as (Hj & Hx & -> & _). destruct (decide (j < N)%nat) as [HjN|HjN].
    + destruct (lookup_lt_is_Some_2 (names argv) j) as [y Hy]; [by rewrite names_length|]. destruct (final_number j HjN) as [Hr Hi].
      rewrite (final_entry j y Hy), Hi. apply final_live. unfold numbers, N in *. rewrite ents_length in HjN. destruct (Nat.ltb_spec j 2); lia.
    + destruct Hx. apply final_blank; lia.
  - exfalso. destruct (decide (1 ≤ n ≤ Z.of_nat (S (length hs)))) as [Hl|Hl].
    + destruct (final_live n Hl) as [_ E]. rewrite E in Ht by done. done.
    + rewrite final_other in Hn2 by lia. pose proof (gd_rest _ _ _ G n) as Hz. cbn [length] in Hz. rewrite length_fmap in Hz.
      specialize (Hz Hn1 ltac:(lia)). unfold on_disk, no_dinode in Hz. congruence.
Qed.

Lemma final_image st' : irep st' V' → freeblock st' = freeblock st → image V' argv hs.
Proof using All.
  intros I Hb. pose proof (ib_range 1 ltac:(lia)) as Hib. destruct final_addrs as (_ & _ & E3 & _).
  assert (Hlo : ∀ k, 0 ≤ k < 32 → V' k = V k) by (intros k K; unfold V', upd_view; simpl; by rewrite upd_blk_ne by lia).
  destruct (gd_boot _ _ _ G) as [B1 B2]. assert (Hw : ∀ name x, dir_get sb V' 1 name = Some x → walk sb V' false 1 [name] = Some x).
  { intros name x E. cbn [walk]. rewrite E3. cbn [andb]. by rewrite E. }
  split.
  - apply (ir_length _ _ I).
  - rewrite Hlo, B1 by lia. vm_compute. reflexivity.
  - change (sb_logstart sb) with 2. rewrite Hlo by lia. apply B2; lia.
  - by apply (irep_meta st').
  - intros b Hb0. rewrite (irep_used st' V' b I Hb0), Hb, (gd_count _ _ _ G). done.
  - apply final_live. unfold ROOTINO. lia.
  - apply final_tree.
  - split; apply Hw; [by apply (final_get 0)|by apply (final_get 1)].
  - intros i name Hi. apply Hw. rewrite (final_get (S (S i)) (strip name)).
    + unfold numbers. simpl. f_equal. lia.
    + change ((strip <$> argv) !! i = Some (strip name)). by rewrite list_lookup_fmap, Hi.
  - intros i h Hi. destruct (final_holds i h Hi) as [H1 H2 H3 H4 _]. by split_and!.
  - intros i j Hi Hj Hne. assert (Ho : ∀ k, (k ≤ length hs)%nat → i_addrs (dino V' (1 + Z.of_nat k)) = i_addrs (dino V (1 + Z.of_nat k))
      ∧ regular sb V (1 + Z.of_nat k)).
    { intros k Hkl. split; [destruct k; [apply final_addrs|rewrite final_other; [done|lia|lia]]|].
      destruct (lookup_lt_is_Some_2 ((T_DIR, concat (ents argv)) :: (file_of <$> hs)) k) as [[t c] E]; [cbn [length]; rewrite length_fmap; lia|].
      by apply (gd_file _ _ _ G k t c). }
    destruct (Ho i Hi) as [Ei Ri], (Ho j Hj) as [Ej Rj]. intros b. rewrite Ei, Ej. unfold V', upd_view.
    rewrite !(owned_meta sb) by (apply Hk || apply Ri || apply Rj). apply (gd_apart _ _ _ G); [cbn [length]; rewrite length_fmap; lia..|done].
Qed.
End final.

Section main.
Context (host : list Z → option (list (list Z))) (argv : list (list Z)) (hs : list (list (list Z))).
Context (HF : Forall2 (served host) argv hs) (Hfew : (length argv ≤ 198)%nat) (Hmod : ((2 + length argv) mod 32 ≠ 0)%nat).
Context (Hnd : NoDup (nm <$> names argv)) (Hfit : 59 + blocks ((T_DIR, concat (ents argv)) :: (file_of <$> hs)) ≤ 1000).

(** The end of main. *)
Lemma wp_finish st V (Q : unit → mk → Prop) :
  good st V ((T_DIR, concat (ents argv)) :: (file_of <$> hs)) →
  (∀ st' V', nsect st' = 1000 → (∀ k, img st' k = V' k) → image V' argv hs → Q tt st') →
  wp (din <- rinode 1 ;;
      let off := u32 ((i_size din / BSIZE + 1) * BSIZE) in
      winode 1 (set_i_size off din) ;;; b <- gets freeblock ;; mkfs_balloc b) st Q.
Proof using All.
  intros G HQ. pose proof (Forall2_length _ _ _ HF) as Hlen. rewrite <- ents_length in Hmod. pose proof (gd_rep _ _ _ G) as I.
  destruct (final_size st V argv hs G Hlen Hmod Hnd) as (S1 & S2 & S3 & _). pose proof (ib_range 1 ltac:(lia)) as Hib. pose proof (ir_block _ _ I) as Hfb.
  unfold rinode. apply wp_bind, wp_bind, (wp_rsect st V I); [lia|lia|]. apply wp_ret.
  change (get_dinode _ (V (IBLOCK 1 sb)) _) with (dino V 1). cbv zeta. rewrite u32_small by lia.
  set (p' := set_i_size _ (dino V 1)). unfold winode. apply wp_bind, wp_bind, (wp_rsect st V I); [lia|lia|].
  apply (wp_wsect st V I); [lia|lia|rewrite put_dinode_length; apply (ir_length _ _ I)|]. intros st1 I1 E1 E2.
  assert (Ei : i_inum p' = 1) by reflexivity. assert (I2 : irep st1 (upd_view sb p' V)) by (unfold upd_view; rewrite Ei; exact I1).
  pose proof (final_image st V argv hs G Hlen Hmod Hnd st1 I2 E1) as Him. clear I1. set (V' := upd_view sb p' V) in *. change (image V' argv hs) in Him. clearbody V'.
  apply wp_bind, wp_gets. unfold mkfs_balloc. change (BSIZE * 8) with 4096. rewrite (proj2 (Z.ltb_lt _ _)) by lia. cbn [negb].
  unfold wsect. apply wp_modify. change (sb_bmapstart sb) with 58. rewrite seek_small by lia.
  apply (HQ _ V'); [cbn [nsect set_img]; rewrite (ir_sect _ _ I2); lia| |exact Him].
  intros k. cbn [img set_img]. unfold upd_blk. case_decide as Ek; [subst k; symmetry; apply (ir_bitmap _ _ I2)|symmetry; by apply (ir_img _ _ I2)].
Qed.

Lemma wp_mkfs_main (Q : unit → mk → Prop) :
  (∀ st' V', nsect st' = 1000 → (∀ k, img st' k = V' k) → image V' argv hs → Q tt st') → wp (mkfs_main host argv) mk_init Q.
Proof using All.
  intros HQ. unfold mkfs_main. apply wp_bind, wp_modify. apply wp_bind, wp_wipe_loop; [done|lia|done|done|].
  intros st0 Z0 N0 F0 B0. unfold wsect at 1. apply wp_bind, wp_modify. rewrite seek_small by lia.
  assert (Hd : (2 + length argv ≤ 200)%nat) by lia.
  assert (Hr : ∀ d, (length d ≤ 16 * (2 + length argv))%nat → 59 + blocks [(T_DIR, d)] ≤ 1000).
  { intros d Hl. rewrite <- ents_bytes in Hl. pose proof (fblocks_le _ _ Hl). pose proof (blocks_nonneg (file_of <$> hs)).
    rewrite !blocks_cons in *. change (blocks []) with 0. cbn [snd] in *. lia. }
  eapply wp_bind, (wp_mkfs_ialloc _ _ [] (empty_good _ _ _ _ _)); [simpl; lia|split_and!; [done|done|unfold is_short, T_DIR; lia]|].
  intros st1 G1. change (1 + Z.of_nat (length [])) with 1. change (negb (1 =? ROOTINO)) with false. cbv iota.
  apply wp_bind. eapply (wp_append st1 _ _ 0 T_DIR [] _ _ G1); [done|rewrite app_nil_l, mk_dirent_length; lia|apply Hr; rewrite app_nil_l, mk_dirent_length; lia|].
  rewrite app_nil_l. cbn [app insert list_insert]. intros st2 V2 G2.
  apply wp_bind. eapply (wp_append st2 _ _ 0 T_DIR (mk_dirent 1 [46]) _ _ G2); [done|rewrite length_app, !mk_dirent_length; lia|apply Hr; rewrite length_app, !mk_dirent_length; lia|].
  cbn [insert list_insert]. intros st3 V3 G3.
  assert (Ee : (mk_dirent 1 [46] ++ mk_dirent 1 [46; 46]) ++ concat (dirs (2 + Z.of_nat (length (@nil (Z * list Z)))) argv) = concat (ents argv))
    by (by rewrite <- app_assoc).
  apply wp_bind. eapply (wp_file_loop host argv hs st3 _ _ [] _ HF G3); rewrite ?Ee, ?app_nil_l; [simpl; lia|rewrite ents_bytes; lia|exact Hfit|].
  intros st4 V4 G4. by apply (wp_finish st4 V4).
  Unshelve.
  - intros k. simpl. unfold upd_blk. case_decide; [done|apply Z0].
  - simpl. rewrite N0. done.
  - simpl. by rewrite F0.
  - simpl. by rewrite B0.
Qed.
End main.

(** C12. mkfs returns, and the image holds the given files under their names, each
    with its contents, in a well-formed tree over the layout of the kernel; no
    block belongs to two files, and the bitmap marks exactly the blocks before
    the data area and the number of blocks that the files take.  The files have
    to fit: inodes, blocks, distinct names, and a directory that does not end
    at a block boundary. *)
Theorem mkfs_correct host argv hs :
  Forall2 (served host) argv hs → (length argv ≤ 198)%nat → ((2 + length argv) mod 32 ≠ 0)%nat → NoDup (nm <$> names argv) →
  59 + blocks ((T_DIR, concat (ents argv)) :: (file_of <$> hs)) ≤ 1000 →
  ∃ st V, mkfs_main host argv mk_init = Ret (tt, st) ∧ nsect st = FSSIZE ∧ (∀ k, img st k = V k) ∧ image V argv hs.
Proof.
  intros H1 H2 H3 H4 H5. edestruct (wp_mkfs_main host argv hs H1 H2 H3 H4 H5 (λ _ st, ∃ V, nsect st = FSSIZE ∧ (∀ k, img st k = V k) ∧ image V argv hs))
    as ([] & st & E & V & HV); [intros st V A B C; exists V; exact (conj A (conj B C))|]. exists st, V. exact (conj E HV).
Qed.

Definition ex_host (name : list Z) : option (list (list Z)) := if decide (name = [95; 97]) then Some [[104; 105]; [10]] else None.

Lemma mkfs_correct_witness :
  ∃ st V, mkfs_main ex_host [[95; 97]] mk_init = Ret (tt, st) ∧ nsect st = FSSIZE ∧ (∀ k, img st k = V k) ∧ image V [[95; 97]] [[[104; 105]; [10]]].
Proof.
  apply (mkfs_correct ex_host [[95; 97]] [[[104; 105]; [10]]]).
  - constructor; [|constructor]. split; [reflexivity|]. split; [simpl; intros [?|[?|[]]]; discriminate|]. split; [repeat constructor; discriminate|simpl; lia].
  - simpl. lia.
  - vm_compute. discriminate.
  - apply (bool_decide_unpack _). vm_compute. exact I.
  - vm_compute. discriminate.
Defined.

(** With thirty files the directory is exactly one block, and its size is
    still rounded to the next one, for which there is no block. *)
Example mkfs_root_hole :
  match mkfs_main (λ _, Some []) (replicate 30 [97]) mk_init with
  | Ret (_, st) => i_size (dino (img st) 1) = 1024 ∧ blk (img st) (i_addrs (dino (img st) 1)) 1 = 0
  | _ => False
  end.
Proof. vm_compute. by split. Qed.
