(* ===== verification/Sh.v ===== *)
(** sh.c: the parser of the shell, with the line it reads and the nodes it
    allocates, and runcmd and main, with gets of ulib.c, as the system calls
    they make.

    [panic] prints and exits; in the parser it is the outcome [Panic].  A
    pointer into the line is its index, a pointer to a node its number in the
    order of allocation. *)

From S2P Require Import Prelude Params Cstring Sysfile User.

Definition MAXARGS : nat := 20.

(** struct cmd and its five variants; argv and eargv up to the null pointer. *)
Inductive node : Type :=
| NExec (argv : list (nat * nat))
| NRedir (c : nat) (file efile : nat) (mode fd : Z)
| NPipe (left right : nat)
| NList (left right : nat)
| NBack (c : nat).

(** The line, the parser's position in it ([*ps]), and the nodes. *)
Record sh : Type := MkSh { sbuf : list Z; spos : nat; sheap : list node }.
Definition set_buf (x : list Z) (s : sh) : sh := MkSh x (spos s) (sheap s).
Definition set_pos (x : nat) (s : sh) : sh := MkSh (sbuf s) x (sheap s).
Definition set_heap (x : list node) (s : sh) : sh := MkSh (sbuf s) (spos s) x.

(** malloc, memset and the fields. *)
Definition new_node (n : node) : M sh nat :=
  s <- get ;; put (set_heap (sheap s ++ [n]) s) ;;; ret (length (sheap s)).

Definition execcmd : M sh nat := new_node (NExec []).
Definition redircmd (subcmd file efile : nat) (mode fd : Z) : M sh nat := new_node (NRedir subcmd file efile mode fd).
Definition pipecmd (left right : nat) : M sh nat := new_node (NPipe left right).
Definition listcmd (left right : nat) : M sh nat := new_node (NList left right).
Definition backcmd (subcmd : nat) : M sh nat := new_node (NBack subcmd).

(** * Tokens *)

Definition whitespace : list Z := [32; 9; 13; 10; 11].
Definition symbols : list Z := cs "<|>&;()".

Definition chr (b : list Z) (s : nat) : Z := default 0 (b !! s).
Definition has (l : list Z) (c : Z) : bool := match strchr l c with Some _ => true | None => false end.

(** while(s < es && strchr(whitespace, *s)) s++, with [n] characters to es. *)
Fixpoint skip_loop (n : nat) (b : list Z) (s : nat) : nat :=
  match n with
  | O => s
  | S n' => if has whitespace (chr b s) then skip_loop n' b (S s) else s
  end.
Definition skip (b : list Z) (s es : nat) : nat := skip_loop (es - s) b s.

Fixpoint word_loop (n : nat) (b : list Z) (s : nat) : nat :=
  match n with
  | O => s
  | S n' => if negb (has whitespace (chr b s)) && negb (has symbols (chr b s)) then word_loop n' b (S s) else s
  end.

(** The kind of the token at [s] and its end. *)
Definition scan (b : list Z) (s es : nat) : Z * nat :=
  let c := chr b s in
  if c =? 0 then (0, s)
  else if existsb (Z.eqb c) (cs "|();&<") then (c, S s)
  else if c =? 62 then
    if chr b (S s) =? 62 then (43, S (S s)) else (62, S s)
  else (97, word_loop (es - s) b s).

(** The token, with the bounds that q and eq receive. *)
Definition gettoken (es : nat) : M sh (Z * nat * nat) :=
  st <- get ;;
  let q := skip (sbuf st) (spos st) es in
  let r := scan (sbuf st) q es in
  put (set_pos (skip (sbuf st) r.2 es) st) ;;;
  ret (r.1, q, r.2).

Definition peek (es : nat) (toks : list Z) : M sh bool :=
  st <- get ;;
  let s := skip (sbuf st) (spos st) es in
  put (set_pos s st) ;;;
  ret (negb (chr (sbuf st) s =? 0) && has toks (chr (sbuf st) s)).

(** * The parser *)

Definition O_WRCR : Z := Z.lor O_WRONLY O_CREATE.

Fixpoint parseredirs (fuel : nat) (cmd es : nat) : M sh nat :=
  b <- peek es (cs "<>") ;;
  if b then
    match fuel with
    | O => out_of_fuel
    | S fuel' =>
        tok <- gettoken es ;;
        t <- gettoken es ;;
        if negb (t.1.1 =? 97) then panic "missing file for redirection" else
        cmd <- (if tok.1.1 =? 60 then redircmd cmd t.1.2 t.2 O_RDONLY 0
                else if tok.1.1 =? 62 then redircmd cmd t.1.2 t.2 O_WRCR 1
                else if tok.1.1 =? 43 then redircmd cmd t.1.2 t.2 O_WRCR 1
                else ret cmd) ;;
        parseredirs fuel' cmd es
    end
  else ret cmd.

(** cmd->argv[argc] = q; cmd->eargv[argc] = eq. *)
Definition set_arg (cmd : nat) (q eq : nat) : M sh unit :=
  s <- get ;;
  match sheap s !! cmd with
  | Some (NExec a) => put (set_heap (<[cmd := NExec (a ++ [(q, eq)])]> (sheap s)) s)
  | _ => undef
  end.

(** The loop of parseexec over the words. *)
Fixpoint args_loop (fuel : nat) (cmd ret_ : nat) (argc : nat) (es : nat) : M sh nat :=
  b <- peek es (cs "|)&;") ;;
  if b then ret ret_ else
  match fuel with
  | O => out_of_fuel
  | S fuel' =>
      t <- gettoken es ;;
      if t.1.1 =? 0 then ret ret_ else
      if negb (t.1.1 =? 97) then panic "syntax" else
      set_arg cmd t.1.2 t.2 ;;;
      if (MAXARGS <=? S argc)%nat then panic "too many args" else
      ret_ <- parseredirs fuel' ret_ es ;;
      args_loop fuel' cmd ret_ (S argc) es
  end.

(** while(peek(ps, es, "&")) of parseline. *)
Fixpoint backs_loop (fuel : nat) (cmd es : nat) : M sh nat :=
  b <- peek es (cs "&") ;;
  if b then
    match fuel with
    | O => out_of_fuel
    | S fuel' => gettoken es ;;; cmd <- backcmd cmd ;; backs_loop fuel' cmd es
    end
  else ret cmd.

Fixpoint parseline (fuel : nat) (es : nat) : M sh nat :=
  match fuel with
  | O => out_of_fuel
  | S fuel' =>
      cmd <- parsepipe fuel' es ;;
      cmd <- backs_loop fuel' cmd es ;;
      b <- peek es (cs ";") ;;
      if b then gettoken es ;;; r <- parseline fuel' es ;; listcmd cmd r else ret cmd
  end
with parsepipe (fuel : nat) (es : nat) : M sh nat :=
  match fuel with
  | O => out_of_fuel
  | S fuel' =>
      cmd <- parseexec fuel' es ;;
      b <- peek es (cs "|") ;;
      if b then gettoken es ;;; r <- parsepipe fuel' es ;; pipecmd cmd r else ret cmd
  end
with parseexec (fuel : nat) (es : nat) : M sh nat :=
  match fuel with
  | O => out_of_fuel
  | S fuel' =>
      b <- peek es (cs "(") ;;
      if b then parseblock fuel' es
      else
        cmd <- execcmd ;;
        r <- parseredirs fuel' cmd es ;;
        args_loop fuel' cmd r 0 es
  end
with parseblock (fuel : nat) (es : nat) : M sh nat :=
  match fuel with
  | O => out_of_fuel
  | S fuel' =>
      b <- peek es (cs "(") ;;
      if negb b then panic "parseblock" else
      gettoken es ;;;
      cmd <- parseline fuel' es ;;
      b <- peek es (cs ")") ;;
      if negb b then panic "syntax - missing )" else
      gettoken es ;;;
      parseredirs fuel' cmd es
  end.

(** *p = 0 *)
Definition put_nul (p : nat) : M sh unit :=
  s <- get ;;
  if (p <? length (sbuf s))%nat then put (set_buf (<[p := 0]> (sbuf s)) s) else undef.

Fixpoint nul_args (a : list (nat * nat)) : M sh unit :=
  match a with [] => ret tt | (_, e) :: a' => put_nul e ;;; nul_args a' end.

(** The nodes below a node come before it, so its number bounds the depth. *)
Fixpoint nulterminate (fuel : nat) (cmd : nat) : M sh unit :=
  match fuel with
  | O => out_of_fuel
  | S fuel' =>
      s <- get ;;
      n <- of_option (sheap s !! cmd) ;;
      match n with
      | NExec a => nul_args a
      | NRedir c _ e _ _ => nulterminate fuel' c ;;; put_nul e
      | NPipe l r => nulterminate fuel' l ;;; nulterminate fuel' r
      | NList l r => nulterminate fuel' l ;;; nulterminate fuel' r
      | NBack c => nulterminate fuel' c
      end
  end.

(** Four levels for every character of the line. *)
Definition parse_fuel (es : nat) : nat := 4 * es + 4.

(** The string of some bytes, for a message. *)
Fixpoint bytes_string (l : list Z) : string :=
  match l with
  | [] => EmptyString
  | c :: l' => String (Ascii.ascii_of_nat (Z.to_nat c)) (bytes_string l')
  end.

(** The C string at [q]. *)
Definition str_at (b : list Z) (q : nat) : list Z := upto_nul (drop q b).

(** printf(2, "leftovers: %s\n", s) and the message of panic together. *)
Definition leftovers (rest : list Z) : string := bytes_string (cs "leftovers: " ++ rest ++ [10] ++ cs "syntax").

Definition parsecmd : M sh nat :=
  st <- get ;;
  let es := length (upto_nul (sbuf st)) in
  cmd <- parseline (parse_fuel es) es ;;
  peek es [] ;;;
  s <- gets spos ;;
  b <- gets sbuf ;;
  if negb (s =? es)%nat then panic (leftovers (str_at b s)) else
  nulterminate (S cmd) cmd ;;;
  ret cmd.

(** The shell's line, before it is parsed. *)
Definition sh_init (line : list Z) : sh := MkSh line 0 [].

(** * runcmd *)

(** A command as runcmd sees it: the nodes, with the strings they point to. *)
Inductive cmd : Type :=
| Exec (argv : list (list Z))
| Redir (c : cmd) (file : list Z) (mode fd : Z)
| Pipe (left right : cmd)
| List (left right : cmd)
| Back (c : cmd).

(** The command at a node. *)
Fixpoint load (fuel : nat) (h : list node) (b : list Z) (p : nat) : option cmd :=
  match fuel with
  | O => None
  | S fuel' =>
      match h !! p with
      | Some (NExec a) => Some (Exec ((λ x, str_at b x.1) <$> a))
      | Some (NRedir c f _ mode fd) => c ← load fuel' h b c; Some (Redir c (str_at b f) mode fd)
      | Some (NPipe l r) => l ← load fuel' h b l; r ← load fuel' h b r; Some (Pipe l r)
      | Some (NList l r) => l ← load fuel' h b l; r ← load fuel' h b r; Some (List l r)
      | Some (NBack c) => c ← load fuel' h b c; Some (Back c)
      | None => None
      end
  end.

(** The system calls of a process, with what it does with their results. *)
Inductive act : Type :=
| AExit
| AExec (argv : list (list Z)) (k : act)        (* goes on only if exec fails *)
| AOpen (file : list Z) (mode : Z) (k : Z → act)
| AClose (fd : Z) (k : act)
| ADup (fd : Z) (k : act)
| APipe (k : option (Z * Z) → act)
| AFork (k : Z → act)
| AWait (k : act)
| AChdir (dir : list Z) (k : Z → act)
| ARead (k : option Z → act)                    (* read(0, &c, 1); none when it returns less than 1 *)
| APrint (s : list Z) (k : act)                 (* on descriptor 2 *)
| AStuck.                                       (* the turns of a loop have run out *)

Definition sh_panic (s : list Z) : act := APrint (s ++ [10]) AExit.
Definition fork1 (k : Z → act) : act := AFork (λ pid, if pid =? -1 then sh_panic (cs "fork") else k pid).

Fixpoint runcmd (c : cmd) : act :=
  match c with
  | Exec [] => AExit
  | Exec (a :: argv) => AExec (a :: argv) (APrint (cs "exec " ++ a ++ cs " failed" ++ [10]) AExit)
  | Redir c file mode fd =>
      AClose fd (AOpen file mode (λ r,
        if r <? 0 then APrint (cs "open " ++ file ++ cs " failed" ++ [10]) AExit else runcmd c))
  | List l r => fork1 (λ pid, if pid =? 0 then runcmd l else AWait (runcmd r))
  | Pipe l r =>
      APipe (λ p, match p with
        | None => sh_panic (cs "pipe")
        | Some (p0, p1) =>
            fork1 (λ pid, if pid =? 0 then AClose 1 (ADup p1 (AClose p0 (AClose p1 (runcmd l)))) else
            fork1 (λ pid, if pid =? 0 then AClose 0 (ADup p0 (AClose p0 (AClose p1 (runcmd r)))) else
            AClose p0 (AClose p1 (AWait (AWait AExit)))))
        end)
  | Back c => fork1 (λ pid, if pid =? 0 then runcmd c else AExit)
  end.

(** * getcmd *)

(** for(i=0; i+1 < max; ) of gets, [n] turns from the end; [l] is in buf. *)
Fixpoint gets_loop (n : nat) (l : list Z) (k : list Z → act) : act :=
  match n with
  | O => k l
  | S n' =>
      ARead (λ r, match r with
        | None => k l
        | Some c => if (c =? 10) || (c =? 13) then k (l ++ [c]) else gets_loop n' (l ++ [c]) k
        end)
  end.
Definition ugets (max : nat) (k : list Z → act) : act := gets_loop (max - 1) [] k.

(** buf after memset and gets: the line and zeros. *)
Definition line_buf (nbuf : nat) (line : list Z) : list Z := line ++ replicate (nbuf - length line) 0.

(** What getcmd returns, with buf. *)
Definition getcmd (nbuf : nat) (k : Z → list Z → act) : act :=
  APrint (cs "$ ") (ugets nbuf (λ line,
    let buf := line_buf nbuf line in
    if chr buf 0 =? 0 then k (-1) buf else k 0 buf)).

(** * main *)

(** What the child does with a line; a panic of the parser prints its
    message. *)
Definition run_line (buf : list Z) : act :=
  match parsecmd (sh_init buf) with
  | Ret (p, st) => match load (S p) (sheap st) (sbuf st) p with Some c => runcmd c | None => AStuck end
  | Panic msg => sh_panic (cs msg)
  | _ => AStuck
  end.

Definition is_cd (buf : list Z) : bool := (chr buf 0 =? 99) && (chr buf 1 =? 100) && (chr buf 2 =? 32).

(** buf[strlen(buf)-1] = 0 *)
Definition chop (buf : list Z) : list Z := <[(length (upto_nul buf) - 1)%nat := 0]> buf.

(** while(getcmd(buf, sizeof(buf)) >= 0), at most [n] turns. *)
Fixpoint main_loop (n : nat) : act :=
  match n with
  | O => AStuck
  | S n' =>
      getcmd 100 (λ r buf,
        if 0 <=? r then
          if is_cd buf then
            let buf := chop buf in
            AChdir (str_at buf 3) (λ r,
              if r <? 0 then APrint (cs "cannot cd " ++ str_at buf 3 ++ [10]) (main_loop n') else main_loop n')
          else fork1 (λ pid, if pid =? 0 then run_line buf else AWait (main_loop n'))
        else AExit)
  end.

(** while((fd = open("console", O_RDWR)) >= 0) *)
Fixpoint open_console (n : nat) (k : act) : act :=
  match n with
  | O => AStuck
  | S n' => AOpen (cs "console") O_RDWR (λ fd, if 0 <=? fd then if 3 <=? fd then AClose fd k else open_console n' k else k)
  end.

(** Each turn of the first loop takes the lowest free descriptor, so four are
    enough for it; each turn of the second takes a byte of the input, and [n]
    is to be larger than their number. *)
Definition sh_main (n : nat) : act := open_console 4 (main_loop n).
