(* ===== verification/ShLex.v ===== *)
(** The tokens of a line, and gettoken and peek of sh.c against them. *)

From S2P Require Import Prelude Params Cstring Sysfile User Sh.

Inductive tok : Type :=
| Word (w : list Z)
| Sym (c : Z).                (* '+' stands for >> *)

Definition wordc (c : Z) : bool := negb (has whitespace c) && negb (has symbols c).

Fixpoint take_word (s : list Z) : list Z :=
  match s with c :: s' => if wordc c then c :: take_word s' else [] | [] => [] end.
Fixpoint drop_word (s : list Z) : list Z :=
  match s with c :: s' => if wordc c then drop_word s' else s | [] => [] end.
Fixpoint drop_ws (s : list Z) : list Z :=
  match s with c :: s' => if has whitespace c then drop_ws s' else s | [] => [] end.

Fixpoint lex_go (n : nat) (s : list Z) : list tok :=
  match n with
  | O => []
  | S n' =>
      match drop_ws s with
      | [] => []
      | c :: r =>
          if has symbols c then
            match r with
            | d :: r' => if (c =? 62) && (d =? 62) then Sym 43 :: lex_go n' r' else Sym c :: lex_go n' r
            | [] => [Sym c]
            end
          else Word (take_word (c :: r)) :: lex_go n' (drop_word (c :: r))
      end
  end.
Definition lex (s : list Z) : list tok := lex_go (length s) s.

Lemma has_existsb l c : Forall (λ x, x ≠ 0) l → has l c = existsb (Z.eqb c) l.
Proof.
  unfold has. induction 1 as [|x l Hx _ IH]; [done|]. cbn [strchr existsb]. rewrite (proj2 (Z.eqb_neq _ _) Hx), <- IH, (Z.eqb_sym c x).
  destruct (x =? c); [done|]. by destruct (strchr l c).
Qed.

(** The cases of gettoken's switch. *)
Lemma has_symbols c : has symbols c = existsb (Z.eqb c) (cs "|();&<") || (c =? 62).
Proof.
  rewrite has_existsb by (repeat constructor; done). change symbols with [60; 124; 62; 38; 59; 40; 41]. change (cs "|();&<") with [124; 40; 41; 59; 38; 60]. cbn [existsb]. rewrite !orb_false_r.
  destruct (c =? 60), (c =? 124), (c =? 62), (c =? 38), (c =? 59), (c =? 40), (c =? 41); done.
Qed.

Lemma take_drop_word s : take_word s ++ drop_word s = s.
Proof. induction s as [|c s IH]; simpl; [done|]. destruct (wordc c); [|done]. simpl. by rewrite IH. Qed.

Lemma take_word_ok s : Forall (λ c, wordc c = true) (take_word s).
Proof. induction s as [|c s IH]; simpl; [constructor|]. destruct (wordc c) eqn:E; constructor; done. Qed.

Lemma drop_word_head s : drop_word s = [] ∨ ∃ c r, drop_word s = c :: r ∧ wordc c = false.
Proof. induction s as [|c s IH]; simpl; [by left|]. destruct (wordc c) eqn:E; [done|]. right. eauto. Qed.

Lemma drop_ws_length s : (length (drop_ws s) ≤ length s)%nat.
Proof. induction s as [|c s IH]; simpl; [done|]. destruct (has whitespace c); simpl in *; lia. Qed.

Lemma drop_ws_head s : drop_ws s = [] ∨ ∃ c r, drop_ws s = c :: r ∧ has whitespace c = false.
Proof. induction s as [|c s IH]; simpl; [by left|]. destruct (has whitespace c) eqn:E; [done|]. right. eauto. Qed.

Lemma drop_ws_idem s : drop_ws (drop_ws s) = drop_ws s.
Proof. destruct (drop_ws_head s) as [->|(c & r & -> & E)]; [done|]. simpl. by rewrite E. Qed.

Lemma drop_word_length s : (length (drop_word s) ≤ length s)%nat.
Proof. rewrite <- (take_drop_word s) at 2. rewrite length_app. lia. Qed.

Lemma drop_ws_cons s c r : drop_ws s = c :: r → has whitespace c = false.
Proof. destruct (drop_ws_head s) as [->|(c' & r' & -> & E)]; [done|]. by intros [= <- <-]. Qed.

(** What is left of a line after a word. *)
Lemma drop_word_less c r : has whitespace c = false → has symbols c = false → drop_word (c :: r) = drop_word r.
Proof. intros H1 H2. simpl. unfold wordc. by rewrite H1, H2. Qed.

Lemma lex_go_more n : ∀ m s, (length s ≤ n)%nat → (length s ≤ m)%nat → lex_go n s = lex_go m s.
Proof.
  induction n as [|n IH]; intros m s Hn Hm.
  { destruct s; [|simpl in Hn; lia]. by destruct m. }
  pose proof (drop_ws_length s) as Hl. destruct m as [|m]; [destruct s; [done|simpl in Hm; lia]|]. cbn [lex_go].
  destruct (drop_ws s) as [|c r] eqn:Ed; [done|]. simpl in Hl. destruct (has symbols c) eqn:Es.
  - destruct r as [|d r']; [done|]. simpl in Hl. destruct ((c =? 62) && (d =? 62)); f_equal; apply IH; simpl; lia.
  - f_equal. rewrite drop_word_less by (done || by eapply drop_ws_cons). pose proof (drop_word_length r). apply IH; lia.
Qed.

Lemma lex_go_lex n s : (length s ≤ n)%nat → lex_go n s = lex s.
Proof. intros. by apply lex_go_more. Qed.

Lemma lex_unfold s : lex s =
  match drop_ws s with
  | [] => []
  | c :: r =>
      if has symbols c then
        match r with
        | d :: r' => if (c =? 62) && (d =? 62) then Sym 43 :: lex r' else Sym c :: lex r
        | [] => [Sym c]
        end
      else Word (take_word (c :: r)) :: lex (drop_word (c :: r))
  end.
Proof.
  unfold lex at 1. pose proof (drop_ws_length s) as Hl. destruct (length s) as [|n] eqn:En.
  { destruct s; [done|simpl in En; lia]. }
  cbn [lex_go]. destruct (drop_ws s) as [|c r] eqn:Ed; [done|]. simpl in Hl. destruct (has symbols c) eqn:Es.
  - destruct r as [|d r']; [done|]. simpl in Hl. rewrite !lex_go_lex by (simpl; lia). done.
  - rewrite drop_word_less by (done || by eapply drop_ws_cons). pose proof (drop_word_length r). rewrite lex_go_lex by lia. done.
Qed.

Lemma lex_drop_ws s : lex (drop_ws s) = lex s.
Proof. rewrite (lex_unfold s), (lex_unfold (drop_ws s)). by rewrite drop_ws_idem. Qed.

Definition valid (t : tok) : Prop := match t with Sym c => has symbols c = true ∨ c = 43 | Word _ => True end.

Lemma lex_valid s : Forall valid (lex s).
Proof.
  unfold lex. generalize (length s) as n. intros n. revert s. induction n as [|n IH]; intros s; cbn [lex_go]; [constructor|].
  destruct (drop_ws s) as [|c r]; [constructor|]. destruct (has symbols c) eqn:E; [|constructor; done].
  destruct r as [|d r']; [repeat constructor; done|]. destruct ((c =? 62) && (d =? 62)); constructor; try done; [by right|by left].
Qed.

(** * Positions in a line *)

Section line.
Context (line pad : list Z) (Hnz : Forall (λ c, c ≠ 0) line).
Let b := line ++ 0 :: pad.
Let es := length line.

(** The bytes [w] from [q] to [e] are a word of the line. *)
Record span (q e : nat) (w : list Z) : Prop := {
  sp_text : line = take q line ++ w ++ drop e line;
  sp_end : e = (q + length w)%nat;
  sp_len : (e ≤ es)%nat;
  sp_word : Forall (λ c, wordc c = true) w;
  sp_stop : e = es ∨ ∃ c, line !! e = Some c ∧ wordc c = false
}.

Lemma chr_line i : (i ≤ es)%nat → chr b i = hd 0 (drop i line).
Proof using Type.
  intros Hi. unfold chr, b. destruct (decide (i = es)) as [->|].
  - rewrite lookup_app_r, Nat.sub_diag by done. rewrite drop_ge by done. done.
  - rewrite lookup_app_l by (unfold es in *; lia). destruct (lookup_lt_is_Some_2 line i) as [x Hx]; [unfold es in *; lia|].
    by rewrite (drop_S _ _ _ Hx), Hx.
Qed.

Lemma skip_loop_spec n : ∀ s, (s + n = es)%nat →
  (s ≤ skip_loop n b s ≤ es)%nat ∧ drop (skip_loop n b s) line = drop_ws (drop s line).
Proof using Type.
  induction n as [|n IH]; intros s Hs; cbn [skip_loop].
  - split; [lia|]. rewrite drop_ge by (unfold es in *; lia). done.
  - rewrite chr_line by lia. destruct (lookup_lt_is_Some_2 line s) as [x Hx]; [unfold es in *; lia|].
    rewrite (drop_S _ _ _ Hx). cbn [hd drop_ws]. destruct (has whitespace x) eqn:E.
    + destruct (IH (S s)) as [H1 H2]; [lia|]. split; [lia|done].
    + split; [lia|]. by rewrite (drop_S _ _ _ Hx).
Qed.

Lemma skip_spec s : (s ≤ es)%nat → (s ≤ skip b s es ≤ es)%nat ∧ drop (skip b s es) line = drop_ws (drop s line).
Proof using Type. intros Hs. apply skip_loop_spec. lia. Qed.

Lemma word_loop_spec n : ∀ s, (s + n = es)%nat →
  word_loop n b s = (s + length (take_word (drop s line)))%nat ∧ (word_loop n b s ≤ es)%nat
  ∧ drop (word_loop n b s) line = drop_word (drop s line).
Proof using Type.
  induction n as [|n IH]; intros s Hs; cbn [word_loop].
  - rewrite drop_ge by (unfold es in *; lia). simpl. split_and!; [lia|lia|done].
  - rewrite chr_line by lia. destruct (lookup_lt_is_Some_2 line s) as [x Hx]; [unfold es in *; lia|].
    rewrite (drop_S _ _ _ Hx). cbn [hd take_word drop_word]. change (negb _ && negb _) with (wordc x). destruct (wordc x) eqn:E.
    + destruct (IH (S s)) as (H1 & H2 & H3); [lia|]. simpl. split_and!; [lia|lia|done].
    + simpl. split_and!; [lia|lia|]. by rewrite (drop_S _ _ _ Hx).
Qed.

(** * gettoken and peek *)

(** The shell is at the tokens [ts] of the line. *)
Record at_ (st : sh) (ts : list tok) : Prop := {
  at_buf : sbuf st = b;
  at_pos : (spos st ≤ es)%nat;
  at_lex : lex (drop (spos st) line) = ts
}.

Definition got_tok (ts : list tok) (r : Z) (q e : nat) : Prop :=
  match ts with [] => r = 0 | Sym c :: _ => r = c | Word w :: _ => r = 97 ∧ span q e w end.

(** The scan of one token, from a position that is not white space. *)
Lemma scan_spec q : (q ≤ es)%nat → drop_ws (drop q line) = drop q line →
  let r := scan b q es in
  got_tok (lex (drop q line)) r.1 q r.2 ∧ (r.2 ≤ es)%nat ∧ lex (drop r.2 line) = tail (lex (drop q line)).
Proof using Hnz.
  intros Hq Hws. unfold scan. rewrite (chr_line q Hq). rewrite lex_unfold, Hws.
  destruct (drop q line) as [|c r] eqn:Ed; [simpl; by rewrite Ed|].
  assert (Hlt : (q < es)%nat).
  { destruct (decide (q < es)%nat); [done|]. rewrite drop_ge in Ed by (unfold es in *; lia). done. }
  destruct (lookup_lt_is_Some_2 line q) as [x Hx]; [done|]. rewrite (drop_S _ _ _ Hx) in Ed. injection Ed as -> Er.
  assert (Hc0 : c ≠ 0) by (by apply (proj1 (Forall_lookup _ _) Hnz q)). cbn [hd]. rewrite (proj2 (Z.eqb_neq _ _) Hc0).
  destruct (has symbols c) eqn:Es.
  - assert (Hd2 : ∀ d r', r = d :: r' → drop (S (S q)) line = r' ∧ (S (S q) ≤ es)%nat).
    { intros d r' ->. assert (S q < es)%nat.
      { destruct (decide (S q < es)%nat); [done|]. rewrite drop_ge in Er by (unfold es in *; lia). done. }
      destruct (lookup_lt_is_Some_2 line (S q)) as [y Hy]; [done|]. rewrite (drop_S _ _ _ Hy) in Er. by injection Er as -> ->. }
    destruct (Z.eqb_spec c 62) as [->|Hne].
    + change (existsb (Z.eqb 62) (cs "|();&<")) with false. cbv iota. rewrite (chr_line (S q)) by lia. rewrite Er.
      destruct r as [|d r']; [cbn; rewrite Er; split_and!; [done|lia|done]|]. cbn [hd]. destruct (Hd2 d r' eq_refl) as [E2 ?].
      destruct (d =? 62); cbn; rewrite ?E2, ?Er; split_and!; try done; lia.
    + rewrite has_symbols, (proj2 (Z.eqb_neq _ _) Hne), orb_false_r in Es. rewrite Es.
      cbn [fst snd]. rewrite Er. destruct r as [|d r']; (split_and!; [done|lia|done]).
  - rewrite has_symbols in Es. apply orb_false_iff in Es as [Es1 Es2]. rewrite Es1, Es2. cbn [fst snd tail got_tok].
    destruct (word_loop_spec (es - q) q) as (W1 & W2 & W3); [lia|]. rewrite (drop_S _ _ _ Hx), Er in W1, W3.
    split_and!; [done| |done|by rewrite W3]. split; try done.
    + rewrite W3, take_drop_word, <- Er, <- (drop_S _ _ _ Hx). symmetry. apply take_drop.
    + apply take_word_ok.
    + destruct (drop_word_head (c :: r)) as [E|(d & r' & E & Ew)]; rewrite E in W3.
      * left. apply (f_equal length) in W3. rewrite length_drop in W3. simpl in W3. unfold es in *. lia.
      * right. exists d. split; [|done]. rewrite <- (Nat.add_0_r (word_loop _ _ _)), <- lookup_drop, W3. done.
Qed.

Lemma gettoken_spec st ts : at_ st ts →
  ∃ r q e st', gettoken es st = Ret ((r, q, e), st') ∧ sheap st' = sheap st ∧ at_ st' (tail ts) ∧ got_tok ts r q e.
Proof using Hnz.
  intros [A1 A2 A3]. destruct (skip_spec (spos st) A2) as [S1 S2]. set (q := skip b (spos st) es) in *.
  assert (Elx : lex (drop q line) = ts) by (by rewrite S2, lex_drop_ws).
  destruct (scan_spec q) as (H1 & H2 & H3); [lia|rewrite S2; apply drop_ws_idem|].
  destruct (skip_spec (scan b q es).2 H2) as [S3 S4]. rewrite Elx in H1, H3.
  exists (scan b q es).1, q, (scan b q es).2, (set_pos (skip b (scan b q es).2 es) st).
  split; [unfold gettoken, bind, get, put, ret; rewrite A1; done|]. split; [done|]. split; [|done].
  split; [done|simpl; lia|]. simpl. by rewrite S4, lex_drop_ws.
Qed.

(** The character that peek compares. *)
Definition first (t : tok) : Z := match t with Word _ => 97 | Sym c => if c =? 43 then 62 else c end.
Definition sees (toks : list Z) (ts : list tok) : bool := match ts with t :: _ => has toks (first t) | [] => false end.

Lemma peek_spec st ts toks : at_ st ts → Forall (λ c, c ≠ 0 ∧ has symbols c = true) toks →
  ∃ st', peek es toks st = Ret (sees toks ts, st') ∧ sheap st' = sheap st ∧ at_ st' ts ∧ (spos st' = es ↔ ts = []).
Proof using Hnz.
  intros [A1 A2 A3] Ht. destruct (skip_spec (spos st) A2) as [S1 S2]. set (q := skip b (spos st) es) in *.
  assert (Elx : lex (drop q line) = ts) by (by rewrite S2, lex_drop_ws). exists (set_pos q st).
  assert (Hin : ∀ c, has toks c = existsb (Z.eqb c) toks) by (intros c; apply has_existsb; eapply Forall_impl; [exact Ht|tauto]).
  assert (Hws : drop_ws (drop q line) = drop q line) by (rewrite S2; apply drop_ws_idem).
  assert (Hq : q = es ↔ drop q line = []).
  { split; [intros ->; by apply drop_ge|]. intros E. apply (f_equal length) in E. rewrite length_drop in E. simpl in E. unfold es in *. lia. }
  split; [|split_and!; [done|split; [done|simpl; lia|done]|simpl; rewrite Hq, <- Elx, lex_unfold, Hws; destruct (drop q line) as [|c r]; [done|];
    split; [done|]; destruct (has symbols c); [destruct r as [|d r']; [done|by destruct ((c =? 62) && (d =? 62))]|done]]].
  unfold peek, bind, get, put, ret. rewrite A1. fold q. do 2 f_equal. rewrite (chr_line q) by lia. rewrite <- Elx, lex_unfold, Hws.
  destruct (drop q line) as [|c r] eqn:Ed; [done|]. cbn [hd sees].
  assert (Hc0 : c ≠ 0).
  { destruct (lookup_lt_is_Some_2 line q) as [x Hx]; [destruct (decide (q < length line)%nat); [done|rewrite drop_ge in Ed; [done|lia]]|].
    rewrite (drop_S _ _ _ Hx) in Ed. injection Ed as -> _. by apply (proj1 (Forall_lookup _ _) Hnz q). }
  rewrite (proj2 (Z.eqb_neq _ _) Hc0). cbn [negb andb]. destruct (has symbols c) eqn:Es.
  - destruct r as [|d r']; cbn; [|destruct (Z.eqb_spec c 62) as [->|]; [destruct (d =? 62); done|cbn]].
    all: destruct (Z.eqb_spec c 43) as [->|]; [done|done].
  - cbn [sees first]. rewrite !Hin. transitivity false.
    + apply not_true_is_false. intros (x & Hx & ->%Z.eqb_eq)%existsb_exists.
      pose proof (proj1 (Forall_forall _ _) Ht x) as Hf. rewrite list_elem_of_In in Hf. destruct (Hf Hx). congruence.
    + symmetry. apply not_true_is_false. intros (x & Hx & <-%Z.eqb_eq)%existsb_exists.
      pose proof (proj1 (Forall_forall _ _) Ht 97) as Hf. rewrite list_elem_of_In in Hf. destruct (Hf Hx). done.
Qed.
End line.
