(* ===== verification/ShParse.v ===== *)
(** The parser of sh.c over its line and nodes does what a parser over the
    list of tokens does. *)

From S2P Require Import Prelude Params Cstring Sysfile User Sh ShLex.

(** * The parser on tokens *)

(** The file, the mode and the descriptor of a redirection. *)
Definition redir : Type := list Z * Z * Z.
Definition wrap (rs : list redir) (c : cmd) : cmd := foldl (λ c r, Redir c r.1.1 r.1.2 r.2) c rs.
Definition redir_of (t : option tok) (w : list Z) : redir :=
  match t with Some (Sym c) => if c =? 60 then (w, O_RDONLY, 0) else (w, O_WRCR, 1) | _ => (w, O_WRCR, 1) end.

Definition t_peek (toks : list Z) : M (list tok) bool := ts <- get ;; ret (sees toks ts).
Definition t_next : M (list tok) (option tok) := ts <- get ;; put (tail ts) ;;; ret (head ts).

Fixpoint t_redirs (fuel : nat) (rs : list redir) : M (list tok) (list redir) :=
  b <- t_peek (cs "<>") ;;
  if b then
    match fuel with
    | O => out_of_fuel
    | S f =>
        t <- t_next ;;
        w <- t_next ;;
        match w with
        | Some (Word w) => t_redirs f (rs ++ [redir_of t w])
        | _ => panic "missing file for redirection"
        end
    end
  else ret rs.

Fixpoint t_args (fuel : nat) (argv : list (list Z)) (rs : list redir) : M (list tok) (list (list Z) * list redir) :=
  b <- t_peek (cs "|)&;") ;;
  if b then ret (argv, rs) else
  match fuel with
  | O => out_of_fuel
  | S f =>
      t <- t_next ;;
      match t with
      | None => ret (argv, rs)
      | Some (Sym _) => panic "syntax"
      | Some (Word w) =>
          if (MAXARGS <=? S (length argv))%nat then panic "too many args" else
          rs <- t_redirs f rs ;;
          t_args f (argv ++ [w]) rs
      end
  end.

Fixpoint t_backs (fuel : nat) (c : cmd) : M (list tok) cmd :=
  b <- t_peek (cs "&") ;;
  if b then
    match fuel with
    | O => out_of_fuel
    | S f => t_next ;;; t_backs f (Back c)
    end
  else ret c.

Fixpoint t_line (fuel : nat) : M (list tok) cmd :=
  match fuel with
  | O => out_of_fuel
  | S f =>
      c <- t_pipe f ;;
      c <- t_backs f c ;;
      b <- t_peek (cs ";") ;;
      if b then t_next ;;; r <- t_line f ;; ret (List c r) else ret c
  end
with t_pipe (fuel : nat) : M (list tok) cmd :=
  match fuel with
  | O => out_of_fuel
  | S f =>
      c <- t_exec f ;;
      b <- t_peek (cs "|") ;;
      if b then t_next ;;; r <- t_pipe f ;; ret (Pipe c r) else ret c
  end
with t_exec (fuel : nat) : M (list tok) cmd :=
  match fuel with
  | O => out_of_fuel
  | S f =>
      b <- t_peek (cs "(") ;;
      if b then t_block f
      else
        rs <- t_redirs f [] ;;
        r <- t_args f [] rs ;;
        ret (wrap r.2 (Exec r.1))
  end
with t_block (fuel : nat) : M (list tok) cmd :=
  match fuel with
  | O => out_of_fuel
  | S f =>
      b <- t_peek (cs "(") ;;
      if negb b then panic "parseblock" else
      t_next ;;;
      c <- t_line f ;;
      b <- t_peek (cs ")") ;;
      if negb b then panic "syntax - missing )" else
      t_next ;;;
      rs <- t_redirs f [] ;;
      ret (wrap rs c)
  end.

(** * The simulation *)

(** Both end in the same way, and related if they return. *)
Definition sim {A B} (R : A → sh → B → list tok → Prop) (o : outcome (A * sh)) (o' : outcome (B * list tok)) : Prop :=
  match o, o' with
  | Ret (a, st), Ret (b, ts) => R a st b ts
  | Panic m, Panic m' => m = m'
  | OutOfFuel, OutOfFuel => True
  | _, _ => False
  end.

Lemma sim_bind {A B A' B'} (R : A → sh → B → list tok → Prop) (Q : A' → sh → B' → list tok → Prop) c c' k k' st ts :
  sim R (c st) (c' ts) → (∀ a st' b ts', R a st' b ts' → sim Q (k a st') (k' b ts')) → sim Q (bind c k st) (bind c' k' ts).
Proof.
  unfold bind. intros H1 H2. destruct (c st) as [[a st']| | |], (c' ts) as [[b ts']| | |]; try done. by apply H2.
Qed.

Section sim.
Context (line pad : list Z) (Hnz : Forall (λ c, c ≠ 0) line).
Abbreviation es := (length line).
Abbreviation at_ := (at_ line pad).
Abbreviation span := (span line).

(** The node [p] stands for a command. *)
Fixpoint den (h : list node) (c : cmd) (p : nat) : Prop :=
  match c with
  | Exec argv => ∃ a, h !! p = Some (NExec a) ∧ Forall2 (λ x w, span x.1 x.2 w) a argv
  | Redir c f mode fd => ∃ p' q e, h !! p = Some (NRedir p' q e mode fd) ∧ (p' < p)%nat ∧ span q e f ∧ den h c p'
  | Pipe l r => ∃ pl pr, h !! p = Some (NPipe pl pr) ∧ (pl < p)%nat ∧ (pr < p)%nat ∧ den h l pl ∧ den h r pr
  | List l r => ∃ pl pr, h !! p = Some (NList pl pr) ∧ (pl < p)%nat ∧ (pr < p)%nat ∧ den h l pl ∧ den h r pr
  | Back c => ∃ p', h !! p = Some (NBack p') ∧ (p' < p)%nat ∧ den h c p'
  end.

Lemma den_app h l c : ∀ p, den h c p → den (h ++ l) c p.
Proof using Type.
  induction c as [argv|c IH f mode fd|l1 IH1 l2 IH2|l1 IH1 l2 IH2|c IH]; intros p; cbn [den].
  - intros (a & H & F). exists a. split; [by apply lookup_app_l_Some|done].
  - intros (p' & q & e & H & ? & ? & D). exists p', q, e. split_and!; auto using lookup_app_l_Some.
  - intros (pl & pr & H & ? & ? & D1 & D2). exists pl, pr. split_and!; auto using lookup_app_l_Some.
  - intros (pl & pr & H & ? & ? & D1 & D2). exists pl, pr. split_and!; auto using lookup_app_l_Some.
  - intros (p' & H & ? & D). exists p'. split_and!; auto using lookup_app_l_Some.
Qed.

(** [r] is reached from the node [p] by the redirections [rs]. *)
Inductive chain (h : list node) (p : nat) : nat → list redir → Prop :=
| chain_nil : chain h p p []
| chain_snoc r rs r' q e f mode fd :
    chain h p r rs → h !! r' = Some (NRedir r q e mode fd) → (r < r')%nat → span q e f → chain h p r' (rs ++ [(f, mode, fd)]).

Lemma chain_den h p r rs c : chain h p r rs → den h c p → den h (wrap rs c) r.
Proof using Type.
  intros H D. induction H as [|r rs r' q e f mode fd _ IH Hn Hr Hs]; [done|].
  unfold wrap. rewrite foldl_app. cbn [foldl den fst snd]. exists r, q, e. by split_and!.
Qed.

Lemma chain_app h l p r rs : chain h p r rs → chain (h ++ l) p r rs.
Proof using Type. induction 1; [constructor|]. econstructor; eauto using lookup_app_l_Some. Qed.

Lemma chain_upd h p p0 a a' r rs : h !! p0 = Some (NExec a) → chain h p r rs → chain (<[p0 := NExec a']> h) p r rs.
Proof using Type.
  intros H0. induction 1 as [|r rs r' q e f mode fd _ IH Hn Hr Hs]; [constructor|]. econstructor; eauto.
  rewrite list_lookup_insert_ne; [done|]. intros ->. congruence.
Qed.

Definition ext (st st' : sh) : Prop := ∃ l, sheap st' = sheap st ++ l.

Lemma ext_refl st st' : sheap st' = sheap st → ext st st'.
Proof using Type. exists []. by rewrite app_nil_r. Qed.
Lemma ext_trans st st1 st2 : ext st st1 → ext st1 st2 → ext st st2.
Proof using Type. intros [l1 E1] [l2 E2]. exists (l1 ++ l2). by rewrite E2, E1, app_assoc. Qed.

(** peek and gettoken. *)
Lemma sim_peek st ts toks :
  at_ st ts → Forall (λ c, c ≠ 0 ∧ has symbols c = true) toks →
  sim (λ b st' b' ts', b = b' ∧ b' = sees toks ts ∧ ts' = ts ∧ at_ st' ts ∧ sheap st' = sheap st) (peek es toks st) (t_peek toks ts).
Proof using Hnz. intros A Ht. destruct (peek_spec line pad Hnz st ts toks A Ht) as (st' & -> & Eh & A' & _). done. Qed.

Lemma sim_next st ts :
  at_ st ts →
  sim (λ t st' o ts', o = head ts ∧ ts' = tail ts ∧ at_ st' ts' ∧ sheap st' = sheap st ∧ got_tok line ts t.1.1 t.1.2 t.2)
    (gettoken es st) (t_next ts).
Proof using Hnz. intros A. destruct (gettoken_spec line pad Hnz st ts A) as (r & q & e & st' & -> & Eh & A' & G). done. Qed.

Lemma at_valid st ts : at_ st ts → Forall valid ts.
Proof using Type. intros [_ _ <-]. apply lex_valid. Qed.

Lemma valid_sym c : valid (Sym c) → c ≠ 0 ∧ c ≠ 97.
Proof using Type. intros [H| ->]; [|done]. split; intros ->; done. Qed.

(** What sees says of the first token. *)
Lemma sees_redir ts : Forall valid ts → sees (cs "<>") ts = true → ∃ c ts', ts = Sym c :: ts' ∧ (c = 60 ∨ c = 62 ∨ c = 43).
Proof using Type.
  intros Hv. destruct ts as [|[w|c] ts']; [done|done|]. cbn [sees first]. intros H. exists c, ts'. split; [done|].
  destruct (Z.eqb_spec c 43); [auto|]. rewrite has_existsb in H by (repeat constructor; done).
  change (cs "<>") with [60; 62] in H. cbn [existsb] in H. rewrite orb_false_r in H. apply orb_true_iff in H as [?%Z.eqb_eq|?%Z.eqb_eq]; auto.
Qed.

Ltac toks := repeat constructor; done.

Lemma sim_new st ts n (R : nat → sh → cmd → list tok → Prop) c :
  R (length (sheap st)) (set_heap (sheap st ++ [n]) st) c ts → sim R (new_node n st) (@ret (list tok) cmd c ts).
Proof using Type. done. Qed.

Lemma at_heap st ts h : at_ st ts → at_ (set_heap h st) ts.
Proof using Type. intros [A B C]. by split. Qed.

Lemma snoc_lookup (h : list node) n : (h ++ [n]) !! length h = Some n.
Proof using Type. by rewrite lookup_app_r, Nat.sub_diag by lia. Qed.

(** parseredirs, from a node already reached by [rs]. *)
Definition Rchain (st0 : sh) (p : nat) (r : nat) (st : sh) (rs : list redir) (ts : list tok) : Prop :=
  at_ st ts ∧ ext st0 st ∧ chain (sheap st) p r rs ∧ (r < length (sheap st))%nat.

Lemma sim_redirs p : ∀ fuel st ts r rs,
  at_ st ts → chain (sheap st) p r rs → (r < length (sheap st))%nat →
  sim (Rchain st p) (parseredirs fuel r es st) (t_redirs fuel rs ts).
Proof using Hnz.
  induction fuel as [|f IH]; intros st ts r rs A C Hr; cbn [parseredirs t_redirs];
    (eapply sim_bind; [apply (sim_peek st ts _ A); toks|]); intros b st1 b' ts1 (-> & -> & -> & A1 & E1).
  { destruct (sees (cs "<>") ts); [done|]. split_and!; [done|by apply ext_refl|by rewrite E1|by rewrite E1]. }
  destruct (sees (cs "<>") ts) eqn:Es; [|split_and!; [done|by apply ext_refl|by rewrite E1|by rewrite E1]].
  apply sees_redir in Es as (c & ts' & -> & Hc); [|by eapply at_valid].
  eapply sim_bind; [apply (sim_next st1 _ A1)|]. intros t st2 o ts2 (-> & -> & A2 & E2 & G2). cbn [head tail got_tok] in *. subst c.
  eapply sim_bind; [apply (sim_next st2 _ A2)|]. intros t' st3 o ts3 (-> & -> & A3 & E3 & G3).
  destruct ts' as [|[w|d] ts']; cbn [head tail got_tok] in *.
  - rewrite G3. done.
  - destruct G3 as [-> Hs]. cbn [Z.eqb negb]. set (h := sheap st3).
    assert (Eh : h = sheap st) by (unfold h; congruence).
    assert (Hnew : ∀ mode fd, chain (h ++ [NRedir r t'.1.2 t'.2 mode fd]) p (length h) (rs ++ [(w, mode, fd)])).
    { intros mode fd. eapply chain_snoc; [apply chain_app; by rewrite Eh|apply snoc_lookup|by rewrite Eh|exact Hs]. }
    assert (Hgo : ∀ mode fd, sim (Rchain st p) (parseredirs f (length h) es (set_heap (h ++ [NRedir r t'.1.2 t'.2 mode fd]) st3))
      (t_redirs f (rs ++ [(w, mode, fd)]) ts')).
    { intros mode fd. assert (S := IH (set_heap (h ++ [NRedir r t'.1.2 t'.2 mode fd]) st3) ts' (length h) (rs ++ [(w, mode, fd)])
        (at_heap _ _ _ A3) (Hnew mode fd)). simpl in S. rewrite length_app in S. specialize (S ltac:(simpl; lia)).
      destruct (parseredirs f _ es _) as [[r' st']| | |], (t_redirs f _ ts') as [[rs' ts'']| | |]; try done.
      destruct S as (S1 & S2 & S3 & S4). split_and!; [done| |done|done]. eapply ext_trans; [|exact S2]. exists [NRedir r t'.1.2 t'.2 mode fd]. simpl. by rewrite Eh. }
    unfold redir_of. destruct Hc as [->|[->| ->]]; [apply (Hgo O_RDONLY 0)|apply (Hgo O_WRCR 1)|apply (Hgo O_WRCR 1)].
  - assert (Hv : valid (Sym d)) by (apply at_valid in A2; by apply Forall_cons in A2 as [? _]). apply valid_sym in Hv as [_ Hd].
    rewrite G3, (proj2 (Z.eqb_neq _ _) Hd). done.
Qed.

(** The words of a command: the node [p] is filled while redirections are
    put around it. *)
Definition Rargs (h0 : list node) (p : nat) (r : nat) (st : sh) (x : list (list Z) * list redir) (ts : list tok) : Prop :=
  at_ st ts ∧ (∃ l, sheap st = h0 ++ l) ∧ chain (sheap st) p r x.2 ∧ (r < length (sheap st))%nat
  ∧ ∃ a, sheap st !! p = Some (NExec a) ∧ Forall2 (λ x w, span x.1 x.2 w) a x.1.

Lemma set_arg_run st p a q e :
  sheap st !! p = Some (NExec a) → set_arg p q e st = Ret (tt, set_heap (<[p := NExec (a ++ [(q, e)])]> (sheap st)) st).
Proof using Type. intros H. unfold set_arg, bind, get. by rewrite H. Qed.

Lemma sim_args h0 p : (length h0 ≤ p)%nat → ∀ fuel st ts r argv rs,
  Rargs h0 p r st (argv, rs) ts → sim (Rargs h0 p) (args_loop fuel p r (length argv) es st) (t_args fuel argv rs ts).
Proof using Hnz.
  intros Hp. induction fuel as [|f IH]; intros st ts r argv rs (A & [l El] & C & Hr & a & Ha & Fa); cbn [args_loop t_args];
    (eapply sim_bind; [apply (sim_peek st ts _ A); toks|]); intros b st1 b' ts1 (-> & -> & -> & A1 & E1).
  all: assert (Hdone : ∀ st', sheap st' = sheap st → at_ st' ts → Rargs h0 p r st' (argv, rs) ts)
    by (intros st' E' A'; unfold Rargs; rewrite E'; split_and!; [done|by exists l|done|done|by exists a]).
  all: destruct (sees _ ts) eqn:Es; [by apply Hdone|].
  1: done.
  eapply sim_bind; [apply (sim_next st1 _ A1)|]. intros t st2 o ts2 (-> & -> & A2 & E2 & G2).
  destruct ts as [|[w|d] ts']; cbn [head tail got_tok] in *.
  - rewrite G2. apply Hdone; [congruence|done].
  - destruct G2 as [-> Hs]. change (97 =? 0) with false. change (negb (97 =? 97)) with false. cbv iota.
    assert (Eh : sheap st2 = sheap st) by congruence.
    erewrite bind_ret_eval by (apply set_arg_run; rewrite Eh; exact Ha). rewrite Eh. destruct (MAXARGS <=? S (length argv))%nat; [done|].
    set (st3 := set_heap (<[p := NExec (a ++ [(t.1.2, t.2)])]> (sheap st)) st2).
    assert (Hpl : (p < length (sheap st))%nat) by (by eapply lookup_lt_Some).
    eapply sim_bind; [apply (sim_redirs p f st3 ts' r rs)|].
    + by apply at_heap.
    + by eapply chain_upd.
    + simpl. by rewrite length_insert.
    + intros r' st4 rs' ts4 (A4 & [l4 E4] & C4 & Hr4). replace (S (length argv)) with (length (argv ++ [w])) by (rewrite length_app; simpl; lia).
      apply IH. simpl in E4. split_and!; [done| |done|done|].
      * rewrite E4, El, insert_app_r_alt, <- app_assoc by done. eauto.
      * exists (a ++ [(t.1.2, t.2)]). split; [rewrite E4; apply lookup_app_l_Some, list_lookup_insert_eq; done|].
        apply Forall2_app; [done|]. constructor; [exact Hs|constructor].
  - assert (Hv : valid (Sym d)) by (apply at_valid in A1; by apply Forall_cons in A1 as [? _]). apply valid_sym in Hv as [Hd0 Hd].
    rewrite G2, (proj2 (Z.eqb_neq _ _) Hd0), (proj2 (Z.eqb_neq _ _) Hd). done.
Qed.

(** A command parsed from [st]. *)
Definition Rcmd (st0 : sh) (p : nat) (st : sh) (c : cmd) (ts : list tok) : Prop :=
  at_ st ts ∧ ext st0 st ∧ den (sheap st) c p ∧ (p < length (sheap st))%nat.

Lemma sim_mono {A B} (R R' : A → sh → B → list tok → Prop) o o' :
  (∀ a st b ts, R a st b ts → R' a st b ts) → sim R o o' → sim R' o o'.
Proof using Type. intros H. destruct o as [[? ?]| | |], o' as [[? ?]| | |]; try done. apply H. Qed.

Lemma Rcmd_trans st0 st1 p st c ts : ext st0 st1 → Rcmd st1 p st c ts → Rcmd st0 p st c ts.
Proof using Type. intros H (A & B & C & D). split_and!; try done. by eapply ext_trans. Qed.

(** A result that only the token parser rearranges. *)
Lemma sim_ret_r {A B B'} (Q : A → sh → B' → list tok → Prop) o (c' : M (list tok) B) (g : B → B') ts :
  sim (λ a st b ts, Q a st (g b) ts) o (c' ts) → sim Q o ((x <- c' ;; ret (g x)) ts).
Proof using Type. unfold bind, ret. destruct o as [[? ?]| | |], (c' ts) as [[? ?]| | |]; done. Qed.

Lemma sim_backs fuel : ∀ st0 st ts p c,
  Rcmd st0 p st c ts → sim (Rcmd st0) (backs_loop fuel p es st) (t_backs fuel c ts).
Proof using Hnz.
  induction fuel as [|f IH]; intros st0 st ts p c (A & E & D & Hp); cbn [backs_loop t_backs];
    (eapply sim_bind; [apply (sim_peek st ts _ A); toks|]); intros b st1 b' ts1 (-> & -> & -> & A1 & E1).
  all: destruct (sees _ ts) eqn:Es; [|split_and!; [done|eapply ext_trans; [exact E|by apply ext_refl]|by rewrite E1|by rewrite E1]].
  1: done.
  eapply sim_bind; [apply (sim_next st1 _ A1)|]. intros t st2 o ts2 (_ & -> & A2 & E2 & _).
  unfold backcmd, new_node, bind at 1 2, get, put, ret at 1.
  apply IH. split_and!; [by apply at_heap| | |simpl; rewrite length_app; simpl; lia].
  - eapply ext_trans; [exact E|]. exists [NBack p]. simpl. congruence.
  - cbn [den]. exists p. simpl. rewrite snoc_lookup. split_and!; [done|congruence|]. apply den_app. congruence.
Qed.

(** A node over two commands. *)
Lemma sim_pair st0 st1 p1 c1 (mk : nat → nat → node) (MK : cmd → cmd → cmd) ts1 (k : M sh nat) (k' : M (list tok) cmd) :
  (∀ h p pl pr l r, h !! p = Some (mk pl pr) → (pl < p)%nat → (pr < p)%nat → den h l pl → den h r pr → den h (MK l r) p) →
  Rcmd st0 p1 st1 c1 ts1 → sim (Rcmd st1) (k st1) (k' ts1) →
  sim (Rcmd st0) ((r <- k ;; new_node (mk p1 r)) st1) ((r <- k' ;; ret (MK c1 r)) ts1).
Proof using Type.
  intros Hden (A & E & D & Hp) S. eapply sim_bind; [exact S|]. intros p2 st2 c2 ts2 (A2 & [l El] & D2 & Hp2).
  apply sim_new. split_and!; [by apply at_heap| | |simpl; rewrite length_app; simpl; lia].
  - eapply ext_trans; [exact E|]. exists (l ++ [mk p1 p2]). simpl. by rewrite El, app_assoc.
  - simpl. eapply Hden; [apply snoc_lookup| |done| |by apply den_app].
    + rewrite El, length_app. lia.
    + rewrite El. by do 2 apply den_app.
Qed.

Lemma Rcmd_same st0 p st c ts st' ts' : Rcmd st0 p st c ts → sheap st' = sheap st → at_ st' ts' → Rcmd st0 p st' c ts'.
Proof using Type. intros (_ & [l El] & D & H) E A. split_and!; [done|exists l; congruence|by rewrite E|by rewrite E]. Qed.

(** An operator and what follows it: the end of parseline and of parsepipe. *)
Lemma sim_more st0 st p c ts toks (mk : nat → nat → node) (MK : cmd → cmd → cmd) (k : M sh nat) (k' : M (list tok) cmd) :
  (∀ h p pl pr l r, h !! p = Some (mk pl pr) → (pl < p)%nat → (pr < p)%nat → den h l pl → den h r pr → den h (MK l r) p) →
  Forall (λ c, c ≠ 0 ∧ has symbols c = true) toks → (∀ st ts, at_ st ts → sim (Rcmd st) (k st) (k' ts)) → Rcmd st0 p st c ts →
  sim (Rcmd st0) ((b <- peek es toks ;; if b then gettoken es ;;; r <- k ;; new_node (mk p r) else ret p) st)
    ((b <- t_peek toks ;; if b then t_next ;;; r <- k' ;; ret (MK c r) else ret c) ts).
Proof using Hnz.
  intros Hden Ht Hk R. eapply sim_bind; [apply (sim_peek st ts _ (proj1 R) Ht)|]. intros b st3 b' ts3 (-> & -> & -> & A3 & E3).
  assert (R3 : Rcmd st0 p st3 c ts) by (by eapply Rcmd_same). destruct (sees _ ts); [|done].
  eapply sim_bind; [apply (sim_next st3 _ A3)|]. intros t st4 o ts4 (_ & -> & A4 & E4 & _).
  apply (sim_pair st0 st4 p c mk MK (tail ts) k k' Hden); [by eapply Rcmd_same|by apply Hk].
Qed.

(** parseexec, past the test for a block. *)
Lemma sim_exec f st ts : at_ st ts →
  sim (Rcmd st) ((cmd <- execcmd ;; r <- parseredirs f cmd es ;; args_loop f cmd r 0 es) st)
    ((rs <- t_redirs f [] ;; r <- t_args f [] rs ;; ret (wrap r.2 (Exec r.1))) ts).
Proof using Hnz.
  intros A. set (p := length (sheap st)). set (st2 := set_heap (sheap st ++ [NExec []]) st).
  rewrite (bind_ret_eval _ _ st p st2) by done.
  assert (A2 : at_ st2 ts) by (by apply at_heap). assert (Hp : sheap st2 !! p = Some (NExec [])) by apply snoc_lookup.
  assert (Hpl : (p < length (sheap st2))%nat) by (by eapply lookup_lt_Some).
  eapply sim_bind; [apply (sim_redirs p f st2 ts p []); [done|constructor|done]|]. intros r st3 rs ts3 (A3 & [l El] & C3 & Hr3).
  apply sim_ret_r. eapply sim_mono; [|apply (sim_args (sheap st) p (le_n _) f st3 ts3 r [] rs)].
  - intros r' st4 [argv rs'] ts4 (A4 & [l4 E4] & C4 & Hr4 & a & Ha & Fa). split_and!; [done|by exists l4| |done].
    apply (chain_den _ p); [done|]. by exists a.
  - split_and!; [done| |done|done|].
    + rewrite El. simpl. rewrite <- app_assoc. eauto.
    + exists []. split; [rewrite El; by apply lookup_app_l_Some|constructor].
Qed.

Lemma sim_block f st ts : at_ st ts → (∀ st ts, at_ st ts → sim (Rcmd st) (parseline f es st) (t_line f ts)) →
  sim (Rcmd st) (parseblock (S f) es st) (t_block (S f) ts).
Proof using Hnz.
  intros A IH. cbn [parseblock t_block]. eapply sim_bind; [apply (sim_peek st ts _ A); toks|]. intros b st1 b' ts1 (-> & -> & -> & A1 & E1).
  destruct (sees _ ts) eqn:Es; [|done]. cbn [negb].
  eapply sim_bind; [apply (sim_next st1 _ A1)|]. intros t st2 o ts2 (_ & -> & A2 & E2 & _).
  eapply sim_bind; [apply (IH st2 _ A2)|]. intros p st3 c ts3 R3.
  eapply sim_bind; [apply (sim_peek st3 ts3 _ (proj1 R3)); toks|]. intros b st4 b' ts4 (-> & -> & -> & A4 & E4).
  destruct (sees _ ts3) eqn:Es3; [|done]. cbn [negb].
  eapply sim_bind; [apply (sim_next st4 _ A4)|]. intros t5 st5 o5 ts5 (_ & -> & A5 & E5 & _).
  apply sim_ret_r. destruct R3 as (_ & [l3 E3] & D3 & H3).
  eapply sim_mono; [|apply (sim_redirs p f st5 (tail ts3) p [] A5 (chain_nil _ _)); rewrite E5, E4; done].
  intros r st6 rs ts6 (A6 & [l6 E6] & C6 & H6). split_and!; [done| | |done].
  - exists (l3 ++ l6). rewrite E6, E5, E4, E3, E2, E1. by rewrite app_assoc.
  - apply (chain_den _ p); [done|]. rewrite E6, E5, E4. by apply den_app.
Qed.

Lemma sim_parse fuel : ∀ st ts, at_ st ts →
  sim (Rcmd st) (parseline fuel es st) (t_line fuel ts) ∧ sim (Rcmd st) (parsepipe fuel es st) (t_pipe fuel ts)
  ∧ sim (Rcmd st) (parseexec fuel es st) (t_exec fuel ts) ∧ sim (Rcmd st) (parseblock fuel es st) (t_block fuel ts).
Proof using Hnz.
  induction fuel as [|f IH]; intros st ts A; [by split_and!|]. split_and!; cbn [parseline parsepipe parseexec t_line t_pipe t_exec].
  - eapply sim_bind; [apply (IH st ts A)|]. intros p1 st1 c1 ts1 R1.
    eapply sim_bind; [apply (sim_backs f st st1 ts1 p1 c1 R1)|]. intros p2 st2 c2 ts2 R2.
    apply (sim_more st st2 p2 c2 ts2 _ NList List (parseline f es) (t_line f)); [|toks|intros; by apply IH|done].
    intros h p pl pr l r ?????. cbn [den]. exists pl, pr. by split_and!.
  - eapply sim_bind; [apply (IH st ts A)|]. intros p2 st2 c2 ts2 R2.
    apply (sim_more st st2 p2 c2 ts2 _ NPipe Pipe (parsepipe f es) (t_pipe f)); [|toks|intros; by apply IH|done].
    intros h p pl pr l r ?????. cbn [den]. exists pl, pr. by split_and!.
  - eapply sim_bind; [apply (sim_peek st ts _ A); toks|]. intros b st1 b' ts1 (-> & -> & -> & A1 & E1).
    destruct (sees _ ts) eqn:Es; (eapply sim_mono; [|by first [apply (IH st1 ts A1)|apply (sim_exec f st1 ts A1)]]);
      intros a st' c ts' R; (eapply Rcmd_trans; [by apply ext_refl|exact R]).
  - apply sim_block; [done|]. intros. by apply IH.
Qed.
End sim.
