(* ===== verification/ShGrammar.v ===== *)
(** The grammar of command lines, and the parser on tokens against it. *)

From S2P Require Import Prelude Params Cstring Sysfile User Sh ShLex ShParse.

(** * The grammar

    {[ line  ::=  back  |  back ; line
       back  ::=  pipe  |  back &
       pipe  ::=  exec  |  exec | pipe
       exec  ::=  words and redirections  |  ( line ) redirections ]} *)

Definition redir_sym (c : Z) : Prop := c = 60 ∨ c = 62 ∨ c = 43.

Inductive g_redirs : list tok → list redir → Prop :=
| gr_nil : g_redirs [] []
| gr_cons c w ts rs : redir_sym c → g_redirs ts rs → g_redirs (Sym c :: Word w :: ts) (redir_of (Some (Sym c)) w :: rs).

Inductive g_words : list tok → list (list Z) → list redir → Prop :=
| gw_nil : g_words [] [] []
| gw_word w ts a rs : g_words ts a rs → g_words (Word w :: ts) (w :: a) rs
| gw_redir c w ts a rs : redir_sym c → g_words ts a rs → g_words (Sym c :: Word w :: ts) a (redir_of (Some (Sym c)) w :: rs).

Inductive g_line : list tok → cmd → Prop :=
| gl_one ts c : g_back ts c → g_line ts c
| gl_more ts us c d : g_back ts c → g_line us d → g_line (ts ++ Sym 59 :: us) (List c d)
with g_back : list tok → cmd → Prop :=
| gb_pipe ts c : g_pipe ts c → g_back ts c
| gb_more ts c : g_back ts c → g_back (ts ++ [Sym 38]) (Back c)
with g_pipe : list tok → cmd → Prop :=
| gp_one ts c : g_exec ts c → g_pipe ts c
| gp_more ts us c d : g_exec ts c → g_pipe us d → g_pipe (ts ++ Sym 124 :: us) (Pipe c d)
with g_exec : list tok → cmd → Prop :=
| ge_words ts a rs : g_words ts a rs → (length a < MAXARGS)%nat → g_exec ts (wrap rs (Exec a))
| ge_block ts us c rs : g_line ts c → g_redirs us rs → g_exec (Sym 40 :: ts ++ Sym 41 :: us) (wrap rs c).

Scheme g_line_mut := Induction for g_line Sort Prop
with g_back_mut := Induction for g_back Sort Prop
with g_pipe_mut := Induction for g_pipe Sort Prop
with g_exec_mut := Induction for g_exec Sort Prop.
Combined Scheme g_mut from g_line_mut, g_back_mut, g_pipe_mut, g_exec_mut.

(** * What peek sees *)

Lemma sees_one x ts : valid (Sym x) → x ≠ 43 → x ≠ 62 → sees [x] ts = true → ∃ ts', ts = Sym x :: ts'.
Proof.
  intros Hv H43 H62 H. assert (x ≠ 0 ∧ x ≠ 97) as [H0 H97] by (split; intros ->; destruct Hv; done).
  destruct ts as [|[w|c] ts']; [done|..]; unfold sees, has in H; cbn [strchr first] in H; rewrite (proj2 (Z.eqb_neq _ _) H0) in H.
  - rewrite (proj2 (Z.eqb_neq _ _) H97) in H. done.
  - exists ts'. f_equal. f_equal. destruct (Z.eqb_spec c 43) as [->|]; [rewrite (proj2 (Z.eqb_neq _ _) H62) in H; done|].
    destruct (Z.eqb_spec x c); [done|]. done.
Qed.

Lemma sees_nil l : sees l [] = false.
Proof. done. Qed.
Lemma sees_word l w ts : has l 97 = false → sees l (Word w :: ts) = false.
Proof. done. Qed.

(** The bind of a parser, taken apart. *)
Lemma peek_run toks ts {B} (k : bool → M (list tok) B) : (b <- t_peek toks ;; k b) ts = k (sees toks ts) ts.
Proof. done. Qed.
Lemma next_run ts {B} (k : option tok → M (list tok) B) : (t <- t_next ;; k t) ts = k (head ts) (tail ts).
Proof. done. Qed.

(** * Soundness *)

Lemma redirs_sound f : ∀ rs ts rs' ts', Forall valid ts → t_redirs f rs ts = Ret (rs', ts') →
  ∃ us ss, ts = us ++ ts' ∧ rs' = rs ++ ss ∧ g_redirs us ss.
Proof.
  induction f as [|f IH]; intros rs ts rs' ts' Hv H; cbn [t_redirs] in H; rewrite peek_run in H;
    destruct (sees (cs "<>") ts) eqn:Es; try done.
  1, 3: injection H as <- <-; exists [], []; rewrite app_nil_r; split_and!; [done|done|constructor].
  apply sees_redir in Es as (c & us & -> & Hc); [|done]. rewrite !next_run in H. cbn [head tail] in H.
  destruct us as [|[w|d] us]; [done| |done]. cbn [head tail] in H. do 2 apply Forall_cons in Hv as [_ Hv].
  apply IH in H as (vs & ss & -> & -> & G); [|done]. exists (Sym c :: Word w :: vs), (redir_of (Some (Sym c)) w :: ss).
  split_and!; [done|by rewrite <- app_assoc|by constructor].
Qed.

Lemma words_redirs us ss vs b ss2 : g_redirs us ss → g_words vs b ss2 → g_words (us ++ vs) b (ss ++ ss2).
Proof. induction 1; intros; [done|]. simpl. constructor; auto. Qed.

Lemma args_sound f : ∀ a rs ts a' rs' ts', Forall valid ts → t_args f a rs ts = Ret ((a', rs'), ts') →
  ∃ us b ss, ts = us ++ ts' ∧ a' = a ++ b ∧ rs' = rs ++ ss ∧ g_words us b ss ∧ (b = [] ∨ (length a' < MAXARGS)%nat).
Proof.
  induction f as [|f IH]; intros a rs ts a' rs' ts' Hv H; cbn [t_args] in H; rewrite peek_run in H;
    destruct (sees (cs "|)&;") ts) eqn:Es; try done.
  1, 2: injection H as <- <- <-; exists [], [], []; rewrite !app_nil_r; split_and!; [done|done|done|constructor|by left].
  rewrite next_run in H. destruct ts as [|[w|d] us]; cbn [head tail] in H; [|..|done].
  { injection H as <- <- <-. exists [], [], []. rewrite !app_nil_r. split_and!; [done|done|done|constructor|by left]. }
  apply Forall_cons in Hv as [_ Hv]. destruct (Nat.leb_spec MAXARGS (S (length a))) as [|Hlt]; [done|].
  apply bind_inv in H as (rs1 & ts1 & H1 & H2). apply redirs_sound in H1 as (vs & ss & -> & -> & G1); [|done].
  apply Forall_app in Hv as [_ Hv]. apply IH in H2 as (us2 & b & ss2 & -> & -> & -> & G2 & Hb); [|done].
  exists (Word w :: vs ++ us2), (w :: b), (ss ++ ss2). split_and!; [simpl; by rewrite <- app_assoc|by rewrite <- app_assoc|by rewrite <- app_assoc| |].
  - constructor. by apply words_redirs.
  - right. destruct Hb as [->|]; [|done]. rewrite app_nil_r, length_app. simpl. lia.
Qed.

Lemma g_backs n us c : g_back us c → g_back (us ++ replicate n (Sym 38)) (Nat.iter n Back c).
Proof.
  intros G. induction n as [|n IH]; [by rewrite app_nil_r|]. rewrite replicate_S_end, app_assoc. by constructor.
Qed.

Lemma backs_sound f : ∀ c ts c' ts', Forall valid ts → t_backs f c ts = Ret (c', ts') →
  ∃ n, ts = replicate n (Sym 38) ++ ts' ∧ c' = Nat.iter n Back c.
Proof.
  induction f as [|f IH]; intros c ts c' ts' Hv H; cbn [t_backs] in H; rewrite peek_run in H; destruct (sees (cs "&") ts) eqn:Es; try done.
  1, 3: injection H as <- <-; by exists 0%nat.
  apply (sees_one 38) in Es as [us ->]; [|by left|done|done]. rewrite next_run in H. cbn [tail] in H. apply Forall_cons in Hv as [_ Hv].
  apply IH in H as (n & -> & ->); [|done]. exists (S n). split; [done|]. symmetry. apply Nat.iter_succ_r.
Qed.

Definition sound (G : list tok → cmd → Prop) (p : M (list tok) cmd) : Prop :=
  ∀ ts c ts', Forall valid ts → p ts = Ret (c, ts') → ∃ us, ts = us ++ ts' ∧ G us c.

Lemma parse_sound f : sound g_line (t_line f) ∧ sound g_pipe (t_pipe f) ∧ sound g_exec (t_exec f) ∧ sound g_exec (t_block f).
Proof.
  induction f as [|f (IHl & IHp & IHe & IHb)]; [done|]. split_and!; intros ts c ts' Hv H.
  - cbn [t_line] in H. apply bind_inv in H as (c1 & ts1 & H1 & H). apply IHp in H1 as (us & -> & G1); [|done]. apply Forall_app in Hv as [_ Hv].
    apply bind_inv in H as (c2 & ts2 & H2 & H). apply backs_sound in H2 as (n & -> & ->); [|done]. apply Forall_app in Hv as [_ Hv].
    apply gb_pipe, (g_backs n) in G1. rewrite peek_run in H. destruct (sees (cs ";") ts2) eqn:Es.
    + apply (sees_one 59) in Es as [us2 ->]; [|by left|done|done]. apply Forall_cons in Hv as [_ Hv].
      unfold bind at 1 in H. cbn in H. apply bind_inv in H as (d & ts3 & H3 & [= <- <-]). apply IHl in H3 as (vs & -> & G2); [|done].
      exists ((us ++ replicate n (Sym 38)) ++ Sym 59 :: vs). split; [by rewrite <- !app_assoc|by constructor].
    + injection H as <- <-. exists (us ++ replicate n (Sym 38)). split; [by rewrite <- app_assoc|by constructor].
  - cbn [t_pipe] in H. apply bind_inv in H as (c1 & ts1 & H1 & H). apply IHe in H1 as (us & -> & G1); [|done]. apply Forall_app in Hv as [_ Hv].
    rewrite peek_run in H. destruct (sees (cs "|") ts1) eqn:Es.
    + apply (sees_one 124) in Es as [us2 ->]; [|by left|done|done]. apply Forall_cons in Hv as [_ Hv].
      unfold bind at 1 in H. cbn in H. apply bind_inv in H as (d & ts3 & H3 & [= <- <-]). apply IHp in H3 as (vs & -> & G2); [|done].
      exists (us ++ Sym 124 :: vs). split; [by rewrite <- !app_assoc|by constructor].
    + injection H as <- <-. exists us. split; [done|by constructor].
  - cbn [t_exec] in H. rewrite peek_run in H. destruct (sees (cs "(") ts); [by apply IHb|].
    apply bind_inv in H as (rs & ts1 & H1 & H). apply redirs_sound in H1 as (us & ss & -> & -> & G1); [|done]. apply Forall_app in Hv as [_ Hv].
    apply bind_inv in H as ([a' rs'] & ts2 & H2 & [= <- <-]). apply args_sound in H2 as (vs & b & ss2 & -> & -> & -> & G2 & Hb); [|done].
    exists (us ++ vs). split; [by rewrite <- app_assoc|]. cbn [fst snd]. rewrite !app_nil_l. apply ge_words; [by apply words_redirs|].
    destruct Hb as [->|]; [simpl; unfold MAXARGS; lia|done].
  - cbn [t_block] in H. rewrite peek_run in H. destruct (sees (cs "(") ts) eqn:Es; [|done]. cbn [negb] in H.
    apply (sees_one 40) in Es as [us ->]; [|by left|done|done]. apply Forall_cons in Hv as [_ Hv].
    unfold bind at 1 in H. cbn [t_next bind get put ret tail] in H. apply bind_inv in H as (d & ts1 & H1 & H). cbn in H1.
    apply IHl in H1 as (vs & -> & G1); [|done]. apply Forall_app in Hv as [_ Hv].
    rewrite peek_run in H. destruct (sees (cs ")") ts1) eqn:Es; [|done]. cbn [negb] in H.
    apply (sees_one 41) in Es as [us ->]; [|by left|done|done]. apply Forall_cons in Hv as [_ Hv].
    unfold bind at 1 in H. cbn in H. apply bind_inv in H as (rs & ts2 & H2 & [= <- <-]).
    apply redirs_sound in H2 as (ws & ss & -> & -> & G2); [|done]. exists (Sym 40 :: vs ++ Sym 41 :: ws).
    split; [simpl; by rewrite <- app_assoc|by constructor].
Qed.

(** * Completeness *)

(** What may follow: nothing, or one of the symbols [l]. *)
Definition stops (l : list Z) (ts : list tok) : Prop := ts = [] ∨ ∃ c ts', ts = Sym c :: ts' ∧ In c l.

Lemma stops_more l l' ts : stops l ts → (∀ c, In c l → In c l') → stops l' ts.
Proof. intros [->|(c & ts' & -> & H)] Hl; [by left|]. right. eauto. Qed.

Lemma stops_sees l toks ts b : stops l ts → (∀ c, In c l → has toks (first (Sym c)) = b) → sees toks ts = b ∨ ts = [].
Proof. intros [->|(c & ts' & -> & H)] Hl; [by right|]. left. by apply Hl. Qed.

Lemma stops_not l toks ts : stops l ts → (∀ c, In c l → has toks (first (Sym c)) = false) → sees toks ts = false.
Proof. intros S H. by destruct (stops_sees _ _ _ _ S H) as [?| ->]. Qed.

Abbreviation e_exec := [41; 38; 59; 124].
Abbreviation e_pipe := [41; 38; 59].
Abbreviation e_line := [41].

Ltac in_cases := let c := fresh in let H := fresh in simpl; intros c H; repeat (destruct H as [<-|H]; [done|]); done.

Lemma redir_sym_sees c ts : redir_sym c → sees (cs "<>") (Sym c :: ts) = true.
Proof. by intros [->|[->| ->]]. Qed.

Lemma t_redirs_step f rs c w ts :
  redir_sym c → t_redirs (S f) rs (Sym c :: Word w :: ts) = t_redirs f (rs ++ [redir_of (Some (Sym c)) w]) ts.
Proof. intros Hc. cbn [t_redirs]. rewrite peek_run, redir_sym_sees by done. by rewrite !next_run. Qed.

Lemma redirs_complete us ss : g_redirs us ss → ∀ f rs ts, sees (cs "<>") ts = false → (length us ≤ f)%nat →
  t_redirs f rs (us ++ ts) = Ret (rs ++ ss, ts).
Proof.
  induction 1 as [|c w us ss Hc G IH]; intros f rs ts Hs Hf.
  - rewrite app_nil_r. destruct f; cbn [t_redirs app]; rewrite peek_run, Hs; done.
  - simpl in Hf. destruct f as [|f]; [lia|]. rewrite <- !app_comm_cons. rewrite t_redirs_step by done.
    rewrite IH by (done || lia). by rewrite <- app_assoc.
Qed.

Lemma words_complete us b ss : g_words us b ss → ∀ f1 f2 a rs ts, stops e_exec ts →
  (length us ≤ f1)%nat → (length us < f2)%nat → (length (a ++ b) < MAXARGS)%nat →
  (rs1 <- t_redirs f1 rs ;; t_args f2 a rs1) (us ++ ts) = Ret ((a ++ b, rs ++ ss), ts).
Proof.
  induction 1 as [|w us b ss G IH|c w us b ss Hc G IH]; intros f1 f2 a rs ts Hst H1 H2 Ha.
  - assert (Hs : sees (cs "<>") ts = false) by (eapply stops_not; [exact Hst|in_cases]).
    erewrite bind_ret_eval by (apply (redirs_complete [] []); [constructor|exact Hs|simpl; lia]). rewrite !app_nil_r.
    destruct f2 as [|f2]; [lia|]. cbn [t_args]. rewrite peek_run. destruct Hst as [->|(c & ts' & -> & H)]; [done|].
    replace (sees (cs "|)&;") (Sym c :: ts')) with true; [done|]. simpl in H. by repeat (destruct H as [<-|H]; [done|]).
  - change ((Word w :: us) ++ ts) with ([] ++ Word w :: us ++ ts).
    rewrite (bind_ret_eval _ _ _ _ _ (redirs_complete [] [] gr_nil f1 rs (Word w :: us ++ ts) eq_refl (Nat.le_0_l _))). rewrite app_nil_r. simpl in H1, H2.
    destruct f2 as [|f2]; [lia|]. cbn [t_args]. rewrite peek_run. change (sees _ (Word w :: us ++ ts)) with false. cbv iota.
    rewrite next_run. cbn [head tail]. rewrite length_app in Ha. simpl in Ha. rewrite (proj2 (Nat.leb_gt _ _)) by lia.
    rewrite (IH f2 f2 (a ++ [w]) rs ts Hst); [by rewrite <- app_assoc|lia|lia|rewrite <- app_assoc, length_app; simpl; lia].
  - simpl in H1, H2. destruct f1 as [|f1]; [lia|]. rewrite <- !app_comm_cons.
    specialize (IH f1 f2 a (rs ++ [redir_of (Some (Sym c)) w]) ts Hst ltac:(lia) ltac:(lia) Ha). rewrite <- app_assoc in IH.
    etransitivity; [|exact IH]. unfold bind. by rewrite t_redirs_step.
Qed.

Lemma backs_complete n : ∀ f c ts, sees (cs "&") ts = false → (n ≤ f)%nat →
  t_backs f c (replicate n (Sym 38) ++ ts) = Ret (Nat.iter n Back c, ts).
Proof.
  induction n as [|n IH]; intros f c ts Hs Hf.
  - destruct f; cbn [t_backs replicate app]; rewrite peek_run, Hs; done.
  - destruct f as [|f]; [lia|]. cbn [replicate]. rewrite <- app_comm_cons. cbn [t_backs]. rewrite peek_run. change (sees _ (Sym 38 :: _)) with true. cbv iota.
    rewrite next_run. cbn [tail]. rewrite IH by (done || lia). by rewrite Nat.iter_succ_r.
Qed.

Lemma g_back_inv us c : g_back us c → ∃ vs d n, g_pipe vs d ∧ us = vs ++ replicate n (Sym 38) ∧ c = Nat.iter n Back d.
Proof.
  induction 1 as [us c G|us c _ (vs & d & n & G & -> & ->)].
  - exists us, c, 0%nat. by rewrite app_nil_r.
  - exists vs, d, (S n). by rewrite replicate_S_end, app_assoc.
Qed.

(** The four parsers, with four units of fuel for every token. *)
Definition full (k : nat) (l : list Z) (p : nat → M (list tok) cmd) (us : list tok) (c : cmd) : Prop :=
  ∀ f ts, stops l ts → (4 * length us + k ≤ f)%nat → p f (us ++ ts) = Ret (c, ts).

(** A pipe and the ampersands behind it. *)
Definition full_back (us : list tok) (c : cmd) : Prop :=
  ∃ vs d n, us = vs ++ replicate n (Sym 38) ∧ c = Nat.iter n Back d ∧ full 3 e_pipe t_pipe vs d.

Lemma back_complete us c f ts : full_back us c → stops [41; 59] ts → (4 * length us + 3 ≤ f)%nat →
  (c <- t_pipe f ;; t_backs f c) (us ++ ts) = Ret (c, ts).
Proof.
  intros (vs & d & n & -> & -> & H) Hst Hf. rewrite length_app, length_replicate in Hf. rewrite <- app_assoc.
  erewrite bind_ret_eval; [|apply H; [|lia]].
  - apply backs_complete; [|lia]. eapply stops_not; [exact Hst|in_cases].
  - destruct n; [eapply stops_more; [exact Hst|simpl; tauto]|]. right. eexists _, _. split; [done|simpl; tauto].
Qed.

Lemma line_complete us c ts f : full_back us c → stops [41; 59] ts → (4 * length us + 4 ≤ f)%nat →
  ∃ f', f = S f' ∧ t_line f (us ++ ts) = (b <- t_peek (cs ";") ;; if b then t_next ;;; r <- t_line f' ;; ret (List c r) else ret c) ts.
Proof.
  intros H Hst Hf. destruct f as [|f]; [lia|]. exists f. split; [done|]. cbn [t_line].
  pose proof (back_complete us c f ts H Hst ltac:(lia)) as E. unfold bind at 1 in E. unfold bind at 1 2.
  destruct (t_pipe f (us ++ ts)) as [[c1 ts1]| | |]; try done. by rewrite E.
Qed.

Lemma pipe_complete us c ts f : full 2 e_exec t_exec us c → stops e_exec ts → (4 * length us + 3 ≤ f)%nat →
  ∃ f', f = S f' ∧ t_pipe f (us ++ ts) = (b <- t_peek (cs "|") ;; if b then t_next ;;; r <- t_pipe f' ;; ret (Pipe c r) else ret c) ts.
Proof.
  intros H Hst Hf. destruct f as [|f]; [lia|]. exists f. split; [done|]. cbn [t_pipe].
  erewrite bind_ret_eval; [done|]. apply H; [done|lia].
Qed.

Lemma exec_complete us a rs : g_words us a rs → (length a < MAXARGS)%nat → full 2 e_exec t_exec us (wrap rs (Exec a)).
Proof.
  intros G Ha f ts Hst Hf. destruct f as [|f]; [lia|]. cbn [t_exec]. rewrite peek_run.
  assert (sees (cs "(") (us ++ ts) = false) as ->.
  { destruct G; [eapply stops_not; [exact Hst|in_cases]|done|]. by destruct H as [->|[->| ->]]. }
  pose proof (words_complete us a rs G f f [] [] ts Hst ltac:(lia) ltac:(lia) Ha) as E. unfold bind at 1 in E. unfold bind at 1 2.
  destruct (t_redirs f [] (us ++ ts)) as [[rs1 ts1]| | |]; try done. by rewrite E.
Qed.

Lemma block_complete us vs c rs : full 4 e_line t_line us c → g_redirs vs rs → full 2 e_exec t_exec (Sym 40 :: us ++ Sym 41 :: vs) (wrap rs c).
Proof.
  intros H G f ts Hst Hf. cbn [length] in Hf. rewrite length_app in Hf. cbn [length] in Hf.
  destruct f as [|[|f]]; [lia|lia|]. rewrite <- app_comm_cons, <- app_assoc, <- app_comm_cons. cbn [t_exec]. rewrite peek_run.
  change (sees _ (Sym 40 :: _)) with true. cbv iota. cbn [t_block]. rewrite peek_run. change (negb (sees _ (Sym 40 :: _))) with false. cbv iota.
  rewrite next_run. cbn [tail].
  erewrite bind_ret_eval; [|apply H; [right; eexists _, _; split; [done|simpl; tauto]|lia]]. rewrite peek_run.
  change (negb (sees _ (Sym 41 :: _))) with false. cbv iota. rewrite next_run. cbn [tail].
  erewrite bind_ret_eval; [|apply (redirs_complete vs rs G); [eapply stops_not; [exact Hst|in_cases]|lia]]. done.
Qed.

Lemma parse_complete :
  (∀ us c, g_line us c → full 4 e_line t_line us c) ∧ (∀ us c, g_back us c → full_back us c)
  ∧ (∀ us c, g_pipe us c → full 3 e_pipe t_pipe us c) ∧ (∀ us c, g_exec us c → full 2 e_exec t_exec us c).
Proof.
  apply g_mut.
  - intros us c _ H f ts Hst Hf. destruct (line_complete us c ts f H) as (f' & -> & ->); [eapply stops_more; [exact Hst|simpl; tauto]|done|].
    rewrite peek_run. by rewrite (stops_not _ _ _ Hst) by in_cases.
  - intros us vs c d _ H _ Hd f ts Hst Hf. rewrite length_app in Hf. simpl in Hf. rewrite <- app_assoc, <- app_comm_cons.
    destruct (line_complete us c (Sym 59 :: vs ++ ts) f H) as (f' & -> & ->); [right; eexists _, _; split; [done|simpl; tauto]|lia|].
    rewrite peek_run. change (sees _ (Sym 59 :: _)) with true. cbv iota. rewrite next_run. cbn [tail].
    by rewrite (bind_ret_eval _ _ _ _ _ (Hd f' ts Hst ltac:(lia))).
  - intros us c _ H. exists us, c, 0%nat. by rewrite app_nil_r.
  - intros us c _ (vs & d & n & -> & -> & H). exists vs, d, (S n). by rewrite replicate_S_end, app_assoc.
  - intros us c _ H f ts Hst Hf. destruct (pipe_complete us c ts f H) as (f' & -> & ->); [eapply stops_more; [exact Hst|simpl; tauto]|done|].
    rewrite peek_run. by rewrite (stops_not _ _ _ Hst) by in_cases.
  - intros us vs c d _ H _ Hd f ts Hst Hf. rewrite length_app in Hf. simpl in Hf. rewrite <- app_assoc, <- app_comm_cons.
    destruct (pipe_complete us c (Sym 124 :: vs ++ ts) f H) as (f' & -> & ->); [right; eexists _, _; split; [done|simpl; tauto]|lia|].
    rewrite peek_run. change (sees _ (Sym 124 :: _)) with true. cbv iota. rewrite next_run. cbn [tail].
    by rewrite (bind_ret_eval _ _ _ _ _ (Hd f' ts Hst ltac:(lia))).
  - intros us a rs G Ha. by apply exec_complete.
  - intros us vs c rs _ H G. by apply block_complete.
Qed.

(** * Termination *)

Definition settled {A} (o : outcome A) : Prop := match o with Ret _ | Panic _ => True | _ => False end.

Lemma settled_bind {A B} (c : M (list tok) A) (k : A → M (list tok) B) ts :
  settled (c ts) → (∀ a ts', c ts = Ret (a, ts') → settled (k a ts')) → settled (bind c k ts).
Proof. unfold bind. intros H1 H2. destruct (c ts) as [[a ts']| | |]; try done. by apply H2. Qed.

Lemma settled_redirs f : ∀ rs ts, Forall valid ts → (length ts ≤ f)%nat → settled (t_redirs f rs ts).
Proof.
  induction f as [|f IH]; intros rs ts Hv Hf; cbn [t_redirs]; rewrite peek_run.
  { destruct ts; [done|simpl in Hf; lia]. }
  destruct (sees _ ts) eqn:Es; [|done]. apply sees_redir in Es as (c & us & -> & _); [|done]. rewrite !next_run. cbn [head tail].
  destruct us as [|[w|d] us]; [done| |done]. cbn [head tail]. do 2 apply Forall_cons in Hv as [_ Hv]. simpl in Hf. apply IH; [done|lia].
Qed.

Lemma settled_args f : ∀ a rs ts, Forall valid ts → (length ts < f)%nat → settled (t_args f a rs ts).
Proof.
  induction f as [|f IH]; intros a rs ts Hv Hf; [lia|]. cbn [t_args]. rewrite peek_run. destruct (sees _ ts); [done|].
  rewrite next_run. destruct ts as [|[w|d] us]; [done| |done]. cbn [head tail]. apply Forall_cons in Hv as [_ Hv]. simpl in Hf.
  destruct (_ <=? _)%nat; [done|]. apply settled_bind; [apply settled_redirs; [done|lia]|].
  intros rs1 ts1 (vs & ss & -> & _ & _)%redirs_sound; [|done]. apply Forall_app in Hv as [_ Hv]. rewrite length_app in Hf. apply IH; [done|lia].
Qed.

Lemma settled_backs f : ∀ c ts, Forall valid ts → (length ts ≤ f)%nat → settled (t_backs f c ts).
Proof.
  induction f as [|f IH]; intros c ts Hv Hf; cbn [t_backs]; rewrite peek_run.
  { destruct ts; [done|simpl in Hf; lia]. }
  destruct (sees _ ts) eqn:Es; [|done]. apply (sees_one 38) in Es as [us ->]; [|by left|done|done]. rewrite next_run. cbn [tail].
  apply Forall_cons in Hv as [_ Hv]. simpl in Hf. apply IH; [done|lia].
Qed.

(** An operator and what follows it. *)
Lemma settled_more x ts c (MK : cmd → cmd → cmd) (k : M (list tok) cmd) :
  (∀ us, ts = Sym x :: us → settled (k us)) → valid (Sym x) → x ≠ 43 → x ≠ 62 →
  settled ((b <- t_peek [x] ;; if b then t_next ;;; r <- k ;; ret (MK c r) else ret c) ts).
Proof.
  intros Hk Hv H1 H2. rewrite peek_run. destruct (sees [x] ts) eqn:Es; [|done].
  apply (sees_one x) in Es as [us ->]; [|done..]. rewrite next_run. cbn [tail]. apply settled_bind; [by apply Hk|done].
Qed.

Definition settles (k : nat) (p : nat → M (list tok) cmd) (f : nat) : Prop :=
  ∀ ts, Forall valid ts → (4 * length ts + k ≤ f)%nat → settled (p f ts).

Lemma parse_settled f : settles 4 t_line f ∧ settles 3 t_pipe f ∧ settles 2 t_exec f ∧ settles 1 t_block f.
Proof.
  induction f as [|f (IHl & IHp & IHe & IHb)]; [split_and!; intros ts _ H; lia|].
  destruct (parse_sound f) as (Sl & Sp & Se & Sb). split_and!; intros ts Hv Hf.
  - cbn [t_line]. apply settled_bind; [apply IHp; [done|lia]|]. intros c ts1 (us & -> & _)%Sp; [|done].
    apply Forall_app in Hv as [_ Hv]. rewrite length_app in Hf. apply settled_bind; [apply settled_backs; [done|lia]|].
    intros d ts2 (n & -> & _)%backs_sound; [|done]. apply Forall_app in Hv as [_ Hv]. rewrite length_app in Hf.
    apply (settled_more 59); [|by left|done|done]. intros vs ->. apply Forall_cons in Hv as [_ Hv]. simpl in Hf. apply IHl; [done|lia].
  - cbn [t_pipe]. apply settled_bind; [apply IHe; [done|lia]|]. intros c ts1 (us & -> & _)%Se; [|done].
    apply Forall_app in Hv as [_ Hv]. rewrite length_app in Hf.
    apply (settled_more 124); [|by left|done|done]. intros vs ->. apply Forall_cons in Hv as [_ Hv]. simpl in Hf. apply IHp; [done|lia].
  - cbn [t_exec]. rewrite peek_run. destruct (sees _ ts); [apply IHb; [done|lia]|].
    apply settled_bind; [apply settled_redirs; [done|lia]|]. intros rs ts1 (us & ss & -> & _)%redirs_sound; [|done].
    apply Forall_app in Hv as [_ Hv]. rewrite length_app in Hf. apply settled_bind; [apply settled_args; [done|lia]|done].
  - cbn [t_block]. rewrite peek_run. destruct (sees (cs "(") ts) eqn:Es; [|done]. cbn [negb].
    apply (sees_one 40) in Es as [us ->]; [|by left|done|done]. rewrite next_run. cbn [tail]. apply Forall_cons in Hv as [_ Hv]. simpl in Hf.
    apply settled_bind; [apply IHl; [done|lia]|]. intros c ts1 (vs & -> & _)%Sl; [|done]. apply Forall_app in Hv as [_ Hv]. rewrite length_app in Hf.
    rewrite peek_run. destruct (sees (cs ")") ts1) eqn:Es; [|done]. cbn [negb]. apply (sees_one 41) in Es as [us ->]; [|by left|done|done].
    rewrite next_run. cbn [tail]. apply Forall_cons in Hv as [_ Hv]. simpl in Hf. apply settled_bind; [apply settled_redirs; [done|lia]|done].
Qed.
