(* ===== verification/ShProps.v ===== *)
(** parsecmd against the grammar, and runcmd against the descriptors that a
    command line gives its programs. *)

From S2P Require Import Prelude Params Cstring Sysfile User Sh ShLex ShParse ShGrammar.

(** * nulterminate *)

Lemma upto_nul_word w r : Forall (λ c, c ≠ 0) w → upto_nul (w ++ 0 :: r) = w.
Proof. induction 1 as [|c w Hc _ IH]; simpl; [done|]. rewrite (proj2 (Z.eqb_neq _ _) Hc). by rewrite IH. Qed.

Section terminate.
Context (line pad : list Z) (Hnz : Forall (λ c, c ≠ 0) line).
Abbreviation es := (length line).
Abbreviation span := (span line).
Abbreviation den := (den line).
Let b := line ++ 0 :: pad.

(** The line with some word ends overwritten. *)
Record kept (x : list Z) : Prop := {
  ke_length : length x = length b;
  ke_word i c : line !! i = Some c → wordc c = true → x !! i = Some c
}.

(** The word ends below a node have been overwritten. *)
Fixpoint ended (h : list node) (x : list Z) (c : cmd) (p : nat) : Prop :=
  match c with
  | Exec argv => ∃ a, h !! p = Some (NExec a) ∧ Forall (λ y, x !! y.2 = Some 0) a
  | Redir c f mode fd => ∃ p' q e, h !! p = Some (NRedir p' q e mode fd) ∧ x !! e = Some 0 ∧ ended h x c p'
  | Pipe l r => ∃ pl pr, h !! p = Some (NPipe pl pr) ∧ ended h x l pl ∧ ended h x r pr
  | List l r => ∃ pl pr, h !! p = Some (NList pl pr) ∧ ended h x l pl ∧ ended h x r pr
  | Back c => ∃ p', h !! p = Some (NBack p') ∧ ended h x c p'
  end.

Definition zeros (x x' : list Z) : Prop := ∀ i, x !! i = Some 0 → x' !! i = Some 0.

Lemma ended_zeros h x x' c : zeros x x' → ∀ p, ended h x c p → ended h x' c p.
Proof using Type.
  intros Hz. induction c as [argv|c IH f mode fd|l IHl r IHr|l IHl r IHr|c IH]; intros p; cbn [ended].
  - intros (a & H & F). exists a. split; [done|]. eapply Forall_impl; [exact F|]. intros y. apply Hz.
  - intros (p' & q & e & H & He & D). exists p', q, e. auto.
  - intros (pl & pr & H & D1 & D2). exists pl, pr. auto.
  - intros (pl & pr & H & D1 & D2). exists pl, pr. auto.
  - intros (p' & H & D). exists p'. auto.
Qed.

(** The string at the start of a word whose end is overwritten. *)
Lemma str_span x q e w : kept x → span q e w → x !! e = Some 0 → str_at x q = w.
Proof using Hnz.
  intros [K1 K2] [S1 S2 S3 S4 S5] He. unfold str_at.
  assert (Hw : ∀ i c, w !! i = Some c → line !! (q + i)%nat = Some c).
  { intros i c Hc. pose proof (lookup_lt_Some _ _ _ Hc). rewrite S1, lookup_app_r by (rewrite length_take; lia).
    rewrite length_take, Nat.min_l by lia. replace (q + i - q)%nat with i by lia. by apply lookup_app_l_Some. }
  assert (E : drop q x = w ++ 0 :: drop (S e) x).
  { rewrite <- (take_drop (length w) (drop q x)). f_equal.
    - apply list_eq. intros i. rewrite lookup_take. case_decide as Hi.
      + destruct (lookup_lt_is_Some_2 w i Hi) as [c Hc]. rewrite Hc, lookup_drop. apply K2; [by apply Hw|]. by apply (proj1 (Forall_lookup _ _) S4 i).
      + symmetry. apply lookup_ge_None_2. lia.
    - rewrite drop_drop, <- S2. by apply drop_S. }
  rewrite E. apply upto_nul_word. apply Forall_lookup. intros i c Hc. apply (proj1 (Forall_lookup _ _) Hnz (q + i)%nat). by apply Hw.
Qed.

Lemma load_ended h x c : kept x → ∀ p f, den h c p → ended h x c p → (p < f)%nat → load f h x p = Some c.
Proof using Hnz.
  intros K. induction c as [argv|c IH fl mode fd|l IHl r IHr|l IHl r IHr|c IH]; intros p f D E Hf; (destruct f as [|f]; [lia|]); cbn [den ended load] in *.
  - destruct D as (a & Ha & F), E as (a' & Ha' & Z). rewrite Ha in Ha' |- *. injection Ha' as <-. do 2 f_equal.
    clear Ha. induction F as [|y w a argv Hy _ IHF]; [done|]. apply Forall_cons in Z as [Hz Z]. simpl. f_equal; [by eapply str_span|auto].
  - destruct D as (p' & q & e & Hp & Hlt & Hs & D), E as (p2 & q2 & e2 & Hp2 & He & E). rewrite Hp in Hp2 |- *. injection Hp2 as <- <- <-.
    rewrite (IH p' f) by (done || lia). simpl. by rewrite (str_span x q e fl).
  - destruct D as (pl & pr & Hp & H1 & H2 & D1 & D2), E as (pl' & pr' & Hp' & E1 & E2). rewrite Hp in Hp' |- *. injection Hp' as <- <-.
    rewrite (IHl pl f), (IHr pr f) by (done || lia). done.
  - destruct D as (pl & pr & Hp & H1 & H2 & D1 & D2), E as (pl' & pr' & Hp' & E1 & E2). rewrite Hp in Hp' |- *. injection Hp' as <- <-.
    rewrite (IHl pl f), (IHr pr f) by (done || lia). done.
  - destruct D as (p' & Hp & Hlt & D), E as (p2 & Hp2 & E). rewrite Hp in Hp2 |- *. injection Hp2 as <-. by rewrite (IH p' f) by (done || lia).
Qed.

Lemma put_nul_run st q e w : kept (sbuf st) → span q e w →
  ∃ x, put_nul e st = Ret (tt, set_buf x st) ∧ kept x ∧ zeros (sbuf st) x ∧ x !! e = Some 0.
Proof using Type.
  intros [K1 K2] [S1 S2 S3 S4 S5]. set (x := <[e := 0]> (sbuf st)). exists x.
  assert (Hlt : (e < length (sbuf st))%nat) by (rewrite K1; unfold b; rewrite length_app; simpl; lia).
  split; [unfold put_nul, bind, get; by rewrite (proj2 (Nat.ltb_lt _ _) Hlt)|]. split_and!.
  - split; [unfold x; by rewrite length_insert|]. intros i c Hi Hc. unfold x. rewrite list_lookup_insert_ne; [by apply K2|].
    intros ->. destruct S5 as [->|(c' & Hc' & Hw)]; [apply lookup_lt_Some in Hi; lia|congruence].
  - intros i Hi. unfold x. destruct (decide (i = e)) as [->|]; [by rewrite list_lookup_insert_eq|by rewrite list_lookup_insert_ne by congruence].
  - unfold x. by rewrite list_lookup_insert_eq.
Qed.

Lemma nul_args_run a argv : Forall2 (λ x w, span x.1 x.2 w) a argv → ∀ st, kept (sbuf st) →
  ∃ x, nul_args a st = Ret (tt, set_buf x st) ∧ kept x ∧ zeros (sbuf st) x ∧ Forall (λ y, x !! y.2 = Some 0) a.
Proof using Type.
  induction 1 as [|[q e] w a argv Hs _ IH]; intros st K; cbn [nul_args].
  { exists (sbuf st). split; [by destruct st|]. split_and!; [done|by intros i|constructor]. }
  destruct (put_nul_run st q e w K Hs) as (x & Hrun & Kx & Zx & Ex). erewrite bind_ret_eval by exact Hrun.
  destruct (IH (set_buf x st) Kx) as (x' & Hrun' & Kx' & Zx' & Fx). exists x'. split; [exact Hrun'|].
  split_and!; [done|intros i Hi; by apply Zx', Zx|]. constructor; [by apply Zx'|done].
Qed.

Lemma nulterminate_run h c : ∀ p f st, sheap st = h → den h c p → (p < f)%nat → kept (sbuf st) →
  ∃ x, nulterminate f p st = Ret (tt, set_buf x st) ∧ kept x ∧ zeros (sbuf st) x ∧ ended h x c p.
Proof using Type.
  induction c as [argv|c IH fl mode fd|l IHl r IHr|l IHl r IHr|c IH]; intros p f st Hh D Hf K; (destruct f as [|f]; [lia|]);
    cbn [den nulterminate] in *; (rewrite (bind_ret_eval _ _ _ st st) by done); rewrite Hh.
  - destruct D as (a & Ha & F). rewrite Ha. rewrite (bind_ret_eval _ _ _ (NExec a) st) by done.
    destruct (nul_args_run a argv F st K) as (x & Hrun & Kx & Zx & Fx). exists x. split_and!; try done. by exists a.
  - destruct D as (p' & q & e & Hp & Hlt & Hs & D). rewrite Hp, (bind_ret_eval _ _ _ (NRedir p' q e mode fd) st) by done.
    destruct (IH p' f st Hh D ltac:(lia) K) as (x & Hrun & Kx & Zx & Ex). erewrite bind_ret_eval by exact Hrun.
    destruct (put_nul_run (set_buf x st) q e fl Kx Hs) as (x' & Hrun' & Kx' & Zx' & Ee). exists x'. split; [exact Hrun'|].
    split_and!; [done|intros i Hi; by apply Zx', Zx|]. exists p', q, e. split_and!; [done|done|]. by eapply ended_zeros.
  - destruct D as (pl & pr & Hp & H1 & H2 & D1 & D2). rewrite Hp, (bind_ret_eval _ _ _ (NPipe pl pr) st) by done.
    destruct (IHl pl f st Hh D1 ltac:(lia) K) as (x & Hrun & Kx & Zx & Ex). erewrite bind_ret_eval by exact Hrun.
    destruct (IHr pr f (set_buf x st) Hh D2 ltac:(lia) Kx) as (x' & Hrun' & Kx' & Zx' & Ex'). exists x'. split; [exact Hrun'|].
    split_and!; [done|intros i Hi; by apply Zx', Zx|]. exists pl, pr. split_and!; [done|by eapply ended_zeros|done].
  - destruct D as (pl & pr & Hp & H1 & H2 & D1 & D2). rewrite Hp, (bind_ret_eval _ _ _ (NList pl pr) st) by done.
    destruct (IHl pl f st Hh D1 ltac:(lia) K) as (x & Hrun & Kx & Zx & Ex). erewrite bind_ret_eval by exact Hrun.
    destruct (IHr pr f (set_buf x st) Hh D2 ltac:(lia) Kx) as (x' & Hrun' & Kx' & Zx' & Ex'). exists x'. split; [exact Hrun'|].
    split_and!; [done|intros i Hi; by apply Zx', Zx|]. exists pl, pr. split_and!; [done|by eapply ended_zeros|done].
  - destruct D as (p' & Hp & Hlt & D). rewrite Hp, (bind_ret_eval _ _ _ (NBack p') st) by done.
    destruct (IH p' f st Hh D ltac:(lia) K) as (x & Hrun & Kx & Zx & Ex). exists x. split_and!; try done. by exists p'.
Qed.
End terminate.

(** * parsecmd *)

Lemma lex_length s : (length (lex s) ≤ length s)%nat.
Proof.
  unfold lex. generalize (length s) at 1 as n. intros n. revert s. induction n as [|n IH]; intros s; cbn [lex_go]; [simpl; lia|].
  pose proof (drop_ws_length s) as Hl. destruct (drop_ws s) as [|c r] eqn:Ed; [simpl; lia|]. simpl in Hl.
  destruct (has symbols c) eqn:Es.
  - destruct r as [|d r']; [simpl in *; lia|]. simpl in Hl. destruct ((c =? 62) && (d =? 62)); simpl.
    + pose proof (IH r'). lia.
    + pose proof (IH (d :: r')). simpl in *. lia.
  - rewrite drop_word_less by (done || by eapply drop_ws_cons). pose proof (drop_word_length r). pose proof (IH (drop_word r)).
    change (S (length (lex_go n (drop_word r))) ≤ length s)%nat. lia.
Qed.

Lemma line_parsed f ts c : Forall valid ts → (4 * length ts + 4 ≤ f)%nat → g_line ts c ↔ t_line f ts = Ret (c, []).
Proof.
  intros Hv Hf. split.
  - intros G. pose proof (proj1 parse_complete ts c G f [] (or_introl eq_refl) Hf) as E. by rewrite app_nil_r in E.
  - intros H. apply parse_sound in H as (us & -> & G); [|done]. by rewrite app_nil_r.
Qed.

Lemma parsecmd_run line pad :
  Forall (λ c, c ≠ 0) line →
  (∃ c p st, parsecmd (sh_init (line ++ 0 :: pad)) = Ret (p, st) ∧ load (S p) (sheap st) (sbuf st) p = Some c
     ∧ ∀ d, g_line (lex line) d ↔ d = c)
  ∨ (∃ m, parsecmd (sh_init (line ++ 0 :: pad)) = Panic m ∧ ∀ d, ¬ g_line (lex line) d).
Proof.
  intros Hnz. set (st0 := sh_init (line ++ 0 :: pad)). set (f := parse_fuel (length line)).
  assert (Hv : Forall valid (lex line)) by apply lex_valid. pose proof (lex_length line) as Hlen.
  assert (Hf : (4 * length (lex line) + 4 ≤ f)%nat) by (unfold f, parse_fuel; lia).
  assert (A0 : at_ line pad st0 (lex line)) by (split; [done|simpl; lia|done]).
  destruct (sim_parse line pad Hnz f st0 (lex line) A0) as (S & _). pose proof (proj1 (parse_settled f) (lex line) Hv Hf) as Hset.
  assert (Hd : ∀ d, g_line (lex line) d ↔ t_line f (lex line) = Ret (d, [])) by (intros d; by apply line_parsed).
  unfold parsecmd. rewrite (bind_ret_eval _ _ _ st0 st0) by done. cbn [sbuf st0 sh_init]. rewrite upto_nul_word by done. fold f.
  destruct (parseline f (length line) st0) as [[p st]|m| |] eqn:Ep, (t_line f (lex line)) as [[c ts']|m'| |] eqn:Et; try done.
  - destruct S as (A & _ & D & Hp). erewrite bind_ret_eval by exact Ep.
    destruct (peek_spec line pad Hnz st ts' [] A ltac:(constructor)) as (st1 & Ek & Eh & A1 & Hpos). erewrite bind_ret_eval by exact Ek.
    rewrite (bind_ret_eval _ _ _ (spos st1) st1), (bind_ret_eval _ _ _ (sbuf st1) st1) by done.
    destruct (Nat.eqb_spec (spos st1) (length line)) as [E|E]; cbn [negb].
    + left. apply Hpos in E as ->. exists c. destruct (nulterminate_run line pad (sheap st1) c p (Datatypes.S p) st1) as (x & Hrun & K & _ & En); [done|by rewrite Eh|lia| |].
      { rewrite (at_buf _ _ _ _ A1). split; [done|]. intros i ch Hi _. by apply lookup_app_l_Some. }
      exists p, (set_buf x st1). split; [by erewrite bind_ret_eval by exact Hrun|]. split.
      * eapply load_ended; [exact Hnz|exact K|simpl; by rewrite Eh|exact En|lia].
      * intros d. rewrite Hd. split; congruence.
    + right. eexists. split; [done|]. intros d. rewrite Hd. intros H. injection H as _ ->. tauto.
  - right. exists m. split; [unfold bind at 1; by rewrite Ep|]. intros d. by rewrite Hd.
Qed.

(** C18. The shell's parser accepts exactly the lines of the grammar: on such a
    line parsecmd returns the node of the only command the line stands for,
    with every word ended by a NUL; on any other line it panics. *)
Theorem parsecmd_correct line pad :
  Forall (λ c, c ≠ 0) line →
  (∃ c p st, parsecmd (sh_init (line ++ 0 :: pad)) = Ret (p, st) ∧ load (S p) (sheap st) (sbuf st) p = Some c
     ∧ ∀ d, g_line (lex line) d ↔ d = c)
  ∨ (∃ m, parsecmd (sh_init (line ++ 0 :: pad)) = Panic m ∧ ∀ d, ¬ g_line (lex line) d).
Proof. apply parsecmd_run. Qed.

Definition ex_line : list Z := cs "cat <in | wc >out &".

Lemma parsecmd_correct_witness :
  (∃ c p st, parsecmd (sh_init (ex_line ++ 0 :: [])) = Ret (p, st) ∧ load (S p) (sheap st) (sbuf st) p = Some c
     ∧ ∀ d, g_line (lex ex_line) d ↔ d = c)
  ∨ (∃ m, parsecmd (sh_init (ex_line ++ 0 :: [])) = Panic m ∧ ∀ d, ¬ g_line (lex ex_line) d).
Proof. apply (parsecmd_correct ex_line []). apply (bool_decide_unpack _). vm_compute. exact I. Defined.

(** The command of that line. *)
Example ex_line_parsed :
  match parsecmd (sh_init (ex_line ++ [0])) with
  | Ret (p, st) => load (S p) (sheap st) (sbuf st) p = Some (Back (Pipe (Redir (Exec [cs "cat"]) (cs "in") O_RDONLY 0)
      (Redir (Exec [cs "wc"]) (cs "out") O_WRCR 1)))
  | _ => False
  end.
Proof. vm_compute. reflexivity. Qed.
