(* ===== verification/ShRun.v ===== *)
(** The shell from its input to the programs it starts: runcmd of sh.c, with
    the descriptors that programs start with, getcmd with gets of ulib.c, and
    the loop of main of sh.c. *)

From S2P Require Import Prelude Params Cstring Sysfile User Sh ShLex ShParse ShGrammar ShProps.

(** * What the system calls do to a process *)

Inductive obj : Type :=
| Given (n : nat)                         (* open before the command *)
| Opened (file : list Z) (mode : Z)
| PipeEnd (n : nat) (write : bool).       (* an end of the n-th pipe *)
Abbreviation fds := (list (option obj)).

(** The directories a process has entered one after the other. *)
Abbreviation dirs := (list (list Z)).

(** A program that starts, with the descriptors and the directory it starts
    with; a process that waits for a child, with its descriptors; a process
    that enters a directory; bytes that are written to what descriptor 2
    stands for; and the end of a loop's turns. *)
Inductive event : Type :=
| Starts (argv : list (list Z)) (t : fds) (d : dirs)
| Waits (t : fds)
| Enters (d : dirs)
| Says (s : list Z) (o : option obj)
| Stuck.

(** What the processes share: the pipes made so far, and the bytes that are
    left of the input of the shell. *)
Record world : Type := MkWorld { w_np : nat; w_src : list Z }.

(** The descriptor that fdalloc of sysfile.c takes. *)
Fixpoint lowest (t : fds) : option nat :=
  match t with
  | [] => None
  | None :: _ => Some 0%nat
  | Some _ :: t' => S <$> lowest t'
  end.

(** What descriptor 2 stands for. *)
Definition err (t : fds) : option obj := mjoin (t !! 2%nat).

Section run.
(** which exec, open and chdir succeed, from a directory, and the input that
    a program takes *)
Context (found : dirs → list (list Z) → bool) (opens : dirs → list Z → Z → bool) (enters : dirs → list Z → bool).
Context (eats : list (list Z) → fds → list Z → nat).
Context (child : Z) (Hchild : 0 < child).                             (* what fork returns to the parent *)

(** The rest of the input, once a program has run. *)
Definition fed (argv : list (list Z)) (t : fds) (w : world) : world := MkWorld (w_np w) (drop (eats argv t (w_src w)) (w_src w)).

(** The events of a process and its children, and the world afterwards. *)
Fixpoint run (a : act) (t : fds) (d : dirs) (w : world) : list event * world :=
  match a with
  | AExit => ([], w)
  | AExec argv k => if found d argv then ([Starts argv t d], fed argv t w) else run k t d w
  | AOpen file mode k =>
      match lowest t with
      | Some i => if opens d file mode then run (k (Z.of_nat i)) (<[i := Some (Opened file mode)]> t) d w else run (k (-1)) t d w
      | None => run (k (-1)) t d w
      end
  | AClose fd k => run k (<[Z.to_nat fd := None]> t) d w
  | ADup fd k =>
      match lowest t, t !! Z.to_nat fd with
      | Some i, Some (Some o) => run k (<[i := Some o]> t) d w
      | _, _ => run k t d w
      end
  | APipe k =>
      match lowest t with
      | Some i =>
          let t1 := <[i := Some (PipeEnd (w_np w) false)]> t in
          match lowest t1 with
          | Some j => run (k (Some (Z.of_nat i, Z.of_nat j))) (<[j := Some (PipeEnd (w_np w) true)]> t1) d (MkWorld (S (w_np w)) (w_src w))
          | None => run (k None) t d w
          end
      | None => run (k None) t d w
      end
  | AFork k => let c := run (k 0) t d w in let p := run (k child) t d c.2 in (c.1 ++ p.1, p.2)
  | AWait k => let r := run k t d w in (Waits t :: r.1, r.2)
  | AChdir dir k =>
      if enters d dir then let r := run (k 0) t (d ++ [dir]) w in (Enters (d ++ [dir]) :: r.1, r.2) else run (k (-1)) t d w
  | ARead k =>
      match t !! 0%nat, w_src w with
      | Some (Some _), c :: src => run (k (Some c)) t d (MkWorld (w_np w) src)
      | _, _ => run (k None) t d w
      end
  | APrint s k => let r := run k t d w in (Says s (err t) :: r.1, r.2)
  | AStuck => ([Stuck], w)
  end.

(** * What a command is meant to do *)

Fixpoint expect (c : cmd) (t : fds) (d : dirs) (w : world) : list event * world :=
  match c with
  | Exec [] => ([], w)
  | Exec (a :: argv) =>
      if found d (a :: argv) then ([Starts (a :: argv) t d], fed (a :: argv) t w)
      else ([Says (cs "exec " ++ a ++ cs " failed" ++ [10]) (err t)], w)
  | Redir c file mode fd =>
      if opens d file mode then expect c (<[Z.to_nat fd := Some (Opened file mode)]> t) d w
      else ([Says (cs "open " ++ file ++ cs " failed" ++ [10]) (err t)], w)
  | List l r => let x := expect l t d w in let y := expect r t d x.2 in (x.1 ++ Waits t :: y.1, y.2)
  | Pipe l r =>
      let np := w_np w in
      let x := expect l (<[1%nat := Some (PipeEnd np true)]> t) d (MkWorld (S np) (w_src w)) in
      let y := expect r (<[0%nat := Some (PipeEnd np false)]> t) d x.2 in
      (x.1 ++ y.1 ++ [Waits t; Waits t], y.2)
  | Back c => expect c t d w
  end.

(** Redirections of the input and of the output. *)
Fixpoint plain (c : cmd) : Prop :=
  match c with
  | Exec _ => True
  | Redir c _ _ fd => (fd = 0 ∨ fd = 1) ∧ plain c
  | Pipe l r => plain l ∧ plain r
  | List l r => plain l ∧ plain r
  | Back c => plain c
  end.

(** The first three descriptors are open, and no others. *)
Definition std (t : fds) : Prop := ∃ a b e, t = Some a :: Some b :: Some e :: replicate 13 None.

Lemma fork1_run (k k' : act) t d w :
  run (fork1 (λ pid, if pid =? 0 then k else k')) t d w = ((run k t d w).1 ++ (run k' t d (run k t d w).2).1, (run k' t d (run k t d w).2).2).
Proof using Hchild.
  unfold fork1. cbn [run]. change (0 =? -1) with false. change (0 =? 0) with true.
  rewrite (proj2 (Z.eqb_neq child (-1))), (proj2 (Z.eqb_neq child 0)) by lia. done.
Qed.

Lemma run_expect c : plain c → ∀ t d w, std t → run (runcmd c) t d w = expect c t d w.
Proof using Hchild.
  induction c as [argv|c IH file mode fd|l IHl r IHr|l IHl r IHr|c IH]; intros Hp t d w (a & b & e & ->).
  - destruct argv as [|x argv]; cbn [runcmd run expect]; [done|]. by destruct (found d (x :: argv)).
  - destruct Hp as [Hfd Hp]. cbn [runcmd run expect].
    destruct Hfd as [-> | ->]; [change (Z.to_nat 0) with 0%nat|change (Z.to_nat 1) with 1%nat]; simpl;
      (destruct (opens d file mode); [|done]); (rewrite IH; [done|done|]); by eexists _, _, _.
  - destruct Hp as [Hl Hr]. simpl. rewrite (proj2 (Z.eqb_neq child (-1))), (proj2 (Z.eqb_neq child 0)) by lia. simpl.
    rewrite (proj2 (Z.eqb_neq child (-1))), (proj2 (Z.eqb_neq child 0)) by lia. simpl.
    rewrite !IHl, !IHr by (done || by eexists _, _, _). done.
  - destruct Hp as [Hl Hr]. cbn [runcmd expect]. rewrite fork1_run. cbn [run]. rewrite IHl, IHr by (done || by eexists _, _, _). done.
  - cbn [runcmd expect]. rewrite fork1_run. cbn [run]. rewrite IH by (done || by eexists _, _, _). cbn [fst snd]. rewrite app_nil_r. by destruct (expect c _ d w).
Qed.
End run.

(** The commands of the grammar are plain. *)
Lemma wrap_plain rs : ∀ c, Forall (λ r : redir, r.2 = 0 ∨ r.2 = 1) rs → plain c → plain (wrap rs c).
Proof. induction rs as [|r rs IH]; intros c Hr Hc; [done|]. apply Forall_cons in Hr as [H Hr]. by apply IH. Qed.

Lemma redir_of_fd t w : (redir_of t w).2 = 0 ∨ (redir_of t w).2 = 1.
Proof. destruct t as [[|c]|]; simpl; [auto| |auto]. destruct (c =? 60); auto. Qed.

Lemma words_plain us a rs : g_words us a rs → Forall (λ r : redir, r.2 = 0 ∨ r.2 = 1) rs.
Proof. induction 1; [constructor|done|]. constructor; [apply redir_of_fd|done]. Qed.

Lemma redirs_plain us rs : g_redirs us rs → Forall (λ r : redir, r.2 = 0 ∨ r.2 = 1) rs.
Proof. induction 1; constructor; [apply redir_of_fd|done]. Qed.

Lemma grammar_plain :
  (∀ us c, g_line us c → plain c) ∧ (∀ us c, g_back us c → plain c) ∧ (∀ us c, g_pipe us c → plain c) ∧ (∀ us c, g_exec us c → plain c).
Proof. apply g_mut; try done; intros; apply wrap_plain; eauto using words_plain, redirs_plain. done. Qed.

(** A command line starts the programs it names with the descriptors it
    asks for: a redirection puts the file at descriptor 0 or 1, a pipe joins
    descriptor 1 of its left side to descriptor 0 of its right side, no
    program and no process that waits keeps another end of a pipe open, and
    everything else is passed on. *)
Theorem runcmd_descriptors found opens enters eats child ts c t d w :
  0 < child → g_line ts c → std t → run found opens enters eats child (runcmd c) t d w = expect found opens eats c t d w.
Proof. intros Hc G Hs. apply run_expect; [done|by apply (proj1 grammar_plain ts)|done]. Qed.

Definition ex_std : fds := Some (Given 0) :: Some (Given 1) :: Some (Given 2) :: replicate 13 None.

(** The line "cat <in | wc >out &". *)
Lemma runcmd_descriptors_witness :
  let c := Back (Pipe (Redir (Exec [cs "cat"]) (cs "in") O_RDONLY 0) (Redir (Exec [cs "wc"]) (cs "out") O_WRCR 1)) in
  let w := MkWorld 0 [] in
  run (λ _ _, true) (λ _ _ _, true) (λ _ _, true) (λ _ _ _, 0%nat) 7 (runcmd c) ex_std [] w
  = expect (λ _ _, true) (λ _ _ _, true) (λ _ _ _, 0%nat) c ex_std [] w.
Proof.
  apply (runcmd_descriptors (λ _ _, true) (λ _ _ _, true) (λ _ _, true) (λ _ _ _, 0%nat) 7 (lex ex_line)); [lia| |by eexists _, _, _].
  apply (line_parsed 200); [apply lex_valid|vm_compute; lia|vm_compute; reflexivity].
Defined.

(** * The lines of the input *)

(** A newline or a carriage return. *)
Definition eol (c : Z) : Prop := c = 10 ∨ c = 13.

(** [l] is the next line of the input, the end of line included, cut after
    [n] bytes or at the end of the input. *)
Definition next_line (n : nat) (src l rest : list Z) : Prop :=
  src = l ++ rest ∧ (length l ≤ n)%nat ∧ (∀ i c, l !! i = Some c → eol c → S i = length l)
  ∧ ((∃ c, last l = Some c ∧ eol c) ∨ length l = n ∨ rest = []).

Lemma next_line_nil n : next_line n [] [] [].
Proof. split_and!; [done|simpl; lia|done|auto]. Qed.

Lemma next_line_eol n c src : eol c → next_line (S n) (c :: src) [c] src.
Proof.
  intros Hc. split_and!; [done|simpl; lia| |left; by exists c]. intros [|i] x Hx _; [done|]. by rewrite lookup_cons_ne_0 in Hx.
Qed.

Lemma next_line_cons n c src l rest : ¬ eol c → next_line n src l rest → next_line (S n) (c :: src) (c :: l) rest.
Proof.
  intros Hc (-> & Hl & He & Hend). split_and!; [done|simpl; lia| |].
  - intros [|i] x Hx Hx'; [by injection Hx as ->|]. simpl. f_equal. by apply (He i x).
  - destruct Hend as [(x & Hx & Hx')|[Hn| ->]]; [left|right; left; simpl; lia|auto].
    exists x. split; [|done]. rewrite last_cons, Hx. done.
Qed.

(** The text of a line in its buffer, up to the first NUL. *)
Lemma upto_nul_nz l : Forall (λ c, c ≠ 0) (upto_nul l).
Proof. induction l as [|c l IH]; cbn [upto_nul]; [constructor|]. destruct (Z.eqb_spec c 0); by constructor. Qed.

Lemma upto_nul_split l r : ∃ pad, l ++ 0 :: r = upto_nul l ++ 0 :: pad.
Proof.
  induction l as [|c l [pad IH]]; cbn [upto_nul]; [by exists r|]. destruct (Z.eqb_spec c 0) as [->|]; [by eexists|]. exists pad. cbn. by f_equal.
Qed.

Lemma line_buf_nul line : (length line ≤ 99)%nat → ∃ pad, line_buf 100 line = upto_nul line ++ 0 :: pad.
Proof.
  intros H. unfold line_buf. destruct (100 - length line)%nat as [|n] eqn:E; [lia|]. apply upto_nul_split.
Qed.

Lemma is_cd_text text pad : is_cd (text ++ 0 :: pad) = true ↔ cs "cd " `prefix_of` text.
Proof.
  unfold is_cd. rewrite !andb_true_iff, !Z.eqb_eq. split.
  - intros [[H1 H2] H3]. destruct text as [|a [|b [|c text]]]; try done. cbn in *. subst. by exists text.
  - intros [arg ->]. done.
Qed.

Lemma chop_text arg pad : Forall (λ c, c ≠ 0) arg → str_at (chop (cs "cd " ++ arg ++ 0 :: pad)) 3 = removelast arg.
Proof.
  intros Hnz. unfold chop, str_at. rewrite (app_assoc (cs "cd ")), upto_nul_word by (apply Forall_app; split; [by repeat constructor|done]).
  rewrite <- app_assoc. destruct arg as [|x arg _] using rev_ind; [done|]. rewrite removelast_last. rewrite !length_app.
  replace (length (cs "cd ") + (length arg + length [x]) - 1)%nat with (length (cs "cd ") + (length arg + 0))%nat by (simpl; lia).
  rewrite insert_app_r, <- app_assoc, insert_app_r. change 3%nat with (length (cs "cd ")). rewrite drop_app_length. cbn [app insert list_insert].
  apply Forall_app in Hnz as [Hnz _]. by apply upto_nul_word.
Qed.

(** * The session *)

Section session.
Context (found : dirs → list (list Z) → bool) (opens : dirs → list Z → Z → bool) (enters : dirs → list Z → bool).
Context (eats : list (list Z) → fds → list Z → nat) (child : Z) (Hchild : 0 < child).

Definition prompt (t : fds) : event := Says (cs "$ ") (err t).

(** What a shell with descriptors [t] does from a directory on the input: it
    prompts and takes the next line.  At the end, or at a line that starts
    with a NUL, it exits.  For a cd it goes to the directory that the line
    names, the last character dropped, or says that it cannot.  For a line of
    the grammar the programs of its command run, for another line there is a
    message, and then the shell waits, with the descriptors it had. *)
Inductive session (t : fds) : dirs → world → list event → world → Prop :=
| se_end d np src l rest : next_line 99 src l rest → upto_nul l = [] →
    session t d (MkWorld np src) [prompt t] (MkWorld np rest)
| se_cd d np src l rest arg ev w' : next_line 99 src l rest → upto_nul l = cs "cd " ++ arg →
    let dir := removelast arg in
    enters d dir = true → session t (d ++ [dir]) (MkWorld np rest) ev w' →
    session t d (MkWorld np src) (prompt t :: Enters (d ++ [dir]) :: ev) w'
| se_nocd d np src l rest arg ev w' : next_line 99 src l rest → upto_nul l = cs "cd " ++ arg →
    let dir := removelast arg in
    enters d dir = false → session t d (MkWorld np rest) ev w' →
    session t d (MkWorld np src) (prompt t :: Says (cs "cannot cd " ++ dir ++ [10]) (err t) :: ev) w'
| se_run d np src l rest c ev w' : next_line 99 src l rest → upto_nul l ≠ [] → ¬ cs "cd " `prefix_of` upto_nul l →
    g_line (lex (upto_nul l)) c →
    let r := expect found opens eats c t d (MkWorld np rest) in
    session t d r.2 ev w' → session t d (MkWorld np src) (prompt t :: r.1 ++ Waits t :: ev) w'
| se_bad d np src l rest m ev w' : next_line 99 src l rest → upto_nul l ≠ [] → ¬ cs "cd " `prefix_of` upto_nul l →
    (∀ c, ¬ g_line (lex (upto_nul l)) c) → session t d (MkWorld np rest) ev w' →
    session t d (MkWorld np src) (prompt t :: Says (m ++ [10]) (err t) :: Waits t :: ev) w'.

Abbreviation go := (run found opens enters eats child).

Lemma gets_loop_run t d o n : t !! 0%nat = Some (Some o) → ∀ l k np src,
  ∃ m rest, next_line n src m rest ∧ go (gets_loop n l k) t d (MkWorld np src) = go (k (l ++ m)) t d (MkWorld np rest).
Proof using.
  intros Ht. induction n as [|n IH]; intros l k np src.
  { exists [], src. rewrite app_nil_r. split; [|done]. split_and!; [done|simpl; lia|done|auto]. }
  cbn [gets_loop run w_src w_np]. rewrite Ht. destruct src as [|c src].
  { exists [], []. rewrite app_nil_r. split; [apply next_line_nil|done]. }
  destruct ((c =? 10) || (c =? 13)) eqn:E.
  - exists [c], src. split; [|done]. apply next_line_eol. unfold eol. lia.
  - destruct (IH (l ++ [c]) k np src) as (m & rest & Hm & Er). exists (c :: m), rest. rewrite Er, <- app_assoc.
    split; [|done]. apply next_line_cons; [unfold eol; lia|done].
Qed.

Lemma getcmd_run t d o k np src : t !! 0%nat = Some (Some o) →
  ∃ l rest pad, next_line 99 src l rest ∧
    let r := go (k (if decide (upto_nul l = []) then -1 else 0) (upto_nul l ++ 0 :: pad)) t d (MkWorld np rest) in
    go (getcmd 100 k) t d (MkWorld np src) = (prompt t :: r.1, r.2).
Proof using.
  intros Ht. unfold getcmd, ugets. change (100 - 1)%nat with 99%nat. cbn [run].
  pose (k' := λ line : list Z, let buf := line_buf 100 line in if chr buf 0 =? 0 then k (-1) buf else k 0 buf).
  destruct (gets_loop_run t d o 99 Ht [] k' np src) as (l & rest & Hl & E). exists l, rest.
  destruct (line_buf_nul l) as [pad Hp]; [apply Hl|]. exists pad. split; [done|].
  assert (Ek : k' l = k (if decide (upto_nul l = []) then -1 else 0) (upto_nul l ++ 0 :: pad)).
  { unfold k'. cbv zeta. rewrite Hp. pose proof (upto_nul_nz l) as Hnz. destruct (upto_nul l) as [|c text]; [done|].
    apply Forall_cons in Hnz as [Hc _]. change (chr ((c :: text) ++ 0 :: pad) 0) with c. by rewrite (proj2 (Z.eqb_neq c 0)). }
  cbv zeta. rewrite <- Ek. fold k'. by rewrite E.
Qed.

Lemma run_line_cases text pad t d w : Forall (λ c, c ≠ 0) text → std t →
  (∃ c, g_line (lex text) c ∧ go (run_line (text ++ 0 :: pad)) t d w = expect found opens eats c t d w)
  ∨ (∀ c, ¬ g_line (lex text) c) ∧ ∃ m, go (run_line (text ++ 0 :: pad)) t d w = ([Says (m ++ [10]) (err t)], w).
Proof using Hchild.
  intros Hnz Ht. unfold run_line.
  destruct (parsecmd_run text pad Hnz) as [(c & p & st & E & L & G)|(m & E & G)]; rewrite E.
  - left. exists c. assert (Hc : g_line (lex text) c) by (by apply G). split; [done|]. rewrite L.
    apply run_expect; [done|by apply (proj1 grammar_plain (lex text))|done].
  - right. split; [done|]. by exists (cs m).
Qed.

Lemma expect_src c : ∀ t d w, (length (w_src (expect found opens eats c t d w).2) ≤ length (w_src w))%nat.
Proof using.
  induction c as [argv|c IH file mode fd|l IHl r IHr|l IHl r IHr|c IH]; intros t d w; cbn [expect].
  - destruct argv as [|a argv]; [done|]. destruct (found d (a :: argv)); [|done]. cbn. rewrite length_drop. lia.
  - destruct (opens d file mode); [apply IH|done].
  - etrans; [apply IHr|]. etrans; [apply IHl|]. done.
  - etrans; [apply IHr|]. apply IHl.
  - apply IH.
Qed.

(** A line with some text takes a byte of the input. *)
Lemma next_line_less n src l rest : next_line n src l rest → upto_nul l ≠ [] → (length rest < length src)%nat.
Proof using. intros (-> & _) Hl. rewrite length_app. destruct l; [done|simpl; lia]. Qed.

Lemma main_loop_session t : std t → ∀ n d w, (length (w_src w) < n)%nat →
  ∃ ev w', go (main_loop n) t d w = (ev, w') ∧ session t d w ev w'.
Proof using Hchild.
  intros Ht. assert (Ht0 : ∃ o, t !! 0%nat = Some (Some o)) by (destruct Ht as (a & b & e & ->); by eexists). destruct Ht0 as [o Ho].
  induction n as [|n IH]; intros d [np src] Hn; [lia|]. cbn [main_loop w_src] in *.
  match goal with |- context [getcmd 100 ?k] => destruct (getcmd_run t d o k np src Ho) as (l & rest & pad & Hl & E) end.
  rewrite E. eexists _, _. split; [done|]. clear E. destruct (decide (upto_nul l = [])) as [He|He]; [by eapply se_end|].
  pose proof (next_line_less 99 src l rest Hl He) as Hless. change (0 <=? 0) with true. cbv iota.
  destruct (is_cd (upto_nul l ++ 0 :: pad)) eqn:Ecd.
  - apply is_cd_text in Ecd as [arg Earg]. pose proof (upto_nul_nz l) as Hnz. rewrite Earg in Hnz |- *. apply Forall_app in Hnz as [_ Hnz].
    rewrite <- app_assoc. cbv zeta. rewrite chop_text by done. cbn [run]. destruct (enters d (removelast arg)) eqn:Een.
    + destruct (IH (d ++ [removelast arg]) (MkWorld np rest)) as (ev & w' & E & Hs); [simpl; lia|].
      change (0 <? 0) with false. cbv iota. rewrite E. by eapply se_cd.
    + destruct (IH d (MkWorld np rest)) as (ev & w' & E & Hs); [simpl; lia|].
      change (-1 <? 0) with true. cbv iota. cbn [run]. rewrite E. by eapply se_nocd.
  - assert (Hcd : ¬ cs "cd " `prefix_of` upto_nul l) by (rewrite <- (is_cd_text _ pad); congruence).
    rewrite fork1_run by done. cbn [run fst snd].
    destruct (run_line_cases (upto_nul l) pad t d (MkWorld np rest) (upto_nul_nz l) Ht) as [(c & G & E)|[G [m E]]]; rewrite E.
    + destruct (IH d (expect found opens eats c t d (MkWorld np rest)).2) as (ev & w' & E' & Hs).
      { pose proof (expect_src c t d (MkWorld np rest)) as Hx. simpl in Hx. lia. }
      rewrite E'. cbn [fst snd]. by eapply se_run.
    + destruct (IH d (MkWorld np rest)) as (ev & w' & E' & Hs); [simpl; lia|]. cbn [fst snd]. rewrite E'. cbn [fst snd app]. by eapply se_bad.
Qed.

(** The shell's descriptors when it starts with the first ones open: the
    console at those of the first three that are not. *)
Definition with_console (d : dirs) (t0 t : fds) : Prop :=
  ∃ l : list obj, (length l = 3%nat ∨ (length l < 3)%nat ∧ opens d (cs "console") O_RDWR = true)
    ∧ t0 = (Some <$> l) ++ replicate (16 - length l) None
    ∧ t = (Some <$> l) ++ replicate (3 - length l) (Some (Opened (cs "console") O_RDWR)) ++ replicate 13 None.

Lemma open_console_run d t0 t k w : with_console d t0 t → go (open_console 4 k) t0 d w = go k t d w.
Proof using.
  intros (l & Hl & -> & ->). unfold open_console. set (con := cs "console") in *. set (rw := O_RDWR) in *. clearbody con rw. cbn [run].
  destruct l as [|a [|b [|e [|]]]]; cbn [length] in Hl; destruct Hl as [Hl|[Hl Ho]]; try lia;
    [do 4 (rewrite ?Ho; simpl); done..|simpl; by destruct (opens d con rw)].
Qed.

Lemma with_console_std d t0 t : with_console d t0 t → std t.
Proof using. intros (l & Hl & _ & ->). destruct l as [|a [|b [|e [|]]]]; cbn [length] in Hl; [..|lia]; by eexists _, _, _. Qed.
End session.

(** C13. From its input to the programs it starts: the shell opens the
    console until its first three descriptors are open, and then reads its
    input line by line, to the end of a line or 99 bytes, with a prompt
    before each.  It changes to the directory of a cd itself, or says that it
    cannot; for every other line it starts exactly the programs that the
    grammar gives the line, in its directory and with the descriptors the
    line asks for, says which file or program is not there, and waits; for a
    line outside the grammar it starts none and gives a message.  It ends
    with its input.  fork is assumed to succeed; what exec, open and chdir do
    and what a program takes from the input are arbitrary. *)
Theorem sh_session found opens enters eats child t0 t d np src n :
  0 < child → with_console opens d t0 t → (length src < n)%nat →
  ∃ ev w', run found opens enters eats child (sh_main n) t0 d (MkWorld np src) = (ev, w')
    ∧ session found opens enters eats t d (MkWorld np src) ev w'.
Proof.
  intros Hc Ht Hn. destruct (main_loop_session found opens enters eats child Hc t (with_console_std opens d t0 t Ht) n d (MkWorld np src) Hn) as (ev & w' & E & H).
  exists ev, w'. split; [|done]. rewrite <- E. unfold sh_main. by apply open_console_run.
Qed.

(** A cat that reads the shell's input takes three bytes of it. *)
Definition ex_eats (argv : list (list Z)) (t : fds) (src : list Z) : nat :=
  match argv, t with [[99; 97; 116]], Some (Given 0) :: _ => 3%nat | _, _ => 0%nat end.
Definition ex_input : list Z := cs "cd d
cat
hi
cd no
ls >o;(
ls >o".

(** The shell starts with two descriptors; there is no directory "no". *)
Lemma sh_session_witness :
  let t0 := Some (Given 0) :: Some (Given 1) :: replicate 14 None in
  let con := Opened (cs "console") O_RDWR in
  let t := Some (Given 0) :: Some (Given 1) :: Some con :: replicate 13 None in
  let enters := λ (_ : dirs) dir, bool_decide (dir = cs "d") in
  let says := λ s, Says (cs s) (Some con) in
  ∃ ev w', run (λ _ _, true) (λ _ _ _, true) enters ex_eats 7 (sh_main 99) t0 [] (MkWorld 0 ex_input) = (ev, w')
    ∧ ev = [says "$ "; Enters [cs "d"]; says "$ "; Starts [cs "cat"] t [cs "d"]; Waits t; says "$ "; says "cannot cd no
"; says "$ "; says "syntax - missing )
"; Waits t; says "$ "; Starts [cs "ls"] (<[1%nat := Some (Opened (cs "o") O_WRCR)]> t) [cs "d"]; Waits t; says "$ "]
    ∧ session (λ _ _, true) (λ _ _ _, true) enters ex_eats t [] (MkWorld 0 ex_input) ev w'.
Proof.
  intros t0 con t enters says. destruct (sh_session (λ _ _, true) (λ _ _ _, true) enters ex_eats 7 t0 t [] 0 ex_input 99) as (ev & w' & E & H).
  - lia.
  - exists [Given 0; Given 1]. split; [right; split; [simpl; lia|reflexivity]|split; reflexivity].
  - vm_compute. lia.
  - exists ev, w'. split; [exact E|]. split; [|exact H]. vm_compute in E. injection E as <- _. reflexivity.
Defined.
