(* ===== verification/Console.v ===== *)
(** The console, console.c, and the output side of uart.c: formatted output,
    the screen, the editing of the input line, and reads.

    A call runs under cons.lock until it returns or sleeps.  The screen is
    its 25 rows of cells and the two cursor registers; what goes to the serial
    line is kept as the list of its bytes. *)

From S2P Require Import Prelude Params.

Definition BACKSPACE : Z := 256.
Definition INPUT_BUF : Z := 128.

Record con : Type := MkCon {
  ibuf : list Z; ir : Z; iw : Z; ie : Z;     (* input: INPUT_BUF bytes, r, w, e *)
  crt : list Z; crt_hi : Z; crt_lo : Z;      (* CGA memory, cursor registers 14 and 15 *)
  serial : list Z; uart : bool;
  panicked : bool
}.

Definition set_input (b : list Z) (r w e : Z) (s : con) : con :=
  MkCon b r w e (crt s) (crt_hi s) (crt_lo s) (serial s) (uart s) (panicked s).
Definition set_crt (c : list Z) (hi lo : Z) (s : con) : con :=
  MkCon (ibuf s) (ir s) (iw s) (ie s) c hi lo (serial s) (uart s) (panicked s).
Definition set_serial (l : list Z) (s : con) : con :=
  MkCon (ibuf s) (ir s) (iw s) (ie s) (crt s) (crt_hi s) (crt_lo s) l (uart s) (panicked s).

(** * Output *)

(** The wait for the transmitter, at most 128 polls, only takes time. *)
Definition uartputc (c : Z) : M con unit :=
  modify (λ s, if uart s then set_serial (serial s ++ [u8 c]) s else s).

(** crt[pos] = v *)
Definition crt_set (pos v : Z) (c : list Z) : option (list Z) :=
  if (0 <=? pos) && (pos <? Z.of_nat (length c)) then Some (<[Z.to_nat pos := v]> c) else None.

(** The memmove and the memset that scroll the screen up. *)
Definition scroll (pos : Z) (c : list Z) : list Z :=
  let c := take (23 * 80) (drop 80 c) ++ drop (23 * 80) c in
  take (Z.to_nat pos) c ++ replicate (24 * 80 - Z.to_nat pos) 0 ++ drop (24 * 80) c.

Definition cgaputc (c : Z) : M con unit :=
  s <- get ;;
  let pos := Z.lor (Z.shiftl (crt_hi s) 8) (crt_lo s) in
  r <- (if c =? 10 then ret (crt s, pos + (80 - pos mod 80))
        else if c =? BACKSPACE then ret (crt s, if 0 <? pos then pos - 1 else pos)
        else m <- of_option (crt_set pos (Z.lor (Z.land c 255) 1792) (crt s)) ;; ret (m, pos + 1)) ;;
  let '(m, pos) := r in
  if (pos <? 0) || (25 * 80 <? pos) then panic "pos under/overflow" else
  let '(m, pos) := if 24 <=? pos / 80 then (scroll (pos - 80) m, pos - 80) else (m, pos) in
  m <- of_option (crt_set pos (Z.lor 32 1792) m) ;;
  modify (set_crt m (u8 (Z.shiftr pos 8)) (u8 pos)).

Definition consputc (c : Z) : M con unit :=
  s <- get ;;
  if panicked s then panic "frozen" else
  (if c =? BACKSPACE then uartputc 8 ;;; uartputc 32 ;;; uartputc 8 else uartputc c) ;;;
  cgaputc c.

Fixpoint consputs (l : list Z) : M con unit :=
  match l with [] => ret tt | c :: l' => consputc c ;;; consputs l' end.

(** printint: the digits, least significant first, and the sign. *)
Definition kdigits : list Z := [48; 49; 50; 51; 52; 53; 54; 55; 56; 57; 97; 98; 99; 100; 101; 102].
Fixpoint kprint_digits (f : nat) (x base : Z) : list Z :=
  default 0 (kdigits !! Z.to_nat (x mod base)) ::
  match f with O => [] | S f' => if x / base =? 0 then [] else kprint_digits f' (x / base) base end.

Definition kprintint (xx base : Z) (sign : bool) : M con unit :=
  let neg := sign && (xx <? 0) in
  let x := if neg then u32 (- xx) else u32 xx in
  consputs (reverse (kprint_digits 32 x base ++ (if neg then [45] else []))).

Inductive karg : Type := KInt (x : Z) | KStr (s : option (list Z)).

Fixpoint cprintf (fmt : list Z) (argp : list karg) : M con unit :=
  match fmt with
  | [] => ret tt
  | c :: fmt =>
      if negb (c =? 37) then consputc c ;;; cprintf fmt argp
      else
        match fmt with
        | [] => ret tt
        | c :: fmt =>
            if c =? 100 then
              match argp with KInt x :: argp => kprintint x 10 true ;;; cprintf fmt argp | _ => undef end
            else if (c =? 120) || (c =? 112) then
              match argp with KInt x :: argp => kprintint x 16 false ;;; cprintf fmt argp | _ => undef end
            else if c =? 115 then
              match argp with
              | KStr s :: argp => consputs (default [40; 110; 117; 108; 108; 41] s) ;;; cprintf fmt argp
              | _ => undef
              end
            else if c =? 37 then consputc 37 ;;; cprintf fmt argp
            else consputc 37 ;;; consputc c ;;; cprintf fmt argp
        end
  end.

Fixpoint consolewrite_loop (buf : list Z) : M con unit :=
  match buf with [] => ret tt | c :: buf' => consputc (Z.land c 255) ;;; consolewrite_loop buf' end.
Definition consolewrite (buf : list Z) : M con Z := consolewrite_loop buf ;;; ret (Z.of_nat (length buf)).

(** * Input *)

Definition ctrl (x : Z) : Z := x - 64.

Definition in_byte (s : con) (i : Z) : option Z := ibuf s !! Z.to_nat (i mod INPUT_BUF).

(** input.e-- *)
Definition edit_back : M con unit := modify (λ s, set_input (ibuf s) (ir s) (iw s) (u32 (ie s - 1)) s).

(** Control-U: at most the characters from w to e. *)
Fixpoint kill_loop (n : nat) : M con unit :=
  s <- get ;;
  if ie s =? iw s then ret tt else
  b <- of_option (in_byte s (u32 (ie s - 1))) ;;
  if b =? 10 then ret tt else
  match n with
  | O => out_of_fuel
  | S n' => edit_back ;;; consputc BACKSPACE ;;; kill_loop n'
  end.

(** The switch of consoleintr; the result is whether to call procdump. *)
Definition console_key (c : Z) : M con bool :=
  s <- get ;;
  if c =? ctrl 80 then ret true
  else if c =? ctrl 85 then kill_loop (Z.to_nat (u32 (ie s - iw s))) ;;; ret false
  else if (c =? ctrl 72) || (c =? 127) then
    (if ie s =? iw s then ret tt else edit_back ;;; consputc BACKSPACE) ;;; ret false
  else if negb (c =? 0) && (u32 (ie s - ir s) <? INPUT_BUF) then
    let c := if c =? 13 then 10 else c in
    modify (λ s, set_input (<[Z.to_nat (ie s mod INPUT_BUF) := u8 c]> (ibuf s)) (ir s) (iw s) (u32 (ie s + 1)) s) ;;;
    consputc c ;;;
    s <- get ;;
    (if (c =? 10) || (c =? ctrl 68) || (ie s =? u32 (ir s + INPUT_BUF)) then
       modify (λ s, set_input (ibuf s) (ir s) (ie s) (ie s) s)      (* and wakeup(&input.r) *)
     else ret tt) ;;;
    ret false
  else ret false.

(** consoleintr on the characters that getc returns before a negative value. *)
Fixpoint consoleintr (cs : list Z) : M con bool :=
  match cs with
  | [] => ret false
  | c :: cs' => d <- console_key c ;; d' <- consoleintr cs' ;; ret (d || d')
  end.

(** How a call of consoleread goes on: it returns a count and the bytes it
    stored, or sleeps with [n] bytes still wanted, or returns -1. *)
Inductive crd : Type := CDone (r : Z) (bytes : list Z) | CSleep (n : Z) (bytes : list Z) | CKilled.

(** The loop under the lock, [n] of [target] bytes still wanted.  It is
    entered again here when the process wakes up. *)
Fixpoint consoleread_loop (fuel : nat) (killed : bool) (n target : Z) (bytes : list Z) : M con crd :=
  if 0 <? n then
    s <- get ;;
    if ir s =? iw s then ret (if killed then CKilled else CSleep n bytes) else
    c <- of_option (in_byte s (ir s)) ;;
    put (set_input (ibuf s) (u32 (ir s + 1)) (iw s) (ie s) s) ;;;
    if c =? ctrl 68 then
      (if n <? target then modify (λ s, set_input (ibuf s) (u32 (ir s - 1)) (iw s) (ie s) s) else ret tt) ;;;
      ret (CDone (s32 (target - n)) bytes)
    else if c =? 10 then ret (CDone (s32 (target - (n - 1))) (bytes ++ [c]))
    else
      match fuel with
      | O => out_of_fuel
      | S fuel' => consoleread_loop fuel' killed (n - 1) target (bytes ++ [c])
      end
  else ret (CDone (s32 (target - n)) bytes).

Definition consoleread (killed : bool) (n : Z) : M con crd := consoleread_loop (Z.to_nat n) killed n (u32 n) [].
Definition consoleread_wake (killed : bool) (n target : Z) (bytes : list Z) : M con crd :=
  consoleread_loop (Z.to_nat n) killed n target bytes.
