(* ===== verification/ConsoleProps.v ===== *)
(** The console against its specification.

    To the processes the console is two lists of bytes: the lines that are
    ready to be read and the line that is being edited.  The ring buffer with
    its three 32-bit indices refines the two lists, across the wrap-around of
    the indices, for every sequence of typed characters and reads; the screen
    keeps its cursor on the screen, so that no character makes the kernel
    panic. *)

From S2P Require Import Prelude Params Console.

(** * The screen *)

Definition cursor (s : con) : Z := Z.lor (Z.shiftl (crt_hi s) 8) (crt_lo s).

Record screen_ok (s : con) : Prop := {
  sc_len : length (crt s) = 2000%nat;
  sc_hi : 0 ≤ crt_hi s < 256;
  sc_lo : 0 ≤ crt_lo s < 256;
  sc_cur : cursor s < 2000
}.

Lemma cursor_sum hi lo : 0 ≤ hi → 0 ≤ lo < 256 → Z.lor (Z.shiftl hi 8) lo = hi * 256 + lo.
Proof.
  intros Hh Hl. rewrite <- Z.add_lor_land, Z.shiftl_mul_pow2 by lia. change (2 ^ 8) with 256.
  enough (Z.land (hi * 256) lo = 0) by lia. apply Z.bits_inj'. intros n Hn.
  rewrite Z.land_spec, Z.bits_0. destruct (Z.ltb_spec n 8).
  - change 256 with (2 ^ 8). by rewrite Z.mul_pow2_bits_low.
  - apply andb_false_intro2. destruct (decide (lo = 0)) as [->|]; [apply Z.bits_0|].
    apply Z.bits_above_log2; [lia|]. assert (Z.log2 lo < 8); [apply Z.log2_lt_pow2; lia|lia].
Qed.

Lemma cursor_split pos : 0 ≤ pos < 65536 → Z.lor (Z.shiftl (u8 (Z.shiftr pos 8)) 8) (u8 pos) = pos.
Proof.
  intros H. rewrite cursor_sum by apply u8_range. rewrite Z.shiftr_div_pow2 by lia. change (2 ^ 8) with 256.
  rewrite u8_small by (split; [apply Z.div_pos; lia|apply Z.div_lt_upper_bound; lia]).
  unfold u8. pose proof (Z.div_mod pos 256). lia.
Qed.

Lemma crt_set_ok pos v (c : list Z) :
  length c = 2000%nat → 0 ≤ pos < 2000 → crt_set pos v c = Some (<[Z.to_nat pos := v]> c).
Proof. intros Hl H. unfold crt_set. rewrite Hl. zcases; [done|lia..]. Qed.

Lemma scroll_length pos (c : list Z) :
  length c = 2000%nat → 0 ≤ pos ≤ 1920 → length (scroll pos c) = 2000%nat.
Proof.
  intros Hl H. unfold scroll. rewrite !length_app, length_replicate, !length_take, !length_drop, !length_app,
    !length_take, !length_drop, Hl. lia.
Qed.

(** What output leaves alone. *)
Definition same_input (s s' : con) : Prop :=
  ibuf s' = ibuf s ∧ ir s' = ir s ∧ iw s' = iw s ∧ ie s' = ie s ∧ panicked s' = panicked s ∧ uart s' = uart s.

Lemma same_input_refl s : same_input s s.
Proof. done. Qed.

Lemma same_input_trans s1 s2 s3 : same_input s1 s2 → same_input s2 s3 → same_input s1 s3.
Proof. unfold same_input. naive_solver congruence. Qed.

(** The end of cgaputc, from the new position. *)
Lemma wp_cga_end s m pos (Q : unit → con → Prop) :
  length m = 2000%nat → 0 ≤ pos ≤ 2000 →
  (∀ s', screen_ok s' → same_input s s' → serial s' = serial s → Q tt s') →
  wp (if (pos <? 0) || (25 * 80 <? pos) then panic "pos under/overflow" else
      let '(m, pos) := if 24 <=? pos / 80 then (scroll (pos - 80) m, pos - 80) else (m, pos) in
      m <- of_option (crt_set pos (Z.lor 32 1792) m) ;;
      modify (set_crt m (u8 (Z.shiftr pos 8)) (u8 pos))) s Q.
Proof.
  intros Hm Hp HQ. pose proof (Z.mod_pos_bound pos 80). pose proof (Z.div_mod pos 80).
  replace ((pos <? 0) || (25 * 80 <? pos)) with false by (zcases; done || lia).
  set (mp := if 24 <=? pos / 80 then _ else _).
  assert (H2 : length mp.1 = 2000%nat ∧ 0 ≤ mp.2 < 2000).
  { unfold mp. destruct (Z.leb_spec 24 (pos / 80)); cbn [fst snd]; [split; [apply scroll_length; lia|lia]|].
    split; [done|lia]. }
  destruct mp as [m' pos']. cbn [fst snd] in H2. destruct H2 as [H2 H3].
  wp_step. eapply wp_of_option; [by apply crt_set_ok|]. wp_step. apply HQ; [|done..].
  constructor; cbn [crt crt_hi crt_lo set_crt]; [by rewrite length_insert|apply u8_range..|].
  unfold cursor. cbn [crt_hi crt_lo set_crt]. rewrite cursor_split; lia.
Qed.

Lemma wp_cgaputc c s (Q : unit → con → Prop) :
  screen_ok s → (∀ s', screen_ok s' → same_input s s' → serial s' = serial s → Q tt s') → wp (cgaputc c) s Q.
Proof.
  intros [Hl Hh Ho Hc] HQ. unfold cgaputc. do 2 wp_step. fold (cursor s). apply wp_bind.
  assert (0 ≤ cursor s) by (unfold cursor; rewrite cursor_sum; lia).
  pose proof (Z.mod_pos_bound (cursor s) 80). pose proof (Z.div_mod (cursor s) 80).
  assert (cursor s / 80 < 25) by (apply Z.div_lt_upper_bound; lia).
  zcases.
  - wp_step. apply wp_cga_end; [done|lia|done].
  - wp_step. apply wp_cga_end; [done|lia|done].
  - wp_step. apply wp_cga_end; [done|lia|done].
  - wp_step. eapply wp_of_option; [by apply crt_set_ok|]. wp_step.
    apply wp_cga_end; [by rewrite length_insert|lia|done].
Qed.

(** What consputc sends to the serial line. *)
Definition sent (c : Z) : list Z := if c =? BACKSPACE then [8; 32; 8] else [u8 c].
Definition sends (s s' : con) (l : list Z) : Prop := serial s' = serial s ++ (if uart s then l else []).

Lemma wp_uartputc c s (Q : unit → con → Prop) :
  screen_ok s → (∀ s', screen_ok s' → same_input s s' → sends s s' [u8 c] → Q tt s') → wp (uartputc c) s Q.
Proof.
  intros [] HQ. unfold uartputc. wp_step. unfold sends in HQ.
  destruct (uart s) eqn:E; apply HQ; try done; by rewrite app_nil_r.
Qed.

Lemma sends_trans s1 s2 s3 l l' : same_input s1 s2 → sends s1 s2 l → sends s2 s3 l' → sends s1 s3 (l ++ l').
Proof.
  unfold sends. intros (_ & _ & _ & _ & _ & E) H1 H2. rewrite H2, H1, E, <- app_assoc. by destruct (uart s1).
Qed.

Lemma wp_consputc c s (Q : unit → con → Prop) :
  screen_ok s → panicked s = false →
  (∀ s', screen_ok s' → same_input s s' → sends s s' (sent c) → Q tt s') → wp (consputc c) s Q.
Proof.
  intros Hs Hp HQ. unfold consputc. do 2 wp_step. rewrite Hp.
  assert (E : ∀ s1, screen_ok s1 → same_input s s1 → sends s s1 (sent c) → wp (cgaputc c) s1 Q).
  { intros s1 H1 H2 H3. apply wp_cgaputc; [done|]. intros s2 ?? H4. apply HQ; [done|by eapply same_input_trans|].
    unfold sends. by rewrite H4. }
  wp_step. unfold sent in E. destruct (Z.eqb_spec c BACKSPACE); [|by apply wp_uartputc].
  wp_step. apply wp_uartputc; [done|]. intros s1 A1 B1 C1.
  wp_step. apply wp_uartputc; [done|]. intros s2 A2 B2 C2.
  apply wp_uartputc; [done|]. intros s3 A3 B3 C3. apply E; [done|eauto using same_input_trans|].
  apply (sends_trans _ s1 _ [_] [_; _]); [done..|]. by apply (sends_trans _ s2 _ [_] [_]).
Qed.

(** * The two lists *)

Record aline : Type := MkLine { ready : list Z; edit : list Z }.

Definition full (a : aline) : bool := (128 <=? length (ready a) + length (edit a))%nat.
#[local] Arguments full : simpl never.

(** A character, and whether it asks for the list of processes. *)
Definition akey (c : Z) (a : aline) : bool * aline :=
  if c =? ctrl 80 then (true, a)
  else if c =? ctrl 85 then (false, MkLine (ready a) [])
  else if (c =? ctrl 72) || (c =? 127) then (false, MkLine (ready a) (take (pred (length (edit a))) (edit a)))
  else if (c =? 0) || full a then (false, a)
  else
    let c := if c =? 13 then 10 else c in
    let a := MkLine (ready a) (edit a ++ [c]) in
    (false, if (c =? 10) || (c =? ctrl 68) || full a then MkLine (ready a ++ edit a) [] else a).

Fixpoint akeys (cs : list Z) (a : aline) : bool * aline :=
  match cs with
  | [] => (false, a)
  | c :: cs' => let '(d, a) := akey c a in let '(d', a) := akeys cs' a in (d || d', a)
  end.

(** A read that wants [n] more bytes after [got]: up to and with the end of
    a line, or up to an end-of-file mark, which stays for the next read
    unless this one has nothing. *)
Fixpoint aread (killed : bool) (n : nat) (got rdy : list Z) : crd * list Z :=
  match n, rdy with
  | O, _ => (CDone (Z.of_nat (length got)) got, rdy)
  | S _, [] => (if killed then CKilled else CSleep (Z.of_nat n) got, [])
  | S n', c :: rest =>
      if c =? ctrl 68 then (CDone (Z.of_nat (length got)) got, match got with [] => rest | _ => rdy end)
      else if c =? 10 then (CDone (Z.of_nat (length got + 1)) (got ++ [c]), rest)
      else aread killed n' (got ++ [c]) rest
  end.

(** * Refinement *)

(** The byte [k] places after the read index. *)
Definition slot (s : con) (k : nat) : option Z := ibuf s !! Z.to_nat ((ir s + Z.of_nat k) mod INPUT_BUF).

Record line_rel (s : con) (a : aline) : Prop := {
  lr_len : length (ibuf s) = 128%nat;
  lr_r : 0 ≤ ir s < 4294967296;
  lr_w : iw s = u32 (ir s + Z.of_nat (length (ready a)));
  lr_e : ie s = u32 (ir s + Z.of_nat (length (ready a) + length (edit a)));
  lr_max : (length (ready a) + length (edit a) ≤ 128)%nat;
  lr_slot : ∀ k x, (ready a ++ edit a) !! k = Some x → slot s k = Some x;
  lr_screen : screen_ok s;
  lr_panicked : panicked s = false
}.

Lemma u32_mod_buf x : u32 x mod INPUT_BUF = x mod INPUT_BUF.
Proof.
  unfold u32, INPUT_BUF. change 4294967296 with (128 * 33554432). rewrite Z.rem_mul_r by lia.
  rewrite Z.mul_comm, Z.mod_add by lia. by rewrite Z.mod_mod by lia.
Qed.

Lemma u32_eq_off r i j : 0 ≤ i ≤ 128 → 0 ≤ j ≤ 128 → (u32 (r + i) =? u32 (r + j)) = (i =? j).
Proof.
  intros Hi Hj. zcases; try done; subst; try done. exfalso.
  assert (E : u32 (u32 (r + i) - u32 (r + j)) = 0) by (replace (u32 (r + i)) with (u32 (r + j)); rewrite Z.sub_diag; done).
  rewrite u32_sub_l, u32_sub_r in E. unfold u32 in E. apply Z.mod_divide in E as [q Hq]; [|lia].
  assert (q = 0) by lia. lia.
Qed.

Lemma line_rel_out s s' a : line_rel s a → screen_ok s' → same_input s s' → line_rel s' a.
Proof.
  intros [] Hs (E1 & E2 & E3 & E4 & E5 & _).
  constructor; rewrite ?E1, ?E2, ?E3, ?E4, ?E5; try done. intros k x Hk. unfold slot. rewrite E1, E2. by apply lr_slot0.
Qed.

(** Dropping the last byte of the edited line. *)
Lemma line_rel_back s rd ed c :
  line_rel s (MkLine rd (ed ++ [c])) →
  line_rel (set_input (ibuf s) (ir s) (iw s) (u32 (ie s - 1)) s) (MkLine rd ed).
Proof.
  intros [H1 H2 H3 H4 H5 H6 [] H9]. cbn in *. rewrite length_app in *. cbn in *.
  constructor; cbn; try done.
  - rewrite H4, u32_sub_l. f_equal. lia.
  - lia.
  - intros k x Hk. apply H6. rewrite app_assoc. by apply lookup_app_l_Some.
Qed.

Lemma line_rel_last s rd ed c :
  line_rel s (MkLine rd (ed ++ [c])) → in_byte s (u32 (ie s - 1)) = Some c.
Proof.
  intros []. cbn in *. unfold in_byte. rewrite u32_mod_buf.
  assert (E : slot s (length (rd ++ ed)) = Some c).
  { apply lr_slot0. by rewrite app_assoc, list_lookup_middle. }
  rewrite <- E. unfold slot. f_equal. f_equal. rewrite lr_e0, length_app. simpl.
  rewrite <- u32_mod_buf, u32_sub_l, u32_mod_buf. f_equal. rewrite length_app. lia.
Qed.

Lemma line_rel_empty s rd ed : line_rel s (MkLine rd ed) → (ie s =? iw s) = bool_decide (ed = []).
Proof.
  intros []. cbn in *. rewrite lr_e0, lr_w0, u32_eq_off by lia. destruct ed; cbn; [rewrite Nat.add_0_r|]; zcases; done || lia.
Qed.

Lemma wp_back s rd ed c (Q : unit → con → Prop) :
  line_rel s (MkLine rd (ed ++ [c])) → (∀ s', line_rel s' (MkLine rd ed) → Q tt s') →
  wp edit_back s (λ _ s1, wp (consputc BACKSPACE) s1 Q).
Proof.
  intros H HQ. unfold edit_back. wp_step. apply line_rel_back in H. pose proof H as [].
  apply wp_consputc; [done..|]. intros s' ???. apply HQ. by eapply line_rel_out.
Qed.

Lemma wp_kill rd n : ∀ s ed (Q : unit → con → Prop), (length ed ≤ n)%nat →
  line_rel s (MkLine rd ed) → 10 ∉ ed → (∀ s', line_rel s' (MkLine rd []) → Q tt s') → wp (kill_loop n) s Q.
Proof.
  induction n as [|n IH]; intros s ed Q Hn H H10 HQ; cbn [kill_loop]; do 2 wp_step; rewrite (line_rel_empty _ _ _ H).
  - destruct ed; [|simpl in Hn; lia]. rewrite bool_decide_eq_true_2 by done. wp_step. by apply HQ.
  - destruct (decide (ed = [])) as [->|Hne]; [rewrite bool_decide_eq_true_2 by done; wp_step; by apply HQ|].
    destruct (exists_last Hne) as (ed' & c & ->). rewrite bool_decide_eq_false_2 by done.
    wp_step. eapply wp_of_option; [by eapply line_rel_last|].
    destruct (Z.eqb_spec c 10) as [->|]; [destruct H10; set_solver|].
    rewrite length_app in Hn. simpl in Hn.
    wp_step. eapply wp_mono; [eapply wp_back; [done|]|intros ? s1 H1; apply wp_bind, H1].
    intros s' H'. eapply IH; [|done| |done]; [lia|set_solver].
Qed.

Lemma mod_buf_ne r i j : 0 ≤ i < 128 → 0 ≤ j < 128 → i ≠ j →
  Z.to_nat ((r + i) mod INPUT_BUF) ≠ Z.to_nat ((r + j) mod INPUT_BUF).
Proof.
  intros Hi Hj Hne E. unfold INPUT_BUF in E. pose proof (Z.mod_pos_bound (r + i) 128).
  pose proof (Z.mod_pos_bound (r + j) 128). apply Z2Nat.inj in E; [|lia..].
  pose proof (Z.div_mod (r + i) 128). pose proof (Z.div_mod (r + j) 128). lia.
Qed.

(** Typing a byte at the end of the edited line. *)
Lemma line_rel_push s rd ed c :
  line_rel s (MkLine rd ed) → (length rd + length ed < 128)%nat →
  line_rel (set_input (<[Z.to_nat (ie s mod INPUT_BUF) := c]> (ibuf s)) (ir s) (iw s) (u32 (ie s + 1)) s)
    (MkLine rd (ed ++ [c])).
Proof.
  intros [H1 H2 H3 H4 H5 H6 [] H9] Hl. cbn in *. constructor; cbn; try done.
  - by rewrite length_insert.
  - rewrite H4, u32_add_l, length_app. f_equal. simpl. lia.
  - rewrite length_app. simpl. lia.
  - rewrite app_assoc, H4, u32_mod_buf. intros k x Hk. unfold slot. cbn.
    apply lookup_snoc_Some in Hk as [[Hk Hx]|[-> <-]].
    + rewrite length_app in Hk. rewrite list_lookup_insert_ne by (apply mod_buf_ne; lia). by apply H6.
    + rewrite length_app. apply list_lookup_insert_eq. rewrite H1. unfold INPUT_BUF.
      pose proof (Z.mod_pos_bound (ir s + Z.of_nat (length rd + length ed)) 128). lia.
Qed.

Lemma line_rel_commit s rd ed :
  line_rel s (MkLine rd ed) → line_rel (set_input (ibuf s) (ir s) (ie s) (ie s) s) (MkLine (rd ++ ed) []).
Proof.
  intros [H1 H2 H3 H4 H5 H6 [] H9]. cbn in *. constructor; cbn; rewrite ?length_app, ?app_nil_r, ?Nat.add_0_r; done.
Qed.

Lemma line_rel_room s rd ed :
  line_rel s (MkLine rd ed) → (u32 (ie s - ir s) <? INPUT_BUF) = negb (full (MkLine rd ed)).
Proof.
  intros []. cbn in *. rewrite lr_e0, u32_sub_l. replace (_ - ir s) with (Z.of_nat (length rd + length ed)) by lia.
  rewrite u32_small by lia. unfold full, INPUT_BUF. cbn [ready edit]. destruct (Nat.leb_spec 128 (length rd + length ed)); zcases; done || lia.
Qed.

Lemma line_rel_full s rd ed :
  line_rel s (MkLine rd ed) → (ie s =? u32 (ir s + INPUT_BUF)) = full (MkLine rd ed).
Proof.
  intros []. cbn in *. rewrite lr_e0, u32_eq_off by (unfold INPUT_BUF; lia). unfold full, INPUT_BUF. cbn [ready edit].
  destruct (Nat.leb_spec 128 (length rd + length ed)); zcases; done || lia.
Qed.

Definition console_rel (s : con) (a : aline) : Prop := line_rel s a ∧ 10 ∉ edit a.

(** The default case of consoleintr. *)
Lemma wp_type c s rd ed (Q : bool → con → Prop) :
  console_rel s (MkLine rd ed) → 0 < c < 256 → full (MkLine rd ed) = false →
  let a' := MkLine rd (ed ++ [c]) in
  (∀ s', console_rel s' (if (c =? 10) || (c =? ctrl 68) || full a' then MkLine (rd ++ (ed ++ [c])) [] else a') → Q false s') →
  wp (modify (λ s, set_input (<[Z.to_nat (ie s mod INPUT_BUF) := u8 c]> (ibuf s)) (ir s) (iw s) (u32 (ie s + 1)) s) ;;;
      consputc c ;;;
      s <- get ;;
      (if (c =? 10) || (c =? ctrl 68) || (ie s =? u32 (ir s + INPUT_BUF)) then
         modify (λ s, set_input (ibuf s) (ir s) (ie s) (ie s) s)
       else ret tt) ;;;
      ret false) s Q.
Proof.
  intros [H H10] Hc Hf a' HQ. unfold full in Hf. apply Nat.leb_gt in Hf. cbn in Hf.
  do 2 wp_step. rewrite u8_small by lia. apply (line_rel_push _ _ _ c) in H; [|done]. pose proof H as [].
  wp_step. apply wp_consputc; [done..|]. intros s1 A1 B1 _. pose proof (line_rel_out _ _ _ H A1 B1) as H1.
  do 2 wp_step. wp_step. rewrite (line_rel_full _ _ _ H1). fold a'.
  destruct ((c =? 10) || (c =? ctrl 68) || full a') eqn:E; do 2 wp_step; apply HQ.
  - split; [by apply line_rel_commit|]. cbn. set_solver.
  - split; [done|]. apply orb_false_iff in E as [[E%Z.eqb_neq _]%orb_false_iff _]. cbn in *. set_solver.
Qed.

Lemma wp_console_key c s a (Q : bool → con → Prop) :
  console_rel s a → 0 ≤ c < 256 → (∀ s', console_rel s' (akey c a).2 → Q (akey c a).1 s') → wp (console_key c) s Q.
Proof.
  destruct a as [rd ed]. intros [H H10] Hc. unfold console_key, akey. cbn [ready edit]. intros HQ. do 2 wp_step.
  destruct (Z.eqb_spec c (ctrl 80)); [wp_step; by apply HQ|].
  destruct (Z.eqb_spec c (ctrl 85)).
  { wp_step. eapply wp_kill; [|done..|].
    - destruct H. cbn in *. rewrite lr_e0, lr_w0, u32_sub_l, u32_sub_r, u32_small by lia. lia.
    - intros s' H'. wp_step. apply HQ. split; [done|cbn; set_solver]. }
  destruct ((c =? ctrl 72) || (c =? 127)).
  { wp_step. rewrite (line_rel_empty _ _ _ H). destruct (decide (ed = [])) as [->|Hne].
    - rewrite bool_decide_eq_true_2 by done. do 2 wp_step. by apply HQ.
    - destruct (exists_last Hne) as (ed' & x & ->). rewrite bool_decide_eq_false_2 by done. wp_step.
      eapply wp_back; [done|]. intros s' H'. wp_step. cbn [fst snd] in HQ. apply HQ.
      rewrite length_app, Nat.add_1_r. cbn [length Nat.pred]. rewrite take_app_length. split; [done|]. cbn in *. set_solver. }
  rewrite (line_rel_room _ _ _ H).
  destruct (Z.eqb_spec c 0) as [->|]; cbn [negb andb orb] in *; [wp_step; by apply HQ|].
  destruct (full (MkLine rd ed)) eqn:Hf; cbn [negb] in *; [wp_step; by apply HQ|].
  eapply wp_type; [done| |done|done]. destruct (c =? 13); lia.
Qed.

Lemma wp_consoleintr cs : ∀ s a (Q : bool → con → Prop),
  console_rel s a → Forall (λ c, 0 ≤ c < 256) cs →
  (∀ s', console_rel s' (akeys cs a).2 → Q (akeys cs a).1 s') → wp (consoleintr cs) s Q.
Proof.
  induction cs as [|c cs IH]; intros s a Q H Hcs HQ; cbn [consoleintr akeys] in *; [wp_step; by apply HQ|].
  apply Forall_cons in Hcs as [Hc Hcs]. wp_step. eapply wp_console_key; [done..|]. intros s1 H1. wp_step.
  destruct (akey c a) as [d a1]. cbn [fst snd] in *. eapply IH; [done..|]. intros s2 H2. wp_step.
  destruct (akeys cs a1) as [d' a2]. by apply HQ.
Qed.

(** Taking the first ready byte, and putting it back. *)
Lemma line_rel_pop s c rd ed :
  line_rel s (MkLine (c :: rd) ed) →
  in_byte s (ir s) = Some c ∧ line_rel (set_input (ibuf s) (u32 (ir s + 1)) (iw s) (ie s) s) (MkLine rd ed).
Proof.
  intros [H1 H2 H3 H4 H5 H6 [] H9]. cbn in *. split.
  { rewrite <- (H6 0%nat c eq_refl). unfold in_byte, slot. by rewrite Z.add_0_r. }
  constructor; cbn; try done.
  - apply u32_range.
  - rewrite H3, u32_add_l. f_equal. lia.
  - rewrite H4, u32_add_l. f_equal. lia.
  - lia.
  - intros k x Hk. rewrite <- (H6 (S k) x Hk). unfold slot. cbn.
    rewrite <- u32_mod_buf, u32_add_l, u32_mod_buf. do 3 f_equal. lia.
Qed.

Lemma u32_pred_succ r : 0 ≤ r < 4294967296 → u32 (u32 (r + 1) - 1) = r.
Proof. intros. rewrite u32_sub_l, u32_small; lia. Qed.

Lemma set_input_id s : set_input (ibuf s) (ir s) (iw s) (ie s) s = s.
Proof. by destruct s. Qed.

Lemma wp_read_loop killed : ∀ (n : nat) s rd ed got fuel (Q : crd → con → Prop),
  console_rel s (MkLine rd ed) → Z.of_nat (n + length got) < 2147483648 → (n ≤ fuel)%nat →
  (∀ s', console_rel s' (MkLine (aread killed n got rd).2 ed) → Q (aread killed n got rd).1 s') →
  wp (consoleread_loop fuel killed (Z.of_nat n) (Z.of_nat (n + length got)) got) s Q.
Proof.
  induction n as [|n IH]; intros s rd ed got fuel Q [H H10] Hb Hf HQ; destruct fuel as [|fuel]; try lia;
    cbn [consoleread_loop aread] in *; match goal with |- context [0 <? ?x] => destruct (Z.ltb_spec 0 x); try lia end.
  1,2: wp_step; rewrite s32_small by lia; replace (_ - _) with (Z.of_nat (length got)) by lia; by apply HQ.
  do 2 wp_step. destruct rd as [|c rd].
  { replace (ir s =? iw s) with true; [wp_step; destruct killed; by apply HQ|].
    destruct H. cbn in *. rewrite lr_w0, Z.add_0_r, u32_small by lia. by rewrite Z.eqb_refl. }
  replace (ir s =? iw s) with false.
  2:{ destruct H. cbn in *. rewrite lr_w0. replace (ir s) with (u32 (ir s + 0)) at 1 by (rewrite u32_small; lia).
      rewrite u32_eq_off by lia. zcases; done || lia. }
  destruct (line_rel_pop _ _ _ _ H) as [E H']. wp_step. eapply wp_of_option; [done|]. do 2 wp_step.
  destruct (Z.eqb_spec c (ctrl 68)) as [->|].
  - replace (S n + length got)%nat with (length got + S n)%nat in * by lia.
    wp_step. destruct got as [|g got]; cbn [length] in *; zcases; do 2 wp_step;
      rewrite s32_small by lia; rewrite Nat2Z.inj_add, Z.add_simpl_r; apply HQ.
    + by split.
    + cbn. rewrite u32_pred_succ by apply (lr_r _ _ H). unfold set_input at 1; cbn. fold (set_input (ibuf s) (ir s) (iw s) (ie s) s).
      rewrite set_input_id. by split.
  - destruct (Z.eqb_spec c 10) as [->|].
    + wp_step. rewrite s32_small by lia. replace (_ - _) with (Z.of_nat (length got + 1)) by lia. by apply HQ.
    + replace (Z.of_nat (S n) - 1) with (Z.of_nat n) by lia.
      replace (S n + length got)%nat with (n + length (got ++ [c]))%nat by (rewrite length_app; simpl; lia).
      eapply IH; [by split| |lia|done]. rewrite length_app. simpl. lia.
Qed.

(** * Sequences of interrupts and reads *)

(** A read that sleeps goes on with [Wake], with what it has and wants. *)
Inductive cop : Type :=
  | Keys (cs : list Z)
  | Read (killed : bool) (n : Z)
  | Wake (killed : bool) (n : nat) (got : list Z).

Inductive cres : Type := RKeys (procdump : bool) | RRead (r : crd).

Definition cdo (o : cop) : M con cres :=
  match o with
  | Keys cs => d <- consoleintr cs ;; ret (RKeys d)
  | Read k n => r <- consoleread k n ;; ret (RRead r)
  | Wake k n got => r <- consoleread_wake k (Z.of_nat n) (Z.of_nat (n + length got)) got ;; ret (RRead r)
  end.

Definition ado (o : cop) (a : aline) : cres * aline :=
  match o with
  | Keys cs => let '(d, a) := akeys cs a in (RKeys d, a)
  | Read k n => let '(r, l) := aread k (Z.to_nat n) [] (ready a) in (RRead r, MkLine l (edit a))
  | Wake k n got => let '(r, l) := aread k n got (ready a) in (RRead r, MkLine l (edit a))
  end.

Fixpoint cdos (os : list cop) : M con (list cres) :=
  match os with [] => ret [] | o :: os' => r <- cdo o ;; rs <- cdos os' ;; ret (r :: rs) end.

Fixpoint ados (os : list cop) (a : aline) : list cres * aline :=
  match os with
  | [] => ([], a)
  | o :: os' => let '(r, a) := ado o a in let '(rs, a) := ados os' a in (r :: rs, a)
  end.

(** Characters are bytes, counts are of type int. *)
Definition cop_ok (o : cop) : Prop :=
  match o with
  | Keys cs => Forall (λ c, 0 ≤ c < 256) cs
  | Read _ n => -2147483648 ≤ n < 2147483648
  | Wake _ n got => Z.of_nat (n + length got) < 2147483648
  end.

Lemma wp_consoleread k n s a (Q : crd → con → Prop) :
  console_rel s a → -2147483648 ≤ n < 2147483648 →
  (∀ s', let '(r, l) := aread k (Z.to_nat n) [] (ready a) in console_rel s' (MkLine l (edit a)) → Q r s') →
  wp (consoleread k n) s Q.
Proof.
  destruct a as [rd ed]. intros H Hn HQ. unfold consoleread. cbn [ready edit] in HQ. destruct (Z.leb_spec 0 n).
  - rewrite u32_small by lia. replace n with (Z.of_nat (Z.to_nat n)) at 2 by lia.
    replace n with (Z.of_nat (Z.to_nat n + length (@nil Z))) at 3 by (simpl; lia).
    eapply wp_read_loop; [done|simpl; lia|done|]. intros s'. specialize (HQ s'). by destruct (aread _ _ _ _).
  - replace (Z.to_nat n) with 0%nat in * by lia. cbn [consoleread_loop aread] in *. zcases. wp_step.
    specialize (HQ s H). replace (u32 n - n) with (4294967296); [done|].
    unfold u32. rewrite <- (Z.mod_add n 1), Z.mod_small; lia.
Qed.

Lemma wp_cdo o s a (Q : cres → con → Prop) :
  console_rel s a → cop_ok o → (∀ s', let '(r, a') := ado o a in console_rel s' a' → Q r s') → wp (cdo o) s Q.
Proof.
  intros H Ho HQ. destruct o as [cs|k n|k n got]; cbn [cdo ado cop_ok] in *; wp_step.
  - eapply wp_consoleintr; [done..|]. intros s' H'. wp_step. specialize (HQ s'). destruct (akeys cs a). auto.
  - eapply wp_consoleread; [done..|]. intros s'. specialize (HQ s'). destruct (aread _ _ _ _). intros. wp_step. auto.
  - destruct a as [rd ed]. unfold consoleread_wake. rewrite Nat2Z.id.
    eapply wp_read_loop; [done..|]. intros s'. specialize (HQ s'). cbn [ready edit] in HQ. destruct (aread _ _ _ _).
    intros. wp_step. auto.
Qed.

(** C19. Any sequence of keyboard interrupts and reads, some of them resumed after
    a sleep, ends without a panic and gives the results that the two lists
    give, wherever the 32-bit indices of the ring are: Control-U and
    backspace edit the current line only, a line is delivered up to its end,
    an end-of-file mark ends a read and is kept for the next one exactly when
    this one has bytes, characters beyond the 128 that the ring holds are
    ignored, and a read sleeps only when nothing is ready. *)
Theorem console_refines (os : list cop) (s : con) (a : aline) :
  console_rel s a → Forall cop_ok os →
  let '(rs, a') := ados os a in ∃ s', cdos os s = Ret (rs, s') ∧ console_rel s' a'.
Proof.
  intros H Hos. enough (E : wp (cdos os) s (λ rs s', rs = (ados os a).1 ∧ console_rel s' (ados os a).2)).
  { destruct E as (rs & s' & E & -> & H'). destruct (ados os a). by exists s'. }
  revert s a H. induction Hos as [|o os Ho _ IH]; intros s a H; cbn [cdos ados]; [wp_step; done|].
  wp_step. eapply wp_cdo; [done..|]. intros s1. destruct (ado o a) as [r a1]. intros H1.
  wp_step. eapply wp_mono; [by apply IH|]. intros rs s2 [-> H2]. wp_step. by destruct (ados os a1).
Qed.

(** The console after boot, its read index just before the wrap-around. *)
Definition con_at (r : Z) : con :=
  MkCon (replicate 128 0) r r r (replicate (25 * 80) 1824) 7 10 [] true false.

Lemma con_at_rel r : 0 ≤ r < 4294967296 → console_rel (con_at r) (MkLine [] []).
Proof.
  intros Hr. split; [|cbn; set_solver]. constructor; try done; cbn [con_at ir iw ie ready edit length].
  1,2: rewrite u32_small; lia.
  lia.
Qed.

(** "lx", backspace, "s" and the end of the line are typed over a wrap of the
    indices; a reader that sleeps first gets "ls". *)
Lemma console_refines_witness :
  ∃ s', cdos [Read false 100; Keys [108; 120; 8; 115; 13; 4]; Wake false 100 []; Read false 5; Read false 5]
             (con_at 4294967294) =
        Ret ([RRead (CSleep 100 []); RKeys false; RRead (CDone 3 [108; 115; 10]); RRead (CDone 0 []);
              RRead (CSleep 5 [])], s') ∧
        console_rel s' (MkLine [] []).
Proof.
  apply (console_refines [Read false 100; Keys [108; 120; 8; 115; 13; 4]; Wake false 100 []; Read false 5; Read false 5]
           (con_at 4294967294) (MkLine [] [])); [apply con_at_rel; lia|].
  repeat constructor; done.
Defined.

(** * Output *)

Lemma wp_consputs l : ∀ s (Q : unit → con → Prop), screen_ok s → panicked s = false → Forall (λ c, 0 ≤ c < 256) l →
  (∀ s', screen_ok s' → same_input s s' → sends s s' l → Q tt s') → wp (consputs l) s Q.
Proof.
  induction l as [|c l IH]; intros s Q Hs Hp Hl HQ; cbn [consputs].
  { wp_step. apply HQ; [done..|]. unfold sends. destruct (uart s); by rewrite app_nil_r. }
  apply Forall_cons in Hl as [Hc Hl]. wp_step. apply wp_consputc; [done..|]. intros s1 A1 B1 C1.
  unfold sent, BACKSPACE in C1. destruct (Z.eqb_spec c 256); [lia|]. rewrite u8_small in C1 by lia.
  apply IH; [done|unfold same_input in B1; naive_solver congruence|done|].
  intros s2 A2 B2 C2. apply HQ; [done|by eapply same_input_trans|]. by apply (sends_trans _ s1 _ [c]).
Qed.

Lemma consolewrite_puts l s : Forall (λ c, 0 ≤ c < 256) l → consolewrite_loop l s = consputs l s.
Proof.
  revert s. induction l as [|c l IH]; intros s Hl; [done|]. apply Forall_cons in Hl as [Hc Hl]. cbn [consolewrite_loop consputs].
  change 255 with (Z.ones 8). rewrite Z.land_ones, Z.mod_small by lia. apply bind_ext. intros. by apply IH.
Qed.

(** consolewrite writes all the bytes of the buffer, in order, to the serial
    line if there is one, keeps the cursor on the screen, does not touch the
    input, and returns their number. *)
Theorem consolewrite_correct (buf : list Z) (s : con) :
  screen_ok s → panicked s = false → Forall (λ c, 0 ≤ c < 256) buf →
  ∃ s', consolewrite buf s = Ret (Z.of_nat (length buf), s') ∧
        screen_ok s' ∧ same_input s s' ∧ serial s' = serial s ++ (if uart s then buf else []).
Proof.
  intros Hs Hp Hb.
  assert (E : wp (consolewrite_loop buf) s (λ _ s', screen_ok s' ∧ same_input s s' ∧ sends s s' buf)).
  { destruct (wp_consputs buf s (λ _ s', screen_ok s' ∧ same_input s s' ∧ sends s s' buf)) as ([] & s' & E & H); [done..|].
    exists tt, s'. by rewrite consolewrite_puts. }
  destruct E as ([] & s' & E & H). exists s'. split; [|done].
  unfold consolewrite. by rewrite (bind_ret_eval _ _ _ _ _ E).
Qed.

Lemma consolewrite_correct_witness :
  ∃ s', consolewrite [104; 105; 10] (con_at 0) = Ret (3, s') ∧
        screen_ok s' ∧ same_input (con_at 0) s' ∧ serial s' = [104; 105; 10].
Proof.
  apply (consolewrite_correct [104; 105; 10] (con_at 0)); [apply con_at_rel; lia|done|repeat constructor; done].
Defined.
