(* ===== verification/Kbd.v ===== *)
(** The keyboard, kbd.c and the tables of kbd.h, and the two interrupt
    handlers that feed the console, kbdintr and uartintr.

    The controller is the list of scan codes that wait in it.  The bits of
    the variable shift refine seven flags, and what is typed on the keyboard
    reaches the console as the bytes that its theorem is about. *)

From S2P Require Import Prelude Params Console ConsoleProps.

Definition SHIFT : Z := 1.
Definition CTL : Z := 2.
Definition ALT : Z := 4.
Definition CAPSLOCK : Z := 8.
Definition NUMLOCK : Z := 16.
Definition SCROLLLOCK : Z := 32.
Definition E0ESC : Z := 64.

(** An array of 256 bytes with an initializer: the first elements, then the
    designated ones. *)
Definition table (first : list Z) (des : list (Z * Z)) : list Z :=
  foldl (λ t e, <[Z.to_nat e.1 := u8 e.2]> t) (first ++ replicate (256 - length first) 0) des.

Definition shiftcode : list Z :=
  table [] [(29, CTL); (42, SHIFT); (54, SHIFT); (56, ALT); (157, CTL); (184, ALT)].

Definition togglecode : list Z :=
  table [] [(58, CAPSLOCK); (69, NUMLOCK); (70, SCROLLLOCK)].

(** The keys above 0x80: Enter and / of the keypad, and in the order of the
    source KEY_UP, KEY_DN, KEY_PGUP, KEY_PGDN, KEY_LF, KEY_RT, KEY_HOME,
    KEY_END, KEY_INS, KEY_DEL. *)
Definition e0_keys (enter div : Z) : list (Z * Z) :=
  [(156, enter); (181, div); (200, 226); (208, 227); (201, 230); (209, 231);
   (203, 228); (205, 229); (151, 224); (207, 225); (210, 232); (211, 233)].

Definition normalmap : list Z :=
  table
    [0; 27; 49; 50; 51; 52; 53; 54;
     55; 56; 57; 48; 45; 61; 8; 9;
     113; 119; 101; 114; 116; 121; 117; 105;
     111; 112; 91; 93; 10; 0; 97; 115;
     100; 102; 103; 104; 106; 107; 108; 59;
     39; 96; 0; 92; 122; 120; 99; 118;
     98; 110; 109; 44; 46; 47; 0; 42;
     0; 32; 0; 0; 0; 0; 0; 0;
     0; 0; 0; 0; 0; 0; 0; 55;
     56; 57; 45; 52; 53; 54; 43; 49;
     50; 51; 48; 46; 0; 0; 0; 0]
    (e0_keys 10 47).

Definition shiftmap : list Z :=
  table
    [0; 27; 33; 64; 35; 36; 37; 94;
     38; 42; 40; 41; 95; 43; 8; 9;
     81; 87; 69; 82; 84; 89; 85; 73;
     79; 80; 123; 125; 10; 0; 65; 83;
     68; 70; 71; 72; 74; 75; 76; 58;
     34; 126; 0; 124; 90; 88; 67; 86;
     66; 78; 77; 60; 62; 63; 0; 42;
     0; 32; 0; 0; 0; 0; 0; 0;
     0; 0; 0; 0; 0; 0; 0; 55;
     56; 57; 45; 52; 53; 54; 43; 49;
     50; 51; 48; 46; 0; 0; 0; 0]
    (e0_keys 10 47).

Definition ctlmap : list Z :=
  table
    [0; 0; 0; 0; 0; 0; 0; 0;
     0; 0; 0; 0; 0; 0; 0; 0;
     17; 23; 5; 18; 20; 25; 21; 9;
     15; 16; 0; 0; 13; 0; 1; 19;
     4; 6; 7; 8; 10; 11; 12; 0;
     0; 0; 0; 28; 26; 24; 3; 22;
     2; 14; 13; 0; 0; 239; 0; 0]
    (e0_keys 13 (ctrl 47)).

Definition charcode : list (list Z) := [normalmap; shiftmap; ctlmap; ctlmap].

(** An array index; the indices of the code are bytes and two bits. *)
Definition tab (t : list Z) (i : Z) : Z := default 0 (t !! Z.to_nat i).

(** The body of kbdgetc once the controller has given [data]; the result and
    the new value of the static variable shift. *)
Definition kbd_code (shift data : Z) : Z * Z :=
  if data =? 224 then (0, Z.lor shift E0ESC)
  else if negb (Z.land data 128 =? 0) then
    let data := if negb (Z.land shift E0ESC =? 0) then data else Z.land data 127 in
    (0, Z.land shift (u32 (Z.lnot (Z.lor (tab shiftcode data) E0ESC))))
  else
    let '(data, shift) :=
      if negb (Z.land shift E0ESC =? 0) then (Z.lor data 128, Z.land shift (u32 (Z.lnot E0ESC))) else (data, shift) in
    let shift := Z.lor shift (tab shiftcode data) in
    let shift := Z.lxor shift (tab togglecode data) in
    let c := tab (default [] (charcode !! Z.to_nat (Z.land shift (Z.lor CTL SHIFT)))) data in
    let c :=
      if negb (Z.land shift CAPSLOCK =? 0) then
        if (97 <=? c) && (c <=? 122) then c + (65 - 97)
        else if (65 <=? c) && (c <=? 90) then c + (97 - 65) else c
      else c in
    (c, shift).

(** kbdgetc with the codes that wait in the controller: -1 when there is
    none, which is what the status port says. *)
Definition kbdgetc (shift : Z) (codes : list Z) : Z * Z * list Z :=
  match codes with
  | [] => (-1, shift, [])
  | data :: codes' => let '(c, shift) := kbd_code shift data in (c, shift, codes')
  end.

(** The values of kbdgetc up to the first -1. *)
Fixpoint kbd_chars (shift : Z) (codes : list Z) : list Z * Z :=
  match codes with
  | [] => ([], shift)
  | data :: codes' => let '(c, shift) := kbd_code shift data in
                      let '(cs, shift) := kbd_chars shift codes' in (c :: cs, shift)
  end.

Definition kbdintr (shift : Z) (codes : list Z) : M con (bool * Z) :=
  let '(cs, shift) := kbd_chars shift codes in d <- consoleintr cs ;; ret (d, shift).

(** uartgetc gives -1 when there is no serial port or it has no byte. *)
Definition uartintr (bytes : list Z) : M con bool :=
  u <- gets uart ;; consoleintr (if u then bytes else []).

(** * Seven flags *)

Record keys : Type := MkKeys {
  k_shift : bool; k_ctl : bool; k_alt : bool;
  k_caps : bool; k_num : bool; k_scroll : bool; k_esc : bool
}.

Definition bits (k : keys) : Z :=
  let b (x : bool) (n : Z) := if x then n else 0 in
  b (k_shift k) 1 + b (k_ctl k) 2 + b (k_alt k) 4 + b (k_caps k) 8 + b (k_num k) 16 + b (k_scroll k) 32 + b (k_esc k) 64.

(** A key by its number, which is the scan code of its press, plus 128 after
    the escape code. *)
Definition is_shift (key : Z) : bool := (key =? 42) || (key =? 54).
Definition is_ctl (key : Z) : bool := (key =? 29) || (key =? 157).
Definition is_alt (key : Z) : bool := (key =? 56) || (key =? 184).

Definition key_up (key : Z) (k : keys) : keys :=
  MkKeys (k_shift k && negb (is_shift key)) (k_ctl k && negb (is_ctl key)) (k_alt k && negb (is_alt key))
    (k_caps k) (k_num k) (k_scroll k) false.

Definition key_down (key : Z) (k : keys) : keys :=
  MkKeys (k_shift k || is_shift key) (k_ctl k || is_ctl key) (k_alt k || is_alt key)
    (xorb (k_caps k) (key =? 58)) (xorb (k_num k) (key =? 69)) (xorb (k_scroll k) (key =? 70)) false.

Definition swap_case (c : Z) : Z :=
  if (97 <=? c) && (c <=? 122) then c - 32 else if (65 <=? c) && (c <=? 90) then c + 32 else c.

Definition typed (key : Z) (k : keys) : Z :=
  let c := tab (if k_ctl k then ctlmap else if k_shift k then shiftmap else normalmap) key in
  if k_caps k then swap_case c else c.

(** What a scan code means. *)
Definition akbd (k : keys) (data : Z) : Z * keys :=
  if data =? 224 then (0, MkKeys (k_shift k) (k_ctl k) (k_alt k) (k_caps k) (k_num k) (k_scroll k) true)
  else if 128 <=? data then (0, key_up (if k_esc k then data else data - 128) k)
  else let key := if k_esc k then data + 128 else data in
       let k := key_down key k in (typed key k, k).

Fixpoint akbd_chars (k : keys) (codes : list Z) : list Z * keys :=
  match codes with
  | [] => ([], k)
  | data :: codes' => let '(c, k) := akbd k data in let '(cs, k) := akbd_chars k codes' in (c :: cs, k)
  end.

(** There are 2^7 states and 2^8 codes. *)
Definition bools : list bool := [false; true].
Definition all_keys : list keys :=
  s ← bools; c ← bools; a ← bools; l ← bools; n ← bools; r ← bools; e ← bools; [MkKeys s c a l n r e].

#[global] Instance keys_eq_dec : EqDecision keys.
Proof. solve_decision. Defined.

Definition code_agrees (k : keys) (data : Z) : bool :=
  let '(c, shift) := kbd_code (bits k) data in
  let '(c', k') := akbd k data in
  (c =? c') && (shift =? bits k') && (0 <=? c) && (c <? 256).

Lemma codes_agree : forallb (λ k, forallb (λ i, code_agrees k (Z.of_nat i)) (seq 0 256)) all_keys = true.
Proof. by vm_compute. Qed.

Lemma in_all_keys k : k ∈ all_keys.
Proof. destruct k as [[] [] [] [] [] [] []]; apply (bool_decide_unpack _); by vm_compute. Qed.

Lemma kbd_code_agrees k data : 0 ≤ data < 256 → code_agrees k data = true.
Proof.
  intros Hd. pose proof codes_agree as H. rewrite forallb_forall in H.
  specialize (H k (proj1 (list_elem_of_In _ _) (in_all_keys k))). rewrite forallb_forall in H.
  specialize (H (Z.to_nat data)). rewrite Z2Nat.id in H by lia. apply H, in_seq. lia.
Qed.

Lemma kbd_code_refines k data : 0 ≤ data < 256 →
  kbd_code (bits k) data = ((akbd k data).1, bits (akbd k data).2) ∧ 0 ≤ (akbd k data).1 < 256.
Proof.
  intros Hd. pose proof (kbd_code_agrees k data Hd) as H. unfold code_agrees in H.
  destruct (kbd_code (bits k) data) as [c sh], (akbd k data) as [c' k']. cbn [fst snd].
  rewrite !andb_true_iff, !Z.eqb_eq, Z.leb_le, Z.ltb_lt in H. destruct H as [[[-> ->] ?] ?]. split; [done|lia].
Qed.

Lemma kbd_chars_refines codes : ∀ k, Forall (λ d, 0 ≤ d < 256) codes →
  kbd_chars (bits k) codes = ((akbd_chars k codes).1, bits (akbd_chars k codes).2) ∧
  Forall (λ c, 0 ≤ c < 256) (akbd_chars k codes).1.
Proof.
  induction codes as [|d codes IH]; intros k H; cbn [kbd_chars akbd_chars]; [done|].
  apply Forall_cons in H as [Hd H]. destruct (kbd_code_refines k d Hd) as [-> Hc].
  destruct (akbd k d) as [c k1]. cbn [fst snd] in *. destruct (IH k1 H) as [-> Hcs].
  destruct (akbd_chars k1 codes) as [cs k2]. cbn [fst snd] in *. auto.
Qed.

(** A keyboard interrupt: whatever scan codes wait, the bits of shift follow
    the keys that are held and the locks that are on, each code gives the
    character of the key under them, and the console edits its line with
    these characters. *)
Theorem kbdintr_refines (codes : list Z) (k : keys) (s : con) (a : aline) :
  Forall (λ d, 0 ≤ d < 256) codes → console_rel s a →
  let '(cs, k') := akbd_chars k codes in
  let '(d, a') := akeys cs a in
  ∃ s', kbdintr (bits k) codes s = Ret ((d, bits k'), s') ∧ console_rel s' a'.
Proof.
  intros H Ha. destruct (kbd_chars_refines codes k H) as [E Hcs]. unfold kbdintr. rewrite E.
  destruct (akbd_chars k codes) as [cs k']. cbn [fst snd] in *.
  destruct (wp_consoleintr cs s a (λ d s', d = (akeys cs a).1 ∧ console_rel s' (akeys cs a).2)) as (d & s' & E1 & -> & H1);
    [done..|]. destruct (akeys cs a) as [d a']. exists s'. split; [|done]. by rewrite (bind_ret_eval _ _ _ _ _ E1).
Qed.

(** Shift is held for an L; then s, caps lock, and L again. *)
Lemma kbdintr_refines_witness :
  let k0 := MkKeys false false false false false false false in
  ∃ s', kbdintr (bits k0) [42; 38; 170; 31; 58; 38] (con_at 0) =
          Ret ((false, bits (MkKeys false false false true false false false)), s') ∧
        console_rel s' (MkLine [] [76; 115; 76]).
Proof.
  apply (kbdintr_refines [42; 38; 170; 31; 58; 38] (MkKeys false false false false false false false) (con_at 0) (MkLine [] []));
    [repeat constructor; lia|apply con_at_rel; lia].
Defined.

(** The Home key sends E0 47, key 0xC7, which has no entry: KEY_HOME is at
    0x97, in the place of the code E0 17. *)
Example home_key_unmapped :
  (akbd_chars (MkKeys false false false false false false false) [224; 71]).1 = [0; 0] ∧
  (akbd_chars (MkKeys false false false false false false false) [224; 23]).1 = [0; 224].
Proof. by vm_compute. Qed.
