(* ===== verification/Exec.v ===== *)
(** Program loading, exec.c.

    exec works on the memory, the process and the file system at once.  The
    calls it makes to the file system are the class [ExecOps]; what it relies
    on is stated in ExecProps, and ExecFs shows that fs.c provides it.  What
    it reads through pointers into the memory of the process (the path and
    the strings of argv) and its local variables are lists of bytes or
    words. *)

From S2P Require Import Prelude Params Cstring Kalloc Vm Spinlock ProcData Proc Bytes.

Class ExecOps (F : Type) : Type := {
  x_begin_op : M F unit;
  x_end_op : M F unit;
  x_namei : list Z → M F (option nat);
  x_ilock : nat → M F unit;
  x_readi : nat → Z → Z → M F (Z * list Z);       (* the value returned and the bytes read *)
  x_iunlockput : nat → M F unit
}.

(** elf.h *)
Definition ELF_MAGIC : Z := 1179403647.   (* 0x464C457F *)
Definition ELFHDR : Z := 52.              (* sizeof(struct elfhdr) *)
Definition e_magic (h : list Z) : Z := get32 h 0.
Definition e_entry (h : list Z) : Z := get32 h 24.
Definition e_phoff (h : list Z) : Z := get32 h 28.
Definition e_phnum (h : list Z) : Z := get16 h 44.
Definition PROGHDR : Z := 32.             (* sizeof(struct proghdr) *)
Definition ELF_PROG_LOAD : Z := 1.
Definition p_type (h : list Z) : Z := get32 h 0.
Definition p_off (h : list Z) : Z := get32 h 4.
Definition p_vaddr (h : list Z) : Z := get32 h 8.
Definition p_filesz (h : list Z) : Z := get32 h 16.
Definition p_memsz (h : list Z) : Z := get32 h 20.

(** Bytes stored at an address. *)
Definition put_bytes (a : Z) (l : list Z) (m : mem) : mem := λ x,
  if (a <=? x) && (x <? a + Z.of_nat (length l)) then default 0 (l !! Z.to_nat (x - a)) else m x.

(** What follows the last slash of a path. *)
Fixpoint last_elem (last s : list Z) : list Z :=
  match s with
  | [] => last
  | c :: s' => last_elem (if c =? 47 then s' else last) s'
  end.

(** copyout of vm.c, from a buffer outside the memory of the kernel model. *)
Fixpoint copyout_list_loop (fuel : nat) (pgdir va : Z) (buf : list Z) : M kmem Z :=
  if 0 <? Z.of_nat (length buf) then
    match fuel with
    | O => out_of_fuel
    | S f =>
        let va0 := PGROUNDDOWN va in
        pa0 <- uva2ka pgdir va0 ;;
        if pa0 =? 0 then ret (-1)
        else
          let n := Z.to_nat (Z.min (PGSIZE - (va - va0)) (Z.of_nat (length buf))) in
          store (put_bytes (pa0 + (va - va0)) (take n buf)) ;;;
          copyout_list_loop f pgdir (u32 (va0 + PGSIZE)) (drop n buf)
    end
  else ret 0.
Definition copyout_list (pgdir va : Z) (buf : list Z) : M kmem Z :=
  copyout_list_loop (Z.to_nat (Z.of_nat (length buf) / PGSIZE + 2)) pgdir va buf.

(** The bytes of an array of uint. *)
Definition word_bytes (v : Z) : list Z := [u8 v; u8 (v / 256); u8 (v / 65536); u8 (v / 16777216)].
Definition words_bytes (l : list Z) : list Z := concat (word_bytes <$> l).

Section exec_code.
Context {F : Type} {XO : ExecOps F}.
Context (me : nat) (kend kdata : Z).

Definition on_file {A} (c : M F A) : M (kst F) A := λ s,
  match c (fs (core s)) with
  | Ret (a, f) => Ret (a, MkKst (lk s) (set_fs f (core s)))
  | Panic m => Panic m
  | Undef => Undef
  | OutOfFuel => OutOfFuel
  end.
Definition on_mem A (c : M kmem A) : M (kst F) A := on_core (on_km c).
Arguments on_mem {A}.

(** readi(ip, dst, off, n) with a kernel address. *)
Definition readi_at (ip : nat) (dst off n : Z) : M (kst F) Z :=
  r <- on_file (x_readi ip off n) ;;
  on_mem (store (put_bytes dst r.2)) ;;;
  ret r.1.

(** The part of the loop for a header of type ELF_PROG_LOAD: the new size of
    the image; [None] is goto bad. *)
Definition load_segment (ip : nat) (pgdir sz : Z) (ph : list Z) : M (kst F) (option Z) :=
  if p_memsz ph <? p_filesz ph then ret None
  else if u32 (p_vaddr ph + p_memsz ph) <? p_vaddr ph then ret None
  else
    sz <- on_mem (allocuvm kend pgdir sz (u32 (p_vaddr ph + p_memsz ph))) ;;
    if sz =? 0 then ret None
    else if negb (p_vaddr ph mod PGSIZE =? 0) then ret None
    else
      r <- loaduvm (@on_mem) (readi_at ip) pgdir (p_vaddr ph) (p_off ph) (p_filesz ph) ;;
      if r <? 0 then ret None else ret (Some sz).

(** The loop over the program headers, [n] of them left. *)
Fixpoint load_loop (n : nat) (ip : nat) (pgdir sz off : Z) : M (kst F) (option Z) :=
  match n with
  | O => ret (Some sz)
  | S n' =>
      r <- on_file (x_readi ip off PROGHDR) ;;
      let ph := r.2 in
      if negb (r.1 =? PROGHDR) then ret None
      else if negb (p_type ph =? ELF_PROG_LOAD) then load_loop n' ip pgdir sz (u32 (off + PROGHDR))
      else
        r <- load_segment ip pgdir sz ph ;;
        match r with
        | None => ret None
        | Some sz => load_loop n' ip pgdir sz (u32 (off + PROGHDR))
        end
  end.

(** The loop over argv, which ends at its null pointer, here the end of the
    list; the result is the stack pointer and ustack. *)
Fixpoint push_loop (argv : list (list Z)) (argc pgdir sp : Z) (ustack : list Z) : M (kst F) (option (Z * list Z)) :=
  match argv with
  | [] => ret (Some (sp, ustack))
  | a :: argv' =>
      if MAXARG <=? argc then ret None
      else
        let n := Z.of_nat (length a) in       (* strlen(argv[argc]) *)
        let sp := Z.land (u32 (sp - (n + 1))) (u32 (Z.lnot 3)) in
        r <- on_mem (copyout_list pgdir sp (a ++ [0])) ;;
        if r <? 0 then ret None
        else
          ustack <- of_option (aset ustack (3 + argc) sp) ;;
          push_loop argv' (argc + 1) pgdir sp ustack
  end.

(** bad: *)
Definition exec_bad (pgdir : Z) (ip : option nat) : M (kst F) Z :=
  (if negb (pgdir =? 0) then on_mem (freevm kend pgdir) else ret tt) ;;;
  (match ip with Some ip => on_file (x_iunlockput ip) ;;; on_file x_end_op | None => ret tt end) ;;;
  ret (-1).

(** From the commit to the user image on. *)
Definition exec_commit (curproc : nat) (path : list Z) (pgdir sz entry sp : Z) : M (kst F) Z :=
  on_core (updp curproc (λ q, set_name (name_copy (name q) (last_elem path path)) q)) ;;;
  p <- on_core (getp curproc) ;;
  let oldpgdir := ProcData.pgdir p in
  on_core (updp curproc (set_pgdir pgdir)) ;;;
  on_core (updp curproc (set_sz sz)) ;;;
  on_mem (store (st32 (tf p + 56) entry)) ;;;
  on_mem (store (st32 (tf p + 68) sp)) ;;;
  on_core (updp curproc (set_priority 10)) ;;;
  switchuvm curproc ;;;
  on_mem (freevm kend oldpgdir) ;;;
  ret 0.

(** From the loop over argv on; [ustack0] is what the array holds before. *)
Definition exec_args (ustack0 : list Z) (curproc : nat) (path : list Z) (argv : list (list Z))
    (pgdir sz entry : Z) : M (kst F) Z :=
  r <- push_loop argv 0 pgdir sz ustack0 ;;
  match r with
  | None => exec_bad pgdir None
  | Some (sp, ustack) =>
      let argc := Z.of_nat (length argv) in
      ustack <- of_option (aset ustack (3 + argc) 0) ;;
      ustack <- of_option (aset ustack 0 4294967295) ;;
      ustack <- of_option (aset ustack 1 argc) ;;
      ustack <- of_option (aset ustack 2 (u32 (sp - (argc + 1) * 4))) ;;
      let sp := u32 (sp - (3 + argc + 1) * 4) in
      r <- on_mem (copyout_list pgdir sp (take (Z.to_nat ((3 + argc + 1) * 4)) (words_bytes ustack))) ;;
      if r <? 0 then exec_bad pgdir None
      else exec_commit curproc path pgdir sz entry sp
  end.

(** From the allocation of the stack on, when the file is closed. *)
Definition exec_stack (ustack0 : list Z) (curproc : nat) (path : list Z) (argv : list (list Z))
    (pgdir sz entry : Z) : M (kst F) Z :=
  let sz := PGROUNDUP sz in
  sz <- on_mem (allocuvm kend pgdir sz (u32 (sz + 2 * PGSIZE))) ;;
  if sz =? 0 then exec_bad pgdir None
  else
    on_mem (clearpteu pgdir (u32 (sz - 2 * PGSIZE))) ;;;
    exec_args ustack0 curproc path argv pgdir sz entry.

(** From the first readi on, with the inode locked. *)
Definition exec_image (ustack0 : list Z) (curproc : nat) (path : list Z) (argv : list (list Z)) (ip : nat) : M (kst F) Z :=
  r <- on_file (x_readi ip 0 ELFHDR) ;;
  let elf := r.2 in
  if negb (r.1 =? ELFHDR) then exec_bad 0 (Some ip)
  else if negb (e_magic elf =? ELF_MAGIC) then exec_bad 0 (Some ip)
  else
    pgdir <- on_mem (setupkvm kend kdata) ;;
    if pgdir =? 0 then exec_bad 0 (Some ip)
    else
      r <- load_loop (Z.to_nat (e_phnum elf)) ip pgdir 0 (e_phoff elf) ;;
      match r with
      | None => exec_bad pgdir (Some ip)
      | Some sz =>
          (on_file (x_iunlockput ip) ;;; on_file x_end_op) ;;;
          exec_stack ustack0 curproc path argv pgdir sz (e_entry elf)
      end.

(** exec. *)
Definition exec (ustack0 : list Z) (path : list Z) (argv : list (list Z)) : M (kst F) Z :=
  cur <- curproc ;;
  on_file x_begin_op ;;;
  ip <- on_file (x_namei path) ;;
  match ip with
  | None => on_file x_end_op ;;; on_core (print MExecFail) ;;; ret (-1)
  | Some ip =>
      on_file (x_ilock ip) ;;;
      exec_image ustack0 cur path argv ip
  end.

End exec_code.
