(* ===== verification/ExecMem.v ===== *)
(** The address space that exec builds.

    [image] describes an address space by its pages: the program and its
    stack below [hi], the page [g] that the user may not touch, the entries
    [kp] of the kernel half, and the bytes [img].  [owned] accounts for the
    pages: everything the space consists of was free when exec began, nothing
    else has changed, and no page has been lost.  Each operation of vm.c that
    exec calls is given by its effect on the two. *)

From S2P Require Import Prelude Params Cstring Kalloc Vm Uvm Exec.

(** The permissions of a user page. *)
Definition uperm (g va : Z) : Z := if (g <=? va) && (va <? g + 4096) then PTE_W else Z.lor PTE_W PTE_U.

Record image (kend : Z) (s : kmem) (l : list Z) (d hi g : Z) (kp img : Z → Z) : Prop := {
  im_wf : vm_wf kend s d l;
  im_user : user_wf kend s d l;
  im_pte : ∀ va, 0 ≤ va < hi → ∃ f, page_ok kend f ∧ pte_of (km_mem s) d va = leaf (V2P f) (uperm g va);
  im_abs : ∀ va, hi ≤ va < KERNBASE → absent (pte_of (km_mem s) d va);
  im_kern : ∀ va, KERNBASE ≤ va < 4294967296 → pte_of (km_mem s) d va = kp va;
  im_img : ∀ va x, 0 ≤ va < hi → uaddr (km_mem s) d va = Some x → km_mem s x = img va
}.

Record owned (kend : Z) (s0 : kmem) (l0 : list Z) (s : kmem) (l : list Z) (d : Z) : Prop := {
  ow_dir : d ∈ l0;
  ow_sub : ∀ q, q ∈ l → q ∈ l0;
  ow_tab : ∀ i t, 0 ≤ i < 1024 → pdt (km_mem s) d i = Some t → t ∈ l0;
  ow_frame : ∀ va f, 0 ≤ va < KERNBASE → frame_of (km_mem s) d va = Some f → f ∈ l0;
  ow_acct : ∀ q, q ∈ l0 → q ∈ l ∨ q = d ∨ (∃ i, 0 ≤ i < 1024 ∧ pdt (km_mem s) d i = Some q)
    ∨ (∃ va, 0 ≤ va < KERNBASE ∧ frame_of (km_mem s) d va = Some q);
  ow_keep : ∀ q, page_ok kend q → q ∉ l0 → same_page (km_mem s0) (km_mem s) q
}.

(** All that was taken has been given back. *)
Record restored (kend : Z) (s0 : kmem) (l0 : list Z) (s : kmem) (l : list Z) : Prop := {
  re_rep : kmem_rep kend s l;
  re_free : ∀ q, q ∈ l ↔ q ∈ l0;
  re_keep : ∀ q, page_ok kend q → q ∉ l0 → same_page (km_mem s0) (km_mem s) q
}.

Section space.
Context (kend : Z) (Hk : KERNBASE < kend).
Context (s0 : kmem) (l0 : list Z) (R0 : kmem_rep kend s0 l0).

Definition building (s : kmem) (l : list Z) (d hi g : Z) (kp img : Z → Z) : Prop :=
  image kend s l d hi g kp img ∧ owned kend s0 l0 s l d.

Lemma same_page_trans m1 m2 m3 q : same_page m1 m2 q → same_page m2 m3 q → same_page m1 m3 q.
Proof. intros H1 H2 x Hx. by rewrite H1, H2. Qed.

Lemma uperm_range g va : 0 ≤ uperm g va < 4096.
Proof. unfold uperm. destruct (_ && _); by vm_compute. Qed.

Lemma pte_frame d s l hi g kp img va :
  image kend s l d hi g kp img → 0 ≤ va < hi →
  ∃ f, page_ok kend f ∧ frame_of (km_mem s) d va = Some f ∧ pte_of (km_mem s) d va = leaf (V2P f) (uperm g va).
Proof.
  intros I Hva. destruct (im_pte _ _ _ _ _ _ _ _ I va Hva) as (f & Hf & E). exists f. split; [done|]. split; [|done].
  unfold frame_of. rewrite E. destruct (leaf_frame f kend (uperm g va) Hf (uperm_range g va)) as [Hp ->].
  by destruct (Z.eqb_spec (Z.land (leaf (V2P f) (uperm g va)) PTE_P) 0).
Qed.

(** * Giving back *)

Lemma building_free s l d hi g kp img :
  building s l d hi g kp img →
  ∃ s' l', freevm kend d s = Ret (tt, s') ∧ restored kend s0 l0 s' l'.
Proof.
  intros [I O]. destruct (freevm_run kend d s l Hk (im_wf _ _ _ _ _ _ _ _ I) (im_user _ _ _ _ _ _ _ _ I))
    as (s' & l' & E & R & Hl' & Hs'). exists s', l'. split; [done|].
  assert (Hfree : ∀ q, q ∈ l' ↔ q ∈ l0).
  { intros q. rewrite Hl'. split; [|apply (ow_acct _ _ _ _ _ _ O)].
    intros [?|[->|[(i & Hi & ?)|(va & Hva & ?)]]]; [by apply O|by apply O|by eapply (ow_tab _ _ _ _ _ _ O)|by eapply (ow_frame _ _ _ _ _ _ O)]. }
  split; [done|done|]. intros q Hq Hn. apply (same_page_trans _ (km_mem s)); [by apply O|]. apply Hs'; [done|]. by rewrite Hfree.
Qed.

(** How many pages there were, when few are left. *)
Lemma building_count s l d hi g kp img :
  building s l d hi g kp img → hi mod 4096 = 0 → 0 ≤ hi ≤ KERNBASE →
  Z.of_nat (length l0) ≤ 1025 + hi / 4096 + Z.of_nat (length l).
Proof.
  intros [I O] Hh Hr. assert (H : Z.of_nat (length l0) ≤ 1024 + (hi - 0) / 4096 + Z.of_nat (length (d :: l))).
  { apply (pages_bound (km_mem s) d); [by eapply kmem_rep_nodup|done|done|lia|unfold KERNBASE in *; lia|].
    intros q Hq. rewrite elem_of_cons. destruct (ow_acct _ _ _ _ _ _ O q Hq) as [?|[?|[?|(va & Hva & Hf)]]]; [auto..|].
    right; left. exists va. split; [|done]. split; [lia|]. destruct (Z.lt_ge_cases va hi); [done|exfalso].
    unfold frame_of in Hf. by rewrite (im_abs _ _ _ _ _ _ _ _ I va) in Hf by lia. }
  rewrite Z.sub_0_r in H. cbn [length] in H. lia.
Qed.

(** * The kernel half *)

Lemma no_user s l d :
  (∀ va, 0 ≤ va < KERNBASE → absent (pte_of (km_mem s) d va)) → user_wf kend s d l.
Proof.
  intros H. assert (N : ∀ va, 0 ≤ va < KERNBASE → frame_of (km_mem s) d va = None).
  { intros va Hva. unfold frame_of. by rewrite (H va Hva). }
  split; intros va *; intros; rewrite N in *; done.
Qed.

Lemma building_map s l d g kp img va size pa perm n :
  building s l d 0 g kp img →
  va mod 4096 = 0 → KERNBASE ≤ va → 0 < size → n = (size + 4095) / 4096 → va + 4096 * n ≤ 4294967296 →
  pa mod 4096 = 0 → 0 ≤ pa → pa + 4096 * n ≤ 4294967296 → 0 ≤ perm < 4096 →
  (∀ va', va ≤ va' < va + 4096 * n → absent (kp va')) →
  ∃ r s' l', mappages d va size pa perm s = Ret (r, s')
    ∧ ((r = 0 ∧ building s' l' d 0 g
          (λ va', if (va <=? va') && (va' <? va + 4096 * n) then leaf (pa + (va' / 4096 * 4096 - va)) perm else kp va') img)
       ∨ (r = -1 ∧ ∃ kp', building s' [] d 0 g kp' img)).
Proof.
  intros [I O] Ha Hb Hs Hn He Hpa Hpa0 Hpe Hperm Habs.
  destruct (mappages_ok kend d s l va size pa perm n) as (r & s' & l' & k & E & G & M & Hr); try done.
  { apply I. } { unfold KERNBASE in *; lia. }
  { intros va' Hva'. rewrite (im_kern _ _ _ _ _ _ _ _ I) by lia. by apply Habs. }
  exists r, s', l'. split; [done|].
  assert (Hlow : ∀ va', 0 ≤ va' < KERNBASE → absent (pte_of (km_mem s') d va')).
  { intros va' H'. rewrite M by (unfold KERNBASE in *; lia). zcases; apply (im_abs _ _ _ _ _ _ _ _ I); lia. }
  destruct (pg_taken _ _ _ _ _ _ G) as (l1 & El & Ht & Hl1).
  assert (O' : owned kend s0 l0 s' l' d).
  { assert (Htab : ∀ i t, 0 ≤ i < 1024 → pdt (km_mem s') d i = Some t → t ∈ l0).
    { intros i t Hi Hp. destruct (Ht i t Hi Hp); [by eapply (ow_tab _ _ _ _ _ _ O)|]. apply (ow_sub _ _ _ _ _ _ O). set_solver. }
    split; [apply O| |done| | |].
    - intros q Hq. apply (ow_sub _ _ _ _ _ _ O). set_solver.
    - intros va' f Hva' Hf. unfold frame_of in Hf. by rewrite (Hlow va' Hva') in Hf.
    - intros q Hq. destruct (ow_acct _ _ _ _ _ _ O q Hq) as [Hl|[?|[(i & Hi & Hp)|(va' & Hva' & Hf)]]].
      + rewrite El, elem_of_app in Hl. destruct Hl as [Hl|]; auto.
      + auto.
      + right; right; left. exists i. split; [done|]. by apply (pg_old _ _ _ _ _ _ G).
      + unfold frame_of in Hf. by rewrite (im_abs _ _ _ _ _ _ _ _ I va') in Hf by lia.
    - intros q Hq Hn'. apply (same_page_trans _ (km_mem s)); [by apply O|]. apply (pg_frame _ _ _ _ _ _ G); [done| |].
      + intros ->. by apply Hn', O.
      + intros i Hi Hp. by apply Hn', (Htab i). }
  assert (I' : ∀ kp', (∀ va', KERNBASE ≤ va' < 4294967296 → pte_of (km_mem s') d va' = kp' va') → image kend s' l' d 0 g kp' img).
  { intros kp' Hkp. split; [apply G|by apply no_user|intros; lia| |done|intros; lia].
    intros va' Hva'. apply Hlow. lia. }
  destruct Hr as [[-> ->]|(-> & _ & ->)]; [left|right]; (split; [done|]).
  - split; [|done]. apply I'. intros va' Hva'. rewrite M by (unfold KERNBASE in *; lia).
    zcases; try done; by rewrite (im_kern _ _ _ _ _ _ _ _ I).
  - exists (pte_of (km_mem s') d). by split; [apply I'|].
Qed.

(** The first page becomes an empty directory. *)
Lemma building_new p l g img :
  l0 = p :: l →
  ∃ s, (kalloc s0 = Ret (p, set_freelist (ld32 (km_mem s0) p) s0))
    ∧ s = set_mem (memset p 0 PGSIZE (km_mem s0)) (set_freelist (ld32 (km_mem s0) p) s0)
    ∧ building s l p 0 g (λ _, 0) img.
Proof.
  intros El. pose proof R0 as R. rewrite El in R. destruct (kalloc_rep_cons kend s0 p l R) as [E R1].
  assert (Hp : page_ok kend p) by (eapply kmem_rep_pages; [exact R|left]).
  assert (Hpl : p ∉ l) by (apply kmem_rep_nodup in R; by apply NoDup_cons in R as [? _]).
  eexists. split; [exact E|]. split; [reflexivity|]. set (m := memset p 0 PGSIZE (km_mem s0)).
  assert (Hz : ∀ i, 0 ≤ i < 1024 → pdt m p i = None).
  { intros i Hi. unfold pdt. assert (ld32 m (p + 4 * i) = 0) as ->; [|done].
    unfold ld32. rewrite !(memset_zeroed p (km_mem s0)) by (unfold in_page; lia). done. }
  assert (Hpte : ∀ va, pte_of m p va = 0) by (intros va; unfold pte_of; by rewrite Hz by apply PDX_range).
  assert (Hsame : ∀ q, page_ok kend q → q ≠ p → same_page (km_mem s0) m q) by (intros; by eapply memset_page).
  assert (Hlow : ∀ va, 0 ≤ va < KERNBASE → absent (pte_of m p va)) by (intros; by rewrite Hpte).
  split.
  - split; [|by apply no_user|intros; lia|intros; apply Hlow; lia|intros; apply Hpte|intros; lia].
    split; [|done|done| |].
    + apply kmem_rep_frame; [done|apply memset_ok; [unfold PGSIZE; lia|apply R]|].
      intros q x Hq Hx. apply (Hsame q); [by eapply kmem_rep_pages|by intros ->|done].
    + intros i t Hi Ht. rewrite (Hz i Hi : pdt (km_mem (set_mem m _)) p i = None) in Ht. done.
    + intros i j t Hi Hj Ht. rewrite (Hz i Hi : pdt (km_mem (set_mem m _)) p i = None) in Ht. done.
  - split.
    + rewrite El. left.
    + intros q Hq. rewrite El. by right.
    + intros i t Hi Ht. rewrite (Hz i Hi : pdt (km_mem (set_mem m _)) p i = None) in Ht. done.
    + intros va f Hva Hf. unfold frame_of in Hf. cbn [km_mem set_mem] in Hf. by rewrite Hpte in Hf.
    + intros q Hq. rewrite El, elem_of_cons in Hq. tauto.
    + intros q Hq Hn. apply Hsame; [done|]. intros ->. apply Hn. rewrite El. left.
Qed.

(** The four mappings of kmap. *)
Section kernel.
Context (kdata : Z) (Hdata : kdata mod 4096 = 0 ∧ KERNLINK < kdata < KERNBASE + PHYSTOP).

Definition kernel_pte (va : Z) : Z :=
  let p := va / 4096 * 4096 in
  if va <? KERNBASE then 0
  else if va <? KERNLINK then leaf (p - KERNBASE) PTE_W
  else if va <? kdata then leaf (p - KERNBASE) 0
  else if va <? KERNBASE + PHYSTOP then leaf (p - KERNBASE) PTE_W
  else if va <? DEVSPACE then 0
  else leaf p PTE_W.

Lemma image_kp s l d hi g kp kp' img :
  (∀ va, KERNBASE ≤ va < 4294967296 → kp va = kp' va) → image kend s l d hi g kp img → image kend s l d hi g kp' img.
Proof. intros H []. split; try done. intros va Hva. rewrite <- H by done. auto. Qed.

(** A mapping that fails gives the directory back. *)
Lemma setup_fail s d g kp img :
  building s [] d 0 g kp img →
  ∃ s' l', (freevm kend d ;;; ret 0) s = Ret (0, s') ∧ restored kend s0 l0 s' l' ∧ Z.of_nat (length l0) ≤ 1025.
Proof.
  intros B. destruct (building_free _ _ _ _ _ _ _ B) as (s' & l' & E & H). exists s', l'.
  split; [by rewrite (bind_ret_eval _ _ _ _ _ E)|]. split; [done|].
  pose proof (building_count _ _ _ _ _ _ _ B eq_refl ltac:(by unfold KERNBASE)) as Hc. rewrite Z.div_0_l in Hc by lia. cbn [length] in Hc. lia.
Qed.

Definition setup_result (g : Z) (img : Z → Z) (r : Z) (s : kmem) : Prop :=
  (r ≠ 0 ∧ ∃ l, building s l r 0 g kernel_pte img)
  ∨ (r = 0 ∧ Z.of_nat (length l0) ≤ 1025 ∧ ∃ l, restored kend s0 l0 s l).

Lemma setup_step s l d g kp img k ks n :
  building s l d 0 g kp img →
  virt k mod 4096 = 0 → KERNBASE ≤ virt k → 0 < u32 (phys_end k - phys_start k) →
  n = (u32 (phys_end k - phys_start k) + 4095) / 4096 → virt k + 4096 * n ≤ 4294967296 →
  phys_start k mod 4096 = 0 → 0 ≤ phys_start k → phys_start k + 4096 * n ≤ 4294967296 → 0 ≤ kperm k < 4096 →
  (∀ va', virt k ≤ va' < virt k + 4096 * n → absent (kp va')) →
  (∀ s' l', building s' l' d 0 g (λ va', if (virt k <=? va') && (va' <? virt k + 4096 * n)
               then leaf (phys_start k + (va' / 4096 * 4096 - virt k)) (kperm k) else kp va') img →
     ∃ r s'', setupkvm_loop kend d ks s' = Ret (r, s'') ∧ setup_result g img r s'') →
  ∃ r s'', setupkvm_loop kend d (k :: ks) s = Ret (r, s'') ∧ setup_result g img r s''.
Proof.
  intros B H1 H2 H3 H4 H5 H6 H7 H8 H9 H10 Hnext. cbn [setupkvm_loop].
  destruct (building_map s l d g kp img (virt k) _ (phys_start k) (kperm k) n B H1 H2 H3 H4 H5 H6 H7 H8 H9 H10)
    as (r & s' & l' & E & Hr). rewrite (bind_ret_eval _ _ _ _ _ E). destruct Hr as [[-> B']|[-> (kp' & B')]].
  - by eapply Hnext.
  - destruct (setup_fail s' d g kp' img B') as (s'' & l'' & E'' & R & Hc). exists 0, s''. split; [done|].
    right. split_and!; [done..|]. by exists l''.
Qed.

Lemma building_setup g img :
  ∃ r s, setupkvm kend kdata s0 = Ret (r, s) ∧ setup_result g img r s.
Proof.
  unfold setupkvm. assert (El : l0 = [] ∨ ∃ p l, l0 = p :: l) by (destruct l0; eauto). destruct El as [El|(p & l & El)].
  { pose proof R0 as R. rewrite El in R. erewrite bind_ret_eval by (by eapply kalloc_rep_nil). exists 0, s0. split; [done|].
    right. split_and!; [done|rewrite El; simpl; lia|]. exists []. split; [done|by rewrite El|done]. }
  destruct (building_new p l g img El) as (s & E & Es & B).
  assert (Hp : page_ok kend p) by (eapply kmem_rep_pages; [exact R0|rewrite El; left]). pose proof (page_ok_bounds _ _ Hp).
  rewrite (bind_ret_eval _ _ _ _ _ E). destruct (Z.eqb_spec p 0); [lia|].
  rewrite (bind_ret_eval _ _ _ tt s) by (by rewrite Es).
  replace (DEVSPACE <? P2V PHYSTOP) with false by (by vm_compute). unfold kmap.
  destruct Hdata as [Hd Hr]. unfold KERNLINK, KERNBASE, EXTMEM, PHYSTOP in Hr.
  assert (E1 : u32 (V2P kdata - V2P KERNLINK) = kdata - KERNLINK ∧ u32 (PHYSTOP - V2P kdata) = KERNBASE + PHYSTOP - kdata
            ∧ V2P kdata = kdata - KERNBASE).
  { unfold V2P, KERNLINK, KERNBASE, EXTMEM, PHYSTOP. rewrite !(u32_small (kdata - _)), !(u32_small (_ - 2147483648)) by lia.
    rewrite !u32_small by lia. lia. }
  destruct E1 as (E1 & E2 & E3).
  eapply (setup_step _ _ _ _ _ _ (MkKmap KERNBASE 0 EXTMEM PTE_W) _ 256 B); [by vm_compute..|done|].
  clear dependent s. cbn [virt phys_start phys_end kperm]. intros s1 l1 B1.
  eapply (setup_step _ _ _ _ _ _ (MkKmap KERNLINK (V2P KERNLINK) (V2P kdata) 0) _ ((kdata - KERNLINK) / 4096) B1);
    cbn [virt phys_start phys_end kperm]; rewrite ?E1; [by vm_compute|by vm_compute| | | |by vm_compute|by vm_compute| |by vm_compute| |].
  1-4: unfold V2P, u32, KERNLINK, KERNBASE, EXTMEM in *; Z.div_mod_to_equations; lia.
  { intros va Hva. unfold KERNLINK, KERNBASE, EXTMEM in *. zcases; first [reflexivity|exfalso; Z.div_mod_to_equations; lia]. }
  clear dependent s1. intros s2 l2 B2.
  eapply (setup_step _ _ _ _ _ _ (MkKmap kdata (V2P kdata) PHYSTOP PTE_W) _ ((KERNBASE + PHYSTOP - kdata) / 4096) B2);
    cbn [virt phys_start phys_end kperm]; rewrite ?E2, ?E3; [done| | | | | | | |by vm_compute| |].
  1-7: unfold KERNLINK, KERNBASE, EXTMEM, PHYSTOP in *; Z.div_mod_to_equations; lia.
  { intros va Hva. unfold KERNLINK, KERNBASE, EXTMEM, PHYSTOP in *. zcases; first [reflexivity|exfalso; Z.div_mod_to_equations; lia]. }
  clear dependent s2. intros s3 l3 B3.
  eapply (setup_step _ _ _ _ _ _ (MkKmap DEVSPACE DEVSPACE 0 PTE_W) _ 8192 B3); [by vm_compute..| |].
  { cbn [virt phys_start phys_end kperm]. intros va Hva. unfold DEVSPACE, KERNLINK, KERNBASE, EXTMEM, PHYSTOP in *.
    zcases; first [reflexivity|exfalso; Z.div_mod_to_equations; lia]. }
  cbn [virt phys_start phys_end kperm].
  clear dependent s3. intros s4 l4 [I4 O4]. exists p, s4. split; [done|]. left. split; [done|]. exists l4. split; [|done].
  eapply image_kp, I4. intros va Hva. cbv beta. unfold kernel_pte. change (V2P KERNLINK) with 1048576.
  unfold DEVSPACE, KERNLINK, KERNBASE, EXTMEM, PHYSTOP in *. zcases; try done; try (exfalso; Z.div_mod_to_equations; lia).
  all: f_equal; lia.
Qed.
End kernel.

(** * Growing *)

Lemma uperm_user g va : g ≤ -4096 → 0 ≤ va → uperm g va = Z.lor PTE_W PTE_U.
Proof. intros. unfold uperm. zcases; done || lia. Qed.

Lemma uaddr_frame m d va f : frame_of m d va = Some f → uaddr m d va = Some (f + va mod 4096).
Proof. intros H. unfold uaddr. by rewrite H. Qed.

Lemma mod_in_page f va : in_page f (f + va mod 4096).
Proof. unfold in_page. pose proof (Z.mod_pos_bound va 4096). lia. Qed.

(** The bytes of the pages below [hi] when their frames keep their bytes. *)
Lemma image_bytes s l d hi g kp img m va x :
  image kend s l d hi g kp img → 0 ≤ va < hi → hi ≤ KERNBASE → pte_of m d va = pte_of (km_mem s) d va →
  (∀ f, frame_of (km_mem s) d va = Some f → same_page (km_mem s) m f) → uaddr m d va = Some x → m x = img va.
Proof.
  intros I Hva Hh Hp Hs Hx. destruct (pte_frame d s l hi g kp img va I Hva) as (f & _ & Hf & _).
  rewrite (uaddr_frame _ _ _ f) in Hx by (by rewrite (frame_of_ext (km_mem s))). injection Hx as <-.
  rewrite <- (Hs f Hf) by apply mod_in_page. apply (im_img _ _ _ _ _ _ _ _ I); [done|by apply uaddr_frame].
Qed.

Lemma frame_user s l d hi g kp img va f :
  image kend s l d hi g kp img → 0 ≤ va < KERNBASE → frame_of (km_mem s) d va = Some f →
  page_ok kend f ∧ (f ∉ l) ∧ not_table (km_mem s) d f.
Proof. intros I. apply (uw_frame _ _ _ _ (im_user _ _ _ _ _ _ _ _ I)). Qed.

Lemma grown_image s l d lo hi s' l' g kp img :
  image kend s l d lo g kp img → grown kend d s l s' l' lo hi → 0 ≤ lo ≤ hi → hi ≤ KERNBASE → g ≤ -4096 →
  (∀ va, lo ≤ va → img va = 0) → image kend s' l' d hi g kp img.
Proof.
  intros I G Hl Hh Hg Hz. assert (Hout : ∀ va, 0 ≤ va < 4294967296 → va < lo ∨ hi ≤ va → pte_of (km_mem s') d va = pte_of (km_mem s) d va) by apply G.
  split; [apply G|apply G| | | |].
  - intros va Hva. destruct (Z.lt_ge_cases va lo).
    + rewrite Hout by (unfold KERNBASE in *; lia). apply (im_pte _ _ _ _ _ _ _ _ I). lia.
    + destruct (gr_in _ _ _ _ _ _ _ _ G va) as (f & _ & Hf & _ & E); [lia|]. exists f. by rewrite uperm_user by lia.
  - intros va Hva. rewrite Hout by (unfold KERNBASE in *; lia). apply (im_abs _ _ _ _ _ _ _ _ I). lia.
  - intros va Hva. rewrite Hout by (unfold KERNBASE in *; lia). by apply I.
  - intros va x Hva Hx. destruct (Z.lt_ge_cases va lo).
    + eapply image_bytes; [exact I|lia|unfold KERNBASE in *; lia|apply Hout; unfold KERNBASE in *; lia| |exact Hx].
      intros f Hf. destruct (frame_user _ _ _ _ _ _ _ va f I) as (H1 & H2 & H3); [lia|done|]. by apply (gr_frame _ _ _ _ _ _ _ _ G).
    + destruct (gr_in _ _ _ _ _ _ _ _ G va) as (f & _ & Hf & Hzf & E); [lia|].
      destruct (leaf_frame f kend (Z.lor PTE_W PTE_U) Hf) as [Hpr Hfv]; [by compute|].
      assert (Ef : frame_of (km_mem s') d va = Some f).
      { unfold frame_of. rewrite E, Hfv. by destruct (Z.eqb_spec (Z.land (leaf (V2P f) (Z.lor PTE_W PTE_U)) PTE_P) 0). }
      rewrite (uaddr_frame _ _ _ f Ef) in Hx. injection Hx as <-. rewrite Hzf by apply mod_in_page. symmetry. apply Hz. lia.
Qed.

Lemma grown_owned s l d lo hi s' l' g kp img :
  owned kend s0 l0 s l d → image kend s l d lo g kp img → grown kend d s l s' l' lo hi → 0 ≤ lo ≤ hi → hi ≤ KERNBASE →
  owned kend s0 l0 s' l' d.
Proof.
  intros O I G Hl Hh.
  assert (Hout : ∀ va, 0 ≤ va < KERNBASE → va < lo ∨ hi ≤ va → frame_of (km_mem s') d va = frame_of (km_mem s) d va).
  { intros va Hva Hr. apply frame_of_ext, G; [unfold KERNBASE in *; lia|done]. }
  assert (Htab : ∀ i t, 0 ≤ i < 1024 → pdt (km_mem s') d i = Some t → t ∈ l0).
  { intros i t Hi Ht. destruct (gr_tables _ _ _ _ _ _ _ _ G i t Hi Ht); [by eapply (ow_tab _ _ _ _ _ _ O)|by apply O]. }
  split; [apply O| |done| | |].
  - intros q Hq. by apply O, G.
  - intros va f Hva Hf. destruct (decide (va < lo ∨ hi ≤ va)) as [Hr|Hr].
    + rewrite Hout in Hf by done. by apply (ow_frame _ _ _ _ _ _ O va).
    + destruct (gr_in _ _ _ _ _ _ _ _ G va) as (f' & Hl' & Hf' & _ & E); [lia|].
      destruct (leaf_frame f' kend (Z.lor PTE_W PTE_U) Hf') as [Hpr Hfv]; [by compute|].
      unfold frame_of in Hf. rewrite E, Hfv in Hf. destruct (_ =? 0); [done|]. injection Hf as <-. by apply O.
  - intros q Hq. destruct (ow_acct _ _ _ _ _ _ O q Hq) as [Hql|[?|[(i & Hi & Ht)|(va & Hva & Hf)]]].
    + destruct (gr_acct _ _ _ _ _ _ _ _ G q Hql) as [?|[?|(va & Hva & Hf)]]; [auto..|].
      do 3 right. exists va. split; [lia|done].
    + auto.
    + right; right; left. exists i. split; [done|]. by apply G.
    + destruct (decide (va < lo ∨ hi ≤ va)) as [Hr|Hr].
      * do 3 right. exists va. split; [done|]. by rewrite Hout.
      * unfold frame_of in Hf. by rewrite (im_abs _ _ _ _ _ _ _ _ I va) in Hf by lia.
  - intros q Hq Hn. apply (same_page_trans _ (km_mem s)); [by apply O|]. apply (gr_frame _ _ _ _ _ _ _ _ G); [done|..].
    + intros Hl'. by apply Hn, O.
    + split; [intros ->; by apply Hn, O|]. intros i Hi Ht. by apply Hn, (ow_tab _ _ _ _ _ _ O i).
Qed.

(** allocuvm failed: the space is as it was, up to empty page tables. *)
Section held.
Context (s : kmem) (l : list Z) (d lo newsz : Z) (s' : kmem) (l' : list Z) (g : Z) (kp img : Z → Z).
Context (I : image kend s l d lo g kp img) (O : owned kend s0 l0 s l d).
Context (H : held kend d s l s' l' lo newsz []) (A : absent_from (km_mem s') d lo newsz).
Context (Hlo : 0 ≤ lo ≤ KERNBASE) (Hn : newsz ≤ KERNBASE).

Lemma held_abs va : lo ≤ va < KERNBASE → absent (pte_of (km_mem s') d va).
Proof.
  intros Hva. destruct (Z.lt_ge_cases (va / 4096 * 4096) newsz); [apply A; lia|].
  rewrite (he_out _ _ _ _ _ _ _ _ _ H) by (unfold KERNBASE in *; lia). by apply I.
Qed.

Lemma held_pte va : 0 ≤ va < 4294967296 → va < lo ∨ KERNBASE ≤ va → pte_of (km_mem s') d va = pte_of (km_mem s) d va.
Proof. intros Hva Hr. apply H; [done|]. unfold KERNBASE in *. Z.div_mod_to_equations; lia. Qed.

Lemma held_frame va f :
  0 ≤ va < KERNBASE → frame_of (km_mem s') d va = Some f ↔ frame_of (km_mem s) d va = Some f.
Proof.
  intros Hva. destruct (Z.lt_ge_cases va lo).
  - by rewrite (frame_of_ext (km_mem s)) by (apply held_pte; unfold KERNBASE in *; lia).
  - unfold frame_of. by rewrite held_abs, (im_abs _ _ _ _ _ _ _ _ I) by lia.
Qed.

Lemma held_image : image kend s' l' d lo g kp img.
Proof.
  assert (Hpl := held_pte). split; [apply H|apply H| |apply held_abs| |].
  - intros va Hva. rewrite Hpl by (unfold KERNBASE in *; lia). by apply (im_pte _ _ _ _ _ _ _ _ I).
  - intros va Hva. rewrite Hpl by (unfold KERNBASE in *; lia). by apply I.
  - intros va x Hva. eapply image_bytes; [exact I|done|lia|apply Hpl; unfold KERNBASE in *; lia|].
    intros f Hf. destruct (frame_user _ _ _ _ _ _ _ va f I) as (H1 & H2 & H3); [lia|done|].
    by apply (he_frame _ _ _ _ _ _ _ _ _ H).
Qed.

Lemma held_owned : owned kend s0 l0 s' l' d.
Proof.
  assert (Hnt : ∀ q, q ∉ l0 → (q ∉ l) ∧ not_table (km_mem s) d q).
  { intros q Hq. split; [intros ?; by apply Hq, O|]. split; [intros ->; by apply Hq, O|].
    intros i Hi Ht. by apply Hq, (ow_tab _ _ _ _ _ _ O i). }
  split; [apply O| | | | |].
  - intros q Hq. by apply O, H.
  - intros i t Hi Ht. destruct (decide (t ∈ l0)) as [|Hn0]; [done|exfalso]. destruct (Hnt t Hn0) as [Ht1 Ht2].
    destruct (wf_tab _ _ _ _ (he_wf _ _ _ _ _ _ _ _ _ H) i t Hi Ht) as (Hok & _).
    destruct (he_frame _ _ _ _ _ _ _ _ _ H t Hok Ht1 Ht2) as [[_ Hx] _]. by apply (Hx i).
  - intros va f Hva Hf. by apply (ow_frame _ _ _ _ _ _ O va), held_frame.
  - intros q Hq. destruct (ow_acct _ _ _ _ _ _ O q Hq) as [Hql|[?|[(i & Hi & Ht)|(va & Hva & Hf)]]].
    + destruct (he_acct _ _ _ _ _ _ _ _ _ H q Hql) as [?|[?|[(va & H1 & H2 & Hf)|Hn']]]; [auto..| |by apply elem_of_nil in Hn'].
      unfold frame_of in Hf. by rewrite (A va H1 H2) in Hf.
    + auto.
    + right; right; left. exists i. split; [done|]. by apply H.
    + do 3 right. exists va. split; [done|]. by apply held_frame.
  - intros q Hq Hn0. apply (same_page_trans _ (km_mem s)); [by apply O|]. destruct (Hnt q Hn0). by apply H.
Qed.
End held.

Lemma building_alloc s l d sz newsz g kp img :
  let hi := (sz + 4095) / 4096 * 4096 in
  building s l d hi g kp img → 0 ≤ sz ≤ KERNBASE → 0 ≤ newsz → g ≤ -4096 → (∀ va, hi ≤ va → img va = 0) →
  ∃ r s' l', allocuvm kend d sz newsz s = Ret (r, s')
    ∧ ((newsz < KERNBASE ∧ r = Z.max sz newsz ∧ building s' l' d ((r + 4095) / 4096 * 4096) g kp img)
       ∨ (r = 0 ∧ (KERNBASE ≤ newsz ∨ Z.of_nat (length l0) ≤ 2049 + (newsz + 4095) / 4096)
          ∧ building s' l' d hi g kp img)).
Proof.
  intros hi B Hsz Hn Hg Hz. pose proof B as [I O].
  destruct (Z.leb_spec KERNBASE newsz) as [Hge|Hlt].
  { exists 0, s, l. split; [|right; auto]. unfold allocuvm. by rewrite (proj2 (Z.leb_le _ _) Hge). }
  destruct (Z.ltb_spec newsz sz) as [Hs|Hs].
  { exists sz, s, l. split; [|left; rewrite Z.max_l by lia; auto]. unfold allocuvm.
    by rewrite (proj2 (Z.leb_gt _ _) Hlt), (proj2 (Z.ltb_lt _ _) Hs). }
  assert (Hhi : 0 ≤ hi ≤ KERNBASE) by (unfold hi, KERNBASE in *; Z.div_mod_to_equations; lia).
  destruct (allocuvm_run kend d sz newsz s l) as (r & s' & l' & E & Hr); [done|apply I|apply I|lia|done| |].
  { intros va H1 H2. apply I. unfold KERNBASE in *; Z.div_mod_to_equations; lia. }
  exists r, s', l'. split; [done|]. destruct Hr as [[-> G]|(-> & H & A & Hc)]; [left|right].
  - rewrite Z.max_r by lia. split_and!; [done..|].
    assert (hi ≤ (newsz + 4095) / 4096 * 4096 ≤ KERNBASE) by (unfold hi, KERNBASE in *; Z.div_mod_to_equations; lia).
    split; [eapply grown_image|eapply grown_owned]; eauto; lia.
  - split_and!; [done| |split; [eapply held_image|eapply held_owned]; eauto; lia].
    right. pose proof (building_count _ _ _ _ _ _ _ B ltac:(unfold hi; Z.div_mod_to_equations; lia) Hhi) as Hc2.
    fold hi in Hc. assert ((newsz + 4095) / 4096 = ((newsz + 4095) / 4096 * 4096 - hi) / 4096 + hi / 4096)
      by (unfold hi; Z.div_mod_to_equations; lia). lia.
Qed.

(** * Writing *)

Lemma put_bytes_in a bs m x : a ≤ x < a + Z.of_nat (length bs) → put_bytes a bs m x = default 0 (bs !! Z.to_nat (x - a)).
Proof. intros H. unfold put_bytes. zcases; done || lia. Qed.

Lemma put_bytes_out a bs m x : ¬ (a ≤ x < a + Z.of_nat (length bs)) → put_bytes a bs m x = m x.
Proof. intros H. unfold put_bytes. zcases; done || lia. Qed.

Lemma put_bytes_ok a bs m : mem_ok m → Forall (λ b, 0 ≤ b < 256) bs → mem_ok (put_bytes a bs m).
Proof.
  intros Hm Hb x. unfold put_bytes. zcases; try apply Hm.
  destruct (bs !! Z.to_nat (x - a)) eqn:E; simpl; [|lia]. by eapply (Forall_lookup_1 _ _ _ _ Hb).
Qed.

Lemma image_ext s l d hi g kp img img' :
  (∀ va, 0 ≤ va < hi → img va = img' va) → image kend s l d hi g kp img → image kend s l d hi g kp img'.
Proof. intros H []. split; try done. intros va x Hva Hx. rewrite <- H by done. auto. Qed.

(** The pages are accounted for as before when the tables and the mapping
    are the same. *)
Lemma owned_ext s l d s' :
  owned kend s0 l0 s l d → (∀ i, 0 ≤ i < 1024 → pdt (km_mem s') d i = pdt (km_mem s) d i) →
  (∀ va, 0 ≤ va < KERNBASE → frame_of (km_mem s') d va = frame_of (km_mem s) d va) →
  (∀ q, page_ok kend q → q ∉ l0 → same_page (km_mem s) (km_mem s') q) → owned kend s0 l0 s' l d.
Proof.
  intros O Hpdt Hfr Hs. split; [apply O|apply O| | | |].
  - intros i t Hi. rewrite Hpdt by done. by apply O.
  - intros va f Hva. rewrite Hfr by done. by apply O.
  - intros q Hq. destruct (ow_acct _ _ _ _ _ _ O q Hq) as [?|[?|[(i & Hi & Ht)|(va & Hva & Hf)]]]; [auto..| |].
    + right; right; left. exists i. by rewrite Hpdt.
    + do 3 right. exists va. by rewrite Hfr.
  - intros q Hq Hn. apply (same_page_trans _ (km_mem s)); [by apply O|by apply Hs].
Qed.

(** A write that stays in one page. *)
Lemma building_write s l d hi g kp img va f bs :
  building s l d hi g kp img → 0 ≤ va < hi → hi ≤ KERNBASE → va mod 4096 + Z.of_nat (length bs) ≤ 4096 →
  frame_of (km_mem s) d va = Some f → Forall (λ b, 0 ≤ b < 256) bs →
  building (set_mem (put_bytes (f + va mod 4096) bs (km_mem s)) s) l d hi g kp (put_bytes va bs img).
Proof.
  intros [I O] Hva Hh Hlen Hf Hb. destruct (frame_user _ _ _ _ _ _ _ va f I) as (Hok & Hfl & Hft); [lia|done|].
  pose proof (Z.mod_pos_bound va 4096 ltac:(lia)). set (m := put_bytes _ _ _).
  assert (Hsame : ∀ q, page_ok kend q → q ≠ f → same_page (km_mem s) m q).
  { intros q Hq Hne x Hx. assert (¬ in_page f x) by by apply (pages_disjoint kend q f). symmetry. apply put_bytes_out.
    unfold in_page in *. lia. }
  destruct (touch_page kend d s l f m) as (W & U & Hpdt & Hpte); try done; [apply I|apply I|apply put_bytes_ok; [apply I|done]|].
  assert (Hfr : ∀ va', frame_of m d va' = frame_of (km_mem s) d va') by (intros; apply frame_of_ext, Hpte).
  split.
  - split; [done|done| | | |]; cbn [km_mem set_mem].
    1-3: intros va' Hva'; rewrite Hpte; by apply I.
    intros va' x Hva' Hx. unfold uaddr in Hx. rewrite Hfr in Hx. change (uaddr (km_mem s) d va' = Some x) in Hx.
    destruct (uaddr_in_page kend d s l va va' f x) as [[He ->]|[Hne Hnx]]; [apply I|lia|lia|done|done| |].
    + assert (va' mod 4096 - va mod 4096 = va' - va) by (Z.div_mod_to_equations; lia).
      destruct (decide (va ≤ va' < va + Z.of_nat (length bs))).
      * unfold m. rewrite !put_bytes_in by lia. do 3 f_equal. lia.
      * unfold m. rewrite !put_bytes_out by lia. by apply I.
    + unfold m. rewrite !put_bytes_out; [by apply I| |unfold in_page in Hnx; lia].
      intros Hr. apply Hne. Z.div_mod_to_equations; lia.
  - apply (owned_ext s); [done|done|intros; apply Hfr|].
    intros q Hq Hn. apply Hsame; [done|]. intros ->. by apply Hn, (ow_frame _ _ _ _ _ _ O va); [lia|].
Qed.

Lemma put_bytes_split a n bs m x :
  (n ≤ length bs)%nat → put_bytes (a + Z.of_nat n) (drop n bs) (put_bytes a (take n bs) m) x = put_bytes a bs m x.
Proof.
  intros Hn. assert (Hl : length (take n bs) = n) by (rewrite length_take; lia).
  destruct (decide (a ≤ x < a + Z.of_nat (length bs))) as [H|H].
  - rewrite (put_bytes_in a bs) by done. destruct (decide (x < a + Z.of_nat n)).
    + rewrite put_bytes_out, put_bytes_in, lookup_take_lt by lia. done.
    + rewrite put_bytes_in, lookup_drop by (rewrite length_drop; lia). do 2 f_equal. lia.
  - rewrite !put_bytes_out by (rewrite ?length_drop; lia). done.
Qed.

Lemma leaf_user f perm : page_ok kend f → Z.land (leaf (V2P f) perm) PTE_U = Z.land perm PTE_U.
Proof.
  intros Hf. destruct (new_pde_alt f kend Hf) as (_ & Hm & Hr). unfold leaf. rewrite !Z.land_lor_distr_l.
  change (Z.land PTE_P PTE_U) with 0. rewrite Z.lor_0_r. assert (Z.land (V2P f) PTE_U = 0) as ->; [|done].
  replace (V2P f) with (V2P f / 8 * 2 ^ 3) by (simpl; Z.div_mod_to_equations; lia).
  apply Z.bits_inj'. intros n Hn. rewrite Z.land_spec, Z.bits_0. destruct (Z.ltb_spec n 3).
  - by rewrite Z.mul_pow2_bits_low.
  - apply andb_false_intro2. change PTE_U with (2 ^ 2). apply Z.pow2_bits_false. lia.
Qed.

Lemma user_ok_page s l d hi g kp img va :
  image kend s l d hi g kp img → 0 ≤ va < hi → hi ≤ KERNBASE →
  user_ok (km_mem s) d va = negb ((g <=? va) && (va <? g + 4096)) ∧ ∃ t, pdt (km_mem s) d (PDX va) = Some t.
Proof.
  intros I Hva Hh. destruct (pte_frame _ _ _ _ _ _ _ _ I Hva) as (f & Hok & Hf & E). split.
  - unfold user_ok. rewrite E, leaf_user by done.
    destruct (leaf_frame f kend (uperm g va) Hok (uperm_range g va)) as [Hp _]. rewrite (proj2 (Z.eqb_neq _ _) Hp).
    unfold uperm. by destruct ((g <=? va) && (va <? g + 4096)).
  - destruct (pdt (km_mem s) d (PDX va)) eqn:Et; [eauto|]. unfold frame_of, pte_of in Hf. by rewrite Et in Hf.
Qed.

(** * The guard page *)

Lemma user_wf_ext s l d s' l' :
  user_wf kend s d l → l' = l → (∀ i, 0 ≤ i < 1024 → pdt (km_mem s') d i = pdt (km_mem s) d i) →
  (∀ va, 0 ≤ va < KERNBASE → frame_of (km_mem s') d va = frame_of (km_mem s) d va) → user_wf kend s' d l'.
Proof.
  intros U -> Hpdt Hfr. split.
  - intros va f Hva. rewrite Hfr by done. intros Hf. destruct (uw_frame _ _ _ _ U va f Hva Hf) as (? & ? & ?).
    split_and!; [done..|]. by apply (not_table_ext (km_mem s)).
  - intros va va' f Hva Hva'. rewrite !Hfr by done. by apply U.
Qed.

Lemma leaf_clear f : page_ok kend f → Z.land (leaf (V2P f) (Z.lor PTE_W PTE_U)) (u32 (Z.lnot PTE_U)) = leaf (V2P f) PTE_W.
Proof.
  intros Hf. destruct (new_pde_alt f kend Hf) as (_ & Hm & Hr). unfold leaf. rewrite !Z.land_lor_distr_l.
  change (Z.land (Z.lor PTE_W PTE_U) (u32 (Z.lnot PTE_U))) with PTE_W. change (Z.land PTE_P (u32 (Z.lnot PTE_U))) with PTE_P.
  do 2 f_equal. change (u32 (Z.lnot PTE_U)) with (Z.lor (Z.shiftl 536870911 3) 3). rewrite Z.land_lor_distr_r.
  replace (V2P f) with (Z.shiftl (V2P f / 8) 3) by (rewrite Z.shiftl_mul_pow2 by lia; simpl; Z.div_mod_to_equations; lia).
  rewrite <- Z.shiftl_land. change 536870911 with (Z.ones 29). rewrite Z.land_ones, Z.mod_small by (simpl; Z.div_mod_to_equations; lia).
  enough (Z.land (Z.shiftl (V2P f / 8) 3) 3 = 0) as -> by apply Z.lor_0_r.
  change 3 with (Z.ones 2) at 2. rewrite Z.land_ones, Z.shiftl_mul_pow2 by lia. simpl. Z.div_mod_to_equations. lia.
Qed.

(** The entry of a user page loses PTE_U. *)
Lemma clear_run s l d hi g g' kp img :
  image kend s l d hi g kp img → g ≤ -4096 → 0 ≤ g' < hi → hi ≤ KERNBASE →
  ∃ s' f, clearpteu d g' s = Ret (tt, s') ∧ pt_grow kend d s l s' l ∧ page_ok kend f
    ∧ pte_of (km_mem s) d g' = leaf (V2P f) (Z.lor PTE_W PTE_U)
    ∧ (∀ i, 0 ≤ i < 1024 → pdt (km_mem s') d i = pdt (km_mem s) d i)
    ∧ ∀ va, 0 ≤ va < 4294967296 →
        pte_of (km_mem s') d va = if va / 4096 =? g' / 4096 then leaf (V2P f) PTE_W else pte_of (km_mem s) d va.
Proof.
  intros I Hg Hg' Hh. pose proof (im_wf _ _ _ _ _ _ _ _ I) as W.
  destruct (pte_frame _ _ _ _ _ _ _ _ I Hg') as (f & Hok & Hf & E). rewrite uperm_user in E by lia.
  destruct (user_ok_page _ _ _ _ _ _ _ _ I Hg' Hh) as [_ (t & Ht)].
  destruct (wf_tab _ _ _ _ W _ _ (PDX_range g') Ht) as (Htok & _). pose proof (page_ok_bounds _ _ Htok). pose proof (PTX_range g').
  assert (Hr : 0 ≤ leaf (V2P f) PTE_W < 4294967296).
  { destruct (new_pde_alt f kend Hok) as (_ & Hm & Hr). destruct (leaf_alt (V2P f) PTE_W) as (x & -> & _ & ? & _); [lia|done|by vm_compute|lia]. }
  destruct (pte_store kend d s l g' t (leaf (V2P f) PTE_W) W ltac:(unfold KERNBASE in *; lia) Hr Ht) as (G & Hpdt & Hpte).
  eexists _, f. split; [|by split_and!].
  unfold clearpteu. erewrite bind_ret_eval by by apply walkpgdir_present. destruct (Z.eqb_spec (t + 4 * PTX g') 0); [lia|].
  unfold pte_of in E. rewrite Ht in E. unfold load32, gets, bind. rewrite E, leaf_clear by done. done.
Qed.

Lemma building_clear s l d hi g g' kp img :
  building s l d hi g kp img → g ≤ -4096 → 0 ≤ g' → g' + 4096 ≤ hi → hi ≤ KERNBASE → g' mod 4096 = 0 →
  ∃ s', clearpteu d g' s = Ret (tt, s') ∧ building s' l d hi g' kp img.
Proof.
  intros [I O] Hg Hg' Hhi Hh Ha.
  destruct (clear_run s l d hi g g' kp img I Hg ltac:(lia) Hh) as (s' & f & E & G & Hok & Ef & Hpdt & Hpte). exists s'. split; [done|].
  assert (Hfr : ∀ va, 0 ≤ va < KERNBASE → frame_of (km_mem s') d va = frame_of (km_mem s) d va).
  { intros va Hva. unfold frame_of. rewrite Hpte by (unfold KERNBASE in *; lia). destruct (Z.eqb_spec (va / 4096) (g' / 4096)) as [Ev|]; [|done].
    rewrite (pte_of_same_page _ _ va g'), Ef by (unfold KERNBASE in *; lia || done).
    destruct (leaf_frame f kend PTE_W Hok) as [P1 ->]; [by vm_compute|].
    destruct (leaf_frame f kend (Z.lor PTE_W PTE_U) Hok) as [P2 ->]; [by vm_compute|].
    by rewrite (proj2 (Z.eqb_neq _ _) P1), (proj2 (Z.eqb_neq _ _) P2). }
  assert (Hsame : ∀ q, page_ok kend q → not_table (km_mem s) d q → same_page (km_mem s) (km_mem s') q).
  { intros q Hq [Hqd Hqt]. apply G; [done..|]. intros i Hi. rewrite Hpdt by done. by apply Hqt. }
  assert (Hkeep : ∀ va, 0 ≤ va < 4294967296 → hi ≤ va → pte_of (km_mem s') d va = pte_of (km_mem s) d va).
  { intros va Hva Hr. rewrite Hpte by done. destruct (Z.eqb_spec (va / 4096) (g' / 4096)); [|done]. Z.div_mod_to_equations; lia. }
  split.
  - split; [apply G|by eapply user_wf_ext; [apply I|..]| | | |].
    + intros va Hva. rewrite Hpte by (unfold KERNBASE in *; lia). destruct (Z.eqb_spec (va / 4096) (g' / 4096)).
      * exists f. split; [done|]. unfold uperm. zcases; [done|Z.div_mod_to_equations; lia..].
      * destruct (im_pte _ _ _ _ _ _ _ _ I va Hva) as (f' & Hf' & E'). exists f'. split; [done|]. rewrite E', uperm_user by lia.
        unfold uperm. zcases; [Z.div_mod_to_equations; lia|done..].
    + intros va Hva. rewrite Hkeep by (unfold KERNBASE in *; lia). by apply I.
    + intros va Hva. rewrite Hkeep by (unfold KERNBASE in *; lia). by apply I.
    + intros va x Hva Hx. unfold uaddr in Hx. rewrite Hfr in Hx by lia. change (uaddr (km_mem s) d va = Some x) in Hx.
      destruct (pte_frame _ _ _ _ _ _ _ _ I Hva) as (f' & Hf' & Ef' & _). destruct (frame_user _ _ _ _ _ _ _ va f' I) as (_ & _ & Hnt); [lia|done|].
      rewrite <- (im_img _ _ _ _ _ _ _ _ I va x Hva Hx). symmetry. apply (Hsame f'); [done..|].
      rewrite (uaddr_frame _ _ _ _ Ef') in Hx. injection Hx as <-. apply mod_in_page.
  - apply (owned_ext s); [done..|]. intros q Hq Hn. apply Hsame; [done|].
    split; [intros ->; by apply Hn, O|]. intros i Hi Ht'. by apply Hn, (ow_tab _ _ _ _ _ _ O i).
Qed.

(** * copyout *)

Lemma copyout_list_ok : ∀ fuel s l d hi g kp img va bs,
  building s l d hi g kp img → hi ≤ KERNBASE → 0 ≤ va → va + Z.of_nat (length bs) ≤ hi → g + 4096 ≤ va ∨ hi ≤ g →
  va mod 4096 + Z.of_nat (length bs) ≤ 4096 * Z.of_nat fuel → Forall (λ b, 0 ≤ b < 256) bs →
  ∃ s', copyout_list_loop fuel d va bs s = Ret (0, s') ∧ building s' l d hi g kp (put_bytes va bs img).
Proof.
  induction fuel as [|fuel IH]; intros s l d hi g kp img va bs B Hh Hva Hend Hg Hfuel Hb; cbn [copyout_list_loop];
    pose proof (Z.mod_pos_bound va 4096 ltac:(lia)) as Hm; destruct (Z.ltb_spec 0 (Z.of_nat (length bs))) as [Hpos|Hz]; [lia| | |].
  1, 3: exists s; split; [done|]; destruct B as [I O]; split; [|done]; eapply image_ext, I; intros; by rewrite put_bytes_out by lia.
  pose proof B as [I O]. assert (Hva0 : 0 ≤ va < 4294967296) by (unfold KERNBASE in *; lia).
  rewrite PGROUNDDOWN_alt by lia. set (va0 := va / 4096 * 4096).
  destruct (pte_frame d s l hi g kp img va I ltac:(lia)) as (f & Hok & Hf & _). pose proof (page_ok_bounds _ _ Hok).
  destruct (user_ok_page s l d hi g kp img va I ltac:(lia) Hh) as [Hu (t & Ht)].
  assert (E : uva2ka d va0 s = Ret (f, s)).
  { erewrite uva2ka_run by apply I. replace (PDX va0) with (PDX va)
      by (unfold va0; rewrite !PDX_alt by (Z.div_mod_to_equations; lia); Z.div_mod_to_equations; lia).
    rewrite Ht. unfold user_ok. rewrite (pte_of_same_page _ _ va0 va) by (unfold va0; Z.div_mod_to_equations; lia).
    fold (user_ok (km_mem s) d va). rewrite Hu, (frame_of_same_page _ _ va0 va), Hf by (unfold va0; Z.div_mod_to_equations; lia).
    zcases; done || lia. }
  erewrite bind_ret_eval by exact E. destruct (Z.eqb_spec f 0) as [|_]; [lia|]. unfold PGSIZE.
  replace (va - va0) with (va mod 4096) by (unfold va0; Z.div_mod_to_equations; lia).
  set (n := Z.to_nat _).
  assert (Hn : (0 < n ≤ length bs)%nat ∧ Z.of_nat n ≤ 4096 - va mod 4096) by (unfold n; lia).
  assert (Hl : length (take n bs) = n) by (rewrite length_take; lia).
  assert (B1 := building_write s l d hi g kp img va f (take n bs) B ltac:(lia) Hh ltac:(rewrite Hl; lia) Hf ltac:(by apply Forall_take)).
  rewrite (bind_ret_eval _ _ _ tt _ eq_refl).
  destruct (decide (n = length bs)) as [En|Hne].
  - rewrite En, drop_all, take_ge in * by lia. eexists. split; [|exact B1]. by destruct fuel.
  - assert (E4 : u32 (va0 + 4096) = va + Z.of_nat n).
    { rewrite u32_small; unfold va0, n, KERNBASE in *; Z.div_mod_to_equations; lia. }
    rewrite E4.
    destruct (IH _ _ _ _ _ _ _ (va + Z.of_nat n) (drop n bs) B1 Hh) as (s' & E' & [I' O']); rewrite ?length_drop; try lia.
    + unfold n in *. Z.div_mod_to_equations; lia.
    + by apply Forall_drop.
    + exists s'. split; [exact E'|]. split; [|done]. eapply image_ext, I'. intros va' Hva'. apply put_bytes_split. lia.
Qed.

(** The first page is the guard page. *)
Lemma copyout_list_guard s l d hi g kp img va bs :
  building s l d hi g kp img → hi ≤ KERNBASE → 0 ≤ g → g + 4096 ≤ hi → g mod 4096 = 0 → g ≤ va < g + 4096 → bs ≠ [] →
  copyout_list d va bs s = Ret (-1, s).
Proof.
  intros [I O] Hh Hg Hgh Ha Hva Hbs. unfold copyout_list.
  replace (Z.to_nat (Z.of_nat (length bs) / PGSIZE + 2)) with (S (Z.to_nat (Z.of_nat (length bs) / PGSIZE + 1)))
    by (unfold PGSIZE; Z.div_mod_to_equations; lia).
  cbn [copyout_list_loop]. assert (0 < Z.of_nat (length bs)) by (destruct bs; [done|simpl; lia]).
  rewrite (proj2 (Z.ltb_lt _ _)) by done. rewrite PGROUNDDOWN_alt by (unfold KERNBASE in *; lia).
  replace (va / 4096 * 4096) with g by (Z.div_mod_to_equations; lia).
  destruct (user_ok_page s l d hi g kp img g I ltac:(lia) Hh) as [Hu (t & Ht)].
  unfold bind at 1. erewrite uva2ka_run by apply I. rewrite Ht, Hu. by zcases.
Qed.

Lemma copyout_list_run s l d hi g kp img va bs :
  building s l d hi g kp img → hi ≤ KERNBASE → 0 ≤ va → va + Z.of_nat (length bs) ≤ hi → g + 4096 ≤ va ∨ hi ≤ g →
  Forall (λ b, 0 ≤ b < 256) bs →
  ∃ s', copyout_list d va bs s = Ret (0, s') ∧ building s' l d hi g kp (put_bytes va bs img).
Proof.
  intros. apply copyout_list_ok; try done. unfold PGSIZE. Z.div_mod_to_equations; lia.
Qed.
End space.
