(* ===== verification/ExecSwap.v ===== *)
(** exec puts the new address space in the place of the old one.

    [space_page] is the set of pages an address space consists of.  Changes
    elsewhere leave the space as it is, so the old one is intact until freevm
    takes it apart, and the new one is intact after that.  [swap_run] is what
    the writes to the trap frame and the call of freevm do together. *)

From S2P Require Import Prelude Params Cstring Kalloc Vm Uvm Exec ExecMem.

Definition space_page (m : mem) (d q : Z) : Prop :=
  q = d ∨ (∃ i, 0 ≤ i < 1024 ∧ pdt m d i = Some q) ∨ (∃ va, 0 ≤ va < KERNBASE ∧ frame_of m d va = Some q).

Section swap.
Context (kend : Z) (Hk : KERNBASE < kend).

Lemma space_page_used s l d q : vm_wf kend s d l → user_wf kend s d l → space_page (km_mem s) d q → page_ok kend q ∧ q ∉ l.
Proof.
  intros W U [->|[(i & Hi & Ht)|(va & Hva & Hf)]].
  - split; apply W.
  - destruct (wf_tab _ _ _ _ W i q Hi Ht) as (? & ? & ?). done.
  - destruct (uw_frame _ _ _ _ U va q Hva Hf) as (? & ? & ?). done.
Qed.

(** A space whose pages keep their bytes, whatever happens elsewhere. *)
Lemma space_move s l d s' l' :
  vm_wf kend s d l → user_wf kend s d l → kmem_rep kend s' l' →
  (∀ q, space_page (km_mem s) d q → (q ∉ l') ∧ same_page (km_mem s) (km_mem s') q) →
  vm_wf kend s' d l' ∧ user_wf kend s' d l'
  ∧ (∀ i, 0 ≤ i < 1024 → pdt (km_mem s') d i = pdt (km_mem s) d i) ∧ ∀ va, pte_of (km_mem s') d va = pte_of (km_mem s) d va.
Proof.
  intros W U R H. destruct (pte_of_ext kend s d l (km_mem s') W) as [Hpdt Hpte].
  { apply H. by left. }
  { intros i t Hi Ht. apply H. right; left. eauto. }
  split_and!; [| |done|done].
  - split; [done|apply W|apply H; by left| |].
    + intros i t Hi. rewrite Hpdt by done. intros Ht. destruct (wf_tab _ _ _ _ W i t Hi Ht) as (? & ? & _).
      split_and!; [done..|]. apply H. right; left. eauto.
    + intros i j t Hi Hj. rewrite !Hpdt by done. by apply W.
  - split.
    + intros va f Hva. rewrite (frame_of_ext (km_mem s)) by done. intros Hf. destruct (uw_frame _ _ _ _ U va f Hva Hf) as (? & _ & ?).
      split_and!; [done| |by apply (not_table_ext (km_mem s))]. apply H. right; right. eauto.
    + intros va va' f Hva Hva'. rewrite (frame_of_ext (km_mem s) _ d va), (frame_of_ext (km_mem s) _ d va') by done. by apply U.
Qed.

Lemma space_page_move s d s' q :
  (∀ i, 0 ≤ i < 1024 → pdt (km_mem s') d i = pdt (km_mem s) d i) → (∀ va, pte_of (km_mem s') d va = pte_of (km_mem s) d va) →
  space_page (km_mem s') d q ↔ space_page (km_mem s) d q.
Proof.
  intros Hpdt Hpte. unfold space_page. assert (Hf : ∀ va, frame_of (km_mem s') d va = frame_of (km_mem s) d va) by (intros; by apply frame_of_ext).
  split; (intros [->|[(i & Hi & Ht)|(va & Hva & Hfr)]]; [by left|right; left|right; right]).
  1, 3: exists i; split; [done|]; by rewrite ?Hpdt in * by done.
  all: exists va; split; [done|]; by rewrite ?Hf in *.
Qed.

Lemma image_move s l d hi g kp img s' l' :
  image kend s l d hi g kp img → hi ≤ KERNBASE → kmem_rep kend s' l' →
  (∀ q, space_page (km_mem s) d q → (q ∉ l') ∧ same_page (km_mem s) (km_mem s') q) →
  image kend s' l' d hi g kp img ∧ ∀ q, space_page (km_mem s') d q ↔ space_page (km_mem s) d q.
Proof.
  intros I Hh R H. destruct (space_move s l d s' l') as (W & U & Hpdt & Hpte); [apply I|apply I|done..|].
  split; [|intros q; by apply space_page_move]. split; [done|done| | | |].
  1-3: intros va Hva; rewrite Hpte; by apply I.
  intros va x Hva Hx. unfold uaddr in Hx. rewrite (frame_of_ext (km_mem s)) in Hx by done.
  rewrite <- (im_img _ _ _ _ _ _ _ _ I va x Hva Hx). symmetry. apply fmap_Some in Hx as (f & Hf & ->).
  apply (proj2 (H f ltac:(right; right; exists va; split; [lia|done]))). unfold in_page. Z.div_mod_to_equations; lia.
Qed.

(** The pages of the space and the free pages are those that were free. *)
Lemma owned_pages s0 l0 s l d q : owned kend s0 l0 s l d → q ∈ l0 ↔ q ∈ l ∨ space_page (km_mem s) d q.
Proof.
  intros O. split.
  - intros Hq. destruct (ow_acct _ _ _ _ _ _ O q Hq) as [?|[?|[?|?]]]; unfold space_page; auto.
  - intros [?|[->|[(i & Hi & Ht)|(va & Hva & Hf)]]]; [by apply O|by apply O|by eapply (ow_tab _ _ _ _ _ _ O)|by eapply (ow_frame _ _ _ _ _ _ O)].
Qed.

(** The process that calls exec: the directory [d0] of its address space, its
    kernel stack [ks] and its trap frame [tf]. *)
Record caller (s0 : kmem) (l0 : list Z) (d0 ks tf : Z) : Prop := {
  ca_wf : vm_wf kend s0 d0 l0;
  ca_user : user_wf kend s0 d0 l0;
  ca_stack : page_ok kend ks;
  ca_used : ks ∉ l0;
  ca_apart : ¬ space_page (km_mem s0) d0 ks;
  ca_tf : ks ≤ tf ∧ tf + 76 ≤ ks + 4096
}.

(** The new space is in place: its pages and the free ones are those that
    were free and those of the old space; elsewhere only eip and esp of the
    trap frame are new. *)
Record swapped (s0 : kmem) (l0 : list Z) (d0 tf d sz g entry sp : Z) (kp img : Z → Z) (s : kmem) : Prop := {
  sw_image : ∃ l, image kend s l d sz g kp img
    ∧ ∀ q, q ∈ l ∨ space_page (km_mem s) d q ↔ q ∈ l0 ∨ space_page (km_mem s0) d0 q;
  sw_eip : ld32 (km_mem s) (tf + 56) = entry;
  sw_esp : ld32 (km_mem s) (tf + 68) = sp;
  sw_keep : ∀ q x, page_ok kend q → q ∉ l0 → ¬ space_page (km_mem s0) d0 q → in_page q x →
    ¬ (tf + 56 ≤ x < tf + 60) → ¬ (tf + 68 ≤ x < tf + 72) → km_mem s x = km_mem s0 x
}.

Section run.
Context (s0 : kmem) (l0 : list Z) (d0 ks tf : Z) (C : caller s0 l0 d0 ks tf).
Context (s : kmem) (l : list Z) (d hi g : Z) (kp img : Z → Z) (B : building kend s0 l0 s l d hi g kp img) (Hhi : hi ≤ KERNBASE).
Context (entry sp : Z) (Hen : 0 ≤ entry < 4294967296) (Hsp : 0 ≤ sp < 4294967296).

Definition tf_written : kmem := set_mem (st32 (tf + 68) sp (st32 (tf + 56) entry (km_mem s))) s.

Lemma tf_other x : ¬ (tf + 56 ≤ x < tf + 60) → ¬ (tf + 68 ≤ x < tf + 72) → km_mem tf_written x = km_mem s x.
Proof. intros. cbn. by rewrite !st32_other by lia. Qed.

Lemma tf_page q : page_ok kend q → q ≠ ks → same_page (km_mem s) (km_mem tf_written) q.
Proof.
  intros Hq Hne x Hx. pose proof (pages_disjoint kend q ks x Hq (ca_stack _ _ _ _ _ C) Hne Hx) as Hn.
  pose proof (ca_tf _ _ _ _ _ C). unfold in_page in Hn. symmetry. apply tf_other; lia.
Qed.

Lemma tf_rep : kmem_rep kend tf_written l.
Proof.
  destruct B as [I O]. pose proof (wf_rep _ _ _ _ (im_wf _ _ _ _ _ _ _ _ I)) as R.
  apply kmem_rep_frame; [done|do 2 apply st32_ok; apply R|]. intros q x Hq Hx. apply (tf_page q); [by eapply kmem_rep_pages| |done].
  intros ->. apply (ca_used _ _ _ _ _ C). by apply O.
Qed.

(** Both spaces after the writes to the trap frame. *)
Lemma tf_image : image kend tf_written l d hi g kp img ∧ ∀ q, space_page (km_mem tf_written) d q ↔ space_page (km_mem s) d q.
Proof.
  destruct B as [I O]. apply (image_move s l); [done|done|apply tf_rep|]. intros q Hq.
  destruct (space_page_used s l d q (im_wf _ _ _ _ _ _ _ _ I) (im_user _ _ _ _ _ _ _ _ I) Hq) as [Hok Hl]. split; [done|].
  apply tf_page; [done|]. intros ->. apply (ca_used _ _ _ _ _ C). rewrite (owned_pages s0 l0 s l d) by done. by right.
Qed.

Lemma tf_old :
  vm_wf kend tf_written d0 l ∧ user_wf kend tf_written d0 l ∧ ∀ q, space_page (km_mem tf_written) d0 q ↔ space_page (km_mem s0) d0 q.
Proof.
  destruct B as [I O]. destruct (space_move s0 l0 d0 tf_written l) as (W & U & Hpdt & Hpte);
    [apply C|apply C|apply tf_rep| |split_and!; [done..|intros q; by apply space_page_move]].
  intros q Hq. destruct (space_page_used s0 l0 d0 q (ca_wf _ _ _ _ _ C) (ca_user _ _ _ _ _ C) Hq) as [Hok Hl].
  split; [intros ?; by apply Hl, O|]. apply (same_page_trans _ (km_mem s)); [by apply O|]. apply tf_page; [done|].
  intros ->. by apply (ca_apart _ _ _ _ _ C).
Qed.

Lemma swap_run : ∃ s', freevm kend d0 tf_written = Ret (tt, s') ∧ swapped s0 l0 d0 tf d hi g entry sp kp img s'.
Proof.
  destruct tf_image as [I Hp], tf_old as (W & U & Hp0). pose proof B as [_ O].
  destruct (freevm_run kend d0 tf_written l Hk W U) as (s' & l' & E & R & Hl' & Hs'). exists s'. split; [done|].
  assert (Hin : ∀ q, q ∈ l' ↔ q ∈ l ∨ space_page (km_mem s0) d0 q) by (intros q; rewrite Hl', <- Hp0; done).
  assert (Hks : ks ∉ l').
  { rewrite Hin. intros [H|H]; [|by apply (ca_apart _ _ _ _ _ C)]. by apply (ca_used _ _ _ _ _ C), O. }
  pose proof (Hs' ks (ca_stack _ _ _ _ _ C) Hks) as Hsame. pose proof (ca_tf _ _ _ _ _ C) as Htf.
  destruct (image_move tf_written l d hi g kp img s' l' I Hhi R) as [I' Hp'].
  { intros q Hq. destruct (space_page_used tf_written l d q (im_wf _ _ _ _ _ _ _ _ I) (im_user _ _ _ _ _ _ _ _ I) Hq) as [Hok Hl].
    assert (Hn : q ∉ l'); [|split; [done|by apply Hs']]. rewrite Hin. intros [?|H]; [done|].
    destruct (space_page_used s0 l0 d0 q (ca_wf _ _ _ _ _ C) (ca_user _ _ _ _ _ C) H) as [_ Hn]. apply Hn.
    rewrite (owned_pages s0 l0 s l d) by done. right. by apply Hp. }
  split.
  - exists l'. split; [done|]. intros q. rewrite Hin, Hp', Hp, (owned_pages s0 l0 s l d q O). tauto.
  - rewrite (ld32_ext _ (km_mem tf_written)) by (intros; symmetry; apply Hsame; unfold in_page; lia).
    cbn. rewrite ld32_st32_other, ld32_st32_same by lia. by apply u32_small.
  - rewrite (ld32_ext _ (km_mem tf_written)) by (intros; symmetry; apply Hsame; unfold in_page; lia).
    cbn. rewrite ld32_st32_same. by apply u32_small.
  - intros q x Hq Hn Hn0 Hx H1 H2. rewrite <- (Hs' q); [|done| |done].
    + rewrite tf_other by done. symmetry. by apply (ow_keep _ _ _ _ _ _ O q).
    + rewrite Hin. intros [?|?]; [|done]. by apply Hn, O.
Qed.
End run.
End swap.
