(* ===== verification/ExecPlan.v ===== *)
(** What exec should do, and what it relies on.

    [plan] reads an executable file and the arguments and says what address
    space they make: its size, its guard page, the entry point, the stack
    pointer and every byte; or that they make none.  [ExecLaws] is what exec
    relies on from the file system. *)

From S2P Require Import Prelude Params Cstring Kalloc Vm Uvm Bytes Exec ExecMem.

(** What readi returns for a file with the bytes [c]. *)
Definition fread (c : list Z) (off n : Z) : Z * list Z :=
  if Z.of_nat (length c) <? off then (-1, [])
  else (Z.min n (Z.of_nat (length c) - off), take (Z.to_nat n) (drop (Z.to_nat off) c)).

(** [file] gives the bytes of the file at a path, for the paths that are
    [sane]; [rest], [intx], [named] and [locked] are the states between system
    calls, in a transaction, with a reference to an inode, and with the inode
    locked. *)
Class ExecLaws (F : Type) {XO : ExecOps F} (sane : list Z → Prop) (file : list Z → option (list Z))
    (rest intx : F → Prop) (named locked : nat → list Z → F → Prop) : Prop := {
  xl_begin f : rest f → wp x_begin_op f (λ _ f', intx f');
  xl_end f : intx f → wp x_end_op f (λ _ f', rest f');
  xl_namei path f : intx f → sane path → wp (x_namei path) f (λ r f',
    match r with None => file path = None ∧ intx f' | Some ip => ∃ c, file path = Some c ∧ named ip c f' end);
  xl_ilock ip c f : named ip c f → wp (x_ilock ip) f (λ _ f', locked ip c f');
  xl_readi ip c f off n : locked ip c f → 0 ≤ off < 4294967296 → 0 ≤ n ≤ 4096 →
    wp (x_readi ip off n) f (λ r f', r = fread c off n ∧ locked ip c f');
  xl_iunlockput ip c f : locked ip c f → wp (x_iunlockput ip) f (λ _ f', intx f');
  xl_file path c : sane path → file path = Some c → Forall (λ b, 0 ≤ b < 256) c ∧ Z.of_nat (length c) < 2147483648
}.

(** [n] bytes of the file from [off] on. *)
Definition in_file (c : list Z) (off n : Z) : bool := (n =? 0) || (off + n <=? Z.of_nat (length c)).
Definition file_bytes (c : list Z) (off n : Z) : list Z := take (Z.to_nat n) (drop (Z.to_nat off) c).

(** One segment: the new size of the image and its bytes. *)
Definition plan_segment (c : list Z) (ph : list Z) (sz : Z) (img : Z → Z) : option (Z * (Z → Z)) :=
  let top := p_vaddr ph + p_memsz ph in
  if (p_memsz ph <? p_filesz ph) || (KERNBASE <=? top) || (Z.max sz top =? 0)
     || negb (p_vaddr ph mod 4096 =? 0) || negb (in_file c (p_off ph) (p_filesz ph)) then None
  else Some (Z.max sz top, put_bytes (p_vaddr ph) (file_bytes c (p_off ph) (p_filesz ph)) img).

(** The segments, [n] headers from [off] on.  A header that is not of type
    ELF_PROG_LOAD counts for nothing. *)
Fixpoint plan_load (n : nat) (c : list Z) (off sz : Z) (img : Z → Z) : option (Z * (Z → Z)) :=
  match n with
  | O => Some (sz, img)
  | S n' =>
      let ph := file_bytes c off 32 in
      if Z.of_nat (length c) <? off + 32 then None
      else if negb (p_type ph =? ELF_PROG_LOAD) then plan_load n' c (off + 32) sz img
      else match plan_segment c ph sz img with
           | None => None
           | Some (sz, img) => plan_load n' c (off + 32) sz img
           end
  end.

(** The argument strings, from the top of the stack down to [base]. *)
Fixpoint plan_args (base : Z) (argv : list (list Z)) (argc sp : Z) (img : Z → Z) : option (list Z * Z * (Z → Z)) :=
  match argv with
  | [] => Some ([], sp, img)
  | a :: argv' =>
      let sp := (sp - (Z.of_nat (length a) + 1)) / 4 * 4 in
      if (MAXARG <=? argc) || (sp <? base) then None
      else match plan_args base argv' (argc + 1) sp (put_bytes sp (a ++ [0]) img) with
           | Some (sps, sp', img') => Some (sp :: sps, sp', img')
           | None => None
           end
  end.

Record program : Type := MkProgram { pr_sz : Z; pr_guard : Z; pr_entry : Z; pr_sp : Z; pr_img : Z → Z }.

(** The stack that ends at [g + 8192]: the strings, and below them the
    null-ended array of pointers to them, its address, their number, and a
    return address. *)
Definition plan_words (argv : list (list Z)) (entry g : Z) (img : Z → Z) : option program :=
  match plan_args (g + 4096) argv 0 (g + 8192) img with
  | None => None
  | Some (sps, sp, img) =>
      let argc := Z.of_nat (length argv) in
      let sp' := sp - (3 + argc + 1) * 4 in
      if sp' <? g + 4096 then None
      else Some (MkProgram (g + 8192) g entry sp'
                   (put_bytes sp' (words_bytes ([4294967295; argc; sp - (argc + 1) * 4] ++ sps ++ [0])) img))
  end.

(** Two pages above the image: one that the user cannot touch, one for the
    stack. *)
Definition plan_stack (argv : list (list Z)) (entry sz : Z) (img : Z → Z) : option program :=
  let g := (sz + 4095) / 4096 * 4096 in
  if KERNBASE <=? g + 8192 then None else plan_words argv entry g img.

Definition plan (c : list Z) (argv : list (list Z)) : option program :=
  let h := file_bytes c 0 52 in
  if Z.of_nat (length c) <? 52 then None
  else if negb (e_magic h =? ELF_MAGIC) then None
  else match plan_load (Z.to_nat (e_phnum h)) c (e_phoff h) 0 (λ _, 0) with
       | None => None
       | Some (sz, img) => plan_stack argv (e_entry h) sz img
       end.

(** * Facts about plans *)

Lemma byte_of_range l o : Forall (λ b, 0 ≤ b < 256) l → 0 ≤ byte_of l o < 256.
Proof. intros H. unfold byte_of. destruct (l !! o) eqn:E; simpl; [|lia]. by eapply (Forall_lookup_1 _ _ _ _ H). Qed.

Lemma get32_range l o : Forall (λ b, 0 ≤ b < 256) l → 0 ≤ get32 l o < 4294967296.
Proof.
  intros H. unfold get32. pose proof (byte_of_range l o H). pose proof (byte_of_range l (o + 1) H).
  pose proof (byte_of_range l (o + 2) H). pose proof (byte_of_range l (o + 3) H). lia.
Qed.

Lemma file_bytes_ok c off n : Forall (λ b, 0 ≤ b < 256) c → Forall (λ b, 0 ≤ b < 256) (file_bytes c off n).
Proof. intros H. by apply Forall_take, Forall_drop. Qed.

Lemma file_bytes_length c off n : 0 ≤ off → 0 ≤ n → off + n ≤ Z.of_nat (length c) → Z.of_nat (length (file_bytes c off n)) = n.
Proof. intros. unfold file_bytes. rewrite length_take, length_drop. lia. Qed.

(** A read of exactly [n] bytes. *)
Lemma fread_all c off n :
  0 ≤ off → 0 ≤ n → ((fread c off n).1 =? n) = (off + n <=? Z.of_nat (length c)) ∧ (fread c off n).2 = if off <=? Z.of_nat (length c) then file_bytes c off n else [].
Proof.
  intros. unfold fread. destruct (Z.ltb_spec (Z.of_nat (length c)) off), (Z.leb_spec off (Z.of_nat (length c))); try lia; cbn [fst snd].
  - split; [|done]. destruct (Z.eqb_spec (-1) n), (Z.leb_spec (off + n) (Z.of_nat (length c))); done || lia.
  - split; [|done]. destruct (Z.eqb_spec (Z.min n (Z.of_nat (length c) - off)) n), (Z.leb_spec (off + n) (Z.of_nat (length c))); done || lia.
Qed.

Lemma word_bytes_length v : length (word_bytes v) = 4%nat.
Proof. done. Qed.

Lemma words_bytes_length l : length (words_bytes l) = (4 * length l)%nat.
Proof. induction l as [|v l IH]; [done|]. unfold words_bytes in *. cbn [fmap list_fmap concat]. rewrite length_app, IH. simpl. lia. Qed.

Lemma words_bytes_app l l' : words_bytes (l ++ l') = words_bytes l ++ words_bytes l'.
Proof. unfold words_bytes. by rewrite fmap_app, concat_app. Qed.

Lemma words_bytes_ok l : Forall (λ b, 0 ≤ b < 256) (words_bytes l).
Proof. unfold words_bytes. induction l as [|v l IH]; [constructor|]. cbn. repeat (constructor; [apply u8_range|]). done. Qed.

(** Bytes beyond the image are zero. *)
Definition zero_above (hi : Z) (img : Z → Z) : Prop := ∀ va, hi ≤ va → img va = 0.

Lemma put_bytes_zero hi a bs img : zero_above hi img → a + Z.of_nat (length bs) ≤ hi → zero_above hi (put_bytes a bs img).
Proof. intros H Ha va Hva. rewrite put_bytes_out by lia. by apply H. Qed.
