(* ===== verification/ExecProps.v ===== *)
(** exec carries out its plan: the theorem about exec.c, over the file
    system as it is stated in ExecPlan. *)

From S2P Require Import Prelude Params Cstring Kalloc Vm Uvm Spinlock ProcData Proc ProcInv ProcProps SchedProps Bytes Exec ExecMem ExecSwap ExecPlan.

Section exec.
Context {F : Type} {XO : ExecOps F} (sane : list Z → Prop) (file : list Z → option (list Z)).
Context (rest intx : F → Prop) (named locked : nat → list Z → F → Prop).
Context {XL : ExecLaws F sane file rest intx named locked}.
Context (kend kdata : Z) (Hk : KERNBASE < kend).
Context (Hdata : kdata mod 4096 = 0 ∧ KERNLINK < kdata < KERNBASE + PHYSTOP).
Context (k0 : kmem) (l0 : list Z) (R0 : kmem_rep kend k0 l0).
Abbreviation building := (building kend k0 l0).
Abbreviation restored := (restored kend k0 l0).

(** [s] with the memory [k] and the file system [f]. *)
Definition upd (s : kst F) (k : kmem) (f : F) : kst F := MkKst (lk s) (set_fs f (set_km k (core s))).

Lemma wp_mem {A} (c : M kmem A) s k f (Q : A → kst F → Prop) :
  wp c k (λ a k', Q a (upd s k' f)) → wp (on_mem A c) (upd s k f) Q.
Proof.
  intros (a & k' & E & H). exists a, (upd s k' f). split; [|done]. unfold on_mem, on_core, on_km. cbn. by rewrite E.
Qed.

Lemma wp_file {A} (c : M F A) s k f (Q : A → kst F → Prop) :
  wp c f (λ a f', Q a (upd s k f')) → wp (on_file c) (upd s k f) Q.
Proof. intros (a & f' & E & H). exists a, (upd s k f'). split; [|done]. unfold on_file. cbn. by rewrite E. Qed.

(** * Segments *)

Section seg.
Context (s : kst F) (ip : nat) (c : list Z) (l : list Z) (d hi : Z) (kp : Z → Z).
Context (vaddr off filesz : Z) (Hv : vaddr mod 4096 = 0 ∧ 0 ≤ vaddr) (Hoff : 0 ≤ off < 4294967296).
Context (Hend : vaddr + filesz ≤ hi) (Hhi : hi ≤ KERNBASE).
Context (Hc : Forall (λ b, 0 ≤ b < 256) c) (Hcl : Z.of_nat (length c) < 2147483648).

(** One page of loaduvm: what readi stores there. *)
Lemma wp_readi_at k f img va fr n o :
  building k l d hi (-4096) kp img → locked ip c f → 0 ≤ va < hi → va mod 4096 = 0 → 0 ≤ n ≤ 4096 → 0 ≤ o < 4294967296 →
  frame_of (km_mem k) d va = Some fr →
  wp (readi_at ip fr o n) (upd s k f) (λ r s', ∃ k' f', s' = upd s k' f' ∧ locked ip c f' ∧ r = (fread c o n).1
    ∧ building k' l d hi (-4096) kp (put_bytes va (fread c o n).2 img)).
Proof.
  intros B L Hva Ha Hn Ho Hf. unfold readi_at. apply wp_bind, wp_file.
  eapply wp_mono; [by apply xl_readi|]. intros r f' [-> L']. cbv beta. apply wp_bind, wp_mem. unfold store. do 2 wp_step.
  eexists _, f'. split_and!; [reflexivity|done|done|].
  replace fr with (fr + va mod 4096) by lia. apply (building_write kend k0 l0 k l d hi (-4096) kp img va fr); try done.
  - unfold fread. destruct (_ <? _); cbn [snd length]; [lia|]. rewrite length_take. lia.
  - unfold fread. destruct (_ <? _); cbn [snd]; [constructor|]. by apply Forall_take, Forall_drop.
Qed.

(** A page and the rest of the segment. *)
Lemma seg_split i (img : Z → Z) va :
  0 ≤ i < filesz → off + filesz ≤ Z.of_nat (length c) →
  let n := if filesz - i <? 4096 then filesz - i else 4096 in
  put_bytes (vaddr + (i + 4096)) (file_bytes c (off + (i + 4096)) (filesz - (i + 4096))) (put_bytes (vaddr + i) (file_bytes c (off + i) n) img) va
  = put_bytes (vaddr + i) (file_bytes c (off + i) (filesz - i)) img va.
Proof.
  intros Hi Hf n. unfold n. destruct (Z.ltb_spec (filesz - i) 4096).
  - apply put_bytes_out. unfold file_bytes. replace (Z.to_nat (filesz - (i + 4096))) with 0%nat by lia. simpl. lia.
  - rewrite <- (put_bytes_split (vaddr + i) (Z.to_nat 4096) (file_bytes c (off + i) (filesz - i))).
    + unfold file_bytes. rewrite take_take, skipn_firstn_comm, drop_drop.
      replace (vaddr + i + Z.of_nat (Z.to_nat 4096)) with (vaddr + (i + 4096)) by lia.
      replace (Z.to_nat (filesz - i) - Z.to_nat 4096)%nat with (Z.to_nat (filesz - (i + 4096))) by lia.
      replace (Z.to_nat (off + i) + Z.to_nat 4096)%nat with (Z.to_nat (off + (i + 4096))) by lia.
      by replace (Z.to_nat 4096 `min` Z.to_nat (filesz - i))%nat with (Z.to_nat 4096) by lia.
    + pose proof (file_bytes_length c (off + i) (filesz - i)). lia.
Qed.

Lemma wp_loaduvm_loop : ∀ fuel k f img i,
  building k l d hi (-4096) kp img → locked ip c f → 0 ≤ i → i mod 4096 = 0 → i < filesz + 4096 → filesz - i ≤ 4096 * Z.of_nat fuel →
  i = 0 ∨ filesz ≤ i ∨ off + i ≤ Z.of_nat (length c) →
  wp (loaduvm_loop (@on_mem F) fuel (readi_at ip) d vaddr off filesz i) (upd s k f) (λ r s', ∃ k' f', s' = upd s k' f' ∧ locked ip c f'
    ∧ if in_file c (off + i) (Z.max 0 (filesz - i))
      then r = 0 ∧ building k' l d hi (-4096) kp (put_bytes (vaddr + i) (file_bytes c (off + i) (filesz - i)) img)
      else r = -1 ∧ ∃ img', building k' l d hi (-4096) kp img').
Proof.
  induction fuel as [|fuel IH]; intros k f img i B L Hi Him Hif Hfuel Hprog; cbn [loaduvm_loop]; destruct (Z.ltb_spec i filesz) as [Hlt|Hge]; try lia.
  1, 3: wp_step; exists k, f; split_and!; [done..|]; replace (Z.max 0 (filesz - i)) with 0 by lia; cbn [in_file Z.eqb orb];
    split; [done|]; destruct B as [I O]; split; [|done]; eapply image_ext, I; intros va Hva; rewrite put_bytes_out; [done|];
    unfold file_bytes; replace (Z.to_nat (filesz - i)) with 0%nat by lia; simpl; lia.
  pose proof B as [I O]. rewrite (u32_small (vaddr + i)) by (unfold KERNBASE in *; lia).
  destruct (pte_frame kend d k l hi (-4096) kp img (vaddr + i) I ltac:(lia)) as (fr & Hok & Hf & E).
  destruct (user_ok_page kend k l d hi (-4096) kp img (vaddr + i) I ltac:(lia) Hhi) as [_ (t & Ht)].
  destruct (wf_tab _ _ _ _ (im_wf _ _ _ _ _ _ _ _ I) _ _ (PDX_range (vaddr + i)) Ht) as (Htok & _).
  pose proof (page_ok_bounds _ _ Htok). pose proof (PTX_range (vaddr + i)).
  apply wp_bind, wp_mem. eexists _, k. split; [by apply walkpgdir_present|]. cbv beta.
  destruct (Z.eqb_spec (t + 4 * PTX (vaddr + i)) 0) as [|_]; [lia|].
  apply wp_bind, wp_mem. unfold load32. wp_step. unfold pte_of in E. rewrite Ht in E. rewrite E.
  destruct (leaf_frame fr kend (uperm (-4096) (vaddr + i)) Hok (uperm_range _ _)) as [_ ->].
  rewrite (u32_small (off + i)) by lia. unfold PGSIZE. set (n := if filesz - i <? 4096 then _ else _).
  assert (Hn : 0 < n ≤ 4096 ∧ n ≤ filesz - i) by (unfold n; zcases; lia).
  wp_step. eapply wp_mono; [apply (wp_readi_at k f img (vaddr + i) fr n (off + i) B L); try lia; [Z.div_mod_to_equations; lia|done]|].
  intros r s' (k' & f' & -> & L' & -> & B'). cbv beta. destruct (fread_all c (off + i) n) as [E1 E2]; [lia..|].
  rewrite E1. destruct (Z.leb_spec (off + i + n) (Z.of_nat (length c))) as [Hfit|Hno]; cbn [negb].
  - rewrite E2, (proj2 (Z.leb_le _ _)) in B' by lia. rewrite (u32_small (i + 4096)) by (unfold KERNBASE in *; lia).
    assert (Hi2 : i + 4096 = 0 ∨ filesz ≤ i + 4096 ∨ off + (i + 4096) ≤ Z.of_nat (length c)).
    { right. unfold n in *. destruct (Z.ltb_spec (filesz - i) 4096); lia. }
    eapply wp_mono; [apply (IH k' f' _ (i + 4096) B' L'); [lia|Z.div_mod_to_equations; lia|lia..|done]|].
    intros r s' (k2 & f2 & -> & L2 & H2). exists k2, f2. split_and!; [done..|].
    assert (Ein : in_file c (off + (i + 4096)) (Z.max 0 (filesz - (i + 4096))) = in_file c (off + i) (Z.max 0 (filesz - i))).
    { unfold in_file. unfold n in *. destruct (Z.ltb_spec (filesz - i) 4096); zcases; done || lia. }
    rewrite Ein in H2. destruct (in_file c (off + i) _) eqn:Efit; [|done]. destruct H2 as [-> [I2 O2]]. split; [done|]. split; [|done].
    eapply image_ext, I2. intros va Hva. apply seg_split; [lia|]. unfold in_file in Efit. zcases_in Efit; lia.
  - wp_step. exists k', f'. split_and!; [done..|].
    assert (in_file c (off + i) (Z.max 0 (filesz - i)) = false) as ->; [|eauto]. unfold in_file. zcases; done || lia.
Qed.

Lemma wp_loaduvm k f img :
  building k l d hi (-4096) kp img → locked ip c f → 0 ≤ filesz →
  wp (loaduvm (@on_mem F) (readi_at ip) d vaddr off filesz) (upd s k f) (λ r s', ∃ k' f', s' = upd s k' f' ∧ locked ip c f'
    ∧ if in_file c off filesz
      then r = 0 ∧ building k' l d hi (-4096) kp (put_bytes vaddr (file_bytes c off filesz) img)
      else r = -1 ∧ ∃ img', building k' l d hi (-4096) kp img').
Proof.
  intros B L Hf. unfold loaduvm. destruct Hv as [Hv1 Hv2]. unfold PGSIZE. rewrite Hv1. cbn [Z.eqb negb].
  eapply wp_mono; [apply (wp_loaduvm_loop _ k f img 0 B L); try lia; [done|Z.div_mod_to_equations; lia]|].
  intros r s'. by rewrite !Z.add_0_r, !Z.sub_0_r, Z.max_r by lia.
Qed.
End seg.

(** * Program headers *)

Definition pgup (sz : Z) : Z := (sz + 4095) / 4096 * 4096.

Lemma pgup_bounds sz : 0 ≤ sz → sz ≤ pgup sz < sz + 4096 ∧ pgup sz mod 4096 = 0.
Proof. intros. unfold pgup. Z.div_mod_to_equations. lia. Qed.

Lemma pgup_mono sz sz' : sz ≤ sz' → pgup sz ≤ pgup sz'.
Proof. intros. unfold pgup. Z.div_mod_to_equations. lia. Qed.

Lemma pgup_kernbase sz : sz ≤ KERNBASE → pgup sz ≤ KERNBASE.
Proof. intros. unfold pgup, KERNBASE in *. Z.div_mod_to_equations. lia. Qed.

Lemma plan_load_mono n c : ∀ off sz img sz' img', plan_load n c off sz img = Some (sz', img') → sz ≤ sz'.
Proof.
  induction n as [|n IH]; intros off sz img sz' img' H; cbn [plan_load] in H; [by simplify_eq|].
  destruct (_ <? _); [done|]. destruct (negb _); [by eapply IH|]. unfold plan_segment in H. destruct (_ || _); [done|]. apply IH in H. lia.
Qed.

(** Some address space that can be given back. *)
Definition some_space (d : Z) (kp : Z → Z) (k : kmem) : Prop := ∃ l hi g img, building k l d hi g kp img.

(** Too few pages for a space of [sz] bytes with its tables. *)
Definition short_of_memory (sz : Z) : Prop := Z.of_nat (length l0) ≤ 2049 + (sz + 4095) / 4096.

Lemma short_mono sz sz' : sz ≤ sz' → short_of_memory sz → short_of_memory sz'.
Proof. intros H. unfold short_of_memory. assert ((sz + 4095) / 4096 ≤ (sz' + 4095) / 4096) by (apply Z.div_le_mono; lia). lia. Qed.

Definition loaded (d : Z) (kp : Z → Z) (o : option (Z * (Z → Z))) (r : option Z) (k : kmem) : Prop :=
  match o with
  | Some (sz, img) =>
      (r = Some sz ∧ 0 ≤ sz < KERNBASE ∧ zero_above (pgup sz) img ∧ ∃ l, building k l d (pgup sz) (-4096) kp img)
      ∨ (r = None ∧ some_space d kp k ∧ short_of_memory sz)
  | None => r = None ∧ some_space d kp k
  end.

(** With too few pages for what there is, the rest of the plan does not matter. *)
Lemma loaded_short d kp n c off sz img k :
  some_space d kp k → short_of_memory sz → loaded d kp (plan_load n c off sz img) None k.
Proof.
  intros Hs H. destruct (plan_load n c off sz img) as [[sz' img']|] eqn:E; [|done]. right. split_and!; [done..|].
  eapply short_mono, H. by eapply plan_load_mono.
Qed.

Section load.
Context (s : kst F) (ip : nat) (c : list Z) (d : Z) (kp : Z → Z).
Context (Hc : Forall (λ b, 0 ≤ b < 256) c) (Hcl : Z.of_nat (length c) < 2147483648).

Lemma wp_load_segment k l f sz ph img :
  building k l d (pgup sz) (-4096) kp img → locked ip c f → 0 ≤ sz < KERNBASE → zero_above (pgup sz) img →
  Forall (λ b, 0 ≤ b < 256) ph →
  wp (load_segment kend ip d sz ph) (upd s k f) (λ r s', ∃ k' f', s' = upd s k' f' ∧ locked ip c f'
    ∧ loaded d kp (plan_segment c ph sz img) r k').
Proof.
  intros B L Hsz Hz Hph. unfold load_segment, plan_segment.
  assert (Hsome : some_space d kp k) by (by exists l, (pgup sz), (-4096), img).
  assert (Hr : ∀ o, 0 ≤ get32 ph o < 4294967296) by (intros o; by apply get32_range).
  pose proof (Hr 4%nat : 0 ≤ p_off ph < 4294967296). pose proof (Hr 8%nat : 0 ≤ p_vaddr ph < 4294967296).
  pose proof (Hr 16%nat : 0 ≤ p_filesz ph < 4294967296). pose proof (Hr 20%nat : 0 ≤ p_memsz ph < 4294967296). clear Hr.
  set (top := p_vaddr ph + p_memsz ph).
  destruct (Z.ltb_spec (p_memsz ph) (p_filesz ph)) as [Hms|Hms]; cbn [orb]; [wp_step; by exists k, f|].
  destruct (Z.ltb_spec (u32 top) (p_vaddr ph)) as [Ho|Ho].
  { wp_step. exists k, f. split_and!; [done..|]. destruct (Z.leb_spec KERNBASE top); [done|].
    rewrite u32_small in Ho; unfold top, KERNBASE in *; lia. }
  assert (Htop : u32 top = top).
  { unfold u32 in *. destruct (Z.lt_ge_cases top 4294967296); [by rewrite Z.mod_small by lia|].
    replace (top mod 4294967296) with (top - 4294967296) in Ho; [unfold top in Ho; lia|].
    rewrite <- (Z.mod_add top (-1)), Z.mod_small; unfold top; lia. }
  rewrite Htop. apply wp_bind, wp_mem.
  destruct (building_alloc kend Hk k0 l0 R0 k l d sz top (-4096) kp img B ltac:(lia) ltac:(unfold top; lia) ltac:(lia) Hz) as (r & k1 & l1 & E & Hr).
  exists r, k1. split; [done|].
  destruct Hr as [(Hlt & -> & B1)|(-> & Hwhy & B1)]; cbv beta.
  2: { cbn [Z.eqb]. wp_step. exists k1, f. split_and!; [done..|].
       assert (Hs1 : some_space d kp k1) by (by exists l1, (pgup sz), (-4096), img).
       destruct (Z.leb_spec KERNBASE top); cbn [orb]; [done|]. destruct Hwhy as [|Hshort]; [lia|].
       destruct (_ || _); [done|]. right. split_and!; [done..|]. by apply (short_mono top); [lia|]. }
  assert (Hs1 : some_space d kp k1) by (by exists l1, (pgup (Z.max sz top)), (-4096), img).
  rewrite (proj2 (Z.leb_gt _ _) Hlt). cbn [orb].
  destruct (Z.eqb_spec (Z.max sz top) 0); cbn [orb]; [wp_step; by exists k1, f|]. unfold PGSIZE.
  destruct (Z.eqb_spec (p_vaddr ph mod 4096) 0) as [Hal|Hal]; cbn [negb orb]; [|wp_step; by exists k1, f].
  pose proof (pgup_bounds (Z.max sz top) ltac:(lia)). pose proof (pgup_kernbase (Z.max sz top) ltac:(lia)).
  wp_step. eapply wp_mono; [apply (wp_loaduvm s ip c l1 d (pgup (Z.max sz top)) kp _ _ _); [lia|done|unfold top in *; lia|done..|lia]|].
  intros r s' (k2 & f2 & -> & L2 & Hld). cbv beta. destruct (in_file _ _ _) eqn:Ein; cbn [negb].
  - destruct Hld as [-> B2]. cbn [Z.ltb Z.compare]. wp_step. exists k2, f2. split_and!; [done..|]. left.
    split_and!; [done|lia|lia| |by exists l1]. apply put_bytes_zero.
    + intros va Hva. apply Hz. pose proof (pgup_mono sz (Z.max sz top)). lia.
    + unfold in_file in Ein. unfold file_bytes. rewrite length_take. unfold top in *. lia.
  - destruct Hld as [-> (img' & B2)]. cbn [Z.ltb Z.compare]. wp_step. exists k2, f2. do 3 (split; [done|]).
    by exists l1, (pgup (Z.max sz top)), (-4096), img'.
Qed.

Lemma wp_load_loop : ∀ n k l f sz off img,
  building k l d (pgup sz) (-4096) kp img → locked ip c f → 0 ≤ sz < KERNBASE → zero_above (pgup sz) img → 0 ≤ off < 4294967296 →
  wp (load_loop kend n ip d sz off) (upd s k f) (λ r s', ∃ k' f', s' = upd s k' f' ∧ locked ip c f'
    ∧ loaded d kp (plan_load n c off sz img) r k').
Proof.
  induction n as [|n IH]; intros k l f sz off img B L Hsz Hz Hoff; cbn [load_loop plan_load].
  { wp_step. exists k, f. split_and!; [done..|]. left. split_and!; [done|lia|lia|done|by exists l]. }
  apply wp_bind, wp_file. eapply wp_mono; [apply (xl_readi ip c f off PROGHDR L Hoff); by unfold PROGHDR|].
  intros r f1 [-> L1]. cbv beta. destruct (fread_all c off PROGHDR) as [E1 E2]; [lia|by unfold PROGHDR|].
  rewrite E1. unfold PROGHDR in *. destruct (Z.leb_spec (off + 32) (Z.of_nat (length c))) as [Hin|Hin]; cbn [negb].
  2: { wp_step. exists k, f1. rewrite (proj2 (Z.ltb_lt _ _) Hin). do 3 (split; [done|]). by exists l, (pgup sz), (-4096), img. }
  rewrite (proj2 (Z.ltb_ge _ _) Hin), E2, (proj2 (Z.leb_le _ _)), (u32_small (off + 32)) by lia.
  set (ph := file_bytes c off 32). destruct (p_type ph =? ELF_PROG_LOAD); cbn [negb]; [|eapply IH; [done..|lia]].
  wp_step. eapply wp_mono; [apply (wp_load_segment k l f1 sz ph img B L1 Hsz Hz); by apply file_bytes_ok|].
  intros r s' (k2 & f2 & -> & L2 & H2). destruct (plan_segment c ph sz img) as [[sz2 img2]|]; cbn [loaded] in H2.
  - destruct H2 as [(-> & Hsz2 & Hz2 & l2 & B2)|(-> & Hs2 & Hm2)]; [eapply IH; [done..|lia]|].
    wp_step. exists k2, f2. split_and!; [done..|]. by apply loaded_short.
  - destruct H2 as [-> Hs2]. wp_step. by exists k2, f2.
Qed.
End load.

(** * Arguments *)

Lemma land_word x : 0 ≤ x < 4294967296 → Z.land x (u32 (Z.lnot 3)) = x / 4 * 4.
Proof.
  intros H. change (u32 (Z.lnot 3)) with (Z.ldiff (Z.ones 32) (Z.ones 2)).
  replace (Z.land x (Z.ldiff (Z.ones 32) (Z.ones 2))) with (Z.ldiff (Z.land x (Z.ones 32)) (Z.ones 2)).
  - rewrite Z.land_ones, Z.mod_small, Z.ldiff_ones_r by lia. by rewrite Z.shiftr_div_pow2, Z.shiftl_mul_pow2 by lia.
  - apply Z.bits_inj'. intros n Hn. rewrite !Z.ldiff_spec, !Z.land_spec, Z.ldiff_spec. by rewrite andb_assoc.
Qed.

(** A string that exec takes for an argument: one that fits in a page. *)
Definition arg_ok (a : list Z) : Prop := Forall (λ b, 0 < b < 256) a ∧ Z.of_nat (length a) < 4096.

Section args.
Context (s : kst F) (f : F) (d g : Z) (kp : Z → Z) (Hg : 0 ≤ g) (Hga : g mod 4096 = 0) (Hgh : g + 8192 < KERNBASE).
Context (l : list Z).
Abbreviation built k img := (building k l d (g + 8192) g kp img).

(** copyout of something that starts in the page of the stack or, when there
    is no room for it, in the guard page. *)
Lemma wp_push k img sp bs :
  built k img → g ≤ sp → sp + Z.of_nat (length bs) ≤ g + 8192 → bs ≠ [] → Forall (λ b, 0 ≤ b < 256) bs →
  wp (on_mem Z (copyout_list d sp bs)) (upd s k f) (λ r s', ∃ k', s' = upd s k' f
    ∧ if sp <? g + 4096 then r = -1 ∧ built k' img else r = 0 ∧ built k' (put_bytes sp bs img)).
Proof.
  intros B Hsp Hend Hne Hb. apply wp_mem. destruct (Z.ltb_spec sp (g + 4096)).
  - eexists _, _. split; [apply (copyout_list_guard kend k0 l0 k l d (g + 8192) g kp img); (done || lia)|]. by exists k.
  - destruct (copyout_list_run kend k0 l0 k l d (g + 8192) g kp img sp bs) as (k' & E & B'); try (done || lia).
    eexists _, _. split; [done|]. by exists k'.
Qed.

Lemma arg_bytes a : arg_ok a → Forall (λ b, 0 ≤ b < 256) (a ++ [0]).
Proof.
  intros [H _]. apply Forall_app. split; [|by repeat constructor]. eapply Forall_impl; [exact H|]. intros b ?. simpl in *. lia.
Qed.

Lemma wp_push_loop : ∀ argv argc k img sp pre post,
  built k img → g + 4096 ≤ sp ≤ g + 8192 → Forall arg_ok argv → 0 ≤ argc ≤ 32 →
  Z.of_nat (length pre) = 3 + argc → Z.of_nat (length pre + length post) = 36 →
  wp (push_loop argv argc d sp (pre ++ post)) (upd s k f) (λ r s', ∃ k', s' = upd s k' f
    ∧ match plan_args (g + 4096) argv argc sp img with
      | Some (sps, sp', img') => r = Some (sp', pre ++ sps ++ drop (length sps) post) ∧ built k' img'
          ∧ length sps = length argv ∧ argc + Z.of_nat (length argv) ≤ 32 ∧ g + 4096 ≤ sp' ≤ g + 8192
      | None => r = None ∧ ∃ img', built k' img'
      end).
Proof.
  induction argv as [|a argv IH]; intros argc k img sp pre post B Hsp Ha Hargc Hpre Hpost; cbn [push_loop plan_args].
  { wp_step. exists k. split; [done|]. rewrite drop_0. cbn [length app]. split_and!; try done; lia. }
  apply Forall_cons in Ha as [Ha1 Ha]. pose proof (proj2 Ha1) as Hlen. unfold MAXARG. destruct (Z.leb_spec 32 argc) as [Hmax|Hmax]; cbn [orb].
  { wp_step. exists k. split_and!; [done..|]. by exists img. }
  rewrite u32_small, land_word by (unfold KERNBASE in *; lia).
  set (sp1 := (sp - (Z.of_nat (length a) + 1)) / 4 * 4).
  assert (Hsp1 : g ≤ sp1 ∧ sp1 + Z.of_nat (length a) + 1 ≤ sp) by (unfold sp1; Z.div_mod_to_equations; lia).
  wp_step. eapply wp_mono; [apply (wp_push k img sp1 (a ++ [0]) B); [lia|rewrite length_app; simpl; lia|by destruct a|by apply arg_bytes]|].
  intros r s' (k1 & -> & Hr). cbv beta. destruct (Z.ltb_spec sp1 (g + 4096)) as [Hlow|Hhigh]; destruct Hr as [-> B1]; cbn [Z.ltb Z.compare].
  { wp_step. exists k1. split_and!; [done..|]. by exists img. }
  destruct post as [|x post]; [simpl in *; lia|]. cbn [length] in Hpost.
  assert (E : aset (pre ++ x :: post) (3 + argc) sp1 = Some ((pre ++ [sp1]) ++ post)).
  { unfold aset. rewrite length_app. cbn [length]. rewrite (proj2 (Z.leb_le _ _)), (proj2 (Z.ltb_lt _ _)) by lia. cbn [andb].
    replace (Z.to_nat (3 + argc)) with (length pre + 0)%nat by lia. rewrite insert_app_r, <- app_assoc. done. }
  rewrite E. cbn [of_option]. do 2 wp_step.
  eapply wp_mono; [apply (IH (argc + 1) k1 _ sp1 (pre ++ [sp1]) post B1); rewrite ?length_app; simpl; done || lia|].
  intros r s' (k2 & -> & H2). exists k2. split; [done|].
  destruct (plan_args _ argv _ _ _) as [[[sps sp'] img']|]; [|done]. destruct H2 as (-> & B2 & Hl & ? & ?).
  split_and!; try (done || lia); [|cbn [length]; lia..]. by rewrite <- app_assoc.
Qed.
End args.

(** * The commit *)

(** The process after exec, and the state of the kernel. *)
Definition execed_proc (path : list Z) (d sz : Z) (p : proc) : proc :=
  set_priority 10 (set_sz sz (set_pgdir d (set_name (name_copy (name p) (last_elem path path)) p))).
Definition execed (s : kst F) (cur : nat) (p : proc) (path : list Z) (d sz : Z) (c' : cpu) (k : kmem) (f : F) : kst F :=
  MkKst (set_cpu c' (lk s)) (set_cr3 (V2P d) (set_esp0 (kstack p + KSTACKSIZE)
    (set_ptable (<[cur := execed_proc path d sz p]> (ptable (core s))) (set_fs f (set_km k (core s)))))).

Section commit.
Context (s : kst F) (f : F) (cur : nat) (p : proc) (path : list Z).
Context (Hp : ptable (core s) !! cur = Some p) (Hcpu : cpu_wf (lk_cpu (lk s))).
Context (C : caller kend k0 l0 (pgdir p) (kstack p) (tf p)).

(** The state of the kernel with [q] for the process and [k] for the memory. *)
Definition committing (q : proc) (k : kmem) : kst F :=
  MkKst (lk s) (set_ptable (<[cur := q]> (ptable (core s))) (set_fs f (set_km k (core s)))).

Lemma committing_lookup q k : ptable (core (committing q k)) !! cur = Some q.
Proof. cbn. apply list_lookup_insert_eq. by eapply lookup_lt_Some. Qed.

Lemma committing_start k : upd s k f = committing p k.
Proof. unfold upd, committing. rewrite list_insert_id by done. by destruct (core s). Qed.

Lemma wp_committing q k g (Q : unit → kst F → Prop) : Q tt (committing (g q) k) → wp (on_core (updp cur g)) (committing q k) Q.
Proof.
  intros H. exists tt, (committing (g q) k). split; [|done]. erewrite on_core_run by (apply updp_run, committing_lookup).
  do 2 f_equal. unfold committing. cbn. by rewrite list_insert_insert_eq.
Qed.

Lemma wp_committing_mem {A} (c : M kmem A) q k (Q : A → kst F → Prop) :
  wp c k (λ a k', Q a (committing q k')) → wp (on_mem A c) (committing q k) Q.
Proof. intros (a & k' & E & H). exists a, (committing q k'). split; [|done]. unfold on_mem, on_core, on_km. cbn. by rewrite E. Qed.

Lemma exec_commit_run k l d sz g kp img entry sp :
  building k l d sz g kp img → sz ≤ KERNBASE → 0 ≤ entry < 4294967296 → 0 ≤ sp < 4294967296 →
  wp (exec_commit kend cur path d sz entry sp) (upd s k f) (λ r s', r = 0 ∧ ∃ c' k', s' = execed s cur p path d sz c' k' f
    ∧ same_level (lk_cpu (lk s)) c' ∧ cpu_wf c' ∧ swapped kend k0 l0 (pgdir p) (tf p) d sz g entry sp kp img k').
Proof.
  intros B Hsz Hen Hsp. rewrite committing_start. unfold exec_commit.
  destruct (swap_run kend Hk k0 l0 _ _ _ C k l d sz g kp img B Hsz entry sp Hen Hsp) as (k' & E & Hsw).
  assert (Hd : d ≠ 0) by (pose proof (page_ok_bounds _ _ (wf_dir _ _ _ _ (im_wf _ _ _ _ _ _ _ _ (proj1 B)))); lia).
  assert (Hks : kstack p ≠ 0) by (pose proof (page_ok_bounds _ _ (ca_stack _ _ _ _ _ _ C)); lia).
  apply wp_bind, wp_committing. apply wp_bind. eexists _, _. split; [apply on_core_run, getp_run, committing_lookup|].
  cbv zeta. change (MkKst (lk (committing ?q k)) (core (committing ?q k))) with (committing q k).
  do 2 apply wp_bind, wp_committing. cbn [tf pgdir set_name].
  do 2 (apply wp_bind, wp_committing_mem; unfold store; wp_step).
  apply wp_bind, wp_committing. apply wp_bind.
  destruct (switchuvm_cpu (committing (execed_proc path d sz p) (tf_written (tf p) k entry sp)) cur (execed_proc path d sz p))
    as (c' & E' & Hlev & Hwf); [done|by apply committing_lookup|done|done|].
  eexists _, _. split; [exact E'|]. wp_step.
  exists tt, (execed s cur p path d sz c' k' f). split; [|wp_step; eauto 10].
  unfold on_mem, on_core, on_km. cbn. cbn in E. rewrite E. done.
Qed.

(** * Outcomes *)

(** exec returns -1, and all it took is given back. *)
Definition failed (f' : F) (r : Z) (s' : kst F) : Prop := r = -1 ∧ ∃ k' l', s' = upd s k' f' ∧ restored k' l'.

(** exec returns 0, and the process is the program that was planned. *)
Definition started (pr : program) (f' : F) (r : Z) (s' : kst F) : Prop :=
  r = 0 ∧ ∃ d c' k', s' = execed s cur p path d (pr_sz pr) c' k' f' ∧ same_level (lk_cpu (lk s)) c' ∧ cpu_wf c'
    ∧ swapped kend k0 l0 (pgdir p) (tf p) d (pr_sz pr) (pr_guard pr) (pr_entry pr) (pr_sp pr) (kernel_pte kdata) (pr_img pr) k'.

Definition outcome (o : option program) (f' : F) (r : Z) (s' : kst F) : Prop :=
  match o with
  | None => failed f' r s'
  | Some pr => started pr f' r s' ∨ failed f' r s' ∧ short_of_memory (pr_sz pr)
  end.

Lemma exec_bad_none d k kp : some_space d kp k → wp (exec_bad kend d None) (upd s k f) (failed f).
Proof.
  intros (l & hi & g & img & B). unfold exec_bad.
  pose proof (page_ok_bounds _ _ (wf_dir _ _ _ _ (im_wf _ _ _ _ _ _ _ _ (proj1 B)))). destruct (Z.eqb_spec d 0) as [|_]; [lia|]. cbn [negb].
  destruct (building_free kend Hk k0 l0 k l d hi g kp img B) as (k' & l' & E & Hr).
  apply wp_bind, wp_mem. exists tt, k'. split; [done|]. do 3 wp_step. split; [done|]. by exists k', l'.
Qed.

(** The four stores that complete ustack, and the words that are copied. *)
Lemma ustack_words (u : list Z) sps post argc sp' :
  length u = 3%nat → argc = Z.of_nat (length sps) → Z.of_nat (length sps) ≤ 32 → length (u ++ sps ++ post) = 36%nat →
  ∃ u1 u2 u3 u4, aset (u ++ sps ++ post) (3 + argc) 0 = Some u1 ∧ aset u1 0 4294967295 = Some u2
    ∧ aset u2 1 argc = Some u3 ∧ aset u3 2 sp' = Some u4
    ∧ take (Z.to_nat ((3 + argc + 1) * 4)) (words_bytes u4) = words_bytes ([4294967295; argc; sp'] ++ sps ++ [0]).
Proof.
  intros Hu -> Hn Hl. rewrite !length_app in Hl.
  destruct u as [|a [|b [|c [|]]]]; try done. destruct post as [|x post]; [simpl in *; lia|]. simpl in Hl.
  assert (E : ∀ (l : list Z) i v, (i < length l)%nat → aset l (Z.of_nat i) v = Some (<[i := v]> l)) by (intros; by apply aset_nat).
  replace (3 + Z.of_nat (length sps)) with (Z.of_nat (3 + length sps)) by lia.
  exists ([a; b; c] ++ sps ++ 0 :: post). eexists _, _, _. split_and!.
  - rewrite E by (rewrite !length_app; simpl; lia). f_equal. rewrite <- (app_nil_l (x :: post)), !app_assoc.
    replace (3 + length sps)%nat with (length (([a; b; c] ++ sps) ++ []) + 0)%nat by (rewrite !length_app; simpl; lia).
    by rewrite insert_app_r, app_nil_r.
  - apply (E _ 0%nat). rewrite !length_app. simpl. lia.
  - apply (E _ 1%nat). rewrite !length_insert, !length_app. simpl. lia.
  - apply (E _ 2%nat). rewrite !length_insert, !length_app. simpl. lia.
  - cbn [app insert list_insert].
    replace (4294967295 :: Z.of_nat (length sps) :: sp' :: sps ++ 0 :: post)
      with (([4294967295; Z.of_nat (length sps); sp'] ++ sps ++ [0]) ++ post) by (cbn [app]; by rewrite <- app_assoc).
    rewrite words_bytes_app. apply take_app_length'. rewrite words_bytes_length. cbn [app length]. rewrite length_app. simpl. lia.
Qed.

(** From the loop over argv on. *)
Lemma wp_exec_args ustack0 argv k l d g entry img :
  building k l d (g + 8192) g (kernel_pte kdata) img → 0 ≤ g → g mod 4096 = 0 → g + 8192 < KERNBASE →
  0 ≤ entry < 4294967296 → Forall arg_ok argv → length ustack0 = 36%nat →
  wp (exec_args kend ustack0 cur path argv d (g + 8192) entry) (upd s k f) (outcome (plan_words argv entry g img) f).
Proof.
  intros B Hg Hm Hgh Hen Hargs Hu. unfold exec_args, plan_words. set (kp := kernel_pte kdata) in *.
  assert (Hbad : ∀ k' img', building k' l d (g + 8192) g kp img' → wp (exec_bad kend d None) (upd s k' f) (failed f)).
  { intros k' img' B'. apply (exec_bad_none d k' kp). by exists l, (g + 8192), g, img'. }
  rewrite <- (take_drop 3 ustack0). wp_step. eapply wp_mono.
  { apply (wp_push_loop s f d g kp Hg Hm Hgh l argv 0 k img (g + 8192) (take 3 ustack0) (drop 3 ustack0) B); try (done || lia).
    - rewrite length_take. lia.
    - rewrite length_take, length_drop. lia. }
  intros r s' (k1 & -> & Hr). destruct (plan_args _ _ _ _ _) as [[[sps sp] img1]|].
  2: { destruct Hr as (-> & img1 & B1). by eapply Hbad. }
  destruct Hr as (-> & B1 & Hlen & Hmax & Hsp). set (argc := Z.of_nat (length argv)) in *. cbv zeta.
  destruct (ustack_words (take 3 ustack0) sps (drop (length sps) (drop 3 ustack0)) argc (u32 (sp - (argc + 1) * 4)))
    as (u1 & u2 & u3 & u4 & E1 & E2 & E3 & E4 & E5).
  { rewrite length_take. lia. } { lia. } { lia. } { rewrite !length_app, length_take, !length_drop. lia. }
  rewrite E1. cbn [of_option]. do 2 wp_step. rewrite E2. cbn [of_option]. do 2 wp_step. rewrite E3. cbn [of_option]. do 2 wp_step.
  rewrite E4. cbn [of_option]. do 2 wp_step. rewrite E5. rewrite !u32_small by (unfold KERNBASE in *; lia).
  set (sp' := sp - (3 + argc + 1) * 4). set (ws := words_bytes _).
  assert (Hws : Z.of_nat (length ws) = (3 + argc + 1) * 4) by (unfold ws; rewrite words_bytes_length, !length_app; simpl; lia).
  wp_step. eapply wp_mono; [apply (wp_push s f d g kp Hg Hm Hgh l k1 img1 sp' ws B1); [unfold sp'; lia..|by intros E; rewrite E in Hws; simpl in Hws; lia|apply words_bytes_ok]|].
  intros r s' (k2 & -> & Hr). destruct (Z.ltb_spec sp' (g + 4096)); destruct Hr as [-> B2]; cbn [Z.ltb Z.compare].
  { by eapply Hbad. }
  eapply wp_mono; [apply (exec_commit_run k2 l d (g + 8192) g kp _ entry sp' B2); (done || unfold KERNBASE, sp' in *; lia)|].
  intros r s' (-> & c' & k' & ? & ? & ? & ?). left. split; [done|]. by exists d, c', k'.
Qed.

(** From the allocation of the stack on. *)
Lemma wp_exec_stack ustack0 argv k l d sz entry img :
  building k l d (pgup sz) (-4096) (kernel_pte kdata) img → 0 ≤ sz < KERNBASE → zero_above (pgup sz) img →
  0 ≤ entry < 4294967296 → Forall arg_ok argv → length ustack0 = 36%nat →
  wp (exec_stack kend ustack0 cur path argv d sz entry) (upd s k f) (outcome (plan_stack argv entry sz img) f).
Proof.
  intros B Hsz Hz Hen Hargs Hu. unfold exec_stack, plan_stack.
  rewrite PGROUNDUP_alt by (unfold KERNBASE in *; lia). change ((sz + 4095) / 4096 * 4096) with (pgup sz).
  pose proof (pgup_bounds sz ltac:(lia)) as [Hb Hm]. pose proof (pgup_kernbase sz ltac:(lia)). set (g := pgup sz) in *.
  unfold PGSIZE. rewrite (u32_small (g + 2 * 4096)) by (unfold KERNBASE in *; lia).
  assert (Hup : ∀ n, n mod 4096 = 0 → (n + 4095) / 4096 * 4096 = n) by (intros; Z.div_mod_to_equations; lia).
  assert (Hm2 : (g + 8192) mod 4096 = 0) by (Z.div_mod_to_equations; lia).
  destruct (building_alloc kend Hk k0 l0 R0 k l d g (g + 2 * 4096) (-4096) (kernel_pte kdata) img)
    as (r & k1 & l1 & E & Hr); [by rewrite Hup|lia|lia|lia|by rewrite Hup|]. rewrite (Hup g) in Hr by done.
  apply wp_bind, wp_mem. exists r, k1. split; [done|]. cbv beta.
  destruct Hr as [(Hlt & -> & B1)|(-> & Hwhy & B1)].
  2: { cbn [Z.eqb]. eapply wp_mono; [apply (exec_bad_none d k1 (kernel_pte kdata)); by exists l1, g, (-4096), img|].
       intros r' s' Hf. destruct (Z.leb_spec KERNBASE (g + 8192)); [done|]. destruct Hwhy as [|Hs]; [lia|].
       unfold plan_words. destruct (plan_args _ _ _ _ _) as [[[sps sp] img']|]; [|done]. cbv zeta. destruct (_ <? _); [done|]. right. split; [done|]. exact Hs. }
  rewrite Z.max_r in * by lia. replace (g + 2 * 4096) with (g + 8192) in * by lia. rewrite Hup in B1 by done.
  destruct (Z.eqb_spec (g + 8192) 0) as [|_]; [lia|]. rewrite (proj2 (Z.leb_gt _ _) Hlt).
  rewrite u32_small by (unfold KERNBASE in *; lia). replace (g + 8192 - 2 * 4096) with g by lia.
  destruct (building_clear kend k0 l0 k1 l1 d (g + 8192) (-4096) g (kernel_pte kdata) img B1) as (k2 & E2 & B2); try lia.
  apply wp_bind, wp_mem. exists tt, k2. split; [done|]. cbv beta. apply (wp_exec_args ustack0 argv k2 l1); (done || lia).
Qed.
End commit.

(** * The whole of exec *)

Section main.
Context (s : kst F) (cur : nat) (p : proc) (path : list Z) (argv : list (list Z)) (ustack0 : list Z).
Context (Hp : ptable (core s) !! cur = Some p) (Hcpu : cpu_wf (lk_cpu (lk s))).
Context (C : caller kend k0 l0 (pgdir p) (kstack p) (tf p)).
Context (Hargs : Forall arg_ok argv) (Hu : length ustack0 = 36%nat).

Lemma restored_refl : restored k0 l0.
Proof. by split. Qed.

(** The inode and the transaction are given back. *)
Lemma wp_close ip c k f : locked ip c f →
  wp (on_file (x_iunlockput ip) ;;; on_file x_end_op) (upd s k f) (λ _ s', ∃ f', rest f' ∧ s' = upd s k f').
Proof.
  intros L. apply wp_bind, wp_file. eapply wp_mono; [by eapply xl_iunlockput|]. intros [] f1 H1. cbv beta.
  apply wp_file. eapply wp_mono; [by eapply xl_end|]. intros [] f2 H2. by exists f2.
Qed.

Lemma exec_bad_null ip c k l f : locked ip c f → restored k l →
  wp (exec_bad kend 0 (Some ip)) (upd s k f) (λ r s', ∃ f', rest f' ∧ failed s f' r s').
Proof.
  intros L R. unfold exec_bad. cbn [Z.eqb negb]. do 2 wp_step. apply wp_bind.
  eapply wp_mono; [by eapply wp_close|]. intros [] s' (f' & Hf' & ->). wp_step. exists f'. split; [done|]. split; [done|]. by exists k, l.
Qed.

Lemma exec_bad_some ip c k d kp f : locked ip c f → some_space d kp k →
  wp (exec_bad kend d (Some ip)) (upd s k f) (λ r s', ∃ f', rest f' ∧ failed s f' r s').
Proof.
  intros L (l & hi & g & img & B). unfold exec_bad.
  pose proof (page_ok_bounds _ _ (wf_dir _ _ _ _ (im_wf _ _ _ _ _ _ _ _ (proj1 B)))). destruct (Z.eqb_spec d 0) as [|_]; [lia|]. cbn [negb].
  destruct (building_free kend Hk k0 l0 k l d hi g kp img B) as (k' & l' & E & R).
  apply wp_bind, wp_mem. exists tt, k'. split; [done|]. cbv beta. apply wp_bind.
  eapply wp_mono; [by eapply wp_close|]. intros [] s' (f' & Hf' & ->). wp_step. exists f'. split; [done|]. split; [done|]. by exists k', l'.
Qed.

(** A failure for want of memory, whatever the rest of the plan. *)
Lemma failed_outcome o f' r s' :
  failed s f' r s' → (∀ pr, o = Some pr → short_of_memory (pr_sz pr)) → outcome s cur p path o f' r s'.
Proof. intros H Hs. destruct o as [pr|]; [|done]. right. split; [done|]. by apply Hs. Qed.

Lemma plan_stack_sz entry sz img pr : plan_stack argv entry sz img = Some pr → sz ≤ pr_sz pr.
Proof.
  unfold plan_stack, plan_words. destruct (_ <=? _); [done|]. destruct (plan_args _ _ _ _ _) as [[[sps sp] img']|]; [|done].
  cbv zeta. destruct (_ <? _); [done|]. intros [= <-]. cbn [pr_sz]. pose proof (pgup_bounds sz). unfold pgup in *.
  Z.div_mod_to_equations. lia.
Qed.

(** From the first readi on. *)
Lemma wp_exec_image ip c f : locked ip c f → Forall (λ b, 0 ≤ b < 256) c → Z.of_nat (length c) < 2147483648 →
  wp (exec_image kend kdata ustack0 cur path argv ip) (upd s k0 f) (λ r s', ∃ f', rest f' ∧ outcome s cur p path (plan c argv) f' r s').
Proof.
  intros L Hc Hcl. unfold exec_image, plan, ELFHDR. apply wp_bind, wp_file. eapply wp_mono; [by apply (xl_readi ip c f 0 52 L)|].
  intros r f1 [-> L1]. cbv beta zeta. destruct (fread_all c 0 52) as [E1 E2]; [lia..|]. rewrite E1, E2, (proj2 (Z.leb_le 0 _)) by lia.
  assert (Hnull : ∀ k l, restored k l → wp (exec_bad kend 0 (Some ip)) (upd s k f1) (λ r s', ∃ f', rest f' ∧ failed s f' r s'))
    by (intros; by eapply exec_bad_null).
  destruct (Z.leb_spec (0 + 52) (Z.of_nat (length c))), (Z.ltb_spec (Z.of_nat (length c)) 52); try lia; cbn [negb];
    [|by apply (Hnull k0 l0), restored_refl].
  set (h := file_bytes c 0 52). assert (Hh : Forall (λ b, 0 ≤ b < 256) h) by by apply file_bytes_ok.
  destruct (e_magic h =? ELF_MAGIC); cbn [negb]; [|by apply (Hnull k0 l0), restored_refl].
  set (o := match plan_load _ _ _ _ _ with Some _ => _ | None => _ end).
  destruct (building_setup kend Hk k0 l0 R0 kdata Hdata (-4096) (λ _, 0)) as (d & k1 & E & Hd).
  apply wp_bind, wp_mem. exists d, k1. split; [done|]. cbv beta. destruct Hd as [(Hd0 & l1 & B1)|(-> & Hshort & l1 & R1)].
  2: { cbn [Z.eqb]. eapply wp_mono; [by eapply Hnull|]. intros r s' (f' & Hf' & H'). exists f'. split; [done|].
       apply failed_outcome; [done|]. intros pr Hpr. unfold o in Hpr.
       destruct (plan_load _ _ _ _ _) as [[sz img]|] eqn:El; [|done]. apply plan_load_mono in El. apply plan_stack_sz in Hpr.
       unfold short_of_memory. assert (0 ≤ (pr_sz pr + 4095) / 4096) by (apply Z.div_pos; lia). lia. }
  destruct (Z.eqb_spec d 0) as [|_]; [done|]. apply wp_bind.
  eapply wp_mono; [apply (wp_load_loop s ip c d (kernel_pte kdata) Hc Hcl _ k1 l1 f1 0 _ (λ _, 0)); [done..|by unfold KERNBASE|done|by apply get32_range]|].
  intros r s' (k2 & f2 & -> & L2 & H2). unfold o. destruct (plan_load _ _ _ _ _) as [[sz img]|]; cbn [loaded] in H2.
  2: { destruct H2 as [-> Hs]. eapply wp_mono; [by eapply exec_bad_some|]. intros r s' (f' & ? & ?). by exists f'. }
  destruct H2 as [(-> & Hsz & Hz & l2 & B2)|(-> & Hs & Hm)].
  2: { eapply wp_mono; [by eapply exec_bad_some|]. intros r s' (f' & ? & ?). exists f'. split; [done|].
       apply failed_outcome; [done|]. intros pr Hpr. eapply short_mono, Hm. by eapply plan_stack_sz. }
  apply wp_bind. eapply wp_mono; [by eapply wp_close|]. intros [] s' (f3 & Hf3 & ->).
  eapply wp_mono; [apply (wp_exec_stack s f3 cur p path Hp Hcpu C ustack0 argv k2 l2 d sz _ img); try done; by apply get32_range|].
  intros r s' Ho. by exists f3.
Qed.
End main.
End exec.

(** * The theorem *)

Section top.
Context {F : Type} {XO : ExecOps F} (sane : list Z → Prop) (file : list Z → option (list Z)).
Context (rest intx : F → Prop) (named locked : nat → list Z → F → Prop).
Context {XL : ExecLaws F sane file rest intx named locked}.
Context (kend kdata : Z).

(** exec returns -1 and prints [out]: the process table is as it was, the
    free pages are, and so is all other memory. *)
Definition exec_failed (out : list msg) (s : kst F) (l : list Z) (r : Z) (s' : kst F) : Prop :=
  r = -1 ∧ ∃ c' k' l' f', s' = MkKst (set_cpu c' (lk s)) (set_console (out ++ console (core s)) (set_fs f' (set_km k' (core s))))
    ∧ same_level (lk_cpu (lk s)) c' ∧ cpu_wf c' ∧ restored kend (km (core s)) l k' l' ∧ rest f'.

(** exec returns 0: the process [p] of slot [cur] runs the program [pr]. *)
Definition exec_started (s : kst F) (l : list Z) (cur : nat) (p : proc) (path : list Z) (pr : program) (r : Z) (s' : kst F) : Prop :=
  r = 0 ∧ ∃ d c' k' f', s' = execed s cur p path d (pr_sz pr) c' k' f'
    ∧ same_level (lk_cpu (lk s)) c' ∧ cpu_wf c'
    ∧ swapped kend (km (core s)) l (pgdir p) (tf p) d (pr_sz pr) (pr_guard pr) (pr_entry pr) (pr_sp pr) (kernel_pte kdata) (pr_img pr) k'
    ∧ rest f'.

(** C11. exec runs the program of an executable file.  When the path leads to no
    file, or the file and the arguments do not make a program, exec returns
    -1, every page it took is free again, and nothing else has changed but,
    for a missing file, the line it prints.  Otherwise, unless memory is
    short, it returns 0 and the process has a new address space that holds
    exactly the segments of the file, zeros, a guard page, and the stack with
    the arguments; the trap frame starts it at the entry point; the pages of
    the old space are free and no page is lost. *)
Theorem exec_correct (s : kst F) (l : list Z) (cur : nat) (p : proc) (path : list Z) (argv : list (list Z)) (ustack0 : list Z) :
  KERNBASE < kend → kdata mod 4096 = 0 ∧ KERNLINK < kdata < KERNBASE + PHYSTOP →
  cproc (core s) = Some cur → ptable (core s) !! cur = Some p → cpu_wf (lk_cpu (lk s)) →
  caller kend (km (core s)) l (pgdir p) (kstack p) (tf p) → rest (fs (core s)) →
  sane path → Forall arg_ok argv → length ustack0 = 36%nat →
  ∃ r s', exec kend kdata ustack0 path argv s = Ret (r, s')
    ∧ match file path with
      | None => exec_failed [MExecFail] s l r s'
      | Some c =>
          match plan c argv with
          | None => exec_failed [] s l r s'
          | Some pr => exec_started s l cur p path pr r s' ∨ exec_failed [] s l r s' ∧ short_of_memory l (pr_sz pr)
          end
      end.
Proof.
  intros Hk Hdata Hcur Hp Hcpu C Hrest Hpath Hargs Hu. pose proof (wf_rep _ _ _ _ (ca_wf _ _ _ _ _ _ C)) as R.
  destruct (curproc_run s cur Hcpu Hcur) as (c1 & E1 & Hlev & Hw1). set (s1 := MkKst (set_cpu c1 (lk s)) (core s)) in *.
  assert (Es1 : s1 = upd s1 (km (core s)) (fs (core s))) by (unfold s1, upd; cbn; by destruct (core s)).
  assert (Hfail : ∀ f' r s', rest f' → failed kend (km (core s)) l s1 f' r s' → exec_failed [] s l r s').
  { intros f' r s' Hf (-> & k' & l' & -> & Hr). split; [done|]. exists c1, k', l', f'. by split_and!. }
  match goal with |- ∃ r s', _ ∧ @?P r s' => enough (H : wp (exec kend kdata ustack0 path argv) s P) by exact H end.
  unfold exec. apply wp_bind. exists cur, s1. split; [done|]. rewrite Es1.
  apply wp_bind, wp_file. eapply wp_mono; [by apply xl_begin|]. intros [] f1 H1. cbv beta.
  apply wp_bind, wp_file. eapply wp_mono; [by apply xl_namei|]. intros [ip|] f2 H2; cbv beta iota.
  - destruct H2 as (c & Hc & H2). rewrite Hc. destruct (xl_file path c Hpath Hc) as [Hb Hl].
    apply wp_bind, wp_file. eapply wp_mono; [by eapply xl_ilock|]. intros [] f3 H3. cbv beta.
    eapply wp_mono; [by eapply wp_exec_image|]. intros r s' (f' & Hf' & Ho).
    destruct (plan c argv) as [pr|]; cbn [outcome] in Ho; [|by eapply Hfail].
    destruct Ho as [(-> & d & c' & k' & -> & Hl' & Hw' & Hsw)|[Ho Hs]]; [left|right; split; [by eapply Hfail|done]].
    split; [done|]. exists d, c', k', f'. split_and!; try done. by eapply same_level_trans.
  - destruct H2 as [Hc H2]. rewrite Hc. apply wp_bind, wp_file. eapply wp_mono; [by apply xl_end|].
    intros [] f3 H3. cbv beta. apply wp_bind. eexists tt, _. split; [done|]. wp_step. split; [done|].
    exists c1, (km (core s)), l, f3. by split_and!.
Qed.
End top.
