(* ===== verification/ExecFs.v ===== *)
(** exec over the file system of fs.c: its calls are the functions of Fs, and
    they keep the promises that exec relies on. *)

From S2P Require Import Prelude Params Bytes Sleeplock Ide BufCache Bio Log LogProps Tx Fs.
From S2P Require Import FsAt FsAlloc FsMap FsFile FsInode FsDir FsCache FsPath FsTrunc FsContents FsEx FsProps FileAt FileProps Exec ExecPlan.

Section fs_ops.
Context {X : Type} `{!TxOps X} `{!TxCtl X}.
Context (away : M (fss X) unit) (fuel : nat).
Context (dev_read : Z → option (nat → Z → M (fss X) (Z * list Z))) (junk : list Z).

Definition fs_exec_ops : ExecOps (fss X) := {|
  x_begin_op := on_fx t_begin_op;
  x_end_op := on_fx t_end_op;
  x_namei path := namei away fuel dev_read path junk;
  x_ilock ip := ilock away fuel ip;
  x_readi ip off n := readi dev_read ip off n;
  x_iunlockput ip := iunlockput away fuel ip
|}.
End fs_ops.

Section fs_laws.
Context {X : Type} `{!TxOps X} `{!TxCtl X}.
Context (idle opened : (Z → list Z) → list (Z * list Z) → X → acache → Prop) (recovered : (Z → list Z) → Z → list Z).
Context `{!TxCtlLaws X ROOTDEV idle opened recovered}.
Context (sb : superblock) (cwd : nat) (pid : Z) (Hsb : sb_ok sb).
Context (away : M (fss X) unit) (fuel : nat).
Context (dev_read : Z → option (nat → Z → M (fss X) (Z * list Z))).
Context (junk : list Z) (Hjunk : length junk = 14%nat).

(** The blocks [V] of the disk, the references [m] of the other processes and
    of the current directory [cn]. *)
Context (V : vmap) (m : gmap Z Z) (cn : Z).
Context (Hm : (size m ≤ 48)%nat) (Htree : tree_ok sb V) (Hroot : live sb V ROOTINO) (Hcn : live sb V cn).
Context (Hbytes : ∀ k, Forall (λ b, 0 ≤ b < 256) (V k)).
Abbreviation at_rest := (at_rest idle sb cwd pid).
Abbreviation in_tx := (in_tx opened sb cwd pid).
Abbreviation ic_rep := (ic_rep sb pid).
Abbreviation dino := (dino sb).

Definition target (path : list Z) : option Z :=
  walk sb V false (if bool_decide (hd 0 path = 47) then ROOTINO else cn) (path_elems path).

(** A path without NULs that leads to nothing or to a file or directory. *)
Definition fs_sane (path : list Z) : Prop := Forall (λ c, c ≠ 0) path ∧ ∀ n, target path = Some n → regular sb V n.
Definition fs_file (path : list Z) : option (list Z) := fcontents sb V <$> target path.

(** The entry of the current directory. *)
Definition cwd_in (ic : list inode) : Prop := ∃ p, ic !! cwd = Some p ∧ 0 < i_ref p ∧ i_inum p = cn.

Definition counted : Prop := refs_pos m ∧ cn ∈ dom m.

Definition fs_rest (s : fss X) : Prop := ∃ ic D ws, at_rest s ic D ws V ∧ ic_rep V ic m None ∧ cwd_in ic.
Definition fs_intx (s : fss X) : Prop := ∃ ic D ws, in_tx s ic D ws V V ∅ ∧ ic_rep V ic m None ∧ cwd_in ic.
Definition fs_named (ip : nat) (c : list Z) (s : fss X) : Prop :=
  ∃ ic D ws p, in_tx s ic D ws V V ∅ ∧ ic_rep V ic (inc (i_inum p) m) None ∧ cwd_in ic
    ∧ ic !! ip = Some p ∧ 0 < i_ref p ∧ live sb V (i_inum p) ∧ regular sb V (i_inum p) ∧ counted ∧ c = fcontents sb V (i_inum p).
Definition fs_locked (ip : nat) (c : list Z) (s : fss X) : Prop :=
  ∃ ic D ws p, in_tx s ic D ws V V ∅ ∧ ic_rep V ic (inc (i_inum p) m) (Some ip) ∧ cwd_in ic ∧ ic !! ip = Some p ∧ 0 < i_ref p
    ∧ copy_of sb V (i_inum p) p ∧ live sb V (i_inum p) ∧ regular sb V (i_inum p) ∧ counted ∧ c = fcontents sb V (i_inum p).

Lemma walk_live es : ∀ n k, live sb V n → walk sb V false n es = Some k → live sb V k.
Proof.
  induction es as [|e es IH]; intros n k Hn H; cbn [walk andb] in H; [by simplify_eq|].
  destruct (Z.eqb_spec (i_type (dino V n)) T_DIR) as [Hd|]; [|done]. destruct (dir_get sb V n e) as [j|] eqn:Ej; [|done].
  eapply IH, H. by eapply (proj2 (Htree n Hn Hd)).
Qed.

Lemma target_live path n : target path = Some n → live sb V n.
Proof. unfold target. intros H. eapply walk_live, H. by destruct (bool_decide _). Qed.

Lemma fcontents_bytes n : Forall (λ b, 0 ≤ b < 256) (fcontents sb V n).
Proof. unfold fcontents. apply Forall_fmap, Forall_forall. intros o _. cbn. apply byte_of_range, Hbytes. Qed.

Lemma cwd_counted ic : cwd_in ic → ic_rep V ic m None → counted.
Proof.
  intros (p & Hp & Hr & Hn) R. split; [by eapply cr_pos|]. apply elem_of_dom. exists (i_ref p). rewrite <- Hn. by eapply cr_in.
Qed.

Lemma cwd_stays ic ic' : cwd_in ic → counted → stays m ic ic' → cwd_in ic'.
Proof.
  intros (p & Hp & Hr & Hn) [_ Hc] S. destruct (S cwd p Hp Hr) as (p' & Hp' & Hn' & Hr'); [by rewrite Hn|].
  exists p'. split_and!; [done..|congruence].
Qed.

Abbreviation ops := (fs_exec_ops away fuel dev_read junk).

Lemma fs_begin s : fs_rest s → wp (x_begin_op (ExecOps := ops)) s (λ _ s', fs_intx s').
Proof. intros (ic & D & ws & F & R & C). apply (wp_begin_op idle opened recovered sb cwd pid s ic D ws V _ F). intros s' F'. by exists ic, D, ws. Qed.

Lemma fs_end s : fs_intx s → wp (x_end_op (ExecOps := ops)) s (λ _ s', fs_rest s').
Proof.
  intros (ic & D & ws & F & R & C). apply (wp_end_op idle opened recovered sb cwd pid s ic D ws V V ∅ _ F).
  intros s' w F' _. by exists ic, (apply_writes w D), (ws ++ w).
Qed.

Lemma fs_namei path s : fs_intx s → fs_sane path → wp (x_namei (ExecOps := ops) path) s (λ r s',
  match r with None => fs_file path = None ∧ fs_intx s' | Some ip => ∃ c, fs_file path = Some c ∧ fs_named ip c s' end).
Proof.
  intros (ic & D & ws & F & R & C) [Hnz Hreg]. pose proof C as (pc & Hpc & Hrc & Hnc). cbn. unfold namei. apply wp_bind.
  apply (wp_namex _ sb cwd pid Hsb away fuel dev_read s ic V ∅ m pc path false junk _ F R); try done; [by rewrite size_empty; lia|by rewrite Hnc|].
  intros s1 ic1 r name' F1 Hre Hst _. apply wp_ret. cbn [fst]. pose proof (cwd_counted ic C R) as Hct. pose proof (cwd_stays ic ic1 C Hct Hst) as C1.
  rewrite Hnc in Hre. fold (target path) in Hre. unfold fs_file. destruct (target path) as [n|] eqn:Et; cbn [reached] in Hre.
  - destruct Hre as (ip & p & -> & Hip & <- & Hr & R1). eexists. split; [done|]. exists ic1, D, ws, p.
    split_and!; try done; [by eapply target_live|by apply Hreg].
  - destruct Hre as [-> R1]. split; [done|]. by exists ic1, D, ws.
Qed.

Lemma fs_ilock ip c s : fs_named ip c s → wp (x_ilock (ExecOps := ops) ip) s (λ _ s', fs_locked ip c s').
Proof.
  intros (ic & D & ws & p & F & R & C & Hip & Hr & Hl & Hreg & Hpos & ->). cbn.
  apply (wp_ilock _ sb cwd pid Hsb away fuel s ic V ∅ _ ip p _ F R Hip Hr (proj1 (proj2 Hl))); [rewrite size_empty; lia|].
  intros ic' p' s' F' R' Hip' Hd' Hn' Hr' E' Ho. exists ic', D, ws, p'. rewrite <- Hn' in *. split_and!; try done; [|lia].
  destruct C as (q & Hq & Hrq & Hnq). destruct (decide (cwd = ip)) as [Ec|Hne].
  - exists p'. subst ip. simplify_eq. split_and!; [done|lia|congruence].
  - exists q. by rewrite Ho.
Qed.

Lemma fs_readi ip c s off n :
  fs_locked ip c s → 0 ≤ off < 4294967296 → 0 ≤ n ≤ 4096 →
  wp (x_readi (ExecOps := ops) ip off n) s (λ r s', r = fread c off n ∧ fs_locked ip c s').
Proof.
  intros L Hoff Hn. pose proof L as (ic & D & ws & p & F & R & C & Hip & Hr & Hcp & Hl & Hreg & Hpos & ->). cbn.
  destruct (copy_file sb V _ p Hreg Hcp) as (Hf & _ & _). pose proof Hcp as (Hd & _ & E). apply on_disk_eq in E as (_ & _ & _ & _ & E5 & E6).
  pose proof (fo_size _ _ _ Hf). unfold fread. rewrite fcontents_length, <- E5.
  destruct (Z.ltb_spec (Z.of_nat (Z.to_nat (i_size p))) off) as [Hbig|Hin].
  - unfold readi. apply wp_bind, (wp_geti F Hip). rewrite (proj2 (Z.eqb_neq _ _) (fo_type _ _ _ Hf)).
    rewrite (proj2 (Z.ltb_lt _ _)) by lia. by apply wp_ret.
  - rewrite <- (Z2Nat.id off) at 1 by lia.
    apply (wp_readi _ sb cwd pid Hsb dev_read s ic V ∅ ip p (Z.to_nat off) n _ F Hip Hf); [rewrite size_empty; lia|lia|lia|].
    intros s' F' k. split; [|by exists ic, D, ws, p]. unfold k. f_equal; [lia|].
    unfold fcontents. rewrite <- E5, <- E6, <- fmap_drop, <- fmap_take. f_equal. rewrite drop_seq, take_seq. f_equal; lia.
Qed.

Lemma fs_iunlockput ip c s : fs_locked ip c s → wp (x_iunlockput (ExecOps := ops) ip) s (λ _ s', fs_intx s').
Proof.
  intros (ic & D & ws & p & F & R & C & Hip & Hr & Hcp & Hl & Hreg & Hpos & _). cbn.
  apply (wp_iunlockput _ sb cwd pid away fuel s ic V ∅ _ ip p _ F R Hip Hr Hl). intros ic' s' F' R' K.
  rewrite dec_inc in R' by apply Hpos. exists ic', D, ws. split_and!; [done..|].
  apply (cwd_stays ic); [done..|]. by apply (stays_drop sb pid V ic ic' _ _ m ip p R Hip Hr (proj1 Hpos) (inc_above _ _)).
Qed.

(** C20. fs.c keeps the promises that exec relies on: within a transaction namei
    finds the file that a walk over the directories on disk finds, readi gives
    the bytes asked for of its contents, or -1 beyond its end, and after
    iunlockput and end_op the disk, the reference counts and the entry of the
    current directory are as they were. *)
Theorem fs_exec_laws : ExecLaws (fss X) (XO := ops) fs_sane fs_file fs_rest fs_intx fs_named fs_locked.
Proof.
  split.
  - exact fs_begin.
  - exact fs_end.
  - exact fs_namei.
  - exact fs_ilock.
  - exact fs_readi.
  - exact fs_iunlockput.
  - intros path c [_ Hreg] Hc. unfold fs_file in Hc. apply fmap_Some in Hc as (n & Hn & ->). split; [apply fcontents_bytes|].
    pose proof (fo_size _ _ _ (re_file _ _ _ (Hreg n Hn))). rewrite fcontents_length. lia.
Qed.
End fs_laws.

(** The example disk, with the root for the current directory. *)
Lemma fs_exec_laws_witness :
  ∃ s, fs_rest (tx_rep ROOTDEV bio_rep 2 0) ex_sb 0 3 ex_fsdisk ex_refs 1 s
  ∧ fs_sane ex_sb ex_fsdisk 1 [97] ∧ take 2 <$> fs_file ex_sb ex_fsdisk 1 [97] = Some [104; 105]
  ∧ ExecLaws (fss (lst bst)) (XO := fs_exec_ops (TxCtl0 := ex_ctl) (ret tt) 0 no_dev_read (replicate 14 0))
      (fs_sane ex_sb ex_fsdisk 1) (fs_file ex_sb ex_fsdisk 1)
      (fs_rest (tx_rep ROOTDEV bio_rep 2 0) ex_sb 0 3 ex_fsdisk ex_refs 1)
      (fs_intx (tx_rep ROOTDEV bio_rep 2 1) ex_sb 0 3 ex_fsdisk ex_refs 1)
      (fs_named (tx_rep ROOTDEV bio_rep 2 1) ex_sb 0 3 ex_fsdisk ex_refs 1)
      (fs_locked (tx_rep ROOTDEV bio_rep 2 1) ex_sb 0 3 ex_fsdisk ex_refs 1).
Proof.
  destruct (ex_on_disk 0 ex_fsdisk ex_ic) as [s F]; [apply ex_fsdisk_length|reflexivity|]. exists s. split_and!.
  - exists ex_ic, ex_fsdisk, []. split; [exact F|]. split; [exact ex_ic_rep|]. exists ex_root. split_and!; reflexivity.
  - split; [repeat constructor; discriminate|]. intros n Hn.
    assert (E : target ex_sb ex_fsdisk 1 [97] = Some 2) by (vm_compute; reflexivity). rewrite E in Hn. injection Hn as <-. exact ex_regular.
  - vm_compute. reflexivity.
  - apply (fs_exec_laws (TxCtl0 := ex_ctl) (tx_rep ROOTDEV bio_rep 2 0) (tx_rep ROOTDEV bio_rep 2 1) (logical 2)).
    + exact ex_sb_ok.
    + reflexivity.
    + vm_compute. lia.
    + exact ex_tree.
    + apply ex_live. by left.
    + apply ex_live. by left.
    + exact ex_fsdisk_bytes.
Defined.
