(* ===== verification/ExecEx.v ===== *)
(** exec on a small executable file, with 4000 free pages; and the file
    system of an example disk as the one exec reads from. *)

From S2P Require Import Prelude Params Cstring Kalloc Vm Uvm Spinlock ProcData Proc ProcProps Exec ExecMem ExecSwap ExecPlan ExecProps.

(** * Memory *)

Definition ex_first : Z := ex_kend + 8192.
Definition ex_count : Z := 4000.
Definition ex_next (k : Z) : Z := if k + 1 <? ex_count then ex_first + 4096 * (k + 1) else 0.

(** Free pages, each with the address of the next. *)
Definition ex_pages_mem : mem := λ x,
  let k := (x - ex_first) / 4096 in
  let o := (x - ex_first) mod 4096 in
  if (0 <=? k) && (k <? ex_count) && (o <? 4) then u8 (Z.shiftr (ex_next k) (8 * o)) else 0.
Definition ex_pages : kmem := MkKmem true ex_first ex_pages_mem.
Definition ex_page_list (k : Z) (n : nat) : list Z := (λ i, ex_first + 4096 * (k + Z.of_nat i)) <$> seq 0 n.

Lemma ex_next_word k : 0 ≤ k < ex_count → ld32 ex_pages_mem (ex_first + 4096 * k) = ex_next k.
Proof.
  intros Hk. assert (E : ∀ o, 0 ≤ o < 4 → ex_pages_mem (ex_first + 4096 * k + o) = u8 (Z.shiftr (ex_next k) (8 * o))).
  { intros o Ho. unfold ex_pages_mem. replace ((ex_first + 4096 * k + o - ex_first) / 4096) with k by (Z.div_mod_to_equations; lia).
    replace ((ex_first + 4096 * k + o - ex_first) mod 4096) with o by (Z.div_mod_to_equations; lia).
    by rewrite (proj2 (Z.leb_le _ _)), !(proj2 (Z.ltb_lt _ _)) by lia. }
  unfold ld32. rewrite <- (Z.add_0_r (ex_first + 4096 * k)) at 1. rewrite !E by lia. cbn [Z.mul Pos.mul]. rewrite Z.shiftr_0_r, bytes_combine.
  apply u32_small. unfold ex_next, ex_first, ex_kend, ex_count in *. destruct (_ <? _); lia.
Qed.

Lemma ex_page_ok k : 0 ≤ k < ex_count → page_ok ex_kend (ex_first + 4096 * k).
Proof. intros Hk. unfold page_ok, ex_first, ex_kend, ex_count, KERNBASE, PHYSTOP in *. Z.div_mod_to_equations; lia. Qed.

Lemma ex_chain n : ∀ k, 0 ≤ k → k + Z.of_nat n = ex_count →
  chain ex_kend ex_pages_mem (if (n =? 0)%nat then 0 else ex_first + 4096 * k) (ex_page_list k n).
Proof.
  induction n as [|n IH]; intros k Hk Hn; [constructor|]. cbn [Nat.eqb].
  assert (El : ex_page_list k (S n) = (ex_first + 4096 * k) :: ex_page_list (k + 1) n).
  { unfold ex_page_list. cbn [seq fmap list_fmap]. rewrite <- fmap_S_seq, <- list_fmap_compose. f_equal; [lia|].
    apply list_fmap_ext. intros _ i _. cbn. lia. }
  rewrite El. constructor; [apply ex_page_ok; lia| |].
  - intros (i & E & _)%list_elem_of_fmap. lia.
  - rewrite ex_next_word by lia. specialize (IH (k + 1)). unfold ex_next.
    destruct n; cbn [Nat.eqb] in IH; destruct (Z.ltb_spec (k + 1) ex_count); try lia; apply IH; lia.
Qed.

Lemma ex_pages_rep : kmem_rep ex_kend ex_pages (ex_page_list 0 4000).
Proof.
  split.
  - intros x. cbn. unfold ex_pages_mem. destruct (_ && _); [apply u8_range|lia].
  - exact (ex_chain 4000 0 ltac:(lia) eq_refl).
Qed.

Lemma ex_page_list_out q : q < ex_first → q ∉ ex_page_list 0 4000.
Proof. intros Hq (i & -> & _)%list_elem_of_fmap. lia. Qed.

(** An address space without pages. *)
Lemma ex_no_table i : 0 ≤ i < 1024 → pdt ex_pages_mem ex_kend i = None.
Proof.
  intros Hi. unfold pdt. assert (ld32 ex_pages_mem (ex_kend + 4 * i) = 0) as ->; [|done].
  assert (E : ∀ x, x < ex_first → ex_pages_mem x = 0).
  { intros x Hx. unfold ex_pages_mem. destruct (Z.leb_spec 0 ((x - ex_first) / 4096)); [|done]. Z.div_mod_to_equations; lia. }
  unfold ld32. rewrite !E; unfold ex_first; lia.
Qed.

Lemma ex_no_page q : space_page ex_pages_mem ex_kend q → q = ex_kend.
Proof.
  intros [?|[(i & Hi & H)|(va & Hva & H)]]; [done|by rewrite ex_no_table in H|].
  unfold frame_of, pte_of in H. by rewrite ex_no_table in H by apply PDX_range.
Qed.

Lemma ex_caller : caller ex_kend ex_pages (ex_page_list 0 4000) ex_kend (ex_kend + 4096) (ex_kend + 8116).
Proof.
  split.
  - split; [exact ex_pages_rep|by vm_compute|by apply ex_page_list_out| |]; intros i ?; intros; by rewrite ex_no_table in *.
  - split; intros va *; intros; unfold frame_of, pte_of in *; by rewrite ex_no_table in * by apply PDX_range.
  - by vm_compute.
  - by apply ex_page_list_out.
  - intros H%ex_no_page. done.
  - unfold ex_kend. lia.
Qed.

(** * The file *)

(** One segment of 4 bytes, and 6000 bytes of memory. *)
Definition ex_elf : list Z :=
  [127; 69; 76; 70] ++ replicate 20 0 ++ [0; 0; 0; 0] ++ [52; 0; 0; 0] ++ replicate 12 0 ++ [1; 0] ++ replicate 6 0
  ++ [1; 0; 0; 0] ++ [84; 0; 0; 0] ++ replicate 8 0 ++ [4; 0; 0; 0] ++ [112; 23; 0; 0] ++ replicate 8 0
  ++ [144; 144; 235; 254].
Definition ex_path : list Z := [105; 110; 105; 116].

#[local] Instance ex_ops : ExecOps unit := {|
  x_begin_op := ret tt;
  x_end_op := ret tt;
  x_namei path := ret (if decide (path = ex_path) then Some 0%nat else None);
  x_ilock _ := ret tt;
  x_readi _ off n := ret (fread ex_elf off n);
  x_iunlockput _ := ret tt
|}.
Definition ex_exec_file (path : list Z) : option (list Z) := if decide (path = ex_path) then Some ex_elf else None.

#[local] Instance ex_laws :
  ExecLaws unit (λ _, True) ex_exec_file (λ _, True) (λ _, True) (λ _ c _, c = ex_elf) (λ _ c _, c = ex_elf).
Proof.
  split; try (intros; by eexists _, _).
  - intros path f _ _. eexists _, _. split; [done|]. unfold ex_exec_file. destruct (decide _); [|done]. by exists ex_elf.
  - intros ip c f off n -> _ _. by eexists _, _.
  - intros path c _. unfold ex_exec_file. destruct (decide _); [|done]. intros [= <-]. split; [|by vm_compute].
    apply (bool_decide_unpack _). by vm_compute.
Qed.

Definition ex_argv : list (list Z) := [ex_path; [97; 98; 99]].
Definition ex_caller_proc : proc :=
  MkProc 0 ex_kend (ex_kend + 4096) RUNNING 1 None (ex_kend + 8116) 0 (ChAddr 0) 0 (replicate 16 0) 0 (replicate 16 0) 60 0 0 0.
Definition ex_exec_kst : kst unit := MkKst ex_lkst (set_km ex_pages (ex_core [ex_caller_proc])).

(** exec succeeds. *)
Lemma exec_correct_witness :
  ∃ pr s', plan ex_elf ex_argv = Some pr ∧ pr_sz pr = 16384 ∧ pr_sp pr = 16348 ∧ pr_img pr 1 = 144 ∧ pr_img pr 16372 = 97
    ∧ exec ex_kend (KERNLINK + 4096) (replicate 36 0) ex_path ex_argv ex_exec_kst = Ret (0, s').
Proof.
  destruct (exec_correct (λ _, True) ex_exec_file (λ _, True) (λ _, True) (λ _ c _, c = ex_elf) (λ _ c _, c = ex_elf) ex_kend (KERNLINK + 4096)
    ex_exec_kst (ex_page_list 0 4000) 0 ex_caller_proc ex_path ex_argv (replicate 36 0)) as (r & s' & E & H).
  - reflexivity.
  - split; [reflexivity|]. split; reflexivity.
  - reflexivity.
  - reflexivity.
  - split; [discriminate|]. intros H. discriminate H.
  - exact ex_caller.
  - exact I.
  - exact I.
  - repeat constructor; vm_compute; intuition congruence.
  - reflexivity.
  - assert (Ef : ex_exec_file ex_path = Some ex_elf) by (vm_compute; reflexivity). rewrite Ef in H.
    assert (Ep : (λ pr, (pr_sz pr, pr_sp pr, pr_img pr 1, pr_img pr 16372)) <$> plan ex_elf ex_argv = Some (16384, 16348, 144, 97))
      by (vm_compute; reflexivity).
    destruct (plan ex_elf ex_argv) as [pr|]; [|discriminate Ep]. injection Ep as E1 E2 E3 E4.
    destruct H as [H|[_ H]].
    + exists pr, s'. destruct H as [-> _]. split_and!; [reflexivity|assumption..].
    + exfalso. unfold short_of_memory in H. rewrite E1 in H. unfold ex_page_list in H. rewrite length_fmap, length_seq in H. vm_compute in H. apply H. reflexivity.
Defined.
