(* ===== verification/Sysproc.v ===== *)
(** The system calls on processes, sysproc.c, and the dispatch of syscall.c
    over the real memory: arguments are read through the page table of the
    process, and the trap frame is in kernel memory.

    The state of the file system has the lock of the clock beside it. *)

From S2P Require Import Prelude Params Cstring Kalloc Vm Uvm Spinlock ProcData Proc Syscall.

(** trap.c: struct spinlock tickslock. *)
Record below (F : Type) : Type := MkBelow { tickslock : spinlock; disk : F }.
Arguments MkBelow {F}.
Arguments tickslock {F}.
Arguments disk {F}.
Definition set_tickslock {F} (x : spinlock) (b : below F) : below F := MkBelow x (disk b).

(** The channel &ticks: an address of the data segment. *)
Definition ticks_chan : channel := ChAddr 1.

(** The words of the trap frame. *)
Definition TF_eax : Z := 28.
Definition TF_trapno : Z := 48.
Definition TF_err : Z := 52.
Definition TF_eip : Z := 56.
Definition TF_cs : Z := 60.
Definition TF_esp : Z := 68.

Section sysproc.
Context {F : Type} {FO : FileOps (below F)}.
Context (me : nat) (kend kdata trapret forkret_addr : Z).
Context (away : M (kst (below F)) unit) (fuel : nat).
Abbreviation K := (M (kst (below F))).

Definition on_tickslock {A} (c : M lkst A) : K A := λ s,
  match c (MkLkst (lk_cpu (lk s)) (tickslock (fs (core s)))) with
  | Ret (a, l) => Ret (a, MkKst (MkLkst (lk_cpu l) (lk_lock (lk s))) (set_fs (set_tickslock (lk_lock l) (fs (core s))) (core s)))
  | Panic m => Panic m
  | Undef => Undef
  | OutOfFuel => OutOfFuel
  end.
Definition acquire_ticks : K unit := on_tickslock (acquire me).
Definition release_ticks : K unit := on_tickslock (release me).

(** * Arguments *)

(** The byte, and the int, at a user address; the page table of the process
    is the one in use. *)
Definition user_byte (d a : Z) : M kmem Z := λ s,
  match uaddr (km_mem s) d a with Some x => Ret (km_mem s x, s) | None => Undef end.
Definition user_word (d a : Z) : M kmem Z :=
  b0 <- user_byte d a ;; b1 <- user_byte d (a + 1) ;; b2 <- user_byte d (a + 2) ;; b3 <- user_byte d (a + 3) ;;
  ret (b0 + 256 * b1 + 65536 * b2 + 16777216 * b3).
Definition user_put_byte (d a v : Z) : M kmem unit := λ s,
  match uaddr (km_mem s) d a with Some x => Ret (tt, set_mem (st8 x v (km_mem s)) s) | None => Undef end.
Definition user_put_word (d a v : Z) : M kmem unit :=
  user_put_byte d a v ;;; user_put_byte d (a + 1) (Z.shiftr v 8) ;;;
  user_put_byte d (a + 2) (Z.shiftr v 16) ;;; user_put_byte d (a + 3) (Z.shiftr v 24).

Definition kfetchint (addr : Z) : K (option Z) :=
  cur <- curproc ;;
  p <- on_core (getp cur) ;;
  if (sz p <=? addr) || (sz p <? u32 (addr + 4)) then ret None
  else w <- on_core (on_km (user_word (pgdir p) addr)) ;; ret (Some (s32 w)).

Definition kargint (n : Z) : K (option Z) :=
  cur <- curproc ;;
  p <- on_core (getp cur) ;;
  esp <- on_core (on_km (load32 (tf p + TF_esp))) ;;
  kfetchint (u32 (esp + 4 + 4 * n)).

Definition kargptr (n size : Z) : K (option Z) :=
  cur <- curproc ;;
  i <- kargint n ;;
  match i with
  | None => ret None
  | Some i =>
      p <- on_core (getp cur) ;;
      if (size <? 0) || (sz p <=? u32 i) || (sz p <? u32 (u32 i + size)) then ret None else ret (Some (u32 i))
  end.

(** * sysproc.c *)

Definition sys_fork : K Z := fork me kend kdata trapret forkret_addr.

Definition sys_exit : K Z := exit me away ;;; ret 0.

Definition sys_wait : K Z := wait me kend away fuel.

(** waitx stores the times before it releases ptable.lock; the stores are to
    the memory of the caller and come after the release here. *)
Definition sys_waitx : K Z :=
  wtime <- kargptr 0 4 ;;
  match wtime with
  | None => ret (-2)
  | Some wtime =>
      rtime <- kargptr 1 4 ;;
      match rtime with
      | None => ret (-2)
      | Some rtime =>
          r <- waitx me kend away fuel ;;
          match r.2 with
          | None => ret r.1
          | Some (w, t) =>
              cur <- curproc ;;
              p <- on_core (getp cur) ;;
              on_core (on_km (user_put_word (pgdir p) wtime w)) ;;;
              on_core (on_km (user_put_word (pgdir p) rtime t)) ;;;
              ret r.1
          end
      end
  end.

Definition sys_kill : K Z :=
  pid <- kargint 0 ;;
  match pid with None => ret (-1) | Some pid => kill me pid end.

Definition sys_getpid : K Z :=
  cur <- curproc ;; p <- on_core (getp cur) ;; ret (pid p).

Definition sys_sbrk : K Z :=
  n <- kargint 0 ;;
  match n with
  | None => ret (-1)
  | Some n =>
      cur <- curproc ;;
      p <- on_core (getp cur) ;;
      let addr := s32 (sz p) in
      r <- growproc kend n ;;
      if r <? 0 then ret (-1) else ret addr
  end.

(** The loop of sleep; the comparison is between unsigned numbers. *)
Fixpoint sleep_loop (f : nat) (ticks0 n : Z) : K Z :=
  t <- on_core (gets ticks) ;;
  if u32 (t - ticks0) <? u32 n then
    cur <- curproc ;;
    p <- on_core (getp cur) ;;
    if negb (killed p =? 0) then release_ticks ;;; ret (-1)
    else
      match f with
      | O => out_of_fuel
      | S f' =>
          sleep me away ticks_chan (LkOther acquire_ticks release_ticks) ;;;
          sleep_loop f' ticks0 n
      end
  else release_ticks ;;; ret 0.

Definition sys_sleep : K Z :=
  n <- kargint 0 ;;
  match n with
  | None => ret (-1)
  | Some n =>
      acquire_ticks ;;;
      ticks0 <- on_core (gets ticks) ;;
      sleep_loop fuel ticks0 n
  end.

Definition sys_chprty : K Z :=
  pid <- kargint 0 ;;
  match pid with
  | None => ret (-1)
  | Some pid =>
      pr <- kargint 1 ;;
      match pr with None => ret (-1) | Some pr => chprty me pid pr end
  end.

Definition sys_uptime : K Z :=
  acquire_ticks ;;;
  xticks <- on_core (gets ticks) ;;
  release_ticks ;;;
  ret (s32 xticks).

Definition sys_cps : K Z := cps me.

(** getpinfo copies pstat_var to the address it takes from the arguments,
    word by word; struct proc_stat is five arrays of 64 words and one of
    64 rows of 5. *)
Definition pstat_size : Z := 2560.
Fixpoint put_pstat_ticks (n : nat) (d a i j : Z) (row : list Z) : M kmem unit :=
  match n with
  | O => ret tt
  | S n' =>
      v <- of_option (aget row j) ;;
      user_put_word d (a + 1280 + 20 * i + 4 * j) v ;;;
      put_pstat_ticks n' d a i (j + 1) row
  end.
Fixpoint put_pstat (n : nat) (d a i : Z) (v : proc_stat) : M kmem unit :=
  match n with
  | O => ret tt
  | S n' =>
      x <- of_option (aget (ps_inuse v) i) ;; user_put_word d (a + 4 * i) x ;;;
      x <- of_option (aget (ps_pid v) i) ;; user_put_word d (a + 256 + 4 * i) x ;;;
      x <- of_option (aget (ps_num_run v) i) ;; user_put_word d (a + 768 + 4 * i) x ;;;
      x <- of_option (aget (ps_current_queue v) i) ;; user_put_word d (a + 1024 + 4 * i) x ;;;
      x <- of_option (aget (ps_runtime v) i) ;; user_put_word d (a + 512 + 4 * i) x ;;;
      row <- of_option (aget (ps_ticks v) i) ;; put_pstat_ticks 4 d a i 0 row ;;;
      put_pstat n' d a (i + 1) v
  end.

Definition sys_getpinfo : K Z :=
  px <- kargptr 0 pstat_size ;;
  match px with
  | None => ret 0
  | Some px =>
      cur <- curproc ;;
      p <- on_core (getp cur) ;;
      v <- on_core (gets pstat_var) ;;
      on_core (on_km (put_pstat 64 (pgdir p) px 0 v)) ;;;
      ret 0
  end.

(** * Dispatch *)

(** The entries of [syscalls] for processes; [files] are those of sysfile.c. *)
Definition handler (files : call → K Z) (c : call) : K Z :=
  match c with
  | sysFork => sys_fork | sysExit => sys_exit | sysWait => sys_wait | sysWaitx => sys_waitx | sysKill => sys_kill
  | sysGetpid => sys_getpid | sysSbrk => sys_sbrk | sysSleep => sys_sleep | sysChprty => sys_chprty
  | sysUptime => sys_uptime | sysCps => sys_cps | sysGetpinfo => sys_getpinfo
  | _ => files c
  end.

Definition ksyscall (files : call → K Z) : K unit :=
  cur <- curproc ;;
  p <- on_core (getp cur) ;;
  eax <- on_core (on_km (load32 (tf p + TF_eax))) ;;
  let num := s32 eax in
  let unknown :=
    on_core (print (MUnknownCall (pid p) (name p) num)) ;;;
    p <- on_core (getp cur) ;;
    on_core (on_km (store (st32 (tf p + TF_eax) (u32 (-1))))) in
  if (0 <? num) && (num <? NELEM_syscalls) then
    match assoc num syscalls with
    | Some c =>
        r <- handler files c ;;
        p <- on_core (getp cur) ;;
        on_core (on_km (store (st32 (tf p + TF_eax) (u32 r))))
    | None => unknown
    end
  else unknown.
End sysproc.
