(* ===== verification/SbrkProps.v ===== *)
(** growproc and sbrk: what a process sees of its memory, and which pages it
    owns, before and after. *)

From S2P Require Import Prelude Params Cstring Kalloc Vm Uvm Spinlock ProcData Proc ProcInv ProcProps SchedProps Syscall ExecMem ExecSwap Sysproc.

(** The byte that the process sees at [va]. *)
Definition uview (m : mem) (d va : Z) : option Z := m <$> uaddr m d va.

(** The address space of a process of [sz] bytes: pages up to [sz], none
    above. *)
Record uspace (kend : Z) (k : kmem) (l : list Z) (d sz : Z) : Prop := {
  us_wf : vm_wf kend k d l;
  us_user : user_wf kend k d l;
  us_sz : 0 ≤ sz < KERNBASE;
  us_map : ∀ va, 0 ≤ va < (sz + 4095) / 4096 * 4096 → frame_of (km_mem k) d va ≠ None;
  us_abs : ∀ va, (sz + 4095) / 4096 * 4096 ≤ va < KERNBASE → absent (pte_of (km_mem k) d va)
}.

(** The space goes from [sz] to [sz'] bytes: what is in both is kept, new
    pages are clear, pages move only between the space and the free list, and
    those of others keep their bytes. *)
Record resized (kend d sz sz' : Z) (k : kmem) (l : list Z) (k' : kmem) (l' : list Z) : Prop := {
  rz_space : uspace kend k' l' d sz';
  rz_keep : ∀ va, 0 ≤ va < Z.min ((sz + 4095) / 4096 * 4096) ((sz' + 4095) / 4096 * 4096) → uview (km_mem k') d va = uview (km_mem k) d va;
  rz_new : ∀ va, (sz + 4095) / 4096 * 4096 ≤ va < (sz' + 4095) / 4096 * 4096 → uview (km_mem k') d va = Some 0;
  rz_pages : ∀ q, q ∈ l' ∨ space_page (km_mem k') d q ↔ q ∈ l ∨ space_page (km_mem k) d q;
  rz_frame : ∀ q, page_ok kend q → q ∉ l → ¬ space_page (km_mem k) d q → same_page (km_mem k) (km_mem k') q
}.

Section resize.
Context (kend d : Z) (Hk : KERNBASE < kend) (k : kmem) (l : list Z) (sz : Z) (U : uspace kend k l d sz).
Abbreviation up x := ((x + 4095) / 4096 * 4096).

Lemma uview_ext (m m' : mem) va :
  pte_of m' d va = pte_of m d va → (∀ f, frame_of m d va = Some f → same_page m m' f) → uview m' d va = uview m d va.
Proof.
  intros Hp Hs. unfold uview, uaddr. rewrite (frame_of_ext m) by done. destruct (frame_of m d va) as [f|] eqn:Ef; [|done]. cbn.
  f_equal. symmetry. apply (Hs f eq_refl). unfold in_page. Z.div_mod_to_equations; lia.
Qed.

Lemma not_space q : ¬ space_page (km_mem k) d q → not_table (km_mem k) d q.
Proof. intros H. split; [intros ->; apply H; by left|]. intros i Hi Ht. apply H. right; left. eauto. Qed.

Lemma uspace_frame va f : 0 ≤ va < KERNBASE → frame_of (km_mem k) d va = Some f → page_ok kend f ∧ (f ∉ l) ∧ not_table (km_mem k) d f.
Proof. intros Hva Hf. by apply (uw_frame _ _ _ _ (us_user _ _ _ _ _ U) va). Qed.

(** What is absent has no frame. *)
Lemma absent_frame (m : mem) va : absent (pte_of m d va) → frame_of m d va = None.
Proof. intros H. unfold frame_of. by rewrite H. Qed.

Lemma frame_absent (m : mem) va : frame_of m d va = None → absent (pte_of m d va).
Proof. unfold frame_of, absent. by destruct (Z.eqb_spec (Z.land (pte_of m d va) PTE_P) 0). Qed.

Lemma resized_refl : resized kend d sz sz k l k l.
Proof. split; try done. lia. Qed.

Lemma resized_grown sz' k' l' :
  sz ≤ sz' < KERNBASE → grown kend d k l k' l' (up sz) (up sz') → resized kend d sz sz' k l k' l'.
Proof.
  intros Hsz G. pose proof (us_sz _ _ _ _ _ U). assert (Hup : 0 ≤ up sz ≤ up sz' ∧ up sz' ≤ KERNBASE) by (unfold KERNBASE in *; Z.div_mod_to_equations; lia).
  assert (Hin : ∀ va, up sz ≤ va < up sz' → ∃ f, f ∈ l ∧ page_ok kend f ∧ zeroed (km_mem k') f ∧ frame_of (km_mem k') d va = Some f).
  { intros va Hva. destruct (gr_in _ _ _ _ _ _ _ _ G va Hva) as (f & Hf & Hok & Hz & E). exists f. split_and!; try done.
    destruct (leaf_frame f kend (Z.lor PTE_W PTE_U) Hok) as [Hp Ha]; [by vm_compute|]. unfold frame_of. rewrite E, Ha. by rewrite (proj2 (Z.eqb_neq _ _) Hp). }
  assert (Hout : ∀ va, 0 ≤ va < 4294967296 → va < up sz ∨ up sz' ≤ va → frame_of (km_mem k') d va = frame_of (km_mem k) d va)
    by (intros; apply frame_of_ext; by apply G).
  split.
  - split; [apply G|apply G|lia| |].
    + intros va Hva. destruct (Z.lt_ge_cases va (up sz)); [rewrite Hout by (unfold KERNBASE in *; lia); apply U; lia|].
      destruct (Hin va) as (f & _ & _ & _ & ->); [lia|done].
    + intros va Hva. rewrite (gr_out _ _ _ _ _ _ _ _ G) by (unfold KERNBASE in *; lia). apply U. lia.
  - intros va Hva. apply uview_ext; [apply G; unfold KERNBASE in *; lia|]. intros f Hf.
    destruct (uspace_frame va f) as (? & ? & ?); [lia|done|]. by apply G.
  - intros va Hva. destruct (Hin va Hva) as (f & _ & _ & Hz & Hf). unfold uview, uaddr. rewrite Hf. cbn. f_equal. apply Hz.
    unfold in_page. Z.div_mod_to_equations; lia.
  - intros q. unfold space_page. split.
    + intros [Hq|[->|[(i & Hi & Ht)|(va & Hva & Hf)]]]; [left; by apply G|by right; left| |].
      * destruct (gr_tables _ _ _ _ _ _ _ _ G i q Hi Ht); [right; right; left; eauto|by left].
      * destruct (decide (up sz ≤ va < up sz')) as [Hr|Hr].
        -- destruct (Hin va Hr) as (f & Hfl & _ & _ & Ef). left. congruence.
        -- right; right; right. exists va. split; [done|]. rewrite <- Hout; [done|unfold KERNBASE in *; lia|lia].
    + intros [Hq|[->|[(i & Hi & Ht)|(va & Hva & Hf)]]]; [|by right; left|right; right; left; exists i; split; [done|by apply G]|].
      * destruct (gr_acct _ _ _ _ _ _ _ _ G q Hq) as [?|[?|(va & Hva & Hf)]]; [by left|by right; right; left|].
        right; right; right. exists va. split; [lia|done].
      * right; right; right. exists va. split; [done|]. destruct (decide (up sz ≤ va < up sz')) as [Hr|Hr].
        -- rewrite absent_frame in Hf; [done|]. apply U. lia.
        -- rewrite Hout; [done|unfold KERNBASE in *; lia|lia].
  - intros q Hq Hl Hs. apply G; [done..|by apply not_space].
Qed.

Lemma resized_held newsz k' l' :
  sz ≤ newsz < KERNBASE → held kend d k l k' l' (up sz) newsz [] → absent_from (km_mem k') d (up sz) newsz → resized kend d sz sz k l k' l'.
Proof.
  intros Hsz H A. pose proof (us_sz _ _ _ _ _ U). assert (Hup : 0 ≤ up sz ≤ KERNBASE ∧ up sz mod 4096 = 0) by (unfold KERNBASE in *; Z.div_mod_to_equations; lia).
  assert (Hfr : ∀ va, 0 ≤ va < KERNBASE → frame_of (km_mem k') d va = frame_of (km_mem k) d va).
  { intros va Hva. destruct (decide (up sz ≤ va ∧ va / 4096 * 4096 < newsz)) as [[H1 H2]|Hn].
    - rewrite (absent_frame (km_mem k')) by (by apply A). symmetry. apply absent_frame, U. lia.
    - apply frame_of_ext, H; [unfold KERNBASE in *; lia|lia]. }
  split.
  - split; [apply H|apply H|lia|intros va Hva; rewrite Hfr by lia; by apply U|].
    intros va Hva. apply frame_absent. rewrite Hfr by lia. apply absent_frame, U. lia.
  - intros va Hva. apply uview_ext; [apply H; unfold KERNBASE in *; lia|]. intros f Hf.
    destruct (uspace_frame va f) as (? & ? & ?); [lia|done|]. by apply H.
  - lia.
  - intros q. unfold space_page. split.
    + intros [Hq|[->|[(i & Hi & Ht)|(va & Hva & Hf)]]]; [left; by apply H|by right; left| |].
      * destruct (wf_tab _ _ _ _ (he_wf _ _ _ _ _ _ _ _ _ H) i q Hi Ht) as (Hok & _). destruct (decide (q ∈ l)) as [|Hl]; [by left|].
        destruct (decide (q ∈ dir_tables (km_mem k) d 0 1024)) as [(j & Hj & E)%elem_of_dir_tables|Hn]; [right; right; left; exists j; split; [lia|done]|].
        destruct (decide (q = d)) as [->|Hd]; [by right; left|exfalso].
        assert (Hnt : not_table (km_mem k) d q). { split; [done|]. intros j Hj E. apply Hn, elem_of_dir_tables. exists j. split; [lia|done]. }
        destruct (he_frame _ _ _ _ _ _ _ _ _ H q Hok Hl Hnt) as [[_ Hx] _]. by apply (Hx i).
      * right; right; right. exists va. split; [done|]. by rewrite <- Hfr.
    + intros [Hq|[->|[(i & Hi & Ht)|(va & Hva & Hf)]]]; [|by right; left|right; right; left; exists i; split; [done|by apply H]|].
      * destruct (he_acct _ _ _ _ _ _ _ _ _ H q Hq) as [?|[?|[(va & H1 & H2 & Hf)|Hn]]]; [by left|by right; right; left| |by apply elem_of_nil in Hn].
        by rewrite (absent_frame _ va) in Hf by (by apply A).
      * right; right; right. exists va. split; [done|]. by rewrite Hfr.
  - intros q Hq Hl Hs. apply H; [done..|by apply not_space].
Qed.

Lemma resized_unmapped sz' k' l' fr :
  0 ≤ sz' < sz → unmapped kend d k l k' l' (up sz') sz fr → resized kend d sz sz' k l k' l'.
Proof.
  intros Hsz H. pose proof (us_sz _ _ _ _ _ U).
  assert (Hup : 0 ≤ up sz' ≤ up sz ∧ up sz ≤ KERNBASE ∧ up sz mod 4096 = 0 ∧ up sz' mod 4096 = 0) by (unfold KERNBASE in *; Z.div_mod_to_equations; lia).
  assert (Hin : ∀ va, up sz' ≤ va < KERNBASE → frame_of (km_mem k') d va = None).
  { intros va Hva. destruct (Z.lt_ge_cases (va / 4096 * 4096) sz) as [Hlt|Hge]; [by apply absent_frame, H; [lia..|]|].
    rewrite (frame_of_ext (km_mem k)) by (apply H; [unfold KERNBASE in *; lia|by right]). apply absent_frame, U. split; [|lia].
    Z.div_mod_to_equations; lia. }
  assert (Hout : ∀ va, 0 ≤ va < up sz' → pte_of (km_mem k') d va = pte_of (km_mem k) d va)
    by (intros; apply H; [unfold KERNBASE in *; lia|left; lia]).
  assert (Hfr : ∀ f, f ∈ fr ↔ ∃ va, up sz' ≤ va < KERNBASE ∧ frame_of (km_mem k) d va = Some f).
  { intros f. rewrite (un_frames _ _ _ _ _ _ _ _ _ H). split.
    - intros (va & ? & ? & ? & ?). exists va. split; [lia|done].
    - intros (va & Hva & Hf). exists va. split_and!; try (done || lia). destruct (Z.lt_ge_cases (va / 4096 * 4096) sz); [done|].
      rewrite absent_frame in Hf; [done|]. apply U. split; [|lia]. Z.div_mod_to_equations; lia. }
  assert (Hkeep : ∀ va f, 0 ≤ va < up sz' → frame_of (km_mem k) d va = Some f → f ∉ fr).
  { intros va f Hva Hf (va' & Hva' & Hf')%Hfr.
    pose proof (uw_inj _ _ _ _ (us_user _ _ _ _ _ U) va va' f ltac:(lia) ltac:(lia) Hf Hf'). Z.div_mod_to_equations; lia. }
  split.
  - split; [apply H|apply H|lia|intros va Hva; rewrite (frame_of_ext (km_mem k)) by (by apply Hout); apply U; lia|].
    intros va Hva. by apply frame_absent, Hin.
  - intros va Hva. apply uview_ext; [apply Hout; lia|]. intros f Hf. destruct (uspace_frame va f) as (? & ? & ?); [lia|done|].
    apply H; [done..|]. apply (Hkeep va); [lia|done].
  - lia.
  - intros q. rewrite (un_free _ _ _ _ _ _ _ _ _ H), elem_of_app. unfold space_page. split.
    + intros [[Hq|Hq]|[->|[(i & Hi & Ht)|(va & Hva & Hf)]]]; [|by left|by right; left| |].
      * apply Hfr in Hq as (va & Hva & Hf). right; right; right. exists va. split; [lia|done].
      * right; right; left. exists i. split; [done|]. by rewrite <- (un_pdt _ _ _ _ _ _ _ _ _ H).
      * right; right; right. exists va. split; [done|]. destruct (Z.lt_ge_cases va (up sz')); [|by rewrite Hin in Hf by lia].
        by rewrite <- (frame_of_ext _ (km_mem k')) by (apply Hout; lia).
    + intros [Hq|[->|[(i & Hi & Ht)|(va & Hva & Hf)]]]; [by left; right|by right; left| |].
      * right; right; left. exists i. split; [done|]. by rewrite (un_pdt _ _ _ _ _ _ _ _ _ H).
      * destruct (Z.lt_ge_cases va (up sz')).
        -- right; right; right. exists va. split; [done|]. by rewrite (frame_of_ext (km_mem k)) by (apply Hout; lia).
        -- left; left. apply Hfr. exists va. split; [lia|done].
  - intros q Hq Hl Hs. apply H; [done|by apply not_space|]. intros (va & Hva & Hf)%Hfr. apply Hs. right; right. exists va. split; [lia|done].
Qed.
End resize.

(** * The CPU around myproc *)

(** The locks of [l], after any number of calls of pushcli and popcli. *)
Definition steady (l l' : lkst) : Prop := ∃ c, l' = set_cpu c l ∧ same_level (lk_cpu l) c ∧ cpu_wf c.

Lemma steady_refl l : cpu_wf (lk_cpu l) → steady l l.
Proof. intros H. exists (lk_cpu l). split_and!; [by destruct l|done|done]. Qed.

Lemma steady_set l c c' : steady l (set_cpu c l) → same_level c c' → cpu_wf c' → steady l (set_cpu c' l).
Proof. intros (x & E & Hs & _) Hs' Hw. assert (x = c) as -> by (by injection E). exists c'. split_and!; [done|by eapply same_level_trans|done]. Qed.

Section calls.
Context {F : Type} (l0 : lkst).
Implicit Types (c : kcore F).

Lemma wp_curproc l c cur (Q : nat → kst F → Prop) :
  steady l0 l → cproc c = Some cur → (∀ l', steady l0 l' → Q cur (MkKst l' c)) → wp curproc (MkKst l c) Q.
Proof.
  intros St Hc HQ. pose proof St as (x & -> & Hs & Hw). destruct (curproc_run (MkKst (set_cpu x l0) c) cur Hw Hc) as (c' & E & Hs' & Hw').
  exists cur, (MkKst (set_cpu c' (set_cpu x l0)) c). split; [done|]. apply HQ. by apply (steady_set l0 x c').
Qed.

Lemma wp_getp l c i p (Q : proc → kst F → Prop) : ptable c !! i = Some p → Q p (MkKst l c) → wp (on_core (getp i)) (MkKst l c) Q.
Proof. intros Hp HQ. exists p, (MkKst l c). split; [|done]. by apply on_core_run, getp_run. Qed.

Lemma wp_updp l c i p f (Q : unit → kst F → Prop) :
  ptable c !! i = Some p → Q tt (MkKst l (set_ptable (<[i := f p]> (ptable c)) c)) → wp (on_core (updp i f)) (MkKst l c) Q.
Proof. intros Hp HQ. eexists tt, _. split; [|exact HQ]. by apply (on_core_run _ (MkKst l c)), updp_run. Qed.

Lemma wp_on_km {A} l c (m : M kmem A) (Q : A → kst F → Prop) :
  wp m (km c) (λ a k', Q a (MkKst l (set_km k' c))) → wp (on_core (on_km m)) (MkKst l c) Q.
Proof. intros (a & k' & E & H). exists a, (MkKst l (set_km k' c)). split; [|done]. unfold on_core, on_km. cbn. by rewrite E. Qed.

Lemma set_km_id c : set_km (km c) c = c.
Proof. by destruct c. Qed.

Lemma wp_switchuvm l c cur p (Q : unit → kst F → Prop) :
  steady l0 l → ptable c !! cur = Some p → kstack p ≠ 0 → pgdir p ≠ 0 →
  (∀ l', steady l0 l' → Q tt (MkKst l' (set_cr3 (V2P (pgdir p)) (set_esp0 (kstack p + KSTACKSIZE) c)))) → wp (switchuvm cur) (MkKst l c) Q.
Proof.
  intros St Hp Hks Hpg HQ. pose proof St as (x & -> & Hs & Hw).
  destruct (switchuvm_cpu (MkKst (set_cpu x l0) c) cur p Hw Hp Hks Hpg) as (c' & E & Hs' & Hw'). eexists tt, _. split; [exact E|].
  apply HQ. by apply (steady_set l0 x c').
Qed.
End calls.

(** * Arguments *)

Definition uword (m : mem) (d a : Z) : Z :=
  default 0 (uview m d a) + 256 * default 0 (uview m d (a + 1)) + 65536 * default 0 (uview m d (a + 2)) + 16777216 * default 0 (uview m d (a + 3)).

(** The [n]th argument of the call that the process [p] has made. *)
Definition argval (k : kmem) (p : proc) (n : Z) : option Z :=
  let a := u32 (ld32 (km_mem k) (tf p + TF_esp) + 4 + 4 * n) in
  if (sz p <=? a) || (sz p <? u32 (a + 4)) then None else Some (s32 (uword (km_mem k) (pgdir p) a)).

Section args.
Context {F : Type} (l0 : lkst) (kend : Z).
Implicit Types (c : kcore (below F)).

Lemma wp_user_byte d a k (Q : Z → kmem → Prop) :
  frame_of (km_mem k) d a ≠ None → Q (default 0 (uview (km_mem k) d a)) k → wp (user_byte d a) k Q.
Proof.
  intros Hf HQ. unfold uview, uaddr in *. destruct (frame_of (km_mem k) d a) as [f|] eqn:E; [|done]. cbn in HQ.
  eexists _, k. split; [|exact HQ]. unfold user_byte, uaddr. by rewrite E.
Qed.

Lemma wp_kargint l lf c cur p n (Q : option Z → kst (below F) → Prop) :
  steady l0 l → cproc c = Some cur → ptable c !! cur = Some p → uspace kend (km c) lf (pgdir p) (sz p) →
  (∀ l', steady l0 l' → Q (argval (km c) p n) (MkKst l' c)) → wp (kargint n) (MkKst l c) Q.
Proof.
  intros St Hc Hp U HQ. unfold kargint. apply wp_bind, (wp_curproc l0 _ _ cur); [done..|]. intros l1 St1.
  apply wp_bind, (wp_getp l1 c cur p); [done|]. apply wp_bind, wp_on_km. unfold load32. wp_step. rewrite set_km_id.
  unfold kfetchint. apply wp_bind, (wp_curproc l0 _ _ cur); [done..|]. intros l2 St2. apply wp_bind, (wp_getp l2 c cur p); [done|].
  specialize (HQ l2 St2). unfold argval in HQ. set (a := u32 _) in *. assert (0 ≤ a) by apply u32_range.
  destruct ((sz p <=? a) || (sz p <? u32 (a + 4))) eqn:Eg; [by wp_step|]. apply orb_false_iff in Eg as [E1%Z.leb_gt E2%Z.ltb_ge].
  pose proof (us_sz _ _ _ _ _ U). rewrite u32_small in E2 by (unfold KERNBASE in *; lia).
  assert (Hm : ∀ i, 0 ≤ i < 4 → frame_of (km_mem (km c)) (pgdir p) (a + i) ≠ None) by (intros; apply U; Z.div_mod_to_equations; lia).
  apply wp_bind, wp_on_km. unfold user_word. apply wp_bind, wp_user_byte; [rewrite <- (Z.add_0_r a); apply Hm; lia|].
  do 3 (apply wp_bind, wp_user_byte; [apply Hm; lia|]). wp_step. rewrite set_km_id. by wp_step.
Qed.
End args.

(** * growproc *)

Section grow.
Context {F : Type} (l0 : lkst) (kend : Z) (Hk : KERNBASE < kend).
Context (c : kcore F) (lf : list Z) (cur : nat) (p : proc).
Context (Hc : cproc c = Some cur) (Hp : ptable c !! cur = Some p) (Hks : kstack p ≠ 0).
Context (U : uspace kend (km c) lf (pgdir p) (sz p)) (Hpos : 0 < sz p).
Abbreviation up x := ((x + 4095) / 4096 * 4096).

(** The kernel after a growproc that returns 0. *)
Definition resized_core (sz' : Z) (k' : kmem) : kcore F :=
  set_cr3 (V2P (pgdir p)) (set_esp0 (kstack p + KSTACKSIZE) (set_ptable (<[cur := set_sz sz' p]> (ptable c)) (set_km k' c))).

(** Shrinking to nothing fails after the pages are gone, and shrinking by
    more than there is does nothing. *)
Definition growproc_post (n r : Z) (c' : kcore F) : Prop :=
  if 0 <=? n then
    (r = 0 ∧ ∃ k' l', c' = resized_core (sz p + n) k' ∧ resized kend (pgdir p) (sz p) (sz p + n) (km c) lf k' l')
    ∨ (r = -1 ∧ 0 < n ∧ (KERNBASE ≤ sz p + n ∨ Z.of_nat (length lf) ≤ 1024 + (up (sz p + n) - up (sz p)) / 4096)
       ∧ ∃ k' l', c' = set_km k' c ∧ resized kend (pgdir p) (sz p) (sz p) (km c) lf k' l')
  else if 0 <? sz p + n then
    r = 0 ∧ ∃ k' l', c' = resized_core (sz p + n) k' ∧ resized kend (pgdir p) (sz p) (sz p + n) (km c) lf k' l'
  else if sz p + n =? 0 then
    r = -1 ∧ ∃ k' l', c' = set_km k' c ∧ resized kend (pgdir p) (sz p) 0 (km c) lf k' l'
  else r = 0 ∧ c' = resized_core (sz p) (km c).

Lemma pgdir_nonzero : pgdir p ≠ 0.
Proof. pose proof (page_ok_bounds _ _ (wf_dir _ _ _ _ (us_wf _ _ _ _ _ U))). lia. Qed.

(** The end of growproc. *)
Lemma wp_resize_end l k' sz' (Q : Z → kst F → Prop) :
  steady l0 l → (∀ l', steady l0 l' → Q 0 (MkKst l' (resized_core sz' k'))) →
  wp (on_core (updp cur (set_sz sz')) ;;; switchuvm cur ;;; ret 0) (MkKst l (set_km k' c)) Q.
Proof.
  intros St HQ. apply wp_bind, (wp_updp l _ cur p); [done|]. apply wp_bind, (wp_switchuvm l0 l _ cur (set_sz sz' p)); [done| |done|by apply pgdir_nonzero|].
  - cbn. apply list_lookup_insert_eq. by eapply lookup_lt_Some.
  - intros l' St'. wp_step. by apply HQ.
Qed.

Lemma wp_grow l n (Q : Z → kst F → Prop) :
  steady l0 l → 0 < n < 2147483648 → (∀ r c' l', growproc_post n r c' → steady l0 l' → Q r (MkKst l' c')) →
  wp (r <- (r <- on_core (on_km (allocuvm kend (pgdir p) (sz p) (u32 (sz p + n)))) ;; ret (if r =? 0 then None else Some r)) ;;
      match r with None => ret (-1) | Some sz' => on_core (updp cur (set_sz sz')) ;;; switchuvm cur ;;; ret 0 end) (MkKst l c) Q.
Proof.
  intros St Hn HQ. pose proof (us_sz _ _ _ _ _ U) as Hsz. rewrite u32_small by (unfold KERNBASE in *; lia).
  unfold growproc_post in HQ. rewrite (proj2 (Z.leb_le 0 n)) in HQ by lia. do 2 apply wp_bind. apply wp_on_km.
  destruct (Z.lt_ge_cases (sz p + n) KERNBASE) as [Hlt|Hge].
  - destruct (allocuvm_run kend (pgdir p) (sz p) (sz p + n) (km c) lf) as (r & k' & l' & E & Hr); try (done || lia); [apply U|apply U| |].
    { intros va H1 H2. apply U. unfold KERNBASE in *. Z.div_mod_to_equations; lia. }
    exists r, k'. split; [done|]. wp_step. destruct Hr as [[-> G]|(-> & H & A & Hshort)].
    + destruct (Z.eqb_spec (sz p + n) 0) as [|_]; [lia|]. apply wp_resize_end; [done|]. intros l2 St2. apply HQ; [|done]. left. split; [done|].
      exists k', l'. split; [done|]. by apply resized_grown; [|lia|].
    + cbn [Z.eqb]. wp_step. apply HQ; [|done]. right. split_and!; [done|lia|by right|]. exists k', l'. split; [done|].
      by apply (resized_held _ _ _ _ _ U (sz p + n)); [lia|..].
  - exists 0, (km c). split; [unfold allocuvm; by rewrite (proj2 (Z.leb_le _ _) Hge)|]. cbn [Z.eqb]. do 2 wp_step.
    apply HQ; [|done]. right. split_and!; [done|lia|by left|]. exists (km c), lf. split; [done|by apply resized_refl].
Qed.

Lemma wp_shrink l n (Q : Z → kst F → Prop) :
  steady l0 l → -2147483648 ≤ n < 0 → (∀ r c' l', growproc_post n r c' → steady l0 l' → Q r (MkKst l' c')) →
  wp (r <- (r <- on_core (on_km (deallocuvm kend (pgdir p) (sz p) (u32 (sz p + n)))) ;; ret (if r =? 0 then None else Some r)) ;;
      match r with None => ret (-1) | Some sz' => on_core (updp cur (set_sz sz')) ;;; switchuvm cur ;;; ret 0 end) (MkKst l c) Q.
Proof.
  intros St Hn HQ. pose proof (us_sz _ _ _ _ _ U) as Hsz. unfold growproc_post in HQ. rewrite (proj2 (Z.leb_gt 0 n)) in HQ by lia.
  do 2 apply wp_bind. apply wp_on_km. destruct (Z.lt_ge_cases (sz p + n) 0) as [Hneg|Hge].
  - assert (E : deallocuvm kend (pgdir p) (sz p) (u32 (sz p + n)) (km c) = Ret (sz p, km c)).
    { unfold deallocuvm. replace (u32 (sz p + n)) with (sz p + n + 4294967296)
        by (unfold u32, KERNBASE in *; rewrite <- (Z.mod_add (sz p + n) 1), Z.mod_small; lia).
      destruct (Z.leb_spec (sz p) (sz p + n + 4294967296)); [done|unfold KERNBASE in *; lia]. }
    exists (sz p), (km c). split; [done|]. wp_step. destruct (Z.eqb_spec (sz p) 0) as [|_]; [lia|].
    rewrite (proj2 (Z.ltb_ge 0 _)), (proj2 (Z.eqb_neq _ 0)) in HQ by lia.
    apply wp_resize_end; [done|]. intros l2 St2. by apply HQ.
  - rewrite u32_small by (unfold KERNBASE in *; lia).
    destruct (deallocuvm_correct kend (pgdir p) (sz p) (sz p + n) (km c) lf) as (k' & l' & fr & E & H); try (done || lia); [apply U|apply U|].
    rewrite PGROUNDUP_alt in H by (unfold KERNBASE in *; lia). apply resized_unmapped in H; [|done|lia].
    exists (sz p + n), k'. split; [done|]. wp_step.
    destruct (Z.eqb_spec (sz p + n) 0) as [E0|Hne].
    + rewrite E0 in *. wp_step. apply HQ; [|done]. cbn [Z.ltb Z.compare]. split; [done|]. by exists k', l'.
    + rewrite (proj2 (Z.ltb_lt 0 _)) in HQ by lia. apply wp_resize_end; [done|]. intros l2 St2. apply HQ; [|done]. split; [done|]. by exists k', l'.
Qed.

Lemma wp_growproc l n (Q : Z → kst F → Prop) :
  steady l0 l → -2147483648 ≤ n < 2147483648 → (∀ r c' l', growproc_post n r c' → steady l0 l' → Q r (MkKst l' c')) →
  wp (growproc kend n) (MkKst l c) Q.
Proof.
  intros St Hn HQ. unfold growproc. apply wp_bind, (wp_curproc l0 _ _ cur); [done..|]. intros l1 St1. apply wp_bind, (wp_getp l1 c cur p); [done|].
  destruct (Z.ltb_spec 0 n); [apply wp_grow; [done|lia|done]|]. destruct (Z.ltb_spec n 0); [apply wp_shrink; [done|lia|done]|].
  assert (n = 0) as -> by lia. wp_step. wp_step. rewrite <- (set_km_id c). apply wp_resize_end; [done|]. intros l2 St2. apply HQ; [|done].
  cbn. left. split; [done|]. exists (km c), lf. rewrite Z.add_0_r. split; [done|]. by apply resized_refl.
Qed.
End grow.

(** C16. sbrk.  When the argument [n] is not negative the process grows by [n]
    bytes, new pages clear, and sbrk returns the old size; or it returns -1
    because the size would reach the kernel or pages are short, and the
    process has what it had.  When [n] is negative it shrinks.  Pages move
    only between the process and the free list, and no page is lost.  Two
    cases are not as intended: giving back exactly everything returns -1
    although all pages are gone and the recorded size is the old one, and
    giving back more than everything returns success and does nothing. *)
Theorem sbrk_correct {F} kend (s : kst (below F)) lf cur p n :
  KERNBASE < kend → cpu_wf (lk_cpu (lk s)) → cproc (core s) = Some cur → ptable (core s) !! cur = Some p → kstack p ≠ 0 →
  uspace kend (km (core s)) lf (pgdir p) (sz p) → argval (km (core s)) p 0 = Some n →
  ∃ r l' c', sys_sbrk kend s = Ret (if r <? 0 then -1 else sz p, MkKst l' c') ∧ steady (lk s) l'
    ∧ growproc_post kend (core s) lf cur p n r c'.
Proof.
  intros Hk Hw Hc Hp Hks U Ha. pose proof (us_sz _ _ _ _ _ U) as Hsz.
  assert (Hpos : 0 < sz p).
  { unfold argval in Ha. set (a := u32 _) in Ha. assert (0 ≤ a) by apply u32_range. destruct (Z.leb_spec (sz p) a); [done|lia]. }
  assert (Hn : -2147483648 ≤ n < 2147483648).
  { unfold argval in Ha. destruct (_ || _); [done|]. injection Ha as <-. apply s32_range. }
  enough (H : wp (sys_sbrk kend) s (λ x s', ∃ r l' c', x = (if r <? 0 then -1 else sz p) ∧ s' = MkKst l' c' ∧ steady (lk s) l' ∧ growproc_post kend (core s) lf cur p n r c')).
  { destruct H as (x & s' & E & r & l' & c' & -> & -> & H1 & H2). by exists r, l', c'. }
  pose proof (steady_refl _ Hw) as St. destruct s as [l c]. cbn [lk core] in *. unfold sys_sbrk.
  apply wp_bind, (wp_kargint l kend l lf c cur p); [done..|]. intros l1 St1. rewrite Ha.
  apply wp_bind, (wp_curproc l _ _ cur); [done..|]. intros l2 St2. apply wp_bind, (wp_getp l2 c cur p); [done|].
  rewrite s32_small by (unfold KERNBASE in *; lia). apply wp_bind, (wp_growproc l kend Hk c lf cur p); try done.
  intros r c' l3 Hg St3. exists (if r <? 0 then -1 else sz p), (MkKst l3 c'). split; [by destruct (r <? 0)|]. by exists r, l3, c'.
Qed.

(** A process of one page, with the argument [v] on its stack. *)
Definition ex_arg_mem (v : Z) : kmem := set_mem (st32 (ex_kend + 8196) v (km_mem ex_mapped)) ex_mapped.
Definition ex_arg_proc : proc :=
  MkProc 4096 ex_dir (ex_kend + 16384) RUNNING 1 None (ex_kend + 20404) 0 (ChAddr 0) 0 (replicate 16 0) 0 (replicate 16 0) 60 0 0 0.
Definition ex_arg_core (v : Z) : kcore (below unit) :=
  MkCore (Some 0%nat) [ex_arg_proc] (replicate 5 (-1)) (replicate 5 (replicate 64 None)) zero_pstat
    (Some 0%nat) 3 100 None true 0 0 0 [] [] (ex_arg_mem v) (MkBelow (MkSpinlock 0 None) tt).

Lemma ex_arg_space v : uspace ex_kend (ex_arg_mem v) [ex_kend + 12288] ex_dir 4096.
Proof.
  destruct (touch_page ex_kend ex_dir ex_mapped [ex_kend + 12288] (ex_kend + 8192) (km_mem (ex_arg_mem v))) as (W & U & Hpdt & Hpte);
    [apply ex_mapped_wf|apply ex_mapped_user|by vm_compute| |apply (bool_decide_unpack _); by vm_compute|apply st32_ok, ex_mapped_wf| |].
  - split; [by vm_compute|]. intros i Hi. rewrite ex_mapped_pdt by done. by destruct (i =? 0).
  - intros q Hq Hne x Hx. unfold ex_arg_mem. cbn [km_mem set_mem]. rewrite (st32_other (ex_kend + 8196)); [done|]. pose proof (pages_disjoint ex_kend q (ex_kend + 8192) x Hq ltac:(by vm_compute) Hne Hx) as Hd.
    unfold in_page in Hd. lia.
  - assert (Hfr : ∀ va, 0 ≤ va < KERNBASE → frame_of (km_mem (ex_arg_mem v)) ex_dir va = if va <? 4096 then Some (ex_kend + 8192) else None).
    { intros va Hva. rewrite (frame_of_ext (km_mem ex_mapped)) by apply Hpte. apply ex_mapped_frame. unfold KERNBASE in *; lia. }
    split; [done|done|by vm_compute| |]; change ((4096 + 4095) / 4096 * 4096) with 4096; intros va Hva.
    + rewrite Hfr by (unfold KERNBASE; lia). by destruct (Z.ltb_spec va 4096); [|lia].
    + apply frame_absent. rewrite Hfr by lia. by destruct (Z.ltb_spec va 4096); [lia|].
Qed.

(** The process asks for another page. *)
Lemma sbrk_correct_witness :
  ∃ r l' c', sys_sbrk ex_kend (MkKst ex_lkst (ex_arg_core 4096)) = Ret (if r <? 0 then -1 else 4096, MkKst l' c') ∧ steady ex_lkst l'
    ∧ growproc_post ex_kend (ex_arg_core 4096) [ex_kend + 12288] 0 ex_arg_proc 4096 r c'.
Proof.
  apply (sbrk_correct ex_kend (MkKst ex_lkst (ex_arg_core 4096)) [ex_kend + 12288] 0 ex_arg_proc 4096).
  - reflexivity.
  - split; [discriminate|]. intros H. discriminate H.
  - reflexivity.
  - reflexivity.
  - discriminate.
  - exact (ex_arg_space 4096).
  - vm_compute. reflexivity.
Defined.
