(* ===== verification/SleepProps.v ===== *)
(** The sleep system call against the clock. *)

From S2P Require Import Prelude Params Cstring Kalloc Vm Uvm Spinlock ProcData Proc ProcInv ProcProps SchedProps Syscall Sysproc SbrkProps.

Lemma wp_at {S A} (m m' : M S A) s s' (Q : A → S → Prop) : m s = m' s' → wp m' s' Q → wp m s Q.
Proof. intros E (a & x & H). exists a, x. by rewrite E. Qed.

(** * The lock of the clock *)

Section ticks_lock.
Context {F : Type} (me : nat).
Implicit Types (c : kcore (below F)).

Definition with_tickslock (x : spinlock) c : kcore (below F) := set_fs (set_tickslock x (fs c)) c.

Lemma wp_acquire_ticks l c (Q : unit → kst (below F) → Prop) :
  cpu_wf (lk_cpu l) → locked (tickslock (fs c)) = 0 →
  (∀ x, same_level (pushed (lk_cpu l)) x → cpu_wf x → Q tt (MkKst (set_cpu x l) (with_tickslock (MkSpinlock 1 (Some me)) c))) →
  wp (acquire_ticks me) (MkKst l c) Q.
Proof.
  intros Hw Hl HQ. destruct (acquire_run me (MkLkst (lk_cpu l) (tickslock (fs c))) Hw Hl) as ([x y] & E & Hy & Hs & Hw'). cbn in Hy. subst y.
  exists tt, (MkKst (set_cpu x l) (with_tickslock (MkSpinlock 1 (Some me)) c)). split; [|by apply HQ].
  unfold acquire_ticks, on_tickslock. cbn [lk core]. by rewrite E.
Qed.

Lemma wp_release_ticks l c b (Q : unit → kst (below F) → Prop) :
  cpu_wf b → same_level (pushed b) (lk_cpu l) → cpu_wf (lk_cpu l) → tickslock (fs c) = MkSpinlock 1 (Some me) →
  (∀ x, same_level b x → cpu_wf x → Q tt (MkKst (set_cpu x l) (with_tickslock (MkSpinlock 0 None) c))) →
  wp (release_ticks me) (MkKst l c) Q.
Proof.
  intros Hb Hs Hw Ht HQ. destruct (release_run me (MkLkst b (tickslock (fs c))) (MkLkst (lk_cpu l) (tickslock (fs c)))) as (x & E & Hx & Hwx); [done|by split_and!|].
  exists tt, (MkKst (set_cpu x l) (with_tickslock (MkSpinlock 0 None) c)). split; [|by apply HQ].
  unfold release_ticks, on_tickslock. cbn [lk core]. by rewrite E.
Qed.

Lemma wp_acquire_pt l c (Q : unit → kst (below F) → Prop) :
  cpu_wf (lk_cpu l) → locked (lk_lock l) = 0 →
  (∀ x, same_level (pushed (lk_cpu l)) x → cpu_wf x → Q tt (MkKst (MkLkst x (MkSpinlock 1 (Some me))) c)) →
  wp (acquire_pt me) (MkKst l c) Q.
Proof.
  intros Hw Hl HQ. destruct (acquire_run me l Hw Hl) as ([x y] & E & Hy & Hs & Hw'). cbn in Hy. subst y.
  eexists tt, _. split; [unfold acquire_pt, on_lk; cbn [lk core]; by rewrite E|]. by apply HQ.
Qed.

Lemma wp_release_pt l c b (Q : unit → kst (below F) → Prop) :
  cpu_wf b → same_level (pushed b) (lk_cpu l) → cpu_wf (lk_cpu l) → lk_lock l = MkSpinlock 1 (Some me) →
  (∀ x, same_level b x → cpu_wf x → Q tt (MkKst (MkLkst x (MkSpinlock 0 None)) c)) →
  wp (release_pt me) (MkKst l c) Q.
Proof.
  intros Hb Hs Hw Hl HQ. destruct (release_run me (MkLkst b (MkSpinlock 0 None)) l) as (x & E & Hx & Hwx); [done|by split_and!|].
  eexists tt, _. split; [unfold release_pt, on_lk; cbn [lk core]; by rewrite E|]. by apply HQ.
Qed.
End ticks_lock.

(** * Sleeping *)

Section sleeping.
Context {F : Type} (me : nat) (away : M (kst (below F)) unit) (cur : nat).

(** Asleep on the clock, at the switch: only ptable.lock is held. *)
Definition parked (s : kst (below F)) : Prop :=
  lk_lock (lk s) = MkSpinlock 1 (Some me) ∧ ncli (lk_cpu (lk s)) = 1 ∧ cpu_wf (lk_cpu (lk s)) ∧ cproc (core s) = Some cur
  ∧ (∃ p, ptable (core s) !! cur = Some p ∧ state p = SLEEPING ∧ chan p = ticks_chan) ∧ locked (tickslock (fs (core s))) = 0.

(** The process has its next turn, some ticks later, or because it has been
    killed. *)
Definition woken (s s' : kst (below F)) : Prop :=
  lk_lock (lk s') = MkSpinlock 1 (Some me) ∧ ncli (lk_cpu (lk s')) = 1 ∧ cpu_wf (lk_cpu (lk s')) ∧ cproc (core s') = Some cur
  ∧ locked (tickslock (fs (core s'))) = 0
  ∧ ∃ p k, ptable (core s') !! cur = Some p ∧ 0 ≤ k ≤ 2147483648 ∧ ticks (core s') = u32 (ticks (core s) + k) ∧ (1 ≤ k ∨ killed p ≠ 0).

Context (Haway : ∀ s, parked s → wp away s (λ _ s', woken s s')).

(** In the loop of sleep: the clock's lock is held. *)
Definition ticking (b : cpu) (s : kst (below F)) : Prop :=
  locked (lk_lock (lk s)) = 0 ∧ same_level (pushed b) (lk_cpu (lk s)) ∧ cpu_wf (lk_cpu (lk s)) ∧ cproc (core s) = Some cur
  ∧ (∃ p, ptable (core s) !! cur = Some p) ∧ tickslock (fs (core s)) = MkSpinlock 1 (Some me).

Lemma wp_sleep_ticks b s :
  cpu_wf b → ncli b = 0 → ticking b s →
  wp (sleep me away ticks_chan (LkOther (acquire_ticks me) (release_ticks me))) s (λ _ s', ticking b s'
    ∧ ∃ p k, ptable (core s') !! cur = Some p ∧ 0 ≤ k ≤ 2147483648 ∧ ticks (core s') = u32 (ticks (core s) + k) ∧ (1 ≤ k ∨ killed p ≠ 0)).
Proof.
  intros Hb Hn (Hl & Hs & Hw & Hc & (p & Hp) & Ht). destruct s as [l c]. cbn [lk core] in *. unfold sleep.
  destruct (myproc_run (MkKst l c) Hw) as (x0 & E0 & Hs0 & Hw0). apply wp_bind. eexists _, _. split; [exact E0|]. cbn [lk core]. rewrite Hc.
  apply wp_bind, wp_bind, wp_acquire_pt; [done..|]. intros x1 Hs1 Hw1.
  assert (Hpx : same_level (pushed b) x0) by (by eapply same_level_trans). destruct (pushed_wf b Hb) as [Hpb Hpn].
  apply (wp_release_ticks me _ _ x0); [done..|]. intros x2 Hs2 Hw2.
  apply wp_bind. eexists tt, _. split.
  { apply (on_core_run _ (MkKst _ _)). unfold sleep_core. erewrite bind_ret_eval by (by apply updp_run).
    apply updp_run. apply list_lookup_insert_eq. by eapply lookup_lt_Some. }
  cbn [lk core]. cbn [ptable set_ptable]. rewrite list_insert_insert_eq.
  set (q := set_state SLEEPING (set_chan ticks_chan p)). set (c3 := set_ptable _ _).
  destruct (sched_run me away (MkLkst b (MkSpinlock 0 None)) (MkKst (set_cpu x2 (MkLkst x1 (MkSpinlock 1 (Some me)))) c3) cur q) as (l4 & Hh4 & E4);
    [done|done| |done| |done|].
  { split_and!; [done|by eapply same_level_trans|done]. }
  { cbn. apply list_lookup_insert_eq. by eapply lookup_lt_Some. }
  apply wp_bind, (wp_at _ _ _ _ _ E4), wp_bind. destruct Hh4 as (Hl4 & (Hn4 & He4 & _) & Hw4). cbn in Hn4, He4, Hl4.
  eapply wp_mono; [apply Haway|].
  { split; [done|]. split; [cbn; lia|]. split; [done|]. split; [done|]. split; [|done]. exists q. split_and!; [|done..]. cbn. apply list_lookup_insert_eq. by eapply lookup_lt_Some. }
  intros [] [l5 c5] (H1 & H2 & [H3 H3'] & H4 & H6 & (p5 & k & H5 & H7 & H8 & H9)). cbn [lk core] in *.
  eexists tt, _. split; [done|]. cbn [lk core]. apply wp_bind, (wp_updp _ _ cur p5); [done|].
  apply wp_bind, (wp_release_pt me _ _ b); [done| | |done|].
  { unfold same_level. cbn. split_and!; [lia|by apply H3'; lia|]. intros _. cbn. by rewrite Hn. }
  { unfold cpu_wf. cbn. split; [lia|]. intros _. apply H3'. lia. }
  intros x6 Hs6 Hw6. apply wp_acquire_ticks; [done|done|]. intros x7 Hs7 Hw7. split.
  2: { exists (set_chan (ChAddr 0) p5), k. split; [|split; [done|split; [exact H8|exact H9]]]. cbn. apply list_lookup_insert_eq. by eapply lookup_lt_Some. }
  split_and!; cbn; try done.
  - eapply same_level_trans; [|exact Hs7]. destruct Hs6 as (A1 & A2 & A3). cbn in *. unfold pushed. rewrite A1, A2, Hn. done.
  - eexists. apply list_lookup_insert_eq. by eapply lookup_lt_Some.
Qed.

(** What the call has come to when it returns. *)
Definition slept (b : cpu) (t0 n : Z) (r : Z) (s' : kst (below F)) : Prop :=
  lk_free (lk s') ∧ same_level b (lk_cpu (lk s')) ∧ locked (tickslock (fs (core s'))) = 0
  ∧ ((r = 0 ∧ n ≤ u32 (ticks (core s') - t0))
     ∨ (r = -1 ∧ u32 (ticks (core s') - t0) < n ∧ ∃ p, ptable (core s') !! cur = Some p ∧ killed p ≠ 0)).

Lemma wp_sleep_end b s r t0 n :
  cpu_wf b → ticking b s →
  (r = 0 ∧ n ≤ u32 (ticks (core s) - t0)) ∨ (r = -1 ∧ u32 (ticks (core s) - t0) < n ∧ ∃ p, ptable (core s) !! cur = Some p ∧ killed p ≠ 0) →
  wp (release_ticks me ;;; ret r) s (slept b t0 n).
Proof.
  intros Hb (Hl & Hs & Hw & Hc & (p & Hp) & Ht) Hr. destruct s as [l c]. cbn [lk core] in *.
  apply wp_bind, (wp_release_ticks me _ _ b); [done..|]. intros x Hx Hwx. wp_step. by split_and!.
Qed.

Lemma clock_advance t t0 k : 0 ≤ k → u32 (t - t0) + k < 4294967296 → u32 (u32 (t + k) - t0) = u32 (t - t0) + k.
Proof.
  intros Hk H. unfold u32 in *. rewrite Zminus_mod_idemp_l. replace (t + k - t0) with ((t - t0) + k) by lia.
  rewrite <- Zplus_mod_idemp_l. apply Z.mod_small. pose proof (Z.mod_pos_bound (t - t0) 4294967296). lia.
Qed.

(** Each turn of the loop is a tick nearer to the end, or the process has been
    killed and this is the last one. *)
Lemma wp_sleep_loop b : cpu_wf b → ncli b = 0 → ∀ f s t0 n p,
  ticking b s → 0 ≤ n < 2147483648 → ptable (core s) !! cur = Some p →
  n - u32 (ticks (core s) - t0) ≤ Z.of_nat f ∨ killed p ≠ 0 → wp (sleep_loop me away f t0 n) s (slept b t0 n).
Proof.
  intros Hb Hb0. induction f as [|f IH]; intros s t0 n p T Hn Hp Hf; cbn [sleep_loop]; apply wp_bind;
    (eexists _, s; split; [by destruct s|]); rewrite (u32_small n) by lia; destruct (Z.ltb_spec (u32 (ticks (core s) - t0)) n) as [Hlt|Hge].
  2, 4: apply wp_sleep_end; [done..|by left].
  all: pose proof T as (Hl & Hs & Hw & Hc & _ & Ht); destruct s as [l c]; cbn [lk core] in *.
  all: apply wp_bind, (wp_curproc l _ _ cur); [by apply steady_refl|done|]; intros l1 (x & -> & Hx & Hwx).
  all: assert (T1 : ticking b (MkKst (set_cpu x l) c)) by (split_and!; try done; [by eapply same_level_trans|by exists p]).
  all: apply wp_bind, (wp_getp _ _ cur p); [done|]; destruct (Z.eqb_spec (killed p) 0) as [Hk|Hk]; cbn [negb].
  2, 4: apply wp_sleep_end; [done..|]; right; split_and!; [done..|]; by exists p.
  { lia. }
  apply wp_bind. eapply wp_mono; [by apply (wp_sleep_ticks b)|]. intros [] s' (T' & p' & k & Hp' & Hk1 & E & Hor). apply (IH _ _ _ p'); [done|done|done|].
  cbn [core] in E. destruct Hor as [Hk2|Hk2]; [left|by right]. rewrite E, clock_advance; lia.
Qed.
End sleeping.

(** C17. sleep returns 0 only when the clock has moved on by as many ticks as the
    argument says, and -1 only when the process has been killed; it returns,
    and leaves both locks free and interrupts as they were.  The argument is
    not negative; the process is assumed to have its next turn after a tick
    or a kill, and before the clock has gone half around. *)
Theorem sys_sleep_correct {F} me (away : M (kst (below F)) unit) kend fuel (s : kst (below F)) lf cur p n :
  (∀ s, parked me cur s → wp away s (λ _ s', woken me cur s s')) →
  lk_free (lk s) → ncli (lk_cpu (lk s)) = 0 → locked (tickslock (fs (core s))) = 0 →
  cproc (core s) = Some cur → ptable (core s) !! cur = Some p → uspace kend (km (core s)) lf (pgdir p) (sz p) →
  argval (km (core s)) p 0 = Some n → 0 ≤ n ≤ Z.of_nat fuel →
  ∃ r s', sys_sleep me away fuel s = Ret (r, s') ∧ slept cur (lk_cpu (lk s)) (ticks (core s)) n r s'.
Proof.
  intros Haway [Hw Hl] H0 Ht Hc Hp U Ha Hn.
  assert (Hi : n < 2147483648). { unfold argval in Ha. destruct (_ || _); [done|]. injection Ha as <-. apply s32_range. }
  enough (H : wp (sys_sleep me away fuel) s (slept cur (lk_cpu (lk s)) (ticks (core s)) n)) by exact H.
  destruct s as [l c]. cbn [lk core] in *. unfold sys_sleep.
  apply wp_bind, (wp_kargint l kend l lf c cur p); [by apply steady_refl|done..|]. intros l1 (x & -> & Hx & Hwx). rewrite Ha.
  apply wp_bind, wp_acquire_ticks; [done..|]. intros x1 Hx1 Hwx1. apply wp_bind. eexists _, _. split; [done|]. cbn [core].
  pose proof (proj1 Hx) as Hnx. eapply wp_mono; [eapply (wp_sleep_loop me away cur Haway x)|].
  - done.
  - lia.
  - split_and!; try done. by exists p.
  - lia.
  - cbn. exact Hp.
  - left. cbn. rewrite Z.sub_diag. change (u32 0) with 0. lia.
  - intros r s' (A1 & A2 & A3). split; [done|]. split; [by eapply same_level_trans|exact A3].
Qed.

(** Three ticks; the process has a turn after each. *)
Definition ex_tick : M (kst (below unit)) unit := λ s, Ret (tt, MkKst (lk s) (set_ticks (u32 (ticks (core s) + 1)) (core s))).

Lemma sys_sleep_correct_witness :
  ∃ r s', sys_sleep 0 ex_tick 3 (MkKst ex_lkst (ex_arg_core 3)) = Ret (r, s') ∧ slept 0 (lk_cpu ex_lkst) 100 3 r s'.
Proof.
  apply (sys_sleep_correct 0 ex_tick ex_kend 3 (MkKst ex_lkst (ex_arg_core 3)) [ex_kend + 12288] 0 ex_arg_proc 3).
  - intros s (H1 & H2 & H3 & H4 & (p & H5 & _) & H6). eexists tt, _. split; [reflexivity|]. cbn.
    do 5 (split; [assumption|]). exists p, 1. split; [assumption|]. split; [lia|]. split; [reflexivity|left; lia].
  - split; [split; [discriminate|]; intros H; discriminate H|reflexivity].
  - reflexivity.
  - reflexivity.
  - reflexivity.
  - reflexivity.
  - exact (ex_arg_space 3).
  - vm_compute. reflexivity.
  - lia.
Defined.
