(* ===== verification/Trap.v ===== *)
(** Traps, trap.c: system calls, the clock, devices, and faults.

    The interrupt controller and the devices are parameters: [eoi] is what
    the write to the end-of-interrupt register does, the handlers are those
    of ide.c, kbd.c and uart.c.  The address [tfa] is that of the trap frame
    which the assembly code has built on the kernel stack. *)

From S2P Require Import Prelude Params Cstring Kalloc Vm Uvm Spinlock ProcData Proc ProcInv ProcProps SchedProps Syscall Sysproc SbrkProps SleepProps.

(** mmu.h *)
Definition DPL_USER : Z := 3.

Section trap.
Context {F : Type} {FO : FileOps (below F)}.
Context (me : nat) (kend kdata trapret forkret_addr : Z).
Context (away : M (kst (below F)) unit) (fuel : nat) (files : call → M (kst (below F)) Z).
Context (ideintr kbdintr uartintr : M (kst (below F)) unit) (eoi : F → F) (cr2 : Z).
Abbreviation K := (M (kst (below F))).

Definition lapiceoi : K unit :=
  on_core (modify (λ c, set_fs (MkBelow (tickslock (fs c)) (eoi (disk (fs c)))) c)).

Definition tf_word (a : Z) : K Z := on_core (on_km (load32 a)).
Definition tf_cs (tfa : Z) : K Z := w <- tf_word (tfa + TF_cs) ;; ret (u16 w).

(** myproc()->killed *)
Definition cur_killed : K bool :=
  cur <- curproc ;; p <- on_core (getp cur) ;; ret (negb (killed p =? 0)).

Definition trap_syscall (tfa : Z) : K unit :=
  k <- cur_killed ;;
  (if (k : bool) then exit me away else ret tt) ;;;
  cur <- curproc ;;
  on_core (updp cur (set_tf tfa)) ;;;
  ksyscall me kend kdata trapret forkret_addr away fuel files ;;;
  k <- cur_killed ;;
  if (k : bool) then exit me away else ret tt.

(** The clock; only the first CPU counts. *)
Definition trap_timer : K unit :=
  (if (me =? 0)%nat then
     acquire_ticks me ;;;
     on_core (modify (λ c, set_ticks (u32 (ticks c + 1)) c)) ;;;
     updatestatistics me ;;;
     wakeup me ticks_chan ;;;
     release_ticks me
   else ret tt) ;;;
  lapiceoi.

Definition trap_spurious (tfa : Z) : K unit :=
  cs <- tf_cs tfa ;;
  eip <- tf_word (tfa + TF_eip) ;;
  on_core (print (MSpurious (Z.of_nat me) cs eip)) ;;;
  lapiceoi.

Definition trap_default (tfa trapno : Z) : K unit :=
  o <- myproc ;;
  cs <- tf_cs tfa ;;
  eip <- tf_word (tfa + TF_eip) ;;
  if bool_decide (o = None) || (Z.land cs 3 =? 0) then
    on_core (print (MUnexpectedTrap trapno (Z.of_nat me) eip cr2)) ;;;
    panic "trap"
  else
    cur <- curproc ;;
    p <- on_core (getp cur) ;;
    err <- tf_word (tfa + TF_err) ;;
    on_core (print (MTrapKill (pid p) (name p) trapno err (Z.of_nat me) eip cr2)) ;;;
    on_core (updp cur (set_killed 1)).

(** if(myproc() && myproc()->killed && (tf->cs&3) == DPL_USER) exit(); *)
Definition exit_if_killed (tfa : Z) : K unit :=
  o <- myproc ;;
  match o with
  | None => ret tt
  | Some _ =>
      k <- cur_killed ;;
      cs <- tf_cs tfa ;;
      if (k : bool) && (Z.land cs 3 =? DPL_USER) then exit me away else ret tt
  end.

(** if(myproc() && myproc()->state == RUNNING && tf->trapno == T_IRQ0+IRQ_TIMER) yield(); *)
Definition yield_on_tick (trapno : Z) : K unit :=
  o <- myproc ;;
  match o with
  | None => ret tt
  | Some _ =>
      cur <- curproc ;;
      p <- on_core (getp cur) ;;
      if bool_decide (state p = RUNNING) && (trapno =? T_IRQ0 + IRQ_TIMER) then yield me away else ret tt
  end.

Definition trap_dispatch (tfa trapno : Z) : K unit :=
  if trapno =? T_IRQ0 + IRQ_TIMER then trap_timer
  else if trapno =? T_IRQ0 + IRQ_IDE then ideintr ;;; lapiceoi
  else if trapno =? T_IRQ0 + IRQ_IDE + 1 then ret tt
  else if trapno =? T_IRQ0 + IRQ_KBD then kbdintr ;;; lapiceoi
  else if trapno =? T_IRQ0 + IRQ_COM1 then uartintr ;;; lapiceoi
  else if (trapno =? T_IRQ0 + 7) || (trapno =? T_IRQ0 + IRQ_SPURIOUS) then trap_spurious tfa
  else trap_default tfa trapno.

Definition trap (tfa : Z) : K unit :=
  trapno <- tf_word (tfa + TF_trapno) ;;
  if trapno =? T_SYSCALL then trap_syscall tfa
  else
    trap_dispatch tfa trapno ;;;
    exit_if_killed tfa ;;;
    yield_on_tick trapno ;;;
    exit_if_killed tfa.
End trap.

(** * The clock interrupt *)

Section timer.
Context {F : Type} (me : nat) (eoi : F → F).
Implicit Types (c : kcore (below F)).

(** The kernel after the interrupt is counted and acknowledged. *)
Definition ticked c : kcore (below F) :=
  let c1 := if (me =? 0)%nat then
      set_ptable (wakeup1_proc ticks_chan <$> (updatestatistics_proc <$> ptable c)) (set_ticks (u32 (ticks c + 1)) c)
    else c in
  set_fs (MkBelow (if (me =? 0)%nat then MkSpinlock 0 None else tickslock (fs c)) (eoi (disk (fs c)))) c1.

Lemma wp_lapiceoi l c (Q : unit → kst (below F) → Prop) :
  Q tt (MkKst l (set_fs (MkBelow (tickslock (fs c)) (eoi (disk (fs c)))) c)) → wp (lapiceoi eoi) (MkKst l c) Q.
Proof. intros H. eexists tt, _. split; [done|exact H]. Qed.

(** A short critical section of ptable.lock inside one of the clock. *)
Lemma wp_critical (f : kcore (below F) → kcore (below F)) l c b (Q : unit → kst (below F) → Prop) :
  cpu_wf b → same_level b (lk_cpu l) → cpu_wf (lk_cpu l) → locked (lk_lock l) = 0 →
  (∀ x, same_level b x → cpu_wf x → Q tt (MkKst (MkLkst x (MkSpinlock 0 None)) (f c))) →
  wp (acquire_pt me ;;; on_core (modify f) ;;; release_pt me) (MkKst l c) Q.
Proof.
  intros Hb Hs Hw Hl HQ. apply wp_bind, wp_acquire_pt; [done..|]. intros x1 Hs1 Hw1.
  apply wp_bind. eexists tt, _. split; [done|]. apply (wp_release_pt me _ _ (lk_cpu l)); [done..|].
  intros x2 Hs2 Hw2. apply HQ; [by eapply same_level_trans|done].
Qed.

Lemma wp_trap_timer l c (Q : unit → kst (below F) → Prop) :
  lk_free l → locked (tickslock (fs c)) = 0 → (∀ l', lk_cycled l l' → Q tt (MkKst l' (ticked c))) → wp (trap_timer me eoi) (MkKst l c) Q.
Proof.
  intros [Hw Hl] Ht HQ. unfold trap_timer. unfold ticked in HQ. destruct (me =? 0)%nat.
  2: { do 2 wp_step. apply wp_lapiceoi. apply HQ. by split. }
  apply wp_bind, wp_bind, wp_acquire_ticks; [done..|]. intros x1 Hs1 Hw1. apply wp_bind. eexists tt, _. split; [done|]. cbn [lk core].
  apply wp_bind. unfold updatestatistics, updatestatistics_core. apply (wp_critical _ _ _ x1); [done..|]. intros x2 Hs2 Hw2.
  apply wp_bind. unfold wakeup, wakeup1. apply (wp_critical _ _ _ x1); [done..|]. intros x3 Hs3 Hw3.
  apply (wp_release_ticks me _ _ (lk_cpu l)); [done|by eapply same_level_trans|done|done|]. intros x4 Hs4 Hw4.
  apply wp_lapiceoi. apply HQ. split; [by split|done].
Qed.
End timer.

(** * Theorems *)

Section theorems.
Context {F : Type} {FO : FileOps (below F)}.
Context (me : nat) (kend kdata trapret forkret_addr : Z).
Context (away : M (kst (below F)) unit) (fuel : nat) (files : call → M (kst (below F)) Z).
Context (ideintr kbdintr uartintr : M (kst (below F)) unit) (eoi : F → F) (cr2 : Z).
Abbreviation trap := (trap me kend kdata trapret forkret_addr away fuel files ideintr kbdintr uartintr eoi cr2).
Implicit Types (c : kcore (below F)).

Lemma wp_tf_word l c a (Q : Z → kst (below F) → Prop) : Q (ld32 (km_mem (km c)) a) (MkKst l c) → wp (tf_word a) (MkKst l c) Q.
Proof. intros H. apply wp_on_km. unfold load32. wp_step. by rewrite set_km_id. Qed.

Lemma wp_tf_cs l c tfa (Q : Z → kst (below F) → Prop) : Q (u16 (ld32 (km_mem (km c)) (tfa + TF_cs))) (MkKst l c) → wp (tf_cs tfa) (MkKst l c) Q.
Proof. intros H. apply wp_bind, wp_tf_word. by wp_step. Qed.

Lemma wp_cur_killed l0 l c cur p (Q : bool → kst (below F) → Prop) :
  steady l0 l → cproc c = Some cur → ptable c !! cur = Some p →
  (∀ l', steady l0 l' → Q (negb (killed p =? 0)) (MkKst l' c)) → wp cur_killed (MkKst l c) Q.
Proof.
  intros St Hc Hp HQ. apply wp_bind, (wp_curproc l0 _ _ cur); [done..|]. intros l1 St1. apply wp_bind, (wp_getp _ _ cur p); [done|].
  wp_step. by apply HQ.
Qed.

Lemma wp_myproc l0 l c (Q : option nat → kst (below F) → Prop) :
  steady l0 l → (∀ l', steady l0 l' → Q (cproc c) (MkKst l' c)) → wp myproc (MkKst l c) Q.
Proof.
  intros St HQ. pose proof St as (x & -> & Hs & Hw). destruct (myproc_run (MkKst (set_cpu x l0) c) Hw) as (c' & E & Hs' & Hw').
  eexists _, _. split; [exact E|]. apply HQ. by apply (steady_set l0 x c').
Qed.

(** A process that is not killed passes the check. *)
Lemma wp_exit_if_killed l0 l c cur p tfa (Q : unit → kst (below F) → Prop) :
  steady l0 l → cproc c = Some cur → ptable c !! cur = Some p → killed p = 0 →
  (∀ l', steady l0 l' → Q tt (MkKst l' c)) → wp (exit_if_killed me away tfa) (MkKst l c) Q.
Proof.
  intros St Hc Hp Hk HQ. apply wp_bind, (wp_myproc l0); [done|]. intros l1 St1. rewrite Hc.
  apply wp_bind, (wp_cur_killed l0 _ _ cur p); [done..|]. intros l2 St2. apply wp_bind, wp_tf_cs. rewrite Hk. cbn. wp_step. by apply HQ.
Qed.

Lemma steady_free l l' : lk_free l → steady l l' → lk_cycled l l'.
Proof. intros [Hw Hl] (x & -> & Hs & Hwx). split; [by split|done]. Qed.

Lemma cycled_trans l1 l2 l3 : lk_cycled l1 l2 → lk_cycled l2 l3 → lk_cycled l1 l3.
Proof. intros [_ H1] [H2 H3]. split; [done|by eapply same_level_trans]. Qed.

Lemma cycled_holds l l' l1 : ncli (lk_cpu l) = 0 → lk_cycled l l' → holds me l' l1 → holds me l l1.
Proof.
  intros H0 [_ (Hn & He & _)] (H1 & H2 & H3). split_and!; [done| |done]. unfold same_level, pushed in *. cbn in *. rewrite Hn, He, H0 in H2. by rewrite H0.
Qed.

Lemma ticked_cur c cur p :
  ptable c !! cur = Some p → state p = RUNNING →
  ptable (ticked me eoi c) !! cur = Some (if (me =? 0)%nat then set_rtime (rtime p + 1) p else p).
Proof.
  intros Hp Hs. unfold ticked. destruct (me =? 0)%nat; [|done]. cbn. rewrite !list_lookup_fmap, Hp. cbn. f_equal.
  unfold updatestatistics_proc. rewrite decide_True by done. unfold wakeup1_proc. rewrite decide_False; [done|]. cbn. intros [? _]. congruence.
Qed.

(** C14. The clock interrupts a running process.  The tick is counted, by the
    first CPU only, the running times are, everyone asleep on the clock is
    made runnable, and the interrupt is acknowledged, all before the process
    gives up the CPU: it is RUNNABLE, and the scheduler is reached with only
    ptable.lock held.  None of the checks on the way panics.  When the
    process has its next turn it returns from the trap, unless it was killed
    in between. *)
Theorem timer_preempts (s : kst (below F)) cur p tfa :
  lk_free (lk s) → ncli (lk_cpu (lk s)) = 0 → locked (tickslock (fs (core s))) = 0 →
  cproc (core s) = Some cur → ptable (core s) !! cur = Some p → state p = RUNNING → killed p = 0 →
  ld32 (km_mem (km (core s))) (tfa + TF_trapno) = T_IRQ0 + IRQ_TIMER →
  let c1 := ticked me eoi (core s) in
  let p1 := if (me =? 0)%nat then set_rtime (rtime p + 1) p else p in
  ∃ l1, holds me (lk s) l1 ∧
    trap tfa s = (away ;;;
      on_lk (modify (λ l, set_cpu (MkCpu (ncli (lk_cpu l)) (eflags_if (lk_cpu (lk s))) (eflags_if (lk_cpu l))) l)) ;;;
      release_pt me ;;; exit_if_killed me away tfa) (MkKst l1 (set_ptable (<[cur := set_state RUNNABLE p1]> (ptable c1)) c1)).
Proof.
  intros Hl H0 Ht Hc Hp Hs Hk Hno c1 p1. destruct s as [l c]. cbn [lk core] in *.
  assert (Hp1 : ptable c1 !! cur = Some p1) by (by apply ticked_cur).
  assert (Hk1 : killed p1 = 0) by (unfold p1; by destruct (me =? 0)%nat).
  assert (Hs1 : state p1 = RUNNING) by (unfold p1; by destruct (me =? 0)%nat).
  assert (Hc1 : cproc c1 = Some cur) by (unfold c1, ticked; by destruct (me =? 0)%nat).
  destruct (wp_tf_word l c (tfa + TF_trapno) (λ a s', a = T_IRQ0 + IRQ_TIMER ∧ s' = MkKst l c)) as (a & s' & E & -> & ->); [done|].
  destruct (wp_trap_timer me eoi l c (λ _ s', ∃ l', s' = MkKst l' c1 ∧ lk_cycled l l')) as ([] & s' & E1 & l1 & -> & L1); [done|done|by eauto|].
  pose proof (proj1 (proj1 L1)) as Hw1.
  destruct (wp_exit_if_killed l1 l1 c1 cur p1 tfa (λ _ s', ∃ l', s' = MkKst l' c1 ∧ steady l1 l')) as ([] & s' & E2 & l2 & -> & St2);
    [by apply steady_refl|done..|by eauto|].
  pose proof (cycled_trans _ _ _ L1 (steady_free _ _ (proj1 L1) St2)) as L2. pose proof (proj1 (proj1 L2)) as Hw2.
  destruct (wp_myproc l2 l2 c1 (λ o s', o = Some cur ∧ ∃ l', s' = MkKst l' c1 ∧ steady l2 l')) as (o & s' & E3 & -> & l3 & -> & St3);
    [by apply steady_refl|by eauto|].
  destruct (wp_curproc l2 l3 c1 cur (λ o s', o = cur ∧ ∃ l', s' = MkKst l' c1 ∧ steady l2 l')) as (o & s' & E4 & -> & l4 & -> & St4); [done..|by eauto|].
  pose proof (cycled_trans _ _ _ L2 (steady_free _ _ (proj1 L2) St4)) as L4. destruct (proj2 L4) as (Hn4 & He4 & _).
  destruct (yield_run me away (MkKst l4 c1) cur p1 (proj1 L4)) as (l5 & Hh5 & E5); [cbn; lia|done..|].
  exists l5. split; [by eapply cycled_holds|]. unfold trap. rewrite (bind_ret_eval _ _ _ _ _ E). change (T_IRQ0 + IRQ_TIMER =? T_SYSCALL) with false. cbv iota.
  rewrite (bind_ret_eval _ _ _ _ _ E1), (bind_ret_eval _ _ _ _ _ E2). unfold yield_on_tick. rewrite bind_assoc, (bind_ret_eval _ _ _ _ _ E3).
  rewrite bind_assoc, (bind_ret_eval _ _ _ _ _ E4), bind_assoc, (bind_ret_eval _ _ _ p1 (MkKst l4 c1)) by (by apply on_core_run, getp_run).
  rewrite Hs1. cbn [bool_decide decide_rel]. change (T_IRQ0 + IRQ_TIMER =? T_IRQ0 + IRQ_TIMER) with true. rewrite bool_decide_true by done. cbn [andb].
  unfold bind at 1. rewrite E5. cbn [lk core]. rewrite He4. unfold bind.
  by destruct (away _) as [[[] s6]| | |].
Qed.

(** exit does not return. *)
Lemma bind_stops {A B} (m : M (kst (below F)) A) (k : A → M (kst (below F)) B) s :
  (∀ a s' b s'', k a s' ≠ Ret (b, s'')) → ∀ b s'', bind m k s ≠ Ret (b, s'').
Proof. intros H b s''. unfold bind. destruct (m s) as [[a s']| | |]; [apply H|done..]. Qed.

Lemma exit_no_return s : ∀ a s', exit me away s ≠ Ret (a, s').
Proof.
  unfold exit. apply bind_stops. intros cur s1. apply bind_stops. intros init s2. destruct (decide _); [done|].
  do 11 (apply bind_stops; intros ? ?). done.
Qed.

Lemma exit_then (k : M (kst (below F)) unit) s : (exit me away ;;; k) s = exit me away s.
Proof. pose proof (exit_no_return s) as H. unfold bind. destruct (exit me away s) as [[[] s']| | |]; [by destruct (H tt s')|done..]. Qed.

(** A trap number that is neither the system call nor an interrupt. *)
Definition is_fault (no : Z) : Prop :=
  no ≠ T_SYSCALL ∧ no ≠ T_IRQ0 + IRQ_TIMER ∧ no ≠ T_IRQ0 + IRQ_IDE ∧ no ≠ T_IRQ0 + IRQ_IDE + 1 ∧ no ≠ T_IRQ0 + IRQ_KBD
  ∧ no ≠ T_IRQ0 + IRQ_COM1 ∧ no ≠ T_IRQ0 + 7 ∧ no ≠ T_IRQ0 + IRQ_SPURIOUS.

Lemma fault_dispatch tfa no : is_fault no →
  trap_dispatch me ideintr kbdintr uartintr eoi cr2 tfa no = trap_default me cr2 tfa no.
Proof.
  intros (_ & H1 & H2 & H3 & H4 & H5 & H6 & H7). unfold trap_dispatch.
  by rewrite (proj2 (Z.eqb_neq _ _) H1), (proj2 (Z.eqb_neq _ _) H2), (proj2 (Z.eqb_neq _ _) H3), (proj2 (Z.eqb_neq _ _) H4),
    (proj2 (Z.eqb_neq _ _) H5), (proj2 (Z.eqb_neq _ _) H6), (proj2 (Z.eqb_neq _ _) H7).
Qed.

(** A fault in user mode. *)
Definition faulted c cur p tfa : kcore (below F) :=
  let m := km_mem (km c) in
  set_ptable (<[cur := set_killed 1 p]> (ptable c)) (set_console
    (MTrapKill (pid p) (name p) (ld32 m (tfa + TF_trapno)) (ld32 m (tfa + TF_err)) (Z.of_nat me) (ld32 m (tfa + TF_eip)) cr2 :: console c) c).

Lemma wp_fault_user l0 l c cur p tfa (Q : unit → kst (below F) → Prop) :
  steady l0 l → cproc c = Some cur → ptable c !! cur = Some p → Z.land (u16 (ld32 (km_mem (km c)) (tfa + TF_cs))) 3 = DPL_USER →
  (∀ l', steady l0 l' → Q tt (MkKst l' (faulted c cur p tfa))) → wp (trap_default me cr2 tfa (ld32 (km_mem (km c)) (tfa + TF_trapno))) (MkKst l c) Q.
Proof.
  intros St Hc Hp Hcs HQ. apply wp_bind, (wp_myproc l0); [done|]. intros l1 St1. apply wp_bind, wp_tf_cs, wp_bind, wp_tf_word.
  rewrite Hcs, Hc. cbn [orb]. rewrite bool_decide_false by done. cbn [orb]. change (DPL_USER =? 0) with false. cbv iota.
  apply wp_bind, (wp_curproc l0 _ _ cur); [done..|]. intros l2 St2. apply wp_bind, (wp_getp _ _ cur p); [done|].
  apply wp_bind, wp_tf_word, wp_bind. eexists tt, _. split; [done|]. apply (wp_updp _ _ cur p); [done|]. by apply HQ.
Qed.

(** C15. Faults.  A system call by a process that has been killed is not carried
    out: the process exits.  A fault in user mode marks the process as killed
    and makes it exit.  A fault in the kernel, or with no process, stops the
    machine. *)
Theorem trap_faults (s : kst (below F)) tfa :
  cpu_wf (lk_cpu (lk s)) →
  let no := ld32 (km_mem (km (core s))) (tfa + TF_trapno) in
  let cs := Z.land (u16 (ld32 (km_mem (km (core s))) (tfa + TF_cs))) 3 in
  (∀ cur p, no = T_SYSCALL → cproc (core s) = Some cur → ptable (core s) !! cur = Some p → killed p ≠ 0 →
     ∃ l', steady (lk s) l' ∧ trap tfa s = exit me away (MkKst l' (core s)))
  ∧ (∀ cur p, is_fault no → cs = DPL_USER → cproc (core s) = Some cur → ptable (core s) !! cur = Some p →
     ∃ l', steady (lk s) l' ∧ trap tfa s = exit me away (MkKst l' (faulted (core s) cur p tfa)))
  ∧ (is_fault no → cs = 0 ∨ cproc (core s) = None → trap tfa s = Panic "trap").
Proof.
  intros Hw no cs. destruct s as [l c]. cbn [lk core] in *. pose proof (steady_refl l Hw) as St.
  destruct (wp_tf_word l c (tfa + TF_trapno) (λ a s', a = no ∧ s' = MkKst l c)) as (a & s' & E & -> & ->); [done|]. unfold trap. split_and!.
  - intros cur p Hno Hc Hp Hk. rewrite Hno in E.
    destruct (wp_cur_killed l l c cur p (λ b s', b = true ∧ ∃ l', s' = MkKst l' c ∧ steady l l')) as (b & s' & E1 & -> & l1 & -> & St1); [done..| |].
    { intros l' St'. rewrite (proj2 (Z.eqb_neq _ _) Hk). eauto. }
    exists l1. split; [done|]. rewrite (bind_ret_eval _ _ _ _ _ E). change (T_SYSCALL =? T_SYSCALL) with true. cbv iota. unfold trap_syscall.
    rewrite (bind_ret_eval _ _ _ _ _ E1). by apply exit_then.
  - intros cur p Hf Hcs Hc Hp.
    destruct (wp_fault_user l l c cur p tfa (λ _ s', ∃ l', s' = MkKst l' (faulted c cur p tfa) ∧ steady l l')) as ([] & s' & E1 & l1 & -> & St1); [done..|by eauto|].
    set (c1 := faulted c cur p tfa) in *. assert (Hp1 : ptable c1 !! cur = Some (set_killed 1 p)) by (cbn; apply list_lookup_insert_eq; by eapply lookup_lt_Some).
    destruct (wp_myproc l l1 c1 (λ o s', o = Some cur ∧ ∃ l', s' = MkKst l' c1 ∧ steady l l')) as (o & s' & E2 & -> & l2 & -> & St2); [done|by eauto|].
    destruct (wp_cur_killed l l2 c1 cur (set_killed 1 p) (λ b s', b = true ∧ ∃ l', s' = MkKst l' c1 ∧ steady l l')) as (b & s' & E3 & -> & l3 & -> & St3);
      [done..|by eauto|].
    destruct (wp_tf_cs l3 c1 tfa (λ x s', Z.land x 3 = DPL_USER ∧ s' = MkKst l3 c1)) as (x & s' & E4 & Hx & ->); [done|].
    exists l3. split; [done|]. rewrite (bind_ret_eval _ _ _ _ _ E), (proj2 (Z.eqb_neq _ _) (proj1 Hf)), (fault_dispatch tfa no Hf).
    rewrite (bind_ret_eval _ _ _ _ _ E1). unfold exit_if_killed at 1. rewrite bind_assoc, (bind_ret_eval _ _ _ _ _ E2).
    rewrite bind_assoc, (bind_ret_eval _ _ _ _ _ E3), bind_assoc, (bind_ret_eval _ _ _ _ _ E4), Hx. cbn [andb]. change (DPL_USER =? DPL_USER) with true. cbv iota.
    apply exit_then.
  - intros Hf Hcs. rewrite (bind_ret_eval _ _ _ _ _ E), (proj2 (Z.eqb_neq _ _) (proj1 Hf)), (fault_dispatch tfa no Hf). unfold trap_default.
    destruct (wp_myproc l l c (λ o s', o = cproc c ∧ ∃ l', s' = MkKst l' c ∧ steady l l')) as (o & s' & E2 & -> & l2 & -> & St2); [done|by eauto|].
    destruct (wp_tf_cs l2 c tfa (λ x s', Z.land x 3 = cs ∧ s' = MkKst l2 c)) as (x & s' & E4 & Hx & ->); [done|].
    rewrite bind_assoc, (bind_ret_eval _ _ _ _ _ E2), bind_assoc, (bind_ret_eval _ _ _ _ _ E4).
    destruct (wp_tf_word l2 c (tfa + TF_eip) (λ _ s', s' = MkKst l2 c)) as (y & s' & E5 & ->); [done|]. rewrite bind_assoc, (bind_ret_eval _ _ _ _ _ E5).
    assert (bool_decide (cproc c = None) || (Z.land x 3 =? 0) = true) as ->; [|done].
    rewrite Hx. destruct Hcs as [-> | ->]; [by rewrite orb_true_r|done].
Qed.
End theorems.

(** * Examples *)

#[local] Instance ex_trap_ops : FileOps (below unit) := {|
  filedup x := ret x; fileclose _ := ret tt; idup x := ret x; iput _ := ret tt; begin_op := ret tt; end_op := ret tt;
  namei _ := ret 0; iinit _ := ret tt; initlog _ := ret tt
|}.

(** The process of SbrkProps, with a trap frame of number [no] and code
    segment [cs]. *)
Definition ex_trap_core (no cs : Z) : kcore (below unit) :=
  set_km (set_mem (st32 (ex_kend + 20404 + TF_trapno) no (st32 (ex_kend + 20404 + TF_cs) cs (km_mem ex_mapped))) ex_mapped) (ex_arg_core 0).
Definition ex_trap (tfa : Z) : M (kst (below unit)) unit :=
  trap 0 ex_kend (KERNLINK + 4096) 0 0 (ret tt) 0 (λ _, ret 0) (ret tt) (ret tt) (ret tt) (λ x, x) 0 tfa.

Lemma timer_preempts_witness :
  ∃ l1, holds 0 ex_lkst l1 ∧
    ex_trap (ex_kend + 20404) (MkKst ex_lkst (ex_trap_core 32 27))
    = (ret tt ;;;
      on_lk (modify (λ l, set_cpu (MkCpu (ncli (lk_cpu l)) true (eflags_if (lk_cpu l))) l)) ;;;
      release_pt 0 ;;; exit_if_killed 0 (ret tt) (ex_kend + 20404))
        (MkKst l1 (set_ptable [set_state RUNNABLE (set_rtime 1 ex_arg_proc)] (ticked 0 (λ x, x) (ex_trap_core 32 27)))).
Proof.
  apply (timer_preempts 0 ex_kend (KERNLINK + 4096) 0 0 (ret tt) 0 (λ _, ret 0) (ret tt) (ret tt) (ret tt) (λ x, x) 0
    (MkKst ex_lkst (ex_trap_core 32 27)) 0 ex_arg_proc (ex_kend + 20404)).
  - split; [split; [discriminate|]; intros H; discriminate H|reflexivity].
  - reflexivity.
  - reflexivity.
  - reflexivity.
  - reflexivity.
  - reflexivity.
  - reflexivity.
  - vm_compute. reflexivity.
Defined.

(** A page fault at address 0 of the user code. *)
Lemma trap_faults_witness :
  ∃ l', steady ex_lkst l' ∧ ex_trap (ex_kend + 20404) (MkKst ex_lkst (ex_trap_core 14 27))
    = exit 0 (ret tt) (MkKst l' (faulted 0 0 (ex_trap_core 14 27) 0 ex_arg_proc (ex_kend + 20404))).
Proof.
  destruct (trap_faults 0 ex_kend (KERNLINK + 4096) 0 0 (ret tt) 0 (λ _, ret 0) (ret tt) (ret tt) (ret tt) (λ x, x) 0
    (MkKst ex_lkst (ex_trap_core 14 27)) (ex_kend + 20404)) as (_ & H & _).
  - split; [discriminate|]. intros H. discriminate H.
  - apply (H 0%nat ex_arg_proc).
    + assert (E : ld32 (km_mem (km (core (MkKst ex_lkst (ex_trap_core 14 27))))) (ex_kend + 20404 + TF_trapno) = 14) by (vm_compute; reflexivity).
      rewrite E. repeat split; discriminate.
    + vm_compute. reflexivity.
    + reflexivity.
    + reflexivity.
Defined.
