(* ===== verification/Mp.v ===== *)
(** The tables of a multiprocessor, mp.c: finding them in memory and reading
    the processors and interrupt controllers they describe. *)

From S2P Require Import Prelude Params Cstring Kalloc.

(** mp.h *)
Definition MP_SIZE : Z := 16.        (* sizeof(struct mp) *)
Definition MPCONF_SIZE : Z := 44.    (* sizeof(struct mpconf) *)
Definition MPPROC_SIZE : Z := 20.    (* sizeof(struct mpproc) *)
Definition MPIOAPIC_SIZE : Z := 8.   (* sizeof(struct mpioapic) *)
Definition MPPROC : Z := 0.
Definition MPBUS : Z := 1.
Definition MPIOAPIC : Z := 2.
Definition MPIOINTR : Z := 3.
Definition MPLINTR : Z := 4.

(** What mpinit sets: cpus[i].apicid, ncpu, ioapicid, lapic; and the bytes
    it sends to ports. *)
Record mpst : Type := MkMp {
  apicids : list Z;       (* NCPU entries *)
  ncpu : Z;
  ioapicid : Z;
  lapic : Z;
  mp_out : list (Z * Z)
}.

Section mp.
Context (m : mem).

Fixpoint mp_sum_loop (n : nat) (a : Z) : Z :=
  match n with O => 0 | S n' => m a + mp_sum_loop n' (a + 1) end.
(** sum; the total is an int cut to a uchar. *)
Definition mp_sum (addr len : Z) : Z := u8 (mp_sum_loop (Z.to_nat len) addr).

(** memcmp(p, l, strlen(l)) == 0 *)
Fixpoint sig_at (a : Z) (l : list Z) : bool :=
  match l with [] => true | b :: l' => (m a =? b) && sig_at (a + 1) l' end.

Definition MP_SIG : list Z := [95; 77; 80; 95].         (* "_MP_" *)
Definition PCMP_SIG : list Z := [80; 67; 77; 80].       (* "PCMP" *)

Fixpoint mpsearch1_loop (f : nat) (p e : Z) : option Z :=
  match f with
  | O => None
  | S f' =>
      if p <? e then
        if sig_at p MP_SIG && (mp_sum p MP_SIZE =? 0) then Some p else mpsearch1_loop f' (p + MP_SIZE) e
      else None
  end.
Definition mpsearch1 (a len : Z) : option Z :=
  let addr := P2V a in mpsearch1_loop (Z.to_nat (len / MP_SIZE + 1)) addr (addr + len).

Definition mpsearch : option Z :=
  let bda := P2V 1024 in
  let p := Z.shiftl (Z.lor (Z.shiftl (m (bda + 15)) 8) (m (bda + 14))) 4 in
  let first :=
    if negb (p =? 0) then mpsearch1 p 1024
    else mpsearch1 (u32 (Z.lor (Z.shiftl (m (bda + 20)) 8) (m (bda + 19)) * 1024 - 1024)) 1024 in
  match first with
  | Some mp => Some mp
  | None => mpsearch1 983040 65536
  end.

Definition ld16 (a : Z) : Z := m a + 256 * m (a + 1).

(** The fields of the two structures. *)
Definition mp_physaddr (p : Z) : Z := ld32 m (p + 4).
Definition mp_imcrp (p : Z) : Z := m (p + 12).
Definition conf_length (c : Z) : Z := ld16 (c + 4).
Definition conf_version (c : Z) : Z := m (c + 6).
Definition conf_lapicaddr (c : Z) : Z := ld32 m (c + 36).

(** mpconfig: the structure and the table; the messages are left out. *)
Definition mpconfig : option (Z * Z) :=
  match mpsearch with
  | None => None
  | Some mp =>
      if mp_physaddr mp =? 0 then None
      else
        let conf := P2V (mp_physaddr mp) in
        if negb (sig_at conf PCMP_SIG) then None
        else if negb (conf_version conf =? 1) && negb (conf_version conf =? 4) then None
        else if negb (mp_sum conf (conf_length conf) =? 0) then None
        else Some (mp, conf)
  end.

(** One entry of the table.  An entry of another type leaves the switch, not
    the loop, and [p] stays where it is. *)
Definition mp_entry (p : Z) (s : mpst) : Z * bool * mpst :=
  let t := m p in
  if t =? MPPROC then
    (p + MPPROC_SIZE, true,
     if ncpu s <? 8 then MkMp (<[Z.to_nat (ncpu s) := m (p + 1)]> (apicids s)) (ncpu s + 1) (ioapicid s) (lapic s) (mp_out s) else s)
  else if t =? MPIOAPIC then (p + MPIOAPIC_SIZE, true, MkMp (apicids s) (ncpu s) (m (p + 1)) (lapic s) (mp_out s))
  else if (t =? MPBUS) || (t =? MPIOINTR) || (t =? MPLINTR) then (p + 8, true, s)
  else (p, false, s).

Fixpoint mp_loop (f : nat) (p e : Z) (ismp : bool) : M mpst bool :=
  if p <? e then
    match f with
    | O => out_of_fuel
    | S f' => λ s, let '(p', ok, s') := mp_entry p s in mp_loop f' p' e (ismp && ok) s'
    end
  else ret ismp.

Definition mp_outb (port v : Z) : M mpst unit :=
  modify (λ s, MkMp (apicids s) (ncpu s) (ioapicid s) (lapic s) (mp_out s ++ [(port, v)])).

(** mpinit; [in23] is what the port 0x23 gives. *)
Definition mpinit (fuel : nat) (in23 : Z) : M mpst unit :=
  match mpconfig with
  | None => panic "Expect to run on an SMP"
  | Some (mp, conf) =>
      modify (λ s, MkMp (apicids s) (ncpu s) (ioapicid s) (conf_lapicaddr conf) (mp_out s)) ;;;
      ismp <- mp_loop fuel (conf + MPCONF_SIZE) (conf + conf_length conf) true ;;
      if negb ismp then panic "Didn't find a suitable machine"
      else if negb (mp_imcrp mp =? 0) then
        mp_outb 34 112 ;;;
        mp_outb 35 (Z.lor in23 1)
      else ret tt
  end.
End mp.

(** * Searching *)

Section search.
Context (m : mem).

(** A valid structure at [p]. *)
Definition mp_at (p : Z) : Prop := sig_at m p MP_SIG = true ∧ mp_sum m p MP_SIZE = 0.

(** The search finds the first structure on a 16-byte step of the area. *)
Lemma mpsearch1_loop_spec f : ∀ p e,
  e - p < 16 * Z.of_nat f →
  match mpsearch1_loop m f p e with
  | Some q => ∃ k, 0 ≤ k ∧ q = p + 16 * k ∧ q < e ∧ mp_at q ∧ ∀ j, 0 ≤ j < k → ¬ mp_at (p + 16 * j)
  | None => ∀ k, 0 ≤ k → p + 16 * k < e → ¬ mp_at (p + 16 * k)
  end.
Proof.
  induction f as [|f IH]; intros p e Hf; cbn [mpsearch1_loop]; [intros k ??; lia|].
  destruct (Z.ltb_spec p e) as [Hlt|Hge]; [|intros k ??; lia].
  destruct (sig_at m p MP_SIG && (mp_sum m p MP_SIZE =? 0)) eqn:E.
  - apply andb_true_iff in E as [E1 E2%Z.eqb_eq]. exists 0. rewrite Z.mul_0_r, Z.add_0_r. split_and!; try (done || lia).
  - assert (Hno : ¬ mp_at p). { intros [H1 H2]. rewrite H1, H2 in E. done. }
    unfold MP_SIZE. specialize (IH (p + 16) e). destruct (mpsearch1_loop m f (p + 16) e) as [q|].
    + destruct IH as (k & Hk & -> & Hq & Hat & Hmin); [lia|]. exists (k + 1). split_and!; try (done || lia).
      intros j Hj. destruct (Z.eq_dec j 0) as [->|]; [by rewrite Z.mul_0_r, Z.add_0_r|].
      replace (p + 16 * j) with (p + 16 + 16 * (j - 1)) by lia. apply Hmin. lia.
    + intros k Hk Hlt2. destruct (Z.eq_dec k 0) as [->|]; [by rewrite Z.mul_0_r, Z.add_0_r|].
      replace (p + 16 * k) with (p + 16 + 16 * (k - 1)) by lia. apply IH; lia.
Qed.

(** [q] is the first structure of the [len] bytes at [a]. *)
Definition first_mp (a len q : Z) : Prop :=
  ∃ k, 0 ≤ k ∧ q = P2V a + 16 * k ∧ q < P2V a + len ∧ mp_at q ∧ ∀ j, 0 ≤ j < k → ¬ mp_at (P2V a + 16 * j).
Definition no_mp (a len : Z) : Prop := ∀ k, 0 ≤ k → 16 * k < len → ¬ mp_at (P2V a + 16 * k).

Lemma mpsearch1_spec a len : 0 ≤ len → match mpsearch1 m a len with Some q => first_mp a len q | None => no_mp a len end.
Proof.
  intros Hl. unfold mpsearch1, MP_SIZE. pose proof (mpsearch1_loop_spec (Z.to_nat (len / 16 + 1)) (P2V a) (P2V a + len)) as H.
  destruct (mpsearch1_loop _ _ _ _) as [q|].
  - apply H. Z.div_mod_to_equations; lia.
  - intros k Hk Hlt. apply H; [Z.div_mod_to_equations; lia|done|lia].
Qed.

(** The first area to be searched: the start of the extended BIOS data area,
    or the end of base memory. *)
Definition ebda : Z := Z.shiftl (Z.lor (Z.shiftl (m (P2V 1024 + 15)) 8) (m (P2V 1024 + 14))) 4.
Definition base_top : Z := Z.lor (Z.shiftl (m (P2V 1024 + 20)) 8) (m (P2V 1024 + 19)) * 1024.
Definition area1 : Z := if ebda =? 0 then u32 (base_top - 1024) else ebda.

(** The structure to be used: the first of that area or else of the BIOS ROM,
    of which mp.c takes the upper half, from 0xF0000 on. *)
Definition designated (q : Z) : Prop := first_mp area1 1024 q ∨ (no_mp area1 1024 ∧ first_mp 983040 65536 q).

Lemma first_mp_unique a len q q' : first_mp a len q → first_mp a len q' → q = q'.
Proof.
  intros (k & Hk & -> & _ & Hq & Hmin) (k' & Hk' & -> & _ & Hq' & Hmin').
  destruct (Z.lt_trichotomy k k') as [H|[->|H]]; [by destruct (Hmin' k)|done|by destruct (Hmin k')].
Qed.

Lemma first_mp_none a len q : first_mp a len q → ¬ no_mp a len.
Proof. intros (k & Hk & -> & Hlt & Hq & _) H. apply (H k); [lia|lia|done]. Qed.

Lemma mpsearch_designated q : designated q → mpsearch m = Some q.
Proof.
  intros Hd. unfold mpsearch. fold ebda base_top. assert (E : (if negb (ebda =? 0) then mpsearch1 m ebda 1024 else mpsearch1 m (u32 (base_top - 1024)) 1024) = mpsearch1 m area1 1024).
  { unfold area1. by destruct (ebda =? 0). }
  rewrite E. pose proof (mpsearch1_spec area1 1024 ltac:(lia)) as H1. pose proof (mpsearch1_spec 983040 65536 ltac:(lia)) as H2.
  destruct Hd as [Hd|[Hn Hd]].
  - destruct (mpsearch1 m area1 1024) as [q'|]; [f_equal; by eapply first_mp_unique|by apply first_mp_none in Hd].
  - destruct (mpsearch1 m area1 1024) as [q'|]; [by apply first_mp_none in H1|].
    destruct (mpsearch1 m 983040 65536) as [q'|]; [f_equal; by eapply first_mp_unique|by apply first_mp_none in Hd].
Qed.
End search.

(** * Tables *)

(** An entry: its type and what is used of it, with the other bytes. *)
Inductive mpent : Type :=
| EProc (apicid : Z) (others : list Z)       (* 18 other bytes *)
| EBus (others : list Z)                     (* 7 *)
| EIoapic (apicno : Z) (others : list Z)     (* 6 *)
| EIoint (others : list Z)                   (* 7 *)
| ELint (others : list Z).                   (* 7 *)

Definition ent_ok (e : mpent) : Prop :=
  match e with
  | EProc _ o => length o = 18%nat
  | EIoapic _ o => length o = 6%nat
  | EBus o | EIoint o | ELint o => length o = 7%nat
  end.
Definition ent_bytes (e : mpent) : list Z :=
  match e with
  | EProc i o => MPPROC :: i :: o
  | EBus o => MPBUS :: o
  | EIoapic i o => MPIOAPIC :: i :: o
  | EIoint o => MPIOINTR :: o
  | ELint o => MPLINTR :: o
  end.

(** What an entry says; processors beyond the eighth are not counted. *)
Definition ent_apply (s : mpst) (e : mpent) : mpst :=
  match e with
  | EProc i _ => if ncpu s <? 8 then MkMp (<[Z.to_nat (ncpu s) := i]> (apicids s)) (ncpu s + 1) (ioapicid s) (lapic s) (mp_out s) else s
  | EIoapic i _ => MkMp (apicids s) (ncpu s) i (lapic s) (mp_out s)
  | _ => s
  end.

Definition holds_bytes (m : mem) (a : Z) (l : list Z) : Prop := ∀ i b, l !! i = Some b → m (a + Z.of_nat i) = b.

Lemma holds_bytes_app m a l l' : holds_bytes m a (l ++ l') ↔ holds_bytes m a l ∧ holds_bytes m (a + Z.of_nat (length l)) l'.
Proof.
  unfold holds_bytes. split.
  - intros H. split; intros i b Hi; [apply H; by apply lookup_app_l_Some|].
    replace (a + Z.of_nat (length l) + Z.of_nat i) with (a + Z.of_nat (length l + i)) by lia. apply H. by rewrite lookup_app_r, Nat.add_comm, Nat.add_sub by lia.
  - intros [H1 H2] i b Hi. apply lookup_app_Some in Hi as [Hi|[Hl Hi]]; [by apply H1|].
    replace (a + Z.of_nat i) with (a + Z.of_nat (length l) + Z.of_nat (i - length l)) by lia. by apply H2.
Qed.

Lemma mp_entry_ok m p s e : ent_ok e → holds_bytes m p (ent_bytes e) → mp_entry m p s = (p + Z.of_nat (length (ent_bytes e)), true, ent_apply s e).
Proof.
  intros Hok H. assert (H0 : m p = nth 0 (ent_bytes e) 0).
  { rewrite <- (Z.add_0_r p). apply (H 0%nat). by destruct e. }
  unfold mp_entry. rewrite H0. destruct e as [i o|o|i o|o|o]; cbn in *; rewrite ?Hok; try done;
    pose proof (H 1%nat i eq_refl) as E; change (Z.of_nat 1) with 1 in E; by rewrite E.
Qed.

Lemma mp_loop_entries m es : ∀ fuel p s,
  Forall ent_ok es → holds_bytes m p (concat (ent_bytes <$> es)) → (length es ≤ fuel)%nat →
  mp_loop m fuel p (p + Z.of_nat (length (concat (ent_bytes <$> es)))) true s = Ret (true, foldl ent_apply s es).
Proof.
  induction es as [|e es IH]; intros fuel p s Hok H Hf; cbn [fmap list_fmap concat length foldl] in *.
  { rewrite Z.add_0_r. destruct fuel; cbn [mp_loop]; by rewrite Z.ltb_irrefl. }
  apply Forall_cons in Hok as [Ho Hok]. apply holds_bytes_app in H as [H1 H2]. rewrite length_app.
  assert (0 < Z.of_nat (length (ent_bytes e))) by (destruct e; simpl; lia).
  destruct fuel as [|fuel]; [lia|]. cbn [mp_loop]. destruct (Z.ltb_spec p (p + Z.of_nat (length (ent_bytes e) + length (concat (ent_bytes <$> es))))); [|lia].
  rewrite (mp_entry_ok m p s e) by done. cbn [andb]. rewrite Nat2Z.inj_add, Z.add_assoc. apply IH; [done..|lia].
Qed.

Definition set_lapic (x : Z) (s : mpst) : mpst := MkMp (apicids s) (ncpu s) (ioapicid s) x (mp_out s).
Definition add_out (l : list (Z * Z)) (s : mpst) : mpst := MkMp (apicids s) (ncpu s) (ioapicid s) (lapic s) (mp_out s ++ l).

(** A valid structure designates a valid table at [conf]. *)
Record mp_tables (m : mem) (mp conf : Z) : Prop := {
  mt_mp : designated m mp;
  mt_phys : mp_physaddr m mp ≠ 0;
  mt_conf : conf = P2V (mp_physaddr m mp);
  mt_sig : sig_at m conf PCMP_SIG = true;
  mt_version : conf_version m conf = 1 ∨ conf_version m conf = 4;
  mt_sum : mp_sum m conf (conf_length m conf) = 0
}.

Lemma mpconfig_tables m mp conf : mp_tables m mp conf → mpconfig m = Some (mp, conf).
Proof.
  intros [H1 H2 -> H4 H5 H6]. unfold mpconfig. rewrite (mpsearch_designated m mp H1), (proj2 (Z.eqb_neq _ _) H2), H4. cbn [negb].
  rewrite H6. destruct H5 as [-> | ->]; done.
Qed.

(** C37. mpinit reads the tables back.  When the memory has an MP structure that
    designates a table, with right signatures and checksums, whose body is
    the encoding of a list of entries, mpinit returns with the processors of
    the list, at most eight of them, in order, the last I/O interrupt
    controller and the address of the local ones; it masks external
    interrupts exactly when the structure asks for it. *)
Theorem mpinit_correct m mp conf es fuel in23 s :
  mp_tables m mp conf → Forall ent_ok es → holds_bytes m (conf + MPCONF_SIZE) (concat (ent_bytes <$> es)) →
  conf_length m conf = MPCONF_SIZE + Z.of_nat (length (concat (ent_bytes <$> es))) → (length es ≤ fuel)%nat →
  mpinit m fuel in23 s = Ret (tt, add_out (if mp_imcrp m mp =? 0 then [] else [(34, 112); (35, Z.lor in23 1)])
    (foldl ent_apply (set_lapic (conf_lapicaddr m conf) s) es)).
Proof.
  intros Ht Hok Hb Hl Hf. unfold mpinit. rewrite (mpconfig_tables m mp conf Ht). rewrite (bind_ret_eval _ _ _ tt (set_lapic (conf_lapicaddr m conf) s)) by done.
  rewrite Hl, Z.add_assoc. erewrite bind_ret_eval by (by apply mp_loop_entries). cbn [negb].
  set (s' := foldl _ _ _). destruct (mp_imcrp m mp =? 0); cbn [negb].
  - unfold ret, add_out. rewrite app_nil_r. by destruct s'.
  - unfold mp_outb, modify, bind, add_out. cbn. by rewrite <- app_assoc.
Qed.

Lemma mp_loop_stuck m p e : 4 < m p → p < e → ∀ fuel ismp s, mp_loop m fuel p e ismp s = OutOfFuel.
Proof.
  intros Ht Hp. induction fuel as [|fuel IH]; intros ismp s; cbn [mp_loop]; rewrite (proj2 (Z.ltb_lt _ _) Hp); [done|].
  unfold mp_entry. rewrite !(proj2 (Z.eqb_neq _ _)) by (unfold MPPROC, MPIOAPIC, MPBUS, MPIOINTR, MPLINTR; lia). cbn [orb]. apply IH.
Qed.

Lemma mp_loop_unknown m es t e : ∀ fuel p s,
  Forall ent_ok es → holds_bytes m p (concat (ent_bytes <$> es) ++ [t]) → 4 < t → p + Z.of_nat (length (concat (ent_bytes <$> es))) < e →
  mp_loop m fuel p e true s = OutOfFuel.
Proof.
  induction es as [|x es IH]; intros fuel p s Hok H Ht He; cbn [fmap list_fmap concat length app] in *.
  { apply mp_loop_stuck; [|lia]. pose proof (H 0%nat t eq_refl) as E. change (Z.of_nat 0) with 0 in E. rewrite Z.add_0_r in E. by rewrite E. }
  apply Forall_cons in Hok as [Ho Hok]. rewrite <- app_assoc in H. apply holds_bytes_app in H as [H1 H2]. rewrite length_app in He.
  destruct fuel as [|fuel]; cbn [mp_loop]; rewrite (proj2 (Z.ltb_lt _ _)) by lia; [done|].
  rewrite (mp_entry_ok m p s x) by done. apply IH; [done..|lia].
Qed.

(** An entry of unknown type makes mpinit run for ever: the break in the
    default case leaves the switch only, and the pointer into the table stays
    where it is, so the panic after the loop is not reached. *)
Theorem mpinit_unknown_entry m mp conf es t fuel in23 s :
  mp_tables m mp conf → Forall ent_ok es → holds_bytes m (conf + MPCONF_SIZE) (concat (ent_bytes <$> es) ++ [t]) → 4 < t →
  MPCONF_SIZE + Z.of_nat (length (concat (ent_bytes <$> es))) < conf_length m conf → mpinit m fuel in23 s = OutOfFuel.
Proof.
  intros Ht Hok Hb H4 Hl. unfold mpinit. rewrite (mpconfig_tables m mp conf Ht). rewrite (bind_ret_eval _ _ _ tt (set_lapic (conf_lapicaddr m conf) s)) by done.
  unfold bind. rewrite (mp_loop_unknown m es t (conf + conf_length m conf)); [done..|lia].
Qed.

(** * An example *)

(** Two processors, a bus, an interrupt controller; the structure is at the
    start of the extended BIOS data area, segment 0x9fc0. *)
Definition ex_entries : list mpent :=
  [EProc 0 (replicate 18 0); EProc 1 (replicate 18 0); EBus (replicate 7 0); EIoapic 2 (replicate 6 0)].
Definition ex_mp_bytes : list Z := MP_SIG ++ [0; 0; 16; 0] ++ [1; 4; 144; 0; 0; 0; 0; 0].
Definition ex_conf_bytes (body : list Z) (check : Z) : list Z :=
  PCMP_SIG ++ [Z.of_nat (44 + length body); 0; 4; check] ++ replicate 28 0 ++ [0; 0; 224; 254] ++ replicate 4 0 ++ body.
Definition at_bytes (a : Z) (l : list Z) (m : mem) : mem := λ x,
  if (a <=? x) && (x <? a + Z.of_nat (length l)) then default 0 (l !! Z.to_nat (x - a)) else m x.
Definition ex_mp_mem (body : list Z) (check : Z) : mem :=
  at_bytes (P2V 1024 + 14) [192; 159] (at_bytes (P2V 654336) ex_mp_bytes (at_bytes (P2V 1048576) (ex_conf_bytes body check) (λ _, 0))).
Definition ex_mpst : mpst := MkMp (replicate 8 0) 0 0 0 [].

Lemma holds_bytes_check m a l : forallb (λ i, bool_decide (m (a + Z.of_nat i) = nth i l 0)) (seq 0 (length l)) = true → holds_bytes m a l.
Proof.
  intros H i b Hi. rewrite forallb_forall in H. assert (Hl : (i < length l)%nat) by (by eapply lookup_lt_Some).
  specialize (H i). rewrite in_seq, bool_decide_eq_true in H. rewrite H by lia. by apply nth_lookup_Some.
Qed.

Lemma ex_designated body check : designated (ex_mp_mem body check) (P2V 654336).
Proof.
  left. exists 0. split_and!; try (intros; lia).
  - reflexivity.
  - reflexivity.
  - split; reflexivity.
Qed.

Lemma mpinit_correct_witness :
  mpinit (ex_mp_mem (concat (ent_bytes <$> ex_entries)) 132) 4 0 ex_mpst = Ret (tt, MkMp (<[1%nat := 1]> (replicate 8 0)) 2 2 4276092928 []).
Proof.
  etransitivity; [apply (mpinit_correct (ex_mp_mem (concat (ent_bytes <$> ex_entries)) 132) (P2V 654336) (P2V 1048576) ex_entries 4 0 ex_mpst)|].
  - split; [apply ex_designated|vm_compute; discriminate|reflexivity|reflexivity|by right|reflexivity].
  - repeat constructor.
  - apply holds_bytes_check. vm_compute. reflexivity.
  - reflexivity.
  - simpl. lia.
  - vm_compute. reflexivity.
Defined.

(** The same table with one more entry, of type 9. *)
Lemma mpinit_unknown_entry_witness :
  mpinit (ex_mp_mem (concat (ent_bytes <$> ex_entries) ++ [9]) 122) 1000 0 ex_mpst = OutOfFuel.
Proof.
  apply (mpinit_unknown_entry (ex_mp_mem (concat (ent_bytes <$> ex_entries) ++ [9]) 122) (P2V 654336) (P2V 1048576) ex_entries 9).
  - split; [apply ex_designated|vm_compute; discriminate|reflexivity|reflexivity|by right|reflexivity].
  - repeat constructor.
  - apply holds_bytes_check. vm_compute. reflexivity.
  - lia.
  - reflexivity.
Defined.
