(* ===== verification/Devices.v ===== *)
(** The interrupt controllers, lapic.c, ioapic.c and picirq.c, the set-up of
    the serial port, uart.c, and the clock chip, lapic.c: the accesses that
    the code makes to the devices' registers, in order. *)

From S2P Require Import Prelude Params Cstring.

(** * Accesses to devices *)

(** A register: of the local APIC by its index, the two of the I/O APIC, an
    I/O port. *)
Inductive reg : Type := Lapic (i : Z) | IoSel | IoData | Port (p : Z).
#[global] Instance reg_eq_dec : EqDecision reg.
Proof. solve_decision. Defined.

Inductive access : Type := Rd (r : reg) | Wr (r : reg) (v : Z).

(** The accesses so far, oldest first, and memory. *)
Record hw : Type := MkHw { hlog : list access; hmem : mem }.

(** struct rtcdate *)
Record rtcdate : Type := MkDate { second : Z; minute : Z; hour : Z; day : Z; month : Z; year : Z }.
#[global] Instance rtcdate_eq_dec : EqDecision rtcdate.
Proof. solve_decision. Defined.

(** lapic.c, the registers and their bits *)
Definition ID : Z := 32 / 4.
Definition VER : Z := 48 / 4.
Definition TPR : Z := 128 / 4.
Definition EOI : Z := 176 / 4.
Definition SVR : Z := 240 / 4.
Definition ENABLE : Z := 256.
Definition ESR : Z := 640 / 4.
Definition ICRLO : Z := 768 / 4.
Definition INIT : Z := 1280.
Definition STARTUP : Z := 1536.
Definition DELIVS : Z := 4096.
Definition ASSERT : Z := 16384.
Definition LEVEL : Z := 32768.
Definition BCAST : Z := 524288.
Definition ICRHI : Z := 784 / 4.
Definition TIMER : Z := 800 / 4.
Definition X1 : Z := 11.
Definition PERIODIC : Z := 131072.
Definition PCINT : Z := 832 / 4.
Definition LINT0 : Z := 848 / 4.
Definition LINT1 : Z := 864 / 4.
Definition ERROR : Z := 880 / 4.
Definition MASKED : Z := 65536.
Definition TICR : Z := 896 / 4.
Definition TDCR : Z := 992 / 4.
Definition CMOS_PORT : Z := 112.
Definition CMOS_RETURN : Z := 113.
Definition CMOS_STATA : Z := 10.
Definition CMOS_STATB : Z := 11.
Definition CMOS_UIP : Z := Z.shiftl 1 7.
Definition SECS : Z := 0.
Definition MINS : Z := 2.
Definition HOURS : Z := 4.
Definition DAY : Z := 7.
Definition MONTH : Z := 8.
Definition YEAR : Z := 9.

(** ioapic.c *)
Definition REG_ID : Z := 0.
Definition REG_VER : Z := 1.
Definition REG_TABLE : Z := 16.
Definition INT_DISABLED : Z := 65536.

(** uart.c *)
Definition COM1 : Z := 1016.

Section devices.
(** The devices: what a read of a register gives after the accesses so far. *)
Context (dev : list access → reg → Z).

Definition rd (r : reg) : M hw Z := λ s, Ret (dev (hlog s) r, MkHw (hlog s ++ [Rd r]) (hmem s)).
Definition wr (r : reg) (v : Z) : M hw unit := modify (λ s, MkHw (hlog s ++ [Wr r v]) (hmem s)).
(** x86.h *)
Definition inb (port : Z) : M hw Z := x <- rd (Port port) ;; ret (u8 x).
Definition outb (port data : Z) : M hw unit := wr (Port port) (u8 data).
Definition hstore (f : mem → mem) : M hw unit := modify (λ s, MkHw (hlog s) (f (hmem s))).

(** ** lapic.c; [lapic] is the pointer, 0 where there is no local APIC *)

Definition lapicr (index : Z) : M hw Z := x <- rd (Lapic index) ;; ret (u32 x).
Definition lapicw (index value : Z) : M hw unit :=
  wr (Lapic index) (u32 value) ;;;
  lapicr ID ;;;
  ret tt.

(** while(lapic[ICRLO] & DELIVS); *)
Fixpoint icr_wait (fuel : nat) : M hw unit :=
  match fuel with
  | O => out_of_fuel
  | S fuel' =>
      x <- lapicr ICRLO ;;
      if negb (Z.land x DELIVS =? 0) then icr_wait fuel' else ret tt
  end.

Definition lapicinit (fuel : nat) (lapic : Z) : M hw unit :=
  if lapic =? 0 then ret tt else
  lapicw SVR (Z.lor ENABLE (T_IRQ0 + IRQ_SPURIOUS)) ;;;
  lapicw TDCR X1 ;;;
  lapicw TIMER (Z.lor PERIODIC (T_IRQ0 + IRQ_TIMER)) ;;;
  lapicw TICR 10000000 ;;;
  lapicw LINT0 MASKED ;;;
  lapicw LINT1 MASKED ;;;
  ver <- lapicr VER ;;
  (if 4 <=? Z.land (Z.shiftr ver 16) 255 then lapicw PCINT MASKED else ret tt) ;;;
  lapicw ERROR (T_IRQ0 + IRQ_ERROR) ;;;
  lapicw ESR 0 ;;;
  lapicw ESR 0 ;;;
  lapicw EOI 0 ;;;
  lapicw ICRHI 0 ;;;
  lapicw ICRLO (Z.lor BCAST (Z.lor INIT LEVEL)) ;;;
  icr_wait fuel ;;;
  lapicw TPR 0.

Definition lapicid (lapic : Z) : M hw Z :=
  if lapic =? 0 then ret 0 else x <- lapicr ID ;; ret (Z.shiftr x 24).

Definition lapic_eoi (lapic : Z) : M hw unit :=
  if negb (lapic =? 0) then lapicw EOI 0 else ret tt.

Definition microdelay (us : Z) : M hw unit := ret tt.

(** wrv[i] = v, for an array of ushort *)
Definition st16 (a v : Z) (m : mem) : mem := st8 (a + 1) (Z.shiftr (u16 v) 8) (st8 a (u16 v) m).

Definition wrv : Z := P2V (Z.lor (Z.shiftl 64 4) 103).

Fixpoint startup_loop (n : nat) (apicid addr : Z) : M hw unit :=
  match n with
  | O => ret tt
  | S n' =>
      lapicw ICRHI (Z.shiftl apicid 24) ;;;
      lapicw ICRLO (Z.lor STARTUP (Z.shiftr addr 12)) ;;;
      microdelay 200 ;;;
      startup_loop n' apicid addr
  end.

Definition lapicstartap (apicid addr : Z) : M hw unit :=
  outb CMOS_PORT 15 ;;;
  outb (CMOS_PORT + 1) 10 ;;;
  hstore (st16 wrv 0) ;;;
  hstore (st16 (wrv + 2) (Z.shiftr addr 4)) ;;;
  lapicw ICRHI (Z.shiftl apicid 24) ;;;
  lapicw ICRLO (Z.lor INIT (Z.lor LEVEL ASSERT)) ;;;
  microdelay 200 ;;;
  lapicw ICRLO (Z.lor INIT LEVEL) ;;;
  microdelay 100 ;;;
  startup_loop 2 apicid addr.

(** ** The clock of lapic.c *)

Definition cmos_read (r : Z) : M hw Z :=
  outb CMOS_PORT r ;;;
  microdelay 200 ;;;
  inb CMOS_RETURN.

Definition fill_rtcdate : M hw rtcdate :=
  s <- cmos_read SECS ;;
  m <- cmos_read MINS ;;
  h <- cmos_read HOURS ;;
  d <- cmos_read DAY ;;
  mo <- cmos_read MONTH ;;
  y <- cmos_read YEAR ;;
  ret (MkDate s m h d mo y).

(** for(;;) of cmostime: the first of two equal readings *)
Fixpoint cmos_loop (fuel : nat) : M hw rtcdate :=
  match fuel with
  | O => out_of_fuel
  | S fuel' =>
      t1 <- fill_rtcdate ;;
      a <- cmos_read CMOS_STATA ;;
      if negb (Z.land a CMOS_UIP =? 0) then cmos_loop fuel' else
      t2 <- fill_rtcdate ;;
      if bool_decide (t1 = t2) then ret t1 else cmos_loop fuel'
  end.

(** CONV *)
Definition conv (x : Z) : Z := Z.shiftr x 4 * 10 + Z.land x 15.

Definition cmostime (fuel : nat) : M hw rtcdate :=
  sb <- cmos_read CMOS_STATB ;;
  let bcd := Z.land sb (Z.shiftl 1 2) =? 0 in
  t1 <- cmos_loop fuel ;;
  let t1 := if bcd then MkDate (conv (second t1)) (conv (minute t1)) (conv (hour t1)) (conv (day t1)) (conv (month t1)) (conv (year t1)) else t1 in
  ret (MkDate (second t1) (minute t1) (hour t1) (day t1) (month t1) (u32 (year t1 + 2000))).

(** ** ioapic.c *)

Definition ioapicread (r : Z) : M hw Z :=
  wr IoSel (u32 r) ;;;
  x <- rd IoData ;;
  ret (u32 x).

Definition ioapicwrite (r data : Z) : M hw unit :=
  wr IoSel (u32 r) ;;;
  wr IoData (u32 data).

Fixpoint ioapic_loop (n : nat) (i : Z) : M hw unit :=
  match n with
  | O => ret tt
  | S n' =>
      ioapicwrite (REG_TABLE + 2 * i) (Z.lor INT_DISABLED (T_IRQ0 + i)) ;;;
      ioapicwrite (REG_TABLE + 2 * i + 1) 0 ;;;
      ioapic_loop n' (i + 1)
  end.

(** ioapicinit; the result says whether the line about the id is printed. *)
Definition ioapicinit (ioapicid : Z) : M hw bool :=
  v <- ioapicread REG_VER ;;
  let maxintr := Z.land (Z.shiftr v 16) 255 in
  x <- ioapicread REG_ID ;;
  let id := Z.shiftr x 24 in
  ioapic_loop (Z.to_nat (maxintr + 1)) 0 ;;;
  ret (negb (id =? ioapicid)).

Definition ioapicenable (irq cpunum : Z) : M hw unit :=
  ioapicwrite (REG_TABLE + 2 * irq) (T_IRQ0 + irq) ;;;
  ioapicwrite (REG_TABLE + 2 * irq + 1) (Z.shiftl cpunum 24).

(** ** picirq.c *)

Definition picinit : M hw unit :=
  outb (32 + 1) 255 ;;;
  outb (160 + 1) 255.

(** ** uart.c; uartinit gives the value of the flag uart *)

Fixpoint thr_wait (n : nat) : M hw unit :=
  match n with
  | O => ret tt
  | S n' =>
      x <- inb (COM1 + 5) ;;
      if Z.land x 32 =? 0 then microdelay 10 ;;; thr_wait n' else ret tt
  end.

Definition uart_putc (uart : bool) (c : Z) : M hw unit :=
  if negb uart then ret tt else
  thr_wait 128 ;;;
  outb (COM1 + 0) c.

Fixpoint uart_puts (l : list Z) : M hw unit :=
  match l with [] => ret tt | c :: l' => uart_putc true c ;;; uart_puts l' end.

Definition announcement : list Z := [120; 118; 54; 46; 46; 46; 10].   (* "xv6...\n" *)

Definition uartinit : M hw bool :=
  outb (COM1 + 2) 0 ;;;
  outb (COM1 + 3) 128 ;;;
  outb (COM1 + 0) (115200 / 9600) ;;;
  outb (COM1 + 1) 0 ;;;
  outb (COM1 + 3) 3 ;;;
  outb (COM1 + 4) 0 ;;;
  outb (COM1 + 1) 1 ;;;
  x <- inb (COM1 + 5) ;;
  if x =? 255 then ret false else
  inb (COM1 + 2) ;;;
  inb (COM1 + 0) ;;;
  ioapicenable IRQ_COM1 0 ;;;
  uart_puts announcement ;;;
  ret true.

Definition uart_getc (uart : bool) : M hw Z :=
  if negb uart then ret (-1) else
  x <- inb (COM1 + 5) ;;
  if Z.land x 1 =? 0 then ret (-1) else inb (COM1 + 0).

End devices.

(** * Facts about runs *)

Lemma wp_rd dev r s (Q : Z → hw → Prop) : Q (dev (hlog s) r) (MkHw (hlog s ++ [Rd r]) (hmem s)) → wp (rd dev r) s Q.
Proof. intros. by eexists _, _. Qed.

(** [dev_step] runs the accesses at the head of the code. *)
Ltac dev_step :=
  repeat (unfold lapicw, lapicr, inb, outb, hstore, wr, ioapicwrite, microdelay;
          first [wp_step | apply wp_rd]; cbn [hlog hmem]).

(** The last value written to a register. *)
Definition written1 (r : reg) (acc : option Z) (e : access) : option Z :=
  match e with Wr r' v => if decide (r' = r) then Some v else acc | Rd _ => acc end.
Definition written (h : list access) (r : reg) : option Z := foldl (written1 r) None h.

Lemma written_snoc h e r : written (h ++ [e]) r = written1 r (written h r) e.
Proof. unfold written. by rewrite foldl_app. Qed.

(** * The local APIC *)

(** icr_wait ends when the command has been delivered at the [k]-th poll. *)
Definition delivers (dev : list access → reg → Z) (h : list access) (k : nat) : Prop :=
  Z.land (u32 (dev (h ++ replicate k (Rd (Lapic ICRLO))) (Lapic ICRLO))) DELIVS = 0.

Lemma wp_icr_wait dev k : ∀ fuel s, delivers dev (hlog s) k → (k < fuel)%nat →
  wp (icr_wait dev fuel) s (λ _ s', (∃ j, (j ≤ k)%nat ∧ hlog s' = hlog s ++ replicate (S j) (Rd (Lapic ICRLO))) ∧ hmem s' = hmem s).
Proof.
  induction k as [|k IH]; intros [|fuel] s H Hf; try lia; cbn [icr_wait]; dev_step.
  - unfold delivers in H. cbn in H. rewrite app_nil_r in H. rewrite H. cbn [negb Z.eqb]. dev_step. split; [by exists 0%nat|done].
  - case_match; [|dev_step; split; [exists 0%nat; split; [lia|done]|done]].
    eapply wp_mono; [apply IH; [|lia]|].
    + unfold delivers in *. cbn [hlog]. by rewrite <- app_assoc.
    + intros _ s' [(j & Hj & ->) Hm]. cbn [hlog hmem] in *. split; [|done]. exists (S j). split; [lia|]. by rewrite <- app_assoc.
Qed.

Lemma written_polls h r0 j r : written (h ++ replicate j (Rd r0)) r = written h r.
Proof.
  induction j as [|j IH]; [by rewrite app_nil_r|]. rewrite replicate_S_end, app_assoc, written_snoc. exact IH.
Qed.

(** Where there is a local APIC that delivers the command within [k] polls,
    lapicinit returns, with the unit on, the timer periodic at the vector of
    the clock, both lines and, where the version has it, the performance
    counter masked, errors at their vector and every priority accepted. *)
Theorem lapicinit_correct dev lapic fuel k s :
  lapic ≠ 0 → (∀ h, delivers dev h k) → (k < fuel)%nat →
  wp (lapicinit dev fuel lapic) s (λ _ s', hmem s' = hmem s
    ∧ Forall (λ '(r, v), written (hlog s') (Lapic r) = Some v)
        [(SVR, 256 + 63); (TIMER, 131072 + 32); (TDCR, 11); (TICR, 10000000); (LINT0, 65536); (LINT1, 65536);
         (ERROR, 51); (ESR, 0); (EOI, 0); (TPR, 0)]
    ∧ ∃ h, h `prefix_of` hlog s' ∧ (4 ≤ Z.land (Z.shiftr (u32 (dev h (Lapic VER))) 16) 255 → written (hlog s') (Lapic PCINT) = Some 65536)).
Proof.
  intros Hl Hd Hf. unfold lapicinit. rewrite (proj2 (Z.eqb_neq _ _) Hl). dev_step.
  match goal with |- context [dev ?h (Lapic VER)] => set (h0 := h) end.
  destruct (Z.leb_spec 4 (Z.land (Z.shiftr (u32 (dev h0 (Lapic VER))) 16) 255)); dev_step;
    (eapply wp_mono; [apply (wp_icr_wait _ k); [apply Hd|done]|]); intros _ [h' m'] [(j & _ & E) Em]; cbn [hlog hmem] in E, Em; subst h' m'; dev_step;
    (split; [done|split; [|exists h0; split]]).
  1,4: subst h0; repeat constructor; rewrite !written_snoc, written_polls, !written_snoc; reflexivity.
  1,3: rewrite <- !app_assoc; by apply prefix_app_r.
  - intros _. rewrite !written_snoc, written_polls, !written_snoc. reflexivity.
  - lia.
Qed.

Definition ex_dev : list access → reg → Z := λ _ _, 0.

Lemma lapicinit_correct_witness :
  wp (lapicinit ex_dev 5 4276092928) (MkHw [] (λ _, 0)) (λ _ s', written (hlog s') (Lapic TIMER) = Some 131104).
Proof.
  eapply wp_mono; [apply (lapicinit_correct ex_dev 4276092928 5 0 (MkHw [] (λ _, 0))); [lia|reflexivity|lia]|].
  intros _ s' (_ & H & _). apply Forall_cons in H as [_ H]. by apply Forall_cons in H as [H _].
Defined.

(** ** Starting a processor *)

(** The interrupts sent to other processors: each write to ICRLO sends one,
    to the processor whose number is in the top byte of ICRHI. *)
Definition ipi1 (acc : Z * list (Z * Z)) (e : access) : Z * list (Z * Z) :=
  match e with
  | Wr (Lapic i) v => if i =? ICRHI then (Z.shiftr v 24, acc.2) else if i =? ICRLO then (acc.1, acc.2 ++ [(acc.1, v)]) else acc
  | _ => acc
  end.
Definition ipi_state (h : list access) : Z * list (Z * Z) := foldl ipi1 (0, []) h.
Definition ipis (h : list access) : list (Z * Z) := (ipi_state h).2.

Lemma ipi_state_snoc h e : ipi_state (h ++ [e]) = ipi1 (ipi_state h) e.
Proof. unfold ipi_state. by rewrite foldl_app. Qed.

Definition ld16 (m : mem) (a : Z) : Z := m a + 256 * m (a + 1).

Lemma icr_dest a : 0 ≤ a < 256 → Z.shiftr (u32 (Z.shiftl a 24)) 24 = a.
Proof. intros H. rewrite Z.shiftl_mul_pow2, Z.shiftr_div_pow2 by lia. change (2 ^ 24) with 16777216. rewrite u32_small by lia. apply Z.div_mul. lia. Qed.

Lemma icr_vector addr : 0 ≤ addr < 1048576 → u32 (Z.lor STARTUP (Z.shiftr addr 12)) = STARTUP + addr / 4096.
Proof.
  intros H. rewrite Z.shiftr_div_pow2 by lia. change (2 ^ 12) with 4096. assert (0 ≤ addr / 4096 < 256) by (split; [apply Z.div_pos|apply Z.div_lt_upper_bound]; lia).
  change STARTUP with (Z.shiftl 6 8). rewrite lor_shiftl_add by (change (2 ^ 8) with 256; lia). change (6 * 2 ^ 8) with 1536. change (Z.shiftl 6 8) with 1536. apply u32_small. lia.
Qed.

Lemma st16_other a v m x : x ≠ a → x ≠ a + 1 → st16 a v m x = m x.
Proof. intros. unfold st16. by rewrite !st8_other. Qed.

Lemma ld16_st16_other a b v m : a + 2 ≤ b ∨ b + 2 ≤ a → ld16 (st16 b v m) a = ld16 m a.
Proof. intros. unfold ld16. by rewrite !st16_other by lia. Qed.

Lemma ld16_st16 a v m : 0 ≤ v < 65536 → ld16 (st16 a v m) a = v.
Proof.
  intros H. unfold ld16, st16. rewrite st8_same, st8_other, st8_same by lia. unfold u16. rewrite Z.mod_small by lia.
  rewrite Z.shiftr_div_pow2 by lia. unfold u8. change (2 ^ 8) with 256. rewrite (Z.mod_small (v / 256)) by (Z.to_euclidean_division_equations; lia). Z.to_euclidean_division_equations; lia.
Qed.

Lemma lapicstartap_run dev apicid addr s :
  0 ≤ apicid < 256 → 0 ≤ addr < 1048576 → addr mod 4096 = 0 →
  wp (lapicstartap dev apicid addr) s (λ _ s',
    ipis (hlog s') = ipis (hlog s) ++ (pair apicid <$> [INIT + LEVEL + ASSERT; INIT + LEVEL; STARTUP + addr / 4096; STARTUP + addr / 4096])
    ∧ ld16 (hmem s') (wrv + 2) * 16 + ld16 (hmem s') wrv = addr
    ∧ (∀ x, x < wrv ∨ wrv + 4 ≤ x → hmem s' x = hmem s x) ∧ (mem_ok (hmem s) → mem_ok (hmem s'))).
Proof.
  intros Ha Hr Hm. unfold lapicstartap, startup_loop. dev_step. split; [|split; [|split]].
  - unfold ipis. rewrite !ipi_state_snoc. cbn [ipi1].
    change (ICRLO =? ICRHI) with false. change (ICRLO =? ICRLO) with true. change (ICRHI =? ICRHI) with true. cbn [fst snd].
    rewrite icr_dest, icr_vector, <- !app_assoc by done. reflexivity.
  - rewrite Z.shiftr_div_pow2 by lia. change (2 ^ 4) with 16. rewrite ld16_st16 by (Z.to_euclidean_division_equations; lia). rewrite ld16_st16_other, ld16_st16 by lia.
    Z.to_euclidean_division_equations; lia.
  - intros x Hx. rewrite !st16_other by lia. done.
  - intros Hok. unfold st16. by repeat apply st8_ok.
Qed.

(** lapicstartap sends INIT, its end, and two start-up interrupts whose
    vector is the page of the code to the processor, and only to it; the
    warm reset vector, an offset and a segment, points to the code too. *)
Theorem lapicstartap_correct dev apicid addr s :
  0 ≤ apicid < 256 → 0 ≤ addr < 1048576 → addr mod 4096 = 0 →
  wp (lapicstartap dev apicid addr) s (λ _ s',
    ipis (hlog s') = ipis (hlog s) ++ (pair apicid <$> [INIT + LEVEL + ASSERT; INIT + LEVEL; STARTUP + addr / 4096; STARTUP + addr / 4096])
    ∧ ld16 (hmem s') (wrv + 2) * 16 + ld16 (hmem s') wrv = addr
    ∧ ∀ x, x < wrv ∨ wrv + 4 ≤ x → hmem s' x = hmem s x).
Proof.
  intros Ha Hr Hm. eapply wp_mono; [by apply lapicstartap_run|]. by intros _ s' (? & ? & ? & _).
Qed.

Lemma lapicstartap_correct_witness :
  wp (lapicstartap ex_dev 1 28672) (MkHw [] (λ _, 0)) (λ _ s', ipis (hlog s') = [(1, 50432); (1, 34048); (1, 1543); (1, 1543)]).
Proof.
  eapply wp_mono; [apply (lapicstartap_correct ex_dev 1 28672 (MkHw [] (λ _, 0))); [lia|lia|reflexivity]|]. by intros _ s' (H & _).
Defined.

(** * The I/O APIC *)

(** Its registers: the last value written to each through the pair. *)
Definition io1 (acc : Z * gmap Z Z) (e : access) : Z * gmap Z Z :=
  match e with
  | Wr IoSel r => (r, acc.2)
  | Wr IoData v => (acc.1, <[acc.1 := v]> acc.2)
  | _ => acc
  end.
Definition io_state (h : list access) : Z * gmap Z Z := foldl io1 (0, ∅) h.
Definition io_regs (h : list access) : gmap Z Z := (io_state h).2.

Lemma io_state_snoc h e : io_state (h ++ [e]) = io1 (io_state h) e.
Proof. unfold io_state. by rewrite foldl_app. Qed.

Lemma wp_ioapicwrite r v s (Q : unit → hw → Prop) :
  0 ≤ r < 4294967296 → 0 ≤ v < 4294967296 →
  (∀ h, io_regs h = <[r := v]> (io_regs (hlog s)) → Q tt (MkHw h (hmem s))) → wp (ioapicwrite r v) s Q.
Proof.
  intros Hr Hv HQ. dev_step. rewrite !u32_small by lia. apply HQ. unfold io_regs. by rewrite !io_state_snoc.
Qed.

(** A table whose first [n] entries are masked, each with its vector. *)
Definition masked (n : Z) (t : gmap Z Z) : Prop :=
  ∀ i, 0 ≤ i < n → t !! (REG_TABLE + 2 * i) = Some (INT_DISABLED + (T_IRQ0 + i)) ∧ t !! (REG_TABLE + 2 * i + 1) = Some 0.

Lemma masked_entry i : 0 ≤ i < 256 → Z.lor INT_DISABLED (T_IRQ0 + i) = INT_DISABLED + (T_IRQ0 + i).
Proof. intros H. change INT_DISABLED with (Z.shiftl 1 16). unfold T_IRQ0. by rewrite lor_shiftl_add by (change (2 ^ 16) with 65536; lia). Qed.

Lemma wp_ioapic_loop : ∀ n i s (Q : unit → hw → Prop), 0 ≤ i → i + Z.of_nat n ≤ 256 → masked i (io_regs (hlog s)) →
  (∀ h, masked (i + Z.of_nat n) (io_regs h) →
    (∀ r, r < REG_TABLE + 2 * i ∨ REG_TABLE + 2 * (i + Z.of_nat n) ≤ r → io_regs h !! r = io_regs (hlog s) !! r) → Q tt (MkHw h (hmem s))) →
  wp (ioapic_loop n i) s Q.
Proof.
  induction n as [|n IH]; intros i s Q Hi Hn Hm HQ; cbn [ioapic_loop].
  - wp_step. destruct s as [h m]. apply HQ; [by rewrite Z.add_0_r|done].
  - rewrite masked_entry by lia. wp_step. apply wp_ioapicwrite; [unfold REG_TABLE, INT_DISABLED, T_IRQ0; lia..|].
    intros h1 E1. wp_step. apply wp_ioapicwrite; [unfold REG_TABLE; lia..|]. intros h2 E2. cbn [hlog hmem] in *. rewrite E1 in E2.
    apply IH; cbn [hlog hmem]; rewrite ?E2; [lia|lia| |].
    + intros j Hj. destruct (decide (j = i)) as [-> |]; [by rewrite lookup_insert_ne, !lookup_insert_eq by lia|].
      rewrite !lookup_insert_ne by lia. apply Hm. lia.
    + intros h Hh Ho. apply HQ; [by replace (i + Z.of_nat (S n)) with (i + 1 + Z.of_nat n) by lia|].
      intros r Hr. rewrite Ho, !lookup_insert_ne by lia. done.
Qed.

(** The interrupts that are turned on, in order, with their processors. *)
Fixpoint enable_all (l : list (Z * Z)) : M hw unit :=
  match l with [] => ret tt | (irq, c) :: l' => ioapicenable irq c ;;; enable_all l' end.

(** The entry of interrupt [i] after those of [l]: that of the last
    ioapicenable for it, and masked where there was none. *)
Definition route (l : list (Z * Z)) (i : Z) : Z * Z :=
  foldl (λ e p, if p.1 =? i then (T_IRQ0 + i, Z.shiftl p.2 24) else e) (INT_DISABLED + (T_IRQ0 + i), 0) l.

Definition routed (n : Z) (l : list (Z * Z)) (t : gmap Z Z) : Prop :=
  ∀ i, 0 ≤ i < n → t !! (REG_TABLE + 2 * i) = Some (route l i).1 ∧ t !! (REG_TABLE + 2 * i + 1) = Some (route l i).2.

Lemma wp_ioapicenable n l irq c s (Q : unit → hw → Prop) :
  n ≤ 256 → 0 ≤ irq < n → 0 ≤ c < 256 → routed n l (io_regs (hlog s)) →
  (∀ h, routed n (l ++ [(irq, c)]) (io_regs h) → Q tt (MkHw h (hmem s))) → wp (ioapicenable irq c) s Q.
Proof.
  intros Hn Hi Hc Hr HQ. unfold ioapicenable. assert (Hs : 0 ≤ Z.shiftl c 24 < 4294967296).
  { rewrite Z.shiftl_mul_pow2 by lia. change (2 ^ 24) with 16777216. lia. }
  wp_step. apply wp_ioapicwrite; [unfold REG_TABLE, T_IRQ0; lia..|]. intros h1 E1.
  apply wp_ioapicwrite; [unfold REG_TABLE; lia|done|]. intros h2 E2. cbn [hlog hmem] in *. rewrite E1 in E2. apply HQ.
  intros i Hj. rewrite E2. unfold route. rewrite foldl_app. cbn [foldl fst snd]. destruct (Z.eqb_spec irq i) as [-> |].
  - by rewrite lookup_insert_ne, !lookup_insert_eq by lia.
  - rewrite !lookup_insert_ne by lia. by apply Hr.
Qed.

Lemma wp_enable_all n : ∀ l l0 s (Q : unit → hw → Prop), n ≤ 256 → Forall (λ p, 0 ≤ p.1 < n ∧ 0 ≤ p.2 < 256) l → routed n l0 (io_regs (hlog s)) →
  (∀ h, routed n (l0 ++ l) (io_regs h) → Q tt (MkHw h (hmem s))) → wp (enable_all l) s Q.
Proof.
  induction l as [|[irq c] l IH]; intros l0 s Q Hn Hl Hr HQ; cbn [enable_all].
  - wp_step. destruct s. apply HQ. by rewrite app_nil_r.
  - apply Forall_cons in Hl as [[H1 H2] Hl]. wp_step. apply (wp_ioapicenable n l0); [done..|]. intros h Hh.
    apply (IH (l0 ++ [(irq, c)])); [done..|]. intros h' Hh'. rewrite <- app_assoc in Hh'. by apply HQ.
Qed.

(** The number of entries that the controller reports. *)
Definition nintr (dev : list access → reg → Z) (h : list access) : Z :=
  Z.land (Z.shiftr (u32 (dev (h ++ [Wr IoSel REG_VER]) IoData)) 16) 255 + 1.

Lemma nintr_range dev h : 1 ≤ nintr dev h ≤ 256.
Proof. unfold nintr. change 255 with (Z.ones 8). rewrite Z.land_ones by lia. pose proof (Z.mod_pos_bound (Z.shiftr (u32 (dev (h ++ [Wr IoSel REG_VER]) IoData)) 16) (2 ^ 8)). lia. Qed.

(** After ioapicinit and any sequence of ioapicenable, each interrupt of the
    controller goes, edge-triggered and at its own vector, to the processor
    of its last ioapicenable, and is masked when there was none. *)
Theorem ioapic_routing dev ioapicid l s :
  Forall (λ p, 0 ≤ p.1 < nintr dev (hlog s) ∧ 0 ≤ p.2 < 256) l →
  wp (b <- ioapicinit dev ioapicid ;; enable_all l ;;; ret b) s
    (λ _ s', hmem s' = hmem s ∧ routed (nintr dev (hlog s)) l (io_regs (hlog s'))).
Proof.
  intros Hl. unfold ioapicinit, ioapicread. dev_step. pose proof (nintr_range dev (hlog s)) as Hn.
  change (Z.land _ 255 + 1) with (nintr dev (hlog s)). apply wp_ioapic_loop; cbn [hlog hmem]; [lia|lia|intros i ?; lia|].
  intros h Hh _. dev_step. apply (wp_enable_all (nintr dev (hlog s)) l []); cbn [hlog hmem]; [lia|done| |].
  - intros i Hi. apply Hh. lia.
  - intros h' Hh'. wp_step. done.
Qed.

(** The interrupts that the kernel uses, on a machine of two processors. *)
Definition ex_io_dev : list access → reg → Z := λ _ _, 1507328.

Lemma ioapic_routing_witness :
  wp (b <- ioapicinit ex_io_dev 0 ;; enable_all [(IRQ_KBD, 0); (IRQ_COM1, 0); (IRQ_IDE, 1)] ;;; ret b) (MkHw [] (λ _, 0))
    (λ _ s', io_regs (hlog s') !! (16 + 2 * 14) = Some 46 ∧ io_regs (hlog s') !! (16 + 2 * 14 + 1) = Some 16777216
      ∧ io_regs (hlog s') !! (16 + 2 * 2) = Some 65570).
Proof.
  eapply wp_mono; [apply (ioapic_routing ex_io_dev 0 [(IRQ_KBD, 0); (IRQ_COM1, 0); (IRQ_IDE, 1)] (MkHw [] (λ _, 0)))|].
  - repeat constructor; vm_compute; congruence.
  - intros _ s' [_ H]. destruct (H 14) as [H1 H2]; [vm_compute; split; congruence|]. destruct (H 2) as [H3 _]; [vm_compute; split; congruence|]. split; [exact H1|split; [exact H2|exact H3]].
Defined.

(** * The serial port *)

(** The bytes sent: what is written to the data register while the divisor
    is locked. *)
Definition sent1 (acc : bool * list Z) (e : access) : bool * list Z :=
  match e with
  | Wr (Port p) v =>
      if p =? COM1 + 3 then (Z.testbit v 7, acc.2)
      else if (p =? COM1 + 0) && negb acc.1 then (acc.1, acc.2 ++ [v]) else acc
  | _ => acc
  end.
Definition sent (h : list access) : bool * list Z := foldl sent1 (false, []) h.

Lemma sent_snoc h e : sent (h ++ [e]) = sent1 (sent h) e.
Proof. unfold sent. by rewrite foldl_app. Qed.

(** From [h] to [h'] the bytes [cs] go to the port and nothing else. *)
Definition port_sends (cs : list Z) (h h' : list access) : Prop :=
  (sent h).1 = false ∧ sent h' = (false, (sent h).2 ++ cs) ∧ ∀ r, r ≠ Port (COM1 + 0) → written h' r = written h r.

Lemma port_sends_trans cs cs' h1 h2 h3 : port_sends cs h1 h2 → port_sends cs' h2 h3 → port_sends (cs ++ cs') h1 h3.
Proof.
  intros (A1 & A2 & A3) (B1 & B2 & B3). split; [done|split].
  - rewrite B2, A2. cbn [snd]. by rewrite <- app_assoc.
  - intros r Hr. by rewrite B3, A3.
Qed.

Lemma port_sends_nil h : (sent h).1 = false → port_sends [] h h.
Proof. intros H. split; [done|split; [|done]]. rewrite app_nil_r, <- H. by destruct (sent h). Qed.

Lemma port_sends_rd h r : (sent h).1 = false → port_sends [] h (h ++ [Rd r]).
Proof. intros H. destruct (port_sends_nil h H) as (H1 & H2 & H3). split; [done|split]; [by rewrite sent_snoc|intros; by rewrite written_snoc]. Qed.

Lemma port_sends_wr h c : (sent h).1 = false → port_sends [c] h (h ++ [Wr (Port (COM1 + 0)) c]).
Proof.
  intros H. split; [done|split].
  - rewrite sent_snoc. unfold sent1. rewrite H. done.
  - intros r Hr. rewrite written_snoc. cbn [written1]. by rewrite decide_False.
Qed.

Lemma wp_thr_wait dev : ∀ n s (Q : unit → hw → Prop), (sent (hlog s)).1 = false →
  (∀ h, port_sends [] (hlog s) h → Q tt (MkHw h (hmem s))) → wp (thr_wait dev n) s Q.
Proof.
  induction n as [|n IH]; intros s Q Hs HQ; cbn [thr_wait].
  - wp_step. destruct s. by apply HQ, port_sends_nil.
  - dev_step. pose proof (port_sends_rd (hlog s) (Port (COM1 + 5)) Hs) as H1. case_match; dev_step; [|by apply HQ].
    apply IH; cbn [hlog hmem]; [by destruct H1 as (_ & -> & _)|]. intros h Hh. apply HQ. exact (port_sends_trans [] [] _ _ _ H1 Hh).
Qed.

(** uartputc sends the character, however long the port stays busy. *)
Lemma wp_uart_putc dev c s (Q : unit → hw → Prop) : 0 ≤ c < 256 → (sent (hlog s)).1 = false →
  (∀ h, port_sends [c] (hlog s) h → Q tt (MkHw h (hmem s))) → wp (uart_putc dev true c) s Q.
Proof.
  intros Hc Hs HQ. unfold uart_putc. cbn [negb]. wp_step. apply wp_thr_wait; [done|]. intros h Hh. dev_step. rewrite u8_small by done.
  apply HQ. apply (port_sends_trans [] [c] _ h); [done|]. apply port_sends_wr. by destruct Hh as (_ & -> & _).
Qed.

Lemma wp_uart_puts dev : ∀ cs s (Q : unit → hw → Prop), Forall (λ c, 0 ≤ c < 256) cs → (sent (hlog s)).1 = false →
  (∀ h, port_sends cs (hlog s) h → Q tt (MkHw h (hmem s))) → wp (uart_puts dev cs) s Q.
Proof.
  induction cs as [|c cs IH]; intros s Q Hc Hs HQ; cbn [uart_puts].
  - wp_step. destruct s. by apply HQ, port_sends_nil.
  - apply Forall_cons in Hc as [H1 Hc]. wp_step. apply wp_uart_putc; [done..|]. intros h Hh.
    apply IH; [done|cbn [hlog]; by destruct Hh as (_ & -> & _)|]. intros h' Hh'. apply HQ. exact (port_sends_trans [c] cs _ _ _ Hh Hh').
Qed.

(** uartinit programs 9600 baud, 8 bits, with receive interrupts; where the
    status reads 0xff it stops there, and otherwise the port is announced by
    exactly the line "xv6...", with the divisor locked again. *)
Theorem uartinit_correct dev s :
  wp (uartinit dev) s (λ up s', written (hlog s') (Port (COM1 + 3)) = Some 3 ∧ written (hlog s') (Port (COM1 + 1)) = Some 1
    ∧ written (hlog s') (Port (COM1 + 2)) = Some 0
    ∧ (sent (hlog s')).1 = false ∧ (sent (hlog s')).2 = (sent (hlog s)).2 ++ (if up : bool then announcement else [])).
Proof.
  unfold uartinit. dev_step. case_match; dev_step.
  - rewrite !written_snoc, !sent_snoc, app_nil_r. split_and!; try reflexivity.
  - unfold ioapicenable. dev_step. apply wp_uart_puts; [unfold announcement; rewrite !Forall_cons; repeat split; try lia; apply Forall_nil; done|cbn [hlog]; by rewrite !sent_snoc|].
    cbn [hlog hmem]. intros h (_ & H2 & H3). wp_step. cbn [hlog]. rewrite !H3, H2 by discriminate. rewrite !written_snoc, !sent_snoc.
    split_and!; reflexivity.
Qed.

(** * The clock *)

Definition bcd_of (x : Z) : Z := x / 10 * 16 + x mod 10.

Definition clock_regs : list (Z * (rtcdate → Z)) :=
  [(SECS, second); (MINS, minute); (HOURS, hour); (DAY, day); (MONTH, month); (YEAR, year)].

(** The clock chip: after the number of a register has been written to the
    first port, the second gives the register.  [date t] is the date at the
    [t]-th access, which the chip keeps in BCD or in binary, and [busy t]
    whether it is being updated. *)
Record chip (dev : list access → reg → Z) (bcd : bool) (date : nat → rtcdate) (busy : nat → bool) : Prop := {
  chip_date : ∀ h r f, (r, f) ∈ clock_regs →
    u8 (dev (h ++ [Wr (Port CMOS_PORT) r]) (Port CMOS_RETURN)) = if bcd then bcd_of (f (date (length h))) else f (date (length h));
  chip_a : ∀ h, Z.testbit (dev (h ++ [Wr (Port CMOS_PORT) CMOS_STATA]) (Port CMOS_RETURN)) 7 = busy (length h);
  chip_b : ∀ h, Z.testbit (dev (h ++ [Wr (Port CMOS_PORT) CMOS_STATB]) (Port CMOS_RETURN)) 2 = negb bcd;
  chip_range : ∀ t r f, (r, f) ∈ clock_regs → 0 ≤ f (date t) < 100;
  (** the seconds do not come round again within 14 accesses *)
  chip_slow : ∀ a b c, (a ≤ b ≤ c)%nat → (c ≤ a + 14)%nat → second (date a) = second (date c) → date b = date a
}.

Lemma conv_bcd x : 0 ≤ x < 100 → conv (bcd_of x) = x.
Proof.
  intros H. unfold conv, bcd_of. rewrite Z.shiftr_div_pow2 by lia. change 15 with (Z.ones 4). rewrite Z.land_ones by lia.
  change (2 ^ 4) with 16. Z.to_euclidean_division_equations; lia.
Qed.

Lemma land_bit x k : 0 ≤ k → (Z.land x (Z.shiftl 1 k) =? 0) = negb (Z.testbit x k).
Proof.
  intros Hk. rewrite Z.shiftl_1_l. destruct (Z.testbit x k) eqn:E; cbn [negb].
  - apply Z.eqb_neq. intros H. apply (f_equal (λ y, Z.testbit y k)) in H. by rewrite Z.land_spec, E, Z.pow2_bits_true, Z.bits_0 in H.
  - apply Z.eqb_eq. apply Z.bits_inj'. intros j Hj. rewrite Z.land_spec, Z.bits_0, Z.pow2_bits_eqb by done.
    destruct (Z.eqb_spec k j) as [-> |]; [by rewrite E|by rewrite andb_false_r].
Qed.

Lemma land_bit_u8 x k : 0 ≤ k < 8 → (Z.land (u8 x) (Z.shiftl 1 k) =? 0) = negb (Z.testbit x k).
Proof. intros Hk. rewrite land_bit by lia. unfold u8. change 256 with (2 ^ 8). by rewrite Z.mod_pow2_bits_low by lia. Qed.

Section clock.
Context (dev : list access → reg → Z) (bcd : bool) (date : nat → rtcdate) (busy : nat → bool) (Hc : chip dev bcd date busy).

Definition shown (x : Z) : Z := if bcd then bcd_of x else x.

Lemma shown_inj x y : 0 ≤ x < 100 → 0 ≤ y < 100 → shown x = shown y → x = y.
Proof. unfold shown. destruct bcd; [|done]. intros Hx Hy E. by rewrite <- (conv_bcd x), <- (conv_bcd y), E. Qed.

Lemma wp_cmos_read r s (Q : Z → hw → Prop) : 0 ≤ r < 256 →
  (∀ s', length (hlog s') = (length (hlog s) + 2)%nat → hmem s' = hmem s →
    Q (u8 (dev (hlog s ++ [Wr (Port CMOS_PORT) r]) (Port CMOS_RETURN))) s') → wp (cmos_read dev r) s Q.
Proof.
  intros Hr HQ. unfold cmos_read. dev_step. rewrite (u8_small r) by done. apply HQ; [|done]. cbn [hlog]. rewrite !length_app. cbn [length]. lia.
Qed.

Lemma wp_read_field r f t s (Q : Z → hw → Prop) : (r, f) ∈ clock_regs → 0 ≤ r < 256 → length (hlog s) = t →
  (∀ s', length (hlog s') = (t + 2)%nat → hmem s' = hmem s → Q (shown (f (date t))) s') → wp (cmos_read dev r) s Q.
Proof.
  intros Hin Hr <- HQ. apply wp_cmos_read; [done|]. intros s' E1 E2. rewrite (chip_date _ _ _ _ Hc _ _ _ Hin). by apply HQ.
Qed.

(** What fill_rtcdate reads from the [t]-th access on: each field at its own
    time. *)
Definition reading (t : nat) : rtcdate :=
  MkDate (shown (second (date t))) (shown (minute (date (t + 2)))) (shown (hour (date (t + 4))))
    (shown (day (date (t + 6)))) (shown (month (date (t + 8)))) (shown (year (date (t + 10)))).

Ltac clock_reg := unfold clock_regs; repeat (first [apply list_elem_of_here | apply list_elem_of_further]).

Lemma wp_fill_rtcdate s t (Q : rtcdate → hw → Prop) : length (hlog s) = t →
  (∀ s', length (hlog s') = (t + 12)%nat → hmem s' = hmem s → Q (reading t) s') → wp (fill_rtcdate dev) s Q.
Proof.
  intros Ht HQ. unfold fill_rtcdate.
  wp_step. apply (wp_read_field SECS second t); [clock_reg|done|done|]. intros s1 L1 M1.
  wp_step. apply (wp_read_field MINS minute (t + 2)); [clock_reg|done|lia|]. intros s2 L2 M2.
  wp_step. apply (wp_read_field HOURS hour (t + 4)); [clock_reg|done|lia|]. intros s3 L3 M3.
  wp_step. apply (wp_read_field DAY day (t + 6)); [clock_reg|done|lia|]. intros s4 L4 M4.
  wp_step. apply (wp_read_field MONTH month (t + 8)); [clock_reg|done|lia|]. intros s5 L5 M5.
  wp_step. apply (wp_read_field YEAR year (t + 10)); [clock_reg|done|lia|]. intros s6 L6 M6.
  wp_step. apply HQ; [lia|congruence].
Qed.

(** Two equal readings, 14 accesses apart, are of one date. *)
Definition shown_date (d : rtcdate) : rtcdate :=
  MkDate (shown (second d)) (shown (minute d)) (shown (hour d)) (shown (day d)) (shown (month d)) (shown (year d)).

Lemma reading_still t d : (∀ b, (t ≤ b ≤ t + 10)%nat → date b = d) → reading t = shown_date d.
Proof. intros H. unfold reading, shown_date. by rewrite !H by lia. Qed.

Lemma readings_agree t : reading t = reading (t + 14) → reading t = shown_date (date t).
Proof.
  intros E. apply reading_still. intros b Hb. apply (chip_slow _ _ _ _ Hc t b (t + 14)); [lia|lia|].
  apply shown_inj; [eapply chip_range; [done|clock_reg]..|]. unfold reading in E. congruence.
Qed.

Lemma chip_busy h : (Z.land (u8 (dev (h ++ [Wr (Port CMOS_PORT) CMOS_STATA]) (Port CMOS_RETURN))) CMOS_UIP =? 0) = negb (busy (length h)).
Proof. rewrite <- (chip_a _ _ _ _ Hc). by apply land_bit_u8. Qed.

(** From an access on the chip is idle and the date stands still. *)
Definition still (n : nat) : Prop := ∀ b, (n ≤ b < n + 52)%nat → date b = date n ∧ busy b = false.

Lemma wp_cmos_loop n : still n → ∀ fuel s t, length (hlog s) = t → (t < n + 26)%nat → (n < t + fuel)%nat → (0 < fuel)%nat →
  wp (cmos_loop dev fuel) s (λ d s', hmem s' = hmem s ∧ ∃ a, (t ≤ a)%nat ∧ d = shown_date (date a)).
Proof.
  intros Hst. induction fuel as [|fuel IH]; intros s t Ht Hn Hf H0; [lia|]. cbn [cmos_loop].
  wp_step. apply (wp_fill_rtcdate s t); [done|]. intros s1 L1 M1.
  wp_step. apply wp_cmos_read; [done|]. intros s2 L2 M2. rewrite chip_busy, negb_involutive, L1.
  destruct (busy (t + 12)) eqn:Eb.
  { assert (t < n)%nat. { destruct (decide (t < n)%nat); [done|]. destruct (Hst (t + 12)%nat) as [_ H]; [lia|congruence]. }
    eapply wp_mono; [apply (IH s2 (t + 14)%nat); lia|]. intros d s' (Em & a & Ha & ->). split; [congruence|]. exists a. split; [lia|done]. }
  wp_step. apply (wp_fill_rtcdate s2 (t + 14)); [lia|]. intros s3 L3 M3.
  case_bool_decide as Heq.
  { wp_step. split; [congruence|]. exists t. split; [lia|]. by apply readings_agree. }
  assert (t < n)%nat.
  { destruct (decide (t < n)%nat); [done|]. destruct Heq. rewrite !(reading_still _ (date n)); [done|intros b Hb; apply Hst; lia..]. }
  eapply wp_mono; [apply (IH s3 (t + 26)%nat); lia|]. intros d s' (Em & a & Ha & ->). split; [congruence|]. exists a. split; [lia|done].
Qed.

(** cmostime returns a date that the clock has shown, all fields of it at one
    moment since the call, decoded, and does so as soon as the clock stands
    still for 52 accesses. *)
Theorem cmostime_correct n fuel s :
  still n → (length (hlog s) < n)%nat → (n < fuel)%nat →
  wp (cmostime dev fuel) s (λ d s', hmem s' = hmem s ∧ ∃ a, (length (hlog s) ≤ a)%nat
    ∧ d = MkDate (second (date a)) (minute (date a)) (hour (date a)) (day (date a)) (month (date a)) (year (date a) + 2000)).
Proof.
  intros Hst Hn Hf. unfold cmostime. wp_step. apply wp_cmos_read; [done|]. intros s1 L1 M1.
  wp_step. eapply wp_mono; [apply (wp_cmos_loop n Hst fuel s1 _ L1); lia|]. intros d s2 (M2 & a & Ha & ->). wp_step. split; [congruence|].
  exists a. split; [lia|]. rewrite land_bit_u8, (chip_b _ _ _ _ Hc) by lia. rewrite negb_involutive.
  assert (Hr := chip_range _ _ _ _ Hc a). assert (0 ≤ year (date a) < 100) by (eapply Hr; clock_reg).
  unfold shown_date, shown. destruct bcd; cbn [second minute hour day month year].
  - rewrite !conv_bcd by (eapply Hr; clock_reg). by rewrite u32_small by lia.
  - by rewrite u32_small by lia.
Qed.
End clock.

(** A clock that shows 2023-04-05 23:59:58, in BCD, from the start. *)
Definition ex_clock : list access → reg → Z := λ h _,
  match last h with
  | Some (Wr _ 0) => 88 | Some (Wr _ 2) => 89 | Some (Wr _ 4) => 35
  | Some (Wr _ 7) => 5 | Some (Wr _ 8) => 4 | Some (Wr _ 9) => 35
  | _ => 0
  end.

Lemma ex_chip : chip ex_clock true (λ _, MkDate 58 59 23 5 4 23) (λ _, false).
Proof.
  split.
  - intros h r f H. unfold ex_clock. rewrite last_snoc. unfold clock_regs in H.
    repeat (apply elem_of_cons in H as [[= -> ->]|H]; [done|]). by apply not_elem_of_nil in H.
  - intros h. unfold ex_clock. by rewrite last_snoc.
  - intros h. unfold ex_clock. by rewrite last_snoc.
  - intros t r f H. unfold clock_regs in H.
    repeat (apply elem_of_cons in H as [[= -> ->]|H]; [done|]). by apply not_elem_of_nil in H.
  - done.
Qed.

Lemma cmostime_correct_witness :
  wp (cmostime ex_clock 2) (MkHw [] (λ _, 0)) (λ d _, d = MkDate 58 59 23 5 4 2023).
Proof.
  eapply wp_mono; [apply (cmostime_correct ex_clock true (λ _, MkDate 58 59 23 5 4 23) (λ _, false) ex_chip 1 2 (MkHw [] (λ _, 0)))|].
  - by intros b Hb.
  - cbn. lia.
  - lia.
  - by intros d s' (_ & a & _ & ->).
Defined.
