(* ===== verification/Boot.v ===== *)
(** The boot loader, bootmain.c: it loads the kernel, an ELF file that starts
    at sector 1 of the disk, into physical memory; and startothers of main.c,
    which starts the other processors. *)

From S2P Require Import Prelude Params Cstring Kalloc Devices.

Definition SECTSIZE : Z := 512.
Definition BOOT_ELF_MAGIC : Z := 1179403647.   (* 0x464C457F *)
Definition elf : Z := 65536.                   (* 0x10000, scratch space *)

Section boot.
(** The devices, and the bytes that insl transfers after the accesses so
    far. *)
Context (dev : list access → reg → Z) (pio : list access → Z → Z).

(** while((inb(0x1F7) & 0xC0) != 0x40); *)
Fixpoint waitdisk (fuel : nat) : M hw unit :=
  match fuel with
  | O => out_of_fuel
  | S fuel' =>
      x <- inb dev 503 ;;
      if negb (Z.land x 192 =? 64) then waitdisk fuel' else ret tt
  end.

(** insl(0x1F0, dst, SECTSIZE/4) *)
Definition insl (dst : Z) : M hw unit := λ s,
  Ret (tt, MkHw (hlog s ++ [Rd (Port 496)])
    (λ x, if (dst <=? x) && (x <? dst + SECTSIZE) then u8 (pio (hlog s) (x - dst)) else hmem s x)).

Definition readsect (fuel : nat) (dst offset : Z) : M hw unit :=
  waitdisk fuel ;;;
  outb 498 1 ;;;
  outb 499 offset ;;;
  outb 500 (Z.shiftr offset 8) ;;;
  outb 501 (Z.shiftr offset 16) ;;;
  outb 502 (Z.lor (Z.shiftr offset 24) 224) ;;;
  outb 503 32 ;;;
  waitdisk fuel ;;;
  insl dst.

Fixpoint readseg_loop (n : nat) (fuel : nat) (pa epa offset : Z) : M hw unit :=
  if pa <? epa then
    match n with
    | O => out_of_fuel
    | S n' =>
        readsect fuel pa offset ;;;
        readseg_loop n' fuel (u32 (pa + SECTSIZE)) epa (u32 (offset + 1))
    end
  else ret tt.

Definition readseg (fuel : nat) (pa count offset : Z) : M hw unit :=
  let epa := u32 (pa + count) in
  let pa := u32 (pa - offset mod SECTSIZE) in
  let offset := offset / SECTSIZE + 1 in
  readseg_loop (Z.to_nat (count / SECTSIZE + 2)) fuel pa epa offset.

(** A field of the headers, which are read from memory each time. *)
Definition word (a : Z) : M hw Z := gets (λ s, ld32 (hmem s) a).
Definition half (a : Z) : M hw Z := gets (λ s, ld16 (hmem s) a).

(** The body of the loop over the program headers. *)
Definition boot_segment (fuel : nat) (ph : Z) : M hw unit :=
  pa <- word (ph + 12) ;;
  filesz <- word (ph + 16) ;;
  off <- word (ph + 4) ;;
  readseg fuel pa filesz off ;;;
  memsz <- word (ph + 20) ;;
  filesz <- word (ph + 16) ;;
  if filesz <? memsz then hstore (stosb (u32 (pa + filesz)) 0 (Z.to_nat (memsz - filesz))) else ret tt.

Fixpoint boot_loop (n : nat) (fuel : nat) (ph eph : Z) : M hw unit :=
  match n with
  | O => ret tt
  | S n' =>
      if ph <? eph then
        boot_segment fuel ph ;;;
        boot_loop n' fuel (u32 (ph + 32)) eph
      else ret tt
  end.

(** bootmain; the result is the address that is called, None for the return
    to bootasm.S. *)
Definition bootmain (fuel : nat) : M hw (option Z) :=
  readseg fuel elf 4096 0 ;;;
  magic <- word elf ;;
  if negb (magic =? BOOT_ELF_MAGIC) then ret None else
  phoff <- word (elf + 28) ;;
  phnum <- half (elf + 44) ;;
  let ph := u32 (elf + phoff) in
  let eph := u32 (ph + 32 * phnum) in
  boot_loop (Z.to_nat phnum) fuel ph eph ;;;
  entry <- word (elf + 24) ;;
  ret (Some entry).

(** * The disk *)

(** The accesses that ask for one sector. *)
Definition read_command (lba : Z) : list access :=
  [Wr (Port 498) 1; Wr (Port 499) (lba mod 256); Wr (Port 500) (lba / 256 mod 256); Wr (Port 501) (lba / 65536 mod 256);
   Wr (Port 502) (224 + lba / 16777216); Wr (Port 503) 32].

(** A drive that holds the file [img] from sector 1 on: after the command,
    and any number of polls, the data register gives the sector asked for;
    and the drive gets ready within [k] polls. *)
Record drive (img : mem) (k : nat) : Prop := {
  dr_ok : mem_ok img;
  dr_data : ∀ h lba j i, 1 ≤ lba < 268435456 → 0 ≤ i < SECTSIZE →
    pio (h ++ read_command lba ++ replicate j (Rd (Port 503))) i = img ((lba - 1) * SECTSIZE + i);
  dr_ready : ∀ h, ∃ j, (j ≤ k)%nat ∧ Z.land (u8 (dev (h ++ replicate j (Rd (Port 503))) (Port 503))) 192 = 64
}.

Section run.
Context (img : mem) (k : nat) (D : drive img k) (fuel : nat) (Hfuel : (k < fuel)%nat).

Lemma wp_waitdisk_loop : ∀ j f s (Q : unit → hw → Prop),
  Z.land (u8 (dev (hlog s ++ replicate j (Rd (Port 503))) (Port 503))) 192 = 64 → (j < f)%nat →
  (∀ i, Q tt (MkHw (hlog s ++ replicate i (Rd (Port 503))) (hmem s))) → wp (waitdisk f) s Q.
Proof.
  induction j as [|j IH]; intros [|f] s Q H Hf HQ; try lia; cbn [waitdisk]; dev_step.
  - cbn in H. rewrite app_nil_r in H. rewrite H. cbn [negb Z.eqb Pos.eqb]. dev_step. apply (HQ 1%nat).
  - case_match; [|dev_step; apply (HQ 1%nat)].
    apply IH; cbn [hlog hmem]; [by rewrite <- app_assoc|lia|]. intros i. rewrite <- app_assoc. apply (HQ (S i)).
Qed.

Lemma wp_waitdisk s (Q : unit → hw → Prop) :
  (∀ i, Q tt (MkHw (hlog s ++ replicate i (Rd (Port 503))) (hmem s))) → wp (waitdisk fuel) s Q.
Proof. intros HQ. destruct (dr_ready _ _ D (hlog s)) as (j & Hj & H). eapply wp_waitdisk_loop; [done|lia|done]. Qed.

Lemma drive_select lba : 0 ≤ lba < 268435456 → u8 (Z.lor (Z.shiftr lba 24) 224) = 224 + lba / 16777216.
Proof.
  intros H. rewrite Z.shiftr_div_pow2 by lia. change (2 ^ 24) with 16777216.
  assert (0 ≤ lba / 16777216 < 16) by (split; [apply Z.div_pos|apply Z.div_lt_upper_bound]; lia).
  rewrite Z.lor_comm. change 224 with (Z.shiftl 14 4) at 1. rewrite lor_shiftl_add by (change (2 ^ 4) with 16; lia).
  change (14 * 2 ^ 4) with 224. apply u8_small. lia.
Qed.

(** Memory [m'] is [m] with [n] bytes of the file, from [o] on, at [a]. *)
Definition filled (a o n : Z) (m m' : mem) : Prop :=
  ∀ x, m' x = if (a <=? x) && (x <? a + n) then img (o + (x - a)) else m x.

Lemma wp_readsect dst lba s (Q : unit → hw → Prop) : 1 ≤ lba < 268435456 →
  (∀ s', filled dst ((lba - 1) * SECTSIZE) SECTSIZE (hmem s) (hmem s') → Q tt s') → wp (readsect fuel dst lba) s Q.
Proof.
  intros Hl HQ. unfold readsect. wp_step. apply wp_waitdisk. intros i0. dev_step. apply wp_waitdisk. intros i. cbn [hlog hmem].
  eexists _, _. split; [reflexivity|]. apply HQ. intros x. cbn [hmem hlog]. destruct (Z.leb_spec dst x), (Z.ltb_spec x (dst + SECTSIZE)); cbn [andb]; try done.
  rewrite drive_select, !Z.shiftr_div_pow2 by lia. rewrite <- !app_assoc.
  rewrite <- (u8_small (img _)) by apply (dr_ok _ _ D). f_equal. rewrite app_assoc.
  exact (dr_data _ _ D (hlog s ++ replicate i0 (Rd (Port 503))) lba i (x - dst) Hl ltac:(lia)).
Qed.

Lemma filled_app a o n n' m m1 m2 : 0 ≤ n → 0 ≤ n' → filled a o n m m1 → filled (a + n) (o + n) n' m1 m2 → filled a o (n + n') m m2.
Proof.
  intros Hn Hn' H1 H2 x. rewrite H2, H1. zcases; try done. f_equal. lia.
Qed.

Lemma wp_readseg_loop : ∀ j n pa epa lba s (Q : unit → hw → Prop), (j ≤ n)%nat → 0 ≤ pa → 1 ≤ lba →
  pa + SECTSIZE * Z.of_nat j < 4294967296 → lba + Z.of_nat j ≤ 268435456 →
  epa ≤ pa + SECTSIZE * Z.of_nat j → (∀ i, 0 ≤ i < Z.of_nat j → pa + SECTSIZE * i < epa) →
  (∀ s', filled pa ((lba - 1) * SECTSIZE) (SECTSIZE * Z.of_nat j) (hmem s) (hmem s') → Q tt s') → wp (readseg_loop n fuel pa epa lba) s Q.
Proof.
  induction j as [|j IH]; intros n pa epa lba s Q Hn Hpa Hl Hw Hm He Hi HQ.
  - assert (E : (pa <? epa) = false) by (apply Z.ltb_ge; lia). destruct n; cbn [readseg_loop]; rewrite E; wp_step; apply HQ; intros x; zcases; done.
  - destruct n as [|n]; [lia|]. cbn [readseg_loop]. rewrite (proj2 (Z.ltb_lt _ _)) by (specialize (Hi 0); lia).
    unfold SECTSIZE in *. wp_step. apply wp_readsect; [lia|]. intros s1 F1. rewrite !u32_small by lia.
    apply IH; [lia..| |].
    + intros i ?. specialize (Hi (i + 1)). lia.
    + intros s2 F2. apply HQ. replace (512 * Z.of_nat (S j)) with (512 + 512 * Z.of_nat j) by lia.
      apply (filled_app _ _ _ _ _ (hmem s1)); [lia|lia|done|]. by replace ((lba - 1) * 512 + 512) with ((lba + 1 - 1) * 512) by lia.
Qed.

(** The sectors that readseg reads for [count] bytes from [off]. *)
Definition sectors (count off : Z) : Z := (off mod SECTSIZE + count + 511) / SECTSIZE.

Lemma wp_readseg pa count off s (Q : unit → hw → Prop) : 0 ≤ count → 0 ≤ off → off mod SECTSIZE ≤ pa →
  pa - off mod SECTSIZE + SECTSIZE * sectors count off < 4294967296 → off / SECTSIZE + sectors count off < 268435456 →
  (∀ s', filled (pa - off mod SECTSIZE) (off - off mod SECTSIZE) (SECTSIZE * sectors count off) (hmem s) (hmem s') → Q tt s') →
  wp (readseg fuel pa count off) s Q.
Proof.
  intros Hc Ho Hpa Hw Hm HQ. unfold readseg, sectors, SECTSIZE in *. set (n := (off mod 512 + count + 511) / 512) in *.
  assert (0 ≤ n ∧ n ≤ count / 512 + 2 ∧ off mod 512 + count ≤ 512 * n ∧ 512 * (n - 1) < off mod 512 + count ∧ 0 ≤ off mod 512 < 512 ∧ 0 ≤ off / 512
    ∧ 512 * (off / 512) = off - off mod 512) as (N1 & N2 & N3 & N4 & N5 & N6 & N7) by (subst n; Z.to_euclidean_division_equations; lia).
  rewrite !u32_small by lia. apply (wp_readseg_loop (Z.to_nat n)); rewrite ?Z2Nat.id by lia; unfold SECTSIZE; [lia..| | |].
  - lia.
  - intros i Hi. nia.
  - intros s' F. apply HQ. replace (off - off mod 512) with ((off / 512 + 1 - 1) * 512) by lia. done.
Qed.

(** * The kernel file *)

Record seg : Type := MkSeg { s_off : Z; s_pa : Z; s_filesz : Z; s_memsz : Z }.

(** The program header at [a] of the file. *)
Definition seg_at (m : mem) (a : Z) : seg := MkSeg (ld32 m (a + 4)) (ld32 m (a + 12)) (ld32 m (a + 16)) (ld32 m (a + 20)).

Fixpoint segs (m : mem) (a : Z) (n : nat) : list seg :=
  match n with O => [] | S n' => seg_at m a :: segs m (a + 32) n' end.

(** What loading a segment writes: whole sectors, and zeros up to memsz. *)
Definition seg_lo (s : seg) : Z := s_pa s - s_off s mod SECTSIZE.
Definition seg_hi (s : seg) : Z := Z.max (seg_lo s + SECTSIZE * sectors (s_filesz s) (s_off s)) (s_pa s + s_memsz s).

Record seg_ok (s : seg) : Prop := {
  so_lo : 0 ≤ seg_lo s;
  so_hi : seg_hi s < 4294967296;
  so_disk : s_off s / SECTSIZE + sectors (s_filesz s) (s_off s) < 268435456;
  so_sizes : s_filesz s ≤ s_memsz s;
  (** it stays clear of the page that holds the headers *)
  so_clear : seg_hi s ≤ elf ∨ elf + 4096 ≤ seg_lo s
}.

(** The segment is in memory. *)
Definition seg_in (m : mem) (s : seg) : Prop := ∀ x, s_pa s ≤ x < s_pa s + s_memsz s →
  m x = if x <? s_pa s + s_filesz s then img (s_off s + (x - s_pa s)) else 0.

(** Loading a later segment does not write over an earlier one. *)
Definition later_clear (s s' : seg) : Prop := seg_hi s' ≤ s_pa s ∨ s_pa s + s_memsz s ≤ seg_lo s'.

Fixpoint segs_ok (l : list seg) : Prop :=
  match l with [] => True | s :: l' => seg_ok s ∧ Forall (later_clear s) l' ∧ segs_ok l' end.

(** The page of headers is in the scratch space. *)
Definition scratch (m : mem) : Prop := ∀ i, 0 ≤ i < 4096 → m (elf + i) = img i.

Lemma scratch_ld32 m a : scratch m → 0 ≤ a → a + 4 ≤ 4096 → ld32 m (elf + a) = ld32 img a.
Proof. intros H Ha Hb. unfold ld32. rewrite <- !Z.add_assoc, !H by lia. done. Qed.

Lemma scratch_seg m a : scratch m → 0 ≤ a → a + 32 ≤ 4096 → seg_at m (elf + a) = seg_at img a.
Proof. intros H Ha Hb. unfold seg_at. by rewrite <- !Z.add_assoc, !(scratch_ld32 m) by (done || lia). Qed.

(** Outside [lo, hi) the memory is as it was. *)
Definition kept (lo hi : Z) (m m' : mem) : Prop := ∀ x, x < lo ∨ hi ≤ x → m' x = m x.

Lemma scratch_kept lo hi m m' : kept lo hi m m' → hi ≤ elf ∨ elf + 4096 ≤ lo → scratch m → scratch m'.
Proof. intros H Hc Hs i Hi. rewrite H by lia. by apply Hs. Qed.

Lemma wp_boot_segment a s (Q : unit → hw → Prop) : scratch (hmem s) → 0 ≤ a → a + 32 ≤ 4096 → seg_ok (seg_at img a) →
  (∀ s', seg_in (hmem s') (seg_at img a) → kept (seg_lo (seg_at img a)) (seg_hi (seg_at img a)) (hmem s) (hmem s') → Q tt s') →
  wp (boot_segment fuel (elf + a)) s Q.
Proof.
  intros Hs Ha Hb Hok HQ. unfold boot_segment, word. do 6 wp_step. rewrite <- !Z.add_assoc, !(scratch_ld32 (hmem s)) by (done || lia).
  assert (Hr : ∀ i, 0 ≤ ld32 img (a + i) < 4294967296) by (intros; apply ld32_range, (dr_ok _ _ D)).
  destruct Hok as [H1 H2 H3 H4 H5]. unfold seg_hi, seg_lo, seg_in in *. cbn [seg_at s_off s_pa s_filesz s_memsz] in *.
  pose proof (Hr 4). pose proof (Hr 12). pose proof (Hr 16). pose proof (Hr 20).
  set (off := ld32 img (a + 4)) in *. set (pa := ld32 img (a + 12)) in *. set (fsz := ld32 img (a + 16)) in *. set (msz := ld32 img (a + 20)) in *.
  assert (Hn : off mod SECTSIZE + fsz ≤ SECTSIZE * sectors fsz off ∧ 0 ≤ off mod SECTSIZE) by (unfold sectors, SECTSIZE; Z.to_euclidean_division_equations; lia).
  wp_step. apply wp_readseg; [lia..|]. intros s1 F.
  assert (Hs1 : scratch (hmem s1)).
  { intros i Hi. rewrite F. zcases; by apply Hs. }
  do 4 wp_step. rewrite !(scratch_ld32 (hmem s1)) by (done || lia). fold fsz msz.
  destruct (Z.ltb_spec fsz msz); unfold hstore; wp_step; apply HQ; cbn [hmem]; intros x Hx.
  - rewrite stosb_spec, u32_small, Z2Nat.id, F by lia. zcases; try done. f_equal. lia.
  - rewrite stosb_spec, u32_small, Z2Nat.id, F by lia. zcases; done.
  - rewrite F. zcases; try lia. f_equal. lia.
  - rewrite F. zcases; done.
Qed.

Lemma seg_in_kept g s m m' : later_clear g s → kept (seg_lo s) (seg_hi s) m m' → seg_in m g → seg_in m' g.
Proof. intros [Hc|Hc] Hk H x Hx; rewrite Hk by lia; by apply H. Qed.

(** The address is outside what the segments write. *)
Definition outside (l : list seg) (x : Z) : Prop := Forall (λ g, x < seg_lo g ∨ seg_hi g ≤ x) l.

Lemma wp_boot_loop : ∀ n a l s (Q : unit → hw → Prop), scratch (hmem s) → 0 ≤ a → a + 32 * Z.of_nat n ≤ 4096 → segs_ok (segs img a n) →
  Forall (λ g, seg_in (hmem s) g ∧ Forall (later_clear g) (segs img a n)) l →
  (∀ s', Forall (seg_in (hmem s')) (l ++ segs img a n) → scratch (hmem s') → (∀ x, outside (segs img a n) x → hmem s' x = hmem s x) → Q tt s') →
  wp (boot_loop n fuel (elf + a) (elf + a + 32 * Z.of_nat n)) s Q.
Proof.
  induction n as [|n IH]; intros a l s Q Hs Ha Hb Hok Hl HQ; cbn [boot_loop segs].
  - wp_step. apply HQ; [|done|done]. rewrite app_nil_r. eapply Forall_impl; [done|]. by intros g [? _].
  - destruct Hok as (H1 & H2 & H3). rewrite (proj2 (Z.ltb_lt _ _)) by lia. wp_step. apply wp_boot_segment; [done|done|lia|done|]. intros s1 I1 K1.
    rewrite u32_small by (unfold elf; lia). replace (elf + a + 32) with (elf + (a + 32)) by lia.
    replace (elf + a + 32 * Z.of_nat (S n)) with (elf + (a + 32) + 32 * Z.of_nat n) by lia.
    apply (IH (a + 32) (l ++ [seg_at img a])); [|lia|lia|done| |].
    + eapply scratch_kept; [done|apply H1|done].
    + apply Forall_app. split; [|by repeat constructor]. eapply Forall_impl; [exact Hl|]. intros g [Hg1 Hg2]. cbn [segs] in Hg2.
      apply Forall_cons in Hg2 as [Hg2 Hg3]. split; [by eapply seg_in_kept|done].
    + intros s' F S' O. rewrite <- app_assoc in F. apply HQ; [done|done|]. intros x Hx. cbn [segs] in Hx. apply Forall_cons in Hx as [Hx1 Hx2].
      by rewrite O, K1.
Qed.

(** The file is a kernel that can be booted: its headers are in its first
    page, and its segments are well placed. *)
Record bootable : Prop := {
  bo_magic : ld32 img 0 = BOOT_ELF_MAGIC;
  bo_headers : ld32 img 28 + 32 * ld16 img 44 ≤ 4096;
  bo_segs : segs_ok (segs img (ld32 img 28) (Z.to_nat (ld16 img 44)))
}.

Lemma wp_headers s (Q : unit → hw → Prop) :
  (∀ s', scratch (hmem s') → kept elf (elf + 4096) (hmem s) (hmem s') → Q tt s') → wp (readseg fuel elf 4096 0) s Q.
Proof.
  intros HQ. apply wp_readseg; [done..|]. change (SECTSIZE * sectors 4096 0) with 4096. change (0 mod SECTSIZE) with 0. rewrite !Z.sub_0_r.
  intros s' F. apply HQ.
  - intros i Hi. rewrite F. zcases. f_equal. lia.
  - intros x Hx. rewrite F. zcases; done.
Qed.

(** C35. bootmain loads a kernel that can be booted: every segment is in memory,
    its bytes from the file and the rest zero, nothing is written elsewhere
    but to the scratch page, and the entry point of the file is called. *)
Theorem bootmain_correct s : bootable →
  wp (bootmain fuel) s (λ r s', r = Some (ld32 img 24)
    ∧ Forall (seg_in (hmem s')) (segs img (ld32 img 28) (Z.to_nat (ld16 img 44)))
    ∧ ∀ x, x < elf ∨ elf + 4096 ≤ x → outside (segs img (ld32 img 28) (Z.to_nat (ld16 img 44))) x → hmem s' x = hmem s x).
Proof.
  intros [Hm Hh Hs]. unfold bootmain, word, half. wp_step. apply wp_headers. intros s1 S1 K1. do 2 wp_step.
  rewrite <- (Z.add_0_r elf) at 1. rewrite (scratch_ld32 (hmem s1)), Hm by (done || lia). change (negb (BOOT_ELF_MAGIC =? BOOT_ELF_MAGIC)) with false. cbv iota.
  do 4 wp_step. rewrite (scratch_ld32 (hmem s1)) by (done || lia).
  assert (E : ld16 (hmem s1) (elf + 44) = ld16 img 44) by (unfold ld16; rewrite <- Z.add_assoc, !S1 by lia; done). rewrite E.
  pose proof (ld32_range img 28 (dr_ok _ _ D)). assert (0 ≤ ld16 img 44). { unfold ld16. pose proof (dr_ok _ _ D 44). pose proof (dr_ok _ _ D (44 + 1)). lia. }
  rewrite !u32_small by (unfold elf; lia). rewrite <- (Z2Nat.id (ld16 img 44)) at 2 by done.
  wp_step. apply (wp_boot_loop _ _ []); [done|lia|lia|done|done|]. intros s2 F S2 O. do 3 wp_step.
  rewrite (scratch_ld32 (hmem s2)) by (done || lia). split; [done|split; [done|]]. intros x Hx Hy. by rewrite O, K1.
Qed.

(** A file without the magic number is not run. *)
Theorem bootmain_rejects s : ld32 img 0 ≠ BOOT_ELF_MAGIC →
  wp (bootmain fuel) s (λ r s', r = None ∧ kept elf (elf + 4096) (hmem s) (hmem s')).
Proof.
  intros Hm. unfold bootmain, word. wp_step. apply wp_headers. intros s1 S1 K1. do 2 wp_step.
  rewrite <- (Z.add_0_r elf) at 1. rewrite (scratch_ld32 (hmem s1)), (proj2 (Z.eqb_neq _ _) Hm) by (done || lia). cbn [negb]. wp_step. done.
Qed.
End run.
End boot.

(** * An example *)

(** A drive that is always ready and keeps the sector in its registers. *)
Definition ex_ready : list access → reg → Z := λ _ _, 64.
Definition port_byte (h : list access) (p : Z) : Z := default 0 (written h (Port p)).
Definition ex_pio (img : mem) (h : list access) (i : Z) : Z :=
  img ((port_byte h 499 + 256 * port_byte h 500 + 65536 * port_byte h 501 + 16777216 * (port_byte h 502 - 224) - 1) * SECTSIZE + i).

Lemma ex_drive img : mem_ok img → drive ex_ready (ex_pio img) img 0.
Proof.
  intros Hi. split; [done| |].
  - intros h lba j i Hl Hr. unfold ex_pio, port_byte, read_command. rewrite app_assoc. rewrite !written_polls.
    change [Wr (Port 498) 1; Wr (Port 499) (lba mod 256); Wr (Port 500) (lba / 256 mod 256); Wr (Port 501) (lba / 65536 mod 256); Wr (Port 502) (224 + lba / 16777216); Wr (Port 503) 32]
      with ([Wr (Port 498) 1] ++ [Wr (Port 499) (lba mod 256)] ++ [Wr (Port 500) (lba / 256 mod 256)] ++ [Wr (Port 501) (lba / 65536 mod 256)] ++ [Wr (Port 502) (224 + lba / 16777216)] ++ [Wr (Port 503) 32]).
    rewrite !app_assoc, !written_snoc. cbn [written1].
    repeat (case_decide; try congruence). cbn [from_option id]. f_equal. unfold SECTSIZE. Z.to_euclidean_division_equations; lia.
  - intros h. exists 0%nat. split; [lia|done].
Qed.

(** A kernel of one segment: 600 bytes of the file from 4096 at 1 MB, and 400
    zeros after them. *)
Definition ex_kernel : mem :=
  st32 0 BOOT_ELF_MAGIC (st32 24 1048588 (st32 28 52 (st8 44 1 (st32 56 4096 (st32 64 1048576 (st32 68 600 (st32 72 1000
    (λ x, if (4096 <=? x) && (x <? 4696) then x mod 251 else 0)))))))).

Lemma ex_kernel_ok : mem_ok ex_kernel.
Proof.
  unfold ex_kernel. repeat (apply st32_ok || apply st8_ok). intros x. destruct (_ && _); [|lia]. pose proof (Z.mod_pos_bound x 251). lia.
Qed.

Lemma ex_bootable : bootable ex_kernel.
Proof.
  split; [reflexivity|vm_compute; congruence|]. change (segs _ _ _) with [MkSeg 4096 1048576 600 1000]. split; [|done].
  split; vm_compute; try congruence. right. congruence.
Qed.

Lemma bootmain_correct_witness :
  wp (bootmain ex_ready (ex_pio ex_kernel) 1) (MkHw [] (λ _, 7)) (λ r s', r = Some 1048588 ∧ hmem s' 1048577 = 81 ∧ hmem s' (1048576 + 700) = 0 ∧ hmem s' 100 = 7).
Proof.
  eapply wp_mono; [apply (bootmain_correct ex_ready (ex_pio ex_kernel) ex_kernel 0 (ex_drive _ ex_kernel_ok) 1 ltac:(lia) (MkHw [] (λ _, 7)) ex_bootable)|].
  intros r s' (-> & F & O). split; [reflexivity|]. change (segs _ _ _) with [MkSeg 4096 1048576 600 1000] in F, O. apply Forall_cons in F as [F _].
  split; [rewrite F by (cbn; lia); reflexivity|]. split; [rewrite F by (cbn; lia); reflexivity|].
  rewrite O; [reflexivity|unfold elf; lia|]. apply Forall_singleton. left. vm_compute. reflexivity.
Defined.

Lemma bootmain_rejects_witness :
  wp (bootmain ex_ready (ex_pio (λ _, 0)) 1) (MkHw [] (λ _, 7)) (λ r s', r = None ∧ kept elf (elf + 4096) (λ _, 7) (hmem s')).
Proof.
  apply (bootmain_rejects ex_ready (ex_pio (λ _, 0)) (λ _, 0) 0 (ex_drive (λ _, 0) (λ _, conj (Z.le_refl 0) eq_refl)) 1 ltac:(lia) (MkHw [] (λ _, 7))). vm_compute. congruence.
Defined.

(** * Starting the other processors *)

(** The kernel's memory with its allocator, and the accesses to devices. *)
Record smp : Type := MkSmp { sm_km : kmem; sm_log : list access }.

Definition on_kmem {A} (c : M kmem A) : M smp A := λ s,
  match c (sm_km s) with
  | Ret (a, k) => Ret (a, MkSmp k (sm_log s))
  | Panic msg => Panic msg
  | Undef => Undef
  | OutOfFuel => OutOfFuel
  end.

Definition on_hw {A} (c : M hw A) : M smp A := λ s,
  match c (MkHw (sm_log s) (km_mem (sm_km s))) with
  | Ret (a, s') => Ret (a, MkSmp (set_mem (hmem s') (sm_km s)) (hlog s'))
  | Panic msg => Panic msg
  | Undef => Undef
  | OutOfFuel => OutOfFuel
  end.

(** code = P2V(0x7000) *)
Definition code : Z := P2V 28672.

Section startup.
Context (dev : list access → reg → Z).
(** Symbols of the linker: the image of entryother.S and its size, mpenter
    and entrypgdir. *)
Context (entryother_start entryother_size mpenter entrypgdir : Z).
(** The processor that runs the code; the other processors: what a poll of
    cpus[c].started sees, given the accesses so far, memory and the number of
    polls. *)
Context (me : nat) (started : list access → mem → nat → nat → bool).

(** while(c->started == 0); *)
Fixpoint wait_started (fuel : nat) (c j : nat) : M smp unit :=
  match fuel with
  | O => out_of_fuel
  | S fuel' =>
      up <- gets (λ s, started (sm_log s) (km_mem (sm_km s)) c j) ;;
      if up : bool then ret tt else wait_started fuel' c (S j)
  end.

Definition start_one (fuel : nat) (c : nat) (apicid : Z) : M smp unit :=
  stack <- on_kmem kalloc ;;
  on_kmem (store (st32 (code - 4) (stack + KSTACKSIZE))) ;;;
  on_kmem (store (st32 (code - 8) mpenter)) ;;;
  on_kmem (store (st32 (code - 12) (V2P entrypgdir))) ;;;
  on_hw (lapicstartap dev apicid (V2P code)) ;;;
  wait_started fuel c 0.

(** for(c = cpus; c < cpus+ncpu; c++), over the apicids of the cpus *)
Fixpoint start_loop (fuel : nat) (c : nat) (apicids : list Z) : M smp unit :=
  match apicids with
  | [] => ret tt
  | apicid :: rest =>
      (if (c =? me)%nat then ret tt else start_one fuel c apicid) ;;;
      start_loop fuel (S c) rest
  end.

Definition startothers (fuel : nat) (apicids : list Z) : M smp unit :=
  on_kmem (store (memmove code entryother_start entryother_size)) ;;;
  start_loop fuel 0 apicids.

(** * Correctness *)

Lemma wp_on_kmem {A} (c : M kmem A) s (Q : A → smp → Prop) :
  wp c (sm_km s) (λ a k, Q a (MkSmp k (sm_log s))) → wp (on_kmem c) s Q.
Proof. intros (a & k & E & H). exists a, (MkSmp k (sm_log s)). unfold on_kmem. by rewrite E. Qed.

Lemma wp_on_hw {A} (c : M hw A) s (Q : A → smp → Prop) :
  wp c (MkHw (sm_log s) (km_mem (sm_km s))) (λ a s', Q a (MkSmp (set_mem (hmem s') (sm_km s)) (hlog s'))) → wp (on_hw c) s Q.
Proof. intros (a & s' & E & H). eexists a, _. unfold on_hw. by rewrite E. Qed.

Context (kend : Z) (bytes : Z → Z).

(** The code of entryother.S is in place. *)
Definition loaded (m : mem) : Prop := ∀ i, 0 ≤ i < entryother_size → m (code + i) = bytes i.

(** What a processor that starts at 0x7000 needs: the code, and before it the
    top of a stack of its own, where to enter, and a page directory. *)
Definition launchable (m : mem) : Prop := loaded m ∧
  (∃ p, page_ok kend p ∧ ld32 m (code - 4) = p + 4096) ∧ ld32 m (code - 8) = mpenter ∧ ld32 m (code - 12) = V2P entrypgdir.

(** The processors of the machine: one that gets the start-up interrupt for
    page 7 while memory is as it needs it says so within [k] polls. *)
Definition responsive (apicids : list Z) (k : nat) : Prop := ∀ h m c id l,
  apicids !! c = Some id → launchable m → ipis h = l ++ [(id, STARTUP + 7)] → ∃ j, (j ≤ k)%nat ∧ started h m c j = true.

Lemma wp_wait_started c : ∀ d fuel j s (Q : unit → smp → Prop),
  started (sm_log s) (km_mem (sm_km s)) c (j + d) = true → (d < fuel)%nat → Q tt s → wp (wait_started fuel c j) s Q.
Proof.
  induction d as [|d IH]; intros [|fuel] j s Q H Hf HQ; try lia; cbn [wait_started]; do 2 wp_step.
  - rewrite Nat.add_0_r in H. rewrite H. by wp_step.
  - case_match; [by wp_step|]. apply IH; [by rewrite <- Nat.add_succ_comm in H|lia|done].
Qed.

(** The interrupts that start one processor. *)
Definition startup_ipis (id : Z) : list (Z * Z) :=
  pair id <$> [INIT + LEVEL + ASSERT; INIT + LEVEL; STARTUP + 7; STARTUP + 7].

Context (Hsize : 0 ≤ entryother_size ≤ 4096) (Hkend : KERNBASE + EXTMEM ≤ kend).
Context (Hent : 0 ≤ mpenter < 4294967296).

Lemma page_above p x : page_ok kend p → in_page p x → code + 4096 ≤ x.
Proof. intros (_ & Hp & _) Hx. unfold in_page in Hx. change code with 2147512320. unfold KERNBASE, EXTMEM in *. lia. Qed.

Lemma code_wrv : wrv + 4 ≤ code - 12.
Proof. vm_compute. discriminate. Qed.

(** Writes below the code of entryother.S keep it, and the free list. *)
Lemma kmem_rep_below km m l : kmem_rep kend km l → mem_ok m → (∀ x, code + 4096 ≤ x → m x = km_mem km x) → kmem_rep kend (set_mem m km) l.
Proof.
  intros Hk Hm Hx. apply kmem_rep_frame; [done|done|]. intros q x Hq Hin. symmetry. apply Hx.
  by eapply page_above; [eapply kmem_rep_pages|].
Qed.

(** The three words before the code. *)
Definition words (stack : Z) (m : mem) : mem :=
  st32 (code - 12) (V2P entrypgdir) (st32 (code - 8) mpenter (st32 (code - 4) (stack + KSTACKSIZE) m)).

Lemma words_launchable p m : loaded m → page_ok kend p → launchable (words p m) ∧ (∀ x, code ≤ x → words p m x = m x).
Proof.
  intros Hl Hp. assert (Ho : ∀ x, code ≤ x → words p m x = m x) by (intros; unfold words; by rewrite !st32_other by lia). split; [|done].
  destruct Hp as (? & ? & ? & ?). unfold KERNBASE, PHYSTOP, EXTMEM in *.
  split; [intros i Hi; rewrite Ho by lia; by apply Hl|]. unfold words, KSTACKSIZE. split; [exists p; split|split].
  - done.
  - rewrite !ld32_st32_other, ld32_st32_same by lia. apply u32_small. lia.
  - rewrite ld32_st32_other, ld32_st32_same by lia. by apply u32_small.
  - rewrite ld32_st32_same. apply u32_idem.
Qed.

Lemma launchable_ext m m' : launchable m → (∀ x, code - 12 ≤ x → m' x = m x) → launchable m'.
Proof.
  intros (H1 & (p & Hp & H2) & H3 & H4) H. split; [intros i Hi; rewrite H by lia; by apply H1|].
  split; [exists p; split; [done|rewrite <- H2]|split; [rewrite <- H3|rewrite <- H4]]; apply ld32_ext; intros; apply H; lia.
Qed.

Lemma wp_start_one apicids k fuel c id p l s (Q : unit → smp → Prop) :
  responsive apicids k → (k < fuel)%nat → apicids !! c = Some id → 0 ≤ id < 256 →
  kmem_rep kend (sm_km s) (p :: l) → loaded (km_mem (sm_km s)) →
  (∀ s', kmem_rep kend (sm_km s') l → loaded (km_mem (sm_km s')) → ipis (sm_log s') = ipis (sm_log s) ++ startup_ipis id → Q tt s') →
  wp (start_one fuel c id) s Q.
Proof.
  intros Hr Hf Hc Hid Hk Hl HQ. unfold start_one. destruct (kalloc_rep_cons _ _ _ _ Hk) as [E Hk'].
  wp_step. apply wp_on_kmem. eexists _, _. split; [exact E|]. cbn [sm_log].
  do 3 (wp_step; apply wp_on_kmem; unfold store; wp_step; cbn [sm_km sm_log km_mem set_mem set_freelist]).
  fold (words p (km_mem (sm_km s))). set (m1 := words p (km_mem (sm_km s))).
  destruct (words_launchable p (km_mem (sm_km s)) Hl) as [L1 O1]; [by eapply kmem_rep_pages; [|left]|]. fold m1 in L1, O1.
  wp_step. apply wp_on_hw. cbn [sm_km sm_log km_mem set_mem]. eapply wp_mono; [by apply lapicstartap_run|].
  intros _ [h m2] (I & _ & O2 & Hm2). cbn [hlog hmem] in *.
  assert (Hok : mem_ok m2) by (apply Hm2; do 3 apply st32_ok; apply Hk).
  assert (L2 : launchable m2) by (eapply launchable_ext; [done|]; intros x Hx; apply O2; pose proof code_wrv; lia).
  destruct (Hr h m2 c id (ipis (sm_log s) ++ (pair id <$> [INIT + LEVEL + ASSERT; INIT + LEVEL; STARTUP + 7]))) as (j & Hj & Hs); [done|done| |].
  { rewrite I, <- app_assoc. reflexivity. }
  apply (wp_wait_started c j); [done|lia|]. apply HQ; cbn [sm_km sm_log km_mem set_mem]; [|apply L2|rewrite I; reflexivity].
  apply (kmem_rep_below _ m2) in Hk'; [done|done|]. intros x Hx. cbn. rewrite O2 by (pose proof code_wrv; lia). apply O1. lia.
Qed.

(** The processors that are started: all but the one that runs the code. *)
Fixpoint others (c : nat) (apicids : list Z) : list Z :=
  match apicids with
  | [] => []
  | id :: rest => if (c =? me)%nat then others (S c) rest else id :: others (S c) rest
  end.

Lemma wp_start_loop apicids k fuel : responsive apicids k → (k < fuel)%nat → Forall (λ id, 0 ≤ id < 256) apicids →
  ∀ rest c l s (Q : unit → smp → Prop), drop c apicids = rest → (length (others c rest) ≤ length l)%nat →
  kmem_rep kend (sm_km s) l → loaded (km_mem (sm_km s)) →
  (∀ s', kmem_rep kend (sm_km s') (drop (length (others c rest)) l) → ipis (sm_log s') = ipis (sm_log s) ++ concat (startup_ipis <$> others c rest) → Q tt s') →
  wp (start_loop fuel c rest) s Q.
Proof.
  intros Hr Hf Hids. induction rest as [|id rest IH]; intros c l s Q Hd Hn Hk Hl HQ; cbn [start_loop others] in *.
  - wp_step. apply HQ; [done|]. by rewrite app_nil_r.
  - assert (Hc : apicids !! c = Some id) by (rewrite <- (Nat.add_0_r c), <- lookup_drop, Hd; done).
    assert (Hd' : drop (S c) apicids = rest) by (rewrite <- Nat.add_1_r, <- drop_drop, Hd; done).
    destruct (c =? me)%nat; wp_step; [wp_step; by apply (IH (S c) l)|]. destruct l as [|p l]; [cbn in Hn; lia|].
    apply (wp_start_one apicids k fuel c id p l); [done..|by eapply (Forall_lookup_1 (λ i, 0 ≤ i < 256))|done|done|]. intros s1 K1 L1 I1.
    apply (IH (S c) l); [done|cbn in Hn; lia|done|done|]. intros s' K2 I2. apply HQ; [done|]. rewrite I2, I1, <- app_assoc. done.
Qed.

(** C36. startothers starts every processor but its own, in order: it gives each
    a page of its own for a stack, sends the start-up interrupts to it alone
    and only once the code and the words before it are in place, so that
    every wait ends. *)
Theorem startothers_correct apicids k fuel l s :
  responsive apicids k → (k < fuel)%nat → Forall (λ id, 0 ≤ id < 256) apicids →
  kmem_rep kend (sm_km s) l → (length (others 0 apicids) ≤ length l)%nat →
  (∀ i, 0 ≤ i < entryother_size → km_mem (sm_km s) (entryother_start + i) = bytes i) →
  wp (startothers fuel apicids) s (λ _ s', kmem_rep kend (sm_km s') (drop (length (others 0 apicids)) l)
    ∧ ipis (sm_log s') = ipis (sm_log s) ++ concat (startup_ipis <$> others 0 apicids)).
Proof.
  intros Hr Hf Hids Hk Hn Hb. unfold startothers. wp_step. apply wp_on_kmem. unfold store. wp_step. pose proof (rep_mem_ok _ _ _ Hk) as Hok.
  apply (wp_start_loop apicids k fuel Hr Hf Hids apicids 0 l); cbn [sm_km sm_log km_mem set_mem]; [done|done| | |done].
  - apply kmem_rep_below; [done|apply memmove_ok; [done|lia]|]. intros x Hx. rewrite memmove_lookup by (done || lia). zcases; done.
  - intros i Hi. rewrite memmove_lookup by (done || lia). zcases. rewrite <- Hb by done. f_equal. lia.
Qed.
End startup.

(** * An example *)

(** Four processors, of which the first runs the code; the others answer as
    soon as a start-up interrupt has been sent to them. *)
Definition ex_started (apicids : list Z) (h : list access) (m : mem) (c j : nat) : bool :=
  match last (ipis h) with
  | Some (d, v) => bool_decide (apicids !! c = Some d) && (v =? STARTUP + 7)
  | None => false
  end.

Lemma ex_responsive kend apicids : responsive 300 2148532224 2148560896 (ex_started apicids) kend (λ i, i mod 7) apicids 0.
Proof.
  intros h m c id l Hc _ Hi. exists 0%nat. split; [done|]. unfold ex_started. rewrite Hi, last_snoc, Hc, bool_decide_true by done. done.
Qed.

Definition ex_smp : smp :=
  MkSmp (set_mem (λ x, if (2148536320 <=? x) && (x <? 2148536620) then (x - 2148536320) mod 7 else km_mem ex_kmem x) ex_kmem) [].

Lemma ex_smp_rep : kmem_rep ex_kend (sm_km ex_smp) ex_free.
Proof.
  apply kmem_rep_frame; [apply ex_rep| |].
  - intros x. destruct (_ && _); [|apply ex_rep]. pose proof (Z.mod_pos_bound (x - 2148536320) 7). lia.
  - intros q x Hq Hx. pose proof (kmem_rep_pages _ _ _ _ ex_rep Hq) as (_ & Hp & _). unfold in_page, ex_kend in *. zcases; done.
Qed.

Lemma startothers_correct_witness :
  wp (startothers ex_dev 2148536320 300 2148532224 2148560896 0 (ex_started [0; 1; 2; 3]) 1 [0; 1; 2; 3]) ex_smp
    (λ _ s', kmem_rep ex_kend (sm_km s') [] ∧ ipis (sm_log s') = startup_ipis 1 ++ startup_ipis 2 ++ startup_ipis 3).
Proof.
  apply (startothers_correct ex_dev 2148536320 300 2148532224 2148560896 0 (ex_started [0; 1; 2; 3]) ex_kend (λ i, i mod 7)
    ltac:(lia) ltac:(vm_compute; congruence) ltac:(lia) [0; 1; 2; 3] 0 1 ex_free ex_smp (ex_responsive _ _)).
  - lia.
  - by repeat (apply Forall_cons; split; [lia|]).
  - apply ex_smp_rep.
  - cbn. lia.
  - intros i Hi. cbn. zcases. f_equal. lia.
Defined.
